(* ===== verification/_CoqProject ===== *)
-Q . S2P
Prelude.v
Layout.v
CString.v
Locks.v
Spin.v
Kalloc.v
Vm.v
VmTab.v
VmSpace.v
VmCopy.v
VmGrow.v
VmWrite.v
Pipe.v
Bio.v
Ide.v
IdeSpec.v
Log.v
LogRep.v
Crash.v
Fs.v
FsBlock.v
FsMap.v
FsData.v
FsInode.v
FsExtent.v
FsTrunc.v
FsDir.v
FsName.v
Syscall.v
File.v
FileWrite.v
FsDemo.v
FsSpec.v
LogLimit.v
Sysfile.v
Exec.v
ExecSpec.v
Proc.v
ProcInv.v
ProcSched.v
Kernel.v
KernelSpec.v
KernelFork.v
Console.v
Kbd.v
Ulib.v
Umalloc.v
Grep.v
User.v
Shell.v
ShellSpec.v
ShellRun.v
UserRun.v
Find.v
FindSpec.v
Text.v
Cat.v
Wc.v
Uniq.v
TextSpec.v
Mkfs.v
MkfsSpec.v
MkfsImage.v
MkfsBoot.v
Hw.v
Boot.v
Mp.v
Ioapic.v
Lapic.v
Uart.v
Cpu.v
Asm.v
Usys.v
Startup.v
Entry.v
Ls.v
GrepRun.v
Small.v
Stat.v
Dump.v
