(* ===== verification/Prelude.v ===== *)
(** A verification of xv6 with double-indirect files, extents, symbolic links
    and three schedulers.

    The program is the x86 teaching kernel of src/, with its user programs.
    This library translates the C functions of the kernel, of the builder of the
    file system image, of the shell and of several user programs into Rocq
    functions over explicit states and proves what each part promises to the
    others.

    * The parts and their files

    - Prelude.v: the widths of the machine integers ([u8], [u16], [u32],
      [s32]), the bytes of memory ([get32], [put32], [splice], [slice]) and the
      monad [M S A] every stateful function is written in.  A run ends with
      [Ok] a value, in [Panic] with the message of the kernel's panic, in
      [Sleep] on a channel, in [Exit], in [PgFlt] when the kernel touches a user
      page that is not present, or in [Fault] for a null pointer or an index
      out of range.  [for_loop] and [while_loop] are the loops; a
      [while_loop] that uses up its fuel is a [Fault].  [wp] states that a run
      returns and that a postcondition holds of the result; [post] states it of
      runs that return, for invariants.
    - Layout.v: fs.h, param.h, buf.h, stat.h, fcntl.h.
    - CString.v: string.c.  Locks.v: sleeplock.c.
    - Spin.v: spinlock.c and the interrupt flag, as steps of several CPUs at
      the grain of one access to memory.
    - Kalloc.v: kalloc.c.  Pipe.v: the buffer of pipe.c.
    - Vm.v: vm.c on the bytes of page directories and page tables.  VmTab.v
      (walkpgdir, mappages), VmSpace.v (deallocuvm, freevm), VmCopy.v (setupkvm,
      copyuvm), VmGrow.v (allocuvm), VmWrite.v (copyout, clearpteu): the proofs,
      about the relation [vrep] between the memory, the free list and the pages
      in use.
    - Bio.v: bio.c over the disk of memide.c.  Ide.v: ide.c over a drive, which
      is a parameter (classes [Drive] and [DriveLaws]: its ports and their
      documented behaviour).  IdeSpec.v: ide.c simulates memide.c.  Log.v: log.c.  LogRep.v: what the
      log promises to the file system, as the classes [BlockIO] (operations) and
      [BlockSpec] (their specification), with log.c as the instance.
      Crash.v: the disk writes of a commit, cut off anywhere, then recovery.
    - Fs.v: fs.c over [BlockIO].  FsBlock.v (balloc, bfree), FsMap.v (bmap),
      FsData.v (readi, writei), FsInode.v (iget, iupdate, ilock), FsExtent.v
      (files of extents), FsTrunc.v (itrunc), FsDir.v (dirlookup, dirlink,
      skipelem), FsName.v (namex): the proofs, against [BlockSpec].  FsDemo.v: a small file system that [initlog] and
      [readsb] boot from a disk image; FsSpec.v: the theorems for it.
      LogLimit.v: the log when it is full.
    - Syscall.v: the argument fetching of syscall.c.
    - File.v: file.c and the descriptors of pipe.c.  FileWrite.v: filewrite.
      Sysfile.v: the handlers of sysfile.c, which load from and store to the
      user memory of the process.
    - Exec.v: exec.c and loaduvm of vm.c.  ExecSpec.v: the proof about it.
    - Proc.v: proc.c, each critical section of ptable.lock a function on the
      process table.  ProcInv.v: the steps of several CPUs and the invariant.
      ProcSched.v: the schedulers, exit and wait.
    - Kernel.v: the process table, the memory and the open files as one state;
      fork, exit, wait, growproc and userinit of proc.c across them, sysproc.c,
      the dispatch of syscall.c, and trap.c.  KernelSpec.v and KernelFork.v: the
      proofs.
    - Console.v: console.c and its refinement of a line editor.
      Kbd.v: kbd.c and kbd.h, and what a sequence of keys types.
    - Ulib.v: ulib.c and printf.c.  Umalloc.v: umalloc.c.  Grep.v: the matcher and the buffered search of grep.c.
    - User.v: user programs as trees of system calls, and stat of ulib.c.
      Shell.v: sh.c.  ShellSpec.v: its parser; ShellRun.v: its processes and
      descriptors.
    - UserRun.v: a tree of files, and what the system calls do for a program
      that reads them.  Find.v: find.c; FindSpec.v: its proof.  Text.v, Cat.v,
      Wc.v, Uniq.v: cat.c, wc.c and uniq.c; TextSpec.v: their proofs.
    - Mkfs.v: mkfs.c.  MkfsSpec.v (its parts), MkfsImage.v (the image it
      builds), MkfsBoot.v (the kernel on that image): the proofs.
    - Hw.v: in, out and the registers of devices, as a history of accesses; what
      a read returns is a parameter (class [Hardware]).  Over it: Uart.v
      (uart.c), Ioapic.v (ioapic.c, picirq.c), Lapic.v (lapic.c), Mp.v (mp.c).
    - Boot.v: bootmain.c over the drive of Ide.v.
    - Entry.v: bootasm.S, entry.S, entryother.S and asm.h, as instructions on
      the control registers, the segment registers and memory.
    - Startup.v: startothers and entrypgdir of main.c, mycpu of proc.c.
    - Cpu.v: the descriptors of mmu.h and the functions that set up the tables
      of a CPU (seginit, switchuvm, switchkvm, kvmalloc, tvinit, idtinit).
    - Asm.v: vectors.pl, trapasm.S and swtch.S, as instructions on the registers
      and the words of memory.  Usys.v: usys.S, initcode.S and
      syscall.h, and system calls from the stub to the handler and back.
    - Ls.v: ls.c.  GrepRun.v: main of grep.c.  Small.v: echo.c, rm.c,
      mkdir.c, ln.c, kill.c, sleep.c, zombie.c, forktest.c, init.c.  Stat.v:
      stat.c.
    - Dump.v: procdump and printProcessTable of proc.c, getcallerpcs of
      spinlock.c.

    * How the parts interact

    A trap (Kernel.v) dispatches a system call to its handler, which runs with
    the descriptors, the directory and the page table of the calling process
    loaded from its entry in the table.  A handler (Sysfile.v) fetches its arguments from user memory
    (Syscall.v), works on open files (File.v), which are inodes (Fs.v) or pipes
    (Pipe.v); inodes live in disk blocks, which the file system only touches
    through a transaction of the log (Log.v), which keeps them in the buffer
    cache (Bio.v).  The proofs follow the same line: the file system is proved
    against the interface [BlockSpec], and Log.v proves that the log over the
    buffer cache implements it.  The cache is proved over memide.c, which serves
    a request at once; IdeSpec.v shows that the driver with interrupts has no
    other outcomes.  MkfsBoot.v closes the line at its other end: the image that
    mkfs.c writes is one on which the kernel's theorems apply.

    Below the C code, bootasm.S takes the first CPU to bootmain, which loads the
    kernel and jumps to entry.S, which enters main with paging on; startothers
    does the same for the other CPUs through entryother.S.  The three words that
    startothers leaves for entryother.S are [given] in Startup.v and the
    hypotheses of entryother_enters in Entry.v, which also asks that the
    stack lie in the first 4 Mbytes: that is why main frees the rest of memory
    after startothers only.  A system call enters through Usys.v and Asm.v and
    reads its arguments with Syscall.v.

    * What the theorems show

    - Crashes: end_op_crash_atomic.  Whatever prefix of the writes of a commit
      reaches the disk, recovery yields the blocks before or after the
      transaction, never a mixture.
    - The disk: ide_refines (the buffers and the disk after any interleaving of
      requests, interrupts and wakeups, with failing commands among them, are
      those of memide.c serving the same requests in order, the failed ones
      without a transfer), and in IdeSpec.v ide_wakes (every request is served).
    - From reset to C: bootmain_loads (the kernel's segments are in memory as its
      file says, zeroed beyond it), bootmain_bounds (nothing else is written),
      startothers_correct (each CPU gets a stack of its own and keeps the words
      that say so until it is up), entryother_enters (it reaches mpenter on that
      stack, with flat segments and the first 4 Mbytes mapped), with the lemmas
      bootasm_enters and entry_enters for the first CPU.
    - The edge of the kernel: syscall_convention (the handler sees the arguments
      of the caller of the stub, which gets the result and its registers back),
      user_confined (on the tables that tvinit, seginit, idtinit and switchuvm
      have made, whatever the processes the CPU ran before, user code enters the
      kernel only at the gates and on the process's stack, cannot raise other
      traps and cannot use ports), swtch_resumes, and the lemmas
      trap_roundtrip and initcode_execs.
    - Devices: ioapic_routes, cmostime_correct (the time is one that the clock
      showed, never a mixture of two), mpinit_collects, and lemmas about the
      serial line and the local controllers.
    - Files: filewrite_durable, writei_correct, writei_readi, extent_append,
      itrunc_frees, and in FsSpec.v iget_unique and iupdate_ilock: a write changes the bytes it
      should of one file, nothing of the others, and a read returns them; after
      filewrite the inode on disk has the new size and leads to the bytes;
      blocks and inodes are allocated once.
    - Names: namex_correct (a path resolves along the tree of directories, and
      every inode on the way is put back), and in FsSpec.v dirlookup_correct and
      dirlink_adds.
    - The image: mkfs_image (the image is a well-formed file system with exactly
      the given files), mkfs_boot_read (the kernel booted from it finds each file
      by its name and reads its contents).
    - Processes: sched_invariant (one CPU per running process, parents alive,
      ids that are unique until the counter has wrapped around), default_scheduler_fair, exit_notifies.
    - Locks: spin_mutual_exclusion.  Memory: kalloc_pages_conserved.
    - Address spaces: copyuvm_correct, allocuvm_correct, fork_correct,
      exec_correct: a copy has the same contents in frames of its own; growing
      adds zeroed pages or changes nothing; exec leaves the process either the
      new image or, on failure, exactly what it had, and loads a well-formed
      program when there is memory for it.
    - The boundary with user programs: syscall_args_safe.
    - Pipes: pipe_fifo.  The console: console_refines.
    - The shell: parsecmd_correct (the tree of a command line is that of the
      grammar), parsecmd_ends (the parser ends on every line), shell_session (the
      processes of a session and the files behind their descriptors).
    - User programs: umalloc_correct (blocks in use never overlap and keep
      clear of the free list), match_decides (the matcher decides the language
      of the pattern), find_correct (find prints exactly the matching entries),
      stat_shows (stat prints the extents or the blocks that the inode has), and
      uniq_runs, ls_lists, grep_prints, rm_stops, forktest_passes, init_reaps.
    - What the kernel shows: printProcessTable_shows, procdump_shows,
      getcallerpcs_correct.
    - Defects: itrunc_keeps_double_indirect, extent_append_lost,
      tickslock_ptable_deadlock, log_reservation_short (the block that fills the
      log panics though every operation keeps to its reservation),
      lazy_sbrk_panics (what follows a call of sbrk), and lowest_priority_starves, mpinit_stuck, mpsearch_skips_rom, ls_runs_off.

    * Bounds

    Loops whose bound is a C expression are [for_loop]s with that bound.  A
    [while_loop] has the number of its iterations as fuel, computed from its
    arguments (a copy of n bytes takes at most n rounds, a path at most as many
    as it has bytes); the [wp] theorems show that the fuel is enough, because a
    run out of fuel is a [Fault].  The parser of the shell is given as many steps
    as parsecmd_ends shows to be enough for the length of the line.  The user
    programs that read until the end of their input have a number of steps as an
    argument; it appears in the theorems as a lower bound in terms of the size
    of the input (for find [weight], the number of entries below the folder).
    A loop that polls a device (idewait, waitdisk, the A20 line, the delivery of
    an interrupt, the flag of a CPU, the clock) has the number of polls that the
    device may need as fuel; the laws of the device say that it is enough.  The
    loop of readseg runs once for each sector of its range.  Machine integers
    are [Z] with the wrap-around written out.

    * Not modelled

    main, mpenter and mpmain of main.c call the functions above one after the
    other on states that share nothing; forkret only guards two such calls with
    a flag.  Of consoleinit there are the device functions, which are the
    parameters [dev_read] and [dev_write] of the file system, and the interrupt,
    which is ioapicenable of Ioapic.v; panic is the outcome [Panic].  What a CPU
    does after bootmain or mpenter returned, and the accessed bits that it sets
    in descriptors, are left out.  trap2.c is an old copy of trap.c that is not
    built.  The test programs (usertests.c, testSymLink.c, extentTest.c,
    stressfs.c, ptime.c and the like) have no contract of their own: their effect
    is that of the system calls they exercise, which are verified above. *)

From Stdlib Require Export ZArith Lia.
From stdpp Require Export base numbers gmap strings list.

#[global] Open Scope Z_scope.

(** * Machine integers *)

(** Values of the C integer types are kept in [Z]; the wrap-around of each
    width is written where the source computes with it. *)
Definition u8 (z : Z) : Z := z mod 2 ^ 8.
Definition u16 (z : Z) : Z := z mod 2 ^ 16.
Definition u32 (z : Z) : Z := z mod 2 ^ 32.
Definition s16 (z : Z) : Z := (z + 2 ^ 15) mod 2 ^ 16 - 2 ^ 15.
Definition s32 (z : Z) : Z := (z + 2 ^ 31) mod 2 ^ 32 - 2 ^ 31.

Definition is_byte (z : Z) : Prop := 0 <= z < 256.

Lemma u32_small z : 0 <= z < 2 ^ 32 -> u32 z = z.
Proof. apply Z.mod_small. Qed.

Lemma u32_range z : 0 <= u32 z < 2 ^ 32.
Proof. apply Z.mod_pos_bound. lia. Qed.

Lemma s32_small z : - 2 ^ 31 <= z < 2 ^ 31 -> s32 z = z.
Proof. intros. unfold s32. rewrite Z.mod_small; lia. Qed.

Lemma s16_small z : - 2 ^ 15 <= z < 2 ^ 15 -> s16 z = z.
Proof. intros. unfold s16. rewrite Z.mod_small; lia. Qed.

Lemma s16_u16 z : s16 (u16 z) = s16 z.
Proof. unfold s16, u16. by rewrite Zplus_mod_idemp_l. Qed.

Lemma s32_u32 z : s32 (u32 z) = s32 z.
Proof. unfold s32, u32. by rewrite Zplus_mod_idemp_l. Qed.

(** * Effects *)

(** Wait channels: the kernel addresses that the modelled code passes to
    [sleep] and [wakeup]. *)
Inductive chan :=
| ChanLog
| ChanBuf (i : nat)
| ChanInode (i : nat)
| ChanIde (i : nat)
| ChanPipeRead (p : Z)
| ChanPipeWrite (p : Z)
| ChanTicks
| ChanInput
| ChanProc (i : nat).

#[global] Instance chan_eq_dec : EqDecision chan.
Proof. solve_decision. Defined.

(** What running a kernel function can come to: it returns a value and the
    new state, calls [panic], blocks in [sleep] on a channel, ends the
    process in [exit], makes an access that C leaves undefined (an array index
    out of range, a null pointer), or accesses a user address whose page is not
    present or not writable, which the CPU turns into a page fault. *)
Inductive outcome (S A : Type) : Type :=
| Ok (a : A) (s : S)
| Panic (msg : string)
| Sleep (c : chan) (s : S)
| Exit (s : S)
| Fault
| PgFlt (va : Z) (s : S).

Arguments Ok {S A} a s.
Arguments Panic {S A} msg.
Arguments Sleep {S A} c s.
Arguments Exit {S A} s.
Arguments Fault {S A}.
Arguments PgFlt {S A} va s.

Definition M (S A : Type) : Type := S -> outcome S A.

Section monad.
Context {S : Type}.

Definition ret {A} (a : A) : M S A := fun s => Ok a s.

Definition bind {A B} (m : M S A) (k : A -> M S B) : M S B := fun s =>
  match m s with
  | Ok a s' => k a s'
  | Panic msg => Panic msg
  | Sleep c s' => Sleep c s'
  | Exit s' => Exit s'
  | Fault => Fault
  | PgFlt va s' => PgFlt va s'
  end.

Definition get : M S S := fun s => Ok s s.
Definition put (s' : S) : M S unit := fun _ => Ok tt s'.
Definition modify (f : S -> S) : M S unit := fun s => Ok tt (f s).
Definition gets {A} (f : S -> A) : M S A := fun s => Ok (f s) s.
Definition panic {A} (msg : string) : M S A := fun _ => Panic msg.
Definition sleep_on {A} (c : chan) : M S A := fun s => Sleep c s.
Definition exit_proc {A} : M S A := fun s => Exit s.
Definition fault {A} : M S A := fun _ => Fault.
Definition page_fault {A} (va : Z) : M S A := fun s => PgFlt va s.

(** An access through a pointer or an index that may be invalid. *)
Definition deref {A} (o : option A) : M S A :=
  match o with Some a => ret a | None => fault end.

(** [for(; n iterations left; i++) body], where the body may leave the loop
    with a value ([return] or [break]). *)
Fixpoint for_loop {B} (n : nat) (i : Z) (body : Z -> M S (option B))
  : M S (option B) :=
  match n with
  | O => ret None
  | Datatypes.S n' => bind (body i) (fun r =>
      match r with
      | Some b => ret (Some b)
      | None => for_loop n' (i + 1) body
      end)
  end.

(** A loop whose iterations carry a state and end it with a result.  Running
    out of fuel is an error, so a result never depends on the bound. *)
Fixpoint while_loop {St B} (fuel : nat) (st : St) (body : St -> M S (St + B)) : M S B :=
  match fuel with
  | O => fault
  | Datatypes.S fuel' => bind (body st) (fun r =>
      match r with
      | inl st' => while_loop fuel' st' body
      | inr b => ret b
      end)
  end.

(** The weakest precondition of a run that must return. *)
Definition wp {A} (m : M S A) (s : S) (Q : A -> S -> Prop) : Prop :=
  match m s with Ok a s' => Q a s' | _ => False end.

Lemma wp_ret {A} (a : A) s Q : Q a s -> wp (ret a) s Q.
Proof. done. Qed.

Lemma wp_bind {A B} (m : M S A) (k : A -> M S B) s Q :
  wp m s (fun a s' => wp (k a) s' Q) -> wp (bind m k) s Q.
Proof. unfold wp, bind. by destruct (m s). Qed.

(** A run that returns and then ends as the continuation does. *)
Lemma wp_bind_eq {A B} (m : M S A) (k : A -> M S B) s r :
  wp m s (fun a s' => k a s' = r) -> bind m k s = r.
Proof. unfold wp, bind. by destruct (m s). Qed.

Lemma wp_mono {A} (m : M S A) s (Q Q' : A -> S -> Prop) :
  wp m s Q -> (forall a s', Q a s' -> Q' a s') -> wp m s Q'.
Proof. unfold wp. destruct (m s); naive_solver. Qed.

Lemma wp_inv {A} (m : M S A) s Q :
  wp m s Q -> exists a s', m s = Ok a s' /\ Q a s'.
Proof. unfold wp. destruct (m s); naive_solver. Qed.

Lemma wp_intro {A} (m : M S A) s a s' (Q : A -> S -> Prop) :
  m s = Ok a s' -> Q a s' -> wp m s Q.
Proof. unfold wp. by intros ->. Qed.

Lemma wp_get s (Q : S -> S -> Prop) : Q s s -> wp get s Q.
Proof. done. Qed.

Lemma wp_gets {A} (f : S -> A) s (Q : A -> S -> Prop) :
  Q (f s) s -> wp (gets f) s Q.
Proof. done. Qed.

Lemma wp_put s s' (Q : unit -> S -> Prop) : Q tt s' -> wp (put s') s Q.
Proof. done. Qed.

Lemma wp_modify f s (Q : unit -> S -> Prop) : Q tt (f s) -> wp (modify f) s Q.
Proof. done. Qed.

Lemma wp_deref {A} (o : option A) a s (Q : A -> S -> Prop) :
  o = Some a -> Q a s -> wp (deref o) s Q.
Proof. by intros ->. Qed.

(** Loop rule: [I k] holds before iteration [k]; an iteration either keeps
    the invariant or leaves the loop in a state satisfying [Q]. *)
Lemma wp_for_loop {B} (I : Z -> S -> Prop) (body : Z -> M S (option B))
    n i s (Q : option B -> S -> Prop) :
  I i s ->
  (forall k s', i <= k < i + Z.of_nat n -> I k s' ->
     wp (body k) s' (fun r s'' =>
       match r with Some b => Q (Some b) s'' | None => I (k + 1) s'' end)) ->
  (forall s', I (i + Z.of_nat n) s' -> Q None s') ->
  wp (for_loop n i body) s Q.
Proof.
  revert i s. induction n as [|n IH]; intros i s HI Hb Hend; simpl.
  - apply wp_ret, Hend. by rewrite Z.add_0_r.
  - apply wp_bind. eapply wp_mono; [apply (Hb i s); [lia|done]|].
    intros [b|] s' Hr; simpl in *; [by apply wp_ret|].
    apply IH; [done| |].
    + intros k s'' Hk. apply Hb. lia.
    + intros s'' Hs. apply Hend.
      by replace (i + Z.of_nat (Datatypes.S n)) with (i + 1 + Z.of_nat n) by lia.
Qed.

(** Loop rule: [I k] holds when [k] iterations are left to the bound. *)
Lemma wp_while_loop {St B} (I : nat -> St -> S -> Prop) (body : St -> M S (St + B))
    fuel st s (Q : B -> S -> Prop) :
  I fuel st s -> (forall st s, ~ I O st s) ->
  (forall k st s, I (Datatypes.S k) st s ->
     wp (body st) s (fun r s' =>
       match r with inl st' => I k st' s' | inr b => Q b s' end)) ->
  wp (while_loop fuel st body) s Q.
Proof.
  intros HI H0 Hb. revert st s HI. induction fuel as [|k IH]; intros st s HI; simpl.
  - by destruct (H0 _ _ HI).
  - apply wp_bind. eapply wp_mono; [exact (Hb k st s HI)|].
    intros [st'|b] s' Hr; [by apply IH|by apply wp_ret].
Qed.
End monad.

Arguments get {S}.
Arguments fault {S A}.
Arguments exit_proc {S A}.

(** Running a component's operation inside a larger state. *)
Definition zoom {S T A} (g : T -> S) (p : S -> T -> T) (m : M S A) : M T A :=
  fun t =>
    match m (g t) with
    | Ok a s => Ok a (p s t)
    | Panic msg => Panic msg
    | Sleep c s => Sleep c (p s t)
    | Exit s => Exit (p s t)
    | Fault => Fault
    | PgFlt va s => PgFlt va (p s t)
    end.

Lemma wp_zoom {S T A} (g : T -> S) (p : S -> T -> T) (m : M S A) t
    (Q : A -> T -> Prop) :
  wp m (g t) (fun a s => Q a (p s t)) -> wp (zoom g p m) t Q.
Proof. unfold wp, zoom. by destruct (m (g t)). Qed.

Declare Scope kmonad_scope.
Delimit Scope kmonad_scope with kmonad.
#[global] Open Scope kmonad_scope.

Notation "'let*' x ':=' m 'in' k" := (bind m (fun x => k))
  (at level 10, x pattern, m at level 100, k at level 200,
   format "'[v' 'let*'  x  ':='  m  'in' '/' k ']'") : kmonad_scope.
Notation "m ';;' k" := (bind m (fun _ => k))
  (at level 100, k at level 200, right associativity,
   format "'[v' m  ';;' '/' k ']'") : kmonad_scope.

(** * Byte buffers *)

(** A C byte array is a list of byte values.  Reading beyond its end gives 0
    here; the models that can do so test the bound first. *)
Abbreviation bytes := (list Z).

(** A string literal of the source, without its terminator. *)
Definition str (s : string) : bytes :=
  map (fun c => Z.of_N (Ascii.N_of_ascii c)) (String.list_ascii_of_string s).

Definition nth0 (l : bytes) (i : nat) : Z := nth i l 0.

(** [memmove(l + o, src, length src)] on a buffer that has room for it. *)
Definition splice (l : bytes) (o : nat) (src : bytes) : bytes :=
  take o l ++ src ++ drop (o + length src) l.

(** [n] bytes of [l] from offset [o]. *)
Definition slice (l : bytes) (o n : nat) : bytes := take n (drop o l).

Lemma nth0_lookup l i : nth0 l i = default 0 (l !! i).
Proof. unfold nth0. apply nth_lookup. Qed.

Lemma nth0_ge l i : (length l <= i)%nat -> nth0 l i = 0.
Proof. apply nth_overflow. Qed.

Lemma nth0_lookup_lt l i : (i < length l)%nat -> l !! i = Some (nth0 l i).
Proof.
  intros H. rewrite nth0_lookup. by destruct (lookup_lt_is_Some_2 _ _ H) as [x ->].
Qed.

Lemma bytes_ext (l1 l2 : bytes) :
  length l1 = length l2 ->
  (forall i, (i < length l1)%nat -> nth0 l1 i = nth0 l2 i) -> l1 = l2.
Proof.
  intros Hl H. apply list_eq. intros i.
  destruct (decide (i < length l1)%nat).
  - rewrite !nth0_lookup_lt by lia. f_equal. by apply H.
  - rewrite !lookup_ge_None_2 by lia. done.
Qed.

Lemma length_splice l o src :
  (o + length src <= length l)%nat -> length (splice l o src) = length l.
Proof. intros. unfold splice. rewrite !length_app, length_take, length_drop. lia. Qed.

Lemma lookup_splice l o src i :
  (o + length src <= length l)%nat ->
  splice l o src !! i =
    if decide (o <= i < o + length src)%nat then src !! (i - o)%nat else l !! i.
Proof.
  intros Hl. unfold splice. case_decide as Hi.
  - rewrite lookup_app_r by (rewrite length_take; lia).
    rewrite lookup_app_l by (rewrite length_take; lia).
    f_equal. rewrite length_take. lia.
  - destruct (decide (i < o)%nat).
    + rewrite lookup_app_l by (rewrite length_take; lia).
      by rewrite lookup_take_lt by lia.
    + rewrite lookup_app_r by (rewrite length_take; lia).
      rewrite lookup_app_r by (rewrite length_take; lia).
      rewrite lookup_drop. f_equal. rewrite length_take. lia.
Qed.

Lemma nth0_splice l o src i :
  (o + length src <= length l)%nat ->
  nth0 (splice l o src) i =
    if decide (o <= i < o + length src)%nat then nth0 src (i - o) else nth0 l i.
Proof. intros. rewrite !nth0_lookup, lookup_splice by done. by case_decide. Qed.

Lemma nth0_insert l i j (x : Z) :
  (i < length l)%nat ->
  nth0 (<[i:=x]> l) j = if decide (i = j) then x else nth0 l j.
Proof.
  intros. rewrite !nth0_lookup. case_decide as E.
  - subst. by rewrite list_lookup_insert_eq.
  - by rewrite list_lookup_insert_ne.
Qed.

Lemma length_slice l o n :
  (o + n <= length l)%nat -> length (slice l o n) = n.
Proof. intros. unfold slice. rewrite length_take, length_drop. lia. Qed.

Lemma lookup_slice l o n i :
  slice l o n !! i = if decide (i < n)%nat then l !! (o + i)%nat else None.
Proof.
  unfold slice. case_decide.
  - by rewrite lookup_take_lt, lookup_drop by lia.
  - by rewrite lookup_take_ge by lia.
Qed.

Lemma slice_splice_same l o src :
  (o + length src <= length l)%nat -> slice (splice l o src) o (length src) = src.
Proof.
  intros. apply list_eq. intros i. rewrite lookup_slice, lookup_splice by done.
  repeat case_decide; try lia.
  - f_equal. lia.
  - rewrite lookup_ge_None_2; [done|lia].
Qed.

Lemma slice_splice_other l o src o' n :
  (o + length src <= length l)%nat ->
  (o' + n <= o \/ o + length src <= o')%nat ->
  slice (splice l o src) o' n = slice l o' n.
Proof.
  intros. apply list_eq. intros i. rewrite !lookup_slice, lookup_splice by done.
  repeat case_decide; try done; lia.
Qed.

(** ** Little-endian integers in buffers *)

Fixpoint le (n : nat) (v : Z) : bytes :=
  match n with O => [] | S n' => v mod 256 :: le n' (v / 256) end.

Fixpoint unle (l : bytes) : Z :=
  match l with [] => 0 | b :: l' => b + 256 * unle l' end.

Definition get16 (l : bytes) (o : nat) : Z := unle (slice l o 2).
Definition get32 (l : bytes) (o : nat) : Z := unle (slice l o 4).
Definition put16 (l : bytes) (o : nat) (v : Z) : bytes := splice l o (le 2 v).
Definition put32 (l : bytes) (o : nat) (v : Z) : bytes := splice l o (le 4 v).

Lemma length_le n v : length (le n v) = n.
Proof. revert v. induction n; intros; simpl; auto. Qed.

Lemma le_is_byte n v : Forall is_byte (le n v).
Proof.
  revert v. induction n; intros; simpl; constructor; auto.
  apply Z.mod_pos_bound. lia.
Qed.

Lemma unle_le n v : unle (le n v) = v mod 256 ^ Z.of_nat n.
Proof.
  revert v. induction n as [|n IH]; intros v.
  - simpl. by rewrite Z.mod_1_r.
  - cbn [le unle]. rewrite IH, Nat2Z.inj_succ, Z.pow_succ_r by lia.
    rewrite Z.rem_mul_r by lia. lia.
Qed.

Lemma unle_range l :
  Forall is_byte l -> 0 <= unle l < 256 ^ Z.of_nat (length l).
Proof.
  induction 1 as [|b l Hb _ IH]; [simpl; lia|].
  cbn [unle length]. rewrite Nat2Z.inj_succ, Z.pow_succ_r by lia.
  unfold is_byte in Hb. nia.
Qed.

Lemma le_unle l : Forall is_byte l -> le (length l) (unle l) = l.
Proof.
  induction 1 as [|b l Hb _ IH]; [done|]. unfold is_byte in Hb.
  cbn [length le unle]. f_equal.
  - rewrite Z.mul_comm, Z.mod_add by lia. by apply Z.mod_small.
  - rewrite Z.mul_comm, Z.div_add, Z.div_small by lia. apply IH.
Qed.

Lemma unle_zeros n : unle (replicate n 0) = 0.
Proof. induction n as [|n IH]; [done|]. cbn. rewrite IH. lia. Qed.

Lemma length_put16 l o v : (o + 2 <= length l)%nat -> length (put16 l o v) = length l.
Proof. intros. apply length_splice. by rewrite length_le. Qed.

Lemma length_put32 l o v : (o + 4 <= length l)%nat -> length (put32 l o v) = length l.
Proof. intros. apply length_splice. by rewrite length_le. Qed.

Lemma get16_put16 l o v :
  (o + 2 <= length l)%nat -> get16 (put16 l o v) o = u16 v.
Proof.
  intros. unfold get16, put16.
  pose proof (slice_splice_same l o (le 2 v)) as E. rewrite length_le in E.
  rewrite E by done. by rewrite unle_le.
Qed.

Lemma get32_put32 l o v :
  (o + 4 <= length l)%nat -> get32 (put32 l o v) o = u32 v.
Proof.
  intros. unfold get32, put32.
  pose proof (slice_splice_same l o (le 4 v)) as E. rewrite length_le in E.
  rewrite E by done. by rewrite unle_le.
Qed.

Lemma get32_put32_ne l o o' v :
  (o + 4 <= length l)%nat -> (o' + 4 <= o \/ o + 4 <= o')%nat ->
  get32 (put32 l o v) o' = get32 l o'.
Proof.
  intros. unfold get32, put32. by rewrite slice_splice_other by (rewrite length_le; lia).
Qed.

Lemma Forall_slice (P : Z -> Prop) l o n : Forall P l -> Forall P (slice l o n).
Proof. intros. by apply Forall_take, Forall_drop. Qed.

Lemma Forall_splice (P : Z -> Prop) l o src :
  Forall P l -> Forall P src -> Forall P (splice l o src).
Proof.
  intros. unfold splice.
  apply Forall_app; split; [by apply Forall_take|].
  apply Forall_app; split; [done|by apply Forall_drop].
Qed.

Lemma get32_range l o :
  Forall is_byte l -> (o + 4 <= length l)%nat -> 0 <= get32 l o < 2 ^ 32.
Proof.
  intros Hl Ho. pose proof (unle_range (slice l o 4) (Forall_slice _ _ _ _ Hl)) as H.
  rewrite length_slice in H by done. exact H.
Qed.

Lemma get32_zeros n o : get32 (replicate n 0) o = 0.
Proof.
  unfold get32, slice. rewrite drop_replicate, take_replicate. apply unle_zeros.
Qed.

(** ** Digits *)

(** The digits of [x], last one first: the loops of the [printint]s. *)
Fixpoint digits_rev (fuel : nat) (x base : Z) : list Z :=
  match fuel with
  | O => []
  | Datatypes.S f => (x mod base) :: if x / base =? 0 then [] else digits_rev f (x / base) base
  end.

(** The number with the digits [l], last one first. *)
Fixpoint value_rev (base : Z) (l : list Z) : Z :=
  match l with [] => 0 | d :: l' => d + base * value_rev base l' end.

Lemma digits_rev_value base fuel : forall x, 2 <= base -> 0 <= x < base ^ Z.of_nat fuel ->
  value_rev base (digits_rev fuel x base) = x /\ Forall (fun d => 0 <= d < base) (digits_rev fuel x base).
Proof.
  induction fuel as [|f IH]; intros x Hb Hx; [cbn in *; split; [lia|done]|]. cbn [digits_rev value_rev].
  pose proof (Z.div_mod x base) as Hd. pose proof (Z.mod_pos_bound x base) as Hm.
  destruct (Z.eqb_spec (x / base) 0) as [E|E].
  - cbn. split; [lia|]. constructor; [lia|done].
  - destruct (IH (x / base) Hb) as [IH1 IH2].
    + split; [apply Z.div_pos; lia|]. apply Z.div_lt_upper_bound; [lia|].
      rewrite Nat2Z.inj_succ, Z.pow_succ_r in Hx by lia. lia.
    + rewrite IH1. split; [lia|]. constructor; [lia|done].
Qed.

(** * Proof automation *)

Create HintDb kernel.
Create Rewrite HintDb klen.

#[export] Hint Resolve Forall_slice Forall_splice le_is_byte : kernel.
#[export] Hint Rewrite @length_insert length_le @length_replicate : klen.
#[export] Hint Rewrite length_splice length_put16 length_put32 length_slice
  using (autorewrite with klen; lia) : klen.

Ltac klen := autorewrite with klen in *; try lia.

(** Membership in explicit lists. *)
Ltac elem_simpl :=
  repeat first
    [ progress rewrite ?elem_of_cons, ?elem_of_app, ?list_elem_of_singleton,
        ?not_elem_of_cons, ?not_elem_of_app in *
    | match goal with
      | H : _ /\ _ |- _ => destruct H
      | H : _ ∈ [] |- _ => by apply elem_of_nil in H
      | H : ~ (_ \/ _) |- _ => apply Decidable.not_or in H
      end ].
Ltac elem := elem_simpl; intuition (subst; eauto; congruence).

(** One step through the control structure of a monadic program. *)
Ltac wp_step :=
  lazymatch goal with
  | |- wp (bind _ _) _ _ => apply wp_bind
  | |- wp (ret _) _ _ => apply wp_ret
  | |- wp get _ _ => apply wp_get
  | |- wp (gets _) _ _ => apply wp_gets
  | |- wp (put _) _ _ => apply wp_put
  | |- wp (modify _) _ _ => apply wp_modify
  | |- wp (deref _) _ _ => eapply wp_deref
  end; cbv beta.

Ltac wp_steps := repeat (wp_step; simpl).

(** Case analysis on the first boolean test of the goal's program. *)
Ltac ktest E :=
  match goal with
  | |- context [if ?b then _ else _] =>
      lazymatch type of b with bool => destruct b eqn:E end
  end.

(** Decide the first boolean test of the goal by arithmetic. *)
Ltac bool_lia :=
  rewrite ?andb_true_iff, ?orb_false_iff, ?andb_false_iff, ?orb_true_iff, ?negb_true_iff,
    ?negb_false_iff, ?Z.eqb_eq, ?Z.eqb_neq, ?Z.ltb_lt, ?Z.ltb_ge, ?Z.leb_le, ?Z.leb_gt; lia.
Ltac zif :=
  match goal with
  | |- context [if ?b then _ else _] =>
      lazymatch type of b with bool => idtac end;
      first [ replace b with true by (symmetry; bool_lia)
            | replace b with false by (symmetry; bool_lia) ]; cbv iota
  end.

(** Evaluate the closed boolean tests of the goal. *)
Ltac eval_tests :=
  repeat match goal with
  | |- context [if ?b then _ else _] =>
      let v := eval vm_compute in b in
      lazymatch v with
      | true => change b with true
      | false => change b with false
      end; cbv iota
  end.

Ltac bool_to_prop :=
  repeat match goal with
  | H : _ && _ = true |- _ => apply andb_true_iff in H as [? ?]
  | H : _ || _ = false |- _ => apply orb_false_iff in H as [? ?]
  | H : negb _ = true |- _ => apply negb_true_iff in H
  | H : negb _ = false |- _ => apply negb_false_iff in H
  | H : (_ =? _) = true |- _ => apply Z.eqb_eq in H
  | H : (_ =? _) = false |- _ => apply Z.eqb_neq in H
  | H : (_ <? _) = true |- _ => apply Z.ltb_lt in H
  | H : (_ <? _) = false |- _ => apply Z.ltb_ge in H
  | H : (_ <=? _) = true |- _ => apply Z.leb_le in H
  | H : (_ <=? _) = false |- _ => apply Z.leb_gt in H
  end.

(** * Lists updated by index *)

Lemma alter_insert {A} (f : A -> A) k (l : list A) x : l !! k = Some x -> alter f k l = <[k := f x]> l.
Proof.
  intros Hk. apply list_eq. intros j. destruct (decide (j = k)) as [->|Hj].
  - rewrite list_lookup_alter_eq, Hk. symmetry. apply list_lookup_insert_eq. by eapply lookup_lt_Some.
  - by rewrite list_lookup_alter_ne, list_lookup_insert_ne.
Qed.

(** * Partial correctness: what holds of a run if it returns

    [post m s Q] says that when [m] returns from [s], [Q] holds of the result;
    nothing is said of runs that panic, sleep or exit.  It is the form in which
    invariants are stated; results that must be reached are stated with [wp]. *)

Section post.
Context {S : Type}.

Definition post {A} (m : M S A) (s : S) (Q : A -> S -> Prop) : Prop :=
  forall a s', m s = Ok a s' -> Q a s'.

(** [m] preserves [I]. *)
Definition keeps {A} (m : M S A) (I : S -> Prop) : Prop :=
  forall s, I s -> post m s (fun _ s' => I s').

Lemma post_ret {A} (a : A) s Q : Q a s -> post (ret a) s Q.
Proof. intros H b s' E. by injection E as <- <-. Qed.

Lemma post_bind {A B} (m : M S A) (k : A -> M S B) s Q :
  post m s (fun a s' => post (k a) s' Q) -> post (bind m k) s Q.
Proof.
  intros H b s' E. unfold bind in E. destruct (m s) as [a s1| | | | |] eqn:Em; try done.
  by eapply (H a s1).
Qed.

Lemma post_mono {A} (m : M S A) s (Q Q' : A -> S -> Prop) :
  post m s Q -> (forall a s', Q a s' -> Q' a s') -> post m s Q'.
Proof. intros H HQ a s' E. by apply HQ, H. Qed.

Lemma post_get s (Q : S -> S -> Prop) : Q s s -> post get s Q.
Proof. intros H a s' E. by injection E as <- <-. Qed.

Lemma post_gets {A} (f : S -> A) s (Q : A -> S -> Prop) : Q (f s) s -> post (gets f) s Q.
Proof. intros H a s' E. by injection E as <- <-. Qed.

Lemma post_put s s' (Q : unit -> S -> Prop) : Q tt s' -> post (put s') s Q.
Proof. intros H a s1 E. by injection E as <- <-. Qed.

Lemma post_modify f s (Q : unit -> S -> Prop) : Q tt (f s) -> post (modify f) s Q.
Proof. intros H a s' E. by injection E as <- <-. Qed.

Lemma post_panic {A} msg s (Q : A -> S -> Prop) : post (panic msg) s Q.
Proof. intros a s' E. done. Qed.

Lemma post_fault {A} s (Q : A -> S -> Prop) : post fault s Q.
Proof. intros a s' E. done. Qed.

Lemma post_sleep_on {A} c s (Q : A -> S -> Prop) : post (sleep_on c) s Q.
Proof. intros a s' E. done. Qed.

Lemma post_deref {A} (o : option A) s (Q : A -> S -> Prop) :
  (forall a, o = Some a -> Q a s) -> post (deref o) s Q.
Proof. intros H. destruct o; [apply post_ret; by apply H|apply post_fault]. Qed.

Lemma post_for_loop {B} (I : Z -> S -> Prop) (body : Z -> M S (option B)) n i s (Q : option B -> S -> Prop) :
  I i s ->
  (forall j s, i <= j < i + Z.of_nat n -> I j s ->
     post (body j) s (fun r s' => match r with Some b => Q (Some b) s' | None => I (j + 1) s' end)) ->
  (forall s, I (i + Z.of_nat n) s -> Q None s) ->
  post (for_loop n i body) s Q.
Proof.
  revert i s. induction n as [|n IH]; intros i s HI Hb HN.
  - apply post_ret, HN. by rewrite Z.add_0_r.
  - cbn [for_loop]. apply post_bind. eapply post_mono; [apply (Hb i s); [lia|done]|].
    intros [b|] s' Hr; [by apply post_ret|]. apply IH; [done| |].
    + intros j s1 Hj. apply Hb. lia.
    + intros s1 H1. apply HN. by replace (i + Z.of_nat (Datatypes.S n)) with (i + 1 + Z.of_nat n) by lia.
Qed.

Lemma post_while_loop {St B} (I : St -> S -> Prop) (body : St -> M S (St + B)) fuel st s
    (Q : B -> S -> Prop) :
  I st s ->
  (forall st s, I st s ->
     post (body st) s (fun r s' => match r with inl st' => I st' s' | inr b => Q b s' end)) ->
  post (while_loop fuel st body) s Q.
Proof.
  intros HI Hb. revert st s HI. induction fuel as [|k IH]; intros st s HI; [apply post_fault|].
  cbn [while_loop]. apply post_bind. eapply post_mono; [by apply Hb|].
  intros [st'|b] s' Hr; [by apply IH|by apply post_ret].
Qed.
End post.

Lemma post_zoom {S T A} (g : T -> S) (p : S -> T -> T) (m : M S A) t (Q : A -> T -> Prop) :
  post m (g t) (fun a s => Q a (p s t)) -> post (zoom g p m) t Q.
Proof.
  intros H a t' E. unfold zoom in E. destruct (m (g t)) as [b s| | | | |] eqn:Em; try done.
  injection E as <- <-. by apply H.
Qed.

Ltac post_step :=
  lazymatch goal with
  | |- post (bind _ _) _ _ => apply post_bind
  | |- post (ret _) _ _ => apply post_ret
  | |- post get _ _ => apply post_get
  | |- post (gets _) _ _ => apply post_gets
  | |- post (put _) _ _ => apply post_put
  | |- post (modify _) _ _ => apply post_modify
  | |- post (panic _) _ _ => apply post_panic
  | |- post fault _ _ => apply post_fault
  | |- post (sleep_on _) _ _ => apply post_sleep_on
  | |- post (deref _) _ _ => apply post_deref; intros
  | |- post (if ?b then _ else _) _ _ => destruct b eqn:?
  end; cbv beta.
