(* ===== verification/Layout.v ===== *)
(** On-disk layout: the constants of fs.h, param.h, stat.h, buf.h and
    fcntl.h, the C structures of fs.h and log.c that live in disk blocks, and
    their byte encodings with the round trips between the two. *)

From S2P Require Import Prelude.

(** * Constants *)

Definition ROOTINO : Z := 1.
Definition BSIZE : Z := 512.
Definition NDIRECT : Z := 11.
Definition D_INDIRECT_INSTANCE : Z := 128.
Definition NINDIRECT : Z := BSIZE / 4.
Definition D_INDIRECT : Z := D_INDIRECT_INSTANCE * D_INDIRECT_INSTANCE.
Definition MAXFILE : Z := NDIRECT + NINDIRECT + D_INDIRECT.
Definition DIRSIZ : Z := 14.
Definition BPB : Z := BSIZE * 8.

Definition NOFILE : Z := 16.
Definition NFILE : Z := 100.
Definition NINODE : Z := 50.
Definition NDEV : Z := 10.
Definition ROOTDEV : Z := 1.
Definition MAXOPBLOCKS : Z := 10.
Definition LOGSIZE : Z := MAXOPBLOCKS * 3.
Definition NBUF : Z := MAXOPBLOCKS * 3.
Definition FSSIZE : Z := 200000.

Definition B_VALID : Z := 2.
Definition B_DIRTY : Z := 4.

Definition T_DIR : Z := 1.
Definition T_FILE : Z := 2.
Definition T_DEV : Z := 3.
Definition T_SYMLINK : Z := 4.
Definition T_EXTENT : Z := 5.

Definition O_RDONLY : Z := 0.
Definition O_WRONLY : Z := 1.
Definition O_RDWR : Z := 2.
Definition O_CREATE : Z := 512.
Definition O_NOFOLLOW : Z := 3.
Definition O_EXTENT : Z := 4.

Definition BSIZEn : nat := 512.
Definition zero_block : bytes := replicate BSIZEn 0.

(** A block is [BSIZE] bytes. *)
Definition is_block (l : bytes) : Prop := length l = BSIZEn /\ Forall is_byte l.

(** * Structures *)

(** [struct superblock]. *)
Record superblock := mkSuperblock {
  sb_size : Z; sb_nblocks : Z; sb_ninodes : Z; sb_nlog : Z;
  sb_logstart : Z; sb_inodestart : Z; sb_bmapstart : Z
}.

(** [struct dinode]: 64 bytes, so [IPB] is 8. *)
Record dinode := mkDinode {
  d_type : Z; d_major : Z; d_minor : Z; d_nlink : Z; d_size : Z;
  d_addrs : list Z
}.

(** [struct dirent]: 16 bytes. *)
Record dirent := mkDirent { de_inum : Z; de_name : bytes }.

Definition sizeof_dinode : Z := 4 * 2 + 4 + (NDIRECT + 2) * 4.
Definition IPB : Z := BSIZE / sizeof_dinode.
Definition IBLOCK (i : Z) (sb : superblock) : Z := i / IPB + sb_inodestart sb.
Definition BBLOCK (b : Z) (sb : superblock) : Z := b / BPB + sb_bmapstart sb.
Definition sizeof_dirent : Z := 2 + DIRSIZ.

(** * Encodings *)

Definition enc32s (l : list Z) : bytes := concat (map (le 4) l).

Fixpoint dec32s (n : nat) (l : bytes) : list Z :=
  match n with O => [] | S n' => unle (take 4 l) :: dec32s n' (drop 4 l) end.

Definition enc_superblock (sb : superblock) : bytes :=
  enc32s [sb_size sb; sb_nblocks sb; sb_ninodes sb; sb_nlog sb;
          sb_logstart sb; sb_inodestart sb; sb_bmapstart sb].

Definition dec_superblock (l : bytes) : superblock :=
  mkSuperblock (get32 l 0) (get32 l 4) (get32 l 8) (get32 l 12)
               (get32 l 16) (get32 l 20) (get32 l 24).

Definition enc_dinode (d : dinode) : bytes :=
  le 2 (d_type d) ++ le 2 (d_major d) ++ le 2 (d_minor d) ++ le 2 (d_nlink d)
  ++ le 4 (d_size d) ++ enc32s (d_addrs d).

Definition dec_dinode (l : bytes) : dinode :=
  mkDinode (s16 (get16 l 0)) (s16 (get16 l 2)) (s16 (get16 l 4))
           (s16 (get16 l 6)) (get32 l 8) (dec32s 13 (drop 12 l)).

Definition enc_dirent (d : dirent) : bytes := le 2 (de_inum d) ++ de_name d.

Definition dec_dirent (l : bytes) : dirent :=
  mkDirent (get16 l 0) (slice l 2 14).

(** Field values that fit their C types. *)
Definition is_u32 (z : Z) : Prop := 0 <= z < 2 ^ 32.
Definition is_s16 (z : Z) : Prop := - 2 ^ 15 <= z < 2 ^ 15.

Definition dinode_ok (d : dinode) : Prop :=
  is_s16 (d_type d) /\ is_s16 (d_major d) /\ is_s16 (d_minor d) /\
  is_s16 (d_nlink d) /\ is_u32 (d_size d) /\
  length (d_addrs d) = 13%nat /\ Forall is_u32 (d_addrs d).

Definition dirent_ok (d : dirent) : Prop :=
  0 <= de_inum d < 2 ^ 16 /\ length (de_name d) = 14%nat /\
  Forall is_byte (de_name d).

Lemma length_enc32s l : length (enc32s l) = (4 * length l)%nat.
Proof.
  induction l as [|x l IH]; [done|].
  unfold enc32s in *. cbn [map concat]. rewrite length_app, length_le, IH. simpl. lia.
Qed.

Lemma dec_enc32s l rest :
  Forall is_u32 l -> dec32s (length l) (enc32s l ++ rest) = l.
Proof.
  induction 1 as [|x l Hx _ IH]; [done|].
  cbn [length dec32s]. unfold enc32s. cbn [map concat]. rewrite <- app_assoc.
  rewrite take_app_length', drop_app_length' by (by rewrite length_le).
  f_equal; [|exact IH]. rewrite unle_le. by apply Z.mod_small.
Qed.

Lemma enc32s_is_byte l : Forall is_byte (enc32s l).
Proof.
  induction l as [|x l IH]; [constructor|].
  unfold enc32s. cbn [map concat]. apply Forall_app. auto using le_is_byte.
Qed.

Lemma length_enc_dinode d : length (d_addrs d) = 13%nat -> length (enc_dinode d) = 64%nat.
Proof.
  intros H. unfold enc_dinode. rewrite !length_app, !length_le, length_enc32s, H. done.
Qed.

Lemma enc_dinode_is_byte d : Forall is_byte (enc_dinode d).
Proof. unfold enc_dinode. rewrite !Forall_app. auto 10 using le_is_byte, enc32s_is_byte. Qed.

Lemma unle_le_s16 v : is_s16 v -> s16 (unle (le 2 v)) = v.
Proof.
  intros H. rewrite unle_le. change (256 ^ Z.of_nat 2) with (2 ^ 16).
  change (v mod 2 ^ 16) with (u16 v). rewrite s16_u16. by apply s16_small.
Qed.

Lemma unle_le_u32 v : is_u32 v -> unle (le 4 v) = v.
Proof. intros H. rewrite unle_le. by apply Z.mod_small. Qed.

(** Reading a field at its offset in a concatenation of encoded fields. *)
Lemma slice_app_here l1 l2 n : length l1 = n -> slice (l1 ++ l2) 0 n = l1.
Proof. intros <-. unfold slice. rewrite drop_0. by rewrite take_app_length. Qed.

Lemma slice_app_skip l1 l2 o n :
  (length l1 <= o)%nat -> slice (l1 ++ l2) o n = slice l2 (o - length l1) n.
Proof.
  intros. unfold slice. by rewrite drop_app_ge by done.
Qed.

Ltac slice_field :=
  rewrite ?slice_app_skip by (rewrite ?length_le; lia);
  rewrite ?length_le; cbn [Nat.sub];
  rewrite slice_app_here by apply length_le.

Lemma dec_enc_dinode d rest : dinode_ok d -> dec_dinode (enc_dinode d ++ rest) = d.
Proof.
  intros (H1 & H2 & H3 & H4 & H5 & H6 & H7). destruct d as [ty ma mi nl sz ad].
  cbn [d_type d_major d_minor d_nlink d_size d_addrs] in *.
  unfold dec_dinode, enc_dinode. cbn [d_type d_major d_minor d_nlink d_size d_addrs].
  unfold get16, get32. rewrite <- !app_assoc. f_equal.
  1-4: slice_field; by apply unle_le_s16.
  - slice_field. by apply unle_le_u32.
  - rewrite !drop_app_ge by (rewrite !length_le; lia). rewrite !length_le.
    cbn [Nat.sub]. rewrite drop_0. rewrite <- H6. by apply dec_enc32s.
Qed.

Lemma length_enc_dirent d : length (de_name d) = 14%nat -> length (enc_dirent d) = 16%nat.
Proof. intros H. unfold enc_dirent. by rewrite length_app, length_le, H. Qed.

Lemma enc_dirent_is_byte d : dirent_ok d -> Forall is_byte (enc_dirent d).
Proof. intros (_ & _ & H). apply Forall_app. auto using le_is_byte. Qed.

Lemma dec_enc_dirent d : dirent_ok d -> dec_dirent (enc_dirent d) = d.
Proof.
  intros (H1 & H2 & H3). destruct d as [i nm]. cbn [de_inum de_name] in *.
  unfold dec_dirent, enc_dirent, get16. cbn [de_inum de_name]. f_equal.
  - rewrite slice_app_here by apply length_le. rewrite unle_le.
    by apply Z.mod_small.
  - rewrite slice_app_skip by (rewrite length_le; lia). rewrite length_le.
    unfold slice. rewrite drop_0. apply take_ge. lia.
Qed.

Lemma dec_enc_superblock sb rest :
  Forall is_u32 [sb_size sb; sb_nblocks sb; sb_ninodes sb; sb_nlog sb;
                 sb_logstart sb; sb_inodestart sb; sb_bmapstart sb] ->
  dec_superblock (enc_superblock sb ++ rest) = sb.
Proof.
  intros H. rewrite !Forall_cons in H. destruct H as (?&?&?&?&?&?&?&_).
  destruct sb as [a b c d e f g].
  cbn [sb_size sb_nblocks sb_ninodes sb_nlog sb_logstart sb_inodestart sb_bmapstart] in *.
  unfold dec_superblock, enc_superblock, enc32s, get32. cbn [map concat].
  rewrite app_nil_r, <- ?app_assoc.
  cbn [sb_size sb_nblocks sb_ninodes sb_nlog sb_logstart sb_inodestart sb_bmapstart].
  f_equal; slice_field; by apply unle_le_u32.
Qed.

Lemma zero_block_ok : is_block zero_block.
Proof.
  split; [apply length_replicate|]. apply Forall_replicate. unfold is_byte. lia.
Qed.

#[export] Hint Resolve zero_block_ok enc_dinode_is_byte enc32s_is_byte : kernel.
