(* ===== verification/CString.v ===== *)
(** string.c: the kernel's string and memory routines.  [memset], [memmove]
    and [memcmp] work on a flat byte memory, because their arguments may
    overlap; the string routines take a NUL-terminated string as the list of
    its bytes, a position at or past the end of the list reading as the
    terminator. *)

From S2P Require Import Prelude.

(** * Memory *)

Definition mem : Type := Z -> Z.

Definition store (m : mem) (a v : Z) : mem := fun x => if x =? a then v else m x.

(** x86.h [stosb]: the string instruction stores the low byte [n] times. *)
Fixpoint stosb (m : mem) (a c : Z) (n : nat) : mem :=
  match n with
  | O => m
  | S n' => stosb (store m a (u8 c)) (a + 1) c n'
  end.

(** x86.h [stosl]: stores a 32-bit word, low byte first, [n] times. *)
Fixpoint stosl (m : mem) (a w : Z) (n : nat) : mem :=
  match n with
  | O => m
  | S n' =>
      let m1 := store m a (u8 w) in
      let m2 := store m1 (a + 1) (u8 (Z.shiftr w 8)) in
      let m3 := store m2 (a + 2) (u8 (Z.shiftr w 16)) in
      let m4 := store m3 (a + 3) (u8 (Z.shiftr w 24)) in
      stosl m4 (a + 4) w n'
  end.

Definition memset (m : mem) (dst c : Z) (n : nat) : mem :=
  if (Z.rem (s32 dst) 4 =? 0) && (Z.of_nat n mod 4 =? 0) then
    let c := Z.land c 255 in
    stosl m dst
      (u32 (Z.lor (Z.lor (Z.lor (Z.shiftl c 24) (Z.shiftl c 16)) (Z.shiftl c 8)) c))
      (n / 4)
  else stosb m dst c n.

Fixpoint memcmp (m : mem) (s1 s2 : Z) (n : nat) : Z :=
  match n with
  | O => 0
  | S n' =>
      if negb (m s1 =? m s2) then m s1 - m s2
      else memcmp m (s1 + 1) (s2 + 1) n'
  end.

(** The descending copy: [d] and [s] point one past the bytes left to move. *)
Fixpoint copy_down (m : mem) (d s : Z) (n : nat) : mem :=
  match n with
  | O => m
  | S n' => copy_down (store m (d - 1) (m (s - 1))) (d - 1) (s - 1) n'
  end.

Fixpoint copy_up (m : mem) (d s : Z) (n : nat) : mem :=
  match n with
  | O => m
  | S n' => copy_up (store m d (m s)) (d + 1) (s + 1) n'
  end.

Definition memmove (m : mem) (dst src : Z) (n : nat) : mem :=
  if (src <? dst) && (dst <? src + Z.of_nat n) then
    copy_down m (dst + Z.of_nat n) (src + Z.of_nat n) n
  else copy_up m dst src n.

Definition memcpy (m : mem) (dst src : Z) (n : nat) : mem := memmove m dst src n.

(** * Strings *)

Definition hd0 (l : bytes) : Z := match l with [] => 0 | c :: _ => c end.

Fixpoint strncmp (p q : bytes) (n : nat) : Z :=
  match n with
  | O => 0
  | S n' =>
      if negb (hd0 p =? 0) && (hd0 p =? hd0 q) then strncmp (tl p) (tl q) n'
      else hd0 p - hd0 q
  end.

(** The [n] bytes that [strncpy] stores: the string up to its terminator,
    then zeros. *)
Fixpoint strncpy (t : bytes) (n : nat) : bytes :=
  match n with
  | O => []
  | S n' => hd0 t :: if hd0 t =? 0 then replicate n' 0 else strncpy (tl t) n'
  end.

(** [safestrcpy] into the array [s] with [n] bytes left: all but the last
    byte may be copied, and the terminator is stored once more after the loop,
    also when the copied string ended inside it. *)
Fixpoint safestrcpy (s t : bytes) (n : nat) : bytes :=
  match n with
  | O => s
  | S O => match s with [] => [] | _ :: s' => 0 :: s' end
  | S n' =>
      match s with
      | [] => []
      | _ :: s' =>
          if hd0 t =? 0 then 0 :: match s' with [] => [] | _ :: s'' => 0 :: s'' end
          else hd0 t :: safestrcpy s' (tl t) n'
      end
  end.

Fixpoint strlen (s : bytes) : Z :=
  match s with
  | [] => 0
  | c :: s' => if c =? 0 then 0 else 1 + strlen s'
  end.

(** * Memory routines meet their specifications *)

Lemma stosb_spec m a c n x :
  stosb m a c n x = if decide (a <= x < a + Z.of_nat n) then u8 c else m x.
Proof.
  revert m a. induction n as [|n IH]; intros m a; simpl.
  - by rewrite decide_False by lia.
  - rewrite IH. unfold store. repeat case_decide; try lia; try done;
      destruct (Z.eqb_spec x a); try lia; done.
Qed.

Lemma stosl_spec m a w c n x :
  (forall k, (k = 0 \/ k = 8 \/ k = 16 \/ k = 24) -> u8 (Z.shiftr w k) = c) ->
  stosl m a w n x = if decide (a <= x < a + 4 * Z.of_nat n) then c else m x.
Proof.
  intros Hw. revert m a. induction n as [|n IH]; intros m a; cbn [stosl].
  - by rewrite decide_False by lia.
  - rewrite IH. unfold store.
    assert (Hw0 : u8 w = c) by (rewrite <- (Z.shiftr_0_r w); auto).
    rewrite Hw0, !Hw by auto.
    destruct (decide (a <= x < a + 4 * Z.of_nat (S n))); case_decide; try lia; try done;
      destruct (Z.eqb_spec x (a + 3)), (Z.eqb_spec x (a + 2)),
        (Z.eqb_spec x (a + 1)), (Z.eqb_spec x a); try lia; done.
Qed.

(** The replicated word that [memset] hands to [stosl] has the byte in each
    of its four positions. *)
Lemma memset_word_byte c k :
  (k = 0 \/ k = 8 \/ k = 16 \/ k = 24) ->
  let b := Z.land c 255 in
  u8 (Z.shiftr (u32 (Z.lor (Z.lor (Z.lor (Z.shiftl b 24) (Z.shiftl b 16))
                                  (Z.shiftl b 8)) b)) k) = u8 c.
Proof.
  intros Hk b. assert (0 <= k <= 24) by lia. unfold u8, u32, b.
  change 255 with (Z.ones 8). rewrite <- !Z.land_ones by lia.
  apply Z.bits_inj'. intros i Hi.
  rewrite !Z.land_spec, Z.shiftr_spec, Z.land_spec, !Z.lor_spec by lia.
  destruct (decide (i < 8)).
  2:{ rewrite (Z.ones_spec_high 8 i) by lia. by rewrite !andb_false_r. }
  rewrite (Z.ones_spec_low 8 i), (Z.ones_spec_low 32 (i + k)) by lia.
  rewrite !andb_true_r, !Z.shiftl_spec by lia.
  assert (Hb : forall j, Z.testbit (Z.land c (Z.ones 8)) j =
                         Z.testbit c j && (bool_decide (0 <= j < 8))).
  { intros j. rewrite Z.land_spec. f_equal. destruct (decide (0 <= j < 8)).
    - rewrite Z.ones_spec_low by lia. by rewrite bool_decide_true.
    - rewrite bool_decide_false by done. destruct (decide (0 <= j)).
      + by rewrite Z.ones_spec_high by lia.
      + by rewrite Z.testbit_neg_r by lia. }
  rewrite !Hb.
  destruct Hk as [->|[->|[->| ->]]];
    repeat (first [rewrite bool_decide_true by lia | rewrite bool_decide_false by lia]);
    rewrite ?andb_true_r, ?andb_false_r, ?orb_false_r, ?orb_false_l; f_equal; lia.
Qed.

(** [memset] stores the low byte of [c] in exactly the [n] bytes from
    [dst], whichever of the word and the byte instruction it uses. *)
Theorem memset_fills m dst c n x :
  memset m dst c n x = if decide (dst <= x < dst + Z.of_nat n) then u8 c else m x.
Proof.
  unfold memset. destruct (_ && _) eqn:E; [|apply stosb_spec].
  apply andb_true_iff in E as [_ E]. apply Z.eqb_eq in E.
  rewrite (stosl_spec _ _ _ (u8 c)) by (intros; by apply memset_word_byte).
  replace (4 * Z.of_nat (n / 4)) with (Z.of_nat n); [done|].
  rewrite Nat2Z.inj_div. apply Z.div_exact in E; [|lia]. exact E.
Qed.

Lemma copy_up_spec m d s n x :
  (d <= s \/ s + Z.of_nat n <= d) ->
  copy_up m d s n x =
    if decide (d <= x < d + Z.of_nat n) then m (s + (x - d)) else m x.
Proof.
  revert m d s. induction n as [|n IH]; intros m d s H; simpl.
  - by rewrite decide_False by lia.
  - rewrite IH by lia. unfold store.
    destruct (decide (d = x)) as [->|].
    + rewrite decide_False, decide_True by lia. rewrite Z.eqb_refl. f_equal. lia.
    + case_decide.
      * rewrite decide_True by lia. rewrite (proj2 (Z.eqb_neq _ _)) by lia. f_equal. lia.
      * rewrite decide_False by lia. by rewrite (proj2 (Z.eqb_neq _ _)) by lia.
Qed.

Lemma copy_down_spec m d s n x :
  s <= d ->
  copy_down m d s n x =
    if decide (d - Z.of_nat n <= x < d) then m (s - (d - x)) else m x.
Proof.
  revert m d s. induction n as [|n IH]; intros m d s H; simpl.
  - by rewrite decide_False by lia.
  - rewrite IH by lia. unfold store.
    destruct (decide (d - 1 = x)) as [<-|].
    + rewrite decide_False, decide_True by lia. rewrite Z.eqb_refl. f_equal. lia.
    + case_decide.
      * rewrite decide_True by lia. rewrite (proj2 (Z.eqb_neq _ _)) by lia. f_equal. lia.
      * rewrite decide_False by lia. by rewrite (proj2 (Z.eqb_neq _ _)) by lia.
Qed.

(** [memmove] leaves the [n] bytes at [dst] equal to the bytes that were
    at [src] before the call and touches nothing else, also when the two
    ranges overlap. *)
Theorem memmove_copies m dst src n x :
  memmove m dst src n x =
    if decide (dst <= x < dst + Z.of_nat n) then m (src + (x - dst)) else m x.
Proof.
  unfold memmove. destruct (_ && _) eqn:E; bool_to_prop.
  - rewrite copy_down_spec by lia.
    repeat case_decide; try lia; f_equal; lia.
  - apply copy_up_spec.
    apply andb_false_iff in E as [E|E]; bool_to_prop; lia.
Qed.

(** * String routines *)

(** The characters before the terminator. *)
Fixpoint cstring (l : bytes) : bytes :=
  match l with [] => [] | c :: l' => if c =? 0 then [] else c :: cstring l' end.

Lemma strlen_cstring s : strlen s = Z.of_nat (length (cstring s)).
Proof.
  induction s as [|c s IH]; [done|]. cbn [strlen cstring].
  destruct (c =? 0); [done|]. rewrite IH. simpl length. lia.
Qed.

Lemma cstring_nonzero s : Forall (fun c => c <> 0) (cstring s).
Proof.
  induction s as [|c s IH]; cbn; [constructor|].
  destruct (Z.eqb_spec c 0); constructor; auto.
Qed.

Lemma cstring_prefix s : exists rest, s = cstring s ++ rest.
Proof.
  induction s as [|c s [rest IH]]; [by exists []|]. cbn [cstring]. destruct (c =? 0); [by eexists|].
  exists rest. cbn. by rewrite <- IH.
Qed.

Lemma cstring_id s : Forall (fun c => c <> 0) s -> cstring s = s.
Proof.
  induction 1 as [|c s Hc _ IH]; cbn; [done|].
  apply Z.eqb_neq in Hc. by rewrite Hc, IH.
Qed.

Lemma cstring_split s : cstring s = if hd0 s =? 0 then [] else hd0 s :: cstring (tl s).
Proof. destruct s as [|c s]; [done|]. cbn. by destruct (c =? 0). Qed.

(** [strncmp] returns 0 exactly when the two strings agree on their first
    [n] characters. *)
Lemma strncmp_zero p q n :
  strncmp p q n = 0 <-> take n (cstring p) = take n (cstring q).
Proof.
  revert p q. induction n as [|n IH]; intros p q; cbn [strncmp]; [done|].
  rewrite (cstring_split p), (cstring_split q).
  destruct (Z.eqb_spec (hd0 p) 0) as [Hp|Hp], (Z.eqb_spec (hd0 q) 0) as [Hq|Hq]; cbn [negb andb].
  - split; [done|lia].
  - split; [lia|]. intros [=].
  - rewrite (proj2 (Z.eqb_neq _ _)) by lia. split; [lia|]. intros [=].
  - destruct (Z.eqb_spec (hd0 p) (hd0 q)) as [E|E].
    + rewrite IH, E. simpl. split; [by intros ->|by intros [=]].
    + split; [lia|]. intros [=]; done.
Qed.

Lemma length_strncpy t n : length (strncpy t n) = n.
Proof.
  revert t. induction n as [|n IH]; intros t; [done|]. cbn [strncpy length].
  destruct (hd0 t =? 0); [by rewrite length_replicate|by rewrite IH].
Qed.

Lemma strncpy_is_byte t n : Forall is_byte t -> Forall is_byte (strncpy t n).
Proof.
  revert t. induction n as [|n IH]; intros t Ht; [constructor|]. cbn [strncpy].
  assert (is_byte (hd0 t)) by (destruct Ht; cbn; unfold is_byte in *; lia).
  constructor; [done|]. destruct (hd0 t =? 0).
  - apply Forall_replicate. unfold is_byte. lia.
  - apply IH. by destruct Ht.
Qed.

Lemma cstring_strncpy t n : cstring (strncpy t n) = take n (cstring t).
Proof.
  revert t. induction n as [|n IH]; intros t; [done|]. cbn [strncpy].
  rewrite (cstring_split t). cbn [cstring].
  destruct (hd0 t =? 0); [done|]. simpl. by rewrite IH.
Qed.

Lemma length_safestrcpy s t n : length (safestrcpy s t n) = length s.
Proof.
  revert s t. induction n as [|[|n] IH]; intros [|c s] t; try done.
  cbn [safestrcpy]. destruct (hd0 t =? 0); [by destruct s|].
  change (S (length (safestrcpy s (tl t) (S n))) = S (length s)). by rewrite IH.
Qed.

(** [safestrcpy] into an array of at least [n] > 0 bytes leaves a
    terminated string in it: its characters are the first [n - 1] characters
    of the source, so the terminator is inside the array. *)
Theorem safestrcpy_terminates s t n :
  (0 < n <= length s)%nat ->
  cstring (safestrcpy s t n) = take (n - 1) (cstring t) /\
  (exists i, (i < n)%nat /\ safestrcpy s t n !! i = Some 0) /\
  drop n (safestrcpy s t n) = drop n s.
Proof.
  revert s t. induction n as [|[|n] IH]; intros [|c s] t Hn; simpl in Hn; try lia.
  - split_and!; [done| |done]. exists 0%nat. split; [lia|done].
  - cbn [safestrcpy]. rewrite (cstring_split t).
    destruct (Z.eqb_spec (hd0 t) 0) as [E|E].
    + destruct s as [|c' s]; simpl in Hn; [lia|].
      split_and!; [done| |done]. exists 0%nat. split; [lia|done].
    + destruct (IH s (tl t)) as (H1 & (i & Hi & H2) & H3); [lia|].
      split_and!.
      * cbn [cstring]. rewrite (proj2 (Z.eqb_neq _ _) E). rewrite H1.
        simpl. by rewrite Nat.sub_0_r.
      * exists (S i). split; [lia|done].
      * exact H3.
Qed.

Lemma safestrcpy_terminates_witness :
  cstring (safestrcpy (replicate 16 7) [105; 110; 105; 116] 16) =
    take 15 (cstring [105; 110; 105; 116]).
Proof.
  apply (safestrcpy_terminates (replicate 16 7) [105; 110; 105; 116] 16).
  vm_compute; lia.
Defined.
