(* ===== verification/Locks.v ===== *)
(** spinlock.c and sleeplock.c. *)

From S2P Require Import Prelude.

(** * Sleep locks *)

(** [struct sleeplock]; its inner spin lock makes each of the routines below
    one atomic step, and the name is for debugging only. *)
Record sleeplock := mkSleeplock { sl_locked : bool; sl_pid : Z }.

Definition initsleeplock : sleeplock := mkSleeplock false 0.

(** [acquiresleep]: taken when free; otherwise the process sleeps on the lock
    ([None]). *)
Definition acquiresleep (pid : Z) (lk : sleeplock) : option sleeplock :=
  if sl_locked lk then None else Some (mkSleeplock true pid).

Definition releasesleep (lk : sleeplock) : sleeplock := mkSleeplock false 0.

Definition holdingsleep (pid : Z) (lk : sleeplock) : bool :=
  sl_locked lk && (sl_pid lk =? pid).

Lemma acquiresleep_holding pid lk lk' :
  acquiresleep pid lk = Some lk' -> holdingsleep pid lk' = true.
Proof.
  unfold acquiresleep, holdingsleep. destruct (sl_locked lk); [done|].
  intros [= <-]. simpl. apply Z.eqb_refl.
Qed.
