(* ===== verification/Spin.v ===== *)
(** spinlock.c: spin locks on a machine of several CPUs.

    Each CPU runs a program of calls of [acquire] and [release]; a call is the
    sequence of its memory accesses, and the accesses of the CPUs interleave.
    [holding] reads [locked] and [cpu] in two separate accesses; the
    [pushcli]/[popcli] around these reads cancel out and are left out.  The
    debugging fields [name] and [pcs] are not modelled. *)
From S2P Require Import Prelude.

Record spinlock := mkSpinlock { lk_locked : Z; lk_cpu : option nat }.
Definition initlock : spinlock := mkSpinlock 0 None.

(** The calls a CPU makes. *)
Inductive call := Acquire (l : nat) | Release (l : nat).

(** Where a CPU is: between calls, or before the named access of a call. *)
Inductive pc :=
| PReady
| PAcqHolding (l : nat)    (* acquire: read lk->locked in holding *)
| PAcqHoldingCpu (l : nat) (* acquire: read lk->cpu in holding *)
| PAcqXchg (l : nat)       (* acquire: xchg(&lk->locked, 1) *)
| PAcqCpu (l : nat)        (* acquire: lk->cpu = mycpu() *)
| PRelHolding (l : nat)    (* release: read lk->locked in holding *)
| PRelHoldingCpu (l : nat) (* release: read lk->cpu in holding *)
| PRelCpu (l : nat)        (* release: lk->cpu = 0 *)
| PRelUnlock (l : nat)     (* release: movl $0, lk->locked *)
| PRelPopcli (l : nat)     (* release: popcli *)
| PPanic (msg : string).

(** [struct cpu], the interrupt flag, and the program.  [c_cs] are the locks
    whose critical sections the CPU is in: since [acquire] returned, until
    [release] is called. *)
Record cpu := mkCpu {
  c_ncli : Z; c_intena : bool; c_if : bool;
  c_pc : pc; c_prog : list call; c_cs : list nat
}.

Definition pushcli (c : cpu) : cpu :=
  mkCpu (c_ncli c + 1) (if c_ncli c =? 0 then c_if c else c_intena c) false
    (c_pc c) (c_prog c) (c_cs c).

Definition popcli (c : cpu) : cpu :=
  if c_if c then mkCpu (c_ncli c) (c_intena c) (c_if c) (PPanic "popcli - interruptible") (c_prog c) (c_cs c)
  else if c_ncli c - 1 <? 0 then
    mkCpu (c_ncli c - 1) (c_intena c) (c_if c) (PPanic "popcli") (c_prog c) (c_cs c)
  else
    mkCpu (c_ncli c - 1) (c_intena c)
      (if (c_ncli c - 1 =? 0) && c_intena c then true else c_if c) (c_pc c) (c_prog c) (c_cs c).

Definition at_pc (p : pc) (c : cpu) : cpu :=
  mkCpu (c_ncli c) (c_intena c) (c_if c) p (c_prog c) (c_cs c).
Definition at_prog (pr : list call) (c : cpu) : cpu :=
  mkCpu (c_ncli c) (c_intena c) (c_if c) (c_pc c) pr (c_cs c).
Definition at_cs (cs : list nat) (c : cpu) : cpu :=
  mkCpu (c_ncli c) (c_intena c) (c_if c) (c_pc c) (c_prog c) cs.

(** One access of CPU [me] to lock [k]: the lock and the CPU afterwards. *)
Definition access (me : nat) (k : spinlock) (c : cpu) : spinlock * cpu :=
  match c_pc c with
  | PAcqHolding l =>
      (k, at_pc (if lk_locked k =? 0 then PAcqXchg l else PAcqHoldingCpu l) c)
  | PAcqHoldingCpu l =>
      (k, at_pc (if decide (lk_cpu k = Some me) then PPanic "acquire" else PAcqXchg l) c)
  | PAcqXchg l =>
      (mkSpinlock 1 (lk_cpu k), at_pc (if lk_locked k =? 0 then PAcqCpu l else PAcqXchg l) c)
  | PAcqCpu l => (mkSpinlock (lk_locked k) (Some me), at_cs (l :: c_cs c) (at_pc PReady c))
  | PRelHolding l =>
      (k, at_pc (if lk_locked k =? 0 then PPanic "release" else PRelHoldingCpu l) c)
  | PRelHoldingCpu l =>
      (k, at_pc (if decide (lk_cpu k = Some me) then PRelCpu l else PPanic "release") c)
  | PRelCpu l => (mkSpinlock (lk_locked k) None, at_pc (PRelUnlock l) c)
  | PRelUnlock l => (mkSpinlock 0 (lk_cpu k), at_pc (PRelPopcli l) c)
  | PRelPopcli l => (k, popcli (at_pc PReady c))
  | PReady | PPanic _ => (k, c)
  end.

(** The lock a CPU's next access is to. *)
Definition pc_lock (p : pc) : option nat :=
  match p with
  | PAcqHolding l | PAcqHoldingCpu l | PAcqXchg l | PAcqCpu l
  | PRelHolding l | PRelHoldingCpu l | PRelCpu l | PRelUnlock l | PRelPopcli l => Some l
  | PReady | PPanic _ => None
  end.

(** The next call: [acquire] starts with [pushcli]. *)
Definition fetch (c : cpu) : option cpu :=
  match c_prog c with
  | [] => None
  | Acquire l :: pr => Some (at_pc (PAcqHolding l) (at_prog pr (pushcli c)))
  | Release l :: pr =>
      Some (at_cs (filter (fun l' => l' <> l) (c_cs c)) (at_pc (PRelHolding l) (at_prog pr c)))
  end.

Record machine := mkMachine { m_locks : list spinlock; m_cpus : list cpu }.

Definition cpu_step (me : nat) (m : machine) : option machine :=
  match m_cpus m !! me with
  | None => None
  | Some c =>
      match c_pc c with
      | PReady =>
          match fetch c with
          | Some c' => Some (mkMachine (m_locks m) (<[me := c']> (m_cpus m)))
          | None => None
          end
      | p =>
          match pc_lock p with
          | Some l =>
              match m_locks m !! l with
              | Some k =>
                  let '(k', c') := access me k c in
                  Some (mkMachine (<[l := k']> (m_locks m)) (<[me := c']> (m_cpus m)))
              | None => None
              end
          | None => None
          end
      end
  end.

Definition mstep (m m' : machine) : Prop := exists me, cpu_step me m = Some m'.

(** Booted: every lock initialised, every CPU with interrupts on or off. *)
Definition start (nlocks : nat) (progs : list (bool * list call)) : machine :=
  mkMachine (replicate nlocks initlock)
    (map (fun '(i, pr) => mkCpu 0 false i PReady pr []) progs).

(** * The invariant *)

(** A CPU owns a lock from the [xchg] that found it free to the store of 0. *)
Definition taking (c : cpu) (l : nat) : Prop := c_pc c = PAcqCpu l \/ c_pc c = PRelUnlock l.

(** In a call of [release]. *)
Definition releasing (c : cpu) (l : nat) : Prop :=
  match c_pc c with
  | PRelHolding l' | PRelHoldingCpu l' | PRelCpu l' | PRelUnlock l' | PRelPopcli l' => l = l'
  | _ => False
  end.

(** CPU [me] and lock [l] fit together. *)
Record fits (me : nat) (c : cpu) (l : nat) (k : spinlock) : Prop := {
  ft_cs : l ∈ c_cs c -> lk_cpu k = Some me;
  ft_own : lk_cpu k = Some me ->
    lk_locked k <> 0 /\ ~ taking c l /\
    (l ∈ c_cs c \/ c_pc c = PRelHolding l \/ c_pc c = PRelHoldingCpu l \/ c_pc c = PRelCpu l);
  ft_rel : c_pc c = PRelCpu l -> lk_cpu k = Some me;
  ft_out : releasing c l -> l ∉ c_cs c;
  ft_taking : taking c l -> lk_locked k <> 0 /\ lk_cpu k = None
}.

Record spin_inv (m : machine) : Prop := {
  si_fits : forall me c l k, m_cpus m !! me = Some c -> m_locks m !! l = Some k -> fits me c l k;
  si_free : forall l k, m_locks m !! l = Some k -> lk_locked k = 0 -> lk_cpu k = None;
  si_taking : forall a b ca cb l, m_cpus m !! a = Some ca -> m_cpus m !! b = Some cb ->
    taking ca l -> taking cb l -> a = b;
  si_known : forall me c l, m_cpus m !! me = Some c -> l ∈ c_cs c -> (l < length (m_locks m))%nat
}.

Lemma spin_inv_start n progs : spin_inv (start n progs).
Proof.
  assert (Hc : forall me c, m_cpus (start n progs) !! me = Some c -> c_pc c = PReady /\ c_cs c = []).
  { intros me c H. cbn in H. apply list_lookup_fmap_Some in H as ([i pr] & -> & _). done. }
  assert (Hk : forall l k, m_locks (start n progs) !! l = Some k -> k = initlock).
  { intros l k H. cbn in H. by apply lookup_replicate in H as [-> _]. }
  split.
  - intros me c l k Hm Hl. destruct (Hc me c Hm) as [E1 E2]. rewrite (Hk l k Hl).
    split; unfold taking, releasing; rewrite ?E1, ?E2; cbn; first [done|set_solver|by intros []].
  - intros l k Hl _. by rewrite (Hk l k Hl).
  - intros a b ca cb l Ha _ [E|E]; destruct (Hc a ca Ha); congruence.
  - intros me c l Hm. destruct (Hc me c Hm) as [_ ->]. set_solver.
Qed.

(** The access of a CPU, for the CPU and the lock themselves, for another lock
    and for another CPU. *)
Ltac spin_cases :=
  repeat first
    [ match goal with
      | |- context [if ?b =? ?z then _ else _] => destruct (Z.eqb_spec b z)
      | |- context [if decide ?P then _ else _] => destruct (decide P)
      end ].
Ltac fits_solve :=
  split; unfold taking, releasing in *; cbn in *; solve [intuition congruence].

Lemma access_self me c l k k' c' :
  pc_lock (c_pc c) = Some l -> fits me c l k -> (lk_locked k = 0 -> lk_cpu k = None) ->
  access me k c = (k', c') -> fits me c' l k' /\ (lk_locked k' = 0 -> lk_cpu k' = None).
Proof.
  intros El [H1 H2 H3 H5 H4] H0 E. unfold access in E.
  destruct c as [n ie fl p pr cs]; cbn in *.
  destruct p as [|l0|l0|l0|l0|l0|l0|l0|l0|l0|]; injection E as <- <-; try done;
    injection El as ->; cbn in *.
  - split; [spin_cases; fits_solve|exact H0].
  - split; [spin_cases; fits_solve|exact H0].
  - split; [spin_cases; fits_solve|done].
  - destruct H4 as [H4 H6]; [by left|]. split; [|done].
    split; unfold taking, releasing in *; cbn in *; try solve [intuition congruence].
    intros _. split; [done|]. split; [intuition congruence|]. left. set_solver.
  - split; [spin_cases; fits_solve|exact H0].
  - split; [spin_cases; fits_solve|exact H0].
  - specialize (H3 eq_refl). split; [fits_solve|done].
  - destruct H4 as [H4 H6]; [by right|]. split; [fits_solve|done].
  - split; [|exact H0]. unfold popcli. cbn.
    destruct fl; [fits_solve|]. destruct (_ <? 0); fits_solve.
Qed.

Lemma access_other_lock me c l k k' c' l' k2 :
  pc_lock (c_pc c) = Some l -> l' <> l -> access me k c = (k', c') ->
  fits me c l' k2 -> fits me c' l' k2.
Proof.
  intros El Hne E [H1 H2 H3 H5 H4]. unfold access in E.
  destruct c as [n ie fl p pr cs]; cbn in *.
  destruct p as [|l0|l0|l0|l0|l0|l0|l0|l0|l0|]; injection E as _ <-; try done;
    injection El as ->; cbn in *.
  4: { split; unfold taking, releasing in *; cbn in *; rewrite ?elem_of_cons; intuition congruence. }
  8: { unfold popcli. cbn. destruct fl; [fits_solve|]. destruct (_ <? 0); fits_solve. }
  all: spin_cases; fits_solve.
Qed.

Lemma access_other_cpu a ca l k k' c' b cb :
  pc_lock (c_pc ca) = Some l -> a <> b -> access a k ca = (k', c') ->
  fits a ca l k -> (lk_locked k = 0 -> lk_cpu k = None) -> (taking ca l -> taking cb l -> a = b) ->
  fits b cb l k -> fits b cb l k'.
Proof.
  intros El Hab E [A1 A2 A3 A5 A4] A0 Ht [H1 H2 H3 H5 H4]. unfold access in E.
  unfold taking in A4, Ht.
  destruct (c_pc ca) as [|l0|l0|l0|l0|l0|l0|l0|l0|l0|] eqn:Ep; injection E as <- _; try done;
    injection El as ->.
  - split; cbn; try done; intuition congruence.
  - destruct A4 as [A4 A6]; [by left|].
    split; cbn; try done; [intros X; specialize (H1 X)|intros X|intros X; specialize (H3 X)|intros X];
      try congruence. exfalso. apply Hab. by apply Ht; [left|].
  - specialize (A3 eq_refl).
    split; cbn; try done; [intros X; specialize (H1 X)|intros X; specialize (H3 X)|intros X; destruct (H4 X)];
      congruence.
  - destruct A4 as [A4 A6]; [by right|].
    split; cbn; try done; [intros X|intros X]; try congruence. exfalso. apply Hab. by apply Ht; [right|].
Qed.

(** The acting CPU becomes an owner only of a lock nobody owns. *)
Lemma access_taking me c l k k' c' l' :
  pc_lock (c_pc c) = Some l -> fits me c l k -> access me k c = (k', c') -> taking c' l' ->
  l' = l /\ (lk_locked k = 0 \/ lk_cpu k = Some me).
Proof.
  intros El [H1 H2 H3 H5 H4] E Ht. unfold access in E. unfold taking in *.
  destruct c as [n ie fl p pr cs]; cbn in *.
  destruct p as [|l0|l0|l0|l0|l0|l0|l0|l0|l0|]; injection E as _ <-; try done;
    injection El as ->; cbn in *; try (intuition congruence).
  - destruct (_ =? _); cbn in Ht; intuition congruence.
  - destruct (decide _); cbn in Ht; intuition congruence.
  - destruct (Z.eqb_spec (lk_locked k) 0); cbn in Ht; intuition congruence.
  - destruct (_ =? _); cbn in Ht; intuition congruence.
  - destruct (decide _); cbn in Ht; intuition congruence.
  - unfold popcli in Ht. cbn in Ht.
    destruct fl; [cbn in Ht; intuition congruence|]. destruct (_ <? 0); cbn in Ht; intuition congruence.
Qed.

Lemma access_cs me c l k k' c' l' :
  pc_lock (c_pc c) = Some l -> access me k c = (k', c') -> l' ∈ c_cs c' -> l' = l \/ l' ∈ c_cs c.
Proof.
  intros El E. unfold access in E. destruct c as [n ie fl p pr cs]; cbn in *.
  destruct p as [|l0|l0|l0|l0|l0|l0|l0|l0|l0|]; injection E as _ <-; try done;
    injection El as ->; cbn; try (intros; by right).
  - intros H. apply elem_of_cons in H. tauto.
  - unfold popcli. cbn. destruct fl; [by right|]. destruct (_ <? 0); by right.
Qed.

Lemma fetch_fits me c c' l k :
  c_pc c = PReady -> fetch c = Some c' -> fits me c l k -> fits me c' l k.
Proof.
  intros Ep E [H1 H2 H3 H5 H4]. unfold fetch, taking in *. rewrite Ep in *.
  destruct (c_prog c) as [|[l0|l0] pr]; [done|injection E as <-..].
  - split; unfold taking, releasing in *; cbn in *; intuition congruence.
  - assert (Hf : l ∈ filter (fun l' => l' <> l0) (c_cs c) <-> l <> l0 /\ l ∈ c_cs c).
    { by rewrite list_elem_of_filter. }
    split; unfold taking, releasing in *; cbn in *; rewrite ?Hf; try solve [intuition congruence].
    intros X. destruct (H2 X) as (X1 & _ & X3). split; [done|]. split; [intuition congruence|].
    destruct (decide (l = l0)) as [->|]; intuition congruence.
Qed.

(** A step is a fetch or an access. *)
Lemma cpu_step_inv me m m' :
  cpu_step me m = Some m' ->
  exists c, m_cpus m !! me = Some c /\
    ((exists c', c_pc c = PReady /\ fetch c = Some c' /\
        m' = mkMachine (m_locks m) (<[me := c']> (m_cpus m))) \/
     (exists l k k' c', pc_lock (c_pc c) = Some l /\ m_locks m !! l = Some k /\
        access me k c = (k', c') /\ m' = mkMachine (<[l := k']> (m_locks m)) (<[me := c']> (m_cpus m)))).
Proof.
  unfold cpu_step. destruct (m_cpus m !! me) as [c|] eqn:Ec; [|done]. intros H. exists c. split; [done|].
  destruct (c_pc c) eqn:Ep.
  1: { left. destruct (fetch c) as [c'|] eqn:Ef; [|done]. injection H as <-. by exists c'. }
  all: right; cbn [pc_lock] in H; try done.
  all: destruct (m_locks m !! l) as [k|] eqn:Ek; [|done];
    destruct (access me k c) as [k' c'] eqn:Ea; injection H as <-; by exists l, k, k', c'.
Qed.

Lemma fetch_pc c c' l : fetch c = Some c' -> ~ taking c' l.
Proof.
  unfold fetch, taking. destruct (c_prog c) as [|[l0|l0] pr]; [done|..];
    intros [= <-]; cbn; intuition congruence.
Qed.

Lemma fetch_cs c c' l : fetch c = Some c' -> l ∈ c_cs c' -> l ∈ c_cs c.
Proof.
  unfold fetch. destruct (c_prog c) as [|[l0|l0] pr]; [done|..]; intros [= <-]; cbn; [done|].
  rewrite list_elem_of_filter. tauto.
Qed.

Lemma spin_inv_fetch m me c c' :
  spin_inv m -> m_cpus m !! me = Some c -> c_pc c = PReady -> fetch c = Some c' ->
  spin_inv (mkMachine (m_locks m) (<[me := c']> (m_cpus m))).
Proof.
  intros [F1 F2 F3 F4] Hc Ep Ef.
  assert (Hl : (me < length (m_cpus m))%nat) by by eapply lookup_lt_Some. split; cbn.
  - intros b cb l k Hb Hk. destruct (decide (b = me)) as [->|Hne].
    + rewrite list_lookup_insert_eq in Hb by done. injection Hb as <-.
      eapply fetch_fits; [done..|]. by apply F1.
    + rewrite list_lookup_insert_ne in Hb by done. by apply F1.
  - exact F2.
  - intros a b ca cb l Ha Hb Ta Tb.
    destruct (decide (a = me)) as [->|Ha'], (decide (b = me)) as [->|Hb']; try done;
      repeat match goal with
      | H : <[me := c']> _ !! me = Some _ |- _ => rewrite list_lookup_insert_eq in H by done; injection H as <-
      | H : <[me := c']> _ !! ?x = Some _ |- _ => rewrite list_lookup_insert_ne in H by done
      end; try (by eapply fetch_pc in Ef; exfalso; apply Ef).
    by eapply F3.
  - intros b cb l Hb Hin. destruct (decide (b = me)) as [->|Hne].
    + rewrite list_lookup_insert_eq in Hb by done. injection Hb as <-.
      eapply F4; [exact Hc|]. by eapply fetch_cs.
    + rewrite list_lookup_insert_ne in Hb by done. by eapply F4.
Qed.

Lemma spin_inv_access m me c l k k' c' :
  spin_inv m -> m_cpus m !! me = Some c -> pc_lock (c_pc c) = Some l -> m_locks m !! l = Some k ->
  access me k c = (k', c') ->
  spin_inv (mkMachine (<[l := k']> (m_locks m)) (<[me := c']> (m_cpus m))).
Proof.
  intros [F1 F2 F3 F4] Hc El Hk Ea.
  assert (Hlc : (me < length (m_cpus m))%nat) by by eapply lookup_lt_Some.
  assert (Hlk : (l < length (m_locks m))%nat) by by eapply lookup_lt_Some.
  destruct (access_self me c l k k' c' El (F1 _ _ _ _ Hc Hk) (F2 _ _ Hk) Ea) as [Hs Hf].
  split; cbn.
  - intros b cb l2 k2 Hb Hk2.
    destruct (decide (l2 = l)) as [->|Hl2].
    + rewrite list_lookup_insert_eq in Hk2 by done. injection Hk2 as <-.
      destruct (decide (b = me)) as [->|Hne].
      * rewrite list_lookup_insert_eq in Hb by done. by injection Hb as <-.
      * rewrite list_lookup_insert_ne in Hb by done.
        apply (access_other_cpu me c l k k' c'); try done; [by apply F1|by eapply F2| |by apply F1].
        intros T1 T2. exact (F3 me b c cb l Hc Hb T1 T2).
    + rewrite list_lookup_insert_ne in Hk2 by done. destruct (decide (b = me)) as [->|Hne].
      * rewrite list_lookup_insert_eq in Hb by done. injection Hb as <-.
        eapply access_other_lock; [exact El|exact Hl2|exact Ea|]. by apply F1.
      * rewrite list_lookup_insert_ne in Hb by done. by apply F1.
  - intros l2 k2 Hk2. destruct (decide (l2 = l)) as [->|Hl2].
    + rewrite list_lookup_insert_eq in Hk2 by done. by injection Hk2 as <-.
    + rewrite list_lookup_insert_ne in Hk2 by done. exact (F2 l2 k2 Hk2).
  - assert (X : forall b cb l2, m_cpus m !! b = Some cb -> b <> me -> taking c' l2 -> taking cb l2 -> False).
    { intros b cb l2 Hb Hne Tc Tb.
      destruct (access_taking me c l k k' c' l2 El (F1 _ _ _ _ Hc Hk) Ea Tc) as [-> Ho].
      destruct (ft_taking b cb l k (F1 _ _ _ _ Hb Hk) Tb). destruct Ho; congruence. }
    intros a b ca cb l2 Ha Hb Ta Tb.
    destruct (decide (a = me)) as [->|Ha'], (decide (b = me)) as [->|Hb']; try done;
      repeat match goal with
      | H : <[me := c']> _ !! me = Some _ |- _ => rewrite list_lookup_insert_eq in H by done; injection H as <-
      | H : <[me := c']> _ !! ?x = Some _ |- _ => rewrite list_lookup_insert_ne in H by done
      end; 
      [exfalso; eapply (X _ _ l2); eassumption..|eapply (F3 _ _ _ _ l2); eassumption].
  - intros b cb l2 Hb Hin. rewrite length_insert. destruct (decide (b = me)) as [->|Hne].
    + rewrite list_lookup_insert_eq in Hb by done. injection Hb as <-.
      destruct (access_cs me c l k k' c' l2 El Ea Hin) as [->|?]; [done|by eapply F4].
    + rewrite list_lookup_insert_ne in Hb by done. by eapply F4.
Qed.

Lemma spin_inv_step m m' : spin_inv m -> mstep m m' -> spin_inv m'.
Proof.
  intros Hi [me H]. apply cpu_step_inv in H as (c & Hc & [(c' & Ep & Ef & ->)|(l & k & k' & c' & El & Hk & Ea & ->)]).
  - by eapply spin_inv_fetch.
  - by eapply spin_inv_access.
Qed.

Lemma spin_inv_reach n progs m : rtc mstep (start n progs) m -> spin_inv m.
Proof.
  intros H. remember (start n progs) as m0 eqn:E. assert (Hi : spin_inv m0) by (subst; apply spin_inv_start).
  clear E. induction H as [|m1 m2 m3 H1 _ IH]; [done|]. apply IH. by eapply spin_inv_step.
Qed.

(** * Interrupts *)

(** How deep the call a CPU is in has nested [pushcli]. *)
Definition owns (locks : list spinlock) (me l : nat) : bool :=
  match locks !! l with Some k => bool_decide (lk_cpu k = Some me) | None => false end.

Definition depth (locks : list spinlock) (me : nat) (c : cpu) : Z :=
  match c_pc c with
  | PReady | PPanic _ => 0
  | PRelHolding l | PRelHoldingCpu l => if owns locks me l then 1 else 0
  | _ => 1
  end.

(** [ncli] counts the locks held and the call in progress; while it is not 0
    interrupts are off. *)
Record cli_ok (locks : list spinlock) (me : nat) (c : cpu) : Prop := {
  cl_nodup : NoDup (c_cs c);
  cl_ncli : c_ncli c = Z.of_nat (length (c_cs c)) + depth locks me c;
  cl_if : 0 < c_ncli c -> c_if c = false
}.

Definition panicked (c : cpu) : Prop := exists msg, c_pc c = PPanic msg.

Definition cli_inv (m : machine) : Prop :=
  forall me c, m_cpus m !! me = Some c -> panicked c \/ cli_ok (m_locks m) me c.

Lemma filter_out_id (l : nat) (L : list nat) : l ∉ L -> filter (fun l' => l' <> l) L = L.
Proof.
  induction L as [|x L IH]; intros Hx; [done|]. apply not_elem_of_cons in Hx as [Hx HL].
  rewrite filter_cons_True by done. by rewrite IH.
Qed.

Lemma filter_out_length (l : nat) (L : list nat) :
  NoDup L -> l ∈ L -> length L = S (length (filter (fun l' => l' <> l) L)).
Proof.
  induction L as [|x L IH]; intros Hn Hin; [by apply elem_of_nil in Hin|].
  apply NoDup_cons in Hn as [Hx Hn]. apply elem_of_cons in Hin as [->|Hin].
  - rewrite filter_cons_False by tauto. by rewrite filter_out_id.
  - rewrite filter_cons_True by (intros ->; done). cbn. by rewrite <- IH.
Qed.

Lemma cli_fetch locks me c c' :
  (forall l k, locks !! l = Some k -> fits me c l k) -> (forall l, l ∈ c_cs c -> (l < length locks)%nat) ->
  c_pc c = PReady -> fetch c = Some c' -> cli_ok locks me c -> cli_ok locks me c'.
Proof.
  intros Hf Hk Ep Ef [H1 H2 H3]. unfold fetch, depth in *. rewrite Ep in H2.
  destruct (c_prog c) as [|[l|l] pr]; [done|injection Ef as <-..].
  - split; cbn; [done|lia|done].
  - assert (Ho : owns locks me l = true <-> l ∈ c_cs c).
    { unfold owns. destruct (locks !! l) as [k|] eqn:El.
      - rewrite bool_decide_eq_true. destruct (Hf l k El) as [F1 F2 _ _ _]. rewrite Ep in F2.
        split; [intros X; destruct (F2 X) as (_ & _ & Y); intuition congruence|done].
      - split; [done|]. intros X%Hk. apply lookup_ge_None in El. lia. }
    split; cbn.
    + by apply NoDup_filter.
    + destruct (decide (l ∈ c_cs c)) as [Hin|Hout].
      * rewrite (proj2 Ho Hin). pose proof (filter_out_length l _ H1 Hin). lia.
      * destruct (owns locks me l); [by destruct Hout; apply Ho|].
        rewrite filter_out_id by done. lia.
    + done.
Qed.

Lemma owns_insert locks me l k : (l < length locks)%nat ->
  owns (<[l := k]> locks) me l = bool_decide (lk_cpu k = Some me).
Proof. intros H. unfold owns. by rewrite list_lookup_insert_eq. Qed.

Lemma owns_lookup locks me l k : locks !! l = Some k ->
  owns locks me l = bool_decide (lk_cpu k = Some me).
Proof. intros H. unfold owns. by rewrite H. Qed.

Lemma cli_access locks me c l k k' c' :
  locks !! l = Some k -> fits me c l k -> pc_lock (c_pc c) = Some l -> access me k c = (k', c') ->
  cli_ok locks me c -> panicked c' \/ cli_ok (<[l := k']> locks) me c'.
Proof.
  intros Hk [F1 F2 F3 F5 F4] El Ea [H1 H2 H3]. unfold access, depth, panicked, taking in *.
  pose proof (lookup_lt_Some _ _ _ Hk) as Hlt. destruct c as [n ie fl p pr cs]; cbn in *.
  destruct p as [|l0|l0|l0|l0|l0|l0|l0|l0|l0|]; injection Ea as <- <-; try done;
    injection El as ->; cbn in *.
  - right. split; unfold depth; cbn; [done| |done]. by destruct (_ =? _).
  - destruct (decide _); [left; by eexists|right]. by split.
  - right. split; unfold depth; cbn; [done| |done]. by destruct (_ =? _).
  - right. destruct F4 as [_ F6]; [by left|]. split; unfold depth; cbn; [|lia|done].
    apply NoDup_cons. split; [intros X%F1; congruence|done].
  - destruct (_ =? _); [left; by eexists|right]. split; unfold depth; cbn; [done| |done].
    by rewrite owns_insert, <- (owns_lookup locks me l k).
  - rewrite (owns_lookup _ _ _ _ Hk) in H2. destruct (decide _) as [E|E]; [right|left; by eexists].
    rewrite bool_decide_eq_true_2 in H2 by done. by split.
  - right. by split.
  - right. by split.
  - right. unfold popcli; cbn. assert (fl = false) as -> by (apply H3; lia).
    rewrite (proj2 (Z.ltb_ge _ _)) by lia. split; unfold depth; cbn; [done|lia|].
    intros Hp. by rewrite (proj2 (Z.eqb_neq _ _)) by lia.
Qed.

Lemma access_owner a ca l k k' c' b :
  pc_lock (c_pc ca) = Some l -> fits a ca l k -> access a k ca = (k', c') -> a <> b ->
  lk_cpu k' = Some b <-> lk_cpu k = Some b.
Proof.
  intros El [_ _ F3 _ F4] Ea Hab. unfold access, taking in *.
  destruct (c_pc ca) as [|l0|l0|l0|l0|l0|l0|l0|l0|l0|]; injection Ea as <- _; try done;
    injection El as ->; cbn.
  - destruct F4 as [_ ->]; [by left|]. split; congruence.
  - rewrite (F3 eq_refl). split; congruence.
Qed.

Lemma cli_other locks a ca l k k' c' b cb :
  locks !! l = Some k -> pc_lock (c_pc ca) = Some l -> fits a ca l k -> access a k ca = (k', c') ->
  a <> b -> cli_ok locks b cb -> cli_ok (<[l := k']> locks) b cb.
Proof.
  intros Hk El Hf Ea Hab [H1 H2 H3]. split; [done| |done]. rewrite H2. f_equal.
  assert (Ho : forall l2, owns (<[l := k']> locks) b l2 = owns locks b l2).
  { intros l2. pose proof (lookup_lt_Some _ _ _ Hk). destruct (decide (l2 = l)) as [->|Hne].
    - rewrite owns_insert, (owns_lookup _ _ _ _ Hk) by done. apply bool_decide_ext.
      by eapply access_owner.
    - unfold owns. by rewrite list_lookup_insert_ne. }
  unfold depth. by destruct (c_pc cb); rewrite ?Ho.
Qed.

Lemma panicked_stuck me m m' c :
  m_cpus m !! me = Some c -> panicked c -> cpu_step me m = Some m' -> False.
Proof. intros Hc [msg Ep]. unfold cpu_step. by rewrite Hc, Ep. Qed.

Lemma cli_inv_step m m' : spin_inv m -> cli_inv m -> mstep m m' -> cli_inv m'.
Proof.
  intros [F1 _ _ F4] Hc [me H]. pose proof H as H'.
  apply cpu_step_inv in H as (c & Hm & [(c' & Ep & Ef & ->)|(l & k & k' & c' & El & Hk & Ea & ->)]);
    intros b cb Hb; cbn in *; pose proof (lookup_lt_Some _ _ _ Hm) as Hlt;
    (destruct (Hc me c Hm) as [Hp|Hok]; [exfalso; eapply panicked_stuck; eassumption|]);
    destruct (decide (b = me)) as [->|Hne];
    rewrite ?list_lookup_insert_eq in Hb by done; rewrite ?list_lookup_insert_ne in Hb by done.
  - injection Hb as <-. right. eapply cli_fetch; try done; [by eauto|by eauto].
  - by apply Hc.
  - injection Hb as <-. eapply cli_access; try done. by apply F1.
  - destruct (Hc b cb Hb) as [?|Hokb]; [by left|right]. eapply cli_other; try done. by apply F1.
Qed.

Lemma spin_reach n progs m : rtc mstep (start n progs) m -> spin_inv m /\ cli_inv m.
Proof.
  intros H. remember (start n progs) as m0 eqn:E.
  assert (Hi : spin_inv m0 /\ cli_inv m0).
  { subst. split; [apply spin_inv_start|]. intros me c Hc. right. cbn in Hc.
    apply list_lookup_fmap_Some in Hc as ([i pr] & -> & _). split; cbn; [constructor|done|lia]. }
  clear E. induction H as [|m1 m2 m3 H1 _ IH]; [done|]. destruct Hi. apply IH.
  split; [by eapply spin_inv_step|by eapply cli_inv_step].
Qed.

(** C26: mutual exclusion.  However the CPUs interleave, in every state they can
    reach at most one CPU is in the critical section of a lock; the lock word
    is then set and names that CPU, and while the CPU has not panicked its
    interrupts are off. *)
Theorem spin_mutual_exclusion n progs m a ca l :
  rtc mstep (start n progs) m -> m_cpus m !! a = Some ca -> l ∈ c_cs ca ->
  (forall b cb, m_cpus m !! b = Some cb -> l ∈ c_cs cb -> b = a) /\
  (exists k, m_locks m !! l = Some k /\ lk_locked k <> 0 /\ lk_cpu k = Some a) /\
  (~ panicked ca -> c_if ca = false).
Proof.
  intros H Ha Hl. apply spin_reach in H as [[F1 F2 F3 F4] Hc].
  destruct (lookup_lt_is_Some_2 (m_locks m) l) as [k Hk]; [by eapply F4|].
  pose proof (ft_cs _ _ _ _ (F1 _ _ _ _ Ha Hk) Hl) as Ek. split; [|split].
  - intros b cb Hb Hlb. pose proof (ft_cs _ _ _ _ (F1 _ _ _ _ Hb Hk) Hlb). congruence.
  - exists k. split; [done|]. split; [|done]. by destruct (ft_own _ _ _ _ (F1 _ _ _ _ Ha Hk) Ek).
  - intros Hp. destruct (Hc a ca Ha) as [?|[H1 H2 H3]]; [done|]. apply H3. rewrite H2.
    assert (0 < length (c_cs ca))%nat by (destruct (c_cs ca); [by apply elem_of_nil in Hl|cbn; lia]).
    unfold depth. destruct (c_pc ca); try destruct (owns _ _ _); lia.
Qed.

(** * Runs *)

(** The CPUs of a schedule take their steps in turn. *)
Fixpoint run (sched : list nat) (m : machine) : option machine :=
  match sched with
  | [] => Some m
  | me :: sched' => match cpu_step me m with Some m' => run sched' m' | None => None end
  end.

Lemma run_rtc sched m m' : run sched m = Some m' -> rtc mstep m m'.
Proof.
  revert m. induction sched as [|me sched IH]; cbn; intros m H; [by injection H as <-|].
  destruct (cpu_step me m) as [m1|] eqn:E; [|done]. eapply rtc_l; [by exists me|by apply IH].
Qed.

Lemma spin_mutual_exclusion_witness :
  exists m ca, run [0; 1; 0; 0; 0; 1; 1]%nat
      (start 1 [(true, [Acquire 0; Release 0]); (true, [Acquire 0; Release 0])]) = Some m /\
    m_cpus m !! 0%nat = Some ca /\ 0%nat ∈ c_cs ca /\ c_if ca = false /\
    (forall b cb, m_cpus m !! b = Some cb -> 0%nat ∈ c_cs cb -> b = 0%nat).
Proof.
  do 2 eexists. split; [vm_compute; reflexivity|]. split; [vm_compute; reflexivity|].
  match goal with |- ?l ∈ c_cs ?ca /\ _ => assert (Hl : l ∈ c_cs ca) by (cbn; set_solver) end.
  split; [exact Hl|]. split; [reflexivity|].
  intros b cb Hb Hc.
  eapply (spin_mutual_exclusion 1 [(true, [Acquire 0; Release 0]); (true, [Acquire 0; Release 0])] _ 0 _ 0);
    [apply (run_rtc [0; 1; 0; 0; 0; 1; 1]%nat); vm_compute; reflexivity|reflexivity|exact Hl|exact Hb|exact Hc].
Defined.

(** * The order of [tickslock] and [ptable.lock] *)

Definition tickslock : nat := 0.
Definition ptable_lock : nat := 1.

(** The timer interrupt on CPU 0 (trap.c): [wakeup(&ticks)] runs under
    [tickslock]. *)
Definition timer_tick : list call :=
  [Acquire tickslock; Acquire ptable_lock; Release ptable_lock; Release tickslock].

(** [yield] (proc.c): [sched] calls [processUptime] under [ptable.lock]. *)
Definition yield_calls : list call :=
  [Acquire ptable_lock; Acquire tickslock; Release tickslock; Release ptable_lock].

(** C36: the two orders deadlock.  A timer interrupt on one CPU and a [yield] on
    another can reach a state from which, whatever happens, both spin forever:
    the first holds [tickslock] and spins on [ptable.lock], the second holds
    [ptable.lock] and spins on [tickslock]. *)
Theorem tickslock_ptable_deadlock :
  exists m, rtc mstep (start 2 [(true, timer_tick); (true, yield_calls)]) m /\
    forall m', rtc mstep m m' ->
      exists c0 c1, m_cpus m' !! 0%nat = Some c0 /\ m_cpus m' !! 1%nat = Some c1 /\
        c_cs c0 = [tickslock] /\ c_pc c0 = PAcqXchg ptable_lock /\
        c_cs c1 = [ptable_lock] /\ c_pc c1 = PAcqXchg tickslock.
Proof.
  eexists. split; [apply (run_rtc [0; 0; 0; 0; 1; 1; 1; 1; 0; 0; 0; 1; 1; 1]%nat); vm_compute; reflexivity|].
  intros m' H. match type of H with rtc _ ?m0 _ => assert (m' = m0) as -> end.
  { remember m' as m2 eqn:E2. clear E2.
    match type of H with rtc _ ?m0 _ => remember m0 as m1 eqn:E1 end.
    induction H as [|m1 m2 m3 [me Hs] _ IH]; [done|]. subst m1.
    destruct me as [|[|me]]; cbn in Hs; [injection Hs as <-; by apply IH..|done]. }
  do 2 eexists. repeat (split; [reflexivity|]). reflexivity.
Qed.
