(* ===== verification/Kalloc.v ===== *)
(** kalloc.c: the physical page allocator.

    The free list is threaded through the free pages themselves: [k_word] is
    the first word of each page, which holds [struct run]'s [next] while the
    page is free.  [kend] is the linker's symbol [end]; each operation is one
    critical section of [kmem.lock]. *)
From S2P Require Import Prelude.

Definition PGSIZE : Z := 4096.
Definition KERNBASE : Z := 2147483648.
Definition PHYSTOP : Z := 234881024.
Definition V2P (a : Z) : Z := u32 (a - KERNBASE).
Definition P2V (a : Z) : Z := a + KERNBASE.
Definition PGROUNDUP (sz : Z) : Z := Z.land (u32 (sz + PGSIZE - 1)) (Z.lnot (PGSIZE - 1)).
Definition PGROUNDDOWN (a : Z) : Z := Z.land a (Z.lnot (PGSIZE - 1)).

Record kmem := mkKmem { k_freelist : Z; k_use_lock : bool; k_word : gmap Z Z }.

Section kalloc.
Context (kend : Z).

Definition kfree (v : Z) : M kmem unit :=
  if negb (v mod PGSIZE =? 0) || (v <? kend) || (PHYSTOP <=? V2P v) then panic "kfree"
  else
    (* memset(v, 1, PGSIZE) *)
    modify (fun s => mkKmem (k_freelist s) (k_use_lock s) (<[v := 16843009]> (k_word s))) ;;
    let* s := get in
    put (mkKmem v (k_use_lock s) (<[v := k_freelist s]> (k_word s))).

(** A null pointer is 0; reading the word of an unknown page is a fault. *)
Definition kalloc : M kmem Z :=
  let* s := get in
  let r := k_freelist s in
  if r =? 0 then ret 0
  else
    let* next := deref (k_word s !! r) in
    put (mkKmem next (k_use_lock s) (k_word s)) ;;
    ret r.

Definition freerange (vstart vend : Z) : M kmem unit :=
  let p := PGROUNDUP vstart in
  let* _ := for_loop (Z.to_nat ((vend - p) / PGSIZE)) 0 (fun k =>
    kfree (p + k * PGSIZE) ;; ret (@None unit)) in
  ret tt.

Definition kinit1 (vstart vend : Z) : M kmem unit :=
  modify (fun s => mkKmem (k_freelist s) false (k_word s)) ;;
  freerange vstart vend.

Definition kinit2 (vstart vend : Z) : M kmem unit :=
  freerange vstart vend ;;
  modify (fun s => mkKmem (k_freelist s) true (k_word s)).

(** * The free list *)

(** [l] are the pages linked from [head]. *)
Fixpoint linked (w : gmap Z Z) (head : Z) (l : list Z) : Prop :=
  match l with
  | [] => head = 0
  | p :: l' => head = p /\ exists next, w !! p = Some next /\ linked w next l'
  end.

(** A page [kfree] accepts. *)
Definition page_ok (v : Z) : Prop :=
  v mod PGSIZE = 0 /\ kend <= v /\ V2P v < PHYSTOP.

Record kmem_rep (s : kmem) (l : list Z) : Prop := {
  kr_list : linked (k_word s) (k_freelist s) l;
  kr_nodup : NoDup l;
  kr_pages : Forall page_ok l;
  kr_null : Forall (fun p => 0 < p) l
}.

Lemma linked_insert w head l p x : p ∉ l -> linked w head l -> linked (<[p:=x]> w) head l.
Proof.
  revert head. induction l as [|q l IH]; intros head Hp; [done|].
  apply not_elem_of_cons in Hp as [Hq Hp]. intros [-> (next & Hw & Hl)]. split; [done|].
  exists next. split; [by rewrite lookup_insert_ne|by apply IH].
Qed.

Lemma wp_kfree s l v (Q : unit -> kmem -> Prop) :
  kmem_rep s l -> page_ok v -> 0 < v -> v ∉ l ->
  (forall s', kmem_rep s' (v :: l) -> k_use_lock s' = k_use_lock s -> Q tt s') -> wp (kfree v) s Q.
Proof.
  intros [Hl Hn Hp H0] (Hv1 & Hv2 & Hv3) Hv0 Hvl HQ. unfold kfree.
  replace (_ || _) with false.
  2: { symmetry. rewrite !orb_false_iff, negb_false_iff, Z.eqb_eq, Z.ltb_ge, Z.leb_gt. lia. }
  wp_step. wp_step. wp_step. wp_step. wp_step. apply HQ; [|done]. split; cbn.
  - split; [done|]. exists (k_freelist s). rewrite lookup_insert_eq. split; [done|].
    apply linked_insert; [done|]. by apply linked_insert.
  - by apply NoDup_cons.
  - apply Forall_cons. split; [done|done].
  - by apply Forall_cons.
Qed.

Lemma wp_kalloc s l (Q : Z -> kmem -> Prop) :
  kmem_rep s l ->
  (l = [] -> Q 0 s) ->
  (forall v l' s', l = v :: l' -> kmem_rep s' l' -> k_use_lock s' = k_use_lock s -> Q v s') ->
  wp kalloc s Q.
Proof.
  intros [Hl Hn Hp H0] HN HS. unfold kalloc. wp_step. wp_step. cbv zeta. destruct l as [|v l]; cbn in Hl.
  - rewrite Hl. eval_tests. wp_step. by apply HN.
  - destruct Hl as [-> (next & Hw & Hl)]. apply NoDup_cons in Hn as [_ Hn].
    apply Forall_cons in Hp as [_ Hp]. apply Forall_cons in H0 as [Hv H0].
    rewrite (proj2 (Z.eqb_neq _ _)) by lia. wp_step. wp_step; [exact Hw|]. wp_step. wp_step. wp_step.
    by apply (HS _ l).
Qed.

(** The pages of a range, in the order [freerange] frees them. *)
Definition range_pages (vstart vend : Z) : list Z :=
  (fun k => PGROUNDUP vstart + k * PGSIZE) <$> seqZ 0 ((vend - PGROUNDUP vstart) / PGSIZE).

Lemma wp_freerange s l vstart vend (Q : unit -> kmem -> Prop) :
  kmem_rep s l ->
  Forall (fun p => page_ok p /\ 0 < p /\ p ∉ l) (range_pages vstart vend) ->
  (forall s', kmem_rep s' (reverse (range_pages vstart vend) ++ l) -> k_use_lock s' = k_use_lock s ->
     Q tt s') ->
  wp (freerange vstart vend) s Q.
Proof.
  intros Hr Hall HQ. unfold freerange. set (p := PGROUNDUP vstart) in *.
  set (n := (vend - p) / PGSIZE) in *. wp_step.
  assert (Hpages : forall k, 0 <= k < n -> range_pages vstart vend !! Z.to_nat k = Some (p + k * PGSIZE)).
  { intros k Hk. unfold range_pages. fold p. fold n. rewrite list_lookup_fmap, lookup_seqZ_lt by lia.
    cbn. by rewrite Z2Nat.id by lia. }
  assert (Hlen : length (range_pages vstart vend) = Z.to_nat n).
  { unfold range_pages. fold p. fold n. by rewrite length_fmap, length_seqZ. }
  apply (wp_for_loop (fun k s' => kmem_rep s' (reverse (take (Z.to_nat k) (range_pages vstart vend)) ++ l) /\
    k_use_lock s' = k_use_lock s)).
  - by split.
  - intros k s' Hk [Hr' Hu']. pose proof (Hpages k ltac:(lia)) as Hpk.
    pose proof (proj1 (Forall_lookup _ _) Hall _ _ Hpk) as (Hok & Hpos & Hnl).
    wp_step. eapply wp_kfree; [exact Hr'|done|done| |].
    + rewrite not_elem_of_app, elem_of_reverse. split; [|done]. intros Hin.
      apply elem_of_take in Hin as (j & Hj & Hlt). pose proof (lookup_lt_Some _ _ _ Hj).
      pose proof (Hpages (Z.of_nat j) ltac:(lia)) as Hpj. rewrite Nat2Z.id, Hj in Hpj.
      injection Hpj as E. unfold PGSIZE in E. lia.
    + intros s'' Hr'' Hu''. wp_step. split; [|congruence].
      replace (Z.to_nat (k + 1)) with (S (Z.to_nat k)) by lia.
      rewrite (take_S_r _ _ _ Hpk), reverse_app. exact Hr''.
  - intros s' [Hr' Hu']. wp_step. rewrite Z.add_0_l, Nat2Z.id, <- Hlen, firstn_all in Hr'. by apply HQ.
Qed.

(** * The allocator and its clients *)

(** A client takes pages and gives back pages it holds; [A] are the pages
    handed out. *)
Inductive kstep : kmem * list Z -> kmem * list Z -> Prop :=
| KAlloc s v s' A : kalloc s = Ok v s' -> v <> 0 -> kstep (s, A) (s', v :: A)
| KEmpty s s' A : kalloc s = Ok 0 s' -> kstep (s, A) (s', A)
| KFree s v s' A1 A2 : kfree v s = Ok tt s' -> kstep (s, A1 ++ v :: A2) (s', A1 ++ A2).

(** The pages free and handed out are those there were at the start. *)
Definition kinv (l0 : list Z) (st : kmem * list Z) : Prop :=
  exists l, kmem_rep st.1 l /\ l ++ st.2 ≡ₚ l0.

Lemma kinv_facts l0 s A :
  NoDup l0 -> Forall (fun p => page_ok p /\ 0 < p) l0 -> kinv l0 (s, A) ->
  exists l, kmem_rep s l /\ l ++ A ≡ₚ l0 /\ NoDup (l ++ A) /\
    Forall (fun p => page_ok p /\ 0 < p) A.
Proof.
  intros Hnd Hok (l & Hr & Hp). cbn in *. exists l. split_and!; [done|done|by rewrite Hp|].
  rewrite <- Hp in Hok. by apply Forall_app in Hok as [_ ?].
Qed.

Lemma kstep_inv l0 st st' :
  NoDup l0 -> Forall (fun p => page_ok p /\ 0 < p) l0 -> kinv l0 st -> kstep st st' -> kinv l0 st'.
Proof.
  intros Hnd Hok Hinv Hstep.
  destruct Hstep as [s v s' A E Hv|s s' A E|s v s' A1 A2 E];
    destruct (kinv_facts _ _ _ Hnd Hok Hinv) as (l & Hr & Hp & Hnd' & HA).
  - assert (Hwp : wp kalloc s (fun r s1 => r <> 0 -> exists l', l = r :: l' /\ kmem_rep s1 l')).
    { eapply wp_kalloc; [exact Hr|done|]. eauto. }
    unfold wp in Hwp. rewrite E in Hwp. destruct (Hwp Hv) as (l' & -> & Hr'). exists l'. split; [done|].
    cbn. rewrite <- Hp. by rewrite <- Permutation_middle.
  - assert (Hwp : wp kalloc s (fun r s1 => r = 0 -> s1 = s)).
    { eapply wp_kalloc; [exact Hr|done|]. intros v l' s1 -> _ _ Hv.
      apply kr_null in Hr. apply Forall_cons in Hr as [? _]. lia. }
    unfold wp in Hwp. rewrite E in Hwp. rewrite Hwp by done. by exists l.
  - rewrite Forall_app, Forall_cons in HA. destruct HA as (_ & [Hv1 Hv2] & _).
    assert (Hvl : v ∉ l).
    { apply NoDup_app in Hnd' as (_ & Hd & _). intros Hin. apply (Hd v Hin).
      apply elem_of_app. right. constructor. }
    assert (Hwp : wp (kfree v) s (fun _ s1 => kmem_rep s1 (v :: l))) by (by eapply wp_kfree).
    unfold wp in Hwp. rewrite E in Hwp. exists (v :: l). split; [done|]. cbn in *.
    rewrite <- Hp, <- Permutation_middle. cbn. by rewrite Permutation_middle.
Qed.
End kalloc.

(** C28: the allocator never hands out a page twice.  Whatever sequence of
    [kalloc]s and of [kfree]s of pages held by clients follows, the free list
    stays a well-formed list, and its pages together with the pages handed out
    are exactly the initial pages, each once; the next [kalloc], and the
    [kfree] of any page handed out, return. *)
Theorem kalloc_pages_conserved kend s0 l0 s A :
  kmem_rep kend s0 l0 -> rtc (kstep kend) (s0, []) (s, A) ->
  exists l, kmem_rep kend s l /\ l ++ A ≡ₚ l0 /\ NoDup (l ++ A) /\
    (exists v s', kalloc s = Ok v s') /\ (forall v, v ∈ A -> exists s', kfree kend v s = Ok tt s').
Proof.
  intros Hr Hrtc. pose proof Hr as [_ Hnd Hok H0].
  assert (Hok' : Forall (fun p => page_ok kend p /\ 0 < p) l0) by (by apply Forall_and).
  assert (Hinv : kinv kend l0 (s, A)).
  { revert Hrtc. generalize (s, A). intros st Hrtc.
    remember (s0, @nil Z) as st0 eqn:E0.
    assert (Hi0 : kinv kend l0 st0) by (subst; exists l0; by rewrite app_nil_r).
    clear E0. induction Hrtc; [done|]. apply IHHrtc. by eapply kstep_inv. }
  destruct (kinv_facts _ _ _ _ Hnd Hok' Hinv) as (l & Hl & Hp & Hnd' & HA).
  exists l. split_and!; [done|done|done| |].
  - assert (Hwp : wp kalloc s (fun _ _ => True)) by (by eapply wp_kalloc).
    apply wp_inv in Hwp as (v & s' & E & _). eauto.
  - intros v Hv. destruct (proj1 (Forall_forall _ _) HA v Hv) as [Hv1 Hv2].
    apply NoDup_app in Hnd' as (_ & Hd & _).
    assert (Hwp : wp (kfree kend v) s (fun _ _ => True)).
    { eapply wp_kfree; [exact Hl|done|done| |done]. intros Hin. by apply (Hd v Hin). }
    apply wp_inv in Hwp as ([] & s' & E & _). eauto.
Qed.

Lemma kalloc_pages_conserved_witness :
  let s0 := mkKmem 2148536320 true {[ 2148536320 := 2148540416; 2148540416 := 0 ]} in
  let s1 := mkKmem 2148540416 true {[ 2148536320 := 2148540416; 2148540416 := 0 ]} in
  kmem_rep 2148532224 s0 [2148536320; 2148540416] /\
  exists l, kmem_rep 2148532224 s1 l /\ l ++ [2148536320] ≡ₚ [2148536320; 2148540416] /\
    NoDup (l ++ [2148536320]) /\ (exists v s', kalloc s1 = Ok v s') /\
    (forall v, v ∈ [2148536320] -> exists s', kfree 2148532224 v s1 = Ok tt s').
Proof.
  intros s0 s1.
  assert (Hr : kmem_rep 2148532224 s0 [2148536320; 2148540416]).
  { split.
    - cbn. split; [done|]. exists 2148540416. split; [by vm_compute|]. split; [done|].
      exists 0. by vm_compute.
    - apply (bool_decide_unpack _). by vm_compute.
    - repeat apply Forall_cons_2; try apply Forall_nil_2; unfold page_ok; by vm_compute.
    - repeat apply Forall_cons_2; try apply Forall_nil_2; done. }
  split; [exact Hr|].
  apply (kalloc_pages_conserved 2148532224 s0 [2148536320; 2148540416] s1 [2148536320] Hr).
  eapply rtc_once, KAlloc; [|done]. by vm_compute.
Defined.
