(* ===== verification/Vm.v ===== *)
(** vm.c: page tables and the memory of a process.

    [vmem] is the page allocator and the contents of the pages it has handed
    out, by their kernel virtual address.  A [pte_t*] is the page it points
    into and an index.  The contents of a page start to exist with the
    [memset] or [memmove] over the whole page that follows every [kalloc] of
    this file; touching any other page is an error.  [kend] and [kdata] are the
    linker's [end] and [data]. *)
From S2P Require Import Prelude Layout Kalloc.

Definition PTE_P : Z := 1.
Definition PTE_W : Z := 2.
Definition PTE_U : Z := 4.
Definition PDX (va : Z) : Z := Z.land (Z.shiftr va 22) 1023.
Definition PTX (va : Z) : Z := Z.land (Z.shiftr va 12) 1023.
Definition PGADDR (d t o : Z) : Z := u32 (Z.lor (Z.lor (Z.shiftl d 22) (Z.shiftl t 12)) o).
Definition PTE_ADDR (pte : Z) : Z := Z.land pte (Z.lnot 4095).
Definition PTE_FLAGS (pte : Z) : Z := Z.land pte 4095.
Definition NPDENTRIES : Z := 1024.
Definition EXTMEM : Z := 1048576.
Definition KERNLINK : Z := KERNBASE + EXTMEM.
Definition DEVSPACE : Z := 4261412864.

(** [*pte & flag]. *)
Definition pte_has (pte flag : Z) : bool := negb (Z.land pte flag =? 0).

Definition zero_page : bytes := replicate (Z.to_nat PGSIZE) 0.

Record vmem := mkVmem { v_mem : kmem; v_page : gmap Z bytes }.

(** What the memory management unit does with a user address: the entry of
    its page and the page, when both tables have it present. *)
Definition upage (s : vmem) (pgdir va : Z) : option (Z * Z) :=
  match v_page s !! pgdir with
  | None => None
  | Some dir =>
      let pde := get32 dir (4 * Z.to_nat (PDX va)) in
      if negb (pte_has pde PTE_P) then None
      else
        match v_page s !! P2V (PTE_ADDR pde) with
        | None => None
        | Some tab =>
            let pte := get32 tab (4 * Z.to_nat (PTX va)) in
            if pte_has pte PTE_P then Some (pte, P2V (PTE_ADDR pte)) else None
        end
  end.

(** The byte at a user address; an address that is not mapped reads as 0. *)
Definition umem (s : vmem) (pgdir va : Z) : Z :=
  match upage s pgdir va with
  | Some (_, p) =>
      match v_page s !! p with Some x => nth0 x (Z.to_nat (va mod PGSIZE)) | None => 0 end
  | None => 0
  end.

(** The pages of [n] bytes from [va] on are mapped. *)
Definition ubyte_mapped (s : vmem) (pgdir va : Z) : bool :=
  match upage s pgdir va with
  | Some (_, p) => bool_decide (is_Some (v_page s !! p))
  | None => false
  end.
Definition umapped (s : vmem) (pgdir va : Z) (n : nat) : bool :=
  forallb (fun k => ubyte_mapped s pgdir (va + Z.of_nat k)) (seq 0 n).

(** The first address of the range whose page is not present. *)
Definition first_absent (s : vmem) (pgdir va : Z) (n : nat) : Z :=
  match find (fun k => negb (ubyte_mapped s pgdir (va + Z.of_nat k))) (seq 0 n) with
  | Some k => va + Z.of_nat k
  | None => va
  end.

Section vm.
Context (kend kdata : Z).
Local Abbreviation VM := (M vmem).

Definition vm_alloc {A} (m : M kmem A) : VM A :=
  zoom v_mem (fun k s => mkVmem k (v_page s)) m.

Definition page_at (p : Z) : VM bytes := fun s =>
  match v_page s !! p with Some x => Ok x s | None => Fault end.
Definition set_page (p : Z) (x : bytes) : VM unit :=
  modify (fun s => mkVmem (v_mem s) (<[p := x]> (v_page s))).
Definition free_page (p : Z) : VM unit :=
  modify (fun s => mkVmem (v_mem s) (delete p (v_page s))) ;; vm_alloc (kfree kend p).

(** [pgdir[i]], [*pte]. *)
Definition get_pte (p i : Z) : VM Z :=
  let* x := page_at p in ret (get32 x (4 * Z.to_nat i)).
Definition set_pte (p i pte : Z) : VM unit :=
  let* x := page_at p in set_page p (put32 x (4 * Z.to_nat i) pte).

Definition walkpgdir (pgdir va : Z) (alloc : bool) : VM (option (Z * Z)) :=
  let* pde := get_pte pgdir (PDX va) in
  if pte_has pde PTE_P then ret (Some (P2V (PTE_ADDR pde), PTX va))
  else if negb alloc then ret None
  else
    let* pgtab := vm_alloc kalloc in
    if pgtab =? 0 then ret None
    else
      set_page pgtab zero_page ;;
      set_pte pgdir (PDX va) (Z.lor (Z.lor (Z.lor (V2P pgtab) PTE_P) PTE_W) PTE_U) ;;
      ret (Some (pgtab, PTX va)).

(** [true] for 0, [false] for -1. *)
Definition mappages (pgdir va size pa perm : Z) : VM bool :=
  let a := PGROUNDDOWN va in
  let last := PGROUNDDOWN (u32 (va + size - 1)) in
  while_loop (Z.to_nat (u32 (last - a) / PGSIZE) + 1) (a, pa) (fun '(a, pa) =>
    let* pte := walkpgdir pgdir a true in
    match pte with
    | None => ret (inr false)
    | Some (p, i) =>
        let* x := get_pte p i in
        if pte_has x PTE_P then panic "remap"
        else
          set_pte p i (Z.lor (Z.lor pa perm) PTE_P) ;;
          if a =? last then ret (inr true)
          else ret (inl (u32 (a + PGSIZE), u32 (pa + PGSIZE)))
    end).

Definition deallocuvm (pgdir oldsz newsz : Z) : VM Z :=
  if oldsz <=? newsz then ret oldsz
  else
    let a := PGROUNDUP newsz in
    while_loop (Z.to_nat ((oldsz - a) / PGSIZE) + 2) a (fun a =>
      if oldsz <=? a then ret (inr newsz)
      else
        let* pte := walkpgdir pgdir a false in
        match pte with
        | None => ret (inl (u32 (PGADDR (PDX a + 1) 0 0 - PGSIZE + PGSIZE)))
        | Some (p, i) =>
            let* x := get_pte p i in
            if pte_has x PTE_P then
              let pa := PTE_ADDR x in
              if pa =? 0 then panic "kfree"
              else
                free_page (P2V pa) ;;
                set_pte p i 0 ;;
                ret (inl (u32 (a + PGSIZE)))
            else ret (inl (u32 (a + PGSIZE)))
        end).

Definition freevm (pgdir : Z) : VM unit :=
  if pgdir =? 0 then panic "freevm: no pgdir"
  else
    let* _ := deallocuvm pgdir KERNBASE 0 in
    let* _ := for_loop (Z.to_nat NPDENTRIES) 0 (fun i =>
      let* pde := get_pte pgdir i in
      (if pte_has pde PTE_P then free_page (P2V (PTE_ADDR pde)) else ret tt) ;;
      ret (@None unit)) in
    free_page pgdir.

(** [struct kmap]: virt, phys_start, phys_end, perm. *)
Definition kmap : list (Z * Z * Z * Z) :=
  [(KERNBASE, 0, EXTMEM, PTE_W);
   (KERNLINK, V2P KERNLINK, V2P kdata, 0);
   (kdata, V2P kdata, PHYSTOP, PTE_W);
   (DEVSPACE, DEVSPACE, 0, PTE_W)].

Fixpoint map_kernel (pgdir : Z) (l : list (Z * Z * Z * Z)) : VM bool :=
  match l with
  | [] => ret true
  | (virt, phys_start, phys_end, perm) :: l' =>
      let* ok := mappages pgdir virt (u32 (phys_end - phys_start)) phys_start perm in
      if ok then map_kernel pgdir l' else ret false
  end.

(** 0 is the null pointer. *)
Definition setupkvm : VM Z :=
  let* pgdir := vm_alloc kalloc in
  if pgdir =? 0 then ret 0
  else
    set_page pgdir zero_page ;;
    if DEVSPACE <? P2V PHYSTOP then panic "PHYSTOP too high"
    else
      let* ok := map_kernel pgdir kmap in
      if ok then ret pgdir else freevm pgdir ;; ret 0.

(** The size, or 0 on error. *)
Definition allocuvm (pgdir oldsz newsz : Z) : VM Z :=
  if KERNBASE <=? newsz then ret 0
  else if newsz <? oldsz then ret oldsz
  else
    let a := PGROUNDUP oldsz in
    while_loop (Z.to_nat ((newsz - a) / PGSIZE) + 2) a (fun a =>
      if newsz <=? a then ret (inr newsz)
      else
        let* mem := vm_alloc kalloc in
        if mem =? 0 then
          let* _ := deallocuvm pgdir newsz oldsz in ret (inr 0)
        else
          set_page mem zero_page ;;
          let* ok := mappages pgdir a PGSIZE (V2P mem) (Z.lor PTE_W PTE_U) in
          if ok then ret (inl (u32 (a + PGSIZE)))
          else
            let* _ := deallocuvm pgdir newsz oldsz in
            free_page mem ;; ret (inr 0)).

(** trap.c [allocPage]: pages from the address of a page fault up to the size of
    the process; [true] for 1. *)
Definition allocPage (pgdir va size : Z) : VM bool :=
  let a := PGROUNDDOWN va in
  while_loop (Z.to_nat ((size - a) / PGSIZE) + 2) a (fun a =>
    if a <? size then
      let* mem := vm_alloc kalloc in
      if mem =? 0 then ret (inr false)
      else
        set_page mem zero_page ;;
        let* ok := mappages pgdir a PGSIZE (V2P mem) (Z.lor PTE_W PTE_U) in
        if ok then ret (inl (u32 (a + PGSIZE))) else free_page mem ;; ret (inr false)
    else ret (inr true)).

Definition inituvm (pgdir : Z) (init : bytes) (sz : Z) : VM unit :=
  if PGSIZE <=? sz then panic "inituvm: more than a page"
  else
    let* mem := vm_alloc kalloc in
    if mem =? 0 then fault
    else
      set_page mem zero_page ;;
      let* _ := mappages pgdir 0 PGSIZE (V2P mem) (Z.lor PTE_W PTE_U) in
      let* x := page_at mem in
      set_page mem (splice x 0 (take (Z.to_nat sz) init)).

Definition clearpteu (pgdir uva : Z) : VM unit :=
  let* pte := walkpgdir pgdir uva false in
  match pte with
  | None => panic "clearpteu"
  | Some (p, i) => let* x := get_pte p i in set_pte p i (Z.land x (Z.lnot PTE_U))
  end.

(** [copyuvm] from page [i] on; [n] pages are left. *)
Fixpoint copy_pages (pgdir d i : Z) (n : nat) : VM Z :=
  match n with
  | O => ret d
  | Datatypes.S n' =>
      let* pte := walkpgdir pgdir i false in
      match pte with
      | None => panic "copyuvm: pte should exist"
      | Some (p, k) =>
          let* x := get_pte p k in
          if negb (pte_has x PTE_P) then panic "copyuvm: page not present"
          else
            let* mem := vm_alloc kalloc in
            if mem =? 0 then freevm d ;; ret 0
            else
              let* data := page_at (P2V (PTE_ADDR x)) in
              set_page mem data ;;
              let* ok := mappages d i PGSIZE (V2P mem) (PTE_FLAGS x) in
              if ok then copy_pages pgdir d (u32 (i + PGSIZE)) n'
              else free_page mem ;; freevm d ;; ret 0
      end
  end.

Definition copyuvm (pgdir sz : Z) : VM Z :=
  let* d := setupkvm in
  if d =? 0 then ret 0
  else copy_pages pgdir d 0 (Z.to_nat ((sz + PGSIZE - 1) / PGSIZE)).

(** 0 is the null pointer; there is no check for a missing page table. *)
Definition uva2ka (pgdir uva : Z) : VM Z :=
  let* pte := walkpgdir pgdir uva false in
  let* pte := deref pte in
  let* x := get_pte pte.1 pte.2 in
  if negb (pte_has x PTE_P) then ret 0
  else if negb (pte_has x PTE_U) then ret 0
  else ret (P2V (PTE_ADDR x)).

(** A store of the kernel to a user address, by its page table; a page that is
    not present or not writable is a page fault. *)
Fixpoint ustore_bytes (pgdir va : Z) (l : bytes) : VM unit :=
  match l with
  | [] => ret tt
  | c :: l' =>
      let* s := get in
      match upage s pgdir va with
      | Some (pte, p) =>
          if pte_has pte PTE_W then
            let* x := page_at p in
            set_page p (<[Z.to_nat (va mod PGSIZE) := c]> x) ;;
            ustore_bytes pgdir (va + 1) l'
          else page_fault va
      | None => page_fault va
      end
  end.

(** [len > 0] while bytes of [buf] are left; each round fills one page. *)
Definition copyout (pgdir va : Z) (buf : bytes) : VM Z :=
  while_loop (length buf + 1) (va, buf) (fun '(va, buf) =>
    if decide (buf = []) then ret (inr 0)
    else
      let va0 := PGROUNDDOWN va in
      let* pa0 := uva2ka pgdir va0 in
      if pa0 =? 0 then ret (inr (-1))
      else
        let n := Nat.min (Z.to_nat (PGSIZE - (va - va0))) (length buf) in
        let* x := page_at pa0 in
        set_page pa0 (splice x (Z.to_nat (va - va0)) (take n buf)) ;;
        ret (inl (u32 (va0 + PGSIZE), drop n buf))).
End vm.
