(* ===== verification/VmTab.v ===== *)
(** Page tables of vm.c: what [walkpgdir] and [mappages] do to them.

    The entries of a page table are described by page number: [pten s d n] is the
    entry of page [n] in the table of directory [d], 0 when there is no table
    for it.  [vrep] is the memory of the kernel: the free list, and the pages
    in use, which are disjoint from it. *)
From S2P Require Import Prelude Layout Kalloc Vm.

(** * Bits *)

Lemma clear_low a : Z.land a (Z.lnot 4095) = 4096 * (a / 4096).
Proof.
  change 4095 with (Z.ones 12). rewrite <- Z.ldiff_land, Z.ldiff_ones_r by lia.
  rewrite Z.shiftl_mul_pow2, Z.shiftr_div_pow2 by lia. change (2 ^ 12) with 4096. lia.
Qed.

Lemma PGROUNDDOWN_div a : PGROUNDDOWN a = 4096 * (a / 4096).
Proof. apply clear_low. Qed.

Lemma PTE_ADDR_div a : PTE_ADDR a = 4096 * (a / 4096).
Proof. apply clear_low. Qed.

Lemma PTE_FLAGS_mod a : PTE_FLAGS a = a mod 4096.
Proof. unfold PTE_FLAGS. change 4095 with (Z.ones 12). by rewrite Z.land_ones by lia. Qed.

Lemma PGROUNDUP_div a : 0 <= a <= 2 ^ 32 - 4096 -> PGROUNDUP a = 4096 * ((a + 4095) / 4096).
Proof.
  intros Ha. unfold PGROUNDUP, PGSIZE. change (4096 - 1) with 4095. rewrite clear_low.
  replace (a + 4096 - 1) with (a + 4095) by lia. by rewrite u32_small by lia.
Qed.

Lemma PDX_div va : 0 <= va < 2 ^ 32 -> PDX va = va / 4096 / 1024.
Proof.
  intros Hva. unfold PDX. change 1023 with (Z.ones 10).
  rewrite Z.land_ones, Z.shiftr_div_pow2, Z.div_div by lia. change (2 ^ 22) with (4096 * 1024).
  apply Z.mod_small. change (2 ^ 10) with 1024. split; [apply Z.div_pos; lia|].
  apply Z.div_lt_upper_bound; lia.
Qed.

Lemma PTX_mod va : PTX va = (va / 4096) mod 1024.
Proof.
  unfold PTX. change 1023 with (Z.ones 10). by rewrite Z.land_ones, Z.shiftr_div_pow2 by lia.
Qed.

Lemma pte_has_P e : pte_has e PTE_P = Z.odd e.
Proof.
  unfold pte_has, PTE_P. change 1 with (Z.ones 1). rewrite Z.land_ones by lia. change (2 ^ 1) with 2.
  rewrite Zmod_odd. by destruct (Z.odd e).
Qed.

(** An entry made of a page address and flags. *)
Lemma lor_entry pa f :
  0 <= pa < 2 ^ 32 -> pa mod 4096 = 0 -> 0 <= f < 4096 ->
  let e := Z.lor pa f in 0 <= e < 2 ^ 32 /\ e / 4096 = pa / 4096 /\ e mod 4096 = f.
Proof.
  intros Hpa Hal Hf e.
  assert (Hd : e / 4096 = pa / 4096).
  { unfold e. change 4096 with (2 ^ 12). rewrite <- !Z.shiftr_div_pow2, Z.shiftr_lor by lia.
    rewrite (Z.shiftr_div_pow2 f), (Z.div_small f) by lia. apply Z.lor_0_r. }
  assert (Hm : e mod 4096 = f).
  { unfold e. change 4096 with (2 ^ 12). rewrite <- !Z.land_ones, Z.land_lor_distr_l by lia.
    rewrite !Z.land_ones by lia. change (2 ^ 12) with 4096. rewrite Hal, Z.mod_small by lia. done. }
  split; [|done]. pose proof (Z.div_mod e 4096). pose proof (Z.div_mod pa 4096). lia.
Qed.

Lemma lor_flags f g : 0 <= f < 4096 -> 0 <= g < 4096 -> 0 <= Z.lor f g < 4096.
Proof.
  intros Hf Hg. split; [apply Z.lor_nonneg; lia|].
  assert (E : Z.lor f g / 4096 = 0).
  { change 4096 with (2 ^ 12). rewrite <- Z.shiftr_div_pow2, Z.shiftr_lor, !Z.shiftr_div_pow2 by lia.
    by rewrite !Z.div_small by (change (2 ^ 12) with 4096; lia). }
  apply Z.div_small_iff in E; [|lia]. destruct E as [|E]; lia.
Qed.

Lemma pte_has_U e : pte_has e PTE_U = Z.testbit e 2.
Proof.
  unfold pte_has, PTE_U. destruct (Z.testbit e 2) eqn:E.
  - rewrite negb_true_iff, Z.eqb_neq. intros H. apply (f_equal (fun x => Z.testbit x 2)) in H.
    by rewrite Z.land_spec, E in H.
  - rewrite negb_false_iff, Z.eqb_eq. apply Z.bits_inj_iff'. intros i Hi. rewrite Z.land_spec, Z.bits_0.
    destruct (decide (i = 2)) as [->|]; [by rewrite E|]. replace (Z.testbit 4 i) with false; [apply andb_false_r|].
    symmetry. change 4 with (2 ^ 2). apply Z.pow2_bits_false. lia.
Qed.

(** The entry [mappages] stores. *)
Definition entry (pa perm : Z) : Z := Z.lor (Z.lor pa perm) PTE_P.

Lemma entry_spec pa perm :
  0 <= pa < 2 ^ 32 -> pa mod 4096 = 0 -> 0 <= perm < 4096 ->
  0 <= entry pa perm < 2 ^ 32 /\ PTE_ADDR (entry pa perm) = pa /\
  PTE_FLAGS (entry pa perm) = Z.lor perm PTE_P /\ pte_has (entry pa perm) PTE_P = true.
Proof.
  intros Hpa Hal Hf. unfold entry. rewrite <- Z.lor_assoc.
  pose proof (lor_flags perm PTE_P Hf ltac:(unfold PTE_P; lia)) as Hg.
  destruct (lor_entry pa (Z.lor perm PTE_P) Hpa Hal Hg) as (H1 & H2 & H3). split_and!; [lia|lia|..].
  - rewrite PTE_ADDR_div, H2. pose proof (Z.div_mod pa 4096). lia.
  - by rewrite PTE_FLAGS_mod.
  - unfold pte_has. rewrite !Z.land_lor_distr_l. change (Z.land PTE_P PTE_P) with 1.
    rewrite negb_true_iff, Z.eqb_neq. intros E. apply Z.lor_eq_0_iff in E as [_ E].
    by apply Z.lor_eq_0_iff in E as [_ E].
Qed.

(** Entries for the kernel are not accessible to the user. *)
Lemma entry_kernel pa perm : pa mod 4096 = 0 -> 0 <= perm < 4 -> pte_has (entry pa perm) PTE_U = false.
Proof.
  intros Hal Hp. rewrite pte_has_U. unfold entry, PTE_P. rewrite !Z.lor_spec.
  replace (Z.testbit pa 2) with false.
  - rewrite (Z.testbit_odd perm 2), Z.shiftr_div_pow2 by lia. change (2 ^ 2) with 4. by rewrite Z.div_small by lia.
  - symmetry. pose proof (Z.div_mod pa 4096) as E. rewrite Hal in E. rewrite E, Z.add_0_r, Z.mul_comm by lia.
    change 4096 with (2 ^ 12). apply Z.mul_pow2_bits_low. lia.
Qed.

Lemma entry_present_flags e : pte_has e PTE_P = true -> Z.lor (PTE_FLAGS e) PTE_P = PTE_FLAGS e.
Proof.
  intros H. rewrite pte_has_P in H. unfold PTE_FLAGS, PTE_P. apply Z.bits_inj_iff'. intros i Hi.
  rewrite Z.lor_spec, Z.land_spec. destruct (decide (i = 0)) as [->|].
  - rewrite Z.bit0_odd, H. done.
  - replace (Z.testbit 1 i) with false; [by rewrite orb_false_r|].
    symmetry. apply (Z.bits_above_log2 1 i); cbn; lia.
Qed.

(** * The kernel's pages *)

Section vmtab.
Context (kend : Z).

Definition kpage (p : Z) : Prop := page_ok kend p /\ KERNBASE <= p < KERNBASE + PHYSTOP.
Definition pg_ok (x : bytes) : Prop := length x = 4096%nat.

Record vrep (s : vmem) (l : list Z) : Prop := {
  vr_mem : kmem_rep kend (v_mem s) l;
  vr_free : forall p, p ∈ l -> kpage p /\ v_page s !! p = None;
  vr_used : forall p x, v_page s !! p = Some x -> kpage p /\ pg_ok x
}.

Lemma vr_disjoint s l p x : vrep s l -> v_page s !! p = Some x -> p ∉ l.
Proof. intros [_ Hf _] Hp Hin. apply Hf in Hin as [_ E]. congruence. Qed.

Lemma P2V_V2P p : kpage p -> P2V (V2P p) = p /\ 0 <= V2P p < PHYSTOP /\ V2P p mod 4096 = 0.
Proof.
  intros [[Hal _] Hr]. unfold P2V, V2P, KERNBASE, PHYSTOP, PGSIZE in *. rewrite u32_small by lia.
  split_and!; [lia..|]. rewrite <- Zminus_mod_idemp_l, Hal. done.
Qed.

Lemma zero_page_ok : pg_ok zero_page.
Proof. reflexivity. Qed.

(** Entry [i] of the table at page [p]. *)
Definition pde (s : vmem) (p i : Z) : Z :=
  match v_page s !! p with Some x => get32 x (4 * Z.to_nat i) | None => 0 end.

(** The page table of directory entry [i]. *)
Definition tab (s : vmem) (d i : Z) : option Z :=
  if pte_has (pde s d i) PTE_P then Some (P2V (PTE_ADDR (pde s d i))) else None.

Definition pten (s : vmem) (d n : Z) : Z :=
  match tab s d (n / 1024) with Some t => pde s t (n mod 1024) | None => 0 end.

Definition istab (s : vmem) (d p : Z) : Prop := exists i, 0 <= i < 1024 /\ tab s d i = Some p.

Record ptwf (s : vmem) (d : Z) : Prop := {
  pt_dir : is_Some (v_page s !! d);
  pt_tab : forall p, istab s d p -> is_Some (v_page s !! p) /\ p <> d;
  pt_inj : forall i j p, 0 <= i < 1024 -> 0 <= j < 1024 -> tab s d i = Some p -> tab s d j = Some p -> i = j
}.

(** * Reading and writing entries *)

Lemma wp_get_pte s l p i (Q : Z -> vmem -> Prop) :
  vrep s l -> is_Some (v_page s !! p) -> Q (pde s p i) s -> wp (get_pte p i) s Q.
Proof.
  intros Hv [x Hx] HQ. unfold get_pte, page_at. apply wp_bind. unfold wp at 1. rewrite Hx.
  apply wp_ret. unfold pde in HQ. by rewrite Hx in HQ.
Qed.

(** The state after entry [i] of page [p] becomes [e]. *)
Definition set_entry (s : vmem) (p i e : Z) : vmem :=
  mkVmem (v_mem s) (alter (fun x => put32 x (4 * Z.to_nat i) e) p (v_page s)).

Lemma wp_set_pte s p i e (Q : unit -> vmem -> Prop) :
  is_Some (v_page s !! p) -> Q tt (set_entry s p i e) -> wp (set_pte p i e) s Q.
Proof.
  intros [x Hx] HQ. unfold set_pte, page_at. apply wp_bind. unfold wp at 1. rewrite Hx.
  unfold set_page. apply wp_modify. unfold set_entry in HQ.
  assert (E : alter (fun x => put32 x (4 * Z.to_nat i) e) p (v_page s) =
    <[p := put32 x (4 * Z.to_nat i) e]> (v_page s)); [|by rewrite E in HQ].
  apply map_eq. intros k. destruct (decide (k = p)) as [->|].
  - by rewrite lookup_alter_eq, lookup_insert_eq, Hx.
  - by rewrite lookup_alter_ne, lookup_insert_ne.
Qed.

Lemma set_entry_other s p i e q : q <> p -> v_page (set_entry s p i e) !! q = v_page s !! q.
Proof. intros. cbn. by rewrite lookup_alter_ne. Qed.

Lemma set_entry_some s p i e q : is_Some (v_page (set_entry s p i e) !! q) <-> is_Some (v_page s !! q).
Proof.
  destruct (decide (q = p)) as [->|]; [|by rewrite set_entry_other].
  cbn. rewrite lookup_alter_eq. by rewrite fmap_is_Some.
Qed.

Lemma pde_other s p i e q j : q <> p -> pde (set_entry s p i e) q j = pde s q j.
Proof. intros. unfold pde. by rewrite set_entry_other. Qed.

Lemma pde_same s l p i e j :
  vrep s l -> is_Some (v_page s !! p) -> 0 <= i < 1024 -> 0 <= j < 1024 -> 0 <= e < 2 ^ 32 ->
  pde (set_entry s p i e) p j = if decide (i = j) then e else pde s p j.
Proof.
  intros Hv [x Hx] Hi Hj He. unfold pde, set_entry. cbn [v_page]. rewrite lookup_alter_eq, Hx. cbn [fmap option_fmap option_map].
  destruct (vr_used _ _ Hv p x Hx) as [_ Hl]. unfold pg_ok in Hl. case_decide as E.
  - subst. rewrite get32_put32 by lia. by apply u32_small.
  - apply get32_put32_ne; lia.
Qed.

Lemma vrep_set_entry s l p i e :
  vrep s l -> 0 <= i < 1024 -> vrep (set_entry s p i e) l.
Proof.
  intros [H1 H2 H3] Hi. split; unfold set_entry; cbn [v_page v_mem]; [done|..].
  - intros q Hq. destruct (H2 q Hq) as [Hk Hn]. split; [done|].
    destruct (decide (q = p)) as [->|]; [by rewrite lookup_alter_eq, Hn|by rewrite lookup_alter_ne].
  - intros q y. destruct (decide (q = p)) as [->|]; [|rewrite lookup_alter_ne by done; apply H3].
    rewrite lookup_alter_eq. intros (x & Hx & ->)%fmap_Some. destruct (H3 p x Hx) as [Hk Hl].
    unfold pg_ok in *. split; [done|]. rewrite length_put32; lia.
Qed.

(** * Walking *)

Definition pg (n : Z) : Prop := 0 <= n < 1048576.

Lemma pg_div n : pg n -> 0 <= n / 1024 < 1024 /\ 0 <= n mod 1024 < 1024.
Proof. unfold pg. intros. split; [split; [apply Z.div_pos|apply Z.div_lt_upper_bound]; lia|apply Z.mod_pos_bound; lia]. Qed.

Lemma va_pg va : 0 <= va < 2 ^ 32 -> pg (va / 4096).
Proof. unfold pg. intros. split; [apply Z.div_pos; lia|apply Z.div_lt_upper_bound; lia]. Qed.

Lemma istab_dec s d p : istab s d p \/ ~ istab s d p.
Proof.
  destruct (decide (Some p ∈ (tab s d <$> seqZ 0 1024))) as [H|H].
  - left. apply list_elem_of_fmap in H as (i & E & Hi). apply elem_of_seqZ in Hi. exists i. split; [lia|done].
  - right. intros (i & Hi & E). apply H. apply list_elem_of_fmap. exists i. rewrite elem_of_seqZ. split; [done|lia].
Qed.

Lemma wp_walkpgdir s l d va (Q : option (Z * Z) -> vmem -> Prop) :
  vrep s l -> ptwf s d -> 0 <= va < 2 ^ 32 ->
  Q (match tab s d (va / 4096 / 1024) with Some t => Some (t, (va / 4096) mod 1024) | None => None end) s ->
  wp (walkpgdir d va false) s Q.
Proof.
  intros Hv Hw Hva HQ. unfold walkpgdir. rewrite PDX_div, PTX_mod by done. apply wp_bind.
  eapply wp_get_pte; [exact Hv|apply Hw|]. unfold tab in HQ.
  destruct (pte_has (pde s d (va / 4096 / 1024)) PTE_P); apply wp_ret, HQ.
Qed.

(** [s'] extends the page table of [d] in [s]: the entries in [chg] are set,
    new tables come from the free list, and nothing else changes. *)
Record maps (d : Z) (s : vmem) (l : list Z) (chg : Z -> option Z) (s' : vmem) (l' : list Z) : Prop := {
  mp_rep : vrep s' l';
  mp_wf : ptwf s' d;
  mp_pte : forall n, pg n -> pten s' d n = default (pten s d n) (chg n);
  mp_other : forall p, p <> d -> ~ istab s' d p -> v_page s' !! p = v_page s !! p;
  mp_tabs : forall i t, 0 <= i < 1024 -> tab s d i = Some t -> tab s' d i = Some t;
  mp_free : forall p, p ∈ l <-> p ∈ l' \/ (istab s' d p /\ ~ istab s d p);
  mp_used : forall p, is_Some (v_page s' !! p) <-> is_Some (v_page s !! p) \/ istab s' d p
}.

Definition no_change (n : Z) : option Z := None.

Lemma maps_refl d s l : vrep s l -> ptwf s d -> maps d s l no_change s l.
Proof.
  intros Hv Hw. split; try done.
  - intros p. split; [by left|]. intros [?|[??]]; done.
  - intros p. split; [by left|]. intros [?|H]; [done|]. by apply (pt_tab _ _ Hw).
Qed.

Lemma maps_istab d s l c s' l' p : maps d s l c s' l' -> istab s d p -> istab s' d p.
Proof. intros Hm (i & Hi & E). exists i. split; [done|]. by apply (mp_tabs _ _ _ _ _ _ Hm). Qed.

Lemma maps_trans d s l c1 s1 l1 c2 s2 l2 :
  maps d s l c1 s1 l1 -> maps d s1 l1 c2 s2 l2 ->
  maps d s l (fun n => match c2 n with Some e => Some e | None => c1 n end) s2 l2.
Proof.
  intros A B. pose proof (fun p => maps_istab _ _ _ _ _ _ p A) as I1. pose proof (fun p => maps_istab _ _ _ _ _ _ p B) as I2.
  destruct A as [A1 A2 A3 A4 A5 A6 A7], B as [B1 B2 B3 B4 B5 B6 B7]. split; try done.
  - intros n Hn. rewrite B3, A3 by done. by destruct (c2 n).
  - intros p Hp Ht. rewrite B4 by done. apply A4; [done|]. intros H. apply Ht, I2, H.
  - intros i t Hi E. by apply B5, A5.
  - intros p. rewrite A6, B6. specialize (I1 p). specialize (I2 p). destruct (istab_dec s1 d p); tauto.
  - intros p. rewrite B7, A7. specialize (I2 p). tauto.
Qed.

(** One entry is set in a table there is. *)
Definition only (n e m : Z) : option Z := if decide (m = n) then Some e else None.

Lemma tab_set_entry s d t i e j : t <> d -> tab (set_entry s t i e) d j = tab s d j.
Proof. intros. unfold tab. by rewrite pde_other. Qed.

Lemma maps_entry d s l n t e :
  vrep s l -> ptwf s d -> pg n -> tab s d (n / 1024) = Some t -> 0 <= e < 2 ^ 32 ->
  maps d s l (only n e) (set_entry s t (n mod 1024) e) l.
Proof.
  intros Hv Hw Hn Ht He. pose proof (pg_div n Hn) as [Hi Hm].
  assert (Hist : istab s d t) by (by exists (n / 1024)).
  destruct (pt_tab _ _ Hw t Hist) as [Hs Htd].
  assert (Hist' : forall p, istab (set_entry s t (n mod 1024) e) d p <-> istab s d p).
  { intros p. unfold istab. by setoid_rewrite (tab_set_entry s d t (n mod 1024) e _ Htd). }
  split.
  - by apply vrep_set_entry.
  - split.
    + apply set_entry_some, Hw.
    + intros p Hp. rewrite set_entry_some. by apply (pt_tab _ _ Hw), Hist'.
    + intros a b p Ha Hb. rewrite !tab_set_entry by done. by apply (pt_inj _ _ Hw).
  - intros m Hpm. unfold pten, only. rewrite tab_set_entry by done. pose proof (pg_div m Hpm) as [Hmi Hmm].
    destruct (decide (m / 1024 = n / 1024)) as [E|E].
    + rewrite E, Ht. rewrite (pde_same s l) by done.
      pose proof (Z.div_mod m 1024). pose proof (Z.div_mod n 1024).
      repeat case_decide; subst; try done; lia.
    + rewrite decide_False by (intros ->; done). cbn [default].
      destruct (tab s d (m / 1024)) as [t'|] eqn:Et; [|done]. apply pde_other. intros ->.
      apply E. eapply (pt_inj _ _ Hw); done.
  - intros p _ Hp. apply set_entry_other. intros ->. by apply Hp, Hist'.
  - intros i t' Hi' E. by rewrite tab_set_entry.
  - intros p. rewrite Hist'. tauto.
  - intros p. rewrite set_entry_some, Hist'. split; [by left|]. intros [?|?]; [done|]. by apply (pt_tab _ _ Hw).
Qed.

(** A new, empty table. *)
Definition dir_entry (p : Z) : Z := Z.lor (Z.lor (Z.lor (V2P p) PTE_P) PTE_W) PTE_U.

Lemma dir_entry_spec p :
  kpage p -> 0 <= dir_entry p < 2 ^ 32 /\ pte_has (dir_entry p) PTE_P = true /\ P2V (PTE_ADDR (dir_entry p)) = p.
Proof.
  intros Hk. destruct (P2V_V2P p Hk) as (E & Hr & Hal). unfold dir_entry. rewrite <- !Z.lor_assoc.
  change (Z.lor PTE_P (Z.lor PTE_W PTE_U)) with 7. unfold PHYSTOP in Hr.
  destruct (lor_entry (V2P p) 7 ltac:(lia) Hal ltac:(lia)) as (H1 & H2 & H3). split_and!; [lia|lia|..].
  - rewrite pte_has_P, <- Z.bit0_odd, Z.lor_spec. apply orb_true_r.
  - rewrite PTE_ADDR_div, H2. pose proof (Z.div_mod (V2P p) 4096). rewrite <- E at 2. f_equal. lia.
Qed.

Definition add_page (s : vmem) (k : kmem) (p : Z) (x : bytes) : vmem := mkVmem k (<[p := x]> (v_page s)).

Lemma vrep_add_page s l k p x :
  vrep s (p :: l) -> kmem_rep kend k l -> pg_ok x -> vrep (add_page s k p x) l.
Proof.
  intros Hv Hk Hx. pose proof Hv as [H1 H2 H3]. destruct (H2 p ltac:(by left)) as [Hp Hn].
  pose proof (kr_nodup _ _ _ H1) as [Hnd _]%NoDup_cons.
  split; cbn; [done|..].
  - intros q Hq. destruct (H2 q ltac:(by right)) as [Hkq Hnq]. split; [done|].
    rewrite lookup_insert_ne; [done|]. intros ->. done.
  - intros q y. destruct (decide (q = p)) as [->|].
    + rewrite lookup_insert_eq. by intros [= <-].
    + rewrite lookup_insert_ne by done. apply H3.
Qed.

Lemma maps_new_table d s l k p i :
  vrep s (p :: l) -> ptwf s d -> 0 <= i < 1024 -> tab s d i = None -> kmem_rep kend k l ->
  let s' := set_entry (add_page s k p zero_page) d i (dir_entry p) in
  maps d s (p :: l) no_change s' l /\ tab s' d i = Some p.
Proof.
  intros Hv Hw Hi Ht Hk s'. pose proof Hv as [H1 H2 H3]. destruct (H2 p ltac:(by left)) as [Hp Hn].
  destruct (pt_dir _ _ Hw) as [dx Hd]. assert (Hpd : p <> d) by congruence.
  set (s1 := add_page s k p zero_page) in *.
  assert (Hv1 : vrep s1 l) by (apply vrep_add_page; [done..|apply zero_page_ok]).
  assert (Hd1 : is_Some (v_page s1 !! d)) by (cbn; by rewrite lookup_insert_ne).
  destruct (dir_entry_spec p Hp) as (He & Hpr & Hadr).
  assert (Hpde1 : forall q j, q <> p -> pde s1 q j = pde s q j).
  { intros q j Hq. unfold pde. cbn. by rewrite lookup_insert_ne. }
  assert (Htab : forall j, 0 <= j < 1024 -> tab s' d j = if decide (i = j) then Some p else tab s d j).
  { intros j Hj. unfold tab, s'. rewrite (pde_same s1 l) by done. case_decide.
    - by rewrite Hpr, Hadr.
    - by rewrite Hpde1. }
  assert (Hfresh : ~ istab s d p).
  { intros Hist. destruct (pt_tab _ _ Hw p Hist) as [[x Hx] _]. congruence. }
  assert (Hist : forall q, istab s' d q <-> q = p \/ istab s d q).
  { intros q. split.
    - intros (j & Hj & E). rewrite Htab in E by done. case_decide; [left; congruence|right; by exists j].
    - intros [->|(j & Hj & E)]; [exists i; split; [done|]; by rewrite Htab, decide_True|].
      exists j. split; [done|]. rewrite Htab by done. rewrite decide_False; [done|]. intros ->. congruence. }
  assert (Hsome : forall q, is_Some (v_page s' !! q) <-> q = p \/ is_Some (v_page s !! q)).
  { intros q. unfold s'. rewrite set_entry_some. cbn. destruct (decide (q = p)) as [->|].
    - rewrite lookup_insert_eq. split; [by left|by eexists].
    - rewrite lookup_insert_ne by done. tauto. }
  split; [|by rewrite Htab, decide_True]. split.
  - by apply vrep_set_entry.
  - split.
    + rewrite Hsome. right. by eexists.
    + intros q [->|Hq]%Hist; rewrite Hsome; [split; [by left|done]|].
      destruct (pt_tab _ _ Hw q Hq). split; [by right|done].
    + intros a b q Ha Hb. rewrite !Htab by done. repeat case_decide; subst; try done.
      * intros [= ->] E. destruct Hfresh. by exists b.
      * intros E [= ->]. destruct Hfresh. by exists a.
      * by apply (pt_inj _ _ Hw).
  - intros n Hn'. cbn. unfold pten. destruct (pg_div n Hn') as [Hq Hr]. rewrite Htab by done. case_decide as E.
    + subst i. rewrite Ht. unfold s'. rewrite pde_other by done. unfold pde. cbn.
      rewrite lookup_insert_eq. apply get32_zeros.
    + destruct (tab s d (n / 1024)) as [t|] eqn:Et; [|done].
      destruct (pt_tab _ _ Hw t) as [[x Hx] Htd]; [by exists (n / 1024)|].
      unfold s'. rewrite pde_other by done. apply Hpde1. congruence.
  - intros q Hq Hnt. unfold s'. rewrite set_entry_other by done. cbn. apply lookup_insert_ne.
    intros ->. apply Hnt, Hist. by left.
  - intros j t Hj E. rewrite Htab by done. rewrite decide_False; [done|]. intros ->. congruence.
  - intros q. rewrite elem_of_cons, Hist. split.
    + intros [->|?]; [right; auto|by left].
    + intros [?|[[->|?] ?]]; [by right|by left|done].
  - intros q. rewrite Hsome, Hist. destruct (istab_dec s d q) as [Hq|Hq]; [|tauto].
    pose proof (proj1 (pt_tab _ _ Hw q Hq)). tauto.
Qed.

Lemma maps_ext d s l c c' s' l' :
  (forall n, pg n -> c n = c' n) -> maps d s l c s' l' -> maps d s l c' s' l'.
Proof. intros E [H1 H2 H3 H4 H5 H6 H7]. split; try done. intros n Hn. rewrite <- E by done. by apply H3. Qed.

Lemma wp_vm_kalloc s l (Q : Z -> vmem -> Prop) :
  vrep s l -> (l = [] -> Q 0 s) ->
  (forall p l' k, l = p :: l' -> kpage p -> 0 < p -> kmem_rep kend k l' -> Q p (mkVmem k (v_page s))) ->
  wp (vm_alloc kalloc) s Q.
Proof.
  intros Hv H0 H1. unfold vm_alloc. apply wp_zoom. eapply wp_kalloc; [apply Hv|..].
  - intros E. destruct s. by apply H0.
  - intros p l' k -> Hk _. destruct (vr_free _ _ Hv p ltac:(by left)) as [Hp _]. apply (H1 p l' k); try done.
    destruct Hp as [_ Hp]. unfold KERNBASE in Hp. lia.
Qed.

Lemma wp_walk_alloc s l d va (Q : option (Z * Z) -> vmem -> Prop) :
  vrep s l -> ptwf s d -> 0 <= va < 2 ^ 32 ->
  (l = [] -> tab s d (va / 4096 / 1024) = None -> Q None s) ->
  (forall s' l' t, maps d s l no_change s' l' -> tab s' d (va / 4096 / 1024) = Some t ->
     Q (Some (t, (va / 4096) mod 1024)) s') ->
  wp (walkpgdir d va true) s Q.
Proof.
  intros Hv Hw Hva HN HS. unfold walkpgdir. rewrite PDX_div, PTX_mod by done. apply wp_bind.
  destruct (pg_div _ (va_pg va Hva)) as [Hi _].
  eapply wp_get_pte; [exact Hv|apply Hw|].
  destruct (pte_has (pde s d (va / 4096 / 1024)) PTE_P) eqn:E.
  - apply wp_ret, (HS s l); [by apply maps_refl|]. unfold tab. by rewrite E.
  - assert (Ht : tab s d (va / 4096 / 1024) = None) by (unfold tab; by rewrite E).
    cbn [negb]. apply wp_bind. eapply wp_vm_kalloc; [exact Hv|..].
    + intros ->. rewrite Z.eqb_refl. apply wp_ret. by apply HN.
    + intros p l' k -> Hp Hpos Hk. rewrite (proj2 (Z.eqb_neq _ _)) by lia.
      destruct (maps_new_table d s l' k p _ Hv Hw Hi Ht Hk) as [Hm Hnew].
      apply wp_bind, wp_modify, wp_bind, wp_set_pte.
      { cbn. destruct (pt_dir _ _ Hw) as [x Hx]. destruct (decide (p = d)) as [->|].
        - rewrite lookup_insert_eq. by eexists.
        - rewrite lookup_insert_ne by done. by eexists. }
      apply wp_ret. exact (HS _ l' p Hm Hnew).
Qed.

(** [m] pages from page [n0] on are mapped to the memory from [pa] on. *)
Definition range (n0 m pa perm n : Z) : option Z :=
  if decide (n0 <= n < n0 + m) then Some (entry (pa + 4096 * (n - n0)) perm) else None.

Definition absent (s : vmem) (d n0 m : Z) : Prop :=
  forall n, n0 <= n < n0 + m -> pte_has (pten s d n) PTE_P = false.

Lemma range_step n0 k pa perm n :
  0 <= k ->
  match only (n0 + k) (entry (pa + 4096 * k) perm) n with
  | Some e => Some e
  | None => range n0 k pa perm n
  end = range n0 (k + 1) pa perm n.
Proof.
  intros Hk. unfold only, range. repeat case_decide; try done; try lia. subst. f_equal. f_equal. lia.
Qed.

Lemma wp_mappages s l d va size pa perm n0 m (Q : bool -> vmem -> Prop) :
  vrep s l -> ptwf s d ->
  PGROUNDDOWN va = 4096 * n0 -> PGROUNDDOWN (u32 (va + size - 1)) = 4096 * (n0 + m - 1) ->
  0 <= n0 -> 1 <= m -> n0 + m <= 1048576 ->
  0 <= pa -> pa mod 4096 = 0 -> pa + 4096 * m <= 2 ^ 32 -> 0 <= perm < 4096 ->
  absent s d n0 m ->
  (forall s' k, 0 <= k < m -> maps d s l (range n0 k pa perm) s' [] -> Q false s') ->
  (forall s' l', maps d s l (range n0 m pa perm) s' l' -> Q true s') ->
  wp (mappages d va size pa perm) s Q.
Proof.
  intros Hv Hw Ea El Hn0 Hm Hnm Hpa Hal Hpam Hperm Habs HF HT. unfold mappages. rewrite Ea, El.
  apply (wp_while_loop (fun fuel st s' => exists k l', 0 <= k < m /\ Z.of_nat fuel = m - k /\
    st = (4096 * (n0 + k), pa + 4096 * k) /\ maps d s l (range n0 k pa perm) s' l')).
  - exists 0, l. split_and!; [lia|lia| |f_equal; lia|].
    + unfold PGSIZE. replace (4096 * (n0 + m - 1) - 4096 * n0) with ((m - 1) * 4096) by lia.
      rewrite u32_small, Z.div_mul by lia. lia.
    + eapply maps_ext; [|by apply maps_refl]. intros n _. unfold range. by rewrite decide_False by lia.
  - intros st s' (k & l' & Hk & Hf & _). lia.
  - intros fuel st s' (k & l' & Hk & Hf & -> & Hmp). apply wp_bind.
    pose proof Hmp as [Hv' Hw' Hpte _ _ _ _].
    assert (Hpg : pg (n0 + k)) by (unfold pg; lia).
    assert (Ediv : 4096 * (n0 + k) / 4096 = n0 + k) by (rewrite Z.mul_comm; by apply Z.div_mul).
    eapply wp_walk_alloc; [exact Hv'|done|lia|..]; rewrite Ediv.
    + intros -> _. apply wp_ret. by apply (HF s' k).
    + intros s1 l1 t Hm1 Ht. pose proof Hm1 as [Hv1 Hw1 Hpte1 _ _ _ _]. apply wp_bind.
      destruct (pg_div _ Hpg) as [Hi Hr].
      eapply wp_get_pte; [exact Hv1| |].
      { apply (pt_tab _ _ Hw1). by exists ((n0 + k) / 1024). }
      assert (Ep : pde s1 t ((n0 + k) mod 1024) = pten s d (n0 + k)).
      { transitivity (pten s1 d (n0 + k)); [unfold pten; by rewrite Ht|].
        rewrite Hpte1, Hpte by done. cbn. unfold range. by rewrite decide_False by lia. }
      rewrite Ep, Habs by lia. apply wp_bind, wp_set_pte.
      { apply (pt_tab _ _ Hw1). by exists ((n0 + k) / 1024). }
      change (Z.lor (Z.lor (pa + 4096 * k) perm) PTE_P) with (entry (pa + 4096 * k) perm).
      assert (Hent : 0 <= entry (pa + 4096 * k) perm < 2 ^ 32).
      { apply entry_spec; [lia| |done]. rewrite (Z.mul_comm 4096), Z_mod_plus_full. exact Hal. }
      pose proof (maps_entry d s1 l1 (n0 + k) t _ Hv1 Hw1 Hpg Ht Hent) as Hm2.
      assert (Hall : maps d s l (range n0 (k + 1) pa perm)
                (set_entry s1 t ((n0 + k) mod 1024) (entry (pa + 4096 * k) perm)) l1).
      { eapply maps_ext; [|exact (maps_trans _ _ _ _ _ _ _ _ _ (maps_trans _ _ _ _ _ _ _ _ _ Hmp Hm1) Hm2)].
        intros n Hn. cbn. rewrite <- range_step by lia. done. }
      destruct (4096 * (n0 + k) =? 4096 * (n0 + m - 1)) eqn:E; bool_to_prop; apply wp_ret.
      * replace (k + 1) with m in Hall by lia. by apply (HT _ l1).
      * exists (k + 1), l1. split_and!; [lia|lia|lia| |done]. unfold PGSIZE.
        rewrite !u32_small by lia. f_equal; lia.
Qed.
End vmtab.
