(* ===== verification/VmSpace.v ===== *)
(** Address spaces of vm.c: which pages belong to one, and what [deallocuvm] and
    [freevm] give back. *)
From S2P Require Import Prelude Layout Kalloc Vm VmTab.

Section vmspace.
Context (kend : Z).
(** The kernel is linked above [KERNBASE]. *)
Context (kend_high : KERNBASE < kend).

(** A page below [KERNBASE]. *)
Definition upg (n : Z) : Prop := 0 <= n < 524288.

(** The page that user page [n] is mapped to. *)
Definition ufr (s : vmem) (d n : Z) : option Z :=
  if pte_has (pten s d n) PTE_P then Some (P2V (PTE_ADDR (pten s d n))) else None.

Definition isframe (s : vmem) (d p : Z) : Prop := exists n, upg n /\ ufr s d n = Some p.

(** The pages of an address space: the directory, its tables, the user's memory. *)
Definition owned (s : vmem) (d p : Z) : Prop := p = d \/ istab s d p \/ isframe s d p.

Record aspace (s : vmem) (d : Z) : Prop := {
  as_pt : ptwf s d;
  as_frame : forall n p, upg n -> ufr s d n = Some p ->
    is_Some (v_page s !! p) /\ p <> d /\ ~ istab s d p;
  as_inj : forall n m p, upg n -> upg m -> ufr s d n = Some p -> ufr s d m = Some p -> n = m
}.

Lemma isframe_dec s d p : isframe s d p \/ ~ isframe s d p.
Proof.
  destruct (decide (Some p ∈ (ufr s d <$> seqZ 0 524288))) as [H|H].
  - left. apply list_elem_of_fmap in H as (i & E & Hi). apply elem_of_seqZ in Hi. exists i. split; [unfold upg; lia|done].
  - right. intros (i & Hi & E). apply H. apply list_elem_of_fmap. exists i. rewrite elem_of_seqZ.
    unfold upg in Hi. split; [done|lia].
Qed.

Lemma owned_dec s d p : owned s d p \/ ~ owned s d p.
Proof.
  unfold owned. destruct (decide (p = d)), (istab_dec s d p), (isframe_dec s d p); tauto.
Qed.

Lemma owned_some s d p : aspace s d -> owned s d p -> is_Some (v_page s !! p).
Proof.
  intros [Hw Hf _] [->|[Ht|(n & Hn & E)]]; [apply Hw|by apply (pt_tab _ _ Hw)|by apply (Hf n p Hn E)].
Qed.

(** * Freeing one page *)

Definition del_page (s : vmem) (k : kmem) (p : Z) : vmem := mkVmem k (delete p (v_page s)).

Lemma wp_free_page s l p (Q : unit -> vmem -> Prop) :
  vrep kend s l -> is_Some (v_page s !! p) ->
  (forall k, kmem_rep kend k (p :: l) -> vrep kend (del_page s k p) (p :: l) -> Q tt (del_page s k p)) ->
  wp (free_page kend p) s Q.
Proof.
  intros Hv [x Hx] HQ. pose proof Hv as [H1 H2 H3]. destruct (H3 p x Hx) as [[Hp Hr] _].
  unfold free_page. apply wp_bind, wp_modify. unfold vm_alloc. apply wp_zoom. cbn.
  eapply wp_kfree; [exact H1|done|unfold KERNBASE in Hr; lia|by eapply vr_disjoint|].
  intros k Hk _. apply HQ; [done|]. split; cbn; [done|..].
  - intros q [->|Hq]%elem_of_cons; [split; [done|apply lookup_delete_eq]|].
    destruct (H2 q Hq) as [Hkq Hn]. split; [done|]. destruct (decide (q = p)) as [->|]; [apply lookup_delete_eq|].
    by rewrite lookup_delete_ne.
  - intros q y. destruct (decide (q = p)) as [->|]; [by rewrite lookup_delete_eq|].
    rewrite lookup_delete_ne by done. apply H3.
Qed.

(** * deallocuvm *)

(** User pages [lo, hi) of [d] have been given back. *)
Record unmaps (d : Z) (s : vmem) (l : list Z) (lo hi : Z) (s' : vmem) (l' : list Z) : Prop := {
  um_rep : vrep kend s' l';
  um_dir : v_page s' !! d = v_page s !! d;
  um_tab : forall p, istab s d p -> is_Some (v_page s' !! p);
  um_pte : forall n, pg n -> pten s' d n =
    if decide (lo <= n < hi) then (if pte_has (pten s d n) PTE_P then 0 else pten s d n) else pten s d n;
  um_free : forall p, p ∈ l' <-> p ∈ l \/ exists n, lo <= n < hi /\ ufr s d n = Some p;
  um_freed : forall n p, lo <= n < hi -> ufr s d n = Some p -> v_page s' !! p = None;
  um_other : forall p, ~ istab s d p -> (forall n, lo <= n < hi -> ufr s d n <> Some p) ->
    v_page s' !! p = v_page s !! p
}.

Lemma unmaps_refl d s l lo : vrep kend s l -> ptwf s d -> unmaps d s l lo lo s l.
Proof.
  intros Hv Hw. split; try done.
  - intros p Hp. by apply (pt_tab _ _ Hw).
  - intros n _. by rewrite decide_False by lia.
  - intros p. split; [by left|]. intros [?|(n & ? & _)]; [done|lia].
  - intros n p ?. lia.
Qed.

Lemma unmaps_tab d s l lo hi s' l' i : unmaps d s l lo hi s' l' -> tab s' d i = tab s d i.
Proof. intros Hu. unfold tab, pde. by rewrite (um_dir _ _ _ _ _ _ _ Hu). Qed.

Lemma unmaps_ptwf d s l lo hi s' l' : ptwf s d -> unmaps d s l lo hi s' l' -> ptwf s' d.
Proof.
  intros Hw Hu. assert (Hi : forall p, istab s' d p <-> istab s d p).
  { intros p. unfold istab. by setoid_rewrite (unmaps_tab _ _ _ _ _ _ _ _ Hu). }
  split.
  - rewrite (um_dir _ _ _ _ _ _ _ Hu). apply Hw.
  - intros p Hp%Hi. split; [by apply (um_tab _ _ _ _ _ _ _ Hu)|]. by apply (pt_tab _ _ Hw).
  - intros i j p. rewrite !(unmaps_tab _ _ _ _ _ _ _ _ Hu). apply Hw.
Qed.

(** Pages that are not mapped need no work. *)
Lemma unmaps_skip d s l lo hi hi' s' l' :
  unmaps d s l lo hi s' l' -> hi <= hi' -> (forall n, hi <= n < hi' -> ufr s d n = None) ->
  unmaps d s l lo hi' s' l'.
Proof.
  intros [U1 U2 U3 U4 U5 U6 U7] Hh Hno. split; try done.
  - intros n Hn. rewrite U4 by done. repeat case_decide; try done; try lia.
    specialize (Hno n ltac:(lia)). unfold ufr in Hno. by destruct (pte_has _ _).
  - intros p. rewrite U5. split; (intros [?|(n & Hr & E)]; [by left|right; exists n; split; [|done]]); [lia|].
    destruct (decide (n < hi)); [lia|]. rewrite Hno in E by lia. done.
  - intros n p Hn E. destruct (decide (n < hi)); [apply (U6 n p); [lia|done]|]. rewrite Hno in E by lia. done.
  - intros p Ht Hp. apply U7; [done|]. intros n Hn. apply Hp. lia.
Qed.

Lemma ufr_some s d n p : ufr s d n = Some p -> pte_has (pten s d n) PTE_P = true /\ p = P2V (PTE_ADDR (pten s d n)).
Proof. unfold ufr. destruct (pte_has _ _); [|done]. by intros [= <-]. Qed.

(** One more page: its memory is freed and its entry cleared. *)
Lemma unmaps_step d s l lo k s' l' p t km :
  aspace s d -> unmaps d s l lo k s' l' -> 0 <= lo <= k -> upg k ->
  ufr s d k = Some p -> tab s d (k / 1024) = Some t ->
  vrep kend (del_page s' km p) (p :: l') ->
  unmaps d s l lo (k + 1) (set_entry (del_page s' km p) t (k mod 1024) 0) (p :: l').
Proof.
  intros [Hw Hf Hinj] Hu Hlo Hk Hp Ht Hv. pose proof Hu as [U1 U2 U3 U4 U5 U6 U7].
  assert (Hpk : pg k) by (unfold pg, upg in *; lia). destruct (pg_div k Hpk) as [Hi Hr].
  destruct (Hf k p Hk Hp) as (_ & Hpd & Hpt).
  assert (Hist : istab s d t) by (by exists (k / 1024)). destruct (pt_tab _ _ Hw t Hist) as [_ Htd].
  assert (Htp : t <> p) by (intros ->; done).
  set (s1 := del_page s' km p) in *.
  assert (Hs1t : is_Some (v_page s1 !! t)) by (cbn; rewrite lookup_delete_ne by done; by apply U3).
  split.
  - by apply vrep_set_entry.
  - rewrite set_entry_other by done. cbn. by rewrite lookup_delete_ne.
  - intros q Hq. rewrite set_entry_some. cbn. rewrite lookup_delete_ne; [by apply U3|]. intros ->. done.
  - intros n Hn. unfold pten at 1. rewrite tab_set_entry by done.
    assert (Et : tab s1 d (n / 1024) = tab s d (n / 1024)).
    { rewrite <- (unmaps_tab _ _ _ _ _ _ _ (n / 1024) Hu). unfold tab, pde. cbn. by rewrite lookup_delete_ne. }
    rewrite Et. destruct (pg_div n Hn) as [Hni Hnr].
    assert (Epte : match tab s d (n / 1024) with Some t' => pde s1 t' (n mod 1024) | None => 0 end = pten s' d n).
    { unfold pten. rewrite (unmaps_tab _ _ _ _ _ _ _ _ Hu). destruct (tab s d (n / 1024)) as [t'|] eqn:E; [|done].
      unfold pde. cbn. rewrite lookup_delete_ne; [done|]. intros <-. apply Hpt. by exists (n / 1024). }
    destruct (decide (n = k)) as [->|Hnk].
    + rewrite Ht, (pde_same kend s1 (p :: l')) by (try done; lia). rewrite !decide_True by lia.
      apply ufr_some in Hp as [-> _]. done.
    + transitivity (pten s' d n).
      * rewrite <- Epte. destruct (tab s d (n / 1024)) as [t'|] eqn:E; [|done].
        destruct (decide (t' = t)) as [->|]; [|by apply pde_other].
        rewrite (pde_same kend s1 (p :: l')) by (try done; lia). rewrite decide_False; [done|].
        assert (k / 1024 = n / 1024) by (by eapply (pt_inj _ _ Hw)).
        pose proof (Z.div_mod k 1024). pose proof (Z.div_mod n 1024). lia.
      * rewrite U4 by done. repeat case_decide; done || lia.
  - intros q. rewrite elem_of_cons, U5. split.
    + intros [->|[?|(n & Hn & E)]]; [right; exists k; split; [lia|done]|by left|right; exists n; split; [lia|done]].
    + intros [?|(n & Hn & E)]; [by right; left|]. destruct (decide (n = k)) as [->|]; [left; congruence|].
      right. right. exists n. split; [lia|done].
  - intros n q Hn E. destruct (Hf n q) as (_ & Hqd & Hqt); [unfold upg in *; lia|done|].
    rewrite set_entry_other by (intros ->; done). cbn.
    destruct (decide (q = p)) as [->|]; [apply lookup_delete_eq|]. rewrite lookup_delete_ne by done.
    apply (U6 n q); [|done]. destruct (decide (n = k)) as [->|]; [congruence|lia].
  - intros q Hqt Hq. rewrite set_entry_other by (intros ->; done). cbn.
    rewrite lookup_delete_ne; [apply U7; [done|]; intros n Hn; apply Hq; lia|]. intros <-. apply (Hq k); [lia|done].
Qed.

(** The first address behind the table of page [k]. *)
Lemma next_table k : upg k -> u32 (PGADDR (PDX (4096 * k) + 1) 0 0 - PGSIZE + PGSIZE) = 4096 * (1024 * (k / 1024 + 1)).
Proof.
  unfold upg. intros Hk. rewrite PDX_div by lia. rewrite (Z.mul_comm 4096 k), Z.div_mul by lia.
  unfold PGADDR. rewrite Z.shiftl_0_l, !Z.lor_0_r, Z.shiftl_mul_pow2 by lia.
  assert (k / 1024 < 512) by (apply Z.div_lt_upper_bound; lia). assert (0 <= k / 1024) by (apply Z.div_pos; lia).
  change (2 ^ 22) with 4194304. rewrite (u32_small ((k / 1024 + 1) * 4194304)) by lia.
  rewrite Z.sub_add, u32_small by lia. lia.
Qed.

Lemma unmaps_ufr d s l lo hi s' l' n :
  unmaps d s l lo hi s' l' -> pg n -> ~ lo <= n < hi -> ufr s' d n = ufr s d n.
Proof. intros Hu Hn Hr. unfold ufr. rewrite (um_pte _ _ _ _ _ _ _ Hu) by done. by rewrite decide_False. Qed.

(** [deallocuvm] gives back the pages from [newsz] to [oldsz]. *)
Lemma wp_deallocuvm s l d oldsz newsz (Q : Z -> vmem -> Prop) :
  vrep kend s l -> aspace s d -> 0 <= newsz < oldsz -> oldsz <= KERNBASE ->
  (forall s' l' hi, (oldsz + 4095) / 4096 <= hi <= 524288 ->
     unmaps d s l ((newsz + 4095) / 4096) hi s' l' ->
     (forall n, (oldsz + 4095) / 4096 <= n < hi -> ufr s d n = None) -> Q newsz s') ->
  wp (deallocuvm kend d oldsz newsz) s Q.
Proof.
  intros Hv Ha Hsz Hk HQ. pose proof (as_pt _ _ Ha) as Hw. unfold deallocuvm, KERNBASE in *.
  rewrite (proj2 (Z.leb_gt _ _)) by lia. set (n1 := (newsz + 4095) / 4096) in *.
  rewrite PGROUNDUP_div by lia. fold n1.
  assert (Hn1 : 0 <= n1 /\ 4096 * (n1 - 1) < newsz <= 4096 * n1).
  { unfold n1. pose proof (Z.div_mod (newsz + 4095) 4096). pose proof (Z.mod_pos_bound (newsz + 4095) 4096).
    split; [apply Z.div_pos; lia|lia]. }
  set (n2 := (oldsz + 4095) / 4096) in *.
  assert (Hn2 : 4096 * (n2 - 1) < oldsz <= 4096 * n2).
  { unfold n2. pose proof (Z.div_mod (oldsz + 4095) 4096). pose proof (Z.mod_pos_bound (oldsz + 4095) 4096). lia. }
  apply (wp_while_loop (fun fuel a s' => exists k l', a = 4096 * k /\ n1 <= k <= 524288 /\
    (1 <= fuel)%nat /\ (oldsz - a) / 4096 + 2 <= Z.of_nat fuel /\ unmaps d s l n1 k s' l' /\
    (forall n, n2 <= n < k -> ufr s d n = None))).
  - exists n1, l. split_and!; [done|lia|lia|lia| |by apply unmaps_refl|lia].
    unfold PGSIZE. destruct (decide (0 <= (oldsz - 4096 * n1) / 4096)); lia.
  - intros a s' (k & l' & _ & _ & ? & _). lia.
  - intros fuel a s' (k & l' & -> & Hkr & Hf1 & Hf2 & Hu & Hno). pose proof (um_rep _ _ _ _ _ _ _ Hu) as Hv'.
    destruct (oldsz <=? 4096 * k) eqn:E; bool_to_prop.
    { apply wp_ret. apply (HQ s' l' k); [lia|done|done]. }
    assert (Hf3 : 2 <= Z.of_nat (S fuel)).
    { assert (0 <= (oldsz - 4096 * k) / 4096) by (apply Z.div_pos; lia). lia. }
    assert (Hadv : forall k', k + 1 <= k' -> (oldsz - 4096 * k') / 4096 + 2 <= Z.of_nat fuel).
    { intros k' Hk'. assert ((oldsz - 4096 * k') / 4096 <= (oldsz - 4096 * k) / 4096 - 1); [|lia].
      replace ((oldsz - 4096 * k) / 4096 - 1) with ((oldsz - 4096 * k + -1 * 4096) / 4096)
        by (rewrite Z_div_plus_full by lia; lia).
      apply Z.div_le_mono; lia. }
    assert (Huk : upg k) by (unfold upg; lia). assert (Hpk : pg k) by (unfold pg, upg in *; lia).
    destruct (pg_div k Hpk) as [Hi Hr].
    apply wp_bind. eapply (wp_walkpgdir kend); [exact Hv'|by eapply unmaps_ptwf|lia|].
    rewrite (Z.mul_comm 4096 k), Z.div_mul, (unmaps_tab _ _ _ _ _ _ _ _ Hu) by lia.
    rewrite (Z.mul_comm k). destruct (tab s d (k / 1024)) as [t|] eqn:Et.
    + assert (Hist : istab s d t) by (by exists (k / 1024)).
      apply wp_bind. eapply (wp_get_pte kend); [exact Hv'|by apply (um_tab _ _ _ _ _ _ _ Hu)|].
      assert (Ep : pde s' t (k mod 1024) = pten s d k).
      { transitivity (pten s' d k); [unfold pten; by rewrite (unmaps_tab _ _ _ _ _ _ _ _ Hu), Et|].
        rewrite (um_pte _ _ _ _ _ _ _ Hu) by done. by rewrite decide_False by lia. }
      rewrite Ep. unfold PGSIZE. destruct (pte_has (pten s d k) PTE_P) eqn:Epr.
      * assert (Hfr : ufr s d k = Some (P2V (PTE_ADDR (pten s d k)))) by (unfold ufr; by rewrite Epr).
        destruct (as_frame _ _ Ha k _ Huk Hfr) as ([x Hx] & Hpd & Hpt).
        assert (Hx' : v_page s' !! P2V (PTE_ADDR (pten s d k)) = Some x).
        { rewrite <- Hx. apply (um_other _ _ _ _ _ _ _ Hu); [done|]. intros n Hn En.
          assert (n = k); [|lia]. eapply (as_inj _ _ Ha); [|exact Huk|exact En|exact Hfr]. unfold upg; lia. }
        assert (Hnz : PTE_ADDR (pten s d k) <> 0).
        { intros E0. destruct (vr_used _ _ _ Hv' _ _ Hx') as [[[_ [Hke _]] _] _].
          rewrite E0 in Hke. unfold P2V, KERNBASE in *. lia. }
        cbv zeta. rewrite (proj2 (Z.eqb_neq _ _)) by done. apply wp_bind.
        eapply wp_free_page; [exact Hv'|by eexists|]. intros km _ Hv1. apply wp_bind.
        apply wp_set_pte.
        { cbn. rewrite lookup_delete_ne; [by apply (um_tab _ _ _ _ _ _ _ Hu)|]. intros E1. apply Hpt. by rewrite E1. }
        apply wp_ret. eexists (k + 1), _. split_and!; [rewrite u32_small; lia|lia|lia|lia| | |].
        -- rewrite u32_small by lia. replace (4096 * k + 4096) with (4096 * (k + 1)) by lia. apply Hadv. lia.
        -- eapply unmaps_step; try done. lia.
        -- intros n Hn. destruct (decide (n = k)) as [->|]; [lia|]. apply Hno. lia.
      * apply wp_ret. exists (k + 1), l'. split_and!; [rewrite u32_small; lia|lia|lia|lia| | |].
        -- rewrite u32_small by lia. replace (4096 * k + 4096) with (4096 * (k + 1)) by lia. apply Hadv. lia.
        -- eapply unmaps_skip; [exact Hu|lia|]. intros n Hn. assert (n = k) as -> by lia.
           unfold ufr. by rewrite Epr.
        -- intros n Hn. destruct (decide (n = k)) as [->|]; [lia|]. apply Hno. lia.
    + apply wp_ret. rewrite next_table by done. pose proof (Z.div_mod k 1024). unfold upg in Huk.
      assert (k / 1024 < 512) by (apply Z.div_lt_upper_bound; lia).
      assert (Hnone : forall n, k <= n < 1024 * (k / 1024 + 1) -> ufr s d n = None).
      { intros n Hn. unfold ufr, pten. replace (n / 1024) with (k / 1024); [by rewrite Et|].
        apply Z.div_unique with (n - 1024 * (k / 1024)); lia. }
      exists (1024 * (k / 1024 + 1)), l'. split_and!; [done|lia|lia|lia|apply Hadv; lia| |].
      * eapply unmaps_skip; [exact Hu|lia|]. done.
      * intros n Hn. destruct (decide (n < k)); [apply Hno; lia|]. apply Hnone. lia.
Qed.

(** * freevm *)

(** The tables of directory entries below [i] have been given back. *)
Record untabs (d : Z) (s : vmem) (l : list Z) (i : Z) (s' : vmem) (l' : list Z) : Prop := {
  ut_rep : vrep kend s' l';
  ut_free : forall p, p ∈ l' <-> p ∈ l \/ exists j, 0 <= j < i /\ tab s d j = Some p;
  ut_freed : forall j p, 0 <= j < i -> tab s d j = Some p -> v_page s' !! p = None;
  ut_other : forall p, (forall j, 0 <= j < i -> tab s d j <> Some p) -> v_page s' !! p = v_page s !! p
}.

Lemma untabs_step d s l i s' l' p km :
  untabs d s l i s' l' -> 0 <= i -> tab s d i = Some p -> vrep kend (del_page s' km p) (p :: l') ->
  untabs d s l (i + 1) (del_page s' km p) (p :: l').
Proof.
  intros [U1 U2 U3 U4] Hi Ht Hv. split; [done|..].
  - intros q. rewrite elem_of_cons, U2. split.
    + intros [->|[?|(j & Hj & E)]]; [right; exists i; split; [lia|done]|by left|right; exists j; split; [lia|done]].
    + intros [?|(j & Hj & E)]; [by right; left|]. destruct (decide (j = i)) as [->|]; [left; congruence|].
      right. right. exists j. split; [lia|done].
  - intros j q Hj E. cbn. destruct (decide (q = p)) as [->|]; [apply lookup_delete_eq|].
    rewrite lookup_delete_ne by done. apply (U3 j q); [|done]. destruct (decide (j = i)); [congruence|lia].
  - intros q Hq. cbn. rewrite lookup_delete_ne; [apply U4; intros j Hj; apply Hq; lia|].
    intros <-. apply (Hq i); [lia|done].
Qed.

Lemma untabs_skip d s l i s' l' :
  untabs d s l i s' l' -> tab s d i = None -> untabs d s l (i + 1) s' l'.
Proof.
  intros [U1 U2 U3 U4] Ht. split; [done|..].
  - intros q. rewrite U2. split; (intros [?|(j & Hj & E)]; [by left|right; exists j; split; [|done]]); [lia|].
    destruct (decide (j = i)) as [->|]; [congruence|lia].
  - intros j q Hj E. apply (U3 j q); [|done]. destruct (decide (j = i)) as [->|]; [congruence|lia].
  - intros q Hq. apply U4. intros j Hj. apply Hq. lia.
Qed.

Lemma wp_free_tables s l d (Q : option unit -> vmem -> Prop) :
  vrep kend s l -> ptwf s d ->
  (forall s' l', untabs d s l 1024 s' l' -> Q None s') ->
  wp (for_loop (Z.to_nat NPDENTRIES) 0 (fun i =>
      let* e := get_pte d i in
      (if pte_has e PTE_P then free_page kend (P2V (PTE_ADDR e)) else ret tt) ;;
      ret (@None unit))) s Q.
Proof.
  intros Hv Hw HQ. apply (wp_for_loop (fun i s' => exists l', untabs d s l i s' l')).
  - exists l. split; try done; [|intros; lia]. intros p. split; [by left|]. intros [?|(j & ? & _)]; [done|lia].
  - intros i s' Hi (l' & Hu). pose proof (ut_rep _ _ _ _ _ _ Hu) as Hv'.
    change (0 + Z.of_nat (Z.to_nat NPDENTRIES)) with 1024 in Hi.
    assert (Hd : v_page s' !! d = v_page s !! d).
    { apply (ut_other _ _ _ _ _ _ Hu). intros j Hj E. destruct (pt_tab _ _ Hw d) as [_ ?]; [exists j; split; [lia|done]|done]. }
    assert (Ed : forall j, pde s' d j = pde s d j) by (intros j; unfold pde; by rewrite Hd).
    apply wp_bind. eapply (wp_get_pte kend); [exact Hv'|rewrite Hd; apply Hw|]. rewrite Ed.
    destruct (pte_has (pde s d i) PTE_P) eqn:E.
    + assert (Ht : tab s d i = Some (P2V (PTE_ADDR (pde s d i)))) by (unfold tab; by rewrite E).
      apply wp_bind. eapply wp_free_page; [exact Hv'| |].
      { rewrite (ut_other _ _ _ _ _ _ Hu); [apply (pt_tab _ _ Hw); exists i; split; [lia|done]|].
        intros j Hj Ej. assert (j = i); [|lia]. eapply (pt_inj _ _ Hw); [lia|lia|exact Ej|exact Ht]. }
      intros km _ Hv1. apply wp_ret. eexists. eapply untabs_step; [exact Hu|lia|done|done].
    + apply wp_bind, wp_ret, wp_ret. exists l'. apply untabs_skip; [done|]. unfold tab. by rewrite E.
  - intros s' (l' & Hu). by apply (HQ s' l').
Qed.

(** [freevm] gives back every page of the address space and touches no other. *)
Lemma wp_freevm s l d (Q : unit -> vmem -> Prop) :
  vrep kend s l -> aspace s d ->
  (forall s' l', vrep kend s' l' -> (forall p, p ∈ l' <-> p ∈ l \/ owned s d p) ->
     (forall p, owned s d p -> v_page s' !! p = None) ->
     (forall p, ~ owned s d p -> v_page s' !! p = v_page s !! p) -> Q tt s') ->
  wp (freevm kend d) s Q.
Proof.
  intros Hv Ha HQ. pose proof (as_pt _ _ Ha) as Hw. unfold freevm.
  destruct (pt_dir _ _ Hw) as [x Hx]. destruct (vr_used _ _ _ Hv d x Hx) as [[_ Hd] _].
  rewrite (proj2 (Z.eqb_neq _ _)) by (unfold KERNBASE in Hd; lia). apply wp_bind.
  eapply wp_deallocuvm; [exact Hv|done|unfold KERNBASE; lia|unfold KERNBASE; lia|].
  intros s1 l1 hi Hhi Hu _. change ((0 + 4095) / 4096) with 0 in Hu.
  change ((KERNBASE + 4095) / 4096) with 524288 in Hhi. assert (hi = 524288) as -> by lia. clear Hhi.
  pose proof (unmaps_ptwf _ _ _ _ _ _ _ Hw Hu) as Hw1.
  assert (Ht : forall j, tab s1 d j = tab s d j) by (intros; by eapply unmaps_tab).
  assert (Hi1 : forall p, istab s1 d p <-> istab s d p) by (intros p; unfold istab; by setoid_rewrite Ht).
  apply wp_bind. eapply wp_free_tables; [apply Hu|done|]. intros s2 l2 Hu2.
  assert (Hd2 : v_page s2 !! d = Some x).
  { rewrite (ut_other _ _ _ _ _ _ Hu2); [by rewrite (um_dir _ _ _ _ _ _ _ Hu)|].
    intros j Hj E. destruct (pt_tab _ _ Hw1 d) as [_ ?]; [by exists j|done]. }
  eapply wp_free_page; [apply Hu2|by eexists|]. intros km _ Hv3.
  assert (Hown : forall p, owned s d p <-> p = d \/ (exists j, 0 <= j < 1024 /\ tab s1 d j = Some p) \/
                       (exists n, 0 <= n < 524288 /\ ufr s d n = Some p)).
  { intros p. unfold owned, istab, isframe, upg. by setoid_rewrite Ht. }
  apply (HQ _ (d :: l2)); [done|..].
  - intros p. rewrite Hown, elem_of_cons, (ut_free _ _ _ _ _ _ Hu2), (um_free _ _ _ _ _ _ _ Hu). tauto.
  - intros p Hp%Hown. cbn. destruct (decide (p = d)) as [->|Hpd]; [apply lookup_delete_eq|].
    rewrite lookup_delete_ne by done. destruct Hp as [?|[(j & Hj & E)|(n & Hn & E)]]; [done|..].
    + by apply (ut_freed _ _ _ _ _ _ Hu2 j).
    + destruct (as_frame _ _ Ha n p Hn E) as (_ & _ & Hnt). rewrite (ut_other _ _ _ _ _ _ Hu2).
      * by apply (um_freed _ _ _ _ _ _ _ Hu n).
      * intros j Hj Ej. apply Hnt, Hi1. by exists j.
  - intros p Hp. cbn. rewrite lookup_delete_ne by (intros <-; apply Hp; by left).
    rewrite (ut_other _ _ _ _ _ _ Hu2).
    + apply (um_other _ _ _ _ _ _ _ Hu); [intros Hq; apply Hp; right; by left|].
      intros n Hn E. apply Hp. right. right. by exists n.
    + intros j Hj E. apply Hp. right. left. exists j. by rewrite <- Ht.
Qed.
End vmspace.
