(* ===== verification/VmCopy.v ===== *)
(** vm.c [setupkvm], [allocuvm] and [copyuvm]: building address spaces. *)
From S2P Require Import Prelude Layout Kalloc Vm VmTab VmSpace.

Section vmcopy.
Context (kend : Z).

(** The address space [d] is being built: every page it has was free in [s0],
    and the pages that were in use there are as they were.  [X] are pages taken
    from the free list that are not mapped yet. *)
Record built (s0 : vmem) (l0 : list Z) (d : Z) (X : list Z) (s : vmem) (l : list Z) : Prop := {
  bu_rep : vrep kend s l;
  bu_as : aspace s d;
  bu_keep : forall p x, v_page s0 !! p = Some x -> v_page s !! p = Some x;
  bu_free : forall p, p ∈ l0 <-> p ∈ l \/ owned s d p \/ p ∈ X;
  bu_used : forall p, is_Some (v_page s !! p) <-> is_Some (v_page s0 !! p) \/ owned s d p \/ p ∈ X;
  bu_own : forall p, p ∈ X -> ~ owned s d p
}.

(** The free list holds the pages it held, and the pages in use are unchanged. *)
Record restored (s0 : vmem) (l0 : list Z) (s : vmem) (l : list Z) : Prop := {
  rs_rep : vrep kend s l;
  rs_free : forall p, p ∈ l <-> p ∈ l0;
  rs_page : v_page s = v_page s0
}.

Lemma built_fresh s0 l0 d X s l p x :
  vrep kend s0 l0 -> built s0 l0 d X s l -> v_page s0 !! p = Some x -> ~ owned s d p /\ (p ∉ l) /\ (p ∉ X).
Proof.
  intros Hv0 Hb Hp. pose proof (vr_disjoint _ _ _ _ _ Hv0 Hp) as Hn. rewrite (bu_free _ _ _ _ _ _ Hb) in Hn. tauto.
Qed.

(** [freevm] of a space being built undoes it. *)
Lemma wp_freevm_built s0 l0 d s l (Q : unit -> vmem -> Prop) :
  KERNBASE < kend -> vrep kend s0 l0 -> built s0 l0 d [] s l ->
  (forall s' l', restored s0 l0 s' l' -> Q tt s') -> wp (freevm kend d) s Q.
Proof.
  intros Hk Hv0 Hb HQ. pose proof Hb as [B1 B2 B3 B4 B5 B6].
  eapply wp_freevm; [done|exact B1|done|]. intros s' l' Hv' Hf Ho Hn. apply (HQ s' l'). split; [done|..].
  - intros p. rewrite Hf, B4. assert (p ∉ ([] : list Z)) by apply not_elem_of_nil. tauto.
  - apply map_eq. intros p. destruct (owned_dec s d p) as [Hp|Hp].
    + rewrite Ho by done. destruct (v_page s0 !! p) as [x|] eqn:Hx; [|done].
      by destruct (built_fresh _ _ _ _ _ _ _ _ Hv0 Hb Hx) as [? _].
    + rewrite Hn by done. destruct (v_page s0 !! p) as [x|] eqn:Hx; [by apply B3|].
      destruct (v_page s !! p) as [y|] eqn:Hy; [|done].
      destruct (proj1 (B5 p) (ex_intro _ y Hy)) as [[? ?]|[?|?%elem_of_nil]]; [congruence|done|done].
Qed.

(** Mappings outside the user's part keep the space as it is. *)
Lemma maps_ufr d s l c s' l' n :
  maps kend d s l c s' l' -> upg n -> c n = None -> ufr s' d n = ufr s d n.
Proof.
  intros Hm Hn E. unfold ufr. rewrite (mp_pte _ _ _ _ _ _ _ Hm) by (unfold pg, upg in *; lia). by rewrite E.
Qed.

Lemma built_tabs s0 l0 d X s l c s' l' p :
  built s0 l0 d X s l -> maps kend d s l c s' l' ->
  istab s' d p -> ~ istab s d p -> p ∈ l /\ v_page s !! p = None.
Proof.
  intros Hb Hm H1 H2. assert (Hp : p ∈ l) by (apply (mp_free _ _ _ _ _ _ _ Hm); auto).
  split; [done|]. by apply (vr_free _ _ _ (bu_rep _ _ _ _ _ _ Hb)).
Qed.

Lemma built_maps_frames s0 l0 d X s l c s' l' :
  vrep kend s0 l0 -> built s0 l0 d X s l -> maps kend d s l c s' l' -> (forall n, upg n -> ufr s' d n = ufr s d n) ->
  built s0 l0 d X s' l'.
Proof.
  intros Hv0 Hb Hm Hfr. pose proof Hb as [B1 B2 B3 B4 B5 B6].
  assert (Hisf : forall p, isframe s' d p <-> isframe s d p).
  { intros p. unfold isframe. split; intros (n & Hn & E); exists n; (split; [done|]); [rewrite <- Hfr|rewrite Hfr]; done. }
  pose proof (fun p => maps_istab _ _ _ _ _ _ _ p Hm) as Hgrow.
  assert (Hnew : forall p, istab s' d p -> istab s d p \/ (p ∈ l /\ v_page s !! p = None)).
  { intros p Hp. destruct (istab_dec s d p) as [|Hn]; [by left|right].
    exact (built_tabs s0 l0 d X s l c s' l' p Hb Hm Hp Hn). }
  pose proof Hm as [M1 M2 M3 M4 M5 M6 M7].
  split; [done|..].
  - split; [done|..].
    + intros n p Hn E. rewrite Hfr in E by done. destruct (as_frame _ _ B2 n p Hn E) as (Hs & Hd & Ht).
      split_and!; [rewrite M7; by left|done|]. intros [?|[_ ?]]%Hnew; [done|]. destruct Hs. congruence.
    + intros n m p Hn Hm'. rewrite !Hfr by done. by apply (as_inj _ _ B2).
  - intros p x Hx. destruct (built_fresh _ _ _ _ _ _ _ _ Hv0 Hb Hx) as (Ho & Hl & _).
    rewrite M4; [by apply B3|intros ->; apply Ho; by left|]. intros [?|[? _]]%Hnew; [|done].
    apply Ho. right. by left.
  - intros p. rewrite B4, M6. unfold owned. rewrite Hisf. specialize (Hgrow p). specialize (Hnew p).
    destruct (istab_dec s d p); tauto.
  - intros p. rewrite M7, B5. unfold owned. rewrite Hisf. specialize (Hgrow p). tauto.
  - intros p Hp. specialize (B6 p Hp). unfold owned in *. rewrite Hisf.
    assert (Hs : is_Some (v_page s !! p)) by (rewrite B5; auto).
    intros [?|[[?|[_ ?]]%Hnew|?]]; [tauto|tauto| |tauto]. destruct Hs. congruence.
Qed.

Lemma built_maps s0 l0 d X s l c s' l' :
  vrep kend s0 l0 -> built s0 l0 d X s l -> maps kend d s l c s' l' -> (forall n, upg n -> c n = None) ->
  built s0 l0 d X s' l'.
Proof. intros Hv0 Hb Hm Hc. eapply built_maps_frames; [done|exact Hb|exact Hm|]. intros. eapply maps_ufr; eauto. Qed.

(** An address space only depends on its own pages. *)
Lemma same_space s s' d :
  aspace s d -> (forall p, owned s d p -> v_page s' !! p = v_page s !! p) ->
  aspace s' d /\ (forall p, owned s' d p <-> owned s d p) /\
  (forall n, pg n -> pten s' d n = pten s d n) /\ (forall i, tab s' d i = tab s d i).
Proof.
  intros [Hw Hf Hinj] Hs.
  assert (Ht : forall i, tab s' d i = tab s d i).
  { intros i. unfold tab, pde. by rewrite Hs by (by left). }
  assert (Hi : forall p, istab s' d p <-> istab s d p) by (intros p; unfold istab; by setoid_rewrite Ht).
  assert (Hp : forall n, pg n -> pten s' d n = pten s d n).
  { intros n Hn. unfold pten. rewrite Ht. destruct (tab s d (n / 1024)) as [t|] eqn:E; [|done].
    unfold pde. rewrite Hs; [done|]. right. left. exists (n / 1024). split; [|done]. by apply pg_div. }
  assert (Hu : forall n, upg n -> ufr s' d n = ufr s d n).
  { intros n Hn. unfold ufr. rewrite Hp; [done|]. unfold pg, upg in *. lia. }
  assert (Hfr : forall p, isframe s' d p <-> isframe s d p).
  { intros p. split; intros (n & Hn & E); exists n; (split; [done|]); [rewrite <- Hu|rewrite Hu]; done. }
  split_and!; [|intros p; unfold owned; by rewrite Hi, Hfr|done|done]. split.
  - split.
    + rewrite Hs by (by left). apply Hw.
    + intros p Hist%Hi. rewrite Hs by (right; by left). by apply (pt_tab _ _ Hw).
    + intros i j p. rewrite !Ht. apply Hw.
  - intros n p Hn E. rewrite Hu in E by done. rewrite Hs by (right; right; by exists n).
    rewrite Hi. by apply (Hf n).
  - intros n m p Hn Hm. rewrite !Hu by done. by apply Hinj.
Qed.

(** A page is taken from the free list and filled. *)
Lemma built_take s0 l0 d s p l k x :
  vrep kend s0 l0 -> built s0 l0 d [] s (p :: l) -> kmem_rep kend k l -> pg_ok x ->
  built s0 l0 d [p] (add_page s k p x) l /\ (forall n, pg n -> pten (add_page s k p x) d n = pten s d n).
Proof.
  intros Hv0 Hb Hk Hx. pose proof Hb as [B1 B2 B3 B4 B5 B6].
  destruct (vr_free _ _ _ B1 p ltac:(by left)) as [Hp Hn].
  assert (Ho : ~ owned s d p) by (intros Ho%(owned_some _ _ _ B2); destruct Ho; congruence).
  destruct (same_space s (add_page s k p x) d B2) as (A1 & A2 & A3 & _).
  { intros q Hq. cbn. apply lookup_insert_ne. intros ->. done. }
  split; [|done]. split; [by apply vrep_add_page|done|..].
  - intros q y Hy. cbn. rewrite lookup_insert_ne; [by apply B3|]. intros ->.
    by rewrite (B3 _ _ Hy) in Hn.
  - intros q. rewrite B4, A2, !elem_of_cons. assert (q ∉ ([] : list Z)) by apply not_elem_of_nil. tauto.
  - intros q. rewrite A2, elem_of_cons. cbn. destruct (decide (q = p)) as [->|].
    + rewrite lookup_insert_eq. split; [auto|by eexists].
    + rewrite lookup_insert_ne, B5 by done. assert (q ∉ ([] : list Z)) by apply not_elem_of_nil. tauto.
  - intros q ->%list_elem_of_singleton. by rewrite A2.
Qed.

(** The page is given back. *)
Lemma wp_untake s0 l0 d p s l (Q : unit -> vmem -> Prop) :
  vrep kend s0 l0 -> built s0 l0 d [p] s l ->
  (forall s' l', built s0 l0 d [] s' l' -> v_page s' = delete p (v_page s) -> Q tt s') -> wp (free_page kend p) s Q.
Proof.
  intros Hv0 Hb HQ. pose proof Hb as [B1 B2 B3 B4 B5 B6].
  assert (Ho : ~ owned s d p) by (apply B6; by left).
  eapply wp_free_page; [exact B1|rewrite B5; right; right; by left|]. intros k _ Hv. apply (HQ _ (p :: l)); [|done].
  destruct (same_space s (del_page s k p) d B2) as (A1 & A2 & _ & _).
  { intros q Hq. cbn. apply lookup_delete_ne. intros ->. done. }
  assert (Hnil : forall q, q ∉ ([] : list Z)) by apply not_elem_of_nil.
  split; [done|done|..].
  - intros q y Hy. cbn. rewrite lookup_delete_ne; [by apply B3|]. intros ->.
    destruct (built_fresh _ _ _ _ _ _ _ _ Hv0 Hb Hy) as (_ & _ & Hx). apply Hx. by left.
  - intros q. rewrite B4, A2, !elem_of_cons. specialize (Hnil q). tauto.
  - intros q. rewrite A2. cbn. specialize (Hnil q). destruct (decide (q = p)) as [->|].
    + rewrite lookup_delete_eq. split; [by intros []|]. intros [[x Hx]|[?|?]]; try done.
      destruct (built_fresh _ _ _ _ _ _ _ _ Hv0 Hb Hx) as (_ & _ & Hp). exfalso. apply Hp. by left.
    + rewrite lookup_delete_ne, B5, elem_of_cons by done. tauto.
  - intros q Hq. by destruct (Hnil q).
Qed.

(** The page becomes user page [n]. *)
Lemma built_map_user s0 l0 d mem s l n perm s' l' :
  vrep kend s0 l0 -> built s0 l0 d [mem] s l -> upg n -> ufr s d n = None -> 0 <= perm < 4096 ->
  maps kend d s l (range n 1 (V2P mem) perm) s' l' ->
  built s0 l0 d [] s' l' /\ v_page s' !! mem = v_page s !! mem /\
  ufr s' d n = Some mem /\ PTE_FLAGS (pten s' d n) = Z.lor perm PTE_P /\
  (forall m p, upg m -> ufr s d m = Some p ->
     ufr s' d m = Some p /\ pten s' d m = pten s d m /\ v_page s' !! p = v_page s !! p) /\
  (forall m, upg m -> m <> n -> ufr s' d m = ufr s d m).
Proof.
  intros Hv0 Hb Hn Hno Hperm Hm. pose proof Hb as [B1 B2 B3 B4 B5 B6].
  pose proof (B6 mem ltac:(by left)) as Hown.
  assert (Hmem : is_Some (v_page s !! mem)) by (rewrite B5; right; right; by left).
  destruct Hmem as [x Hx]. destruct (vr_used _ _ _ B1 mem x Hx) as [Hk _].
  destruct (P2V_V2P kend mem Hk) as (Evp & Hr & Hal). unfold PHYSTOP in Hr.
  destruct (entry_spec (V2P mem) perm ltac:(lia) Hal Hperm) as (_ & Ea & Ef & Epr).
  pose proof (fun p => maps_istab _ _ _ _ _ _ _ p Hm) as Hgrow.
  assert (Hnew : forall p, istab s' d p -> istab s d p \/ (p ∈ l /\ v_page s !! p = None)).
  { intros p Hp. destruct (istab_dec s d p) as [|Hnt]; [by left|right].
    exact (built_tabs s0 l0 d [mem] s l _ s' l' p Hb Hm Hp Hnt). }
  assert (Hnt : ~ istab s' d mem).
  { intros [?|[_ ?]]%Hnew; [apply Hown; right; by left|congruence]. }
  assert (Hmd : mem <> d) by (intros ->; apply Hown; by left).
  assert (Hpn : pten s' d n = entry (V2P mem) perm).
  { rewrite (mp_pte _ _ _ _ _ _ _ Hm) by (unfold pg, upg in *; lia). unfold range. rewrite decide_True by lia.
    cbn. f_equal. lia. }
  assert (Hfn : ufr s' d n = Some mem) by (unfold ufr; by rewrite Hpn, Epr, Ea, Evp).
  assert (Hpm : forall m, upg m -> m <> n -> pten s' d m = pten s d m).
  { intros m Hmu Hne. rewrite (mp_pte _ _ _ _ _ _ _ Hm) by (unfold pg, upg in *; lia).
    unfold range. by rewrite decide_False by lia. }
  assert (Hfm : forall m, upg m -> m <> n -> ufr s' d m = ufr s d m).
  { intros m Hmu Hne. unfold ufr. by rewrite Hpm. }
  assert (Hisf : forall p, isframe s' d p <-> p = mem \/ isframe s d p).
  { intros p. split.
    - intros (m & Hmu & E). destruct (decide (m = n)) as [->|]; [left; congruence|].
      right. exists m. rewrite <- Hfm; done.
    - intros [->|(m & Hmu & E)]; [by exists n|]. exists m. rewrite Hfm; [done|done|]. intros ->. congruence. }
  pose proof Hm as [M1 M2 M3 M4 M5 M6 M7].
  assert (Hframe : forall m p, upg m -> ufr s d m = Some p -> p <> d /\ ~ istab s' d p /\ p <> mem).
  { intros m p Hmu E. destruct (as_frame _ _ B2 m p Hmu E) as ([y Hy] & Hd & Ht). split_and!; [done|..].
    - intros [?|[_ ?]]%Hnew; [done|congruence].
    - intros ->. apply Hown. right. right. by exists m. }
  split; [|split_and!; [by apply M4|done|by rewrite Hpn| |done]].
  2: { intros m p Hmu E. assert (m <> n) by congruence. destruct (Hframe m p Hmu E) as (? & ? & _).
       rewrite Hfm, Hpm by done. split_and!; [done|done|by apply M4]. }
  assert (Hnil : forall q, q ∉ ([] : list Z)) by apply not_elem_of_nil.
  split; [done|..].
  - split; [done|..].
    + intros m p Hmu E. destruct (decide (m = n)) as [->|Hne].
      * rewrite Hfn in E. injection E as <-. split_and!; [rewrite M7; left; by eexists|done|done].
      * rewrite Hfm in E by done. destruct (Hframe m p Hmu E) as (? & ? & _).
        split_and!; [rewrite M7; left; by apply (as_frame _ _ B2 m)|done|done].
    + intros m1 m2 p H1 H2 E1 E2.
      assert (Hone : forall m, upg m -> ufr s' d m = Some mem -> m = n).
      { intros m Hmu E. destruct (decide (m = n)); [done|]. rewrite Hfm in E by done.
        destruct (Hframe m mem Hmu E) as (_ & _ & ?). done. }
      destruct (decide (p = mem)) as [->|Hpne]; [rewrite (Hone m1), (Hone m2) by done; done|].
      assert (m1 <> n) by congruence. assert (m2 <> n) by congruence.
      rewrite Hfm in E1, E2 by done. by eapply (as_inj _ _ B2).
  - intros p y Hy. destruct (built_fresh _ _ _ _ _ _ _ _ Hv0 Hb Hy) as (Ho & Hl & _).
    rewrite M4; [by apply B3|intros ->; apply Ho; by left|]. intros [?|[? _]]%Hnew; [|done].
    apply Ho. right. by left.
  - intros p. rewrite B4, M6. unfold owned. rewrite Hisf, list_elem_of_singleton. specialize (Hgrow p).
    specialize (Hnil p). destruct (istab_dec s d p); tauto.
  - intros p. rewrite M7, B5. unfold owned. rewrite Hisf, list_elem_of_singleton. specialize (Hgrow p).
    specialize (Hnil p). tauto.
  - intros p Hp. by destruct (Hnil p).
Qed.

(** * setupkvm *)

(** A new, empty directory. *)
Lemma built_dir s0 l0 l k d :
  vrep kend s0 l0 -> l0 = d :: l -> kmem_rep kend k l ->
  let s := add_page s0 k d zero_page in
  built s0 l0 d [] s l /\ forall n, pten s d n = 0.
Proof.
  intros Hv0 -> Hk s. destruct (vr_free _ _ _ Hv0 d ltac:(by left)) as [Hp Hn].
  assert (Ht : forall i, tab s d i = None).
  { intros i. unfold tab, pde, s, add_page. cbn [v_page]. rewrite lookup_insert_eq. unfold zero_page.
    by rewrite get32_zeros. }
  assert (Hpt : forall n, pten s d n = 0) by (intros n; unfold pten; by rewrite Ht).
  assert (Hi : forall p, ~ istab s d p) by (intros p (i & _ & E); congruence).
  assert (Hu : forall n, ufr s d n = None) by (intros n; unfold ufr; by rewrite Hpt).
  assert (Hf : forall p, ~ isframe s d p) by (intros p (i & _ & E); congruence).
  assert (Hnil : forall q, q ∉ ([] : list Z)) by apply not_elem_of_nil.
  split; [|done]. split.
  - apply vrep_add_page; [done..|apply zero_page_ok].
  - split; [split| |].
    + cbn. rewrite lookup_insert_eq. by eexists.
    + intros p Hp'. by apply Hi in Hp'.
    + intros i j p _ _ E. congruence.
    + intros n p _ E. congruence.
    + intros n m p _ _ E. congruence.
  - intros p x Hx. cbn. rewrite lookup_insert_ne; [done|congruence].
  - intros p. rewrite elem_of_cons. unfold owned. specialize (Hi p). specialize (Hf p). specialize (Hnil p). tauto.
  - intros p. unfold owned. specialize (Hi p). specialize (Hf p). specialize (Hnil p). cbn.
    destruct (decide (p = d)) as [->|]; [rewrite lookup_insert_eq; split; [auto|by eexists]|].
    rewrite lookup_insert_ne by done. tauto.
  - intros p Hp'. by destruct (Hnil p).
Qed.

Lemma length_omap_le {A B} (f : A -> option B) (l : list A) : (length (omap f l) <= length l)%nat.
Proof. induction l as [|a l IH]; [done|]. cbn. destruct (f a); cbn; lia. Qed.

(** When the free list is used up, the address space has all its pages. *)
Lemma built_exhausted s0 l0 d X s k :
  vrep kend s0 l0 -> built s0 l0 d X s [] -> 0 <= k -> (forall n, upg n -> k <= n -> ufr s d n = None) ->
  Z.of_nat (length l0) <= 1025 + k + Z.of_nat (length X).
Proof.
  intros Hv0 Hb Hk Habs.
  assert (Hsub : l0 ⊆+ d :: omap (tab s d) (seqZ 0 1024) ++ omap (ufr s d) (seqZ 0 k) ++ X).
  { apply NoDup_submseteq; [apply (vr_mem _ _ _ Hv0)|]. intros p Hp. rewrite (bu_free _ _ _ _ _ _ Hb) in Hp.
    rewrite elem_of_cons, !elem_of_app, !list_elem_of_omap. setoid_rewrite elem_of_seqZ.
    destruct Hp as [?%elem_of_nil|[[->|[(i & Hi & E)|(n & Hn & E)]]|Hx]]; [done|by left|..|tauto].
    - right. left. exists i. split; [lia|done].
    - right. right. left. exists n. split; [|done]. destruct (decide (k <= n)); [rewrite Habs in E by done; done|].
      unfold upg in Hn. lia. }
  apply submseteq_length in Hsub. cbn in Hsub. rewrite !length_app in Hsub.
  pose proof (length_omap_le (tab s d) (seqZ 0 1024)) as L1. pose proof (length_omap_le (ufr s d) (seqZ 0 k)) as L2.
  rewrite length_seqZ in L1, L2. lia.
Qed.

Context (kdata : Z) (kend_high : KERNBASE < kend).
(** The linker aligns [data]. *)
Context (kdata_ok : KERNLINK < kdata < KERNBASE + PHYSTOP /\ kdata mod 4096 = 0).

(** Entries of [kmap] from page [hi] on, in order. *)
Fixpoint kmap_ok (hi : Z) (l : list (Z * Z * Z * Z)) : Prop :=
  match l with
  | [] => True
  | (virt, phys_start, phys_end, perm) :: l' =>
      exists n0 m, virt = 4096 * n0 /\ u32 (phys_end - phys_start) = 4096 * m /\ hi <= n0 /\ 1 <= m /\
        n0 + m <= 1048576 /\ 0 <= phys_start /\ phys_start mod 4096 = 0 /\
        phys_start + 4096 * m <= 2 ^ 32 /\ 0 <= perm < 4 /\ kmap_ok (n0 + m) l'
  end.

Lemma kmap_kmap_ok : kmap_ok 524288 (kmap kdata).
Proof.
  destruct kdata_ok as [Hd Hal]. unfold KERNLINK, KERNBASE, EXTMEM, PHYSTOP in Hd.
  pose proof (Z.div_mod kdata 4096) as Hdm. set (kd := kdata / 4096) in *.
  assert (Hv : V2P kdata = kdata - 2147483648) by (unfold V2P, KERNBASE; rewrite u32_small; lia).
  assert (Ek : V2P KERNLINK = 1048576) by reflexivity.
  rewrite Hal in Hdm.
  exists 524288, 256. split_and!; try done. exists 524544, (kd - 524544). rewrite Hv, Ek.
  split_and!; try done; try lia; [rewrite u32_small; lia|].
  exists kd, (581632 - kd). unfold PHYSTOP. split_and!; try done; try lia; [rewrite u32_small; lia|..].
  - rewrite <- Zminus_mod_idemp_l, Hal. done.
  - exists 1040384, 8192. split_and!; try done. lia.
Qed.

(** A new address space: no user page, and nothing the user can access. *)
Definition kernel_entries (s : vmem) (d : Z) : Prop :=
  (forall n, upg n -> pten s d n = 0) /\ (forall n, pg n -> pte_has (pten s d n) PTE_U = false).

Lemma wp_map_kernel s0 l0 d kl : forall hi s l (Q : bool -> vmem -> Prop),
  vrep kend s0 l0 -> built s0 l0 d [] s l -> kmap_ok hi kl -> 524288 <= hi ->
  (forall n, pg n -> (upg n \/ hi <= n) -> pten s d n = 0) -> (forall n, pg n -> pte_has (pten s d n) PTE_U = false) ->
  (forall s', built s0 l0 d [] s' [] -> (forall n, upg n -> pten s' d n = 0) -> Q false s') ->
  (forall s' l', built s0 l0 d [] s' l' -> kernel_entries s' d -> Q true s') ->
  wp (map_kernel d kl) s Q.
Proof.
  induction kl as [|[[[virt ps] pe] perm] kl IH]; intros hi s l Q Hv0 Hb Hok Hhi Hz HU HF HT; cbn [map_kernel].
  - apply wp_ret. apply (HT s l); [done|]. split; [|done]. intros n Hn. apply Hz; [unfold pg, upg in *; lia|by left].
  - destruct Hok as (n0 & m & -> & Es & Hn0 & Hm & Hnm & Hps & Hal & Hend & Hperm & Hok).
    pose proof Hb as [B1 B2 _ _ _ _]. apply wp_bind.
    assert (Hc : forall k n, upg n -> range n0 k ps perm n = None).
    { intros k n Hn. unfold range, upg in *. by rewrite decide_False by lia. }
    eapply (wp_mappages kend s l d _ _ _ _ n0 m); [exact B1|apply B2|..]; try done; try lia.
    + rewrite PGROUNDDOWN_div, (Z.mul_comm 4096 n0), Z.div_mul by lia. lia.
    + rewrite Es, u32_small, PGROUNDDOWN_div by lia. f_equal.
      symmetry. apply Z.div_unique with 4095; lia.
    + intros n Hn. rewrite Hz; [done|unfold pg; lia|right; lia].
    + intros s' k Hk Hmp. apply wp_ret. apply (HF s'); [eapply (built_maps s0 l0); eauto|].
      intros n Hn. rewrite (mp_pte _ _ _ _ _ _ _ Hmp) by (unfold pg, upg in *; lia). rewrite Hc by done.
      apply Hz; [unfold pg, upg in *; lia|by left].
    + intros s' l' Hmp. apply (IH (n0 + m) s' l'); try done; [|lia|..].
      * eapply (built_maps s0 l0); eauto.
      * intros n Hpn Hn. rewrite (mp_pte _ _ _ _ _ _ _ Hmp) by done. unfold range.
        rewrite decide_False by (unfold upg in *; lia). cbn. apply Hz; [done|]. destruct Hn; [by left|right; lia].
      * intros n Hpn. rewrite (mp_pte _ _ _ _ _ _ _ Hmp) by done. unfold range. case_decide; cbn; [|by apply HU].
        apply entry_kernel; [|done]. rewrite Z.mul_comm, Z_mod_plus_full. done.
Qed.

Lemma wp_setupkvm s0 l0 (Q : Z -> vmem -> Prop) :
  vrep kend s0 l0 ->
  (forall s l, restored s0 l0 s l -> (length l0 <= 1025)%nat -> Q 0 s) ->
  (forall d s l, d <> 0 -> built s0 l0 d [] s l -> kernel_entries s d -> Q d s) ->
  wp (setupkvm kend kdata) s0 Q.
Proof.
  intros Hv0 HF HT. unfold setupkvm. apply wp_bind. eapply wp_vm_kalloc; [exact Hv0|..].
  - intros ->. rewrite Z.eqb_refl. apply wp_ret. apply (HF s0 []); [done|cbn; lia].
  - intros d l k E Hp Hpos Hk. rewrite (proj2 (Z.eqb_neq _ _)) by lia. apply wp_bind, wp_modify. cbn [v_mem v_page].
    destruct (built_dir s0 l0 l k d Hv0 E Hk) as [Hb Hz].
    change (DEVSPACE <? P2V PHYSTOP) with false. apply wp_bind.
    eapply (wp_map_kernel s0 l0 d _ 524288); [done|exact Hb|apply kmap_kmap_ok|lia|auto|intros n _; by rewrite Hz|..].
    + intros s Hb' Hu. apply wp_bind.
      pose proof (built_exhausted s0 l0 d [] s 0 Hv0 Hb' ltac:(lia)) as Hlen.
      eapply (wp_freevm_built s0 l0); [exact kend_high|done|exact Hb'|]. intros s' l'' Hr. apply wp_ret.
      apply (HF s' l''); [done|]. cbn in Hlen. enough (Z.of_nat (length l0) <= 1025 + 0 + 0) by lia. apply Hlen.
      intros n Hn _. unfold ufr. by rewrite Hu.
    + intros s l' Hb' Hu. apply wp_ret. apply (HT d s l'); [lia|done|done].
Qed.

(** * copyuvm *)

(** The pages below [k] of [d] hold what those of [pgdir] held. *)
Definition copied (s0 : vmem) (pgdir d k : Z) (s : vmem) : Prop :=
  forall n, 0 <= n < k -> exists p q, ufr s0 pgdir n = Some q /\ ufr s d n = Some p /\
    PTE_FLAGS (pten s d n) = PTE_FLAGS (pten s0 pgdir n) /\ v_page s !! p = v_page s0 !! q.

Lemma built_source s0 l0 d X s l pgdir :
  aspace s0 pgdir -> built s0 l0 d X s l ->
  ptwf s pgdir /\ (forall i, tab s pgdir i = tab s0 pgdir i) /\ (forall n, pg n -> pten s pgdir n = pten s0 pgdir n).
Proof.
  intros Ha Hb. destruct (same_space s0 s pgdir Ha) as (H1 & _ & H2 & H3).
  - intros p Hp. destruct (owned_some _ _ _ Ha Hp) as [x Hx]. rewrite Hx. by apply (bu_keep _ _ _ _ _ _ Hb).
  - split; [apply H1|done].
Qed.

Lemma wp_copy_pages s0 l0 pgdir d m : forall k s l (Q : Z -> vmem -> Prop),
  vrep kend s0 l0 -> aspace s0 pgdir -> d <> 0 -> 0 <= k -> k + Z.of_nat m <= 524288 ->
  (forall n, 0 <= n < k + Z.of_nat m -> is_Some (ufr s0 pgdir n)) ->
  built s0 l0 d [] s l -> copied s0 pgdir d k s -> (forall n, upg n -> k <= n -> ufr s d n = None) ->
  (forall s' l', restored s0 l0 s' l' -> Z.of_nat (length l0) <= 1025 + k + Z.of_nat m -> Q 0 s') ->
  (forall s' l', built s0 l0 d [] s' l' -> copied s0 pgdir d (k + Z.of_nat m) s' -> Q d s') ->
  wp (copy_pages kend pgdir d (4096 * k) m) s Q.
Proof.
  induction m as [|m IH]; intros k s l Q Hv0 Ha Hd Hk Hkm Hall Hb Hcp Habs HF HT; cbn [copy_pages].
  - apply wp_ret. rewrite Z.add_0_r in HT. by apply (HT s l).
  - assert (Hu : upg k) by (unfold upg; lia). assert (Hpk : pg k) by (unfold pg; lia).
    destruct (pg_div k Hpk) as [Hi Hr]. destruct (built_source s0 l0 d [] s l pgdir Ha Hb) as (Hw & Ht & Hpt).
    pose proof Hb as [B1 _ _ _ _ _]. destruct (Hall k ltac:(lia)) as [q Hq].
    destruct (ufr_some _ _ _ _ Hq) as [Hpres Eq]. destruct (as_frame _ _ Ha k q Hu Hq) as ([x Hx] & _).
    apply wp_bind. eapply wp_walkpgdir; [exact B1|done|lia|].
    rewrite (Z.mul_comm 4096 k), Z.div_mul, (Z.mul_comm k) by lia.
    assert (exists t, tab s0 pgdir (k / 1024) = Some t) as [t Et].
    { unfold pten in Hpres. destruct (tab s0 pgdir (k / 1024)); [by eexists|done]. }
    rewrite Ht, Et. apply wp_bind. eapply wp_get_pte; [exact B1|apply (pt_tab _ _ Hw); exists (k / 1024); by rewrite Ht|].
    assert (Ee : pde s t (k mod 1024) = pten s0 pgdir k).
    { rewrite <- Hpt by done. unfold pten. by rewrite Ht, Et. }
    rewrite Ee, Hpres. cbn [negb]. apply wp_bind. eapply wp_vm_kalloc; [exact B1|..].
    + intros ->. rewrite Z.eqb_refl. apply wp_bind.
      pose proof (built_exhausted s0 l0 d [] s k Hv0 Hb Hk Habs) as Hlen. cbn in Hlen.
      eapply (wp_freevm_built s0 l0); [exact kend_high|done|exact Hb|].
      intros s' l' Hres. apply wp_ret. apply (HF s' l'); [done|lia].
    + intros mem l1 km -> Hmem Hpos Hkm'. rewrite (proj2 (Z.eqb_neq _ _)) by lia. apply wp_bind.
      unfold page_at. unfold wp at 1. cbn [v_page]. rewrite <- Eq, (bu_keep _ _ _ _ _ _ Hb q x Hx).
      apply wp_bind, wp_modify. cbn [v_mem v_page]. apply wp_bind.
      destruct (vr_used _ _ _ Hv0 q x Hx) as [_ Hpg].
      destruct (built_take s0 l0 d s mem l1 km x Hv0 Hb Hkm' Hpg) as [Hb1 Hpt1].
      change (mkVmem km (<[mem:=x]> (v_page s))) with (add_page s km mem x).
      set (s1 := add_page s km mem x) in *.
      assert (Hfr1 : forall n, upg n -> ufr s1 d n = ufr s d n).
      { intros n Hn. unfold ufr. rewrite Hpt1; [done|]. unfold pg, upg in *. lia. }
      pose proof (P2V_V2P _ _ Hmem) as (_ & Hvr & Hval). unfold PHYSTOP in Hvr.
      assert (Hfl : 0 <= PTE_FLAGS (pten s0 pgdir k) < 4096).
      { rewrite PTE_FLAGS_mod. apply Z.mod_pos_bound. lia. }
      eapply (wp_mappages kend s1 l1 d _ _ _ _ k 1); [apply Hb1|apply Hb1|..]; try done; try lia.
      * rewrite PGROUNDDOWN_div, (Z.mul_comm 4096 k), Z.div_mul by lia. lia.
      * unfold PGSIZE. rewrite u32_small, PGROUNDDOWN_div by lia. f_equal.
        symmetry. apply Z.div_unique with 4095; lia.
      * intros n Hn. assert (n = k) as -> by lia. specialize (Habs k Hu ltac:(lia)).
        rewrite <- Hfr1 in Habs by done. unfold ufr in Habs. by destruct (pte_has _ _).
      * intros s2 k' Hk' Hmp. apply wp_bind.
        assert (Hr0 : forall n, range k k' (V2P mem) (PTE_FLAGS (pten s0 pgdir k)) n = None).
        { intros n. unfold range. by rewrite decide_False by lia. }
        assert (Hb2 : built s0 l0 d [mem] s2 []) by (eapply (built_maps s0 l0); [done|exact Hb1|exact Hmp|done]).
        assert (Hlen : Z.of_nat (length l0) <= 1025 + k + 1).
        { apply (built_exhausted s0 l0 d [mem] s2 k); try done. intros n Hn Hkn.
          rewrite (maps_ufr d s1 l1 _ s2 [] n Hmp Hn), Hfr1 by done. by apply Habs. }
        eapply (wp_untake s0 l0 d); [done| |].
        { exact Hb2. }
        intros s3 l3 Hb3 _. apply wp_bind. eapply (wp_freevm_built s0 l0); [exact kend_high|done|exact Hb3|].
        intros s' l' Hres. apply wp_ret. apply (HF s' l'); [done|lia].
      * intros s2 l2 Hmp.
        destruct (built_map_user s0 l0 d mem s1 l1 k (PTE_FLAGS (pten s0 pgdir k)) s2 l2 Hv0 Hb1 Hu) as (Hb2 & Hmm & Hfk & Hfl2 & Hold & Hnew);
          [by rewrite Hfr1, Habs by (done || lia)|done|exact Hmp|].
        unfold PGSIZE. rewrite u32_small by lia. replace (4096 * k + 4096) with (4096 * (k + 1)) by lia.
        apply (IH (k + 1) s2 l2); try done; try lia.
        -- intros n Hn. apply Hall. lia.
        -- intros n Hn. destruct (decide (n = k)) as [->|Hne].
           ++ exists mem, q. split_and!; [done|done| |].
              ** rewrite Hfl2. by apply entry_present_flags.
              ** rewrite Hmm, Hx. cbn. apply lookup_insert_eq.
           ++ destruct (Hcp n ltac:(lia)) as (p & q' & E1 & E2 & E3 & E4). exists p, q'.
              assert (Hun : upg n) by (unfold upg; lia).
              destruct (Hold n p Hun) as (O1 & O2 & O3); [by rewrite Hfr1|]. split_and!; [done|done| |].
              ** rewrite O2, Hpt1; [done|unfold pg; lia].
              ** rewrite O3, <- E4. cbn. apply lookup_insert_ne. intros ->.
                 assert (Hf : owned s1 d p) by (right; right; exists n; by rewrite Hfr1).
                 by apply (bu_own _ _ _ _ _ _ Hb1 p ltac:(by left)).
        -- intros n Hn Hkn. rewrite Hnew, Hfr1 by (done || lia). apply Habs; [done|lia].
        -- intros s' l' Hres Hlen. apply (HF s' l'); [done|lia].
        -- intros s' l' Hb' Hc'. apply (HT s' l'); [done|]. by replace (k + Z.of_nat (S m)) with (k + 1 + Z.of_nat m) by lia.
Qed.

(** * What user programs see *)

Lemma upage_ufr s l d va :
  vrep kend s l -> ptwf s d -> 0 <= va < 2 ^ 32 ->
  upage s d va = match ufr s d (va / 4096) with Some p => Some (pten s d (va / 4096), p) | None => None end.
Proof.
  intros Hv Hw Hva. unfold upage, ufr, pten, tab, pde. rewrite PDX_div, PTX_mod by done.
  destruct (pt_dir _ _ Hw) as [x Hx]. rewrite Hx. destruct (pte_has (get32 x _) PTE_P) eqn:E; [|done]. cbn [negb].
  destruct (pg_div _ (va_pg va Hva)) as [Hi _].
  destruct (pt_tab _ _ Hw (P2V (PTE_ADDR (get32 x (4 * Z.to_nat (va / 4096 / 1024)))))) as [[y Hy] _].
  - exists (va / 4096 / 1024). split; [done|]. unfold tab, pde. by rewrite Hx, E.
  - rewrite Hy. cbn zeta. by destruct (pte_has (get32 y _) PTE_P).
Qed.

(** All the addresses below [sz] are mapped, page by page. *)
Lemma present_pages s l pgdir sz n :
  vrep kend s l -> ptwf s pgdir -> 0 <= sz <= KERNBASE -> (forall va, 0 <= va < sz -> is_Some (upage s pgdir va)) ->
  0 <= n < (sz + 4095) / 4096 -> is_Some (ufr s pgdir n).
Proof.
  intros Hv Hw Hsz Hall Hn. assert (4096 * n < sz) by (pose proof (Z.mul_div_le (sz + 4095) 4096); lia).
  destruct (Hall (4096 * n) ltac:(lia)) as [e He]. unfold KERNBASE in *.
  rewrite (upage_ufr s l), (Z.mul_comm 4096 n), Z.div_mul in He by (done || lia).
  destruct (ufr s pgdir n); [by eexists|done].
Qed.

(** A copied address space reads as the original. *)
Lemma copied_umem s l s' l' pgdir d sz va :
  vrep kend s l -> vrep kend s' l' -> ptwf s pgdir -> ptwf s' d -> sz <= KERNBASE ->
  copied s pgdir d ((sz + 4095) / 4096) s' -> 0 <= va < sz ->
  umem s' d va = umem s pgdir va /\
  exists e e' p p', upage s pgdir va = Some (e, p) /\ upage s' d va = Some (e', p') /\ PTE_FLAGS e' = PTE_FLAGS e.
Proof.
  intros Hv Hv' Hw Hw' Hsz Hc Hva. unfold KERNBASE in *. destruct (Hc (va / 4096)) as (p & q & E1 & E2 & E3 & E4).
  { split; [apply Z.div_pos; lia|]. apply Z.div_lt_upper_bound; [lia|].
    pose proof (Z.div_mod (sz + 4095) 4096). pose proof (Z.mod_pos_bound (sz + 4095) 4096). lia. }
  assert (U1 : upage s pgdir va = Some (pten s pgdir (va / 4096), q)).
  { rewrite (upage_ufr s l) by (done || lia). by rewrite E1. }
  assert (U2 : upage s' d va = Some (pten s' d (va / 4096), p)).
  { rewrite (upage_ufr s' l') by (done || lia). by rewrite E2. }
  unfold umem. rewrite U1, U2, E4. split; [done|]. eauto 8.
Qed.

Lemma wp_copyuvm s l pgdir sz (Q : Z -> vmem -> Prop) :
  vrep kend s l -> aspace s pgdir -> 0 <= sz <= KERNBASE ->
  (forall n, 0 <= n < (sz + 4095) / 4096 -> is_Some (ufr s pgdir n)) ->
  (forall s' l', restored s l s' l' -> Z.of_nat (length l) <= 1025 + (sz + 4095) / 4096 -> Q 0 s') ->
  (forall d s' l', d <> 0 -> built s l d [] s' l' -> copied s pgdir d ((sz + 4095) / 4096) s' -> Q d s') ->
  wp (copyuvm kend kdata pgdir sz) s Q.
Proof.
  intros Hv Ha Hsz Hall HF HT. unfold copyuvm, KERNBASE in *. apply wp_bind.
  assert (Hn : 0 <= (sz + 4095) / 4096 <= 524288).
  { split; [apply Z.div_pos; lia|]. enough ((sz + 4095) / 4096 < 524289) by lia. apply Z.div_lt_upper_bound; lia. }
  eapply (wp_setupkvm s l); [exact Hv|..].
  - intros s' l' Hr Hlen. rewrite Z.eqb_refl. apply wp_ret. apply (HF s' l'); [done|lia].
  - intros d s' l' Hd Hb [Hz _]. rewrite (proj2 (Z.eqb_neq _ _)) by done.
    replace ((sz + PGSIZE - 1) / PGSIZE) with ((sz + 4095) / 4096) by (unfold PGSIZE; do 2 f_equal; lia).
    apply (wp_copy_pages s l pgdir d _ 0 s' l'); try done; rewrite ?Z2Nat.id by lia; try lia.
    + intros n ?. apply Hall. lia.
    + intros n Hn'. lia.
    + intros n Hu _. unfold ufr. by rewrite Hz.
    + intros s2 l2 Hr Hlen. apply (HF s2 l2); [done|lia].
    + intros s2 l2 Hb2 Hc. by apply (HT d s2 l2).
Qed.
End vmcopy.

(** C9: [copyuvm], the copy of the parent's memory that [fork] makes.  Let all
    the pages of the parent below [sz] be present.  Then [copyuvm] returns, the
    pages in use before are as they were, and either it fails, then there were
    few free pages and every page it took is back on the free list; or
    it returns a new address space made of pages that were free, so that no page
    is shared with the parent or any other process, which has at every address
    below [sz] the byte and the protection the parent has. *)
Theorem copyuvm_correct kend kdata s l pgdir sz :
  KERNBASE < kend -> KERNLINK < kdata < KERNBASE + PHYSTOP /\ kdata mod 4096 = 0 ->
  vrep kend s l -> aspace s pgdir -> 0 <= sz <= KERNBASE ->
  (forall va, 0 <= va < sz -> is_Some (upage s pgdir va)) ->
  exists d s' l', copyuvm kend kdata pgdir sz s = Ok d s' /\ vrep kend s' l' /\
    (forall p x, v_page s !! p = Some x -> v_page s' !! p = Some x) /\
    ((d = 0 /\ Z.of_nat (length l) <= 1025 + (sz + 4095) / 4096 /\ l' ≡ₚ l /\ v_page s' = v_page s) \/
     (d <> 0 /\ aspace s' d /\ (forall p, owned s' d p -> p ∈ l) /\
      (forall p, p ∈ l <-> p ∈ l' \/ owned s' d p) /\
      forall va, 0 <= va < sz ->
        umem s' d va = umem s pgdir va /\
        exists e e' p p', upage s pgdir va = Some (e, p) /\ upage s' d va = Some (e', p') /\
          PTE_FLAGS e' = PTE_FLAGS e)).
Proof.
  intros Hk Hkd Hv Ha Hsz Hall.
  assert (Hw : wp (copyuvm kend kdata pgdir sz) s (fun d s' =>
    (exists l', d = 0 /\ restored kend s l s' l' /\ Z.of_nat (length l) <= 1025 + (sz + 4095) / 4096) \/
    (exists l', d <> 0 /\ built kend s l d [] s' l' /\ copied s pgdir d ((sz + 4095) / 4096) s'))).
  { eapply wp_copyuvm; [done|done|exact Hv|done|done| |by left; eauto|by right; eauto].
    intros n Hn. eapply present_pages; [exact Hv|apply Ha|exact Hsz|exact Hall|exact Hn]. }
  apply wp_inv in Hw as (d & s' & E & [(l' & -> & [R1 R2 R3] & Hlen)|(l' & Hd & Hb & Hc)]).
  - exists 0, s', l'. split_and!; [done|done|by rewrite R3|]. left. split_and!; [done|done| |done].
    apply NoDup_Permutation; [apply (vr_mem _ _ _ R1)|apply (vr_mem _ _ _ Hv)|done].
  - exists d, s', l'. pose proof Hb as [B1 B2 B3 B4 B5 B6]. split_and!; [done|done|done|]. right. split_and!; [done|done|..].
    + intros p Hp. rewrite B4. tauto.
    + intros p. rewrite B4. assert (p ∉ ([] : list Z)) by apply not_elem_of_nil. tauto.
    + intros va Hva. apply (copied_umem kend s l s' l' pgdir d sz va); [exact Hv|exact B1|apply Ha|apply B2|lia|exact Hc|exact Hva].
Qed.

(** * An address space with one page *)

Definition demo_kend : Z := 2148597760.
Definition demo_kdata : Z := 2148564992.
Definition demo_pages (k n : Z) : list Z := map (fun i => demo_kend + 4096 * i) (seqZ k n).

(** The free list that links the pages of [l]. *)
Fixpoint klinks (l : list Z) : gmap Z Z :=
  match l with [] => ∅ | p :: l' => <[p := hd 0 l']> (klinks l') end.
Definition kfrom (l : list Z) : kmem := mkKmem (hd 0 l) true (klinks l).

Lemma klinks_rep kend l :
  NoDup l -> Forall (kpage kend) l -> kmem_rep kend (kfrom l) l.
Proof.
  intros Hnd Hl. split; [|done|..].
  - cbn [kfrom k_word k_freelist]. clear Hl. induction l as [|p l IH]; [done|].
    apply NoDup_cons in Hnd as [Hp Hnd]. split; [done|]. exists (hd 0 l). cbn. rewrite lookup_insert_eq. split; [done|].
    apply linked_insert; [done|]. by apply IH.
  - eapply Forall_impl; [exact Hl|]. by intros p [? _].
  - eapply Forall_impl; [exact Hl|]. intros p [_ H]. unfold KERNBASE in H. lia.
Qed.

Lemma demo_kpage k n p : 0 <= k -> k + n <= 2000 -> p ∈ demo_pages k n -> kpage demo_kend p.
Proof.
  intros Hk Hn Hp. apply list_elem_of_fmap in Hp as (i & -> & Hi). apply elem_of_seqZ in Hi.
  split; [|unfold demo_kend, KERNBASE, PHYSTOP; lia].
  unfold page_ok, V2P, KERNBASE, PHYSTOP, PGSIZE, demo_kend. rewrite u32_small by lia. split_and!; [|lia..].
  rewrite (Z.mul_comm 4096), Z_mod_plus_full. done.
Qed.

Lemma kfrom_rep k n : 0 <= k -> k + n <= 2000 -> kmem_rep demo_kend (kfrom (demo_pages k n)) (demo_pages k n).
Proof.
  intros Hk Hn. apply klinks_rep.
  - apply NoDup_fmap_2; [intros a b; unfold demo_kend; lia|apply NoDup_seqZ].
  - apply Forall_forall. intros p. by apply demo_kpage.
Qed.

(** Page 0 is the directory, page 1 the memory, page 2 the table. *)
Definition demo_dir : Z := demo_kend.
Definition demo_frame : Z := demo_kend + 4096.
Definition demo_table : Z := demo_kend + 8192.
Definition demo_data : bytes := replicate 4096 42.
Definition demo_vm0 : vmem := mkVmem (kfrom (demo_pages 0 1200)) ∅.
Definition demo_vm1 : vmem := add_page demo_vm0 (kfrom (demo_pages 1 1199)) demo_dir zero_page.
Definition demo_vm2 : vmem := add_page demo_vm1 (kfrom (demo_pages 2 1198)) demo_frame demo_data.
Definition demo_vm3 : vmem :=
  VmTab.set_entry (add_page demo_vm2 (kfrom (demo_pages 3 1197)) demo_table zero_page) demo_dir 0 (dir_entry demo_table).
Definition demo_vm : vmem := VmTab.set_entry demo_vm3 demo_table 0 (entry (V2P demo_frame) 6).

Lemma demo_vm0_rep : vrep demo_kend demo_vm0 (demo_pages 0 1200).
Proof. split; [apply kfrom_rep; lia| |done]. intros p Hp. split; [by apply (demo_kpage 0 1200)|done]. Qed.

Lemma demo_vm_built :
  built demo_kend demo_vm0 (demo_pages 0 1200) demo_dir [] demo_vm (demo_pages 3 1197) /\
  ufr demo_vm demo_dir 0 = Some demo_frame /\ (forall n, upg n -> 1 <= n -> ufr demo_vm demo_dir n = None).
Proof.
  assert (Hcons : forall k, 0 <= k < 1200 ->
    demo_pages k (1200 - k) = (demo_kend + 4096 * k) :: demo_pages (k + 1) (1200 - (k + 1))).
  { intros k Hk. unfold demo_pages. rewrite (seqZ_cons k) by lia. cbn. f_equal. f_equal. f_equal; lia. }
  pose proof demo_vm0_rep as Hv0.
  destruct (built_dir demo_kend demo_vm0 (demo_pages 0 1200) (demo_pages 1 1199) (kfrom (demo_pages 1 1199)) demo_dir Hv0)
    as [Hb1 Hz1]; [exact (Hcons 0 ltac:(lia))|apply kfrom_rep; lia|].
  assert (Hx : pg_ok demo_data) by reflexivity.
  destruct (built_take demo_kend demo_vm0 (demo_pages 0 1200) demo_dir demo_vm1 demo_frame (demo_pages 2 1198)
    (kfrom (demo_pages 2 1198)) demo_data Hv0) as [Hb2 Hz2].
  { pose proof (Hcons 1 ltac:(lia)) as E. change (1200 - 1) with 1199 in E. change (1 + 1) with 2 in E.
    change (1200 - 2) with 1198 in E. change (demo_kend + 4096 * 1) with demo_frame in E. rewrite <- E. exact Hb1. }
  { apply kfrom_rep; lia. }
  { exact Hx. }
  fold demo_vm2 in Hb2, Hz2.
  assert (Hn2 : forall n, upg n -> ufr demo_vm2 demo_dir n = None).
  { intros n Hn. assert (pg n) by (unfold pg, upg in *; lia). unfold ufr. rewrite Hz2, Hz1 by assumption. reflexivity. }
  assert (Ht2 : tab demo_vm2 demo_dir 0 = None) by (vm_compute; reflexivity).
  assert (El : demo_pages 2 1198 = demo_table :: demo_pages 3 1197) by (exact (Hcons 2 ltac:(lia))).
  pose proof Hb2 as [B1 B2 _ _ _ _]. rewrite El in B1.
  destruct (maps_new_table demo_kend demo_dir demo_vm2 (demo_pages 3 1197) (kfrom (demo_pages 3 1197)) demo_table 0 B1)
    as [Hm3 Ht3]; [apply B2|lia|done|apply kfrom_rep; lia|]. fold demo_vm3 in Hm3, Ht3.
  assert (Hkf : kpage demo_kend demo_frame).
  { apply (demo_kpage 0 1200); [lia|lia|]. apply list_elem_of_fmap. exists 1. split; [reflexivity|]. apply elem_of_seqZ. lia. }
  destruct (P2V_V2P demo_kend demo_frame Hkf) as (_ & Hr & Hal). unfold PHYSTOP in Hr.
  destruct (entry_spec (V2P demo_frame) 6 ltac:(lia) Hal ltac:(lia)) as (He & _).
  pose proof (maps_entry demo_kend demo_dir demo_vm3 (demo_pages 3 1197) 0 demo_table _ (mp_rep _ _ _ _ _ _ _ Hm3)
    (mp_wf _ _ _ _ _ _ _ Hm3) ltac:(unfold pg; lia) Ht3 He) as Hm4.
  pose proof (maps_trans _ _ _ _ _ _ _ _ _ _ Hm3 Hm4) as Hm.
  change (0 mod 1024) with 0 in Hm. fold demo_vm in Hm.
  apply (maps_ext _ _ _ _ _ (range 0 1 (V2P demo_frame) 6)) in Hm.
  2: { intros n _. unfold only, range, no_change. generalize (V2P demo_frame). intros a.
       repeat case_decide; try lia; [subst; do 2 f_equal; lia|reflexivity]. }
  rewrite <- El in Hm.
  destruct (built_map_user demo_kend demo_vm0 (demo_pages 0 1200) demo_dir demo_frame demo_vm2 (demo_pages 2 1198) 0 6
    demo_vm (demo_pages 3 1197) Hv0 Hb2) as (Hb & _ & Hu & _ & _ & Hno); [unfold upg; lia|apply Hn2; unfold upg; lia|lia|exact Hm|].
  split; [exact Hb|]. split; [exact Hu|]. intros n Hn H1. rewrite (Hno n Hn ltac:(lia)). exact (Hn2 n Hn).
Qed.

Lemma copyuvm_correct_witness :
  exists d s', copyuvm demo_kend demo_kdata demo_dir 4096 demo_vm = Ok d s' /\ d <> 0 /\ aspace s' d /\
    umem s' d 7 = umem demo_vm demo_dir 7.
Proof.
  destruct demo_vm_built as (Hb & Hu & _).
  destruct (copyuvm_correct demo_kend demo_kdata demo_vm (demo_pages 3 1197) demo_dir 4096)
    as (d & s' & l' & E & _ & _ & [(_ & Hlen & _)|(Hd & Ha & _ & _ & Hmem)]).
  - reflexivity.
  - split; [split|]; reflexivity.
  - apply Hb.
  - apply Hb.
  - unfold KERNBASE. lia.
  - intros va Hva. rewrite (upage_ufr demo_kend demo_vm (demo_pages 3 1197)); [|apply Hb|apply Hb|lia].
    rewrite Z.div_small, Hu by lia. by eexists.
  - exfalso. revert Hlen. unfold demo_pages. rewrite length_map, length_seqZ. vm_compute. congruence.
  - exists d, s'. split; [exact E|]. split; [exact Hd|]. split; [exact Ha|]. exact (proj1 (Hmem 7 ltac:(lia))).
Defined.
