(* ===== verification/VmGrow.v ===== *)
(** vm.c [allocuvm] and [deallocuvm] on an address space among others, and the
    routines that write into one. *)
From S2P Require Import Prelude Layout Kalloc Vm VmTab VmSpace VmCopy.

Section vmgrow.
Context (kend : Z) (kend_high : KERNBASE < kend).

(** * An address space in use, seen as built from free pages *)

Definition owned_list (s : vmem) (d : Z) : list Z :=
  d :: omap (tab s d) (seqZ 0 1024) ++ omap (ufr s d) (seqZ 0 524288).

Lemma elem_owned_list s d p : p ∈ owned_list s d <-> owned s d p.
Proof.
  unfold owned_list, owned, istab, isframe, upg. rewrite elem_of_cons, elem_of_app, !list_elem_of_omap.
  setoid_rewrite elem_of_seqZ. split; (intros [?|[(i & ? & ?)|(i & ? & ?)]]; [by left|right; left|right; right]);
    exists i; split; (done || lia).
Qed.

Lemma NoDup_omap_inj {A B} (f : A -> option B) (l : list A) :
  NoDup l -> (forall a b c, a ∈ l -> b ∈ l -> f a = Some c -> f b = Some c -> a = b) -> NoDup (omap f l).
Proof.
  induction l as [|a l IH]; intros Hnd Hf; [constructor|]. apply NoDup_cons in Hnd as [Ha Hnd]. cbn.
  assert (IH' : NoDup (omap f l)) by (apply IH; [done|]; intros; eapply Hf; try done; by right).
  destruct (f a) as [c|] eqn:E; [|done]. apply NoDup_cons. split; [|done].
  rewrite list_elem_of_omap. intros (b & Hb & Eb). apply Ha. by rewrite (Hf a b c (list_elem_of_here _ _) (list_elem_of_further _ _ _ Hb) E Eb).
Qed.

Lemma NoDup_owned_list s d : aspace s d -> NoDup (owned_list s d).
Proof.
  intros [Hw Hf Hi]. unfold owned_list. apply NoDup_cons. split.
  - rewrite elem_of_app, !list_elem_of_omap. setoid_rewrite elem_of_seqZ. intros [(i & ? & E)|(n & ? & E)].
    + destruct (pt_tab _ _ Hw d) as [_ ?]; [exists i; split; [lia|done]|done].
    + destruct (Hf n d) as (_ & ? & _); [unfold upg; lia|done|done].
  - apply NoDup_app. split_and!.
    + apply NoDup_omap_inj; [apply NoDup_seqZ|]. intros a b c. rewrite !elem_of_seqZ. intros. eapply (pt_inj _ _ Hw); (done || lia).
    + intros p. rewrite !list_elem_of_omap. setoid_rewrite elem_of_seqZ. intros (i & ? & E) (n & ? & En).
      destruct (Hf n p) as (_ & _ & Ht); [unfold upg; lia|done|]. apply Ht. exists i. split; [lia|done].
    + apply NoDup_omap_inj; [apply NoDup_seqZ|]. intros a b c. rewrite !elem_of_seqZ.
      intros. eapply Hi; try done; unfold upg; lia.
Qed.

Lemma carve s l d :
  vrep kend s l -> aspace s d ->
  exists s0 l0, vrep kend s0 l0 /\ built kend s0 l0 d [] s l /\
    (forall p x, v_page s0 !! p = Some x <-> v_page s !! p = Some x /\ ~ owned s d p).
Proof.
  intros Hv Ha. pose proof Hv as [H1 H2 H3]. set (O := owned_list s d).
  assert (HO : forall p, p ∈ O <-> owned s d p) by (intros; apply elem_owned_list).
  set (m := filter (fun kv : Z * bytes => kv.1 ∉ O) (v_page s)).
  assert (Hm : forall p x, m !! p = Some x <-> v_page s !! p = Some x /\ ~ owned s d p).
  { intros p x. unfold m. rewrite map_lookup_filter_Some. cbn. by rewrite HO. }
  assert (Hk : forall p, p ∈ l ++ O -> kpage kend p).
  { intros p [Hp|Hp]%elem_of_app; [by apply H2|]. apply HO in Hp as [x Hx]%(owned_some _ _ _ Ha). by apply (H3 p x). }
  assert (Hnd : NoDup (l ++ O)).
  { apply NoDup_app. split_and!; [apply H1| |by apply NoDup_owned_list]. intros p Hp Ho.
    apply HO in Ho as [x Hx]%(owned_some _ _ _ Ha). destruct (H2 p Hp). congruence. }
  exists (mkVmem (kfrom (l ++ O)) m), (l ++ O). split_and!.
  - split; cbn [v_mem v_page].
    + apply klinks_rep; [done|]. by apply Forall_forall.
    + intros p Hp. split; [by apply Hk|]. destruct (m !! p) as [x|] eqn:E; [|done].
      apply Hm in E as [Ex Hno]. apply elem_of_app in Hp as [Hp|Hp%HO]; [|done]. destruct (H2 p Hp). congruence.
    + intros p x [Hx _]%Hm. by apply H3.
  - assert (Hnil : forall q, q ∉ ([] : list Z)) by apply not_elem_of_nil. split; [done|done|..]; cbn [v_page].
    + intros p x [Hx _]%Hm. done.
    + intros p. rewrite elem_of_app, HO. specialize (Hnil p). tauto.
    + intros p. specialize (Hnil p). split.
      * intros [x Hx]. destruct (owned_dec s d p); [tauto|]. left. exists x. by apply Hm.
      * intros [[x Hx]|[Ho|?]]; [apply Hm in Hx as [Hx _]; by exists x|by apply owned_some in Ho|done].
    + intros p Hp. by destruct (Hnil p).
  - done.
Qed.

(** * deallocuvm and allocuvm *)

(** The user pages of [s'] that are not mapped at [n] are those of [s]. *)
Definition same_user (d : Z) (n : Z -> Prop) (s s' : vmem) : Prop :=
  forall m, upg m -> ~ n m -> ufr s' d m = ufr s d m /\
    forall p, ufr s d m = Some p -> pten s' d m = pten s d m /\ v_page s' !! p = v_page s !! p.

(** The entries for the kernel are the same. *)
Definition same_kernel (d : Z) (s s' : vmem) : Prop := forall m, pg m -> ~ upg m -> pten s' d m = pten s d m.

Lemma built_unmaps s0 l0 d X s l lo hi s' l' :
  vrep kend s0 l0 -> built kend s0 l0 d X s l -> unmaps kend d s l lo hi s' l' -> 0 <= lo -> hi <= 524288 ->
  built kend s0 l0 d X s' l' /\ same_user d (fun n => lo <= n < hi) s s' /\ same_kernel d s s' /\
  (forall n, lo <= n < hi -> ufr s' d n = None).
Proof.
  intros Hv0 Hb Hu Hlo Hhi. pose proof Hb as [B1 B2 B3 B4 B5 B6]. pose proof Hu as [U1 U2 U3 U4 U5 U6 U7].
  pose proof B2 as [Hw Hf Hinj].
  assert (Ht : forall i, tab s' d i = tab s d i) by (intros; by eapply unmaps_tab).
  assert (Hi : forall p, istab s' d p <-> istab s d p) by (intros p; unfold istab; by setoid_rewrite Ht).
  assert (Hfr : forall n, upg n -> ufr s' d n = if decide (lo <= n < hi) then None else ufr s d n).
  { intros n Hn. unfold ufr. rewrite U4 by (unfold pg, upg in *; lia). case_decide; [|done].
    destruct (pte_has (pten s d n) PTE_P) eqn:E; [done|]. by rewrite E. }
  assert (Hgone : forall n p, lo <= n < hi -> ufr s d n = Some p -> isframe s d p /\ ~ isframe s' d p).
  { intros n p Hn E. assert (upg n) by (unfold upg; lia). split; [by exists n|]. intros (m & Hm & E').
    rewrite Hfr in E' by done. case_decide; [done|]. assert (n = m); [by eapply Hinj|subst; done]. }
  assert (Hisf : forall p, isframe s d p <-> isframe s' d p \/ exists n, lo <= n < hi /\ ufr s d n = Some p).
  { intros p. split.
    - intros (n & Hn & E). destruct (decide (lo <= n < hi)); [right; by exists n|]. left. exists n. split; [done|].
      rewrite Hfr by done. by rewrite decide_False.
    - intros [(n & Hn & E)|(n & Hn & E)].
      + exists n. split; [done|]. rewrite Hfr in E by done. by case_decide.
      + exists n. split; [unfold upg; lia|done]. }
  assert (Hother : forall p, ~ istab s d p -> (forall n, lo <= n < hi -> ufr s d n <> Some p) -> v_page s' !! p = v_page s !! p)
    by exact U7.
  assert (Hkept : forall n p, upg n -> ~ lo <= n < hi -> ufr s d n = Some p ->
    v_page s' !! p = v_page s !! p /\ pten s' d n = pten s d n).
  { intros n p Hn Hr E. destruct (Hf n p Hn E) as (_ & _ & Hnt). split.
    - apply U7; [done|]. intros m Hm E'. assert (n = m); [|lia]. eapply Hinj; try done. unfold upg; lia.
    - rewrite U4 by (unfold pg, upg in *; lia). by rewrite decide_False. }
  split_and!.
  2: { intros n Hn Hr. rewrite Hfr, decide_False by done. split; [done|]. intros p E. by destruct (Hkept n p Hn Hr E). }
  2: { intros n Hn Hnu. rewrite U4 by done. rewrite decide_False by (unfold upg in *; lia). done. }
  2: { intros n Hn. rewrite Hfr, decide_True by (done || (unfold upg; lia)). done. }
  split; [done|..].
  - split; [by eapply unmaps_ptwf|..].
    + intros n p Hn E. rewrite Hfr in E by done. case_decide; [done|]. destruct (Hf n p Hn E) as (Hs & Hd & Hnt).
      destruct (Hkept n p Hn ltac:(done) E) as [-> _]. by rewrite Hi.
    + intros n m p Hn Hm E1 E2. rewrite Hfr in E1, E2 by done. repeat case_decide; try done. by eapply Hinj.
  - intros p x Hx. destruct (built_fresh _ _ _ _ _ _ _ _ _ Hv0 Hb Hx) as (Ho & _ & _). rewrite Hother; [by apply B3|..].
    + intros Hist. apply Ho. right. by left.
    + intros n Hn E. apply Ho. right. right. exists n. split; [unfold upg; lia|done].
  - intros p. rewrite B4, U5. unfold owned. rewrite Hi, Hisf. tauto.
  - intros p. unfold owned. rewrite Hi. destruct (isframe_dec s' d p) as [Hfp|Hfp].
    + split; [tauto|]. intros _. destruct Hfp as (n & Hn & E). rewrite Hfr in E by done. case_decide; [done|].
      destruct (Hkept n p Hn ltac:(done) E) as [-> _]. by apply (Hf n).
    + destruct (decide (Exists (fun n => ufr s d n = Some p) (seqZ lo (hi - lo)))) as [(n & Hn & E)%Exists_exists|Hno].
      * apply elem_of_seqZ in Hn. rewrite (U6 n p) by (done || lia). split; [by intros []|].
        destruct (Hgone n p ltac:(lia) E) as [Hof _]. assert (Hown : owned s d p) by (right; by right).
        destruct (Hf n p ltac:(unfold upg; lia) E) as (_ & Hpd & Hpt).
        intros [[x Hx]|[[?|[?|?]]|Hx]]; try done; [by destruct (built_fresh _ _ _ _ _ _ _ _ _ Hv0 Hb Hx)|by apply B6 in Hx].
      * assert (Hno' : forall n, lo <= n < hi -> ufr s d n <> Some p).
        { intros n Hn E. apply Hno, Exists_exists. exists n. rewrite elem_of_seqZ. split; [lia|done]. }
        destruct (istab_dec s d p) as [Hist|Hist].
        -- split; [tauto|]. intros _. by apply U3.
        -- rewrite Hother by done. rewrite B5. unfold owned. rewrite Hisf.
           assert (~ exists n, lo <= n < hi /\ ufr s d n = Some p) by (intros (n & Hn & E); by apply (Hno' n)). tauto.
  - intros p Hp Ho. apply (B6 p Hp). unfold owned in *. rewrite Hi in Ho. rewrite Hisf. tauto.
Qed.

(** The user pages below [lo] are as they were, those up to [hi] are new and
    zero, and there are none above. *)
Record grown (d : Z) (s : vmem) (lo hi : Z) (s' : vmem) : Prop := {
  gr_old : forall n, upg n -> n < lo -> ufr s' d n = ufr s d n /\
    forall p, ufr s d n = Some p -> pten s' d n = pten s d n /\ v_page s' !! p = v_page s !! p;
  gr_new : forall n, lo <= n < hi -> exists p, ufr s' d n = Some p /\ v_page s' !! p = Some zero_page /\
    PTE_FLAGS (pten s' d n) = 7;
  gr_none : forall n, upg n -> hi <= n -> ufr s' d n = None;
  gr_kern : same_kernel d s s'
}.

Lemma grown_keep d s lo hi s' s2 :
  grown d s lo hi s' -> hi <= 524288 -> 0 <= lo -> same_user d (fun _ => False) s' s2 -> same_kernel d s' s2 ->
  grown d s lo hi s2.
Proof.
  intros [G1 G2 G3 G4] Hhi Hlo Hs Hke. split.
  - intros n Hn Hl. destruct (G1 n Hn Hl) as [E G], (Hs n Hn) as [E' G']; [tauto|]. split; [congruence|].
    intros p Ep. destruct (G p Ep) as [<- <-]. apply G'. congruence.
  - intros n Hn. destruct (G2 n Hn) as (p & E1 & E2 & E3), (Hs n) as [E' G']; [unfold upg; lia|tauto|].
    destruct (G' p E1) as [-> Ep]. exists p. split_and!; [congruence..|done].
  - intros n Hn Hh. destruct (Hs n Hn) as [-> _]; [tauto|]. by apply G3.
  - intros n Hn Hu. by rewrite Hke, G4.
Qed.

Lemma grown_snoc d s lo k s' s2 p :
  grown d s lo k s' -> k < 524288 -> 0 <= lo <= k -> same_user d (fun n => n = k) s' s2 -> same_kernel d s' s2 ->
  ufr s2 d k = Some p -> v_page s2 !! p = Some zero_page -> PTE_FLAGS (pten s2 d k) = 7 -> grown d s lo (k + 1) s2.
Proof.
  intros [G1 G2 G3 G4] Hhi Hlo Hs Hke H1 H2 H3. split.
  - intros n Hn Hl. destruct (G1 n Hn Hl) as [E G], (Hs n Hn) as [E' G']; [lia|]. split; [congruence|].
    intros q Ep. destruct (G q Ep) as [<- <-]. apply G'. congruence.
  - intros n Hn. destruct (decide (n = k)) as [->|Hne]; [by exists p|].
    destruct (G2 n ltac:(lia)) as (q & E1 & E2 & E3), (Hs n) as [E' G']; [unfold upg; lia|lia|].
    destruct (G' q E1) as [-> Ep]. exists q. split_and!; [congruence..|done].
  - intros n Hn Hh. destruct (Hs n Hn) as [-> _]; [lia|]. apply G3; [done|lia].
  - intros n Hn Hu. by rewrite Hke, G4.
Qed.

Lemma same_user_pages d s s' :
  aspace s d -> (forall p, owned s d p -> v_page s' !! p = v_page s !! p) ->
  same_user d (fun _ => False) s s' /\ same_kernel d s s'.
Proof.
  intros Ha Hs. destruct (same_space s s' d Ha Hs) as (_ & _ & Hp & _). split; [|intros n Hn _; by apply Hp]. intros n Hn _.
  assert (pg n) by (unfold pg, upg in *; lia). split; [unfold ufr; by rewrite Hp|]. intros p E. split; [by apply Hp|].
  apply Hs. right. right. by exists n.
Qed.

Lemma same_user_maps d s l c s' l' :
  maps kend d s l c s' l' -> aspace s' d -> same_user d (fun n => c n <> None) s s'.
Proof.
  intros Hm Ha n Hn Hc. assert (Ec : c n = None) by (destruct (c n); [exfalso; by apply Hc|done]).
  pose proof (maps_ufr _ _ _ _ _ _ _ _ Hm Hn Ec) as E. split; [done|]. intros p Ep. split.
  - rewrite (mp_pte _ _ _ _ _ _ _ Hm) by (unfold pg, upg in *; lia). by rewrite Ec.
  - rewrite <- E in Ep. destruct (as_frame _ _ Ha n p Hn Ep) as (_ & ? & ?). by apply (mp_other _ _ _ _ _ _ _ Hm).
Qed.

Lemma same_kernel_maps d s l c s' l' :
  maps kend d s l c s' l' -> (forall n, ~ upg n -> c n = None) -> same_kernel d s s'.
Proof. intros Hm Hc n Hn Hu. rewrite (mp_pte _ _ _ _ _ _ _ Hm) by done. by rewrite Hc. Qed.

Lemma grown_unmaps d s lo k s1 s2 hi :
  grown d s lo k s1 -> k <= hi ->
  same_user d (fun n => lo <= n < hi) s1 s2 -> same_kernel d s1 s2 ->
  (forall n, lo <= n < hi -> ufr s2 d n = None) -> grown d s lo lo s2.
Proof.
  intros [G1 G2 G3 G4] Hhi Hs Hke Hz. split.
  - intros n Hn Hl. destruct (G1 n Hn Hl) as [E G], (Hs n Hn) as [E' G']; [lia|]. split; [congruence|].
    intros p Ep. destruct (G p Ep) as [<- <-]. apply G'. congruence.
  - lia.
  - intros n Hn Hl. destruct (decide (n < hi)); [by apply Hz|]. destruct (Hs n Hn) as [-> _]; [lia|]. apply G3; [done|lia].
  - intros n Hn Hu. by rewrite Hke, G4.
Qed.

(** One round of [allocuvm] or [allocPage]: a zeroed page is mapped at page [k]. *)
Lemma wp_new_page {R} s0 l0 d s lo k s1 l1 (A B : M vmem R) (C : Z -> M vmem R) (Q : R -> vmem -> Prop) :
  vrep kend s0 l0 -> built kend s0 l0 d [] s1 l1 -> grown d s lo k s1 -> 0 <= lo <= k -> upg k ->
  (Z.of_nat (length l0) <= 1026 + k -> wp A s1 Q) ->
  (forall s2 l2, built kend s0 l0 d [] s2 l2 -> grown d s lo (k + 1) s2 -> wp B s2 Q) ->
  (forall mem s2, built kend s0 l0 d [mem] s2 [] -> grown d s lo k s2 -> Z.of_nat (length l0) <= 1026 + k ->
     wp (C mem) s2 Q) ->
  wp (let* mem := vm_alloc kalloc in
      if mem =? 0 then A
      else
        set_page mem zero_page ;;
        let* ok := mappages d (4096 * k) PGSIZE (V2P mem) (Z.lor PTE_W PTE_U) in
        if ok then B else C mem) s1 Q.
Proof.
  intros Hv0 Hb Hg Hlo Hk HA HB HC. pose proof Hb as [B1 B2 _ _ _ _]. pose proof Hg as [G1 G2 G3 G4].
  apply wp_bind. eapply wp_vm_kalloc; [exact B1|..].
  { intros ->. rewrite Z.eqb_refl. apply HA.
    pose proof (built_exhausted kend s0 l0 d [] s1 k Hv0 Hb ltac:(unfold upg in *; lia) G3) as Hlen. cbn in Hlen. lia. }
  intros mem l2 km -> Hmem Hpos Hkm. rewrite (proj2 (Z.eqb_neq _ _)) by lia. apply wp_bind, wp_modify. cbn [v_mem v_page].
  change (mkVmem km (<[mem:=zero_page]> (v_page s1))) with (add_page s1 km mem zero_page).
  destruct (built_take kend s0 l0 d s1 mem l2 km zero_page Hv0 Hb Hkm zero_page_ok) as [Hb1 Hpt1].
  assert (Hno : ~ owned s1 d mem).
  { intros [x Hx]%(owned_some _ _ _ B2). destruct (vr_free _ _ _ B1 mem ltac:(by left)). congruence. }
  assert (Hg1 : grown d s lo k (add_page s1 km mem zero_page)).
  { eapply grown_keep; [exact Hg|unfold upg in *; lia|lia|..]; apply same_user_pages; (try done);
    intros p Hp; cbn; apply lookup_insert_ne; by intros ->. }
  assert (Hmz : v_page (add_page s1 km mem zero_page) !! mem = Some zero_page) by (cbn; apply lookup_insert_eq).
  set (s2 := add_page s1 km mem zero_page) in *. pose proof (P2V_V2P _ _ Hmem) as (_ & Hvr & Hval). unfold PHYSTOP, upg in *.
  apply wp_bind. eapply (wp_mappages kend s2 l2 d _ _ _ _ k 1); [apply Hb1|apply Hb1|..]; try done; try lia.
  - rewrite PGROUNDDOWN_div, (Z.mul_comm 4096 k), Z.div_mul by lia. lia.
  - unfold PGSIZE. rewrite u32_small, PGROUNDDOWN_div by lia. f_equal. symmetry. apply Z.div_unique with 4095; lia.
  - intros n Hn. assert (n = k) as -> by lia. pose proof (gr_none _ _ _ _ _ Hg1 k Hk ltac:(lia)) as Hn0.
    unfold ufr in Hn0. by destruct (pte_has _ _).
  - intros s3 k' Hk' Hmp. assert (k' = 0) as -> by lia.
    assert (Hr0 : forall n, range k 0 (V2P mem) (Z.lor PTE_W PTE_U) n = None).
    { intros n. unfold range. by rewrite decide_False by lia. }
    assert (Hb3 : built kend s0 l0 d [mem] s3 []) by (eapply (built_maps kend s0 l0); [done|exact Hb1|exact Hmp|done]).
    assert (Hg3 : grown d s lo k s3) by (eapply grown_keep; [exact Hg1|lia|lia| |by eapply same_kernel_maps];
      intros n Hn _; apply (same_user_maps d s2 l2 _ s3 [] Hmp (bu_as _ _ _ _ _ _ _ Hb3) n Hn); intros Hx; by apply Hx).
    apply (HC mem s3); [done|done|].
    pose proof (built_exhausted kend s0 l0 d [mem] s3 k Hv0 Hb3 ltac:(lia) (gr_none _ _ _ _ _ Hg3)) as Hlen. cbn in Hlen. lia.
  - intros s3 l3 Hmp.
    destruct (built_map_user kend s0 l0 d mem s2 l2 k (Z.lor PTE_W PTE_U) s3 l3 Hv0 Hb1 Hk) as (Hb3 & Hmm & Hfk & Hfl & Hold & Hnew);
      [by apply Hg1; [done|]|done|exact Hmp|].
    apply (HB s3 l3); [done|]. eapply (grown_snoc d s lo k s2); [done|lia|lia| | |done|congruence|by rewrite Hfl].
    2: { eapply same_kernel_maps; [exact Hmp|]. intros n Hu. unfold range. rewrite decide_False; [done|].
         intros Hr. apply Hu. unfold upg. lia. }
    intros n Hn Hne. apply (same_user_maps d s2 l2 _ s3 l3 Hmp (bu_as _ _ _ _ _ _ _ Hb3) n Hn).
    intros Hx. apply Hx. unfold range. by rewrite decide_False by lia.
Qed.

Definition pages (sz : Z) : Z := (sz + 4095) / 4096.

Lemma pages_spec sz : 0 <= sz -> 0 <= pages sz /\ 4096 * (pages sz - 1) < sz <= 4096 * pages sz.
Proof.
  intros Hsz. unfold pages. pose proof (Z.div_mod (sz + 4095) 4096). pose proof (Z.mod_pos_bound (sz + 4095) 4096).
  split; [apply Z.div_pos|]; lia.
Qed.

(** The error path of [allocuvm] takes the new pages away again. *)
Lemma wp_dealloc_grown s0 l0 d X s lo k s1 l1 oldsz newsz (Q : Z -> vmem -> Prop) :
  vrep kend s0 l0 -> built kend s0 l0 d X s1 l1 -> grown d s lo k s1 -> lo = pages oldsz -> k <= pages newsz ->
  0 <= oldsz < newsz -> newsz <= KERNBASE ->
  (forall r s2 l2, built kend s0 l0 d X s2 l2 -> grown d s lo lo s2 -> Q r s2) ->
  wp (deallocuvm kend d newsz oldsz) s1 Q.
Proof.
  intros Hv0 Hb Hg -> Hk Hsz Hnew HQ. destruct (pages_spec oldsz ltac:(lia)) as [? _].
  eapply wp_deallocuvm; [exact kend_high|apply Hb|apply Hb|done|done|]. intros s2 l2 hi Hhi Hu _.
  destruct (built_unmaps _ _ _ _ _ _ _ _ _ _ Hv0 Hb Hu) as (Hb2 & Hs & Hke & Hz); [done|lia|].
  apply (HQ _ s2 l2); [done|]. eapply grown_unmaps; [exact Hg| |exact Hs|exact Hke|exact Hz]. unfold pages in Hk. lia.
Qed.

Lemma wp_allocuvm s0 l0 d s l oldsz newsz (Q : Z -> vmem -> Prop) :
  vrep kend s0 l0 -> built kend s0 l0 d [] s l -> 0 <= oldsz <= newsz -> newsz < KERNBASE ->
  (forall n, upg n -> pages oldsz <= n -> ufr s d n = None) ->
  (forall s' l', built kend s0 l0 d [] s' l' -> grown d s (pages oldsz) (pages oldsz) s' ->
     Z.of_nat (length l0) <= 1025 + pages newsz -> Q 0 s') ->
  (forall s' l', built kend s0 l0 d [] s' l' -> grown d s (pages oldsz) (pages newsz) s' -> Q newsz s') ->
  wp (allocuvm kend d oldsz newsz) s Q.
Proof.
  intros Hv0 Hb Hsz Hk Habs HF HT. unfold allocuvm, KERNBASE in *.
  rewrite (proj2 (Z.leb_gt _ _)), (proj2 (Z.ltb_ge _ _)), PGROUNDUP_div by lia. fold (pages oldsz).
  destruct (pages_spec oldsz ltac:(lia)) as [Ho Ho'], (pages_spec newsz ltac:(lia)) as [Hn Hn'].
  apply (wp_while_loop (fun fuel a s1 => exists k l1, a = 4096 * k /\ pages oldsz <= k /\
    (k <= pages newsz \/ k = pages oldsz) /\
    (1 <= fuel)%nat /\ (newsz - a) / 4096 + 2 <= Z.of_nat fuel /\
    built kend s0 l0 d [] s1 l1 /\ grown d s (pages oldsz) k s1)).
  - exists (pages oldsz), l. unfold PGSIZE. split_and!; try done; try lia. split; [done|lia|done|done].
  - intros a s1 (k & l1 & _ & _ & _ & ? & _). lia.
  - intros fuel a s1 (k & l1 & -> & Hlo & Hhi & Hf1 & Hf & Hb1 & Hg1). destruct (Z.leb_spec newsz (4096 * k)) as [Hd|Hd].
    + apply wp_ret. apply (HT s1 l1); [done|]. replace (pages newsz) with k by lia. done.
    + assert (upg k) by (unfold upg; lia).
      eapply (wp_new_page s0 l0 d s (pages oldsz) k s1 l1); try done; try lia.
      * intros Hlen. apply wp_bind. eapply wp_dealloc_grown; [done|exact Hb1|exact Hg1|done|lia|lia|unfold KERNBASE; lia|].
        intros r s2 l2 Hb2 Hg2. apply wp_ret. apply (HF s2 l2); [done|done|lia].
      * intros s2 l2 Hb2 Hg2. apply wp_ret. exists (k + 1), l2. unfold PGSIZE. rewrite u32_small by lia.
        assert ((newsz - (4096 * k + 4096)) / 4096 = (newsz - 4096 * k) / 4096 - 1).
        { replace (newsz - (4096 * k + 4096)) with (newsz - 4096 * k + (-1) * 4096) by lia. rewrite Z.div_add; lia. }
        assert (0 <= (newsz - 4096 * k) / 4096) by (apply Z.div_pos; lia).
        split_and!; try done; try lia.
      * intros mem s2 Hb2 Hg2 Hlen. apply wp_bind. eapply wp_dealloc_grown; [done|exact Hb2|exact Hg2|done|lia|lia|unfold KERNBASE; lia|].
        intros r s3 l3 Hb3 Hg3. apply wp_bind. eapply wp_untake; [done|exact Hb3|]. intros s4 l4 Hb4 E4.
        apply wp_ret. apply (HF s4 l4); [done| |lia]. eapply grown_keep; [exact Hg3|unfold upg in *; lia|lia|..];
          (apply same_user_pages; [apply Hb3|]); intros p Hp; rewrite E4; apply lookup_delete_ne; intros ->;
          by apply (bu_own _ _ _ _ _ _ _ Hb3 p ltac:(by left)).
Qed.

(** * trap.c [allocPage] *)

Lemma wp_allocPage s0 l0 d s l k va sz (Q : bool -> vmem -> Prop) :
  vrep kend s0 l0 -> built kend s0 l0 d [] s l -> PGROUNDDOWN va = 4096 * k -> 0 <= k < pages sz -> 0 <= sz <= KERNBASE ->
  (forall n, upg n -> k <= n -> ufr s d n = None) -> 1026 + pages sz < Z.of_nat (length l0) ->
  (forall s' l', built kend s0 l0 d [] s' l' -> grown d s k (pages sz) s' -> Q true s') ->
  wp (allocPage kend d va sz) s Q.
Proof.
  intros Hv0 Hb Ek Hk Hsz Habs Hlen HT. unfold allocPage, KERNBASE in *. rewrite Ek.
  destruct (pages_spec sz ltac:(lia)) as [Hn Hn'].
  apply (wp_while_loop (fun fuel a s1 => exists j l1, a = 4096 * j /\ k <= j <= pages sz /\
    (1 <= fuel)%nat /\ (sz - a) / 4096 + 2 <= Z.of_nat fuel /\
    built kend s0 l0 d [] s1 l1 /\ grown d s k j s1)).
  - exists k, l. unfold PGSIZE. split_and!; try done; try lia. split; [done|lia|done|done].
  - intros a s1 (j & l1 & _ & _ & ? & _). lia.
  - intros fuel a s1 (j & l1 & -> & Hj & Hf1 & Hf & Hb1 & Hg1). destruct (Z.ltb_spec (4096 * j) sz) as [Hd|Hd].
    + assert (upg j) by (unfold upg; lia).
      eapply (wp_new_page s0 l0 d s k j s1 l1); try done; try lia.
      intros s2 l2 Hb2 Hg2. apply wp_ret. exists (j + 1), l2. unfold PGSIZE. rewrite u32_small by lia.
      assert ((sz - (4096 * j + 4096)) / 4096 = (sz - 4096 * j) / 4096 - 1).
      { replace (sz - (4096 * j + 4096)) with (sz - 4096 * j + (-1) * 4096) by lia. rewrite Z.div_add; lia. }
      assert (0 <= (sz - 4096 * j) / 4096) by (apply Z.div_pos; lia).
      split_and!; try done; lia.
    + apply wp_ret. apply (HT s1 l1); [done|]. replace (pages sz) with j by lia. done.
Qed.

Lemma bind_panic {S A B} (m : M S A) (k : A -> M S B) s e : m s = Panic e -> bind m k s = Panic e.
Proof. unfold bind. by intros ->. Qed.

(** The part of a round before [mappages]: a zeroed page is taken. *)
Lemma take_page {R} s0 l0 d s1 l1 hi (A : M vmem R) (F : Z -> M vmem R) (P : outcome vmem R -> Prop) :
  vrep kend s0 l0 -> built kend s0 l0 d [] s1 l1 -> 0 <= hi -> (forall n, upg n -> hi <= n -> ufr s1 d n = None) ->
  1026 + hi < Z.of_nat (length l0) ->
  (forall mem s2 l2, kpage kend mem -> built kend s0 l0 d [mem] s2 l2 -> (forall n, pg n -> pten s2 d n = pten s1 d n) ->
     P (F mem s2)) ->
  P ((let* mem := vm_alloc kalloc in if mem =? 0 then A else set_page mem zero_page ;; F mem) s1).
Proof.
  intros Hv0 Hb Hhi Hno Hlen HF. edestruct (wp_inv (vm_alloc kalloc) s1
    (fun mem s => P ((if mem =? 0 then A else set_page mem zero_page ;; F mem) s))) as (mem & s & E & HP).
  2: { unfold bind at 1. by rewrite E. }
  eapply wp_vm_kalloc; [apply Hb|..].
  { intros ->. pose proof (built_exhausted kend s0 l0 d [] s1 hi Hv0 Hb Hhi Hno) as Hx. cbn in Hx. lia. }
  intros mem l2 km -> Hmem Hpos Hkm. rewrite (proj2 (Z.eqb_neq _ _)) by lia.
  destruct (built_take kend s0 l0 d s1 mem l2 km zero_page Hv0 Hb Hkm zero_page_ok) as [Hb1 Hpt].
  exact (HF mem _ l2 Hmem Hb1 Hpt).
Qed.

(** A page that is mapped already. *)
Lemma mappages_remap s l d k pa perm :
  vrep kend s l -> ptwf s d -> upg k -> pte_has (pten s d k) PTE_P = true ->
  mappages d (4096 * k) PGSIZE pa perm s = Panic "remap".
Proof.
  intros Hv Hw Hk Hp. unfold upg in Hk. unfold mappages. rewrite Nat.add_comm. cbn [while_loop Nat.add].
  assert (Ek : PGROUNDDOWN (4096 * k) / 4096 = k) by (rewrite PGROUNDDOWN_div, !(Z.mul_comm 4096), !Z.div_mul by lia; lia).
  unfold bind at 1. cbv beta iota.
  match goal with |- match ?m with _ => _ end = _ => assert (m = Panic "remap") as ->; [|done] end.
  apply wp_bind_eq. eapply wp_walk_alloc; [exact Hv|exact Hw|..]; rewrite ?Ek.
  - rewrite PGROUNDDOWN_div, (Z.mul_comm 4096 k), Z.div_mul by lia. lia.
  - intros _ Ht. unfold pten in Hp. by rewrite Ht in Hp.
  - intros s' l' t Hm Ht. apply wp_bind_eq.
    destruct (pg_div k ltac:(unfold pg; lia)) as [Hi _].
    eapply wp_get_pte; [apply Hm|apply (pt_tab _ _ (mp_wf _ _ _ _ _ _ _ Hm)); by exists (k / 1024)|].
    pose proof (mp_pte _ _ _ _ _ _ _ Hm k ltac:(unfold pg; lia)) as E. unfold pten at 1 in E. rewrite Ht in E.
    cbn in E. by rewrite E, Hp.
Qed.

(** One round on a page that is not present. *)
Lemma wp_absent_page {R} s0 l0 d s1 l1 hi k (A B : M vmem R) (C : Z -> M vmem R) (Q : R -> vmem -> Prop) :
  vrep kend s0 l0 -> built kend s0 l0 d [] s1 l1 -> upg k -> k < hi -> ufr s1 d k = None ->
  (forall n, upg n -> hi <= n -> ufr s1 d n = None) -> 1026 + hi < Z.of_nat (length l0) ->
  (forall s2 l2, built kend s0 l0 d [] s2 l2 -> (forall n, upg n -> n <> k -> ufr s2 d n = ufr s1 d n) -> wp B s2 Q) ->
  wp (let* mem := vm_alloc kalloc in
   if mem =? 0 then A
   else
     set_page mem zero_page ;;
     let* ok := mappages d (4096 * k) PGSIZE (V2P mem) (Z.lor PTE_W PTE_U) in
     if ok then B else C mem) s1 Q.
Proof.
  intros Hv0 Hb Hk Hkhi Hnk Hno Hlen HB. unfold upg in Hk.
  apply (take_page s0 l0 d s1 l1 hi A
    (fun mem => let* ok := mappages d (4096 * k) PGSIZE (V2P mem) (Z.lor PTE_W PTE_U) in if ok then B else C mem)
    (fun o => wp (fun _ => o) s1 Q)); [done|done|lia|done|done|].
  intros mem s2 l2 Hmem Hb2 Hpt. pose proof (P2V_V2P _ _ Hmem) as (_ & Hvr & Hval). unfold PHYSTOP in Hvr.
  assert (Hfr : forall n, upg n -> ufr s2 d n = ufr s1 d n).
  { intros n Hn. unfold ufr. by rewrite Hpt by (unfold pg, upg in *; lia). }
  change (wp (let* ok := mappages d (4096 * k) PGSIZE (V2P mem) (Z.lor PTE_W PTE_U) in if ok then B else C mem) s2 Q).
  apply wp_bind. eapply (wp_mappages kend s2 l2 d _ _ _ _ k 1); [apply Hb2|apply Hb2|..]; try done; try lia.
  - rewrite PGROUNDDOWN_div, (Z.mul_comm 4096 k), Z.div_mul by lia. lia.
  - unfold PGSIZE. rewrite u32_small, PGROUNDDOWN_div by lia. f_equal. symmetry. apply Z.div_unique with 4095; lia.
  - intros n Hn. assert (n = k) as -> by lia. rewrite <- Hfr in Hnk by done. unfold ufr in Hnk. by destruct (pte_has _ _).
  - intros s3 k' Hk' Hmp. assert (k' = 0) as -> by lia. exfalso.
    assert (Hr0 : forall n, upg n -> range k 0 (V2P mem) (Z.lor PTE_W PTE_U) n = None).
    { intros n _. unfold range. by rewrite decide_False by lia. }
    assert (Hb3 : built kend s0 l0 d [mem] s3 []) by (eapply (built_maps kend s0 l0); [done|exact Hb2|exact Hmp|done]).
    pose proof (built_exhausted kend s0 l0 d [mem] s3 hi Hv0 Hb3 ltac:(lia)) as Hx. cbn in Hx.
    enough (Z.of_nat (length l0) <= 1025 + hi + 1) by lia. apply Hx. intros n Hn Hh.
    rewrite (maps_ufr _ _ _ _ _ _ _ n Hmp) by auto. rewrite Hfr by done. by apply Hno.
  - intros s3 l3 Hmp.
    destruct (built_map_user kend s0 l0 d mem s2 l2 k (Z.lor PTE_W PTE_U) s3 l3 Hv0 Hb2 Hk) as (Hb3 & _ & _ & _ & _ & Hnew);
      [by rewrite Hfr|done|exact Hmp|].
    apply (HB s3 l3); [done|]. intros n Hn Hne. by rewrite Hnew, Hfr.
Qed.

(** The fault is below a page that is present. *)
Lemma allocPage_remap s0 l0 d s l k q va sz :
  vrep kend s0 l0 -> built kend s0 l0 d [] s l -> PGROUNDDOWN va = 4096 * k -> 0 <= k <= q -> q < pages sz ->
  0 <= sz <= KERNBASE -> is_Some (ufr s d q) ->
  (forall n, upg n -> pages sz <= n -> ufr s d n = None) -> 1026 + pages sz < Z.of_nat (length l0) ->
  allocPage kend d va sz s = Panic "remap".
Proof.
  intros Hv0 Hb Ek Hk Hq Hsz Hqp Hno Hlen. unfold allocPage, KERNBASE in *. rewrite Ek.
  destruct (pages_spec sz ltac:(lia)) as [Hn Hn'].
  match goal with |- while_loop ?f _ _ _ = _ => assert (Hf : q - k < Z.of_nat f) end.
  { unfold PGSIZE. assert (q - k <= (sz - 4096 * k) / 4096) by (apply Z.div_le_lower_bound; lia). lia. }
  revert Hf. generalize (Z.to_nat ((sz - 4096 * k) / PGSIZE) + 2)%nat as fuel. clear Ek.
  intros fuel. revert k s l Hb Hk Hqp Hno. induction fuel as [|fuel IH]; intros k s l Hb Hk Hqp Hno Hf; [lia|].
  assert (Huk : upg k) by (unfold upg; lia). cbn [while_loop].
  rewrite (proj2 (Z.ltb_lt (4096 * k) sz)) by lia. destruct (ufr s d k) as [p|] eqn:Ep.
  - apply bind_panic. eapply (take_page s0 l0 d s l (pages sz) _ _ (fun o => o = Panic "remap")); [done|exact Hb|lia|done|done|].
    intros mem s2 l2 _ Hb2 Hpt. apply bind_panic. eapply mappages_remap; [apply Hb2|apply Hb2|done|].
    rewrite Hpt by (unfold pg, upg in *; lia). unfold ufr in Ep. by destruct (pte_has _ _).
  - assert (k <> q) by (intros ->; rewrite Ep in Hqp; by destruct Hqp).
    apply wp_bind_eq. eapply (wp_absent_page s0 l0 d s l (pages sz) k); [done|exact Hb|done|lia|done|done|done|].
    intros s2 l2 Hb2 Hsame. apply wp_ret. unfold PGSIZE. rewrite u32_small by lia.
    replace (4096 * k + 4096) with (4096 * (k + 1)) by lia. apply (IH (k + 1) s2 l2); [done|lia| | |lia].
    + by rewrite Hsame by (unfold upg in *; lia).
    + intros n Hu Hh. rewrite Hsame; [by apply Hno|done|lia].
Qed.

(** What a user program sees of a grown address space. *)
Lemma grown_below s l s' l' d lo hi va :
  vrep kend s l -> ptwf s d -> vrep kend s' l' -> ptwf s' d -> grown d s lo hi s' -> lo <= 524288 ->
  0 <= va < 4096 * lo -> upage s' d va = upage s d va /\ umem s' d va = umem s d va.
Proof.
  intros Hv Hw Hv' Hw' Hg Hlo Hva. assert (Hn : 0 <= va / 4096 < lo).
  { split; [apply Z.div_pos; lia|apply Z.div_lt_upper_bound; lia]. }
  destruct (gr_old _ _ _ _ _ Hg (va / 4096) ltac:(unfold upg; lia) ltac:(lia)) as [E G].
  assert (Eu : upage s' d va = upage s d va).
  { rewrite (upage_ufr kend s l), (upage_ufr kend s' l'), E by (done || lia).
    destruct (ufr s d (va / 4096)) as [p|] eqn:Ep; [|done]. by destruct (G p eq_refl) as [-> _]. }
  split; [done|]. unfold umem. rewrite Eu, (upage_ufr kend s l) by (done || lia).
  destruct (ufr s d (va / 4096)) as [p|] eqn:Ep; [|done]. by destruct (G p eq_refl) as [_ ->].
Qed.

Lemma grown_mid s l d s0 lo hi va :
  vrep kend s l -> ptwf s d -> grown d s0 lo hi s -> 0 <= lo -> hi <= 524288 -> 4096 * lo <= va < 4096 * hi ->
  umem s d va = 0 /\ exists e p, upage s d va = Some (e, p) /\ PTE_FLAGS e = Z.lor (Z.lor PTE_P PTE_W) PTE_U.
Proof.
  intros Hv Hw Hg Hlo Hhi Hva. assert (Hn : lo <= va / 4096 < hi).
  { split; [apply Z.div_le_lower_bound; lia|apply Z.div_lt_upper_bound; lia]. }
  destruct (gr_new _ _ _ _ _ Hg _ Hn) as (p & E1 & E2 & E3).
  assert (Eu : upage s d va = Some (pten s d (va / 4096), p)) by (rewrite (upage_ufr kend s l), E1 by (done || lia); done).
  split; [|by exists (pten s d (va / 4096)), p]. unfold umem. rewrite Eu, E2. unfold zero_page, PGSIZE.
  unfold nth0. by rewrite nth_lookup, lookup_replicate_2 by (pose proof (Z.mod_pos_bound va 4096); lia).
Qed.

Lemma grown_above s l d s0 lo hi va :
  vrep kend s l -> ptwf s d -> grown d s0 lo hi s -> 0 <= hi -> 4096 * hi <= va < 2147483648 -> upage s d va = None.
Proof.
  intros Hv Hw Hg Hhi Hva. rewrite (upage_ufr kend s l) by (done || lia).
  rewrite (gr_none _ _ _ _ _ Hg); [done| |apply Z.div_le_lower_bound; lia].
  unfold upg. split; [apply Z.div_pos; lia|apply Z.div_lt_upper_bound; lia].
Qed.
End vmgrow.

(** C15: [allocuvm] grows an address space from [oldsz] to [newsz] bytes, with no
    page mapped above [oldsz].  It returns; the bytes and protections below
    [oldsz] are as they were, and so is every page of other address spaces; the
    pages of this one come from the free list.  Either it returns [newsz] and
    the new pages are mapped, writable for the user and zero; or it
    returns 0 because pages ran out, and no page above [oldsz] is mapped: those
    it had added are back on the free list. *)
Theorem allocuvm_correct kend s l d oldsz newsz :
  KERNBASE < kend -> vrep kend s l -> aspace s d -> 0 <= oldsz <= newsz -> newsz < KERNBASE ->
  (forall va, PGROUNDUP oldsz <= va < KERNBASE -> upage s d va = None) ->
  exists r s' l', allocuvm kend d oldsz newsz s = Ok r s' /\ vrep kend s' l' /\ aspace s' d /\
    (forall p x, v_page s !! p = Some x -> ~ owned s d p -> v_page s' !! p = Some x /\ ~ owned s' d p) /\
    (forall p, p ∈ l \/ owned s d p <-> p ∈ l' \/ owned s' d p) /\
    (forall va, 0 <= va < PGROUNDUP oldsz -> upage s' d va = upage s d va /\ umem s' d va = umem s d va) /\
    ((r = newsz /\ (forall va, PGROUNDUP oldsz <= va < PGROUNDUP newsz ->
        umem s' d va = 0 /\ exists e p, upage s' d va = Some (e, p) /\ PTE_FLAGS e = Z.lor (Z.lor PTE_P PTE_W) PTE_U) /\
        (forall va, PGROUNDUP newsz <= va < KERNBASE -> upage s' d va = None)) \/
     (r = 0 /\ Z.of_nat (length l) <= 1025 + (newsz + 4095) / 4096 /\
        forall va, PGROUNDUP oldsz <= va < KERNBASE -> upage s' d va = None)).
Proof.
  intros Hk Hv Ha Hsz Hnew Habs. destruct (carve kend s l d Hv Ha) as (s0 & l0 & Hv0 & Hb & Hs0).
  unfold KERNBASE in *. rewrite PGROUNDUP_div in * by lia. fold (pages oldsz) (pages newsz) in *. rewrite PGROUNDUP_div by lia. fold (pages newsz).
  assert (Hll : (length l <= length l0)%nat).
  { apply submseteq_length, NoDup_submseteq; [apply (vr_mem _ _ _ Hv)|]. intros p Hp. apply (bu_free _ _ _ _ _ _ _ Hb). by left. }
  assert (Habs' : forall n, upg n -> pages oldsz <= n -> ufr s d n = None).
  { intros n Hn Hlo. unfold upg in Hn. specialize (Habs (4096 * n) ltac:(lia)).
    rewrite (upage_ufr kend s l), (Z.mul_comm 4096 n), Z.div_mul in Habs by (done || apply Ha || lia). by destruct (ufr s d n). }
  assert (Hw : wp (allocuvm kend d oldsz newsz) s (fun r s' => exists l', built kend s0 l0 d [] s' l' /\
    (r = 0 /\ grown d s (pages oldsz) (pages oldsz) s' /\ Z.of_nat (length l) <= 1025 + pages newsz \/
     r = newsz /\ grown d s (pages oldsz) (pages newsz) s'))).
  { eapply wp_allocuvm; [done|exact Hv0|exact Hb|done|done|done|..].
    - intros s' l' H1 H2 H3. exists l'. split; [done|]. left. split_and!; [done|done|lia].
    - intros s' l' H1 H2. exists l'. split; [done|]. by right. }
  apply wp_inv in Hw as (r & s' & E & l' & Hb' & Hg). pose proof Hb' as [B1 B2 B3 B4 B5 B6].
  destruct (pages_spec oldsz ltac:(lia)) as [Ho ?], (pages_spec newsz ltac:(lia)) as [Hn ?].
  assert (Hfin : exists hi, grown d s (pages oldsz) hi s') by (destruct Hg as [(_ & ? & _)|[_ ?]]; by eexists).
  assert (Hnil : forall q, q ∉ ([] : list Z)) by apply not_elem_of_nil.
  exists r, s', l'. split_and!; [done|done|done| | | |].
  - intros p x Hx Hno. assert (Hx0 : v_page s0 !! p = Some x) by (by apply Hs0).
    destruct (built_fresh _ _ _ _ _ _ _ _ _ Hv0 Hb' Hx0) as (? & _). by split; [apply B3|].
  - intros p. pose proof (bu_free _ _ _ _ _ _ _ Hb p) as E1. pose proof (B4 p) as E2. specialize (Hnil p). tauto.
  - intros va Hva. destruct Hfin as [hi Hh]. eapply (grown_below kend s l s' l'); [exact Hv|apply Ha|exact B1|apply B2|exact Hh|lia|done].
  - destruct Hg as [(-> & Hg & Hlen)|(-> & Hg)]; [right|left]; split_and!; try done.
    + intros va Hva. eapply (grown_above kend s' l'); [exact B1|apply B2|exact Hg|lia|done].
    + intros va Hva. eapply (grown_mid kend s' l'); [exact B1|apply B2|exact Hg|lia|lia|done].
    + intros va Hva. eapply (grown_above kend s' l'); [exact B1|apply B2|exact Hg|lia|done].
Qed.

Lemma allocuvm_correct_witness :
  exists s', allocuvm demo_kend demo_dir 4096 5000 demo_vm = Ok 5000 s' /\
    umem s' demo_dir 7 = umem demo_vm demo_dir 7 /\ umem s' demo_dir 5000 = 0 /\ is_Some (upage s' demo_dir 5000).
Proof.
  destruct demo_vm_built as (Hb & Hu & Hno).
  destruct (allocuvm_correct demo_kend demo_vm (demo_pages 3 1197) demo_dir 4096 5000)
    as (r & s' & l' & E & _ & _ & _ & _ & Hlow & [(-> & Hmid & _)|(_ & Hlen & _)]).
  - reflexivity.
  - apply Hb.
  - apply Hb.
  - lia.
  - unfold KERNBASE. lia.
  - change (PGROUNDUP 4096) with 4096. unfold KERNBASE. intros va Hva.
    rewrite (upage_ufr demo_kend demo_vm (demo_pages 3 1197)); [|apply Hb|apply Hb|lia].
    rewrite Hno; [done|unfold upg; split; [apply Z.div_pos; lia|apply Z.div_lt_upper_bound; lia]|apply Z.div_le_lower_bound; lia].
  - exists s'. split; [exact E|]. split; [apply (Hlow 7); vm_compute; split; congruence|].
    destruct (Hmid 5000) as (Hz & e & p & He & _); [vm_compute; split; congruence|].
    split; [exact Hz|]. rewrite He. by eexists.
  - exfalso. revert Hlen. unfold demo_pages. rewrite length_map, length_seqZ. vm_compute. congruence.
Defined.
