(* ===== verification/VmWrite.v ===== *)
(** Writes of the kernel into an address space: vm.c [copyout] and [clearpteu]. *)
From S2P Require Import Prelude Layout Kalloc Vm VmTab VmSpace VmCopy VmGrow.

Section vmwrite.
Context (kend : Z) (kend_high : KERNBASE < kend).

Definition write_page (s : vmem) (p : Z) (x : bytes) : vmem := mkVmem (v_mem s) (<[p := x]> (v_page s)).

Lemma built_write s0 l0 d X s l p x :
  vrep kend s0 l0 -> built kend s0 l0 d X s l -> isframe s d p -> length x = 4096%nat ->
  built kend s0 l0 d X (write_page s p x) l /\ (forall n, pg n -> pten (write_page s p x) d n = pten s d n).
Proof.
  intros Hv0 Hb Hp Hx. pose proof Hb as [B1 B2 B3 B4 B5 B6]. pose proof B2 as [Hw Hf Hinj]. set (s' := write_page s p x).
  pose proof Hp as (np & Hnp & Ep). destruct (Hf np p Hnp Ep) as ([y Hy] & Hpd & Hpt).
  assert (Hoth : forall q, q <> p -> v_page s' !! q = v_page s !! q) by (intros; cbn; by rewrite lookup_insert_ne).
  assert (Hsome : forall q, is_Some (v_page s' !! q) <-> is_Some (v_page s !! q)).
  { intros q. destruct (decide (q = p)) as [->|]; [|by rewrite Hoth]. cbn. rewrite lookup_insert_eq, Hy. split; by eexists. }
  assert (Ht : forall i, tab s' d i = tab s d i) by (intros i; unfold tab, pde; by rewrite Hoth by done).
  assert (Hi : forall q, istab s' d q <-> istab s d q) by (intros q; unfold istab; by setoid_rewrite Ht).
  assert (Hpn : forall n, pg n -> pten s' d n = pten s d n).
  { intros n Hn. unfold pten. rewrite Ht. destruct (tab s d (n / 1024)) as [t|] eqn:Et; [|done].
    unfold pde. rewrite Hoth; [done|]. intros ->. apply Hpt. exists (n / 1024). split; [by apply pg_div|done]. }
  assert (Hu : forall n, upg n -> ufr s' d n = ufr s d n).
  { intros n Hn. unfold ufr. rewrite Hpn; [done|]. unfold pg, upg in *. lia. }
  assert (Hfr : forall q, isframe s' d q <-> isframe s d q).
  { intros q. split; intros (n & Hn & E); exists n; (split; [done|]); [rewrite <- Hu|rewrite Hu]; done. }
  split; [|done]. split.
  - destruct B1 as [H1 H2 H3]. split; [done|..].
    + intros q Hq. destruct (H2 q Hq) as [? Hn]. split; [done|]. rewrite Hoth; [done|]. intros ->. congruence.
    + intros q z. destruct (decide (q = p)) as [->|]; [|rewrite Hoth by done; apply H3].
      cbn. rewrite lookup_insert_eq. intros [= <-]. split; [by apply (H3 p y)|done].
  - split; [split|..].
    + rewrite Hsome. apply Hw.
    + intros q Hq%Hi. rewrite Hsome. by apply (pt_tab _ _ Hw).
    + intros i j q. rewrite !Ht. apply Hw.
    + intros n q Hn. rewrite Hu, Hsome, Hi by done. by apply Hf.
    + intros n m q Hn Hm. rewrite !Hu by done. by apply Hinj.
  - intros q z Hz. rewrite Hoth; [by apply B3|]. intros ->.
    destruct (built_fresh _ _ _ _ _ _ _ _ _ Hv0 Hb Hz) as (Ho & _). apply Ho. right. by right.
  - intros q. unfold owned. rewrite B4, Hi, Hfr. done.
  - intros q. unfold owned. rewrite Hsome, B5, Hi, Hfr. done.
  - intros q Hq. unfold owned. rewrite Hi, Hfr. by apply B6.
Qed.

(** The user bytes after a write. *)
Lemma umem_write s l d n p x va :
  vrep kend s l -> aspace s d -> upg n -> ufr s d n = Some p -> vrep kend (write_page s p x) l ->
  ptwf (write_page s p x) d -> (forall n, pg n -> pten (write_page s p x) d n = pten s d n) -> 0 <= va < KERNBASE ->
  umem (write_page s p x) d va = if decide (va / 4096 = n) then nth0 x (Z.to_nat (va mod 4096)) else umem s d va.
Proof.
  intros Hv Ha Hn Ep Hv' Hw' Hpn Hva. unfold KERNBASE in Hva. assert (Hvn : upg (va / 4096)).
  { unfold upg. split; [apply Z.div_pos; lia|apply Z.div_lt_upper_bound; lia]. }
  unfold umem. rewrite (upage_ufr kend (write_page s p x) l), (upage_ufr kend s l) by (done || apply Ha || lia).
  unfold ufr at 1. rewrite Hpn by (unfold pg, upg in *; lia). fold (ufr s d (va / 4096)).
  case_decide as E.
  - rewrite E, Ep. cbn. rewrite lookup_insert_eq. done.
  - destruct (ufr s d (va / 4096)) as [q|] eqn:Eq; [|done]. cbn. rewrite lookup_insert_ne; [done|]. intros ->.
    apply E. by eapply (as_inj _ _ Ha).
Qed.

Lemma wp_post {S A} (m : M S A) s (Q : A -> S -> Prop) : wp m s Q -> post m s Q.
Proof. intros (a & s' & E & HQ)%wp_inv b s2 E2. rewrite E in E2. by injection E2 as <- <-. Qed.

(** [uva2ka] finds user pages only, when the kernel's entries are not the user's. *)
Definition user_only (s : vmem) (d : Z) : Prop := forall n, pg n -> ~ upg n -> pte_has (pten s d n) PTE_U = false.

Lemma post_uva2ka s l d va (Q : Z -> vmem -> Prop) :
  vrep kend s l -> ptwf s d -> user_only s d -> 0 <= va < 2 ^ 32 -> Q 0 s ->
  (forall p, upg (va / 4096) -> ufr s d (va / 4096) = Some p -> Q p s) -> post (uva2ka d va) s Q.
Proof.
  intros Hv Hw Hu Hva H0 HT. unfold uva2ka. apply post_bind, wp_post. eapply wp_walkpgdir; [exact Hv|done|done|].
  destruct (tab s d (va / 4096 / 1024)) as [t|] eqn:Et; [|apply post_bind, post_fault].
  apply post_bind, post_ret. cbn [fst snd]. pose proof (va_pg va Hva) as Hpg.
  destruct (pg_div _ Hpg) as [Hi _]. apply post_bind, wp_post.
  eapply wp_get_pte; [exact Hv|by apply (pt_tab _ _ Hw); exists (va / 4096 / 1024)|].
  assert (E : pde s t ((va / 4096) mod 1024) = pten s d (va / 4096)) by (unfold pten; by rewrite Et). rewrite E.
  destruct (pte_has (pten s d (va / 4096)) PTE_P) eqn:EP; cbn [negb]; [|by apply post_ret].
  destruct (pte_has (pten s d (va / 4096)) PTE_U) eqn:EU; cbn [negb]; [|by apply post_ret].
  apply post_ret, HT; [|unfold ufr; by rewrite EP].
  unfold pg, upg in *. destruct (decide (va / 4096 < 524288)) as [|Hge]; [lia|].
  rewrite (Hu (va / 4096)) in EU by (unfold pg, upg; lia). done.
Qed.

(** The bytes [buf] are at [va], and the others are as they were. *)
Definition stored (d va : Z) (buf : bytes) (s s' : vmem) : Prop := forall a, 0 <= a < KERNBASE ->
  umem s' d a = if decide (va <= a < va + Z.of_nat (length buf)) then nth0 buf (Z.to_nat (a - va)) else umem s d a.

Lemma stored_app d va pre w s s1 s2 :
  stored d va pre s s1 -> stored d (va + Z.of_nat (length pre)) w s1 s2 -> stored d va (pre ++ w) s s2.
Proof.
  intros H1 H2 a Ha. rewrite (H2 a Ha), (H1 a Ha), length_app. repeat case_decide; try lia; try done.
  - rewrite !nth0_lookup, lookup_app_r by lia. do 2 f_equal. lia.
  - rewrite !nth0_lookup, lookup_app_l by lia. done.
Qed.

Lemma stored_page s l d v p x w :
  vrep kend s l -> aspace s d -> 0 <= v < 2 ^ 32 -> upg (v / 4096) -> ufr s d (v / 4096) = Some p -> v_page s !! p = Some x ->
  length x = 4096%nat -> v mod 4096 + Z.of_nat (length w) <= 4096 ->
  let s' := write_page s p (splice x (Z.to_nat (v mod 4096)) w) in
  vrep kend s' l -> ptwf s' d -> (forall n, pg n -> pten s' d n = pten s d n) -> stored d v w s s'.
Proof.
  intros Hv Ha Hvr Hup Ep Hx Hl Hw s' Hv' Hw' Hp a Har. unfold s' in *.
  rewrite (umem_write s l d (v / 4096) p) by done.
  assert (Hm : v = 4096 * (v / 4096) + v mod 4096 /\ 0 <= v mod 4096 < 4096).
  { pose proof (Z.div_mod v 4096). pose proof (Z.mod_pos_bound v 4096). lia. }
  assert (Hma : a = 4096 * (a / 4096) + a mod 4096 /\ 0 <= a mod 4096 < 4096).
  { pose proof (Z.div_mod a 4096). pose proof (Z.mod_pos_bound a 4096). lia. }
  case_decide as E.
  - rewrite nth0_splice by lia. unfold umem, KERNBASE in *. rewrite (upage_ufr kend s l), E, Ep, Hx by (done || apply Ha || lia).
    repeat case_decide; try lia; [|done]. f_equal. lia.
  - rewrite decide_False; [done|]. intros ?. apply E. symmetry. apply Z.div_unique with (v mod 4096 + (a - v)); lia.
Qed.

Lemma post_copyout s0 l0 d s l va buf :
  vrep kend s0 l0 -> built kend s0 l0 d [] s l -> user_only s d -> 0 <= va < 2 ^ 32 ->
  post (copyout d va buf) s (fun r s' => exists l', built kend s0 l0 d [] s' l' /\
    (forall n, pg n -> pten s' d n = pten s d n) /\
    (r = -1 \/ r = 0 /\ stored d va buf s s' /\ (buf = [] \/ va + Z.of_nat (length buf) <= KERNBASE))).
Proof.
  intros Hv0 Hb Hu Hva. unfold copyout.
  apply (post_while_loop (fun '(v, b) s' => exists pre l', buf = pre ++ b /\ 0 <= v < 2 ^ 32 /\
    (b <> [] -> v = va + Z.of_nat (length pre)) /\ (pre = [] \/ va + Z.of_nat (length pre) <= KERNBASE) /\
    built kend s0 l0 d [] s' l' /\ (forall n, pg n -> pten s' d n = pten s d n) /\ stored d va pre s s')).
  - exists [], l. cbn [length app]. split_and!; try done; try lia; [by left|]. intros a Ha. cbn [length]. by rewrite decide_False by lia.
  - intros [v b] s1 (pre & l1 & -> & Hv & Ev & Hk & Hb1 & Hp1 & Hs1). pose proof Hb1 as [B1 B2 _ _ _ _].
    case_decide as Eb.
    { subst. apply post_ret. exists l1. rewrite app_nil_r. split_and!; try done. right. by split_and!. }
    specialize (Ev Eb). apply post_bind. rewrite PGROUNDDOWN_div.
    assert (Hv0' : 0 <= 4096 * (v / 4096) <= v) by (pose proof (Z.mul_div_le v 4096); pose proof (Z.div_pos v 4096); lia).
    assert (Hm : v = 4096 * (v / 4096) + v mod 4096 /\ 0 <= v mod 4096 < 4096).
    { pose proof (Z.div_mod v 4096). pose proof (Z.mod_pos_bound v 4096). lia. }
    eapply post_uva2ka; [exact B1|apply B2| |lia|..].
    { intros n Hn Hnu. rewrite Hp1 by done. by apply Hu. }
    { rewrite Z.eqb_refl. apply post_ret. exists l1. split_and!; try done. by left. }
    rewrite (Z.mul_comm 4096 (v / 4096)), Z.div_mul, (Z.mul_comm (v / 4096)) by lia. intros p Hup Ep.
    destruct (Z.eqb_spec p 0) as [->|Hp0].
    { apply post_ret. exists l1. split_and!; try done. by left. }
    destruct (as_frame _ _ B2 _ p Hup Ep) as ([x Hx] & _ & _). pose proof (vr_used _ _ _ B1 p x Hx) as [_ Hl]. unfold pg_ok in Hl.
    apply post_bind. intros y s2 E2. unfold page_at in E2. rewrite Hx in E2. injection E2 as <- <-.
    apply post_bind, post_modify, post_ret.
    set (n := Nat.min (Z.to_nat (PGSIZE - (v - 4096 * (v / 4096)))) (length b)).
    assert (Hlb : (0 < length b)%nat) by (destruct b; [done|cbn; lia]).
    assert (Hn : (0 < n <= length b)%nat /\ v mod 4096 + Z.of_nat n <= 4096 /\
      (n = length b \/ v mod 4096 + Z.of_nat n = 4096)) by (unfold n, PGSIZE; lia).
    replace (v - 4096 * (v / 4096)) with (v mod 4096) by lia.
    assert (Hfr : isframe s1 d p) by (by exists (v / 4096)).
    set (x' := splice x (Z.to_nat (v mod 4096)) (take n b)).
    assert (Hx' : length x' = 4096%nat).
    { unfold x'. rewrite length_splice; [done|]. rewrite length_take. lia. }
    destruct (built_write s0 l0 d [] s1 l1 p x' Hv0 Hb1 Hfr Hx') as [Hb2 Hp2].
    exists (pre ++ take n b), l1. rewrite <- app_assoc, take_drop, length_app, length_take.
    unfold upg, PGSIZE, KERNBASE in *. rewrite u32_small by lia.
    assert (Hbound : va + Z.of_nat (length pre + n `min` length b) <= 2147483648) by lia.
    split_and!; [done|lia|lia| |by right|exact Hb2| |].
    + intros Hd. destruct (proj2 (proj2 Hn)) as [->|]; [by rewrite drop_all in Hd|lia].
    + intros m Hm'. unfold write_page in Hp2. by rewrite Hp2, Hp1.
    + apply stored_app with s1; [done|]. rewrite <- Ev.
      apply (stored_page s1 l1 d v p x (take n b)); [done..|rewrite length_take; lia|apply Hb2|apply Hb2|exact Hp2].
Qed.

Lemma clear_U e : 0 <= e < 2 ^ 32 ->
  let e' := Z.land e (Z.lnot PTE_U) in
  0 <= e' < 2 ^ 32 /\ PTE_ADDR e' = PTE_ADDR e /\ pte_has e' PTE_P = pte_has e PTE_P /\ pte_has e' PTE_U = false.
Proof.
  intros He e'. unfold e'. split_and!.
  - apply Z.land_nonneg. lia.
  - rewrite <- Z.ldiff_land. assert (E : Z.ldiff e PTE_U + Z.land e PTE_U = e).
    { rewrite Z.add_nocarry_lxor, Z.lxor_lor; [apply Z.lor_ldiff_and|..];
        rewrite (Z.land_comm e PTE_U), Z.land_assoc, Z.land_ldiff; apply Z.land_0_l. }
    pose proof (proj2 (Z.land_nonneg e PTE_U) ltac:(lia)). lia.
  - unfold PTE_ADDR. by rewrite <- Z.land_assoc.
  - unfold pte_has. by rewrite <- Z.land_assoc.
  - unfold pte_has. by rewrite <- Z.land_assoc, Z.land_0_r.
Qed.

(** A user page becomes inaccessible to the user. *)
Lemma wp_clearpteu s0 l0 d s l va p (Q : unit -> vmem -> Prop) :
  vrep kend s0 l0 -> built kend s0 l0 d [] s l -> 0 <= va < KERNBASE ->
  ufr s d (va / 4096) = Some p -> PTE_FLAGS (pten s d (va / 4096)) = 7 ->
  (forall s', built kend s0 l0 d [] s' l -> (forall n, upg n -> ufr s' d n = ufr s d n) ->
     (forall n, pg n -> n <> va / 4096 -> pten s' d n = pten s d n) ->
     pte_has (pten s' d (va / 4096)) PTE_U = false ->
     (forall q, isframe s d q -> v_page s' !! q = v_page s !! q) -> Q tt s') ->
  wp (clearpteu d va) s Q.
Proof.
  intros Hv0 Hb Hva Ep Hfl HQ. pose proof Hb as [B1 B2 _ _ _ _]. pose proof (as_pt _ _ B2) as Hw. unfold KERNBASE in *.
  set (n := va / 4096) in *. assert (Hn : upg n).
  { unfold upg, n. split; [apply Z.div_pos; lia|apply Z.div_lt_upper_bound; lia]. }
  assert (Hpg : pg n) by (unfold pg, upg in *; lia). destruct (ufr_some _ _ _ _ Ep) as [HP Ea].
  destruct (pg_div n Hpg) as [Hi Hr].
  assert (exists t, tab s d (n / 1024) = Some t) as [t Et].
  { unfold pten in HP. destruct (tab s d (n / 1024)); [by eexists|done]. }
  assert (Ht : istab s d t) by (by exists (n / 1024)). destruct (pt_tab _ _ Hw t Ht) as [Hts _].
  unfold clearpteu. apply wp_bind. eapply wp_walkpgdir; [exact B1|done|lia|]. fold n. rewrite Et.
  apply wp_bind. eapply wp_get_pte; [exact B1|done|]. apply wp_set_pte; [done|].
  assert (E : pde s t (n mod 1024) = pten s d n) by (unfold pten; by rewrite Et). rewrite E.
  assert (He : 0 <= pten s d n < 2 ^ 32).
  { destruct (as_frame _ _ B2 n p Hn Ep) as ([x Hx] & _). destruct (vr_used _ _ _ B1 p x Hx) as [[_ Hk] _].
    unfold P2V, KERNBASE, PHYSTOP in *. rewrite PTE_FLAGS_mod in Hfl. rewrite PTE_ADDR_div in Ea.
    pose proof (Z.div_mod (pten s d n) 4096). lia. }
  destruct (clear_U _ He) as (He' & EA & EP & EU). set (e' := Z.land (pten s d n) (Z.lnot PTE_U)) in *.
  pose proof (maps_entry kend d s l n t e' B1 Hw Hpg Et He') as Hm.
  assert (Hpn : forall m, pg m -> pten (set_entry s t (n mod 1024) e') d m = if decide (m = n) then e' else pten s d m).
  { intros m Hm'. rewrite (mp_pte _ _ _ _ _ _ _ Hm) by done. unfold only. by case_decide. }
  assert (Hu : forall m, upg m -> ufr (set_entry s t (n mod 1024) e') d m = ufr s d m).
  { intros m Hm'. unfold ufr. rewrite Hpn by (unfold pg, upg in *; lia). case_decide; [subst; by rewrite EA, EP|done]. }
  assert (Hb' : built kend s0 l0 d [] (set_entry s t (n mod 1024) e') l) by (eapply built_maps_frames; eauto).
  apply HQ; [done|done|..].
  - intros m Hm' Hne. rewrite Hpn by done. by rewrite decide_False.
  - rewrite Hpn by done. by rewrite decide_True.
  - intros q (m & Hm' & Eq). apply set_entry_other. intros ->. by apply (as_frame _ _ B2 m t).
Qed.
End vmwrite.
