(* ===== verification/Pipe.v ===== *)
(** pipe.c: a bounded byte queue between processes.

    [pipewrite] and [piperead] hold [p->lock] except while they sleep, so a
    run of either between two sleeps is one step.  A writer that finds the
    buffer full sleeps and later resumes with the bytes it has left; the
    indices [nread] and [nwrite] are 32-bit and wrap around. *)
From S2P Require Import Prelude.

Definition PIPESIZE : Z := 512.

Record pipe := mkPipe {
  p_data : bytes; p_nread : Z; p_nwrite : Z; p_readopen : bool; p_writeopen : bool
}.

(** The pipe [pipealloc] sets up in a fresh page, whose contents are [data]. *)
Definition pipe_init (data : bytes) : pipe := mkPipe data 0 0 true true.

(** The result of a run of [pipewrite]: done, asleep, or -1. *)
Inductive wres := WDone | WSleep | WFail.

Definition pipe_full (p : pipe) : bool := p_nwrite p =? u32 (p_nread p + PIPESIZE).

Definition put_byte (p : pipe) (c : Z) : pipe :=
  mkPipe (<[Z.to_nat (p_nwrite p mod PIPESIZE) := c]> (p_data p)) (p_nread p) (u32 (p_nwrite p + 1))
         (p_readopen p) (p_writeopen p).

(** The run also gives the number [i] of bytes stored; a writer that slept
    runs again with the bytes that are left. *)
Fixpoint pipewrite (killed : bool) (p : pipe) (addr : bytes) : pipe * nat * wres :=
  match addr with
  | [] => (p, O, WDone)
  | c :: rest =>
      if pipe_full p then
        if negb (p_readopen p) || killed then (p, O, WFail) else (p, O, WSleep)
      else
        let '(p', i, r) := pipewrite killed (put_byte p c) rest in (p', S i, r)
  end.

(** The result of a run of [piperead]: bytes, asleep, or -1. *)
Inductive rres := RDone (l : bytes) | RSleep | RFail.

Definition pipe_empty (p : pipe) : bool := p_nread p =? p_nwrite p.

Definition get_byte (p : pipe) : Z * pipe :=
  (nth0 (p_data p) (Z.to_nat (p_nread p mod PIPESIZE)),
   mkPipe (p_data p) (u32 (p_nread p + 1)) (p_nwrite p) (p_readopen p) (p_writeopen p)).

Fixpoint piperead_copy (p : pipe) (n : nat) : pipe * bytes :=
  match n with
  | O => (p, [])
  | S n' =>
      if pipe_empty p then (p, [])
      else let '(c, p1) := get_byte p in
           let '(p2, l) := piperead_copy p1 n' in (p2, c :: l)
  end.

Definition piperead (killed : bool) (p : pipe) (n : nat) : pipe * rres :=
  if pipe_empty p && p_writeopen p then
    if killed then (p, RFail) else (p, RSleep)
  else let '(p', l) := piperead_copy p n in (p', RDone l).

(** [pipeclose] of one end; the page is freed when both are closed. *)
Definition pipeclose (p : pipe) (writable : bool) : pipe * bool :=
  let p' := if writable then mkPipe (p_data p) (p_nread p) (p_nwrite p) (p_readopen p) false
            else mkPipe (p_data p) (p_nread p) (p_nwrite p) false (p_writeopen p) in
  (p', negb (p_readopen p') && negb (p_writeopen p')).

(** * The queue *)

Definition pipe_len (p : pipe) : Z := u32 (p_nwrite p - p_nread p).

(** The bytes written and not read yet, oldest first. *)
Definition contents (p : pipe) : bytes :=
  (fun k => nth0 (p_data p) (Z.to_nat ((p_nread p + k) mod PIPESIZE))) <$> seqZ 0 (pipe_len p).

Record pipe_ok (p : pipe) : Prop := {
  po_data : length (p_data p) = Z.to_nat PIPESIZE;
  po_nread : 0 <= p_nread p < 2 ^ 32;
  po_nwrite : 0 <= p_nwrite p < 2 ^ 32;
  po_len : pipe_len p <= PIPESIZE
}.

Lemma u32_alt z : exists q, u32 z = z - q * 2 ^ 32.
Proof. exists (z / 2 ^ 32). unfold u32. pose proof (Z.div_mod z (2 ^ 32)). lia. Qed.

Lemma pipe_full_len p : pipe_ok p -> pipe_full p = (pipe_len p =? PIPESIZE).
Proof.
  intros [_ Hr Hw Hl]. unfold pipe_full, pipe_len in *. change PIPESIZE with 512 in *.
  pose proof (u32_range (p_nwrite p - p_nread p)). pose proof (u32_range (p_nread p + 512)).
  destruct (u32_alt (p_nwrite p - p_nread p)) as [q1 E1]. destruct (u32_alt (p_nread p + 512)) as [q2 E2].
  destruct (Z.eqb_spec (p_nwrite p) (u32 (p_nread p + 512))),
    (Z.eqb_spec (u32 (p_nwrite p - p_nread p)) 512); try done; lia.
Qed.

Lemma pipe_empty_len p : pipe_ok p -> pipe_empty p = (pipe_len p =? 0).
Proof.
  intros [_ Hr Hw Hl]. unfold pipe_empty, pipe_len in *.
  pose proof (u32_range (p_nwrite p - p_nread p)). destruct (u32_alt (p_nwrite p - p_nread p)) as [q1 E1].
  destruct (Z.eqb_spec (p_nread p) (p_nwrite p)), (Z.eqb_spec (u32 (p_nwrite p - p_nread p)) 0); try done; lia.
Qed.

(** The buffer index of a wrapped counter: 512 divides 2^32. *)
Lemma u32_mod_pipe z : u32 z mod PIPESIZE = z mod PIPESIZE.
Proof.
  unfold u32. apply Z.mod_mod_divide. exists (2 ^ 23). done.
Qed.

Lemma length_contents p : length (contents p) = Z.to_nat (pipe_len p).
Proof. unfold contents. by rewrite length_fmap, length_seqZ. Qed.

Lemma put_byte_spec p c :
  pipe_ok p -> pipe_full p = false ->
  pipe_ok (put_byte p c) /\ contents (put_byte p c) = contents p ++ [c].
Proof.
  intros Hp Hf. rewrite pipe_full_len in Hf by done. apply Z.eqb_neq in Hf. pose proof Hp as [Hd Hr Hw Hl].
  pose proof (u32_range (p_nwrite p - p_nread p)) as Hlr. fold (pipe_len p) in Hlr.
  assert (Elen : pipe_len (put_byte p c) = pipe_len p + 1).
  { unfold pipe_len in *. cbn. pose proof (u32_range (p_nwrite p + 1)).
    destruct (u32_alt (p_nwrite p + 1)) as [q1 E1]. destruct (u32_alt (p_nwrite p - p_nread p)) as [q2 E2].
    pose proof (u32_range (u32 (p_nwrite p + 1) - p_nread p)).
    destruct (u32_alt (u32 (p_nwrite p + 1) - p_nread p)) as [q3 E3]. change PIPESIZE with 512 in *. lia. }
  split.
  - split; cbn; [by rewrite length_insert|done|apply u32_range|rewrite Elen; lia].
  - unfold contents. rewrite Elen. rewrite seqZ_app by lia. rewrite fmap_app. cbn [p_nread put_byte].
    pose proof (Z.mod_pos_bound (p_nwrite p) PIPESIZE) as Hwm. change PIPESIZE with 512 in *.
    assert (Ewm : (p_nread p + pipe_len p) mod 512 = p_nwrite p mod 512).
    { change 512 with PIPESIZE. rewrite <- (Z.add_mod_idemp_r) by done. unfold pipe_len.
      rewrite u32_mod_pipe, Z.add_mod_idemp_r by done. f_equal. lia. }
    f_equal.
    + apply list_fmap_ext. intros k x Hx%lookup_seqZ. cbn [p_data put_byte].
      change PIPESIZE with 512. rewrite nth0_insert by lia.
      rewrite decide_False; [done|]. intros E. apply Z2Nat.inj in E; [|lia|by apply Z.mod_pos_bound].
      rewrite <- Ewm in E. pose proof (Z.div_mod (p_nread p + pipe_len p) 512).
      pose proof (Z.div_mod (p_nread p + x) 512). lia.
    + change (seqZ (0 + pipe_len p) 1) with [0 + pipe_len p].
      cbn [fmap list_fmap p_data put_byte]. change PIPESIZE with 512. rewrite Z.add_0_l, nth0_insert by lia.
      by rewrite Ewm, decide_True.
Qed.

Lemma get_byte_spec p :
  pipe_ok p -> pipe_empty p = false ->
  pipe_ok (get_byte p).2 /\ contents p = (get_byte p).1 :: contents (get_byte p).2.
Proof.
  intros Hp Hf. rewrite pipe_empty_len in Hf by done. apply Z.eqb_neq in Hf. pose proof Hp as [Hd Hr Hw Hl].
  pose proof (u32_range (p_nwrite p - p_nread p)) as Hlr. fold (pipe_len p) in Hlr.
  assert (Elen : pipe_len p = 1 + pipe_len (get_byte p).2).
  { unfold pipe_len in *. cbn. pose proof (u32_range (p_nread p + 1)).
    destruct (u32_alt (p_nread p + 1)) as [q1 E1]. destruct (u32_alt (p_nwrite p - p_nread p)) as [q2 E2].
    pose proof (u32_range (p_nwrite p - u32 (p_nread p + 1))).
    destruct (u32_alt (p_nwrite p - u32 (p_nread p + 1))) as [q3 E3]. change PIPESIZE with 512 in *. lia. }
  assert (H1 : 0 <= pipe_len (get_byte p).2) by apply u32_range.
  split.
  - split; [done|cbn; apply u32_range|done|lia].
  - unfold contents at 1. rewrite Elen, seqZ_app by lia. change (seqZ 0 1) with [0].
    cbn [fmap list_fmap app]. rewrite Z.add_0_r. f_equal. unfold contents.
    rewrite <- (fmap_add_seqZ 1 0). rewrite <- list_fmap_compose. apply list_fmap_ext.
    intros k x Hx. unfold compose. cbn [get_byte snd p_data p_nread]. f_equal. f_equal.
    rewrite <- (Z.add_mod_idemp_l (u32 _)) by done. rewrite u32_mod_pipe, Z.add_mod_idemp_l by done.
    f_equal. lia.
Qed.

Lemma pipewrite_spec killed p addr :
  pipe_ok p ->
  let '(p', i, r) := pipewrite killed p addr in
  pipe_ok p' /\ contents p' = contents p ++ take i addr /\
  match r with
  | WDone => i = length addr
  | WSleep => (i < length addr)%nat /\ pipe_full p' = true /\ p_readopen p' = true
  | WFail => (i < length addr)%nat /\ pipe_full p' = true
  end.
Proof.
  revert p. induction addr as [|c addr IH]; intros p Hp; cbn [pipewrite].
  - by rewrite app_nil_r.
  - destruct (pipe_full p) eqn:Ef.
    + destruct (negb (p_readopen p) || killed) eqn:E; rewrite take_0, app_nil_r; cbn.
      * split_and!; [done|done|lia|done].
      * bool_to_prop. split_and!; [done|done|lia|done|done].
    + destruct (put_byte_spec p c Hp Ef) as [Hp1 Hc1]. specialize (IH _ Hp1).
      destruct (pipewrite killed (put_byte p c) addr) as [[p' i] r].
      destruct IH as (Hp' & Hs & Hr). rewrite Hs, Hc1, <- app_assoc. split_and!; [done|done|].
      destruct r; cbn; lia || (split_and!; [lia|tauto..]).
Qed.

Lemma piperead_copy_spec p n :
  pipe_ok p ->
  let '(p', l) := piperead_copy p n in
  pipe_ok p' /\ contents p = l ++ contents p' /\ length l = Nat.min n (length (contents p)) /\
  p_writeopen p' = p_writeopen p.
Proof.
  revert p. induction n as [|n IH]; intros p Hp; cbn [piperead_copy]; [done|].
  destruct (pipe_empty p) eqn:Ee.
  - split_and!; try done. rewrite length_contents.
    rewrite pipe_empty_len in Ee by done. apply Z.eqb_eq in Ee. rewrite Ee. done.
  - destruct (get_byte_spec p Hp Ee) as [Hp1 Hc1]. destruct (get_byte p) as [c p1] eqn:Eg. cbn in *.
    specialize (IH p1 Hp1). destruct (piperead_copy p1 n) as [p2 l]. destruct IH as (Hp2 & Hc2 & Hl2 & Hw2).
    split_and!; [done|by rewrite Hc1, Hc2|rewrite Hc1; cbn; lia|].
    rewrite Hw2. unfold get_byte in Eg. by injection Eg as <- <-.
Qed.

(** * Any interleaving of readers and writers *)

(** The pipe with the history of all bytes written to it and read from it. *)
Record hist := mkHist { h_pipe : pipe; h_sent : bytes; h_rcvd : bytes }.

Inductive pstep : hist -> hist -> Prop :=
| PWrite killed p w r addr p' i res :
    pipewrite killed p addr = (p', i, res) ->
    pstep (mkHist p w r) (mkHist p' (w ++ take i addr) r)
| PRead killed p w r n p' res :
    piperead killed p n = (p', res) ->
    pstep (mkHist p w r) (mkHist p' w (r ++ match res with RDone l => l | _ => [] end))
| PClose p w r writable :
    pstep (mkHist p w r) (mkHist (pipeclose p writable).1 w r).

Definition hist_ok (h : hist) : Prop :=
  pipe_ok (h_pipe h) /\ h_sent h = h_rcvd h ++ contents (h_pipe h).

Lemma pstep_ok h h' : hist_ok h -> pstep h h' -> hist_ok h'.
Proof.
  intros [Hp Hh] Hs. destruct Hs as [killed p w r addr p' i res E|killed p w r n p' res E|p w r wr];
    cbn in *; subst w.
  - pose proof (pipewrite_spec killed p addr Hp) as H. rewrite E in H. destruct H as (Hp' & Hc & _).
    split; [done|]. cbn. by rewrite Hc, app_assoc.
  - unfold piperead in E. destruct (pipe_empty p && p_writeopen p).
    + destruct killed; injection E as <- <-; split; cbn; try done; by rewrite app_nil_r.
    + pose proof (piperead_copy_spec p n Hp) as H. destruct (piperead_copy p n) as [p1 l].
      injection E as <- <-. destruct H as (Hp' & Hc & _). split; [done|]. cbn. by rewrite Hc, app_assoc.
  - destruct Hp as [? ? ? ?]. destruct wr; by split.
Qed.

(** C27: a pipe is a FIFO.  Whatever the order in which writers, readers and
    closers run, the bytes received so far followed by those in the buffer are
    the bytes sent so far, in order, and at most [PIPESIZE] are buffered. *)
Theorem pipe_fifo data h :
  length data = Z.to_nat PIPESIZE -> rtc pstep (mkHist (pipe_init data) [] []) h ->
  h_sent h = h_rcvd h ++ contents (h_pipe h) /\ (length (contents (h_pipe h)) <= 512)%nat.
Proof.
  intros Hd Hrtc. remember (mkHist (pipe_init data) [] []) as h0 eqn:E0.
  assert (H0 : hist_ok h0) by (subst; split; [by split|done]).
  clear E0. induction Hrtc as [h|h1 h2 h3 Hstep _ IH]; [|by eapply IH, pstep_ok].
  destruct H0 as [Hp Hh]. split; [done|]. rewrite length_contents.
  pose proof (po_len _ Hp). change PIPESIZE with 512 in *. lia.
Qed.

Lemma pipe_fifo_witness :
  let d := replicate 512 0 in
  let p1 := put_byte (put_byte (pipe_init d) 104) 105 in
  [104; 105] = [] ++ contents p1 /\ (length (contents p1) <= 512)%nat.
Proof.
  intros d p1. apply (pipe_fifo d (mkHist p1 [104; 105] [])); [reflexivity|].
  eapply rtc_once. by apply (PWrite false (pipe_init d) [] [] [104; 105] p1 2 WDone).
Defined.

(** The blocking conditions.  [pipewrite] stores all its bytes unless the
    buffer fills up, and then sleeps only while the reader is open; [piperead]
    sleeps only on an empty pipe with an open writer, and otherwise returns the
    oldest [min n (number buffered)] bytes, so 0 only at end of file or [n = 0]. *)
Theorem pipe_blocking killed p addr n :
  pipe_ok p ->
  (let '(p', i, r) := pipewrite killed p addr in
   pipe_ok p' /\ contents p' = contents p ++ take i addr /\
   match r with
   | WDone => i = length addr
   | WSleep => pipe_full p' = true /\ p_readopen p' = true
   | WFail => pipe_full p' = true
   end) /\
  (let '(p', r) := piperead killed p n in
   match r with
   | RSleep => contents p = [] /\ p_writeopen p = true
   | RFail => contents p = [] /\ killed = true
   | RDone l => contents p = l ++ contents p' /\ length l = Nat.min n (length (contents p)) /\
       (l = [] -> n = O \/ contents p = [] /\ p_writeopen p = false)
   end).
Proof.
  intros Hp. split.
  - pose proof (pipewrite_spec killed p addr Hp) as H.
    destruct (pipewrite killed p addr) as [[p' i] []]; tauto.
  - unfold piperead. assert (Hnil : pipe_empty p = true -> contents p = []).
    { intros E. rewrite pipe_empty_len in E by done. apply Z.eqb_eq in E.
      apply length_zero_iff_nil. rewrite length_contents, E. done. }
    destruct (pipe_empty p && p_writeopen p) eqn:E.
    + bool_to_prop. destruct killed; split; auto.
    + pose proof (piperead_copy_spec p n Hp) as H. destruct (piperead_copy p n) as [p' l].
      destruct H as (_ & Hc & Hl & _). split_and!; [done|done|]. intros ->. cbn in Hl.
      destruct n as [|n]; [by left|right]. assert (Hz : contents p = []).
      { apply length_zero_iff_nil. lia. }
      split; [done|]. rewrite pipe_empty_len in E by done.
      assert (pipe_len p = 0) as E0.
      { pose proof (u32_range (p_nwrite p - p_nread p)) as Hr. fold (pipe_len p) in Hr.
        pose proof (length_contents p) as Hlc. rewrite Hz in Hlc. cbn in Hlc. lia. }
      by rewrite E0 in E.
Qed.

Lemma pipe_blocking_witness :
  piperead false (put_byte (pipe_init (replicate 512 0)) 65) 4 =
  (mkPipe (65 :: replicate 511 0) 1 1 true true, RDone [65]) /\
  contents (put_byte (pipe_init (replicate 512 0)) 65) = [65] ++ [].
Proof.
  assert (Hp : pipe_ok (put_byte (pipe_init (replicate 512 0)) 65)) by (split; vm_compute; try done; split; done).
  destruct (pipe_blocking false _ [] 4 Hp) as [_ H].
  split; [by vm_compute|]. vm_compute. done.
Defined.
