(* ===== verification/Bio.v ===== *)
(** bio.c and memide.c: the buffer cache over the disk.

    The cache is the array [bcache.buf] with the list head [bcache.head] at
    index [NBUFn]; [b_prev] and [b_next] are the links of the LRU list as array
    indices.  The disk is the in-memory image of memide.c, which serves a
    request inside [iderw]; the interrupt-driven driver is in Ide.v.  Critical
    sections under [bcache.lock] are single steps.  [disk_writes] records, oldest
    first, every block that [iderw] writes, so that the state of the disk at
    any crash point can be stated. *)

From S2P Require Import Prelude Layout Locks.

Definition NBUFn : nat := 30.

(** * State *)

Record buf := mkBuf {
  b_flags : Z; b_dev : Z; b_blockno : Z; b_lock : sleeplock; b_refcnt : Z;
  b_prev : nat; b_next : nat; b_data : bytes
}.

Record bstate := mkBstate {
  bufs : list buf;
  disk : gmap Z bytes;
  disksize : Z;
  curpid : Z;
  disk_writes : list (Z * bytes)
}.

Definition disk_block (d : gmap Z bytes) (b : Z) : bytes := default zero_block (d !! b).

Definition set_bufs (l : list buf) (s : bstate) : bstate :=
  mkBstate l (disk s) (disksize s) (curpid s) (disk_writes s).

Definition set_flags (f : Z) (b : buf) : buf :=
  mkBuf f (b_dev b) (b_blockno b) (b_lock b) (b_refcnt b) (b_prev b) (b_next b) (b_data b).
Definition set_lock (k : sleeplock) (b : buf) : buf :=
  mkBuf (b_flags b) (b_dev b) (b_blockno b) k (b_refcnt b) (b_prev b) (b_next b) (b_data b).
Definition set_refcnt (r : Z) (b : buf) : buf :=
  mkBuf (b_flags b) (b_dev b) (b_blockno b) (b_lock b) r (b_prev b) (b_next b) (b_data b).
Definition set_prev (p : nat) (b : buf) : buf :=
  mkBuf (b_flags b) (b_dev b) (b_blockno b) (b_lock b) (b_refcnt b) p (b_next b) (b_data b).
Definition set_next (n : nat) (b : buf) : buf :=
  mkBuf (b_flags b) (b_dev b) (b_blockno b) (b_lock b) (b_refcnt b) (b_prev b) n (b_data b).
Definition set_data (d : bytes) (b : buf) : buf :=
  mkBuf (b_flags b) (b_dev b) (b_blockno b) (b_lock b) (b_refcnt b) (b_prev b) (b_next b) d.
(** What [bget] stores in a recycled buffer. *)
Definition set_identity (dev blockno : Z) (b : buf) : buf :=
  mkBuf 0 dev blockno (b_lock b) 1 (b_prev b) (b_next b) (b_data b).

(** [*b] and assignments through [b]. *)
Definition getbuf (i : nat) : M bstate buf := fun s =>
  match bufs s !! i with Some b => Ok b s | None => Fault end.
Definition updbuf (i : nat) (f : buf -> buf) : M bstate unit := fun s =>
  match bufs s !! i with
  | Some _ => Ok tt (set_bufs (alter f i (bufs s)) s)
  | None => Fault
  end.

(** * Initialisation *)

Definition blank_buf : buf := mkBuf 0 0 0 initsleeplock 0 0 0 zero_block.

(** The body of [binit]'s loop for buffer [i]. *)
Definition binit_link (i : nat) : M bstate unit :=
  let* h := getbuf NBUFn in
  updbuf i (set_next (b_next h)) ;;
  updbuf i (set_prev NBUFn) ;;
  updbuf i (set_lock initsleeplock) ;;
  updbuf (b_next h) (set_prev i) ;;
  updbuf NBUFn (set_next i).

Definition binit : M bstate unit :=
  updbuf NBUFn (set_prev NBUFn) ;;
  updbuf NBUFn (set_next NBUFn) ;;
  let* _ := for_loop NBUFn 0 (fun i =>
    binit_link (Z.to_nat i) ;; ret (@None unit)) in
  ret tt.

(** * The disk (memide.c) *)

Definition holding_buf (i : nat) : M bstate bool :=
  let* b := getbuf i in
  let* s := get in
  ret (holdingsleep (curpid s) (b_lock b)).

Definition disk_write (b : Z) (d : bytes) : M bstate unit :=
  modify (fun s => mkBstate (bufs s) (<[b := d]> (disk s)) (disksize s) (curpid s)
                            (disk_writes s ++ [(b, d)])).

Definition iderw (i : nat) : M bstate unit :=
  let* h := holding_buf i in
  let* b := getbuf i in
  let* s := get in
  if negb h then panic "iderw: buf not locked"
  else if Z.land (b_flags b) (Z.lor B_VALID B_DIRTY) =? B_VALID then
    panic "iderw: nothing to do"
  else if negb (b_dev b =? 1) then panic "iderw: request not for disk 1"
  else if disksize s <=? b_blockno b then panic "iderw: block out of range"
  else
    (if negb (Z.land (b_flags b) B_DIRTY =? 0) then
       updbuf i (set_flags (Z.land (b_flags b) (Z.lnot B_DIRTY))) ;;
       disk_write (b_blockno b) (b_data b)
     else updbuf i (set_data (disk_block (disk s) (b_blockno b)))) ;;
    updbuf i (fun b => set_flags (Z.lor (b_flags b) B_VALID) b).

(** * The cache (bio.c) *)

(** First loop of [bget]: walk from [head.next] along [next]. *)
Fixpoint bget_lookup (fuel : nat) (i : nat) (dev blockno : Z) : M bstate (option nat) :=
  match fuel with
  | O => fault
  | S fuel' =>
      if decide (i = NBUFn) then ret None
      else
        let* b := getbuf i in
        if (b_dev b =? dev) && (b_blockno b =? blockno) then ret (Some i)
        else bget_lookup fuel' (b_next b) dev blockno
  end.

(** Second loop of [bget]: walk from [head.prev] along [prev]. *)
Fixpoint bget_recycle (fuel : nat) (i : nat) : M bstate (option nat) :=
  match fuel with
  | O => fault
  | S fuel' =>
      if decide (i = NBUFn) then ret None
      else
        let* b := getbuf i in
        if (b_refcnt b =? 0) && (Z.land (b_flags b) B_DIRTY =? 0) then ret (Some i)
        else bget_recycle fuel' (b_prev b)
  end.

Definition acquire_buf (i : nat) : M bstate unit :=
  let* b := getbuf i in
  let* s := get in
  match acquiresleep (curpid s) (b_lock b) with
  | Some lk => updbuf i (set_lock lk)
  | None => sleep_on (ChanBuf i)
  end.

Definition bget (dev blockno : Z) : M bstate nat :=
  let* h := getbuf NBUFn in
  let* r := bget_lookup (S NBUFn) (b_next h) dev blockno in
  match r with
  | Some i =>
      updbuf i (fun b => set_refcnt (b_refcnt b + 1) b) ;;
      acquire_buf i ;;
      ret i
  | None =>
      let* r := bget_recycle (S NBUFn) (b_prev h) in
      match r with
      | Some i =>
          updbuf i (set_identity dev blockno) ;;
          acquire_buf i ;;
          ret i
      | None => panic "bget: no buffers"
      end
  end.

Definition bread (dev blockno : Z) : M bstate nat :=
  let* i := bget dev blockno in
  let* b := getbuf i in
  (if Z.land (b_flags b) B_VALID =? 0 then iderw i else ret tt) ;;
  ret i.

Definition bwrite (i : nat) : M bstate unit :=
  let* h := holding_buf i in
  if negb h then panic "bwrite"
  else
    updbuf i (fun b => set_flags (Z.lor (b_flags b) B_DIRTY) b) ;;
    iderw i.

(** Unlink [i] and put it at the front of the list. *)
Definition move_to_front (i : nat) : M bstate unit :=
  let* b := getbuf i in
  updbuf (b_next b) (set_prev (b_prev b)) ;;
  updbuf (b_prev b) (set_next (b_next b)) ;;
  let* h := getbuf NBUFn in
  updbuf i (set_next (b_next h)) ;;
  updbuf i (set_prev NBUFn) ;;
  updbuf (b_next h) (set_prev i) ;;
  updbuf NBUFn (set_next i).

Definition brelse (i : nat) : M bstate unit :=
  let* h := holding_buf i in
  if negb h then panic "brelse"
  else
    updbuf i (fun b => set_lock (releasesleep (b_lock b)) b) ;;
    updbuf i (fun b => set_refcnt (b_refcnt b - 1) b) ;;
    let* b := getbuf i in
    if b_refcnt b =? 0 then move_to_front i else ret tt.

(** [bp->data] read and written through the pointer that [bread] returned. *)
Definition buf_data (i : nat) : M bstate bytes :=
  let* b := getbuf i in ret (b_data b).
Definition set_buf_data (i : nat) (d : bytes) : M bstate unit := updbuf i (set_data d).

(** The machine after loading the kernel: zeroed cache, given disk image. *)
Definition boot_state (d : gmap Z bytes) (size pid : Z) : bstate :=
  mkBstate (replicate (S NBUFn) blank_buf) d size pid [].

(** * The list of buffers *)

(** [chain nx pv x c]: following [nx] from [x] visits [c], and [pv] leads
    back. *)
Fixpoint chain (nx pv : nat -> nat) (x : nat) (c : list nat) : Prop :=
  match c with
  | [] => True
  | y :: c' => nx x = y /\ pv y = x /\ chain nx pv y c'
  end.

Definition fupd (f : nat -> nat) (a v : nat) : nat -> nat :=
  fun x => if decide (x = a) then v else f x.

Lemma fupd_eq f a v : fupd f a v a = v.
Proof. unfold fupd. by rewrite decide_True. Qed.

Lemma fupd_ne f a v x : x <> a -> fupd f a v x = f x.
Proof. intros. unfold fupd. by rewrite decide_False. Qed.

Definition lastd (x : nat) (c : list nat) : nat := default x (last c).

Lemma lastd_cons x y c : lastd x (y :: c) = lastd y c.
Proof.
  unfold lastd. destruct c as [|z c _] using rev_ind; [done|].
  by rewrite app_comm_cons, !last_snoc.
Qed.

Lemma lastd_in x c : lastd x c = x /\ c = [] \/ lastd x c ∈ c.
Proof.
  unfold lastd. destruct c as [|y c _] using rev_ind; [by left|].
  right. rewrite last_snoc. simpl. set_solver.
Qed.

Lemma chain_app nx pv x c1 c2 :
  chain nx pv x (c1 ++ c2) <-> chain nx pv x c1 /\ chain nx pv (lastd x c1) c2.
Proof.
  revert x. induction c1 as [|y c1 IH]; intros x; [unfold lastd; simpl; tauto|].
  cbn [app chain]. rewrite IH, lastd_cons. tauto.
Qed.

Lemma chain_ext nx pv nx' pv' x c :
  (forall z, z ∈ x :: c -> z <> lastd x c -> nx' z = nx z) ->
  (forall z, z ∈ c -> pv' z = pv z) -> NoDup (x :: c) ->
  chain nx pv x c -> chain nx' pv' x c.
Proof.
  revert x. induction c as [|y c IH]; intros x Hn Hp Hd; [done|].
  rewrite lastd_cons in Hn. intros (H1 & H2 & H3). cbn [chain].
  apply NoDup_cons in Hd as [Hx Hd].
  assert (lastd y c <> x).
  { intros <-. apply Hx. destruct (lastd_in y c) as [[-> _]|?]; elem. }
  split_and!.
  - rewrite Hn; [done|by left|congruence].
  - rewrite Hp; [done|by left].
  - apply IH; [|intros; apply Hp; by right|done|done].
    intros z Hz Hl. apply Hn; [by right|done].
Qed.

(** [order] is the list of buffers from most to least recently used: the
    links of the array form a doubly linked ring through the head. *)
Definition ringf (nx pv : nat -> nat) (h : nat) (order : list nat) : Prop :=
  chain nx pv h (order ++ [h]).

(** The pointer assignments of [brelse] move a list element to the front. *)
Lemma ringf_move nx pv h i o1 o2 :
  NoDup (h :: o1 ++ i :: o2) ->
  ringf nx pv h (o1 ++ i :: o2) ->
  let p := pv i in let n := nx i in
  let pv1 := fupd pv n p in
  let nx1 := fupd nx p n in
  let hn := nx1 h in
  ringf (fupd (fupd nx1 i hn) h i) (fupd (fupd pv1 i h) hn i) h (i :: o1 ++ o2).
Proof.
  intros Hd Hr. unfold ringf in *.
  rewrite <- app_assoc in Hr. cbn [app] in Hr. apply chain_app in Hr as [H1 H2].
  cbn [chain] in H2. destruct H2 as (Hpi & Hip & H2).
  apply NoDup_cons in Hd as [Hh Hd]. apply NoDup_app in Hd as (Hd1 & Hd12 & Hd2).
  apply NoDup_cons in Hd2 as [Hi Hd2].
  apply not_elem_of_app in Hh as [Hh1 Hh2]. apply not_elem_of_cons in Hh2 as [Hhi Hh2].
  assert (Hi1 : i ∉ o1) by (intros E; apply (Hd12 i E); by left).
  assert (H12 : forall z, z ∈ o1 -> z ∉ o2) by (intros z E E'; apply (Hd12 z E); by right).
  clear Hd12.
  pose proof (lastd_in h o1) as Hp. remember (lastd h o1) as p eqn:Ep.
  assert (p <> i) by (intros ->; destruct Hp as [[? _]|]; congruence).
  rewrite Hip. cbv zeta.
  (* the successor [n] of [i] and what follows it *)
  destruct (o2 ++ [h]) as [|n rest] eqn:E2; [by destruct o2|].
  destruct H2 as (Hin & Hni & H2). rewrite Hin.
  assert (Hrest : forall z, z ∈ n :: rest -> z <> i /\ z ∉ o1).
  { intros z Hz. rewrite <- E2 in Hz.
    apply elem_of_app in Hz as [Hz| ->%list_elem_of_singleton]; [|by auto].
    split; [congruence|]. intros Hz'. by apply (H12 z). }
  assert (Hdr : NoDup (n :: rest)).
  { rewrite <- E2. apply NoDup_app. split_and!; [done| |apply NoDup_singleton].
    by intros z Hz1 ->%list_elem_of_singleton. }
  assert (Hlast : lastd n rest = h).
  { rewrite <- (lastd_cons i n rest), <- E2. unfold lastd. by rewrite last_snoc. }
  destruct (Hrest n) as [Hni' Hn1]; [by left|].
  assert (Hr' : forall z, z ∈ rest -> z <> i /\ (z ∉ o1) /\ z <> n).
  { intros z Hz. apply NoDup_cons in Hdr as [Hnr _].
    destruct (Hrest z); [by right|]. split_and!; congruence. }
  assert (Hch : forall nx' pv', (forall z, (z ∈ (n :: rest)) -> z <> h -> nx' z = nx z) ->
    (forall z, z ∈ rest -> pv' z = pv z) -> chain nx' pv' n rest).
  { intros nx' pv' En Ev. apply chain_ext with nx pv; rewrite ?Hlast; done. }
  cbn [app chain]. rewrite <- app_assoc.
  destruct Hp as [[-> ->]|Hp].
  - (* [i] was first *)
    rewrite E2. cbn [app chain]. rewrite (fupd_eq nx h n), !fupd_eq.
    rewrite (fupd_ne _ n i i), (fupd_eq _ i), (fupd_ne _ h i i), (fupd_eq _ i) by congruence.
    split_and!; try done. apply Hch.
    + intros z Hz Hl. rewrite !fupd_ne; [done|done|by apply Hrest|done].
    + intros z Hz. destruct (Hr' z Hz) as (? & ? & ?). by rewrite !fupd_ne by congruence.
  - destruct o1 as [|a o1]; [by apply elem_of_nil in Hp|].
    destruct H1 as (Hha & Hah & H1). rewrite lastd_cons in Ep.
    apply not_elem_of_cons in Hh1 as [Hha' Hh1]. apply not_elem_of_cons in Hi1 as [Hia Hi1].
    apply not_elem_of_cons in Hn1 as [Hna Hn1].
    assert (p <> h) by (intros ->; elem).
    rewrite (fupd_ne nx p n h), Hha by done. rewrite E2.
    cbn [app chain]. rewrite (fupd_eq _ h).
    rewrite (fupd_ne _ a i i), (fupd_eq _ i), (fupd_ne _ h i i), (fupd_eq _ i), (fupd_eq _ a)
      by congruence.
    split_and!; try done. apply chain_app. rewrite <- Ep. split.
    + apply NoDup_cons in Hd1 as [Ha Hd1].
      apply chain_ext with nx pv; [| |by apply NoDup_cons|done]; rewrite <- ?Ep.
      * intros z Hz Hl. rewrite !fupd_ne; elem.
      * intros z Hz. rewrite !fupd_ne; elem.
    + cbn [chain].
      rewrite (fupd_ne _ h i p), (fupd_ne _ i a p), fupd_eq by done.
      rewrite (fupd_ne _ a i n), (fupd_ne _ i h n), fupd_eq by done.
      split_and!; try done. apply Hch.
      * intros z Hz Hl. destruct (Hrest z Hz) as [? ?].
        rewrite !fupd_ne; try done. intros ->. done.
      * intros z Hz. destruct (Hr' z Hz) as (? & ? & ?).
        rewrite !fupd_ne; try done. elem.
Qed.

(** The links of a buffer array. *)
Definition nxs (l : list buf) (x : nat) : nat := default 0%nat (b_next <$> l !! x).
Definition pvs (l : list buf) (x : nat) : nat := default 0%nat (b_prev <$> l !! x).

(** A buffer without its links. *)
Definition core (b : buf) : buf := set_prev 0 (set_next 0 b).

Record ring (l : list buf) (order : list nat) : Prop := {
  ring_length : length l = S NBUFn;
  ring_perm : Permutation order (seq 0 NBUFn);
  ring_links : ringf (nxs l) (pvs l) NBUFn order
}.

Lemma chain_fun_ext nx pv nx' pv' x c :
  (forall z, nx' z = nx z) -> (forall z, pv' z = pv z) ->
  chain nx pv x c -> chain nx' pv' x c.
Proof.
  intros Hn Hp. revert x. induction c as [|y c IH]; intros x; [done|].
  cbn [chain]. rewrite Hn, Hp. naive_solver.
Qed.

Lemma ring_elem l order i : ring l order -> (i ∈ order) <-> (i < NBUFn)%nat.
Proof. intros [_ H _]. rewrite H, elem_of_seq. lia. Qed.

Lemma ring_NoDup l order : ring l order -> NoDup (NBUFn :: order).
Proof.
  intros H. apply NoDup_cons. split.
  - rewrite (ring_elem _ _ _ H). lia.
  - rewrite (ring_perm _ _ H). apply NoDup_seq.
Qed.

Lemma nxs_insert_next l i n x :
  (i < length l)%nat -> nxs (alter (set_next n) i l) x = fupd (nxs l) i n x.
Proof.
  intros Hi. unfold nxs, fupd. case_decide as E.
  - subst. rewrite list_lookup_alter_eq.
    by destruct (lookup_lt_is_Some_2 _ _ Hi) as [b ->].
  - by rewrite list_lookup_alter_ne by congruence.
Qed.

Lemma pvs_insert_prev l i n x :
  (i < length l)%nat -> pvs (alter (set_prev n) i l) x = fupd (pvs l) i n x.
Proof.
  intros Hi. unfold pvs, fupd. case_decide as E.
  - subst. rewrite list_lookup_alter_eq.
    by destruct (lookup_lt_is_Some_2 _ _ Hi) as [b ->].
  - by rewrite list_lookup_alter_ne by congruence.
Qed.

Lemma nxs_alter f l i x :
  (forall b, b_next (f b) = b_next b) -> nxs (alter f i l) x = nxs l x.
Proof.
  intros Hf. unfold nxs. destruct (decide (i = x)) as [->|].
  - rewrite list_lookup_alter_eq. destruct (l !! x); simpl; auto.
  - by rewrite list_lookup_alter_ne.
Qed.

Lemma pvs_alter f l i x :
  (forall b, b_prev (f b) = b_prev b) -> pvs (alter f i l) x = pvs l x.
Proof.
  intros Hf. unfold pvs. destruct (decide (i = x)) as [->|].
  - rewrite list_lookup_alter_eq. destruct (l !! x); simpl; auto.
  - by rewrite list_lookup_alter_ne.
Qed.

Lemma core_alter f (l : list buf) (i : nat) :
  (forall b, core (f b) = core b) -> core <$> alter f i l = core <$> l.
Proof.
  intros Hf. apply list_eq. intros j. rewrite !list_lookup_fmap.
  destruct (decide (i = j)) as [->|].
  - rewrite list_lookup_alter_eq. destruct (l !! j); simpl; [by rewrite Hf|done].
  - by rewrite list_lookup_alter_ne.
Qed.

Lemma ring_alter f l order i :
  (forall b, b_next (f b) = b_next b) -> (forall b, b_prev (f b) = b_prev b) ->
  ring l order -> ring (alter f i l) order.
Proof.
  intros Hn Hp [H1 H2 H3]. split; [by rewrite length_alter|done|].
  eapply chain_fun_ext, H3; intros z; [by apply nxs_alter|by apply pvs_alter].
Qed.

(** Assignments through a valid pointer. *)
Lemma wp_getbuf i b s (Q : buf -> bstate -> Prop) :
  bufs s !! i = Some b -> Q b s -> wp (getbuf i) s Q.
Proof. unfold wp, getbuf. by intros ->. Qed.

Lemma wp_updbuf i f s (Q : unit -> bstate -> Prop) :
  (i < length (bufs s))%nat -> Q tt (set_bufs (alter f i (bufs s)) s) ->
  wp (updbuf i f) s Q.
Proof.
  intros Hi HQ. unfold wp, updbuf.
  by destruct (lookup_lt_is_Some_2 _ _ Hi) as [b ->].
Qed.

Lemma nxs_lookup l i b : l !! i = Some b -> nxs l i = b_next b.
Proof. unfold nxs. by intros ->. Qed.
Lemma pvs_lookup l i b : l !! i = Some b -> pvs l i = b_prev b.
Proof. unfold pvs. by intros ->. Qed.

Lemma ring_lookup l order i :
  ring l order -> (i <= NBUFn)%nat -> exists b, l !! i = Some b.
Proof. intros [H _ _] Hi. apply lookup_lt_is_Some_2. lia. Qed.

Lemma ringf_closed nx pv h order z :
  ringf nx pv h order -> z ∈ h :: order -> nx z ∈ h :: order /\ pv z ∈ h :: order.
Proof.
  unfold ringf. intros H Hz.
  assert (Hn : forall x c, chain nx pv x (c ++ [h]) -> forall z, z ∈ x :: c -> nx z ∈ h :: c).
  { clear. intros x c. revert x. induction c as [|y c IH]; intros x H z Hz; cbn in H.
    - destruct H as (<- & _ & _). apply list_elem_of_singleton in Hz as ->. by left.
    - destruct H as (<- & _ & H). apply elem_of_cons in Hz as [->|Hz]; [by right; left|].
      apply IH in Hz; [|done]. apply elem_of_cons in Hz as [->|Hz]; [by left|].
      by right; right. }
  assert (Hp : forall x c, chain nx pv x c -> forall z, z ∈ c -> pv z ∈ x :: c).
  { clear. intros x c. revert x. induction c as [|y c IH]; intros x H z Hz.
    - by apply elem_of_nil in Hz.
    - destruct H as (_ & <- & H). apply elem_of_cons in Hz as [->|Hz]; [by left|].
      right. by apply IH. }
  split; [by apply (Hn h order)|].
  assert (Hz' : z ∈ order ++ [h]) by (apply elem_of_app; apply elem_of_cons in Hz as [->|?];
    [right; by left|by left]).
  apply (Hp h _ H) in Hz'. apply elem_of_cons in Hz' as [->|[?| ->%list_elem_of_singleton]%elem_of_app];
    elem.
Qed.

Lemma ring_closed l order z :
  ring l order -> (z <= NBUFn)%nat -> (nxs l z <= NBUFn)%nat /\ (pvs l z <= NBUFn)%nat.
Proof.
  intros Hr Hz.
  assert (Hin : forall y, (y ∈ NBUFn :: order) <-> (y <= NBUFn)%nat).
  { intros y. rewrite elem_of_cons, (ring_elem _ _ _ Hr). lia. }
  pose proof (ringf_closed _ _ _ _ z (ring_links _ _ Hr)) as H.
  rewrite !Hin in H. auto.
Qed.

(** [move_to_front] implements the move on the list of buffers. *)
Lemma wp_move_to_front s i o1 o2 (Q : unit -> bstate -> Prop) :
  ring (bufs s) (o1 ++ i :: o2) ->
  (forall l', core <$> l' = core <$> bufs s -> ring l' (i :: o1 ++ o2) ->
     Q tt (set_bufs l' s)) ->
  wp (move_to_front i) s Q.
Proof.
  intros Hr HQ.
  assert (Hi : (i < NBUFn)%nat) by (apply (ring_elem _ _ _ Hr), elem_of_app; right; by left).
  pose proof (ring_length _ _ Hr) as Hl. pose proof (ring_NoDup _ _ Hr) as Hd.
  destruct (ring_lookup _ _ i Hr) as [b Hb]; [lia|].
  destruct (ring_closed _ _ i Hr) as [Hn Hp]; [lia|].
  rewrite (nxs_lookup _ _ _ Hb) in Hn. rewrite (pvs_lookup _ _ _ Hb) in Hp.
  unfold move_to_front. wp_step. eapply wp_getbuf; [exact Hb|].
  wp_step. apply wp_updbuf; [lia|]. wp_step. apply wp_updbuf; cbn; [rewrite length_alter; lia|].
  set (l2 := alter _ _ (alter _ _ _)). cbn [set_bufs bufs disk disksize curpid disk_writes].
  assert (Hl2 : length l2 = S NBUFn) by (unfold l2; by rewrite !length_alter).
  destruct (lookup_lt_is_Some_2 l2 NBUFn) as [h Hh]; [lia|].
  wp_step. eapply wp_getbuf; [exact Hh|].
  assert (En : forall x, nxs l2 x = fupd (nxs (bufs s)) (b_prev b) (b_next b) x).
  { intros x. unfold l2. rewrite nxs_insert_next by (rewrite length_alter; lia).
    unfold fupd. case_decide; [done|]. by apply nxs_alter. }
  assert (Ep : forall x, pvs l2 x = fupd (pvs (bufs s)) (b_next b) (b_prev b) x).
  { intros x. unfold l2. rewrite pvs_alter by done. apply pvs_insert_prev. lia. }
  assert (Hhn : (b_next h <= NBUFn)%nat).
  { rewrite <- (nxs_lookup _ _ _ Hh), En. unfold fupd. case_decide; [done|].
    apply (ring_closed _ _ _ Hr). lia. }
  do 4 (try wp_step; apply wp_updbuf; cbn; [rewrite ?length_alter; lia|]).
  cbn [set_bufs bufs disk disksize curpid disk_writes].
  apply HQ.
  - unfold l2. by rewrite !core_alter.
  - split; [rewrite !length_alter; lia| |].
    + rewrite <- (ring_perm _ _ Hr). apply Permutation_middle.
    + pose proof (ringf_move _ _ _ _ _ _ Hd (ring_links _ _ Hr)) as Hm. cbv zeta in Hm.
      rewrite (nxs_lookup _ _ _ Hb), (pvs_lookup _ _ _ Hb), <- En,
        (nxs_lookup _ _ _ Hh) in Hm.
      eapply chain_fun_ext, Hm; intros z.
      * rewrite nxs_insert_next by (rewrite !length_alter; lia).
        unfold fupd at 1 2. case_decide; [done|].
        rewrite nxs_alter, nxs_alter by done.
        rewrite nxs_insert_next by lia. unfold fupd at 1 2. case_decide; [done|]. apply En.
      * rewrite pvs_alter by done.
        rewrite pvs_insert_prev by (rewrite !length_alter; lia).
        unfold fupd at 1 2. case_decide; [done|].
        rewrite pvs_insert_prev by (rewrite length_alter; lia).
        unfold fupd at 1 2. case_decide; [done|].
        rewrite pvs_alter by done. apply Ep.
Qed.

Lemma chain_rev nx pv x c y :
  chain nx pv x (c ++ [y]) -> chain pv nx y (rev c ++ [x]).
Proof.
  revert x. induction c as [|z c IH]; intros x; cbn [app chain rev].
  - intros (H1 & H2 & _). by split_and!.
  - intros (H1 & H2 & H3). rewrite <- app_assoc. apply IH in H3.
    apply chain_app in H3 as [H3 H4]. apply chain_app. split; [done|].
    cbn in *. naive_solver.
Qed.

Definition buf_test (P : buf -> bool) (s : bstate) (i : nat) : bool :=
  match bufs s !! i with Some b => P b | None => false end.

Definition caches (dev blockno : Z) (b : buf) : bool :=
  (b_dev b =? dev) && (b_blockno b =? blockno).
Definition recyclable (b : buf) : bool :=
  (b_refcnt b =? 0) && (Z.land (b_flags b) B_DIRTY =? 0).

(** The two searches of [bget] examine the buffers in list order, most
    recently used first and least recently used first. *)
Lemma bget_lookup_find s order dev blockno :
  ring (bufs s) order ->
  bget_lookup (S NBUFn) (nxs (bufs s) NBUFn) dev blockno s =
    Ok (List.find (buf_test (caches dev blockno) s) order) s.
Proof.
  intros Hr.
  assert (H : forall c x fuel, chain (nxs (bufs s)) (pvs (bufs s)) x (c ++ [NBUFn]) ->
    Forall (fun i => i < NBUFn)%nat c -> (length c < fuel)%nat ->
    bget_lookup fuel (nxs (bufs s) x) dev blockno s =
      Ok (List.find (buf_test (caches dev blockno) s) c) s).
  { induction c as [|i c IH]; intros x [|fuel] Hc Hf Hlt; simpl in Hlt; try lia;
      destruct Hc as (-> & _ & Hc); cbn [bget_lookup List.find].
    - by rewrite decide_True.
    - apply Forall_cons in Hf as [Hi Hf]. rewrite decide_False by lia.
      destruct (ring_lookup _ _ i Hr) as [b Hb]; [lia|].
      unfold bind, getbuf. unfold buf_test at 1. rewrite Hb. fold (caches dev blockno b).
      destruct (caches dev blockno b); [done|].
      rewrite <- (nxs_lookup _ _ _ Hb). apply IH; [done|done|lia]. }
  apply H; [apply Hr| |].
  - apply Forall_forall. intros i. by rewrite (ring_elem _ _ _ Hr).
  - rewrite (ring_perm _ _ Hr), length_seq. lia.
Qed.

Lemma bget_recycle_find s order :
  ring (bufs s) order ->
  bget_recycle (S NBUFn) (pvs (bufs s) NBUFn) s =
    Ok (List.find (buf_test recyclable s) (rev order)) s.
Proof.
  intros Hr.
  assert (H : forall c x fuel, chain (pvs (bufs s)) (nxs (bufs s)) x (c ++ [NBUFn]) ->
    Forall (fun i => i < NBUFn)%nat c -> (length c < fuel)%nat ->
    bget_recycle fuel (pvs (bufs s) x) s = Ok (List.find (buf_test recyclable s) c) s).
  { induction c as [|i c IH]; intros x [|fuel] Hc Hf Hlt; simpl in Hlt; try lia;
      destruct Hc as (-> & _ & Hc); cbn [bget_recycle List.find].
    - by rewrite decide_True.
    - apply Forall_cons in Hf as [Hi Hf]. rewrite decide_False by lia.
      destruct (ring_lookup _ _ i Hr) as [b Hb]; [lia|].
      unfold bind, getbuf. unfold buf_test at 1. rewrite Hb. fold (recyclable b).
      destruct (recyclable b); [done|].
      rewrite <- (pvs_lookup _ _ _ Hb). apply IH; [done|done|lia]. }
  assert (Hp : Permutation (rev order) (seq 0 NBUFn)).
  { rewrite <- Permutation_rev. apply Hr. }
  apply H; [apply chain_rev, Hr| |].
  - apply Forall_forall. intros i. rewrite Hp, elem_of_seq. lia.
  - rewrite Hp, length_seq. lia.
Qed.

(** * What the cache represents *)

Section content.
(** The disk image, its size and the process using the cache. *)
Context (d : gmap Z bytes) (sz pid : Z).
(** The contents of the blocks as seen through the cache; the blocks held,
    by buffer; the held blocks modified since [bread] or [log_write]; and
    the dirty blocks, pinned until the log commits them. *)
Implicit Types (v : Z -> bytes) (h : gmap nat Z) (m L : gset Z).

Definition buf_rep v h m L (i : nat) (b : buf) : Prop :=
  is_block (b_data b) /\
  (b_dev b = 0 /\ b_flags b = 0 /\ b_refcnt b = 0 /\ sl_locked (b_lock b) = false /\
     h !! i = None \/
   b_dev b = 1 /\ 0 <= b_blockno b < sz /\ v (b_blockno b) = b_data b /\
     (h !! i = Some (b_blockno b) /\ b_refcnt b = 1 /\ b_lock b = mkSleeplock true pid \/
      h !! i = None /\ b_refcnt b = 0 /\ sl_locked (b_lock b) = false) /\
     (b_flags b = 6 /\ b_blockno b ∈ L \/
      b_flags b = 2 /\ (b_blockno b ∉ L) /\
        (b_blockno b ∉ m -> b_data b = disk_block d (b_blockno b)))).

Definition cached (cs : list buf) (c : Z) (i : nat) (b : buf) : Prop :=
  (i < NBUFn)%nat /\ cs !! i = Some b /\ b_dev b = 1 /\ b_blockno b = c.

Record content (cs : list buf) v h m L : Prop := {
  ct_length : length cs = S NBUFn;
  ct_buf : forall i b, (i < NBUFn)%nat -> cs !! i = Some b -> buf_rep v h m L i b;
  ct_uniq : forall c i j bi bj, cached cs c i bi -> cached cs c j bj -> i = j;
  ct_held : forall i c, h !! i = Some c -> exists b, cached cs c i b;
  ct_dirty : forall c, c ∈ L -> exists i b, cached cs c i b;
  ct_mod : forall c, c ∈ m -> exists i, h !! i = Some c;
  ct_view : forall c, (forall i b, ~ cached cs c i b) -> v c = disk_block d c;
  ct_disk : forall c x, d !! c = Some x -> is_block x
}.

Lemma content_cached_dec cs v h m L c :
  content cs v h m L ->
  (exists i b, cached cs c i b) \/ (forall i b, ~ cached cs c i b).
Proof.
  intros Hc.
  destruct (List.find (fun i => match cs !! i with
    Some b => (b_dev b =? 1) && (b_blockno b =? c) | None => false end) (seq 0 NBUFn))
    as [i|] eqn:E.
  - left. apply find_some in E as [Hi E]. apply in_seq in Hi.
    destruct (cs !! i) as [b|] eqn:Eb; [|done]. bool_to_prop.
    exists i, b. split_and!; try done. lia.
  - right. intros i b (Hi & Hb & H1 & H2).
    apply (find_none _ _) with (x := i) in E; [|apply in_seq; lia].
    rewrite Hb, H1, H2, !Z.eqb_refl in E. done.
Qed.

Lemma disk_block_ok c :
  (forall c x, d !! c = Some x -> is_block x) -> is_block (disk_block d c).
Proof.
  intros H. unfold disk_block. destruct (d !! c) eqn:E; cbn; eauto with kernel.
Qed.

Lemma content_view_ok cs v h m L c : content cs v h m L -> is_block (v c).
Proof.
  intros Hc. destruct (content_cached_dec _ _ _ _ _ c Hc) as [(i & b & Hi & Hb & Hd & Hn)|Hno].
  - destruct (ct_buf _ _ _ _ _ Hc i b Hi Hb) as [Hok [?|(_ & _ & E & _)]]; [lia|].
    by rewrite <- Hn, E.
  - rewrite (ct_view _ _ _ _ _ Hc c Hno). apply disk_block_ok, Hc.
Qed.
End content.

Arguments ct_length {_ _ _ _ _ _ _ _} _.
Arguments ct_buf {_ _ _ _ _ _ _ _} _.
Arguments ct_uniq {_ _ _ _ _ _ _ _} _.
Arguments ct_held {_ _ _ _ _ _ _ _} _.
Arguments ct_dirty {_ _ _ _ _ _ _ _} _.
Arguments ct_mod {_ _ _ _ _ _ _ _} _.
Arguments ct_view {_ _ _ _ _ _ _ _} _.
Arguments ct_disk {_ _ _ _ _ _ _ _} _.

Section content_update.
Context {d : gmap Z bytes} {sz pid : Z}.
Implicit Types (v : Z -> bytes) (h : gmap nat Z) (m L : gset Z).

Lemma cached_insert (cs : list buf) i b' e j bj :
  (i < length cs)%nat ->
  cached (<[i:=b']> cs) e j bj <->
  (j = i /\ bj = b' /\ (i < NBUFn)%nat /\ b_dev b' = 1 /\ b_blockno b' = e \/
   j <> i /\ cached cs e j bj).
Proof.
  intros Hi. unfold cached. destruct (decide (j = i)) as [->|Hj].
  - rewrite list_lookup_insert_eq by done. naive_solver.
  - rewrite list_lookup_insert_ne by done. naive_solver.
Qed.

(** Buffer [i] comes to hold block [c], or keeps it, in a new state; the
    other blocks are as before. *)
Lemma content_set d' cs v h m L i b c b' v' h' m' L' :
  content d sz pid cs v h m L ->
  (i < NBUFn)%nat -> cs !! i = Some b ->
  (cached cs c i b \/ b_dev b = 0 /\ forall j bj, ~ cached cs c j bj) ->
  b_dev b' = 1 -> b_blockno b' = c -> buf_rep d' sz pid v' h' m' L' i b' ->
  (forall j, j <> i -> h' !! j = h !! j) ->
  (forall e, e <> c -> v' e = v e /\ (e ∈ m' <-> e ∈ m) /\ (e ∈ L' <-> e ∈ L) /\
                       disk_block d' e = disk_block d e) ->
  (c ∈ m' -> h' !! i = Some c) ->
  (forall e x, d' !! e = Some x -> is_block x) ->
  content d' sz pid (<[i:=b']> cs) v' h' m' L'.
Proof.
  intros Hc Hi Hb Hcase Hd1 Hbn Hrep Hh Hoff Hm Hdisk.
  assert (Hil : (i < length cs)%nat) by (rewrite (ct_length Hc); lia).
  assert (Hother : forall j bj, j <> i -> ~ cached cs c j bj).
  { intros j bj Hj Hcj. destruct Hcase as [Hci|[_ Hno]]; [|by apply (Hno j bj)].
    apply Hj. by eapply (ct_uniq Hc). }
  assert (Hself : forall e bi, cached cs e i bi -> e = c).
  { intros e bi (_ & Ei & E1 & E2). rewrite Hb in Ei. injection Ei as <-.
    destruct Hcase as [(_ & _ & _ & E)|[E _]]; [congruence|lia]. }
  split; try done.
  - by rewrite length_insert, (ct_length Hc).
  - intros j bj Hj Ej. destruct (decide (j = i)) as [->|Hji].
    + rewrite list_lookup_insert_eq in Ej by done. by injection Ej as <-.
    + rewrite list_lookup_insert_ne in Ej by done.
      destruct (ct_buf Hc j bj Hj Ej) as [Hok Hr]. split; [done|].
      rewrite Hh by done. destruct Hr as [?|(E1 & E2 & E3 & E4 & E5)]; [by left|right].
      assert (Hne : b_blockno bj <> c).
      { intros E. apply (Hother j bj Hji). by split_and!. }
      destruct (Hoff _ Hne) as (-> & Em & EL & ->). rewrite Em, EL. tauto.
  - intros e j1 j2 b1 b2 H1 H2. apply cached_insert in H1, H2; [|done..].
    destruct H1 as [(-> & -> & _ & _ & E1)|[? H1]], H2 as [(-> & -> & _ & _ & E2)|[? H2]];
      [done| | |by eapply (ct_uniq Hc)].
    + assert (e = c) as -> by congruence. by apply Hother in H2.
    + assert (e = c) as -> by congruence. by apply Hother in H1.
  - intros j e Ej. destruct (decide (j = i)) as [->|Hji].
    + exists b'. apply cached_insert; [done|]. left. split_and!; try done.
      destruct Hrep as [_ [(? & _)|(_ & _ & _ & Hl & _)]]; [lia|].
      destruct Hl as [[Hl _]|[Hl _]]; congruence.
    + rewrite Hh in Ej by done. destruct (ct_held Hc _ _ Ej) as [bj Hbj].
      exists bj. apply cached_insert; [done|]. by right.
  - intros e He. destruct (decide (e = c)) as [->|Hec].
    + exists i, b'. apply cached_insert; [done|]. left. by split_and!.
    + apply Hoff in He; [|done]. destruct (ct_dirty Hc _ He) as (j & bj & Hj).
      exists j, bj. apply cached_insert; [done|]. right. split; [|done].
      intros ->. by apply Hself in Hj.
  - intros e He. destruct (decide (e = c)) as [->|Hec]; [by eauto|].
    apply Hoff in He; [|done]. destruct (ct_mod Hc _ He) as [j Hj].
    exists j. rewrite Hh; [done|]. intros ->.
    destruct (ct_held Hc _ _ Hj) as [bj Hbj]. by apply Hself in Hbj.
  - intros e Hno.
    assert (Hec : e <> c).
    { intros ->. apply (Hno i b'), cached_insert; [done|]. left. by split_and!. }
    destruct (Hoff e Hec) as (-> & _ & _ & ->). apply Hc.
    intros j bj Hj. apply (Hno j bj), cached_insert; [done|]. right. split; [|done].
    intros ->. by apply Hself in Hj.
Qed.

(** An idle clean buffer can be emptied. *)
Lemma content_evict cs v h m L i b b' :
  content d sz pid cs v h m L ->
  (i < NBUFn)%nat -> cs !! i = Some b ->
  b_refcnt b = 0 -> Z.land (b_flags b) B_DIRTY = 0 ->
  is_block (b_data b') -> b_dev b' = 0 -> b_flags b' = 0 -> b_refcnt b' = 0 ->
  sl_locked (b_lock b') = false ->
  content d sz pid (<[i:=b']> cs) v h m L.
Proof.
  intros Hc Hi Hb Hr Hf Hok' Hd' Hf' Hr' Hl'.
  assert (Hil : (i < length cs)%nat) by (rewrite (ct_length Hc); lia).
  assert (Hnoh : h !! i = None).
  { destruct (ct_buf Hc i b Hi Hb) as [_ [?|(_ & _ & _ & Hl & _)]];
      [by naive_solver|]. destruct Hl as [(_ & ? & _)|(? & _)]; [lia|done]. }
  assert (Hold : forall e bi, cached cs e i bi -> v e = disk_block d e /\ (e ∉ L) /\ (e ∉ m)).
  { intros e bi (_ & Ei & E1 & E2). rewrite Hb in Ei. injection Ei as <-.
    destruct (ct_buf Hc i b Hi Hb) as [_ [?|(_ & _ & Ev & _ & Hfl)]]; [lia|].
    assert (Hem : e ∉ m).
    { intros Hem. destruct (ct_mod Hc _ Hem) as [j Hj].
      destruct (ct_held Hc _ _ Hj) as [bj Hbj].
      assert (j = i) as -> by (eapply (ct_uniq Hc); [exact Hbj|by split_and!]). congruence. }
    destruct Hfl as [[E _]|(_ & HL & Hdd)]; [rewrite E in Hf; done|].
    rewrite <- E2 in *. rewrite Ev. auto. }
  split; try apply Hc.
  - by rewrite length_insert, (ct_length Hc).
  - intros j bj Hj Ej. destruct (decide (j = i)) as [->|Hji].
    + rewrite list_lookup_insert_eq in Ej by done. injection Ej as <-.
      split; [done|]. left. by split_and!.
    + rewrite list_lookup_insert_ne in Ej by done. by apply Hc.
  - intros e j1 j2 b1 b2 H1 H2. apply cached_insert in H1, H2; [|done..].
    destruct H1 as [(_ & _ & _ & ? & _)|[_ H1]]; [lia|].
    destruct H2 as [(_ & _ & _ & ? & _)|[_ H2]]; [lia|]. by eapply (ct_uniq Hc).
  - intros j e Ej. destruct (ct_held Hc _ _ Ej) as [bj Hbj].
    exists bj. apply cached_insert; [done|]. right. split; [congruence|done].
  - intros e He. destruct (ct_dirty Hc _ He) as (j & bj & Hj).
    exists j, bj. apply cached_insert; [done|]. right. split; [|done].
    intros ->. by destruct (Hold _ _ Hj) as (_ & ? & _).
  - intros e Hno.
    destruct (content_cached_dec _ _ _ _ _ _ _ _ e Hc) as [(j & bj & Hj)|Hno']; [|by apply Hc].
    destruct (decide (j = i)) as [->|Hji]; [by eapply Hold|].
    exfalso. apply (Hno j bj), cached_insert; [done|]. by right.
Qed.

(** With fewer than [NBUF] blocks held or dirty, some buffer is idle and
    clean. *)
Lemma content_has_free cs v h m L :
  content d sz pid cs v h m L ->
  (size h + size L < NBUFn)%nat ->
  exists i b, (i < NBUFn)%nat /\ cs !! i = Some b /\ recyclable b = true.
Proof.
  intros Hc Hlt.
  destruct (List.find (fun i => match cs !! i with Some b => recyclable b | None => false end)
    (seq 0 NBUFn)) as [i|] eqn:E.
  { apply find_some in E as [Hi E]. apply in_seq in Hi.
    destruct (cs !! i) as [b|] eqn:Eb; [|done]. exists i, b. split_and!; [lia|done..]. }
  exfalso.
  (* every buffer is held or holds a dirty block *)
  set (blk i := default 0 (b_blockno <$> cs !! i)).
  assert (Hall : forall i, (i < NBUFn)%nat -> i ∉ dom h -> blk i ∈ L /\ exists b, cached cs (blk i) i b).
  { intros i Hi Hih. apply not_elem_of_dom in Hih.
    destruct (lookup_lt_is_Some_2 cs i) as [b Hb]; [rewrite (ct_length Hc); lia|].
    apply (find_none _ _) with (x := i) in E; [|apply in_seq; lia]. rewrite Hb in E.
    unfold blk. rewrite Hb. cbn. unfold recyclable in E.
    destruct (ct_buf Hc i b Hi Hb) as [_ [(_ & E1 & E2 & _)|(E0 & _ & _ & Hl & Hf)]].
    { by rewrite E1, E2 in E. }
    destruct Hl as [[? _]|(_ & E2 & _)]; [congruence|]. rewrite E2 in E.
    destruct Hf as [[_ ?]|[E1 _]]; [|by rewrite E1 in E].
    split; [done|]. exists b. by split_and!. }
  set (free := filter (fun i => i ∉ dom h) (seq 0 NBUFn)).
  set (busy := filter (fun i => i ∈ dom h) (seq 0 NBUFn)).
  assert (Hsum : (length busy + length free = NBUFn)%nat).
  { unfold busy, free. rewrite <- (length_seq NBUFn 0) at 3. generalize (seq 0 NBUFn).
    induction l as [|x l IH]; [done|]. rewrite !filter_cons.
    destruct (decide (x ∈ dom h)), (decide (x ∉ dom h)); try done; simpl; lia. }
  assert (Hb : (length busy <= size h)%nat).
  { rewrite <- size_dom. change (length busy) with (length busy).
    rewrite <- (size_list_to_set (C := gset nat)).
    - apply subseteq_size. intros x Hx%elem_of_list_to_set.
      by apply list_elem_of_filter in Hx as [? _].
    - apply NoDup_filter, NoDup_seq. }
  assert (Hf : (length free <= size L)%nat).
  { rewrite <- (length_fmap blk). rewrite <- (size_list_to_set (C := gset Z)).
    - apply subseteq_size. intros x Hx%elem_of_list_to_set.
      apply list_elem_of_fmap in Hx as (i & -> & Hi).
      apply list_elem_of_filter in Hi as [? Hi]. apply elem_of_seq in Hi.
      apply Hall; [lia|done].
    - apply NoDup_fmap_2_strong; [|apply NoDup_filter, NoDup_seq].
      intros i j Hi Hj Hij. apply list_elem_of_filter in Hi as [Hi1 Hi2], Hj as [Hj1 Hj2].
      apply elem_of_seq in Hi2, Hj2.
      destruct (Hall i) as (_ & bi & Hbi); [lia|done|].
      destruct (Hall j) as (_ & bj & Hbj); [lia|done|].
      rewrite Hij in Hbi. by eapply (ct_uniq Hc). }
  lia.
Qed.
End content_update.

(** * The operations on what the cache represents *)

Definition bio_rep (s : bstate) (v : Z -> bytes) (h : gmap nat Z) (m L : gset Z) : Prop :=
  (exists order, ring (bufs s) order) /\
  content (disk s) (disksize s) (curpid s) (core <$> bufs s) v h m L.

(** The disk and the process are untouched. *)
Definition same_disk (s s' : bstate) : Prop :=
  disk s' = disk s /\ disksize s' = disksize s /\ curpid s' = curpid s /\
  disk_writes s' = disk_writes s.

Lemma same_disk_refl s : same_disk s s.
Proof. by split_and!. Qed.

Lemma same_disk_trans s1 s2 s3 : same_disk s1 s2 -> same_disk s2 s3 -> same_disk s1 s3.
Proof. unfold same_disk. naive_solver congruence. Qed.

Lemma lookup_core (l : list buf) (i : nat) b : l !! i = Some b -> (core <$> l) !! i = Some (core b).
Proof. intros H. by rewrite list_lookup_fmap, H. Qed.

Lemma lookup_core_inv (l : list buf) (i : nat) b :
  (core <$> l) !! i = Some b -> exists b', l !! i = Some b' /\ b = core b'.
Proof. rewrite list_lookup_fmap. destruct (l !! i); naive_solver. Qed.

Lemma lookup_alter_here (f : buf -> buf) (l : list buf) (i : nat) b :
  l !! i = Some b -> alter f i l !! i = Some (f b).
Proof. intros H. by rewrite list_lookup_alter_eq, H. Qed.

Lemma core_alter_insert (f : buf -> buf) (l : list buf) (i : nat) b :
  l !! i = Some b -> core <$> alter f i l = <[i := core (f b)]> (core <$> l).
Proof.
  intros H. apply list_eq. intros j. destruct (decide (i = j)) as [->|Hj].
  - rewrite list_lookup_insert_eq by (rewrite length_fmap; by eapply lookup_lt_Some).
    by rewrite list_lookup_fmap, (lookup_alter_here _ _ _ _ H).
  - by rewrite list_lookup_insert_ne, !list_lookup_fmap, list_lookup_alter_ne.
Qed.

Lemma alter_alter_same (f g : buf -> buf) (l : list buf) (i : nat) :
  alter f i (alter g i l) = alter (fun b => f (g b)) i l.
Proof. apply list_eq. intros j. rewrite !list_lookup_alter. case_decide; [|done].
  rewrite decide_True by done. by destruct (l !! i). Qed.

(** [bio_rep] seen at one buffer of the array. *)
Lemma bio_rep_buf s v h m L i b :
  bio_rep s v h m L -> (i < NBUFn)%nat -> bufs s !! i = Some b ->
  buf_rep (disk s) (disksize s) (curpid s) v h m L i b.
Proof.
  intros [_ Hc] Hi Hb. exact (ct_buf Hc i _ Hi (lookup_core _ _ _ Hb)).
Qed.

Lemma bio_rep_held s v h m L i c :
  bio_rep s v h m L -> h !! i = Some c ->
  exists b, (i < NBUFn)%nat /\ bufs s !! i = Some b /\ b_dev b = 1 /\ b_blockno b = c /\
    b_refcnt b = 1 /\ b_lock b = mkSleeplock true (curpid s) /\ v c = b_data b /\
    0 <= c < disksize s /\ is_block (b_data b) /\
    (b_flags b = 6 /\ c ∈ L \/ b_flags b = 2 /\ c ∉ L).
Proof.
  intros Hr Hh. pose proof Hr as [_ Hc].
  destruct (ct_held Hc _ _ Hh) as (b0 & Hi & Hb & Hd & Hn).
  apply lookup_core_inv in Hb as (b & Hb & ->). cbn in Hd, Hn.
  destruct (bio_rep_buf _ _ _ _ _ _ _ Hr Hi Hb) as [Hok [?|(_ & Hsz & Hv & Hl & Hf)]]; [lia|].
  rewrite Hn in *. exists b. destruct Hl as [(_ & ? & ?)|[? _]]; [|congruence].
  split_and!; try done; [lia..|]. naive_solver.
Qed.

(** The buffer array with buffer [i] replaced, links kept. *)
Lemma bio_rep_alter s s' f v h m L v' h' m' L' i b c :
  bio_rep s v h m L ->
  bufs s' = alter f i (bufs s) -> disksize s' = disksize s -> curpid s' = curpid s ->
  (forall b, b_next (f b) = b_next b) -> (forall b, b_prev (f b) = b_prev b) ->
  (i < NBUFn)%nat -> bufs s !! i = Some b -> b_dev b = 1 -> b_blockno b = c ->
  b_dev (f b) = 1 -> b_blockno (f b) = c ->
  buf_rep (disk s') (disksize s) (curpid s) v' h' m' L' i (f b) ->
  (forall j, j <> i -> h' !! j = h !! j) ->
  (forall e, e <> c -> v' e = v e /\ (e ∈ m' <-> e ∈ m) /\ (e ∈ L' <-> e ∈ L) /\
                       disk_block (disk s') e = disk_block (disk s) e) ->
  (c ∈ m' -> h' !! i = Some c) ->
  (forall e x, disk s' !! e = Some x -> is_block x) ->
  bio_rep s' v' h' m' L'.
Proof.
  intros [[order Hr] Hc] Hbs Hsz Hp Hn Hpv Hi Hb Hd Hbn Hd' Hbn' Hrep Hh Hoff Hm Hdk.
  unfold bio_rep. rewrite Hbs. split; [exists order; by apply ring_alter|].
  rewrite Hsz, Hp, (core_alter_insert _ _ _ _ Hb).
  eapply content_set; [exact Hc|exact Hi|exact (lookup_core _ _ _ Hb)| | | | | | |done|done]; try done.
  left. split_and!; try done. by apply lookup_core.
Qed.

(** Block [c] is looked up in the array itself. *)
Lemma find_caches s order v h m L c :
  ring (bufs s) order -> bio_rep s v h m L ->
  match List.find (buf_test (caches 1 c) s) order with
  | Some i => exists b, (i < NBUFn)%nat /\ bufs s !! i = Some b /\
                        b_dev b = 1 /\ b_blockno b = c
  | None => forall i b, ~ cached (core <$> bufs s) c i b
  end.
Proof.
  intros Hr Hrep. unfold buf_test, caches.
  destruct (List.find _ order) as [i|] eqn:E.
  - apply find_some in E as [Hi E]. apply list_elem_of_In, (ring_elem _ _ _ Hr) in Hi.
    destruct (bufs s !! i) as [b|]; [|done]. bool_to_prop. exists b. by split_and!.
  - intros i b (Hi & Hb & Hd & Hn). apply lookup_core_inv in Hb as (b' & Hb & ->).
    apply (find_none _ _) with (x := i) in E;
      [|by apply list_elem_of_In, (ring_elem _ _ _ Hr)].
    cbn in Hd, Hn. by rewrite Hb, Hd, Hn, !Z.eqb_refl in E.
Qed.

Lemma wp_acquire_buf s i b (Q : unit -> bstate -> Prop) :
  bufs s !! i = Some b -> sl_locked (b_lock b) = false ->
  Q tt (set_bufs (alter (set_lock (mkSleeplock true (curpid s))) i (bufs s)) s) ->
  wp (acquire_buf i) s Q.
Proof.
  intros Hb Hl HQ. unfold acquire_buf. wp_step. eapply wp_getbuf; [exact Hb|].
  wp_steps. unfold acquiresleep. rewrite Hl.
  apply wp_updbuf; [by eapply lookup_lt_Some|done].
Qed.

Lemma bread_hit s v h m L c i b (Q : nat -> bstate -> Prop) :
  bio_rep s v h m L -> (i < NBUFn)%nat -> bufs s !! i = Some b ->
  b_dev b = 1 -> b_blockno b = c -> (forall i, h !! i <> Some c) ->
  (forall s', h !! i = None -> same_disk s s' -> bio_rep s' v (<[i:=c]> h) m L -> Q i s') ->
  wp (updbuf i (fun b => set_refcnt (b_refcnt b + 1) b) ;; acquire_buf i ;; ret i) s
     (fun i s' => wp (let* b := getbuf i in
                      (if Z.land (b_flags b) B_VALID =? 0 then iderw i else ret tt) ;;
                      ret i) s' Q).
Proof.
  intros Hrep Hi Hb Hd Hn Hnh HQ.
  destruct (bio_rep_buf _ _ _ _ _ _ _ Hrep Hi Hb) as [Hok [?|(_ & Hsz & Hv & Hl & Hf)]]; [lia|].
  rewrite Hn in *.
  destruct Hl as [[? _]|(Hhi & Hrc & Hlk)]; [by apply Hnh in H|].
  wp_step. apply wp_updbuf; [by eapply lookup_lt_Some|].
  wp_step. eapply wp_acquire_buf; [cbn; by apply lookup_alter_here|done|].
  cbn. wp_steps. eapply wp_getbuf.
  { cbn. do 2 apply lookup_alter_here. exact Hb. }
  cbn. assert ((Z.land (b_flags b) B_VALID =? 0) = false) as ->.
  { destruct Hf as [[-> _]|[-> _]]; done. }
  wp_steps. apply HQ; [done|by split_and!|].
  eapply (bio_rep_alter s _ (fun b => set_lock (mkSleeplock true (curpid s))
    (set_refcnt (b_refcnt b + 1) b))) with (c := c) (i := i); try done; cbn.
  - apply alter_alter_same.
  - split; [done|]. right. cbn. rewrite Hn, lookup_insert_eq, Hrc.
    split_and!; try done; [lia..|by left; split_and!].
  - intros j Hj. by rewrite lookup_insert_ne.
  - intros Hm. by rewrite lookup_insert_eq.
  - apply (ct_disk (proj2 Hrep)).
Qed.

Lemma wp_holding_buf s i b (Q : bool -> bstate -> Prop) :
  bufs s !! i = Some b -> Q (holdingsleep (curpid s) (b_lock b)) s ->
  wp (holding_buf i) s Q.
Proof. intros Hb HQ. unfold holding_buf. wp_step. eapply wp_getbuf; [exact Hb|]. by wp_steps. Qed.

Lemma holdingsleep_self pid : holdingsleep pid (mkSleeplock true pid) = true.
Proof. apply Z.eqb_refl. Qed.

(** [iderw] on a held buffer that is not valid reads the block. *)
Lemma wp_iderw_read s i b (Q : unit -> bstate -> Prop) :
  bufs s !! i = Some b -> b_lock b = mkSleeplock true (curpid s) ->
  b_flags b = 0 -> b_dev b = 1 -> 0 <= b_blockno b < disksize s ->
  Q tt (set_bufs (alter (fun b' => set_flags 2 (set_data
          (disk_block (disk s) (b_blockno b)) b')) i (bufs s)) s) ->
  wp (iderw i) s Q.
Proof.
  intros Hb Hl Hf Hd Hn HQ. unfold iderw. wp_step. eapply wp_holding_buf; [exact Hb|].
  rewrite Hl, holdingsleep_self. wp_step. eapply wp_getbuf; [exact Hb|]. wp_steps.
  rewrite Hf, Hd. rewrite (proj2 (Z.leb_gt _ _)) by lia. eval_tests.
  wp_step. apply wp_updbuf; [by eapply lookup_lt_Some|]. cbn.
  apply wp_updbuf; cbn; [rewrite length_alter; by eapply lookup_lt_Some|].
  rewrite alter_alter_same. cbn.
  match goal with |- Q tt (set_bufs ?l _) => replace l with
    (alter (fun b' => set_flags 2 (set_data (disk_block (disk s) (b_blockno b)) b')) i (bufs s)) end;
    [done|].
  apply list_eq. intros j. rewrite !list_lookup_alter. case_decide; [|done]. subst.
  rewrite Hb. cbn. unfold set_flags. cbn. by rewrite Hf.
Qed.

Lemma bread_miss s v h m L c i b (Q : nat -> bstate -> Prop) :
  bio_rep s v h m L -> (i < NBUFn)%nat -> bufs s !! i = Some b ->
  recyclable b = true -> 0 <= c < disksize s ->
  (forall j bj, ~ cached (core <$> bufs s) c j bj) ->
  (forall s', h !! i = None -> same_disk s s' -> bio_rep s' v (<[i:=c]> h) m L -> Q i s') ->
  wp (updbuf i (set_identity 1 c) ;; acquire_buf i ;; ret i) s
     (fun i s' => wp (let* b := getbuf i in
                      (if Z.land (b_flags b) B_VALID =? 0 then iderw i else ret tt) ;;
                      ret i) s' Q).
Proof.
  intros Hrep Hi Hb Hrec Hsz Hno HQ. unfold recyclable in Hrec. bool_to_prop.
  destruct (bio_rep_buf _ _ _ _ _ _ _ Hrep Hi Hb) as [Hok Hcase].
  assert (Hidle : h !! i = None /\ sl_locked (b_lock b) = false).
  { destruct Hcase as [?|(_ & _ & _ & [(_ & ? & _)|?] & _)]; [naive_solver|lia|naive_solver]. }
  destruct Hidle as [Hhi Hlk].
  pose proof (lookup_lt_Some _ _ _ Hb) as Hlt.
  wp_step. apply wp_updbuf; [done|].
  wp_step. eapply wp_acquire_buf; [cbn; by apply lookup_alter_here|done|].
  cbn. wp_steps. eapply wp_getbuf.
  { cbn. do 2 apply lookup_alter_here. exact Hb. }
  cbn. wp_step. eapply wp_iderw_read.
  { cbn. do 2 apply lookup_alter_here. exact Hb. }
  1-4: done.
  cbn. wp_steps. apply HQ; [done|by split_and!|].
  rewrite !alter_alter_same. destruct Hrep as [[order Hr] Hc]. split.
  { exists order. cbn. by apply ring_alter. }
  cbn. rewrite (core_alter_insert _ _ _ _ Hb). cbn.
  set (b0 := blank_buf).
  pose proof (content_evict _ _ _ _ _ i (core b) b0 Hc Hi (lookup_core _ _ _ Hb)) as Hev.
  rewrite <- (list_insert_insert_eq _ i _ b0).
  eapply content_set; [apply Hev|exact Hi| | | | | | | | |].
  1-7: try done; eauto with kernel.
  - apply list_lookup_insert_eq. by rewrite length_fmap.
  - right. split; [done|]. intros j bj Hj. apply cached_insert in Hj; [|by rewrite length_fmap].
    destruct Hj as [(_ & _ & _ & ? & _)|[_ Hj]]; [done|]. by apply Hno in Hj.
  - done.
  - done.
  - split; [apply disk_block_ok, (ct_disk Hc)|]. right. cbn. rewrite lookup_insert_eq.
    split_and!; try done; [lia..| |by left|].
    + by rewrite (ct_view Hc c Hno).
    + right. split_and!; [done| |done].
      intros HL. destruct (ct_dirty Hc _ HL) as (j & bj & Hj). by apply Hno in Hj.
  - intros j Hj. by rewrite lookup_insert_ne.
  - done.
  - intros _. by rewrite lookup_insert_eq.
  - apply (ct_disk Hc).
Qed.

Lemma wp_bread s v h m L c (Q : nat -> bstate -> Prop) :
  bio_rep s v h m L -> 0 <= c < disksize s -> (forall i, h !! i <> Some c) ->
  (c ∈ L \/ (size h + size L < NBUFn)%nat) ->
  (forall i s', h !! i = None -> same_disk s s' -> bio_rep s' v (<[i:=c]> h) m L -> Q i s') ->
  wp (bread 1 c) s Q.
Proof.
  intros Hrep Hsz Hnh Hroom HQ. pose proof Hrep as [[order Hr] Hc].
  destruct (ring_lookup _ _ NBUFn Hr) as [hd Hhd]; [done|].
  unfold bread. wp_step. unfold bget. wp_step. eapply wp_getbuf; [exact Hhd|].
  rewrite <- (nxs_lookup _ _ _ Hhd), <- (pvs_lookup _ _ _ Hhd).
  wp_step. eapply wp_intro; [by apply bget_lookup_find|].
  pose proof (find_caches s order v h m L c Hr Hrep) as Hf.
  destruct (List.find _ order) as [i|].
  - destruct Hf as (b & Hi & Hb & Hd & Hn).
    eapply bread_hit; [exact Hrep|exact Hi|exact Hb|done|done|done|]. naive_solver.
  - destruct Hroom as [HL|Hroom].
    { destruct (ct_dirty Hc _ HL) as (j & bj & Hj). by apply Hf in Hj. }
    wp_step. eapply wp_intro; [by apply bget_recycle_find|].
    destruct (List.find _ (rev order)) as [i|] eqn:E.
    + apply find_some in E as [Hi E]. unfold buf_test in E.
      destruct (bufs s !! i) as [b|] eqn:Hb; [|done].
      assert (i < NBUFn)%nat.
      { apply (ring_elem _ _ _ Hr), list_elem_of_In. by apply in_rev. }
      eapply bread_miss; [exact Hrep|done|exact Hb|done|done|done|]. naive_solver.
    + exfalso. destruct (content_has_free _ _ _ _ _ Hc Hroom) as (i & b & Hi & Hb & Hrc).
      apply lookup_core_inv in Hb as (b' & Hb & ->).
      apply (find_none _ _) with (x := i) in E.
      * unfold buf_test in E. rewrite Hb in E.
        change (recyclable (core b')) with (recyclable b') in Hrc. congruence.
      * apply in_rev. rewrite rev_involutive. by apply list_elem_of_In, (ring_elem _ _ _ Hr).
Qed.

Lemma wp_buf_data s v h m L i c (Q : bytes -> bstate -> Prop) :
  bio_rep s v h m L -> h !! i = Some c -> Q (v c) s -> wp (buf_data i) s Q.
Proof.
  intros Hr Hh HQ. destruct (bio_rep_held _ _ _ _ _ _ _ Hr Hh)
    as (b & _ & Hb & _ & _ & _ & _ & Hv & _).
  unfold buf_data. wp_step. eapply wp_getbuf; [exact Hb|]. wp_step. by rewrite <- Hv.
Qed.

Definition vupd (v : Z -> bytes) (c : Z) (x : bytes) : Z -> bytes :=
  fun e => if decide (e = c) then x else v e.

Lemma vupd_eq v c x : vupd v c x c = x.
Proof. unfold vupd. by rewrite decide_True. Qed.

Lemma vupd_ne v c x e : e <> c -> vupd v c x e = v e.
Proof. intros. unfold vupd. by rewrite decide_False. Qed.

Lemma wp_set_buf_data s v h m L i c x (Q : unit -> bstate -> Prop) :
  bio_rep s v h m L -> h !! i = Some c -> is_block x ->
  (forall s', same_disk s s' -> bio_rep s' (vupd v c x) h (m ∪ {[c]}) L -> Q tt s') ->
  wp (set_buf_data i x) s Q.
Proof.
  intros Hr Hh Hx HQ. destruct (bio_rep_held _ _ _ _ _ _ _ Hr Hh)
    as (b & Hi & Hb & Hd & Hn & Hrc & Hlk & Hv & Hsz & Hok & Hf).
  unfold set_buf_data. apply wp_updbuf; [by eapply lookup_lt_Some|].
  apply HQ; [by split_and!|].
  eapply (bio_rep_alter s _ (set_data x)) with (c := c) (i := i); try done; cbn.
  - split; [done|]. right. cbn. rewrite Hn, vupd_eq, Hlk. split_and!; try done; [lia..|by left|].
    destruct Hf as [?|[-> ?]]; [by left|right]. split_and!; try done. set_solver.
  - intros e He. rewrite vupd_ne by done. split_and!; [done|set_solver..|done].
  - apply (ct_disk (proj2 Hr)).
Qed.

(** [b->flags |= B_DIRTY], as [log_write] does to pin the buffer. *)
Definition mark_dirty (i : nat) : M bstate unit :=
  updbuf i (fun b => set_flags (Z.lor (b_flags b) B_DIRTY) b).

Lemma wp_mark_dirty s v h m L i c (Q : unit -> bstate -> Prop) :
  bio_rep s v h m L -> h !! i = Some c ->
  (forall s', same_disk s s' -> bio_rep s' v h (m ∖ {[c]}) (L ∪ {[c]}) -> Q tt s') ->
  wp (mark_dirty i) s Q.
Proof.
  intros Hr Hh HQ. destruct (bio_rep_held _ _ _ _ _ _ _ Hr Hh)
    as (b & Hi & Hb & Hd & Hn & Hrc & Hlk & Hv & Hsz & Hok & Hf).
  apply wp_updbuf; [by eapply lookup_lt_Some|].
  apply HQ; [by split_and!|].
  eapply (bio_rep_alter s _ (fun b => set_flags (Z.lor (b_flags b) B_DIRTY) b))
    with (c := c) (i := i); try done; cbn.
  - split; [done|]. right. cbn. rewrite Hn, Hlk. split_and!; try done; [lia..|by left|].
    left. split; [|set_solver]. by destruct Hf as [[-> _]|[-> _]].
  - intros e He. split_and!; [done|set_solver..|done].
  - apply (ct_disk (proj2 Hr)).
Qed.

Lemma wp_bwrite s v h m L i c (Q : unit -> bstate -> Prop) :
  bio_rep s v h m L -> h !! i = Some c ->
  (forall s', disk s' = <[c := v c]> (disk s) -> disksize s' = disksize s ->
     curpid s' = curpid s -> disk_writes s' = disk_writes s ++ [(c, v c)] ->
     bio_rep s' v h (m ∖ {[c]}) (L ∖ {[c]}) -> Q tt s') ->
  wp (bwrite i) s Q.
Proof.
  intros Hr Hh HQ. destruct (bio_rep_held _ _ _ _ _ _ _ Hr Hh)
    as (b & Hi & Hb & Hd & Hn & Hrc & Hlk & Hv & Hsz & Hok & Hf).
  assert (Hfl : Z.lor (b_flags b) B_DIRTY = 6) by (by destruct Hf as [[-> _]|[-> _]]).
  pose proof (lookup_lt_Some _ _ _ Hb) as Hlt.
  unfold bwrite. wp_step. eapply wp_holding_buf; [exact Hb|].
  rewrite Hlk, holdingsleep_self. cbn. wp_step. apply wp_updbuf; [done|].
  unfold iderw. wp_step. eapply wp_holding_buf; [cbn; by apply lookup_alter_here|].
  cbn. rewrite Hlk, holdingsleep_self. wp_step.
  eapply wp_getbuf; [cbn; by apply lookup_alter_here|]. wp_step. cbn.
  rewrite Hfl, Hd, Hn. rewrite (proj2 (Z.leb_gt _ _)) by lia. eval_tests.
  wp_step. wp_step. apply wp_updbuf; [cbn; by rewrite length_alter|].
  unfold disk_write. wp_step. cbn. apply wp_updbuf; [cbn; by rewrite !length_alter|].
  cbn. rewrite !alter_alter_same. cbn. rewrite <- Hv. apply HQ; try done.
  eapply (bio_rep_alter s _ _) with (c := c) (i := i) (b := b); try done; cbn.
  - split; [done|]. right. cbn. rewrite Hn, Hlk. split_and!; try done; [lia..|by left|].
    right. split_and!; [done|set_solver|]. intros _. unfold disk_block.
    by rewrite lookup_insert_eq.
  - intros e He. split_and!; [done|set_solver..|].
    unfold disk_block. by rewrite lookup_insert_ne.
  - intros e x. rewrite lookup_insert. case_decide; [intros [= <-]; by rewrite Hv|].
    apply (ct_disk (proj2 Hr)).
Qed.

Lemma wp_brelse s v h m L i c (Q : unit -> bstate -> Prop) :
  bio_rep s v h m L -> h !! i = Some c -> c ∉ m ->
  (forall s', same_disk s s' -> bio_rep s' v (delete i h) m L -> Q tt s') ->
  wp (brelse i) s Q.
Proof.
  intros Hr Hh Hm HQ. pose proof (bio_rep_held _ _ _ _ _ _ _ Hr Hh)
    as (b & Hi & Hb & Hd & Hn & Hrc & Hlk & Hv & Hsz & Hok & Hf).
  pose proof (lookup_lt_Some _ _ _ Hb) as Hlt.
  unfold brelse. wp_step. eapply wp_holding_buf; [exact Hb|].
  rewrite Hlk, holdingsleep_self. cbn. wp_step. apply wp_updbuf; [done|].
  wp_step. apply wp_updbuf; [cbn; by rewrite length_alter|].
  wp_step. eapply wp_getbuf; [cbn; do 2 apply lookup_alter_here; exact Hb|].
  cbn. rewrite Hrc. eval_tests. rewrite alter_alter_same. cbn.
  set (f := fun b => _) in |- *. set (s1 := set_bufs _ _).
  assert (Hr1 : bio_rep s1 v (delete i h) m L).
  { eapply (bio_rep_alter s _ f) with (c := c) (i := i); try done; cbn.
    - destruct (bio_rep_buf _ _ _ _ _ _ _ Hr Hi Hb) as [_ [?|(_ & _ & _ & _ & Hf')]]; [lia|].
      split; [done|]. right. cbn. rewrite Hn in *. rewrite lookup_delete_eq, Hrc.
      split_and!; try done; [lia..|by right].
    - intros j Hj. by rewrite lookup_delete_ne.
    - apply (ct_disk (proj2 Hr)). }
  destruct Hr1 as [[order Hring] Hc].
  assert (Hin : i ∈ order) by by apply (ring_elem _ _ _ Hring).
  apply list_elem_of_split in Hin as (o1 & o2 & ->).
  eapply wp_move_to_front; [exact Hring|]. intros l' Hcore Hring'.
  apply HQ; [by split_and!|]. split; [by eexists|]. cbn. by rewrite Hcore.
Qed.

Lemma bio_rep_ext s v v' h m L :
  bio_rep s v h m L -> (forall e, v' e = v e) -> bio_rep s v' h m L.
Proof.
  intros [Hr Hc] Hv. split; [done|]. split; try apply Hc.
  - intros i b Hi Hb. destruct (ct_buf Hc i b Hi Hb) as [Hok Hcase]. split; [done|].
    by rewrite Hv.
  - intros c Hno. rewrite Hv. by apply (ct_view Hc).
Qed.

Lemma bio_rep_view_ok s v h m L c : bio_rep s v h m L -> is_block (v c).
Proof. intros [_ Hc]. by eapply content_view_ok. Qed.

(** A block that is neither dirty nor modified is on the disk as cached. *)
Lemma bio_rep_clean s v h m L c :
  bio_rep s v h m L -> c ∉ L -> c ∉ m -> v c = disk_block (disk s) c.
Proof.
  intros [_ Hc] HL Hm.
  destruct (content_cached_dec _ _ _ _ _ _ _ _ c Hc) as [(i & b & Hi & Hb & Hd & Hn)|Hno];
    [|by apply (ct_view Hc)].
  destruct (ct_buf Hc i b Hi Hb) as [_ [?|(_ & _ & Hv & _ & Hf)]]; [lia|]. rewrite Hn in *.
  destruct Hf as [[_ ?]|(_ & _ & Hf)]; [done|]. rewrite Hv. auto.
Qed.

(** The array after [binit]: the last buffer is first in the list. *)
Definition init_bufs : list buf :=
  map (fun i => set_next (if decide (i = 0)%nat then NBUFn else i - 1)%nat
                  (set_prev (S i) blank_buf)) (seq 0 NBUFn)
  ++ [set_next (NBUFn - 1) (set_prev 0 blank_buf)].

Lemma binit_boot d sz pid :
  binit (boot_state d sz pid) = Ok tt (set_bufs init_bufs (boot_state d sz pid)).
Proof. vm_compute. reflexivity. Qed.

Lemma init_bufs_ring : ring init_bufs (rev (seq 0 NBUFn)).
Proof.
  split; [done|symmetry; apply Permutation_rev|].
  unfold ringf. vm_compute. tauto.
Qed.

Lemma init_bufs_core : core <$> init_bufs = replicate (S NBUFn) blank_buf.
Proof. vm_compute. reflexivity. Qed.

(** After [binit] the cache is empty and represents the disk. *)
Lemma binit_rep d sz pid :
  (forall c x, d !! c = Some x -> is_block x) ->
  bio_rep (set_bufs init_bufs (boot_state d sz pid)) (disk_block d) ∅ ∅ ∅.
Proof.
  intros Hd. split; [eexists; apply init_bufs_ring|]. cbn [bufs set_bufs]. rewrite init_bufs_core.
  assert (Hno : forall c i b, ~ cached (replicate (S NBUFn) blank_buf) c i b).
  { intros c i b (_ & Hb & Hdev & _). apply lookup_replicate in Hb as [-> _]. done. }
  split; cbn; try done.
  - intros i b Hi Hb. change (replicate (S NBUFn) blank_buf !! i = Some b) in Hb.
    apply lookup_replicate in Hb as [-> _]. split; [apply zero_block_ok|]. left.
    by rewrite lookup_empty.
  - intros c i j bi bj Hi. by apply Hno in Hi.
Qed.
