(* ===== verification/Ide.v ===== *)
(** ide.c: the disk driver that works with interrupts.

    The drive is hardware: [Drive] is what the driver uses of it, and [DriveLaws]
    the documented behaviour of the ports.  The queue of requests is the list
    that [idequeue] and the fields [qnext] form.  A critical section under
    [idelock] is a single step; [asleep] are the buffers on which a process sleeps. *)
From S2P Require Import Prelude Layout Locks Bio.

(** * The drive *)

Definition SECTOR_SIZE : Z := 512.
Definition IDE_BSY : Z := 0x80.
Definition IDE_DRDY : Z := 0x40.
Definition IDE_DF : Z := 0x20.
Definition IDE_ERR : Z := 0x01.
Definition IDE_CMD_READ : Z := 0x20.
Definition IDE_CMD_WRITE : Z := 0x30.
Definition IDE_CMD_RDMUL : Z := 0xc4.
Definition IDE_CMD_WRMUL : Z := 0xc5.

(** What a drive is at: [n] sectors from [lba] of disk [dev]. *)
Inductive job :=
| Idle
| Reading (dev lba n : Z)
| Filling (dev lba n : Z)                  (* a write command that waits for its data *)
| Writing (dev lba n : Z) (data : bytes)
| DoneRead (data : bytes)                  (* the data is to be fetched *)
| DoneWrite
| Failed.

(** A new command can be given. *)
Definition accepts (j : job) : bool := match j with Idle | DoneWrite | Failed => true | _ => false end.
(** The status register shows that the drive is ready. *)
Definition settled (j : job) : bool := match j with Idle | DoneWrite | Failed | DoneRead _ => true | _ => false end.

Class Drive (H : Type) := {
  outb : Z -> Z -> H -> H;
  outsl : Z -> bytes -> H -> H;
  insl : Z -> Z -> H -> bytes * H;
  inb : Z -> H -> Z * H;
  (** What the drive holds, and how often its status has yet to be read
      before it shows that it is ready. *)
  reg : H -> Z -> Z;
  job_of : H -> job;
  media : H -> Z -> Z -> bytes;
  ready_in : H -> nat;
  max_wait : nat
}.

(** The disk and the sector that the registers select. *)
Definition sel_dev {H} `{Drive H} (h : H) : Z := Z.land (Z.shiftr (reg h 0x1f6) 4) 1.
Definition sel_lba {H} `{Drive H} (h : H) : Z :=
  reg h 0x1f3 + Z.shiftl (reg h 0x1f4) 8 + Z.shiftl (reg h 0x1f5) 16 + Z.shiftl (Z.land (reg h 0x1f6) 0x0f) 24.

Definition same_disk {H} `{Drive H} (h h' : H) : Prop := job_of h' = job_of h /\ media h' = media h.

Class DriveLaws (H : Type) `{Drive H} : Prop := {
  ready_bound h : (ready_in h <= max_wait)%nat;
  outb_control h v : same_disk h (outb 0x3f6 v h) /\ reg (outb 0x3f6 v h) = reg h;
  outb_reg h p v : accepts (job_of h) = true -> 0x1f2 <= p <= 0x1f6 ->
    same_disk h (outb p v h) /\ (forall p', reg (outb p v h) p' = if p' =? p then v else reg h p');
  outb_read h c : accepts (job_of h) = true -> c = IDE_CMD_READ \/ c = IDE_CMD_RDMUL ->
    job_of (outb 0x1f7 c h) = Reading (sel_dev h) (sel_lba h) (reg h 0x1f2) /\ media (outb 0x1f7 c h) = media h;
  outb_write h c : accepts (job_of h) = true -> c = IDE_CMD_WRITE \/ c = IDE_CMD_WRMUL ->
    job_of (outb 0x1f7 c h) = Filling (sel_dev h) (sel_lba h) (reg h 0x1f2) /\ media (outb 0x1f7 c h) = media h;
  outsl_data h d l n data : job_of h = Filling d l n -> Z.of_nat (length data) = SECTOR_SIZE * n ->
    job_of (outsl 0x1f0 data h) = Writing d l n data /\ media (outsl 0x1f0 data h) = media h;
  insl_data h data n : job_of h = DoneRead data -> Z.of_nat (length data) = 4 * n ->
    fst (insl 0x1f0 n h) = data /\ job_of (snd (insl 0x1f0 n h)) = Idle /\ media (snd (insl 0x1f0 n h)) = media h;
  inb_status h : settled (job_of h) = true ->
    same_disk h (snd (inb 0x1f7 h)) /\
    match ready_in h with
    | O => Z.land (fst (inb 0x1f7 h)) (Z.lor IDE_BSY IDE_DRDY) = IDE_DRDY /\
           (Z.land (fst (inb 0x1f7 h)) (Z.lor IDE_DF IDE_ERR) <> 0 <-> job_of h = Failed)
    | S k => Z.land (fst (inb 0x1f7 h)) IDE_BSY <> 0 /\ ready_in (snd (inb 0x1f7 h)) = k
    end
}.

(** The drive ends a command; then it raises its interrupt.  When a write fails,
    its sectors may hold anything. *)
Inductive finish {H} `{Drive H} (h h' : H) : Prop :=
| finish_read d l n : job_of h = Reading d l n -> media h' = media h ->
    job_of h' = DoneRead (concat (map (fun k => media h d (l + k)) (seqZ 0 n))) -> finish h h'
| finish_write d l n data : job_of h = Writing d l n data -> job_of h' = DoneWrite ->
    (forall d' l', media h' d' l' =
       if (d' =? d) && (l <=? l') && (l' <? l + n) then slice data (Z.to_nat (SECTOR_SIZE * (l' - l))) (Z.to_nat SECTOR_SIZE)
       else media h d' l') -> finish h h'
| finish_fail d l n : job_of h = Reading d l n -> media h' = media h -> job_of h' = Failed -> finish h h'
| finish_write_fail d l n data : job_of h = Writing d l n data -> job_of h' = Failed ->
    (forall d' l', length (media h' d' l') = length (media h d' l') /\
       ((d' =? d) && (l <=? l') && (l' <? l + n) = false -> media h' d' l' = media h d' l')) -> finish h h'.

(** * The driver *)

Record istate (H : Type) := mkIde {
  ibufs : list buf; qnext : list (option nat); idequeue : option nat; havedisk1 : bool;
  ipid : Z; asleep : gset nat; hw : H
}.
Arguments mkIde {H}.
Arguments ibufs {H}.
Arguments qnext {H}.
Arguments idequeue {H}.
Arguments havedisk1 {H}.
Arguments ipid {H}.
Arguments asleep {H}.
Arguments hw {H}.

Section driver.
Context {H : Type} `{Drive H}.
Local Abbreviation MI := (M (istate H)).

Definition set_hw (h : H) (s : istate H) : istate H :=
  mkIde (ibufs s) (qnext s) (idequeue s) (havedisk1 s) (ipid s) (asleep s) h.
Definition set_ibufs (l : list buf) (s : istate H) : istate H :=
  mkIde l (qnext s) (idequeue s) (havedisk1 s) (ipid s) (asleep s) (hw s).
Definition set_qnext (l : list (option nat)) (s : istate H) : istate H :=
  mkIde (ibufs s) l (idequeue s) (havedisk1 s) (ipid s) (asleep s) (hw s).
Definition set_idequeue (q : option nat) (s : istate H) : istate H :=
  mkIde (ibufs s) (qnext s) q (havedisk1 s) (ipid s) (asleep s) (hw s).
Definition set_havedisk1 (b : bool) (s : istate H) : istate H :=
  mkIde (ibufs s) (qnext s) (idequeue s) b (ipid s) (asleep s) (hw s).
Definition set_asleep (a : gset nat) (s : istate H) : istate H :=
  mkIde (ibufs s) (qnext s) (idequeue s) (havedisk1 s) (ipid s) a (hw s).

Definition out (f : H -> H) : MI unit := modify (fun s => set_hw (f (hw s)) s).
Definition ibuf (i : nat) : MI buf := fun s => match ibufs s !! i with Some b => Ok b s | None => Fault end.
Definition upd_ibuf (i : nat) (f : buf -> buf) : MI unit := modify (fun s => set_ibufs (alter f i (ibufs s)) s).
Definition next (i : nat) : MI (option nat) := fun s => match qnext s !! i with Some p => Ok p s | None => Fault end.
Definition set_next_of (i : nat) (p : option nat) : MI unit := modify (fun s => set_qnext (<[i := p]> (qnext s)) s).

(** [inb(0x1f7)] *)
Definition status : MI Z := fun s => let r := inb 0x1f7 (hw s) in Ok (fst r) (set_hw (snd r) s).

Definition idewait (checkerr : bool) : MI Z :=
  let* r := while_loop (S max_wait) tt (fun _ =>
    let* r := status in
    if negb (Z.land r (Z.lor IDE_BSY IDE_DRDY) =? IDE_DRDY) then ret (inl tt) else ret (inr r)) in
  if checkerr && negb (Z.land r (Z.lor IDE_DF IDE_ERR) =? 0) then ret (-1) else ret 0.

(** [ideinit], after the initialisation of the lock and the call of [ioapicenable],
    which routes the interrupt. *)
Definition ideinit : MI unit :=
  let* _ := idewait false in
  out (outb 0x1f6 (Z.lor 0xe0 (Z.shiftl 1 4))) ;;
  let* _ := for_loop 1000 0 (fun _ =>
    let* r := status in
    if negb (r =? 0) then modify (set_havedisk1 true) ;; ret (Some tt) else ret None) in
  out (outb 0x1f6 (Z.lor 0xe0 (Z.shiftl 0 4))).

Definition idestart (b : nat) : MI unit :=
  let* bf := ibuf b in
  if FSSIZE <=? b_blockno bf then panic "incorrect blockno"
  else
    let sector_per_block := BSIZE / SECTOR_SIZE in
    let sector := s32 (b_blockno bf * sector_per_block) in
    let read_cmd := if sector_per_block =? 1 then IDE_CMD_READ else IDE_CMD_RDMUL in
    let write_cmd := if sector_per_block =? 1 then IDE_CMD_WRITE else IDE_CMD_WRMUL in
    if 7 <? sector_per_block then panic "idestart"
    else
      let* _ := idewait false in
      out (outb 0x3f6 0) ;;
      out (outb 0x1f2 (u8 sector_per_block)) ;;
      out (outb 0x1f3 (Z.land sector 0xff)) ;;
      out (outb 0x1f4 (Z.land (Z.shiftr sector 8) 0xff)) ;;
      out (outb 0x1f5 (Z.land (Z.shiftr sector 16) 0xff)) ;;
      out (outb 0x1f6 (Z.lor (Z.lor 0xe0 (Z.shiftl (Z.land (b_dev bf) 1) 4)) (Z.land (Z.shiftr sector 24) 0x0f))) ;;
      if negb (Z.land (b_flags bf) B_DIRTY =? 0) then
        out (outb 0x1f7 write_cmd) ;;
        out (outsl 0x1f0 (take (Z.to_nat BSIZE) (b_data bf)))
      else out (outb 0x1f7 read_cmd).

Definition wakeup (b : nat) : MI unit := modify (fun s => set_asleep (asleep s ∖ {[b]}) s).

(** The data that [ideintr] fetches for a read. *)
Definition fetch (b : nat) : MI unit :=
  let* bf := ibuf b in
  if negb (Z.land (b_flags bf) B_DIRTY =? 0) then ret tt
  else
    let* r := idewait true in
    if 0 <=? r then
      let* s := get in
      let d := insl 0x1f0 (BSIZE / 4) (hw s) in
      put (set_hw (snd d) s) ;;
      upd_ibuf b (set_data (fst d))
    else ret tt.

Definition ideintr : MI unit :=
  let* q := gets idequeue in
  match q with
  | None => ret tt
  | Some b =>
      let* nx := next b in
      modify (set_idequeue nx) ;;
      fetch b ;;
      upd_ibuf b (fun bf => set_flags (Z.lor (b_flags bf) B_VALID) bf) ;;
      upd_ibuf b (fun bf => set_flags (Z.land (b_flags bf) (Z.lnot B_DIRTY)) bf) ;;
      wakeup b ;;
      match nx with Some b' => idestart b' | None => ret tt end
  end.

(** The loop that finds the end of the queue; [None] stands for the address of
    [idequeue], [Some i] for that of the field of buffer [i]. *)
Definition load (pp : option nat) : MI (option nat) :=
  match pp with None => gets idequeue | Some i => next i end.
Definition assign (pp : option nat) (p : option nat) : MI unit :=
  match pp with None => modify (set_idequeue p) | Some i => set_next_of i p end.
Definition queue_end (fuel : nat) : MI (option nat) :=
  while_loop fuel None (fun pp =>
    let* p := load pp in
    match p with None => ret (inr pp) | Some i => ret (inl (Some i)) end).

Definition needs_work (flags : Z) : bool := negb (Z.land flags (Z.lor B_VALID B_DIRTY) =? B_VALID).

(** [iderw] up to the loop in which the process waits. *)
Definition iderw_start (b : nat) : MI unit :=
  let* bf := ibuf b in
  let* s := get in
  if negb (holdingsleep (ipid s) (b_lock bf)) then panic "iderw: buf not locked"
  else if negb (needs_work (b_flags bf)) then panic "iderw: nothing to do"
  else if negb (b_dev bf =? 0) && negb (havedisk1 s) then panic "iderw: ide disk 1 not present"
  else
    set_next_of b None ;;
    let* pp := queue_end (S (length (ibufs s))) in
    assign pp (Some b) ;;
    let* q := gets idequeue in
    if decide (q = Some b) then idestart b else ret tt.

(** The loop: the process returns from [iderw], or sleeps (again). *)
Definition iderw_wait (b : nat) : MI unit :=
  let* bf := ibuf b in
  if needs_work (b_flags bf) then
    modify (fun s => set_asleep ({[b]} ∪ asleep s) s) ;;
    sleep_on (ChanIde b)
  else ret tt.

Definition iderw (b : nat) : MI unit := iderw_start b ;; iderw_wait b.
End driver.
