(* ===== verification/IdeSpec.v ===== *)
(** The driver of ide.c does what memide.c does at once: a simulation, in which
    each request takes effect when the drive ends its command. *)
From S2P Require Import Prelude Layout Locks Bio Ide.

(** * The parts of the driver *)

Definition failed (j : job) : bool := match j with Failed => true | _ => false end.
Definition dirty (bf : buf) : bool := negb (Z.land (b_flags bf) B_DIRTY =? 0).

(** The command for a request to disk 1; a block is a sector. *)
Definition command (bf : buf) : job :=
  if dirty bf then Writing 1 (b_blockno bf) 1 (b_data bf) else Reading 1 (b_blockno bf) 1.

Section parts.
Context {H : Type} `{HL : DriveLaws H}.
Local Abbreviation st := (istate H).

Lemma same_drive_trans (h1 h2 h3 : H) : same_disk h1 h2 -> same_disk h2 h3 -> same_disk h1 h3.
Proof. unfold same_disk. intros [-> ->] [-> ->]. done. Qed.

Lemma set_hw_twice h1 h2 (s : st) : set_hw h2 (set_hw h1 s) = set_hw h2 s.
Proof. done. Qed.
Lemma set_hw_id (s : st) : set_hw (hw s) s = s.
Proof. by destruct s. Qed.

Lemma wp_idewait ce (s : st) (Q : Z -> st -> Prop) : settled (job_of (hw s)) = true ->
  (forall h', same_disk (hw s) h' -> Q (if ce && failed (job_of (hw s)) then -1 else 0) (set_hw h' s)) ->
  wp (idewait ce) s Q.
Proof.
  intros Hs HQ. unfold idewait. apply wp_bind.
  apply (wp_while_loop (fun k _ s' => exists h', s' = set_hw h' s /\ same_disk (hw s) h' /\ (ready_in h' < k)%nat)).
  - exists (hw s). rewrite set_hw_id. split_and!; [done|done|]. pose proof (ready_bound (hw s)). lia.
  - intros _ s' (h' & _ & _ & ?). lia.
  - intros k _ s' (h' & -> & Hd & Hk). apply wp_bind. unfold wp, status. cbn [hw set_hw].
    destruct (inb_status h') as [Hd' Hr]; [by rewrite (proj1 Hd)|].
    pose proof (same_drive_trans _ _ _ Hd Hd') as Hd2. destruct (ready_in h') as [|m].
    + destruct Hr as [-> Hf]. rewrite Z.eqb_refl. cbn [negb]. unfold ret. rewrite set_hw_twice.
      specialize (HQ _ Hd2). rewrite (proj1 Hd) in Hf.
      assert (negb (Z.land (inb 503 h').1 (Z.lor IDE_DF IDE_ERR) =? 0) = failed (job_of (hw s))) as ->.
      { destruct (Z.eqb_spec (Z.land (inb 503 h').1 (Z.lor IDE_DF IDE_ERR)) 0) as [E|E].
        - destruct (job_of (hw s)); try done. by destruct (proj2 Hf eq_refl).
        - by rewrite (proj1 Hf E). }
      by destruct (ce && failed (job_of (hw s))).
    + destruct Hr as [Hb Hr]. assert (Z.land (inb 503 h').1 (Z.lor IDE_BSY IDE_DRDY) <> IDE_DRDY) as Hn.
      { intros E. apply Hb. change IDE_BSY with (Z.land (Z.lor IDE_BSY IDE_DRDY) IDE_BSY). rewrite Z.land_assoc, E. done. }
      rewrite (proj2 (Z.eqb_neq _ _) Hn). cbn [negb]. unfold ret. rewrite set_hw_twice.
      eexists. split_and!; [done|done|lia].
Qed.

Lemma wp_out (f : H -> H) (s : st) (Q : unit -> st -> Prop) : Q tt (set_hw (f (hw s)) s) -> wp (out f) s Q.
Proof. done. Qed.

Lemma wp_ibuf i bf (s : st) (Q : buf -> st -> Prop) : ibufs s !! i = Some bf -> Q bf s -> wp (ibuf i) s Q.
Proof. unfold wp, ibuf. by intros ->. Qed.

(** The registers select the sector. *)
Lemma lba_bytes s : 0 <= s < 2 ^ 28 ->
  Z.land s 0xff + Z.shiftl (Z.land (Z.shiftr s 8) 0xff) 8 + Z.shiftl (Z.land (Z.shiftr s 16) 0xff) 16 +
    Z.shiftl (Z.land (Z.shiftr s 24) 0x0f) 24 = s.
Proof.
  intros Hs. change 0xff with (Z.ones 8). change 0x0f with (Z.ones 4). rewrite !Z.land_ones, !Z.shiftr_div_pow2, !Z.shiftl_mul_pow2 by lia.
  change (2 ^ 8) with 256. change (2 ^ 16) with 65536. change (2 ^ 24) with 16777216. change (2 ^ 4) with 16. change (2 ^ 28) with 268435456 in Hs.
  Z.div_mod_to_equations. lia.
Qed.

Lemma select_head s : 0 <= s < 2 ^ 28 ->
  let v := Z.lor (Z.lor 0xe0 (Z.shiftl (Z.land 1 1) 4)) (Z.land (Z.shiftr s 24) 0x0f) in
  Z.land (Z.shiftr v 4) 1 = 1 /\ Z.land v 0x0f = Z.land (Z.shiftr s 24) 0x0f.
Proof.
  intros Hs. change (Z.lor 0xe0 (Z.shiftl (Z.land 1 1) 4)) with 0xf0. cbv zeta.
  change 0x0f with (Z.ones 4). rewrite Z.land_lor_distr_l, <- Z.land_assoc, Z.land_diag. split; [|done].
  rewrite Z.shiftr_lor, Z.shiftr_land. change (Z.shiftr (Z.ones 4) 4) with 0. by rewrite Z.land_0_r.
Qed.

Definition addressable (bf : buf) : Prop := b_dev bf = 1 /\ 0 <= b_blockno bf < FSSIZE /\ length (b_data bf) = BSIZEn.

(** A register is set. *)
Lemma wp_reg {A} p v (k : unit -> M st A) (s : st) (Q : A -> st -> Prop) : accepts (job_of (hw s)) = true -> 0x1f2 <= p <= 0x1f6 ->
  (forall h', accepts (job_of h') = true -> media h' = media (hw s) ->
     (forall p', reg h' p' = if p' =? p then v else reg (hw s) p') -> wp (k tt) (set_hw h' s) Q) ->
  wp (bind (out (outb p v)) k) s Q.
Proof.
  intros Ha Hp HQ. apply wp_bind, wp_out. destruct (outb_reg (hw s) p v Ha Hp) as [[Hj Hm] Hr].
  apply HQ; [by rewrite Hj|done|done].
Qed.

Lemma wp_idestart i bf (s : st) (Q : unit -> st -> Prop) : accepts (job_of (hw s)) = true ->
  ibufs s !! i = Some bf -> addressable bf ->
  (forall h', job_of h' = command bf -> media h' = media (hw s) -> Q tt (set_hw h' s)) ->
  wp (idestart i) s Q.
Proof.
  intros Ha Hi (Hdev & Hb & Hlen) HQ. unfold idestart. wp_step. eapply wp_ibuf; [done|].
  rewrite (proj2 (Z.leb_gt _ _)) by lia. change (BSIZE / SECTOR_SIZE) with 1. change (1 =? 1) with true. change (7 <? 1) with false.
  cbn match. rewrite Z.mul_1_r, s32_small by (unfold FSSIZE in Hb; lia).
  wp_step. apply wp_idewait; [by destruct (job_of (hw s))|]. intros h0 [Hj0 Hm0].
  wp_step. apply wp_out. cbn [hw set_hw]. rewrite set_hw_twice. destruct (outb_control h0 0) as [[Hj1 Hm1] _].
  set (h1 := outb 0x3f6 0 h0) in *. assert (Ha1 : accepts (job_of h1) = true) by (by rewrite Hj1, Hj0).
  apply wp_reg; [done|lia|]. intros h2 Ha2 Hm2 Hr2. apply wp_reg; [done|lia|]. intros h3 Ha3 Hm3 Hr3.
  apply wp_reg; [done|lia|]. intros h4 Ha4 Hm4 Hr4. apply wp_reg; [done|lia|]. intros h5 Ha5 Hm5 Hr5.
  apply wp_reg; [done|lia|]. intros h6 Ha6 Hm6 Hr6. cbn [hw set_hw] in *. rewrite !set_hw_twice.
  assert (Hm : media h6 = media (hw s)) by congruence.
  assert (reg h6 0x1f2 = 1 /\ sel_dev h6 = 1 /\ sel_lba h6 = b_blockno bf) as (Hn & Hd & Hl).
  { unfold sel_dev, sel_lba. rewrite !Hr6, !Hr5, !Hr4, !Hr3, !Hr2. cbn [Z.eqb Pos.eqb]. rewrite Hdev.
    pose proof (select_head (b_blockno bf)) as [E1 E2]; [unfold FSSIZE in Hb; lia|]. rewrite E1, E2.
    split_and!; [done|done|]. apply lba_bytes. unfold FSSIZE in Hb. lia. }
  unfold command, dirty in HQ. destruct (negb (Z.land (b_flags bf) B_DIRTY =? 0)).
  - destruct (outb_write h6 IDE_CMD_WRITE Ha6) as [Hj7 Hm7]; [by left|]. rewrite Hn, Hd, Hl in Hj7.
    wp_step. apply wp_out. apply wp_out. cbn [hw set_hw]. rewrite set_hw_twice.
    assert (Htake : take (Z.to_nat BSIZE) (b_data bf) = b_data bf) by (apply take_ge; rewrite Hlen; done). rewrite Htake.
    destruct (outsl_data _ _ _ _ (b_data bf) Hj7) as [Hj8 Hm8]; [by rewrite Hlen|]. apply HQ; [done|congruence].
  - destruct (outb_read h6 IDE_CMD_READ Ha6) as [Hj7 Hm7]; [by left|]. rewrite Hn, Hd, Hl in Hj7.
    apply wp_out. cbn [hw set_hw]. rewrite set_hw_twice. apply HQ; [done|congruence].
Qed.
End parts.

(** * The queue *)

(** The buffers from [p] on. *)
Fixpoint chain (nx : list (option nat)) (p : option nat) (q : list nat) : Prop :=
  match q with
  | [] => p = None
  | i :: q => p = Some i /\ exists p', nx !! i = Some p' /\ chain nx p' q
  end.

Lemma chain_insert nx p q i v : i ∉ q -> chain nx p q -> chain (<[i := v]> nx) p q.
Proof.
  revert p. induction q as [|j q IH]; intros p Hi Hc; [done|]. destruct Hc as [-> (p' & Hp & Hc)].
  apply not_elem_of_cons in Hi as [Hij Hi]. split; [done|]. exists p'. split; [by rewrite list_lookup_insert_ne|by apply IH].
Qed.

Lemma chain_bound nx p q : chain nx p q -> Forall (fun i => (i < length nx)%nat) q.
Proof.
  revert p. induction q as [|i q IH]; intros p Hc; [constructor|]. destruct Hc as [_ (p' & Hp & Hc)].
  constructor; [by eapply lookup_lt_Some|by eapply IH].
Qed.

(** Appending to the field that ends the queue. *)
Lemma chain_snoc nx p q i : chain nx p q -> nx !! i = Some None -> i ∉ q -> NoDup q ->
  match last q with
  | None => chain nx (Some i) [i]
  | Some j => chain (<[j := Some i]> nx) p (q ++ [i])
  end.
Proof.
  revert p. induction q as [|j q IH]; intros p Hc Hi Hni Hnd; [cbn; eauto|]. destruct Hc as [-> (p' & Hp & Hc)].
  apply not_elem_of_cons in Hni as [Hij Hni]. apply NoDup_cons in Hnd as [Hj Hnd]. specialize (IH _ Hc Hi Hni Hnd).
  pose proof (lookup_lt_Some _ _ _ Hp) as Hlt. destruct q as [|k q].
  - cbn in *. subst p'. split; [done|]. exists (Some i). rewrite list_lookup_insert_eq by done. split; [done|].
    split; [done|]. exists None. by rewrite list_lookup_insert_ne by done.
  - rewrite last_cons_cons. destruct (last (k :: q)) as [l|] eqn:El; [|by apply last_None in El].
    split; [done|]. exists p'. assert (l ∈ k :: q) by (apply last_Some_elem_of, El).
    split; [|exact IH]. rewrite list_lookup_insert_ne; [done|]. intros ->. done.
Qed.

Section queue.
Context {H : Type} `{HL : DriveLaws H}.
Local Abbreviation st := (istate H).

Lemma wp_queue_end fuel (s : st) q (Q : option nat -> st -> Prop) : chain (qnext s) (idequeue s) q -> (length q < fuel)%nat ->
  Q (last q) s -> wp (queue_end fuel) s Q.
Proof.
  intros Hc Hf HQ. unfold queue_end.
  apply (wp_while_loop (fun k pp s' => s' = s /\ exists q1 q2, q = q1 ++ q2 /\ last q1 = pp /\ (length q2 < k)%nat /\
    exists p, chain (qnext s) p q2 /\ wp (load pp) s (fun r s' => r = p /\ s' = s))).
  - split; [done|]. exists [], q. split_and!; [done|done|done|]. by exists (idequeue s).
  - intros pp s' (_ & q1 & q2 & _ & _ & Hlt & _). lia.
  - intros k pp s' (-> & q1 & q2 & -> & Hpp & Hlt & p & Hc2 & Hload). wp_step. eapply wp_mono; [exact Hload|].
    intros r s' [-> ->]. destruct q2 as [|i q2]; cbn in Hc2.
    + subst p. apply wp_ret. rewrite app_nil_r in HQ. by rewrite <- Hpp.
    + destruct Hc2 as [-> (p' & Hp & Hc2)]. apply wp_ret. split; [done|]. exists (q1 ++ [i]), q2.
      rewrite <- app_assoc, last_snoc. split_and!; [done|done|cbn in Hlt; lia|]. exists p'. split; [done|].
      unfold wp, load, next. by rewrite Hp.
Qed.

(** [bf] as the interrupt handler leaves it: it gets no data when a read failed. *)
Definition completed (h : H) (bf : buf) : buf :=
  set_flags (Z.land (Z.lor (b_flags bf) B_VALID) (Z.lnot B_DIRTY))
    (if dirty bf || failed (job_of h) then bf else set_data (media h 1 (b_blockno bf)) bf).

(** The state of the drive while [bf] is the first request. *)
Definition job_ok (h : H) (bf : buf) : Prop :=
  job_of h = command bf \/ job_of h = Failed \/
  if dirty bf then job_of h = DoneWrite else job_of h = DoneRead (media h 1 (b_blockno bf)).

Definition request_ok (bf : buf) : Prop := needs_work (b_flags bf) = true /\ sl_locked (b_lock bf) = true /\ addressable bf.

(** The requests [q], in the order of the queue, and the processes [ins] that are in [iderw]. *)
Record inv (s : st) (ins : gset nat) (q : list nat) : Prop := {
  inv_len : length (qnext s) = length (ibufs s);
  inv_size : Forall (fun bf => length (b_data bf) = BSIZEn) (ibufs s);
  inv_media : forall b, length (media (hw s) 1 b) = BSIZEn;
  inv_chain : chain (qnext s) (idequeue s) q;
  inv_nodup : NoDup q;
  inv_asleep : forall i, i ∈ q <-> i ∈ asleep s;
  inv_queued : forall i, i ∈ q -> i ∈ ins /\ exists bf, ibufs s !! i = Some bf /\ request_ok bf;
  inv_served : forall i, i ∈ ins -> i ∉ q -> exists bf, ibufs s !! i = Some bf /\ needs_work (b_flags bf) = false;
  inv_job : match q with
            | [] => accepts (job_of (hw s)) = true
            | i :: _ => exists bf, ibufs s !! i = Some bf /\ job_ok (hw s) bf
            end
}.

(** The drive has ended the command of the first request. *)
Definition done_job (j : job) : bool := match j with DoneRead _ | DoneWrite | Failed => true | _ => false end.

Lemma wp_fetch i bf (s : st) (Q : unit -> st -> Prop) : ibufs s !! i = Some bf ->
  job_ok (hw s) bf -> done_job (job_of (hw s)) = true -> length (media (hw s) 1 (b_blockno bf)) = BSIZEn ->
  (forall h', accepts (job_of h') = true -> media h' = media (hw s) ->
     Q tt (set_hw h' (set_ibufs (<[i := if dirty bf || failed (job_of (hw s)) then bf
                                        else set_data (media (hw s) 1 (b_blockno bf)) bf]> (ibufs s)) s))) ->
  wp (fetch i) s Q.
Proof.
  intros Hi Hj Hd Hm HQ. assert (job_of (hw s) <> command bf) as Hnc.
  { intros E. rewrite E in Hd. unfold command in Hd. by destruct (dirty bf). }
  destruct Hj as [?|Hj]; [done|]. unfold fetch. wp_step. eapply wp_ibuf; [done|]. fold (dirty bf). destruct (dirty bf) eqn:Ed.
  - apply wp_ret. specialize (HQ (hw s)). cbn [orb] in HQ. rewrite list_insert_id in HQ by done. destruct s.
    apply HQ; [by destruct Hj as [Hj|Hj]; rewrite Hj|done].
  - cbn [orb] in HQ. wp_step. destruct Hj as [Hj|Hj].
    { apply wp_idewait; [by rewrite Hj|]. intros h0 [Hj0 Hm0]. rewrite Hj in *. cbn [andb failed] in *.
      change (0 <=? -1) with false. apply wp_ret. rewrite list_insert_id in HQ by done. specialize (HQ h0). destruct s. apply HQ; [by rewrite Hj0|done]. }
    apply wp_idewait; [by rewrite Hj|]. intros h0 [Hj0 Hm0]. rewrite Hj in HQ |- *. cbn [andb failed] in *. change (0 <=? 0) with true. cbn match.
    wp_step. wp_step. wp_step. apply wp_put. cbn [hw set_hw]. rewrite Hj in Hj0.
    destruct (insl_data h0 _ (BSIZE / 4) Hj0) as (Hd1 & Hj1 & Hm1); [by rewrite Hm|].
    apply wp_modify. rewrite Hd1. cbn [set_hw set_ibufs ibufs qnext idequeue havedisk1 ipid asleep hw].
    rewrite (alter_insert _ _ _ _ Hi). apply (HQ (snd (insl 0x1f0 (BSIZE / 4) h0))); [by rewrite Hj1|congruence].
Qed.

Lemma wp_ideintr s ins i q (Q : unit -> st -> Prop) : inv s ins (i :: q) -> done_job (job_of (hw s)) = true ->
  (forall h', media h' = media (hw s) ->
     match q with
     | [] => accepts (job_of h') = true
     | j :: _ => exists bf, ibufs s !! j = Some bf /\ job_of h' = command bf
     end ->
     Q tt (mkIde (alter (completed (hw s)) i (ibufs s)) (qnext s) (hd_error q) (havedisk1 s) (ipid s) (asleep s ∖ {[i]}) h')) ->
  wp ideintr s Q.
Proof.
  intros Hinv Hdone HQ. destruct Hinv as [_ _ Hmedia [Hq (p & Hp & Hc)] Hnd _ Hqd _ (bf & Hbf & Hjob)].
  assert (p = hd_error q) as -> by (destruct q; cbn in Hc |- *; [done|by destruct Hc]).
  unfold ideintr. wp_step. wp_step. rewrite Hq. wp_step. unfold wp at 1, next. rewrite Hp. wp_step. apply wp_modify. wp_step.
  eapply wp_fetch; [exact Hbf|done|done|done|]. intros h1 Ha1 Hm1. cbn [set_idequeue set_hw set_ibufs ibufs qnext idequeue havedisk1 ipid asleep hw] in *.
  wp_step. apply wp_modify. wp_step. apply wp_modify. wp_step. apply wp_modify. cbn [set_idequeue set_asleep set_hw set_ibufs ibufs qnext idequeue havedisk1 ipid asleep hw].
  assert (alter (fun b => set_flags (Z.land (b_flags b) (Z.lnot B_DIRTY)) b) i (alter (fun b => set_flags (Z.lor (b_flags b) B_VALID) b) i
    (<[i := if dirty bf || failed (job_of (hw s)) then bf else set_data (media (hw s) 1 (b_blockno bf)) bf]> (ibufs s))) = alter (completed (hw s)) i (ibufs s)) as ->.
  { apply list_eq. intros k. pose proof (lookup_lt_Some _ _ _ Hbf). destruct (decide (k = i)) as [->|Hk].
    - rewrite !list_lookup_alter_eq, list_lookup_insert_eq, Hbf by done. cbn. unfold completed. by destruct (dirty bf || _).
    - by rewrite !list_lookup_alter_ne, list_lookup_insert_ne by done. }
  destruct q as [|j q]; cbn [hd_error]; [by apply wp_ret, HQ|].
  apply NoDup_cons in Hnd as [Hnd _]. destruct (Hqd j) as (_ & bfj & Hbfj & _ & _ & Haddr); [set_solver|].
  apply (wp_idestart j bfj); [done| |done|].
  - cbn [ibufs set_asleep set_ibufs]. rewrite list_lookup_alter_ne; [done|]. intros ->. set_solver.
  - intros h2 Hj2 Hm2. apply HQ; [cbn in Hm2; congruence|eauto].
Qed.

(** The buffers as memide.c would have them: the first request counts as served
    when the drive has ended its command. *)
Definition absbufs (s : st) : list buf :=
  match idequeue s with
  | Some i => if done_job (job_of (hw s)) then alter (completed (hw s)) i (ibufs s) else ibufs s
  | None => ibufs s
  end.

Lemma wp_assign_end s q i v (Q : unit -> st -> Prop) : chain (qnext s) (idequeue s) q -> qnext s !! i = Some None -> i ∉ q -> NoDup q ->
  v = Some i ->
  (forall nx', length nx' = length (qnext s) -> chain nx' (match q with [] => Some i | _ => idequeue s end) (q ++ [i]) ->
     Q tt (set_qnext nx' (set_idequeue (match q with [] => Some i | _ => idequeue s end) s))) ->
  wp (assign (last q) v) s Q.
Proof.
  intros Hc Hi Hni Hnd -> HQ. pose proof (chain_snoc _ _ _ _ Hc Hi Hni Hnd) as Hs. destruct q as [|j q].
  - apply wp_modify. specialize (HQ (qnext s) eq_refl Hs). by destruct s.
  - destruct (last (j :: q)) as [l|] eqn:El; [|by apply last_None in El]. apply wp_modify.
    specialize (HQ (<[l := Some i]> (qnext s)) ltac:(by rewrite length_insert) Hs). by destruct s.
Qed.

Lemma chain_length nx p q : chain nx p q -> NoDup q -> (length q <= length nx)%nat.
Proof.
  intros Hc%chain_bound Hnd. transitivity (length (seq 0 (length nx))); [|by rewrite length_seq]. apply submseteq_length, NoDup_submseteq; [done|].
  intros x Hx. rewrite Forall_forall in Hc. apply elem_of_seq. specialize (Hc _ Hx). lia.
Qed.

(** A request is queued, and started if it is the only one. *)
Lemma wp_iderw_start s ins q i bf (Q : unit -> st -> Prop) : inv s ins q -> i ∉ ins -> ibufs s !! i = Some bf -> request_ok bf ->
  holdingsleep (ipid s) (b_lock bf) = true -> havedisk1 s = true ->
  (forall nx' h', length nx' = length (qnext s) -> chain nx' (match q with [] => Some i | _ => idequeue s end) (q ++ [i]) ->
     media h' = media (hw s) -> job_of h' = match q with [] => command bf | _ => job_of (hw s) end ->
     Q tt (mkIde (ibufs s) nx' (match q with [] => Some i | _ => idequeue s end) (havedisk1 s) (ipid s) (asleep s) h')) ->
  wp (iderw_start i) s Q.
Proof.
  intros Hinv Hins Hi (Hwork & _ & Haddr) Hlk Hdisk HQ. destruct Hinv as [Hlen _ _ Hc Hnd _ Hqd _ Hjob].
  assert (Hiq : i ∉ q) by (intros Hx; by destruct (Hqd i Hx)).
  pose proof (lookup_lt_Some _ _ _ Hi) as Hlt. pose proof (chain_length _ _ _ Hc Hnd) as Hql.
  unfold iderw_start. wp_step. eapply wp_ibuf; [done|]. wp_step. wp_step. rewrite Hlk, Hwork, Hdisk. cbn [negb]. rewrite andb_false_r.
  wp_step. apply wp_modify. wp_step. eapply wp_queue_end; [by apply chain_insert|lia|].
  wp_step. eapply wp_assign_end; [by apply chain_insert| |done|done|done|].
  { cbn [qnext set_qnext]. rewrite list_lookup_insert_eq by lia. done. }
  intros nx' Hnx Hc'. cbn [qnext set_qnext idequeue] in *. rewrite length_insert in Hnx. wp_step. wp_step.
  cbn [idequeue set_qnext set_idequeue]. case_decide as E.
  - destruct q as [|j q]; [|destruct Hc as [Hj _]; rewrite Hj in E; injection E as ->; set_solver].
    apply (wp_idestart i bf); [done|done|done|]. intros h' Hj' Hm'. by apply HQ.
  - destruct q as [|j q]; [done|]. apply wp_ret. apply HQ; done.
Qed.

Lemma iderw_sleeps s ins q i bf : inv s ins q -> i ∉ ins -> ibufs s !! i = Some bf -> request_ok bf ->
  holdingsleep (ipid s) (b_lock bf) = true -> havedisk1 s = true ->
  exists s', iderw i s = Sleep (ChanIde i) s' /\ inv s' ({[i]} ∪ ins) (q ++ [i]) /\
    absbufs s' = absbufs s /\ media (hw s') = media (hw s) /\ havedisk1 s' = true.
Proof.
  intros Hinv Hins Hi Hreq Hlk Hdisk.
  assert (wp (iderw_start i) s (fun _ s1 => exists nx' h', s1 = mkIde (ibufs s) nx' (match q with [] => Some i | _ => idequeue s end) (havedisk1 s) (ipid s) (asleep s) h'
    /\ length nx' = length (qnext s) /\ chain nx' (match q with [] => Some i | _ => idequeue s end) (q ++ [i]) /\
     media h' = media (hw s) /\ job_of h' = match q with [] => command bf | _ => job_of (hw s) end)) as Hwp.
  { eapply wp_iderw_start; try done. intros nx' h' ????. by exists nx', h'. }
  apply wp_inv in Hwp as (a & s1 & E & nx' & h' & -> & Hnx & Hc & Hm & Hj).
  exists (mkIde (ibufs s) nx' (match q with [] => Some i | _ => idequeue s end) (havedisk1 s) (ipid s) ({[i]} ∪ asleep s) h').
  split; [|split_and!; [|unfold absbufs; cbn [idequeue hw ibufs]|done|done]].
  - unfold iderw, bind at 1. rewrite E. unfold iderw_wait, bind, ibuf. cbn [ibufs]. rewrite Hi, (proj1 Hreq). done.
  - destruct Hinv as [Hlen Hsz Hmed Hc0 Hnd Has Hqd Hsv Hjob]. assert (Hiq : i ∉ q) by (intros Hx; by destruct (Hqd i Hx)).
    split; cbn [ibufs qnext idequeue asleep hw]; [lia|done|by rewrite Hm|done| | | | |].
    + apply NoDup_app. split_and!; [done|set_solver|apply NoDup_singleton].
    + intros k. specialize (Has k). set_solver.
    + intros k [Hk|Hk%list_elem_of_singleton]%elem_of_app; [destruct (Hqd k Hk); set_solver|]. subst k. split; [set_solver|eauto].
    + intros k Hk Hkq. apply Hsv; set_solver.
    + destruct q as [|j q]; cbn [app]; [exists bf; split; [done|by left]|].
      destruct Hjob as (bfj & Hbfj & Hjj). exists bfj. split; [done|]. unfold job_ok in *. by rewrite Hj, Hm.
  - destruct q as [|j q]; [|by unfold completed; rewrite Hj, Hm].
    destruct Hinv as [_ _ _ Hc0 _ _ _ _ _]. rewrite Hj, Hc0. unfold command. by destruct (dirty bf).
Qed.

Lemma completed_done h bf : needs_work (b_flags (completed h bf)) = false.
Proof.
  unfold needs_work, completed. cbn [b_flags set_flags]. apply negb_false_iff, Z.eqb_eq. apply Z.bits_inj'. intros n Hn.
  rewrite !Z.land_spec, !Z.lor_spec, Z.lnot_spec by done. change B_VALID with (2 ^ 1). change B_DIRTY with (2 ^ 2).
  rewrite !Z.pow2_bits_eqb by lia. generalize (Z.testbit (b_flags bf) n). intros x.
  destruct (Z.eqb_spec 1 n), (Z.eqb_spec 2 n); (lia || by destruct x).
Qed.

(** The handler gives the first buffer back and starts the next request. *)
Lemma ideintr_serves s ins i q : inv s ins (i :: q) -> done_job (job_of (hw s)) = true ->
  exists s', ideintr s = Ok tt s' /\ inv s' ins q /\ absbufs s' = absbufs s /\ media (hw s') = media (hw s) /\ havedisk1 s' = havedisk1 s.
Proof.
  intros Hinv Hdone.
  assert (wp ideintr s (fun _ s' => inv s' ins q /\ absbufs s' = absbufs s /\ media (hw s') = media (hw s) /\ havedisk1 s' = havedisk1 s)) as Hwp.
  { eapply wp_ideintr; [exact Hinv|done|]. intros h' Hm Hj.
    destruct Hinv as [Hlen Hsz Hmed [Hq (p & Hp & Hc)] [Hni Hnd]%NoDup_cons Has Hqd Hsv (bf & Hbf & _)].
    assert (Hp' : p = hd_error q) by (destruct q; cbn in Hc |- *; [done|by destruct Hc]). subst p.
    assert (Hother : forall j, j ∈ q -> alter (completed (hw s)) i (ibufs s) !! j = ibufs s !! j).
    { intros j Hj'. apply list_lookup_alter_ne. intros ->. done. }
    split_and!; [|unfold absbufs; cbn [idequeue hw ibufs]|done|done].
    - split; cbn [ibufs qnext idequeue asleep hw]; [by rewrite length_alter| |by rewrite Hm|done|done| | | |].
      + rewrite (alter_insert _ _ _ _ Hbf). apply Forall_insert; [done|]. rewrite Forall_lookup in Hsz.
        unfold completed. destruct (dirty bf || _); [exact (Hsz i bf Hbf)|apply Hmed].
      + intros k. specialize (Has k). set_solver.
      + intros k Hk. destruct (Hqd k) as (? & bk & Hbk & ?); [set_solver|]. split; [done|]. exists bk. by rewrite Hother.
      + intros k Hk Hkq. destruct (decide (k = i)) as [->|Hki].
        * exists (completed (hw s) bf). rewrite list_lookup_alter_eq, Hbf. split; [done|]. apply completed_done.
        * rewrite list_lookup_alter_ne by done. apply Hsv; [done|]. set_solver.
      + destruct q as [|j q]; [done|]. destruct Hj as (bj & Hbj & Hjj). exists bj. rewrite Hother by set_solver. split; [done|by left].
    - rewrite Hq, Hdone. destruct q as [|j q]; [done|]. cbn [hd_error]. destruct Hj as (bj & _ & ->). unfold command. by destruct (dirty bj). }
  apply wp_inv in Hwp as ([] & s' & E & ?). eauto.
Qed.

(** What memide.c would have: the same buffers, and the contents of disk 1. *)
Definition R (s : st) (a : bstate) : Prop :=
  bufs a = absbufs s /\ disksize a = FSSIZE /\ forall b, 0 <= b < FSSIZE -> disk_block (disk a) b = media (hw s) 1 b.

(** A run of [Bio.iderw] by the process [pid]. *)
Definition with_pid (pid : Z) (a : bstate) : bstate := mkBstate (bufs a) (disk a) (disksize a) pid (disk_writes a).

Lemma flags_write f : Z.lor (Z.land f (Z.lnot B_DIRTY)) B_VALID = Z.land (Z.lor f B_VALID) (Z.lnot B_DIRTY).
Proof. by rewrite Z.land_lor_distr_l. Qed.
Lemma flags_read f : Z.land f B_DIRTY = 0 -> Z.lor f B_VALID = Z.land (Z.lor f B_VALID) (Z.lnot B_DIRTY).
Proof.
  intros E. rewrite Z.land_lor_distr_l. change (Z.land B_VALID (Z.lnot B_DIRTY)) with B_VALID. f_equal.
  rewrite <- Z.ldiff_land. symmetry. rewrite <- (Z.lor_ldiff_and f B_DIRTY) at 2. by rewrite E, Z.lor_0_r.
Qed.

(** The effect of memide.c on a request. *)
Lemma memide_iderw a i bf : bufs a !! i = Some bf -> request_ok bf -> disksize a = FSSIZE ->
  Bio.iderw i (with_pid (sl_pid (b_lock bf)) a) = Ok tt
    (mkBstate (<[i := set_flags (Z.land (Z.lor (b_flags bf) B_VALID) (Z.lnot B_DIRTY))
                 (if dirty bf then bf else set_data (disk_block (disk a) (b_blockno bf)) bf)]> (bufs a))
       (if dirty bf then <[b_blockno bf := b_data bf]> (disk a) else disk a) (disksize a) (sl_pid (b_lock bf))
       (if dirty bf then disk_writes a ++ [(b_blockno bf, b_data bf)] else disk_writes a)).
Proof.
  intros Hi (Hw & Hl & Hd & Hb & _) Hsz. pose proof (lookup_lt_Some _ _ _ Hi) as Hlt.
  assert (forall o (r : bstate), wp (Bio.iderw i) o (fun _ s' => s' = r) -> Bio.iderw i o = Ok tt r) as Hwp.
  { intros o r. unfold wp. by destruct (Bio.iderw i o) as [[] ?| | | | |]; intros; subst. }
  apply Hwp. unfold Bio.iderw. wp_step. eapply wp_holding_buf; [exact Hi|]. wp_step. eapply wp_getbuf; [exact Hi|]. wp_step. wp_step.
  cbn [curpid with_pid disksize disk]. unfold holdingsleep. rewrite Hl, Z.eqb_refl. cbn [andb negb].
  unfold needs_work in Hw. apply negb_true_iff in Hw. rewrite Hw, Hd, Hsz, (proj2 (Z.leb_gt _ _)) by lia. cbn [Z.eqb Pos.eqb negb].
  unfold dirty. destruct (Z.eqb_spec (Z.land (b_flags bf) B_DIRTY) 0) as [E|E]; cbn [negb].
  - wp_step. apply wp_updbuf; [done|]. apply wp_updbuf; [by cbn; rewrite length_alter|].
    unfold set_bufs. cbn [bufs disk disksize curpid disk_writes with_pid]. rewrite (alter_insert _ _ _ _ Hi).
    rewrite (alter_insert _ _ _ (set_data (disk_block (disk a) (b_blockno bf)) bf)) by (by apply list_lookup_insert_eq).
    rewrite list_insert_insert_eq, Hsz. cbn [b_flags set_data]. by rewrite <- flags_read.
  - wp_step. wp_step. apply wp_updbuf; [done|]. apply wp_modify. apply wp_updbuf; [by cbn; rewrite length_alter|].
    unfold set_bufs. cbn [bufs disk disksize curpid disk_writes with_pid]. rewrite (alter_insert _ _ _ _ Hi).
    rewrite (alter_insert _ _ _ (set_flags (Z.land (b_flags bf) (Z.lnot B_DIRTY)) bf)) by (by apply list_lookup_insert_eq).
    rewrite list_insert_insert_eq, Hsz. cbn [b_flags set_flags]. by rewrite <- flags_write.
Qed.

Lemma absbufs_working s ins i q bf : inv s ins (i :: q) -> ibufs s !! i = Some bf -> job_of (hw s) = command bf -> absbufs s = ibufs s.
Proof.
  intros [_ _ _ [Hq _] _ _ _ _ _] Hbf Hj. unfold absbufs. rewrite Hq, Hj. unfold command. by destruct (dirty bf).
Qed.

(** The runs of memide.c: a request is served at once.  With [err], the disk may
    also fail: then the request counts as served, but the buffer keeps its data,
    and a block that was to be written holds anything. *)
Inductive astep (err : bool) : bstate -> bstate -> Prop :=
| astep_iderw a i pid a' : Bio.iderw i (with_pid pid a) = Ok tt a' -> astep err a a'
| astep_error a i bf x : err = true -> bufs a !! i = Some bf -> request_ok bf -> length x = BSIZEn ->
    astep err a (mkBstate (<[i := set_flags (Z.land (Z.lor (b_flags bf) B_VALID) (Z.lnot B_DIRTY)) bf]> (bufs a))
      (if dirty bf then <[b_blockno bf := x]> (disk a) else disk a) (disksize a) (curpid a)
      (if dirty bf then disk_writes a ++ [(b_blockno bf, x)] else disk_writes a))
| astep_edit a i bf : astep err a (set_bufs (<[i := bf]> (bufs a)) a).

Lemma command_running s ins q h' : inv s ins q -> finish (hw s) h' ->
  exists i q' bf, q = i :: q' /\ ibufs s !! i = Some bf /\ job_of (hw s) = command bf /\ request_ok bf.
Proof.
  intros [_ _ _ _ _ _ Hqd _ Hjob] Hfin.
  destruct q as [|i q']; [by destruct Hfin as [??? E| ???? E|??? E|???? E]; rewrite E in Hjob|].
  destruct Hjob as (bf & Hbf & Hjob). exists i, q', bf. destruct (Hqd i) as (_ & bf' & Hbf' & Hreq); [set_solver|].
  rewrite Hbf in Hbf'. injection Hbf' as <-. split_and!; [done|done| |done].
  destruct Hjob as [?|[Hjob|Hjob]]; [done|by destruct Hfin as [??? E| ???? E|??? E|???? E]; rewrite E in Hjob|].
  destruct Hfin as [??? E| ???? E|??? E|???? E]; rewrite E in Hjob; by destruct (dirty bf).
Qed.

(** When the drive ends a command, its first request is served as by memide.c. *)
Lemma finish_serves_ok s ins i q a h' bf : inv s ins (i :: q) -> R s a -> finish (hw s) h' -> failed (job_of h') = false ->
  ibufs s !! i = Some bf -> job_of (hw s) = command bf -> request_ok bf ->
  exists a', astep false a a' /\ inv (set_hw h' s) ins (i :: q) /\ R (set_hw h' s) a'.
Proof.
  intros Hinv (Hab & Hsz & Hdisk) Hfin Hok Hbf Hj Hreq.
  rewrite (absbufs_working _ _ _ _ _ Hinv Hbf Hj) in Hab. rewrite <- Hab in Hbf. pose proof (memide_iderw a i bf Hbf Hreq Hsz) as Hrw.
  eexists. split; [eapply astep_iderw, Hrw|]. rewrite Hab in Hbf.
  destruct Hinv as [Hlen Hdsz Hmed Hc Hnd Has Hqd Hsv _]. destruct Hreq as (_ & _ & _ & Hb & Hdl).
  assert (done_job (job_of h') = true /\ job_ok h' bf /\
    (forall b, media h' 1 b = if dirty bf && (b =? b_blockno bf) then b_data bf else media (hw s) 1 b)) as (Hdone & Hjok & Hmed').
  { unfold job_ok, command in *. destruct (dirty bf).
    - destruct Hfin as [d l n E _ _|d l n data E E' Em|d l n E _ _|d l n data E E' _]; rewrite Hj in E; [done| |done|by rewrite E' in Hok].
      injection E as <- <- <- <-. rewrite E'. split_and!; [done|by do 2 right|]. intros b. rewrite Em. cbn [Z.eqb Pos.eqb andb].
      destruct (Z.eqb_spec b (b_blockno bf)) as [->|Hne].
      + rewrite (proj2 (Z.leb_le _ _)), (proj2 (Z.ltb_lt _ _)), Z.sub_diag by lia. unfold slice. cbn. by apply take_ge; rewrite Hdl.
      + destruct (Z.leb_spec (b_blockno bf) b), (Z.ltb_spec b (b_blockno bf + 1)); cbn; done || lia.
    - destruct Hfin as [d l n E Em E'|d l n data E _ _|d l n E _ E'|d l n data E _ _]; rewrite Hj in E; [|done|by rewrite E' in Hok|done].
      injection E as <- <- <-. change (seqZ 0 1) with [0] in E'. cbn [map concat] in E'. rewrite app_nil_r, Z.add_0_r in E'.
      rewrite E', Em. split_and!; [done|by do 2 right|done]. }
  split.
  - split; cbn [ibufs qnext idequeue asleep hw set_hw]; try done; [|by exists bf].
    intros b. rewrite Hmed'. by destruct (dirty bf && (b =? b_blockno bf)).
  - split; [|split; [done|]]; cbn [bufs disk hw set_hw].
    + unfold absbufs. cbn [idequeue hw ibufs set_hw]. rewrite (proj1 Hc), Hdone, (alter_insert _ _ _ _ Hbf), Hab. unfold completed.
      rewrite Hok, orb_false_r. destruct (dirty bf) eqn:Ed; [done|]. rewrite Hmed', Hdisk by done. done.
    + intros b Hbr. rewrite Hmed'. destruct (dirty bf); cbn [andb]; [|by apply Hdisk]. unfold disk_block.
      destruct (Z.eqb_spec b (b_blockno bf)) as [->|Hne]; [by rewrite lookup_insert_eq|]. rewrite lookup_insert_ne by done. by apply Hdisk.
Qed.

(** When a command fails, it is served as by a disk that fails. *)
Lemma finish_serves_failed s ins i q a h' bf : inv s ins (i :: q) -> R s a -> finish (hw s) h' -> job_of h' = Failed ->
  ibufs s !! i = Some bf -> job_of (hw s) = command bf -> request_ok bf ->
  exists a', astep true a a' /\ inv (set_hw h' s) ins (i :: q) /\ R (set_hw h' s) a'.
Proof.
  intros Hinv (Hab & Hsz & Hdisk) Hfin Hf Hbf Hj Hreq. rewrite (absbufs_working _ _ _ _ _ Hinv Hbf Hj) in Hab.
  destruct Hinv as [Hlen Hdsz Hmed Hc Hnd Has Hqd Hsv _]. pose proof Hreq as (_ & _ & _ & Hb & Hdl).
  assert (forall b, length (media h' 1 b) = BSIZEn /\ (dirty bf = false \/ b <> b_blockno bf -> media h' 1 b = media (hw s) 1 b)) as Hmed'.
  { intros b. rewrite <- (Hmed b). unfold command in Hj. destruct (dirty bf).
    - destruct Hfin as [d l n E _ _|d l n data E E' _|d l n E _ _|d l n data E _ Em]; rewrite Hj in E; [done|by rewrite Hf in E'|done|].
      injection E as <- <- <- <-. destruct (Em 1 b) as [Hl Hs]. split; [done|]. intros [?|Hne]; [done|]. apply Hs. cbn [Z.eqb Pos.eqb andb].
      destruct (Z.leb_spec (b_blockno bf) b), (Z.ltb_spec b (b_blockno bf + 1)); cbn; done || lia.
    - destruct Hfin as [d l n E Em E'|d l n data E _ _|d l n E Em _|d l n data E _ _]; rewrite Hj in E; [by rewrite Hf in E'|done| |done].
      by rewrite Em. }
  rewrite <- Hab in Hbf. eexists. split; [apply (astep_error true a i bf (media h' 1 (b_blockno bf))); [done|done|done|apply Hmed']|]. rewrite Hab in Hbf. split.
  - split; cbn [ibufs qnext idequeue asleep hw set_hw]; try done; [intros b; apply Hmed'|]. exists bf. split; [done|]. right. by left.
  - split; [|split; [done|]]; cbn [bufs disk hw set_hw].
    + unfold absbufs. cbn [idequeue hw ibufs set_hw]. rewrite (proj1 Hc), Hf. cbn [done_job]. rewrite (alter_insert _ _ _ _ Hbf), Hab. unfold completed.
      by rewrite Hf, orb_true_r.
    + intros b Hbr. destruct (Hmed' b) as [_ Hs]. destruct (dirty bf); [|rewrite Hs by (by left); by apply Hdisk]. unfold disk_block.
      destruct (Z.eqb_spec b (b_blockno bf)) as [->|Hne]; [by rewrite lookup_insert_eq|]. rewrite lookup_insert_ne, Hs by (done || by right). by apply Hdisk.
Qed.

Lemma finish_serves s ins q a h' : inv s ins q -> R s a -> finish (hw s) h' ->
  exists a', astep (failed (job_of h')) a a' /\ inv (set_hw h' s) ins q /\ R (set_hw h' s) a'.
Proof.
  intros Hinv HR Hfin. destruct (command_running _ _ _ _ Hinv Hfin) as (i & q' & bf & -> & Hbf & Hj & Hreq).
  destruct (failed (job_of h')) eqn:Ef; [|by eapply finish_serves_ok].
  eapply finish_serves_failed; try done. by destruct (job_of h').
Qed.

(** * Runs *)

(** What can happen: a process that holds a buffer calls [iderw]; the drive ends a
    command, which may fail if [err]; the interrupt handler runs; a process that was woken goes on in the
    loop of [iderw]; a buffer that no process has in [iderw] changes. *)
Inductive step (err : bool) : st * gset nat -> st * gset nat -> Prop :=
| step_call s ins i bf pid s' : i ∉ ins -> ibufs s !! i = Some bf -> request_ok bf -> holdingsleep pid (b_lock bf) = true ->
    iderw i (mkIde (ibufs s) (qnext s) (idequeue s) (havedisk1 s) pid (asleep s) (hw s)) = Sleep (ChanIde i) s' ->
    step err (s, ins) (s', {[i]} ∪ ins)
| step_finish s ins h' : finish (hw s) h' -> (failed (job_of h') = true -> err = true) -> step err (s, ins) (set_hw h' s, ins)
| step_intr s ins s' : idequeue s = None \/ done_job (job_of (hw s)) = true -> ideintr s = Ok tt s' -> step err (s, ins) (s', ins)
| step_resume s ins i s' : i ∈ ins -> i ∉ asleep s -> iderw_wait i s = Ok tt s' -> step err (s, ins) (s', ins ∖ {[i]})
| step_sleep s ins i s' : i ∈ ins -> i ∉ asleep s -> iderw_wait i s = Sleep (ChanIde i) s' -> step err (s, ins) (s', ins)
| step_edit s ins i bf : i ∉ ins -> length (b_data bf) = BSIZEn -> step err (s, ins) (set_ibufs (<[i := bf]> (ibufs s)) s, ins).

Lemma astep_weaken err a a' : astep false a a' -> astep err a a'.
Proof. intros [? i pid ? E|? i bf x Hx|? i bf]; [by eapply astep_iderw|done|apply astep_edit]. Qed.

Lemma wait_returns s ins q i : inv s ins q -> i ∈ ins -> i ∉ asleep s -> iderw_wait i s = Ok tt s.
Proof.
  intros [_ _ _ _ _ Has _ Hsv _] Hi Hna. destruct (Hsv i Hi) as (bf & Hbf & Hw); [by rewrite Has|].
  unfold iderw_wait, bind, ibuf. by rewrite Hbf, Hw.
Qed.

Lemma inv_pid s ins q pid : inv s ins q -> inv (mkIde (ibufs s) (qnext s) (idequeue s) (havedisk1 s) pid (asleep s) (hw s)) ins q.
Proof. by intros []. Qed.

Lemma inv_edit s ins q i bf : inv s ins q -> i ∉ ins -> length (b_data bf) = BSIZEn ->
  inv (set_ibufs (<[i := bf]> (ibufs s)) s) ins q /\ absbufs (set_ibufs (<[i := bf]> (ibufs s)) s) = <[i := bf]> (absbufs s).
Proof.
  intros [Hlen Hsz Hmed Hc Hnd Has Hqd Hsv Hjob] Hi Hb.
  assert (Hne : forall k, k ∈ ins -> <[i := bf]> (ibufs s) !! k = ibufs s !! k) by (intros k Hk; apply list_lookup_insert_ne; set_solver).
  split.
  - split; cbn [ibufs qnext idequeue asleep hw set_ibufs]; try done; [by rewrite length_insert|by apply Forall_insert|..].
    + intros k Hk. destruct (Hqd k Hk) as [Hki ?]. by rewrite Hne.
    + intros k Hk ?. rewrite Hne by done. by apply Hsv.
    + destruct q as [|j q]; [done|]. destruct (Hqd j) as [Hki _]; [set_solver|]. by rewrite Hne.
  - unfold absbufs. cbn [idequeue hw ibufs set_ibufs]. destruct (idequeue s) as [j|] eqn:Ej; [|done].
    destruct (done_job _); [|done]. destruct q as [|j' q]; [done|]. destruct Hc as [Ej' _]. injection Ej' as <-.
    destruct (Hqd j) as (Hki & bj & Hbj & _); [set_solver|]. rewrite (alter_insert _ _ _ _ Hbj), (alter_insert _ _ _ bj) by (by rewrite Hne).
    apply list_insert_insert_ne. set_solver.
Qed.

Lemma step_sim err s ins q a c' : inv s ins q -> havedisk1 s = true -> R s a -> step err (s, ins) c' ->
  exists q' a', inv c'.1 c'.2 q' /\ havedisk1 c'.1 = true /\ R c'.1 a' /\ rtc (astep err) a a'.
Proof.
  intros Hinv Hd HR Hstep. inversion Hstep as [?? i bf pid s' Hi Hbf Hreq Hlk E|?? h' Hfin Hok|?? s' Hdone E|?? i s' Hi Hna E|?? i s' Hi Hna E|?? i bf Hi Hb]; subst; cbn [fst snd].
  - destruct (iderw_sleeps _ _ _ i bf (inv_pid _ _ _ pid Hinv) Hi Hbf Hreq Hlk Hd) as (s1 & E1 & Hinv1 & Hab & Hm & Hd1).
    rewrite E in E1. injection E1 as <-. exists (q ++ [i]), a. split_and!; [done|done| |done].
    destruct HR as (HR1 & HR2 & HR3). split_and!; [by rewrite Hab|done|by rewrite Hm].
  - destruct (finish_serves _ _ _ _ _ Hinv HR Hfin) as (a' & Ha & Hinv' & HR'). exists q, a'.
    split_and!; [done|done|done|]. apply rtc_once. destruct (failed (job_of h')); [by rewrite Hok|by apply astep_weaken].
  - destruct q as [|i q].
    + pose proof (inv_chain _ _ _ Hinv) as Hc. unfold ideintr, bind, gets in E. rewrite Hc in E. injection E as <-. by exists [], a.
    + destruct Hdone as [Hn|Hdone]; [by rewrite (proj1 (inv_chain _ _ _ Hinv)) in Hn|].
      destruct (ideintr_serves _ _ _ _ Hinv Hdone) as (s1 & E1 & Hinv1 & Hab & Hm & Hd1). rewrite E in E1. injection E1 as <-.
      exists q, a. split_and!; [done|by rewrite Hd1| |done]. destruct HR as (HR1 & HR2 & HR3). split_and!; [by rewrite Hab|done|by rewrite Hm].
  - rewrite (wait_returns _ _ _ _ Hinv Hi Hna) in E. injection E as <-. exists q, a. split_and!; [|done|done|done].
    destruct Hinv as [Hlen Hsz Hmed Hc Hnd Has Hqd Hsv Hjob]. split; try done.
    + intros k Hk. destruct (Hqd k Hk). split; [|done]. apply Has in Hk. set_solver.
    + intros k Hk. apply Hsv. set_solver.
  - by rewrite (wait_returns _ _ _ _ Hinv Hi Hna) in E.
  - destruct (inv_edit _ _ _ i bf Hinv Hi Hb) as [Hinv' Hab]. exists q, (set_bufs (<[i := bf]> (bufs a)) a). split_and!; [done|done| |].
    + destruct HR as (HR1 & HR2 & HR3). split_and!; [|done|done]. cbn [bufs set_bufs]. by rewrite Hab, HR1.
    + apply rtc_once. constructor.
Qed.

Lemma steps_sim err c c' q a : rtc (step err) c c' -> inv c.1 c.2 q -> havedisk1 c.1 = true -> R c.1 a ->
  exists q' a', inv c'.1 c'.2 q' /\ havedisk1 c'.1 = true /\ R c'.1 a' /\ rtc (astep err) a a'.
Proof.
  intros Hr. revert q a. induction Hr as [c|c c1 c' Hs _ IH]; intros q a Hinv Hd HR; [by exists q, a|].
  destruct c as [s ins]. destruct (step_sim _ _ _ _ _ _ Hinv Hd HR Hs) as (q1 & a1 & Hinv1 & Hd1 & HR1 & Ha1).
  destruct (IH _ _ Hinv1 Hd1 HR1) as (q' & a' & ? & ? & ? & ?). exists q', a'. split_and!; try done. by etrans.
Qed.

(** * Start *)

(** The memory before [ideinit], and the disk that memide.c would have. *)
Record boot (s : st) (a : bstate) : Prop := {
  boot_len : length (qnext s) = length (ibufs s);
  boot_size : Forall (fun bf => length (b_data bf) = BSIZEn) (ibufs s);
  boot_media : forall b, length (media (hw s) 1 b) = BSIZEn;
  boot_queue : idequeue s = None /\ asleep s = ∅;
  boot_job : accepts (job_of (hw s)) = true;
  boot_disk : bufs a = ibufs s /\ disksize a = FSSIZE /\ forall b, 0 <= b < FSSIZE -> disk_block (disk a) b = media (hw s) 1 b
}.

(** The first answer of the status register shows that disk 1 is there. *)
Lemma wp_ideinit s a (Q : unit -> st -> Prop) : boot s a ->
  (forall s', inv s' ∅ [] -> havedisk1 s' = true -> R s' a -> Q tt s') -> wp ideinit s Q.
Proof.
  intros [Hlen Hsz Hmed [Hq Has] Hjob (Hb & Hds & Hdisk)] HQ. unfold ideinit. wp_step.
  apply wp_idewait; [by destruct (job_of (hw s))|]. intros h0 [Hj0 Hm0].
  apply wp_reg; [cbn; by rewrite Hj0|lia|]. intros h1 Ha1 Hm1 _. cbn [hw set_hw] in Hm1. rewrite set_hw_twice.
  wp_step. replace 1000%nat with (S 999) by done. generalize 999%nat. intros m. cbn [for_loop]. wp_step. wp_step. unfold wp at 1, status. cbn [hw set_hw].
  destruct (inb_status h1) as [[Hj2 Hm2] Hr]; [by destruct (job_of h1)|].
  assert (fst (inb 0x1f7 h1) <> 0) as Hne.
  { intros E. rewrite E in Hr. destruct (ready_in h1); [by destruct Hr as [? _]|by destruct Hr]. }
  rewrite (proj2 (Z.eqb_neq _ _) Hne). cbn [negb]. wp_step. apply wp_modify. wp_step. wp_step.
  set (h2 := snd (inb 0x1f7 h1)) in *. rewrite <- Hj2 in Ha1.
  destruct (outb_reg h2 0x1f6 (Z.lor 0xe0 (Z.shiftl 0 4)) Ha1 ltac:(lia)) as [[Hj3 Hm3] _]. apply wp_out.
  cbn [hw set_hw set_havedisk1 ibufs qnext idequeue asleep ipid havedisk1].
  assert (Hm : media (outb 0x1f6 (Z.lor 0xe0 (Z.shiftl 0 4)) h2) = media (hw s)) by congruence.
  apply HQ; [|done|].
  - split; cbn [hw set_hw set_havedisk1 ibufs qnext idequeue asleep ipid havedisk1]; rewrite ?Hm, ?Hj3; try done.
    + constructor.
    + intros k. rewrite Has. set_solver.
    + intros k Hk. by apply elem_of_nil in Hk.
  - split_and!; [|done|]; [|by cbn [hw set_hw]; rewrite Hm]. rewrite Hb. unfold absbufs. cbn [idequeue ibufs set_hw set_havedisk1]. by rewrite Hq.
Qed.

Lemma booted err s0 s1 a0 s ins : boot s0 a0 -> ideinit s0 = Ok tt s1 -> rtc (step err) (s1, ∅) (s, ins) ->
  exists q a, inv s ins q /\ havedisk1 s = true /\ R s a /\ rtc (astep err) a0 a.
Proof.
  intros Hboot E Hrun. pose proof (wp_ideinit s0 a0 (fun _ s' => inv s' ∅ [] /\ havedisk1 s' = true /\ R s' a0) Hboot) as Hwp.
  unfold wp in Hwp. rewrite E in Hwp. destruct Hwp as (Hinv & Hd & HR); [by auto|].
  exact (steps_sim _ _ _ _ _ Hrun Hinv Hd HR).
Qed.

(** An interrupt, after the drive has ended its command. *)
Definition round (s s' : st) : Prop :=
  exists h', (finish (hw s) h' \/ h' = hw s) /\ done_job (job_of h') = true /\ ideintr (set_hw h' s) = Ok tt s'.

Lemma round_pops s ins q a s' : inv s ins q -> R s a -> round s s' -> exists a', inv s' ins (tl q) /\ R s' a'.
Proof.
  intros Hinv HR (h' & Hh & Hdone & E).
  assert (exists a1, inv (set_hw h' s) ins q /\ R (set_hw h' s) a1) as (a1 & Hinv1 & HR1).
  { destruct Hh as [Hfin| ->]; [|exists a; by rewrite set_hw_id].
    destruct (finish_serves _ _ _ _ _ Hinv HR Hfin) as (a1 & _ & ? & ?). by exists a1. }
  exists a1. destruct q as [|i q].
  - pose proof (inv_chain _ _ _ Hinv1) as Hc. unfold ideintr, bind, gets in E. rewrite Hc in E. by injection E as <-.
  - destruct (ideintr_serves _ _ _ _ Hinv1 Hdone) as (s2 & E2 & Hinv2 & Hab & Hm & _). rewrite E in E2. injection E2 as <-. split; [done|].
    destruct HR1 as (HR1 & HR2 & HR3). split_and!; [by rewrite Hab|done|by rewrite Hm].
Qed.

Lemma rounds_pop n s ins q a s' : inv s ins q -> R s a -> nsteps round n s s' -> inv s' ins (drop n q).
Proof.
  intros Hinv HR Hn. revert q a Hinv HR. induction Hn as [s|n s s1 s' Hr _ IH]; intros q a Hinv HR; [by rewrite drop_0|].
  destruct (round_pops _ _ _ _ _ Hinv HR Hr) as (a' & Hinv' & HR'). destruct q as [|i q]; [|exact (IH _ _ Hinv' HR')].
  specialize (IH _ _ Hinv' HR'). cbn [tl] in IH. by rewrite drop_nil in IH |- *.
Qed.
End queue.


(** No request waits for ever.  The processes that sleep in [iderw] stand in a
    queue, and the one at position k is awake, with its request served, after k + 1
    commands that the drive has ended, even if they failed. *)
Theorem ide_wakes {H : Type} `{HL : DriveLaws H} err (s0 s1 : istate H) a0 s ins :
  boot s0 a0 -> ideinit s0 = Ok tt s1 -> rtc (step err) (s1, ∅) (s, ins) ->
  exists q : list nat, NoDup q /\ (forall i, i ∈ q <-> i ∈ asleep s) /\
    forall k i s', q !! k = Some i -> nsteps round (S k) s s' -> (i ∉ asleep s') /\ iderw_wait i s' = Ok tt s'.
Proof.
  intros Hboot E Hrun. destruct (booted _ _ _ _ _ _ Hboot E Hrun) as (q & a & Hinv & _ & HR & _). exists q. split; [apply Hinv|]. split; [apply Hinv|].
  intros k i s' Hk Hn. pose proof (rounds_pop _ _ _ _ _ _ Hinv HR Hn) as Hinv'.
  assert (i ∉ asleep s') as Hna.
  { rewrite <- (inv_asleep _ _ _ Hinv'). pose proof (inv_nodup _ _ _ Hinv) as Hnd. rewrite <- (take_drop_middle _ _ _ Hk) in Hnd.
    by apply NoDup_app in Hnd as (_ & _ & [? _]%NoDup_cons). }
  split; [done|]. eapply wait_returns; [done| |done]. apply (inv_queued _ _ _ Hinv). by apply list_elem_of_lookup_2 in Hk.
Qed.

(** An error of the disk is lost.  When a read fails, [ideintr] leaves the data
    of the buffer as it was and marks it valid all the same, so the process returns
    from [iderw] as if the block had been read. *)
Theorem ide_read_error {H : Type} `{HL : DriveLaws H} (s : istate H) i bf :
  idequeue s = Some i -> qnext s !! i = Some None -> ibufs s !! i = Some bf -> dirty bf = false -> job_of (hw s) = Failed ->
  exists s', ideintr s = Ok tt s' /\ ibufs s' = <[i := set_flags (Z.land (Z.lor (b_flags bf) B_VALID) (Z.lnot B_DIRTY)) bf]> (ibufs s) /\
    (i ∉ asleep s') /\ iderw_wait i s' = Ok tt s'.
Proof.
  intros Hq Hn Hbf Hd Hj. assert (wp ideintr s (fun _ s' => exists h', s' = mkIde (<[i := set_flags (Z.land (Z.lor (b_flags bf) B_VALID) (Z.lnot B_DIRTY)) bf]> (ibufs s))
    (qnext s) None (havedisk1 s) (ipid s) (asleep s ∖ {[i]}) h')) as Hwp.
  { unfold ideintr. wp_step. wp_step. rewrite Hq. wp_step. unfold wp at 1, next. rewrite Hn. wp_step. apply wp_modify. wp_step.
    unfold fetch. wp_step. eapply wp_ibuf; [exact Hbf|]. fold (dirty bf). rewrite Hd. wp_step. apply wp_idewait; [cbn; by rewrite Hj|].
    intros h' _. cbn [hw set_idequeue]. rewrite Hj. cbn [andb failed]. change (0 <=? -1) with false. cbn match. apply wp_ret.
    wp_step. apply wp_modify. wp_step. apply wp_modify. wp_step. apply wp_modify. apply wp_ret. exists h'.
    cbn [set_idequeue set_asleep set_hw set_ibufs ibufs qnext idequeue havedisk1 ipid asleep hw].
    pose proof (lookup_lt_Some _ _ _ Hbf). rewrite (alter_insert _ _ _ _ Hbf).
    rewrite (alter_insert _ _ _ (set_flags (Z.lor (b_flags bf) B_VALID) bf)) by (by apply list_lookup_insert_eq).
    by rewrite list_insert_insert_eq. }
  apply wp_inv in Hwp as ([] & s' & E & h' & ->). eexists. split; [exact E|]. split; [done|]. split; [cbn; set_solver|].
  pose proof (lookup_lt_Some _ _ _ Hbf). unfold iderw_wait, bind, ibuf. cbn [ibufs]. rewrite list_lookup_insert_eq by done.
  pose proof (completed_done (hw s) bf) as Hc. unfold completed in Hc. cbn [b_flags set_flags] in Hc. cbn [b_flags set_flags]. by rewrite Hc.
Qed.

(** * A drive *)

Record toy := mkToy { t_reg : Z -> Z; t_job : job; t_media : Z -> Z -> bytes }.

Definition toy_lba (r : Z -> Z) : Z := r 0x1f3 + Z.shiftl (r 0x1f4) 8 + Z.shiftl (r 0x1f5) 16 + Z.shiftl (Z.land (r 0x1f6) 0x0f) 24.
Definition toy_dev (r : Z -> Z) : Z := Z.land (Z.shiftr (r 0x1f6) 4) 1.

Definition toy_outb (p v : Z) (h : toy) : toy :=
  if (0x1f2 <=? p) && (p <=? 0x1f6) then mkToy (fun p' => if p' =? p then v else t_reg h p') (t_job h) (t_media h)
  else if p =? 0x1f7 then
    let cmd := if (v =? IDE_CMD_READ) || (v =? IDE_CMD_RDMUL) then Reading else Filling in
    mkToy (t_reg h) (cmd (toy_dev (t_reg h)) (toy_lba (t_reg h)) (t_reg h 0x1f2)) (t_media h)
  else h.
Definition toy_outsl (p : Z) (data : bytes) (h : toy) : toy :=
  match t_job h with Filling d l n => mkToy (t_reg h) (Writing d l n data) (t_media h) | _ => h end.
Definition toy_insl (p n : Z) (h : toy) : bytes * toy :=
  match t_job h with DoneRead data => (data, mkToy (t_reg h) Idle (t_media h)) | _ => ([], h) end.
Definition toy_inb (p : Z) (h : toy) : Z * toy :=
  match t_job h with
  | Failed => (0x41, h)
  | Reading d l n => (0x40, mkToy (t_reg h) (DoneRead (concat (map (fun k => t_media h d (l + k)) (seqZ 0 n)))) (t_media h))
  | _ => (0x40, h)
  end.

#[export] Instance toy_drive : Drive toy := {|
  outb := toy_outb; outsl := toy_outsl; insl := toy_insl; inb := toy_inb;
  reg := t_reg; job_of := t_job; media := t_media; ready_in := fun _ => O; max_wait := O |}.

#[export] Instance toy_laws : DriveLaws toy.
Proof.
  split; cbn; unfold same_disk; cbn.
  - done.
  - done.
  - intros h p v _ Hp. unfold toy_outb. by rewrite (proj2 (Z.leb_le _ _)), (proj2 (Z.leb_le p _)) by lia.
  - by intros h c _ [->| ->].
  - by intros h c _ [->| ->].
  - intros h d l n data E _. unfold toy_outsl. by rewrite E.
  - intros h data n E _. unfold toy_insl. by rewrite E.
  - intros h Hs. unfold toy_inb. destruct (t_job h) eqn:E; cbn; rewrite ?E; try done; by split_and!.
Qed.

Definition toy_buf : buf := mkBuf 0 1 5 (mkSleeplock true 7) 1 0 0 zero_block.
Definition toy_start : istate toy := mkIde [toy_buf] [None] None false 0 ∅ (mkToy (fun _ => 0) Idle (fun _ b => if b =? 5 then replicate 512 9 else zero_block)).
Definition toy_image : bstate :=
  mkBstate [toy_buf] {[5 := replicate 512 9]} FSSIZE 0 [].

Definition ok_state {S A} (s : S) (o : outcome S A) : S := match o with Ok _ s' => s' | Sleep _ s' => s' | _ => s end.
Definition toy1 : istate toy := ok_state toy_start (ideinit toy_start).
Definition toy2 : istate toy :=
  ok_state toy1 (iderw 0 (mkIde (ibufs toy1) (qnext toy1) (idequeue toy1) (havedisk1 toy1) 7 (asleep toy1) (hw toy1))).
Definition toy3 : istate toy := set_hw (mkToy (t_reg (hw toy2)) (DoneRead (replicate 512 9)) (t_media (hw toy2))) toy2.
Definition toy4 : istate toy := ok_state toy3 (ideintr toy3).

Lemma toy_boot : boot toy_start toy_image.
Proof.
  split; try done.
  - by repeat constructor.
  - intros b. cbn. by destruct (b =? 5).
  - split_and!; [done|done|]. intros b _. unfold disk_block. cbn [disk toy_image hw toy_start media toy_drive t_media].
    destruct (Z.eqb_spec b 5) as [->|Hb]; [by rewrite lookup_singleton_eq|by rewrite lookup_singleton_ne].
Qed.

(** A process reads block 5: the request, and the drive that ends it. *)
Lemma toy_asks err : rtc (step err) (toy1, ∅) (toy2, {[0%nat]} ∪ ∅).
Proof.
  apply rtc_once. apply (step_call err toy1 ∅ 0%nat toy_buf 7 toy2); [set_solver|by vm_compute| |done|by vm_compute].
  split_and!; [done|done|done|..]; vm_compute; (done || lia).
Qed.

Lemma toy_ends : finish (hw toy2) (hw toy3).
Proof. apply (finish_read _ _ 1 5 1); by vm_compute. Qed.

(** The drive fails instead. *)
Definition toy3_failed : istate toy := set_hw (mkToy (t_reg (hw toy2)) Failed (t_media (hw toy2))) toy2.
Definition toy4_failed : istate toy := ok_state toy3_failed (ideintr toy3_failed).

Lemma toy_fails : finish (hw toy2) (hw toy3_failed).
Proof. apply (finish_fail _ _ 1 5 1); by vm_compute. Qed.


Lemma ide_wakes_witness : (0%nat ∉ asleep toy4) /\ iderw_wait 0 toy4 = Ok tt toy4.
Proof.
  destruct (ide_wakes false toy_start toy1 toy_image toy2 ({[0%nat]} ∪ ∅)) as (q & Hnd & Hq & Hk); [exact toy_boot|by vm_compute|apply toy_asks|].
  assert (q = [0%nat]) as ->.
  { apply Permutation_singleton_r, NoDup_Permutation; [done|apply NoDup_singleton|]. intros i. rewrite Hq, list_elem_of_singleton.
    replace (asleep toy2) with ({[0%nat]} : gset nat) by (by vm_compute). set_solver. }
  apply (Hk 0%nat); [done|]. apply nsteps_once. exists (hw toy3). split_and!; [left; exact toy_ends|done|by vm_compute].
Defined.

Lemma ide_read_error_witness :
  let s := set_hw (mkToy (t_reg (hw toy2)) Failed (t_media (hw toy2))) toy2 in
  exists s', ideintr s = Ok tt s' /\ ibufs s' = [mkBuf 2 1 5 (mkSleeplock true 7) 1 0 0 zero_block] /\ iderw_wait 0 s' = Ok tt s'.
Proof.
  intros s. destruct (ide_read_error s 0%nat toy_buf) as (s' & E & Hb & _ & Hw); [by vm_compute..|].
  exists s'. split_and!; [exact E| |exact Hw]. rewrite Hb. by vm_compute.
Defined.
