(* ===== verification/Log.v ===== *)
(** log.c: the write-ahead log that makes the updates of a file system
    operation atomic with respect to crashes.

    The header block of the log holds the number of logged blocks and their
    home addresses; the blocks after it hold their contents.  A transaction
    is committed by the write of the header with a non-zero count. *)

From S2P Require Import Prelude Layout Locks Bio.

(** * State *)

(** [struct log] with the in-memory [struct logheader] ([lg_n], [lg_block]). *)
Record log := mkLog {
  lg_start : Z; lg_size : Z; lg_outstanding : Z; lg_committing : bool; lg_dev : Z;
  lg_n : Z; lg_block : list Z
}.

Record lstate := mkLstate { bs : bstate; lg : log }.

Definition set_bs (b : bstate) (s : lstate) : lstate := mkLstate b (lg s).
Definition set_lg (l : log) (s : lstate) : lstate := mkLstate (bs s) l.

Definition bio {A} (m : M bstate A) : M lstate A := zoom bs set_bs m.
Definition updlog (f : log -> log) : M lstate unit := modify (fun s => set_lg (f (lg s)) s).
Definition getlog : M lstate log := gets lg.

Definition set_n (n : Z) (l : log) : log :=
  mkLog (lg_start l) (lg_size l) (lg_outstanding l) (lg_committing l) (lg_dev l) n (lg_block l).
Definition set_block (b : list Z) (l : log) : log :=
  mkLog (lg_start l) (lg_size l) (lg_outstanding l) (lg_committing l) (lg_dev l) (lg_n l) b.
Definition set_outstanding (o : Z) (l : log) : log :=
  mkLog (lg_start l) (lg_size l) o (lg_committing l) (lg_dev l) (lg_n l) (lg_block l).
Definition set_committing (c : bool) (l : log) : log :=
  mkLog (lg_start l) (lg_size l) (lg_outstanding l) c (lg_dev l) (lg_n l) (lg_block l).
Definition set_geometry (start size dev : Z) (l : log) : log :=
  mkLog start size (lg_outstanding l) (lg_committing l) dev (lg_n l) (lg_block l).

(** [log.lh.block[i] = v]; an index outside the array is undefined. *)
Definition store_block (i v : Z) : M lstate unit :=
  let* l := getlog in
  if (0 <=? i) && (i <? LOGSIZE) then
    updlog (set_block (<[Z.to_nat i := v]> (lg_block l)))
  else fault.

Definition load_block (i : Z) : M lstate Z :=
  let* l := getlog in
  if (0 <=? i) && (i <? LOGSIZE) then deref (lg_block l !! Z.to_nat i) else fault.

(** * Operations *)

Definition install_trans : M lstate unit :=
  let* l := getlog in
  let* _ := for_loop (Z.to_nat (lg_n l)) 0 (fun tail =>
    let* lbuf := bio (bread (lg_dev l) (lg_start l + tail + 1)) in
    let* dst := load_block tail in
    let* dbuf := bio (bread (lg_dev l) dst) in
    let* data := bio (buf_data lbuf) in
    bio (set_buf_data dbuf data) ;;
    bio (bwrite dbuf) ;;
    bio (brelse lbuf) ;;
    bio (brelse dbuf) ;;
    ret (@None unit)) in
  ret tt.

Definition read_head : M lstate unit :=
  let* l := getlog in
  let* buf := bio (bread (lg_dev l) (lg_start l)) in
  let* lh := bio (buf_data buf) in
  let n := s32 (get32 lh 0) in
  updlog (set_n n) ;;
  let* _ := for_loop (Z.to_nat n) 0 (fun i =>
    store_block i (s32 (get32 lh (4 * (Z.to_nat i + 1)))) ;;
    ret (@None unit)) in
  bio (brelse buf).

Definition write_head : M lstate unit :=
  let* l := getlog in
  let* buf := bio (bread (lg_dev l) (lg_start l)) in
  let* hb := bio (buf_data buf) in
  bio (set_buf_data buf (put32 hb 0 (lg_n l))) ;;
  let* _ := for_loop (Z.to_nat (lg_n l)) 0 (fun i =>
    let* b := load_block i in
    let* hb := bio (buf_data buf) in
    bio (set_buf_data buf (put32 hb (4 * (Z.to_nat i + 1)) b)) ;;
    ret (@None unit)) in
  bio (bwrite buf) ;;
  bio (brelse buf).

Definition recover_from_log : M lstate unit :=
  read_head ;;
  install_trans ;;
  updlog (set_n 0) ;;
  write_head.

(** fs.c [readsb]. *)
Definition readsb (dev : Z) : M lstate superblock :=
  let* bp := bio (bread dev 1) in
  let* data := bio (buf_data bp) in
  bio (brelse bp) ;;
  ret (dec_superblock data).

Definition sizeof_logheader : Z := 4 + LOGSIZE * 4.

Definition initlog (dev : Z) : M lstate unit :=
  if BSIZE <=? sizeof_logheader then panic "initlog: too big logheader"
  else
    let* sb := readsb dev in
    updlog (set_geometry (sb_logstart sb) (sb_nlog sb) dev) ;;
    recover_from_log.

(** One pass of [begin_op]'s loop: it sleeps, to be retried when woken, or
    admits the operation. *)
Definition begin_op : M lstate unit :=
  let* l := getlog in
  if lg_committing l then sleep_on ChanLog
  else if LOGSIZE <? lg_n l + (lg_outstanding l + 1) * MAXOPBLOCKS then sleep_on ChanLog
  else updlog (set_outstanding (lg_outstanding l + 1)).

Definition write_log : M lstate unit :=
  let* l := getlog in
  let* _ := for_loop (Z.to_nat (lg_n l)) 0 (fun tail =>
    let* to := bio (bread (lg_dev l) (lg_start l + tail + 1)) in
    let* src := load_block tail in
    let* from := bio (bread (lg_dev l) src) in
    let* data := bio (buf_data from) in
    bio (set_buf_data to data) ;;
    bio (bwrite to) ;;
    bio (brelse from) ;;
    bio (brelse to) ;;
    ret (@None unit)) in
  ret tt.

Definition commit : M lstate unit :=
  let* l := getlog in
  if 0 <? lg_n l then
    write_log ;;
    write_head ;;
    install_trans ;;
    updlog (set_n 0) ;;
    write_head
  else ret tt.

Definition end_op : M lstate unit :=
  let* l := getlog in
  updlog (set_outstanding (lg_outstanding l - 1)) ;;
  if lg_committing l then panic "log.committing"
  else if lg_outstanding l - 1 =? 0 then
    updlog (set_committing true) ;;
    commit ;;
    updlog (set_committing false)
  else ret tt.

(** The search of [log_write] for the block's slot: the block's own slot when
    it is logged already (absorption), else the first slot after the last. *)
Fixpoint log_slot (blocks : list Z) (n : nat) (i : Z) (b : Z) : Z :=
  match n, blocks with
  | S n', x :: blocks' => if x =? b then i else log_slot blocks' n' (i + 1) b
  | _, _ => i
  end.

Definition log_write (i : nat) : M lstate unit :=
  let* l := getlog in
  if (LOGSIZE <=? lg_n l) || (lg_size l - 1 <=? lg_n l) then panic "too big a transaction"
  else if lg_outstanding l <? 1 then panic "log_write outside of trans"
  else
    let* b := bio (getbuf i) in
    let slot := log_slot (lg_block l) (Z.to_nat (lg_n l)) 0 (b_blockno b) in
    store_block slot (b_blockno b) ;;
    (if slot =? lg_n l then updlog (fun l => set_n (lg_n l + 1) l) else ret tt) ;;
    bio (mark_dirty i).

(** * Sequences of disk writes *)

Definition apply_writes (d : gmap Z bytes) (ws : list (Z * bytes)) : gmap Z bytes :=
  foldl (fun d w => <[w.1 := w.2]> d) d ws.

Lemma apply_writes_app d ws1 ws2 :
  apply_writes d (ws1 ++ ws2) = apply_writes (apply_writes d ws1) ws2.
Proof. apply foldl_app. Qed.

Lemma apply_writes_other d ws c :
  c ∉ ws.*1 -> disk_block (apply_writes d ws) c = disk_block d c.
Proof.
  revert d. induction ws as [|[b x] ws IH]; intros d Hc; [done|].
  cbn in *. rewrite not_elem_of_cons in Hc. destruct Hc as [Hb Hc].
  change (apply_writes d ((b, x) :: ws)) with (apply_writes (<[b:=x]> d) ws).
  rewrite IH by done. unfold disk_block. by rewrite lookup_insert_ne.
Qed.

Lemma apply_writes_here d ws c x :
  NoDup ws.*1 -> (c, x) ∈ ws -> disk_block (apply_writes d ws) c = x.
Proof.
  revert d. induction ws as [|[b y] ws IH]; intros d Hd Hin; [by apply elem_of_nil in Hin|].
  cbn in Hd. apply NoDup_cons in Hd as [Hb Hd].
  change (apply_writes d ((b, y) :: ws)) with (apply_writes (<[b:=y]> d) ws).
  apply elem_of_cons in Hin as [[= -> ->]|Hin]; [|by apply IH].
  rewrite apply_writes_other by done. unfold disk_block. by rewrite lookup_insert_eq.
Qed.

Lemma apply_writes_ok d ws :
  (forall c x, d !! c = Some x -> is_block x) -> Forall is_block ws.*2 ->
  forall c x, apply_writes d ws !! c = Some x -> is_block x.
Proof.
  revert d. induction ws as [|[b y] ws IH]; intros d Hd Hw; [done|].
  cbn in Hw. apply Forall_cons in Hw as [Hy Hw]. apply (IH (<[b:=y]> d)); [|done].
  intros c x. rewrite lookup_insert. case_decide; [by intros [= <-]|apply Hd].
Qed.

(** * Copying blocks through the cache *)

Lemma wp_bio {A} (m : M bstate A) s (Q : A -> lstate -> Prop) :
  wp m (bs s) (fun a b => Q a (set_bs b s)) -> wp (bio m) s Q.
Proof. apply wp_zoom. Qed.

Lemma set_bs_set_bs b1 b2 s : set_bs b1 (set_bs b2 s) = set_bs b1 s.
Proof. done. Qed.

Lemma set_bs_id s : set_bs (bs s) s = s.
Proof. by destruct s. Qed.

Lemma wp_load_block s i b (Q : Z -> lstate -> Prop) :
  length (lg_block (lg s)) = Z.to_nat LOGSIZE ->
  lg_block (lg s) !! Z.to_nat i = Some b -> 0 <= i -> Q b s -> wp (load_block i) s Q.
Proof.
  intros Hl Hb Hi HQ. unfold load_block, getlog. wp_steps.
  pose proof (lookup_lt_Some _ _ _ Hb) as Hlt. rewrite Hl in Hlt.
  rewrite (proj2 (Z.leb_le _ _)), (proj2 (Z.ltb_lt _ _)) by lia.
  cbn. by eapply wp_deref.
Qed.

(** The effect of one [bwrite] on disk and trace. *)
Definition wrote (b b' : bstate) (c : Z) (x : bytes) : Prop :=
  disk b' = <[c := x]> (disk b) /\ disk_writes b' = disk_writes b ++ [(c, x)] /\
  disksize b' = disksize b /\ curpid b' = curpid b.

(** The body of [write_log]'s loop. *)
Lemma wp_copy_to_log s v (L : gset Z) c src tail (Q : option unit -> lstate -> Prop) :
  bio_rep (bs s) v ∅ ∅ L -> lg_dev (lg s) = 1 ->
  length (lg_block (lg s)) = Z.to_nat LOGSIZE ->
  lg_block (lg s) !! Z.to_nat tail = Some src -> 0 <= tail ->
  c = lg_start (lg s) + tail + 1 -> 0 <= c < disksize (bs s) -> c ∉ L ->
  src ∈ L -> 0 <= src < disksize (bs s) -> (size L < NBUFn)%nat ->
  (forall b', bio_rep b' (vupd v c (v src)) ∅ ∅ L -> wrote (bs s) b' c (v src) ->
     Q None (set_bs b' s)) ->
  wp (let* to := bio (bread (lg_dev (lg s)) (lg_start (lg s) + tail + 1)) in
      let* src := load_block tail in
      let* from := bio (bread (lg_dev (lg s)) src) in
      let* data := bio (buf_data from) in
      bio (set_buf_data to data) ;;
      bio (bwrite to) ;;
      bio (brelse from) ;;
      bio (brelse to) ;;
      ret (@None unit)) s Q.
Proof.
  intros Hr Hdev Hlb Hsrc Ht Ec Hc HcL HsL Hs Hroom HQ. rewrite Hdev, <- Ec.
  assert (c <> src) by (intros ->; done).
  wp_step. apply wp_bio. eapply wp_bread; [exact Hr|done|by intros ?; rewrite lookup_empty| |].
  { right. by rewrite map_size_empty. }
  intros i b1 _ (Hd1 & Hz1 & Hp1 & Hw1) Hr1. wp_step. eapply wp_load_block; [done..|].
  wp_step. apply wp_bio. eapply wp_bread; [exact Hr1|cbn; by rewrite Hz1| |by left|].
  { intros j. rewrite lookup_insert, lookup_empty. case_decide; [|done]. by intros [= ?]. }
  intros j b2 Hj (Hd2 & Hz2 & Hp2 & Hw2) Hr2. cbn.
  rewrite lookup_insert, lookup_empty in Hj. case_decide as Hij; [done|].
  wp_step. apply wp_bio. eapply wp_buf_data; [exact Hr2|apply lookup_insert_eq|].
  wp_step. apply wp_bio. eapply wp_set_buf_data; [exact Hr2| |by eapply bio_rep_view_ok|].
  { by rewrite lookup_insert_ne, lookup_insert_eq. }
  intros b3 (Hd3 & Hz3 & Hp3 & Hw3) Hr3.
  wp_step. apply wp_bio. eapply wp_bwrite; [exact Hr3|by rewrite lookup_insert_ne, lookup_insert_eq|].
  rewrite vupd_eq. intros b4 Hd4 Hz4 Hp4 Hw4 Hr4.
  replace ((∅ ∪ {[c]}) ∖ {[c]} : gset Z) with (∅ : gset Z) in Hr4 by set_solver.
  replace (L ∖ {[c]}) with L in Hr4 by set_solver.
  wp_step. apply wp_bio. eapply wp_brelse; [exact Hr4|apply lookup_insert_eq|set_solver|].
  intros b5 (Hd5 & Hz5 & Hp5 & Hw5) Hr5. rewrite delete_insert_id in Hr5
    by (by rewrite lookup_insert_ne, lookup_empty).
  wp_step. apply wp_bio. eapply wp_brelse; [exact Hr5|apply lookup_insert_eq|set_solver|].
  intros b6 (Hd6 & Hz6 & Hp6 & Hw6) Hr6. rewrite delete_insert_id in Hr6 by apply lookup_empty.
  wp_step. rewrite !set_bs_set_bs. apply HQ; [done|]. split_and!; cbn in *; congruence.
Qed.

(** The body of [install_trans]'s loop. *)
Lemma wp_copy_home s v (L : gset Z) c dst tail (Q : option unit -> lstate -> Prop) :
  bio_rep (bs s) v ∅ ∅ L -> lg_dev (lg s) = 1 ->
  length (lg_block (lg s)) = Z.to_nat LOGSIZE ->
  lg_block (lg s) !! Z.to_nat tail = Some dst -> 0 <= tail ->
  c = lg_start (lg s) + tail + 1 -> 0 <= c < disksize (bs s) -> c <> dst ->
  0 <= dst < disksize (bs s) -> (size L < NBUFn)%nat ->
  (dst ∈ L \/ (S (size L) < NBUFn)%nat) ->
  (forall b', bio_rep b' (vupd v dst (v c)) ∅ ∅ (L ∖ {[dst]}) -> wrote (bs s) b' dst (v c) ->
     Q None (set_bs b' s)) ->
  wp (let* lbuf := bio (bread (lg_dev (lg s)) (lg_start (lg s) + tail + 1)) in
      let* dst := load_block tail in
      let* dbuf := bio (bread (lg_dev (lg s)) dst) in
      let* data := bio (buf_data lbuf) in
      bio (set_buf_data dbuf data) ;;
      bio (bwrite dbuf) ;;
      bio (brelse lbuf) ;;
      bio (brelse dbuf) ;;
      ret (@None unit)) s Q.
Proof.
  intros Hr Hdev Hlb Hdst Ht Ec Hc Hne Hs Hroom Hroom' HQ. rewrite Hdev, <- Ec.
  wp_step. apply wp_bio. eapply wp_bread; [exact Hr|done|by intros ?; rewrite lookup_empty| |].
  { right. by rewrite map_size_empty. }
  intros i b1 _ (Hd1 & Hz1 & Hp1 & Hw1) Hr1. wp_step. eapply wp_load_block; [done..|].
  wp_step. apply wp_bio. eapply wp_bread; [exact Hr1|cbn; by rewrite Hz1| | |].
  { intros j. rewrite lookup_insert, lookup_empty. case_decide; [|done]. by intros [= ?]. }
  { rewrite map_size_insert_None by apply lookup_empty. by rewrite map_size_empty. }
  intros j b2 Hj (Hd2 & Hz2 & Hp2 & Hw2) Hr2. cbn.
  rewrite lookup_insert, lookup_empty in Hj. case_decide as Hij; [done|].
  wp_step. apply wp_bio. eapply wp_buf_data;
    [exact Hr2|by rewrite lookup_insert_ne, lookup_insert_eq|].
  wp_step. apply wp_bio. eapply wp_set_buf_data;
    [exact Hr2|apply lookup_insert_eq|by eapply bio_rep_view_ok|].
  intros b3 (Hd3 & Hz3 & Hp3 & Hw3) Hr3.
  wp_step. apply wp_bio. eapply wp_bwrite; [exact Hr3|apply lookup_insert_eq|].
  rewrite vupd_eq. intros b4 Hd4 Hz4 Hp4 Hw4 Hr4.
  replace ((∅ ∪ {[dst]}) ∖ {[dst]} : gset Z) with (∅ : gset Z) in Hr4 by set_solver.
  wp_step. apply wp_bio. eapply wp_brelse;
    [exact Hr4|by rewrite lookup_insert_ne, lookup_insert_eq|set_solver|].
  intros b5 (Hd5 & Hz5 & Hp5 & Hw5) Hr5.
  rewrite delete_insert_ne, delete_insert_id in Hr5 by (done || apply lookup_empty).
  wp_step. apply wp_bio. eapply wp_brelse; [exact Hr5|apply lookup_insert_eq|set_solver|].
  intros b6 (Hd6 & Hz6 & Hp6 & Hw6) Hr6. rewrite delete_insert_id in Hr6 by apply lookup_empty.
  wp_step. rewrite !set_bs_set_bs. apply HQ; [done|]. split_and!; cbn in *; congruence.
Qed.

(** * The phases of a commit *)

(** The writes of [write_log] and of [install_trans]. *)
Definition log_writes (start : Z) (v : Z -> bytes) (L : list Z) : list (Z * bytes) :=
  imap (fun i b => (start + 1 + Z.of_nat i, v b)) L.
Definition home_writes (start : Z) (v : Z -> bytes) (L : list Z) : list (Z * bytes) :=
  imap (fun i b => (b, v (start + 1 + Z.of_nat i))) L.

(** The view after a sequence of writes. *)
Definition vwrites (v : Z -> bytes) (ws : list (Z * bytes)) : Z -> bytes :=
  foldl (fun v w => vupd v w.1 w.2) v ws.

Definition wrote_all (b b' : bstate) (ws : list (Z * bytes)) : Prop :=
  disk b' = apply_writes (disk b) ws /\ disk_writes b' = disk_writes b ++ ws /\
  disksize b' = disksize b /\ curpid b' = curpid b.

Lemma wrote_all_nil b : wrote_all b b [].
Proof. split_and!; try done. by rewrite app_nil_r. Qed.

Lemma wrote_all_snoc b b' b'' ws c x :
  wrote_all b b' ws -> wrote b' b'' c x -> wrote_all b b'' (ws ++ [(c, x)]).
Proof.
  intros (H1 & H2 & H3 & H4) (H5 & H6 & H7 & H8). split_and!; try congruence.
  - rewrite apply_writes_app, <- H1. done.
  - by rewrite H6, H2, app_assoc.
Qed.

Lemma wrote_all_trans b b' b'' ws1 ws2 :
  wrote_all b b' ws1 -> wrote_all b' b'' ws2 -> wrote_all b b'' (ws1 ++ ws2).
Proof.
  intros (H1 & H2 & H3 & H4) (H5 & H6 & H7 & H8). split_and!; try congruence.
  - by rewrite apply_writes_app, <- H1.
  - by rewrite H6, H2, app_assoc.
Qed.

Lemma log_writes_snoc start v L b :
  log_writes start v (L ++ [b]) =
    log_writes start v L ++ [(start + 1 + Z.of_nat (length L), v b)].
Proof. unfold log_writes. rewrite imap_app. cbn. by rewrite Nat.add_0_r. Qed.

Lemma home_writes_snoc start v L b :
  home_writes start v (L ++ [b]) =
    home_writes start v L ++ [(b, v (start + 1 + Z.of_nat (length L)))].
Proof. unfold home_writes. rewrite imap_app. cbn. by rewrite Nat.add_0_r. Qed.

Lemma vwrites_app v ws1 ws2 : vwrites v (ws1 ++ ws2) = vwrites (vwrites v ws1) ws2.
Proof. apply foldl_app. Qed.

Lemma vwrites_other v ws c : c ∉ ws.*1 -> vwrites v ws c = v c.
Proof.
  revert v. induction ws as [|[b x] ws IH]; intros v Hc; [done|].
  cbn in *. rewrite not_elem_of_cons in Hc. destruct Hc as [Hb Hc].
  change (vwrites v ((b, x) :: ws)) with (vwrites (vupd v b x) ws).
  rewrite IH by done. by apply vupd_ne.
Qed.

Lemma vwrites_here v ws c x : NoDup ws.*1 -> (c, x) ∈ ws -> vwrites v ws c = x.
Proof.
  revert v. induction ws as [|[b y] ws IH]; intros v Hd Hin; [by apply elem_of_nil in Hin|].
  cbn in Hd. apply NoDup_cons in Hd as [Hb Hd].
  change (vwrites v ((b, y) :: ws)) with (vwrites (vupd v b y) ws).
  apply elem_of_cons in Hin as [[= -> ->]|Hin]; [|by apply IH].
  rewrite vwrites_other by done. by apply vupd_eq.
Qed.

Lemma elem_log_writes start v L c x :
  (c, x) ∈ log_writes start v L <->
  exists i b, L !! i = Some b /\ c = start + 1 + Z.of_nat i /\ x = v b.
Proof.
  unfold log_writes. rewrite elem_of_lookup_imap. split.
  - intros (i & b & [= -> ->] & Hb). eauto.
  - intros (i & b & Hb & -> & ->). eauto.
Qed.

Lemma elem_home_writes start v L c x :
  (c, x) ∈ home_writes start v L <->
  exists i, L !! i = Some c /\ x = v (start + 1 + Z.of_nat i).
Proof.
  unfold home_writes. rewrite elem_of_lookup_imap. split.
  - intros (i & b & [= -> ->] & Hb). eauto.
  - intros (i & Hb & ->). eauto.
Qed.

Lemma log_writes_fst start v L c :
  c ∈ (log_writes start v L).*1 <-> start + 1 <= c < start + 1 + Z.of_nat (length L).
Proof.
  rewrite list_elem_of_fmap. split.
  - intros ([c' x] & -> & (i & b & Hb & -> & ->)%elem_log_writes). cbn.
    apply lookup_lt_Some in Hb. lia.
  - intros Hc. destruct (lookup_lt_is_Some_2 L (Z.to_nat (c - start - 1))) as [b Hb]; [lia|].
    exists (c, v b). split; [done|]. apply elem_log_writes. eexists _, _. split_and!; [done|lia|done].
Qed.

Lemma home_writes_fst start v L : (home_writes start v L).*1 = L.
Proof.
  apply list_eq. intros i. unfold home_writes.
  rewrite list_lookup_fmap, list_lookup_imap. by destruct (L !! i).
Qed.

Lemma log_writes_NoDup start v L : NoDup (log_writes start v L).*1.
Proof.
  apply NoDup_alt. intros i j c. unfold log_writes.
  rewrite !list_lookup_fmap, !list_lookup_imap.
  destruct (L !! i), (L !! j); cbn; naive_solver lia.
Qed.

(** The in-memory header lists the blocks [L], which lie outside the log. *)
Record log_wf (s : lstate) (L : list Z) : Prop := {
  lw_dev : lg_dev (lg s) = 1;
  lw_n : lg_n (lg s) = Z.of_nat (length L);
  lw_block : take (length L) (lg_block (lg s)) = L;
  lw_len : length (lg_block (lg s)) = Z.to_nat LOGSIZE;
  lw_start : 0 <= lg_start (lg s);
  lw_end : lg_start (lg s) + lg_size (lg s) <= disksize (bs s);
  lw_fit : Z.of_nat (length L) < lg_size (lg s);
  lw_cap : (length L < NBUFn)%nat;
  lw_home : Forall (fun b => 0 <= b < disksize (bs s) /\
    ~ (lg_start (lg s) <= b < lg_start (lg s) + lg_size (lg s))) L
}.
Arguments lw_dev {_ _} _.
Arguments lw_n {_ _} _.
Arguments lw_block {_ _} _.
Arguments lw_len {_ _} _.
Arguments lw_start {_ _} _.
Arguments lw_end {_ _} _.
Arguments lw_fit {_ _} _.
Arguments lw_cap {_ _} _.
Arguments lw_home {_ _} _.

Lemma log_wf_set_bs s b' L :
  log_wf s L -> disksize b' = disksize (bs s) -> log_wf (set_bs b' s) L.
Proof. intros [] E. split; cbn; rewrite ?E; done. Qed.

Lemma log_wf_lookup s L k b :
  log_wf s L -> L !! k = Some b -> lg_block (lg s) !! k = Some b.
Proof.
  intros Hw Hb. rewrite <- (lw_block Hw) in Hb.
  apply lookup_take_Some in Hb as [Hb _]. done.
Qed.

Lemma log_wf_home s L k b :
  log_wf s L -> L !! k = Some b ->
  0 <= b < disksize (bs s) /\ ~ (lg_start (lg s) <= b < lg_start (lg s) + lg_size (lg s)).
Proof. intros Hw Hb. apply (proj1 (Forall_lookup _ _) (lw_home Hw) _ _ Hb). Qed.

Lemma size_list_to_set_le (L : list Z) : (size (list_to_set L : gset Z) <= length L)%nat.
Proof.
  induction L as [|x L IH]; [done|]. cbn.
  pose proof (size_union_alt ({[x]} : gset Z) (list_to_set L)) as E. rewrite E, size_singleton.
  pose proof (subseteq_size (list_to_set L ∖ {[x]} : gset Z) (list_to_set L)). set_solver by lia.
Qed.

Lemma wp_write_log s v L (Q : unit -> lstate -> Prop) :
  let ws := log_writes (lg_start (lg s)) v L in
  bio_rep (bs s) v ∅ ∅ (list_to_set L) -> log_wf s L ->
  (forall b', bio_rep b' (vwrites v ws) ∅ ∅ (list_to_set L) -> wrote_all (bs s) b' ws ->
     Q tt (set_bs b' s)) ->
  wp write_log s Q.
Proof.
  intros ws Hr Hw HQ. unfold write_log, getlog. wp_step. wp_step. rewrite (lw_n Hw), Nat2Z.id.
  wp_step.
  eapply (wp_for_loop (fun k s' => exists b', s' = set_bs b' s /\
    bio_rep b' (vwrites v (log_writes (lg_start (lg s)) v (take (Z.to_nat k) L))) ∅ ∅ (list_to_set L) /\
    wrote_all (bs s) b' (log_writes (lg_start (lg s)) v (take (Z.to_nat k) L)))).
  - exists (bs s). rewrite set_bs_id. split_and!; [done..|apply wrote_all_nil].
  - intros k s' Hk (b' & -> & Hr' & Hwr).
    destruct (lookup_lt_is_Some_2 L (Z.to_nat k)) as [src Hsrc]; [lia|].
    destruct (log_wf_home _ _ _ _ Hw Hsrc) as [Hs1 Hs2].
    pose proof Hwr as (_ & _ & Hz & _).
    pose proof (lw_fit Hw). pose proof (lw_end Hw). pose proof (lw_start Hw).
    pose proof (size_list_to_set_le L). pose proof (lw_cap Hw).
    assert (Hsv : vwrites v (log_writes (lg_start (lg s)) v (take (Z.to_nat k) L)) src = v src).
    { apply vwrites_other. rewrite log_writes_fst, length_take. lia. }
    eapply (wp_copy_to_log (set_bs b' s)); cbn; [exact Hr'|apply Hw|apply Hw| |lia|reflexivity| | | | |lia|].
    + by eapply log_wf_lookup.
    + rewrite Hz. lia.
    + rewrite elem_of_list_to_set, list_elem_of_lookup. intros [j Hj].
      pose proof (log_wf_home _ _ _ _ Hw Hj). lia.
    + rewrite elem_of_list_to_set. by eapply list_elem_of_lookup_2.
    + by rewrite Hz.
    + intros b'' Hr'' Hwr''. rewrite Hsv in *. exists b''. split; [done|].
      replace (Z.to_nat (k + 1)) with (S (Z.to_nat k)) by lia.
      rewrite (take_S_r _ _ _ Hsrc), log_writes_snoc, length_take, Nat.min_l by lia.
      replace (lg_start (lg s) + 1 + Z.of_nat (Z.to_nat k)) with (lg_start (lg s) + k + 1) by lia.
      split; [|by eapply wrote_all_snoc]. by rewrite vwrites_app.
  - intros s' (b' & -> & Hr' & Hwr). rewrite Z.add_0_l, Nat2Z.id, firstn_all in Hr', Hwr.
    wp_step. by apply HQ.
Qed.

Lemma wp_install_trans s v L (D : gset Z) (Q : unit -> lstate -> Prop) :
  let ws := home_writes (lg_start (lg s)) v L in
  bio_rep (bs s) v ∅ ∅ D -> log_wf s L -> (size D < NBUFn)%nat ->
  (forall k b, L !! k = Some b ->
     b ∈ D ∖ list_to_set (take k L) \/ (S (size D) < NBUFn)%nat) ->
  (forall b', bio_rep b' (vwrites v ws) ∅ ∅ (D ∖ list_to_set L) -> wrote_all (bs s) b' ws ->
     Q tt (set_bs b' s)) ->
  wp install_trans s Q.
Proof.
  intros ws Hr Hw HD Hroom HQ. unfold install_trans, getlog. wp_step. wp_step.
  rewrite (lw_n Hw), Nat2Z.id. wp_step.
  eapply (wp_for_loop (fun k s' => exists b', s' = set_bs b' s /\
    bio_rep b' (vwrites v (home_writes (lg_start (lg s)) v (take (Z.to_nat k) L))) ∅ ∅
      (D ∖ list_to_set (take (Z.to_nat k) L)) /\
    wrote_all (bs s) b' (home_writes (lg_start (lg s)) v (take (Z.to_nat k) L)))).
  - exists (bs s). rewrite set_bs_id. change (take (Z.to_nat 0) L) with (@nil Z). cbn.
    replace (D ∖ ∅) with D by set_solver. split_and!; [done..|apply wrote_all_nil].
  - intros k s' Hk (b' & -> & Hr' & Hwr).
    destruct (lookup_lt_is_Some_2 L (Z.to_nat k)) as [dst Hdst]; [lia|].
    destruct (log_wf_home _ _ _ _ Hw Hdst) as [Hs1 Hs2].
    pose proof Hwr as (_ & _ & Hz & _).
    pose proof (lw_fit Hw). pose proof (lw_end Hw). pose proof (lw_start Hw).
    set (Dk := D ∖ list_to_set (take (Z.to_nat k) L)) in *.
    assert (HDk : (size Dk <= size D)%nat) by (apply subseteq_size; set_solver).
    assert (Hsv : vwrites v (home_writes (lg_start (lg s)) v (take (Z.to_nat k) L))
                    (lg_start (lg s) + k + 1) = v (lg_start (lg s) + k + 1)).
    { apply vwrites_other. rewrite home_writes_fst, list_elem_of_lookup. intros [j Hj].
      apply lookup_take_Some in Hj as [Hj _]. pose proof (log_wf_home _ _ _ _ Hw Hj). lia. }
    eapply (wp_copy_home (set_bs b' s)); cbn; [exact Hr'|apply Hw|apply Hw| |lia|reflexivity| | | |lia| |].
    + by eapply log_wf_lookup.
    + rewrite Hz. lia.
    + lia.
    + by rewrite Hz.
    + destruct (Hroom _ _ Hdst) as [?|?]; [by left|right; lia].
    + intros b'' Hr'' Hwr''. rewrite Hsv in *. exists b''. split; [done|].
      replace (Z.to_nat (k + 1)) with (S (Z.to_nat k)) by lia.
      rewrite (take_S_r _ _ _ Hdst), home_writes_snoc, length_take, Nat.min_l by lia.
      replace (lg_start (lg s) + 1 + Z.of_nat (Z.to_nat k)) with (lg_start (lg s) + k + 1) by lia.
      split; [|by eapply wrote_all_snoc]. rewrite vwrites_app.
      replace (D ∖ list_to_set (take (Z.to_nat k) L ++ [dst])) with (Dk ∖ {[dst]}); [done|].
      unfold Dk. set_solver.
  - intros s' (b' & -> & Hr' & Hwr). rewrite Z.add_0_l, Nat2Z.id, firstn_all in Hr', Hwr.
    wp_step. by apply HQ.
Qed.

(** The header block that [write_head] builds in place. *)
Fixpoint put_blocks (d : bytes) (i : nat) (L : list Z) : bytes :=
  match L with
  | [] => d
  | b :: L' => put_blocks (put32 d (4 * (i + 1)) b) (S i) L'
  end.

Definition head_block (d : bytes) (L : list Z) : bytes :=
  put_blocks (put32 d 0 (Z.of_nat (length L))) 0 L.

Lemma put_blocks_snoc d i L b :
  put_blocks d i (L ++ [b]) = put32 (put_blocks d i L) (4 * (i + length L + 1)) b.
Proof.
  revert d i. induction L as [|x L IH]; intros d i; cbn [put_blocks app length].
  - by rewrite Nat.add_0_r.
  - rewrite IH. f_equal. lia.
Qed.

Lemma is_block_put32 d o v : is_block d -> (o + 4 <= BSIZEn)%nat -> is_block (put32 d o v).
Proof.
  intros [Hl Hb] Ho. split; [rewrite length_put32; lia|].
  unfold put32. auto with kernel.
Qed.

Lemma put_blocks_ok d i L :
  is_block d -> (4 * (i + length L + 1) <= BSIZEn)%nat -> is_block (put_blocks d i L).
Proof.
  revert d i. induction L as [|x L IH]; intros d i Hd Hi; [done|]. cbn [put_blocks length] in *.
  apply IH; [apply is_block_put32; [done|lia]|lia].
Qed.

Lemma put_blocks_before d i L o :
  is_block d -> (4 * (i + length L + 1) <= BSIZEn)%nat -> (o + 4 <= 4 * (i + 1))%nat ->
  get32 (put_blocks d i L) o = get32 d o.
Proof.
  revert d i. induction L as [|x L IH]; intros d i Hd Hi Ho; [done|]. cbn [put_blocks length] in *.
  rewrite IH; [|apply is_block_put32; [done|lia]|lia|lia].
  apply get32_put32_ne; [destruct Hd; lia|lia].
Qed.

Lemma put_blocks_get d i L k b :
  is_block d -> (4 * (i + length L + 1) <= BSIZEn)%nat -> L !! k = Some b ->
  get32 (put_blocks d i L) (4 * (i + k + 1)) = u32 b.
Proof.
  revert d i k. induction L as [|x L IH]; intros d i k Hd Hi Hk; [done|].
  cbn [put_blocks length] in *. destruct k as [|k]; cbn in Hk.
  - injection Hk as ->. rewrite put_blocks_before; [|apply is_block_put32; [done|lia]|lia|lia].
    rewrite Nat.add_0_r. apply get32_put32. destruct Hd; lia.
  - replace (i + S k + 1)%nat with (S i + k + 1)%nat by lia.
    apply IH; [apply is_block_put32; [done|lia]|lia|done].
Qed.

Lemma head_block_ok d L : is_block d -> (length L <= 30)%nat -> is_block (head_block d L).
Proof.
  intros Hd HL. apply put_blocks_ok; [apply is_block_put32; [done|]|]; unfold BSIZEn; lia.
Qed.

Lemma head_block_n d L :
  is_block d -> (length L <= 30)%nat -> get32 (head_block d L) 0 = Z.of_nat (length L).
Proof.
  intros Hd HL. unfold head_block.
  rewrite put_blocks_before; [|apply is_block_put32; [done|]| |]; unfold BSIZEn; try lia.
  rewrite get32_put32; [|destruct Hd as [-> _]; unfold BSIZEn; lia]. apply u32_small. lia.
Qed.

Lemma head_block_get d L k b :
  is_block d -> (length L <= 30)%nat -> L !! k = Some b ->
  get32 (head_block d L) (4 * (k + 1)) = u32 b.
Proof.
  intros Hd HL Hk.
  apply (put_blocks_get _ 0); [apply is_block_put32; [done|]| |done]; unfold BSIZEn; lia.
Qed.

Lemma wp_write_head s v L (D : gset Z) (Q : unit -> lstate -> Prop) :
  let st := lg_start (lg s) in
  bio_rep (bs s) v ∅ ∅ D -> log_wf s L -> (size D < NBUFn)%nat -> st ∉ D ->
  (forall b', bio_rep b' (vupd v st (head_block (v st) L)) ∅ ∅ D ->
     wrote (bs s) b' st (head_block (v st) L) -> Q tt (set_bs b' s)) ->
  wp write_head s Q.
Proof.
  intros st Hr Hw HD Hst HQ.
  pose proof (lw_fit Hw) as Hfit. pose proof (lw_end Hw). pose proof (lw_start Hw).
  pose proof (lw_cap Hw) as Hcap. unfold NBUFn in Hcap.
  pose proof (bio_rep_view_ok _ _ _ _ _ st Hr) as Hok.
  unfold write_head, getlog. wp_step. wp_step. rewrite (lw_dev Hw), (lw_n Hw), Nat2Z.id.
  wp_step. apply wp_bio. eapply wp_bread; [exact Hr|unfold st in *; lia|by intros ?; rewrite lookup_empty| |].
  { right. by rewrite map_size_empty. }
  intros i b1 _ Hsd1 Hr1. fold st in Hr1.
  wp_step. apply wp_bio. eapply wp_buf_data; [exact Hr1|apply lookup_insert_eq|].
  wp_step. apply wp_bio. eapply wp_set_buf_data; [exact Hr1|apply lookup_insert_eq| |].
  { apply is_block_put32; [done|unfold BSIZEn; lia]. }
  intros b2 Hsd2 Hr2. wp_step. fold st.
  set (data k := put_blocks (put32 (v st) 0 (Z.of_nat (length L))) 0 (take k L)).
  eapply (wp_for_loop (fun k s' => exists b', s' = set_bs b' s /\
    bio_rep b' (vupd v st (data (Z.to_nat k))) (<[i:=st]> ∅) (∅ ∪ {[st]}) D /\
    same_disk (bs s) b')).
  - exists b2. split; [done|]. split; [done|].
    exact (same_disk_trans _ _ _ Hsd1 Hsd2).
  - intros k s' Hk (b' & -> & Hr' & Hsd).
    destruct (lookup_lt_is_Some_2 L (Z.to_nat k)) as [b Hb]; [lia|].
    wp_step. eapply wp_load_block; [apply Hw|exact (log_wf_lookup _ _ _ _ Hw Hb)|lia|].
    wp_step. apply wp_bio. eapply wp_buf_data; [exact Hr'|apply lookup_insert_eq|].
    rewrite vupd_eq. wp_step. apply wp_bio.
    eapply wp_set_buf_data; [exact Hr'|apply lookup_insert_eq| |].
    { apply is_block_put32; [|unfold BSIZEn; lia]. unfold data.
      apply put_blocks_ok; [apply is_block_put32; [done|]|rewrite length_take]; unfold BSIZEn; lia. }
    intros b'' Hsd'' Hr''. wp_step. exists b''. split; [done|].
    split; [|exact (same_disk_trans _ _ _ Hsd Hsd'')].
    replace (∅ ∪ {[st]} ∪ {[st]} : gset Z) with (∅ ∪ {[st]} : gset Z) in Hr'' by set_solver.
    eapply bio_rep_ext; [exact Hr''|]. intros e. unfold vupd. case_decide; [|done].
    replace (Z.to_nat (k + 1)) with (S (Z.to_nat k)) by lia.
    unfold data. rewrite (take_S_r _ _ _ Hb), put_blocks_snoc, length_take.
    f_equal. lia.
  - intros s' (b' & -> & Hr' & Hsd). rewrite Z.add_0_l, Nat2Z.id in Hr'.
    unfold data in Hr'. rewrite firstn_all in Hr'. fold (head_block (v st) L) in Hr'.
    wp_step. apply wp_bio. eapply wp_bwrite; [exact Hr'|apply lookup_insert_eq|].
    rewrite vupd_eq. intros b3 Hd3 Hz3 Hp3 Hw3 Hr3.
    replace ((∅ ∪ {[st]}) ∖ {[st]} : gset Z) with (∅ : gset Z) in Hr3 by set_solver.
    replace (D ∖ {[st]}) with D in Hr3 by set_solver.
    apply wp_bio. eapply wp_brelse; [exact Hr3|apply lookup_insert_eq|set_solver|].
    intros b4 (Hd4 & Hz4 & Hp4 & Hw4) Hr4. rewrite delete_insert_id in Hr4 by apply lookup_empty.
    destruct Hsd as (Ha & Hb & Hc & Hd). rewrite !set_bs_set_bs.
    apply HQ; [done|]. split_and!; cbn in *; congruence.
Qed.

(** Everything a commit of the blocks [L] writes, in order: the log copies,
    the header that commits, the home locations, the cleared header. *)
Definition commit_writes (st : Z) (v : Z -> bytes) (L : list Z) : list (Z * bytes) :=
  let hdr := head_block (v st) L in
  log_writes st v L ++ [(st, hdr)] ++ map (fun b => (b, v b)) L ++ [(st, head_block hdr [])].

Lemma list_to_set_not_log s L c :
  log_wf s L -> lg_start (lg s) <= c < lg_start (lg s) + lg_size (lg s) ->
  c ∉ (list_to_set L : gset Z).
Proof.
  intros Hw Hc. rewrite elem_of_list_to_set, list_elem_of_lookup. intros [j Hj].
  pose proof (log_wf_home _ _ _ _ Hw Hj). lia.
Qed.

Lemma NoDup_elem_drop (L : list Z) k b :
  NoDup L -> L !! k = Some b -> b ∉ (list_to_set (take k L) : gset Z).
Proof.
  intros Hd Hb. rewrite elem_of_list_to_set, list_elem_of_lookup. intros [j Hj].
  apply lookup_take_Some in Hj as [Hj Hlt].
  pose proof (NoDup_lookup _ _ _ _ Hd Hj Hb). lia.
Qed.

(** After the log is written, the installed blocks are the logged ones. *)
Lemma home_writes_after_log st v hdr L :
  (forall b, b ∈ L -> ~ (st <= b < st + 1 + Z.of_nat (length L))) ->
  home_writes st (vupd (vwrites v (log_writes st v L)) st hdr) L = map (fun b => (b, v b)) L.
Proof.
  intros HL. apply list_eq. intros i. unfold home_writes.
  rewrite list_lookup_imap, list_lookup_fmap.
  destruct (L !! i) as [b|] eqn:Hb; [|done]. cbn. f_equal. f_equal.
  rewrite vupd_ne by lia. apply vwrites_here; [apply log_writes_NoDup|].
  apply elem_log_writes. exists i, b. by split_and!.
Qed.

Lemma fst_self_writes (v : Z -> bytes) L : (map (fun b => (b, v b)) L).*1 = L.
Proof. induction L as [|b L IH]; [done|]. cbn. by rewrite IH. Qed.

Lemma log_wf_n0 s L : log_wf s L -> log_wf (set_lg (set_n 0 (lg s)) s) [].
Proof.
  intros []. split; cbn; try done; lia.
Qed.

Lemma wp_commit s v L (Q : unit -> lstate -> Prop) :
  let st := lg_start (lg s) in
  bio_rep (bs s) v ∅ ∅ (list_to_set L) -> log_wf s L -> NoDup L -> L <> [] ->
  (forall b' v', bio_rep b' v' ∅ ∅ ∅ -> wrote_all (bs s) b' (commit_writes st v L) ->
     (forall c, ~ (st <= c < st + lg_size (lg s)) -> v' c = v c) ->
     get32 (v' st) 0 = 0 ->
     Q tt (mkLstate b' (set_n 0 (lg s)))) ->
  wp commit s Q.
Proof.
  intros st Hr Hw Hnd Hne HQ.
  pose proof (lw_fit Hw) as Hfit. pose proof (lw_cap Hw) as Hcap.
  pose proof (size_list_to_set_le L) as Hsz.
  assert (Hst : st ∉ (list_to_set L : gset Z)).
  { eapply list_to_set_not_log; [exact Hw|]. unfold st. lia. }
  assert (Hlog : forall b, b ∈ L -> ~ (st <= b < st + lg_size (lg s))).
  { intros b Hb Hin. eapply list_to_set_not_log; [exact Hw|exact Hin|].
    by apply elem_of_list_to_set. }
  pose proof (bio_rep_view_ok _ _ _ _ _ st Hr) as Hok.
  unfold commit, getlog. wp_step. wp_step. rewrite (lw_n Hw).
  rewrite (proj2 (Z.ltb_lt _ _)) by (destruct L; [done|cbn; lia]).
  wp_step. eapply wp_write_log; [exact Hr|exact Hw|]. fold st. intros b1 Hr1 Hw1.
  set (v1 := vwrites v _) in Hr1. pose proof Hw1 as (_ & _ & Hz1 & _).
  assert (Ev1 : v1 st = v st).
  { apply vwrites_other. rewrite log_writes_fst. lia. }
  wp_step. eapply wp_write_head;
    [exact Hr1|exact (log_wf_set_bs _ _ _ Hw Hz1)|lia|done|]. cbn. fold st. rewrite Ev1.
  intros b2 Hr2 Hw2. set (hdr := head_block (v st) L) in *.
  assert (Hz2 : disksize b2 = disksize (bs s)) by (destruct Hw2 as (_ & _ & -> & _); done).
  wp_step. eapply wp_install_trans;
    [exact Hr2|exact (log_wf_set_bs _ _ _ Hw Hz2)|lia| |].
  { intros k b Hb. left. apply elem_of_difference. split.
    - apply elem_of_list_to_set. by eapply list_elem_of_lookup_2.
    - by apply NoDup_elem_drop. }
  cbn. fold st. unfold v1. rewrite home_writes_after_log.
  2:{ intros b Hb. specialize (Hlog b Hb). lia. }
  intros b3 Hr3 Hw3. replace (list_to_set L ∖ list_to_set L : gset Z) with (∅ : gset Z) in Hr3
    by set_solver.
  set (v3 := vwrites _ _) in Hr3.
  assert (Ev3 : v3 st = hdr).
  { unfold v3. rewrite vwrites_other, vupd_eq; [done|]. rewrite fst_self_writes.
    by rewrite <- (elem_of_list_to_set (C := gset Z)). }
  assert (Hz3 : disksize b3 = disksize (bs s)) by (destruct Hw3 as (_ & _ & -> & _); done).
  wp_step. unfold updlog at 1. wp_step. cbn.
  set (s3 := set_lg _ _).
  assert (Hw0 : log_wf s3 []).
  { apply (log_wf_n0 (set_bs b3 s) L). by apply log_wf_set_bs. }
  eapply (wp_write_head s3); [exact Hr3|exact Hw0|by rewrite size_empty; unfold NBUFn; lia|set_solver|].
  cbn. fold st. rewrite Ev3. intros b4 Hr4 Hw4.
  eapply HQ; [exact Hr4| | |].
  - unfold commit_writes. fold hdr. rewrite !app_assoc.
    eapply wrote_all_snoc; [|exact Hw4]. eapply wrote_all_trans; [|exact Hw3].
    eapply wrote_all_snoc; [exact Hw1|exact Hw2].
  - intros c Hc. rewrite vupd_ne by lia. unfold v3.
    destruct (decide (c ∈ L)) as [Hin|Hout].
    + apply vwrites_here; [by rewrite fst_self_writes|]. apply list_elem_of_fmap. by exists c.
    + rewrite vwrites_other by (by rewrite fst_self_writes). rewrite vupd_ne by lia.
      apply vwrites_other. rewrite log_writes_fst. lia.
  - rewrite vupd_eq. apply (head_block_n hdr []); [|cbn; lia].
    apply head_block_ok; [done|unfold NBUFn in Hcap; lia].
Qed.

(** * Recovery *)

(** A header block listing [L]. *)
Definition head_lists (d : bytes) (L : list Z) : Prop :=
  get32 d 0 = Z.of_nat (length L) /\
  forall k b, L !! k = Some b -> get32 d (4 * (k + 1)) = b.

Lemma wp_read_head s v (D : gset Z) L (Q : unit -> lstate -> Prop) :
  bio_rep (bs s) v ∅ ∅ D -> lg_dev (lg s) = 1 -> (size D < NBUFn)%nat ->
  0 <= lg_start (lg s) < disksize (bs s) ->
  length (lg_block (lg s)) = Z.to_nat LOGSIZE -> (length L <= 30)%nat ->
  head_lists (v (lg_start (lg s))) L -> Forall (fun b => 0 <= b < 2 ^ 31) L ->
  (forall b' blk, bio_rep b' v ∅ ∅ D -> same_disk (bs s) b' ->
     take (length L) blk = L -> length blk = Z.to_nat LOGSIZE ->
     Q tt (mkLstate b' (set_block blk (set_n (Z.of_nat (length L)) (lg s))))) ->
  wp read_head s Q.
Proof.
  intros Hr Hdev HD Hst Hblk HL [Hn Hb] Hrange HQ.
  unfold read_head, getlog. wp_step. wp_step. rewrite Hdev.
  wp_step. apply wp_bio. eapply wp_bread; [exact Hr|done|by intros ?; rewrite lookup_empty| |].
  { right. by rewrite map_size_empty. }
  intros i b1 _ Hsd1 Hr1. wp_step. apply wp_bio.
  eapply wp_buf_data; [exact Hr1|apply lookup_insert_eq|].
  rewrite Hn, s32_small, Nat2Z.id by lia. wp_step. unfold updlog at 1. wp_step.
  wp_step.
  eapply (wp_for_loop (fun k s' => exists blk, length blk = Z.to_nat LOGSIZE /\
     take (Z.to_nat k) blk = take (Z.to_nat k) L /\
     s' = mkLstate b1 (set_block blk (set_n (Z.of_nat (length L)) (lg s))))).
  - exists (lg_block (lg s)). by split_and!; [|destruct (lg_block (lg s)), L|destruct s as [? []]].
  - intros k s' Hk (blk & Hl & Htk & ->).
    destruct (lookup_lt_is_Some_2 L (Z.to_nat k)) as [b Hbk]; [lia|].
    pose proof (Hb _ _ Hbk) as Eb.
    pose proof (proj1 (Forall_lookup _ _) Hrange _ _ Hbk) as Hbr. cbn in Hbr.
    rewrite Eb, s32_small by lia.
    wp_step. unfold store_block, getlog. wp_step. wp_step.
    rewrite (proj2 (Z.leb_le _ _)), (proj2 (Z.ltb_lt _ _)) by (unfold LOGSIZE, MAXOPBLOCKS; lia).
    cbn [andb]. unfold updlog. wp_step. wp_step. cbn.
    exists (<[Z.to_nat k:=b]> blk). rewrite length_insert. split_and!; [done| |done].
    replace (Z.to_nat (k + 1)) with (S (Z.to_nat k)) by lia.
    rewrite (take_S_r _ _ b), (take_S_r L _ b), take_insert_ge, Htk;
      [done|lia|done|].
    apply list_lookup_insert_eq. rewrite Hl. unfold LOGSIZE, MAXOPBLOCKS. lia.
  - intros s' (blk & Hl & Htk & ->). rewrite Z.add_0_l, Nat2Z.id, firstn_all in Htk.
    apply wp_bio. cbn. eapply wp_brelse; [exact Hr1|apply lookup_insert_eq|set_solver|].
    intros b2 Hsd2 Hr2. rewrite delete_insert_id in Hr2 by apply lookup_empty.
    apply HQ; [done| |done|done]. exact (same_disk_trans _ _ _ Hsd1 Hsd2).
Qed.

Lemma wp_recover s v L (Q : unit -> lstate -> Prop) :
  let st := lg_start (lg s) in
  bio_rep (bs s) v ∅ ∅ ∅ -> lg_dev (lg s) = 1 ->
  0 <= st -> st + lg_size (lg s) <= disksize (bs s) ->
  length (lg_block (lg s)) = Z.to_nat LOGSIZE -> (length L < NBUFn)%nat ->
  Z.of_nat (length L) < lg_size (lg s) -> disksize (bs s) <= 2 ^ 31 ->
  head_lists (v st) L ->
  Forall (fun b => 0 <= b < disksize (bs s) /\ ~ (st <= b < st + lg_size (lg s))) L ->
  (forall b' blk v', bio_rep b' v' ∅ ∅ ∅ ->
     wrote_all (bs s) b' (home_writes st v L ++ [(st, head_block (v st) [])]) ->
     length blk = Z.to_nat LOGSIZE -> get32 (v' st) 0 = 0 ->
     Q tt (mkLstate b' (set_n 0 (set_block blk (set_n (Z.of_nat (length L)) (lg s)))))) ->
  wp recover_from_log s Q.
Proof.
  intros st Hr Hdev Hst Hend Hblk Hcap Hfit Hsz Hhd Hhome HQ.
  unfold recover_from_log. wp_step. eapply wp_read_head; [exact Hr|done| | |done| |exact Hhd| |].
  { rewrite size_empty. unfold NBUFn. lia. }
  { unfold st in *. lia. }
  { unfold NBUFn in Hcap. lia. }
  { eapply Forall_impl; [exact Hhome|]. cbn. intros. lia. }
  intros b1 blk Hr1 Hsd1 Htk Hlen. set (s1 := mkLstate b1 _).
  pose proof Hsd1 as (Hd1 & Hz1 & Hp1 & Hw1).
  assert (Hwf : log_wf s1 L).
  { split; cbn; rewrite ?Hz1; done. }
  wp_step. eapply (wp_install_trans s1 v L ∅); [exact Hr1|exact Hwf| | |].
  { rewrite size_empty. unfold NBUFn. lia. }
  { intros. right. rewrite size_empty. unfold NBUFn. lia. }
  cbn. fold st. intros b2 Hr2 Hw2. pose proof Hw2 as (_ & _ & Hz2 & _).
  replace (∅ ∖ list_to_set L : gset Z) with (∅ : gset Z) in Hr2 by set_solver.
  wp_step. unfold updlog. wp_step. cbn. set (s2 := set_lg _ _).
  assert (Hwf2 : log_wf s2 []) by (apply (log_wf_n0 (set_bs b2 s1) L), log_wf_set_bs; done).
  assert (Ev : vwrites v (home_writes st v L) st = v st).
  { apply vwrites_other. rewrite home_writes_fst. intros (j & Hj)%list_elem_of_lookup.
    pose proof (proj1 (Forall_lookup _ _) Hhome _ _ Hj). cbn in *. lia. }
  pose proof (bio_rep_view_ok _ _ _ _ _ st Hr) as Hok.
  eapply (wp_write_head s2); [exact Hr2|exact Hwf2| |set_solver|].
  { rewrite size_empty. unfold NBUFn. lia. }
  change (lg_start (lg s2)) with st. rewrite Ev. intros b3 Hr3 Hw3.
  eapply HQ; [exact Hr3| |done|].
  - eapply wrote_all_snoc; [|exact Hw3].
    destruct Hw2 as (Ha & Hb & Hc & Hd). split_and!; cbn in *; congruence.
  - rewrite vupd_eq. apply (head_block_n _ []); [done|cbn; lia].
Qed.

(** The in-memory log before [initlog]. *)
Definition log0 : log := mkLog 0 0 0 false 0 0 (replicate (Z.to_nat LOGSIZE) 0).

(** Booting on a disk image: [binit] in main.c, [initlog] in forkret (proc.c). *)
Definition recover (d : gmap Z bytes) (sz pid : Z) : outcome lstate unit :=
  (bio binit ;; initlog ROOTDEV) (mkLstate (boot_state d sz pid) log0).

(** A disk image whose superblock places the log at [st], of [n] blocks. *)
Definition log_at (d : gmap Z bytes) (sz st n : Z) : Prop :=
  sb_logstart (dec_superblock (disk_block d 1)) = st /\
  sb_nlog (dec_superblock (disk_block d 1)) = n /\
  2 <= st /\ 0 < n /\ st + n <= sz /\ sz <= 2 ^ 31 /\
  (forall c x, d !! c = Some x -> is_block x).

Lemma recover_ok d sz pid st n L :
  log_at d sz st n -> head_lists (disk_block d st) L ->
  (length L < NBUFn)%nat -> Z.of_nat (length L) < n ->
  Forall (fun b => 0 <= b < sz /\ ~ (st <= b < st + n)) L ->
  exists s' v', recover d sz pid = Ok tt s' /\
    disk (bs s') = apply_writes d
      (home_writes st (disk_block d) L ++ [(st, head_block (disk_block d st) [])]) /\
    bio_rep (bs s') v' ∅ ∅ ∅ /\ log_wf s' [] /\
    lg_start (lg s') = st /\ lg_size (lg s') = n /\ get32 (v' st) 0 = 0 /\
    disksize (bs s') = sz /\ lg_outstanding (lg s') = 0 /\ lg_committing (lg s') = false.
Proof.
  intros (Hst & Hn & H2 & Hn0 & Hend & Hsz & Hd) Hhd Hcap Hfit Hhome.
  enough (wp (bio binit ;; initlog ROOTDEV) (mkLstate (boot_state d sz pid) log0)
    (fun _ s' => exists v', disk (bs s') = apply_writes d
      (home_writes st (disk_block d) L ++ [(st, head_block (disk_block d st) [])]) /\
    bio_rep (bs s') v' ∅ ∅ ∅ /\ log_wf s' [] /\
    lg_start (lg s') = st /\ lg_size (lg s') = n /\ get32 (v' st) 0 = 0 /\
    disksize (bs s') = sz /\ lg_outstanding (lg s') = 0 /\ lg_committing (lg s') = false)) as Hwp.
  { apply wp_inv in Hwp as ([] & s' & E & v' & H). exists s', v'. exact (conj E H). }
  wp_step. apply wp_bio. eapply wp_intro; [apply binit_boot|].
  pose proof (binit_rep d sz pid Hd) as Hr. set (b0 := set_bufs _ _) in *.
  unfold initlog. change (BSIZE <=? sizeof_logheader) with false. cbv iota.
  unfold readsb, ROOTDEV. wp_step. wp_step. apply wp_bio. eapply wp_bread; [exact Hr|cbn; lia| | |].
  { intros ?. by rewrite lookup_empty. }
  { right. rewrite map_size_empty, size_empty. unfold NBUFn. lia. }
  intros i b1 _ Hsd1 Hr1. wp_step. apply wp_bio.
  eapply wp_buf_data; [exact Hr1|apply lookup_insert_eq|].
  wp_step. apply wp_bio. eapply wp_brelse; [exact Hr1|apply lookup_insert_eq|set_solver|].
  intros b2 Hsd2 Hr2. rewrite delete_insert_id in Hr2 by apply lookup_empty.
  pose proof (same_disk_trans _ _ _ Hsd1 Hsd2) as (Hd2 & Hz2 & Hp2 & Hw2).
  wp_step. wp_step. unfold updlog. wp_step. rewrite Hst, Hn. cbn.
  eapply (wp_recover _ (disk_block d) L); cbn [bs lg set_lg set_bs lg_start lg_size lg_dev lg_block set_geometry log0];
    rewrite ?Hz2; try assumption; try lia; try reflexivity.
  intros b3 blk v3 Hr3 (Hd3 & _ & Hz3 & _) Hblk Hg. exists v3.
  cbn in *. rewrite Hd3, Hz3, Hz2, Hd2. split_and!; try done.
  split; cbn; try done; try lia.
Qed.
