(* ===== verification/LogRep.v ===== *)
(** The interface between the file system and the layers under it.

    [BlockIO] lists the operations fs.c uses of bio.c and log.c; [ablk] is
    the abstract state they act on (the contents of the blocks, the buffers
    held, the blocks modified since they were last logged, the blocks of the
    open transactions, what is durable), and [BlockSpec] what they promise
    about it.  The buffer cache and the log ([lstate]) are shown to keep the
    promise. *)
From S2P Require Import Prelude Layout Bio Log.

Class BlockIO (S : Type) := {
  io_bread : Z -> Z -> M S nat;
  io_brelse : nat -> M S unit;
  io_data : nat -> M S bytes;
  io_set_data : nat -> bytes -> M S unit;
  io_log_write : nat -> M S unit;
  io_begin_op : M S unit;
  io_end_op : M S unit
}.

(** The geometry of the disk: its size, and where the log lies. *)
Record geom := mkGeom { g_size : Z; g_start : Z; g_nlog : Z }.

Definition in_log (g : geom) (c : Z) : Prop := g_start g <= c < g_start g + g_nlog g.

(** The blocks a transaction can hold: the log has a block less than its
    size, and the commit needs a buffer besides the dirty ones. *)
Definition log_cap (g : geom) : Z := Z.min (NBUF - 1) (g_nlog g - 1).

Record ablk := mkAblk {
  a_view : Z -> bytes;
  a_held : gmap nat Z;
  a_mod : gset Z;
  a_log : list Z;
  a_out : Z;
  a_durable : Z -> bytes
}.

Definition a_set_view v (a : ablk) := mkAblk v (a_held a) (a_mod a) (a_log a) (a_out a) (a_durable a).
Definition a_set_held h (a : ablk) := mkAblk (a_view a) h (a_mod a) (a_log a) (a_out a) (a_durable a).
Definition a_set_mod m (a : ablk) := mkAblk (a_view a) (a_held a) m (a_log a) (a_out a) (a_durable a).
Definition a_set_log l (a : ablk) := mkAblk (a_view a) (a_held a) (a_mod a) l (a_out a) (a_durable a).
Definition a_set_out o (a : ablk) := mkAblk (a_view a) (a_held a) (a_mod a) (a_log a) o (a_durable a).

(** [log_write] of block [c]: absorbed when the block is logged already. *)
Definition log_add (c : Z) (l : list Z) : list Z := if decide (c ∈ l) then l else l ++ [c].

(** The transaction committed: nothing is logged, what was seen is durable. *)
Definition a_commit (g : geom) (v : Z -> bytes) (a : ablk) : Prop :=
  forall c, ~ in_log g c -> v c = a_view a c.

Class BlockSpec (S : Type) `{!BlockIO S} := {
  bk_rep : geom -> S -> ablk -> Prop;
  bk_view_ok : forall g s a c, bk_rep g s a -> is_block (a_view a c);
  bk_mod_held : forall g s a c, bk_rep g s a -> c ∈ a_mod a -> exists i, a_held a !! i = Some c;
  bk_nodup : forall g s a, bk_rep g s a -> NoDup (a_log a);
  bk_bread : forall g s a c (Q : nat -> S -> Prop),
    bk_rep g s a -> 0 <= c < g_size g -> (forall i, a_held a !! i <> Some c) ->
    (c ∈ a_log a \/ (size (a_held a) + length (a_log a) < NBUFn)%nat) ->
    (forall i s', a_held a !! i = None ->
       bk_rep g s' (a_set_held (<[i:=c]> (a_held a)) a) -> Q i s') ->
    wp (io_bread ROOTDEV c) s Q;
  bk_data : forall g s a i c (Q : bytes -> S -> Prop),
    bk_rep g s a -> a_held a !! i = Some c -> Q (a_view a c) s -> wp (io_data i) s Q;
  bk_set_data : forall g s a i c x (Q : unit -> S -> Prop),
    bk_rep g s a -> a_held a !! i = Some c -> is_block x ->
    (forall s', bk_rep g s' (a_set_mod (a_mod a ∪ {[c]}) (a_set_view (vupd (a_view a) c x) a)) ->
       Q tt s') ->
    wp (io_set_data i x) s Q;
  bk_log_write : forall g s a i c (Q : unit -> S -> Prop),
    bk_rep g s a -> a_held a !! i = Some c -> 1 <= a_out a ->
    c <> 1 -> ~ in_log g c -> Z.of_nat (length (a_log a)) < log_cap g ->
    (forall s', bk_rep g s' (a_set_log (log_add c (a_log a)) (a_set_mod (a_mod a ∖ {[c]}) a)) ->
       Q tt s') ->
    wp (io_log_write i) s Q;
  bk_brelse : forall g s a i c (Q : unit -> S -> Prop),
    bk_rep g s a -> a_held a !! i = Some c -> c ∉ a_mod a ->
    (forall s', bk_rep g s' (a_set_held (delete i (a_held a)) a) -> Q tt s') ->
    wp (io_brelse i) s Q;
  bk_begin_op : forall g s a (Q : unit -> S -> Prop),
    bk_rep g s a ->
    Z.of_nat (length (a_log a)) + (a_out a + 1) * MAXOPBLOCKS <= LOGSIZE ->
    (forall s', bk_rep g s' (a_set_out (a_out a + 1) a) -> Q tt s') ->
    wp io_begin_op s Q;
  bk_end_op_last : forall g s a (Q : unit -> S -> Prop),
    bk_rep g s a -> a_out a = 1 -> a_held a = ∅ ->
    (forall s' v', (forall c, ~ in_log g c -> v' c = a_view a c) ->
       bk_rep g s' (mkAblk v' ∅ ∅ [] 0 v') -> Q tt s') ->
    wp io_end_op s Q;
  bk_end_op : forall g s a (Q : unit -> S -> Prop),
    bk_rep g s a -> 1 < a_out a ->
    (forall s', bk_rep g s' (a_set_out (a_out a - 1) a) -> Q tt s') ->
    wp io_end_op s Q
}.

(** * The buffer cache and the log keep the promise *)

#[global] Instance lstate_io : BlockIO lstate := {
  io_bread dev b := bio (bread dev b);
  io_brelse i := bio (brelse i);
  io_data i := bio (buf_data i);
  io_set_data i x := bio (set_buf_data i x);
  io_log_write := log_write;
  io_begin_op := begin_op;
  io_end_op := end_op
}.

Record log_rep (g : geom) (s : lstate) (a : ablk) : Prop := {
  lr_bio : bio_rep (bs s) (a_view a) (a_held a) (a_mod a) (list_to_set (a_log a));
  lr_wf : log_wf s (a_log a);
  lr_nodup : NoDup (a_log a);
  lr_sb : 1 ∉ a_log a;
  lr_at : log_at (disk (bs s)) (g_size g) (g_start g) (g_nlog g);
  lr_clear : get32 (disk_block (disk (bs s)) (g_start g)) 0 = 0;
  lr_size : disksize (bs s) = g_size g;
  lr_start : lg_start (lg s) = g_start g;
  lr_nlog : lg_size (lg s) = g_nlog g;
  lr_out : lg_outstanding (lg s) = a_out a;
  lr_out_pos : 0 <= a_out a;
  lr_idle : lg_committing (lg s) = false;
  lr_durable : forall c, ~ in_log g c -> disk_block (disk (bs s)) c = a_durable a c
}.
Arguments lr_bio {_ _ _} _.
Arguments lr_wf {_ _ _} _.
Arguments lr_nodup {_ _ _} _.
Arguments lr_sb {_ _ _} _.
Arguments lr_at {_ _ _} _.
Arguments lr_clear {_ _ _} _.
Arguments lr_size {_ _ _} _.
Arguments lr_start {_ _ _} _.
Arguments lr_nlog {_ _ _} _.
Arguments lr_out {_ _ _} _.
Arguments lr_out_pos {_ _ _} _.
Arguments lr_idle {_ _ _} _.
Arguments lr_durable {_ _ _} _.

(** An operation of the cache that leaves the disk alone keeps the log. *)
Lemma log_rep_bio g s a b' a' :
  log_rep g s a -> same_disk (bs s) b' ->
  a_log a' = a_log a -> a_out a' = a_out a -> a_durable a' = a_durable a ->
  bio_rep b' (a_view a') (a_held a') (a_mod a') (list_to_set (a_log a)) ->
  log_rep g (set_bs b' s) a'.
Proof.
  intros [] (Hd & Hz & _ & _) E1 E2 E3 Hb. split; cbn; rewrite ?E1, ?E2, ?E3, ?Hd, ?Hz; try done.
  by apply log_wf_set_bs.
Qed.

Lemma log_rep_bread g s a c (Q : nat -> lstate -> Prop) :
  log_rep g s a -> 0 <= c < g_size g -> (forall i, a_held a !! i <> Some c) ->
  (c ∈ a_log a \/ (size (a_held a) + length (a_log a) < NBUFn)%nat) ->
  (forall i s', a_held a !! i = None ->
     log_rep g s' (a_set_held (<[i:=c]> (a_held a)) a) -> Q i s') ->
  wp (bio (bread ROOTDEV c)) s Q.
Proof.
  intros Hr Hc Hh Hroom HQ. apply wp_bio. eapply wp_bread; [apply Hr| |done| |].
  - by rewrite (lr_size Hr).
  - destruct Hroom; [left; by rewrite elem_of_list_to_set|right].
    pose proof (size_list_to_set_le (a_log a)). lia.
  - intros i b' Hi Hsd Hb. apply HQ; [done|]. by eapply log_rep_bio.
Qed.

Lemma log_rep_data g s a i c (Q : bytes -> lstate -> Prop) :
  log_rep g s a -> a_held a !! i = Some c -> Q (a_view a c) s -> wp (bio (buf_data i)) s Q.
Proof.
  intros Hr Hh HQ. apply wp_bio. eapply wp_buf_data; [apply Hr|done|]. by rewrite set_bs_id.
Qed.

Lemma log_rep_set_data g s a i c x (Q : unit -> lstate -> Prop) :
  log_rep g s a -> a_held a !! i = Some c -> is_block x ->
  (forall s', log_rep g s' (a_set_mod (a_mod a ∪ {[c]}) (a_set_view (vupd (a_view a) c x) a)) ->
     Q tt s') ->
  wp (bio (set_buf_data i x)) s Q.
Proof.
  intros Hr Hh Hx HQ. apply wp_bio. eapply wp_set_buf_data; [apply Hr|done|done|].
  intros b' Hsd Hb. apply HQ. by eapply log_rep_bio.
Qed.

Lemma log_rep_brelse g s a i c (Q : unit -> lstate -> Prop) :
  log_rep g s a -> a_held a !! i = Some c -> c ∉ a_mod a ->
  (forall s', log_rep g s' (a_set_held (delete i (a_held a)) a) -> Q tt s') ->
  wp (bio (brelse i)) s Q.
Proof.
  intros Hr Hh Hm HQ. apply wp_bio. eapply wp_brelse; [apply Hr|done|done|].
  intros b' Hsd Hb. apply HQ. by eapply log_rep_bio.
Qed.

(** The slot [log_write] finds is the block's own or the first free one. *)
Lemma log_slot_spec (l : list Z) n i b :
  (n <= length l)%nat -> let k := Z.to_nat (log_slot l n i b - i) in
  i <= log_slot l n i b <= i + Z.of_nat n /\
  ((k < n)%nat /\ l !! k = Some b \/ k = n /\ b ∉ take n l).
Proof.
  revert l i. induction n as [|n IH]; intros [|x l] i Hn; cbn in *; try lia.
  - split; [lia|right]. split; [lia|set_solver].
  - split; [lia|right]. split; [lia|set_solver].
  - destruct (Z.eqb_spec x b) as [->|Hx].
    + split; [lia|left]. rewrite Z.sub_diag. split; [lia|done].
    + destruct (IH l (i + 1)) as [Hr Hc]; [lia|]. split; [lia|].
      replace (Z.to_nat (log_slot l n (i + 1) b - i))
        with (S (Z.to_nat (log_slot l n (i + 1) b - (i + 1)))) by lia.
      destruct Hc as [[Hk Hl]|[Hk Hl]]; [left; split; [lia|done]|right; split; [lia|]].
      set_solver.
Qed.

Lemma log_wf_slot s L c :
  log_wf s L ->
  let slot := log_slot (lg_block (lg s)) (length L) 0 c in
  (c ∈ L /\ slot < Z.of_nat (length L) /\ 0 <= slot /\
     lg_block (lg s) !! Z.to_nat slot = Some c) \/
  ((c ∉ L) /\ slot = Z.of_nat (length L)).
Proof.
  intros Hw slot.
  assert (Hlen : (length L <= length (lg_block (lg s)))%nat).
  { rewrite (lw_len Hw). change (Z.to_nat LOGSIZE) with 30%nat. pose proof (lw_cap Hw). unfold NBUFn in *. lia. }
  destruct (log_slot_spec (lg_block (lg s)) (length L) 0 c Hlen) as [Hr Hc].
  fold slot in Hr, Hc. rewrite Z.sub_0_r in Hc. rewrite (lw_block Hw) in Hc.
  destruct Hc as [[Hk Hl]|[Hk Hl]]; [left|right; split; [done|lia]].
  split_and!; [|lia|lia|done]. rewrite <- (lw_block Hw).
  apply elem_of_take. eauto.
Qed.

Lemma wp_store_block s i x (Q : unit -> lstate -> Prop) :
  0 <= i < LOGSIZE ->
  Q tt (set_lg (set_block (<[Z.to_nat i:=x]> (lg_block (lg s))) (lg s)) s) ->
  wp (store_block i x) s Q.
Proof.
  intros Hi HQ. unfold store_block, getlog, updlog. do 2 wp_step. zif. by apply wp_modify.
Qed.

(** The log after [log_write] of block [c]. *)
Lemma log_wf_add s L c :
  log_wf s L -> Z.of_nat (length L) + 1 < lg_size (lg s) -> (length L < 29)%nat ->
  0 <= c < disksize (bs s) -> ~ (lg_start (lg s) <= c < lg_start (lg s) + lg_size (lg s)) ->
  log_wf (set_lg (set_n (Z.of_nat (length L) + 1)
           (set_block (<[length L:=c]> (lg_block (lg s))) (lg s))) s) (L ++ [c]).
Proof.
  intros [] Hfit Hcap Hc Hlog. split; cbn; rewrite ?length_app, ?length_insert; cbn; try done; try lia.
  - rewrite Nat.add_1_r, take_S_r with (x := c).
    + rewrite take_insert_ge by lia. by rewrite lw_block.
    + rewrite list_lookup_insert_eq; [done|]. rewrite lw_len.
      change (Z.to_nat LOGSIZE) with 30%nat. lia.
  - unfold NBUFn. lia.
  - apply Forall_app. split; [done|]. by apply Forall_singleton.
Qed.

Lemma list_to_set_log_add c (L : list Z) :
  (list_to_set (log_add c L) : gset Z) = list_to_set L ∪ {[c]}.
Proof. unfold log_add. case_decide; [|rewrite list_to_set_app_L]; set_solver. Qed.

Lemma log_add_NoDup c (L : list Z) : NoDup L -> NoDup (log_add c L).
Proof.
  intros H. unfold log_add. case_decide; [done|]. apply NoDup_app. split_and!; [done| |].
  - intros x Hx ->%list_elem_of_singleton. done.
  - apply NoDup_singleton.
Qed.

Lemma elem_log_add e c (L : list Z) : e ∈ log_add c L <-> e ∈ L \/ e = c.
Proof. unfold log_add. case_decide; [naive_solver|]. rewrite elem_of_app, list_elem_of_singleton. done. Qed.

Lemma length_log_add c (L : list Z) : (length L <= length (log_add c L) <= S (length L))%nat.
Proof. unfold log_add. case_decide; [lia|]. rewrite length_app. cbn. lia. Qed.

Lemma set_lg_set_block_id s i c :
  lg_block (lg s) !! i = Some c -> set_lg (set_block (<[i:=c]> (lg_block (lg s))) (lg s)) s = s.
Proof. intros H. rewrite list_insert_id by done. by destruct s as [? []]. Qed.

(** The bookkeeping of [log_write], up to the buffer's flag. *)
Lemma wp_log_slot s L c tail (Q : unit -> lstate -> Prop) :
  log_wf s L -> Z.of_nat (length L) + 1 < lg_size (lg s) -> (length L < 29)%nat ->
  0 <= c < disksize (bs s) -> ~ (lg_start (lg s) <= c < lg_start (lg s) + lg_size (lg s)) ->
  (forall l', log_wf (set_lg l' s) (log_add c L) ->
     lg_start l' = lg_start (lg s) -> lg_size l' = lg_size (lg s) ->
     lg_outstanding l' = lg_outstanding (lg s) -> lg_committing l' = lg_committing (lg s) ->
     wp tail (set_lg l' s) Q) ->
  let slot := log_slot (lg_block (lg s)) (Z.to_nat (lg_n (lg s))) 0 c in
  wp (store_block slot c ;;
      (if slot =? lg_n (lg s) then updlog (fun l => set_n (lg_n l + 1) l) else ret tt) ;;
      tail) s Q.
Proof.
  intros Hw Hfit Hcap Hc Hlog HQ slot. subst slot.
  pose proof (lw_n Hw) as Hn. rewrite Hn, Nat2Z.id.
  unfold log_add in HQ.
  destruct (log_wf_slot s L c Hw) as [(HcL & Hs1 & Hs2 & Hl)|[HcL ->]]; cbn zeta in *.
  - rewrite decide_True in HQ by done. wp_step.
    apply wp_store_block; [change LOGSIZE with 30; lia|]. rewrite (set_lg_set_block_id _ _ _ Hl).
    wp_step. rewrite (proj2 (Z.eqb_neq _ _)) by lia. apply wp_ret.
    specialize (HQ (lg s)). destruct s as [b l]. by apply HQ.
  - rewrite decide_False in HQ by done. wp_step.
    apply wp_store_block; [change LOGSIZE with 30; lia|]. rewrite Nat2Z.id.
    wp_step. rewrite Z.eqb_refl. apply wp_modify.
    apply HQ; try done. cbn [lg set_lg set_block lg_n]. rewrite Hn. by apply log_wf_add.
Qed.

Lemma log_rep_log_write g s a i c (Q : unit -> lstate -> Prop) :
  log_rep g s a -> a_held a !! i = Some c -> 1 <= a_out a ->
  c <> 1 -> ~ in_log g c -> Z.of_nat (length (a_log a)) < log_cap g ->
  (forall s', log_rep g s' (a_set_log (log_add c (a_log a)) (a_set_mod (a_mod a ∖ {[c]}) a)) ->
     Q tt s') ->
  wp (log_write i) s Q.
Proof.
  intros Hr Hh Ho H1 Hlog Hcap HQ.
  destruct (bio_rep_held _ _ _ _ _ _ _ (lr_bio Hr) Hh) as (b & _ & Hb & _ & Hbn & _ & _ & _ & Hsz & _).
  pose proof (lw_n (lr_wf Hr)) as Hn. unfold log_cap, in_log in *. change NBUF with 30 in *.
  unfold log_write, getlog. wp_step. wp_step. rewrite Hn, (lr_nlog Hr), (lr_out Hr).
  change LOGSIZE with 30. zif. zif. wp_step. apply wp_bio. eapply wp_getbuf; [exact Hb|].
  rewrite set_bs_id, Hbn. rewrite <- Hn. eapply (wp_log_slot s (a_log a)); [apply Hr|..].
  - rewrite (lr_nlog Hr). lia.
  - lia.
  - done.
  - rewrite (lr_nlog Hr), (lr_start Hr). done.
  - intros l' Hwf' E1 E2 E3 E4. apply wp_bio. eapply wp_mark_dirty; [apply Hr|done|].
    intros b' (Hd & Hz & _ & _) Hb'. apply HQ. destruct Hr.
    split; cbn; rewrite ?Hd, ?Hz, ?E1, ?E2, ?E3, ?E4; try done.
    + by rewrite list_to_set_log_add.
    + by apply (log_wf_set_bs (set_lg l' s)).
    + by apply log_add_NoDup.
    + rewrite elem_log_add. naive_solver.
Qed.

Lemma log_wf_flags s o c L :
  log_wf s L -> log_wf (set_lg (set_committing c (set_outstanding o (lg s))) s) L.
Proof. by intros []. Qed.

Lemma log_rep_out g s a o :
  log_rep g s a -> 0 <= o ->
  log_rep g (set_lg (set_outstanding o (lg s)) s) (a_set_out o a).
Proof. intros [] Ho. split; try done. by destruct lr_wf0. Qed.

Lemma log_rep_begin_op g s a (Q : unit -> lstate -> Prop) :
  log_rep g s a ->
  Z.of_nat (length (a_log a)) + (a_out a + 1) * MAXOPBLOCKS <= LOGSIZE ->
  (forall s', log_rep g s' (a_set_out (a_out a + 1) a) -> Q tt s') ->
  wp begin_op s Q.
Proof.
  intros Hr Hroom HQ. unfold begin_op, getlog, updlog. do 2 wp_step.
  rewrite (lr_idle Hr), (lw_n (lr_wf Hr)), (lr_out Hr). zif. apply wp_modify, HQ.
  apply log_rep_out; [done|]. pose proof (lr_out_pos Hr). lia.
Qed.

Lemma log_rep_end_op g s a (Q : unit -> lstate -> Prop) :
  log_rep g s a -> 1 < a_out a ->
  (forall s', log_rep g s' (a_set_out (a_out a - 1) a) -> Q tt s') ->
  wp end_op s Q.
Proof.
  intros Hr Ho HQ. unfold end_op, getlog, updlog. do 2 wp_step. wp_step. apply wp_modify.
  rewrite (lr_idle Hr), (lr_out Hr). zif. apply wp_ret, HQ. apply log_rep_out; [done|lia].
Qed.

Lemma log_rep_no_mod g s a : log_rep g s a -> a_held a = ∅ -> a_mod a = ∅.
Proof.
  intros Hr Hh. apply set_eq. intros c. split; [|set_solver]. intros Hc.
  destruct (ct_mod (proj2 (lr_bio Hr)) c Hc) as [i Hi]. by rewrite Hh, lookup_empty in Hi.
Qed.

(** The committing state of [end_op], before the commit. *)
Definition closing (s : lstate) : lstate :=
  set_lg (set_committing true (set_outstanding (lg_outstanding (lg s) - 1) (lg s))) s.

(** The writes a commit makes. *)
Definition txn_writes (g : geom) (a : ablk) : list (Z * bytes) :=
  match a_log a with
  | [] => []
  | _ => commit_writes (g_start g) (a_view a) (a_log a)
  end.

(** The state once the log is empty again. *)
Lemma log_rep_emptied g s a b' v' :
  log_rep g s a -> a_held a = ∅ -> bio_rep b' v' ∅ ∅ ∅ -> disksize b' = disksize (bs s) ->
  (forall c, ~ in_log g c -> v' c = a_view a c) -> get32 (v' (g_start g)) 0 = 0 ->
  log_rep g (mkLstate b' (set_committing false (set_outstanding 0 (set_n 0 (lg s)))))
    (mkAblk v' ∅ ∅ [] 0 v').
Proof.
  intros Hr Hh Hb Hz Hv Hhd.
  assert (Hdisk : forall c, v' c = disk_block (disk b') c).
  { intros c. apply (bio_rep_clean _ _ _ _ _ _ Hb); apply not_elem_of_empty. }
  destruct (lr_at Hr) as (A1 & A2 & A3 & A4 & A5 & A6 & A7).
  assert (E1 : disk_block (disk b') 1 = disk_block (disk (bs s)) 1).
  { rewrite <- Hdisk, Hv by (unfold in_log; lia).
    apply (bio_rep_clean _ _ _ _ _ 1 (lr_bio Hr)).
    - rewrite elem_of_list_to_set. apply (lr_sb Hr).
    - rewrite (log_rep_no_mod _ _ _ Hr Hh). apply not_elem_of_empty. }
  destruct Hr. split; cbn; try done.
  - destruct lr_wf0. split; cbn; try done; lia.
  - apply NoDup_nil_2.
  - apply not_elem_of_nil.
  - unfold log_at. rewrite E1. split_and!; try done. apply (ct_disk (proj2 Hb)).
  - by rewrite <- Hdisk.
  - congruence.
Qed.

(** A commit puts the transaction on disk. *)
Lemma log_rep_commit g s a (Q : unit -> lstate -> Prop) :
  log_rep g s a -> a_held a = ∅ ->
  (forall b' v', (forall c, ~ in_log g c -> v' c = a_view a c) ->
     log_rep g (mkLstate b' (set_committing false (set_outstanding 0 (set_n 0 (lg s)))))
       (mkAblk v' ∅ ∅ [] 0 v') ->
     wrote_all (bs s) b' (txn_writes g a) ->
     Q tt (mkLstate b' (set_n 0 (lg (closing s))))) ->
  wp commit (closing s) Q.
Proof.
  intros Hr Hh HQ. pose proof (lr_bio Hr) as Hb. rewrite Hh, (log_rep_no_mod _ _ _ Hr Hh) in Hb.
  pose proof (lw_n (lr_wf Hr)) as Hn. unfold txn_writes in HQ.
  destruct (a_log a) as [|b0 L0] eqn:EL.
  - unfold commit, getlog. do 2 wp_step. cbn [closing set_lg lg set_committing set_outstanding lg_n].
    rewrite Hn. change (0 <? Z.of_nat (@length Z [])) with false. cbv iota. apply wp_ret.
    assert (E : closing s = mkLstate (bs s) (set_n 0 (lg (closing s)))).
    { destruct s as [b l], l. cbn in *. subst. done. }
    rewrite E. apply (HQ (bs s) (a_view a)); [done| |apply wrote_all_nil].
    apply (log_rep_emptied g s a); try done. 
    rewrite (bio_rep_clean _ _ _ _ _ _ Hb); [apply Hr|set_solver|set_solver].
  - apply (wp_commit (closing s) (a_view a) (b0 :: L0)); [done| |rewrite <- EL; apply Hr|done|].
    { pose proof (log_wf_flags s (lg_outstanding (lg s) - 1) true _ (lr_wf Hr)) as H.
      by rewrite EL in H. }
    intros b' v' Hb' Hwr Hv Hhd. cbn [closing set_lg lg set_committing set_outstanding lg_start lg_size] in *.
    rewrite (lr_start Hr), (lr_nlog Hr) in *.
    apply (HQ b' v'); [done| |done]. apply (log_rep_emptied g s a); try done. apply Hwr.
Qed.

Lemma log_rep_end_op_last g s a (Q : unit -> lstate -> Prop) :
  log_rep g s a -> a_out a = 1 -> a_held a = ∅ ->
  (forall s' v', (forall c, ~ in_log g c -> v' c = a_view a c) ->
     log_rep g s' (mkAblk v' ∅ ∅ [] 0 v') ->
     wrote_all (bs s) (bs s') (txn_writes g a) -> Q tt s') ->
  wp end_op s Q.
Proof.
  intros Hr Ho Hh HQ. unfold end_op, getlog, updlog. do 2 wp_step. wp_step. apply wp_modify.
  rewrite (lr_idle Hr). cbv iota. pose proof (lr_out Hr) as Ho'. zif.
  wp_step. apply wp_modify. wp_step. fold (closing s).
  eapply wp_mono; [apply (log_rep_commit g s a (fun _ s' =>
    exists b' v', s' = mkLstate b' (set_n 0 (lg (closing s))) /\
      (forall c, ~ in_log g c -> v' c = a_view a c) /\
      log_rep g (mkLstate b' (set_committing false (set_outstanding 0 (set_n 0 (lg s)))))
        (mkAblk v' ∅ ∅ [] 0 v') /\
      wrote_all (bs s) b' (txn_writes g a)) Hr Hh)|].
  - intros b' v' H1 H2 H3. by exists b', v'.
  - intros [] s' (b' & v' & -> & Hv & Hr' & Hw). apply wp_modify.
    apply (HQ _ v' Hv); [|done]. unfold closing, set_outstanding, set_committing, set_n in *.
    cbn in *. by rewrite Ho', Ho.
Qed.

#[global] Program Instance lstate_spec : BlockSpec lstate := { bk_rep := log_rep }.
Next Obligation. intros g s a c Hr. exact (bio_rep_view_ok _ _ _ _ _ c (lr_bio Hr)). Qed.
Next Obligation. intros g s a c Hr. exact (ct_mod (proj2 (lr_bio Hr)) c). Qed.
Next Obligation. intros g s a Hr. exact (lr_nodup Hr). Qed.
Next Obligation. exact log_rep_bread. Qed.
Next Obligation. exact log_rep_data. Qed.
Next Obligation. exact log_rep_set_data. Qed.
Next Obligation. exact log_rep_log_write. Qed.
Next Obligation. exact log_rep_brelse. Qed.
Next Obligation. exact log_rep_begin_op. Qed.
Next Obligation.
  intros g s a Q Hr Ho Hh HQ. eapply log_rep_end_op_last; [exact Hr|done|done|]. eauto.
Qed.
Next Obligation. exact log_rep_end_op. Qed.
