(* ===== verification/Crash.v ===== *)
(** Crash safety of the log (src/log.c): a commit interrupted after any number
    of its disk writes is, once [recover_from_log] has run at boot, either
    undone or complete. *)
From S2P Require Import Prelude Layout Bio Log LogRep.

(** * Crash safety of a commit *)

Lemma head_lists_nil d : get32 d 0 = 0 -> head_lists d [].
Proof. by split. Qed.

Lemma head_lists_head_block d L :
  is_block d -> (length L <= 30)%nat -> Forall (fun b => 0 <= b < 2 ^ 32) L ->
  head_lists (head_block d L) L.
Proof.
  intros Hd HL Hr. split; [by apply head_block_n|].
  intros k b Hb. rewrite (head_block_get _ _ _ _ Hd HL Hb). apply u32_small.
  exact (proj1 (Forall_lookup _ _) Hr _ _ Hb).
Qed.

(** Recovery replays the log: it leaves a consistent state with an empty log,
    in which the listed blocks have the contents the log has for them and the
    others are as they were. *)
Lemma recover_rep d sz pid st n L :
  log_at d sz st n -> head_lists (disk_block d st) L -> NoDup L -> 1 ∉ L ->
  (length L < NBUFn)%nat -> Z.of_nat (length L) < n ->
  Forall (fun b => 0 <= b < sz /\ ~ (st <= b < st + n)) L ->
  exists s' v, recover d sz pid = Ok tt s' /\
    log_rep (mkGeom sz st n) s' (mkAblk v ∅ ∅ [] 0 v) /\
    (forall c, ~ (st <= c < st + n) -> c ∉ L -> v c = disk_block d c) /\
    (forall i b, L !! i = Some b -> v b = disk_block d (st + 1 + Z.of_nat i)).
Proof.
  intros Hat Hhd Hnd H1 Hcap Hfit Hhome.
  destruct (recover_ok d sz pid st n L Hat Hhd Hcap Hfit Hhome)
    as (s' & v & E & Hd & Hb & Hwf & Hst & Hn & Hhd' & Hz & Ho & Hc).
  exists s', v. split; [exact E|]. clear E.
  assert (Hv : forall c, v c = disk_block (disk (bs s')) c).
  { intros c. apply (bio_rep_clean _ _ _ _ _ _ Hb); apply not_elem_of_empty. }
  assert (Hother : forall c, c ∉ L -> c <> st -> v c = disk_block d c).
  { intros c HL Hcs. rewrite Hv, Hd. apply apply_writes_other.
    rewrite fmap_app, home_writes_fst, not_elem_of_app. split; [done|].
    cbn. rewrite list_elem_of_singleton. done. }
  destruct Hat as (A1 & A2 & A3 & A4 & A5 & A6 & A7).
  split_and!.
  - split; cbn; try done; [apply NoDup_nil_2|apply not_elem_of_nil| |by rewrite <- Hv].
    unfold log_at. rewrite <- (Hv 1), (Hother 1) by (done || lia). split_and!; try done.
    apply (ct_disk (proj2 Hb)).
  - intros c Hc' HL. apply Hother; [done|lia].
  - intros i b Hi. rewrite Hv, Hd, apply_writes_app, apply_writes_other.
    + apply apply_writes_here; [by rewrite home_writes_fst|]. apply elem_home_writes. eauto.
    + cbn. rewrite list_elem_of_singleton. intros ->.
      pose proof (proj1 (Forall_lookup _ _) Hhome _ _ Hi). cbn in *. lia.
Qed.

Section crash.
Context (s : lstate) (v : Z -> bytes) (L : list Z) (pid : Z).
Local Abbreviation st := (lg_start (lg s)).
Local Abbreviation n := (lg_size (lg s)).
Local Abbreviation sz := (disksize (bs s)).
Local Abbreviation d0 := (disk (bs s)).
Hypothesis Hrep : bio_rep (bs s) v ∅ ∅ (list_to_set L).
Hypothesis Hwf : log_wf s L.
Hypothesis Hnd : NoDup L.
Hypothesis H1 : 1 ∉ L.
Hypothesis Hat : log_at d0 sz st n.
Hypothesis Hclear : get32 (disk_block d0 st) 0 = 0.

Lemma crash_elem b : b ∈ L -> 0 <= b < sz /\ ~ (st <= b < st + n).
Proof. intros Hb. exact (proj1 (Forall_forall _ _) (lw_home Hwf) b Hb). Qed.

(** A block that is not logged is on disk as the cache has it. *)
Lemma crash_clean c : c ∉ L -> v c = disk_block d0 c.
Proof.
  intros Hc. apply (bio_rep_clean _ _ _ _ _ _ Hrep); [|apply not_elem_of_empty].
  by rewrite elem_of_list_to_set.
Qed.

Lemma crash_view_ok c : is_block (v c).
Proof. exact (bio_rep_view_ok _ _ _ _ _ c Hrep). Qed.

(** The writes a commit may make: to the log or to the homes of [L]. *)
Definition commit_target (w : Z * bytes) : Prop :=
  (st <= w.1 < st + n \/ w.1 ∈ L) /\ is_block w.2.

(** Such writes do not move the log. *)
Lemma crash_log_at ws : Forall commit_target ws -> log_at (apply_writes d0 ws) sz st n.
Proof.
  intros Hws. destruct Hat as (Ha & Hb & Hc & Hd & He & Hf & Hg).
  assert (E : disk_block (apply_writes d0 ws) 1 = disk_block d0 1).
  { apply apply_writes_other. intros ([c x] & E & Hw)%list_elem_of_fmap. cbn in E. subst c.
    apply (proj1 (Forall_forall _ _) Hws) in Hw as [[?|?] _]; cbn in *; [lia|done]. }
  unfold log_at. rewrite E. split_and!; try done. apply apply_writes_ok; [done|].
  apply Forall_fmap. eapply Forall_impl; [exact Hws|]. by intros w [_ ?].
Qed.

Lemma crash_log_writes : Forall commit_target (log_writes st v L).
Proof.
  apply Forall_forall. intros [c x] (i & b & Hb & -> & ->)%elem_log_writes.
  split; [left; cbn|apply crash_view_ok]. apply lookup_lt_Some in Hb.
  pose proof (lw_fit Hwf). lia.
Qed.

Lemma crash_self_writes : Forall commit_target (map (fun b => (b, v b)) L).
Proof.
  apply Forall_forall. intros w (b & -> & Hb)%list_elem_of_fmap.
  split; [by right|apply crash_view_ok].
Qed.

Lemma crash_head_ok :
  is_block (head_block (v st) L) /\ is_block (head_block (head_block (v st) L) []).
Proof.
  pose proof (lw_cap Hwf) as Hc. unfold NBUFn in Hc.
  assert (is_block (head_block (v st) L)) by (apply head_block_ok; [apply crash_view_ok|lia]).
  split; [done|]. apply head_block_ok; [done|cbn; lia].
Qed.

Lemma crash_log_writes_fst c k :
  c ∈ (take k (log_writes st v L)).*1 -> st < c < st + n.
Proof.
  intros (w & -> & Hw)%list_elem_of_fmap. apply elem_of_take in Hw.
  destruct Hw as (i & Hw & _). apply list_elem_of_lookup_2 in Hw. destruct w as [c x].
  apply elem_log_writes in Hw as (j & b & Hb & -> & _). apply lookup_lt_Some in Hb.
  pose proof (lw_fit Hwf). cbn. lia.
Qed.

(** Before the header is written, recovery undoes the transaction. *)
Lemma crash_before k :
  exists s' w, recover (apply_writes d0 (take k (log_writes st v L))) sz pid = Ok tt s' /\
    log_rep (mkGeom sz st n) s' (mkAblk w ∅ ∅ [] 0 w) /\
    forall c, ~ (st <= c < st + n) -> w c = disk_block d0 c.
Proof.
  assert (Hst : st ∉ (take k (log_writes st v L)).*1)
    by (intros H%crash_log_writes_fst; lia).
  destruct (recover_rep (apply_writes d0 (take k (log_writes st v L))) sz pid st n [])
    as (s' & w & E & Hr & Hout & _).
  - apply crash_log_at, Forall_take, crash_log_writes.
  - apply head_lists_nil. by rewrite apply_writes_other.
  - by apply NoDup_nil.
  - apply not_elem_of_nil.
  - unfold NBUFn. cbn. lia.
  - destruct Hat as (_ & _ & _ & ? & _). cbn. lia.
  - done.
  - exists s', w. split; [exact E|]. clear E. split; [exact Hr|]. intros c Hc.
    rewrite Hout; [|exact Hc|apply not_elem_of_nil].
    apply apply_writes_other. intros H%crash_log_writes_fst. lia.
Qed.

(** The disk once the header is on it and [k] homes are written. *)
Definition after_header (k : nat) : gmap Z bytes :=
  apply_writes d0 (log_writes st v L ++ [(st, head_block (v st) L)] ++
                   take k (map (fun b => (b, v b)) L)).

Lemma take_self_fst c k : c ∈ (take k (map (fun b => (b, v b)) L)).*1 -> c ∈ L.
Proof.
  rewrite fmap_take, fst_self_writes. intros Hc.
  apply elem_of_take in Hc as (i & ? & _). by eapply list_elem_of_lookup_2.
Qed.

Lemma after_header_log k i b :
  L !! i = Some b -> disk_block (after_header k) (st + 1 + Z.of_nat i) = v b.
Proof.
  intros Hb. unfold after_header. pose proof (lookup_lt_Some _ _ _ Hb). pose proof (lw_fit Hwf).
  rewrite !apply_writes_app, apply_writes_other.
  1: rewrite apply_writes_other.
  - apply apply_writes_here; [apply log_writes_NoDup|]. apply elem_log_writes. eauto.
  - cbn. rewrite list_elem_of_singleton. lia.
  - intros Hx%take_self_fst%crash_elem. lia.
Qed.

Lemma after_header_head k : disk_block (after_header k) st = head_block (v st) L.
Proof.
  unfold after_header. rewrite !apply_writes_app, apply_writes_other.
  - apply apply_writes_here; [cbn; apply NoDup_singleton|by apply list_elem_of_singleton].
  - intros Hx%take_self_fst%crash_elem. pose proof (lw_fit Hwf). lia.
Qed.

Lemma after_header_other k c :
  ~ (st <= c < st + n) -> c ∉ L -> disk_block (after_header k) c = disk_block d0 c.
Proof.
  intros Hc HL. pose proof (lw_fit Hwf). apply apply_writes_other.
  rewrite !fmap_app, !not_elem_of_app. split_and!.
  - intros Hin. pose proof (crash_log_writes_fst c (length (log_writes st v L))) as Hf.
    rewrite firstn_all in Hf. apply Hf in Hin. lia.
  - cbn. rewrite list_elem_of_singleton. lia.
  - by intros H'%take_self_fst.
Qed.

Lemma after_header_log_at k : log_at (after_header k) sz st n.
Proof.
  pose proof (lw_fit Hwf). apply crash_log_at. rewrite !Forall_app. split_and!.
  - apply crash_log_writes.
  - apply Forall_singleton. split; cbn; [lia|apply crash_head_ok].
  - apply Forall_take, crash_self_writes.
Qed.

(** Between the header and its clearing, recovery completes the transaction. *)
Lemma crash_after k :
  exists s' w, recover (after_header k) sz pid = Ok tt s' /\
    log_rep (mkGeom sz st n) s' (mkAblk w ∅ ∅ [] 0 w) /\
    forall c, ~ (st <= c < st + n) -> w c = v c.
Proof.
  pose proof (lw_cap Hwf) as Hcap.
  destruct (recover_rep (after_header k) sz pid st n L) as (s' & w & E & Hr & Hout & Hin).
  - apply after_header_log_at.
  - rewrite after_header_head. apply head_lists_head_block; [apply crash_view_ok| |].
    + unfold NBUFn in Hcap. lia.
    + apply Forall_forall. intros b [? _]%crash_elem. destruct Hat as (_ & _ & _ & _ & _ & ? & _). lia.
  - exact Hnd.
  - exact H1.
  - exact Hcap.
  - exact (lw_fit Hwf).
  - exact (lw_home Hwf).
  - exists s', w. split; [exact E|]. clear E. split; [exact Hr|]. intros c Hc.
    destruct (decide (c ∈ L)) as [HcL|HcL].
    + apply list_elem_of_lookup in HcL as [i Hi]. rewrite (Hin i c Hi).
      by apply after_header_log.
    + rewrite (Hout c Hc HcL), (after_header_other k c Hc HcL). symmetry. by apply crash_clean.
Qed.

(** Once the header is cleared there is nothing left to recover. *)
Lemma crash_done :
  exists s' w, recover (apply_writes (after_header (length L))
                          [(st, head_block (head_block (v st) L) [])]) sz pid = Ok tt s' /\
    log_rep (mkGeom sz st n) s' (mkAblk w ∅ ∅ [] 0 w) /\
    forall c, ~ (st <= c < st + n) -> w c = v c.
Proof.
  pose proof (lw_fit Hwf) as Hfit. pose proof crash_head_ok as [Hh Hh0].
  set (d1 := after_header (length L)).
  assert (Hst : disk_block (apply_writes d1 [(st, head_block (head_block (v st) L) [])]) st =
                head_block (head_block (v st) L) []).
  { apply apply_writes_here; [cbn; apply NoDup_singleton|by apply list_elem_of_singleton]. }
  destruct (recover_rep (apply_writes d1 [(st, head_block (head_block (v st) L) [])])
              sz pid st n []) as (s' & w & E & Hr & Hout & _).
  - unfold d1, after_header. rewrite <- apply_writes_app. apply crash_log_at.
    rewrite !Forall_app. split_and!.
    + apply crash_log_writes.
    + apply Forall_singleton. split; cbn; [lia|done].
    + apply Forall_take, crash_self_writes.
    + apply Forall_singleton. split; cbn [fst snd]; [lia|done].
  - rewrite Hst. apply head_lists_head_block; [done|cbn; lia|by apply Forall_nil].
  - by apply NoDup_nil.
  - apply not_elem_of_nil.
  - unfold NBUFn. cbn. lia.
  - cbn. lia.
  - by apply Forall_nil.
  - exists s', w. split; [exact E|]. clear E. split; [exact Hr|]. intros c Hc.
    rewrite Hout; [|exact Hc|apply not_elem_of_nil].
    assert (Hother : disk_block (apply_writes d1 [(st, head_block (head_block (v st) L) [])]) c =
                     disk_block d1 c).
    { apply apply_writes_other. cbn [fmap list_fmap fst]. rewrite list_elem_of_singleton. lia. }
    rewrite Hother. destruct (decide (c ∈ L)) as [HcL|HcL].
    + unfold d1, after_header. rewrite !apply_writes_app.
      rewrite firstn_all2 by (rewrite length_map; lia).
      apply apply_writes_here; [by rewrite fst_self_writes|]. apply list_elem_of_fmap. eauto.
    + unfold d1. rewrite (after_header_other _ c Hc HcL). symmetry. by apply crash_clean.
Qed.

(** Every prefix of the writes of a commit is one of the three cases. *)
Lemma take_commit_writes k :
  ((k <= length L)%nat /\
     take k (commit_writes st v L) = take k (log_writes st v L)) \/
  (exists j, (length L < k)%nat /\
     take k (commit_writes st v L) =
       log_writes st v L ++ [(st, head_block (v st) L)] ++ take j (map (fun b => (b, v b)) L)) \/
  ((length L < k)%nat /\ take k (commit_writes st v L) = commit_writes st v L).
Proof.
  set (m := length L).
  assert (E1 : length (log_writes st v L) = m) by apply length_imap.
  assert (E2 : length (map (fun b => (b, v b)) L) = m) by apply length_map.
  destruct (decide (k <= m)%nat) as [H|H].
  - left. split; [done|]. unfold commit_writes. by rewrite take_app_le by lia.
  - right. destruct (decide (k <= m + 1 + m)%nat) as [H'|H'].
    + left. exists (k - m - 1)%nat. split; [lia|]. unfold commit_writes.
      rewrite take_app_ge, E1 by lia. f_equal.
      rewrite take_app_ge by (cbn; lia). f_equal. cbn [length].
      by rewrite take_app_le by lia.
    + right. split; [lia|]. apply firstn_all2. unfold commit_writes.
      rewrite !length_app, E1, E2. cbn [length]. lia.
Qed.

(** What recovery makes of the disk as it is after [k] writes of the commit. *)
Lemma crash_prefix k :
  exists s' w, recover (apply_writes d0 (take k (commit_writes st v L))) sz pid = Ok tt s' /\
    log_rep (mkGeom sz st n) s' (mkAblk w ∅ ∅ [] 0 w) /\
    forall c, ~ (st <= c < st + n) ->
      w c = if decide (k <= length L)%nat then disk_block d0 c else v c.
Proof.
  destruct (take_commit_writes k) as [[Hk ->]|[(j & Hk & ->)|[Hk ->]]].
  - destruct (decide (k <= length L)%nat) as [_|?]; [apply crash_before|lia].
  - destruct (decide (k <= length L)%nat) as [?|_]; [lia|exact (crash_after j)].
  - destruct (decide (k <= length L)%nat) as [?|_]; [lia|]. pose proof crash_done as H. unfold after_header in H.
    rewrite <- apply_writes_app in H. rewrite firstn_all2 in H by (rewrite length_map; lia).
    rewrite <- !app_assoc in H. exact H.
Qed.
End crash.

(** C1: crash atomicity of a transaction.  From any consistent state, [end_op]
    of the last open operation returns, and whatever number [k] of its disk
    writes reached the disk before a crash, booting ([binit], [initlog] with
    [recover_from_log]) returns too and restores a consistent state with an
    empty log whose blocks outside the log are all the old, durable ones if
    the header was not yet written, and all those of the transaction
    otherwise. *)
Theorem end_op_crash_atomic g s a pid :
  log_rep g s a -> a_out a = 1 -> a_held a = ∅ ->
  exists s' ws, end_op s = Ok tt s' /\
    disk_writes (bs s') = disk_writes (bs s) ++ ws /\
    disk (bs s') = apply_writes (disk (bs s)) ws /\
    forall k, exists s'' w,
      recover (apply_writes (disk (bs s)) (take k ws)) (g_size g) pid = Ok tt s'' /\
      log_rep g s'' (mkAblk w ∅ ∅ [] 0 w) /\
      forall c, ~ in_log g c ->
        w c = if decide (k <= length (a_log a))%nat then a_durable a c else a_view a c.
Proof.
  intros Hr Ho Hh. pose proof (log_rep_no_mod _ _ _ Hr Hh) as Hm.
  assert (Hwp : wp end_op s (fun _ s' => wrote_all (bs s) (bs s') (txn_writes g a))).
  { eapply log_rep_end_op_last; [exact Hr|done|done|]. auto. }
  apply wp_inv in Hwp as ([] & s' & E & Hd & Hw & _).
  exists s', (txn_writes g a). split; [exact E|]. clear E. split; [done|]. split; [done|].
  intros k. destruct Hr as [Hb Hwf Hnd H1 Hat Hcl Hz Hst Hn _ _ _ Hdur].
  rewrite Hh, Hm in Hb. destruct g as [sz st n]. cbn [g_size g_start g_nlog] in *. subst sz st n.
  assert (Hcl0 : forall c, c ∉ a_log a -> a_view a c = disk_block (disk (bs s)) c).
  { intros c Hc. exact (crash_clean s (a_view a) (a_log a) Hb c Hc). }
  unfold txn_writes, in_log in *. cbn [g_size g_start g_nlog] in *.
  destruct (a_log a) as [|b0 L0] eqn:EL.
  - destruct (crash_before s (a_view a) [] pid Hb Hwf H1 Hat Hcl k) as (s'' & w & E & Hr & Hw').
    exists s'', w. change (log_writes (lg_start (lg s)) (a_view a) []) with (@nil (Z * bytes)) in E.
    split; [exact E|]. clear E. split; [exact Hr|]. intros c Hc. rewrite Hw' by done.
    rewrite Hcl0 by apply not_elem_of_nil. rewrite Hdur by done. by case_decide.
  - destruct (crash_prefix s (a_view a) (b0 :: L0) pid Hb Hwf Hnd H1 Hat Hcl k)
      as (s'' & w & E & Hr & Hw').
    exists s'', w. split; [exact E|]. clear E. split; [exact Hr|]. intros c Hc.
    rewrite Hw', Hdur by done. done.
Qed.

(** A disk of 64 blocks with the log at 2, of 30 blocks, and nothing else. *)
Definition demo_sb : superblock := mkSuperblock 64 20 16 30 2 32 40.
Definition demo_disk : gmap Z bytes :=
  <[1 := enc_superblock demo_sb ++ replicate 484 0]> ∅.
Definition demo_geom : geom := mkGeom 64 2 30.

Lemma demo_log_at : log_at demo_disk 64 2 30.
Proof.
  assert (E : disk_block demo_disk 1 = enc_superblock demo_sb ++ replicate 484 0).
  { unfold disk_block, demo_disk. by rewrite lookup_insert_eq. }
  unfold log_at. rewrite E, dec_enc_superblock by (repeat constructor; cbn; lia).
  split_and!; try done. intros c x. unfold demo_disk.
  rewrite lookup_insert_Some, lookup_empty. intros [[<- <-]|[_ ?]]; [|done].
  split; [done|]. apply Forall_app. split; [apply enc32s_is_byte|].
  apply Forall_replicate. unfold is_byte. lia.
Qed.

(** Booting this disk. *)
Lemma demo_boot :
  exists s v, recover demo_disk 64 7 = Ok tt s /\
    log_rep demo_geom s (mkAblk v ∅ ∅ [] 0 v) /\
    forall c, ~ in_log demo_geom c -> v c = disk_block demo_disk c.
Proof.
  destruct (recover_rep demo_disk 64 7 2 30 []) as (s & v & E & Hr & Hv & _).
  - apply demo_log_at.
  - apply head_lists_nil. unfold disk_block, demo_disk. by rewrite lookup_insert_ne by done.
  - apply NoDup_nil_2.
  - apply not_elem_of_nil.
  - unfold NBUFn. cbn. lia.
  - cbn. lia.
  - by apply Forall_nil.
  - exists s, v. split; [exact E|]. clear E. split; [exact Hr|].
    intros c Hc. apply Hv; [exact Hc|apply not_elem_of_nil].
Qed.

(** The start of an operation that rewrites block 50. *)
Definition demo_op (x : bytes) : M lstate unit :=
  begin_op ;;
  let* i := bio (bread ROOTDEV 50) in
  bio (set_buf_data i x) ;;
  log_write i ;;
  bio (brelse i).

Lemma demo_op_rep s v x :
  log_rep demo_geom s (mkAblk v ∅ ∅ [] 0 v) -> is_block x ->
  wp (demo_op x) s (fun _ s' =>
    exists a, log_rep demo_geom s' a /\ a_out a = 1 /\ a_held a = ∅ /\ a_log a = [50] /\
      a_durable a = v /\ a_view a 50 = x).
Proof.
  intros Hr Hx. unfold demo_op. wp_step. eapply log_rep_begin_op; [exact Hr|vm_compute; discriminate|].
  clear s Hr. intros s Hr. wp_step. eapply log_rep_bread; [exact Hr|cbn; lia| | |]; cbn.
  { intros i. by rewrite lookup_empty. }
  { right. rewrite map_size_empty. unfold NBUFn. lia. }
  intros i s1 _ Hr1. wp_step. eapply (log_rep_set_data _ _ _ i 50); [exact Hr1|apply lookup_insert_eq|done|].
  intros s2 Hr2. wp_step. eapply (log_rep_log_write _ _ _ i 50); 
    [exact Hr2|apply lookup_insert_eq|cbn; lia|lia|unfold in_log; cbn; lia|reflexivity|].
  intros s3 Hr3. eapply (log_rep_brelse _ _ _ i 50); [exact Hr3|apply lookup_insert_eq|cbn; set_solver|].
  intros s4 Hr4. eexists. split; [exact Hr4|]. cbn. split_and!; try done.
  apply delete_insert_id, lookup_empty.
Qed.

Lemma end_op_crash_atomic_witness :
  exists s0 s a, recover demo_disk 64 7 = Ok tt s0 /\
    demo_op (replicate 512 7) s0 = Ok tt s /\ log_rep demo_geom s a /\ a_log a = [50] /\ a_view a 50 = replicate 512 7 /\
    exists s' ws, end_op s = Ok tt s' /\
    disk_writes (bs s') = disk_writes (bs s) ++ ws /\
    disk (bs s') = apply_writes (disk (bs s)) ws /\
    forall k, exists s'' w,
      recover (apply_writes (disk (bs s)) (take k ws)) (g_size demo_geom) 7 = Ok tt s'' /\
      log_rep demo_geom s'' (mkAblk w ∅ ∅ [] 0 w) /\
      forall c, ~ in_log demo_geom c ->
        w c = if decide (k <= length (a_log a))%nat then a_durable a c else a_view a c.
Proof.
  assert (Hx : is_block (replicate 512 7)) by (split; [done|]; apply Forall_replicate; done).
  destruct demo_boot as (s0 & v & E0 & Hr0 & _).
  destruct (wp_inv _ _ _ (demo_op_rep s0 v _ Hr0 Hx)) as ([] & s & E & a & Hr & Ho & Hh & Hl & _ & Hv).
  exists s0, s, a. split; [exact E0|]. split; [exact E|]. split; [exact Hr|]. split; [exact Hl|]. split; [exact Hv|].
  exact (end_op_crash_atomic demo_geom s a 7 Hr Ho Hh).
Defined.
