(* ===== verification/Fs.v ===== *)
(** fs.c: blocks, inodes, file contents, directories and path names.

    The code runs over any [BlockIO] (the buffer cache and the log): [f_blk]
    is that layer's state.  An inode pointer is an index of [icache.inode]; a
    null pointer is [None] where the code can see one.  Each section under
    [icache.lock] is one step.  [dev_read] and [dev_write] are the function
    pointers of the table [devsw].  The console messages of [iinit] and
    [writei] are not part of the state. *)
From S2P Require Import Prelude Layout CString Locks LogRep.

Record extent := mkExtent { e_length : Z; e_startingAddress : Z }.

(** [struct inode] (file.h). *)
Record inode := mkInode {
  i_dev : Z; i_inum : Z; i_ref : Z; i_lock : sleeplock; i_valid : Z;
  i_type : Z; i_major : Z; i_minor : Z; i_nlink : Z; i_size : Z;
  i_addrs : list Z;
  i_extentz : list extent; i_numExtents : Z; i_sisterblocks : Z;
  i_eOffset : Z; i_lOffset : Z
}.

(** The fields [ilock] reads and [iupdate] writes. *)
Definition i_dinode (i : inode) : dinode :=
  mkDinode (i_type i) (i_major i) (i_minor i) (i_nlink i) (i_size i) (i_addrs i).

Definition set_ident (dev inum ref valid : Z) (i : inode) : inode :=
  mkInode dev inum ref (i_lock i) valid (i_type i) (i_major i) (i_minor i) (i_nlink i) (i_size i)
    (i_addrs i) (i_extentz i) (i_numExtents i) (i_sisterblocks i) (i_eOffset i) (i_lOffset i).
Definition set_ref (r : Z) (i : inode) : inode :=
  set_ident (i_dev i) (i_inum i) r (i_valid i) i.
Definition set_valid (v : Z) (i : inode) : inode :=
  set_ident (i_dev i) (i_inum i) (i_ref i) v i.
Definition set_ilock (k : sleeplock) (i : inode) : inode :=
  mkInode (i_dev i) (i_inum i) (i_ref i) k (i_valid i) (i_type i) (i_major i) (i_minor i)
    (i_nlink i) (i_size i) (i_addrs i) (i_extentz i) (i_numExtents i) (i_sisterblocks i)
    (i_eOffset i) (i_lOffset i).
Definition set_dinode (d : dinode) (i : inode) : inode :=
  mkInode (i_dev i) (i_inum i) (i_ref i) (i_lock i) (i_valid i) (d_type d) (d_major d) (d_minor d)
    (d_nlink d) (d_size d) (d_addrs d) (i_extentz i) (i_numExtents i) (i_sisterblocks i)
    (i_eOffset i) (i_lOffset i).
Definition set_type (t : Z) (i : inode) : inode :=
  set_dinode (mkDinode t (i_major i) (i_minor i) (i_nlink i) (i_size i) (i_addrs i)) i.
Definition set_majmin (ma mi : Z) (i : inode) : inode :=
  set_dinode (mkDinode (i_type i) ma mi (i_nlink i) (i_size i) (i_addrs i)) i.
Definition set_nlink (n : Z) (i : inode) : inode :=
  set_dinode (mkDinode (i_type i) (i_major i) (i_minor i) n (i_size i) (i_addrs i)) i.
Definition set_size (n : Z) (i : inode) : inode :=
  set_dinode (mkDinode (i_type i) (i_major i) (i_minor i) (i_nlink i) n (i_addrs i)) i.
Definition set_addrs (a : list Z) (i : inode) : inode :=
  set_dinode (mkDinode (i_type i) (i_major i) (i_minor i) (i_nlink i) (i_size i) a) i.
Definition set_extents (ez : list extent) (n sis eo lo : Z) (i : inode) : inode :=
  mkInode (i_dev i) (i_inum i) (i_ref i) (i_lock i) (i_valid i) (i_type i) (i_major i) (i_minor i)
    (i_nlink i) (i_size i) (i_addrs i) ez n sis eo lo.

Record fstate (S : Type) := mkF {
  f_blk : S;
  f_icache : list inode;
  f_sb : superblock;
  f_pid : Z;
  f_cwd : nat
}.
Arguments mkF {S}.
Arguments f_blk {S}.
Arguments f_icache {S}.
Arguments f_sb {S}.
Arguments f_pid {S}.
Arguments f_cwd {S}.

(** The bits of the free map. *)
Definition bit_mask (bi : Z) : Z := Z.shiftl 1 (bi mod 8).
Definition bit_clear (data : bytes) (bi : Z) : bool :=
  Z.land (nth0 data (Z.to_nat (bi / 8))) (bit_mask bi) =? 0.
Definition set_bit (data : bytes) (bi : Z) : bytes :=
  <[Z.to_nat (bi / 8) := u8 (Z.lor (nth0 data (Z.to_nat (bi / 8))) (bit_mask bi))]> data.
Definition clear_bit (data : bytes) (bi : Z) : bytes :=
  <[Z.to_nat (bi / 8) := u8 (Z.land (nth0 data (Z.to_nat (bi / 8))) (Z.lnot (bit_mask bi)))]> data.

(** The [dinode] at index [inum%IPB] of a block's data. *)
Definition dinode_off (inum : Z) : nat := Z.to_nat ((inum mod IPB) * sizeof_dinode).
Definition get_dinode (data : bytes) (inum : Z) : dinode :=
  dec_dinode (drop (dinode_off inum) data).
Definition put_dinode (data : bytes) (inum : Z) (d : dinode) : bytes :=
  splice data (dinode_off inum) (enc_dinode d).

(** [a[i]] for [uint *a = bp->data]. *)
Definition get_slot (data : bytes) (i : Z) : Z := get32 data (4 * Z.to_nat i).
Definition put_slot (data : bytes) (i v : Z) : bytes := put32 data (4 * Z.to_nat i) v.

(** [struct stat] (stat.h). *)
Record stat := mkStat {
  st_type : Z; st_dev : Z; st_ino : Z; st_nlink : Z; st_size : Z;
  st_addrs : list Z; st_numExtents : Z; st_extentz : list extent
}.

Section fs.
Context {S : Type} `{!BlockIO S}.
Local Abbreviation FS := (M (fstate S)).
Context (dev_read : Z -> option (nat -> Z -> FS (Z * bytes))).
Context (dev_write : Z -> option (nat -> bytes -> Z -> FS Z)).

Definition io {A} (m : M S A) : FS A :=
  zoom f_blk (fun b s => mkF b (f_icache s) (f_sb s) (f_pid s) (f_cwd s)) m.
Definition set_icache (l : list inode) (s : fstate S) : fstate S :=
  mkF (f_blk s) l (f_sb s) (f_pid s) (f_cwd s).
Definition set_sb (sb : superblock) (s : fstate S) : fstate S :=
  mkF (f_blk s) (f_icache s) sb (f_pid s) (f_cwd s).

(** [*ip], and an assignment to fields of [*ip]. *)
Definition geti (ip : nat) : FS inode := fun s =>
  match f_icache s !! ip with Some i => Ok i s | None => Fault end.
Definition updi (ip : nat) (f : inode -> inode) : FS unit := fun s =>
  match f_icache s !! ip with
  | Some _ => Ok tt (set_icache (alter f ip (f_icache s)) s)
  | None => Fault
  end.

(** * Blocks *)

Definition readsb (dev : Z) : FS superblock :=
  let* bp := io (io_bread dev 1) in
  let* data := io (io_data bp) in
  io (io_brelse bp) ;;
  ret (dec_superblock data).

Definition bzero (dev bno : Z) : FS unit :=
  let* bp := io (io_bread dev bno) in
  io (io_set_data bp zero_block) ;;
  io (io_log_write bp) ;;
  io (io_brelse bp).

(** The inner loop of [balloc] looks at the bits of one bitmap block. *)
Definition balloc (dev : Z) : FS Z :=
  let* sb := gets f_sb in
  let* r := for_loop (Z.to_nat ((sb_size sb + BPB - 1) / BPB)) 0 (fun k =>
    let b := k * BPB in
    let* bp := io (io_bread dev (BBLOCK b sb)) in
    let* r := for_loop (Z.to_nat (Z.min BPB (sb_size sb - b))) 0 (fun bi =>
      let* data := io (io_data bp) in
      if bit_clear data bi then
        io (io_set_data bp (set_bit data bi)) ;;
        io (io_log_write bp) ;;
        io (io_brelse bp) ;;
        bzero dev (b + bi) ;;
        ret (Some (b + bi))
      else ret None) in
    match r with
    | Some bno => ret (Some bno)
    | None => io (io_brelse bp) ;; ret None
    end) in
  match r with
  | Some bno => ret bno
  | None => panic "balloc: out of blocks"
  end.

Definition bfree (dev b : Z) : FS unit :=
  let* sb := gets f_sb in
  let* bp := io (io_bread dev (BBLOCK b sb)) in
  let bi := b mod BPB in
  let* data := io (io_data bp) in
  if bit_clear data bi then panic "freeing free block"
  else
    io (io_set_data bp (clear_bit data bi)) ;;
    io (io_log_write bp) ;;
    io (io_brelse bp).

(** * Inodes *)

Definition iinit (dev : Z) : FS unit :=
  modify (fun s => set_icache (map (set_ilock initsleeplock) (f_icache s)) s) ;;
  let* sb := readsb dev in
  modify (set_sb sb).

(** The loop of [iget]: the entry of the inode, or the first free entry. *)
Fixpoint iget_scan (l : list inode) (k : nat) (empty : option nat) (dev inum : Z)
  : nat + option nat :=
  match l with
  | [] => inr empty
  | ip :: l' =>
      if (0 <? i_ref ip) && (i_dev ip =? dev) && (i_inum ip =? inum) then inl k
      else
        iget_scan l' (Datatypes.S k)
          (match empty with
           | None => if i_ref ip =? 0 then Some k else None
           | Some e => Some e
           end) dev inum
  end.

Definition iget (dev inum : Z) : FS nat :=
  let* l := gets f_icache in
  match iget_scan l 0 None dev inum with
  | inl ip => updi ip (fun i => set_ref (i_ref i + 1) i) ;; ret ip
  | inr None => panic "iget: no inodes"
  | inr (Some empty) => updi empty (set_ident dev inum 1 0) ;; ret empty
  end.

Definition idup (ip : nat) : FS nat :=
  updi ip (fun i => set_ref (i_ref i + 1) i) ;; ret ip.

Definition ialloc (dev type : Z) : FS nat :=
  let* sb := gets f_sb in
  let* r := for_loop (Z.to_nat (sb_ninodes sb - 1)) 1 (fun inum =>
    let* bp := io (io_bread dev (IBLOCK inum sb)) in
    let* data := io (io_data bp) in
    if d_type (get_dinode data inum) =? 0 then
      io (io_set_data bp (put_dinode data inum (mkDinode type 0 0 0 0 (replicate 13 0)))) ;;
      io (io_log_write bp) ;;
      io (io_brelse bp) ;;
      let* ip := iget dev inum in
      ret (Some ip)
    else
      io (io_brelse bp) ;; ret None) in
  match r with
  | Some ip => ret ip
  | None => panic "ialloc: no inodes"
  end.

Definition iupdate (ip : nat) : FS unit :=
  let* sb := gets f_sb in
  let* i := geti ip in
  let* bp := io (io_bread (i_dev i) (IBLOCK (i_inum i) sb)) in
  let* data := io (io_data bp) in
  io (io_set_data bp (put_dinode data (i_inum i) (i_dinode i))) ;;
  io (io_log_write bp) ;;
  io (io_brelse bp).

(** [acquiresleep] on an inode's lock: a held lock puts the caller to sleep. *)
Definition acquire_inode (ip : nat) : FS unit :=
  let* i := geti ip in
  let* pid := gets f_pid in
  match acquiresleep pid (i_lock i) with
  | None => sleep_on (ChanInode ip)
  | Some lk => updi ip (set_ilock lk)
  end.

Definition release_inode (ip : nat) : FS unit :=
  updi ip (fun i => set_ilock (releasesleep (i_lock i)) i).

Definition ilock (ip : option nat) : FS unit :=
  match ip with
  | None => panic "ilock"
  | Some ip =>
      let* i := geti ip in
      if i_ref i <? 1 then panic "ilock"
      else
        acquire_inode ip ;;
        if i_valid i =? 0 then
          let* sb := gets f_sb in
          let* bp := io (io_bread (i_dev i) (IBLOCK (i_inum i) sb)) in
          let* data := io (io_data bp) in
          updi ip (set_dinode (get_dinode data (i_inum i))) ;;
          io (io_brelse bp) ;;
          updi ip (set_valid 1) ;;
          if d_type (get_dinode data (i_inum i)) =? 0 then panic "ilock: no type"
          else ret tt
        else ret tt
  end.

Definition iunlock (ip : option nat) : FS unit :=
  match ip with
  | None => panic "iunlock"
  | Some ip =>
      let* i := geti ip in
      let* pid := gets f_pid in
      if negb (holdingsleep pid (i_lock i)) || (i_ref i <? 1) then panic "iunlock"
      else release_inode ip
  end.

(** * Contents *)

(** The slot of the index block [addr]: its value, allocated if it is 0. *)
Definition bmap_index (dev addr bn : Z) : FS Z :=
  let* bp := io (io_bread dev addr) in
  let* a := io (io_data bp) in
  let addr := get_slot a bn in
  let* addr :=
    (if addr =? 0 then
       let* addr := balloc dev in
       let* a := io (io_data bp) in
       io (io_set_data bp (put_slot a bn addr)) ;;
       io (io_log_write bp) ;;
       ret addr
     else ret addr) in
  io (io_brelse bp) ;;
  ret addr.

(** The entry [k] of [ip->addrs], allocated if it is 0. *)
Definition bmap_addr (ip : nat) (k : Z) : FS Z :=
  let* i := geti ip in
  let* addr := deref (i_addrs i !! Z.to_nat k) in
  if addr =? 0 then
    let* addr := balloc (i_dev i) in
    updi ip (fun i => set_addrs (<[Z.to_nat k := addr]> (i_addrs i)) i) ;;
    ret addr
  else ret addr.

Definition bmap (ip : nat) (bn : Z) : FS Z :=
  let* i := geti ip in
  if bn <? NDIRECT then bmap_addr ip bn
  else
    let bn := bn - NDIRECT in
    if bn <? NINDIRECT then
      let* addr := bmap_addr ip NDIRECT in
      bmap_index (i_dev i) addr bn
    else
      let bn := bn - NINDIRECT in
      if negb (D_INDIRECT <=? bn) then
        let* addr := bmap_addr ip (NDIRECT + 1) in
        let* addr := bmap_index (i_dev i) addr (bn / D_INDIRECT_INSTANCE) in
        bmap_index (i_dev i) addr (bn mod D_INDIRECT_INSTANCE)
      else panic "bmap: out of range".

Definition itrunc (ip : nat) : FS unit :=
  let* _ := for_loop (Z.to_nat NDIRECT) 0 (fun k =>
    let* i := geti ip in
    let* addr := deref (i_addrs i !! Z.to_nat k) in
    (if addr =? 0 then ret tt
     else
       bfree (i_dev i) addr ;;
       updi ip (fun i => set_addrs (<[Z.to_nat k := 0]> (i_addrs i)) i)) ;;
    ret (@None unit)) in
  let* i := geti ip in
  let* addr := deref (i_addrs i !! Z.to_nat NDIRECT) in
  (if addr =? 0 then ret tt
   else
     let* bp := io (io_bread (i_dev i) addr) in
     let* _ := for_loop (Z.to_nat NINDIRECT) 0 (fun j =>
       let* a := io (io_data bp) in
       (if get_slot a j =? 0 then ret tt else bfree (i_dev i) (get_slot a j)) ;;
       ret (@None unit)) in
     io (io_brelse bp) ;;
     bfree (i_dev i) addr ;;
     updi ip (fun i => set_addrs (<[Z.to_nat NDIRECT := 0]> (i_addrs i)) i)) ;;
  updi ip (set_size 0) ;;
  iupdate ip.

Definition iput (ip : nat) : FS unit :=
  acquire_inode ip ;;
  let* i := geti ip in
  (if negb (i_valid i =? 0) && (i_nlink i =? 0) && (i_ref i =? 1) then
     itrunc ip ;;
     updi ip (set_type 0) ;;
     iupdate ip ;;
     updi ip (set_valid 0)
   else ret tt) ;;
  release_inode ip ;;
  updi ip (fun i => set_ref (i_ref i - 1) i).

Definition iunlockput (ip : nat) : FS unit := iunlock (Some ip) ;; iput ip.

(** [stati] fills the caller's structure: the fields it does not assign keep
    their contents. *)
Definition stati (ip : nat) (st : stat) : FS stat :=
  let* i := geti ip in
  let st := mkStat (i_type i) (s32 (i_dev i)) (i_inum i) (i_nlink i) (i_size i)
              (st_addrs st) (st_numExtents st) (st_extentz st) in
  if (i_type i =? T_EXTENT) || (i_type i =? 5) then
    let n := Z.to_nat (i_numExtents i) in
    if decide (n <= Z.to_nat NDIRECT)%nat then
      ret (mkStat (st_type st) (st_dev st) (st_ino st) (st_nlink st) (st_size st) (st_addrs st)
             (i_numExtents i) (take n (i_extentz i) ++ drop n (st_extentz st)))
    else fault
  else if i_type i =? T_FILE then
    ret (mkStat (st_type st) (st_dev st) (st_ino st) (st_nlink st) (st_size st)
           (take (Z.to_nat NDIRECT) (i_addrs i) ++ drop (Z.to_nat NDIRECT) (st_addrs st))
           (st_numExtents st) (st_extentz st))
  else ret st.

(** The bytes of a block from [off] on: [m = min(n - tot, BSIZE - off%BSIZE)]. *)
Definition chunk (n tot off : Z) : Z := Z.min (n - tot) (BSIZE - off mod BSIZE).

(** Iterations of the copy loops: one per block touched, and the last test. *)
Definition copy_fuel (n : Z) : nat := Z.to_nat (n / BSIZE) + 3.

(** The copy loop of [readi]; its state is [tot], [off] and the bytes copied. *)
Definition readi_loop (ip : nat) (off n : Z) : FS bytes :=
  while_loop (copy_fuel n) (0, off, []) (fun st =>
    let '(tot, off, dst) := st in
    if tot <? n then
      let* i := geti ip in
      let* addr := bmap ip (off / BSIZE) in
      let* bp := io (io_bread (i_dev i) addr) in
      let m := chunk n tot off in
      let* data := io (io_data bp) in
      let dst := dst ++ slice data (Z.to_nat (off mod BSIZE)) (Z.to_nat m) in
      io (io_brelse bp) ;;
      ret (inl (tot + m, u32 (off + m), dst))
    else ret (inr dst)).

(** An extent file is read block by block; the inner loop of the source
    returns in its first iteration.  [strlen] may run past the block, and the
    result is cut to 512, so it is the string length inside the block. *)
Definition readi_extent (ip : nat) (n : Z) : FS (Z * bytes) :=
  let* i := geti ip in
  if i_sisterblocks i <=? i_lOffset i then ret (0, [])
  else
    let* r := for_loop (Z.to_nat (i_numExtents i - u32 (i_eOffset i))) (i_eOffset i) (fun k =>
      let* e := deref (i_extentz i !! Z.to_nat k) in
      if 0 <? e_length e then
        let* addr := bmap ip (u32 (i_lOffset i)) in
        let* bp := io (io_bread (i_dev i) addr) in
        let* data := io (io_data bp) in
        let bpSize := Z.min 512 (strlen data) in
        let* j := geti ip in
        updi ip (set_extents (i_extentz j) (i_numExtents j) (i_sisterblocks j) (i_eOffset j)
                   (i_lOffset j + 1)) ;;
        io (io_brelse bp) ;;
        ret (Some (bpSize, take (Z.to_nat bpSize) data))
      else ret None) in
    match r with
    | Some r => ret r
    | None => ret (s32 n, [])
    end.

(** The result and the bytes stored at [dst]. *)
Definition readi (ip : nat) (off n : Z) : FS (Z * bytes) :=
  let* i := geti ip in
  if i_type i =? T_DEV then
    if (i_major i <? 0) || (NDEV <=? i_major i) then ret (-1, [])
    else match dev_read (i_major i) with
         | None => ret (-1, [])
         | Some read => read ip (s32 n)
         end
  else if i_type i =? T_EXTENT then readi_extent ip n
  else if (i_size i <? off) || (u32 (off + n) <? off) then ret (-1, [])
  else
    let n := if i_size i <? u32 (off + n) then i_size i - off else n in
    let* dst := readi_loop ip off n in
    ret (s32 n, dst).

(** The copy loop of [writei]; it leaves [off] at the end of the write. *)
Definition writei_loop (ip : nat) (src : bytes) (off n : Z) : FS Z :=
  while_loop (copy_fuel n) (0, off) (fun st =>
    let '(tot, off) := st in
    if tot <? n then
      let* i := geti ip in
      let* addr := bmap ip (off / BSIZE) in
      let* bp := io (io_bread (i_dev i) addr) in
      let m := chunk n tot off in
      let* data := io (io_data bp) in
      io (io_set_data bp (splice data (Z.to_nat (off mod BSIZE))
                            (slice src (Z.to_nat tot) (Z.to_nat m)))) ;;
      io (io_log_write bp) ;;
      io (io_brelse bp) ;;
      ret (inl (tot + m, u32 (off + m)))
    else ret (inr off)).

(** The loop of [writei] for an extent file: each iteration takes the next
    block of the file, and the result is the new extent. *)
Definition writei_extent_loop (ip : nat) (src : bytes) (off n : Z) : FS extent :=
  while_loop (copy_fuel n) (0, off, mkExtent 0 0) (fun st =>
    let '(tot, off, e) := st in
    if tot <? n then
      let* i := geti ip in
      let* addr := bmap ip (u32 (i_sisterblocks i)) in
      let start := if tot =? 0 then addr else e_startingAddress e in
      let* bp := io (io_bread (i_dev i) addr) in
      let* i := geti ip in
      updi ip (set_extents (i_extentz i) (i_numExtents i) (i_sisterblocks i + 1) (i_eOffset i)
                 (i_lOffset i)) ;;
      let m := chunk n tot off in
      let* data := io (io_data bp) in
      io (io_set_data bp (splice data (Z.to_nat (off mod BSIZE))
                            (slice src (Z.to_nat tot) (Z.to_nat m)))) ;;
      io (io_log_write bp) ;;
      io (io_brelse bp) ;;
      ret (inl (tot + m, u32 (off + m), mkExtent (e_length e + 1) start))
    else ret (inr e)).

(** Storing past the end of [ip->extentz] is undefined. *)
Definition writei_extent (ip : nat) (src : bytes) (off n : Z) : FS Z :=
  let* i := geti ip in
  if NDIRECT <? i_numExtents i then exit_proc
  else
    updi ip (set_extents (i_extentz i) (i_numExtents i + 1) (i_sisterblocks i) (i_eOffset i)
               (i_lOffset i)) ;;
    let* iextent := writei_extent_loop ip src off n in
    (if 0 <? n then
       let* i := geti ip in
       let k := Z.to_nat (i_numExtents i - 1) in
       if decide (k < length (i_extentz i))%nat then
         updi ip (set_extents (<[k := iextent]> (i_extentz i)) (i_numExtents i)
                    (i_sisterblocks i) 0 0) ;;
         updi ip (set_size (u32 (i_size i + n))) ;;
         iupdate ip
       else fault
     else ret tt) ;;
    ret (s32 n).

Definition writei (ip : nat) (src : bytes) (off n : Z) : FS Z :=
  let* i := geti ip in
  if i_type i =? T_DEV then
    if (i_major i <? 0) || (NDEV <=? i_major i) then ret (-1)
    else match dev_write (i_major i) with
         | None => ret (-1)
         | Some write => write ip src (s32 n)
         end
  else if (i_size i <? off) || (u32 (off + n) <? off) then ret (-1)
  else if MAXFILE * BSIZE <? u32 (off + n) then ret (-1)
  else if i_type i =? T_EXTENT then writei_extent ip src off n
  else
    let* off := writei_loop ip src off n in
    let* i := geti ip in
    (if (0 <? n) && (i_size i <? off) then
       updi ip (set_size off) ;;
       iupdate ip
     else ret tt) ;;
    ret (s32 n).

(** * Directories *)

Definition namecmp (s t : bytes) : Z := strncmp s t (Z.to_nat DIRSIZ).

(** One entry of a directory. *)
Definition read_dirent (dp : nat) (off : Z) (msg : string) : FS dirent :=
  let* r := readi dp off sizeof_dirent in
  if r.1 =? sizeof_dirent then ret (dec_dirent r.2) else panic msg.

(** Number of iterations of [for(off = 0; off < dp->size; off += sizeof(de))]. *)
Definition dirents (i : inode) : nat := Z.to_nat ((i_size i + sizeof_dirent - 1) / sizeof_dirent).

(** The inode and the offset of its entry ([*poff]). *)
Definition dirlookup (dp : nat) (name : bytes) : FS (option (nat * Z)) :=
  let* i := geti dp in
  if negb (i_type i =? T_DIR) then panic "dirlookup not DIR"
  else
    for_loop (dirents i) 0 (fun k =>
      let off := k * sizeof_dirent in
      let* de := read_dirent dp off "dirlookup read" in
      if de_inum de =? 0 then ret None
      else if namecmp name (de_name de) =? 0 then
        let* ip := iget (i_dev i) (de_inum de) in
        ret (Some (ip, off))
      else ret None).

Definition dirlink (dp : nat) (name : bytes) (inum : Z) : FS Z :=
  let* r := dirlookup dp name in
  match r with
  | Some (ip, _) => iput ip ;; ret (-1)
  | None =>
      let* i := geti dp in
      let* r := for_loop (dirents i) 0 (fun k =>
        let off := k * sizeof_dirent in
        let* de := read_dirent dp off "dirlink read" in
        if de_inum de =? 0 then ret (Some off) else ret None) in
      let off := match r with Some off => off | None => Z.of_nat (dirents i) * sizeof_dirent end in
      let de := mkDirent (u16 inum) (strncpy name (Z.to_nat DIRSIZ)) in
      let* w := writei dp (enc_dirent de) off sizeof_dirent in
      if w =? sizeof_dirent then ret 0 else panic "dirlink"
  end.
End fs.

(** * Paths *)

Definition slash : Z := 47.

(** The loop over the slashes before a name, and after it. *)
Fixpoint skip_slashes (path : bytes) : bytes :=
  match path with
  | c :: path' => if c =? slash then skip_slashes path' else path
  | [] => []
  end.

(** The loop over the characters of a name. *)
Fixpoint skip_name (path : bytes) : bytes :=
  match path with
  | c :: path' => if (c =? slash) || (c =? 0) then path else skip_name path'
  | [] => []
  end.

(** The rest of the path and the contents of the buffer [name]. *)
Definition skipelem (path name : bytes) : option (bytes * bytes) :=
  let path := skip_slashes path in
  if hd0 path =? 0 then None
  else
    let s := path in
    let path := skip_name path in
    let len := (length s - length path)%nat in
    let name :=
      if decide (Z.to_nat DIRSIZ <= len)%nat then splice name 0 (take (Z.to_nat DIRSIZ) s)
      else <[len := 0]> (splice name 0 (take len s)) in
    Some (skip_slashes path, name).

Section path.
Context {S : Type} `{!BlockIO S}.
Local Abbreviation FS := (M (fstate S)).
Context (dev_read : Z -> option (nat -> Z -> FS (Z * bytes))).

(** [ip] and [path] are the loop's variables. *)
Fixpoint namex_loop (fuel : nat) (ip : nat) (path : bytes) (nameiparent : bool) (name : bytes)
  : FS (option nat * bytes) :=
  match fuel with
  | O => fault
  | Datatypes.S fuel' =>
      match skipelem path name with
      | None => if nameiparent then iput ip ;; ret (None, name) else ret (Some ip, name)
      | Some (path, name) =>
          ilock (Some ip) ;;
          let* i := geti ip in
          if negb (i_type i =? T_DIR) then iunlockput ip ;; ret (None, name)
          else if nameiparent && (hd0 path =? 0) then iunlock (Some ip) ;; ret (Some ip, name)
          else
            let* next := dirlookup dev_read ip name in
            match next with
            | None => iunlockput ip ;; ret (None, name)
            | Some (next, _) => iunlockput ip ;; namex_loop fuel' next path nameiparent name
            end
      end
  end.

Definition namex (path : bytes) (nameiparent : bool) (name : bytes) : FS (option nat * bytes) :=
  let* cwd := gets f_cwd in
  let* ip := (if hd0 path =? slash then iget ROOTDEV ROOTINO else idup cwd) in
  namex_loop (Datatypes.S (length path)) ip path nameiparent name.

(** [name] is the uninitialised buffer on the stack. *)
Definition namei (path name : bytes) : FS (option nat) :=
  let* r := namex path false name in ret r.1.

Definition nameiparent (path name : bytes) : FS (option nat * bytes) := namex path true name.
End path.
