(* ===== verification/FsBlock.v ===== *)
(** The block allocator of fs.c ([bzero], [balloc], [bfree]) over the block
    interface. *)
From S2P Require Import Prelude Layout Locks Bio LogRep Fs.

(** Where the parts of the disk lie (the comment at the top of fs.h). *)
Definition datastart (sb : superblock) : Z := sb_bmapstart sb + (sb_size sb - 1) / BPB + 1.

Record sb_ok (g : geom) (sb : superblock) : Prop := {
  so_size : sb_size sb = g_size g;
  so_small : 0 < sb_size sb < 2 ^ 31;
  so_log : 2 <= g_start g;
  so_nlog : 30 <= g_nlog g;
  so_ninodes : 0 < sb_ninodes sb;
  so_inodes : g_start g + g_nlog g <= sb_inodestart sb;
  so_bmap : sb_inodestart sb + (sb_ninodes sb - 1) / IPB + 1 <= sb_bmapstart sb;
  so_data : datastart sb < sb_size sb
}.
Arguments so_size {_ _} _.
Arguments so_small {_ _} _.
Arguments so_log {_ _} _.
Arguments so_nlog {_ _} _.
Arguments so_ninodes {_ _} _.
Arguments so_inodes {_ _} _.
Arguments so_bmap {_ _} _.
Arguments so_data {_ _} _.

(** Block [b] is marked in the free map. *)
Definition used (sb : superblock) (v : Z -> bytes) (b : Z) : bool :=
  negb (bit_clear (v (BBLOCK b sb)) (b mod BPB)).

(** Everything before the data blocks is marked. *)
Definition meta_used (sb : superblock) (v : Z -> bytes) : Prop :=
  forall b, 0 <= b < datastart sb -> used sb v b = true.

(** * Bits *)

Lemma bit_mask_bit bi k : 0 <= bi -> 0 <= k -> Z.testbit (bit_mask bi) k = bool_decide (k = bi mod 8).
Proof.
  intros Hb Hk. unfold bit_mask. rewrite Z.shiftl_1_l.
  pose proof (Z.mod_pos_bound bi 8). destruct (decide (k = bi mod 8)) as [->|Hne].
  - rewrite bool_decide_eq_true_2 by done. apply Z.pow2_bits_true. lia.
  - rewrite bool_decide_eq_false_2 by done. apply Z.pow2_bits_false. lia.
Qed.

Lemma bit_clear_testbit d bi :
  0 <= bi -> bit_clear d bi = negb (Z.testbit (nth0 d (Z.to_nat (bi / 8))) (bi mod 8)).
Proof.
  intros Hb. unfold bit_clear. set (x := nth0 _ _). pose proof (Z.mod_pos_bound bi 8).
  destruct (Z.testbit x (bi mod 8)) eqn:E; cbn; [apply Z.eqb_neq|apply Z.eqb_eq].
  - intros H0. assert (Hf : Z.testbit (Z.land x (bit_mask bi)) (bi mod 8) = true).
    { rewrite Z.land_spec, E, bit_mask_bit by lia. by rewrite bool_decide_eq_true_2. }
    by rewrite H0, Z.bits_0 in Hf.
  - apply Z.bits_inj'. intros k Hk. rewrite Z.bits_0, Z.land_spec, bit_mask_bit by lia.
    case_bool_decide; [subst; by rewrite E|apply andb_false_r].
Qed.

Lemma byte_testbit x k : is_byte x -> 8 <= k -> Z.testbit x k = false.
Proof.
  intros [Hx1 Hx2] Hk. rewrite Z.testbit_eqb by lia. apply Z.eqb_neq.
  rewrite Z.div_small; [done|]. split; [done|].
  assert (2 ^ 8 <= 2 ^ k) by (apply Z.pow_le_mono_r; lia). lia.
Qed.

Lemma u8_testbit x k : 0 <= k < 8 -> Z.testbit (u8 x) k = Z.testbit x k.
Proof. intros Hk. unfold u8. change 256 with (2 ^ 8). by rewrite Z.mod_pow2_bits_low by lia. Qed.

Lemma div8_bound bi : 0 <= bi < BPB -> (Z.to_nat (bi / 8) < BSIZEn)%nat.
Proof.
  intros H. unfold BPB, BSIZE in *. apply Nat2Z.inj_lt. change (Z.of_nat BSIZEn) with 512.
  rewrite Z2Nat.id by (apply Z.div_pos; lia). apply Z.div_lt_upper_bound; lia.
Qed.

Lemma is_byte_u8 x : is_byte (u8 x).
Proof. unfold is_byte, u8. apply Z.mod_pos_bound. lia. Qed.

Lemma is_block_insert d i x : is_block d -> is_byte x -> is_block (<[i:=x]> d).
Proof. intros [Hl Hf] Hx. split; [by rewrite length_insert|]. by apply Forall_insert. Qed.

Lemma set_bit_ok d bi : is_block d -> is_block (set_bit d bi).
Proof. intros. apply is_block_insert; [done|apply is_byte_u8]. Qed.

Lemma clear_bit_ok d bi : is_block d -> is_block (clear_bit d bi).
Proof. intros. apply is_block_insert; [done|apply is_byte_u8]. Qed.

(** Two bits are the same bit. *)
Lemma same_bit bi bj : 0 <= bi -> 0 <= bj -> bi / 8 = bj / 8 -> bi mod 8 = bj mod 8 -> bi = bj.
Proof. intros ? ? H1 H2. rewrite (Z.div_mod bi 8), (Z.div_mod bj 8) by lia. congruence. Qed.

Lemma bit_clear_set d bi bj :
  is_block d -> 0 <= bi < BPB -> 0 <= bj < BPB ->
  bit_clear (set_bit d bi) bj = if decide (bj = bi) then false else bit_clear d bj.
Proof.
  intros [Hl _] Hi Hj. rewrite !bit_clear_testbit by lia. unfold set_bit.
  pose proof (div8_bound _ Hi). pose proof (Z.mod_pos_bound bj 8).
  pose proof (Z.div_pos bi 8). pose proof (Z.div_pos bj 8).
  destruct (decide (bj / 8 = bi / 8)) as [E|E].
  - rewrite E. rewrite nth0_insert by lia. rewrite decide_True by done.
    rewrite u8_testbit, Z.lor_spec, bit_mask_bit by lia.
    destruct (decide (bj = bi)) as [->|Hne].
    + rewrite bool_decide_eq_true_2 by done. by rewrite orb_true_r.
    + rewrite bool_decide_eq_false_2 by (intros ?; apply Hne; apply same_bit; lia).
      by rewrite orb_false_r.
  - rewrite nth0_insert by lia. rewrite decide_False by lia.
    rewrite decide_False by congruence. done.
Qed.

Lemma bit_clear_clear d bi bj :
  is_block d -> 0 <= bi < BPB -> 0 <= bj < BPB ->
  bit_clear (clear_bit d bi) bj = if decide (bj = bi) then true else bit_clear d bj.
Proof.
  intros [Hl _] Hi Hj. rewrite !bit_clear_testbit by lia. unfold clear_bit.
  pose proof (div8_bound _ Hi). pose proof (Z.mod_pos_bound bj 8).
  pose proof (Z.div_pos bi 8). pose proof (Z.div_pos bj 8).
  destruct (decide (bj / 8 = bi / 8)) as [E|E].
  - rewrite E. rewrite nth0_insert by lia. rewrite decide_True by done.
    rewrite u8_testbit, Z.land_spec, Z.lnot_spec, bit_mask_bit by lia.
    destruct (decide (bj = bi)) as [->|Hne].
    + rewrite bool_decide_eq_true_2 by done. cbn. by rewrite andb_false_r.
    + rewrite bool_decide_eq_false_2 by (intros ?; apply Hne; apply same_bit; lia).
      cbn. by rewrite andb_true_r.
  - rewrite nth0_insert by lia. rewrite decide_False by lia.
    rewrite decide_False by congruence. done.
Qed.

(** * The free map *)

Section map.
Context (g : geom) (sb : superblock) (Hsb : sb_ok g sb).

Lemma BBLOCK_bounds b : 0 <= b < sb_size sb -> sb_bmapstart sb <= BBLOCK b sb < datastart sb.
Proof.
  intros Hb. unfold BBLOCK, datastart. assert (0 <= b / BPB) by (apply Z.div_pos; unfold BPB, BSIZE; lia).
  assert (b / BPB <= (sb_size sb - 1) / BPB) by (apply Z.div_le_mono; unfold BPB, BSIZE; lia). lia.
Qed.

Lemma IBLOCK_bounds n :
  0 <= n < sb_ninodes sb -> sb_inodestart sb <= IBLOCK n sb < sb_bmapstart sb.
Proof.
  intros Hn. pose proof (so_bmap Hsb) as H. unfold IBLOCK. change IPB with 8 in *.
  assert (0 <= n / 8) by (apply Z.div_pos; lia).
  assert (n / 8 <= (sb_ninodes sb - 1) / 8) by (apply Z.div_le_mono; lia). lia.
Qed.

(** The parts of the disk are in order. *)
Lemma sb_order :
  2 <= g_start g /\ 30 <= g_nlog g /\ g_start g + g_nlog g <= sb_inodestart sb /\
  sb_inodestart sb < sb_bmapstart sb /\ sb_bmapstart sb < datastart sb < sb_size sb.
Proof.
  destruct Hsb. assert (0 <= (sb_ninodes sb - 1) / IPB) by (apply Z.div_pos; [lia|done]).
  unfold datastart in *. assert (0 <= (sb_size sb - 1) / BPB) by (apply Z.div_pos; [lia|done]).
  lia.
Qed.

Lemma data_block_ok c :
  datastart sb <= c < sb_size sb -> ~ in_log g c /\ c <> 1 /\ 0 <= c < sb_size sb.
Proof. intros Hc. pose proof sb_order. unfold in_log. lia. Qed.

(** The contents of the disk with block [b] allocated: marked and zeroed. *)
Definition v_mark (v : Z -> bytes) (b : Z) : Z -> bytes :=
  vupd v (BBLOCK b sb) (set_bit (v (BBLOCK b sb)) (b mod BPB)).
Definition v_alloc (v : Z -> bytes) (b : Z) : Z -> bytes := vupd (v_mark v b) b zero_block.
Definition v_free (v : Z -> bytes) (b : Z) : Z -> bytes :=
  vupd v (BBLOCK b sb) (clear_bit (v (BBLOCK b sb)) (b mod BPB)).

Lemma same_block b c : BBLOCK b sb = BBLOCK c sb -> b mod BPB = c mod BPB -> b = c.
Proof.
  unfold BBLOCK. intros H1 H2. rewrite (Z.div_mod b BPB), (Z.div_mod c BPB) by done.
  rewrite H2. f_equal. f_equal. lia.
Qed.

Lemma mod_BPB b : 0 <= b mod BPB < BPB.
Proof. by apply Z.mod_pos_bound. Qed.

Lemma used_mark v b c :
  is_block (v (BBLOCK b sb)) -> used sb (v_mark v b) c = if decide (c = b) then true else used sb v c.
Proof.
  intros Hb. unfold used, v_mark. destruct (decide (BBLOCK c sb = BBLOCK b sb)) as [E|E].
  - rewrite E, vupd_eq, bit_clear_set by (done || apply mod_BPB).
    destruct (decide (c = b)) as [->|Hne]; [by rewrite decide_True|].
    rewrite decide_False; [done|]. intros ?. by apply Hne, same_block.
  - rewrite vupd_ne by done. rewrite decide_False by congruence. done.
Qed.

Lemma used_free v b c :
  is_block (v (BBLOCK b sb)) -> used sb (v_free v b) c = if decide (c = b) then false else used sb v c.
Proof.
  intros Hb. unfold used, v_free. destruct (decide (BBLOCK c sb = BBLOCK b sb)) as [E|E].
  - rewrite E, vupd_eq, bit_clear_clear by (done || apply mod_BPB).
    destruct (decide (c = b)) as [->|Hne]; [by rewrite decide_True|].
    rewrite decide_False; [done|]. intros ?. by apply Hne, same_block.
  - rewrite vupd_ne by done. rewrite decide_False by congruence. done.
Qed.

(** Writing elsewhere leaves the free map. *)
Lemma used_vupd v e x c :
  0 <= c < sb_size sb -> ~ (sb_bmapstart sb <= e < datastart sb) ->
  used sb (vupd v e x) c = used sb v c.
Proof.
  intros Hc He. unfold used. rewrite vupd_ne; [done|]. pose proof (BBLOCK_bounds c Hc). lia.
Qed.

Lemma used_alloc v b c :
  is_block (v (BBLOCK b sb)) -> 0 <= c < sb_size sb -> datastart sb <= b ->
  used sb (v_alloc v b) c = if decide (c = b) then true else used sb v c.
Proof. intros. unfold v_alloc. rewrite used_vupd by lia. by apply used_mark. Qed.

(** The block [balloc] takes: the first that is not marked. *)
Definition first_free (v : Z -> bytes) (b : Z) : Prop :=
  0 <= b < sb_size sb /\ used sb v b = false /\ forall c, 0 <= c < b -> used sb v c = true.

Lemma first_free_data v b : meta_used sb v -> first_free v b -> datastart sb <= b.
Proof.
  intros Hm (Hb & Hu & _). destruct (decide (b < datastart sb)); [|lia].
  rewrite Hm in Hu; [done|lia].
Qed.

Lemma first_free_exists v b :
  0 <= b < sb_size sb -> used sb v b = false -> exists c, first_free v c.
Proof.
  intros Hb Hu.
  destruct (Z_lt_le_dec b 0) as [?|Hb0]; [lia|]. revert Hu Hb. pattern b.
  apply Zlt_0_ind; [|done]. clear b Hb0. intros b IH Hb0 Hu Hb.
  destruct (decide (Forall (fun c => used sb v c = true) (seqZ 0 b))) as [Hall|Hex].
  - exists b. split_and!; try done; try lia. intros c Hc. rewrite Forall_forall in Hall.
    apply Hall, elem_of_seqZ. lia.
  - apply not_Forall_Exists in Hex; [|apply _]. apply Exists_exists in Hex as (c & Hc & Hcu).
    apply elem_of_seqZ in Hc. apply (IH c); [lia| |lia]. cbn in Hcu. by destruct (used sb v c).
Qed.
End map.

Arguments v_mark : simpl never.
Arguments v_alloc : simpl never.
Arguments v_free : simpl never.

(** * The operations *)

Section ops.
Context {S : Type} `{!BlockIO S} `{!BlockSpec S}.
Context (g : geom) (sb : superblock) (Hsb : sb_ok g sb).
(** The operations open, and what is durable. *)
Context (o : Z) (dur : Z -> bytes).
(** The rest of the state. *)
Context (ic : list inode) (pid : Z) (cwd : nat).

(** The block layer, seen from the file system: contents, held buffers and
    logged blocks, with no modification left unlogged. *)
Definition rep (b : S) (v : Z -> bytes) (h : gmap nat Z) (L : list Z) : Prop :=
  bk_rep g b (mkAblk v h ∅ L o dur).

Local Abbreviation st b := (mkF b ic sb pid cwd).

Lemma rep_ok b v h L c : rep b v h L -> is_block (v c).
Proof. intros Hr. exact (bk_view_ok _ _ _ c Hr). Qed.

Lemma rep_nodup b v h L : rep b v h L -> NoDup L.
Proof. intros Hr. exact (bk_nodup _ _ _ Hr). Qed.

Lemma wp_io_bread b v h L c (Q : nat -> fstate S -> Prop) :
  rep b v h L -> 0 <= c < sb_size sb -> (forall i, h !! i <> Some c) ->
  (size h + length L < NBUFn)%nat ->
  (forall i b', h !! i = None -> rep b' v (<[i:=c]> h) L -> Q i (st b')) ->
  wp (io (io_bread ROOTDEV c)) (st b) Q.
Proof.
  intros Hr Hc Hh Hroom HQ. apply wp_zoom. cbn.
  eapply bk_bread; [exact Hr|by rewrite <- (so_size Hsb)|done|right; done|].
  intros i s' Hi Hr'. by apply HQ.
Qed.

Lemma wp_io_data b v h L i c (Q : bytes -> fstate S -> Prop) :
  rep b v h L -> h !! i = Some c -> Q (v c) (st b) -> wp (io (io_data i)) (st b) Q.
Proof. intros Hr Hi HQ. apply wp_zoom. eapply (bk_data g _ _ i c); [exact Hr|done|done]. Qed.

Lemma wp_io_brelse b v h L i c (Q : unit -> fstate S -> Prop) :
  rep b v h L -> h !! i = Some c ->
  (forall b', rep b' v (delete i h) L -> Q tt (st b')) -> wp (io (io_brelse i)) (st b) Q.
Proof.
  intros Hr Hi HQ. apply wp_zoom. eapply (bk_brelse g _ _ i c); [exact Hr|done|cbn; set_solver|].
  intros s' Hr'. by apply HQ.
Qed.

(** A buffer changed and logged. *)
Lemma wp_io_log {A} b v h L i c x (k : M (fstate S) A) (Q : A -> fstate S -> Prop) :
  rep b v h L -> h !! i = Some c -> is_block x -> 1 <= o -> c <> 1 -> ~ in_log g c ->
  Z.of_nat (length L) < NBUF - 1 ->
  (forall b', rep b' (vupd v c x) h (log_add c L) -> wp k (st b') Q) ->
  wp (io (io_set_data i x) ;; io (io_log_write i) ;; k) (st b) Q.
Proof.
  intros Hr Hi Hx Ho H1 Hlog Hcap HQ. wp_step. apply wp_zoom.
  eapply (bk_set_data g _ _ i c); [exact Hr|done|done|]. intros s1 Hr1.
  wp_step. apply wp_zoom. cbn [f_blk].
  eapply (bk_log_write g _ _ i c); [exact Hr1|done|done|done|done| |].
  { cbn. unfold log_cap. pose proof (so_nlog Hsb). unfold NBUF, MAXOPBLOCKS in *. lia. }
  intros s2 Hr2. apply HQ. unfold rep.
  cbn [a_set_log a_set_mod a_set_view a_mod a_view a_held a_log a_out a_durable] in Hr2.
  replace ((∅ ∪ {[c]}) ∖ {[c]} : gset Z) with (∅ : gset Z) in Hr2 by set_solver. exact Hr2.
Qed.

Lemma in_log_data c : g_start g + g_nlog g <= c -> ~ in_log g c /\ c <> 1.
Proof. pose proof (sb_order _ _ Hsb). unfold in_log. lia. Qed.

(** [bzero]. *)
Lemma wp_bzero b v h L c (Q : unit -> fstate S -> Prop) :
  rep b v h L -> datastart sb <= c < sb_size sb -> (forall i, h !! i <> Some c) -> 1 <= o ->
  (size h + length L < 29)%nat ->
  (forall b', rep b' (vupd v c zero_block) h (log_add c L) -> Q tt (st b')) ->
  wp (bzero ROOTDEV c) (st b) Q.
Proof.
  intros Hr Hc Hh Ho Hroom HQ. pose proof (sb_order _ _ Hsb) as Hord.
  destruct (in_log_data c) as [Hl H1]; [lia|].
  unfold bzero. wp_step. eapply wp_io_bread; [exact Hr|lia|done|unfold NBUFn; lia|].
  intros i b1 Hi Hr1. eapply wp_io_log; [exact Hr1|apply lookup_insert_eq|apply zero_block_ok|done..| |].
  { change NBUF with 30. lia. }
  intros b2 Hr2. eapply wp_io_brelse; [exact Hr2|apply lookup_insert_eq|].
  intros b3 Hr3. rewrite delete_insert_id in Hr3 by done. by apply HQ.
Qed.

(** The inner loop of [balloc] on the bitmap block of [b0 = k * BPB]. *)
Definition balloc_bits (bp : nat) (b0 : Z) (n : nat) : M (fstate S) (option Z) :=
  for_loop n 0 (fun bi =>
    let* data := io (io_data bp) in
    if bit_clear data bi then
      io (io_set_data bp (set_bit data bi)) ;;
      io (io_log_write bp) ;;
      io (io_brelse bp) ;;
      bzero ROOTDEV (b0 + bi) ;;
      ret (Some (b0 + bi))
    else ret None).

Lemma BBLOCK_chunk k bi : 0 <= bi < BPB -> BBLOCK (k * BPB + bi) sb = BBLOCK (k * BPB) sb.
Proof.
  intros Hb. unfold BBLOCK. rewrite Z.div_add_l, Z.div_mul by done. rewrite Z.div_small by done. lia.
Qed.

Lemma mod_chunk k bi : 0 <= bi < BPB -> (k * BPB + bi) mod BPB = bi.
Proof. intros Hb. rewrite Z.add_comm, Z_mod_plus_full. by apply Z.mod_small. Qed.

(** What [balloc] leaves when it returns [b]. *)
Definition allocated (v : Z -> bytes) (h : gmap nat Z) (L : list Z) (b : Z) (s : fstate S) : Prop :=
  first_free sb v b /\
  exists b', s = st b' /\
    rep b' (v_alloc sb v b) h (log_add b (log_add (BBLOCK b sb) L)).

Lemma wp_balloc_bits b v h L i k n (Q : option Z -> fstate S -> Prop) :
  h !! i = None -> rep b v (<[i:=BBLOCK (k * BPB) sb]> h) L -> meta_used sb v -> 1 <= o ->
  (size h + length L <= 27)%nat -> 0 <= k -> k * BPB + Z.of_nat n <= sb_size sb -> Z.of_nat n <= BPB ->
  (forall j c, h !! j = Some c -> used sb v c = true /\ 0 <= c < sb_size sb) ->
  (forall c, 0 <= c < k * BPB -> used sb v c = true) ->
  (forall c s', allocated v h L c s' -> Q (Some c) s') ->
  (forall b', rep b' v (<[i:=BBLOCK (k * BPB) sb]> h) L ->
     (forall c, 0 <= c < k * BPB + Z.of_nat n -> used sb v c = true) -> Q None (st b')) ->
  wp (balloc_bits i (k * BPB) n) (st b) Q.
Proof.
  intros Hi Hr Hm Ho Hroom Hk Hn HnB Hh Hlow HS HN. unfold balloc_bits.
  apply (wp_for_loop (fun bi s => exists b', s = st b' /\
    rep b' v (<[i:=BBLOCK (k * BPB) sb]> h) L /\
    forall c, 0 <= c < k * BPB + bi -> used sb v c = true)).
  - exists b. split_and!; [done|done|]. intros c Hc. apply Hlow. lia.
  - intros bi s' Hbi (b1 & -> & Hr1 & Hlow1).
    assert (HB : 0 <= bi < BPB) by lia. set (c := k * BPB + bi).
    assert (Hc : 0 <= c < sb_size sb) by (unfold c, BPB, BSIZE in *; lia).
    pose proof (BBLOCK_chunk k bi HB) as EB. pose proof (mod_chunk k bi HB) as EM.
    pose proof (BBLOCK_bounds _ _ Hc) as HBB. pose proof (sb_order _ _ Hsb) as Hord. fold c in EB, EM.
    destruct (in_log_data (BBLOCK c sb)) as [Hl H1]; [lia|].
    rewrite <- EB in Hr1. wp_step. eapply wp_io_data; [exact Hr1|apply lookup_insert_eq|].
    destruct (bit_clear _ bi) eqn:Ebit.
    + assert (Hff : first_free sb v c).
      { split_and!; [lia..| |exact Hlow1]. unfold used. by rewrite EM, Ebit. }
      pose proof (first_free_data _ _ _ Hm Hff) as Hdata.
      eapply wp_io_log; [exact Hr1|apply lookup_insert_eq| |done..| |].
      { by apply set_bit_ok, (rep_ok _ _ _ _ _ Hr1). }
      { change NBUF with 30. lia. }
      intros b2 Hr2. wp_step. eapply wp_io_brelse; [exact Hr2|apply lookup_insert_eq|].
      intros b3 Hr3. rewrite delete_insert_id in Hr3 by done. wp_step.
      pose proof (length_log_add (BBLOCK c sb) L).
      eapply wp_bzero; [exact Hr3|lia| |done|lia|].
      { intros j Hj. apply Hh in Hj as [Hj _]. destruct Hff as (_ & Hu & _). congruence. }
      intros b4 Hr4. wp_step. apply HS. split; [done|]. exists b4. split; [done|].
      unfold v_alloc, v_mark. by rewrite EM.
    + wp_step. exists b1. rewrite <- EB. split_and!; [done|done|]. intros e He.
      destruct (decide (e = c)) as [->|]; [|apply Hlow1; lia]. unfold used. by rewrite EM, Ebit.
  - intros s' (b' & -> & Hr' & Hlow'). by apply HN.
Qed.

(** The search of [balloc]. *)
Definition balloc_scan : M (fstate S) (option Z) :=
  for_loop (Z.to_nat ((sb_size sb + BPB - 1) / BPB)) 0 (fun k =>
    let* bp := io (io_bread ROOTDEV (BBLOCK (k * BPB) sb)) in
    let* r := balloc_bits bp (k * BPB) (Z.to_nat (Z.min BPB (sb_size sb - k * BPB))) in
    match r with
    | Some bno => ret (Some bno)
    | None => io (io_brelse bp) ;; ret None
    end).

Lemma wp_balloc_scan b v h L (Q : option Z -> fstate S -> Prop) :
  rep b v h L -> meta_used sb v -> 1 <= o -> (size h + length L <= 27)%nat ->
  (forall j c, h !! j = Some c -> used sb v c = true /\ datastart sb <= c < sb_size sb) ->
  (forall c b', first_free sb v c ->
     rep b' (v_alloc sb v c) h (log_add c (log_add (BBLOCK c sb) L)) -> Q (Some c) (st b')) ->
  (forall b', rep b' v h L -> (forall c, 0 <= c < sb_size sb -> used sb v c = true) ->
     Q None (st b')) ->
  wp balloc_scan (st b) Q.
Proof.
  intros Hr Hm Ho Hroom Hh HQ HN. pose proof (sb_order _ _ Hsb) as Hord. unfold balloc_scan.
  set (N := Z.to_nat ((sb_size sb + BPB - 1) / BPB)).
  assert (HN0 : 0 <= (sb_size sb + BPB - 1) / BPB) by (apply Z.div_pos; [unfold BPB, BSIZE; lia|done]).
  apply (wp_for_loop (fun k s => exists b', s = st b' /\ rep b' v h L /\
    forall c, 0 <= c < k * BPB -> c < sb_size sb -> used sb v c = true)).
  - exists b. split_and!; [done|done|lia].
  - intros k s' Hk (b1 & -> & Hr1 & Hlow).
    assert (Hk2 : k * BPB < sb_size sb).
    { assert (k + 1 <= (sb_size sb + BPB - 1) / BPB) as Hk1 by lia.
      apply (Z.mul_le_mono_nonneg_r _ _ BPB) in Hk1; [|unfold BPB, BSIZE; lia].
      pose proof (Z.mul_div_le (sb_size sb + BPB - 1) BPB). unfold BPB, BSIZE in *. lia. }
    assert (HkB : 0 <= k * BPB) by (unfold BPB, BSIZE; lia).
    pose proof (BBLOCK_bounds sb (k * BPB)) as HBB.
    wp_step. eapply wp_io_bread; [exact Hr1|lia| |unfold NBUFn; lia|].
    { intros j Hj. apply Hh in Hj as [_ Hj]. lia. }
    intros i b2 Hi Hr2. wp_step.
    eapply (wp_balloc_bits b2 v h L i k); [exact Hi|exact Hr2|done|done|done|lia|lia|unfold BPB, BSIZE; lia| | | |].
    + intros j c Hj. apply Hh in Hj as [? ?]. split; [done|lia].
    + intros c Hc. apply Hlow; lia.
    + intros c s' (Hff & b' & -> & Hr'). wp_step. by apply HQ.
    + intros b3 Hr3 Hlow3. wp_step. eapply wp_io_brelse; [exact Hr3|apply lookup_insert_eq|].
      intros b4 Hr4. rewrite delete_insert_id in Hr4 by done. wp_step.
      exists b4. split_and!; [done|done|]. intros c Hc Hcs. apply Hlow3. lia.
  - intros s' (b' & -> & Hr' & Hlow). apply HN; [done|]. intros c Hc. apply Hlow; [|lia].
    split; [lia|]. unfold N. rewrite Z.add_0_l, Z2Nat.id by done.
    pose proof (Z.mod_pos_bound (sb_size sb + BPB - 1) BPB).
    pose proof (Z.div_mod (sb_size sb + BPB - 1) BPB). unfold BPB, BSIZE in *. lia.
Qed.

(** [balloc] takes the first block that is not marked, marks it and zeroes
    it; nothing else of the disk changes. *)
Lemma wp_balloc b v h L (Q : Z -> fstate S -> Prop) :
  rep b v h L -> meta_used sb v -> 1 <= o -> (size h + length L <= 27)%nat ->
  (forall j c, h !! j = Some c -> used sb v c = true /\ datastart sb <= c < sb_size sb) ->
  (exists c, 0 <= c < sb_size sb /\ used sb v c = false) ->
  (forall c b', first_free sb v c ->
     rep b' (v_alloc sb v c) h (log_add c (log_add (BBLOCK c sb) L)) -> Q c (st b')) ->
  wp (balloc ROOTDEV) (st b) Q.
Proof.
  intros Hr Hm Ho Hroom Hh (c0 & Hc0 & Hu0) HQ. unfold balloc. do 2 wp_step. cbn [f_sb]. wp_step.
  eapply wp_balloc_scan; [exact Hr|done..| |].
  - intros c b' Hff Hr'. wp_step. by apply HQ.
  - intros b' _ Hall. by rewrite Hall in Hu0.
Qed.

(** On a full disk [balloc] panics. *)
Lemma balloc_full b v h L :
  rep b v h L -> meta_used sb v -> 1 <= o -> (size h + length L <= 27)%nat ->
  (forall j c, h !! j = Some c -> used sb v c = true /\ datastart sb <= c < sb_size sb) ->
  (forall c, 0 <= c < sb_size sb -> used sb v c = true) ->
  balloc ROOTDEV (st b) = Panic "balloc: out of blocks".
Proof.
  intros Hr Hm Ho Hroom Hh Hfull. unfold balloc. apply wp_bind_eq. wp_step. cbn [f_sb].
  apply wp_bind_eq. eapply wp_balloc_scan; [exact Hr|done..| |done].
  intros c b' (Hc & Hu & _). by rewrite Hfull in Hu.
Qed.

(** [bfree] unmarks the block; freeing a free block panics. *)
Lemma wp_bfree b v h L c (Q : unit -> fstate S -> Prop) :
  rep b v h L -> 0 <= c < sb_size sb -> 1 <= o -> (size h + length L < 29)%nat ->
  (forall j e, h !! j = Some e -> datastart sb <= e) -> used sb v c = true ->
  (forall b', rep b' (v_free sb v c) h (log_add (BBLOCK c sb) L) -> Q tt (st b')) ->
  wp (bfree ROOTDEV c) (st b) Q.
Proof.
  intros Hr Hc Ho Hroom Hh Hu HQ. pose proof (sb_order _ _ Hsb) as Hord.
  pose proof (BBLOCK_bounds _ _ Hc) as HBB.
  destruct (in_log_data (BBLOCK c sb)) as [Hl H1]; [lia|].
  unfold bfree. do 2 wp_step. cbn [f_sb]. wp_step.
  eapply wp_io_bread; [exact Hr|lia| |unfold NBUFn; lia|].
  { intros j Hj. apply Hh in Hj. lia. }
  intros i b1 Hi Hr1. wp_step. eapply wp_io_data; [exact Hr1|apply lookup_insert_eq|].
  unfold used in Hu. apply negb_true_iff in Hu. rewrite Hu.
  eapply wp_io_log; [exact Hr1|apply lookup_insert_eq| |done..| |].
  { by apply clear_bit_ok, (rep_ok _ _ _ _ _ Hr1). }
  { change NBUF with 30. lia. }
  intros b2 Hr2. eapply wp_io_brelse; [exact Hr2|apply lookup_insert_eq|].
  intros b3 Hr3. rewrite delete_insert_id in Hr3 by done. by apply HQ.
Qed.

Lemma bfree_free b v h L c :
  rep b v h L -> 0 <= c < sb_size sb -> (size h + length L < NBUFn)%nat ->
  (forall j e, h !! j = Some e -> datastart sb <= e) -> used sb v c = false ->
  bfree ROOTDEV c (st b) = Panic "freeing free block".
Proof.
  intros Hr Hc Hroom Hh Hu. pose proof (sb_order _ _ Hsb) as Hord.
  pose proof (BBLOCK_bounds _ _ Hc) as HBB.
  unfold bfree. apply wp_bind_eq. wp_step. cbn [f_sb]. apply wp_bind_eq.
  eapply wp_io_bread; [exact Hr|lia| |done|].
  { intros j Hj. apply Hh in Hj. lia. }
  intros i b1 Hi Hr1. apply wp_bind_eq. eapply wp_io_data; [exact Hr1|apply lookup_insert_eq|].
  unfold used in Hu. apply negb_false_iff in Hu. by rewrite Hu.
Qed.
End ops.
