(* ===== verification/FsMap.v ===== *)
(** The block map of an inode: [bmap] of fs.c.

    The addresses an inode owns sit in slots: the 13 entries of [addrs], the
    entries of the indirect block, those of the double indirect block, and
    those of the blocks it lists.  An inode is well formed when its non-zero
    slots name distinct data blocks, all marked in the free map.  [bmap] fills
    at most the slots on the path to a file block, with fresh zeroed blocks,
    and leaves the contents of the file and of every other file alone. *)
From S2P Require Import Prelude Layout Locks Bio Log LogRep Fs FsBlock.

(** * Slots *)

Inductive slot :=
| SAddr (k : Z)
| SInd (i : Z)
| SMid (i : Z)
| SLeaf (i j : Z).

#[global] Instance slot_eq_dec : EqDecision slot.
Proof. solve_decision. Defined.

Definition slot_ok (s : slot) : Prop :=
  match s with
  | SAddr k => 0 <= k < 13
  | SInd i | SMid i => 0 <= i < 128
  | SLeaf i j => 0 <= i < 128 /\ 0 <= j < 128
  end.

(** The slot that holds the address of the block a slot is in, and the
    position of the slot in that block. *)
Definition parent (s : slot) : option slot :=
  match s with
  | SAddr _ => None
  | SInd _ => Some (SAddr 11)
  | SMid _ => Some (SAddr 12)
  | SLeaf i _ => Some (SMid i)
  end.

Definition index (s : slot) : Z :=
  match s with SAddr k => k | SInd i => i | SMid i => i | SLeaf _ j => j end.

Definition entry (v : Z -> bytes) (addr i : Z) : Z := if addr =? 0 then 0 else get_slot (v addr) i.

Definition slot_val (v : Z -> bytes) (ad : list Z) (s : slot) : Z :=
  match s with
  | SAddr k => nth0 ad (Z.to_nat k)
  | SInd i => entry v (nth0 ad 11) i
  | SMid i => entry v (nth0 ad 12) i
  | SLeaf i j => entry v (entry v (nth0 ad 12) i) j
  end.

Lemma entry_ne v a i : entry v a i <> 0 -> a <> 0.
Proof. unfold entry. destruct (Z.eqb_spec a 0); congruence. Qed.

Lemma slot_val_parent v ad s p :
  parent s = Some p -> slot_val v ad s = entry v (slot_val v ad p) (index s).
Proof. intros H. destruct s; by simplify_eq/=. Qed.

Lemma parent_ok s p : slot_ok s -> parent s = Some p -> slot_ok p.
Proof. intros ? H. destruct s; simplify_eq/=; lia. Qed.

Lemma parent_index s t p : parent s = Some p -> parent t = Some p -> index s = index t -> s = t.
Proof. intros H1 H2 H3. destruct s, t; by simplify_eq/=. Qed.

Lemma parent_ne s : parent s <> Some s.
Proof. by destruct s. Qed.

Lemma index_bound s : slot_ok s -> parent s <> None -> 0 <= index s < 128.
Proof. destruct s; cbn; try done; lia. Qed.

(** Rule of proof: by the depth of a slot. *)
Lemma slot_ind_parent (P : slot -> Prop) :
  (forall k, P (SAddr k)) -> (forall s p, parent s = Some p -> P p -> P s) -> forall s, P s.
Proof. intros H0 HS s. destruct s; eauto. Qed.

(** The slots on the way to block [bn] of a file; the last holds its address. *)
Definition data_slot (bn : Z) : slot :=
  if bn <? 11 then SAddr bn
  else if bn <? 139 then SInd (bn - 11)
  else SLeaf ((bn - 139) / 128) ((bn - 139) mod 128).

Definition path (bn : Z) : list slot :=
  if bn <? 11 then [SAddr bn]
  else if bn <? 139 then [SAddr 11; SInd (bn - 11)]
  else [SAddr 12; SMid ((bn - 139) / 128); SLeaf ((bn - 139) / 128) ((bn - 139) mod 128)].

Lemma MAXFILE_val : MAXFILE = 16523.
Proof. reflexivity. Qed.

Lemma leaf_index_ok bn :
  139 <= bn < MAXFILE -> 0 <= (bn - 139) / 128 < 128 /\ 0 <= (bn - 139) mod 128 < 128.
Proof.
  rewrite MAXFILE_val. intros H. pose proof (Z.mod_pos_bound (bn - 139) 128).
  pose proof (Z.div_pos (bn - 139) 128). pose proof (Z.div_lt_upper_bound (bn - 139) 128 128). lia.
Qed.

Lemma data_slot_ok bn : 0 <= bn < MAXFILE -> slot_ok (data_slot bn).
Proof.
  intros H. unfold data_slot. destruct (Z.ltb_spec bn 11); [cbn; lia|].
  destruct (Z.ltb_spec bn 139); [cbn; lia|]. apply leaf_index_ok. lia.
Qed.

Lemma data_slot_inj bn bn' : 0 <= bn -> 0 <= bn' -> data_slot bn = data_slot bn' -> bn = bn'.
Proof.
  intros H H'. unfold data_slot.
  destruct (Z.ltb_spec bn 11), (Z.ltb_spec bn' 11); try (intros [= ?]; lia);
    destruct (Z.ltb_spec bn 139), (Z.ltb_spec bn' 139); try done; try (intros [= ?]; lia).
  intros E; injection E as E1 E2. pose proof (Z.div_mod (bn - 139) 128). pose proof (Z.div_mod (bn' - 139) 128). lia.
Qed.

(** No slot is in a data block. *)
Lemma data_slot_not_parent bn s : 0 <= bn -> parent s <> Some (data_slot bn).
Proof.
  intros H. unfold data_slot. destruct (Z.ltb_spec bn 11).
  - destruct s; cbn; try done; intros [= ?]; lia.
  - destruct (Z.ltb_spec bn 139); destruct s; done.
Qed.

(** * Well-formed block maps *)

Record blocks_wf (sb : superblock) (v : Z -> bytes) (ad : list Z) : Prop := {
  bw_len : length ad = 13%nat;
  bw_range : forall s, slot_ok s -> slot_val v ad s <> 0 ->
    datastart sb <= slot_val v ad s < sb_size sb /\ used sb v (slot_val v ad s) = true;
  bw_inj : forall s t, slot_ok s -> slot_ok t -> slot_val v ad s <> 0 ->
    slot_val v ad s = slot_val v ad t -> s = t
}.
Arguments bw_len {_ _ _} _.
Arguments bw_range {_ _ _} _.
Arguments bw_inj {_ _ _} _.

(** The address of block [bn] of a file (0 in a hole), and its contents. *)
Definition faddr (v : Z -> bytes) (ad : list Z) (bn : Z) : Z := slot_val v ad (data_slot bn).
Definition fblock (v : Z -> bytes) (ad : list Z) (bn : Z) : bytes :=
  if faddr v ad bn =? 0 then zero_block else v (faddr v ad bn).

Lemma get_put_slot d i j x :
  is_block d -> 0 <= i < 128 -> 0 <= j < 128 -> is_u32 x ->
  get_slot (put_slot d i x) j = if decide (j = i) then x else get_slot d j.
Proof.
  intros [Hl _] Hi Hj Hx. unfold get_slot, put_slot, BSIZEn in *.
  destruct (decide (j = i)) as [->|Hne].
  - rewrite get32_put32 by lia. apply u32_small, Hx.
  - apply get32_put32_ne; lia.
Qed.

Lemma put_slot_ok d i x : is_block d -> 0 <= i < 128 -> is_block (put_slot d i x).
Proof. intros Hd Hi. apply is_block_put32; [done|]. unfold BSIZEn. lia. Qed.

Lemma get_slot_zero i : get_slot zero_block i = 0.
Proof. apply get32_zeros. Qed.

Lemma get_slot_range d i : is_block d -> 0 <= i < 128 -> is_u32 (get_slot d i).
Proof. intros [Hl Hd] Hi. apply get32_range; [done|]. unfold BSIZEn in *. lia. Qed.

(** * Filling a slot *)

Section fill.
Context (g : geom) (sb : superblock) (Hsb : sb_ok g sb).
Context (v : Z -> bytes) (ad : list Z) (s : slot) (b : Z).
Hypothesis Hok : forall c, is_block (v c).
Hypothesis Hwf : blocks_wf sb v ad.
Hypothesis Hmeta : meta_used sb v.
Hypothesis Hfree : first_free sb v b.
Hypothesis Hs : slot_ok s.
Hypothesis Hs0 : slot_val v ad s = 0.
Hypothesis Hpar : forall p, parent s = Some p -> slot_val v ad p <> 0.

(** The disk and [addrs] once block [b] is allocated and stored in slot [s]. *)
Definition fill_v : Z -> bytes :=
  match parent s with
  | None => v_alloc sb v b
  | Some p =>
      let a := slot_val v ad p in
      vupd (v_alloc sb v b) a (put_slot (v_alloc sb v b a) (index s) b)
  end.
Definition fill_ad : list Z :=
  match s with SAddr k => <[Z.to_nat k := b]> ad | _ => ad end.

Lemma fill_b : datastart sb <= b < sb_size sb /\ used sb v b = false.
Proof. pose proof (first_free_data _ _ _ Hmeta Hfree). destruct Hfree as (? & ? & _). split; [lia|done]. Qed.

Lemma fill_b_fresh t : slot_ok t -> slot_val v ad t <> b.
Proof.
  intros Ht E. pose proof fill_b as [Hb Hu]. pose proof (sb_order _ _ Hsb).
  destruct (bw_range Hwf t Ht) as [_ Hu']; [lia|]. congruence.
Qed.

Lemma fill_b_u32 : is_u32 b.
Proof. pose proof fill_b. pose proof (sb_order _ _ Hsb). pose proof (so_small Hsb). unfold is_u32. lia. Qed.

(** The block of another slot's address is not a bitmap block. *)
Lemma v_alloc_other c : datastart sb <= c -> c <> b -> v_alloc sb v b c = v c.
Proof.
  intros Hc Hne. unfold v_alloc, v_mark. rewrite vupd_ne by done. rewrite vupd_ne; [done|].
  destruct Hfree as (Hb & _). pose proof (BBLOCK_bounds sb b Hb). lia.
Qed.

Lemma fill_v_new : fill_v b = zero_block.
Proof.
  unfold fill_v. destruct (parent s) as [p|] eqn:Ep; [|apply vupd_eq]. cbn zeta.
  rewrite vupd_ne; [apply vupd_eq|]. intros E. apply (fill_b_fresh p); [by eapply parent_ok|done].
Qed.

Lemma fill_v_parent p :
  parent s = Some p -> fill_v (slot_val v ad p) = put_slot (v (slot_val v ad p)) (index s) b.
Proof.
  intros Ep. unfold fill_v. rewrite Ep. cbn zeta. rewrite vupd_eq. f_equal.
  assert (Hp : slot_ok p) by (by eapply parent_ok).
  destruct (bw_range Hwf p Hp (Hpar p Ep)) as [Hr _].
  apply v_alloc_other; [lia|by apply fill_b_fresh].
Qed.

Lemma fill_v_other c :
  datastart sb <= c -> c <> b -> (forall p, parent s = Some p -> c <> slot_val v ad p) ->
  fill_v c = v c.
Proof.
  intros Hc Hb Hp. unfold fill_v. destruct (parent s) as [p|] eqn:Ep; [|by apply v_alloc_other].
  cbn zeta. rewrite vupd_ne by auto. by apply v_alloc_other.
Qed.

(** Filling sets this slot and no other. *)
Lemma fill_slot_val t :
  slot_ok t -> slot_val fill_v fill_ad t = if decide (t = s) then b else slot_val v ad t.
Proof.
  induction t as [k|t p Ep IH] using slot_ind_parent; intros Ht.
  - cbn [slot_val]. unfold fill_ad. pose proof (bw_len Hwf) as Hl.
    destruct s as [k'|i|i|i j] eqn:Es; try (rewrite decide_False; done). cbn in Ht, Hs.
    rewrite nth0_insert by lia. destruct (decide (k = k')) as [->|Hne].
    + by rewrite !decide_True.
    + rewrite decide_False by lia. rewrite decide_False by congruence. done.
  - assert (Hp : slot_ok p) by (by eapply parent_ok).
    rewrite (slot_val_parent _ _ _ _ Ep), IH by done.
    assert (Hi : 0 <= index t < 128) by (apply index_bound; [done|by rewrite Ep]).
    destruct (decide (p = s)) as [->|Hps].
    + rewrite decide_False by (intros ->; by apply (parent_ne s)).
      rewrite (slot_val_parent v ad _ _ Ep), Hs0. unfold entry.
      destruct (b =? 0); [done|]. by rewrite fill_v_new, get_slot_zero.
    + rewrite (slot_val_parent v ad _ _ Ep). unfold entry.
      destruct (Z.eqb_spec (slot_val v ad p) 0) as [E0|E0].
      { rewrite decide_False; [done|]. intros ->. by apply (Hpar p). }
      destruct (decide (parent s = Some p)) as [Esp|Esp].
      * rewrite (fill_v_parent _ Esp). assert (Hsi : 0 <= index s < 128).
        { apply index_bound; [done|by rewrite Esp]. }
        rewrite get_put_slot by (done || apply Hok || apply fill_b_u32).
        destruct (decide (index t = index s)) as [Ei|Ei].
        -- rewrite decide_True; [done|]. by eapply parent_index.
        -- rewrite decide_False by congruence. done.
      * rewrite decide_False by congruence. rewrite fill_v_other; [done| | |].
        -- destruct (bw_range Hwf p Hp E0) as [? _]. lia.
        -- by apply fill_b_fresh.
        -- intros q Eq E. apply Esp. rewrite Eq. f_equal. symmetry.
           exact (bw_inj Hwf _ _ Hp (parent_ok _ _ Hs Eq) E0 E).
Qed.

Lemma fill_used c :
  0 <= c < sb_size sb -> used sb fill_v c = if decide (c = b) then true else used sb v c.
Proof.
  intros Hc. pose proof fill_b as [Hb _]. rewrite <- (used_alloc sb v b c) by (apply Hok || lia).
  unfold fill_v. destruct (parent s) as [p|] eqn:Ep; [|done]. cbn zeta. apply used_vupd; [done|].
  destruct (bw_range Hwf p (parent_ok _ _ Hs Ep) (Hpar p eq_refl)) as [? _]. lia.
Qed.

Lemma fill_wf : blocks_wf sb fill_v fill_ad.
Proof.
  pose proof fill_b as [Hb _]. pose proof (sb_order _ _ Hsb) as Hord. split.
  - unfold fill_ad. destruct s; rewrite ?length_insert; apply Hwf.
  - intros t Ht. rewrite fill_slot_val by done. destruct (decide (t = s)).
    + intros _. split; [done|]. rewrite fill_used by lia. by rewrite decide_True.
    + intros H0. destruct (bw_range Hwf t Ht H0) as [Hr Hu]. split; [done|].
      rewrite fill_used by lia. by case_decide.
  - intros t u Ht Hu. rewrite !fill_slot_val by done.
    destruct (decide (t = s)), (decide (u = s)); [congruence| | |].
    + intros _ E. by destruct (fill_b_fresh u Hu).
    + intros _ E. by destruct (fill_b_fresh t Ht).
    + by apply (bw_inj Hwf).
Qed.

Lemma fill_meta : meta_used sb fill_v.
Proof.
  intros c Hc. pose proof (sb_order _ _ Hsb). rewrite fill_used by lia.
  case_decide; [done|]. by apply Hmeta.
Qed.

(** The contents of the file do not change: a hole reads as zeros. *)
Lemma fill_fblock bn : 0 <= bn < MAXFILE -> fblock fill_v fill_ad bn = fblock v ad bn.
Proof.
  intros Hbn. unfold fblock, faddr. pose proof (data_slot_ok bn Hbn) as Hd.
  rewrite fill_slot_val by done. pose proof fill_b as [Hb _]. pose proof (sb_order _ _ Hsb).
  destruct (decide (data_slot bn = s)) as [E|E].
  - rewrite E, Hs0, fill_v_new. by destruct (b =? 0).
  - destruct (Z.eqb_spec (slot_val v ad (data_slot bn)) 0) as [E0|E0]; [done|].
    destruct (bw_range Hwf _ Hd E0) as [? _].
    apply fill_v_other; [lia|by apply fill_b_fresh|]. intros p Ep E'.
    apply (data_slot_not_parent bn s); [lia|]. rewrite Ep. f_equal. symmetry.
    exact (bw_inj Hwf _ _ Hd (parent_ok _ _ Hs Ep) E0 E').
Qed.

Lemma fill_frame c :
  0 <= c < sb_bmapstart sb \/
  (datastart sb <= c < sb_size sb /\ used sb v c = true /\
   forall t, slot_ok t -> slot_val v ad t <> c) ->
  fill_v c = v c.
Proof.
  pose proof fill_b as [Hb Hub]. intros [Hc|(Hc & Hu & Hno)].
  - unfold fill_v. assert (Ha : v_alloc sb v b c = v c).
    { unfold v_alloc, v_mark. pose proof (sb_order _ _ Hsb). pose proof (BBLOCK_bounds sb b).
      rewrite !vupd_ne by lia. done. }
    destruct (parent s) as [p|] eqn:Ep; [|done]. cbn zeta. rewrite vupd_ne; [done|].
    destruct (bw_range Hwf p (parent_ok _ _ Hs Ep) (Hpar p eq_refl)) as [? _].
    pose proof (sb_order _ _ Hsb). lia.
  - apply fill_v_other; [lia|congruence|]. intros p Ep. apply not_eq_sym, Hno.
    by eapply parent_ok.
Qed.
End fill.

Arguments fill_v : simpl never.
Arguments fill_ad : simpl never.

(** * Growing a file's block map *)

(** At least [m] blocks are free. *)
Definition free_ge (sb : superblock) (v : Z -> bytes) (m : nat) : Prop :=
  exists F : list Z, length F = m /\ NoDup F /\
    forall c, c ∈ F -> 0 <= c < sb_size sb /\ used sb v c = false.

(** What allocating blocks for an inode and writing to them may do to the
    disk and to its [addrs]: empty slots are filled with free blocks.  Slots in
    use, the blocks of others and the blocks before the free map stay. *)
Record extends (sb : superblock) (v : Z -> bytes) (ad : list Z) (v' : Z -> bytes) (ad' : list Z)
  : Prop := {
  ex_wf : blocks_wf sb v' ad';
  ex_meta : meta_used sb v';
  ex_slot : forall t, slot_ok t -> slot_val v ad t <> 0 -> slot_val v' ad' t = slot_val v ad t;
  ex_new : forall t, slot_ok t -> slot_val v ad t = 0 -> slot_val v' ad' t <> 0 ->
    used sb v (slot_val v' ad' t) = false;
  ex_used : forall c, 0 <= c < sb_size sb -> used sb v c = true -> used sb v' c = true;
  ex_frame : forall c, 0 <= c < sb_bmapstart sb \/
    (datastart sb <= c < sb_size sb /\ used sb v c = true /\
     forall t, slot_ok t -> slot_val v ad t <> c) ->
    v' c = v c
}.
Arguments ex_wf {_ _ _ _ _} _.
Arguments ex_meta {_ _ _ _ _} _.
Arguments ex_slot {_ _ _ _ _} _.
Arguments ex_new {_ _ _ _ _} _.
Arguments ex_used {_ _ _ _ _} _.
Arguments ex_frame {_ _ _ _ _} _.

(** An allocation alone also leaves the contents of the file. *)
Definition grow (sb : superblock) (v : Z -> bytes) (ad : list Z) (v' : Z -> bytes) (ad' : list Z)
  : Prop :=
  extends sb v ad v' ad' /\
  forall bn, 0 <= bn < MAXFILE -> fblock v' ad' bn = fblock v ad bn.

Lemma extends_refl sb v ad : blocks_wf sb v ad -> meta_used sb v -> extends sb v ad v ad.
Proof. intros. by split. Qed.

Lemma grow_refl sb v ad : blocks_wf sb v ad -> meta_used sb v -> grow sb v ad v ad.
Proof. split; [by apply extends_refl|done]. Qed.

Lemma extends_trans g sb v1 a1 v2 a2 v3 a3 :
  sb_ok g sb -> extends sb v1 a1 v2 a2 -> extends sb v2 a2 v3 a3 -> extends sb v1 a1 v3 a3.
Proof.
  intros Hsb G1 G2. pose proof (sb_order _ _ Hsb) as Hord.
  split; [apply G2|apply G2|..].
  - intros t Ht H0. pose proof (ex_slot G1 t Ht H0) as E.
    rewrite (ex_slot G2 t Ht); congruence.
  - intros t Ht H0 H3. destruct (decide (slot_val v2 a2 t = 0)) as [E2|E2].
    + pose proof (ex_new G2 t Ht E2 H3) as Hu. destruct (bw_range (ex_wf G2) t Ht H3) as [Hr _].
      destruct (used sb v1 (slot_val v3 a3 t)) eqn:E; [|done].
      apply (ex_used G1) in E; [congruence|lia].
    + rewrite (ex_slot G2 t Ht E2). by apply (ex_new G1).
  - intros c Hc Hu. by apply (ex_used G2), (ex_used G1).
  - intros c Hc. rewrite (ex_frame G2); [by apply (ex_frame G1)|].
    destruct Hc as [Hc|(Hc & Hu & Hno)]; [by left|right]. split_and!; [lia..| |].
    + apply (ex_used G1); [lia|done].
    + intros t Ht E. destruct (decide (slot_val v1 a1 t = 0)) as [E1|E1].
      * assert (H2 : slot_val v2 a2 t <> 0) by lia.
        pose proof (ex_new G1 t Ht E1 H2). congruence.
      * rewrite (ex_slot G1 t Ht E1) in E. by apply (Hno t).
Qed.

Lemma grow_trans g sb v1 a1 v2 a2 v3 a3 :
  sb_ok g sb -> grow sb v1 a1 v2 a2 -> grow sb v2 a2 v3 a3 -> grow sb v1 a1 v3 a3.
Proof.
  intros Hsb [E1 C1] [E2 C2]. split; [by eapply extends_trans|]. intros bn Hbn. by rewrite C2, C1.
Qed.

Lemma fill_grow g sb v ad s b :
  sb_ok g sb -> (forall c, is_block (v c)) -> blocks_wf sb v ad -> meta_used sb v ->
  first_free sb v b -> slot_ok s -> slot_val v ad s = 0 ->
  (forall p, parent s = Some p -> slot_val v ad p <> 0) ->
  grow sb v ad (fill_v sb v ad s b) (fill_ad ad s b) /\
  slot_val (fill_v sb v ad s b) (fill_ad ad s b) s = b /\ b <> 0.
Proof.
  intros Hsb Hok Hwf Hm Hff Hs H0 Hp. pose proof (sb_order _ _ Hsb) as Hord.
  pose proof (first_free_data _ _ _ Hm Hff) as Hb. destruct Hff as (Hr & Hu & Hlow).
  assert (Hff : first_free sb v b) by done.
  split_and!; [|rewrite (fill_slot_val g) by done; by rewrite decide_True|lia].
  split; [|intros bn; by eapply fill_fblock]. split.
  - by eapply fill_wf.
  - by eapply fill_meta.
  - intros t Ht Hne. rewrite (fill_slot_val g) by done. case_decide; congruence.
  - intros t Ht Hz. rewrite (fill_slot_val g) by done. by case_decide.
  - intros c Hc Huc. erewrite fill_used by done. by case_decide.
  - intros c Hc. by eapply fill_frame.
Qed.

Lemma free_ge_exists sb v m :
  free_ge sb v (S m) -> exists c, 0 <= c < sb_size sb /\ used sb v c = false.
Proof.
  intros ([|c F] & Hl & _ & HF); [done|]. exists c. apply HF. constructor.
Qed.

Lemma free_ge_fill g sb v ad s b m :
  sb_ok g sb -> (forall c, is_block (v c)) -> blocks_wf sb v ad -> meta_used sb v ->
  first_free sb v b -> slot_ok s -> (forall p, parent s = Some p -> slot_val v ad p <> 0) ->
  free_ge sb v (S m) -> free_ge sb (fill_v sb v ad s b) m.
Proof.
  intros Hsb Hok Hwf Hm Hff Hs Hp (F & Hl & Hnd & HF).
  assert (Hstill : forall c, c ∈ F -> c <> b ->
    0 <= c < sb_size sb /\ used sb (fill_v sb v ad s b) c = false).
  { intros c Hc Hne. destruct (HF c Hc) as [Hr Hu]. split; [done|].
    erewrite fill_used by done. by rewrite decide_False. }
  destruct (decide (b ∈ F)) as [Hin|Hin].
  - apply list_elem_of_split in Hin as (F1 & F2 & ->).
    exists (F1 ++ F2). rewrite length_app in *. cbn in Hl. split; [lia|].
    apply NoDup_app in Hnd as (H1 & H12 & H2). apply NoDup_cons in H2 as [Hb2 H2]. split.
    + apply NoDup_app. split_and!; [done| |done]. intros x Hx Hx'. apply (H12 x Hx). by right.
    + intros c Hc. apply elem_of_app in Hc. apply Hstill; [set_solver|].
      intros ->. destruct Hc as [Hc|Hc]; [|done]. apply (H12 b Hc). constructor.
  - destruct F as [|c F]; [done|]. exists F. apply NoDup_cons in Hnd as [_ Hnd].
    cbn in Hl. split_and!; [lia|done|]. intros e He. apply Hstill; set_solver.
Qed.

(** * The log while a file grows *)

(** Every logged block was logged before ([L0]) or belongs to one of the slots
    [P]: the block whose address it holds, or that block's bitmap block. *)
Definition logged_in (sb : superblock) (v : Z -> bytes) (ad : list Z) (L0 : list Z)
    (P : list slot) (L : list Z) : Prop :=
  forall c, c ∈ L -> c ∈ L0 \/
    exists s, s ∈ P /\ slot_val v ad s <> 0 /\
      (c = slot_val v ad s \/ c = BBLOCK (slot_val v ad s) sb).

Lemma logged_in_length sb v ad L0 P L :
  NoDup L -> logged_in sb v ad L0 P L -> (length L <= length L0 + 2 * length P)%nat.
Proof.
  intros Hnd H.
  assert (Hsub : L ⊆+ L0 ++ map (slot_val v ad) P ++ map (fun s => BBLOCK (slot_val v ad s) sb) P).
  { apply NoDup_submseteq; [done|]. intros c Hc. rewrite !elem_of_app, !list_elem_of_fmap.
    destruct (H c Hc) as [?|(s & Hs & _ & [->| ->])]; eauto. }
  apply submseteq_length in Hsub. rewrite !length_app, !length_map in Hsub. lia.
Qed.

Lemma logged_in_extends sb v ad v' ad' L0 P L :
  extends sb v ad v' ad' -> Forall slot_ok P -> logged_in sb v ad L0 P L ->
  logged_in sb v' ad' L0 P L.
Proof.
  intros G HP H c Hc. destruct (H c Hc) as [?|(s & Hs & Hne & Hcs)]; [by left|right].
  pose proof (proj1 (Forall_forall _ _) HP s Hs) as Hok.
  exists s. rewrite (ex_slot G s Hok Hne). done.
Qed.

Lemma logged_in_add sb v ad L0 P L s c :
  logged_in sb v ad L0 P L -> s ∈ P -> slot_val v ad s <> 0 ->
  c = slot_val v ad s \/ c = BBLOCK (slot_val v ad s) sb ->
  logged_in sb v ad L0 P (log_add c L).
Proof.
  intros H Hs Hne Hc e He. apply elem_log_add in He as [He| ->]; [by apply H|]. right. eauto.
Qed.

Lemma free_ge_le sb v m : free_ge sb v (S m) -> free_ge sb v m.
Proof.
  intros ([|c F] & Hl & Hnd & HF); [done|]. cbn in Hl. apply NoDup_cons in Hnd as [_ Hnd].
  exists F. split_and!; [lia|done|]. intros e He. apply HF. by right.
Qed.

Lemma free_ge_weaken sb v m k : free_ge sb v m -> (k <= m)%nat -> free_ge sb v k.
Proof. intros H Hk. induction Hk; [done|]. by apply IHHk, free_ge_le. Qed.

Lemma alter_insert_here {A} (f : A -> A) (i : nat) x (l : list A) :
  alter f i (<[i:=x]> l) = <[i:=f x]> l.
Proof.
  revert i. induction l as [|y l IH]; intros [|i]; [done..|]. cbn. f_equal. apply IH.
Qed.

(** * [bmap] *)

Section bmap.
Context {S : Type} `{!BlockIO S} `{!BlockSpec S}.
Context (g : geom) (sb : superblock) (Hsb : sb_ok g sb).
Context (o : Z) (dur : Z -> bytes).
(** The inode, in its place of the cache. *)
Context (ic : list inode) (pid : Z) (cwd : nat) (ip : nat) (i0 : inode).
Hypothesis Hip : (ip < length ic)%nat.
Hypothesis Hdev : i_dev i0 = ROOTDEV.
(** The blocks logged before, and the slots that may be touched. *)
Context (L0 : list Z) (P : list slot).
Hypothesis HP : Forall slot_ok P.
Hypothesis Hbud : (length L0 + 2 * length P <= 25)%nat.

Local Abbreviation st b ad := (mkF b (<[ip := set_addrs ad i0]> ic) sb pid cwd).
Local Abbreviation rep := (rep g o dur).

Record minv (b : S) (v : Z -> bytes) (ad : list Z) (L : list Z) : Prop := {
  mi_rep : rep b v ∅ L;
  mi_wf : blocks_wf sb v ad;
  mi_meta : meta_used sb v;
  mi_log : logged_in sb v ad L0 P L
}.

Lemma minv_length b v ad L : minv b v ad L -> (length L <= 25)%nat.
Proof. intros []. pose proof (logged_in_length _ _ _ _ _ _ (rep_nodup _ _ _ _ _ _ _ mi_rep0) mi_log0). lia. Qed.

Lemma wp_geti b ad (Q : inode -> fstate S -> Prop) :
  Q (set_addrs ad i0) (st b ad) -> wp (geti ip) (st b ad) Q.
Proof. intros HQ. unfold wp, geti. cbn. by rewrite list_lookup_insert_eq. Qed.

Lemma wp_updi_addrs b ad f (Q : unit -> fstate S -> Prop) :
  Q tt (st b (f ad)) -> wp (updi ip (fun i => set_addrs (f (i_addrs i)) i)) (st b ad) Q.
Proof.
  intros HQ. unfold wp, updi. cbn. rewrite list_lookup_insert_eq by done.
  unfold set_icache. cbn. rewrite alter_insert_here. exact HQ.
Qed.

Lemma wp_bmap_addr b v ad L k m (Q : Z -> fstate S -> Prop) :
  0 <= k < 13 -> SAddr k ∈ P -> minv b v ad L -> 1 <= o -> free_ge sb v (Datatypes.S m) ->
  (forall b' v' ad' L', minv b' v' ad' L' -> grow sb v ad v' ad' -> free_ge sb v' m ->
     slot_val v' ad' (SAddr k) <> 0 -> Q (slot_val v' ad' (SAddr k)) (st b' ad')) ->
  wp (bmap_addr ip k) (st b ad) Q.
Proof.
  intros Hk HkP [Hr Hwf Hm Hl] Ho Hfr HQ.
  pose proof (minv_length _ _ _ _ (Build_minv _ _ _ _ Hr Hwf Hm Hl)) as Hlen.
  unfold bmap_addr. wp_step. apply wp_geti. wp_step. wp_step.
  { apply nth0_lookup_lt. cbn. rewrite (bw_len Hwf). lia. }
  change (nth0 (i_addrs (set_addrs ad i0)) (Z.to_nat k)) with (slot_val v ad (SAddr k)).
  destruct (Z.eqb_spec (slot_val v ad (SAddr k)) 0) as [E0|E0].
  - wp_step. change (i_dev (set_addrs ad i0)) with (i_dev i0). rewrite Hdev.
    eapply wp_balloc; [done|exact Hr|done|done|rewrite map_size_empty; lia|..].
    { intros j c. by rewrite lookup_empty. }
    { by eapply free_ge_exists. }
    intros c b1 Hff Hr1. wp_step. apply wp_updi_addrs with (f := fun ad => <[Z.to_nat k := c]> ad).
    wp_step. assert (Hok : forall e, is_block (v e)) by (intros e; by eapply rep_ok).
    destruct (fill_grow g sb v ad (SAddr k) c) as (G & Ec & Hc0); try done.
    specialize (HQ b1 (fill_v sb v ad (SAddr k) c) (fill_ad ad (SAddr k) c)).
    rewrite Ec in HQ. eapply HQ; [|done| |done].
    + split; [exact Hr1|apply G|apply G|].
      eapply logged_in_add; [eapply logged_in_add; [by eapply logged_in_extends; [apply G|..]|exact HkP|..]|exact HkP|..];
        rewrite Ec; try done; [by right|by left].
    + by eapply free_ge_fill.
  - wp_step. eapply HQ; [by split|by apply grow_refl|by apply free_ge_le|done].
Qed.

Lemma wp_bmap_index b v ad L p s m (Q : Z -> fstate S -> Prop) :
  slot_ok s -> parent s = Some p -> s ∈ P -> p ∈ P -> slot_val v ad p <> 0 ->
  minv b v ad L -> 1 <= o -> free_ge sb v (Datatypes.S m) ->
  (forall b' v' ad' L', minv b' v' ad' L' -> grow sb v ad v' ad' -> free_ge sb v' m ->
     slot_val v' ad' s <> 0 -> Q (slot_val v' ad' s) (st b' ad')) ->
  wp (bmap_index ROOTDEV (slot_val v ad p) (index s)) (st b ad) Q.
Proof.
  intros Hs Ep HsP HpP Hp0 [Hr Hwf Hm Hl] Ho Hfr HQ.
  pose proof (minv_length _ _ _ _ (Build_minv _ _ _ _ Hr Hwf Hm Hl)) as Hlen.
  pose proof (parent_ok _ _ Hs Ep) as Hp.
  destruct (bw_range Hwf p Hp Hp0) as [Hpr Hpu].
  destruct (data_block_ok _ _ Hsb _ Hpr) as (Hpl & Hp1 & Hprs).
  assert (Hsi : 0 <= index s < 128) by (apply index_bound; [done|by rewrite Ep]).
  set (addr := slot_val v ad p) in *.
  assert (Hval : get_slot (v addr) (index s) = slot_val v ad s).
  { rewrite (slot_val_parent _ _ _ _ Ep). unfold entry. fold addr.
    by rewrite (proj2 (Z.eqb_neq addr 0)). }
  unfold bmap_index. wp_step. eapply wp_io_bread; [done|exact Hr|done| | |].
  { intros i. by rewrite lookup_empty. }
  { rewrite map_size_empty. unfold NBUFn. lia. }
  intros i b1 _ Hr1. wp_step. eapply wp_io_data; [exact Hr1|apply lookup_insert_eq|].
  rewrite Hval. wp_step. destruct (Z.eqb_spec (slot_val v ad s) 0) as [E0|E0].
  - wp_step. eapply wp_balloc; [done|exact Hr1|done|done| | |by eapply free_ge_exists|].
    { rewrite insert_empty, map_size_singleton. lia. }
    { intros j c. rewrite lookup_insert_Some, lookup_empty. by intros [[<- <-]|[_ ?]]. }
    intros c b2 Hff Hr2. wp_step. eapply wp_io_data; [exact Hr2|apply lookup_insert_eq|].
    assert (Hok : forall e, is_block (v e)) by (intros e; by eapply rep_ok).
    pose proof (length_log_add c (log_add (BBLOCK c sb) L)).
    pose proof (length_log_add (BBLOCK c sb) L).
    eapply wp_io_log; [done|exact Hr2|apply lookup_insert_eq| |done..| |].
    { apply put_slot_ok; [by eapply rep_ok|done]. }
    { change NBUF with 30. lia. }
    intros b3 Hr3. wp_step. wp_step. eapply wp_io_brelse; [done|exact Hr3|apply lookup_insert_eq|].
    intros b4 Hr4. rewrite delete_insert_id in Hr4 by apply lookup_empty. wp_step.
    destruct (fill_grow g sb v ad s c) as (G & Ec & Hc0); try done.
    { intros q Eq. rewrite Ep in Eq. injection Eq as <-. done. }
    specialize (HQ b4 (fill_v sb v ad s c) (fill_ad ad s c)). rewrite Ec in HQ.
    assert (Ead : fill_ad ad s c = ad) by (unfold fill_ad; by destruct s).
    rewrite Ead in HQ, Ec, G.
    eapply HQ; [|done| |done].
    + split; [|apply G|apply G|].
      * unfold fill_v. rewrite Ep. cbn zeta. exact Hr4.
      * assert (Hg : slot_val (fill_v sb v ad s c) ad p = addr) by (by apply (ex_slot (proj1 G))).
        eapply (logged_in_add _ _ _ _ _ _ p); [|done|by rewrite Hg|by left].
        eapply (logged_in_add _ _ _ _ _ _ s); [|done|by rewrite Ec|by left].
        eapply (logged_in_add _ _ _ _ _ _ s); [|done|by rewrite Ec|rewrite Ec; by right].
        by eapply logged_in_extends; [apply G|..].
    + eapply free_ge_fill; try done. intros q Eq. rewrite Ep in Eq. injection Eq as <-. done.
  - wp_step. wp_step. eapply wp_io_brelse; [done|exact Hr1|apply lookup_insert_eq|].
    intros b4 Hr4. rewrite delete_insert_id in Hr4 by apply lookup_empty. wp_step.
    eapply HQ; [by split|by apply grow_refl|by apply free_ge_le|done].
Qed.

(** [bmap] inside a transaction, with three free blocks: it returns the
    address of the block, allocated if need be, and only grows the map. *)
Lemma wp_bmap b v ad L bn m (Q : Z -> fstate S -> Prop) :
  0 <= bn < MAXFILE -> path bn ⊆ P -> minv b v ad L -> 1 <= o ->
  free_ge sb v (Datatypes.S (Datatypes.S (Datatypes.S m))) ->
  (forall b' v' ad' L', minv b' v' ad' L' -> grow sb v ad v' ad' -> free_ge sb v' m ->
     faddr v' ad' bn <> 0 -> Q (faddr v' ad' bn) (st b' ad')) ->
  wp (bmap ip bn) (st b ad) Q.
Proof.
  intros Hbn Hpath Hinv Ho Hfr HQ. rewrite MAXFILE_val in Hbn. unfold faddr in HQ.
  unfold path, data_slot in *. unfold bmap. wp_step. apply wp_geti.
  change (i_dev (set_addrs ad i0)) with (i_dev i0). rewrite Hdev.
  change NDIRECT with 11 in *. change NINDIRECT with 128. change D_INDIRECT with 16384.
  change D_INDIRECT_INSTANCE with 128.
  destruct (Z.ltb_spec bn 11) as [H11|H11].
  - eapply wp_bmap_addr; [lia|set_solver|done|done|exact Hfr|].
    intros b1 v1 ad1 L1 Hi1 G1 F1 N1. eapply HQ; [done|done|by do 2 apply free_ge_le|done].
  - destruct (Z.ltb_spec bn 139) as [H139|H139].
    + zif. wp_step. eapply wp_bmap_addr; [lia|set_solver|done|done|exact Hfr|].
      intros b1 v1 ad1 L1 Hi1 G1 F1 N1. change (bn - 11) with (index (SInd (bn - 11))) at 1.
      eapply (wp_bmap_index b1 v1 ad1 L1 (SAddr 11) (SInd (bn - 11)));
        [cbn; lia|done|set_solver|set_solver|done|exact Hi1|done|exact F1|].
      intros b2 v2 ad2 L2 Hi2 G2 F2 N2.
      eapply HQ; [done|by eapply grow_trans|by apply free_ge_le|done].
    + zif. zif. replace (bn - 11 - 128) with (bn - 139) in * by lia.
      destruct (leaf_index_ok bn) as [Hi Hj]; [rewrite MAXFILE_val; lia|].
      set (i := (bn - 139) / 128) in *. set (j := (bn - 139) mod 128) in *.
      wp_step. eapply wp_bmap_addr; [lia|set_solver|done|done|exact Hfr|].
      intros b1 v1 ad1 L1 Hi1 G1 F1 N1. wp_step.
      eapply (wp_bmap_index b1 v1 ad1 L1 (SAddr 12) (SMid i));
        [done|done|set_solver|set_solver|done|exact Hi1|done|exact F1|].
      intros b2 v2 ad2 L2 Hi2 G2 F2 N2.
      eapply (wp_bmap_index b2 v2 ad2 L2 (SMid i) (SLeaf i j));
        [done|done|set_solver|set_solver|done|exact Hi2|done|exact F2|].
      intros b3 v3 ad3 L3 Hi3 G3 F3 N3. eapply HQ; [done| |done|done].
      eapply grow_trans; [exact Hsb|exact G1|]. by eapply grow_trans.
Qed.
End bmap.

(** * [bmap] of a block the file has *)

Section lookup.
Context {S : Type} `{!BlockIO S} `{!BlockSpec S}.
Context (g : geom) (sb : superblock) (Hsb : sb_ok g sb).
Context (o : Z) (dur : Z -> bytes).
Context (ic : list inode) (pid : Z) (cwd : nat) (ip : nat) (i : inode).
Hypothesis Hip : ic !! ip = Some i.
Hypothesis Hdev : i_dev i = ROOTDEV.
Context (v : Z -> bytes) (L : list Z).
Hypothesis Hwf : blocks_wf sb v (i_addrs i).
Hypothesis HL : (length L < NBUFn)%nat.

Local Abbreviation st b := (mkF b ic sb pid cwd).
Local Abbreviation rep := (rep g o dur).

Lemma wp_geti_here b (Q : inode -> fstate S -> Prop) : Q i (st b) -> wp (geti ip) (st b) Q.
Proof. intros HQ. unfold wp, geti. cbn. by rewrite Hip. Qed.

Lemma wp_bmap_addr_get b k (Q : Z -> fstate S -> Prop) :
  0 <= k < 13 -> slot_val v (i_addrs i) (SAddr k) <> 0 ->
  Q (slot_val v (i_addrs i) (SAddr k)) (st b) -> wp (bmap_addr ip k) (st b) Q.
Proof.
  intros Hk Hne HQ. unfold bmap_addr. wp_step. apply wp_geti_here. wp_step. wp_step.
  { apply nth0_lookup_lt. rewrite (bw_len Hwf). lia. }
  change (nth0 (i_addrs i) (Z.to_nat k)) with (slot_val v (i_addrs i) (SAddr k)).
  rewrite (proj2 (Z.eqb_neq _ _)) by done. by wp_step.
Qed.

Lemma wp_bmap_index_get b p s (Q : Z -> fstate S -> Prop) :
  slot_ok s -> parent s = Some p -> slot_val v (i_addrs i) s <> 0 -> rep b v ∅ L ->
  (forall b', rep b' v ∅ L -> Q (slot_val v (i_addrs i) s) (st b')) ->
  wp (bmap_index ROOTDEV (slot_val v (i_addrs i) p) (index s)) (st b) Q.
Proof.
  intros Hs Ep Hne Hr HQ. pose proof (sb_order _ _ Hsb) as Hord.
  rewrite (slot_val_parent _ _ _ _ Ep) in Hne, HQ. unfold entry in Hne, HQ.
  destruct (Z.eqb_spec (slot_val v (i_addrs i) p) 0) as [|Hp0]; [done|].
  destruct (bw_range Hwf p (parent_ok _ _ Hs Ep) Hp0) as [Hpr _].
  unfold bmap_index. wp_step. eapply wp_io_bread; [done|exact Hr|lia| | |].
  { intros k. by rewrite lookup_empty. }
  { by rewrite map_size_empty. }
  intros k b1 _ Hr1. wp_step. eapply wp_io_data; [exact Hr1|apply lookup_insert_eq|].
  wp_step. rewrite (proj2 (Z.eqb_neq _ _)) by done. wp_step. wp_step.
  eapply wp_io_brelse; [done|exact Hr1|apply lookup_insert_eq|].
  intros b2 Hr2. rewrite delete_insert_id in Hr2 by apply lookup_empty. wp_step. by apply HQ.
Qed.

(** It returns its address and changes nothing. *)
Lemma wp_bmap_get b bn (Q : Z -> fstate S -> Prop) :
  0 <= bn < MAXFILE -> faddr v (i_addrs i) bn <> 0 -> rep b v ∅ L ->
  (forall b', rep b' v ∅ L -> Q (faddr v (i_addrs i) bn) (st b')) ->
  wp (bmap ip bn) (st b) Q.
Proof.
  intros Hbn Hne Hr HQ. rewrite MAXFILE_val in Hbn. unfold faddr, data_slot in *.
  unfold bmap. wp_step. apply wp_geti_here. rewrite Hdev.
  change NDIRECT with 11 in *. change NINDIRECT with 128. change D_INDIRECT with 16384.
  change D_INDIRECT_INSTANCE with 128.
  destruct (Z.ltb_spec bn 11) as [H11|H11]; [apply wp_bmap_addr_get; [lia|done|auto]|].
  destruct (Z.ltb_spec bn 139) as [H139|H139].
  - zif. pose proof (entry_ne v _ _ Hne) as Hp. wp_step. apply wp_bmap_addr_get; [done|exact Hp|].
    apply (wp_bmap_index_get b (SAddr 11) (SInd (bn - 11))); [cbn; lia|done..].
  - zif. zif. replace (bn - 11 - 128) with (bn - 139) in * by lia.
    destruct (leaf_index_ok bn) as [Hi Hj]; [rewrite MAXFILE_val; lia|].
    set (k := (bn - 139) / 128) in *. set (j := (bn - 139) mod 128) in *.
    pose proof (entry_ne v _ _ Hne) as Hm. pose proof (entry_ne v _ _ Hm) as Hp.
    wp_step. apply wp_bmap_addr_get; [done|exact Hp|]. wp_step.
    apply (wp_bmap_index_get b (SAddr 12) (SMid k)); [done|done|exact Hm|done|].
    intros b1 Hr1. by apply (wp_bmap_index_get b1 (SMid k) (SLeaf k j)).
Qed.
End lookup.

(** Either way, the map of a file that has the block is left alone. *)
Lemma wp_bmap_keep {S} `{!BlockIO S} `{!BlockSpec S} g sb (Hsb : sb_ok g sb) o dur ic pid cwd ip i0 :
  (ip < length ic)%nat -> i_dev i0 = ROOTDEV -> forall L0 P, Forall slot_ok P ->
  (length L0 + 2 * length P <= 25)%nat -> forall (b : S) v ad L bn m (Q : Z -> fstate S -> Prop),
  0 <= bn < MAXFILE -> path bn ⊆ P -> minv g sb o dur L0 P b v ad L -> 1 <= o ->
  free_ge sb v (Datatypes.S (Datatypes.S (Datatypes.S m))) ->
  (forall b' v' ad' L', minv g sb o dur L0 P b' v' ad' L' -> grow sb v ad v' ad' -> free_ge sb v' m ->
     faddr v' ad' bn <> 0 -> (faddr v ad bn <> 0 -> ad' = ad) ->
     Q (faddr v' ad' bn) (mkF b' (<[ip := set_addrs ad' i0]> ic) sb pid cwd)) ->
  wp (bmap ip bn) (mkF b (<[ip := set_addrs ad i0]> ic) sb pid cwd) Q.
Proof.
  intros Hip Hdev L0 P HP Hbud b v ad L bn m Q Hbn Hpath Hinv Ho Hfr HQ.
  destruct (decide (faddr v ad bn = 0)) as [E0|E0].
  - eapply (wp_bmap g sb Hsb o dur ic pid cwd ip i0 Hip Hdev L0 P HP Hbud); [done..|exact Hinv|done|exact Hfr|].
    intros. by eapply HQ.
  - assert (HL : (length L <= 25)%nat) by (by eapply minv_length). destruct Hinv as [Hr Hwf Hm Hlg].
    eapply (wp_bmap_get g sb Hsb o dur (<[ip := set_addrs ad i0]> ic) pid cwd ip (set_addrs ad i0));
      [by apply list_lookup_insert_eq|done|exact Hwf| |done|exact E0|exact Hr|].
    { unfold NBUFn. lia. }
    intros b' Hr'. apply (HQ b' v ad L); [by split|by apply grow_refl|by do 3 apply free_ge_le|done|done].
Qed.

