(* ===== verification/FsData.v ===== *)
(** The contents of files: [readi], [writei] and [iupdate] of fs.c.

    A file is seen as a function from offsets to bytes ([fbyte]); holes read as
    zeros.  [writei] splices its bytes into that function, [readi] returns a
    slice of it. *)
From S2P Require Import Prelude Layout Locks Bio Log LogRep Fs FsBlock FsMap.

Definition fbyte (v : Z -> bytes) (ad : list Z) (i : Z) : Z :=
  nth0 (fblock v ad (i / BSIZE)) (Z.to_nat (i mod BSIZE)).

Definition fbytes (v : Z -> bytes) (ad : list Z) (off n : Z) : bytes :=
  fbyte v ad <$> seqZ off n.

(** The blocks still to visit between [off] and the end [e] of a copy. *)
Definition blocks_left (off e : Z) : Z :=
  if e <=? off then 0 else (e - 1) / BSIZE - off / BSIZE + 1.

(** * Arithmetic of blocks and offsets *)

Lemma BSIZE_val : BSIZE = 512.
Proof. reflexivity. Qed.

Lemma block_of i bn o : 0 <= o < BSIZE -> i = bn * BSIZE + o -> i / BSIZE = bn /\ i mod BSIZE = o.
Proof.
  intros Ho ->. split.
  - rewrite Z.div_add_l by done. rewrite Z.div_small by done. lia.
  - rewrite Z.add_comm, Z_mod_plus_full. by apply Z.mod_small.
Qed.

Lemma block_split i : i = i / BSIZE * BSIZE + i mod BSIZE /\ 0 <= i mod BSIZE < BSIZE.
Proof. split; [rewrite Z.mul_comm; by apply Z.div_mod|by apply Z.mod_pos_bound]. Qed.

Lemma chunk_bounds n tot off : tot < n -> 0 < chunk n tot off <= BSIZE - off mod BSIZE /\ chunk n tot off <= n - tot.
Proof. intros H. pose proof (block_split off). unfold chunk. lia. Qed.

(** Each iteration visits one block. *)
Lemma blocks_left_step off tot n :
  0 <= off -> 0 <= tot < n ->
  blocks_left (off + tot) (off + n) =
  blocks_left (off + tot + chunk n tot (off + tot)) (off + n) + 1 /\
  0 <= blocks_left (off + tot + chunk n tot (off + tot)) (off + n).
Proof.
  intros Ho Ht. set (c := off + tot). pose proof (block_split c) as [Hc1 Hc2].
  set (q := c / BSIZE) in *. set (r := c mod BSIZE) in *. unfold chunk. fold r.
  unfold blocks_left. rewrite (proj2 (Z.leb_gt (off + n) c)) by lia.
  destruct (Z.leb_spec (off + n) (c + Z.min (n - tot) (BSIZE - r))) as [Hle|Hgt].
  - split; [|lia]. destruct (block_of (off + n - 1) q (off + n - 1 - q * BSIZE)); [lia|lia|]. lia.
  - replace (c + Z.min (n - tot) (BSIZE - r)) with ((q + 1) * BSIZE) in * by lia.
    rewrite Z.div_mul by done. split; [lia|].
    assert (q + 1 <= (off + n - 1) / BSIZE) by (apply Z.div_le_lower_bound; [done|lia]). lia.
Qed.

Lemma blocks_left_fuel off n :
  0 <= off -> 0 <= n -> (Z.to_nat (blocks_left off (off + n)) + 1 <= copy_fuel n)%nat.
Proof.
  intros Ho Hn. unfold blocks_left, copy_fuel. pose proof (Z.div_pos n BSIZE).
  destruct (Z.leb_spec (off + n) off); [lia|].
  assert (off + n - 1 < (off / BSIZE + n / BSIZE + 2) * BSIZE).
  { pose proof (block_split off). pose proof (block_split n). rewrite BSIZE_val in *. lia. }
  assert ((off + n - 1) / BSIZE < off / BSIZE + n / BSIZE + 2) by (apply Z.div_lt_upper_bound; [done|lia]).
  lia.
Qed.

(** * Writing a data block *)

Section write.
Context (g : geom) (sb : superblock) (Hsb : sb_ok g sb).
Context (v : Z -> bytes) (ad : list Z) (bn : Z) (x : bytes).
Hypothesis Hwf : blocks_wf sb v ad.
Hypothesis Hmeta : meta_used sb v.
Hypothesis Hbn : 0 <= bn < MAXFILE.
Hypothesis Hne : faddr v ad bn <> 0.
Local Abbreviation addr := (faddr v ad bn).
Local Abbreviation v' := (vupd v addr x).

Lemma write_addr : datastart sb <= addr < sb_size sb.
Proof. by destruct (bw_range Hwf (data_slot bn) (data_slot_ok bn Hbn) Hne). Qed.

Lemma write_slot_val t : slot_ok t -> slot_val v' ad t = slot_val v ad t.
Proof.
  induction t as [k|t p Ep IH] using slot_ind_parent; intros Ht; [done|].
  pose proof (parent_ok _ _ Ht Ep) as Hp.
  rewrite (slot_val_parent v' _ _ _ Ep), (slot_val_parent v _ _ _ Ep), IH by done.
  unfold entry. destruct (Z.eqb_spec (slot_val v ad p) 0) as [|E0]; [done|].
  rewrite vupd_ne; [done|]. intros E. apply (data_slot_not_parent bn t); [lia|]. rewrite Ep.
  f_equal. exact (bw_inj Hwf _ _ Hp (data_slot_ok bn Hbn) E0 E).
Qed.

Lemma write_faddr bn' : 0 <= bn' < MAXFILE -> faddr v' ad bn' = faddr v ad bn'.
Proof. intros H. by apply write_slot_val, data_slot_ok. Qed.

Lemma write_used c : 0 <= c < sb_size sb -> used sb v' c = used sb v c.
Proof. intros Hc. pose proof write_addr. apply used_vupd; [done|lia]. Qed.

Lemma write_extends : extends sb v ad v' ad.
Proof.
  pose proof write_addr as Ha. pose proof (sb_order _ _ Hsb) as Hord. split.
  - split; [apply Hwf| |].
    + intros t Ht. rewrite write_slot_val by done. intros H0.
      destruct (bw_range Hwf t Ht H0) as [Hr Hu]. split; [done|]. rewrite write_used by lia. done.
    + intros t u Ht Hu. rewrite !write_slot_val by done. by apply (bw_inj Hwf).
  - intros c Hc. rewrite write_used by lia. by apply Hmeta.
  - intros t Ht _. by apply write_slot_val.
  - intros t Ht H0. rewrite write_slot_val by done. done.
  - intros c Hc. by rewrite write_used.
  - intros c Hc. apply vupd_ne. intros ->. destruct Hc as [Hc|(_ & _ & Hno)]; [lia|].
    by apply (Hno (data_slot bn) (data_slot_ok bn Hbn)).
Qed.

Lemma write_fblock bn' :
  0 <= bn' < MAXFILE -> fblock v' ad bn' = if decide (bn' = bn) then x else fblock v ad bn'.
Proof.
  intros Hbn'. pose proof (data_slot_ok bn' Hbn') as Hok'. unfold fblock.
  assert (E : faddr v' ad bn' = faddr v ad bn') by (by apply write_slot_val). rewrite E.
  destruct (decide (bn' = bn)) as [->|Hbb].
  - rewrite (proj2 (Z.eqb_neq _ _)) by done. apply vupd_eq.
  - destruct (Z.eqb_spec (faddr v ad bn') 0) as [|E0]; [done|]. apply vupd_ne. intros E'.
    apply Hbb, data_slot_inj; [lia..|].
    exact (bw_inj Hwf _ _ Hok' (data_slot_ok bn Hbn) E0 E').
Qed.
End write.

Lemma free_ge_used sb v v' m :
  (forall c, 0 <= c < sb_size sb -> used sb v' c = used sb v c) -> free_ge sb v m -> free_ge sb v' m.
Proof.
  intros Hu (F & Hl & Hnd & HF). exists F. split_and!; [done..|]. intros c Hc.
  destruct (HF c Hc) as [? ?]. split; [done|]. by rewrite Hu.
Qed.

Lemma fblock_ok v ad bn : (forall c, is_block (v c)) -> is_block (fblock v ad bn).
Proof. intros H. unfold fblock. destruct (_ =? 0); [apply zero_block_ok|apply H]. Qed.

(** The bytes of a file after [m] bytes at [c] of it are replaced in a block. *)
Lemma write_fbyte g sb v ad c src i :
  sb_ok g sb -> (forall e, is_block (v e)) -> blocks_wf sb v ad -> meta_used sb v ->
  0 <= c -> c / BSIZE < MAXFILE -> faddr v ad (c / BSIZE) <> 0 ->
  Z.of_nat (length src) <= BSIZE - c mod BSIZE -> 0 <= i < MAXFILE * BSIZE ->
  fbyte (vupd v (faddr v ad (c / BSIZE))
           (splice (v (faddr v ad (c / BSIZE))) (Z.to_nat (c mod BSIZE)) src)) ad i =
  if decide (c <= i < c + Z.of_nat (length src)) then nth0 src (Z.to_nat (i - c))
  else fbyte v ad i.
Proof.
  intros Hsb Hok Hwf Hm Hc Hbn Hne Hlen Hi.
  pose proof (block_split c) as [Hc1 Hc2]. pose proof (block_split i) as [Hi1 Hi2].
  assert (Hbn0 : 0 <= c / BSIZE) by (apply Z.div_pos; [lia|done]).
  assert (Hib : 0 <= i / BSIZE < MAXFILE).
  { split; [apply Z.div_pos; [lia|done]|apply Z.div_lt_upper_bound; [done|lia]]. }
  unfold fbyte at 1. erewrite write_fblock by done.
  destruct (Hok (faddr v ad (c / BSIZE))) as [Hl _]. unfold BSIZEn in Hl. rewrite BSIZE_val in *.
  destruct (decide (i / 512 = c / 512)) as [E|E].
  - rewrite nth0_splice by lia.
    destruct (decide (c <= i < c + Z.of_nat (length src))) as [H|H].
    + rewrite decide_True by lia. f_equal. lia.
    + rewrite decide_False by lia. unfold fbyte. rewrite BSIZE_val, E. unfold fblock.
      by rewrite (proj2 (Z.eqb_neq _ _)).
  - rewrite decide_False by lia. unfold fbyte. by rewrite BSIZE_val.
Qed.

Lemma grow_fbyte sb v ad v' ad' i :
  grow sb v ad v' ad' -> 0 <= i < MAXFILE * BSIZE -> fbyte v' ad' i = fbyte v ad i.
Proof.
  intros [_ G] Hi. unfold fbyte. rewrite G; [done|].
  split; [apply Z.div_pos; [lia|done]|apply Z.div_lt_upper_bound; [done|lia]].
Qed.

(** * The copy loop of [writei] *)

(** What [writei] of [src] at [off] does to the contents of a file. *)
Definition spliced (v : Z -> bytes) (ad : list Z) (v' : Z -> bytes) (ad' : list Z)
    (off tot : Z) (src : bytes) : Prop :=
  (forall i, 0 <= i < MAXFILE * BSIZE ->
     fbyte v' ad' i = if decide (off <= i < off + tot) then nth0 src (Z.to_nat (i - off))
                      else fbyte v ad i) /\
  (forall i, off <= i < off + tot -> faddr v' ad' (i / BSIZE) <> 0) /\
  (forall bn, 0 <= bn < MAXFILE -> faddr v ad bn <> 0 -> faddr v' ad' bn = faddr v ad bn).

Lemma spliced_0 v ad off src : spliced v ad v ad off 0 src.
Proof. split_and!; [|lia|done]. intros i Hi. rewrite decide_False by lia. done. Qed.

(** The block addresses of a file that has all the blocks of the range stay. *)
Definition kept (v : Z -> bytes) (ad ad' : list Z) (off tot : Z) : Prop :=
  (forall i, off <= i < off + tot -> faddr v ad (i / BSIZE) <> 0) -> ad' = ad.

(** One more block. *)
Lemma spliced_step g sb v ad v1 ad1 v2 ad2 off tot n src :
  sb_ok g sb -> (forall e, is_block (v2 e)) ->
  spliced v ad v1 ad1 off tot src -> grow sb v1 ad1 v2 ad2 ->
  0 <= off -> 0 <= tot < n -> off + n <= MAXFILE * BSIZE -> length src = Z.to_nat n ->
  let c := off + tot in
  let m := chunk n tot c in
  let addr := faddr v2 ad2 (c / BSIZE) in
  addr <> 0 ->
  spliced v ad (vupd v2 addr (splice (v2 addr) (Z.to_nat (c mod BSIZE))
    (slice src (Z.to_nat tot) (Z.to_nat m)))) ad2 off (tot + m) src.
Proof.
  intros Hsb Hok (Hsp & Hmap & Hkeep) G Ho Ht He Hl c m addr Hne. destruct G as [E2 C2] eqn:EG.
  pose proof (chunk_bounds n tot c) as Hm. fold m in Hm.
  assert (Hc : 0 <= c) by lia.
  assert (Hbn : c / BSIZE < MAXFILE) by (apply Z.div_lt_upper_bound; [done|lia]).
  assert (Hls : length (slice src (Z.to_nat tot) (Z.to_nat m)) = Z.to_nat m).
  { apply length_slice. lia. }
  assert (Hbn0 : 0 <= c / BSIZE) by (apply Z.div_pos; [lia|done]).
  split_and!.
  - intros i Hi. unfold addr.
    erewrite write_fbyte; [|done|done|apply E2|apply E2|done|done|done|rewrite Hls; lia|done].
    rewrite Hls. rewrite Z2Nat.id by lia.
    destruct (decide (c <= i < c + m)) as [H|H].
    + rewrite decide_True by lia. rewrite !nth0_lookup, lookup_slice, decide_True by lia.
      f_equal. f_equal. lia.
    + rewrite (grow_fbyte _ _ _ _ _ _ G) by done. rewrite Hsp by done.
      destruct (decide (off <= i < off + tot)); [rewrite decide_True by lia|rewrite decide_False by lia]; done.
  - intros i Hi. unfold addr.
    assert (Hib : 0 <= i / BSIZE < MAXFILE).
    { split; [apply Z.div_pos; [lia|done]|apply Z.div_lt_upper_bound; [done|lia]]. }
    rewrite (write_faddr sb); [|apply E2|done|done].
    destruct (decide (i < c)) as [H|H].
    + assert (Hi1 : faddr v1 ad1 (i / BSIZE) <> 0) by (apply Hmap; lia).
      unfold faddr in *. rewrite (ex_slot E2); [done|by apply data_slot_ok|done].
    + pose proof (block_split c). destruct (block_of i (c / BSIZE) (i - c / BSIZE * BSIZE)) as [-> _]; [lia|lia|].
      exact Hne.
  - intros bn Hbn' Hne'. unfold addr.
    rewrite (write_faddr sb); [|apply E2|done|done].
    pose proof (Hkeep bn Hbn' Hne') as E. rewrite <- E. unfold faddr. apply (ex_slot E2).
    + by apply data_slot_ok.
    + unfold faddr in *. congruence.
Qed.

Lemma kept_step sb v ad v1 ad1 ad2 off tot m :
  extends sb v ad v1 ad1 -> kept v ad ad1 off tot ->
  (faddr v1 ad1 ((off + tot) / BSIZE) <> 0 -> ad2 = ad1) ->
  0 <= (off + tot) / BSIZE < MAXFILE -> 0 <= tot -> 0 < m -> kept v ad ad2 off (tot + m).
Proof.
  intros E K1 K2 Hbn Ht Hm H. rewrite <- K1 by (intros k Hk; apply H; lia). apply K2.
  assert (H0 : faddr v ad ((off + tot) / BSIZE) <> 0) by (apply H; lia).
  unfold faddr in *. by rewrite (ex_slot E) by (done || by apply data_slot_ok).
Qed.

Lemma path_data_slot bn : data_slot bn ∈ path bn.
Proof.
  unfold data_slot, path. destruct (bn <? 11); [set_solver|]. destruct (bn <? 139); set_solver.
Qed.

Section writei.
Context {S : Type} `{!BlockIO S} `{!BlockSpec S}.
Context (g : geom) (sb : superblock) (Hsb : sb_ok g sb).
Context (o : Z) (dur : Z -> bytes).
Context (ic : list inode) (pid : Z) (cwd : nat) (ip : nat) (i0 : inode).
Hypothesis Hip : (ip < length ic)%nat.
Hypothesis Hdev : i_dev i0 = ROOTDEV.
Context (L0 : list Z) (P : list slot).
Hypothesis HP : Forall slot_ok P.
Hypothesis Hbud : (length L0 + 2 * length P <= 25)%nat.
Hypothesis Ho : 1 <= o.

Local Abbreviation st b ad := (mkF b (<[ip := set_addrs ad i0]> ic) sb pid cwd).
Local Abbreviation minv := (minv g sb o dur L0 P).

Lemma wp_writei_loop b v ad L src off n fr (Q : Z -> fstate S -> Prop) :
  minv b v ad L -> 0 <= off -> 0 <= n -> off + n <= MAXFILE * BSIZE ->
  length src = Z.to_nat n -> Forall is_byte src ->
  (forall bn, off / BSIZE <= bn -> bn * BSIZE < off + n -> path bn ⊆ P) ->
  free_ge sb v (3 * Z.to_nat (blocks_left off (off + n)) + fr) ->
  (forall b' v' ad' L', minv b' v' ad' L' -> extends sb v ad v' ad' ->
     spliced v ad v' ad' off n src -> kept v ad ad' off n -> free_ge sb v' fr ->
     Q (off + n) (st b' ad')) ->
  wp (writei_loop ip src off n) (st b ad) Q.
Proof.
  intros Hinv Hoff Hn Hmax Hlen Hby Hpath Hfree HQ. unfold writei_loop.
  apply (wp_while_loop (fun k '(tot, c) s => exists b' v' ad' L', s = st b' ad' /\
    minv b' v' ad' L' /\ extends sb v ad v' ad' /\ spliced v ad v' ad' off tot src /\
    kept v ad ad' off tot /\ c = off + tot /\ 0 <= tot <= n /\ free_ge sb v' (3 * Z.to_nat (blocks_left c (off + n)) + fr) /\
    (Z.to_nat (blocks_left c (off + n)) + 1 <= k)%nat)).
  - exists b, v, ad, L. rewrite Z.add_0_r. split_and!; try done; try lia.
    + apply extends_refl; apply Hinv.
    + apply spliced_0.
    + by apply blocks_left_fuel.
  - intros [tot c] s (? & ? & ? & ? & H). lia.
  - intros k [tot c] s (b1 & v1 & ad1 & L1 & -> & Hi1 & E1 & Sp1 & K1 & -> & Ht & F1 & Hk).
    destruct (Z.ltb_spec tot n) as [Hlt|Hge].
    2: { wp_step. assert (tot = n) as -> by lia. eapply HQ; [done..|].
         by eapply free_ge_weaken; [exact F1|lia]. }
    pose proof (blocks_left_step off tot n Hoff) as [Hbl Hbl0]; [lia|].
    set (m := chunk n tot (off + tot)) in *. set (c := off + tot) in *.
    assert (Hcb : 0 <= c / BSIZE < MAXFILE).
    { split; [apply Z.div_pos; [lia|done]|apply Z.div_lt_upper_bound; [done|lia]]. }
    rewrite Hbl in F1, Hk. set (r := blocks_left (c + m) (off + n)) in *.
    replace (3 * Z.to_nat (r + 1) + fr)%nat
      with (Datatypes.S (Datatypes.S (Datatypes.S (3 * Z.to_nat r + fr)))) in F1 by lia.
    assert (HcP : path (c / BSIZE) ⊆ P).
    { apply Hpath; [apply Z.div_le_mono; [done|lia]|]. pose proof (block_split c). lia. }
    wp_step. apply wp_geti; [done|]. change (i_dev (set_addrs ad1 i0)) with (i_dev i0). rewrite Hdev.
    wp_step. eapply wp_bmap_keep; [done..|exact Hi1|done|exact F1|].
    intros b2 v2 ad2 L2 Hi2 G2 F2 Hne K2. set (addr := faddr v2 ad2 (c / BSIZE)) in *.
    assert (HL2 : (length L2 <= 25)%nat) by (by eapply minv_length).
    assert (Hok2 : forall e, is_block (v2 e)) by (intros e; eapply rep_ok; apply Hi2).
    destruct (data_block_ok g sb Hsb addr) as (Hal & Ha1 & Har).
    { by eapply write_addr; [apply Hi2|..]. }
    wp_step. eapply wp_io_bread; [done|apply Hi2|done| | |].
    { intros j. by rewrite lookup_empty. }
    { rewrite map_size_empty. unfold NBUFn. lia. }
    intros i b3 _ Hr3. wp_step. eapply wp_io_data; [exact Hr3|apply lookup_insert_eq|].
    pose proof (chunk_bounds n tot c) as Hm. fold m in Hm.
    eapply wp_io_log; [done|exact Hr3|apply lookup_insert_eq| |done|done|done| |].
    { split; [rewrite length_splice|apply Forall_splice]; try apply Hok2; [|by apply Forall_slice].
      rewrite length_slice by lia. destruct (Hok2 addr) as [-> _]. unfold BSIZEn.
      pose proof (block_split c). rewrite BSIZE_val in *. lia. }
    { change NBUF with 30. lia. }
    intros b4 Hr4. wp_step. eapply wp_io_brelse; [done|exact Hr4|apply lookup_insert_eq|].
    intros b5 Hr5. rewrite delete_insert_id in Hr5 by apply lookup_empty. wp_step.
    set (x := splice _ _ _) in Hr5.
    pose proof (write_extends g sb Hsb v2 ad2 (c / BSIZE) x (mi_wf _ _ _ _ _ _ _ _ _ _ Hi2)
      (mi_meta _ _ _ _ _ _ _ _ _ _ Hi2) Hcb Hne) as W. fold addr in W.
    exists b5, (vupd v2 addr x), ad2, (log_add addr L2). split_and!; [done| | | | | |lia|lia| |].
    + split; [exact Hr5|apply W|apply W|]. eapply (logged_in_add _ _ _ _ _ _ (data_slot (c / BSIZE))).
      * eapply logged_in_extends; [exact W|done|]. apply Hi2.
      * apply HcP, path_data_slot.
      * rewrite (ex_slot W); [exact Hne|by apply data_slot_ok|exact Hne].
      * left. rewrite (ex_slot W); [done|by apply data_slot_ok|exact Hne].
    + eapply extends_trans; [done|exact E1|]. eapply extends_trans; [done|apply G2|exact W].
    + eapply (spliced_step g sb v ad v1 ad1 v2 ad2); [done..|lia|lia|done|done|exact Hne].
    + eapply kept_step; [exact E1|exact K1|exact K2|done|lia|lia].
    + rewrite u32_small; [lia|]. rewrite MAXFILE_val, BSIZE_val in *. lia.
    + replace (u32 (c + m)) with (c + m).
      2: { symmetry. apply u32_small. rewrite MAXFILE_val, BSIZE_val in *. lia. }
      fold r. eapply free_ge_used; [|exact F2]. intros e He.
      eapply write_used; [apply Hi2|done|exact Hne|done].
    + replace (u32 (c + m)) with (c + m); [lia|].
      symmetry. apply u32_small. rewrite MAXFILE_val, BSIZE_val in *. lia.
Qed.
End writei.

(** * Inodes on disk *)

Lemma dinode_off_bound n : 0 <= n -> (dinode_off n + 64 <= BSIZEn)%nat.
Proof.
  intros H. unfold dinode_off, BSIZEn. change IPB with 8. change sizeof_dinode with 64.
  pose proof (Z.mod_pos_bound n 8). lia.
Qed.

Lemma put_dinode_ok d n dn :
  is_block d -> 0 <= n -> length (d_addrs dn) = 13%nat -> is_block (put_dinode d n dn).
Proof.
  intros [Hl Hb] Hn Ha. pose proof (dinode_off_bound n Hn). split.
  - unfold put_dinode. rewrite length_splice; [done|]. rewrite length_enc_dinode by done. lia.
  - apply Forall_splice; [done|apply enc_dinode_is_byte].
Qed.

Lemma get_put_dinode d n dn :
  is_block d -> 0 <= n -> dinode_ok dn -> get_dinode (put_dinode d n dn) n = dn.
Proof.
  intros [Hl _] Hn Hok. pose proof (dinode_off_bound n Hn). unfold get_dinode, put_dinode, splice.
  rewrite drop_app_length' by (rewrite length_take; lia). by apply dec_enc_dinode.
Qed.

Lemma dec32s_take k l : dec32s k l = dec32s k (take (4 * k) l).
Proof.
  revert l. induction k as [|k IH]; intros l; [done|]. cbn [dec32s].
  rewrite take_take, Nat.min_l by lia. f_equal.
  rewrite IH, (IH (drop 4 _)). f_equal. rewrite skipn_firstn_comm, take_take. f_equal. lia.
Qed.

Lemma slice_take l o k m : (o + k <= m)%nat -> slice (take m l) o k = slice l o k.
Proof. intros H. unfold slice. rewrite skipn_firstn_comm, take_take. f_equal. lia. Qed.

Lemma dec_dinode_take l : dec_dinode l = dec_dinode (take 64 l).
Proof.
  unfold dec_dinode, get16, get32. rewrite !slice_take by lia. f_equal.
  rewrite dec32s_take, (dec32s_take _ (drop 12 (take 64 l))). f_equal.
  rewrite skipn_firstn_comm, take_take. f_equal.
Qed.

Lemma get_put_dinode_ne d n n' dn :
  is_block d -> 0 <= n -> 0 <= n' -> length (d_addrs dn) = 13%nat -> n mod IPB <> n' mod IPB ->
  get_dinode (put_dinode d n dn) n' = get_dinode d n'.
Proof.
  intros [Hl _] Hn Hn' Ha Hne. pose proof (dinode_off_bound n Hn). pose proof (dinode_off_bound n' Hn').
  unfold get_dinode, put_dinode. rewrite dec_dinode_take, (dec_dinode_take (drop _ d)). f_equal.
  change (slice (splice d (dinode_off n) (enc_dinode dn)) (dinode_off n') 64 = slice d (dinode_off n') 64).
  apply slice_splice_other; rewrite length_enc_dinode by done; [lia|].
  unfold dinode_off in *. change IPB with 8 in *. change sizeof_dinode with 64 in *.
  pose proof (Z.mod_pos_bound n 8). pose proof (Z.mod_pos_bound n' 8). lia.
Qed.

(** The inode of number [n], as the disk has it. *)
Definition disk_inode (sb : superblock) (v : Z -> bytes) (n : Z) : dinode :=
  get_dinode (v (IBLOCK n sb)) n.

(** The cached inode agrees with the disk. *)
Definition synced (sb : superblock) (v : Z -> bytes) (i : inode) : Prop :=
  disk_inode sb v (i_inum i) = i_dinode i.

(** The disk with inode [n] stored. *)
Definition v_inode (sb : superblock) (v : Z -> bytes) (n : Z) (dn : dinode) : Z -> bytes :=
  vupd v (IBLOCK n sb) (put_dinode (v (IBLOCK n sb)) n dn).

Lemma disk_inode_same sb v n dn :
  is_block (v (IBLOCK n sb)) -> 0 <= n -> dinode_ok dn -> disk_inode sb (v_inode sb v n dn) n = dn.
Proof. intros. unfold disk_inode, v_inode. rewrite vupd_eq. by apply get_put_dinode. Qed.

Lemma disk_inode_other sb v n n' dn :
  is_block (v (IBLOCK n sb)) -> 0 <= n -> 0 <= n' -> length (d_addrs dn) = 13%nat -> n <> n' ->
  disk_inode sb (v_inode sb v n dn) n' = disk_inode sb v n'.
Proof.
  intros Hb Hn Hn' Ha Hne. unfold disk_inode, v_inode.
  destruct (decide (IBLOCK n' sb = IBLOCK n sb)) as [E|E]; [|by rewrite vupd_ne].
  rewrite E, vupd_eq. apply get_put_dinode_ne; try done. intros Hm. apply Hne.
  unfold IBLOCK in E. rewrite (Z.div_mod n IPB), (Z.div_mod n' IPB), Hm by done. f_equal. f_equal. lia.
Qed.

(** What lies before the free map is not part of any file. *)
Definition agree (sb : superblock) (v v' : Z -> bytes) : Prop :=
  forall c, sb_bmapstart sb <= c -> v' c = v c.

Section agree.
Context (g : geom) (sb : superblock) (Hsb : sb_ok g sb).
Context (v v' : Z -> bytes) (ad : list Z).
Hypothesis Hag : agree sb v v'.

Lemma agree_used c : 0 <= c < sb_size sb -> used sb v' c = used sb v c.
Proof. intros Hc. unfold used. rewrite Hag; [done|]. by apply BBLOCK_bounds. Qed.

Lemma agree_meta : meta_used sb v -> meta_used sb v'.
Proof. intros H c Hc. pose proof (sb_order _ _ Hsb). rewrite agree_used by lia. by apply H. Qed.

Hypothesis Hwf : blocks_wf sb v ad.

Lemma agree_slot t : slot_ok t -> slot_val v' ad t = slot_val v ad t.
Proof.
  induction t as [k|t p Ep IH] using slot_ind_parent; intros Ht; [done|].
  pose proof (parent_ok _ _ Ht Ep) as Hp.
  rewrite (slot_val_parent v' _ _ _ Ep), (slot_val_parent v _ _ _ Ep), IH by done.
  unfold entry. destruct (Z.eqb_spec (slot_val v ad p) 0) as [|E0]; [done|].
  rewrite Hag; [done|]. destruct (bw_range Hwf p Hp E0) as [? _]. pose proof (sb_order _ _ Hsb). lia.
Qed.

Lemma agree_wf : blocks_wf sb v' ad.
Proof.
  split; [apply Hwf| |].
  - intros t Ht. rewrite agree_slot by done. intros H0. destruct (bw_range Hwf t Ht H0) as [Hr Hu].
    split; [done|]. pose proof (sb_order _ _ Hsb). rewrite agree_used by lia. done.
  - intros t u Ht Hu. rewrite !agree_slot by done. by apply (bw_inj Hwf).
Qed.

Lemma agree_fblock bn : 0 <= bn < MAXFILE -> fblock v' ad bn = fblock v ad bn.
Proof.
  intros Hbn. unfold fblock, faddr. rewrite agree_slot by (by apply data_slot_ok).
  destruct (Z.eqb_spec (slot_val v ad (data_slot bn)) 0) as [|E0]; [done|]. apply Hag.
  destruct (bw_range Hwf _ (data_slot_ok bn Hbn) E0) as [? _]. pose proof (sb_order _ _ Hsb). lia.
Qed.

Lemma agree_fbyte i : 0 <= i < MAXFILE * BSIZE -> fbyte v' ad i = fbyte v ad i.
Proof.
  intros Hi. unfold fbyte. rewrite agree_fblock; [done|].
  split; [apply Z.div_pos; [lia|done]|apply Z.div_lt_upper_bound; [done|lia]].
Qed.
End agree.

Lemma agree_inode g sb v n dn :
  sb_ok g sb -> 0 <= n < sb_ninodes sb -> agree sb v (v_inode sb v n dn).
Proof.
  intros Hsb Hn c Hc. unfold v_inode. apply vupd_ne. pose proof (IBLOCK_bounds _ _ Hsb n Hn). lia.
Qed.

Lemma agree_spliced g sb v ad v1 v2 ad1 off n src :
  sb_ok g sb -> agree sb v1 v2 -> blocks_wf sb v1 ad1 -> 0 <= off -> off + n <= MAXFILE * BSIZE ->
  spliced v ad v1 ad1 off n src -> spliced v ad v2 ad1 off n src.
Proof.
  intros Hsb Hag Hwf Hoff Hmax (Sp1 & Sp2 & Sp3). split_and!.
  - intros k Hk. erewrite agree_fbyte by done. by apply Sp1.
  - intros k Hk. unfold faddr. erewrite agree_slot; [by apply Sp2|done..|].
    apply data_slot_ok. split; [apply Z.div_pos; [lia|done]|apply Z.div_lt_upper_bound; [done|lia]].
  - intros bn Hbn Hne. unfold faddr. erewrite agree_slot; [by apply Sp3|done..|by apply data_slot_ok].
Qed.

(** An inode of the disk, in use, in the cache. *)
Record inode_ok (sb : superblock) (i : inode) : Prop := {
  io_dev : i_dev i = ROOTDEV;
  io_inum : 0 <= i_inum i < sb_ninodes sb;
  io_fields : dinode_ok (i_dinode i)
}.

Lemma addrs_ok g sb v ad : sb_ok g sb -> blocks_wf sb v ad -> Forall is_u32 ad.
Proof.
  intros Hsb Hwf. apply Forall_lookup. intros k a Hk. pose proof (lookup_lt_Some _ _ _ Hk) as Hlt.
  assert (E : slot_val v ad (SAddr (Z.of_nat k)) = a).
  { cbn. by rewrite Nat2Z.id, nth0_lookup, Hk. }
  destruct (decide (a = 0)) as [->|Ha]; [done|].
  rewrite (bw_len Hwf) in Hlt. destruct (bw_range Hwf (SAddr (Z.of_nat k))) as [Hr _]; [cbn; lia|congruence|].
  rewrite E in Hr. pose proof (sb_order _ _ Hsb). pose proof (so_small Hsb). unfold is_u32. lia.
Qed.

Lemma inode_ok_addrs g sb v i ad :
  sb_ok g sb -> blocks_wf sb v ad -> inode_ok sb i -> inode_ok sb (set_addrs ad i).
Proof.
  intros Hsb Hwf []. split; try done. destruct io_fields0 as (? & ? & ? & ? & ? & ? & ?).
  split_and!; try done; [apply Hwf|by eapply addrs_ok].
Qed.

Lemma inode_ok_size sb i n : inode_ok sb i -> is_u32 n -> inode_ok sb (set_size n i).
Proof.
  intros [] Hn. split; try done. destruct io_fields0 as (? & ? & ? & ? & ? & ? & ?). by split_and!.
Qed.

Section iupdate.
Context {S : Type} `{!BlockIO S} `{!BlockSpec S}.
Context (g : geom) (sb : superblock) (Hsb : sb_ok g sb).
Context (o : Z) (dur : Z -> bytes).
Context (ic : list inode) (pid : Z) (cwd : nat).
Local Abbreviation st b := (mkF b ic sb pid cwd).
Local Abbreviation rep := (rep g o dur).

Lemma wp_iupdate b v L ip i (Q : unit -> fstate S -> Prop) :
  ic !! ip = Some i -> inode_ok sb i -> rep b v ∅ L -> 1 <= o -> (length L < 29)%nat ->
  (forall b', rep b' (v_inode sb v (i_inum i) (i_dinode i)) ∅ (log_add (IBLOCK (i_inum i) sb) L) ->
     Q tt (st b')) ->
  wp (iupdate ip) (st b) Q.
Proof.
  intros Hip [Hd Hn Hf] Hr Ho HL HQ. pose proof (sb_order _ _ Hsb) as Hord.
  pose proof (IBLOCK_bounds _ _ Hsb _ Hn) as HI.
  destruct (in_log_data g sb Hsb (IBLOCK (i_inum i) sb)) as [Hl H1]; [lia|].
  unfold iupdate. do 2 wp_step. cbn [f_sb]. wp_step. eapply wp_geti_here; [exact Hip|]. rewrite Hd.
  wp_step. eapply wp_io_bread; [done|exact Hr|lia| | |].
  { intros j. by rewrite lookup_empty. }
  { rewrite map_size_empty. unfold NBUFn. lia. }
  intros k b1 _ Hr1. wp_step. eapply wp_io_data; [exact Hr1|apply lookup_insert_eq|].
  eapply wp_io_log; [done|exact Hr1|apply lookup_insert_eq| |done..| |].
  { apply put_dinode_ok; [by eapply rep_ok|lia|apply Hf]. }
  { change NBUF with 30. lia. }
  intros b2 Hr2. eapply wp_io_brelse; [done|exact Hr2|apply lookup_insert_eq|].
  intros b3 Hr3. rewrite delete_insert_id in Hr3 by apply lookup_empty. by apply HQ.
Qed.
End iupdate.

(** * [writei] *)

(** The inode after [writei] of [n] bytes at [off]. *)
Definition written (i : inode) (ad : list Z) (off n : Z) : inode :=
  if (0 <? n) && (i_size i <? off + n) then set_size (off + n) (set_addrs ad i) else set_addrs ad i.

Lemma set_addrs_id i : set_addrs (i_addrs i) i = i.
Proof. by destruct i. Qed.

Section writei_file.
Context {S : Type} `{!BlockIO S} `{!BlockSpec S}.
Context (dev_write : Z -> option (nat -> bytes -> Z -> M (fstate S) Z)).
Context (g : geom) (sb : superblock) (Hsb : sb_ok g sb).
Context (o : Z) (dur : Z -> bytes).
Context (ic : list inode) (pid : Z) (cwd : nat) (ip : nat) (i : inode).
Hypothesis Hip : ic !! ip = Some i.
Hypothesis Hi : inode_ok sb i.
Hypothesis Hty : i_type i <> T_DEV /\ i_type i <> T_EXTENT.
Hypothesis Ho : 1 <= o.
Local Abbreviation st b ad := (mkF b (<[ip := set_addrs ad i]> ic) sb pid cwd).
Local Abbreviation rep := (rep g o dur).

Lemma wp_writei b v L P src off n fr (Q : Z -> fstate S -> Prop) :
  rep b v ∅ L -> blocks_wf sb v (i_addrs i) -> meta_used sb v ->
  0 <= off <= i_size i -> 0 <= n -> off + n <= MAXFILE * BSIZE ->
  length src = Z.to_nat n -> Forall is_byte src ->
  Forall slot_ok P -> (length L + 2 * length P <= 25)%nat ->
  (forall bn, off / BSIZE <= bn -> bn * BSIZE < off + n -> path bn ⊆ P) ->
  free_ge sb v (3 * Z.to_nat (blocks_left off (off + n)) + fr) ->
  (forall b' v' ad' L', let i' := written i ad' off n in
     rep b' v' ∅ L' -> blocks_wf sb v' ad' -> meta_used sb v' -> inode_ok sb i' ->
     (length L' <= length L + 2 * length P + 1)%nat ->
     spliced v (i_addrs i) v' ad' off n src -> kept v (i_addrs i) ad' off n -> free_ge sb v' fr ->
     (exists v1, (forall c, is_block (v1 c)) /\ extends sb v (i_addrs i) v1 ad' /\
        v' = if (0 <? n) && (i_size i <? off + n) then v_inode sb v1 (i_inum i) (i_dinode i') else v1) ->
     Q n (mkF b' (<[ip := i']> ic) sb pid cwd)) ->
  wp (writei dev_write ip src off n) (mkF b ic sb pid cwd) Q.
Proof.
  intros Hr Hwf Hm Hoff Hn Hmax Hlen Hby HP Hbud Hpath Hfree HQ.
  pose proof (lookup_lt_Some _ _ _ Hip) as Hlt. pose proof Hmax as Hmax'.
  rewrite MAXFILE_val, BSIZE_val in Hmax'.
  destruct (io_fields _ _ Hi) as (_ & _ & _ & _ & Hsz & _). cbn in Hsz. unfold is_u32 in Hsz.
  unfold writei. wp_step. eapply wp_geti_here; [exact Hip|].
  rewrite (proj2 (Z.eqb_neq (i_type i) T_DEV)) by apply Hty. rewrite u32_small by lia.
  rewrite MAXFILE_val, BSIZE_val. zif. zif.
  rewrite (proj2 (Z.eqb_neq (i_type i) T_EXTENT)) by apply Hty.
  assert (Es : s32 n = n) by (apply s32_small; lia). rewrite Es.
  assert (Est : mkF b ic sb pid cwd = st b (i_addrs i)).
  { by rewrite set_addrs_id, list_insert_id. }
  rewrite Est. wp_step.
  eapply (wp_writei_loop g sb Hsb o dur ic pid cwd ip i Hlt (io_dev _ _ Hi) L P); try done; try lia.
  { split; [done..|]. intros c Hc. by left. }
  intros b1 v1 ad1 L1 Hi1 E1 Sp Hkp Hfr1. wp_step. apply wp_geti; [done|].
  change (i_size (set_addrs ad1 i)) with (i_size i). pose proof Hi1 as [Hr1 Hwf1 Hm1 Hl1].
  pose proof (logged_in_length _ _ _ _ _ _ (rep_nodup _ _ _ _ _ _ _ Hr1) Hl1) as HL1.
  pose proof (inode_ok_addrs _ _ _ _ _ Hsb Hwf1 Hi) as Hok1. unfold written in HQ.
  assert (Hblk : forall c, is_block (v1 c)) by (intros c; by eapply rep_ok).
  destruct ((0 <? n) && (i_size i <? off + n)) eqn:Eg.
  2: { wp_step. wp_step. wp_step. eapply HQ; try done; [lia|]. by exists v1. }
  bool_to_prop. assert (Hok2 : inode_ok sb (set_size (off + n) (set_addrs ad1 i))).
  { apply inode_ok_size; [done|]. unfold is_u32. lia. }
  wp_step. wp_step. unfold updi. apply (wp_intro _ _ tt (mkF b1 (<[ip := set_size (off + n) (set_addrs ad1 i)]> ic) sb pid cwd)).
  { unfold updi. cbn. rewrite list_lookup_insert_eq by done. unfold set_icache. cbn.
    by rewrite alter_insert_here. }
  eapply wp_iupdate; [done|by apply list_lookup_insert_eq|done|exact Hr1|done|lia|].
  intros b2 Hr2. wp_step.
  pose proof (agree_inode g sb v1 (i_inum i) (i_dinode (set_size (off + n) (set_addrs ad1 i))) Hsb (io_inum _ _ Hi)) as Hag.
  eapply HQ; [exact Hr2|by eapply agree_wf|by eapply agree_meta|done| | |done| |by exists v1].
  - pose proof (length_log_add (IBLOCK (i_inum i) sb) L1). cbn. lia.
  - eapply agree_spliced; try done; lia.
  - eapply free_ge_used; [|exact Hfr1]. intros e He. by eapply agree_used.
Qed.
End writei_file.

(** * [readi] *)

Lemma length_fbytes v ad off n : length (fbytes v ad off n) = Z.to_nat n.
Proof. unfold fbytes. by rewrite length_fmap, length_seqZ. Qed.

Lemma lookup_fbytes v ad off n k :
  (k < Z.to_nat n)%nat -> fbytes v ad off n !! k = Some (fbyte v ad (off + Z.of_nat k)).
Proof.
  intros Hk. unfold fbytes. rewrite list_lookup_fmap, lookup_seqZ_lt; [done|lia].
Qed.

Lemma fbytes_app v ad off n m :
  0 <= n -> 0 <= m -> fbytes v ad off (n + m) = fbytes v ad off n ++ fbytes v ad (off + n) m.
Proof. intros. unfold fbytes. by rewrite seqZ_app, fmap_app by lia. Qed.

(** The bytes of one block. *)
Lemma slice_fbytes v ad c m :
  (forall e, is_block (v e)) -> 0 <= c -> 0 <= m <= BSIZE - c mod BSIZE -> faddr v ad (c / BSIZE) <> 0 ->
  slice (v (faddr v ad (c / BSIZE))) (Z.to_nat (c mod BSIZE)) (Z.to_nat m) = fbytes v ad c m.
Proof.
  intros Hok Hc Hm Hne. pose proof (block_split c) as [Hc1 Hc2].
  destruct (Hok (faddr v ad (c / BSIZE))) as [Hl _]. unfold BSIZEn in Hl.
  apply list_eq. intros k. rewrite lookup_slice. case_decide as Hk.
  - rewrite lookup_fbytes by done.
    destruct (block_of (c + Z.of_nat k) (c / BSIZE) (c mod BSIZE + Z.of_nat k)) as [E1 E2]; [lia|lia|].
    unfold fbyte. rewrite E1, E2. unfold fblock. rewrite (proj2 (Z.eqb_neq _ _)) by done.
    rewrite BSIZE_val in *. rewrite nth0_lookup_lt by lia. f_equal. f_equal. lia.
  - symmetry. apply lookup_ge_None. rewrite length_fbytes. lia.
Qed.

Section readi.
Context {S : Type} `{!BlockIO S} `{!BlockSpec S}.
Context (dev_read : Z -> option (nat -> Z -> M (fstate S) (Z * bytes))).
Context (g : geom) (sb : superblock) (Hsb : sb_ok g sb).
Context (o : Z) (dur : Z -> bytes).
Context (ic : list inode) (pid : Z) (cwd : nat) (ip : nat) (i : inode).
Hypothesis Hip : ic !! ip = Some i.
Hypothesis Hdev : i_dev i = ROOTDEV.
Context (v : Z -> bytes) (L : list Z).
Hypothesis Hwf : blocks_wf sb v (i_addrs i).
Hypothesis HL : (length L < NBUFn)%nat.
Local Abbreviation st b := (mkF b ic sb pid cwd).
Local Abbreviation rep := (rep g o dur).

Lemma wp_readi_loop b off n (Q : bytes -> fstate S -> Prop) :
  rep b v ∅ L -> 0 <= off -> 0 <= n -> off + n <= MAXFILE * BSIZE ->
  (forall k, off <= k < off + n -> faddr v (i_addrs i) (k / BSIZE) <> 0) ->
  (forall b', rep b' v ∅ L -> Q (fbytes v (i_addrs i) off n) (st b')) ->
  wp (readi_loop ip off n) (st b) Q.
Proof.
  intros Hr Hoff Hn Hmax Hmap HQ. unfold readi_loop.
  apply (wp_while_loop (fun k '(tot, c, dst) s => exists b', s = st b' /\ rep b' v ∅ L /\
    c = off + tot /\ 0 <= tot <= n /\ dst = fbytes v (i_addrs i) off tot /\
    (Z.to_nat (blocks_left c (off + n)) + 1 <= k)%nat)).
  - exists b. rewrite Z.add_0_r. split_and!; try done; try lia. by apply blocks_left_fuel.
  - intros [[tot c] dst] s (? & ? & H). lia.
  - intros k [[tot c] dst] s (b1 & -> & Hr1 & -> & Ht & -> & Hk).
    destruct (Z.ltb_spec tot n) as [Hlt|Hge].
    2: { wp_step. assert (tot = n) as -> by lia. by apply HQ. }
    pose proof (blocks_left_step off tot n Hoff) as [Hbl Hbl0]; [lia|].
    set (m := chunk n tot (off + tot)) in *. set (c := off + tot) in *.
    destruct (chunk_bounds n tot c) as [Hm1 Hm2]; [done|]. fold m in Hm1, Hm2.
    assert (Hcb : 0 <= c / BSIZE < MAXFILE).
    { split; [apply Z.div_pos; [lia|done]|apply Z.div_lt_upper_bound; [done|lia]]. }
    assert (Hne : faddr v (i_addrs i) (c / BSIZE) <> 0) by (apply Hmap; lia).
    wp_step. eapply wp_geti_here; [exact Hip|]. rewrite Hdev. wp_step.
    eapply wp_bmap_get; [done|exact Hip|done|done|done|done|exact Hne|exact Hr1|].
    intros b2 Hr2. wp_step. eapply wp_io_bread; [done|exact Hr2| | | |].
    { destruct (data_block_ok g sb Hsb (faddr v (i_addrs i) (c / BSIZE))) as (_ & _ & ?); [|done].
      by eapply write_addr. }
    { intros j. by rewrite lookup_empty. }
    { by rewrite map_size_empty. }
    intros j b3 _ Hr3. wp_step. eapply wp_io_data; [exact Hr3|apply lookup_insert_eq|].
    wp_step. eapply wp_io_brelse; [done|exact Hr3|apply lookup_insert_eq|].
    intros b4 Hr4. rewrite delete_insert_id in Hr4 by apply lookup_empty. wp_step.
    assert (Eu : u32 (c + m) = c + m).
    { apply u32_small. rewrite MAXFILE_val, BSIZE_val in *. lia. }
    exists b4. rewrite Eu. split_and!; [done|done|lia|lia|lia| |lia].
    rewrite fbytes_app by lia. f_equal. apply (slice_fbytes v (i_addrs i) c m); [|lia|lia|done].
    intros e. by eapply rep_ok.
Qed.

(** The number of bytes [readi] returns. *)
Definition read_len (i : inode) (off n : Z) : Z := if i_size i <? off + n then i_size i - off else n.

(** Reading a file without holes in the range. *)
Lemma wp_readi b off n (Q : Z * bytes -> fstate S -> Prop) :
  i_type i <> T_DEV /\ i_type i <> T_EXTENT -> rep b v ∅ L ->
  0 <= off <= i_size i -> 0 <= n -> i_size i <= MAXFILE * BSIZE -> off + n < 2 ^ 32 ->
  (forall k, off <= k < off + read_len i off n -> faddr v (i_addrs i) (k / BSIZE) <> 0) ->
  (forall b', rep b' v ∅ L -> Q (read_len i off n, fbytes v (i_addrs i) off (read_len i off n)) (st b')) ->
  wp (readi dev_read ip off n) (st b) Q.
Proof.
  intros Hty Hr Hoff Hn Hsz Hwrap Hmap HQ. unfold readi. wp_step. eapply wp_geti_here; [exact Hip|].
  rewrite (proj2 (Z.eqb_neq (i_type i) T_DEV)) by apply Hty.
  rewrite (proj2 (Z.eqb_neq (i_type i) T_EXTENT)) by apply Hty.
  rewrite u32_small by lia. zif. fold (read_len i off n).
  assert (Hrl : 0 <= read_len i off n /\ off + read_len i off n <= i_size i).
  { unfold read_len. destruct (Z.ltb_spec (i_size i) (off + n)); lia. }
  wp_step. apply wp_readi_loop; [done|lia|lia|lia|done|]. intros b' Hr'. wp_step.
  rewrite s32_small; [by apply HQ|]. rewrite MAXFILE_val, BSIZE_val in *. lia.
Qed.
End readi.

(** * The contents of a file, read and written *)

Section file.
Context {S : Type} `{!BlockIO S} `{!BlockSpec S}.
Context (dev_read : Z -> option (nat -> Z -> M (fstate S) (Z * bytes))).
Context (dev_write : Z -> option (nat -> bytes -> Z -> M (fstate S) Z)).

(** An ordinary file or directory [i] in entry [ip] of the inode cache, over a
    consistent disk with contents [v], in [o] open operations that logged the
    blocks [L]; no buffer is held. *)
Record file_state (g : geom) (o : Z) (dur : Z -> bytes) (s : fstate S) (v : Z -> bytes)
    (L : list Z) (ip : nat) (i : inode) : Prop := {
  fl_sb : sb_ok g (f_sb s);
  fl_rep : rep g o dur (f_blk s) v ∅ L;
  fl_inode : f_icache s !! ip = Some i;
  fl_ok : inode_ok (f_sb s) i;
  fl_type : i_type i <> T_DEV /\ i_type i <> T_EXTENT;
  fl_wf : blocks_wf (f_sb s) v (i_addrs i);
  fl_meta : meta_used (f_sb s) v
}.

(** The log has room for a write at [off] of [n] bytes, and the disk has the
    blocks and [fr] more. *)
Definition write_fits (fr : nat) (sb : superblock) (v : Z -> bytes) (L : list Z) (off n : Z) : Prop :=
  free_ge sb v (3 * Z.to_nat (blocks_left off (off + n)) + fr) /\
  exists P, Forall slot_ok P /\ (length L + 2 * length P <= 25)%nat /\
    forall bn, off / BSIZE <= bn -> bn * BSIZE < off + n -> path bn ⊆ P.

(** What a write to the file of inode [n] leaves alone: the blocks of others and
    their inodes.  The blocks the file gains were free. *)
Record others_same (sb : superblock) (n : Z) (v : Z -> bytes) (ad : list Z)
    (v' : Z -> bytes) (ad' : list Z) : Prop := {
  os_blocks : forall c, datastart sb <= c < sb_size sb -> used sb v c = true ->
    (forall t, slot_ok t -> slot_val v ad t <> c) -> v' c = v c;
  os_used : forall c, 0 <= c < sb_size sb -> used sb v c = true -> used sb v' c = true;
  os_inodes : forall m, 0 <= m < sb_ninodes sb -> m <> n -> disk_inode sb v' m = disk_inode sb v m;
  os_new : forall t, slot_ok t -> slot_val v' ad' t <> 0 ->
    slot_val v' ad' t = slot_val v ad t \/ used sb v (slot_val v' ad' t) = false
}.

Lemma extends_others g sb n v ad v1 ad1 :
  sb_ok g sb -> extends sb v ad v1 ad1 -> others_same sb n v ad v1 ad1.
Proof.
  intros Hsb E. split.
  - intros c Hc Hu Hno. apply (ex_frame E). by right.
  - apply (ex_used E).
  - intros m Hm _. unfold disk_inode. rewrite (ex_frame E); [done|].
    pose proof (IBLOCK_bounds _ _ Hsb m Hm). pose proof (sb_order _ _ Hsb). left. lia.
  - intros t Ht Hne. destruct (decide (slot_val v ad t = 0)) as [E0|E0].
    + right. by apply (ex_new E).
    + left. by apply (ex_slot E).
Qed.

Lemma inode_others g sb v v1 ad ad1 n dn :
  sb_ok g sb -> (forall c, is_block (v1 c)) -> 0 <= n < sb_ninodes sb ->
  length (d_addrs dn) = 13%nat -> blocks_wf sb v1 ad1 -> others_same sb n v ad v1 ad1 ->
  others_same sb n v ad (v_inode sb v1 n dn) ad1.
Proof.
  intros Hsb Hok Hn Hl Hwf [H1 H2 H3 H4].
  pose proof (agree_inode g sb v1 n dn Hsb Hn) as Hag. pose proof (sb_order _ _ Hsb).
  split.
  - intros c Hc Hu Hno. rewrite Hag by lia. by apply H1.
  - intros c Hc Hu. erewrite agree_used by done. by apply H2.
  - intros m Hm Hne. rewrite disk_inode_other by (done || lia || apply Hok). by apply H3.
  - intros t Ht. erewrite agree_slot by done. by apply H4.
Qed.

Lemma others_refl sb n v ad : others_same sb n v ad v ad.
Proof. split; try done. intros. by left. Qed.

Lemma others_trans g sb n v1 ad1 v2 ad2 v3 ad3 :
  sb_ok g sb -> blocks_wf sb v3 ad3 ->
  others_same sb n v1 ad1 v2 ad2 -> others_same sb n v2 ad2 v3 ad3 -> others_same sb n v1 ad1 v3 ad3.
Proof.
  intros Hsb Hwf A B. pose proof (sb_order _ _ Hsb) as Hord. split.
  - intros c Hc Hu Hno. rewrite (os_blocks _ _ _ _ _ _ B); [by apply A|done|apply A; [lia|done]|].
    intros t Ht E. destruct (os_new _ _ _ _ _ _ A t Ht) as [E'|E']; [lia| |congruence].
    apply (Hno t Ht). congruence.
  - intros c Hc Hu. by apply B, A.
  - intros m Hm Hne. rewrite (os_inodes _ _ _ _ _ _ B) by done. by apply A.
  - intros t Ht H0. destruct (bw_range Hwf t Ht H0) as [Hr _].
    destruct (os_new _ _ _ _ _ _ B t Ht H0) as [E|E].
    + rewrite E in *. by apply A.
    + right. destruct (used sb v1 _) eqn:Eu; [|done]. apply (os_used _ _ _ _ _ _ A) in Eu; [congruence|lia].
Qed.

Lemma written_size i ad off n : 0 <= off <= i_size i -> 0 <= n -> i_size (written i ad off n) = Z.max (i_size i) (off + n).
Proof.
  intros Hoff Hn. unfold written. destruct (Z.ltb_spec 0 n), (Z.ltb_spec (i_size i) (off + n)); cbn; lia.
Qed.

Lemma written_addrs i ad off n : i_addrs (written i ad off n) = ad.
Proof. unfold written. by destruct (_ && _). Qed.

(** The file has every block below its size. *)
Definition filled (v : Z -> bytes) (i : inode) : Prop :=
  i_size i <= MAXFILE * BSIZE /\ forall k, 0 <= k < i_size i -> faddr v (i_addrs i) (k / BSIZE) <> 0.

(** [writei] stores the inode only when the file grows, so the inode on disk
    stays up to date for a file without holes. *)
Definition stays_synced (sb : superblock) (v : Z -> bytes) (i : inode) (v' : Z -> bytes) (i' : inode)
  : Prop :=
  synced sb v i -> filled v i -> synced sb v' i' /\ filled v' i'.

Lemma written_filled v i v' ad' off n src :
  0 <= off <= i_size i -> 0 <= n -> off + n <= MAXFILE * BSIZE ->
  spliced v (i_addrs i) v' ad' off n src -> filled v i -> filled v' (written i ad' off n).
Proof.
  intros Hoff Hn Hmax (_ & Sp2 & Sp3) [Hsz Hf]. unfold filled.
  rewrite written_size, written_addrs by done. split; [lia|]. intros k Hk. destruct (decide (off <= k < off + n)); [by apply Sp2|].
  rewrite Sp3; [apply Hf; lia| |apply Hf; lia].
  split; [apply Z.div_pos; [lia|done]|apply Z.div_lt_upper_bound; [done|lia]].
Qed.

(** The inode on disk after [writei]. *)
Lemma written_synced g sb v i v1 ad' off n (i' := written i ad' off n) :
  sb_ok g sb -> inode_ok sb i -> inode_ok sb i' -> (forall c, is_block (v1 c)) ->
  extends sb v (i_addrs i) v1 ad' -> kept v (i_addrs i) ad' off n ->
  0 <= off -> filled v i -> synced sb v i ->
  synced sb (if (0 <? n) && (i_size i <? off + n) then v_inode sb v1 (i_inum i) (i_dinode i') else v1) i'.
Proof.
  intros Hsb Hok Hok' Hblk E K Hoff [_ Hf] Hs. pose proof (io_inum _ _ Hok) as Hn.
  unfold synced. destruct ((0 <? n) && (i_size i <? off + n)) eqn:Eg.
  - replace (i_inum i') with (i_inum i) by (unfold i', written; by rewrite Eg).
    apply disk_inode_same; [apply Hblk|lia|apply Hok'].
  - unfold i', written. rewrite Eg, K.
    2: { intros k Hk. apply Hf. destruct (Z.ltb_spec 0 n), (Z.ltb_spec (i_size i) (off + n)); try done; lia. }
    rewrite set_addrs_id, <- Hs. unfold disk_inode. rewrite (ex_frame E); [done|].
    pose proof (IBLOCK_bounds _ _ Hsb _ Hn). pose proof (sb_order _ _ Hsb). left. lia.
Qed.

Lemma wp_writei_file g o dur s v L ip i src off n fr (Q : Z -> fstate S -> Prop) :
  file_state g o dur s v L ip i -> write_fits fr (f_sb s) v L off n -> 1 <= o ->
  0 <= off <= i_size i -> off + n <= MAXFILE * BSIZE ->
  n = Z.of_nat (length src) -> Forall is_byte src ->
  (forall b' v' ad' L', let i' := written i ad' off n in
     let s' := mkF b' (<[ip := i']> (f_icache s)) (f_sb s) (f_pid s) (f_cwd s) in
     file_state g o dur s' v' L' ip i' -> others_same (f_sb s) (i_inum i) v (i_addrs i) v' ad' ->
     spliced v (i_addrs i) v' ad' off n src -> (length L' <= 26)%nat ->
     free_ge (f_sb s) v' fr -> stays_synced (f_sb s) v i v' i' -> Q n s') ->
  wp (writei dev_write ip src off n) s Q.
Proof.
  intros [Hsb Hr Hip Hok Hty Hwf Hm] (Hfr & P & HP & Hbud & Hpath) Ho Hoff Hmax Hn Hby HQ.
  pose proof (lookup_lt_Some _ _ _ Hip) as Hlt. destruct s as [b ic sb pid cwd]. cbn in *.
  eapply (wp_writei dev_write g sb Hsb o dur ic pid cwd ip i Hip Hok Hty Ho b v L P);
    try done; try lia.
  intros b' v' ad' L' i' Hr' Hwf' Hm' Hok' HL' Sp Hkp Hfr' (v1 & Hblk & E1 & Ev').
  assert (Hi' : i_type i' = i_type i /\ i_addrs i' = ad').
  { unfold i', written. by destruct (_ && _). }
  assert (Hoth : others_same sb (i_inum i) v (i_addrs i) v' ad').
  { pose proof (extends_others g sb (i_inum i) v (i_addrs i) v1 ad' Hsb E1) as H1. rewrite Ev'.
    destruct (_ && _); [|done]. eapply inode_others; try done; [apply Hok|apply Hok'|apply E1]. }
  assert (Hfs : file_state g o dur (mkF b' (<[ip:=i']> ic) sb pid cwd) v' L' ip i').
  { destruct Hi' as [E2 E3]. clearbody i'. split; cbn; try done.
    - by apply list_lookup_insert_eq.
    - by rewrite E2.
    - by rewrite E3. }
  apply (HQ b' v' ad' L' Hfs Hoth Sp); [lia|exact Hfr'|]. intros Hs Hf. split.
  - rewrite Ev'. by eapply written_synced; [..|apply Hoff|exact Hf|].
  - eapply written_filled; [done|lia|done|exact Sp|done].
Qed.

(** Reading leaves everything but the cache of blocks. *)
Lemma wp_readi_file g o dur s v L ip i off n (Q : Z * bytes -> fstate S -> Prop) :
  file_state g o dur s v L ip i -> (length L < NBUFn)%nat ->
  0 <= off <= i_size i -> 0 <= n -> i_size i <= MAXFILE * BSIZE -> off + n < 2 ^ 32 ->
  (forall k, off <= k < off + read_len i off n -> faddr v (i_addrs i) (k / BSIZE) <> 0) ->
  (forall b', let s' := mkF b' (f_icache s) (f_sb s) (f_pid s) (f_cwd s) in
     file_state g o dur s' v L ip i ->
     Q (read_len i off n, fbytes v (i_addrs i) off (read_len i off n)) s') ->
  wp (readi dev_read ip off n) s Q.
Proof.
  intros [Hsb Hr Hip Hok Hty Hwf Hm] HL Hoff Hn Hsz Hwrap Hmap HQ.
  destruct s as [b ic sb pid cwd]. cbn in *.
  eapply (wp_readi dev_read g sb Hsb o dur ic pid cwd ip i Hip (io_dev _ _ Hok) v L Hwf HL b);
    try done.
  intros b' Hr'. apply HQ. by split.
Qed.
End file.

Lemma fbytes_spliced v ad v' ad' off n src :
  spliced v ad v' ad' off n src -> 0 <= off -> off + n <= MAXFILE * BSIZE ->
  n = Z.of_nat (length src) -> fbytes v' ad' off n = src.
Proof.
  intros (Sp & _) Hoff Hmax Hn. apply list_eq. intros k.
  destruct (decide (k < length src)%nat) as [Hk|Hk].
  - rewrite lookup_fbytes by lia. rewrite Sp by lia. rewrite decide_True by lia.
    rewrite nth0_lookup_lt by done. f_equal. f_equal. lia.
  - rewrite !lookup_ge_None_2; [done|lia|]. rewrite length_fbytes. lia.
Qed.

(** C3: [writei] splices.  In an open transaction with room for it, writing
    [n] bytes at [off] of an ordinary file returns [n]; afterwards byte [k] of
    the file is the written one for [off <= k < off + n] and the old one
    elsewhere, the size is [max size (off + n)], the file's block map is still
    well formed, and the blocks and inodes of all other files are untouched. *)
Theorem writei_correct {S} `{!BlockIO S} `{!BlockSpec S}
    (dev_write : Z -> option (nat -> bytes -> Z -> M (fstate S) Z))
    g o dur (s : fstate S) v L ip i src off n :
  file_state g o dur s v L ip i -> write_fits 0 (f_sb s) v L off n -> 1 <= o ->
  0 <= off <= i_size i -> off + n <= MAXFILE * BSIZE ->
  n = Z.of_nat (length src) -> Forall is_byte src ->
  exists s' v' L' i', writei dev_write ip src off n s = Ok n s' /\
    file_state g o dur s' v' L' ip i' /\ i_size i' = Z.max (i_size i) (off + n) /\
    (forall k, 0 <= k < MAXFILE * BSIZE ->
       fbyte v' (i_addrs i') k = if decide (off <= k < off + n)
         then nth0 src (Z.to_nat (k - off)) else fbyte v (i_addrs i) k) /\
    others_same (f_sb s) (i_inum i) v (i_addrs i) v' (i_addrs i').
Proof.
  intros Hf Hfits Ho Hoff Hmax Hn Hby.
  assert (Hwp : wp (writei dev_write ip src off n) s (fun r s' => r = n /\
    exists v' L' i', file_state g o dur s' v' L' ip i' /\ i_size i' = Z.max (i_size i) (off + n) /\
      (forall k, 0 <= k < MAXFILE * BSIZE ->
         fbyte v' (i_addrs i') k = if decide (off <= k < off + n)
           then nth0 src (Z.to_nat (k - off)) else fbyte v (i_addrs i) k) /\
      others_same (f_sb s) (i_inum i) v (i_addrs i) v' (i_addrs i'))).
  { eapply wp_writei_file; try done. intros b' v' ad' L' i' s' Hf' Hoth (Sp & _) _ _ _.
    split; [done|]. exists v', L', i'. split_and!; try done.
    - apply written_size; [done|lia].
    - unfold i'. rewrite written_addrs. exact Sp.
    - unfold i'. by rewrite written_addrs. }
  apply wp_inv in Hwp as (r & s' & E & -> & v' & L' & i' & H). by exists s', v', L', i'.
Qed.

(** C4: write then read.  Reading the range just written returns exactly the
    bytes written. *)
Theorem writei_readi {S} `{!BlockIO S} `{!BlockSpec S}
    (dev_read : Z -> option (nat -> Z -> M (fstate S) (Z * bytes)))
    (dev_write : Z -> option (nat -> bytes -> Z -> M (fstate S) Z))
    g o dur (s : fstate S) v L ip i src off n :
  file_state g o dur s v L ip i -> write_fits 0 (f_sb s) v L off n -> 1 <= o ->
  0 <= off <= i_size i -> i_size i <= MAXFILE * BSIZE -> off + n <= MAXFILE * BSIZE ->
  n = Z.of_nat (length src) -> Forall is_byte src ->
  exists s', (let* w := writei dev_write ip src off n in readi dev_read ip off n) s =
             Ok (n, src) s'.
Proof.
  intros Hf Hfits Ho Hoff Hsz Hmax Hn Hby.
  assert (Hwp : wp (let* w := writei dev_write ip src off n in readi dev_read ip off n) s
                  (fun r _ => r = (n, src))).
  { wp_step. eapply wp_writei_file; try done. intros b' v' ad' L' i' s' Hf' _ Sp HL' _ _.
    pose proof (written_size i ad' off n Hoff) as Hs'. fold i' in Hs'.
    assert (Hrl : read_len i' off n = n).
    { unfold read_len. rewrite Hs' by lia. destruct (Z.ltb_spec (Z.max (i_size i) (off + n)) (off + n)); lia. }
    eapply wp_readi_file; [exact Hf'| |lia|lia|lia| | |].
    - unfold NBUFn. lia.
    - rewrite MAXFILE_val, BSIZE_val in *. lia.
    - rewrite Hrl. unfold i'. rewrite written_addrs. apply Sp.
    - intros b2 s2 _. rewrite Hrl. f_equal. unfold i'. rewrite written_addrs.
      eapply fbytes_spliced; [exact Sp|lia|done|done]. }
  apply wp_inv in Hwp as (r & s' & E & ->). by exists s'.
Qed.
