(* ===== verification/FsInode.v ===== *)
(** The inode cache of fs.c: [iget], [idup], [ilock], [iunlock], [iput],
    [ialloc] and [itrunc]. *)
From S2P Require Import Prelude Layout Locks Bio Log LogRep Fs FsBlock FsMap FsData.

(** * The cache *)

(** An entry in use ([ref > 0]) for inode [inum] of device [dev]. *)
Definition caches (dev inum : Z) (i : inode) : Prop :=
  0 < i_ref i /\ i_dev i = dev /\ i_inum i = inum.

(** No inode is cached twice. *)
Record icache_wf (l : list inode) : Prop := {
  iw_len : length l = Z.to_nat NINODE;
  iw_ref : forall k i, l !! k = Some i -> 0 <= i_ref i;
  iw_uniq : forall k1 k2 i1 i2 dev inum, l !! k1 = Some i1 -> l !! k2 = Some i2 ->
    caches dev inum i1 -> caches dev inum i2 -> k1 = k2
}.
Arguments iw_len {_} _.
Arguments iw_ref {_} _.
Arguments iw_uniq {_} _.

Definition cachesb (dev inum : Z) (i : inode) : bool :=
  (0 <? i_ref i) && (i_dev i =? dev) && (i_inum i =? inum).

Lemma cachesb_spec dev inum i : cachesb dev inum i = true <-> caches dev inum i.
Proof. unfold cachesb, caches. rewrite !andb_true_iff, Z.ltb_lt, !Z.eqb_eq. tauto. Qed.

(** What the loop of [iget] finds. *)
Lemma iget_scan_spec l dev inum k0 e :
  match iget_scan l k0 e dev inum with
  | inl k => exists i j, k = (k0 + j)%nat /\ l !! j = Some i /\ caches dev inum i
  | inr r => (forall j i, l !! j = Some i -> ~ caches dev inum i) /\
      match e with
      | Some _ => r = e
      | None => match r with
                | Some k => exists i j, k = (k0 + j)%nat /\ l !! j = Some i /\ i_ref i = 0 /\
                    forall j' i', (j' < j)%nat -> l !! j' = Some i' -> i_ref i' <> 0
                | None => forall j i, l !! j = Some i -> i_ref i <> 0
                end
      end
  end.
Proof.
  revert k0 e. induction l as [|x l IH]; intros k0 e; cbn [iget_scan].
  - split; [intros j i; by rewrite lookup_nil|]. destruct e; [done|]. intros j i. by rewrite lookup_nil.
  - fold (cachesb dev inum x). destruct (cachesb dev inum x) eqn:Ec.
    + exists x, 0%nat. rewrite cachesb_spec in Ec. split_and!; [lia|done|done].
    + assert (Hx : ~ caches dev inum x) by (rewrite <- cachesb_spec; congruence).
      specialize (IH (S k0) (match e with Some e => Some e | None => if i_ref x =? 0 then Some k0 else None end)).
      destruct (iget_scan l (S k0) _ dev inum) as [k|r].
      * destruct IH as (i & j & -> & Hj & Hc). exists i, (S j). split_and!; [lia|done|done].
      * destruct IH as [Hno Hr]. split; [intros [|j] i Hj; [by injection Hj as <-|by eapply Hno]|].
        destruct e as [e|]; [done|]. destruct (Z.eqb_spec (i_ref x) 0) as [E0|E0].
        -- subst r. exists x, 0%nat. split_and!; [lia|done|done|lia].
        -- destruct r as [k|].
           ++ destruct Hr as (i & j & -> & Hj & Hi & Hlow). exists i, (S j). split_and!; [lia|done|done|].
              intros [|j'] i' Hlt Hj'; [by injection Hj' as <-|]. eapply Hlow; [|exact Hj']. lia.
           ++ intros [|j] i Hj; [by injection Hj as <-|by eapply Hr].
Qed.

Lemma caches_set_ref dev inum r i :
  caches dev inum (set_ref r i) <-> 0 < r /\ i_dev i = dev /\ i_inum i = inum.
Proof. done. Qed.

(** Changing one entry keeps the cache well formed when no other entry caches
    the inode the entry caches afterwards. *)
Lemma icache_wf_insert l k i i' :
  icache_wf l -> l !! k = Some i -> 0 <= i_ref i' ->
  (forall j ij dev inum, j <> k -> l !! j = Some ij -> caches dev inum ij -> ~ caches dev inum i') ->
  icache_wf (<[k:=i']> l).
Proof.
  intros [Hl Hr Hu] Hk Hr' Hno. split.
  - by rewrite length_insert.
  - intros j ij. rewrite list_lookup_insert_Some. intros [(<- & <- & _)|[_ ?]]; eauto.
  - intros k1 k2 i1 i2 dev inum. rewrite !list_lookup_insert_Some.
    intros [(<- & <- & _)|[H1 E1]] [(<- & <- & _)|[H2 E2]] C1 C2; [done| | |by eapply Hu].
    + destruct (Hno k2 i2 dev inum); auto.
    + destruct (Hno k1 i1 dev inum); auto.
Qed.

Lemma icache_wf_same l k i i' :
  icache_wf l -> l !! k = Some i -> 0 <= i_ref i' -> i_dev i' = i_dev i -> i_inum i' = i_inum i ->
  (0 < i_ref i' -> 0 < i_ref i) -> icache_wf (<[k:=i']> l).
Proof.
  intros Hw Hk Hr' Hd Hn Hpos. eapply icache_wf_insert; [done|done|done|].
  intros j ij dev inum Hj Hij Hc (C1 & C2 & C3). apply Hj.
  eapply (iw_uniq Hw); [exact Hij|exact Hk|exact Hc|]. split_and!; [auto|congruence..].
Qed.

Section cache.
Context {S : Type} `{!BlockIO S}.
Implicit Types s : fstate S.

Lemma wp_updi s k i f (Q : unit -> fstate S -> Prop) :
  f_icache s !! k = Some i -> Q tt (set_icache (<[k := f i]> (f_icache s)) s) -> wp (updi k f) s Q.
Proof.
  intros Hk HQ. unfold wp, updi. by rewrite Hk, (alter_insert _ _ _ _ Hk).
Qed.

Lemma wp_geti_at s k i (Q : inode -> fstate S -> Prop) :
  f_icache s !! k = Some i -> Q i s -> wp (geti k) s Q.
Proof. intros Hk HQ. unfold wp, geti. by rewrite Hk. Qed.

(** The three outcomes of [iget]. *)
Inductive iget_result s (dev inum : Z) : outcome (fstate S) nat -> Prop :=
| IgetHit k i :
    f_icache s !! k = Some i -> caches dev inum i ->
    iget_result s dev inum (Ok k (set_icache (<[k := set_ref (i_ref i + 1) i]> (f_icache s)) s))
| IgetNew k i :
    (forall j ij, f_icache s !! j = Some ij -> ~ caches dev inum ij) ->
    f_icache s !! k = Some i -> i_ref i = 0 ->
    (forall j ij, (j < k)%nat -> f_icache s !! j = Some ij -> i_ref ij <> 0) ->
    iget_result s dev inum (Ok k (set_icache (<[k := set_ident dev inum 1 0 i]> (f_icache s)) s))
| IgetFull :
    (forall j ij, f_icache s !! j = Some ij -> ~ caches dev inum ij /\ i_ref ij <> 0) ->
    iget_result s dev inum (Panic "iget: no inodes").

Lemma iget_result_of s dev inum : iget_result s dev inum (iget dev inum s).
Proof.
  pose proof (iget_scan_spec (f_icache s) dev inum 0 None) as Hs.
  assert (E : iget dev inum s = match iget_scan (f_icache s) 0 None dev inum with
    | inl ip => (updi ip (fun i => set_ref (i_ref i + 1) i) ;; ret ip) s
    | inr None => Panic "iget: no inodes"
    | inr (Some empty) => (updi empty (set_ident dev inum 1 0) ;; ret empty) s
    end).
  { unfold iget, bind, gets. by destruct (iget_scan _ _ _ _ _) as [|[]]. }
  rewrite E. clear E. destruct (iget_scan (f_icache s) 0 None dev inum) as [k|[k|]].
  - destruct Hs as (i & j & -> & Hj & Hc). rewrite Nat.add_0_l.
    rewrite (wp_bind_eq _ _ s (Ok j (set_icache (<[j := set_ref (i_ref i + 1) i]> (f_icache s)) s))).
    + by apply IgetHit.
    + by eapply wp_updi.
  - destruct Hs as [Hno (i & j & -> & Hj & H0 & Hlow)]. rewrite Nat.add_0_l.
    rewrite (wp_bind_eq _ _ s (Ok j (set_icache (<[j := set_ident dev inum 1 0 i]> (f_icache s)) s))).
    + by apply IgetNew.
    + by eapply wp_updi.
  - destruct Hs as [Hno Hall]. apply IgetFull. intros j ij Hj. split; eauto.
Qed.

Lemma iget_result_wf s dev inum k s' :
  icache_wf (f_icache s) -> iget_result s dev inum (Ok k s') ->
  icache_wf (f_icache s') /\ exists i', f_icache s' !! k = Some i' /\ caches dev inum i'.
Proof.
  intros Hw Hres. inversion Hres as [k0 i Hk Hc|k0 i Hno Hk H0 Hlow|]; subst; cbn.
  - pose proof (lookup_lt_Some _ _ _ Hk) as Hlt. destruct Hc as (Hr & Hd & Hn). split.
    + eapply icache_wf_same; try done. cbn. lia.
    + eexists. split; [by apply list_lookup_insert_eq|]. split_and!; cbn; [lia|done|done].
  - pose proof (lookup_lt_Some _ _ _ Hk) as Hlt. split.
    + eapply icache_wf_insert; [done|done|cbn; lia|].
      intros j ij d m Hj Hij Hc (_ & C2 & C3). cbn in C2, C3. subst. by eapply Hno.
    + eexists. split; [by apply list_lookup_insert_eq|]. split_and!; cbn; [lia|done|done].
Qed.

(** [idup], [iput] of an inode that stays, and the sleep lock. *)
Definition holds (pid : Z) (i : inode) : Prop := i_lock i = mkSleeplock true pid.
Definition unlocked (i : inode) : Prop := sl_locked (i_lock i) = false.

Lemma wp_acquire_inode s k i (Q : unit -> fstate S -> Prop) :
  f_icache s !! k = Some i -> unlocked i ->
  Q tt (set_icache (<[k := set_ilock (mkSleeplock true (f_pid s)) i]> (f_icache s)) s) ->
  wp (acquire_inode k) s Q.
Proof.
  intros Hk Hu HQ. unfold acquire_inode. wp_step. eapply wp_geti_at; [exact Hk|]. do 2 wp_step.
  unfold acquiresleep. rewrite Hu. by eapply wp_updi.
Qed.

Lemma wp_release_inode s k i (Q : unit -> fstate S -> Prop) :
  f_icache s !! k = Some i ->
  Q tt (set_icache (<[k := set_ilock (mkSleeplock false 0) i]> (f_icache s)) s) ->
  wp (release_inode k) s Q.
Proof. intros Hk HQ. unfold release_inode. by eapply wp_updi. Qed.

Lemma set_icache_icache s l : f_icache (set_icache l s) = l.
Proof. done. Qed.

Lemma set_icache_twice s l1 l2 : set_icache l2 (set_icache l1 s) = set_icache l2 s.
Proof. done. Qed.

Lemma wp_iput_keep s k i (Q : unit -> fstate S -> Prop) :
  f_icache s !! k = Some i -> unlocked i -> i_valid i = 0 \/ i_nlink i <> 0 \/ i_ref i <> 1 ->
  Q tt (set_icache (<[k := set_ref (i_ref i - 1) (set_ilock (mkSleeplock false 0) i)]> (f_icache s)) s) ->
  wp (iput k) s Q.
Proof.
  intros Hk Hu Hkeep HQ. pose proof (lookup_lt_Some _ _ _ Hk) as Hlt.
  unfold iput. wp_step. eapply wp_acquire_inode; [exact Hk|done|].
  wp_step. eapply wp_geti_at; [by apply list_lookup_insert_eq|].
  cbn [i_valid i_nlink i_ref set_ilock]. wp_step.
  replace (negb (i_valid i =? 0) && (i_nlink i =? 0) && (i_ref i =? 1)) with false.
  2: { symmetry. rewrite !andb_false_iff, negb_false_iff, !Z.eqb_eq, !Z.eqb_neq. tauto. }
  wp_step. wp_step. eapply wp_release_inode; [by apply list_lookup_insert_eq|].
  eapply wp_updi; [apply list_lookup_insert_eq; cbn; by rewrite length_insert|].
  cbn. rewrite !set_icache_twice, !list_insert_insert_eq. done.
Qed.
End cache.

(** * Loading and storing an inode *)

Section load.
Context {S : Type} `{!BlockIO S} `{!BlockSpec S}.
Context (g : geom) (o : Z) (dur : Z -> bytes).
Implicit Types s : fstate S.

Lemma wp_ilock_valid s k i (Q : unit -> fstate S -> Prop) :
  f_icache s !! k = Some i -> unlocked i -> 1 <= i_ref i -> i_valid i <> 0 ->
  Q tt (set_icache (<[k := set_ilock (mkSleeplock true (f_pid s)) i]> (f_icache s)) s) ->
  wp (ilock (Some k)) s Q.
Proof.
  intros Hk Hu Hr Hv HQ. unfold ilock. wp_step. eapply wp_geti_at; [exact Hk|]. zif.
  wp_step. eapply wp_acquire_inode; [exact Hk|done|].
  rewrite (proj2 (Z.eqb_neq (i_valid i) 0)) by done. by wp_step.
Qed.

(** The entry after [ilock] read it from disk. *)
Definition loaded (pid : Z) (dn : dinode) (i : inode) : inode :=
  set_valid 1 (set_dinode dn (set_ilock (mkSleeplock true pid) i)).

Lemma wp_ilock_load s v L k i (Q : unit -> fstate S -> Prop) :
  sb_ok g (f_sb s) -> rep g o dur (f_blk s) v ∅ L -> (length L < NBUFn)%nat ->
  f_icache s !! k = Some i -> unlocked i -> 1 <= i_ref i -> i_valid i = 0 ->
  i_dev i = ROOTDEV -> 0 <= i_inum i < sb_ninodes (f_sb s) ->
  d_type (disk_inode (f_sb s) v (i_inum i)) <> 0 ->
  (forall b', rep g o dur b' v ∅ L ->
     Q tt (mkF b' (<[k := loaded (f_pid s) (disk_inode (f_sb s) v (i_inum i)) i]> (f_icache s))
             (f_sb s) (f_pid s) (f_cwd s))) ->
  wp (ilock (Some k)) s Q.
Proof.
  intros Hsb Hr HL Hk Hu Href Hv Hd Hn Hty HQ. pose proof (sb_order _ _ Hsb) as Hord.
  pose proof (IBLOCK_bounds _ _ Hsb _ Hn) as HI. pose proof (lookup_lt_Some _ _ _ Hk) as Hlt.
  destruct s as [b ic sb pid cwd]. cbn in *.
  unfold ilock. wp_step. eapply wp_geti_at; [exact Hk|]. zif.
  wp_step. eapply wp_acquire_inode; [exact Hk|done|]. rewrite Hv. eval_tests.
  do 2 wp_step. cbn [f_sb set_icache]. rewrite Hd. wp_step.
  unfold set_icache; cbn [f_blk f_icache f_pid f_sb f_cwd].
  eapply wp_io_bread; [exact Hsb|exact Hr|lia| | |].
  { intros j. by rewrite lookup_empty. }
  { by rewrite map_size_empty. }
  intros j b1 _ Hr1. wp_step. eapply wp_io_data; [exact Hr1|apply lookup_insert_eq|].
  fold (disk_inode sb v (i_inum i)). wp_step.
  eapply wp_updi; [by apply list_lookup_insert_eq|]. wp_step.
  unfold set_icache; cbn [f_blk f_icache f_pid f_sb f_cwd].
  eapply wp_io_brelse; [exact Hsb|exact Hr1|apply lookup_insert_eq|].
  intros b2 Hr2. rewrite delete_insert_id in Hr2 by apply lookup_empty. wp_step.
  eapply wp_updi; [apply list_lookup_insert_eq; cbn; by rewrite length_insert|].
  rewrite (proj2 (Z.eqb_neq _ _)) by done. wp_step.
  unfold set_icache; cbn [f_blk f_icache f_pid f_sb f_cwd]. rewrite !list_insert_insert_eq. by apply HQ.
Qed.

Lemma wp_iunlock s k i (Q : unit -> fstate S -> Prop) :
  f_icache s !! k = Some i -> holds (f_pid s) i -> 1 <= i_ref i ->
  Q tt (set_icache (<[k := set_ilock (mkSleeplock false 0) i]> (f_icache s)) s) ->
  wp (iunlock (Some k)) s Q.
Proof.
  intros Hk Hh Hr HQ. unfold iunlock. wp_step. eapply wp_geti_at; [exact Hk|]. do 2 wp_step.
  rewrite Hh. unfold holdingsleep. cbn. rewrite Z.eqb_refl. zif. by eapply wp_release_inode.
Qed.
End load.
