(* ===== verification/FsExtent.v ===== *)
(** Extent files: [readi] and [writei] of fs.c for the type [T_EXTENT].

    Each write adds an extent to the inode in memory and puts its bytes in the
    blocks after those in use ([sisterblocks] of them), whatever the offset:
    only the place in the block comes from the offset.  Each read returns one
    block, up to its first zero byte. *)
From S2P Require Import Prelude Layout CString Locks Bio Log LogRep Fs FsBlock FsMap FsData FsInode.

(** The place in the blocks of the file at which a write at [off] goes. *)
Definition ext_pos (sis off : Z) : Z := sis * BSIZE + off mod BSIZE.

Lemma ext_pos_mod sis off tot : (ext_pos sis off + tot) mod BSIZE = (off + tot) mod BSIZE.
Proof.
  unfold ext_pos. rewrite <- Z.add_assoc, (Z.add_comm (sis * BSIZE)), Z_mod_plus_full.
  by rewrite Z.add_mod_idemp_l.
Qed.

Lemma ext_pos_div sis off : ext_pos sis off / BSIZE = sis.
Proof. apply (block_of _ sis (off mod BSIZE)); [by apply Z.mod_pos_bound|done]. Qed.

Lemma ext_chunk sis off n tot : chunk n tot (off + tot) = chunk n tot (ext_pos sis off + tot).
Proof. unfold chunk. by rewrite ext_pos_mod. Qed.

(** After an iteration that is not the last, the next block follows. *)
Lemma chunk_next p n tot :
  tot + chunk n tot (p + tot) < n -> (p + (tot + chunk n tot (p + tot))) / BSIZE = (p + tot) / BSIZE + 1.
Proof.
  intros H. pose proof (block_split (p + tot)) as [E Hr]. unfold chunk in *.
  destruct (Z.min_spec (n - tot) (BSIZE - (p + tot) mod BSIZE)) as [[? Em]|[? Em]]; rewrite Em in *; [lia|].
  apply (block_of _ _ 0); [done|]. lia.
Qed.

Section write.
Context {S : Type} `{!BlockIO S} `{!BlockSpec S}.
Context (g : geom) (sb : superblock) (Hsb : sb_ok g sb).
Context (o : Z) (dur : Z -> bytes).
Context (ic : list inode) (pid : Z) (cwd : nat) (ip : nat) (i0 : inode).
Hypothesis Hip : (ip < length ic)%nat.
Hypothesis Hdev : i_dev i0 = ROOTDEV.
Context (ez : list extent) (ne eo lo : Z).
Context (L0 : list Z) (P : list slot).
Hypothesis HP : Forall slot_ok P.
Hypothesis Hbud : (length L0 + 2 * length P <= 25)%nat.
Hypothesis Ho : 1 <= o.

Local Abbreviation ext sis := (set_extents ez ne sis eo lo i0).
Local Abbreviation st b ad sis := (mkF b (<[ip := set_addrs ad (ext sis)]> ic) sb pid cwd).
Local Abbreviation minv := (minv g sb o dur L0 P).

(** The state of the loop after [tot] bytes. *)
Record ext_inv (v : Z -> bytes) (ad : list Z) (sis0 off n : Z) (src : bytes) (fr : nat) (k : nat)
    (tot c : Z) (e : extent) (s : fstate S) (b1 : S) (v1 : Z -> bytes) (ad1 L1 : list Z) : Prop := {
  ei_state : s = st b1 ad1 (sis0 + e_length e);
  ei_minv : minv b1 v1 ad1 L1;
  ei_extends : extends sb v ad v1 ad1;
  ei_spliced : spliced v ad v1 ad1 (ext_pos sis0 off) tot src;
  ei_off : c = off + tot;
  ei_tot : 0 <= tot <= n;
  ei_free : free_ge sb v1 (3 * Z.to_nat (blocks_left (ext_pos sis0 off + tot) (ext_pos sis0 off + n)) + fr);
  ei_fuel : (Z.to_nat (blocks_left (ext_pos sis0 off + tot) (ext_pos sis0 off + n)) + 1 <= k)%nat;
  ei_len : e_length e + blocks_left (ext_pos sis0 off + tot) (ext_pos sis0 off + n) =
           blocks_left (ext_pos sis0 off) (ext_pos sis0 off + n);
  ei_next : tot < n -> sis0 + e_length e = (ext_pos sis0 off + tot) / BSIZE;
  ei_start : 0 < tot -> e_startingAddress e = faddr v1 ad1 sis0
}.

Lemma ext_fuel_done pos n : blocks_left (pos + n) (pos + n) = 0.
Proof. unfold blocks_left. by rewrite Z.leb_refl. Qed.

Section loop.
Context (v : Z -> bytes) (ad : list Z) (sis0 : Z) (src : bytes) (off n : Z) (fr : nat).
Let pos : Z := ext_pos sis0 off.
Hypothesis Hs0 : 0 <= sis0.
Hypothesis Hoff : 0 <= off.
Hypothesis Hwrap : off + n < 2 ^ 32.
Hypothesis Hmax : pos + n <= MAXFILE * BSIZE.
Hypothesis Hlen : length src = Z.to_nat n.
Hypothesis Hby : Forall is_byte src.
Hypothesis Hpath : forall bn, pos / BSIZE <= bn -> bn * BSIZE < pos + n -> path bn ⊆ P.

Lemma ext_pos_nonneg : 0 <= pos.
Proof. unfold pos, ext_pos. pose proof (block_split off). rewrite BSIZE_val in *. lia. Qed.

(** The invariant after one more block. *)
Lemma ext_step k tot c e s b1 v1 ad1 L1 b2 v2 ad2 L2 b5 :
  ext_inv v ad sis0 off n src fr (Datatypes.S k) tot c e s b1 v1 ad1 L1 -> tot < n ->
  let bn := sis0 + e_length e in
  let m := chunk n tot c in
  let x := splice (v2 (faddr v2 ad2 bn)) (Z.to_nat (c mod BSIZE)) (slice src (Z.to_nat tot) (Z.to_nat m)) in
  let e' := mkExtent (e_length e + 1) (if tot =? 0 then faddr v2 ad2 bn else e_startingAddress e) in
  minv b2 v2 ad2 L2 -> grow sb v1 ad1 v2 ad2 -> faddr v2 ad2 bn <> 0 ->
  free_ge sb v2 (3 * Z.to_nat (blocks_left (pos + tot + m) (pos + n)) + fr) ->
  rep g o dur b5 (vupd v2 (faddr v2 ad2 bn) x) ∅ (log_add (faddr v2 ad2 bn) L2) ->
  ext_inv v ad sis0 off n src fr k (tot + m) (u32 (c + m)) e' (st b5 ad2 (sis0 + e_length e + 1)) b5
    (vupd v2 (faddr v2 ad2 bn) x) ad2 (log_add (faddr v2 ad2 bn) L2).
Proof.
  intros [-> Hi1 E1 Sp1 -> Ht F1 Hk Hl1 Hnx Hst] Hlt bn m x e' Hi2 G2 Hne F2 Hr5. fold pos in Sp1, F1, Hk, Hl1, Hnx.
  pose proof ext_pos_nonneg as Hpos. pose proof (blocks_left_step pos tot n Hpos) as [Hbl Hbl0]; [lia|].
  assert (Em : m = chunk n tot (pos + tot)) by apply ext_chunk. rewrite <- Em in Hbl, Hbl0.
  pose proof (chunk_bounds n tot (pos + tot)) as Hm. rewrite <- Em in Hm. specialize (Hnx Hlt). fold bn in Hnx.
  assert (Hcb : 0 <= bn < MAXFILE).
  { rewrite Hnx. split; [apply Z.div_pos; [lia|done]|apply Z.div_lt_upper_bound; [done|lia]]. }
  assert (HcP : path bn ⊆ P).
  { rewrite Hnx. apply Hpath; [apply Z.div_le_mono; [done|lia]|]. pose proof (block_split (pos + tot)). lia. }
  pose proof (write_extends g sb Hsb v2 ad2 bn x (mi_wf _ _ _ _ _ _ _ _ _ _ Hi2) (mi_meta _ _ _ _ _ _ _ _ _ _ Hi2) Hcb Hne) as W.
  set (addr := faddr v2 ad2 bn) in *. split; fold pos; cbn [e_length e_startingAddress e'].
  - by rewrite Z.add_assoc.
  - split; [exact Hr5|apply W|apply W|]. eapply (logged_in_add _ _ _ _ _ _ (data_slot bn)).
    + eapply logged_in_extends; [exact W|done|]. apply Hi2.
    + apply HcP, path_data_slot.
    + rewrite (ex_slot W); [exact Hne|by apply data_slot_ok|exact Hne].
    + left. rewrite (ex_slot W); [done|by apply data_slot_ok|exact Hne].
  - eapply extends_trans; [done|exact E1|]. eapply extends_trans; [done|apply G2|exact W].
  - unfold x, addr. rewrite Em, Hnx, <- (ext_pos_mod sis0). eapply (spliced_step g sb v ad v1 ad1 v2 ad2); try done; [|lia|by rewrite <- Hnx].
    intros c. eapply rep_ok; apply Hi2.
  - rewrite u32_small; lia.
  - lia.
  - rewrite Z.add_assoc. eapply free_ge_used; [|exact F2]. intros c Hc. eapply write_used; [apply Hi2|done|exact Hne|done].
  - rewrite Z.add_assoc. lia.
  - rewrite Z.add_assoc. lia.
  - intros Hlt'. rewrite Em in *. rewrite chunk_next by done. lia.
  - intros _. destruct (Z.eqb_spec tot 0) as [E0|E0].
    + subst tot. rewrite Z.add_0_r in Hnx. unfold pos in Hnx. rewrite ext_pos_div in Hnx. rewrite <- Hnx.
      symmetry. by eapply (write_faddr sb); [apply Hi2|..].
    + assert (Hs : 0 <= sis0 < MAXFILE).
      { split; [done|]. rewrite <- (ext_pos_div sis0 off). apply Z.div_lt_upper_bound; [done|]. fold pos. lia. }
      assert (Hm1 : faddr v1 ad1 sis0 <> 0).
      { rewrite <- (ext_pos_div sis0 off). destruct Sp1 as (_ & Hmp & _). apply Hmp. lia. }
      rewrite Hst by lia. symmetry. unfold addr. erewrite write_faddr; [|apply Hi2|..]; try done.
      unfold faddr. apply (ex_slot (proj1 G2)); [by apply data_slot_ok|done].
Qed.

Lemma wp_ext_loop b L (Q : extent -> fstate S -> Prop) :
  minv b v ad L -> 0 <= n ->
  free_ge sb v (3 * Z.to_nat (blocks_left pos (pos + n)) + fr) ->
  (forall b' v' ad' L' e, minv b' v' ad' L' -> extends sb v ad v' ad' ->
     spliced v ad v' ad' pos n src -> free_ge sb v' fr -> e_length e = blocks_left pos (pos + n) ->
     (0 < n -> e_startingAddress e = faddr v' ad' sis0) -> Q e (st b' ad' (sis0 + e_length e))) ->
  wp (writei_extent_loop ip src off n) (st b ad sis0) Q.
Proof.
  intros Hinv Hn Hfree HQ. unfold writei_extent_loop. pose proof ext_pos_nonneg as Hpos.
  apply (wp_while_loop (fun k '(tot, c, e) s => exists b' v' ad' L', ext_inv v ad sis0 off n src fr k tot c e s b' v' ad' L')).
  - exists b, v, ad, L. split; cbn [e_length e_startingAddress]; fold pos; rewrite ?Z.add_0_r; try done; try lia.
    + apply extends_refl; apply Hinv.
    + apply spliced_0.
    + by apply blocks_left_fuel.
    + intros _. symmetry. apply ext_pos_div.
  - intros [[tot c] e] s (? & ? & ? & ? & []). lia.
  - intros k [[tot c] e] s (b1 & v1 & ad1 & L1 & I1). pose proof I1 as [-> Hi1 E1 Sp1 Ec Ht F1 Hk Hl1 Hnx Hst].
    fold pos in Sp1, F1, Hk, Hl1, Hnx. destruct (Z.ltb_spec tot n) as [Hlt|Hge].
    2: { wp_step. assert (tot = n) as -> by lia. rewrite ext_fuel_done in *. eapply HQ; try done; lia. }
    pose proof (blocks_left_step pos tot n Hpos) as [Hbl Hbl0]; [lia|]. specialize (Hnx Hlt).
    assert (Em : chunk n tot c = chunk n tot (pos + tot)) by (subst c; apply ext_chunk).
    pose proof (chunk_bounds n tot c) as Hm. rewrite Hbl, <- Em in F1. rewrite <- Em in Hbl0. set (m := chunk n tot c) in *.
    set (r := blocks_left (pos + tot + m) (pos + n)) in *.
    replace (3 * Z.to_nat (r + 1) + fr)%nat with (Datatypes.S (Datatypes.S (Datatypes.S (3 * Z.to_nat r + fr)))) in F1 by lia.
    set (bn := sis0 + e_length e) in *. assert (Hcb : 0 <= bn < MAXFILE).
    { rewrite Hnx. split; [apply Z.div_pos; [lia|done]|apply Z.div_lt_upper_bound; [done|lia]]. }
    wp_step. apply (wp_geti sb ic pid cwd ip (ext bn) Hip). change (i_sisterblocks (set_addrs ad1 (ext bn))) with bn.
    change (i_dev (set_addrs ad1 (ext bn))) with (i_dev i0). rewrite Hdev, u32_small by (rewrite MAXFILE_val in Hcb; lia).
    wp_step. eapply (wp_bmap g sb Hsb o dur ic pid cwd ip (ext bn) Hip Hdev L0 P HP Hbud); [done| |exact Hi1|done|exact F1|].
    { rewrite Hnx. apply Hpath; [apply Z.div_le_mono; [done|lia]|]. pose proof (block_split (pos + tot)). lia. }
    intros b2 v2 ad2 L2 Hi2 G2 F2 Hne. set (addr := faddr v2 ad2 bn) in *.
    assert (HL2 : (length L2 <= 25)%nat) by (by eapply minv_length).
    assert (Hok2 : forall e, is_block (v2 e)) by (intros c'; eapply rep_ok; apply Hi2).
    destruct (data_block_ok g sb Hsb addr) as (Hal & Ha1 & Har); [by eapply write_addr; [apply Hi2|..]|].
    wp_step. eapply wp_io_bread; [done|apply Hi2|done| | |].
    { intros j. by rewrite lookup_empty. }
    { rewrite map_size_empty. unfold NBUFn. lia. }
    intros i b3 _ Hr3. wp_step. apply (wp_geti sb ic pid cwd ip (ext bn) Hip). wp_step. eapply wp_updi; [by apply list_lookup_insert_eq|].
    unfold set_icache. cbn [f_icache f_blk f_sb f_pid f_cwd]. rewrite list_insert_insert_eq.
    wp_step. eapply wp_io_data; [exact Hr3|apply lookup_insert_eq|].
    eapply wp_io_log; [done|exact Hr3|apply lookup_insert_eq| |done|done|done| |].
    { split; [rewrite length_splice|apply Forall_splice]; try apply Hok2; [|by apply Forall_slice].
      rewrite length_slice by lia. destruct (Hok2 addr) as [-> _]. unfold BSIZEn.
      pose proof (block_split c). rewrite BSIZE_val in *. lia. }
    { change NBUF with 30. lia. }
    intros b4 Hr4. wp_step. eapply wp_io_brelse; [done|exact Hr4|apply lookup_insert_eq|].
    intros b5 Hr5. rewrite delete_insert_id in Hr5 by apply lookup_empty. wp_step.
    do 4 eexists. apply (ext_step k tot c e _ b1 v1 ad1 L1 b2 v2 ad2 L2 b5 I1 Hlt Hi2 G2 Hne F2 Hr5).
Qed.
End loop.
End write.

(** * [writei] *)

Section file.
Context {S : Type} `{!BlockIO S} `{!BlockSpec S}.
Context (dev_read : Z -> option (nat -> Z -> M (fstate S) (Z * bytes))).
Context (dev_write : Z -> option (nat -> bytes -> Z -> M (fstate S) Z)).

(** An extent file in entry [ip] of the inode cache. *)
Record ext_state (g : geom) (o : Z) (dur : Z -> bytes) (s : fstate S) (v : Z -> bytes)
    (L : list Z) (ip : nat) (i : inode) : Prop := {
  es_sb : sb_ok g (f_sb s);
  es_rep : rep g o dur (f_blk s) v ∅ L;
  es_inode : f_icache s !! ip = Some i;
  es_ok : inode_ok (f_sb s) i;
  es_type : i_type i = T_EXTENT;
  es_wf : blocks_wf (f_sb s) v (i_addrs i);
  es_meta : meta_used (f_sb s) v
}.

(** The inode after [writei] of [n] bytes at [off], with the block map [ad]. *)
Definition ext_written (v : Z -> bytes) (ad : list Z) (off n : Z) (i : inode) : inode :=
  let k := blocks_left (ext_pos (i_sisterblocks i) off) (ext_pos (i_sisterblocks i) off + n) in
  let e := mkExtent k (faddr v ad (i_sisterblocks i)) in
  set_size (u32 (i_size i + n))
    (set_extents (<[Z.to_nat (i_numExtents i) := e]> (i_extentz i)) (i_numExtents i + 1) (i_sisterblocks i + k) 0 0
       (set_addrs ad i)).

Lemma wp_writei_ext g o dur s v L P ip i src off n fr (Q : Z -> fstate S -> Prop) :
  let pos := ext_pos (i_sisterblocks i) off in
  ext_state g o dur s v L ip i -> free_ge (f_sb s) v (3 * Z.to_nat (blocks_left pos (pos + n)) + fr) ->
  Forall slot_ok P -> (length L + 2 * length P <= 25)%nat ->
  (forall bn, pos / BSIZE <= bn -> bn * BSIZE < pos + n -> path bn ⊆ P) -> 1 <= o ->
  0 <= off <= i_size i -> 0 <= i_sisterblocks i -> 0 < n -> off + n <= MAXFILE * BSIZE -> pos + n <= MAXFILE * BSIZE ->
  0 <= i_numExtents i < Z.of_nat (length (i_extentz i)) -> i_numExtents i <= NDIRECT ->
  n = Z.of_nat (length src) -> Forall is_byte src ->
  (forall b' v' ad' L', let i' := ext_written v' ad' off n i in
     let s' := mkF b' (<[ip := i']> (f_icache s)) (f_sb s) (f_pid s) (f_cwd s) in
     ext_state g o dur s' v' L' ip i' -> others_same (f_sb s) (i_inum i) v (i_addrs i) v' ad' ->
     spliced v (i_addrs i) v' ad' pos n src -> (length L' <= length L + 2 * length P + 1)%nat -> disk_inode (f_sb s) v' (i_inum i) = i_dinode i' ->
     free_ge (f_sb s) v' fr -> Q n s') ->
  wp (writei dev_write ip src off n) s Q.
Proof.
  intros pos [Hsb Hr Hip Hok Hty Hwf Hm] Hfr HP Hbud Hpath Ho Hoff Hsis Hn Hmax Hmax' Hne Hnd Hlen Hby HQ.
  pose proof (lookup_lt_Some _ _ _ Hip) as Hlt. destruct s as [b ic sb pid cwd]. cbn in *.
  destruct (io_fields _ _ Hok) as (_ & _ & _ & _ & Hsz & _). cbn in Hsz. unfold is_u32 in Hsz.
  assert (Hpos : 0 <= pos) by (unfold pos, ext_pos; pose proof (block_split off); rewrite BSIZE_val in *; lia).
  pose proof Hmax as Hmx. rewrite MAXFILE_val, BSIZE_val in Hmx.
  unfold writei. wp_step. eapply wp_geti_here; [exact Hip|]. rewrite Hty. change (T_EXTENT =? T_DEV) with false.
  rewrite u32_small by lia. rewrite MAXFILE_val, BSIZE_val. zif. zif. change (T_EXTENT =? T_EXTENT) with true. cbv iota.
  unfold writei_extent. wp_step. eapply wp_geti_here; [exact Hip|]. rewrite (proj2 (Z.ltb_ge _ _)) by done.
  wp_step. eapply wp_updi; [exact Hip|]. unfold set_icache. cbn [f_icache f_blk f_sb f_pid f_cwd].
  set (i1 := set_extents (i_extentz i) (i_numExtents i + 1) (i_sisterblocks i) (i_eOffset i) (i_lOffset i) i).
  assert (E1 : i1 = set_addrs (i_addrs i) (set_extents (i_extentz i) (i_numExtents i + 1) (i_sisterblocks i) (i_eOffset i) (i_lOffset i) i)) by by destruct i.
  rewrite E1. wp_step.
  eapply (wp_ext_loop g sb Hsb o dur ic pid cwd ip i Hlt (io_dev _ _ Hok) (i_extentz i) (i_numExtents i + 1) (i_eOffset i) (i_lOffset i) L P HP Hbud Ho v (i_addrs i) (i_sisterblocks i) src off n fr); try done; try lia.
  { split; [done..|]. intros c Hc. by left. }
  intros b1 v1 ad1 L1 e Hi1 X1 Sp Hfr1 Hel Hes. fold pos in Sp, Hel. specialize (Hes Hn). pose proof Hi1 as [Hr1 Hwf1 Hm1 Hl1].
  pose proof (logged_in_length _ _ _ _ _ _ (rep_nodup _ _ _ _ _ _ _ Hr1) Hl1) as HL1.
  assert (Hblk : forall c, is_block (v1 c)) by (intros c; by eapply rep_ok).
  rewrite (proj2 (Z.ltb_lt 0 n)) by done. wp_step. wp_step. eapply wp_geti_at; [by apply list_lookup_insert_eq|].
  cbn [i_numExtents i_extentz i_sisterblocks i_size set_addrs set_extents set_dinode]. replace (i_numExtents i + 1 - 1) with (i_numExtents i) by lia.
  rewrite decide_True by lia. wp_step. eapply wp_updi; [by apply list_lookup_insert_eq|].
  unfold set_icache. cbn [f_icache f_blk f_sb f_pid f_cwd]. rewrite list_insert_insert_eq.
  wp_step. eapply wp_updi; [by apply list_lookup_insert_eq|].
  unfold set_icache. cbn [f_icache f_blk f_sb f_pid f_cwd]. rewrite list_insert_insert_eq.
  match goal with |- wp _ (mkF _ (<[_ := ?x]> _) _ _ _) _ => set (i2 := x) end.
  assert (Hok2 : inode_ok sb i2).
  { apply (inode_ok_size sb (set_extents _ _ _ _ _ (set_addrs ad1 i))); [|apply u32_range].
    destruct (inode_ok_addrs _ _ _ _ _ Hsb Hwf1 Hok). by split. }
  assert (E2 : i_type i2 = T_EXTENT /\ i_addrs i2 = ad1 /\ i_inum i2 = i_inum i) by done. destruct E2 as (E2 & E3 & E4).
  eapply wp_iupdate; [done|by apply list_lookup_insert_eq|done|exact Hr1|done|lia|]. intros b2 Hr2. rewrite E4 in Hr2. wp_step.
  pose proof (agree_inode g sb v1 (i_inum i) (i_dinode i2) Hsb (io_inum _ _ Hok)) as Hag.
  set (v2 := v_inode sb v1 (i_inum i) (i_dinode i2)) in *.
  assert (Hsis' : 0 <= i_sisterblocks i < MAXFILE).
  { split; [done|]. rewrite <- (ext_pos_div (i_sisterblocks i) off). apply Z.div_lt_upper_bound; [done|]. fold pos. lia. }
  assert (Ei : i2 = ext_written v2 ad1 off n i).
  { unfold i2, ext_written. fold pos. rewrite <- Hel. unfold faddr. erewrite agree_slot; [|done..|by apply data_slot_ok].
    unfold faddr in Hes. rewrite <- Hes. by destruct e. }
  rewrite Ei. rewrite s32_small by lia. apply (HQ b2 v2 ad1 (log_add (IBLOCK (i_inum i) sb) L1)); rewrite <- ?Ei.
  - split; cbn [f_icache f_blk f_sb f_pid f_cwd]; try done; [by apply list_lookup_insert_eq| |by eapply agree_meta].
    rewrite E3. by eapply agree_wf.
  - eapply inode_others; try done; [apply Hok|apply Hok2|by eapply extends_others].
  - eapply agree_spliced; done.
  - pose proof (length_log_add (IBLOCK (i_inum i) sb) L1). lia.
  - apply disk_inode_same; [apply Hblk|apply Hok|apply Hok2].
  - eapply free_ge_used; [|exact Hfr1]. intros c Hc. by eapply agree_used.
Qed.

(** * [readi] *)

(** There is a first extent, and no block is left out. *)
Record ext_readable (v : Z -> bytes) (i : inode) : Prop := {
  er_off : i_eOffset i = 0;
  er_num : 0 < i_numExtents i;
  er_first : exists e, i_extentz i !! 0%nat = Some e /\ 0 < e_length e;
  er_max : i_sisterblocks i <= MAXFILE;
  er_map : forall bn, 0 <= bn < i_sisterblocks i -> faddr v (i_addrs i) bn <> 0
}.

Definition next_block (i : inode) : inode :=
  set_extents (i_extentz i) (i_numExtents i) (i_sisterblocks i) (i_eOffset i) (i_lOffset i + 1) i.

Lemma wp_readi_end g o dur s v L ip i off n (Q : Z * bytes -> fstate S -> Prop) :
  ext_state g o dur s v L ip i -> i_sisterblocks i <= i_lOffset i -> Q (0, []) s -> wp (readi dev_read ip off n) s Q.
Proof.
  intros Hs Hl HQ. unfold readi. wp_step. eapply wp_geti_at; [apply Hs|]. rewrite (es_type _ _ _ _ _ _ _ _ Hs).
  change (T_EXTENT =? T_DEV) with false. change (T_EXTENT =? T_EXTENT) with true. cbv iota.
  unfold readi_extent. wp_step. eapply wp_geti_at; [apply Hs|]. rewrite (proj2 (Z.leb_le _ _)) by done. by wp_step.
Qed.

Lemma wp_readi_ext g o dur s v L ip i off n (Q : Z * bytes -> fstate S -> Prop) :
  ext_state g o dur s v L ip i -> (length L < NBUFn)%nat -> ext_readable v i -> 0 <= i_lOffset i < i_sisterblocks i ->
  (forall b', let s' := mkF b' (<[ip := next_block i]> (f_icache s)) (f_sb s) (f_pid s) (f_cwd s) in
     let text := cstring (fblock v (i_addrs i) (i_lOffset i)) in
     ext_state g o dur s' v L ip (next_block i) -> Q (Z.of_nat (length text), text) s') ->
  wp (readi dev_read ip off n) s Q.
Proof.
  intros Hs HL [He Hn (e & Hfe & Hel) Hmx Hmp] Hl HQ. pose proof Hs as [Hsb Hr Hip Hok Hty Hwf Hm].
  pose proof (lookup_lt_Some _ _ _ Hip) as Hlt. destruct s as [b ic sb pid cwd]. cbn in *.
  assert (Hbn : 0 <= i_lOffset i < MAXFILE) by lia. specialize (Hmp _ Hl).
  unfold readi. wp_step. eapply wp_geti_here; [exact Hip|]. rewrite Hty.
  change (T_EXTENT =? T_DEV) with false. change (T_EXTENT =? T_EXTENT) with true. cbv iota.
  unfold readi_extent. wp_step. eapply wp_geti_here; [exact Hip|]. rewrite (proj2 (Z.leb_gt _ _)) by lia. rewrite He. change (u32 0) with 0.
  replace (Z.to_nat (i_numExtents i - 0)) with (Datatypes.S (Z.to_nat (i_numExtents i - 1))) by lia. cbn [for_loop].
  change (Z.to_nat 0) with 0%nat. do 3 wp_step. eapply wp_deref; [exact Hfe|]. rewrite (proj2 (Z.ltb_lt _ _)) by done.
  rewrite u32_small by (rewrite MAXFILE_val in Hbn; lia). rewrite (io_dev _ _ Hok).
  wp_step. eapply wp_bmap_get; [done|exact Hip|apply Hok|done|done|done|exact Hmp|exact Hr|]. intros b1 Hr1.
  wp_step. eapply wp_io_bread; [done|exact Hr1| | | |].
  { destruct (data_block_ok g sb Hsb (faddr v (i_addrs i) (i_lOffset i))) as (_ & _ & ?); [by eapply write_addr|done]. }
  { intros j. by rewrite lookup_empty. }
  { by rewrite map_size_empty. }
  intros j b3 _ Hr3. wp_step. eapply wp_io_data; [exact Hr3|apply lookup_insert_eq|].
  wp_step. eapply wp_geti_here; [exact Hip|]. wp_step. eapply wp_updi; [exact Hip|].
  unfold set_icache. cbn [f_icache f_blk f_sb f_pid f_cwd]. fold (next_block i).
  wp_step. eapply wp_io_brelse; [done|exact Hr3|apply lookup_insert_eq|].
  intros b4 Hr4. rewrite delete_insert_id in Hr4 by apply lookup_empty. do 3 wp_step.
  assert (Hblk : is_block (v (faddr v (i_addrs i) (i_lOffset i)))) by (by eapply rep_ok).
  rewrite strlen_cstring. unfold fblock in HQ. rewrite (proj2 (Z.eqb_neq _ _)) in HQ by done.
  set (data := v _) in *. pose proof (cstring_prefix data) as (rest & Ed).
  assert (Hle : (length (cstring data) <= 512)%nat).
  { destruct Hblk as [Hd _]. apply (f_equal length) in Ed. rewrite length_app, Hd in Ed. unfold BSIZEn in Ed. lia. }
  rewrite Z.min_r, Nat2Z.id by lia. replace (take (length (cstring data)) data) with (cstring data).
  2: { rewrite Ed at 3. by rewrite take_app_length. }
  apply (HQ b4). split; cbn [f_icache f_blk f_sb f_pid f_cwd]; try done; [by apply list_lookup_insert_eq|]. by destruct Hok; split.
Qed.

(** Reading until the end of the file, as programs do. *)
Fixpoint read_all (fuel : nat) (ip : nat) (off n : Z) : M (fstate S) bytes :=
  match fuel with
  | O => fault
  | Datatypes.S fuel' =>
      let* r := readi dev_read ip off n in
      if r.1 <=? 0 then ret []
      else let* rest := read_all fuel' ip (off + r.1) n in ret (r.2 ++ rest)
  end.

(** What the blocks of the file give: it ends at the first empty one. *)
Fixpoint texts (bl : list bytes) : bytes :=
  match bl with
  | [] => []
  | b :: bl' => if decide (cstring b = []) then [] else cstring b ++ texts bl'
  end.

Lemma texts_app bl1 bl2 : Forall (fun b => cstring b <> []) bl1 -> texts (bl1 ++ bl2) = texts bl1 ++ texts bl2.
Proof. induction 1 as [|b bl Hb _ IH]; [done|]. cbn. rewrite !decide_False, IH by done. by rewrite <- app_assoc. Qed.

Definition blocks_from (v : Z -> bytes) (ad : list Z) (lo n : Z) : list bytes := map (fblock v ad) (seqZ lo n).

Lemma readable_next v i : ext_readable v i -> ext_readable v (next_block i).
Proof. by intros []. Qed.

Lemma wp_read_all g o dur v L ip n fuel : forall s i off (Q : bytes -> fstate S -> Prop),
  ext_state g o dur s v L ip i -> (length L < NBUFn)%nat -> (0 < i_sisterblocks i -> ext_readable v i) ->
  0 <= i_lOffset i <= i_sisterblocks i -> i_sisterblocks i - i_lOffset i < Z.of_nat fuel ->
  (forall s', Q (texts (blocks_from v (i_addrs i) (i_lOffset i) (i_sisterblocks i - i_lOffset i))) s') ->
  wp (read_all fuel ip off n) s Q.
Proof.
  induction fuel as [|fuel IH]; intros s i off Q Hs HL Hrd Hl Hf HQ; [lia|]. cbn [read_all]. wp_step.
  destruct (decide (i_lOffset i = i_sisterblocks i)) as [E|E].
  - eapply wp_readi_end; [done|lia|]. rewrite E, Z.sub_diag in HQ. apply wp_ret, HQ.
  - specialize (Hrd ltac:(lia)). eapply wp_readi_ext; [done|done|done|lia|]. intros b' s' text Hs'.
    unfold blocks_from in HQ. rewrite seqZ_cons in HQ by lia. cbn [map texts] in HQ. fold text in HQ. cbn [fst snd].
    case_decide as Et; [rewrite Et; apply wp_ret, HQ|].
    rewrite (proj2 (Z.leb_gt _ _)) by (destruct text; [done|cbn [length]; lia]). wp_step.
    eapply (IH s' (next_block i)); [done|done|intros _; by apply readable_next|cbn [i_lOffset i_sisterblocks next_block set_extents]; lia..|].
    intros s2. apply wp_ret. cbn [i_lOffset i_sisterblocks i_addrs next_block set_extents]. unfold blocks_from.
    replace (i_sisterblocks i - (i_lOffset i + 1)) with (Z.pred (i_sisterblocks i - i_lOffset i)) by lia. apply HQ.
Qed.
End file.

(** * The bytes of the blocks *)

Lemma cstring_cut a b : Forall (fun c => c <> 0) a -> hd0 b = 0 -> cstring (a ++ b) = a.
Proof.
  intros Ha Hb. induction Ha as [|c a Hc _ IH]; cbn [app].
  - rewrite cstring_split, Hb. done.
  - cbn [cstring]. by rewrite (proj2 (Z.eqb_neq _ _) Hc), IH.
Qed.

Lemma fblock_fbytes v ad bn : (forall c, is_block (v c)) -> fblock v ad bn = fbytes v ad (bn * BSIZE) BSIZE.
Proof.
  intros Hok. destruct (fblock_ok v ad bn Hok) as [Hl _]. apply bytes_ext; [by rewrite length_fbytes, Hl|].
  intros j Hj. rewrite Hl in Hj. unfold BSIZEn in Hj. rewrite (nth0_lookup (fbytes _ _ _ _)), lookup_fbytes by (rewrite BSIZE_val; lia).
  cbn [from_option default id]. unfold fbyte. destruct (block_of (bn * BSIZE + Z.of_nat j) bn (Z.of_nat j)) as [-> ->]; [rewrite BSIZE_val; lia|done|].
  by rewrite Nat2Z.id.
Qed.

(** The blocks of a file that holds [data]. *)
Section data.
Context (v : Z -> bytes) (ad : list Z) (data : bytes) (K : Z).
Context (Hok : forall c, is_block (v c)).
Context (Hdata : forall k, 0 <= k < K * BSIZE -> fbyte v ad k = nth0 data (Z.to_nat k)).
Context (Hnz : Forall (fun c => c <> 0) data).
Context (HK : (K - 1) * BSIZE < Z.of_nat (length data) <= K * BSIZE).

Lemma data_block j : 0 <= j < K -> cstring (fblock v ad j) = slice data (512 * Z.to_nat j) 512.
Proof.
  intros Hj. rewrite fblock_fbytes by done. rewrite BSIZE_val in *. set (a := slice data (512 * Z.to_nat j) 512).
  assert (Ha : length a = Nat.min 512 (length data - 512 * Z.to_nat j)) by (unfold a, slice; by rewrite length_take, length_drop).
  replace (fbytes v ad (j * 512) 512) with (a ++ replicate (512 - length a) 0).
  - apply cstring_cut; [by apply Forall_slice|]. by destruct (512 - length a)%nat.
  - apply bytes_ext; [rewrite length_fbytes, length_app, length_replicate; lia|]. rewrite length_app, length_replicate.
    intros k Hk. rewrite (nth0_lookup (fbytes _ _ _ _)), lookup_fbytes by lia. cbn [from_option default id].
    rewrite Hdata by lia. rewrite !nth0_lookup. destruct (decide (k < length a)%nat) as [Hka|Hka].
    + rewrite lookup_app_l by done. unfold a. rewrite lookup_slice, decide_True by lia. do 2 f_equal. lia.
    + rewrite lookup_app_r, lookup_replicate_2 by lia. rewrite lookup_ge_None_2 by lia. done.
Qed.

Lemma data_texts m : forall lo, 0 <= lo -> lo + Z.of_nat m = K ->
  Forall (fun b => cstring b <> []) (blocks_from v ad lo (Z.of_nat m)) /\
  texts (blocks_from v ad lo (Z.of_nat m)) = drop (512 * Z.to_nat lo) data.
Proof.
  induction m as [|m IH]; intros lo Hlo E; unfold blocks_from.
  - split; [constructor|]. cbn. rewrite BSIZE_val in *. by rewrite drop_ge by lia.
  - rewrite seqZ_cons by lia. replace (Z.pred (Z.of_nat (S m))) with (Z.of_nat m) by lia. cbn [map texts].
    destruct (IH (Z.succ lo)) as [H1 H2]; [lia|lia|]. fold (blocks_from v ad (Z.succ lo) (Z.of_nat m)).
    pose proof (data_block lo ltac:(lia)) as Eb. rewrite Eb. rewrite BSIZE_val in *. assert (Hne : slice data (512 * Z.to_nat lo) 512 <> []).
    { intros E0. apply (f_equal length) in E0. unfold slice in E0. rewrite length_take, length_drop in E0. change (length []) with 0%nat in E0. lia. }
    split; [constructor; [by rewrite Eb|done]|]. rewrite decide_False by done. rewrite H2.
    unfold slice. rewrite <- (take_drop 512 (drop (512 * Z.to_nat lo) data)) at 2. rewrite drop_drop. do 2 f_equal. lia.
Qed.
End data.

(** * Writing and reading a file *)

Definition ceil_blocks (n : Z) : Z := (n + BSIZE - 1) / BSIZE.

Lemma ceil_blocks_spec n : 0 <= n -> (ceil_blocks n - 1) * BSIZE < n <= ceil_blocks n * BSIZE /\ 0 <= ceil_blocks n.
Proof.
  intros Hn. unfold ceil_blocks. rewrite BSIZE_val. pose proof (Z.div_mod (n + 512 - 1) 512). pose proof (Z.mod_pos_bound (n + 512 - 1) 512). lia.
Qed.

(** An extent file with the contents [data], none of which is zero. *)
Record ext_file (v : Z -> bytes) (i : inode) (data : bytes) : Prop := {
  xf_size : i_size i = Z.of_nat (length data);
  xf_sis : i_sisterblocks i = ceil_blocks (Z.of_nat (length data));
  xf_num : 0 <= i_numExtents i;
  xf_off : i_eOffset i = 0 /\ i_lOffset i = 0;
  xf_some : data <> [] -> 0 < i_numExtents i;
  xf_first : 0 < i_numExtents i -> exists e, i_extentz i !! 0%nat = Some e /\ 0 < e_length e;
  xf_map : forall bn, 0 <= bn < i_sisterblocks i -> faddr v (i_addrs i) bn <> 0;
  xf_bytes : forall k, 0 <= k < MAXFILE * BSIZE -> fbyte v (i_addrs i) k = nth0 data (Z.to_nat k);
  xf_nonzero : Forall (fun c => c <> 0) data;
  xf_max : Z.of_nat (length data) <= MAXFILE * BSIZE
}.

Section claims.
Context {S : Type} `{!BlockIO S} `{!BlockSpec S}.
Context (dev_read : Z -> option (nat -> Z -> M (fstate S) (Z * bytes))).
Context (dev_write : Z -> option (nat -> bytes -> Z -> M (fstate S) Z)).

(** Room for [n] more bytes: blocks and [fr] more, space in the log for the
    blocks of the slots [P], a free extent. *)
Record ext_room (P : list slot) (fr : nat) (s : fstate S) (v : Z -> bytes) (L : list Z) (i : inode) (n : Z) : Prop := {
  xr_free : let pos := ext_pos (i_sisterblocks i) (i_size i) in
    free_ge (f_sb s) v (3 * Z.to_nat (blocks_left pos (pos + n)) + fr);
  xr_slots : Forall slot_ok P;
  xr_log : (length L + 2 * length P <= 25)%nat;
  xr_path : let pos := ext_pos (i_sisterblocks i) (i_size i) in
    forall bn, pos / BSIZE <= bn -> bn * BSIZE < pos + n -> path bn ⊆ P;
  xr_max : ext_pos (i_sisterblocks i) (i_size i) + n <= MAXFILE * BSIZE;
  xr_extents : i_numExtents i < Z.of_nat (length (i_extentz i)) /\ i_numExtents i < NDIRECT
}.

Definition ext_wrote (P : list slot) (fr : nat) (g : geom) (o : Z) (dur : Z -> bytes) (v : Z -> bytes) (L : list Z) (ip : nat) (i : inode) (src : bytes)
    (s s' : fstate S) (v' : Z -> bytes) (L' : list Z) (i' : inode) : Prop :=
  let n := Z.of_nat (length src) in
  let pos := ext_pos (i_sisterblocks i) (i_size i) in
  i' = ext_written v' (i_addrs i') (i_size i) n i /\ ext_state g o dur s' v' L' ip i' /\
  others_same (f_sb s) (i_inum i) v (i_addrs i) v' (i_addrs i') /\ disk_inode (f_sb s) v' (i_inum i) = i_dinode i' /\
  spliced v (i_addrs i) v' (i_addrs i') pos n src /\ (length L' <= length L + 2 * length P + 1)%nat /\
  free_ge (f_sb s) v' fr /\ f_sb s' = f_sb s.

Lemma wp_ext_file_write P fr g o dur s v L ip i data src (Q : Z -> fstate S -> Prop) :
  ext_state g o dur s v L ip i -> ext_file v i data -> ext_room P fr s v L i (Z.of_nat (length src)) -> 1 <= o ->
  src <> [] -> Forall is_byte src ->
  (forall s' v' L' i', ext_wrote P fr g o dur v L ip i src s s' v' L' i' -> Q (Z.of_nat (length src)) s') ->
  wp (writei dev_write ip src (i_size i) (Z.of_nat (length src))) s Q.
Proof.
  intros Hs [Hsz Hsis Hnum _ _ _ _ _ _ _] [Hfree HP HL Hpath Hmax [Hx Hx']] Ho Hne Hby HQ.
  pose proof (ceil_blocks_spec (Z.of_nat (length data))) as Hc. pose proof (block_split (i_size i)) as Hb.
  assert (Hn : 0 < Z.of_nat (length src)) by (destruct src; [done|cbn; lia]).
  assert (Hle : i_size i <= ext_pos (i_sisterblocks i) (i_size i)) by (unfold ext_pos; lia).
  eapply (wp_writei_ext dev_write g o dur s v L P ip i src); try done; try lia.
  intros b' v' ad' L' i' s' Hs' Hoth Sp HL' Hd Hfr'. assert (Ea : i_addrs i' = ad') by done.
  apply (HQ _ v' L' i'). unfold ext_wrote. rewrite Ea. done.
Qed.

Lemma ext_readable_file v i data : ext_file v i data -> 0 < i_sisterblocks i -> ext_readable v i.
Proof.
  intros [Hsz Hsis Hnum [Ho _] Hf Hf2 Hm _ _ Hmx] H0. assert (Hn : 0 < i_numExtents i).
  { apply Hf. intros ->. rewrite Hsis in H0. by vm_compute in H0. }
  split; [done|done|by apply Hf2| |done]. rewrite Hsis. pose proof (ceil_blocks_spec (Z.of_nat (length data))) as Hc. rewrite MAXFILE_val, BSIZE_val in *. lia.
Qed.

Lemma read_file g o dur s v L ip i data fuel off n :
  ext_state g o dur s v L ip i -> (length L < NBUFn)%nat -> ext_file v i data -> i_sisterblocks i < Z.of_nat fuel ->
  exists s', read_all dev_read fuel ip off n s = Ok data s'.
Proof.
  intros Hs HL Hx Hf. pose proof Hx as [Hsz Hsis Hnum [_ Hlo] _ _ _ Hb Hnz Hmx].
  pose proof (ceil_blocks_spec (Z.of_nat (length data))) as Hc. assert (Hok : forall c, is_block (v c)) by (intros c; eapply rep_ok, Hs).
  assert (Hwp : wp (read_all dev_read fuel ip off n) s (fun r _ => r = data)).
  { eapply (wp_read_all dev_read g o dur v L ip n fuel s i); try done; [by eapply ext_readable_file|lia|lia|]. intros _.
    rewrite Hlo, Z.sub_0_r. rewrite <- (Z2Nat.id (i_sisterblocks i)) by lia.
    destruct (data_texts v (i_addrs i) data (i_sisterblocks i) Hok) with (m := Z.to_nat (i_sisterblocks i)) (lo := 0) as [_ E]; try done; try lia.
    intros k Hk. apply Hb. rewrite MAXFILE_val, BSIZE_val in *. lia. }
  apply wp_inv in Hwp as (r & s' & E & ->). by exists s'.
Qed.

Lemma blocks_left_aligned p n : p mod BSIZE = 0 -> 0 <= p -> 0 < n -> blocks_left p (p + n) = ceil_blocks (p + n) - ceil_blocks p.
Proof.
  intros Hp Hp0 Hn. unfold blocks_left, ceil_blocks. rewrite (proj2 (Z.leb_gt _ _)) by lia. rewrite BSIZE_val in *.
  pose proof (Z.div_mod p 512). replace (p + 512 - 1) with (p / 512 * 512 + 511) by lia. rewrite Z.div_add_l by lia. change (511 / 512) with 0.
  replace (p + n + 512 - 1) with ((p + n - 1) + 1 * 512) by lia. rewrite Z.div_add by lia. lia.
Qed.

Lemma ext_pos_aligned n : 0 <= n -> n mod BSIZE = 0 -> ext_pos (ceil_blocks n) n = n.
Proof.
  intros Hn Hm. unfold ext_pos. rewrite Hm. unfold ceil_blocks. rewrite BSIZE_val in *.
  pose proof (Z.div_mod n 512). replace (n + 512 - 1) with (n / 512 * 512 + 511) by lia. rewrite Z.div_add_l by lia. change (511 / 512) with 0. lia.
Qed.

(** The extents of the inode after a write. *)
Lemma ext_written_first v ad off n i :
  0 < n -> 0 <= off -> 0 <= i_sisterblocks i -> 0 <= i_numExtents i < Z.of_nat (length (i_extentz i)) ->
  (0 < i_numExtents i -> exists e, i_extentz i !! 0%nat = Some e /\ 0 < e_length e) ->
  exists e, i_extentz (ext_written v ad off n i) !! 0%nat = Some e /\ 0 < e_length e.
Proof.
  intros Hn Hoff Hsis Hx Hf. cbn [ext_written i_extentz set_size set_extents set_dinode set_addrs].
  destruct (decide (i_numExtents i = 0)) as [E|E].
  - rewrite E. change (Z.to_nat 0) with 0%nat. rewrite list_lookup_insert_eq by lia. eexists. split; [done|]. cbn [e_length].
    pose proof (blocks_left_step (ext_pos (i_sisterblocks i) off) 0 n) as [Hb Hb0]; [|lia|].
    + unfold ext_pos. pose proof (block_split off). rewrite BSIZE_val in *. lia.
    + rewrite Z.add_0_r in Hb, Hb0. lia.
  - rewrite list_lookup_insert_ne by lia. apply Hf. lia.
Qed.

Lemma append_file P fr g o dur v ip i data src s s' v' L' i' L :
  ext_wrote P fr g o dur v L ip i src s s' v' L' i' -> ext_file v i data -> ext_room P fr s v L i (Z.of_nat (length src)) ->
  i_size i mod BSIZE = 0 -> src <> [] -> Forall (fun c => c <> 0) src -> ext_file v' i' (data ++ src).
Proof.
  intros (Ei & _ & _ & _ & (Sp1 & Sp2 & Sp3) & _) [Hsz Hsis Hnum [Ho Hl] Hs Hf Hm Hb Hnz Hmx] [_ _ _ _ Hmax [Hx _]] Hal Hne Hnz'.
  set (n := Z.of_nat (length src)) in *. assert (Hn : 0 < n) by (unfold n; destruct src; [done|cbn; lia]).
  rewrite Hsis, Hsz in *. set (d := Z.of_nat (length data)) in *. rewrite ext_pos_aligned in * by lia.
  assert (Hlen : Z.of_nat (length (data ++ src)) = d + n) by (rewrite length_app; lia). pose proof Hmax as Hmx2. rewrite MAXFILE_val, BSIZE_val in Hmx2.
  assert (Esis : i_sisterblocks i' = ceil_blocks (d + n)).
  { rewrite Ei. cbn [ext_written i_sisterblocks set_size set_extents set_dinode set_addrs]. rewrite Hsis, ext_pos_aligned, blocks_left_aligned by lia. lia. }
  pose proof (ceil_blocks_spec (d + n)) as Hc. pose proof (ceil_blocks_spec d) as Hc'.
  split; rewrite ?Hlen; try done.
  - rewrite Ei. cbn [ext_written i_size set_size set_extents set_dinode set_addrs d_size]. rewrite Hsz. apply u32_small. lia.
  - rewrite Ei. cbn [ext_written i_numExtents set_size set_extents set_dinode set_addrs]. lia.
  - rewrite Ei. done.
  - intros _. rewrite Ei. cbn [ext_written i_numExtents set_size set_extents set_dinode set_addrs]. lia.
  - intros _. rewrite Ei. apply ext_written_first; try done; lia.
  - rewrite Esis. intros bn Hbn. assert (HbM : 0 <= bn < MAXFILE) by (rewrite MAXFILE_val, BSIZE_val in *; lia).
    destruct (decide (bn < ceil_blocks d)) as [Hlt|Hge].
    + rewrite Sp3; [by apply Hm; lia|done|apply Hm; lia].
    + pose proof (Sp2 (bn * BSIZE)) as H. rewrite Z.div_mul in H by done. apply H. rewrite BSIZE_val in *. lia.
  - intros k Hk. rewrite Sp1, Hb by done. rewrite !nth0_lookup. case_decide as Hd.
    + rewrite lookup_app_r by lia. do 2 f_equal. lia.
    + destruct (decide (k < d)); [by rewrite lookup_app_l by lia|]. by rewrite !lookup_ge_None_2 by (rewrite ?length_app; lia).
  - by apply Forall_app.
Qed.

Lemma room_bound P fr s v L i data n : ext_file v i data -> ext_room P fr s v L i n -> Z.of_nat (length data) + n <= MAXFILE * BSIZE.
Proof.
  intros [_ Hsis _ _ _ _ _ _ _ _] [_ _ _ _ Hmax _]. unfold ext_pos in Hmax. pose proof (block_split (i_size i)).
  pose proof (ceil_blocks_spec (Z.of_nat (length data))). rewrite <- Hsis in *. lia.
Qed.

(** Readers find every block after a write, aligned or not. *)
Lemma wrote_readable P fr g o dur v ip i data src s s' v' L' i' L :
  ext_wrote P fr g o dur v L ip i src s s' v' L' i' -> ext_file v i data -> ext_room P fr s v L i (Z.of_nat (length src)) -> src <> [] ->
  ext_readable v' i' /\ i_lOffset i' = 0 /\ i_sisterblocks i < i_sisterblocks i'.
Proof.
  intros (Ei & _ & _ & _ & (_ & Sp2 & Sp3) & _) [Hsz Hsis Hnum [Ho Hl] Hso Hf Hm Hb Hnz Hmx] [_ _ _ _ Hmax [Hxt _]] Hne.
  set (m := Z.of_nat (length src)) in *. assert (Hn : 0 < m) by (unfold m; destruct src; [done|cbn; lia]).
  set (K := i_sisterblocks i) in *. set (pos := ext_pos K (i_size i)) in *. pose proof (block_split (i_size i)) as [_ Hr].
  assert (Hpos : K * BSIZE <= pos < (K + 1) * BSIZE) by (unfold pos, ext_pos; rewrite BSIZE_val in *; lia).
  pose proof (ceil_blocks_spec (Z.of_nat (length data))) as Hc. rewrite <- Hsis in Hc. assert (HK : 0 <= K) by lia.
  set (e := (pos + m - 1) / BSIZE). pose proof (block_split (pos + m - 1)) as [He1 He2]. fold e in He1, He2.
  assert (Esis : i_sisterblocks i' = e + 1).
  { rewrite Ei. cbn [ext_written i_sisterblocks set_size set_extents set_dinode set_addrs]. fold K pos. unfold blocks_left.
    rewrite (proj2 (Z.leb_gt _ _)) by lia. fold e. unfold pos. rewrite ext_pos_div. lia. }
  assert (HeM : K <= e < MAXFILE) by (rewrite MAXFILE_val, BSIZE_val in *; lia).
  split; [|split; [by rewrite Ei|lia]]. split; [by rewrite Ei| | | |].
  - rewrite Ei. cbn [ext_written i_numExtents set_size set_extents set_dinode set_addrs]. lia.
  - rewrite Ei. apply ext_written_first; try done; lia.
  - lia.
  - rewrite Esis. intros bn Hbn. destruct (decide (bn < K)) as [Hlt|Hge]; [rewrite Sp3; [apply Hm; lia|lia|apply Hm; lia]|].
    destruct (decide (bn = K)) as [->|HneK]; [rewrite <- (ext_pos_div K (i_size i)); fold pos; apply Sp2; lia|].
    pose proof (Sp2 (bn * BSIZE)) as H. rewrite Z.div_mul in H by done. apply H. rewrite BSIZE_val in *. lia.
Qed.

(** After a size that is not a multiple of the block size, the new block starts
    with zeros, and readers take it for the end of the file. *)
Lemma append_lost P fr g o dur v ip i data src s s' v' L' i' L fuel off n :
  ext_wrote P fr g o dur v L ip i src s s' v' L' i' -> ext_file v i data -> ext_room P fr s v L i (Z.of_nat (length src)) ->
  i_size i mod BSIZE <> 0 -> src <> [] -> i_sisterblocks i' < Z.of_nat fuel ->
  exists s2, read_all dev_read fuel ip off n s' = Ok data s2.
Proof.
  intros Hw Hx Hroom Hal Hne Hfuel. destruct (wrote_readable _ _ _ _ _ _ _ _ _ _ _ _ _ _ _ _ Hw Hx Hroom Hne) as (Hrd & El & Hk).
  destruct Hw as (_ & Hs' & _ & _ & (Sp1 & _) & HL' & _). destruct Hx as [Hsz Hsis _ _ _ _ _ Hb Hnz _]. destruct Hroom as [_ _ Hlog _ Hmax _].
  set (K := i_sisterblocks i) in *. set (pos := ext_pos K (i_size i)) in *. pose proof (block_split (i_size i)) as [_ Hr].
  assert (Hpos : K * BSIZE < pos) by (unfold pos, ext_pos; lia). pose proof (er_max _ _ Hrd) as HKM.
  pose proof (ceil_blocks_spec (Z.of_nat (length data))) as Hc. rewrite <- Hsis in Hc.
  assert (Hok : forall c, is_block (v' c)) by (intros c; eapply rep_ok, Hs').
  assert (Hold : forall j, 0 <= j <= K * BSIZE -> fbyte v' (i_addrs i') j = nth0 data (Z.to_nat j)).
  { intros j Hj. rewrite Sp1, decide_False by (rewrite ?MAXFILE_val, ?BSIZE_val in *; lia). apply Hb. rewrite MAXFILE_val, BSIZE_val in *. lia. }
  assert (Hwp : wp (read_all dev_read fuel ip off n) s' (fun r _ => r = data)).
  { eapply (wp_read_all dev_read g o dur v' L' ip n fuel s' i'); try done; [unfold NBUFn; lia|lia|lia|]. intros _.
    rewrite El, Z.sub_0_r. replace (i_sisterblocks i') with (K + (i_sisterblocks i' - K)) by lia.
    unfold blocks_from. rewrite seqZ_app, map_app by lia. fold (blocks_from v' (i_addrs i') 0 K).
    destruct (data_texts v' (i_addrs i') data K Hok) with (m := Z.to_nat K) (lo := 0) as [F E]; try done; try lia.
    { intros j Hj. apply Hold. lia. }
    rewrite Z2Nat.id in F, E by lia. rewrite texts_app, E by done. change (drop (512 * Z.to_nat 0) data) with data.
    rewrite Z.add_0_l, seqZ_cons by lia. cbn [map texts]. rewrite decide_True; [by rewrite app_nil_r|].
    rewrite fblock_fbytes by done. rewrite cstring_split. unfold fbytes. rewrite seqZ_cons by done. cbn [fmap list_fmap hd0].
    rewrite Hold by (rewrite BSIZE_val in *; lia). rewrite nth0_lookup, lookup_ge_None_2; [done|]. rewrite BSIZE_val in *. lia. }
  apply wp_inv in Hwp as (r & s2 & E & ->). by exists s2.
Qed.
End claims.

(** C24: appending to an extent file whose size is a multiple of the block size.
    For bytes other than zero and with room for them, [writei] returns their
    number; the inode gains one extent, which records the first block and the
    number of blocks; the inode on disk is that in memory; other files keep their
    blocks and inodes; and reading the file from its start until [readi] returns
    0 gives the old contents followed by the new bytes. *)
Theorem extent_append {S} `{!BlockIO S} `{!BlockSpec S}
    (dev_read : Z -> option (nat -> Z -> M (fstate S) (Z * bytes)))
    (dev_write : Z -> option (nat -> bytes -> Z -> M (fstate S) Z)) P g o dur (s : fstate S) v L ip i data src :
  let n := Z.of_nat (length src) in
  ext_state g o dur s v L ip i -> ext_file v i data -> ext_room P 0 s v L i n -> 1 <= o ->
  i_size i mod BSIZE = 0 -> src <> [] -> Forall is_byte src -> Forall (fun c => c <> 0) src ->
  exists s' v' L' i', writei dev_write ip src (i_size i) n s = Ok n s' /\
    ext_state g o dur s' v' L' ip i' /\ ext_file v' i' (data ++ src) /\
    i_numExtents i' = i_numExtents i + 1 /\
    i_extentz i' !! Z.to_nat (i_numExtents i) = Some (mkExtent (ceil_blocks n) (faddr v' (i_addrs i') (i_sisterblocks i))) /\
    disk_inode (f_sb s) v' (i_inum i) = i_dinode i' /\
    others_same (f_sb s) (i_inum i) v (i_addrs i) v' (i_addrs i') /\
    forall fuel off m, i_sisterblocks i' < Z.of_nat fuel -> exists s2, read_all dev_read fuel ip off m s' = Ok (data ++ src) s2.
Proof.
  intros n Hs Hx Hroom Ho Hal Hne Hby Hnz.
  assert (Hwp : wp (writei dev_write ip src (i_size i) n) s (fun r s' => r = n /\ exists v' L' i', ext_wrote P 0 g o dur v L ip i src s s' v' L' i')).
  { eapply wp_ext_file_write; try done. intros. split; [done|]. by do 3 eexists. }
  apply wp_inv in Hwp as (r & s' & E & -> & v' & L' & i' & Hw). exists s', v', L', i'. split; [exact E|]. clear E.
  pose proof (append_file _ _ _ _ _ _ _ _ _ _ _ _ _ _ _ _ Hw Hx Hroom Hal Hne Hnz) as Hx'.
  destruct Hw as (Ei & Hs' & Hoth & Hd & _ & HL' & _). split; [done|]. split; [done|]. split; [by rewrite Ei|].
  split; [|split; [done|split; [done|]]].
  - rewrite Ei at 1. cbn [ext_written i_extentz set_size set_extents set_dinode set_addrs]. destruct (xr_extents _ _ _ _ _ _ _ Hroom) as [Hx1 _].
    destruct Hx as [Hsz Hsis Hnum _ _ _ _ _ _ _]. rewrite list_lookup_insert_eq by lia. do 2 f_equal. fold n.
    rewrite Hsis, Hsz in *. rewrite ext_pos_aligned by lia. unfold blocks_left, ceil_blocks.
    assert (Hn : 0 < n) by (unfold n; destruct src; [done|cbn; lia]). rewrite (proj2 (Z.leb_gt _ _)) by lia. rewrite BSIZE_val in *.
    set (d := Z.of_nat (length data)) in *. pose proof (Z.div_mod d 512). replace (d + n - 1) with (d / 512 * 512 + (n - 1)) by lia.
    rewrite Z.div_add_l by lia. replace (n + 512 - 1) with (n - 1 + 1 * 512) by lia. rewrite Z.div_add by lia. lia.
  - intros fuel off m Hf. eapply read_file; try done. pose proof (xr_log _ _ _ _ _ _ _ Hroom). unfold NBUFn. lia.
Qed.

(** C39: appending to an extent file whose size is not a multiple of the block
    size loses the data.  [writei] returns the number of bytes and adds it to the
    size, but the bytes go into a new block, at the offset that continues the
    last one; a reader finds that block empty and stops, with the old contents
    only. *)
Theorem extent_append_lost {S} `{!BlockIO S} `{!BlockSpec S}
    (dev_read : Z -> option (nat -> Z -> M (fstate S) (Z * bytes)))
    (dev_write : Z -> option (nat -> bytes -> Z -> M (fstate S) Z)) P g o dur (s : fstate S) v L ip i data src :
  let n := Z.of_nat (length src) in
  ext_state g o dur s v L ip i -> ext_file v i data -> ext_room P 0 s v L i n -> 1 <= o ->
  i_size i mod BSIZE <> 0 -> src <> [] -> Forall is_byte src ->
  exists s' i', writei dev_write ip src (i_size i) n s = Ok n s' /\
    f_icache s' !! ip = Some i' /\ i_size i' = Z.of_nat (length (data ++ src)) /\
    forall fuel off m, i_sisterblocks i' < Z.of_nat fuel -> exists s2, read_all dev_read fuel ip off m s' = Ok data s2.
Proof.
  intros n Hs Hx Hroom Ho Hal Hne Hby.
  assert (Hwp : wp (writei dev_write ip src (i_size i) n) s (fun r s' => r = n /\ exists v' L' i', ext_wrote P 0 g o dur v L ip i src s s' v' L' i')).
  { eapply wp_ext_file_write; try done. intros. split; [done|]. by do 3 eexists. }
  apply wp_inv in Hwp as (r & s' & E & -> & v' & L' & i' & Hw). exists s', i'. split; [exact E|]. clear E.
  pose proof Hw as (Ei & Hs' & _). split; [apply Hs'|]. split.
  - rewrite Ei. cbn [ext_written i_size set_size set_extents set_dinode set_addrs d_size]. pose proof (room_bound _ _ _ _ _ _ _ _ Hx Hroom) as Hb.
    rewrite (xf_size _ _ _ Hx), length_app. rewrite u32_small by (rewrite MAXFILE_val, BSIZE_val in Hb; lia). lia.
  - intros fuel off m Hf. by eapply append_lost.
Qed.
