(* ===== verification/FsTrunc.v ===== *)
(** [itrunc] of fs.c: which blocks truncating an inode frees. *)
From S2P Require Import Prelude Layout Locks Bio Log LogRep Fs FsBlock FsMap FsData FsInode.

(** The disk with the blocks of [l] unmarked. *)
Definition vfrees (sb : superblock) (v : Z -> bytes) (l : list Z) : Z -> bytes :=
  foldl (v_free sb) v l.

Lemma vfrees_snoc sb v l c : vfrees sb v (l ++ [c]) = v_free sb (vfrees sb v l) c.
Proof. unfold vfrees. by rewrite foldl_app. Qed.

Lemma vfrees_other g sb v l c :
  sb_ok g sb -> Forall (fun b => 0 <= b < sb_size sb) l ->
  ~ (sb_bmapstart sb <= c < datastart sb) -> vfrees sb v l c = v c.
Proof.
  intros Hsb Hl Hc. induction l as [|x l IH] using rev_ind; [done|].
  apply Forall_app in Hl as [Hl Hx]. rewrite Forall_singleton in Hx.
  rewrite vfrees_snoc. unfold v_free. pose proof (BBLOCK_bounds sb x Hx).
  rewrite vupd_ne by lia. by apply IH.
Qed.

Lemma vfrees_ok sb v l :
  (forall c, is_block (v c)) -> forall c, is_block (vfrees sb v l c).
Proof.
  intros Hok. induction l as [|x l IH] using rev_ind; [done|]. intros c. rewrite vfrees_snoc.
  unfold v_free, vupd. case_decide; [by apply clear_bit_ok|apply IH].
Qed.

Lemma vfrees_used sb v l c :
  (forall c, is_block (v c)) ->
  used sb (vfrees sb v l) c = used sb v c && bool_decide (c ∉ l).
Proof.
  intros Hok. induction l as [|x l IH] using rev_ind.
  { rewrite bool_decide_eq_true_2 by apply not_elem_of_nil. by rewrite andb_true_r. }
  rewrite vfrees_snoc, used_free by (by apply vfrees_ok). destruct (decide (c = x)) as [E|E].
  - subst. symmetry. apply andb_false_iff. right. apply bool_decide_eq_false_2. set_solver.
  - rewrite IH. f_equal. apply bool_decide_ext. set_solver.
Qed.

(** * The slots [itrunc] frees, in its order *)

Definition trunc_slots : list slot :=
  map SAddr (seqZ 0 11) ++ map SInd (seqZ 0 128) ++ [SAddr 11].

Lemma trunc_slots_ok : Forall slot_ok trunc_slots.
Proof.
  unfold trunc_slots. rewrite !Forall_app. split_and!; [| |by apply Forall_singleton].
  - apply Forall_forall. intros t (k & -> & Hk)%list_elem_of_fmap. apply elem_of_seqZ in Hk. cbn. lia.
  - apply Forall_forall. intros t (k & -> & Hk)%list_elem_of_fmap. apply elem_of_seqZ in Hk. cbn. lia.
Qed.

Lemma trunc_slots_NoDup : NoDup trunc_slots.
Proof. apply (bool_decide_unpack _). vm_compute. done. Qed.

Lemma lookup_trunc_direct k : (k < 11)%nat -> trunc_slots !! k = Some (SAddr (Z.of_nat k)).
Proof.
  intros H. unfold trunc_slots. rewrite lookup_app_l by (rewrite length_map, length_seqZ; lia).
  rewrite list_lookup_fmap, lookup_seqZ_lt by lia. done.
Qed.

Lemma lookup_trunc_ind j : (j < 128)%nat -> trunc_slots !! (11 + j)%nat = Some (SInd (Z.of_nat j)).
Proof.
  intros H. unfold trunc_slots. rewrite lookup_app_r by (rewrite length_map, length_seqZ; lia).
  rewrite length_map, length_seqZ. rewrite lookup_app_l by (rewrite length_map, length_seqZ; lia).
  replace (11 + j - Z.to_nat 11)%nat with j by lia.
  rewrite list_lookup_fmap, lookup_seqZ_lt by lia. done.
Qed.

Section vals.
Context (g : geom) (sb : superblock) (Hsb : sb_ok g sb) (v : Z -> bytes) (ad : list Z).
Hypothesis Hwf : blocks_wf sb v ad.

(** The blocks freed by the first [m] steps. *)
Definition freed (m : nat) : list Z :=
  filter (fun c => c <> 0) (slot_val v ad <$> take m trunc_slots).

Lemma freed_S m t :
  trunc_slots !! m = Some t ->
  freed (S m) = freed m ++ (if decide (slot_val v ad t <> 0) then [slot_val v ad t] else []).
Proof.
  intros Ht. unfold freed. rewrite (take_S_r _ _ _ Ht), fmap_app, filter_app. f_equal.
Qed.

Lemma elem_freed m c :
  c ∈ freed m <-> c <> 0 /\ exists k t, (k < m)%nat /\ trunc_slots !! k = Some t /\ slot_val v ad t = c.
Proof.
  unfold freed. rewrite list_elem_of_filter, list_elem_of_fmap. split.
  - intros (Hc & t & -> & Ht). apply elem_of_take in Ht as (k & Hk & Hlt). split; [done|].
    exists k, t. done.
  - intros (Hc & k & t & Hlt & Hk & <-). split; [done|]. exists t. split; [done|].
    apply elem_of_take. eauto.
Qed.

Lemma freed_range m : Forall (fun b => datastart sb <= b < sb_size sb) (freed m).
Proof.
  apply Forall_forall. intros c. rewrite elem_freed. intros (Hc & k & t & _ & Hk & <-).
  pose proof (proj1 (Forall_lookup _ _) trunc_slots_ok _ _ Hk) as Hok.
  apply (bw_range Hwf t Hok Hc).
Qed.

Lemma freed_range0 m : Forall (fun b => 0 <= b < sb_size sb) (freed m).
Proof.
  eapply Forall_impl; [apply freed_range|]. intros c ?. pose proof (sb_order _ _ Hsb). cbn in *. lia.
Qed.

(** A slot's block is not freed before its turn. *)
Lemma freed_fresh m t :
  trunc_slots !! m = Some t -> slot_val v ad t <> 0 -> slot_val v ad t ∉ freed m.
Proof.
  intros Hm Hne. rewrite elem_freed. intros (_ & k & t' & Hlt & Hk & E).
  pose proof (proj1 (Forall_lookup _ _) trunc_slots_ok _ _ Hk) as Hok'.
  pose proof (proj1 (Forall_lookup _ _) trunc_slots_ok _ _ Hm) as Hok.
  assert (t = t') as <- by (apply (bw_inj Hwf); auto).
  pose proof (NoDup_lookup _ _ _ _ trunc_slots_NoDup Hk Hm). lia.
Qed.
End vals.

(** [addrs] with its first [k] entries cleared. *)
Definition cleared (k : nat) (ad : list Z) : list Z := replicate k 0 ++ drop k ad.

Lemma length_cleared k ad : (k <= length ad)%nat -> length (cleared k ad) = length ad.
Proof. intros. unfold cleared. rewrite length_app, length_replicate, length_drop. lia. Qed.

Lemma cleared_lookup k ad j :
  (k <= j)%nat -> cleared k ad !! j = ad !! j.
Proof.
  intros H. unfold cleared. rewrite lookup_app_r by (rewrite length_replicate; lia).
  rewrite length_replicate, lookup_drop. f_equal. lia.
Qed.

Lemma cleared_S k ad a : ad !! k = Some a -> cleared (S k) ad = <[k:=0]> (cleared k ad).
Proof.
  intros H. unfold cleared. rewrite insert_app_r_alt by (by rewrite length_replicate).
  rewrite length_replicate, Nat.sub_diag. rewrite (drop_S _ _ _ H). cbn [insert list_insert].
  rewrite replicate_S_end, <- app_assoc. done.
Qed.

Lemma cleared_S_zero k ad : ad !! k = Some 0 -> cleared (S k) ad = cleared k ad.
Proof. intros H. rewrite (cleared_S _ _ _ H). apply list_insert_id. by rewrite cleared_lookup. Qed.

Section itrunc.
Context {S : Type} `{!BlockIO S} `{!BlockSpec S}.
Context (g : geom) (sb : superblock) (Hsb : sb_ok g sb).
Context (o : Z) (dur : Z -> bytes) (Ho : 1 <= o).
Context (ic : list inode) (pid : Z) (cwd : nat) (ip : nat) (i : inode).
Hypothesis Hip : ic !! ip = Some i.
Hypothesis Hok : inode_ok sb i.
Context (v : Z -> bytes) (L B : list Z).
Hypothesis Hwf : blocks_wf sb v (i_addrs i).
Hypothesis HB : forall t, slot_ok t -> slot_val v (i_addrs i) t <> 0 ->
  BBLOCK (slot_val v (i_addrs i) t) sb ∈ B.
Hypothesis Hbud : (length L + length B <= 25)%nat.

Local Abbreviation ad := (i_addrs i).
Local Abbreviation st b a := (mkF b (<[ip := set_addrs a i]> ic) sb pid cwd).
Local Abbreviation rep := (rep g o dur).
Local Abbreviation freed := (freed v ad).

(** The state after [m] steps: the blocks of the slots so far are unmarked. *)
Record tinv (m : nat) (b : S) (h : gmap nat Z) (L' : list Z) : Prop := {
  ti_rep : rep b (vfrees sb v (freed m)) h L';
  ti_log : forall c, c ∈ L' -> c ∈ L ++ B
}.

Lemma tinv_length m b h L' : tinv m b h L' -> (length L' <= 25)%nat.
Proof.
  intros [Hr Hl]. pose proof (rep_nodup _ _ _ _ _ _ _ Hr) as Hnd.
  assert (Hs : L' ⊆+ L ++ B) by (by apply NoDup_submseteq).
  apply submseteq_length in Hs. rewrite length_app in Hs. lia.
Qed.

Lemma wp_trunc_step ic' m t b h L' (Q : unit -> fstate S -> Prop) :
  (forall c, is_block (v c)) -> (size h <= 1)%nat ->
  (forall j e, h !! j = Some e -> datastart sb <= e) ->
  trunc_slots !! m = Some t -> slot_val v ad t <> 0 -> tinv m b h L' ->
  (forall b' L'', tinv (Datatypes.S m) b' h L'' -> Q tt (mkF b' ic' sb pid cwd)) ->
  wp (bfree ROOTDEV (slot_val v ad t)) (mkF b ic' sb pid cwd) Q.
Proof.
  intros Hv Hh Hhd Hm Hne Hinv HQ. pose proof (tinv_length _ _ _ _ Hinv) as Hlen.
  destruct Hinv as [Hr Hl].
  pose proof (proj1 (Forall_lookup _ _) trunc_slots_ok _ _ Hm) as Htok.
  destruct (bw_range Hwf t Htok Hne) as [Hrg Hu]. pose proof (sb_order _ _ Hsb) as Hord.
  eapply wp_bfree; [done|exact Hr|lia|done|lia|done| |].
  { rewrite vfrees_used by done. rewrite Hu. apply bool_decide_eq_true_2.
    by apply (freed_fresh sb). }
  intros b' Hr'. eapply HQ. split.
  - rewrite (freed_S _ _ _ _ Hm), decide_True by done. rewrite vfrees_snoc. exact Hr'.
  - intros c. rewrite elem_log_add. intros [Hc| ->]; [by apply Hl|].
    apply elem_of_app. right. by apply HB.
Qed.

Lemma freed_skip m t :
  trunc_slots !! m = Some t -> slot_val v ad t = 0 -> freed (Datatypes.S m) = freed m.
Proof. intros Hm H0. rewrite (freed_S _ _ _ _ Hm), decide_False by tauto. apply app_nil_r. Qed.

Lemma tinv_skip m t b h L' :
  trunc_slots !! m = Some t -> slot_val v ad t = 0 -> tinv m b h L' -> tinv (Datatypes.S m) b h L'.
Proof. intros Hm H0 []. split; [by rewrite (freed_skip _ _ Hm H0)|done]. Qed.

(** The direct blocks. *)
Lemma wp_trunc_direct b (Q : option unit -> fstate S -> Prop) :
  (forall c, is_block (v c)) -> tinv 0 b ∅ L ->
  (forall b' L', tinv 11 b' ∅ L' -> Q None (st b' (cleared 11 ad))) ->
  wp (for_loop (Z.to_nat NDIRECT) 0 (fun k =>
    let* i := geti ip in
    let* addr := deref (i_addrs i !! Z.to_nat k) in
    (if addr =? 0 then ret tt
     else
       bfree (i_dev i) addr ;;
       updi ip (fun i => set_addrs (<[Z.to_nat k := 0]> (i_addrs i)) i)) ;;
    ret (@None unit))) (st b ad) Q.
Proof.
  intros Hv Hinv HQ. pose proof (lookup_lt_Some _ _ _ Hip) as Hlt. pose proof (bw_len Hwf) as Hlen.
  apply (wp_for_loop (fun k s => exists b' L', s = st b' (cleared (Z.to_nat k) ad) /\
    tinv (Z.to_nat k) b' ∅ L')).
  - exists b, L. split; [|done]. unfold cleared. by rewrite drop_0.
  - intros k s Hk (b1 & L1 & -> & H1). change (Z.of_nat (Z.to_nat NDIRECT)) with 11 in Hk.
    assert (Hkl : (Z.to_nat k < 11)%nat) by lia.
    pose proof (lookup_trunc_direct _ Hkl) as Hslot. rewrite Z2Nat.id in Hslot by lia.
    pose proof (nth0_lookup_lt ad (Z.to_nat k)) as Hk0. rewrite Hlen in Hk0.
    specialize (Hk0 ltac:(lia)).
    replace (Z.to_nat (k + 1)) with (Datatypes.S (Z.to_nat k)) by lia.
    wp_step. apply wp_geti; [done|]. cbn [i_addrs i_dev set_addrs set_dinode d_addrs]. wp_step. wp_step.
    { rewrite cleared_lookup by lia. exact Hk0. }
    change (nth0 ad (Z.to_nat k)) with (slot_val v ad (SAddr k)) in *. wp_step.
    destruct (Z.eqb_spec (slot_val v ad (SAddr k)) 0) as [E0|E0].
    + wp_step. wp_step. exists b1, L1. split; [|by eapply tinv_skip].
      rewrite E0 in Hk0. by rewrite cleared_S_zero.
    + rewrite (io_dev _ _ Hok). wp_step.
      eapply wp_trunc_step; [done|rewrite map_size_empty; lia| |exact Hslot|done|exact H1|].
      { intros j e. by rewrite lookup_empty. }
      intros b2 L2 H2. apply wp_updi_addrs with (f := fun a => <[Z.to_nat k := 0]> a); [done|].
      wp_step. exists b2, L2. split; [|done]. by rewrite (cleared_S _ _ _ Hk0).
  - intros s (b' & L' & -> & H'). by apply (HQ b' L').
Qed.

(** The blocks listed by the indirect block [a]. *)
Lemma wp_trunc_ind ic' b j a (Q : option unit -> fstate S -> Prop) L1 :
  (forall c, is_block (v c)) -> slot_val v ad (SAddr 11) = a -> a <> 0 ->
  tinv 11 b (<[j := a]> ∅) L1 ->
  (forall b' L', tinv 139 b' (<[j := a]> ∅) L' -> Q None (mkF b' ic' sb pid cwd)) ->
  wp (for_loop (Z.to_nat NINDIRECT) 0 (fun k =>
       let* data := io (io_data j) in
       (if get_slot data k =? 0 then ret tt else bfree ROOTDEV (get_slot data k)) ;;
       ret (@None unit))) (mkF b ic' sb pid cwd) Q.
Proof.
  intros Hv Ha Ha0 Hinv HQ.
  assert (Har : datastart sb <= a < sb_size sb).
  { rewrite <- Ha in *. by apply (bw_range Hwf (SAddr 11)). }
  apply (wp_for_loop (fun k s => exists b' L', s = mkF b' ic' sb pid cwd /\
    tinv (11 + Z.to_nat k) b' (<[j := a]> ∅) L')).
  - by exists b, L1.
  - intros k s Hk (b1 & L1' & -> & H1). change (Z.of_nat (Z.to_nat NINDIRECT)) with 128 in Hk.
    assert (Hkl : (Z.to_nat k < 128)%nat) by lia.
    pose proof (lookup_trunc_ind _ Hkl) as Hslot. rewrite Z2Nat.id in Hslot by lia.
    replace (11 + Z.to_nat (k + 1))%nat with (Datatypes.S (11 + Z.to_nat k)) by lia.
    wp_step. eapply wp_io_data; [apply H1|apply lookup_insert_eq|].
    rewrite (vfrees_other g) by (done || apply (freed_range0 g sb Hsb v ad Hwf) || lia).
    assert (E : get_slot (v a) k = slot_val v ad (SInd k)).
    { rewrite (slot_val_parent v ad (SInd k) (SAddr 11)) by done. unfold entry. rewrite Ha.
      by rewrite (proj2 (Z.eqb_neq a 0)). }
    rewrite E. wp_step. destruct (Z.eqb_spec (slot_val v ad (SInd k)) 0) as [E0|E0].
    + wp_step. wp_step. exists b1, L1'. split; [done|]. by eapply tinv_skip.
    + eapply (wp_trunc_step _ _ _ b1 (<[j := a]> ∅) L1');
        [done|rewrite insert_empty, map_size_singleton; lia| |exact Hslot|done|exact H1|].
      { intros j' e. rewrite lookup_insert_Some, lookup_empty. intros [[_ <-]|[_ ?]]; [lia|done]. }
      intros b2 L2 H2. wp_step. by exists b2, L2.
  - intros s (b' & L' & -> & H'). by apply (HQ b' L').
Qed.

Lemma freed_no_ind m :
  slot_val v ad (SAddr 11) = 0 -> (m <= 129)%nat -> freed (11 + m) = freed 11.
Proof.
  intros H0. induction m as [|m IH]; intros Hm; [done|].
  rewrite Nat.add_succ_r. destruct (decide (m < 128)%nat) as [Hlt|Hge].
  - rewrite (freed_skip _ (SInd (Z.of_nat m))); [apply IH; lia|by apply lookup_trunc_ind|].
    rewrite (slot_val_parent v ad _ (SAddr 11)) by done. unfold entry. by rewrite H0.
  - assert (m = 128)%nat as -> by lia. rewrite (freed_skip _ (SAddr 11)); [apply IH; lia|done|done].
Qed.

Lemma cleared_12 : <[11%nat := 0]> (cleared 11 ad) = cleared 12 ad.
Proof.
  pose proof (nth0_lookup_lt ad 11) as H. rewrite (bw_len Hwf) in H.
  symmetry. eapply cleared_S, H. lia.
Qed.

(** The inode after [itrunc]: the double indirect entry stays. *)
Definition truncated : inode := set_size 0 (set_addrs (cleared 12 ad) i).

Lemma truncated_ok : inode_ok sb truncated.
Proof.
  clear Ho Hip HB Hbud.
  pose proof (addrs_ok _ _ _ _ Hsb Hwf) as Ha. destruct Hok as [? ? (? & ? & ? & ? & ? & Hl & ?)].
  split; try done. split_and!; try done.
  - change (length (cleared 12 ad) = 13%nat). cbn in Hl. rewrite length_cleared; lia.
  - change (Forall is_u32 (cleared 12 ad)). apply Forall_app. split; [by apply Forall_replicate|by apply Forall_drop].
Qed.

(** The single indirect block. *)
Lemma wp_trunc_indirect b L1 (Q : unit -> fstate S -> Prop) :
  (forall c, is_block (v c)) -> tinv 11 b ∅ L1 ->
  (forall b' L', tinv 140 b' ∅ L' -> Q tt (st b' (cleared 12 ad))) ->
  wp (let* i := geti ip in
      let* addr := deref (i_addrs i !! Z.to_nat NDIRECT) in
      if addr =? 0 then ret tt
      else
        let* bp := io (io_bread (i_dev i) addr) in
        let* _ := for_loop (Z.to_nat NINDIRECT) 0 (fun j =>
          let* a := io (io_data bp) in
          (if get_slot a j =? 0 then ret tt else bfree (i_dev i) (get_slot a j)) ;;
          ret (@None unit)) in
        io (io_brelse bp) ;;
        bfree (i_dev i) addr ;;
        updi ip (fun i => set_addrs (<[Z.to_nat NDIRECT := 0]> (i_addrs i)) i))
     (st b (cleared 11 ad)) Q.
Proof.
  intros Hv Hinv HQ. pose proof (lookup_lt_Some _ _ _ Hip) as Hlt. pose proof (sb_order _ _ Hsb).
  assert (Hlk : ad !! 11%nat = Some (slot_val v ad (SAddr 11))).
  { apply nth0_lookup_lt. rewrite (bw_len Hwf). lia. }
  wp_step. apply wp_geti; [done|]. cbn [i_addrs i_dev set_addrs set_dinode d_addrs]. wp_step. wp_step.
  { change (Z.to_nat NDIRECT) with 11%nat. rewrite cleared_lookup by lia. exact Hlk. }
  destruct (Z.eqb_spec (slot_val v ad (SAddr 11)) 0) as [E0|E0].
  - wp_step. rewrite <- (cleared_S_zero 11 ad) by (by rewrite Hlk, E0).
    eapply HQ. destruct Hinv. split; [|done].
    pose proof (freed_no_ind 129 E0) as E. cbn [Nat.add] in E. by rewrite E by lia.
  - set (a := slot_val v ad (SAddr 11)) in *. rewrite (io_dev _ _ Hok).
    destruct (bw_range Hwf (SAddr 11)) as [Har _]; [done|done|]. fold a in Har.
    pose proof (tinv_length _ _ _ _ Hinv) as HL1. destruct Hinv as [Hr Hl].
    wp_step. eapply wp_io_bread; [done|exact Hr|lia| | |].
    { intros j. by rewrite lookup_empty. }
    { rewrite map_size_empty. unfold NBUFn. lia. }
    intros j b1 _ Hr1. wp_step. eapply wp_trunc_ind; [done|done|done|by split|].
    intros b2 L2 H2. wp_step. eapply wp_io_brelse; [done|apply H2|apply lookup_insert_eq|].
    intros b3 Hr3. rewrite delete_insert_id in Hr3 by apply lookup_empty. wp_step.
    eapply (wp_trunc_step _ 139 (SAddr 11)); [done|rewrite map_size_empty; lia| |done|done|split; [exact Hr3|apply H2]|].
    { intros j' e. by rewrite lookup_empty. }
    intros b4 L4 H4. apply wp_updi_addrs with (f := fun a => <[Z.to_nat NDIRECT := 0]> a); [done|].
    change (Z.to_nat NDIRECT) with 11%nat. rewrite cleared_12. by eapply HQ.
Qed.

Lemma wp_itrunc b (Q : unit -> fstate S -> Prop) :
  rep b v ∅ L ->
  (forall b' L', rep b' (v_inode sb (vfrees sb v (freed 140)) (i_inum i) (i_dinode truncated)) ∅ L' ->
     (length L' <= 26)%nat -> Q tt (mkF b' (<[ip := truncated]> ic) sb pid cwd)) ->
  wp (itrunc ip) (mkF b ic sb pid cwd) Q.
Proof.
  intros Hr HQ. pose proof (lookup_lt_Some _ _ _ Hip) as Hlt.
  assert (Hv : forall c, is_block (v c)) by (intros c; by eapply rep_ok).
  assert (Est : mkF b ic sb pid cwd = st b ad).
  { replace (set_addrs ad i) with i by (by destruct i). by rewrite list_insert_id. }
  rewrite Est. unfold itrunc. wp_step. apply wp_trunc_direct; [done| |].
  { split; [exact Hr|]. intros c Hc. apply elem_of_app. by left. }
  intros b1 L1 H1.
  assert (Hassoc : forall (m : M (fstate S) inode) (d : inode -> M (fstate S) Z)
      (f : inode -> Z -> M (fstate S) unit) (k : M (fstate S) unit) s R,
    wp (let* i := m in let* a := d i in f i a) s (fun _ s' => wp k s' R) ->
    wp (let* i := m in let* a := d i in f i a ;; k) s R).
  { intros m d f k s R H. unfold wp, bind in *. destruct (m s) as [x s1| | | | |]; [|done..].
    destruct (d x s1) as [y s2| | | | |]; [|done..]. by destruct (f x y s2). }
  apply Hassoc. eapply wp_trunc_indirect; [done|exact H1|]. intros b2 L2 H2.
  wp_step. eapply wp_updi; [by apply list_lookup_insert_eq|]. unfold set_icache. cbn [f_blk f_icache f_sb f_pid f_cwd].
  rewrite list_insert_insert_eq. fold truncated. pose proof (tinv_length _ _ _ _ H2) as HL2.
  eapply wp_iupdate; [done|by apply list_lookup_insert_eq|apply truncated_ok|apply H2|done|lia|].
  intros b3 Hr3. eapply HQ; [exact Hr3|]. pose proof (length_log_add (IBLOCK (i_inum truncated) sb) L2). lia.
Qed.
End itrunc.

(** The slots outside the double indirect block. *)
Definition single (t : slot) : Prop :=
  match t with SAddr k => k < 12 | SInd _ => True | SMid _ | SLeaf _ _ => False end.

Lemma elem_trunc_slots t : t ∈ trunc_slots <-> slot_ok t /\ single t.
Proof.
  unfold trunc_slots. rewrite !elem_of_app, list_elem_of_singleton, !list_elem_of_fmap. split.
  - intros [(k & -> & Hk)|[(k & -> & Hk)| ->]]; [apply elem_of_seqZ in Hk; cbn; lia..|cbn; lia].
  - destruct t as [k|j|j|j j']; cbn; [|intros [H _]|tauto|tauto].
    + intros [H1 H2]. destruct (decide (k = 11)) as [->|]; [by right; right|].
      left. exists k. split; [done|]. apply elem_of_seqZ. lia.
    + right. left. exists j. split; [done|]. apply elem_of_seqZ. lia.
Qed.

Lemma elem_freed_all v ad c :
  c ∈ freed v ad 140 <-> c <> 0 /\ exists t, slot_ok t /\ single t /\ slot_val v ad t = c.
Proof.
  rewrite elem_freed. split; intros [Hc H]; (split; [done|]).
  - destruct H as (k & t & _ & Hk & E). exists t.
    apply list_elem_of_lookup_2, elem_trunc_slots in Hk. tauto.
  - destruct H as (t & Hok & Hs & E). assert (Ht : t ∈ trunc_slots) by (by apply elem_trunc_slots).
    apply list_elem_of_lookup in Ht as [k Hk]. exists k, t. split_and!; try done.
    apply lookup_lt_Some in Hk. unfold trunc_slots in Hk.
    rewrite !length_app, !length_map, !length_seqZ in Hk. cbn in Hk. lia.
Qed.

(** The bitmap blocks of a file's blocks are among [B], which the log can hold. *)
Definition trunc_fits (sb : superblock) (v : Z -> bytes) (L : list Z) (i : inode) : Prop :=
  exists B, (length L + length B <= 25)%nat /\
    forall t, slot_ok t -> slot_val v (i_addrs i) t <> 0 ->
      BBLOCK (slot_val v (i_addrs i) t) sb ∈ B.

Lemma itrunc_result {S} `{!BlockIO S} `{!BlockSpec S} g o dur (s : fstate S) v L ip i :
  file_state g o dur s v L ip i -> 1 <= o -> trunc_fits (f_sb s) v L i ->
  exists b' L', let v' := v_inode (f_sb s) (vfrees (f_sb s) v (freed v (i_addrs i) 140))
                            (i_inum i) (i_dinode (truncated i)) in
    itrunc ip s = Ok tt (mkF b' (<[ip := truncated i]> (f_icache s)) (f_sb s) (f_pid s) (f_cwd s)) /\
    rep g o dur b' v' ∅ L' /\
    forall c, 0 <= c < sb_size (f_sb s) ->
      used (f_sb s) v' c = used (f_sb s) v c && bool_decide (c ∉ freed v (i_addrs i) 140).
Proof.
  intros [Hsb Hr Hip Hok Hty Hwf Hm] Ho (B & Hbud & HB). destruct s as [b ic sb pid cwd]. cbn in *.
  assert (Hwp : wp (itrunc ip) (mkF b ic sb pid cwd) (fun _ s' => exists b' L',
    s' = mkF b' (<[ip := truncated i]> ic) sb pid cwd /\
    rep g o dur b' (v_inode sb (vfrees sb v (freed v (i_addrs i) 140)) (i_inum i)
                      (i_dinode (truncated i))) ∅ L')).
  { eapply (wp_itrunc g sb Hsb o dur Ho ic pid cwd ip i Hip Hok v L B); try done.
    intros b' L' Hr' _. by exists b', L'. }
  apply wp_inv in Hwp as ([] & s' & E & b' & L' & -> & Hr'). exists b', L'. split_and!; [done|done|].
  intros c Hc. erewrite agree_used; [|eapply agree_inode; [done|apply Hok]|done].
  apply vfrees_used. intros e. by eapply rep_ok.
Qed.

(** C34: [itrunc] empties a file: size 0, direct and single-indirect entries
    cleared, on disk too, and the blocks they named are free again while every
    other mark of the free map is as before. *)
Theorem itrunc_frees {S} `{!BlockIO S} `{!BlockSpec S} g o dur (s : fstate S) v L ip i :
  file_state g o dur s v L ip i -> 1 <= o -> trunc_fits (f_sb s) v L i ->
  exists s' v' L' i', itrunc ip s = Ok tt s' /\ rep g o dur (f_blk s') v' ∅ L' /\
    f_icache s' = <[ip := i']> (f_icache s) /\
    i_size i' = 0 /\ take 12 (i_addrs i') = replicate 12 0 /\ synced (f_sb s) v' i' /\
    forall c, 0 <= c < sb_size (f_sb s) ->
      (used (f_sb s) v' c = true <-> used (f_sb s) v c = true /\
         ~ (c <> 0 /\ exists t, slot_ok t /\ single t /\ slot_val v (i_addrs i) t = c)).
Proof.
  intros Hf Ho Hfits. destruct (itrunc_result g o dur s v L ip i Hf Ho Hfits) as (b' & L' & E & Hr' & Hu).
  do 4 eexists. split; [exact E|]. split; [exact Hr'|]. split; [reflexivity|]. split_and!; try done.
  - apply disk_inode_same; [|apply (fl_ok _ _ _ _ _ _ _ _ Hf)|].
    + apply vfrees_ok. intros e. eapply rep_ok. apply Hf.
    + eapply io_fields. eapply (truncated_ok g (f_sb s)); apply Hf.
  - intros c Hc. rewrite Hu by done. rewrite andb_true_iff, bool_decide_eq_true, elem_freed_all. done.
Qed.

(** C38: ... but the blocks reached through the double indirect entry are not
    freed: the entry stays in the inode and every one of its blocks stays
    marked in use. *)
Theorem itrunc_keeps_double_indirect {S} `{!BlockIO S} `{!BlockSpec S} g o dur (s : fstate S) v L ip i t :
  file_state g o dur s v L ip i -> 1 <= o -> trunc_fits (f_sb s) v L i ->
  slot_ok t -> ~ single t -> slot_val v (i_addrs i) t <> 0 ->
  exists s' v' L' i', itrunc ip s = Ok tt s' /\ rep g o dur (f_blk s') v' ∅ L' /\
    f_icache s' !! ip = Some i' /\ i_addrs i' !! 12%nat = i_addrs i !! 12%nat /\
    used (f_sb s) v' (slot_val v (i_addrs i) t) = true.
Proof.
  intros Hf Ho Hfits Ht Hns Hne.
  destruct (itrunc_result g o dur s v L ip i Hf Ho Hfits) as (b' & L' & E & Hr' & Hu).
  destruct (bw_range (fl_wf _ _ _ _ _ _ _ _ Hf) t Ht Hne) as [Hrg Hut].
  pose proof (sb_order _ _ (fl_sb _ _ _ _ _ _ _ _ Hf)).
  do 4 eexists. split; [exact E|]. split; [exact Hr'|]. split_and!.
  - cbn. apply list_lookup_insert_eq. eapply lookup_lt_Some, Hf.
  - apply (cleared_lookup 12). lia.
  - rewrite Hu, Hut by lia. apply bool_decide_eq_true_2. rewrite elem_freed_all.
    intros (_ & t' & Ht' & Hs' & E'). apply Hns.
    by rewrite (bw_inj (fl_wf _ _ _ _ _ _ _ _ Hf) t t') by done.
Qed.
