(* ===== verification/FsDir.v ===== *)
(** Directories: [dirlookup] and [dirlink] of fs.c.

    A directory is a file of [struct dirent]s; it is seen as a finite partial
    map from names (at most [DIRSIZ] characters) to inode numbers: the first
    entry in use with the name. *)
From S2P Require Import Prelude Layout CString Locks Bio Log LogRep Fs FsBlock FsMap FsData FsInode.

(** The name two strings must share for [namecmp] to return 0. *)
Definition dname (s : bytes) : bytes := take 14 (cstring s).

Lemma namecmp_zero s t : namecmp s t = 0 <-> dname s = dname t.
Proof. apply strncmp_zero. Qed.

Lemma dname_strncpy s : dname (strncpy s 14) = dname s.
Proof. unfold dname. rewrite cstring_strncpy, take_take. done. Qed.

(** Entry [k] of a directory. *)
Definition dir_entry (v : Z -> bytes) (ad : list Z) (k : Z) : dirent :=
  dec_dirent (fbytes v ad (k * 16) 16).

Definition entry_is (name : bytes) (e : dirent) : bool :=
  negb (de_inum e =? 0) && (namecmp name (de_name e) =? 0).

(** The first of [n] entries from [k] on with the name. *)
Fixpoint dir_find (v : Z -> bytes) (ad : list Z) (name : bytes) (n : nat) (k : Z) : option Z :=
  match n with
  | O => None
  | S n' => if entry_is name (dir_entry v ad k) then Some k else dir_find v ad name n' (k + 1)
  end.

(** The inode number of a name. *)
Definition dir_lookup (v : Z -> bytes) (i : inode) (name : bytes) : option Z :=
  (fun k => de_inum (dir_entry v (i_addrs i) k)) <$> dir_find v (i_addrs i) name (dirents i) 0.

(** A directory: whole entries, without holes. *)
Record dir_ok (v : Z -> bytes) (i : inode) : Prop := {
  do_type : i_type i = T_DIR;
  do_size : i_size i mod 16 = 0;
  do_max : 0 <= i_size i <= MAXFILE * BSIZE;
  do_mapped : forall k, 0 <= k < i_size i -> faddr v (i_addrs i) (k / BSIZE) <> 0
}.
Arguments do_type {_ _} _.
Arguments do_size {_ _} _.
Arguments do_max {_ _} _.
Arguments do_mapped {_ _} _.

Lemma dirents_size v i : dir_ok v i -> Z.of_nat (dirents i) * 16 = i_size i.
Proof.
  intros [_ Hs Hm _]. unfold dirents. change sizeof_dirent with 16.
  pose proof (Z.div_mod (i_size i) 16). rewrite Hs in H.
  replace (i_size i + 16 - 1) with (15 + i_size i / 16 * 16) by lia.
  rewrite Z.div_add by lia. change (15 / 16) with 0.
  pose proof (Z.div_pos (i_size i) 16). lia.
Qed.

Lemma dir_find_Some v ad name n k0 k :
  dir_find v ad name n k0 = Some k <->
  k0 <= k < k0 + Z.of_nat n /\ entry_is name (dir_entry v ad k) = true /\
  forall j, k0 <= j < k -> entry_is name (dir_entry v ad j) = false.
Proof.
  revert k0. induction n as [|n IH]; intros k0; cbn [dir_find].
  - split; [done|lia].
  - destruct (entry_is name (dir_entry v ad k0)) eqn:E.
    + split.
      * intros [= <-]. split_and!; [lia|lia|done|lia].
      * intros (Hk & Hek & Hlow). f_equal. destruct (decide (k = k0)) as [|Hne]; [done|].
        rewrite Hlow in E; [done|lia].
    + rewrite IH. split.
      * intros (Hk & Hek & Hlow). split_and!; [lia|lia|done|]. intros j Hj.
        destruct (decide (j = k0)) as [->|]; [done|]. apply Hlow. lia.
      * intros (Hk & Hek & Hlow). assert (k <> k0) by congruence.
        split_and!; [lia|lia|done|]. intros j Hj. apply Hlow. lia.
Qed.

Lemma dir_find_None v ad name n k0 :
  dir_find v ad name n k0 = None <->
  forall j, k0 <= j < k0 + Z.of_nat n -> entry_is name (dir_entry v ad j) = false.
Proof.
  revert k0. induction n as [|n IH]; intros k0; cbn [dir_find].
  - split; [lia|done].
  - destruct (entry_is name (dir_entry v ad k0)) eqn:E.
    + split; [done|]. intros H. rewrite H in E; [done|lia].
    + rewrite IH. split; intros H j Hj; [|apply H; lia].
      destruct (decide (j = k0)) as [->|]; [done|]. apply H. lia.
Qed.

Section dir.
Context {S : Type} `{!BlockIO S} `{!BlockSpec S}.
Context (dev_read : Z -> option (nat -> Z -> M (fstate S) (Z * bytes))).
Context (dev_write : Z -> option (nat -> bytes -> Z -> M (fstate S) Z)).
Context (g : geom) (o : Z) (dur : Z -> bytes).
Implicit Types s : fstate S.

(** The same state with another state of the block layer. *)
Definition set_blk (b : S) s : fstate S := mkF b (f_icache s) (f_sb s) (f_pid s) (f_cwd s).

Lemma wp_read_dirent s v L dp i k msg (Q : dirent -> fstate S -> Prop) :
  file_state g o dur s v L dp i -> dir_ok v i -> (length L < NBUFn)%nat ->
  0 <= k < Z.of_nat (dirents i) ->
  (forall b', file_state g o dur (set_blk b' s) v L dp i ->
     Q (dir_entry v (i_addrs i) k) (set_blk b' s)) ->
  wp (read_dirent dev_read dp (k * sizeof_dirent) msg) s Q.
Proof.
  intros Hf Hd HL Hk HQ. pose proof (dirents_size v i Hd) as Hn. pose proof (do_max Hd) as Hmax.
  assert (Hrl : read_len i (k * 16) 16 = 16).
  { unfold read_len. rewrite (proj2 (Z.ltb_ge _ _)) by lia. done. }
  unfold read_dirent. change sizeof_dirent with 16. wp_step.
  eapply wp_readi_file; [exact Hf|done|lia|lia|lia| | |].
  - rewrite MAXFILE_val, BSIZE_val in Hmax. lia.
  - rewrite Hrl. intros j Hj. apply (do_mapped Hd). lia.
  - intros b' s' Hf'. rewrite Hrl. cbn [fst snd]. eval_tests. wp_step. by apply HQ.
Qed.

(** [dirlookup]: not found, or found and then [iget]. *)
Lemma wp_dirlookup s v L dp i name (Q : option (nat * Z) -> fstate S -> Prop) :
  file_state g o dur s v L dp i -> dir_ok v i -> (length L < NBUFn)%nat ->
  (dir_find v (i_addrs i) name (dirents i) 0 = None ->
     forall b', file_state g o dur (set_blk b' s) v L dp i -> Q None (set_blk b' s)) ->
  (forall k, dir_find v (i_addrs i) name (dirents i) 0 = Some k ->
     forall b', file_state g o dur (set_blk b' s) v L dp i ->
     wp (iget ROOTDEV (de_inum (dir_entry v (i_addrs i) k))) (set_blk b' s)
       (fun ip s' => Q (Some (ip, k * 16)) s')) ->
  wp (dirlookup dev_read dp name) s Q.
Proof.
  intros Hf Hd HL HN HS. unfold dirlookup. wp_step. eapply wp_geti_at; [apply Hf|].
  rewrite (do_type Hd). change (negb (T_DIR =? T_DIR)) with false. cbv iota.
  rewrite (io_dev _ _ (fl_ok _ _ _ _ _ _ _ _ Hf)).
  apply (wp_for_loop (fun k s' => exists b', s' = set_blk b' s /\
    file_state g o dur (set_blk b' s) v L dp i /\
    forall j, 0 <= j < k -> entry_is name (dir_entry v (i_addrs i) j) = false)).
  - exists (f_blk s). split_and!; [by destruct s|by destruct s|lia].
  - intros k s' Hk (b1 & -> & Hf1 & Hlow). wp_step. eapply wp_read_dirent; [exact Hf1|done|done|lia|].
    intros b2 Hf2. change (set_blk b2 (set_blk b1 s)) with (set_blk b2 s) in *.
    set (e := dir_entry v (i_addrs i) k). destruct (entry_is name e) eqn:Ee.
    + assert (Hfind : dir_find v (i_addrs i) name (dirents i) 0 = Some k).
      { apply dir_find_Some. split_and!; [lia|lia|done|done]. }
      unfold entry_is in Ee. bool_to_prop. rewrite (proj2 (Z.eqb_neq _ _)) by done.
      rewrite (proj2 (Z.eqb_eq _ 0)) by done. wp_step.
      eapply wp_mono; [exact (HS k Hfind b2 Hf2)|]. intros ip s' HQ. by wp_step.
    + assert (Hnext : forall j, 0 <= j < k + 1 -> entry_is name (dir_entry v (i_addrs i) j) = false).
      { intros j Hj. destruct (decide (j = k)) as [->|]; [done|]. apply Hlow. lia. }
      unfold entry_is in Ee. destruct (Z.eqb_spec (de_inum e) 0) as [E0|E0].
      * wp_step. exists b2. done.
      * change (negb false) with true in Ee. rewrite andb_true_l in Ee. rewrite Ee. wp_step. by exists b2.
  - intros s' (b' & -> & Hf' & Hlow). apply HN; [|done]. by apply dir_find_None.
Qed.

(** The slot [dirlink] writes: the first unused entry, or one past the end. *)
Definition free_slot (v : Z -> bytes) (i : inode) (k : Z) : Prop :=
  0 <= k <= Z.of_nat (dirents i) /\
  (forall j, 0 <= j < k -> de_inum (dir_entry v (i_addrs i) j) <> 0) /\
  (k < Z.of_nat (dirents i) -> de_inum (dir_entry v (i_addrs i) k) = 0).

Lemma wp_dir_free s v L dp i (Q : option Z -> fstate S -> Prop) :
  file_state g o dur s v L dp i -> dir_ok v i -> (length L < NBUFn)%nat ->
  (forall b' k r, file_state g o dur (set_blk b' s) v L dp i -> free_slot v i k ->
     k * 16 = match r with Some off => off | None => Z.of_nat (dirents i) * sizeof_dirent end ->
     Q r (set_blk b' s)) ->
  wp (for_loop (dirents i) 0 (fun k =>
        let off := k * sizeof_dirent in
        let* de := read_dirent dev_read dp off "dirlink read" in
        if de_inum de =? 0 then ret (Some off) else ret None)) s Q.
Proof.
  intros Hf Hd HL HQ.
  apply (wp_for_loop (fun k s' => exists b', s' = set_blk b' s /\
    file_state g o dur (set_blk b' s) v L dp i /\
    forall j, 0 <= j < k -> de_inum (dir_entry v (i_addrs i) j) <> 0)).
  - exists (f_blk s). split_and!; [by destruct s|by destruct s|lia].
  - intros k s' Hk (b1 & -> & Hf1 & Hlow). cbv zeta. wp_step. eapply wp_read_dirent; [exact Hf1|done|done|lia|].
    intros b2 Hf2. change (set_blk b2 (set_blk b1 s)) with (set_blk b2 s) in *.
    destruct (Z.eqb_spec (de_inum (dir_entry v (i_addrs i) k)) 0) as [E0|E0].
    + wp_step. apply (HQ b2 k); [done| |done]. split_and!; [lia|lia|done|done].
    + wp_step. exists b2. split_and!; [done|done|]. intros j Hj.
      destruct (decide (j = k)) as [->|]; [done|]. apply Hlow. lia.
  - intros s' (b' & -> & Hf' & Hlow). apply (HQ b' (Z.of_nat (dirents i))); [done| |done].
    split_and!; [lia|lia|done|lia].
Qed.
End dir.

(** * The directory as a map *)

(** Writing entry [k] of a directory changes that entry and no other. *)
Lemma dir_entry_spliced v ad v' ad' e k j :
  spliced v ad v' ad' (k * 16) 16 (enc_dirent e) -> dirent_ok e -> 0 <= k -> 0 <= j ->
  k * 16 + 16 <= MAXFILE * BSIZE -> j * 16 + 16 <= MAXFILE * BSIZE ->
  dir_entry v' ad' j = if decide (j = k) then e else dir_entry v ad j.
Proof.
  intros Sp He Hk Hj Hkm Hjm. unfold dir_entry. destruct (decide (j = k)) as [->|Hne].
  - rewrite (fbytes_spliced v ad v' ad' (k * 16) 16 (enc_dirent e)); [by apply dec_enc_dirent|done|lia|done|].
    rewrite length_enc_dirent by apply He. done.
  - f_equal. unfold fbytes. apply list_fmap_ext. intros n x Hx%lookup_seqZ.
    destruct Sp as (Sp & _). rewrite Sp by lia. by rewrite decide_False by lia.
Qed.

Lemma entry_is_new name e : 0 < de_inum e -> dname (de_name e) = dname name -> entry_is name e = true.
Proof.
  intros Hi Hn. unfold entry_is. rewrite (proj2 (Z.eqb_neq _ _)) by lia.
  rewrite (proj2 (Z.eqb_eq _ _)); [done|]. by apply namecmp_zero.
Qed.

Lemma entry_is_name name1 name2 e : dname name1 = dname name2 -> entry_is name1 e = entry_is name2 e.
Proof.
  intros E. unfold entry_is. f_equal. destruct (Z.eqb_spec (namecmp name1 (de_name e)) 0) as [H|H];
    destruct (Z.eqb_spec (namecmp name2 (de_name e)) 0) as [H'|H']; try done;
    rewrite namecmp_zero in *; congruence.
Qed.

Section link.
Context (v v' : Z -> bytes) (i i' : inode) (k : Z) (e : dirent).
Hypothesis Hd : dir_ok v i.
Hypothesis Hk : free_slot v i k.
Hypothesis He : dirent_ok e.
Hypothesis Hinum : 0 < de_inum e.
Hypothesis Hnone : forall j, 0 <= j < Z.of_nat (dirents i) ->
  entry_is (de_name e) (dir_entry v (i_addrs i) j) = false.
Hypothesis Hmax : i_size i + 16 <= MAXFILE * BSIZE.
Hypothesis Hsp : spliced v (i_addrs i) v' (i_addrs i') (k * 16) 16 (enc_dirent e).
Hypothesis Hsize : i_size i' = Z.max (i_size i) (k * 16 + 16).
Hypothesis Htype : i_type i' = i_type i.
Hypothesis Hmapped : forall j, 0 <= j < i_size i -> faddr v' (i_addrs i') (j / BSIZE) <> 0.

Lemma link_dir_ok : dir_ok v' i'.
Proof.
  pose proof (dirents_size v i Hd) as Hn. destruct Hd as [Ht Hs Hm Hmap], Hk as [Hkr _]. split.
  - by rewrite Htype.
  - rewrite Hsize. destruct (Z.max_spec (i_size i) (k * 16 + 16)) as [[_ ->]|[_ ->]]; [|done].
    replace (k * 16 + 16) with ((k + 1) * 16) by lia. by rewrite Z.mod_mul.
  - lia.
  - intros j Hj. destruct (decide (j < i_size i)); [apply Hmapped; lia|]. apply Hsp. lia.
Qed.

Lemma link_dirents : Z.of_nat (dirents i') = Z.max (Z.of_nat (dirents i)) (k + 1).
Proof.
  pose proof (dirents_size v i Hd). pose proof (dirents_size v' i' link_dir_ok). lia.
Qed.

Lemma link_entry j :
  0 <= j < Z.of_nat (dirents i') ->
  dir_entry v' (i_addrs i') j = if decide (j = k) then e else dir_entry v (i_addrs i) j.
Proof.
  intros Hj. pose proof (dirents_size v' i' link_dir_ok) as Hn'.
  pose proof (do_max link_dir_ok). destruct Hk as [Hkr _]. pose proof link_dirents.
  apply (dir_entry_spliced v (i_addrs i) v' (i_addrs i') e k j); try done; lia.
Qed.

(** An entry that does not have the new name is found as before. *)
Lemma link_lookup_other name :
  dname name <> dname (de_name e) -> dir_lookup v' i' name = dir_lookup v i name.
Proof.
  intros Hne. unfold dir_lookup. pose proof link_dirents as Hn. destruct Hk as (Hkr & Hkl & Hk0).
  assert (Hnew : entry_is name e = false).
  { unfold entry_is. destruct (Z.eqb_spec (namecmp name (de_name e)) 0) as [H|H]; [|by rewrite andb_false_r].
    by apply namecmp_zero in H. }
  assert (Hold : k < Z.of_nat (dirents i) -> entry_is name (dir_entry v (i_addrs i) k) = false).
  { intros Hlt. unfold entry_is. by rewrite (Hk0 Hlt). }
  assert (Hsame : forall j, 0 <= j < Z.of_nat (dirents i') ->
    entry_is name (dir_entry v' (i_addrs i') j) =
    if decide (j < Z.of_nat (dirents i)) then entry_is name (dir_entry v (i_addrs i) j) else false).
  { intros j Hj. rewrite link_entry by done. destruct (decide (j = k)) as [->|Hjk].
    - case_decide; [by rewrite Hold|done].
    - rewrite decide_True by lia. done. }
  destruct (dir_find v (i_addrs i) name (dirents i) 0) as [m|] eqn:Em.
  - apply dir_find_Some in Em as (Hm & Hem & Hlow).
    assert (m <> k) by (intros ->; rewrite Hold in Hem; [done|lia]).
    assert (Em' : dir_find v' (i_addrs i') name (dirents i') 0 = Some m).
    { apply dir_find_Some. split_and!; [lia|lia| |].
      - rewrite Hsame, decide_True by lia. done.
      - intros j Hj. rewrite Hsame, decide_True by lia. apply Hlow. lia. }
    rewrite Em'. cbn [fmap option_fmap option_map]. by rewrite link_entry, decide_False by lia.
  - assert (Em' : dir_find v' (i_addrs i') name (dirents i') 0 = None).
    { apply dir_find_None. intros j Hj. rewrite Hsame by lia. case_decide; [|done].
      eapply dir_find_None in Em; [exact Em|lia]. }
    by rewrite Em'.
Qed.

Lemma link_lookup_new name :
  dname name = dname (de_name e) -> dir_lookup v' i' name = Some (de_inum e).
Proof.
  intros Heq. unfold dir_lookup. pose proof link_dirents as Hn. destruct Hk as (Hkr & Hkl & Hk0).
  assert (Em : dir_find v' (i_addrs i') name (dirents i') 0 = Some k).
  { apply dir_find_Some. split_and!; [lia|lia| |].
    - rewrite link_entry, decide_True by (done || lia). by apply entry_is_new.
    - intros j Hj. rewrite link_entry, decide_False by lia.
      rewrite (entry_is_name _ (de_name e)) by done. apply Hnone. lia. }
  rewrite Em. cbn [fmap option_fmap option_map]. by rewrite link_entry, decide_True by (done || lia).
Qed.
End link.

(** The entry [dirlink] writes. *)
Definition new_entry (name : bytes) (inum : Z) : dirent :=
  mkDirent (u16 inum) (strncpy name (Z.to_nat DIRSIZ)).

Lemma new_entry_ok name inum : Forall is_byte name -> dirent_ok (new_entry name inum).
Proof.
  intros Hb. split; [|split].
  - unfold u16. by apply Z.mod_pos_bound.
  - apply length_strncpy.
  - by apply strncpy_is_byte.
Qed.

Lemma dname_new_entry name inum : dname (de_name (new_entry name inum)) = dname name.
Proof. apply dname_strncpy. Qed.

(** [dirlink]'s write, once the slot is known. *)
Lemma wp_dirlink_new {S} `{!BlockIO S} `{!BlockSpec S} dev_read dev_write
    g o dur (s : fstate S) v L dp i name inum (Q : Z -> fstate S -> Prop) :
  file_state g o dur s v L dp i -> dir_ok v i -> (length L < NBUFn)%nat -> 1 <= o ->
  dir_lookup v i name = None -> 0 < u16 inum -> Forall is_byte name ->
  i_size i + 16 <= MAXFILE * BSIZE ->
  (forall k, free_slot v i k -> write_fits 0 (f_sb s) v L (k * 16) 16) ->
  (forall s' v' L' i', file_state g o dur s' v' L' dp i' -> dir_ok v' i' ->
     others_same (f_sb s) (i_inum i) v (i_addrs i) v' (i_addrs i') -> i_inum i' = i_inum i ->
     (forall name', dir_lookup v' i' name' =
        if decide (dname name' = dname name) then Some (u16 inum) else dir_lookup v i name') ->
     Q 0 s') ->
  wp (dirlink dev_read dev_write dp name inum) s Q.
Proof.
  intros Hf Hd HL Ho Hnone Hinum Hby Hmax Hfits HQ. pose proof (dirents_size v i Hd) as Hn.
  assert (Hnf : dir_find v (i_addrs i) name (dirents i) 0 = None).
  { unfold dir_lookup in Hnone. by destruct (dir_find _ _ _ _ _). }
  set (e := new_entry name inum). pose proof (new_entry_ok name inum Hby) as He. fold e in He.
  pose proof (dname_new_entry name inum) as Hen. fold e in Hen.
  unfold dirlink. wp_step. eapply wp_dirlookup; [exact Hf|done|done| |].
  2: { intros k Hk. congruence. }
  intros _ b1 Hf1. wp_step. eapply wp_geti_at; [apply Hf1|]. wp_step.
  eapply wp_dir_free; [exact Hf1|done|done|]. intros b2 k r Hf2 Hk Hr. rewrite <- Hr. wp_step.
  change (set_blk b2 (set_blk b1 s)) with (set_blk b2 s) in *. fold (new_entry name inum). fold e.
  change sizeof_dirent with 16. pose proof Hk as [Hkr _].
  eapply wp_writei_file; [exact Hf2|by apply Hfits|done|lia|lia| |by apply enc_dirent_is_byte|].
  { rewrite length_enc_dirent by apply He. done. }
  intros b3 v3 ad3 L3 i3 s3 Hf3 Hoth Sp HL3 _ _. eval_tests. wp_step.
  assert (Ead : i_addrs i3 = ad3) by apply written_addrs.
  assert (Hsize : i_size i3 = Z.max (i_size i) (k * 16 + 16)) by (apply written_size; lia).
  assert (Hty : i_type i3 = i_type i /\ i_inum i3 = i_inum i).
  { unfold i3, written. by destruct (_ && _). }
  clearbody i3. subst ad3. destruct Hty as [Hty Hin].
  assert (Hmapped : forall j, 0 <= j < i_size i -> faddr v3 (i_addrs i3) (j / BSIZE) <> 0).
  { intros j Hj. pose proof (do_mapped Hd j Hj). destruct Sp as (_ & _ & Sp3). rewrite Sp3; [done| |done].
    split; [apply Z.div_pos; [lia|done]|apply Z.div_lt_upper_bound; [done|lia]]. }
  assert (Hno : forall j, 0 <= j < Z.of_nat (dirents i) ->
    entry_is (de_name e) (dir_entry v (i_addrs i) j) = false).
  { intros j Hj. rewrite (entry_is_name _ name) by done. eapply dir_find_None in Hnf; [exact Hnf|lia]. }
  eapply HQ; [exact Hf3|by eapply (link_dir_ok v v3 i i3 k e)|exact Hoth|done|].
  intros name'. destruct (decide (dname name' = dname name)) as [E|E].
  - apply (link_lookup_new v v3 i i3 k e); try done. by rewrite Hen.
  - apply (link_lookup_other v v3 i i3 k e); try done. by rewrite Hen.
Qed.

(** Path names: [skipelem] of fs.c splits a path into its components. *)

(** The components of a path: the maximal runs of characters other than '/',
    up to the end of the string.  [acc] is the component being read. *)
Fixpoint split_path (acc path : bytes) : list bytes :=
  match path with
  | [] => if decide (acc = []) then [] else [acc]
  | c :: path' =>
      if c =? 0 then (if decide (acc = []) then [] else [acc])
      else if c =? slash then
        if decide (acc = []) then split_path [] path' else acc :: split_path [] path'
      else split_path (acc ++ [c]) path'
  end.

Definition components (path : bytes) : list bytes := split_path [] path.

Lemma components_skip_slashes path : components (skip_slashes path) = components path.
Proof.
  induction path as [|c path IH]; [done|]. cbn [skip_slashes].
  destruct (Z.eqb_spec c slash) as [->|Hc]; [|done]. rewrite IH. done.
Qed.

Lemma skip_slashes_hd path : hd0 (skip_slashes path) <> slash.
Proof.
  induction path as [|c path IH]; [done|]. cbn [skip_slashes].
  destruct (Z.eqb_spec c slash) as [->|Hc]; [done|]. exact Hc.
Qed.

(** A character of a name. *)
Definition is_name (c : Z) : Prop := c <> slash /\ c <> 0.

Lemma skip_name_split path :
  exists n, path = n ++ skip_name path /\ Forall is_name n /\
    (hd0 (skip_name path) = 0 \/ hd0 (skip_name path) = slash).
Proof.
  induction path as [|c path (n & E & Hn & Hh)]; [by exists []; auto|]. cbn [skip_name].
  destruct (Z.eqb_spec c slash) as [->|Hs]; [exists []; auto|].
  destruct (Z.eqb_spec c 0) as [->|H0]; [exists []; auto|]. cbn [orb].
  exists (c :: n). split_and!; [by rewrite E at 1|by constructor|done].
Qed.

Lemma split_path_name acc n rest :
  Forall is_name n -> split_path acc (n ++ rest) = split_path (acc ++ n) rest.
Proof.
  revert acc. induction n as [|c n IH]; intros acc Hn; [by rewrite app_nil_r|].
  apply Forall_cons in Hn as [[H1 H2] Hn]. cbn [app split_path].
  rewrite (proj2 (Z.eqb_neq c 0)), (proj2 (Z.eqb_neq c slash)) by done.
  rewrite IH by done. by rewrite <- app_assoc.
Qed.

Lemma split_path_end acc rest :
  acc <> [] -> hd0 rest = 0 \/ hd0 rest = slash ->
  split_path acc rest = acc :: components (skip_slashes rest).
Proof.
  intros Hacc Hh. rewrite components_skip_slashes. destruct rest as [|c rest].
  - cbn [split_path]. rewrite decide_False by done. done.
  - cbn in Hh. unfold components. cbn [split_path].
    destruct (Z.eqb_spec c 0) as [->|H0]; [by rewrite decide_False|].
    destruct Hh as [->| ->]; [done|]. rewrite Z.eqb_refl. by rewrite decide_False.
Qed.

(** What is left in the buffer is the component, cut to [DIRSIZ] characters. *)
Lemma skipelem_buffer n rest name :
  length name = 14%nat -> Forall is_name n ->
  let len := length n in
  let buf := if decide (Z.to_nat DIRSIZ <= len)%nat then splice name 0 (take (Z.to_nat DIRSIZ) (n ++ rest))
             else <[len := 0]> (splice name 0 (take len (n ++ rest))) in
  length buf = 14%nat /\ dname buf = take 14 n.
Proof.
  intros Hl Hn len buf. subst len buf. change (Z.to_nat DIRSIZ) with 14%nat.
  assert (Hnz : forall k, Forall (fun c => c <> 0) (take k n)).
  { intros k. apply Forall_take. eapply Forall_impl; [exact Hn|]. by intros c [_ ?]. }
  case_decide as Hlen.
  - rewrite take_app_le by lia. unfold splice. rewrite take_0, app_nil_l.
    rewrite length_take, drop_ge by lia. rewrite app_nil_r. split; [rewrite length_take; lia|].
    unfold dname. rewrite cstring_id by done. by rewrite take_take.
  - rewrite take_app_length. unfold splice. rewrite take_0, app_nil_l, Nat.add_0_l.
    assert (Hd : exists x d, drop (length n) name = x :: d).
    { destruct (drop (length n) name) as [|x d] eqn:E; [|eauto].
      apply (f_equal length) in E. rewrite length_drop in E. cbn in E. lia. }
    destruct Hd as (x & d & Ed). split.
    + rewrite length_insert, length_app, length_drop. lia.
    + rewrite Ed. rewrite insert_app_r_alt by done. rewrite Nat.sub_diag. cbn [insert list_insert].
      unfold dname. f_equal. specialize (Hnz (length n)). rewrite firstn_all in Hnz.
      clear -Hnz. induction n as [|c n IH]; [done|]. apply Forall_cons in Hnz as [Hc Hn].
      cbn [app cstring]. rewrite (proj2 (Z.eqb_neq c 0)) by done. by rewrite IH.
Qed.

(** [skipelem] takes the first component off a path.  It returns null
    exactly when the path has none; otherwise the components of the path are
    the one it copied followed by those of the path it returns, which does not
    start with a slash and is shorter, and [name] holds the first [DIRSIZ]
    characters of the component. *)
Lemma skipelem_splits path name :
  length name = 14%nat ->
  match skipelem path name with
  | None => components path = []
  | Some (path', name') =>
      exists c, components path = c :: components path' /\ dname name' = take 14 c /\
        length name' = 14%nat /\ hd0 path' <> slash /\ (length path' < length path)%nat
  end.
Proof.
  intros Hl. unfold skipelem. rewrite <- (components_skip_slashes path).
  assert (Hlen : forall p : bytes, (length (skip_slashes p) <= length p)%nat).
  { induction p as [|c p IH]; [done|]. cbn. destruct (c =? slash); cbn; lia. }
  pose proof (Hlen path) as Hp. pose proof (skip_slashes_hd path) as Hh.
  set (s := skip_slashes path) in *. destruct (Z.eqb_spec (hd0 s) 0) as [H0|H0].
  - destruct s as [|c s]; [done|]. cbn in H0. subst c. done.
  - destruct (skip_name_split s) as (n & E & Hn & Hend). set (rest := skip_name s) in *.
    assert (Hne : n <> []). { intros ->. cbn in E. rewrite <- E in Hend. tauto. }
    rewrite E. replace (length (n ++ rest) - length rest)%nat with (length n) by (rewrite length_app; lia).
    destruct (skipelem_buffer n rest name Hl Hn) as [Hbl Hbd].
    exists n. split_and!; [|done|done|apply skip_slashes_hd|].
    + unfold components at 1. rewrite split_path_name by done. by apply split_path_end.
    + pose proof (Hlen rest). rewrite E, length_app in Hp.
      destruct n as [|c n]; [done|]. cbn in Hp. lia.
Qed.

Lemma split_path_names acc path : Forall is_name acc -> Forall (Forall is_name) (split_path acc path).
Proof.
  revert acc. induction path as [|c path IH]; intros acc Ha; cbn [split_path]; [case_decide; by repeat constructor|].
  destruct (Z.eqb_spec c 0) as [E0|E0]; [case_decide; by repeat constructor|].
  destruct (Z.eqb_spec c slash) as [Es|Es].
  - case_decide; [by apply IH, Forall_nil|]. constructor; [done|]. by apply IH, Forall_nil.
  - apply IH, Forall_app. split; [done|]. by repeat constructor.
Qed.

(** The names of the components have no slash and no 0. *)
Lemma components_names path : Forall (Forall is_name) (components path).
Proof. apply split_path_names, Forall_nil. done. Qed.

Lemma dname_component c : Forall is_name c -> dname c = take 14 c.
Proof. intros H. unfold dname. rewrite cstring_id; [done|]. eapply Forall_impl; [exact H|]. by intros x [_ ?]. Qed.

Lemma components_empty path : hd0 path <> slash -> (hd0 path = 0 <-> components path = []).
Proof.
  intros Hs. unfold components. destruct path as [|c path]; [done|]. cbn [hd0 split_path] in *.
  destruct (Z.eqb_spec c 0) as [->|E0]; [by rewrite decide_True|]. rewrite (proj2 (Z.eqb_neq c slash)) by done.
  split; [done|]. intros E. pose proof (skip_name_split path) as (n & En & Hn & Hh). cbn [app] in E. rewrite En, split_path_name, split_path_end in E by done. done.
Qed.

(** Only the first [DIRSIZ] characters of a name count. *)
Lemma dir_lookup_dname v i a b : dname a = dname b -> dir_lookup v i a = dir_lookup v i b.
Proof.
  intros E. assert (He : forall e, entry_is a e = entry_is b e).
  { intros e. unfold entry_is. f_equal. apply eq_bool_prop_intro. rewrite !Is_true_true, !Z.eqb_eq, !namecmp_zero, E. done. }
  unfold dir_lookup. f_equal. generalize 0. induction (dirents i) as [|n IH]; intros k; [done|]. cbn [dir_find]. by rewrite He, IH.
Qed.
