(* ===== verification/FsName.v ===== *)
(** Path names: [namex] of fs.c walks the tree of directories.

    The file system is seen as a set of inode numbers that is closed under
    looking up names in its directories.  The references to cache entries are
    followed: a walk ends with one more reference to the inode it returns, or
    with the references there were. *)
From S2P Require Import Prelude Layout CString Locks Bio Log LogRep Fs FsBlock FsMap FsData FsInode FsDir.

(** The part of a cached inode that the disk has. *)
Definition as_inode (d : dinode) : inode :=
  mkInode ROOTDEV 0 0 (mkSleeplock false 0) 0 (d_type d) (d_major d) (d_minor d) (d_nlink d) (d_size d) (d_addrs d) [] 0 0 0 0.

Record tree (sb : superblock) (v : Z -> bytes) (T : Z -> Prop) : Prop := {
  tr_range : forall n, T n -> 0 <= n < sb_ninodes sb;
  tr_inode : forall n, T n -> let d := disk_inode sb v n in dinode_ok d /\ d_type d <> 0 /\ d_nlink d <> 0;
  tr_dir : forall n, T n -> let d := disk_inode sb v n in d_type d = T_DIR -> dir_ok v (as_inode d) /\ blocks_wf sb v (d_addrs d);
  tr_entry : forall n name m, T n -> let d := disk_inode sb v n in
    d_type d = T_DIR -> dir_lookup v (as_inode d) name = Some m -> T m
}.

Lemma as_inode_lookup v i d name : i_dinode i = d -> dir_lookup v i name = dir_lookup v (as_inode d) name.
Proof. intros <-. done. Qed.
Lemma as_inode_ok v i d : i_dinode i = d -> dir_ok v (as_inode d) -> dir_ok v i.
Proof. intros <- []. by split. Qed.

(** * References *)

Definition ref_of (i : inode) : Z * option (Z * Z) :=
  (i_ref i, if 0 <? i_ref i then Some (i_dev i, i_inum i) else None).
(** The count of each entry, and the inode of those in use. *)
Definition refs (ic : list inode) (j : nat) : option (Z * option (Z * Z)) := ref_of <$> ic !! j.

Lemma refs_insert ic a x j : (a < length ic)%nat -> refs (<[a := x]> ic) j = if decide (j = a) then Some (ref_of x) else refs ic j.
Proof.
  intros Ha. unfold refs. case_decide as E; [subst; by rewrite list_lookup_insert_eq|by rewrite list_lookup_insert_ne].
Qed.

Lemma refs_lookup ic j i : ic !! j = Some i -> refs ic j = Some (ref_of i).
Proof. intros E. unfold refs. by rewrite E. Qed.

(** One reference to inode [n], in entry [a], more than in [ic0]. *)
Definition held (ic0 ic : list inode) (a : nat) (n : Z) : Prop :=
  exists i, ic !! a = Some i /\ caches ROOTDEV n i /\
    forall j, refs (<[a := set_ref (i_ref i - 1) i]> ic) j = refs ic0 j.

(** Two entries are free. *)
Definition two_free (ic : list inode) : Prop :=
  exists j1 j2, j1 <> j2 /\ refs ic j1 = Some (0, None) /\ refs ic j2 = Some (0, None).

Lemma ref_of_free i : ref_of i = (0, None) <-> i_ref i = 0.
Proof. unfold ref_of. split; [congruence|]. intros ->. done. Qed.

Lemma held_free ic0 ic a n : held ic0 ic a n -> two_free ic0 -> exists j i, ic !! j = Some i /\ i_ref i = 0.
Proof.
  intros (i & Ha & _ & Hr) (j1 & j2 & Hne & H1 & H2). pose proof (lookup_lt_Some _ _ _ Ha) as Hlt.
  assert (H : exists j, j <> a /\ refs ic0 j = Some (0, None)).
  { destruct (decide (j1 = a)) as [->|]; [exists j2|exists j1]; done. }
  destruct H as (j & Hj & Hf). specialize (Hr j). rewrite refs_insert, decide_False, Hf in Hr by done.
  unfold refs in Hr. destruct (ic !! j) as [x|] eqn:E; [|done]. injection Hr as Hx. exists j, x. split; [done|]. apply ref_of_free. unfold ref_of. congruence.
Qed.

Lemma held_refs ic0 ic ic' a n :
  held ic0 ic a n -> (forall j, refs ic' j = refs ic j) -> (exists i', ic' !! a = Some i') -> held ic0 ic' a n.
Proof.
  intros (i & Ha & (Hc1 & Hc2 & Hc3) & Hr) He (i' & Ha'). pose proof (lookup_lt_Some _ _ _ Ha) as Hlt. pose proof (lookup_lt_Some _ _ _ Ha') as Hlt'.
  pose proof (He a) as Ea. rewrite (refs_lookup _ _ _ Ha), (refs_lookup _ _ _ Ha') in Ea. unfold ref_of in Ea.
  injection Ea as E1 E2. rewrite E1, (proj2 (Z.ltb_lt 0 (i_ref i))) in E2 by done. injection E2 as E3 E4.
  exists i'. split; [done|]. split; [by rewrite <- Hc2, <- Hc3, <- E3, <- E4; split_and!; [lia|..]|].
  intros j. rewrite <- Hr, !refs_insert by done. case_decide; [|done]. unfold ref_of. cbn. by rewrite E1, E3, E4.
Qed.

(** Of two references taken one after the other, the first can be dropped first. *)
Lemma held_swap ic0 ic ic1 a n k m :
  held ic0 ic a n -> held ic ic1 k m -> exists ic', held ic' ic1 a n /\ held ic0 ic' k m.
Proof.
  intros (ia & Ha & (C1 & C2 & C3) & Hra) (ik & Hk & (D1 & D2 & D3) & Hrk).
  pose proof (lookup_lt_Some _ _ _ Ha) as Hl. pose proof (lookup_lt_Some _ _ _ Hk) as Hkl.
  pose proof (Hrk a) as Hja. rewrite refs_insert, (refs_lookup _ _ _ Ha) in Hja by done.
  destruct (decide (a = k)) as [->|Hne].
  - injection Hja as R1 R2. cbn in R1, R2. rewrite R1 in R2. rewrite (proj2 (Z.ltb_lt 0 (i_ref ia))) in R2 by done. injection R2 as R2 R3.
    set (i' := set_ref (i_ref ik - 1) ik). exists (<[k := i']> ic1). assert (En : n = m) by congruence. subst m. split.
    + exists ik. split; [done|]. split; [done|]. done.
    + exists i'. split; [by apply list_lookup_insert_eq|]. split; [split_and!; cbn; [lia|done|done]|].
      intros j. rewrite <- Hra, list_insert_insert_eq, !refs_insert by done. case_decide as E; [|specialize (Hrk j); by rewrite refs_insert, decide_False in Hrk].
      unfold ref_of. cbn. by rewrite R1, R2, R3.
  - unfold refs in Hja at 1. destruct (ic1 !! a) as [i|] eqn:Hi; [|done]. pose proof (lookup_lt_Some _ _ _ Hi) as Hal.
    injection Hja as R1 R2. rewrite R1 in R2. rewrite (proj2 (Z.ltb_lt 0 (i_ref ia))) in R2 by done. injection R2 as R2 R3.
    exists (<[a := set_ref (i_ref i - 1) i]> ic1). split; [exists i; split; [done|]; split; [split_and!; [lia|congruence|congruence]|done]|].
    exists ik. split; [by rewrite list_lookup_insert_ne|]. split; [done|]. intros j. rewrite <- Hra, !refs_insert by (rewrite ?length_insert; done).
    specialize (Hrk j). rewrite refs_insert in Hrk by done. destruct (decide (j = k)) as [->|Ej]; [by rewrite decide_False|].
    case_decide; [|done]. unfold ref_of. cbn. by rewrite R1, R2, R3.
Qed.

(** * The state *)

Record cache_ok (sb : superblock) (v : Z -> bytes) (T : Z -> Prop) (ic : list inode) (lk : option nat) : Prop := {
  co_wf : icache_wf ic;
  co_entry : forall k i, ic !! k = Some i -> 0 < i_ref i ->
    i_dev i = ROOTDEV /\ T (i_inum i) /\ (i_valid i <> 0 -> i_dinode i = disk_inode sb v (i_inum i));
  co_lock : forall k i, ic !! k = Some i -> lk <> Some k -> unlocked i
}.

Section walk.
Context {S : Type} `{!BlockIO S} `{!BlockSpec S}.
Context (g : geom) (o : Z) (dur : Z -> bytes) (sb : superblock) (v : Z -> bytes) (L : list Z) (T : Z -> Prop).
Context (Htree : tree sb v T) (Hsb : sb_ok g sb) (Hmeta : meta_used sb v) (HL : (length L < NBUFn)%nat).
Implicit Types s : fstate S.

(** The running process holds at most the lock of the entry [lk]. *)
Record walk_inv (pid : Z) (cwd : nat) s (lk : option nat) : Prop := {
  wi_sb : f_sb s = sb;
  wi_pid : f_pid s = pid;
  wi_cwd : f_cwd s = cwd;
  wi_rep : rep g o dur (f_blk s) v ∅ L;
  wi_cache : cache_ok sb v T (f_icache s) lk
}.

(** Changing the lock or the validity of entry [k]. *)
Lemma cache_ok_set ic lk lk' k i i' :
  cache_ok sb v T ic lk -> ic !! k = Some i -> i_ref i' = i_ref i -> i_dev i' = i_dev i -> i_inum i' = i_inum i ->
  (0 < i_ref i -> i_valid i' <> 0 -> i_dinode i' = disk_inode sb v (i_inum i)) -> (lk' <> Some k -> unlocked i') ->
  (forall j, j <> k -> lk' <> Some j -> lk <> Some j) -> cache_ok sb v T (<[k := i']> ic) lk'.
Proof.
  intros [Hw He Hl] Hk E1 E2 E3 Hd Hu Hlk. pose proof (lookup_lt_Some _ _ _ Hk) as Hlt. split.
  - eapply icache_wf_same; [done|done| |done|done|lia]. rewrite E1. by eapply (iw_ref Hw).
  - intros j x. destruct (decide (j = k)) as [->|Hne].
    + rewrite list_lookup_insert_eq by done. intros [= <-]. rewrite E1, E2, E3. intros Hr. destruct (He k i Hk Hr) as (? & ? & _). auto.
    + rewrite list_lookup_insert_ne by done. apply He.
  - intros j x. destruct (decide (j = k)) as [->|Hne].
    + rewrite list_lookup_insert_eq by done. by intros [= <-].
    + rewrite list_lookup_insert_ne by done. intros Hx Hj. apply (Hl j x Hx). by apply Hlk.
Qed.

Lemma refs_same_insert ic k i i' j :
  ic !! k = Some i -> i_ref i' = i_ref i -> i_dev i' = i_dev i -> i_inum i' = i_inum i -> refs (<[k := i']> ic) j = refs ic j.
Proof.
  intros Hk E1 E2 E3. rewrite refs_insert by (by eapply lookup_lt_Some). case_decide as E; [|done]. subst.
  rewrite (refs_lookup _ _ _ Hk). unfold ref_of. by rewrite E1, E2, E3.
Qed.

(** [ilock] loads the inode if it must. *)
Lemma wp_ilock_walk pid cwd s k i (Q : unit -> fstate S -> Prop) :
  walk_inv pid cwd s None -> f_icache s !! k = Some i -> 0 < i_ref i ->
  (forall s' i', walk_inv pid cwd s' (Some k) -> f_icache s' !! k = Some i' -> holds pid i' -> i_valid i' <> 0 ->
     i_dinode i' = disk_inode sb v (i_inum i) -> i_ref i' = i_ref i -> i_dev i' = ROOTDEV -> i_inum i' = i_inum i ->
     (forall j, refs (f_icache s') j = refs (f_icache s) j) -> Q tt s') ->
  wp (ilock (Some k)) s Q.
Proof.
  intros [Es Ep Ec Hr Hc] Hk Href HQ. destruct (co_entry _ _ _ _ _ Hc k i Hk Href) as (Hd & HT & Hv).
  pose proof (lookup_lt_Some _ _ _ Hk) as Hlt. pose proof (co_lock _ _ _ _ _ Hc k i Hk ltac:(done)) as Hu.
  destruct (tr_inode _ _ _ Htree _ HT) as (Hok & Hty & _). destruct (decide (i_valid i = 0)) as [E0|E0].
  - eapply (wp_ilock_load g o dur s v L); rewrite ?Es; try done; [lia|by apply (tr_range _ _ _ Htree)|].
    intros b' Hr'. set (i' := loaded _ _ _). apply (HQ _ i'); cbn [f_icache]; try done; [|by apply list_lookup_insert_eq|by rewrite <- Ep|intros j; by eapply refs_same_insert].
    split; try done. cbn [f_icache]. eapply cache_ok_set; try done.
  - eapply wp_ilock_valid; [done|done|lia|done|]. set (i' := set_ilock _ _). specialize (Hv E0).
    apply (HQ _ i'); cbn [f_icache set_icache]; try done; [|by apply list_lookup_insert_eq|by rewrite <- Ep|intros j; by eapply refs_same_insert].
    split; try done. cbn [f_icache set_icache]. by eapply cache_ok_set.
Qed.

Lemma wp_iunlock_walk pid cwd s k i (Q : unit -> fstate S -> Prop) :
  walk_inv pid cwd s (Some k) -> f_icache s !! k = Some i -> holds pid i -> 0 < i_ref i ->
  (let s' := set_icache (<[k := set_ilock (mkSleeplock false 0) i]> (f_icache s)) s in
   walk_inv pid cwd s' None -> (forall j, refs (f_icache s') j = refs (f_icache s) j) -> Q tt s') ->
  wp (iunlock (Some k)) s Q.
Proof.
  intros [Es Ep Ec Hr Hc] Hk Hh Href HQ. eapply wp_iunlock; [done|by rewrite Ep|lia|]. apply HQ.
  - split; try done. cbn [f_icache set_icache]. eapply cache_ok_set; try done.
    + intros _ Hv. by apply (co_entry _ _ _ _ _ Hc k i Hk Href).
    + intros j Hj _ [= E]. done.
  - intros j. by eapply refs_same_insert.
Qed.

(** [iput] drops a reference and frees nothing. *)
Lemma wp_iput_walk pid cwd s k n ic0 (Q : unit -> fstate S -> Prop) :
  walk_inv pid cwd s None -> held ic0 (f_icache s) k n ->
  (forall s', walk_inv pid cwd s' None -> (forall j, refs (f_icache s') j = refs ic0 j) -> Q tt s') ->
  wp (iput k) s Q.
Proof.
  intros [Es Ep Ec Hr Hc] (i & Hk & (Href & _) & Hrefs) HQ. destruct (co_entry _ _ _ _ _ Hc k i Hk Href) as (Hd & HT & Hv).
  pose proof (lookup_lt_Some _ _ _ Hk) as Hlt. eapply wp_iput_keep; [done|by apply (co_lock _ _ _ _ _ Hc k i Hk)| |].
  { destruct (decide (i_valid i = 0)) as [E0|E0]; [by left|right; left]. destruct (tr_inode _ _ _ Htree _ HT) as (_ & _ & Hn).
    by rewrite <- (Hv E0) in Hn. }
  apply HQ.
  - split; try done. cbn [f_icache set_icache]. destruct Hc as [Hw He Hl]. split.
    + eapply icache_wf_same; try done. cbn. lia.
    + intros j x. destruct (decide (j = k)) as [->|Hne]; [|rewrite list_lookup_insert_ne by done; apply He].
      rewrite list_lookup_insert_eq by done. intros [= <-]. cbn. auto.
    + intros j x. destruct (decide (j = k)) as [->|Hne]; [|rewrite list_lookup_insert_ne by done; apply Hl].
      rewrite list_lookup_insert_eq by done. by intros [= <-].
  - intros j. cbn [f_icache set_icache]. rewrite <- Hrefs, !refs_insert by done. by case_decide.
Qed.

(** [iget] adds a reference; the other entries, and the locks, stay. *)
Lemma wp_iget_walk pid cwd s lk m (Q : nat -> fstate S -> Prop) :
  walk_inv pid cwd s lk -> T m -> (exists j i, f_icache s !! j = Some i /\ i_ref i = 0) ->
  (forall s' k, walk_inv pid cwd s' lk -> held (f_icache s) (f_icache s') k m ->
     (forall a i, f_icache s !! a = Some i -> 0 < i_ref i -> exists i', f_icache s' !! a = Some i' /\ i_lock i' = i_lock i /\ 0 < i_ref i') -> Q k s') ->
  wp (iget ROOTDEV m) s Q.
Proof.
  intros [Es Ep Ec Hr Hc] HT (jf & xf & Hjf & Hxf) HQ. pose proof (iget_result_of s ROOTDEV m) as Hres.
  pose proof (fun k s' => iget_result_wf s ROOTDEV m k s' (co_wf _ _ _ _ _ Hc)) as Hwf.
  unfold wp. destruct (iget ROOTDEV m s) as [k s'|msg| | | |] eqn:E; [|inversion Hres as [| |Hfull]; by destruct (Hfull jf xf Hjf)|inversion Hres..].
  destruct (Hwf k s' Hres) as [Hw' _].
  assert (Hx : exists i i', f_icache s !! k = Some i /\ s' = set_icache (<[k := i']> (f_icache s)) s /\ caches ROOTDEV m i' /\
    i_lock i' = i_lock i /\ ref_of (set_ref (i_ref i' - 1) i') = ref_of i /\ (i_valid i' <> 0 -> i_dinode i' = disk_inode sb v m)).
  { inversion Hres as [k0 i Hk (C1 & C2 & C3)|k0 i Hno Hk H0 Hlow|]; subst; do 2 eexists; (split; [exact Hk|]; split; [reflexivity|]).
    - unfold caches, ref_of. cbn. replace (i_ref i + 1 - 1) with (i_ref i) by lia. split; [split_and!; lia|]. split; [done|].
      split; [by rewrite C2|]. intros Hv. by apply (co_entry _ _ _ _ _ Hc k i Hk C1).
    - unfold caches, ref_of. cbn. rewrite H0. done. }
  clear Hres Hwf E. destruct Hx as (i & i' & Hk & -> & Hca & Hlk & Hro & Hv'). pose proof (lookup_lt_Some _ _ _ Hk) as Hlt. cbn [f_icache set_icache] in *.
  apply HQ; cbn [f_icache set_icache].
  - split; try done. cbn [f_icache set_icache]. split; [done|..].
    + intros j x. destruct (decide (j = k)) as [->|Hne]; [|rewrite list_lookup_insert_ne by done; apply Hc].
      rewrite list_lookup_insert_eq by done. intros [= <-] _. destruct Hca as (_ & -> & ->). done.
    + intros j x. destruct (decide (j = k)) as [->|Hne]; [|rewrite list_lookup_insert_ne by done; apply Hc].
      rewrite list_lookup_insert_eq by done. intros [= <-] Hj. unfold unlocked. rewrite Hlk. by apply (co_lock _ _ _ _ _ Hc k i Hk).
  - exists i'. split; [by apply list_lookup_insert_eq|]. split; [done|]. intros j. rewrite list_insert_insert_eq, refs_insert by done.
    case_decide as Ej; [|done]. subst. by rewrite Hro, (refs_lookup _ _ _ Hk).
  - intros a x Ha Hpos. destruct (decide (a = k)) as [->|Hne]; [|rewrite list_lookup_insert_ne by done; by exists x].
    rewrite list_lookup_insert_eq by done. exists i'. destruct Hca as (? & _). split; [done|]. split; [|done]. congruence.
Qed.


(** * Walking the tree *)

Definition is_dir (n : Z) : bool := d_type (disk_inode sb v n) =? T_DIR.
Definition look (n : Z) (c : bytes) : option Z := dir_lookup v (as_inode (disk_inode sb v n)) c.

(** The inode that the components [cs] lead to from inode [n]. *)
Fixpoint walk (n : Z) (cs : list bytes) : option Z :=
  match cs with
  | [] => Some n
  | c :: cs' => if is_dir n then look n c ≫= fun m => walk m cs' else None
  end.

(** The directory of the last component. *)
Definition walk_parent (n : Z) (cs : list bytes) : option Z :=
  match cs with
  | [] => None
  | _ => walk n (removelast cs) ≫= fun m => if is_dir m then Some m else None
  end.

Definition walk_to (parent : bool) : Z -> list bytes -> option Z := if parent then walk_parent else walk.

Lemma walk_parent_cons n c c' cs :
  walk_parent n (c :: c' :: cs) = if is_dir n then look n c ≫= fun m => walk_parent m (c' :: cs) else None.
Proof.
  unfold walk_parent. change (removelast (c :: c' :: cs)) with (c :: removelast (c' :: cs)). cbn [walk].
  destruct (is_dir n); [|done]. by destruct (look n c).
Qed.

Lemma walk_to_cons parent n c cs :
  parent = false \/ cs <> [] -> walk_to parent n (c :: cs) = if is_dir n then look n c ≫= fun m => walk_to parent m cs else None.
Proof. intros H. destruct parent; [|done]. destruct cs as [|c' cs]; [by destruct H|]. apply walk_parent_cons. Qed.

Context (dev_read : Z -> option (nat -> Z -> M (fstate S) (Z * bytes))).
Context (pid : Z) (cwd : nat) (ic0 : list inode) (Hfree : two_free ic0).

(** What a walk leaves. *)
Definition walked (parent : bool) (n : Z) (cs : list bytes) (r : option nat) (name : bytes) s : Prop :=
  walk_inv pid cwd s None /\
  match walk_to parent n cs with
  | Some m => exists k, r = Some k /\ held ic0 (f_icache s) k m /\
      (parent = true -> exists c, last cs = Some c /\ dname name = take 14 c)
  | None => r = None /\ forall j, refs (f_icache s) j = refs ic0 j
  end.

Lemma wp_iunlockput s k i n ic1 (Q : unit -> fstate S -> Prop) :
  walk_inv pid cwd s (Some k) -> f_icache s !! k = Some i -> holds pid i -> held ic1 (f_icache s) k n ->
  (forall s', walk_inv pid cwd s' None -> (forall j, refs (f_icache s') j = refs ic1 j) -> Q tt s') ->
  wp (iunlockput k) s Q.
Proof.
  intros Hi Hk Hh Hheld HQ. pose proof Hheld as (i' & Hk' & (Hc & _) & _). rewrite Hk in Hk'. injection Hk' as <-.
  unfold iunlockput. wp_step. eapply wp_iunlock_walk; [done..|]. intros s' Hi' Hr'.
  eapply wp_iput_walk; [exact Hi'| |exact HQ]. eapply held_refs; [exact Hheld|exact Hr'|]. eexists. apply list_lookup_insert_eq. by eapply lookup_lt_Some.
Qed.

(** The directory that is locked, as [dirlookup] needs it. *)
Lemma walk_file s k i n :
  walk_inv pid cwd s (Some k) -> f_icache s !! k = Some i -> 0 < i_ref i -> i_inum i = n -> T n -> i_dinode i = disk_inode sb v n -> is_dir n = true ->
  file_state g o dur s v L k i /\ dir_ok v i.
Proof.
  intros [Es _ _ Hr Hc] Hk Href Hn HT Hd Hdir. apply Z.eqb_eq in Hdir. destruct (tr_dir _ _ _ Htree n HT Hdir) as [Hdo Hwf].
  destruct (tr_inode _ _ _ Htree n HT) as (Hok & _ & _). rewrite <- Hd in *. destruct (co_entry _ _ _ _ _ Hc k i Hk Href) as (Hdv & _ & _).
  split; [|by apply (as_inode_ok v i (i_dinode i))]. split; rewrite ?Es; try done.
  - split; [done| |done]. rewrite Hn. by apply (tr_range _ _ _ Htree).
  - cbn in Hdir. by rewrite Hdir.
Qed.

(** Looking a name up in the locked directory and letting go of it. *)
Lemma wp_look s k i n name c (Q : option (nat * Z) -> fstate S -> Prop) :
  walk_inv pid cwd s (Some k) -> f_icache s !! k = Some i -> holds pid i -> 0 < i_ref i -> i_inum i = n -> T n ->
  i_dinode i = disk_inode sb v n -> is_dir n = true -> held ic0 (f_icache s) k n -> dname name = dname c ->
  match look n c with
  | None => forall s', walk_inv pid cwd s' (Some k) -> f_icache s' = f_icache s -> Q None s'
  | Some m => forall s' k' off, walk_inv pid cwd s' (Some k) -> T m -> held (f_icache s) (f_icache s') k' m ->
      (exists i', f_icache s' !! k = Some i' /\ holds pid i') -> Q (Some (k', off)) s'
  end ->
  wp (dirlookup dev_read k name) s Q.
Proof.
  intros Hi Hk Hh Href Hn HT Hd Hdir Hheld Hnm HQ. destruct (walk_file s k i n) as [Hf Hdo]; try done. pose proof Hi as [Es Ep Ec Hr Hc].
  unfold look in HQ. rewrite <- (as_inode_lookup v i _ c Hd), <- (dir_lookup_dname v i _ _ Hnm) in HQ.
  assert (Hinv : forall b', rep g o dur b' v ∅ L -> walk_inv pid cwd (set_blk b' s) (Some k)) by (intros; by split).
  eapply wp_dirlookup; [exact Hf|exact Hdo|exact HL|..].
  - intros En b' Hf'. unfold dir_lookup in HQ. rewrite En in HQ. apply HQ; [|done]. apply Hinv, Hf'.
  - intros kk En b' Hf'. set (m := de_inum _). assert (Em : dir_lookup v i name = Some m) by (unfold dir_lookup; by rewrite En).
    rewrite Em in HQ. assert (HTm : T m).
    { eapply (tr_entry _ _ _ Htree n name m HT); [by apply Z.eqb_eq|]. by rewrite <- (as_inode_lookup v i _ _ Hd). }
    eapply wp_iget_walk; [apply Hinv, Hf'|done|by eapply (held_free ic0 (f_icache s))|]. intros s' k' Hi' Hh' Hl.
    apply (HQ s' k' (kk * 16)); try done. destruct (Hl k i Hk Href) as (i' & Hk' & El & _). exists i'. split; [done|]. unfold holds. by rewrite El.
Qed.

Lemma wp_namex_loop parent fuel : forall path name s ip n (Q : option nat * bytes -> fstate S -> Prop),
  (length path < fuel)%nat -> length name = 14%nat -> walk_inv pid cwd s None -> T n -> held ic0 (f_icache s) ip n ->
  (forall r name' s', walked parent n (components path) r name' s' -> Q (r, name') s') ->
  wp (namex_loop dev_read fuel ip path parent name) s Q.
Proof.
  induction fuel as [|fuel IH]; intros path name s ip n Q Hlen Hname Hi HT Hheld HQ; [lia|]. cbn [namex_loop].
  pose proof (skipelem_splits path name Hname) as Hsk. pose proof (components_names path) as Hcn. unfold walked in HQ.
  destruct (skipelem path name) as [[path' name']|].
  2: { rewrite Hsk in HQ. destruct parent; cbn [walk_to walk walk_parent] in HQ.
       - wp_step. eapply wp_iput_walk; [exact Hi|exact Hheld|]. intros s' Hi' Hr. apply wp_ret. by apply HQ.
       - apply wp_ret, HQ. split; [done|]. by exists ip. }
  destruct Hsk as (c & Ec & Hdn & Hl' & Hh & Hlt). rewrite Ec in *. apply Forall_cons in Hcn as [Hc _]. rewrite <- (dname_component c Hc) in Hdn.
  pose proof Hheld as (i & Hk & (Href & Hdv & Hin) & _). wp_step. eapply wp_ilock_walk; [exact Hi|exact Hk|done|].
  intros s1 i1 Hi1 Hk1 Hhold Hval Hd1 Hr1 Hdv1 Hin1 Hrefs. rewrite Hin in Hin1, Hd1.
  assert (Hheld1 : held ic0 (f_icache s1) ip n) by (eapply held_refs; [exact Hheld|exact Hrefs|by exists i1]).
  assert (Ety : negb (i_type i1 =? T_DIR) = negb (is_dir n)) by (unfold is_dir; by rewrite <- Hd1).
  wp_step. eapply wp_geti_at; [exact Hk1|]. rewrite Ety. destruct (is_dir n) eqn:Edir; cbn [negb].
  2: { wp_step. eapply wp_iunlockput; [exact Hi1|done|done|exact Hheld1|]. intros s' Hi' Hr. apply wp_ret. apply HQ. split; [done|].
       assert (Ew : walk_to parent n (c :: components path') = None).
       { destruct parent; cbn [walk_to walk]; [|by rewrite Edir]. destruct (components path') as [|c' cs]; [unfold walk_parent; cbn; by rewrite Edir|].
         by rewrite walk_parent_cons, Edir. }
       by rewrite Ew. }
  pose proof (components_empty path' Hh) as Hempty. destruct (parent && (hd0 path' =? 0)) eqn:Elast.
  - apply andb_true_iff in Elast as [-> E0%Z.eqb_eq]. apply Hempty in E0. rewrite E0 in *. wp_step.
    eapply wp_iunlock_walk; [exact Hi1|done|done|lia|]. intros s' Hi' Hr. apply wp_ret, HQ. split; [done|].
    cbn [walk_to]. unfold walk_parent. cbn. rewrite Edir. exists ip. split; [done|]. split; [|by exists c; rewrite <- (dname_component c Hc)].
    eapply held_refs; [exact Hheld1|exact Hr|]. eexists. apply list_lookup_insert_eq. by eapply lookup_lt_Some.
  - assert (Hmore : parent = false \/ components path' <> []).
    { destruct parent; [right|by left]. intros E0%Hempty. by rewrite E0 in Elast. }
    rewrite (walk_to_cons parent n c (components path') Hmore), Edir in HQ. wp_step.
    eapply (wp_look s1 ip i1 n name' c); try done; [lia|]. destruct (look n c) as [m|]; cbn [mbind option_bind] in HQ.
    + intros s2 k' off Hi2 HTm Hheld2 (i2 & Hk2 & Hhold2). destruct (held_swap _ _ _ _ _ _ _ Hheld1 Hheld2) as (ic' & Ha & Hb).
      wp_step. eapply wp_iunlockput; [exact Hi2|exact Hk2|done|exact Ha|]. intros s3 Hi3 Hr3.
      eapply (IH path' name' s3 k' m); [lia|done|done|done| |].
      * eapply held_refs; [exact Hb|exact Hr3|]. destruct Hb as (ib & Hbk & _). specialize (Hr3 k'). rewrite (refs_lookup _ _ _ Hbk) in Hr3.
        unfold refs in Hr3. destruct (f_icache s3 !! k') as [x|]; [by exists x|done].
      * intros r name2 s' [Hi' Hw]. apply HQ. split; [done|]. destruct (walk_to parent m (components path')) as [m'|]; [|done].
        destruct Hw as (kk & -> & Hkk & Hnm). exists kk. split; [done|]. split; [done|]. intros Hp. destruct (Hnm Hp) as (c' & Hlast & Hc').
        exists c'. split; [|done]. by destruct (components path').
    + intros s2 Hi2 Eic. rewrite <- Eic in Hk1, Hheld1. wp_step. eapply wp_iunlockput; [exact Hi2|exact Hk1|done|exact Hheld1|].
      intros s3 Hi3 Hr3. apply wp_ret. by apply HQ.
Qed.
End walk.

(** [namex] as a computation. *)
Lemma wp_namex {S} `{!BlockIO S} `{!BlockSpec S} (dev_read : Z -> option (nat -> Z -> M (fstate S) (Z * bytes)))
    g o dur sb v L T pid cwd (s : fstate S) path parent name n (Q : option nat * bytes -> fstate S -> Prop) :
  tree sb v T -> sb_ok g sb -> meta_used sb v -> (length L < NBUFn)%nat ->
  walk_inv g o dur sb v L T pid cwd s None -> two_free (f_icache s) -> T n -> length name = 14%nat ->
  (if hd0 path =? slash then n = ROOTINO else exists i, f_icache s !! cwd = Some i /\ caches ROOTDEV n i) ->
  (forall r name' s', walked g o dur sb v L T pid cwd (f_icache s) parent n (components path) r name' s' -> Q (r, name') s') ->
  wp (namex dev_read path parent name) s Q.
Proof.
  intros Ht Hsb Hm HL Hi Hfree HT Hname Hstart HQ. pose proof Hi as [Es Ep Ec Hr Hc].
  unfold namex. wp_step. apply wp_gets. rewrite Ec. wp_step. destruct (hd0 path =? slash).
  - subst n. eapply wp_iget_walk; [exact HL|exact Hi|exact HT| |].
    { destruct Hfree as (j & _ & _ & Hj & _). unfold refs in Hj. destruct (f_icache s !! j) as [x|] eqn:E; [|done].
      injection Hj as Hx. exists j, x. split; [done|]. apply ref_of_free. unfold ref_of. congruence. }
    intros s1 k Hi1 Hh _. eapply (wp_namex_loop g o dur sb v L T Ht Hsb Hm HL dev_read pid cwd (f_icache s) Hfree); try done. lia.
  - destruct Hstart as (i & Hk & (Href & Hd & Hn)). pose proof (lookup_lt_Some _ _ _ Hk) as Hlt. unfold idup. wp_step.
    eapply wp_updi; [exact Hk|]. apply wp_ret. set (i' := set_ref _ _).
    eapply (wp_namex_loop g o dur sb v L T Ht Hsb Hm HL dev_read pid cwd (f_icache s) Hfree parent _ path name _ cwd n); try done; [lia|..].
    + split; try done. cbn [f_icache set_icache]. destruct Hc as [Hw He Hlk]. split.
      * eapply icache_wf_same; try done. cbn. lia.
      * intros j x. destruct (decide (j = cwd)) as [->|Hne]; [|rewrite list_lookup_insert_ne by done; apply He].
        rewrite list_lookup_insert_eq by done. intros [= <-] _. by apply (He cwd i Hk).
      * intros j x. destruct (decide (j = cwd)) as [->|Hne]; [|rewrite list_lookup_insert_ne by done; apply Hlk].
        rewrite list_lookup_insert_eq by done. intros [= <-]. by apply (Hlk cwd i Hk).
    + exists i'. cbn [f_icache set_icache]. split; [by apply list_lookup_insert_eq|]. split; [split_and!; cbn; [lia|done|done]|].
      intros j. rewrite list_insert_insert_eq, refs_insert by done. case_decide as E; [subst|done].
      rewrite (refs_lookup _ _ _ Hk). unfold ref_of. cbn. by replace (i_ref i + 1 - 1) with (i_ref i) by lia.
Qed.

(** C6: path names are resolved.  In a consistent file system with two free
    entries in the inode cache, [namex] returns.  From the root, or from the
    current directory if the path does not start with a slash, it follows the
    components of the path through the directories on disk: [namei] returns the
    inode they lead to, [nameiparent] the directory of the last component, whose
    first [DIRSIZ] characters it leaves in [name].  It returns null when a
    component is not a directory or not found, or when [nameiparent] is given no
    component.  The cache keeps agreeing with the disk, no lock stays held, and
    the references are as before except for one more to the inode returned. *)
Theorem namex_correct {S} `{!BlockIO S} `{!BlockSpec S} (dev_read : Z -> option (nat -> Z -> M (fstate S) (Z * bytes)))
    g o dur sb v L T pid cwd (s : fstate S) path parent name n :
  tree sb v T -> sb_ok g sb -> meta_used sb v -> (length L < NBUFn)%nat ->
  walk_inv g o dur sb v L T pid cwd s None -> two_free (f_icache s) -> T n -> length name = 14%nat ->
  (if hd0 path =? slash then n = ROOTINO else exists i, f_icache s !! cwd = Some i /\ caches ROOTDEV n i) ->
  exists r name' s', namex dev_read path parent name s = Ok (r, name') s' /\
    walk_inv g o dur sb v L T pid cwd s' None /\
    match (if parent then walk_parent sb v n (components path) else walk sb v n (components path)) with
    | Some m => exists k, r = Some k /\ held (f_icache s) (f_icache s') k m /\
        (parent = true -> exists c, last (components path) = Some c /\ dname name' = take 14 c)
    | None => r = None /\ forall j, refs (f_icache s') j = refs (f_icache s) j
    end.
Proof.
  intros Ht Hsb Hm HL Hi Hfree HT Hname Hstart.
  assert (Hwp : wp (namex dev_read path parent name) s (fun x s' =>
    walked g o dur sb v L T pid cwd (f_icache s) parent n (components path) x.1 x.2 s')) by (eapply wp_namex; done).
  apply wp_inv in Hwp as ([r name'] & s' & E & Hi' & Hw). exists r, name', s'. split; [exact E|]. split; [exact Hi'|].
  cbn [fst snd] in Hw. unfold walk_to in Hw. by destruct parent.
Qed.
