(* ===== verification/Syscall.v ===== *)
(** syscall.c: how the kernel fetches the arguments of a system call from the
    user's memory.

    [uproc] is what these routines see of the running process: its memory, its
    size [sz] and the saved stack pointer.  A routine that returns a negative
    number on failure and otherwise stores through a pointer is an [option]. *)
From S2P Require Import Prelude Layout CString Kalloc.

Record uproc := mkU { u_mem : mem; u_sz : Z; u_esp : Z }.

(** The little-endian word at [a]. *)
Definition umem_word (u : uproc) (a : Z) : Z :=
  u_mem u a + 256 * u_mem u (a + 1) + 65536 * u_mem u (a + 2) + 16777216 * u_mem u (a + 3).

(** [n] bytes from [a] on. *)
Definition umem_bytes (u : uproc) (a : Z) (n : nat) : bytes :=
  map (fun k => u_mem u (a + Z.of_nat k)) (seq 0 n).

Definition fetchint (u : uproc) (addr : Z) : option Z :=
  if (u_sz u <=? addr) || (u_sz u <? u32 (addr + 4)) then None
  else Some (s32 (umem_word u addr)).

(** The loop [for(s = *pp; s < ep; s++)]; [n] is [ep - s]. *)
Fixpoint scan_nul (m : mem) (s : Z) (n : nat) : option Z :=
  match n with
  | O => None
  | S n' => if m s =? 0 then Some s else scan_nul m (s + 1) n'
  end.

(** The length of the string; the pointer is [addr]. *)
Definition fetchstr (u : uproc) (addr : Z) : option Z :=
  if u_sz u <=? addr then None
  else match scan_nul (u_mem u) addr (Z.to_nat (u_sz u - addr)) with
       | Some s => Some (s - addr)
       | None => None
       end.

Definition argint (u : uproc) (n : Z) : option Z := fetchint u (u32 (u_esp u + 4 + 4 * n)).

(** The pointer, checked to have [size] bytes behind it. *)
Definition argptr (u : uproc) (n size : Z) : option Z :=
  match argint u n with
  | None => None
  | Some i =>
      if (size <? 0) || (u_sz u <=? u32 i) || (u_sz u <? u32 (u32 i + size)) then None
      else Some (u32 i)
  end.

(** The pointer and the length of the string it points to. *)
Definition argstr (u : uproc) (n : Z) : option (Z * Z) :=
  match argint u n with
  | None => None
  | Some addr =>
      match fetchstr u (u32 addr) with
      | Some len => Some (u32 addr, len)
      | None => None
      end
  end.

(** The string a successful [argstr] points to, without its NUL. *)
Definition ustring (u : uproc) (p : Z * Z) : bytes := umem_bytes u p.1 (Z.to_nat p.2).

Definition MAXARG : Z := 32.

(** * Safety *)

Lemma fetchint_in u addr v :
  0 <= addr -> u_sz u <= KERNBASE -> fetchint u addr = Some v ->
  addr + 4 <= u_sz u /\ v = s32 (umem_word u addr).
Proof.
  unfold fetchint, KERNBASE. intros ?? H.
  destruct (u_sz u <=? addr) eqn:E1; [done|]. cbn [orb] in H.
  destruct (u_sz u <? _) eqn:E2; [done|]. bool_to_prop.
  rewrite u32_small in E2 by lia. split; [lia|congruence].
Qed.

Lemma scan_nul_some m s n e :
  scan_nul m s n = Some e ->
  s <= e < s + Z.of_nat n /\ m e = 0 /\ (forall x, s <= x < e -> m x <> 0).
Proof.
  revert s. induction n as [|n IH]; cbn [scan_nul]; intros s H; [done|].
  destruct (m s =? 0) eqn:E; bool_to_prop.
  - simplify_eq. repeat split; [lia|lia|done|lia].
  - apply IH in H as (?&?&Hx). repeat split; [lia|lia|done|].
    intros x ?. destruct (decide (x = s)) as [->|]; [done|apply Hx; lia].
Qed.

Lemma scan_nul_none m s n :
  scan_nul m s n = None -> forall x, s <= x < s + Z.of_nat n -> m x <> 0.
Proof.
  revert s. induction n as [|n IH]; cbn [scan_nul]; intros s H x ?; [lia|].
  destruct (m s =? 0) eqn:E; bool_to_prop; [done|].
  destruct (decide (x = s)) as [->|]; [done|]. apply (IH (s + 1)); [done|lia].
Qed.

Lemma fetchstr_in u addr len :
  0 <= addr -> fetchstr u addr = Some len ->
  0 <= len /\ addr + len < u_sz u /\ u_mem u (addr + len) = 0 /\
  (forall k, 0 <= k < len -> u_mem u (addr + k) <> 0).
Proof.
  unfold fetchstr. intros ? H. destruct (u_sz u <=? addr) eqn:E; [done|]. bool_to_prop.
  destruct (scan_nul _ _ _) as [e|] eqn:Es; [|done]. simplify_eq.
  apply scan_nul_some in Es as (?&?&Hx). repeat split; [lia|lia| |].
  - by replace (addr + (e - addr)) with e by lia.
  - intros k ?. apply Hx. lia.
Qed.

Lemma argptr_in u n size p :
  u_sz u <= KERNBASE -> size < 2 ^ 31 -> argptr u n size = Some p ->
  0 <= size /\ 0 <= p /\ p + size <= u_sz u.
Proof.
  unfold argptr, KERNBASE. intros ?? H. destruct (argint u n) as [i|]; [|done].
  destruct (size <? 0) eqn:E1; [done|]. cbn [orb] in H.
  destruct (u_sz u <=? u32 i) eqn:E2; [done|]. cbn [orb] in H.
  destruct (u_sz u <? u32 (u32 i + size)) eqn:E3; [done|].
  bool_to_prop. simplify_eq. pose proof (u32_range i). rewrite u32_small in E3 by lia. lia.
Qed.

Lemma argstr_in u n p len :
  argstr u n = Some (p, len) ->
  0 <= p /\ 0 <= len /\ p + len < u_sz u /\ u_mem u (p + len) = 0 /\
  Forall (fun c => c <> 0) (ustring u (p, len)).
Proof.
  unfold argstr. intros H. destruct (argint u n) as [a|]; [|done].
  pose proof (u32_range a).
  destruct (fetchstr u (u32 a)) as [l|] eqn:E; [|done]. simplify_eq.
  apply fetchstr_in in E as (?&?&?&Hx); [|lia]. split; [lia|]. split; [lia|]. split; [lia|]. split; [done|].
  apply Forall_forall. unfold ustring, umem_bytes. cbn. intros c Hc.
  apply list_elem_of_fmap in Hc as (k&->&Hk%elem_of_seq). apply Hx. lia.
Qed.

(** C29: whatever the user puts into its registers and memory, a system-call
    argument the kernel accepts lies inside the process's memory: an accepted
    buffer of [size] bytes ends at or before [sz], and an accepted string
    starts in the process's memory, has its NUL before [sz] and no NUL
    earlier.  ([sz] is at most KERNBASE.) *)
Theorem syscall_args_safe u n size :
  u_sz u <= KERNBASE -> size < 2 ^ 31 ->
  (forall p, argptr u n size = Some p -> 0 <= size /\ 0 <= p /\ p + size <= u_sz u) /\
  (forall p len, argstr u n = Some (p, len) ->
     0 <= p /\ 0 <= len /\ p + len < u_sz u /\ u_mem u (p + len) = 0 /\
     Forall (fun c => c <> 0) (ustring u (p, len))).
Proof.
  intros Hsz Hs. split.
  - intros p Hp. exact (argptr_in u n size p Hsz Hs Hp).
  - intros p len Hp. exact (argstr_in u n p len Hp).
Qed.

(** The stack of a process of 4096 bytes with the arguments 100 and 10. *)
Definition demo_uproc : uproc :=
  mkU (fun a => if a =? 4004 then 100 else if a =? 4008 then 10 else
                if (100 <=? a) && (a <? 105) then 97 else 0) 4096 4000.

Lemma syscall_args_safe_witness :
  argptr demo_uproc 0 3996 = Some 100 /\ argptr demo_uproc 0 3997 = None /\
  argstr demo_uproc 0 = Some (100, 5) /\ 100 + 3996 <= u_sz demo_uproc.
Proof.
  split; [reflexivity|]. split; [reflexivity|]. split; [reflexivity|].
  apply (proj1 (syscall_args_safe demo_uproc 0 3996 ltac:(vm_compute; discriminate) ltac:(lia))).
  reflexivity.
Defined.
