(* ===== verification/File.v ===== *)
(** file.c and the file descriptors of pipe.c: the open-file table.

    [kstate] is the kernel as the running process sees it: the file system, the
    table [ftable], the pipes by the page they live in, the memory, and
    the process's descriptors [ofile], its [killed] flag, its page table, its
    size and the saved user stack pointer.  A [struct file*] is an index of
    [ftable.file].  Console output is not part of the state. *)
From S2P Require Import Prelude Layout CString Locks LogRep Fs Kalloc Vm Pipe Syscall.

Inductive ftype := FD_NONE | FD_PIPE | FD_INODE | SYMLINK.

#[global] Instance ftype_eq_dec : EqDecision ftype.
Proof. solve_decision. Defined.

(** [struct file]; [fd_ip] is [None] for a null pointer. *)
Record file := mkFile {
  fd_type : ftype; fd_ref : Z; fd_readable : bool; fd_writable : bool;
  fd_pipe : Z; fd_ip : option nat; fd_off : Z
}.

Definition set_fref (r : Z) (f : file) : file :=
  mkFile (fd_type f) r (fd_readable f) (fd_writable f) (fd_pipe f) (fd_ip f) (fd_off f).
Definition set_ftype (t : ftype) (f : file) : file :=
  mkFile t (fd_ref f) (fd_readable f) (fd_writable f) (fd_pipe f) (fd_ip f) (fd_off f).
Definition set_foff (off : Z) (f : file) : file :=
  mkFile (fd_type f) (fd_ref f) (fd_readable f) (fd_writable f) (fd_pipe f) (fd_ip f) off.
Definition set_fmode (r w : bool) (f : file) : file :=
  mkFile (fd_type f) (fd_ref f) r w (fd_pipe f) (fd_ip f) (fd_off f).
Definition set_fpipe (p : Z) (f : file) : file :=
  mkFile (fd_type f) (fd_ref f) (fd_readable f) (fd_writable f) p (fd_ip f) (fd_off f).
Definition set_fip (ip : option nat) (f : file) : file :=
  mkFile (fd_type f) (fd_ref f) (fd_readable f) (fd_writable f) (fd_pipe f) ip (fd_off f).

Record kstate (S : Type) := mkK {
  k_fs : fstate S;
  k_ftable : list file;
  k_pipes : gmap Z pipe;
  k_mem : vmem;
  k_ofile : list (option nat);
  k_killed : bool;
  k_pgdir : Z;
  k_sz : Z;
  k_esp : Z
}.
Arguments mkK {S}.
Arguments k_fs {S}.
Arguments k_ftable {S}.
Arguments k_pipes {S}.
Arguments k_mem {S}.
Arguments k_ofile {S}.
Arguments k_killed {S}.
Arguments k_pgdir {S}.
Arguments k_sz {S}.
Arguments k_esp {S}.

Section file.
Context {S : Type} `{!BlockIO S}.
Local Abbreviation FS := (M (fstate S)).
Local Abbreviation K := (M (kstate S)).
Context (dev_read : Z -> option (nat -> Z -> FS (Z * bytes))).
Context (dev_write : Z -> option (nat -> bytes -> Z -> FS Z)).
(** The linker's [end], for [kfree]. *)
Context (kend : Z).

Definition set_fs (x : fstate S) (s : kstate S) : kstate S :=
  mkK x (k_ftable s) (k_pipes s) (k_mem s) (k_ofile s) (k_killed s) (k_pgdir s) (k_sz s) (k_esp s).
Definition set_ftable (x : list file) (s : kstate S) : kstate S :=
  mkK (k_fs s) x (k_pipes s) (k_mem s) (k_ofile s) (k_killed s) (k_pgdir s) (k_sz s) (k_esp s).
Definition set_pipes (x : gmap Z pipe) (s : kstate S) : kstate S :=
  mkK (k_fs s) (k_ftable s) x (k_mem s) (k_ofile s) (k_killed s) (k_pgdir s) (k_sz s) (k_esp s).
Definition set_mem (x : vmem) (s : kstate S) : kstate S :=
  mkK (k_fs s) (k_ftable s) (k_pipes s) x (k_ofile s) (k_killed s) (k_pgdir s) (k_sz s) (k_esp s).
Definition set_ofile (x : list (option nat)) (s : kstate S) : kstate S :=
  mkK (k_fs s) (k_ftable s) (k_pipes s) (k_mem s) x (k_killed s) (k_pgdir s) (k_sz s) (k_esp s).

Definition fs {A} (m : FS A) : K A := zoom k_fs set_fs m.
Definition vm {A} (m : M vmem A) : K A := zoom k_mem set_mem m.
Definition mem_op {A} (m : M kmem A) : K A := vm (vm_alloc m).
Definition begin_op : K unit := fs (io io_begin_op).
Definition end_op : K unit := fs (io io_end_op).

Definition getf (f : nat) : K file := fun s =>
  match k_ftable s !! f with Some x => Ok x s | None => Fault end.
Definition updf (f : nat) (g : file -> file) : K unit := fun s =>
  match k_ftable s !! f with
  | Some _ => Ok tt (set_ftable (alter g f (k_ftable s)) s)
  | None => Fault
  end.

(** [f->ip->...]: a null pointer is an error. *)
Definition file_inode (x : file) : K nat := deref (fd_ip x).

(** * file.c *)

(** The first entry with [ref == 0]. *)
Fixpoint filealloc_scan (l : list file) (k : nat) : option nat :=
  match l with
  | [] => None
  | x :: l' => if fd_ref x =? 0 then Some k else filealloc_scan l' (Datatypes.S k)
  end.

Definition filealloc : K (option nat) :=
  let* l := gets k_ftable in
  match filealloc_scan l 0 with
  | Some f => updf f (set_fref 1) ;; ret (Some f)
  | None => ret None
  end.

Definition filedup (f : nat) : K nat :=
  let* x := getf f in
  if fd_ref x <? 1 then panic "filedup"
  else updf f (fun x => set_fref (fd_ref x + 1) x) ;; ret f.

Definition pipe_at (p : Z) : K pipe := fun s =>
  match k_pipes s !! p with Some x => Ok x s | None => Fault end.
Definition set_pipe (p : Z) (x : pipe) : K unit := modify (fun s => set_pipes (<[p := x]> (k_pipes s)) s).

(** pipe.c [pipeclose]. *)
Definition pipe_close (p : Z) (writable : bool) : K unit :=
  let* x := pipe_at p in
  let '(x', last) := pipeclose x writable in
  set_pipe p x' ;;
  if last then
    modify (fun s => set_pipes (delete p (k_pipes s)) s) ;; mem_op (kfree kend p)
  else ret tt.

Definition fileclose (f : nat) : K unit :=
  let* x := getf f in
  if fd_ref x <? 1 then panic "fileclose"
  else
    updf f (set_fref (fd_ref x - 1)) ;;
    if 0 <? fd_ref x - 1 then ret tt
    else
      updf f (fun x => set_ftype FD_NONE (set_fref 0 x)) ;;
      match fd_type x with
      | FD_PIPE => pipe_close (fd_pipe x) (fd_writable x)
      | FD_INODE =>
          begin_op ;;
          let* ip := file_inode x in
          fs (iput ip) ;;
          end_op
      | _ => ret tt
      end.

Definition filestat (f : nat) (st : stat) : K (Z * stat) :=
  let* x := getf f in
  match fd_type x with
  | FD_INODE =>
      fs (ilock (fd_ip x)) ;;
      let* ip := file_inode x in
      let* st := fs (stati ip st) in
      fs (iunlock (fd_ip x)) ;;
      ret (0, st)
  | _ => ret (-1, st)
  end.

(** pipe.c [piperead] and [pipewrite] on behalf of the running process. *)
Definition pipe_read (p : Z) (n : Z) : K (Z * bytes) :=
  let* x := pipe_at p in
  let* killed := gets k_killed in
  let '(x', r) := piperead killed x (Z.to_nat n) in
  set_pipe p x' ;;
  match r with
  | RDone l => ret (Z.of_nat (length l), l)
  | RSleep => sleep_on (ChanPipeRead p)
  | RFail => ret (-1, [])
  end.

Definition pipe_write (p : Z) (addr : bytes) (n : Z) : K Z :=
  let* x := pipe_at p in
  let* killed := gets k_killed in
  let '(x', _, r) := pipewrite killed x (take (Z.to_nat n) addr) in
  set_pipe p x' ;;
  match r with
  | WDone => ret n
  | WSleep => sleep_on (ChanPipeWrite p)
  | WFail => ret (-1)
  end.

(** The result and the bytes stored at [addr]. *)
Definition fileread (f : nat) (n : Z) : K (Z * bytes) :=
  let* x := getf f in
  if negb (fd_readable x) then ret (-1, [])
  else
    match fd_type x with
    | FD_PIPE => pipe_read (fd_pipe x) n
    | FD_INODE =>
        fs (ilock (fd_ip x)) ;;
        let* ip := file_inode x in
        let* i := fs (geti ip) in
        let* r := fs (readi dev_read ip (fd_off x) (u32 n)) in
        (if (i_type i =? T_EXTENT) || (r.1 <=? 0) then ret tt
         else updf f (set_foff (u32 (fd_off x + r.1)))) ;;
        fs (iunlock (fd_ip x)) ;;
        ret r
    | SYMLINK =>
        fs (ilock (fd_ip x)) ;;
        fs (iunlock (fd_ip x)) ;;
        ret (0, [])
    | FD_NONE => panic "fileread"
    end.

(** The part of [filewrite] for an offset beyond the end of the file. *)
Definition filewrite_hole (f : nat) : K unit :=
  let* x := getf f in
  let* ip := file_inode x in
  let* i := fs (geti ip) in
  if i_size i <? fd_off x then
    let byteDiff := s32 (fd_off x - i_size i) in
    begin_op ;;
    fs (ilock (fd_ip x)) ;;
    let* _ := fs (writei dev_write ip (replicate (Z.to_nat byteDiff) 0) (fd_off x) (u32 byteDiff)) in
    fs (iunlock (fd_ip x)) ;;
    end_op ;;
    fs (updi ip (fun i => set_size (u32 (i_size i + byteDiff)) i))
  else ret tt.

(** [((MAXOPBLOCKS-1-1-2) / 2) * 512]. *)
Definition write_max : Z := ((MAXOPBLOCKS - 1 - 1 - 2) / 2) * 512.

(** One iteration of the loop of [filewrite]: the result of [writei]. *)
Definition filewrite_chunk (f : nat) (chunk : bytes) (n1 : Z) : K Z :=
  begin_op ;;
  let* x := getf f in
  fs (ilock (fd_ip x)) ;;
  let* ip := file_inode x in
  let* r := fs (writei dev_write ip chunk (fd_off x) n1) in
  (if 0 <? r then updf f (set_foff (u32 (fd_off x + r))) else ret tt) ;;
  fs (iunlock (fd_ip x)) ;;
  end_op ;;
  ret r.

Definition filewrite_loop (f : nat) (addr : bytes) (n : Z) : K Z :=
  while_loop (Z.to_nat (n / write_max) + 2) 0 (fun i =>
    if i <? n then
      let n1 := Z.min (n - i) write_max in
      let* r := filewrite_chunk f (slice addr (Z.to_nat i) (Z.to_nat n1)) n1 in
      if r <? 0 then ret (inr i)
      else if negb (r =? n1) then panic "short filewrite"
      else ret (inl (i + r))
    else ret (inr i)).

Definition filewrite (f : nat) (addr : bytes) (n : Z) : K Z :=
  let* x := getf f in
  if negb (fd_writable x) then ret (-1)
  else
    filewrite_hole f ;;
    match fd_type x with
    | FD_PIPE => pipe_write (fd_pipe x) addr n
    | FD_INODE =>
        let* i := filewrite_loop f addr n in
        ret (if i =? n then n else -1)
    | _ => panic "filewrite"
    end.

(** * pipe.c [pipealloc] *)

(** The cleanup at [bad]. *)
Definition pipealloc_bad (f0 f1 : option nat) : K (option (nat * nat)) :=
  (match f0 with Some f => fileclose f | None => ret tt end) ;;
  (match f1 with Some f => fileclose f | None => ret tt end) ;;
  ret None.

(** [page] is what the fresh page contains. *)
Definition pipealloc (page : bytes) : K (option (nat * nat)) :=
  let* f0 := filealloc in
  match f0 with
  | None => pipealloc_bad None None
  | Some a =>
      let* f1 := filealloc in
      match f1 with
      | None => pipealloc_bad (Some a) None
      | Some b =>
          let* p := mem_op kalloc in
          if p =? 0 then pipealloc_bad (Some a) (Some b)
          else
            set_pipe p (pipe_init page) ;;
            updf a (fun x => set_fpipe p (set_fmode true false (set_ftype FD_PIPE x))) ;;
            updf b (fun x => set_fpipe p (set_fmode false true (set_ftype FD_PIPE x))) ;;
            ret (Some (a, b))
      end
  end.
End file.
