(* ===== verification/FileWrite.v ===== *)
(** [filewrite] (file.c) on an ordinary file, end to end: through the inode
    lock, [writei], the block map and the log, to durable contents on disk. *)
From S2P Require Import Prelude Layout Locks LogRep Fs FsBlock FsMap FsData FsInode Kalloc Vm Pipe Syscall File.

(** * What the commit of a transaction leaves *)

Section outside_log.
Context (g : geom) (sb : superblock) (Hsb : sb_ok g sb).
Context (v v' : Z -> bytes).
Hypothesis Hout : forall c, ~ in_log g c -> v' c = v c.

Lemma outside_agree : agree sb v v'.
Proof.
  intros c Hc. pose proof (sb_order _ _ Hsb). apply Hout. unfold in_log. lia.
Qed.

Lemma outside_inode n : 0 <= n < sb_ninodes sb -> disk_inode sb v' n = disk_inode sb v n.
Proof.
  intros Hn. unfold disk_inode. rewrite Hout; [done|]. unfold in_log.
  pose proof (IBLOCK_bounds _ _ Hsb n Hn). pose proof (sb_order _ _ Hsb). lia.
Qed.

Lemma outside_synced i : inode_ok sb i -> synced sb v i -> synced sb v' i.
Proof. intros Hok Hs. unfold synced. by rewrite outside_inode by apply Hok. Qed.

Lemma outside_filled i : blocks_wf sb v (i_addrs i) -> filled v i -> filled v' i.
Proof.
  intros Hwf [Hs Hf]. split; [done|]. intros k Hk. unfold faddr.
  erewrite agree_slot; [by apply Hf|done|apply outside_agree|exact Hwf|].
  apply data_slot_ok. split; [apply Z.div_pos; [lia|done]|apply Z.div_lt_upper_bound; [done|lia]].
Qed.

Lemma outside_free m : free_ge sb v m -> free_ge sb v' m.
Proof. apply free_ge_used. intros c Hc. eapply agree_used; [apply outside_agree|done]. Qed.

Lemma outside_others n v0 ad0 ad :
  blocks_wf sb v ad -> others_same sb n v0 ad0 v ad -> others_same sb n v0 ad0 v' ad.
Proof.
  intros Hwf [H1 H2 H3 H4]. pose proof (sb_order _ _ Hsb). split.
  - intros c Hc Hu Hno. rewrite outside_agree by lia. by apply H1.
  - intros c Hc Hu. erewrite agree_used; [by apply H2|apply outside_agree|done].
  - intros m Hm Hne. rewrite outside_inode by done. by apply H3.
  - intros t Ht. erewrite agree_slot; [by apply H4|done|apply outside_agree|exact Hwf|done].
Qed.

Lemma outside_spliced v0 ad0 ad off n src :
  blocks_wf sb v ad -> 0 <= off -> off + n <= MAXFILE * BSIZE ->
  spliced v0 ad0 v ad off n src -> spliced v0 ad0 v' ad off n src.
Proof.
  intros Hwf Hoff Hmax (S1 & S2 & S3). pose proof outside_agree as Hag. split_and!.
  - intros k Hk. erewrite agree_fbyte by done. by apply S1.
  - intros k Hk. unfold faddr. erewrite agree_slot; [by apply S2|done..|].
    apply data_slot_ok. split; [apply Z.div_pos; [lia|done]|apply Z.div_lt_upper_bound; [done|]].
    rewrite MAXFILE_val, BSIZE_val in *. lia.
  - intros bn Hbn Hne. unfold faddr. erewrite agree_slot; [by apply S3|done..|by apply data_slot_ok].
Qed.
End outside_log.

Lemma spliced_trans v ad v1 ad1 v2 ad2 off i m src :
  0 <= off -> 0 <= i -> 0 <= m -> i + m <= Z.of_nat (length src) ->
  off + i + m <= MAXFILE * BSIZE ->
  spliced v ad v1 ad1 off i src ->
  spliced v1 ad1 v2 ad2 (off + i) m (slice src (Z.to_nat i) (Z.to_nat m)) ->
  spliced v ad v2 ad2 off (i + m) src.
Proof.
  intros Hoff Hi Hm Hl Hmax (A1 & A2 & A3) (B1 & B2 & B3).
  assert (Hbn : forall k, off <= k < off + i -> 0 <= k / BSIZE < MAXFILE).
  { intros k Hk. split; [apply Z.div_pos; [lia|done]|apply Z.div_lt_upper_bound; [done|lia]]. }
  split_and!.
  - intros k Hk. rewrite B1 by done. destruct (decide (off + i <= k < off + i + m)) as [E|E].
    + rewrite decide_True by lia. rewrite !nth0_lookup, lookup_slice, decide_True by lia.
      f_equal. f_equal. lia.
    + rewrite A1 by done. destruct (decide (off <= k < off + i)).
      * by rewrite decide_True by lia.
      * by rewrite decide_False by lia.
  - intros k Hk. destruct (decide (off + i <= k)); [apply B2; lia|].
    rewrite B3; [apply A2; lia|apply Hbn; lia|apply A2; lia].
  - intros bn Hbn' Hne. rewrite B3; [by apply A3|done|by rewrite A3].
Qed.

(** * A chunk fits the log *)

Lemma path_slots_ok bn : 0 <= bn < MAXFILE -> Forall slot_ok (path bn) /\ (length (path bn) <= 3)%nat.
Proof.
  intros Hbn. unfold path. destruct (Z.ltb_spec bn 11); [|destruct (Z.ltb_spec bn 139)].
  - split; [repeat constructor; cbn; lia|cbn; lia].
  - split; [repeat constructor; cbn; lia|cbn; lia].
  - pose proof (leaf_index_ok bn). split; [repeat constructor; cbn; lia|cbn; lia].
Qed.

(** The slots of the four blocks from [bn] on (of the last one beyond the end). *)
Definition chunk_slots (bn : Z) : list slot :=
  path (Z.min bn (MAXFILE - 1)) ++ path (Z.min (bn + 1) (MAXFILE - 1)) ++
  path (Z.min (bn + 2) (MAXFILE - 1)) ++ path (Z.min (bn + 3) (MAXFILE - 1)).

Lemma chunk_slots_ok bn :
  0 <= bn -> Forall slot_ok (chunk_slots bn) /\ (length (chunk_slots bn) <= 12)%nat.
Proof.
  intros Hbn. unfold chunk_slots. rewrite MAXFILE_val.
  assert (H : forall k, 0 <= k -> Forall slot_ok (path (Z.min k (16523 - 1))) /\
    (length (path (Z.min k (16523 - 1))) <= 3)%nat).
  { intros k Hk. apply path_slots_ok. rewrite MAXFILE_val. lia. }
  destruct (H bn), (H (bn + 1)), (H (bn + 2)), (H (bn + 3)); try lia.
  split; [by rewrite !Forall_app|rewrite !length_app; lia].
Qed.

Lemma write_max_val : write_max = 1536.
Proof. reflexivity. Qed.

Lemma chunk_fits sb v off n fr :
  0 <= off -> 0 <= n <= write_max -> off + n <= MAXFILE * BSIZE -> free_ge sb v (12 + fr) ->
  write_fits fr sb v [] off n.
Proof.
  rewrite write_max_val. intros Hoff Hn Hmax Hfr. pose proof (block_split off) as [Ho1 Ho2].
  rewrite MAXFILE_val, BSIZE_val in Hmax. rewrite BSIZE_val in Ho1, Ho2.
  assert (0 <= off / 512) by (apply Z.div_pos; lia). split.
  - eapply free_ge_weaken; [exact Hfr|]. unfold blocks_left. rewrite BSIZE_val.
    destruct (Z.leb_spec (off + n) off); [lia|].
    assert ((off + n - 1) / 512 < off / 512 + 4) by (apply Z.div_lt_upper_bound; lia). lia.
  - exists (chunk_slots (off / BSIZE)). rewrite BSIZE_val.
    destruct (chunk_slots_ok (off / 512)) as [H1 H2]; [done|].
    split_and!; [done|cbn; lia|]. intros bn Hb1 Hb2.
    assert (bn < MAXFILE) by (rewrite MAXFILE_val; lia).
    assert (Hc : bn = off / 512 \/ bn = off / 512 + 1 \/ bn = off / 512 + 2 \/ bn = off / 512 + 3) by lia.
    unfold chunk_slots. destruct Hc as [E|[E|[E|E]]]; rewrite <- E, (Z.min_l bn) by lia; set_solver.
Qed.

(** * One chunk *)

Section filewrite.
Context {S : Type} `{!BlockIO S} `{!BlockSpec S}.
Context (dev_write : Z -> option (nat -> bytes -> Z -> M (fstate S) Z)).
Context (g : geom).

(** An open file between operations: no transaction is open and the contents
    [v] are those on disk; the inode is cached, not locked, equal to the one on
    disk, and has all the blocks below its size. *)
Record idle (y : fstate S) (v : Z -> bytes) (ip : nat) (i : inode) : Prop := {
  id_file : file_state g 0 v y v [] ip i;
  id_unlocked : unlocked i;
  id_ref : 1 <= i_ref i;
  id_valid : i_valid i <> 0;
  id_synced : synced (f_sb y) v i;
  id_filled : filled v i
}.

Lemma wp_fs {A} (m : M (fstate S) A) (s : kstate S) Q :
  wp m (k_fs s) (fun a y => Q a (set_fs y s)) -> wp (fs m) s Q.
Proof. intros H. by apply wp_zoom. Qed.

Lemma wp_getf f x (s : kstate S) Q : k_ftable s !! f = Some x -> Q x s -> wp (getf f) s Q.
Proof. intros E HQ. unfold wp, getf. by rewrite E. Qed.

Lemma wp_updf f x h (s : kstate S) Q :
  k_ftable s !! f = Some x -> Q tt (set_ftable (<[f := h x]> (k_ftable s)) s) -> wp (updf f h) s Q.
Proof.
  intros E HQ. unfold wp, updf. by rewrite E, (alter_insert _ _ _ _ E).
Qed.

Lemma file_state_lock o dur y v L ip i lk :
  file_state g o dur y v L ip i ->
  file_state g o dur (set_icache (<[ip := set_ilock lk i]> (f_icache y)) y) v L ip (set_ilock lk i).
Proof.
  intros [H1 H2 H3 H4 H5 H6 H7]. split; cbn; try done.
  - apply list_lookup_insert_eq. by eapply lookup_lt_Some.
  - destruct H4. split; cbn; done.
Qed.

Lemma wp_begin y v ip i Q :
  file_state g 0 v y v [] ip i ->
  (forall b, file_state g 1 v (mkF b (f_icache y) (f_sb y) (f_pid y) (f_cwd y)) v [] ip i ->
     Q tt (mkF b (f_icache y) (f_sb y) (f_pid y) (f_cwd y))) ->
  wp (io io_begin_op) y Q.
Proof.
  intros [H1 H2 H3 H4 H5 H6 H7] HQ. apply wp_zoom.
  eapply bk_begin_op; [exact H2|done|]. intros b Hb. apply HQ. by split.
Qed.

Lemma wp_end dur y v L ip i Q :
  file_state g 1 dur y v L ip i ->
  (forall b v', (forall c, ~ in_log g c -> v' c = v c) ->
     file_state g 0 v' (mkF b (f_icache y) (f_sb y) (f_pid y) (f_cwd y)) v' [] ip i ->
     Q tt (mkF b (f_icache y) (f_sb y) (f_pid y) (f_cwd y))) ->
  wp (io io_end_op) y Q.
Proof.
  intros [H1 H2 H3 H4 H5 H6 H7] HQ. apply wp_zoom.
  eapply bk_end_op_last; [exact H2|done|done|]. intros b v' Hout Hb. apply (HQ b v' Hout).
  pose proof (outside_agree g _ H1 _ _ Hout) as Hag.
  split; cbn; try done; [by eapply agree_wf|by eapply agree_meta].
Qed.

Definition with_off (f : nat) (x : file) (off : Z) (y : fstate S) (s : kstate S) : kstate S :=
  set_ftable (<[f := set_foff off x]> (k_ftable s)) (set_fs y s).

Lemma written_rest i ad off n :
  i_inum (written i ad off n) = i_inum i /\ i_ref (written i ad off n) = i_ref i /\
  i_valid (written i ad off n) = i_valid i /\ i_lock (written i ad off n) = i_lock i.
Proof. unfold written. by destruct (_ && _). Qed.

(** What a write of the first [n] bytes of [src] at [off] did. *)
Record did_write (y : fstate S) (v : Z -> bytes) (i : inode) (off n : Z) (src : bytes) (fr : nat)
    (y' : fstate S) (v' : Z -> bytes) (i' : inode) : Prop := {
  dw_sb : f_sb y' = f_sb y;
  dw_inum : i_inum i' = i_inum i;
  dw_size : i_size i' = Z.max (i_size i) (off + n);
  dw_bytes : spliced v (i_addrs i) v' (i_addrs i') off n src;
  dw_others : others_same (f_sb y) (i_inum i) v (i_addrs i) v' (i_addrs i');
  dw_free : free_ge (f_sb y) v' fr
}.

Lemma wp_filewrite_chunk s v ip i f x src n fr Q :
  idle (k_fs s) v ip i -> k_ftable s !! f = Some x -> fd_ip x = Some ip ->
  0 <= fd_off x <= i_size i -> fd_off x + n <= MAXFILE * BSIZE -> 0 < n <= write_max ->
  n = Z.of_nat (length src) -> Forall is_byte src -> free_ge (f_sb (k_fs s)) v (12 + fr) ->
  (forall y' v' i', idle y' v' ip i' -> did_write (k_fs s) v i (fd_off x) n src fr y' v' i' ->
     Q n (with_off f x (fd_off x + n) y' s)) ->
  wp (filewrite_chunk dev_write f src n) s Q.
Proof.
  intros [Hf Hu Hr Hv Hsy Hfi] Hx Eip Hoff Hmax Hn Hlen Hby Hfr HQ.
  unfold filewrite_chunk, begin_op. wp_step. apply wp_fs. eapply wp_begin; [exact Hf|].
  intros b1 Hf1. wp_step. eapply wp_getf; [exact Hx|]. rewrite Eip.
  wp_step. apply wp_fs. eapply wp_ilock_valid; [apply Hf1|done..|].
  apply (file_state_lock _ _ _ _ _ _ _ (mkSleeplock true (f_pid (k_fs s)))) in Hf1.
  set (lk := mkSleeplock true _) in *. wp_step. unfold file_inode. rewrite Eip. wp_step; [done|].
  wp_step. apply wp_fs. eapply (wp_writei_file dev_write _ _ _ _ _ _ _ _ src _ n fr);
    [exact Hf1| |done|done|done|done|done|].
  { apply chunk_fits; [lia|lia|done|done]. }
  intros b2 v2 ad2 L2 i2 y2 Hf2 Hoth Sp _ Hfr2 Hst. destruct (Hst Hsy Hfi) as [Hsy2 Hfi2]. clear Hst.
  destruct (written_rest (set_ilock lk i) ad2 (fd_off x) n) as (E1 & E2 & E3 & E4).
  pose proof (written_size (set_ilock lk i) ad2 (fd_off x) n Hoff) as E5.
  pose proof (written_addrs (set_ilock lk i) ad2 (fd_off x) n) as E6.
  fold i2 in E1, E2, E3, E4, E5, E6. clearbody i2. subst ad2. cbn in E1, E2, E3, E4, E5.
  wp_step. zif. eapply wp_updf; [exact Hx|].
  rewrite u32_small by (rewrite MAXFILE_val, BSIZE_val in Hmax; lia).
  wp_step. apply wp_fs. eapply wp_iunlock; [apply Hf2|by rewrite <- E4|lia|].
  apply (file_state_lock _ _ _ _ _ _ _ (mkSleeplock false 0)) in Hf2.
  wp_step. unfold end_op. apply wp_fs. eapply wp_end; [exact Hf2|].
  pose proof (fl_sb _ _ _ _ _ _ _ _ Hf) as Hsb.
  pose proof (fl_wf _ _ _ _ _ _ _ _ Hf2) as Hwf2. cbn in Hwf2, Hoth, Sp, Hfr2, Hsy2.
  intros b3 v3 Hout Hf3. wp_step. eapply HQ; [split; [exact Hf3|done|cbn; lia|cbn; lia|..]|]; cbn.
  { apply (outside_synced g _ Hsb v2 v3 Hout); [apply Hf2|exact Hsy2]. }
  { by apply (outside_filled g _ Hsb v2 v3 Hout). }
  split; [done|done|cbn; lia|..]; cbn.
  - apply (outside_spliced g _ Hsb v2 v3 Hout); [exact Hwf2|lia|exact Hmax|exact Sp].
  - by eapply outside_others; [exact Hsb|exact Hout|..].
  - by eapply outside_free.
Qed.

(** * The loop *)

(** Iterations still to come after [i] of [n] bytes. *)
Definition chunks (m : Z) : Z := (m + write_max - 1) / write_max.

Lemma chunks_step m : 0 < m -> chunks m = chunks (m - Z.min m write_max) + 1 /\ 0 <= chunks (m - Z.min m write_max).
Proof.
  intros Hm. unfold chunks. rewrite write_max_val. split; [|apply Z.div_pos; lia].
  destruct (Z.le_ge_cases m 1536) as [H|H].
  - rewrite Z.min_l, Z.sub_diag by done. rewrite (Z.div_small (0 + _ - 1)) by lia.
    symmetry. apply Z.div_unique with (r := m - 1); lia.
  - rewrite Z.min_r by done. rewrite <- (Z.div_add _ 1) by lia. f_equal. lia.
Qed.

Lemma chunks_fuel n : 0 <= n -> (Z.to_nat (chunks n) + 1 <= Z.to_nat (n / write_max) + 2)%nat.
Proof.
  intros Hn. unfold chunks. rewrite write_max_val. pose proof (Z.div_pos n 1536).
  assert ((n + 1536 - 1) / 1536 <= (n + 1 * 1536) / 1536) as H1 by (apply Z.div_le_mono; lia).
  rewrite Z.div_add in H1 by lia. lia.
Qed.

Lemma did_write_refl y v i off src fr :
  0 <= off <= i_size i -> free_ge (f_sb y) v fr -> did_write y v i off 0 src fr y v i.
Proof. intros Hoff Hfr. split; try done; [lia|apply spliced_0|apply others_refl]. Qed.

Lemma did_write_trans y v i off k src fr0 y1 v1 i1 m fr y2 v2 i2 ip :
  0 <= off <= i_size i -> 0 <= k -> 0 <= m -> k + m <= Z.of_nat (length src) ->
  off + k + m <= MAXFILE * BSIZE -> idle y2 v2 ip i2 ->
  did_write y v i off k src fr0 y1 v1 i1 ->
  did_write y1 v1 i1 (off + k) m (slice src (Z.to_nat k) (Z.to_nat m)) fr y2 v2 i2 ->
  did_write y v i off (k + m) src fr y2 v2 i2.
Proof.
  intros Hoff Hk Hm Hl Hmax Hid [A1 A2 A3 A4 A5 A6] [B1 B2 B3 B4 B5 B6].
  rewrite A1 in *. rewrite A2 in *. destruct Hid as [[Hsb _ _ _ _ Hwf _] _ _ _ _ _].
  rewrite B1 in Hsb, Hwf. split; try done; [lia| |].
  - eapply (spliced_trans v _ v1 (i_addrs i1)); try done. lia.
  - by eapply others_trans.
Qed.

Lemma with_off_twice f x off1 y1 off2 y2 (s : kstate S) :
  with_off f (set_foff off1 x) off2 y2 (with_off f x off1 y1 s) = with_off f x off2 y2 s.
Proof. unfold with_off, set_ftable, set_fs; cbn. by rewrite list_insert_insert_eq. Qed.

Lemma wp_filewrite_loop s v ip i f x src n fr Q :
  idle (k_fs s) v ip i -> k_ftable s !! f = Some x -> fd_ip x = Some ip ->
  0 <= fd_off x <= i_size i -> fd_off x + n <= MAXFILE * BSIZE ->
  n = Z.of_nat (length src) -> Forall is_byte src ->
  free_ge (f_sb (k_fs s)) v (12 * Z.to_nat (chunks n) + fr) ->
  (forall y' v' i', idle y' v' ip i' -> did_write (k_fs s) v i (fd_off x) n src fr y' v' i' ->
     Q n (with_off f x (fd_off x + n) y' s)) ->
  wp (filewrite_loop dev_write f src n) s Q.
Proof.
  intros Hid Hx Eip Hoff Hmax Hlen Hby Hfr HQ. unfold filewrite_loop.
  apply (wp_while_loop (fun fuel k s1 => exists y1 v1 i1,
    s1 = with_off f x (fd_off x + k) y1 s /\ idle y1 v1 ip i1 /\ 0 <= k <= n /\
    did_write (k_fs s) v i (fd_off x) k src (12 * Z.to_nat (chunks (n - k)) + fr) y1 v1 i1 /\
    (Z.to_nat (chunks (n - k)) + 1 <= fuel)%nat)).
  - exists (k_fs s), v, i. rewrite Z.add_0_r, Z.sub_0_r.
    split_and!; [|done|lia|lia|by apply did_write_refl|by apply chunks_fuel; lia].
    destruct s, x; unfold with_off, set_foff, set_ftable, set_fs; cbn in *. by rewrite list_insert_id.
  - intros k s1 (? & ? & ? & ? & ? & ? & ? & ?). lia.
  - intros fuel k s1 (y1 & v1 & i1 & -> & Hid1 & Hk & Hd & Hfuel).
    destruct (Z.ltb_spec k n) as [Hlt|Hge].
    2: { wp_step. assert (k = n) as -> by lia. rewrite Z.sub_diag in Hd. by eapply HQ. }
    destruct (chunks_step (n - k)) as [Ec Hc]; [lia|]. set (m := Z.min (n - k) write_max) in *.
    assert (Hm : 0 < m <= write_max /\ m <= n - k) by (unfold m; rewrite write_max_val; lia).
    pose proof Hd as [D1 D2 D3 D4 D5 D6]. rewrite Ec in D6, Hfuel.
    set (c := chunks (n - k - m)) in *. cbv zeta. wp_step.
    eapply (wp_filewrite_chunk _ v1 ip i1 f (set_foff (fd_off x + k) x) _ m (12 * Z.to_nat c + fr));
      [exact Hid1| |done|cbn; lia|cbn; lia|lia| | | |].
    { cbn. apply list_lookup_insert_eq. by eapply lookup_lt_Some. }
    { rewrite length_slice by lia. lia. }
    { by apply Forall_slice. }
    { cbn. rewrite D1. eapply free_ge_weaken; [exact D6|lia]. }
    intros y2 v2 i2 Hid2 Hd2. zif. rewrite Z.eqb_refl. cbn [negb]. wp_step.
    rewrite with_off_twice. exists y2, v2, i2. cbn [fd_off set_foff] in *.
    replace (n - (k + m)) with (n - k - m) by lia. fold c.
    split_and!; [f_equal; lia|done|lia|lia| |lia].
    eapply did_write_trans; [done|lia|lia|lia|lia|exact Hid2|exact Hd|exact Hd2].
Qed.

Lemma wp_filewrite s v ip i f x src n fr Q :
  idle (k_fs s) v ip i -> k_ftable s !! f = Some x ->
  fd_type x = FD_INODE -> fd_writable x = true -> fd_ip x = Some ip ->
  0 <= fd_off x <= i_size i -> fd_off x + n <= MAXFILE * BSIZE ->
  n = Z.of_nat (length src) -> Forall is_byte src ->
  free_ge (f_sb (k_fs s)) v (12 * Z.to_nat (chunks n) + fr) ->
  (forall y' v' i', idle y' v' ip i' -> did_write (k_fs s) v i (fd_off x) n src fr y' v' i' ->
     Q n (with_off f x (fd_off x + n) y' s)) ->
  wp (filewrite dev_write f src n) s Q.
Proof.
  intros Hid Hx Ety Ew Eip Hoff Hmax Hlen Hby Hfr HQ. unfold filewrite.
  wp_step. eapply wp_getf; [exact Hx|]. rewrite Ew. cbn [negb]. wp_step.
  unfold filewrite_hole. wp_step. eapply wp_getf; [exact Hx|]. unfold file_inode. rewrite Eip.
  wp_step. wp_step; [done|]. wp_step. apply wp_fs. eapply wp_geti_at; [apply Hid|]. zif. wp_step.
  rewrite Ety. wp_step. eapply wp_filewrite_loop; try done.
  intros y' v' i' Hid' Hd. rewrite Z.eqb_refl. wp_step.
  change (set_fs (k_fs s) s) with (mkK (k_fs s) (k_ftable s) (k_pipes s) (k_mem s) (k_ofile s) (k_killed s) (k_pgdir s) (k_sz s) (k_esp s)) in *.
  by destruct s; eapply HQ.
Qed.
End filewrite.
