(* ===== verification/FsDemo.v ===== *)
(** A small file system: the concrete states at which the theorems about fs.c
    and file.c are instantiated.

    The disk has 64 blocks: the log at 2, inodes at 32, the free map at 40 and
    data from 41 on.  Blocks 0 to 42 are in use; 41 and 42 are the first direct
    block and the double indirect block of inode 5, a regular file of 100
    bytes. *)
From S2P Require Import Prelude Layout CString Locks Bio Log LogRep Crash Fs FsBlock FsMap FsData FsInode FsExtent FsTrunc FsDir Kalloc Vm Pipe Syscall File FileWrite.

Definition demo_addrs : list Z := 41 :: replicate 11 0 ++ [42].

(** Inode 5 in the cache, of the given type and size. *)
Definition demo_inode (type size : Z) : inode :=
  mkInode ROOTDEV 5 1 (mkSleeplock false 0) 1 type 0 0 1 size demo_addrs
    (replicate 11 (mkExtent 0 0)) 0 0 0 0.

(** A regular file of 100 bytes. *)
Definition demo_file : inode := demo_inode T_FILE 100.

Definition fs_bitmap : bytes := replicate 5 255 ++ [7] ++ replicate 506 0.
Definition fs_inodes : bytes := put_dinode zero_block 5 (i_dinode demo_file).
Definition fs_disk : gmap Z bytes := <[32 := fs_inodes]> (<[40 := fs_bitmap]> demo_disk).

Lemma fs_inodes_ok : is_block fs_inodes.
Proof. by apply put_dinode_ok; [apply zero_block_ok|..]. Qed.

Lemma fs_bitmap_ok : is_block fs_bitmap.
Proof.
  split; [done|]. apply Forall_app. split; [by apply Forall_replicate|].
  apply Forall_cons. split; [done|]. by apply Forall_replicate.
Qed.

Lemma fs_log_at : log_at fs_disk 64 2 30.
Proof.
  pose proof demo_log_at as (H1 & H2 & H3 & H4 & H5 & H6 & H7). unfold log_at.
  assert (E : disk_block fs_disk 1 = disk_block demo_disk 1).
  { unfold disk_block, fs_disk. by rewrite !lookup_insert_ne. }
  rewrite E. split_and!; try done. intros c x. unfold fs_disk.
  rewrite lookup_insert_Some. intros [[_ <-]|[_ H]]; [apply fs_inodes_ok|]. revert H.
  rewrite lookup_insert_Some. intros [[_ <-]|[_ ?]]; [apply fs_bitmap_ok|by eapply H7].
Qed.

(** Booting this disk. *)
Lemma fs_boot :
  exists b v, recover fs_disk 64 7 = Ok tt b /\
    log_rep demo_geom b (mkAblk v ∅ ∅ [] 0 v) /\
    forall c, ~ in_log demo_geom c -> v c = disk_block fs_disk c.
Proof.
  destruct (recover_rep fs_disk 64 7 2 30 []) as (b & v & E & Hr & Hv & _).
  - apply fs_log_at.
  - apply head_lists_nil. unfold disk_block, fs_disk, demo_disk.
    by rewrite !lookup_insert_ne by done.
  - apply NoDup_nil_2.
  - apply not_elem_of_nil.
  - unfold NBUFn. cbn. lia.
  - cbn. lia.
  - by apply Forall_nil.
  - exists b, v. split; [exact E|]. clear E. split; [exact Hr|].
    intros c Hc. apply Hv; [exact Hc|apply not_elem_of_nil].
Qed.

Lemma fs_sb_ok : sb_ok demo_geom demo_sb.
Proof. split; vm_compute; intuition congruence. Qed.

Definition free_inode : inode :=
  mkInode 0 0 0 (mkSleeplock false 0) 0 0 0 0 0 0 (replicate 13 0) (replicate 11 (mkExtent 0 0)) 0 0 0 0.

(** The inode cache holds that inode alone; process 7 is running. *)
Definition demo_cache (i : inode) : list inode := i :: replicate 49 free_inode.
Definition demo_fs {S} (b : S) (i : inode) : fstate S := mkF b (demo_cache i) demo_sb 7 0.

Lemma demo_cache_wf type size : icache_wf (demo_cache (demo_inode type size)).
Proof.
  assert (Hc : forall k i dev inum, demo_cache (demo_inode type size) !! k = Some i ->
    caches dev inum i -> k = 0%nat).
  { intros [|k] i dev inum; [done|].
    change (demo_cache _ !! S k) with (replicate 49 free_inode !! k). intros [-> _]%lookup_replicate [H _]. cbn in H. lia. }
  split; [done| |].
  - intros [|k] i; [intros [= <-]; done|].
    change (demo_cache _ !! S k) with (replicate 49 free_inode !! k). by intros [-> _]%lookup_replicate.
  - intros k1 k2 i1 i2 dev inum H1 H2 C1 C2. by rewrite (Hc k1 i1 dev inum), (Hc k2 i2 dev inum).
Qed.

Section demo.
Context (v : Z -> bytes).
Hypothesis Hv : forall c, ~ in_log demo_geom c -> v c = disk_block fs_disk c.

Lemma demo_used b : 0 <= b < 64 -> used demo_sb v b = (b <? 43).
Proof.
  intros Hb. unfold used. assert (E : BBLOCK b demo_sb = 40).
  { unfold BBLOCK. change BPB with 4096. rewrite Z.div_small by lia. done. }
  rewrite E, Hv by (unfold in_log; cbn; lia). change BPB with 4096. rewrite Z.mod_small by lia.
  change (disk_block fs_disk 40) with fs_bitmap. clear E.
  assert (H : forallb (fun b => eqb (negb (bit_clear fs_bitmap b)) (b <? 43)) (seqZ 0 64) = true)
    by (vm_compute; reflexivity).
  rewrite forallb_forall in H. apply eqb_prop, H, list_elem_of_In, elem_of_seqZ. lia.
Qed.

Lemma demo_meta : meta_used demo_sb v.
Proof. intros b Hb. change (datastart demo_sb) with 41 in Hb. rewrite demo_used by lia. bool_lia. Qed.

Lemma demo_free m : (m <= 21)%nat -> free_ge demo_sb v m.
Proof.
  intros Hm. apply (free_ge_weaken _ _ 21); [|done]. exists (seqZ 43 21).
  split; [done|]. split; [apply NoDup_seqZ|]. intros c Hc%elem_of_seqZ.
  change (sb_size demo_sb) with 64. split; [lia|]. rewrite demo_used by lia. bool_lia.
Qed.

(** The slots of the file. *)
Lemma demo_slots t : slot_ok t ->
  slot_val v demo_addrs t = if decide (t = SAddr 0) then 41 else if decide (t = SAddr 12) then 42 else 0.
Proof.
  assert (Hz : forall c, 41 <= c -> v c = zero_block).
  { intros c Hc. rewrite Hv by (unfold in_log; cbn; lia). unfold disk_block, fs_disk, demo_disk.
    by rewrite !lookup_insert_ne by lia. }
  assert (Hm : forall i, entry v 42 i = 0).
  { intros i. unfold entry. rewrite Hz by lia. apply get_slot_zero. }
  destruct t as [k|i|i|i j]; cbn [slot_ok]; intros Ht.
  - destruct (decide (SAddr k = SAddr 0)) as [[= ->]|]; [done|].
    destruct (decide (SAddr k = SAddr 12)) as [[= ->]|]; [done|]. cbn [slot_val].
    assert (k <> 0 /\ k <> 12) as [] by (split; congruence).
    replace (Z.to_nat k) with (S (Z.to_nat (k - 1))) by lia.
    rewrite nth0_lookup. unfold demo_addrs. change (?x :: ?l) with ([x] ++ l).
    rewrite lookup_app_r, lookup_app_l, lookup_replicate_2; cbn [length]; rewrite ?length_replicate; [done|lia..].
  - by rewrite !decide_False by done.
  - rewrite !decide_False by done. apply Hm.
  - rewrite !decide_False by done. cbn [slot_val]. change (nth0 demo_addrs 12) with 42. by rewrite Hm.
Qed.

Lemma demo_wf : blocks_wf demo_sb v demo_addrs.
Proof.
  split; [done|..].
  - intros t Ht. rewrite demo_slots by done. change (datastart demo_sb) with 41. change (sb_size demo_sb) with 64.
    destruct (decide (t = SAddr 0)); [|destruct (decide (t = SAddr 12)); [|done]];
      (intros _; split; [lia|]; rewrite demo_used by lia; done).
  - intros t u Ht Hu. rewrite !demo_slots by done.
    destruct (decide (t = SAddr 0)), (decide (u = SAddr 0)), (decide (t = SAddr 12)), (decide (u = SAddr 12));
      intuition congruence.
Qed.

Lemma demo_inode_ok type size : is_s16 type -> is_u32 size -> inode_ok demo_sb (demo_inode type size).
Proof.
  intros Ht Hs. split; [done|done|]. split_and!; try done; cbn; [unfold is_s16; lia..|].
  repeat constructor; unfold is_u32; lia.
Qed.

Lemma demo_state b type size :
  log_rep demo_geom b (mkAblk v ∅ ∅ [] 0 v) -> is_s16 type -> is_u32 size ->
  type <> T_DEV /\ type <> T_EXTENT ->
  file_state demo_geom 0 v (demo_fs b (demo_inode type size)) v [] 0 (demo_inode type size).
Proof.
  intros Hr Ht Hs Hty. split; [apply fs_sb_ok|exact Hr|done|by apply demo_inode_ok|exact Hty|apply demo_wf|apply demo_meta].
Qed.

Lemma demo_synced : synced demo_sb v demo_file.
Proof.
  unfold synced, disk_inode. change (IBLOCK (i_inum demo_file) demo_sb) with 32.
  rewrite Hv by (unfold in_log; cbn; lia). change (disk_block fs_disk 32) with fs_inodes.
  apply get_put_dinode; [apply zero_block_ok|done|by apply demo_inode_ok].
Qed.

Lemma demo_filled : filled v demo_file.
Proof.
  split; [rewrite MAXFILE_val, BSIZE_val; cbn; lia|]. intros k Hk. cbn in Hk.
  rewrite Z.div_small by (rewrite BSIZE_val; lia). unfold faddr. change (data_slot 0) with (SAddr 0).
  by rewrite demo_slots by (cbn; lia).
Qed.
End demo.

(** The booted file system inside an operation. *)
Lemma demo_open type size :
  is_s16 type -> is_u32 size -> type <> T_DEV /\ type <> T_EXTENT ->
  exists b v b1, recover fs_disk 64 7 = Ok tt b /\
    (forall c, ~ in_log demo_geom c -> v c = disk_block fs_disk c) /\
    io io_begin_op (demo_fs b (demo_inode type size)) = Ok tt (demo_fs b1 (demo_inode type size)) /\
    file_state demo_geom 1 v (demo_fs b1 (demo_inode type size)) v [] 0 (demo_inode type size).
Proof.
  intros Ht Hs Hty. destruct fs_boot as (b & v & E & Hr & Hv).
  pose proof (demo_state v Hv b type size Hr Ht Hs Hty) as Hf.
  assert (Hwp : wp (io io_begin_op) (demo_fs b (demo_inode type size)) (fun _ y => exists b1,
    y = demo_fs b1 (demo_inode type size) /\
    file_state demo_geom 1 v (demo_fs b1 (demo_inode type size)) v [] 0 (demo_inode type size))).
  { eapply wp_begin; [exact Hf|]. intros b1 Hf1. exists b1. split; [reflexivity|exact Hf1]. }
  apply wp_inv in Hwp as ([] & y & E1 & b1 & -> & Hf1). exists b, v, b1.
  split; [exact E|]. split; [exact Hv|]. split; [exact E1|exact Hf1].
Qed.

Lemma demo_fits v off n :
  (forall c, ~ in_log demo_geom c -> v c = disk_block fs_disk c) ->
  0 <= off -> 0 <= n <= write_max -> off + n <= MAXFILE * BSIZE -> write_fits 0 demo_sb v [] off n.
Proof. intros Hv Ho Hn Hm. apply chunk_fits; [done..|]. apply demo_free; [done|]. cbn. lia. Qed.

(** A directory of two free entries. *)
Definition demo_dir : inode := demo_inode T_DIR 32.

Lemma demo_open_file :
  exists b v b1, recover fs_disk 64 7 = Ok tt b /\
    (forall c, ~ in_log demo_geom c -> v c = disk_block fs_disk c) /\
    io io_begin_op (demo_fs b demo_file) = Ok tt (demo_fs b1 demo_file) /\
    file_state demo_geom 1 v (demo_fs b1 demo_file) v [] 0 demo_file.
Proof. by apply demo_open. Qed.

Lemma demo_open_dir :
  exists b v b1, recover fs_disk 64 7 = Ok tt b /\
    (forall c, ~ in_log demo_geom c -> v c = disk_block fs_disk c) /\
    io io_begin_op (demo_fs b demo_dir) = Ok tt (demo_fs b1 demo_dir) /\
    file_state demo_geom 1 v (demo_fs b1 demo_dir) v [] 0 demo_dir.
Proof. by apply demo_open. Qed.

Section demo_dir.
Context (v : Z -> bytes).
Hypothesis Hv : forall c, ~ in_log demo_geom c -> v c = disk_block fs_disk c.

Lemma demo_dir_ok : dir_ok v demo_dir.
Proof.
  split; [done|done|done|]. intros k Hk. cbn in Hk. rewrite Z.div_small by (rewrite BSIZE_val; lia).
  unfold faddr. change (data_slot 0) with (SAddr 0). rewrite (demo_slots v Hv) by (cbn; lia). done.
Qed.

(** Every entry of the directory is free. *)
Lemma demo_dir_lookup name : dir_lookup v demo_dir name = None.
Proof.
  assert (He : forall k, 0 <= k < 2 -> dir_entry v demo_addrs k = mkDirent 0 (replicate 14 0)).
  { intros k Hk. unfold dir_entry. replace (fbytes v demo_addrs (k * 16) 16) with (replicate 16 0); [done|].
    symmetry. apply (list_eq_same_length _ _ 16); [done|by rewrite length_fbytes|].
    intros j x y Hj. rewrite lookup_fbytes, lookup_replicate by lia. intros Hx [-> _].
    injection Hx as <-. unfold fbyte. rewrite Z.div_small by (rewrite BSIZE_val; lia).
    unfold fblock, faddr. change (data_slot 0) with (SAddr 0). rewrite (demo_slots v Hv) by (cbn; lia).
    rewrite decide_True by done. change (41 =? 0) with false. cbv iota.
    rewrite Hv by (unfold in_log; cbn; lia). unfold disk_block, fs_disk, demo_disk.
    rewrite !lookup_insert_ne by lia. rewrite lookup_empty. cbn [default].
    rewrite nth0_lookup. unfold zero_block. destruct (replicate BSIZEn 0 !! _) as [z|] eqn:E; [|done].
    by apply lookup_replicate in E as [-> _]. }
  unfold dir_lookup. change (dirents demo_dir) with 2%nat. cbn [dir_find].
  change (i_addrs demo_dir) with demo_addrs. by rewrite !He by lia.
Qed.
End demo_dir.

(** * An empty extent file *)

Definition demo_extent : inode := demo_inode T_EXTENT 0.

Section demo_extent.
Context (v : Z -> bytes).
Hypothesis Hv : forall c, ~ in_log demo_geom c -> v c = disk_block fs_disk c.

Lemma demo_zero k : 0 <= k < MAXFILE * BSIZE -> fbyte v demo_addrs k = 0.
Proof.
  intros Hk. assert (Hz : fblock v demo_addrs (k / BSIZE) = zero_block).
  { unfold fblock, faddr. rewrite (demo_slots v Hv).
    - repeat case_decide; try done.
      + change (41 =? 0) with false. rewrite Hv by (unfold in_log; cbn; lia). unfold disk_block, fs_disk, demo_disk. by rewrite !lookup_insert_ne by lia.
      + change (42 =? 0) with false. rewrite Hv by (unfold in_log; cbn; lia). unfold disk_block, fs_disk, demo_disk. by rewrite !lookup_insert_ne by lia.
    - apply data_slot_ok. split; [apply Z.div_pos; [lia|done]|apply Z.div_lt_upper_bound; [done|lia]]. }
  unfold fbyte. rewrite Hz, nth0_lookup. unfold zero_block. destruct (replicate BSIZEn 0 !! _) as [x|] eqn:E; [|done].
  by apply lookup_replicate in E as [-> _].
Qed.

Lemma demo_ext_file : ext_file v demo_extent [].
Proof.
  split; try done.
  - intros bn Hbn. cbn in Hbn. lia.
  - intros k Hk. rewrite nth0_lookup. cbn. by apply demo_zero.
Qed.

Lemma demo_ext_room {S} (b : S) fr : (fr <= 18)%nat -> ext_room [SAddr 0] fr (demo_fs b demo_extent) v [] demo_extent 3.
Proof.
  intros Hfr. split; try done.
  - intros pos. change (Z.to_nat (blocks_left pos (pos + 3))) with 1%nat. apply demo_free; [done|]. lia.
  - by repeat constructor.
  - cbn. lia.
  - intros pos bn H1 H2. change pos with 0 in *. change (0 / BSIZE) with 0 in H1. rewrite BSIZE_val in H2. assert (bn = 0) as -> by lia. done.
Qed.
End demo_extent.

Lemma demo_open_extent :
  exists b v, (forall c, ~ in_log demo_geom c -> v c = disk_block fs_disk c) /\
    ext_state demo_geom 1 v (demo_fs b demo_extent) v [] 0 demo_extent.
Proof.
  destruct demo_open_file as (b & v & b1 & _ & Hv & _ & [H1 H2 H3 H4 H5 H6 H7]). exists b1, v. split; [exact Hv|].
  split; [exact H1|exact H2|done|by apply demo_inode_ok|done|exact H6|exact H7].
Qed.
