(* ===== verification/FsSpec.v ===== *)
(** What fs.c and file.c promise: the theorems about block allocation, the
    inode cache, directories and [filewrite], proved from the lemmas of the
    files before, and the concrete states at which the hypotheses of these and
    of the theorems of FsData, FsExtent, FsTrunc and FsDir hold. *)
From S2P Require Import Prelude Layout CString Locks Bio Log LogRep Crash Fs FsBlock FsMap FsData FsInode FsExtent FsTrunc FsDir Kalloc Vm Pipe Syscall File FileWrite FsDemo.

Section spec.
Context {S : Type} `{!BlockIO S} `{!BlockSpec S}.
Implicit Types s : fstate S.

(** A consistent file system in [o] open operations that logged the blocks [L];
    no buffer is held. *)
Record disk_state (g : geom) (o : Z) (dur : Z -> bytes) (s : fstate S) (v : Z -> bytes) (L : list Z)
  : Prop := {
  ds_sb : sb_ok g (f_sb s);
  ds_rep : rep g o dur (f_blk s) v ∅ L;
  ds_meta : meta_used (f_sb s) v
}.

Lemma file_disk_state g o dur s v L ip i :
  file_state g o dur s v L ip i -> disk_state g o dur s v L.
Proof. intros []. by split. Qed.

Lemma wp_balloc_disk g o dur s v L (Q : Z -> fstate S -> Prop) :
  disk_state g o dur s v L -> 1 <= o -> (length L <= 27)%nat ->
  (exists c, 0 <= c < sb_size (f_sb s) /\ used (f_sb s) v c = false) ->
  (forall c b', first_free (f_sb s) v c -> datastart (f_sb s) <= c ->
     disk_state g o dur (set_blk b' s) (v_alloc (f_sb s) v c)
       (log_add c (log_add (BBLOCK c (f_sb s)) L)) ->
     (forall e, 0 <= e < sb_size (f_sb s) ->
        used (f_sb s) (v_alloc (f_sb s) v c) e = if decide (e = c) then true else used (f_sb s) v e) ->
     Q c (set_blk b' s)) ->
  wp (balloc ROOTDEV) s Q.
Proof.
  intros [Hsb Hr Hm] Ho HL Hex HQ. destruct s as [b ic sb pid cwd]. cbn in *.
  eapply wp_balloc; [done|exact Hr|done|done| | |done|].
  { rewrite map_size_empty. lia. }
  { intros j c. by rewrite lookup_empty. }
  intros c b' Hff Hr'. pose proof (first_free_data sb v c Hm Hff) as Hc.
  assert (Hu : forall e, 0 <= e < sb_size sb ->
    used sb (v_alloc sb v c) e = if decide (e = c) then true else used sb v e).
  { intros e He. eapply used_alloc; try done. eapply rep_ok. exact Hr. }
  apply (HQ c b'); [done|done|split; [done|exact Hr'|]|done].
  intros e He. cbn in He. pose proof (so_data Hsb). cbn. rewrite Hu by lia. case_decide; [done|by apply Hm].
Qed.

(** [balloc] takes the first free block: it returns it zeroed and marked in
    the free map, changes no other mark, and logs both blocks; it panics
    exactly when every block is in use. *)
Theorem balloc_first_free g o dur s v L :
  disk_state g o dur s v L -> 1 <= o -> (length L <= 27)%nat ->
  (exists c s' v', balloc ROOTDEV s = Ok c s' /\ first_free (f_sb s) v c /\
     datastart (f_sb s) <= c /\
     disk_state g o dur s' v' (log_add c (log_add (BBLOCK c (f_sb s)) L)) /\
     v' c = zero_block /\
     forall e, 0 <= e < sb_size (f_sb s) ->
       used (f_sb s) v' e = if decide (e = c) then true else used (f_sb s) v e) \/
  ((forall c, 0 <= c < sb_size (f_sb s) -> used (f_sb s) v c = true) /\
     balloc ROOTDEV s = Panic "balloc: out of blocks").
Proof.
  intros Hd Ho HL.
  destruct (existsb (fun c => negb (used (f_sb s) v c)) (seqZ 0 (sb_size (f_sb s)))) eqn:Ex.
  - apply existsb_exists in Ex as (c0 & Hc0%list_elem_of_In%elem_of_seqZ & Hu0).
    left. assert (Hwp : wp (balloc ROOTDEV) s (fun c s' => exists v', first_free (f_sb s) v c /\
      datastart (f_sb s) <= c /\ disk_state g o dur s' v' (log_add c (log_add (BBLOCK c (f_sb s)) L)) /\
      v' c = zero_block /\ forall e, 0 <= e < sb_size (f_sb s) ->
        used (f_sb s) v' e = if decide (e = c) then true else used (f_sb s) v e)).
    { eapply wp_balloc_disk; [exact Hd|done|done| |].
      - exists c0. split; [lia|]. by apply negb_true_iff.
      - intros c b' Hff Hc Hd' Hu. eexists. split_and!; [done|done|exact Hd'| |exact Hu].
        unfold v_alloc. apply vupd_eq. }
    apply wp_inv in Hwp as (c & s' & E & v' & H). by exists c, s', v'.
  - assert (Hall : forall c, 0 <= c < sb_size (f_sb s) -> used (f_sb s) v c = true).
    { intros c Hc. destruct (used (f_sb s) v c) eqn:Eu; [done|].
      rewrite <- Ex. apply existsb_exists. exists c. split; [|by rewrite Eu].
      apply list_elem_of_In, elem_of_seqZ. lia. }
    right. split; [done|]. destruct Hd as [Hsb Hr Hm], s as [b ic sb pid cwd]. cbn in *.
    by eapply balloc_full.
Qed.

(** [bfree] undoes [balloc]: freeing the block just allocated restores
    every mark of the free map, and freeing it a second time panics. *)
Theorem balloc_bfree g o dur s v L :
  disk_state g o dur s v L -> 1 <= o -> (length L <= 26)%nat ->
  (exists c, 0 <= c < sb_size (f_sb s) /\ used (f_sb s) v c = false) ->
  exists c s' v' L', (let* c := balloc ROOTDEV in bfree ROOTDEV c ;; ret c) s = Ok c s' /\
    disk_state g o dur s' v' L' /\
    (forall e, 0 <= e < sb_size (f_sb s) -> used (f_sb s) v' e = used (f_sb s) v e) /\
    bfree ROOTDEV c s' = Panic "freeing free block".
Proof.
  intros Hd Ho HL Hex.
  assert (Hwp : wp (let* c := balloc ROOTDEV in bfree ROOTDEV c ;; ret c) s (fun c s' =>
    exists v' L', disk_state g o dur s' v' L' /\
    (forall e, 0 <= e < sb_size (f_sb s) -> used (f_sb s) v' e = used (f_sb s) v e) /\
    bfree ROOTDEV c s' = Panic "freeing free block")).
  { wp_step. eapply wp_balloc_disk; [exact Hd|done|lia|done|].
    intros c b1 (Hc & Huc & _) Hcd Hd1 Hu1.
    pose proof (length_log_add c (log_add (BBLOCK c (f_sb s)) L)) as HL1.
    pose proof (length_log_add (BBLOCK c (f_sb s)) L) as HL2.
    pose proof (so_data (ds_sb _ _ _ _ _ _ Hd)) as Hord.
    assert (Hok : forall e, is_block (v_alloc (f_sb s) v c e)) by (intros e; eapply rep_ok; apply Hd1).
    destruct Hd1 as [Hsb Hr1 Hm1], s as [b ic sb pid cwd]. cbn in *. wp_step.
    eapply wp_bfree; [done|exact Hr1|done|done| |by intros j e; rewrite lookup_empty|by rewrite Hu1, decide_True by done|].
    { rewrite map_size_empty. lia. }
    intros b2 Hr2. wp_step.
    assert (Hback : forall e, 0 <= e < sb_size sb -> used sb (v_free sb (v_alloc sb v c) c) e = used sb v e).
    { intros e He. erewrite used_free by apply Hok. rewrite Hu1 by done. destruct (decide (e = c)); congruence. }
    do 2 eexists. split; [split; [done|exact Hr2|]|split; [exact Hback|]].
    - intros e He. cbn in *. rewrite Hback by lia. by apply (ds_meta _ _ _ _ _ _ Hd).
    - eapply (bfree_free g sb Hsb o dur ic pid cwd b2 _ ∅); [exact Hr2|done| |by intros j e; rewrite lookup_empty|by rewrite Hback].
      rewrite map_size_empty. pose proof (length_log_add (BBLOCK c sb) (log_add c (log_add (BBLOCK c sb) L))).
      cbn [f_sb]. unfold NBUFn. lia. }
  apply wp_inv in Hwp as (c & s' & E & v' & L' & H). by exists c, s', v', L'.
Qed.

(** [iget] and the inode cache.  The call finds the entry of the inode and
    takes a reference, or takes over the first free entry, or panics, exactly
    as the cache has the inode, has a free entry, or has neither; and it keeps
    the cache well formed, so no inode ever has two entries in use. *)
Theorem iget_unique s dev inum :
  icache_wf (f_icache s) ->
  iget_result s dev inum (iget dev inum s) /\
  forall k s', iget dev inum s = Ok k s' ->
    icache_wf (f_icache s') /\ exists i', f_icache s' !! k = Some i' /\ caches dev inum i'.
Proof.
  intros Hw. split; [apply iget_result_of|]. intros k s' E. eapply iget_result_wf; [exact Hw|].
  rewrite <- E. apply iget_result_of.
Qed.

(** Inodes round-trip through the disk.  What [iupdate] stores is what
    [ilock] reads back after the cache entry has been recycled ([i0]). *)
Theorem iupdate_ilock g o dur s v L ip i i0 :
  file_state g o dur s v L ip i -> 1 <= o -> (length L <= 27)%nat -> i_type i <> 0 ->
  unlocked i0 -> 1 <= i_ref i0 -> i_valid i0 = 0 -> i_dev i0 = ROOTDEV -> i_inum i0 = i_inum i ->
  exists s' i', (iupdate ip ;; updi ip (fun _ => i0) ;; ilock (Some ip)) s = Ok tt s' /\
    f_icache s' !! ip = Some i' /\ i_dinode i' = i_dinode i /\ i_valid i' = 1 /\
    i_ref i' = i_ref i0 /\ holds (f_pid s) i'.
Proof.
  intros Hf Ho HL Hty Hu Hr Hv Hd Hn.
  assert (Hwp : wp (iupdate ip ;; updi ip (fun _ => i0) ;; ilock (Some ip)) s (fun _ s' => exists i',
    f_icache s' !! ip = Some i' /\ i_dinode i' = i_dinode i /\ i_valid i' = 1 /\
    i_ref i' = i_ref i0 /\ holds (f_pid s) i')).
  { destruct Hf as [Hsb Hrep Hip Hok _ _ _], s as [b ic sb pid cwd]. cbn in *.
    pose proof (lookup_lt_Some _ _ _ Hip) as Hlt. pose proof Hok as [_ Hnum Hfld]. wp_step.
    eapply wp_iupdate; [done|exact Hip|done|exact Hrep|done|lia|]. intros b1 Hr1.
    wp_step. eapply wp_updi; [exact Hip|].
    pose proof (length_log_add (IBLOCK (i_inum i) sb) L) as HL1.
    assert (E : disk_inode sb (v_inode sb v (i_inum i) (i_dinode i)) (i_inum i0) = i_dinode i).
    { rewrite Hn. apply disk_inode_same; [|lia|done]. eapply rep_ok. exact Hrep. }
    eapply (wp_ilock_load g o dur); cbn [f_blk f_icache f_sb f_pid f_cwd set_icache];
      [exact Hsb|exact Hr1|unfold NBUFn; lia|by apply list_lookup_insert_eq|done|done|done|done|
       by rewrite Hn|by rewrite E|].
    intros b2 _. eexists.
    split; [apply list_lookup_insert_eq; by rewrite length_insert|]. rewrite E. by destruct i. }
  apply wp_inv in Hwp as ([] & s' & E & i' & H). by exists s', i'.
Qed.

(** [dirlookup] is the lookup of the directory's contents: a name that is
    not there gives null; a name that is gives the offset of its first entry
    and a cache entry of its inode, when the cache has the inode or room. *)
Theorem dirlookup_correct dev_read g o dur s v L dp i name :
  file_state g o dur s v L dp i -> dir_ok v i -> (length L < NBUFn)%nat -> icache_wf (f_icache s) ->
  (exists j ij, f_icache s !! j = Some ij /\ i_ref ij = 0) ->
  exists r s', dirlookup dev_read dp name s = Ok r s' /\ icache_wf (f_icache s') /\
    match r with
    | None => dir_lookup v i name = None /\ f_icache s' = f_icache s
    | Some (ip, off) => exists k inum ii, off = k * 16 /\
        dir_find v (i_addrs i) name (dirents i) 0 = Some k /\ dir_lookup v i name = Some inum /\
        f_icache s' !! ip = Some ii /\ caches ROOTDEV inum ii
    end.
Proof.
  intros Hf Hd HL Hw (j & ij & Hj & Hj0).
  assert (Hwp : wp (dirlookup dev_read dp name) s (fun r s' => icache_wf (f_icache s') /\
    match r with
    | None => dir_lookup v i name = None /\ f_icache s' = f_icache s
    | Some (ip, off) => exists k inum ii, off = k * 16 /\
        dir_find v (i_addrs i) name (dirents i) 0 = Some k /\ dir_lookup v i name = Some inum /\
        f_icache s' !! ip = Some ii /\ caches ROOTDEV inum ii
    end)).
  { eapply wp_dirlookup; [exact Hf|done|done|..]; unfold dir_lookup.
    - intros -> b' _. done.
    - intros k Hk b' _. rewrite Hk. set (inum := de_inum _). set (s1 := set_blk b' s).
      pose proof (iget_result_of s1 ROOTDEV inum) as Hres.
      assert (Hw1 : icache_wf (f_icache s1)) by done. unfold wp.
      destruct (iget ROOTDEV inum s1) as [ip s'|msg| | | |] eqn:E;
        [|exfalso; inversion Hres as [| |Hfull]; by eapply (Hfull j ij)|by inversion Hres..].
      destruct (iget_result_wf _ _ _ _ _ Hw1 Hres) as [Hw' (ii & Hii & Hc)].
      split; [done|]. by exists k, inum, ii. }
  apply wp_inv in Hwp as (r & s' & E & H). by exists r, s'.
Qed.

(** [dirlink] adds a name.  For a name the directory does not have, it
    returns 0, and afterwards the directory is well formed, looks up the new
    name to the new inode number and every other name as before; the blocks
    and inodes of other files are untouched. *)
Theorem dirlink_adds dev_read dev_write g o dur s v L dp i name inum :
  file_state g o dur s v L dp i -> dir_ok v i -> (length L < NBUFn)%nat -> 1 <= o ->
  dir_lookup v i name = None -> 0 < u16 inum -> Forall is_byte name ->
  i_size i + 16 <= MAXFILE * BSIZE ->
  (forall k, free_slot v i k -> write_fits 0 (f_sb s) v L (k * 16) 16) ->
  exists s' v' L' i', dirlink dev_read dev_write dp name inum s = Ok 0 s' /\
    file_state g o dur s' v' L' dp i' /\ dir_ok v' i' /\
    others_same (f_sb s) (i_inum i) v (i_addrs i) v' (i_addrs i') /\
    forall name', dir_lookup v' i' name' =
      if decide (dname name' = dname name) then Some (u16 inum) else dir_lookup v i name'.
Proof.
  intros Hf Hd HL Ho Hno Hin Hby Hmax Hfits.
  assert (Hwp : wp (dirlink dev_read dev_write dp name inum) s (fun r s' => r = 0 /\ exists v' L' i',
    file_state g o dur s' v' L' dp i' /\ dir_ok v' i' /\
    others_same (f_sb s) (i_inum i) v (i_addrs i) v' (i_addrs i') /\
    forall name', dir_lookup v' i' name' =
      if decide (dname name' = dname name) then Some (u16 inum) else dir_lookup v i name')).
  { eapply wp_dirlink_new; try done. intros s' v' L' i' Hf' Hd' Hoth _ Hl.
    split; [done|]. by exists v', L', i'. }
  apply wp_inv in Hwp as (r & s' & E & -> & v' & L' & i' & H). by exists s', v', L', i'.
Qed.
End spec.

(** C2: [filewrite] end to end.  Take an ordinary file open for writing, with no
    operation in progress, whose inode on disk is the cached one and which has
    all the blocks below its size.  Writing [n] bytes at an offset within the
    file, not beyond the largest file size, returns [n] and advances the offset.
    Every chunk has been committed, so the write is durable: the inode on disk
    has the size [max size (off + n)], the bytes that its block map names on
    disk are the old ones with the written ones spliced in, the cached inode
    agrees with it and again has all its blocks, and the blocks and inodes of
    other files are untouched.  The disk needs 12 free blocks for each 1536
    bytes. *)
Theorem filewrite_durable {S} `{!BlockIO S} `{!BlockSpec S}
    (dev_write : Z -> option (nat -> bytes -> Z -> M (fstate S) Z))
    g (s : kstate S) v ip i f x src n :
  idle g (k_fs s) v ip i -> k_ftable s !! f = Some x ->
  fd_type x = FD_INODE -> fd_writable x = true -> fd_ip x = Some ip ->
  0 <= fd_off x <= i_size i -> fd_off x + n <= MAXFILE * BSIZE ->
  n = Z.of_nat (length src) -> Forall is_byte src ->
  free_ge (f_sb (k_fs s)) v (12 * Z.to_nat (chunks n)) ->
  exists s' v' i', filewrite dev_write f src n s = Ok n s' /\
    idle g (k_fs s') v' ip i' /\
    k_ftable s' = <[f := set_foff (fd_off x + n) x]> (k_ftable s) /\
    disk_inode (f_sb (k_fs s)) v' (i_inum i) = i_dinode i' /\
    d_size (disk_inode (f_sb (k_fs s)) v' (i_inum i)) = Z.max (i_size i) (fd_off x + n) /\
    (forall k, 0 <= k < MAXFILE * BSIZE ->
       fbyte v' (d_addrs (disk_inode (f_sb (k_fs s)) v' (i_inum i))) k =
       if decide (fd_off x <= k < fd_off x + n)
         then nth0 src (Z.to_nat (k - fd_off x)) else fbyte v (i_addrs i) k) /\
    others_same (f_sb (k_fs s)) (i_inum i) v (i_addrs i) v' (i_addrs i').
Proof.
  intros Hid Hx Ety Ew Eip Hoff Hmax Hn Hby Hfr.
  assert (Hwp : wp (filewrite dev_write f src n) s (fun r s' => r = n /\ exists v' i',
    idle g (k_fs s') v' ip i' /\ k_ftable s' = <[f := set_foff (fd_off x + n) x]> (k_ftable s) /\
    did_write (k_fs s) v i (fd_off x) n src 0 (k_fs s') v' i')).
  { eapply (wp_filewrite dev_write g s v ip i f x src n 0); try done; [by rewrite Nat.add_0_r|].
    intros y' v' i' Hid' Hd. split; [done|]. by exists v', i'. }
  apply wp_inv in Hwp as (r & s' & E & -> & v' & i' & Hid' & Hft & [D1 D2 D3 D4 D5 D6]).
  assert (Es : disk_inode (f_sb (k_fs s)) v' (i_inum i) = i_dinode i').
  { rewrite <- D1, <- D2. apply Hid'. }
  exists s', v', i'. rewrite Es. split_and!; try done. apply D4.
Qed.

(** * Concrete instances *)

Definition no_read : Z -> option (nat -> Z -> M (fstate lstate) (Z * bytes)) := fun _ => None.
Definition no_write : Z -> option (nat -> bytes -> Z -> M (fstate lstate) Z) := fun _ => None.

Lemma balloc_first_free_witness :
  exists b b1, recover fs_disk 64 7 = Ok tt b /\
    io io_begin_op (demo_fs b demo_file) = Ok tt (demo_fs b1 demo_file) /\
    exists s', balloc ROOTDEV (demo_fs b1 demo_file) = Ok 43 s'.
Proof.
  destruct demo_open_file as (b & v & b1 & E & Hv & E1 & Hf). exists b, b1.
  split; [exact E|]. clear E. split; [exact E1|]. clear E1.
  destruct (balloc_first_free demo_geom 1 v _ v [] (file_disk_state _ _ _ _ _ _ _ _ Hf)
    ltac:(lia) ltac:(cbn; lia)) as [(c & s' & v' & E & (Hc & Hu & Hlow) & _)|[Hfull _]].
  - exists s'. rewrite E. f_equal. clear E. cbn in Hc, Hu, Hlow.
    rewrite (demo_used v Hv) in Hu by (cbn in Hc; lia). bool_to_prop.
    destruct (decide (c = 43)) as [|Hne]; [done|]. specialize (Hlow 43 ltac:(lia)).
    rewrite (demo_used v Hv) in Hlow by lia. discriminate Hlow.
  - specialize (Hfull 50 ltac:(cbn; lia)). cbn in Hfull. rewrite (demo_used v Hv) in Hfull by lia.
    discriminate Hfull.
Defined.

Lemma balloc_bfree_witness :
  exists b b1, recover fs_disk 64 7 = Ok tt b /\
    io io_begin_op (demo_fs b demo_file) = Ok tt (demo_fs b1 demo_file) /\
    exists c s', (let* c := balloc ROOTDEV in bfree ROOTDEV c ;; ret c) (demo_fs b1 demo_file) = Ok c s' /\
      bfree ROOTDEV c s' = Panic "freeing free block".
Proof.
  destruct demo_open_file as (b & v & b1 & E & Hv & E1 & Hf). exists b, b1.
  split; [exact E|]. clear E. split; [exact E1|]. clear E1.
  assert (Hex : exists c, 0 <= c < sb_size (f_sb (demo_fs b1 demo_file)) /\
    used (f_sb (demo_fs b1 demo_file)) v c = false).
  { exists 43. cbn. split; [lia|]. by rewrite (demo_used v Hv) by lia. }
  destruct (balloc_bfree demo_geom 1 v _ v [] (file_disk_state _ _ _ _ _ _ _ _ Hf)
    ltac:(lia) ltac:(cbn; lia) Hex) as (c & s' & v' & L' & E & _ & _ & E').
  exists c, s'. split; [exact E|exact E'].
Defined.

Lemma iget_unique_witness :
  exists s', iget ROOTDEV 9 (demo_fs tt demo_file) = Ok 1%nat s' /\ icache_wf (f_icache s').
Proof.
  eexists. split; [reflexivity|].
  eapply (proj2 (iget_unique (demo_fs tt demo_file) ROOTDEV 9 (demo_cache_wf T_FILE 100))). reflexivity.
Defined.

Lemma iupdate_ilock_witness :
  exists b b1, recover fs_disk 64 7 = Ok tt b /\
    io io_begin_op (demo_fs b demo_file) = Ok tt (demo_fs b1 demo_file) /\
    exists s' i', (iupdate 0 ;; updi 0 (fun _ => set_ident ROOTDEV 5 1 0 free_inode) ;; ilock (Some 0%nat))
        (demo_fs b1 demo_file) = Ok tt s' /\
      f_icache s' !! 0%nat = Some i' /\ i_dinode i' = i_dinode demo_file.
Proof.
  destruct demo_open_file as (b & v & b1 & E & Hv & E1 & Hf). exists b, b1.
  split; [exact E|]. clear E. split; [exact E1|]. clear E1.
  destruct (iupdate_ilock demo_geom 1 v _ v [] 0 _ (set_ident ROOTDEV 5 1 0 free_inode) Hf
    ltac:(lia) ltac:(cbn; lia) ltac:(done) ltac:(done) ltac:(cbn; lia) ltac:(done) ltac:(done) ltac:(done))
    as (s' & i' & E & Hi & Hd & _).
  exists s', i'. split; [exact E|]. split; [exact Hi|exact Hd].
Defined.

Lemma dirlookup_correct_witness :
  exists b b1, recover fs_disk 64 7 = Ok tt b /\
    io io_begin_op (demo_fs b demo_dir) = Ok tt (demo_fs b1 demo_dir) /\
    exists s', dirlookup no_read 0 [97; 0] (demo_fs b1 demo_dir) = Ok None s'.
Proof.
  destruct demo_open_dir as (b & v & b1 & E & Hv & E1 & Hf). exists b, b1.
  split; [exact E|]. clear E. split; [exact E1|]. clear E1.
  destruct (dirlookup_correct no_read demo_geom 1 v _ v [] 0 _ [97; 0] Hf (demo_dir_ok v Hv)
    ltac:(unfold NBUFn; cbn; lia) (demo_cache_wf T_DIR 32)
    (ex_intro _ 1%nat (ex_intro _ free_inode (conj eq_refl eq_refl)))) as (r & s' & E & _ & Hr).
  exists s'. rewrite E. destruct r as [[ip off]|]; [|done].
  destruct Hr as (k & inum & ii & _ & _ & Hl & _). by rewrite (demo_dir_lookup v Hv) in Hl.
Defined.

Lemma dirlink_adds_witness :
  exists b b1, recover fs_disk 64 7 = Ok tt b /\
    io io_begin_op (demo_fs b demo_dir) = Ok tt (demo_fs b1 demo_dir) /\
    exists s' v' i', dirlink no_read no_write 0 [97; 0] 9 (demo_fs b1 demo_dir) = Ok 0 s' /\
      f_icache s' !! 0%nat = Some i' /\ dir_lookup v' i' [97; 0; 98] = Some 9.
Proof.
  destruct demo_open_dir as (b & v & b1 & E & Hv & E1 & Hf). exists b, b1.
  split; [exact E|]. clear E. split; [exact E1|]. clear E1.
  assert (Hfits : forall k, free_slot v demo_dir k -> write_fits 0 demo_sb v [] (k * 16) 16).
  { intros k [Hk _]. change (dirents demo_dir) with 2%nat in Hk.
    apply demo_fits; [exact Hv|lia|rewrite write_max_val; lia|].
    rewrite MAXFILE_val, BSIZE_val. lia. }
  destruct (dirlink_adds no_read no_write demo_geom 1 v _ v [] 0 _ [97; 0] 9 Hf (demo_dir_ok v Hv)
    ltac:(unfold NBUFn; cbn; lia) ltac:(lia) (demo_dir_lookup v Hv _) ltac:(done)
    ltac:(repeat constructor; done) ltac:(done) Hfits) as (s' & v' & L' & i' & E & Hf' & _ & _ & Hl).
  exists s', v', i'. split; [exact E|]. clear E. split; [apply Hf'|]. rewrite Hl. by rewrite decide_True.
Defined.

Lemma writei_correct_witness :
  exists b b1, recover fs_disk 64 7 = Ok tt b /\
    io io_begin_op (demo_fs b demo_file) = Ok tt (demo_fs b1 demo_file) /\
    exists s' v' i', writei no_write 0 [1; 2; 3] 99 3 (demo_fs b1 demo_file) = Ok 3 s' /\
      i_size i' = 102 /\ fbyte v' (i_addrs i') 100 = 2.
Proof.
  destruct demo_open_file as (b & v & b1 & E & Hv & E1 & Hf). exists b, b1.
  split; [exact E|]. clear E. split; [exact E1|]. clear E1.
  destruct (writei_correct no_write demo_geom 1 v _ v [] 0 _ [1; 2; 3] 99 3 Hf
    (demo_fits v 99 3 Hv ltac:(lia) ltac:(rewrite write_max_val; lia) ltac:(rewrite MAXFILE_val, BSIZE_val; lia))
    ltac:(lia) ltac:(cbn; lia) ltac:(rewrite MAXFILE_val, BSIZE_val; lia) ltac:(done)
    ltac:(repeat constructor; done)) as (s' & v' & L' & i' & E & _ & Hs & Hb & _).
  exists s', v', i'. split; [exact E|]. clear E. split; [exact Hs|].
  rewrite Hb by (rewrite MAXFILE_val, BSIZE_val; lia). by rewrite decide_True by lia.
Defined.

Lemma writei_readi_witness :
  exists b b1, recover fs_disk 64 7 = Ok tt b /\
    io io_begin_op (demo_fs b demo_file) = Ok tt (demo_fs b1 demo_file) /\
    exists s', (let* w := writei no_write 0 [1; 2; 3] 99 3 in readi no_read 0 99 3) (demo_fs b1 demo_file) =
      Ok (3, [1; 2; 3]) s'.
Proof.
  destruct demo_open_file as (b & v & b1 & E & Hv & E1 & Hf). exists b, b1.
  split; [exact E|]. clear E. split; [exact E1|]. clear E1.
  exact (writei_readi no_read no_write demo_geom 1 v _ v [] 0 _ [1; 2; 3] 99 3 Hf
    (demo_fits v 99 3 Hv ltac:(lia) ltac:(rewrite write_max_val; lia) ltac:(rewrite MAXFILE_val, BSIZE_val; lia))
    ltac:(lia) ltac:(cbn; lia) ltac:(cbn; rewrite MAXFILE_val, BSIZE_val; lia)
    ltac:(rewrite MAXFILE_val, BSIZE_val; lia) ltac:(done) ltac:(repeat constructor; done)).
Defined.

Lemma demo_trunc_fits v :
  (forall c, ~ in_log demo_geom c -> v c = disk_block fs_disk c) -> trunc_fits demo_sb v [] demo_file.
Proof.
  intros Hv. exists [40]. split; [cbn; lia|]. intros t Ht _.
  change (i_addrs demo_file) with demo_addrs. rewrite (demo_slots v Hv) by done.
  repeat case_decide; vm_compute; by left.
Qed.

Lemma itrunc_frees_witness :
  exists b b1, recover fs_disk 64 7 = Ok tt b /\
    io io_begin_op (demo_fs b demo_file) = Ok tt (demo_fs b1 demo_file) /\
    exists s' v', itrunc 0 (demo_fs b1 demo_file) = Ok tt s' /\ used demo_sb v' 41 = false.
Proof.
  destruct demo_open_file as (b & v & b1 & E & Hv & E1 & Hf). exists b, b1.
  split; [exact E|]. clear E. split; [exact E1|]. clear E1.
  destruct (itrunc_frees demo_geom 1 v _ v [] 0 _ Hf ltac:(lia) (demo_trunc_fits v Hv))
    as (s' & v' & L' & i' & E & _ & _ & _ & _ & _ & Hu).
  exists s', v'. split; [exact E|]. clear E. specialize (Hu 41 ltac:(cbn; lia)).
  change (f_sb (demo_fs b1 demo_file)) with demo_sb in Hu.
  destruct (used demo_sb v' 41); [|done]. exfalso. apply Hu; [done|]. split; [done|].
  exists (SAddr 0). split; [cbn; lia|]. split; [vm_compute; reflexivity|].
  change (i_addrs demo_file) with demo_addrs. rewrite (demo_slots v Hv) by (cbn; lia). done.
Defined.

Lemma itrunc_keeps_double_indirect_witness :
  exists b b1, recover fs_disk 64 7 = Ok tt b /\
    io io_begin_op (demo_fs b demo_file) = Ok tt (demo_fs b1 demo_file) /\
    exists s' v' i', itrunc 0 (demo_fs b1 demo_file) = Ok tt s' /\
      f_icache s' !! 0%nat = Some i' /\ i_addrs i' !! 12%nat = Some 42 /\ used demo_sb v' 42 = true.
Proof.
  destruct demo_open_file as (b & v & b1 & E & Hv & E1 & Hf). exists b, b1.
  split; [exact E|]. clear E. split; [exact E1|]. clear E1.
  assert (E42 : slot_val v demo_addrs (SAddr 12) = 42) by (by rewrite (demo_slots v Hv) by (cbn; lia)).
  destruct (itrunc_keeps_double_indirect demo_geom 1 v _ v [] 0 demo_file (SAddr 12) Hf ltac:(lia)
    (demo_trunc_fits v Hv) ltac:(cbn; lia) ltac:(vm_compute; congruence) ltac:(change (i_addrs demo_file) with demo_addrs; by rewrite E42))
    as (s' & v' & L' & i' & E & _ & Hi & Ha & Hu).
  exists s', v', i'. split; [exact E|]. clear E. split; [exact Hi|]. split; [exact Ha|].
  change (i_addrs demo_file) with demo_addrs in Hu. by rewrite E42 in Hu.
Defined.

(** The file open for writing at offset 90. *)
Definition demo_open_entry : file := mkFile FD_INODE 1 true true 0 (Some 0%nat) 90.
Definition demo_kernel (b : lstate) : kstate lstate :=
  mkK (demo_fs b demo_file) [demo_open_entry] ∅ (mkVmem (mkKmem 0 false ∅) ∅) [Some 0%nat] false 0 0 0.

Lemma filewrite_durable_witness :
  exists b, recover fs_disk 64 7 = Ok tt b /\
    exists s' v' i', filewrite no_write 0 (replicate 1000 5) 1000 (demo_kernel b) = Ok 1000 s' /\
      idle demo_geom (k_fs s') v' 0 i' /\ d_size (disk_inode demo_sb v' 5) = 1090 /\
      fbyte v' (d_addrs (disk_inode demo_sb v' 5)) 1089 = 5.
Proof.
  destruct fs_boot as (b & v & E & Hr & Hv). exists b. split; [exact E|]. clear E.
  assert (Hid : idle demo_geom (k_fs (demo_kernel b)) v 0 demo_file).
  { split; [by apply demo_state|done|done|done|by apply demo_synced|by apply demo_filled]. }
  destruct (filewrite_durable no_write demo_geom (demo_kernel b) v 0 demo_file 0 demo_open_entry
    (replicate 1000 5) 1000 Hid eq_refl eq_refl eq_refl eq_refl ltac:(cbn; lia)
    ltac:(cbn [fd_off demo_open_entry]; rewrite MAXFILE_val, BSIZE_val; lia) ltac:(by rewrite length_replicate)
    ltac:(by apply Forall_replicate) (demo_free v Hv 12 ltac:(lia)))
    as (s' & v' & i' & E & Hid' & _ & _ & Hs & Hb & _).
  exists s', v', i'. split; [exact E|]. clear E. split; [exact Hid'|]. split; [exact Hs|].
  change (disk_inode _ v' _) with (disk_inode demo_sb v' 5) in Hb.
  rewrite Hb by (rewrite MAXFILE_val, BSIZE_val; lia). cbn [fd_off demo_open_entry].
  rewrite decide_True by lia. rewrite nth0_lookup, lookup_replicate_2 by lia. done.
Defined.

Lemma extent_append_witness :
  exists s s' s2, writei no_write 0 [1; 2; 3] 0 3 s = Ok 3 s' /\ read_all no_read 2 0 0 512 s' = Ok [1; 2; 3] s2.
Proof.
  destruct demo_open_extent as (b & v & Hv & Hs). exists (demo_fs b demo_extent).
  destruct (extent_append no_read no_write [SAddr 0] demo_geom 1 v _ v [] 0 demo_extent [] [1; 2; 3] Hs (demo_ext_file v Hv)
    (demo_ext_room v Hv b 0 ltac:(lia)) ltac:(lia) eq_refl ltac:(done) ltac:(repeat constructor; done) ltac:(repeat constructor; done))
    as (s' & v' & L' & i' & E & _ & Hx & _ & _ & _ & _ & Hrd).
  destruct (Hrd 2%nat 0 512) as (s2 & E2); [rewrite (xf_sis _ _ _ Hx); by vm_compute|]. exists s', s2. split; [exact E|exact E2].
Defined.

(** The second of two writes of three bytes. *)
Lemma extent_append_lost_witness :
  exists s s' fuel s2, writei no_write 0 [4; 5; 6] 3 3 s = Ok 3 s' /\ read_all no_read fuel 0 0 512 s' = Ok [1; 2; 3] s2.
Proof.
  destruct demo_open_extent as (b & v & Hv & Hs). pose proof (demo_ext_file v Hv) as Hx. pose proof (demo_ext_room v Hv b 18 ltac:(lia)) as Hroom.
  assert (Hwp : wp (writei no_write 0 [1; 2; 3] 0 3) (demo_fs b demo_extent) (fun _ s1 => exists v1 L1 i1,
    ext_wrote [SAddr 0] 18 demo_geom 1 v v [] 0 demo_extent [1; 2; 3] (demo_fs b demo_extent) s1 v1 L1 i1)).
  { apply (wp_ext_file_write no_write [SAddr 0] 18 demo_geom 1 v (demo_fs b demo_extent) v [] 0 demo_extent [] [1; 2; 3]);
      [done..|by repeat constructor|]. intros. by do 3 eexists. }
  apply wp_inv in Hwp as (r & s1 & _ & v1 & L1 & i1 & Hw). exists s1.
  assert (Hx1 : ext_file v1 i1 ([] ++ [1; 2; 3])) by (eapply append_file; [exact Hw|exact Hx|exact Hroom|done|done|by repeat constructor]).
  destruct Hw as (Ei & Hs1 & _ & _ & _ & HL1 & Hfr1 & Esb). cbn [length app] in *.
  assert (Esz : i_size i1 = 3 /\ i_sisterblocks i1 = 1 /\ i_numExtents i1 = 1 /\ length (i_extentz i1) = 11%nat) by (by rewrite Ei).
  destruct Esz as (Esz & Esis & Enum & Ele).
  destruct (extent_append_lost no_read no_write [SAddr 1] demo_geom 1 v s1 v1 L1 0 i1 [1; 2; 3] [4; 5; 6] Hs1 Hx1)
    as (s' & i' & E & _ & _ & Hrd); [|lia|by rewrite Esz|done|by repeat constructor|].
  - split; rewrite ?Esz, ?Esis; try done.
    + intros pos. change (Z.to_nat (blocks_left pos _)) with 1%nat. rewrite Esb. eapply free_ge_weaken; [exact Hfr1|lia].
    + by repeat constructor.
    + cbn [length]. lia.
    + intros pos bn H1 H2. change pos with 515 in *. change (515 / BSIZE) with 1 in H1. rewrite BSIZE_val in H2.
      change (Z.of_nat (length [4; 5; 6])) with 3 in H2. assert (bn = 1) as -> by lia. done.
    + rewrite Enum, Ele. done.
  - destruct (Hrd (Z.to_nat (i_sisterblocks i' + 1)) 0 512) as (s2 & E2); [lia|]. rewrite Esz in E.
    exists s', (Z.to_nat (i_sisterblocks i' + 1)), s2. split; [exact E|exact E2].
Defined.
