(* ===== verification/LogLimit.v ===== *)
(** log.c: the reservation of [begin_op] admits one block too many. *)
From S2P Require Import Prelude Layout Locks Bio Log LogRep Crash FsDemo.

(** What the operations of the file system do to blocks: each pair is the number
    of a block and its new contents. *)
Fixpoint log_blocks (ws : list (Z * bytes)) : M lstate unit :=
  match ws with
  | [] => ret tt
  | (b, x) :: ws' =>
      let* i := io_bread ROOTDEV b in
      io_set_data i x ;;
      io_log_write i ;;
      io_brelse i ;;
      log_blocks ws'
  end.

Definition three_begin : M lstate unit := io_begin_op ;; io_begin_op ;; io_begin_op.

(** Three operations at a time, each of which has begun before any ends; [ws] are
    their changes in the order in which they happen. *)
Definition three_ops (ws : list (Z * bytes)) : M lstate unit :=
  three_begin ;; log_blocks ws ;; io_end_op ;; io_end_op ;; io_end_op.

(** A block that may be logged, and contents for it. *)
Definition loggable (g : geom) (w : Z * bytes) : Prop :=
  0 <= w.1 < g_size g /\ w.1 <> 1 /\ ~ in_log g w.1 /\ is_block w.2.

Section limit.
Context (g : geom) (Hg : g_nlog g = LOGSIZE) (dur : Z -> bytes).
Local Abbreviation rep s v L o := (log_rep g s (mkAblk v ∅ ∅ L o dur)).

Lemma log_cap_29 : log_cap g = 29.
Proof. unfold log_cap. by rewrite Hg. Qed.

Lemma wp_three_begin s v (Q : unit -> lstate -> Prop) :
  rep s v [] 0 -> (forall s', rep s' v [] 3 -> Q tt s') -> wp three_begin s Q.
Proof.
  intros Hr HQ. unfold three_begin.
  apply wp_bind. eapply bk_begin_op; [exact Hr|done|]. intros s1 H1.
  apply wp_bind. eapply bk_begin_op; [exact H1|done|]. intros s2 H2.
  eapply bk_begin_op; [exact H2|done|]. intros s3 H3. by apply HQ.
Qed.

(** One change, up to the call of [log_write]. *)
Lemma wp_change s v L o b x (P : nat -> lstate -> Prop) :
  rep s v L o -> loggable g (b, x) -> (length L <= 29)%nat ->
  (forall i s', log_rep g s' (mkAblk (vupd v b x) (<[i := b]> ∅) {[b]} L o dur) -> P i s') ->
  wp (io_bread ROOTDEV b) s (fun i s1 => wp (io_set_data i x) s1 (fun _ s2 => P i s2)).
Proof.
  intros Hr (Hb & _ & _ & Hx) HL HP. cbn [fst snd] in *. eapply bk_bread; [exact Hr|done| | |].
  - intros i. cbn. by rewrite lookup_empty.
  - right. cbn [a_held a_log]. rewrite map_size_empty. unfold NBUFn. lia.
  - intros i s1 _ H1. eapply bk_set_data; [exact H1|by apply lookup_insert_eq|done|]. intros s2 H2.
    apply HP. cbn in H2. by rewrite (left_id_L ∅ _) in H2.
Qed.

(** Up to 29 blocks go into the log. *)
Lemma wp_log_blocks ws s v L (Q : unit -> lstate -> Prop) :
  rep s v L 3 -> Forall (loggable g) ws -> NoDup (L ++ ws.*1) -> (length L + length ws <= 29)%nat ->
  (forall s', rep s' (vwrites v ws) (L ++ ws.*1) 3 -> Q tt s') -> wp (log_blocks ws) s Q.
Proof.
  intros Hr Hw. revert s v L Hr. induction Hw as [|[b x] ws Hbx Hw IH]; intros s v L Hr Hnd Hlen HQ; cbn [log_blocks].
  { apply wp_ret, HQ. cbn. by rewrite app_nil_r. }
  cbn [length] in Hlen. pose proof Hbx as (_ & H1 & Hlog & _). cbn [fst] in *.
  assert (HbL : b ∉ L) by (intros Hin; apply NoDup_app in Hnd as (_ & Hd & _); apply (Hd b Hin); set_solver).
  apply wp_bind. eapply wp_mono; [apply (wp_change s v L 3 b x (fun i s' =>
    log_rep g s' (mkAblk (vupd v b x) (<[i := b]> ∅) {[b]} L 3 dur))); [done|done|lia|done]|].
  cbv beta. intros i s1 Hs1. apply wp_bind. eapply wp_mono; [exact Hs1|]. intros [] s2 H2. apply wp_bind.
  eapply bk_log_write; [exact H2|by apply lookup_insert_eq|cbn; lia|done|done|rewrite log_cap_29; cbn; lia|]. intros s3 H3.
  apply wp_bind. eapply bk_brelse; [exact H3|by apply lookup_insert_eq|cbn; set_solver|]. intros s4 H4.
  cbn in H4. rewrite delete_insert_id in H4 by apply lookup_empty. rewrite difference_diag_L in H4.
  replace (log_add b L) with (L ++ [b]) in H4 by (unfold log_add; by rewrite decide_False).
  apply (IH s4 (vupd v b x) (L ++ [b])); [exact H4| | |].
  - by rewrite <- app_assoc.
  - rewrite length_app. cbn. lia.
  - intros s' Hs'. apply HQ. rewrite <- app_assoc in Hs'. exact Hs'.
Qed.

(** One more does not. *)
Lemma log_blocks_full b x ws s v L :
  rep s v L 3 -> loggable g (b, x) -> length L = 29%nat -> log_blocks ((b, x) :: ws) s = Panic "too big a transaction".
Proof.
  intros Hr Hbx HL. cbn [log_blocks]. apply wp_bind_eq.
  eapply wp_mono; [apply (wp_change s v L 3 b x (fun i s' =>
    log_rep g s' (mkAblk (vupd v b x) (<[i := b]> ∅) {[b]} L 3 dur))); [done|done|lia|done]|].
  cbv beta. intros i s1 Hs1. apply wp_bind_eq. eapply wp_mono; [exact Hs1|]. intros [] s2 H2.
  unfold io_log_write, lstate_io, log_write, bind, getlog, gets.
  rewrite (lw_n (lr_wf H2)), (lr_nlog H2), Hg. cbn [a_log]. rewrite HL. done.
Qed.

Lemma log_blocks_app ws1 ws2 s : log_blocks (ws1 ++ ws2) s = (log_blocks ws1 ;; log_blocks ws2) s.
Proof.
  revert s. induction ws1 as [|[b x] ws1 IH]; intros s; [done|]. cbn [log_blocks app]. unfold bind.
  destruct (io_bread ROOTDEV b s) as [i s1| | | | |]; [|done..]. destruct (io_set_data i x s1) as [[] s2| | | | |]; [|done..].
  destruct (io_log_write i s2) as [[] s3| | | | |]; [|done..]. destruct (io_brelse i s3) as [[] s4| | | | |]; [apply IH|done..].
Qed.

Lemma wp_three_end s v L (Q : unit -> lstate -> Prop) : rep s v L 3 ->
  (forall s' v', (forall c, ~ in_log g c -> v' c = v c) -> log_rep g s' (mkAblk v' ∅ ∅ [] 0 v') -> Q tt s') ->
  wp (io_end_op ;; io_end_op ;; io_end_op) s Q.
Proof.
  intros Hr HQ. apply wp_bind. eapply bk_end_op; [exact Hr|cbn; lia|]. intros s1 H1.
  apply wp_bind. eapply bk_end_op; [exact H1|cbn; lia|]. intros s2 H2.
  eapply bk_end_op_last; [exact H2|done|done|]. intros s3 v' Hv' H3. by eapply HQ.
Qed.
End limit.

(** C37: [begin_op] reserves MAXOPBLOCKS blocks of the log for each operation and
    admits three, but the log of LOGSIZE blocks holds only 29.  On any disk with
    such a log and in any state between operations: if three operations change
    MAXOPBLOCKS blocks each, the number they may change, all different and in
    whatever order they take turns, then the machine stops with the panic "too
    big a transaction".  If the third changes fewer, they return, and all the
    changes are on disk.  A fourth operation has to wait. *)
Theorem log_reservation_short g s v ws1 ws2 ws3 ws :
  g_nlog g = LOGSIZE -> log_rep g s (mkAblk v ∅ ∅ [] 0 v) ->
  Permutation ws (ws1 ++ ws2 ++ ws3) -> NoDup ws.*1 -> Forall (loggable g) ws ->
  Z.of_nat (length ws1) = MAXOPBLOCKS -> Z.of_nat (length ws2) = MAXOPBLOCKS ->
  (Z.of_nat (length ws3) = MAXOPBLOCKS -> three_ops ws s = Panic "too big a transaction") /\
  (Z.of_nat (length ws3) < MAXOPBLOCKS -> exists s' v', three_ops ws s = Ok tt s' /\
     log_rep g s' (mkAblk v' ∅ ∅ [] 0 v') /\ forall c, ~ in_log g c -> v' c = vwrites v ws c) /\
  exists s', (three_begin ;; io_begin_op) s = Sleep ChanLog s'.
Proof.
  intros Hg Hr Hp Hnd Hw E1 E2. apply Permutation_length in Hp. rewrite !length_app in Hp. unfold MAXOPBLOCKS in *.
  assert (Hb : wp three_begin s (fun _ s' => log_rep g s' (mkAblk v ∅ ∅ [] 3 v))) by (by eapply wp_three_begin).
  split_and!.
  - intros E3. assert (H30 : length ws = 30%nat) by lia. unfold three_ops. apply wp_bind_eq. eapply wp_mono; [exact Hb|]. intros [] s1 H1.
    rewrite <- (take_drop 29 ws) in Hnd, Hw |- *. apply Forall_app in Hw as [Hw1 Hw2].
    destruct (drop 29 ws) as [|[b x] ws'] eqn:Ed; [apply (f_equal length) in Ed; rewrite length_drop in Ed; cbn in Ed; lia|].
    rewrite fmap_app in Hnd. apply NoDup_app in Hnd as (Hnd1 & _ & _). inversion_clear Hw2 as [|? ? Hbx _].
    unfold bind at 1. rewrite log_blocks_app, (wp_bind_eq _ _ _ (Panic "too big a transaction")); [done|].
    eapply (wp_log_blocks g Hg v (take 29 ws) s1 v []); [exact H1|done|done|rewrite length_take; cbn [length]; lia|].
    intros s2 H2. eapply log_blocks_full; [done|exact H2|done|]. cbn [app]. rewrite length_fmap, length_take. lia.
  - intros E3.
    assert (Hwp : wp (three_ops ws) s (fun _ s' => exists v', log_rep g s' (mkAblk v' ∅ ∅ [] 0 v') /\
      forall c, ~ in_log g c -> v' c = vwrites v ws c)).
    { unfold three_ops. apply wp_bind. eapply wp_mono; [exact Hb|]. intros [] s1 H1. apply wp_bind.
      eapply (wp_log_blocks g Hg v ws s1 v []); [exact H1|done|done|cbn; lia|]. intros s2 H2.
      eapply wp_three_end; [exact H2|]. intros s3 v' Hv' H3. by exists v'. }
    apply wp_inv in Hwp as ([] & s' & E & v' & H3 & Hv'). by exists s', v'.
  - apply wp_inv in Hb as ([] & s1 & E & H1). exists s1. unfold bind. rewrite E. unfold io_begin_op, lstate_io, begin_op, bind, getlog, gets.
    rewrite (lr_idle H1), (lw_n (lr_wf H1)), (lr_out H1). done.
Qed.

(** Thirty blocks of the small disk, by three operations that take turns. *)
Definition clear (b : Z) : Z * bytes := (b, zero_block).
Definition turns : list Z := concat (map (fun k => [32 + k; 42 + k; 52 + k]) (seqZ 0 10)).

Lemma demo_loggable : Forall (loggable demo_geom) (map clear turns).
Proof.
  assert (Hb : Forall (fun b => 32 <= b < 62) turns) by (apply (bool_decide_unpack _); vm_compute; exact I).
  apply Forall_fmap. eapply Forall_impl; [exact Hb|]. intros b Hr.
  cbv beta in Hr. unfold compose, loggable, in_log. cbn [fst snd clear g_size g_start g_nlog demo_geom]. split; [lia|]. split; [lia|]. split; [lia|apply zero_block_ok].
Qed.

Lemma log_reservation_short_witness :
  exists s, recover fs_disk 64 7 = Ok tt s /\ three_ops (map clear turns) s = Panic "too big a transaction".
Proof.
  destruct fs_boot as (s & v & E & Hr & _). exists s. split; [exact E|]. clear E.
  destruct (log_reservation_short demo_geom s v (map clear (seqZ 32 10)) (map clear (seqZ 42 10)) (map clear (seqZ 52 10))
    (map clear turns)) as (H & _).
  - reflexivity.
  - exact Hr.
  - rewrite <- !map_app. apply Permutation_map, (bool_decide_unpack _). vm_compute. exact I.
  - change ((map clear turns).*1) with turns. apply (bool_decide_unpack _). vm_compute. exact I.
  - apply demo_loggable.
  - reflexivity.
  - reflexivity.
  - apply H. reflexivity.
Defined.
