(* ===== verification/Sysfile.v ===== *)
(** sysfile.c: the system calls of the file system.

    Each handler is the whole handler: it fetches its arguments from the user's
    memory, runs its transaction and returns what the call leaves in [%eax].
    [name0] is the contents of the uninitialised [name] buffers on the kernel stack. *)
From S2P Require Import Prelude Layout CString Locks LogRep Fs Kalloc Vm Pipe Syscall File.

(** [omode & flag]. *)
Definition has (omode flag : Z) : bool := negb (Z.land omode flag =? 0).

Definition sizeof_stat : Z := 160.

(** [struct inode] as the characters of [addrs], for the target of a symbolic
    link. *)
Definition addrs_chars (i : inode) : bytes := enc32s (i_addrs i).
Definition set_addrs_chars (l : bytes) (i : inode) : inode :=
  set_addrs (dec32s 13 (splice (addrs_chars i) 0 l)) i.

Section sysfile.
Context {S : Type} `{!BlockIO S}.
Local Abbreviation FS := (M (fstate S)).
Local Abbreviation K := (M (kstate S)).
Context (dev_read : Z -> option (nat -> Z -> FS (Z * bytes))).
Context (dev_write : Z -> option (nat -> bytes -> Z -> FS Z)).
Context (kend : Z).
Context (name0 : bytes).

(** What the argument routines of syscall.c see of the process. *)
Definition user : K uproc :=
  gets (fun s => mkU (umem (k_mem s) (k_pgdir s)) (k_sz s) (k_esp s)).

(** The kernel reads user memory: a page that is not present is a page fault. *)
Definition touch (va : Z) (n : nat) : K unit :=
  let* s := get in
  if umapped (k_mem s) (k_pgdir s) va n then ret tt
  else page_fault (first_absent (k_mem s) (k_pgdir s) va n).

Definition ustore (p : Z) (l : bytes) : K unit :=
  let* s := get in vm (ustore_bytes (k_pgdir s) p l).

(** The source of a copy out of user memory.  A copy from pages that are not
    present is left out of the model: it traps when it reaches them. *)
Definition usource (p : Z) (n : nat) : K bytes :=
  let* s := get in
  let* u := user in
  if umapped (k_mem s) (k_pgdir s) p n then ret (umem_bytes u p n) else fault.

(** syscall.c [argint], [argptr] and [argstr], with the accesses they make. *)
Definition k_argint (n : Z) : K (option Z) :=
  let* u := user in
  match argint u n with
  | None => ret None
  | Some v => touch (u32 (u_esp u + 4 + 4 * n)) 4 ;; ret (Some v)
  end.
Definition k_argptr (n size : Z) : K (option Z) :=
  let* i := k_argint n in
  let* u := user in
  ret (match i with None => None | Some _ => argptr u n size end).
Definition k_argstr (n : Z) : K (option (Z * Z)) :=
  let* i := k_argint n in
  let* u := user in
  match i with
  | None => ret None
  | Some _ =>
      match argstr u n with
      | None => ret None
      | Some p => touch p.1 (Z.to_nat p.2 + 1) ;; ret (Some p)
      end
  end.

(** [a || b] of two fetches: the second is made if the first succeeds. *)
Definition also {A B} (a : K (option A)) (b : K (option B)) : K (option (A * B)) :=
  let* x := a in
  match x with
  | None => ret None
  | Some x => let* y := b in ret (match y with Some y => Some (x, y) | None => None end)
  end.

(** [myproc()->ofile[fd]], for an index the array has. *)
Definition ofile_at (fd : Z) : K (option nat) := fun s =>
  if fd <? 0 then Fault
  else match k_ofile s !! Z.to_nat fd with Some x => Ok x s | None => Fault end.
Definition set_ofile_at (fd : Z) (x : option nat) : K unit :=
  modify (fun s => set_ofile (<[Z.to_nat fd := x]> (k_ofile s)) s).

Definition sys_lseek : K Z :=
  let* a := also (k_argint 0) (k_argint 1) in
  match a with
  | Some (fileDescriptor, offset) =>
      let* f := ofile_at fileDescriptor in
      match f with
      | None => ret (-1)
      | Some f =>
          updf f (fun x => set_foff (u32 (fd_off x + offset)) x) ;;
          let* x := getf f in
          ret (s32 (fd_off x))
      end
  | None => ret (-1)
  end.

Definition argfd (n : Z) : K (option (Z * nat)) :=
  let* a := k_argint n in
  match a with
  | None => ret None
  | Some fd =>
      if (fd <? 0) || (NOFILE <=? fd) then ret None
      else
        let* f := ofile_at fd in
        ret (match f with Some f => Some (fd, f) | None => None end)
  end.

(** The first free descriptor. *)
Definition fdalloc (f : nat) : K Z :=
  let* r := for_loop (Z.to_nat NOFILE) 0 (fun fd =>
    let* x := ofile_at fd in
    match x with
    | None => set_ofile_at fd (Some f) ;; ret (Some fd)
    | Some _ => ret None
    end) in
  ret (match r with Some fd => fd | None => -1 end).

Definition sys_dup : K Z :=
  let* a := argfd 0 in
  match a with
  | None => ret (-1)
  | Some (_, f) =>
      let* fd := fdalloc f in
      if fd <? 0 then ret (-1) else let* _ := filedup f in ret fd
  end.

Definition sys_read : K Z :=
  let* a := also (argfd 0) (k_argint 2) in
  match a with
  | Some ((_, f), n) =>
      let* p := k_argptr 1 n in
      match p with
      | None => ret (-1)
      | Some p =>
          let* r := fileread dev_read f n in
          ustore p r.2 ;;
          ret r.1
      end
  | None => ret (-1)
  end.

Definition sys_write : K Z :=
  let* a := also (argfd 0) (k_argint 2) in
  match a with
  | Some ((_, f), n) =>
      let* p := k_argptr 1 n in
      match p with
      | None => ret (-1)
      | Some p => let* src := usource p (Z.to_nat n) in filewrite dev_write f src n
      end
  | None => ret (-1)
  end.

Definition sys_close : K Z :=
  let* a := argfd 0 in
  match a with
  | None => ret (-1)
  | Some (fd, f) => set_ofile_at fd None ;; fileclose kend f ;; ret 0
  end.

(** [struct stat] in the user's memory. *)
Definition dec_stat (b : bytes) : stat :=
  mkStat (s16 (get16 b 0)) (s32 (get32 b 4)) (get32 b 8) (s16 (get16 b 12)) (get32 b 16)
    (dec32s 12 (drop 20 b)) (get32 b 68)
    (map (fun k => mkExtent (get32 b (72 + 8 * k)) (get32 b (76 + 8 * k))) (seq 0 11)).
Definition enc_extent (e : extent) : bytes := le 4 (e_length e) ++ le 4 (e_startingAddress e).

(** [filestat] on the structure at [p]: it stores the fields [stati] assigns. *)
Definition sys_fstat : K Z :=
  let* a := also (argfd 0) (k_argptr 1 sizeof_stat) in
  match a with
  | None => ret (-1)
  | Some ((_, f), p) =>
      let* u := user in
      let* r := filestat f (dec_stat (umem_bytes u p (Z.to_nat sizeof_stat))) in
      let st := r.2 in
      (if r.1 <? 0 then ret tt
       else
         ustore (p + 4) (le 4 (st_dev st)) ;;
         ustore (p + 8) (le 4 (st_ino st)) ;;
         ustore p (le 2 (st_type st)) ;;
         ustore (p + 12) (le 2 (st_nlink st)) ;;
         ustore (p + 16) (le 4 (st_size st)) ;;
         if st_type st =? T_EXTENT then
           ustore (p + 68) (le 4 (st_numExtents st)) ;;
           ustore (p + 72) (concat (map enc_extent (take (Z.to_nat (st_numExtents st)) (st_extentz st))))
         else if st_type st =? T_FILE then
           ustore (p + 20) (enc32s (take (Z.to_nat NDIRECT) (st_addrs st)))
         else ret tt) ;;
      ret r.1
  end.

(** [ip->nlink++] and [ip->nlink--]. *)
Definition add_nlink (d : Z) (ip : nat) : FS unit :=
  updi ip (fun i => set_nlink (s16 (i_nlink i + d)) i).

Definition path_of (n : Z) : K (option bytes) :=
  let* p := k_argstr n in
  let* u := user in
  ret (match p with Some p => Some (ustring u p) | None => None end).

(** [sys_link] from [bad] on. *)
Definition sys_link_bad (ip : nat) : K Z :=
  fs (ilock (Some ip)) ;;
  fs (add_nlink (-1) ip) ;;
  fs (iupdate ip) ;;
  fs (iunlockput ip) ;;
  end_op ;;
  ret (-1).

Definition sys_link : K Z :=
  let* a := also (path_of 0) (path_of 1) in
  match a with
  | Some (old, new) =>
      begin_op ;;
      let* ip := fs (namei dev_read old name0) in
      match ip with
      | None => end_op ;; ret (-1)
      | Some ip =>
          fs (ilock (Some ip)) ;;
          let* i := fs (geti ip) in
          if i_type i =? T_DIR then
            fs (iunlockput ip) ;; end_op ;; ret (-1)
          else
            fs (add_nlink 1 ip) ;;
            fs (iupdate ip) ;;
            fs (iunlock (Some ip)) ;;
            let* r := fs (nameiparent dev_read new name0) in
            match r.1 with
            | None => sys_link_bad ip
            | Some dp =>
                fs (ilock (Some dp)) ;;
                let* d := fs (geti dp) in
                let* i := fs (geti ip) in
                let* ok := (if negb (i_dev d =? i_dev i) then ret (-1)
                            else fs (dirlink dev_read dev_write dp r.2 (i_inum i))) in
                fs (iunlockput dp) ;;
                if ok <? 0 then sys_link_bad ip
                else fs (iput ip) ;; end_op ;; ret 0
            end
      end
  | None => ret (-1)
  end.

Definition isdirempty (dp : nat) : FS bool :=
  let* i := geti dp in
  let* r := for_loop (dirents i - 2) 2 (fun k =>
    let* de := read_dirent dev_read dp (k * sizeof_dirent) "isdirempty: readi" in
    if negb (de_inum de =? 0) then ret (Some tt) else ret None) in
  ret (match r with Some _ => false | None => true end).

Definition dot : bytes := [46; 0].
Definition dotdot : bytes := [46; 46; 0].

(** [sys_unlink] from [bad] on. *)
Definition sys_unlink_bad (dp : nat) : K Z :=
  fs (iunlockput dp) ;; end_op ;; ret (-1).

Definition sys_unlink : K Z :=
  let* path := path_of 0 in
  match path with
  | None => ret (-1)
  | Some path =>
      begin_op ;;
      let* r := fs (nameiparent dev_read path name0) in
      match r with
      | (None, _) => end_op ;; ret (-1)
      | (Some dp, name) =>
          fs (ilock (Some dp)) ;;
          if (namecmp name dot =? 0) || (namecmp name dotdot =? 0) then sys_unlink_bad dp
          else
            let* e := fs (dirlookup dev_read dp name) in
            match e with
            | None => sys_unlink_bad dp
            | Some (ip, off) =>
                fs (ilock (Some ip)) ;;
                let* i := fs (geti ip) in
                if i_nlink i <? 1 then panic "unlink: nlink < 1"
                else
                  let* busy := (if i_type i =? T_DIR then
                                  let* e := fs (isdirempty ip) in ret (negb e)
                                else ret false) in
                  if busy then fs (iunlockput ip) ;; sys_unlink_bad dp
                  else
                    let* w := fs (writei dev_write dp (replicate (Z.to_nat sizeof_dirent) 0) off
                                    sizeof_dirent) in
                    if negb (w =? sizeof_dirent) then panic "unlink: writei"
                    else
                      (if i_type i =? T_DIR then fs (add_nlink (-1) dp) ;; fs (iupdate dp)
                       else ret tt) ;;
                      fs (iunlockput dp) ;;
                      fs (add_nlink (-1) ip) ;;
                      fs (iupdate ip) ;;
                      fs (iunlockput ip) ;;
                      end_op ;;
                      ret 0
            end
      end
  end.

(** * Opening and creating files *)

(** [filealloc] and [fdalloc] for an open inode; [None] after the cleanup of
    the failure path. *)
Definition open_file : K (option (nat * Z)) :=
  let* f := filealloc in
  match f with
  | None => ret None
  | Some f =>
      let* fd := fdalloc f in
      if fd <? 0 then fileclose kend f ;; ret None else ret (Some (f, fd))
  end.

(** The assignments to [f] at the end of the open routines. *)
Definition init_file (f : nat) (t : ftype) (ip : nat) (omode : Z) : K unit :=
  updf f (fun x =>
    set_fmode (negb (has omode O_WRONLY)) (has omode O_WRONLY || has omode O_RDWR)
      (set_foff 0 (set_fip (Some ip) (set_ftype t x)))).

(** [depth] links are still followed when [left = 10 - depth]. *)
Fixpoint openSymLink (left : nat) (omode : Z) (ip : nat) : K Z :=
  if has omode O_NOFOLLOW then
    let omode := O_RDONLY in
    fs (iunlock (Some ip)) ;;
    let* r := open_file in
    match r with
    | None => fs (iunlockput ip) ;; end_op ;; ret (-1)
    | Some (f, fd) => end_op ;; init_file f SYMLINK ip omode ;; ret fd
    end
  else
    let* i := fs (geti ip) in
    let* target := fs (namei dev_read (addrs_chars i) name0) in
    match target with
    | None => fs (iunlock (Some ip)) ;; end_op ;; ret (-1)
    | Some target =>
        match left with
        | O => fs (iunlock (Some ip)) ;; end_op ;; ret (-1)
        | Datatypes.S left' =>
            let* t := fs (geti target) in
            if i_type t =? T_SYMLINK then
              fs (iunlock (Some ip)) ;;
              fs (ilock (Some target)) ;;
              openSymLink left' omode target
            else
              fs (iunlock (Some ip)) ;;
              let* r := open_file in
              match r with
              | None => fs (iunlockput target) ;; end_op ;; ret (-1)
              | Some (f, fd) => end_op ;; init_file f FD_INODE target omode ;; ret fd
              end
        end
    end.

(** [target] is the memory at the pointer [target]. *)
Definition createSymLink (target : bytes) (ip : nat) : K unit :=
  let* f := filealloc in
  fs (updi ip (set_addrs_chars (take (Z.to_nat DIRSIZ) target))) ;;
  fs (iunlock (Some ip)) ;;
  let* f := deref f in
  updf f (fun x => set_foff 0 (set_ftype SYMLINK (set_fip (Some ip) x))).

Definition create (path : bytes) (type major minor : Z) (target : bytes) : K (option nat) :=
  let* r := fs (nameiparent dev_read path name0) in
  match r with
  | (None, _) => ret None
  | (Some dp, name) =>
      fs (ilock (Some dp)) ;;
      let* e := fs (dirlookup dev_read dp name) in
      match e with
      | Some (ip, _) =>
          fs (iunlockput dp) ;;
          fs (ilock (Some ip)) ;;
          let* i := fs (geti ip) in
          if (type =? T_FILE) && (i_type i =? T_FILE) then ret (Some ip)
          else fs (iunlockput ip) ;; ret None
      | None =>
          let* d := fs (geti dp) in
          let* ip := fs (ialloc (i_dev d) type) in
          fs (ilock (Some ip)) ;;
          fs (updi ip (fun i => set_nlink 1 (set_majmin major minor i))) ;;
          fs (iupdate ip) ;;
          let* i := fs (geti ip) in
          (if type =? T_DIR then
             fs (add_nlink 1 dp) ;;
             fs (iupdate dp) ;;
             let* r := fs (dirlink dev_read dev_write ip dot (i_inum i)) in
             let* r := (if r <? 0 then ret r
                        else fs (dirlink dev_read dev_write ip dotdot (i_inum d))) in
             if r <? 0 then panic "create dots" else ret tt
           else ret tt) ;;
          let* r := fs (dirlink dev_read dev_write dp name (i_inum i)) in
          if r <? 0 then panic "create: dirlink"
          else
            fs (iunlockput dp) ;;
            (if type =? T_SYMLINK then createSymLink target ip else ret tt) ;;
            ret (Some ip)
      end
  end.

(** The first part of [sys_open]: the locked inode, or [None] after the cleanup
    of the failure path. *)
Definition open_inode (path : bytes) (omode : Z) : K (option nat) :=
  if has omode O_CREATE then create path T_FILE 0 0 []
  else if has omode O_EXTENT then
    let* ip := create path T_EXTENT 0 0 [] in
    match ip with
    | None => ret None
    | Some ip => fs (updi ip (fun i => set_extents (i_extentz i) 0 0 0 0 i)) ;; ret (Some ip)
    end
  else
    let* ip := fs (namei dev_read path name0) in
    match ip with
    | None => ret None
    | Some ip =>
        fs (ilock (Some ip)) ;;
        let* i := fs (geti ip) in
        if (i_type i =? T_DIR) && negb (omode =? O_RDONLY) then fs (iunlockput ip) ;; ret None
        else ret (Some ip)
    end.

Definition sys_open : K Z :=
  let* a := also (path_of 0) (k_argint 1) in
  match a with
  | Some (path, omode) =>
      begin_op ;;
      let* ip := open_inode path omode in
      match ip with
      | None => end_op ;; ret (-1)
      | Some ip =>
          let* i := fs (geti ip) in
          if i_type i =? T_SYMLINK then openSymLink 10 omode ip
          else
            let* r := open_file in
            match r with
            | None => fs (iunlockput ip) ;; end_op ;; ret (-1)
            | Some (f, fd) =>
                fs (updi ip (fun i =>
                  set_extents (i_extentz i) (i_numExtents i) (i_sisterblocks i) 0 0 i)) ;;
                fs (iunlock (Some ip)) ;;
                end_op ;;
                init_file f FD_INODE ip omode ;;
                ret fd
            end
      end
  | None => ret (-1)
  end.

(** [create], then the common end of [sys_mkdir] and [sys_mknod]. *)
Definition create_and_put (path : bytes) (type major minor : Z) : K Z :=
  let* ip := create path type major minor [] in
  match ip with
  | None => end_op ;; ret (-1)
  | Some ip => fs (iunlockput ip) ;; end_op ;; ret 0
  end.

Definition sys_mkdir : K Z :=
  begin_op ;;
  let* path := path_of 0 in
  match path with
  | None => end_op ;; ret (-1)
  | Some path => create_and_put path T_DIR 0 0
  end.

Definition sys_mknod : K Z :=
  begin_op ;;
  let* a := also (path_of 0) (also (k_argint 1) (k_argint 2)) in
  match a with
  | Some (path, (major, minor)) => create_and_put path T_DEV (s16 major) (s16 minor)
  | None => end_op ;; ret (-1)
  end.

Definition set_cwd (ip : nat) : FS unit :=
  modify (fun s => mkF (f_blk s) (f_icache s) (f_sb s) (f_pid s) ip).

Definition sys_chdir : K Z :=
  begin_op ;;
  let* path := path_of 0 in
  match path with
  | None => end_op ;; ret (-1)
  | Some path =>
      let* ip := fs (namei dev_read path name0) in
      match ip with
      | None => end_op ;; ret (-1)
      | Some ip =>
          fs (ilock (Some ip)) ;;
          let* i := fs (geti ip) in
          if negb (i_type i =? T_DIR) then fs (iunlockput ip) ;; end_op ;; ret (-1)
          else
            fs (iunlock (Some ip)) ;;
            let* cwd := fs (gets f_cwd) in
            fs (iput cwd) ;;
            end_op ;;
            fs (set_cwd ip) ;;
            ret 0
      end
  end.

(** [page] is what the page of a new pipe contains. *)
Definition sys_pipe (page : bytes) : K Z :=
  let* p := k_argptr 0 8 in
  match p with
  | None => ret (-1)
  | Some p =>
      let* r := pipealloc kend page in
      match r with
      | None => ret (-1)
      | Some (rf, wf) =>
          let* fd0 := fdalloc rf in
          let* fd1 := (if fd0 <? 0 then ret (-1) else fdalloc wf) in
          if fd1 <? 0 then
            (if 0 <=? fd0 then set_ofile_at fd0 None else ret tt) ;;
            fileclose kend rf ;;
            fileclose kend wf ;;
            ret (-1)
          else
            ustore p (le 4 fd0) ;;
            ustore (p + 4) (le 4 fd1) ;;
            ret 0
      end
  end.

Definition sys_symlink : K Z :=
  let* a := also (k_argstr 0) (k_argstr 1) in
  let* u := user in
  match a with
  | Some (target, path) =>
      if (DIRSIZ <? target.2) || (DIRSIZ <? path.2) then ret (-1)
      else
        begin_op ;;
        let* _ := create (ustring u path) T_SYMLINK 0 0
                    (umem_bytes u target.1 (Z.to_nat DIRSIZ)) in
        end_op ;;
        ret 0
  | None => ret (-1)
  end.

(** The loop of [sys_exec] from argument [i] on: the strings of [argv]. *)
Fixpoint exec_args (uargv : Z) (fuel : nat) (i : Z) : K (option (list bytes)) :=
  match fuel with
  | O => fault
  | Datatypes.S fuel' =>
      if MAXARG <=? i then ret None
      else
        let* u := user in
        let at_i := u32 (uargv + 4 * i) in
        match fetchint u at_i with
        | None => ret None
        | Some uarg =>
            touch at_i 4 ;;
            if u32 uarg =? 0 then ret (Some [])
            else
              match fetchstr u (u32 uarg) with
              | None => ret None
              | Some len =>
                  touch (u32 uarg) (Z.to_nat len + 1) ;;
                  let* rest := exec_args uargv fuel' (i + 1) in
                  ret (match rest with
                       | Some l => Some (umem_bytes u (u32 uarg) (Z.to_nat len) :: l)
                       | None => None
                       end)
              end
        end
  end.
End sysfile.
