(* ===== verification/Exec.v ===== *)
(** exec.c: replacing the image of a process, and vm.c [loaduvm].

    [exec] runs as the process of the state: on success it has changed the page
    table, the size and the saved stack pointer, and returns the entry point
    and the program's name; [None] is its result -1. *)
From S2P Require Import Prelude Layout CString Locks LogRep Fs Kalloc Vm Pipe Syscall File.

Definition ELF_MAGIC : Z := 1179403647.
Definition ELF_PROG_LOAD : Z := 1.

Record elfhdr := mkElfhdr { elf_magic : Z; elf_entry : Z; elf_phoff : Z; elf_phnum : Z }.
Definition sizeof_elfhdr : Z := 52.
Definition dec_elfhdr (b : bytes) : elfhdr :=
  mkElfhdr (get32 b 0) (get32 b 24) (get32 b 28) (get16 b 44).

Record proghdr := mkProghdr { ph_type : Z; ph_off : Z; ph_vaddr : Z; ph_filesz : Z; ph_memsz : Z }.
Definition sizeof_proghdr : Z := 32.
Definition dec_proghdr (b : bytes) : proghdr :=
  mkProghdr (get32 b 0) (get32 b 4) (get32 b 8) (get32 b 16) (get32 b 20).

(** The loop that finds the last element of the path. *)
Fixpoint path_last (last s : bytes) : bytes :=
  match s with
  | [] => last
  | c :: s' => path_last (if c =? 47 then s' else last) s'
  end.

Section exec.
Context {S : Type} `{!BlockIO S}.
Local Abbreviation FS := (M (fstate S)).
Local Abbreviation K := (M (kstate S)).
Context (dev_read : Z -> option (nat -> Z -> FS (Z * bytes))).
Context (kend kdata : Z).
Context (name0 : bytes).

Definition loaduvm (pgdir addr : Z) (ip : nat) (offset sz : Z) : K Z :=
  if negb (addr mod PGSIZE =? 0) then panic "loaduvm: addr must be page aligned"
  else
    while_loop (Z.to_nat (sz / PGSIZE) + 2) 0 (fun i =>
      if i <? sz then
        let* pte := vm (walkpgdir pgdir (u32 (addr + i)) false) in
        match pte with
        | None => panic "loaduvm: address should exist"
        | Some (p, k) =>
            let* x := vm (get_pte p k) in
            let pa := PTE_ADDR x in
            let n := if sz - i <? PGSIZE then sz - i else PGSIZE in
            let* r := fs (readi dev_read ip (u32 (offset + i)) n) in
            let* data := vm (page_at (P2V pa)) in
            vm (set_page (P2V pa) (splice data 0 r.2)) ;;
            if negb (r.1 =? n) then ret (inr (-1)) else ret (inl (u32 (i + PGSIZE)))
        end
      else ret (inr 0)).

(** A structure of the kernel stack that [readi] fills; [None] when it reads less.
    It is a fault if [readi] stores more than the structure holds, as it may for
    an extent file or a device.  The bytes are undefined where [readi] reports
    the size without storing them. *)
Definition read_struct (ip : nat) (off size : Z) : K (option bytes) :=
  let* r := fs (readi dev_read ip (u32 off) size) in
  if size <? Z.of_nat (length r.2) then fault
  else if negb (r.1 =? size) then ret None
  else if bool_decide (length r.2 = Z.to_nat size) then ret (Some (map u8 r.2)) else fault.

(** The program headers from [off] on; [None] for [goto bad]. *)
Fixpoint load_segments (ip : nat) (pgdir : Z) (n : nat) (off sz : Z) : K (option Z) :=
  match n with
  | O => ret (Some sz)
  | Datatypes.S n' =>
      let* b := read_struct ip off sizeof_proghdr in
      match b with
      | None => ret None
      | Some b =>
          let ph := dec_proghdr b in
          let next := off + sizeof_proghdr in
          if negb (ph_type ph =? ELF_PROG_LOAD) then load_segments ip pgdir n' next sz
          else if ph_memsz ph <? ph_filesz ph then ret None
          else if u32 (ph_vaddr ph + ph_memsz ph) <? ph_vaddr ph then ret None
          else
            let* sz := vm (allocuvm kend pgdir sz (u32 (ph_vaddr ph + ph_memsz ph))) in
            if sz =? 0 then ret None
            else if negb (ph_vaddr ph mod PGSIZE =? 0) then ret None
            else
              let* r := loaduvm pgdir (ph_vaddr ph) ip (ph_off ph) (ph_filesz ph) in
              if r <? 0 then ret None else load_segments ip pgdir n' next sz
      end
  end.

(** The argument strings from number [argc] on: the stack pointer and
    [ustack[3..]] so far. *)
Fixpoint push_args (pgdir argc sp : Z) (argv : list bytes) (ptrs : list Z) : K (option (Z * list Z)) :=
  match argv with
  | [] => ret (Some (sp, ptrs))
  | s :: argv' =>
      if MAXARG <=? argc then ret None
      else
        let sp := Z.land (u32 (sp - (Z.of_nat (length s) + 1))) (Z.lnot 3) in
        let* r := vm (copyout pgdir sp (s ++ [0])) in
        if r <? 0 then ret None else push_args pgdir (argc + 1) sp argv' (ptrs ++ [sp])
  end.

(** From the label [bad] on. *)
Definition exec_bad {A} (pgdir : Z) (ip : option nat) : K (option A) :=
  (if negb (pgdir =? 0) then vm (freevm kend pgdir) else ret tt) ;;
  (match ip with Some ip => fs (iunlockput ip) ;; end_op | None => ret tt end) ;;
  ret None.

(** The user stack: the new size and the stack pointer. *)
Definition exec_stack (pgdir sz : Z) (argv : list bytes) : K (option (Z * Z)) :=
  let sz := PGROUNDUP sz in
  let* sz := vm (allocuvm kend pgdir sz (u32 (sz + 2 * PGSIZE))) in
  if sz =? 0 then ret None
  else
    vm (clearpteu pgdir (u32 (sz - 2 * PGSIZE))) ;;
    let* r := push_args pgdir 0 sz argv [] in
    match r with
    | None => ret None
    | Some (sp, ptrs) =>
        let argc := Z.of_nat (length ptrs) in
        let ustack := [4294967295; argc; u32 (sp - (argc + 1) * 4)] ++ ptrs ++ [0] in
        let sp := u32 (sp - (3 + argc + 1) * 4) in
        let* r := vm (copyout pgdir sp (enc32s ustack)) in
        if r <? 0 then ret None else ret (Some (sz, sp))
    end.

Definition set_image (pgdir sz esp : Z) (s : kstate S) : kstate S :=
  mkK (k_fs s) (k_ftable s) (k_pipes s) (k_mem s) (k_ofile s) (k_killed s) pgdir sz esp.

Definition exec (path : bytes) (argv : list bytes) : K (option (Z * bytes)) :=
  begin_op ;;
  let* ip := fs (namei dev_read path name0) in
  match ip with
  | None => end_op ;; ret None
  | Some ip =>
      fs (ilock (Some ip)) ;;
      let* b := read_struct ip 0 sizeof_elfhdr in
      match b with
      | None => exec_bad 0 (Some ip)
      | Some b =>
          let elf := dec_elfhdr b in
          if negb (elf_magic elf =? ELF_MAGIC) then exec_bad 0 (Some ip)
          else
            let* pgdir := vm (setupkvm kend kdata) in
            if pgdir =? 0 then exec_bad 0 (Some ip)
            else
              let* sz := load_segments ip pgdir (Z.to_nat (elf_phnum elf)) (elf_phoff elf) 0 in
              match sz with
              | None => exec_bad pgdir (Some ip)
              | Some sz =>
                  fs (iunlockput ip) ;;
                  end_op ;;
                  let* r := exec_stack pgdir sz argv in
                  match r with
                  | None => exec_bad pgdir None
                  | Some (sz, sp) =>
                      let* oldpgdir := gets k_pgdir in
                      modify (set_image pgdir sz sp) ;;
                      vm (freevm kend oldpgdir) ;;
                      ret (Some (elf_entry elf, path_last path path))
                  end
              end
      end
  end.
End exec.
