(* ===== verification/ExecSpec.v ===== *)
(** exec.c: what a process has after [exec], and that it has lost nothing when
    [exec] fails. *)
From S2P Require Import Prelude Layout CString Locks LogRep Fs Kalloc Vm VmTab VmSpace VmCopy VmGrow VmWrite Pipe Syscall File Exec.

Section execspec.
Context {S : Type} `{!BlockIO S}.
Local Abbreviation FS := (M (fstate S)).
Local Abbreviation K := (M (kstate S)).
Context (dev_read : Z -> option (nat -> Z -> FS (Z * bytes))).
Context (kend kdata : Z).
Context (name0 : bytes).

(** A device gives at most the bytes it was asked for. *)
Definition dev_bounded : Prop := forall major read, dev_read major = Some read -> forall ip n f,
  0 <= n -> post (read ip n) f (fun r _ => Z.of_nat (length r.2) <= n).

(** * readi *)

Lemma post_readi_loop ip off n f :
  0 <= n -> post (readi_loop ip off n) f (fun dst _ => Z.of_nat (length dst) <= n).
Proof.
  intros Hn. unfold readi_loop.
  apply (post_while_loop (fun '(tot, _, dst) _ => 0 <= tot <= n /\ Z.of_nat (length dst) <= tot)); [cbn; lia|].
  intros [[tot off'] dst] s [Ht Hd]. destruct (Z.ltb_spec tot n); [|apply post_ret; lia].
  apply post_bind. intros i s1 _. apply post_bind. intros addr s2 _. apply post_bind. intros bp s3 _.
  apply post_bind. intros data s4 _. apply post_bind. intros [] s5 _. apply post_ret.
  assert (0 <= chunk n tot off' <= n - tot).
  { unfold chunk. pose proof (Z.mod_pos_bound off' BSIZE ltac:(unfold BSIZE; lia)). lia. }
  split; [lia|]. rewrite length_app. unfold slice. rewrite length_take. lia.
Qed.

Lemma post_readi ip off n f :
  dev_bounded -> 0 <= off < 2 ^ 32 -> 0 <= n < 2 ^ 31 ->
  post (readi dev_read ip off n) f (fun r _ => Z.of_nat (length r.2) <= Z.max 512 n).
Proof.
  intros Hdev Hoff Hn. unfold readi. apply post_bind. intros i s1 _. destruct (i_type i =? T_DEV).
  { destruct (_ || _); [apply post_ret; cbn; lia|]. destruct (dev_read (i_major i)) as [read|] eqn:E; [|apply post_ret; cbn; lia].
    rewrite s32_small by lia. eapply post_mono; [eapply Hdev; [exact E|lia]|]. cbn. intros. lia. }
  destruct (i_type i =? T_EXTENT).
  { unfold readi_extent. apply post_bind. intros j s2 _. destruct (_ <=? _); [apply post_ret; cbn; lia|].
    apply post_bind. eapply (post_for_loop (fun _ _ => True)); [done| |].
    - intros k s3 _ _. apply post_bind. intros e s4 _. destruct (_ <? _); [|by apply post_ret].
      apply post_bind. intros addr s5 _. apply post_bind. intros bp s6 _. apply post_bind. intros data s7 _.
      apply post_bind. intros i' s8 _. apply post_bind. intros [] s9 _. apply post_bind. intros [] s10 _. apply post_ret.
      apply post_ret. cbn. rewrite length_take. lia.
    - intros s3 _. apply post_ret. cbn. lia. }
  destruct (_ || _) eqn:E; [apply post_ret; cbn; lia|]. apply orb_false_elim in E as [E1 E2].
  apply Z.ltb_ge in E1, E2. apply post_bind. eapply post_mono.
  - apply post_readi_loop. destruct (_ <? _); lia.
  - intros dst s2 Hd. apply post_ret. cbn. destruct (Z.ltb_spec (i_size i) (u32 (off + n))); [|lia].
    pose proof (Z.mod_le (off + n) (2 ^ 32) ltac:(lia) ltac:(lia)) as Hle. unfold u32 in *. lia.
Qed.

(** * The state of the process while a new address space is built *)

(** Only the file system and the memory have changed. *)
Definition at_mem (k : kstate S) (m : vmem) (k' : kstate S) : Prop := exists f, k' = set_fs f (set_mem m k).

Lemma at_mem_mem k m k' : at_mem k m k' -> k_mem k' = m.
Proof. by intros [f ->]. Qed.

Lemma post_fs {A} (c : FS A) k m k1 (Q : A -> kstate S -> Prop) :
  at_mem k m k1 -> post c (k_fs k1) (fun a _ => forall k2, at_mem k m k2 -> Q a k2) -> post (fs c) k1 Q.
Proof. intros [f ->] H. apply post_zoom. eapply post_mono; [exact H|]. intros a f' HQ. apply HQ. by exists f'. Qed.

Lemma post_fs_any {A} (c : FS A) k m k1 (Q : A -> kstate S -> Prop) :
  at_mem k m k1 -> (forall a k2, at_mem k m k2 -> Q a k2) -> post (fs c) k1 Q.
Proof. intros Hk HQ. eapply post_fs; [exact Hk|]. intros a f _. auto. Qed.

Lemma post_vm {A} (c : M vmem A) k m k1 (Q : A -> kstate S -> Prop) :
  at_mem k m k1 -> post c m (fun a m' => forall k2, at_mem k m' k2 -> Q a k2) -> post (vm c) k1 Q.
Proof. intros [f ->] H. apply post_zoom. eapply post_mono; [exact H|]. intros a m' HQ. apply HQ. by exists f. Qed.

Context (kend_high : KERNBASE < kend).
Context (kdata_ok : KERNLINK < kdata < KERNBASE + PHYSTOP /\ kdata mod 4096 = 0).
Context (dev_ok : dev_bounded).
(** The memory before [exec]. *)
Context (s0 : vmem) (l0 : list Z) (Hv0 : vrep kend s0 l0).

(** A new address space [d] of [sz] bytes. *)
Record loading (d sz : Z) (m : vmem) : Prop := {
  lo_built : exists l, built kend s0 l0 d [] m l;
  lo_user : user_only m d;
  lo_sz : 0 <= sz < KERNBASE;
  lo_in : forall n, 0 <= n < pages sz -> exists p, ufr m d n = Some p /\ PTE_FLAGS (pten m d n) = 7;
  lo_out : forall n, upg n -> pages sz <= n -> ufr m d n = None
}.

Lemma loading_grown d sz m l sz' m' l' :
  loading d sz m -> built kend s0 l0 d [] m l -> built kend s0 l0 d [] m' l' ->
  grown d m (pages sz) (pages sz') m' -> 0 <= sz' < KERNBASE -> pages sz <= pages sz' -> loading d sz' m'.
Proof.
  intros [_ Hu Hsz Hin Hout] Hb Hb' [G1 G2 G3 G4] Hsz' Hle. unfold KERNBASE in *.
  destruct (pages_spec sz ltac:(lia)) as [? ?], (pages_spec sz' ltac:(lia)) as [? ?]. split; [by eexists| |done|..].
  - intros n Hn Hnu. rewrite G4 by done. by apply Hu.
  - intros n Hn. destruct (decide (n < pages sz)).
    + destruct (Hin n ltac:(lia)) as (p & E1 & E2). destruct (G1 n) as [E G]; [unfold upg; lia|done|].
      destruct (G p E1) as [-> _]. exists p. split; [congruence|done].
    + destruct (G2 n ltac:(lia)) as (p & E1 & _ & E2). by exists p.
  - done.
Qed.

Lemma post_allocuvm d sz newsz m :
  loading d sz m -> 0 <= newsz < 2 ^ 32 ->
  post (allocuvm kend d sz newsz) m (fun r m' => exists sz', loading d sz' m' /\ (r = 0 \/ r = sz' /\ newsz <= sz')).
Proof.
  intros Hl Hn. pose proof Hl as [[l Hb] Hu Hsz Hin Hout]. unfold KERNBASE in *.
  destruct (decide (2147483648 <= newsz)) as [Hbig|Hbig].
  { unfold allocuvm, KERNBASE. rewrite (proj2 (Z.leb_le _ _)) by lia. apply post_ret. exists sz. by split; [|left]. }
  destruct (decide (newsz < sz)) as [Hsm|Hsm].
  { unfold allocuvm, KERNBASE. rewrite (proj2 (Z.leb_gt _ _)), (proj2 (Z.ltb_lt _ _)) by lia.
    apply post_ret. exists sz. split; [done|]. right. lia. }
  apply wp_post. eapply wp_allocuvm; [done|exact Hv0|exact Hb|lia|unfold KERNBASE; lia|done|..].
  - intros m' l' Hb' Hg _. exists sz. split; [|by left]. eapply loading_grown; [done|exact Hb|exact Hb'|exact Hg|done|lia].
  - intros m' l' Hb' Hg. exists newsz. split; [|right; lia].
    eapply loading_grown; [done|exact Hb|exact Hb'|exact Hg|unfold KERNBASE; lia|]. apply Z.div_le_mono; lia.
Qed.

(** A write into one of its pages. *)
Lemma loading_write d sz m n p x :
  loading d sz m -> upg n -> ufr m d n = Some p -> length x = 4096%nat -> loading d sz (write_page m p x).
Proof.
  intros [[l Hb] Hu Hsz Hin Hout] Hn Ep Hx.
  destruct (built_write kend s0 l0 d [] m l p x Hv0 Hb ltac:(by exists n) Hx) as [Hb' Hpt].
  assert (Hf : forall n, upg n -> ufr (write_page m p x) d n = ufr m d n).
  { intros j Hj. unfold ufr. by rewrite Hpt by (unfold pg, upg in *; lia). }
  unfold KERNBASE in *. destruct (pages_spec sz ltac:(lia)) as [? ?].
  split; [by eexists| |done|..].
  - intros j Hj Hju. rewrite Hpt by done. by apply Hu.
  - intros j Hj. rewrite Hf, Hpt by (unfold pg, upg in *; lia). by apply Hin.
  - intros j Hj Hle. rewrite Hf by done. by apply Hout.
Qed.

(** * The segments of the program *)

Lemma loading_entry d sz m va :
  loading d sz m -> 0 <= va < sz -> exists l p t, vrep kend m l /\ ptwf m d /\ upg (va / 4096) /\
    ufr m d (va / 4096) = Some p /\ tab m d (va / 4096 / 1024) = Some t /\
    P2V (PTE_ADDR (pde m t ((va / 4096) mod 1024))) = p /\ exists x, v_page m !! p = Some x /\ length x = 4096%nat.
Proof.
  intros [[l Hb] _ Hsz Hin _] Hva. unfold KERNBASE in *. destruct (pages_spec sz ltac:(lia)) as [? ?].
  assert (Hn : 0 <= va / 4096 < pages sz) by (split; [apply Z.div_pos; lia|apply Z.div_lt_upper_bound; lia]).
  destruct (Hin _ Hn) as (p & Ep & _). assert (Hup : upg (va / 4096)) by (unfold upg; lia).
  destruct (as_frame _ _ (bu_as _ _ _ _ _ _ _ Hb) _ p Hup Ep) as ([x Hx] & _).
  pose proof (bu_rep _ _ _ _ _ _ _ Hb) as Hv. destruct (vr_used _ _ _ Hv p x Hx) as [_ Hlen].
  destruct (ufr_some _ _ _ _ Ep) as [HP Ea]. unfold pten in HP, Ea.
  destruct (tab m d (va / 4096 / 1024)) as [t|] eqn:Et; [|done].
  exists l, p, t. split_and!; try done; [apply Hb|]. by exists x.
Qed.

Lemma post_loaduvm k d szp m k1 addr ip off sz :
  at_mem k m k1 -> loading d szp m -> 0 <= addr -> 0 <= sz -> addr + sz <= szp ->
  post (loaduvm dev_read d addr ip off sz) k1 (fun _ k2 => exists m', at_mem k m' k2 /\ loading d szp m').
Proof.
  intros Hk1 Hl Ha Hsz Hle. pose proof (lo_sz _ _ _ Hl) as Hszp. unfold loaduvm, KERNBASE in *.
  destruct (Z.eqb_spec (addr mod PGSIZE) 0) as [Hal|]; [|apply post_panic]. cbn [negb].
  apply (post_while_loop (fun i k2 => 0 <= i /\ exists m', at_mem k m' k2 /\ loading d szp m')).
  { split; [lia|]. by exists m. }
  intros i k2 (Hi & m' & Hk2 & Hl'). destruct (Z.ltb_spec i sz); [|apply post_ret; by exists m'].
  rewrite (u32_small (addr + i)) by lia.
  destruct (loading_entry d szp m' (addr + i) Hl' ltac:(lia)) as (l & p & t & Hv & Hw & Hup & Ep & Et & Ea & x & Hx & Hlen).
  apply post_bind. eapply post_vm; [exact Hk2|]. apply wp_post. eapply wp_walkpgdir; [exact Hv|done|lia|].
  intros k3 Hk3. rewrite Et. apply post_bind. eapply post_vm; [exact Hk3|]. apply wp_post.
  assert (Hi2 : 0 <= (addr + i) / 4096 / 1024 < 1024) by (apply pg_div; unfold pg, upg in *; lia).
  eapply wp_get_pte; [exact Hv|by apply (pt_tab _ _ Hw); exists ((addr + i) / 4096 / 1024)|]. intros k4 Hk4.
  rewrite Ea. set (n := if sz - i <? PGSIZE then sz - i else PGSIZE).
  assert (Hn : 0 <= n <= 4096) by (unfold n, PGSIZE; destruct (Z.ltb_spec (sz - i) 4096); lia).
  apply post_bind. eapply post_fs; [exact Hk4|]. eapply post_mono; [apply post_readi; [done|apply u32_range|lia]|].
  cbv beta. intros r f Hr k5 Hk5. apply post_bind. eapply post_vm; [exact Hk5|].
  intros y m2 E2. unfold page_at in E2. rewrite Hx in E2. injection E2 as <- <-. intros k6 Hk6.
  apply post_bind. eapply post_vm; [exact Hk6|]. apply post_modify. intros k7 Hk7.
  assert (Hl7 : loading d szp (write_page m' p (splice x 0 r.2))).
  { eapply loading_write; [done|exact Hup|exact Ep|]. rewrite length_splice; lia. }
  destruct (negb _); apply post_ret; [|split; [apply u32_range|]]; eexists; (split; [exact Hk7|exact Hl7]).
Qed.

Lemma Forall_u8 l : Forall is_byte (map u8 l).
Proof. induction l; constructor; [|done]. unfold is_byte, u8. apply Z.mod_pos_bound. lia. Qed.

Lemma post_load_segments k d ip : forall n off sz m k1,
  at_mem k m k1 -> loading d sz m ->
  post (load_segments dev_read kend ip d n off sz) k1 (fun r k2 =>
    exists m' sz', at_mem k m' k2 /\ loading d sz' m' /\ (r = None \/ r = Some sz')).
Proof.
  induction n as [|n IH]; intros off sz m k1 Hk1 Hl; cbn [load_segments].
  { apply post_ret. exists m, sz. split_and!; try done. by right. }
  assert (Hbad : forall k2, at_mem k m k2 -> exists m' sz', at_mem k m' k2 /\ loading d sz' m' /\ (@None Z = None \/ None = Some sz')).
  { intros k2 Hk2. exists m, sz. split_and!; try done. by left. }
  unfold read_struct. apply post_bind, post_bind. eapply post_fs_any; [exact Hk1|]. intros r k2 Hk2.
  destruct (_ <? _); [apply post_fault|].
  destruct (negb _); [apply post_ret, post_ret; by apply Hbad|]. case_bool_decide as Hlen; [|apply post_fault].
  apply post_ret. set (ph := dec_proghdr (map u8 r.2)).
  assert (Hph : forall o, (o + 4 <= 32)%nat -> 0 <= get32 (map u8 r.2) o < 2 ^ 32).
  { intros o Ho. apply get32_range; [apply Forall_u8|]. rewrite length_map, Hlen. unfold sizeof_proghdr. lia. }
  assert (Hf : 0 <= ph_vaddr ph < 2 ^ 32 /\ 0 <= ph_filesz ph < 2 ^ 32 /\ 0 <= ph_memsz ph < 2 ^ 32).
  { split_and!; apply Hph; lia. }
  destruct (negb _); [by apply (IH _ _ m)|]. destruct (Z.ltb_spec (ph_memsz ph) (ph_filesz ph)); [apply post_ret; by apply Hbad|].
  destruct (Z.ltb_spec (u32 (ph_vaddr ph + ph_memsz ph)) (ph_vaddr ph)) as [|Hwrap]; [apply post_ret; by apply Hbad|].
  apply post_bind. eapply post_vm; [exact Hk2|]. eapply post_mono; [apply post_allocuvm; [exact Hl|apply u32_range]|].
  intros sz1 m1 (sz' & Hl1 & Hr) k3 Hk3.
  assert (Hbad' : forall k2 m2, at_mem k m2 k2 -> loading d sz' m2 -> exists m' sz', at_mem k m' k2 /\ loading d sz' m' /\
    (@None Z = None \/ None = Some sz')) by (intros ? m2 ??; exists m2, sz'; split_and!; try done; by left).
  destruct (Z.eqb_spec sz1 0); [apply post_ret; by eapply Hbad'|]. destruct Hr as [|[-> Hge]]; [done|].
  destruct (negb _); [apply post_ret; by eapply Hbad'|].
  assert (ph_vaddr ph + ph_filesz ph <= sz').
  { destruct (decide (ph_vaddr ph + ph_memsz ph < 2 ^ 32)); [rewrite u32_small in Hge by lia; lia|].
    exfalso. revert Hwrap. unfold u32. replace (ph_vaddr ph + ph_memsz ph) with (ph_vaddr ph + ph_memsz ph - 2 ^ 32 + 1 * 2 ^ 32) by lia.
    rewrite Z.mod_add, Z.mod_small; lia. }
  apply post_bind. eapply post_mono; [apply (post_loaduvm k d sz' m1); [done|done|lia|lia|lia]|].
  intros r' k4 (m4 & Hk4 & Hl4). destruct (r' <? 0); [apply post_ret; by eapply Hbad'|]. by apply (IH _ _ m4).
Qed.

(** * The user stack *)

(** The address space with its stack page and the guard page below it. *)
Record stacked (d sz : Z) (m : vmem) : Prop := {
  sk_built : exists l, built kend s0 l0 d [] m l;
  sk_user : user_only m d;
  sk_sz : 8192 <= sz < KERNBASE /\ sz mod 4096 = 0;
  sk_in : forall n, 0 <= n < sz / 4096 -> exists p, ufr m d n = Some p /\
    pte_has (pten m d n) PTE_U = negb (n =? sz / 4096 - 2);
  sk_out : forall n, upg n -> sz / 4096 <= n -> ufr m d n = None
}.

Lemma post_copyout_stacked d sz m va buf :
  stacked d sz m -> 0 <= va < 2 ^ 32 ->
  post (copyout d va buf) m (fun r m' => stacked d sz m' /\
    (r = -1 \/ r = 0 /\ stored d va buf m m' /\ (buf = [] \/ va + Z.of_nat (length buf) <= KERNBASE))).
Proof.
  intros [[l Hb] Hu [Hsz Hal] Hin Hout] Hva. eapply post_mono; [by eapply post_copyout|].
  intros r m' (l' & Hb' & Hp & Hr). split; [|done]. unfold KERNBASE in Hsz.
  assert (Hf : forall n, upg n -> ufr m' d n = ufr m d n).
  { intros j Hj. unfold ufr. by rewrite Hp by (unfold pg, upg in *; lia). }
  assert (Hs4 : sz / 4096 < 524288) by (apply Z.div_lt_upper_bound; lia).
  split; [by eexists| |done|..].
  - intros j Hj Hju. rewrite Hp by done. by apply Hu.
  - intros j Hj. rewrite Hf, Hp by (unfold pg, upg; lia). by apply Hin.
  - intros j Hj Hle. rewrite Hf by done. by apply Hout.
Qed.

(** The strings [argv] are at the addresses [ps], from [lo] on. *)
Definition strings (d : Z) (m : vmem) (lo : Z) (argv : list bytes) (ps : list Z) : Prop :=
  Forall2 (fun s p => lo <= p /\ p + Z.of_nat (length s) < KERNBASE /\
    forall j, (j <= length s)%nat -> umem m d (p + Z.of_nat j) = nth0 (s ++ [0]) j) argv ps.

Lemma strings_same d m m' lo lo' argv ps :
  strings d m lo argv ps -> lo' <= lo -> (forall a, lo <= a < KERNBASE -> umem m' d a = umem m d a) ->
  strings d m' lo' argv ps.
Proof.
  intros Hs Hlo Hm. eapply Forall2_impl; [exact Hs|]. cbv beta. intros s p (H1 & H2 & H3). split_and!; [lia|done|].
  intros j Hj. rewrite Hm by lia. by apply H3.
Qed.

Lemma clear_two a : Z.land a (Z.lnot 3) = 4 * (a / 4).
Proof.
  rewrite <- Z.ldiff_land. change 3 with (Z.ones 2). rewrite Z.ldiff_ones_r by lia.
  rewrite Z.shiftl_mul_pow2, Z.shiftr_div_pow2 by lia. change (2 ^ 2) with 4. lia.
Qed.

(** A string pushed below [sp] does not wrap around. *)
Lemma pushed_below sp n sp1 :
  0 <= sp < KERNBASE -> 0 < n -> sp1 = Z.land (u32 (sp - n)) (Z.lnot 3) -> sp1 + n <= KERNBASE -> 0 <= sp1 /\ sp1 + n <= sp.
Proof.
  unfold KERNBASE. intros Hsp Hn -> Hle. rewrite clear_two in *. pose proof (u32_range (sp - n)).
  assert (E : u32 (sp - n) = sp - n \/ u32 (sp - n) = sp - n + 2 ^ 32).
  { destruct (decide (0 <= sp - n)); [left; apply u32_small; lia|right]. unfold u32.
    rewrite <- (Z.mod_add _ 1), Z.mod_small; [lia| |lia]. pose proof (Z.div_mod (u32 (sp - n)) 4).
    pose proof (Z.mod_pos_bound (u32 (sp - n)) 4). lia. }
  pose proof (Z.div_mod (u32 (sp - n)) 4). pose proof (Z.mod_pos_bound (u32 (sp - n)) 4). lia.
Qed.

Lemma post_push_args k d sz : forall argv argc sp ptrs m k1,
  at_mem k m k1 -> stacked d sz m -> 0 <= sp < KERNBASE ->
  post (push_args d argc sp argv ptrs) k1 (fun r k2 => exists m', at_mem k m' k2 /\ stacked d sz m' /\
    forall sp' ptrs', r = Some (sp', ptrs') -> 0 <= sp' <= sp /\
      (forall a, sp <= a < KERNBASE -> umem m' d a = umem m d a) /\
      exists ps, ptrs' = ptrs ++ ps /\ strings d m' sp' argv ps).
Proof.
  induction argv as [|s argv IH]; intros argc sp ptrs m k1 Hk1 Hst Hsp; cbn [push_args].
  { apply post_ret. exists m. split_and!; try done. intros sp' ptrs' [= <- <-]. split_and!; try done; try lia.
    exists []. rewrite app_nil_r. split_and!; [done|constructor]. }
  destruct (_ <=? _); [apply post_ret; by exists m|]. set (sp1 := Z.land _ _).
  pose proof (u32_range (sp - (Z.of_nat (length s) + 1))) as Hru.
  assert (H1 : 0 <= sp1 < 2 ^ 32).
  { unfold sp1. rewrite clear_two. pose proof (Z.div_mod (u32 (sp - (Z.of_nat (length s) + 1))) 4).
    pose proof (Z.mod_pos_bound (u32 (sp - (Z.of_nat (length s) + 1))) 4). lia. }
  apply post_bind. eapply post_vm; [exact Hk1|]. eapply post_mono; [by eapply post_copyout_stacked|].
  intros r m1 [Hst1 Hr] k2 Hk2. destruct (Z.ltb_spec r 0) as [|Hr0]; [apply post_ret; by exists m1|].
  destruct Hr as [->|(-> & Hsto & Hbd)]; [lia|]. rewrite length_app in Hbd. cbn [length] in Hbd.
  destruct Hbd as [E|Hbd]; [by destruct s|].
  destruct (pushed_below sp (Z.of_nat (length s) + 1) sp1) as [_ Hlow]; [done|lia|done|lia|].
  eapply post_mono; [apply (IH _ sp1 _ m1); [done|done|lia]|].
  intros r k3 (m3 & Hk3 & Hst3 & HS). exists m3. split_and!; try done. intros sp' ptrs' Er.
  destruct (HS sp' ptrs' Er) as (Hsp' & Hm & ps & -> & Hss). split_and!; [lia..| |].
  - intros a Ha. rewrite Hm by lia. rewrite (Hsto a) by lia. rewrite length_app. cbn [length]. by rewrite decide_False by lia.
  - exists (sp1 :: ps). rewrite <- app_assoc. split; [done|]. constructor; [|done]. split_and!; [lia|lia|].
    intros j Hj. rewrite Hm, (Hsto (sp1 + Z.of_nat j)) by lia. rewrite length_app. cbn [length].
    rewrite decide_True by lia. f_equal. lia.
Qed.

(** What [main] finds on its stack: a return address, [argc], [argv], and the
    pointers to the arguments. *)
Definition stack_args (d : Z) (m : vmem) (sp : Z) (argv : list bytes) : Prop :=
  exists ps, let w := [4294967295; Z.of_nat (length argv); sp + 12] ++ ps ++ [0] in
    strings d m sp argv ps /\ 0 <= sp /\ sp + 4 * Z.of_nat (length w) <= KERNBASE /\
    forall j, (j < 4 * length w)%nat -> umem m d (sp + Z.of_nat j) = nth0 (enc32s w) j.

Lemma post_ustack d sz m sp argv ps :
  stacked d sz m -> 0 <= sp < KERNBASE -> strings d m sp argv ps ->
  let argc := Z.of_nat (length ps) in
  let sp' := u32 (sp - (3 + argc + 1) * 4) in
  post (copyout d sp' (enc32s ([4294967295; argc; u32 (sp - (argc + 1) * 4)] ++ ps ++ [0]))) m (fun r m' =>
    stacked d sz m' /\ (r = -1 \/ r = 0 /\ stack_args d m' sp' argv)).
Proof.
  intros Hst Hsp Hss argc sp'. pose proof (Forall2_length _ _ _ Hss) as Hlen. unfold KERNBASE in *.
  eapply post_mono; [apply post_copyout_stacked; [exact Hst|apply u32_range]|]. cbv beta. fold sp'.
  intros r m' [Hst' [->|(-> & Hsto & Hbd)]]; (split; [done|]); [by left|right; split; [done|]].
  rewrite length_enc32s in Hbd. set (w0 := [4294967295; argc; u32 (sp - (argc + 1) * 4)] ++ ps ++ [0]) in *.
  assert (Hw0 : Z.of_nat (length w0) = argc + 4) by (unfold w0; rewrite !length_app; cbn [length]; lia).
  destruct Hbd as [E|Hbd]; [apply (f_equal length) in E; rewrite length_enc32s in E; cbn [length] in E; lia|].
  unfold KERNBASE in Hbd. assert (Hsp' : 0 <= sp' /\ sp' = sp - 4 * (argc + 4)).
  { pose proof (u32_range (sp - (3 + argc + 1) * 4)) as Hr. fold sp' in Hr.
    destruct (decide (0 <= sp - (3 + argc + 1) * 4)); [unfold sp' in *; rewrite u32_small in *; lia|exfalso].
    assert (sp' = sp - (3 + argc + 1) * 4 + 2 ^ 32); [|lia]. unfold sp', u32.
    rewrite <- (Z.mod_add _ 1), Z.mod_small; lia. }
  assert (Ew : w0 = [4294967295; Z.of_nat (length argv); sp' + 12] ++ ps ++ [0]).
  { unfold w0, argc. rewrite u32_small by lia. rewrite Hlen. do 4 f_equal. unfold argc in Hsp'. lia. }
  exists ps. cbv zeta. rewrite <- Ew. split_and!; [|lia|unfold KERNBASE; lia|].
  - eapply strings_same; [exact Hss|lia|]. intros a Ha. rewrite (Hsto a) by (unfold KERNBASE in *; lia).
    by rewrite length_enc32s, decide_False by lia.
  - intros j Hj. rewrite (Hsto (sp' + Z.of_nat j)) by (unfold KERNBASE; lia). rewrite length_enc32s, decide_True by lia.
    f_equal. lia.
Qed.

Lemma stacked_grown d sz m l hi m' l' va m2 :
  loading d sz m -> sz mod 4096 = 0 -> sz + 8192 < KERNBASE -> built kend s0 l0 d [] m l -> built kend s0 l0 d [] m' l' ->
  hi = sz / 4096 + 2 -> grown d m (pages sz) hi m' -> va = sz ->
  built kend s0 l0 d [] m2 l' -> (forall n, upg n -> ufr m2 d n = ufr m' d n) ->
  (forall n, pg n -> n <> va / 4096 -> pten m2 d n = pten m' d n) -> pte_has (pten m2 d (va / 4096)) PTE_U = false ->
  stacked d (sz + 8192) m2.
Proof.
  intros Hl Hal Hsz Hb Hb' -> Hg -> Hb2 Hu2 Hp2 HU. pose proof (lo_sz _ _ _ Hl) as Hsz0. unfold KERNBASE in *.
  pose proof (Z.div_mod sz 4096) as Hdm. rewrite Hal in Hdm.
  assert (Ep : pages sz = sz / 4096) by (unfold pages; symmetry; apply Z.div_unique with 4095; lia).
  assert (Es : (sz + 8192) / 4096 = sz / 4096 + 2) by (symmetry; apply Z.div_unique with 0; lia).
  assert (Hpg : pages (sz + 8192) = sz / 4096 + 2) by (unfold pages; symmetry; apply Z.div_unique with 4095; lia).
  rewrite <- Hpg in Hg. pose proof (loading_grown d sz m l (sz + 8192) m' l' Hl Hb Hb' Hg) as Hl'.
  destruct Hl' as [_ U1 _ U2 U3]; [unfold KERNBASE; lia|lia|]. rewrite Hpg in U2, U3.
  split; [by eexists| |unfold KERNBASE; split; [lia|]|..].
  - intros n Hn Hnu. rewrite Hp2; [by apply U1|done|]. unfold upg in *. lia.
  - rewrite <- (Z.mod_add sz 2 4096) in Hal by lia. done.
  - intros n Hn. rewrite Es in *. destruct (U2 n ltac:(lia)) as (p & E1 & E2). exists p.
    rewrite Hu2 by (unfold upg; lia). split; [done|]. destruct (Z.eqb_spec n (sz / 4096 + 2 - 2)) as [->|Hne].
    + by replace (sz / 4096 + 2 - 2) with (sz / 4096) by lia.
    + rewrite Hp2 by (unfold pg; lia). rewrite pte_has_U. unfold PTE_FLAGS in E2.
      apply (f_equal (fun e => Z.testbit e 2)) in E2. rewrite Z.land_spec in E2. rewrite andb_true_r in E2. exact E2.
  - intros n Hn Hle. rewrite Hu2 by done. apply U3; [done|lia].
Qed.

(** The user's bytes depend on the frames and what they contain. *)
Lemma same_frames d m l m' l' :
  vrep kend m l -> ptwf m d -> vrep kend m' l' -> ptwf m' d -> (forall n, upg n -> ufr m' d n = ufr m d n) ->
  (forall q, isframe m d q -> v_page m' !! q = v_page m !! q) ->
  forall va, 0 <= va < KERNBASE -> umem m' d va = umem m d va.
Proof.
  intros Hv Hw Hv' Hw' Hf Hq va Hva. unfold KERNBASE in Hva.
  assert (Hn : upg (va / 4096)) by (split; [apply Z.div_pos; lia|apply Z.div_lt_upper_bound; lia]).
  unfold umem. rewrite (upage_ufr kend m l), (upage_ufr kend m' l'), Hf by (done || lia).
  destruct (ufr m d (va / 4096)) as [p|] eqn:E; [|done]. rewrite Hq; [done|]. by exists (va / 4096).
Qed.

(** The two pages of the stack, the lower one without access for the user. *)
Lemma wp_stack_pages d sz m :
  loading d sz m -> sz mod 4096 = 0 -> sz + 8192 < KERNBASE ->
  wp (allocuvm kend d sz (sz + 8192)) m (fun r m' =>
    (r = 0 /\ Z.of_nat (length l0) <= 1025 + pages (sz + 8192) /\ exists l', built kend s0 l0 d [] m' l') \/
    (r = sz + 8192 /\ wp (clearpteu d sz) m' (fun _ m2 =>
       stacked d (sz + 8192) m2 /\ forall va, 0 <= va < sz -> umem m2 d va = umem m d va))).
Proof.
  intros Hl Hal Hk. pose proof Hl as [[l Hb] Hu Hsz Hin Hout]. unfold KERNBASE in *.
  assert (Ep : pages sz = sz / 4096).
  { pose proof (Z.div_mod sz 4096). unfold pages. symmetry. apply Z.div_unique with 4095; lia. }
  assert (Epn : pages (sz + 8192) = sz / 4096 + 2).
  { pose proof (Z.div_mod sz 4096). unfold pages. symmetry. apply Z.div_unique with 4095; lia. }
  eapply wp_allocuvm; [done|exact Hv0|exact Hb|lia|unfold KERNBASE; lia|done|..].
  { intros m' l' Hb' _ Hlen. left. split_and!; [done|done|by exists l']. }
  intros m' l' Hb' Hg. right. split; [done|]. rewrite Epn in Hg.
  destruct (gr_new _ _ _ _ _ Hg (sz / 4096)) as (p & Ef & _ & Efl); [rewrite Ep; lia|].
  eapply wp_clearpteu; [exact Hv0|exact Hb'|unfold KERNBASE; lia|exact Ef|exact Efl|].
  intros m2 Hb2 Hu2 Hp2 HU Hq. split.
  - eapply (stacked_grown d sz m l (sz / 4096 + 2) m' l' sz m2); [done|done|unfold KERNBASE; lia|exact Hb|exact Hb'|done|exact Hg|done..].
  - intros va Hva. rewrite (same_frames d m' l' m2 l') by (apply Hb' || apply Hb2 || done || (unfold KERNBASE; lia)).
    pose proof (Z.div_mod sz 4096). eapply (grown_below kend m l m' l'); [apply Hb|apply Hb|apply Hb'|apply Hb'|exact Hg|lia|lia].
Qed.

Lemma PGROUNDUP_loading d sz m :
  loading d sz m -> exists sz1, PGROUNDUP sz = sz1 /\ sz1 mod 4096 = 0 /\ sz <= sz1 < sz + 4096 /\ pages sz1 = pages sz /\
    (sz1 < KERNBASE -> loading d sz1 m).
Proof.
  intros Hl. pose proof Hl as [[l Hb] Hu Hsz Hin Hout]. unfold KERNBASE in *.
  destruct (pages_spec sz ltac:(lia)) as [Hp0 Hp]. exists (4096 * pages sz). rewrite PGROUNDUP_div by lia. fold (pages sz).
  assert (Ep : pages (4096 * pages sz) = pages sz) by (unfold pages at 1; symmetry; apply Z.div_unique with 4095; lia).
  split_and!; try done; try lia; [rewrite Z.mul_comm; apply Z.mod_mul; lia|].
  intros Hk. split; rewrite ?Ep; try done; [by exists l|unfold KERNBASE; lia].
Qed.

Lemma post_exec_stack k d sz m k1 argv :
  at_mem k m k1 -> loading d sz m ->
  post (exec_stack kend d sz argv) k1 (fun r k2 => exists m' l', at_mem k m' k2 /\ built kend s0 l0 d [] m' l' /\
    forall sz' sp, r = Some (sz', sp) -> stacked d sz' m' /\ stack_args d m' sp argv).
Proof.
  intros Hk1 Hl. destruct (PGROUNDUP_loading _ _ _ Hl) as (sz1 & E1 & Hal & Hle & _ & Hl1).
  pose proof (lo_sz _ _ _ Hl) as Hsz. destruct (lo_built _ _ _ Hl) as [l Hb]. unfold exec_stack, PGSIZE, KERNBASE in *.
  rewrite E1. change (2 * 4096) with 8192. rewrite u32_small by lia. apply post_bind. eapply post_vm; [exact Hk1|].
  destruct (decide (2147483648 <= sz1 + 8192)) as [Hbig|Hbig].
  { unfold allocuvm, KERNBASE. rewrite (proj2 (Z.leb_le _ _)) by lia. apply post_ret. intros k2 Hk2. rewrite Z.eqb_refl.
    apply post_ret. by exists m, l. }
  eapply post_mono; [apply wp_post, (wp_stack_pages d sz1 m); [apply Hl1; lia|done|unfold KERNBASE; lia]|].
  intros r m' [(-> & _ & l' & Hb')|[-> Hclear]] k2 Hk2.
  { rewrite Z.eqb_refl. apply post_ret. by exists m', l'. }
  rewrite (proj2 (Z.eqb_neq _ _)) by lia. replace (sz1 + 8192 - 8192) with sz1 by lia. rewrite u32_small by lia.
  apply post_bind. eapply post_vm; [exact Hk2|]. eapply post_mono; [apply wp_post, Hclear|]. intros [] m2 [Hst _] k3 Hk3.
  apply post_bind.
  eapply post_mono; [apply (post_push_args k d (sz1 + 8192)); [exact Hk3|exact Hst|unfold KERNBASE; lia]|].
  intros [[sp ptrs]|] k4 (m4 & Hk4 & Hst4 & HS).
  2: { apply post_ret. destruct (sk_built _ _ _ Hst4) as [l4 Hb4]. by exists m4, l4. }
  destruct (HS sp ptrs eq_refl) as (Hsp & _ & ps & -> & Hss). cbn [app]. apply post_bind.
  eapply post_vm; [exact Hk4|]. eapply post_mono; [apply (post_ustack d (sz1 + 8192) m4 sp argv ps); try done; unfold KERNBASE; lia|].
  intros r m5 [Hst5 Hr] k5 Hk5. destruct (sk_built _ _ _ Hst5) as [l5 Hb5].
  destruct (Z.ltb_spec r 0); apply post_ret; exists m5, l5; split_and!; try done.
  intros sz' sp' [= <- <-]. destruct Hr as [->|[-> Hr]]; [lia|done].
Qed.

(** * exec *)

(** The bytes of an address space only depend on its pages. *)
Lemma same_view d m l m' l' va :
  vrep kend m l -> aspace m d -> vrep kend m' l' -> (forall p, owned m d p -> v_page m' !! p = v_page m !! p) ->
  0 <= va < KERNBASE -> upage m' d va = upage m d va /\ umem m' d va = umem m d va.
Proof.
  intros Hv Ha Hv' Hs Hva. unfold KERNBASE in *. destruct (same_space m m' d Ha Hs) as (Ha' & _ & Hp & _).
  destruct (same_user_pages d m m' Ha Hs) as [Hsu _].
  assert (Hn : upg (va / 4096)) by (unfold upg; split; [apply Z.div_pos; lia|apply Z.div_lt_upper_bound; lia]).
  destruct (Hsu _ Hn) as [E G]; [tauto|].
  assert (Eu : upage m' d va = upage m d va).
  { rewrite (upage_ufr kend m l), (upage_ufr kend m' l'), E by (done || apply Ha || apply Ha' || lia).
    destruct (ufr m d (va / 4096)) as [p|]; [|done]. by destruct (G p eq_refl) as [-> _]. }
  split; [done|]. unfold umem. rewrite Eu, (upage_ufr kend m l) by (done || apply Ha || lia).
  destruct (ufr m d (va / 4096)) as [p|]; [|done]. by destruct (G p eq_refl) as [_ ->].
Qed.

(** The image of a program that has just been loaded: [sz] bytes, of which the
    user can access all but the guard page, and the arguments on the stack. *)
Record exec_image (m : vmem) (d sz sp : Z) (argv : list bytes) : Prop := {
  ei_space : aspace m d;
  ei_size : 8192 <= sz < KERNBASE /\ sz mod 4096 = 0;
  ei_in : forall va, 0 <= va < sz -> exists e p, upage m d va = Some (e, p) /\
    pte_has e PTE_U = negb (bool_decide (sz - 8192 <= va < sz - 4096));
  ei_out : forall va, sz <= va < KERNBASE -> upage m d va = None;
  ei_args : stack_args d m sp argv
}.

Lemma image_of_stacked d sz sp argv m l m' l' :
  stacked d sz m -> stack_args d m sp argv -> built kend s0 l0 d [] m l -> vrep kend m' l' ->
  (forall p, owned m d p -> v_page m' !! p = v_page m !! p) -> exec_image m' d sz sp argv.
Proof.
  intros [_ _ [Hsz Hal] Hin Hout] (ps & Hss & Hsp & Hend & Hw) Hb Hv' Hs. pose proof Hb as [B1 B2 _ _ _ _].
  assert (Hview : forall va, 0 <= va < KERNBASE -> upage m' d va = upage m d va /\ umem m' d va = umem m d va)
    by (intros; by eapply same_view).
  unfold KERNBASE in *. pose proof (Z.div_mod sz 4096) as Hdm. rewrite Hal in Hdm.
  assert (Hup : forall va, 0 <= va < 2147483648 -> upage m' d va =
    match ufr m d (va / 4096) with Some p => Some (pten m d (va / 4096), p) | None => None end).
  { intros va Hva. rewrite (proj1 (Hview va Hva)). apply (upage_ufr kend m l); [done|apply B2|lia]. }
  split; [by destruct (same_space m m' d B2 Hs)|done|..].
  - intros va Hva. pose proof (Z.div_mod va 4096). pose proof (Z.mod_pos_bound va 4096).
    destruct (Hin (va / 4096)) as (p & E1 & E2); [split; [apply Z.div_pos; lia|apply Z.div_lt_upper_bound; lia]|].
    exists (pten m d (va / 4096)), p. rewrite Hup, E1, E2 by lia. split; [done|]. f_equal.
    destruct (Z.eqb_spec (va / 4096) (sz / 4096 - 2)); symmetry; [apply bool_decide_eq_true_2|apply bool_decide_eq_false_2]; lia.
  - unfold KERNBASE. intros va Hva. rewrite Hup by lia. rewrite Hout; [done| |apply Z.div_le_mono; lia].
    unfold upg. split; [apply Z.div_pos; lia|apply Z.div_lt_upper_bound; lia].
  - exists ps. split_and!; try done.
    + eapply strings_same; [exact Hss|lia|]. intros a Ha. apply Hview. unfold KERNBASE in *. lia.
    + intros j Hj. rewrite (proj2 (Hview (sp + Z.of_nat j) ltac:(lia))). by apply Hw.
Qed.

Lemma post_exec_bad {A} k d ip k1 m l :
  at_mem k m k1 -> (d = 0 /\ restored kend s0 l0 m l \/ d <> 0 /\ built kend s0 l0 d [] m l) ->
  post (@exec_bad S _ kend A d ip) k1 (fun r k2 => r = None /\ exists m' l', at_mem k m' k2 /\ restored kend s0 l0 m' l').
Proof.
  intros Hk1 Hd. unfold exec_bad. apply post_bind.
  assert (Hm : post (if negb (d =? 0) then vm (freevm kend d) else ret tt) k1
    (fun _ k2 => exists m' l', at_mem k m' k2 /\ restored kend s0 l0 m' l')).
  { destruct Hd as [[-> Hr]|[Hd Hb]].
    - apply post_ret. by exists m, l.
    - rewrite (proj2 (Z.eqb_neq _ _)) by done. cbn [negb]. eapply post_vm; [exact Hk1|]. apply wp_post.
      eapply (wp_freevm_built kend s0 l0); [done|done|exact Hb|]. intros m' l' Hr k2 Hk2. by exists m', l'. }
  eapply post_mono; [exact Hm|]. intros _ k2 (m' & l' & Hk2 & Hr). apply post_bind.
  assert (Hr' : forall k3, at_mem k m' k3 ->
    post (ret (@None A)) k3 (fun r k2 => r = None /\ exists m' l', at_mem k m' k2 /\ restored kend s0 l0 m' l')).
  { intros k3 Hk3. apply post_ret. split; [done|]. by exists m', l'. }
  destruct ip as [ip|]; [|apply post_ret; by apply Hr'].
  apply post_bind. eapply post_fs_any; [exact Hk2|]. intros _ k3 Hk3. eapply post_fs_any; [exact Hk3|]. intros _ k4 Hk4. by apply Hr'.
Qed.

(** The old address space goes, the new one stays. *)
Lemma wp_free_old old d sz sp argv m l (Q : unit -> vmem -> Prop) :
  aspace s0 old -> stacked d sz m -> stack_args d m sp argv -> built kend s0 l0 d [] m l ->
  (forall m' l', exec_image m' d sz sp argv -> vrep kend m' l' ->
     (forall p, p ∈ l' \/ owned m' d p <-> p ∈ l0 \/ owned s0 old p) ->
     (forall p x, v_page s0 !! p = Some x -> ~ owned s0 old p -> v_page m' !! p = Some x) ->
     (forall va, 0 <= va < KERNBASE -> umem m' d va = umem m d va) -> Q tt m') ->
  wp (freevm kend old) m Q.
Proof.
  intros Ha Hst Hargs Hb HQ. pose proof Hb as [B1 B2 B3 B4 B5 B6].
  assert (Hk : forall p, owned s0 old p -> v_page m !! p = v_page s0 !! p).
  { intros p Hp. destruct (owned_some _ _ _ Ha Hp) as [x Hx]. rewrite Hx. by apply B3. }
  destruct (same_space s0 m old Ha Hk) as (Ha' & Ho & _). eapply wp_freevm; [done|exact B1|exact Ha'|].
  intros m' l' Hv' Hf _ Hn.
  assert (Hdis : forall p, owned m d p -> ~ owned m old p).
  { intros p Hp Hp'. apply Ho in Hp'. destruct (owned_some _ _ _ Ha Hp') as [x Hx].
    by destruct (built_fresh _ _ _ _ _ _ _ _ _ Hv0 Hb Hx) as [? _]. }
  assert (Hs : forall p, owned m d p -> v_page m' !! p = v_page m !! p) by (intros; apply Hn; auto).
  destruct (same_space m m' d B2 Hs) as (_ & Ho' & _). apply (HQ m' l').
  - by eapply image_of_stacked.
  - done.
  - intros p. rewrite Hf, Ho', B4, Ho. assert (p ∉ ([] : list Z)) by apply not_elem_of_nil. tauto.
  - intros p x Hx Hno. rewrite Hn by (by rewrite Ho). by apply B3.
  - intros va Hva. by apply (same_view d m l m' l').
Qed.

(** What [exec] leaves behind. *)
Definition exec_post (k : kstate S) (argv : list bytes) (r : option (Z * bytes)) (k' : kstate S) : Prop :=
  k_ftable k' = k_ftable k /\ k_pipes k' = k_pipes k /\ k_ofile k' = k_ofile k /\ k_killed k' = k_killed k /\
  match r with
  | None =>
      k_pgdir k' = k_pgdir k /\ k_sz k' = k_sz k /\ k_esp k' = k_esp k /\
      exists l', restored kend s0 l0 (k_mem k') l'
  | Some _ =>
      exec_image (k_mem k') (k_pgdir k') (k_sz k') (k_esp k') argv /\
      exists l', vrep kend (k_mem k') l' /\
        (forall p, p ∈ l' \/ owned (k_mem k') (k_pgdir k') p <-> p ∈ l0 \/ owned s0 (k_pgdir k) p) /\
        (forall p x, v_page s0 !! p = Some x -> ~ owned s0 (k_pgdir k) p -> v_page (k_mem k') !! p = Some x)
  end.

Lemma exec_post_bad {A} k argv d ip k1 m l :
  at_mem k m k1 -> (d = 0 /\ restored kend s0 l0 m l \/ d <> 0 /\ built kend s0 l0 d [] m l) ->
  post (@exec_bad S _ kend A d ip) k1 (fun r k2 => r = None /\ exec_post k argv None k2).
Proof.
  intros Hk1 Hd. eapply post_mono; [by eapply post_exec_bad|]. intros r k2 [-> (m' & l' & [f ->] & Hr)].
  split; [done|]. repeat (split; [done|]). by exists l'.
Qed.

Lemma post_exec k path argv :
  k_mem k = s0 -> aspace s0 (k_pgdir k) -> post (exec dev_read kend kdata name0 path argv) k (exec_post k argv).
Proof.
  intros Hs0 Ha. assert (Hk : at_mem k s0 k) by (exists (k_fs k); destruct k; by cbn in Hs0; subst).
  unfold exec. apply post_bind. eapply post_fs_any; [exact Hk|]. intros _ k1 Hk1.
  apply post_bind. eapply post_fs_any; [exact Hk1|]. intros [ip|] k2 Hk2.
  2: { apply post_bind. eapply post_fs_any; [exact Hk2|]. intros _ k3 [f ->]. apply post_ret.
       repeat (split; [done|]). exists l0. by split. }
  apply post_bind. eapply post_fs_any; [exact Hk2|]. intros _ k3 Hk3.
  assert (Hbad : forall d k1 m l, at_mem k m k1 -> (d = 0 /\ restored kend s0 l0 m l \/ d <> 0 /\ built kend s0 l0 d [] m l) ->
    forall ip, post (exec_bad kend d ip) k1 (exec_post k argv)).
  { intros d k' m l Hk' Hd ip'. eapply post_mono; [by eapply (exec_post_bad k argv)|]. by intros r k'' [-> ?]. }
  assert (Hr0 : restored kend s0 l0 s0 l0) by (by split).
  unfold read_struct. apply post_bind, post_bind. eapply post_fs_any; [exact Hk3|]. intros r k4 Hk4.
  destruct (_ <? _); [apply post_fault|].
  destruct (negb _); [apply post_ret; apply (Hbad 0 k4 s0 l0); [done|by left]|].
  case_bool_decide; [|apply post_fault]. apply post_ret.
  destruct (negb _); [apply (Hbad 0 k4 s0 l0); [done|by left]|].
  apply post_bind. eapply post_vm; [exact Hk4|]. apply wp_post. eapply wp_setupkvm; [done|done|exact Hv0|..].
  { intros m l Hr _ k5 Hk5. rewrite Z.eqb_refl. apply (Hbad 0 k5 m l); [done|by left]. }
  intros d m l Hd Hb [Hz HU] k5 Hk5. rewrite (proj2 (Z.eqb_neq _ _)) by done.
  assert (Hl0 : loading d 0 m).
  { split; [by exists l|intros n Hn _; by apply HU|unfold KERNBASE; lia|..]; change (pages 0) with 0; [lia|].
    intros n Hn _. unfold ufr. by rewrite Hz. }
  apply post_bind. eapply post_mono; [by apply (post_load_segments k d ip _ _ 0 m)|].
  intros sz k6 (m6 & sz' & Hk6 & Hl6 & Hsz). destruct (lo_built _ _ _ Hl6) as [l6 Hb6].
  destruct sz as [sz|]; [|apply (Hbad d k6 m6 l6); [done|by right]].
  destruct Hsz as [|[= ->]]; [done|]. apply post_bind. eapply post_fs_any; [exact Hk6|]. intros _ k7 Hk7.
  apply post_bind. eapply post_fs_any; [exact Hk7|]. intros _ k8 Hk8.
  apply post_bind. eapply post_mono; [by apply (post_exec_stack k d sz' m6)|].
  intros r9 k9 (m9 & l9 & Hk9 & Hb9 & HS). destruct r9 as [[sz9 sp]|]; [|apply (Hbad d k9 m9 l9); [done|by right]].
  destruct (HS sz9 sp eq_refl) as [Hst Hargs]. destruct Hk9 as [f ->].
  apply post_bind, post_gets. apply post_bind, post_modify. apply post_bind. apply post_zoom, wp_post.
  eapply wp_free_old; [exact Ha|exact Hst|exact Hargs|exact Hb9|]. intros m' l' Hei Hv' Hcons Hkeep _. apply post_ret.
  repeat (split; [done|]). by exists l'.
Qed.

(** * When [exec] returns *)

Lemma uva2ka_page d s l va p :
  vrep kend s l -> ptwf s d -> 0 <= va < KERNBASE -> ufr s d (va / 4096) = Some p ->
  pte_has (pten s d (va / 4096)) PTE_U = true -> uva2ka d (PGROUNDDOWN va) s = Ok p s.
Proof.
  intros Hv Hw Hva Ep HU. unfold KERNBASE in Hva. rewrite PGROUNDDOWN_div.
  assert (Hdm : 0 <= 4096 * (va / 4096) <= va) by (pose proof (Z.mul_div_le va 4096); pose proof (Z.div_pos va 4096); lia).
  destruct (ufr_some _ _ _ _ Ep) as [HP Ea]. destruct (pg_div _ (va_pg va ltac:(lia))) as [Hi _].
  destruct (tab s d (va / 4096 / 1024)) as [t|] eqn:Et; [|unfold pten in HP; by rewrite Et in HP].
  assert (Ed : pde s t ((va / 4096) mod 1024) = pten s d (va / 4096)) by (unfold pten; by rewrite Et).
  unfold uva2ka. apply wp_bind_eq. eapply wp_walkpgdir; [exact Hv|done|lia|].
  rewrite (Z.mul_comm 4096), Z.div_mul, Et by lia. apply wp_bind_eq, wp_ret, wp_bind_eq. cbn [fst snd].
  eapply wp_get_pte; [exact Hv|by apply (pt_tab _ _ Hw); exists (va / 4096 / 1024)|].
  by rewrite Ed, HP, HU, Ea.
Qed.

(** [copyout] into a page of the user succeeds. *)
Lemma copyout_page d s l va buf p :
  vrep kend s l -> aspace s d -> 0 <= va < KERNBASE -> ufr s d (va / 4096) = Some p ->
  pte_has (pten s d (va / 4096)) PTE_U = true -> buf <> [] -> va mod 4096 + Z.of_nat (length buf) <= 4096 ->
  exists s', copyout d va buf s = Ok 0 s'.
Proof.
  intros Hv Ha Hva Ep HU Hne Hfit. assert (Hup : upg (va / 4096)).
  { unfold upg, KERNBASE in *. split; [apply Z.div_pos; lia|apply Z.div_lt_upper_bound; lia]. }
  destruct (as_frame _ _ Ha _ p Hup Ep) as ([x Hx] & _). destruct (vr_used _ _ _ Hv p x Hx) as [[_ Hp] _].
  unfold copyout. destruct buf as [|b buf]; [done|]. cbn [length]. rewrite Nat.add_comm. cbn [Nat.add while_loop].
  unfold bind at 1. destruct (decide _) as [|_]; [done|]. unfold bind at 1.
  rewrite (uva2ka_page d s l va p) by (done || apply Ha). rewrite (proj2 (Z.eqb_neq p 0)) by (unfold KERNBASE in *; lia).
  unfold bind at 1, page_at. rewrite Hx. eexists. unfold bind, set_page, modify, ret. cbv beta iota.
  rewrite decide_True; [reflexivity|]. apply drop_ge. cbn [length]. rewrite PGROUNDDOWN_div.
  pose proof (Z.div_mod va 4096). pose proof (Z.mod_pos_bound va 4096). cbn [length] in Hfit. unfold PGSIZE. lia.
Qed.

(** The part of the stack page that the arguments take. *)
Definition args_size (argv : list bytes) : Z := foldr (fun s n => Z.of_nat (length s) + 4 + n) 0 argv.

Lemma copyout_stacked d sz m va buf :
  stacked d sz m -> sz - 4096 <= va -> buf <> [] -> va + Z.of_nat (length buf) <= sz ->
  exists m', copyout d va buf m = Ok 0 m' /\ stacked d sz m' /\ forall a, 0 <= a < sz - 4096 -> umem m' d a = umem m d a.
Proof.
  intros Hst Hlo Hne Hhi. pose proof Hst as [[l Hb] _ [Hsz Hal] Hin _]. unfold KERNBASE in Hsz.
  pose proof (Z.div_mod sz 4096) as Hdm. rewrite Hal in Hdm. assert (0 < length buf)%nat by (destruct buf; [done|cbn; lia]).
  assert (Ev : va / 4096 = sz / 4096 - 1) by (symmetry; apply Z.div_unique with (va - (sz - 4096)); lia).
  destruct (Hin (va / 4096) ltac:(lia)) as (p & Ep & HU).
  destruct (copyout_page d m l va buf p) as [m' E]; try done; [apply Hb|apply Hb|unfold KERNBASE; lia| | |].
  - rewrite HU. apply negb_true_iff, Z.eqb_neq. lia.
  - rewrite (Z.mod_eq va 4096) by lia. lia.
  - destruct (post_copyout_stacked d sz m va buf Hst ltac:(lia) 0 m' E) as [Hst' [|(_ & Hsto & _)]]; [done|].
    exists m'. split_and!; [done|done|]. intros a Ha. rewrite Hsto by (unfold KERNBASE; lia). by rewrite decide_False by lia.
Qed.

(** The process [k] with the file system [f] and the memory [m]. *)
Definition with_fs_mem (k : kstate S) (f : fstate S) (m : vmem) : kstate S := set_fs f (set_mem m k).

Lemma wp_run {T A} (c : M T A) s a s' (Q : A -> T -> Prop) : c s = Ok a s' -> Q a s' -> wp c s Q.
Proof. intros E H. unfold wp. by rewrite E. Qed.

Lemma wp_vm_with {A} (c : M vmem A) k f m (Q : A -> kstate S -> Prop) :
  wp c m (fun a m' => Q a (with_fs_mem k f m')) -> wp (vm c) (with_fs_mem k f m) Q.
Proof. intros H. apply wp_zoom. exact H. Qed.

Lemma wp_run_vm {A} (c : M vmem A) k f m a m' (Q : A -> kstate S -> Prop) :
  c m = Ok a m' -> Q a (with_fs_mem k f m') -> wp (vm c) (with_fs_mem k f m) Q.
Proof. intros E H. apply wp_zoom. by eapply wp_run. Qed.

Lemma wp_run_fs {A} (c : FS A) k f m a f' (Q : A -> kstate S -> Prop) :
  c f = Ok a f' -> Q a (with_fs_mem k f' m) -> wp (fs c) (with_fs_mem k f m) Q.
Proof. intros E H. apply wp_zoom. by eapply wp_run. Qed.

Lemma wp_push_args k f d sz (Q : option (Z * list Z) -> kstate S -> Prop) : forall argv argc sp ptrs m,
  stacked d sz m -> sp <= sz -> sz - 4096 <= sp - args_size argv -> argc + Z.of_nat (length argv) <= MAXARG ->
  (forall sp' ps m', stacked d sz m' -> length ps = length argv -> sp - args_size argv <= sp' <= sp ->
     (forall a, 0 <= a < sz - 4096 -> umem m' d a = umem m d a) -> Q (Some (sp', ptrs ++ ps)) (with_fs_mem k f m')) ->
  wp (push_args d argc sp argv ptrs) (with_fs_mem k f m) Q.
Proof.
  induction argv as [|s argv IH]; intros argc sp ptrs m Hst Hsp Hfit Hargc HQ; cbn [push_args args_size foldr] in *.
  { apply wp_ret. specialize (HQ sp [] m). rewrite app_nil_r in HQ. apply HQ; [done|done|lia|done]. }
  fold (args_size argv) in *. cbn [length] in Hargc.
  assert (Hpos : 0 <= args_size argv) by (clear; induction argv; cbn; [done|fold (args_size argv); lia]).
  pose proof (sk_sz _ _ _ Hst) as [Hsz _]. unfold KERNBASE in Hsz. rewrite (proj2 (Z.leb_gt _ _)) by lia.
  set (n := Z.of_nat (length s) + 1) in *. rewrite u32_small by lia. rewrite clear_two. set (sp1 := 4 * ((sp - n) / 4)).
  assert (H1 : sp - n - 3 <= sp1 <= sp - n).
  { pose proof (Z.div_mod (sp - n) 4). pose proof (Z.mod_pos_bound (sp - n) 4). unfold sp1. lia. }
  destruct (copyout_stacked d sz m sp1 (s ++ [0]) Hst) as (m1 & E1 & Hst1 & Hm1); [lia|by destruct s|rewrite length_app; cbn [length]; lia|].
  apply wp_bind. eapply wp_run_vm; [exact E1|]. cbn [Z.ltb Z.compare].
  apply IH; [done|lia|lia|lia|]. intros sp' ps m' Hst' Hl Hr Hm'. rewrite <- app_assoc.
  apply (HQ sp' (sp1 :: ps)); [done|cbn [length]; lia|lia|]. intros a Ha. by rewrite Hm', Hm1.
Qed.

Lemma alloc_more d sz newsz m :
  loading d sz m -> sz <= newsz < KERNBASE -> 1025 + pages newsz < Z.of_nat (length l0) ->
  exists m', allocuvm kend d sz newsz m = Ok newsz m' /\ loading d newsz m' /\
    (forall va, 0 <= va < 4096 * pages sz -> umem m' d va = umem m d va) /\
    (forall va, 4096 * pages sz <= va < 4096 * pages newsz -> umem m' d va = 0).
Proof.
  intros Hl Hn Hroom. pose proof Hl as [[l Hb] Hu Hsz Hin Hout]. unfold KERNBASE in *.
  edestruct (wp_inv (allocuvm kend d sz newsz) m (fun r m' => r = newsz /\ loading d newsz m' /\
    (forall va, 0 <= va < 4096 * pages sz -> umem m' d va = umem m d va) /\
    (forall va, 4096 * pages sz <= va < 4096 * pages newsz -> umem m' d va = 0))) as (r & m' & E & -> & Hl').
  2: by exists m'.
  destruct (pages_spec sz ltac:(lia)) as [? _]. destruct (pages_spec newsz ltac:(lia)) as [_ ?].
  eapply wp_allocuvm; [done|exact Hv0|exact Hb|lia|unfold KERNBASE; lia|done|..].
  - intros m' l' _ _ Hlen. lia.
  - intros m' l' Hb' Hg. assert (pages sz <= pages newsz) by (apply Z.div_le_mono; lia). split_and!; [done|..].
    + eapply loading_grown; [done|exact Hb|exact Hb'|exact Hg|unfold KERNBASE; lia|done].
    + intros va Hva. eapply (grown_below kend m l m' l'); [apply Hb|apply Hb|apply Hb'|apply Hb'|exact Hg|lia|done].
    + intros va Hva. eapply (grown_mid kend m' l'); [apply Hb'|apply Hb'|exact Hg|lia|lia|done].
Qed.

Lemma wp_exec_stack k f d sz m argv (Q : option (Z * Z) -> kstate S -> Prop) :
  loading d sz m -> sz + 12288 <= KERNBASE -> 1027 + pages sz < Z.of_nat (length l0) ->
  args_size argv + 4 * (Z.of_nat (length argv) + 4) <= 4096 -> Z.of_nat (length argv) <= MAXARG ->
  (forall r m', (forall va, 0 <= va < sz -> umem m' d va = umem m d va) -> Q (Some r) (with_fs_mem k f m')) ->
  wp (exec_stack kend d sz argv) (with_fs_mem k f m) Q.
Proof.
  intros Hl Hk Hroom Hfit Hargc HQ. destruct (PGROUNDUP_loading _ _ _ Hl) as (sz1 & E1 & Hal & Hle & Ep & Hl1).
  pose proof (lo_sz _ _ _ Hl) as Hsz. unfold exec_stack, PGSIZE, KERNBASE in *. rewrite E1.
  change (2 * 4096) with 8192. rewrite u32_small by lia.
  assert (Epn : pages (sz1 + 8192) = pages sz + 2).
  { rewrite <- Ep. unfold pages. rewrite <- (Z.div_add _ 2 4096) by lia. f_equal. lia. }
  edestruct (wp_inv _ _ _ (wp_stack_pages d sz1 m (Hl1 ltac:(lia)) Hal ltac:(unfold KERNBASE; lia)))
    as (r & m1 & Ea & [(_ & Hlen & _)|[-> Hclear]]); [lia|].
  apply wp_inv in Hclear as ([] & m2 & Ec & Hst & Hm2). apply wp_bind. eapply wp_run_vm; [exact Ea|].
  rewrite (proj2 (Z.eqb_neq _ _)) by lia. replace (sz1 + 8192 - 8192) with sz1 by lia. rewrite u32_small by lia.
  apply wp_bind. eapply wp_run_vm; [exact Ec|]. apply wp_bind.
  apply (wp_push_args k f d (sz1 + 8192)); [done|lia|lia|lia|]. intros sp ps m3 Hst3 Hl3 Hsp Hm3. cbn [app]. rewrite Hl3.
  rewrite (u32_small (sp - (3 + Z.of_nat (length argv) + 1) * 4)) by lia.
  set (w := enc32s _). assert (Hw : Z.of_nat (length w) = 4 * (Z.of_nat (length argv) + 4)).
  { unfold w. rewrite length_enc32s. cbn [length]. rewrite length_app. cbn [length]. lia. }
  destruct (copyout_stacked d (sz1 + 8192) m3 (sp - (3 + Z.of_nat (length argv) + 1) * 4) w Hst3) as (m4 & E4 & _ & Hm4);
    [lia|intros E; rewrite E in Hw; cbn [length] in Hw; lia|lia|].
  apply wp_bind. eapply wp_run_vm; [exact E4|]. apply wp_ret, HQ.
  intros va Hva. by rewrite Hm4, Hm3, Hm2 by lia.
Qed.

(** [loaduvm] reads [sz] bytes from [off] on, a page at a time. *)
Inductive seg_read (ip : nat) (off sz : Z) : Z -> fstate S -> bytes -> fstate S -> Prop :=
| seg_read_end i f : sz <= i -> seg_read ip off sz i f [] f
| seg_read_page i f data f1 rest f2 :
    i < sz ->
    let n := if sz - i <? PGSIZE then sz - i else PGSIZE in
    readi dev_read ip (u32 (off + i)) n f = Ok (n, data) f1 -> Z.of_nat (length data) = n ->
    seg_read ip off sz (i + PGSIZE) f1 rest f2 -> seg_read ip off sz i f (data ++ rest) f2.

(** [data] over the bytes from [addr] on. *)
Definition overlay (addr : Z) (data : bytes) (img : Z -> Z) (a : Z) : Z :=
  if decide (addr <= a < addr + Z.of_nat (length data)) then nth0 data (Z.to_nat (a - addr)) else img a.

(** The program headers from [off] on are read, and the ends of their segments
    ascend: from [sz] bytes with the contents [img] to [sz'] with [img']. *)
Inductive segs_read (ip : nat) : nat -> Z -> Z -> (Z -> Z) -> fstate S -> Z -> (Z -> Z) -> fstate S -> Prop :=
| segs_read_end off sz img f : segs_read ip 0 off sz img f sz img f
| segs_read_skip n off sz img f b f1 sz' img' f2 :
    readi dev_read ip (u32 off) sizeof_proghdr f = Ok (sizeof_proghdr, b) f1 -> length b = Z.to_nat sizeof_proghdr ->
    ph_type (dec_proghdr (map u8 b)) <> ELF_PROG_LOAD ->
    segs_read ip n (off + sizeof_proghdr) sz img f1 sz' img' f2 -> segs_read ip (Datatypes.S n) off sz img f sz' img' f2
| segs_read_load n off sz img f b f1 data f2 sz' img' f3 :
    readi dev_read ip (u32 off) sizeof_proghdr f = Ok (sizeof_proghdr, b) f1 -> length b = Z.to_nat sizeof_proghdr ->
    let ph := dec_proghdr (map u8 b) in
    let last := ph_vaddr ph + ph_memsz ph in
    ph_type ph = ELF_PROG_LOAD -> ph_vaddr ph mod PGSIZE = 0 -> ph_filesz ph <= ph_memsz ph ->
    0 < last -> sz <= last < KERNBASE ->
    seg_read ip (ph_off ph) (ph_filesz ph) 0 f1 data f2 ->
    segs_read ip n (off + sizeof_proghdr) last (overlay (ph_vaddr ph) data img) f2 sz' img' f3 ->
    segs_read ip (Datatypes.S n) off sz img f sz' img' f3.

(** The file system finds a program of [sz] bytes with the contents [img] that
    starts at [entry]. *)
Definition program (path : bytes) (f0 : fstate S) (entry sz : Z) (img : Z -> Z) : Prop :=
  exists f1 ip f2 f3 b f4 f5 f6 f7, let elf := dec_elfhdr (map u8 b) in
    io io_begin_op f0 = Ok tt f1 /\ namei dev_read path name0 f1 = Ok (Some ip) f2 /\ ilock (Some ip) f2 = Ok tt f3 /\
    readi dev_read ip 0 sizeof_elfhdr f3 = Ok (sizeof_elfhdr, b) f4 /\ length b = Z.to_nat sizeof_elfhdr /\
    elf_magic elf = ELF_MAGIC /\ elf_entry elf = entry /\
    segs_read ip (Z.to_nat (elf_phnum elf)) (elf_phoff elf) 0 (fun _ => 0) f4 sz img f5 /\
    iunlockput ip f5 = Ok tt f6 /\ io io_end_op f6 = Ok tt f7.

Lemma stored_nil d va m : stored d va [] m m.
Proof. intros a Ha. cbn [length]. by rewrite decide_False by lia. Qed.

Lemma seg_read_length ip off sz i f data f' :
  seg_read ip off sz i f data f' -> Z.of_nat (length data) = Z.max 0 (sz - i).
Proof.
  induction 1 as [i f Hend|i f data f1 rest f2 Hlt n E Hlen Hrd IH]; [cbn; lia|].
  rewrite length_app, Nat2Z.inj_add, IH, Hlen. unfold n, PGSIZE. destruct (Z.ltb_spec (sz - i) 4096); lia.
Qed.

(** One page of a segment. *)
Lemma loading_store d szp m va data :
  loading d szp m -> 0 <= va < szp -> va mod 4096 = 0 -> (length data <= 4096)%nat ->
  exists l p t x, vrep kend m l /\ ptwf m d /\ tab m d (va / 4096 / 1024) = Some t /\
    P2V (PTE_ADDR (pde m t ((va / 4096) mod 1024))) = p /\ v_page m !! p = Some x /\
    loading d szp (write_page m p (splice x 0 data)) /\ stored d va data m (write_page m p (splice x 0 data)).
Proof.
  intros Hl Hva Hal Hd. destruct (loading_entry d szp m va Hl Hva) as (l & p & t & Hv & Hw & Hup & Ep & Et & Ea & x & Hx & Hlen).
  pose proof (lo_sz _ _ _ Hl) as Hszp. unfold KERNBASE in Hszp. destruct (lo_built _ _ _ Hl) as [l1 Hb].
  assert (Hx' : length (splice x 0 data) = 4096%nat) by (rewrite length_splice; lia).
  assert (Hl' : loading d szp (write_page m p (splice x 0 data))) by (by eapply loading_write).
  destruct (built_write kend s0 l0 d [] m l1 p (splice x 0 data) Hv0 Hb ltac:(by exists (va / 4096)) Hx') as [Hb' Hpt].
  exists l, p, t, x. split_and!; try done.
  pose proof (stored_page kend m l1 d va p x data (bu_rep _ _ _ _ _ _ _ Hb) (bu_as _ _ _ _ _ _ _ Hb) ltac:(lia) Hup Ep Hx Hlen) as Hs.
  rewrite Hal in Hs. apply Hs; [lia|apply Hb'|apply Hb'|done].
Qed.

Lemma wp_loaduvm k d szp ip off sz addr f m data f' (Q : Z -> kstate S -> Prop) :
  loading d szp m -> addr mod PGSIZE = 0 -> 0 <= addr -> 0 <= sz -> addr + sz <= szp -> seg_read ip off sz 0 f data f' ->
  (forall m', loading d szp m' -> stored d addr data m m' -> Q 0 (with_fs_mem k f' m')) ->
  wp (loaduvm dev_read d addr ip off sz) (with_fs_mem k f m) Q.
Proof.
  intros Hl Hal Ha Hsz Hle Hrd HQ. pose proof (lo_sz _ _ _ Hl) as Hszp. unfold loaduvm, KERNBASE in *. rewrite Hal. cbn [negb Z.eqb].
  match goal with |- wp (while_loop ?fl _ ?bd) _ _ =>
    enough (Hgen : forall i f data f', seg_read ip off sz i f data f' -> forall fuel m, loading d szp m ->
      (forall m', loading d szp m' -> stored d (addr + i) data m m' -> Q 0 (with_fs_mem k f' m')) ->
      0 <= i -> i mod 4096 = 0 -> (Z.to_nat ((sz - i + 4095) / 4096) < fuel)%nat ->
      wp (while_loop fuel i bd) (with_fs_mem k f m) Q)
  end.
  { eapply (Hgen 0 f data f'); [done|done|by rewrite Z.add_0_r|lia|done|].
    unfold PGSIZE. assert ((sz - 0 + 4095) / 4096 <= sz / 4096 + 1); [|pose proof (Z.div_pos sz 4096); lia].
    rewrite <- (Z.div_add _ 1) by lia. apply Z.div_le_mono; lia. }
  clear f f' m data Hl Hrd HQ. intros i f data f' Hrd. unfold PGSIZE in Hal.
  induction Hrd as [i f Hend|i f data f1 rest f2 Hlt n E Hlen Hrd IH]; intros [|fuel] m Hl HQ Hi Him Hf; try lia; cbn [while_loop]; apply wp_bind.
  { rewrite (proj2 (Z.ltb_ge _ _)) by lia. apply wp_ret, wp_ret, HQ; [done|apply stored_nil]. }
  rewrite (proj2 (Z.ltb_lt _ _)), (u32_small (addr + i)) by lia. fold n.
  assert (Hn : 0 <= n <= 4096 /\ (n = 4096 \/ sz <= i + 4096)) by (unfold n, PGSIZE; destruct (Z.ltb_spec (sz - i) 4096); lia).
  destruct (loading_store d szp m (addr + i) data Hl) as (l & p & t & x & Hv & Hw & Et & Ea & Hx & Hl' & Hsto); [lia| |lia|].
  { rewrite Z.add_mod, Hal, Him by lia. done. }
  apply wp_bind, wp_vm_with. eapply wp_walkpgdir; [exact Hv|done|lia|]. rewrite Et. apply wp_bind, wp_vm_with.
  assert (Hi2 : 0 <= (addr + i) / 4096 / 1024 < 1024) by (apply pg_div, va_pg; lia).
  eapply wp_get_pte; [exact Hv|by apply (pt_tab _ _ Hw); exists ((addr + i) / 4096 / 1024)|]. rewrite Ea.
  apply wp_bind. eapply (wp_run_fs _ k f m); [exact E|]. cbn [fst snd]. apply wp_bind.
  eapply wp_run_vm; [unfold page_at; by rewrite Hx|]. apply wp_bind. eapply wp_run_vm; [reflexivity|].
  rewrite Z.eqb_refl. cbn [negb]. apply wp_ret. unfold PGSIZE in *. rewrite u32_small by lia.
  apply (IH fuel (write_page m p (splice x 0 data))); [done| |lia| |].
  - intros m' Hlm' Hs'. apply HQ; [done|]. apply (stored_app _ _ _ _ _ _ _ Hsto).
    destruct (proj2 Hn) as [En|Hlast]; [by replace (addr + i + Z.of_nat (length data)) with (addr + (i + 4096)) by lia|].
    assert (rest = []) as -> by (pose proof (seg_read_length _ _ _ _ _ _ _ Hrd); apply nil_length_inv; lia).
    intros a Har. rewrite (Hs' a Har). cbn [length]. by rewrite !decide_False by lia.
  - rewrite <- (Z.mod_add i 1 4096) in Him by lia. done.
  - replace (sz - (i + 4096) + 4095) with (sz - i + 4095 + (-1) * 4096) by lia. rewrite Z.div_add by lia.
    assert (1 <= (sz - i + 4095) / 4096) by (apply Z.div_le_lower_bound; lia). lia.
Qed.

Lemma segs_read_grows ip n off sz img f sz' img' f' : segs_read ip n off sz img f sz' img' f' -> sz <= sz'.
Proof. induction 1; lia. Qed.

Lemma wp_read_struct k f m ip off size b f' (Q : option bytes -> kstate S -> Prop) :
  readi dev_read ip (u32 off) size f = Ok (size, b) f' -> 0 <= size -> length b = Z.to_nat size ->
  Q (Some (map u8 b)) (with_fs_mem k f' m) -> wp (read_struct dev_read ip off size) (with_fs_mem k f m) Q.
Proof.
  intros E Hs Hl HQ. unfold read_struct. apply wp_bind. eapply wp_run_fs; [exact E|]. cbn [fst snd].
  rewrite (proj2 (Z.ltb_ge _ _)), Z.eqb_refl, bool_decide_eq_true_2 by (done || lia). by apply wp_ret.
Qed.

(** The memory of the process is [img], which is 0 from [sz] on. *)
Definition holds (d sz : Z) (img : Z -> Z) (m : vmem) : Prop :=
  loading d sz m /\ (forall a, 0 <= a < 4096 * pages sz -> umem m d a = img a) /\ (forall a, sz <= a -> img a = 0).

Lemma holds_alloc d sz img m newsz :
  holds d sz img m -> sz <= newsz < KERNBASE -> 1025 + pages newsz < Z.of_nat (length l0) ->
  exists m', allocuvm kend d sz newsz m = Ok newsz m' /\ holds d newsz img m'.
Proof.
  intros (Hl & Hm & Hz) Hn Hroom. destruct (alloc_more d sz newsz m Hl Hn Hroom) as (m' & E & Hl' & Hlo & Hhi).
  pose proof (lo_sz _ _ _ Hl). destruct (pages_spec sz ltac:(lia)). exists m'. split; [done|]. split_and!; [done| |intros; apply Hz; lia].
  intros a Ha. destruct (decide (a < 4096 * pages sz)); [rewrite Hlo by lia; apply Hm; lia|].
  rewrite Hhi by lia. symmetry. apply Hz. lia.
Qed.

Lemma holds_store d sz img m addr data m' :
  holds d sz img m -> loading d sz m' -> stored d addr data m m' -> addr + Z.of_nat (length data) <= sz ->
  holds d sz (overlay addr data img) m'.
Proof.
  intros (Hl & Hm & Hz) Hl' Hs Hle. pose proof (lo_sz _ _ _ Hl) as Hsz. unfold KERNBASE in Hsz.
  destruct (pages_spec sz ltac:(lia)). unfold overlay. split_and!; [done|..].
  - intros a Ha. rewrite Hs by (unfold KERNBASE; lia). case_decide; [done|]. by apply Hm.
  - intros a Ha. rewrite decide_False by lia. by apply Hz.
Qed.

Lemma wp_load_segments k d ip (Q : option Z -> kstate S -> Prop) n off sz img f sz' img' f' m :
  segs_read ip n off sz img f sz' img' f' -> holds d sz img m -> 1025 + pages sz' < Z.of_nat (length l0) ->
  (forall m', holds d sz' img' m' -> Q (Some sz') (with_fs_mem k f' m')) ->
  wp (load_segments dev_read kend ip d n off sz) (with_fs_mem k f m) Q.
Proof.
  intros Hrd. revert m. induction Hrd as [off sz img f|n off sz img f b f1 sz' img' f2 E Hlen Hty Hrd IH
    |n off sz img f b f1 data f2 sz' img' f3 E Hlen ph last Hty Hal Hfm Hpos Hend Hseg Hrd IH]; intros m Hl Hroom HQ; cbn [load_segments].
  { apply wp_ret. by apply HQ. }
  { apply wp_bind. eapply wp_read_struct; [exact E|done|done|]. rewrite (proj2 (Z.eqb_neq _ _)) by done. cbn [negb]. by apply IH. }
  apply wp_bind. eapply wp_read_struct; [exact E|done|done|]. fold ph. rewrite Hty.
  assert (Hph : forall o, (o + 4 <= 32)%nat -> 0 <= get32 (map u8 b) o < 2 ^ 32).
  { intros o Ho. apply get32_range; [apply Forall_u8|]. rewrite length_map, Hlen. unfold sizeof_proghdr. lia. }
  assert (Hf : 0 <= ph_vaddr ph < 2 ^ 32 /\ 0 <= ph_filesz ph < 2 ^ 32 /\ 0 <= ph_memsz ph < 2 ^ 32).
  { split_and!; apply Hph; lia. }
  unfold KERNBASE in *. fold last. change (ELF_PROG_LOAD =? ELF_PROG_LOAD) with true. cbn [negb].
  rewrite (proj2 (Z.ltb_ge (ph_memsz ph) _)), (u32_small last), (proj2 (Z.ltb_ge last _)) by (unfold last in *; lia).
  pose proof (segs_read_grows _ _ _ _ _ _ _ _ _ Hrd) as Hgr.
  destruct (holds_alloc d sz img m last Hl) as (m1 & E1 & Hl1); [unfold KERNBASE; lia| |].
  { assert (pages last <= pages sz') by (apply Z.div_le_mono; lia). lia. }
  apply wp_bind. eapply wp_run_vm; [exact E1|]. rewrite (proj2 (Z.eqb_neq _ _)), Hal by lia. cbn [negb Z.eqb].
  apply wp_bind. apply (wp_loaduvm k d last ip (ph_off ph) (ph_filesz ph) (ph_vaddr ph) f1 m1 data f2);
    [apply Hl1|done|lia|lia|unfold last; lia|done|].
  intros m2 Hl2 Hs2. cbn [Z.ltb Z.compare]. apply IH; [|done|done].
  eapply holds_store; [exact Hl1|done|exact Hs2|]. rewrite (seg_read_length _ _ _ _ _ _ _ Hseg). unfold last. lia.
Qed.

(** With enough memory, [exec] of a program returns with the program loaded. *)
Lemma exec_returns k path argv entry sz img :
  k_mem k = s0 -> aspace s0 (k_pgdir k) -> program path (k_fs k) entry sz img -> sz + 12288 <= KERNBASE ->
  1027 + pages sz < Z.of_nat (length l0) ->
  args_size argv + 4 * (Z.of_nat (length argv) + 4) <= 4096 -> Z.of_nat (length argv) <= MAXARG ->
  exists k', exec dev_read kend kdata name0 path argv k = Ok (Some (entry, path_last path path)) k' /\
    forall a, 0 <= a < sz -> umem (k_mem k') (k_pgdir k') a = img a.
Proof.
  intros Hs0 Ha (f1 & ip & f2 & f3 & b & f4 & f5 & f6 & f7 & E1 & E2 & E3 & E4 & Hlen & Hmag & Hent & Hsegs & E6 & E7) Hsz Hroom Hfit Hargc.
  assert (Hk : k = with_fs_mem k (k_fs k) s0) by (destruct k; cbn in Hs0; by subst).
  pose proof (segs_read_grows _ _ _ _ _ _ _ _ _ Hsegs) as Hge. destruct (pages_spec sz Hge) as [Hp0 Hp].
  edestruct (wp_inv (exec dev_read kend kdata name0 path argv) k (fun r k' => r = Some (entry, path_last path path) /\
    forall a, 0 <= a < sz -> umem (k_mem k') (k_pgdir k') a = img a)) as (r & k' & E & -> & Hu); [|by exists k'].
  rewrite Hk at 1. unfold exec. apply wp_bind. eapply wp_run_fs; [exact E1|]. apply wp_bind. eapply wp_run_fs; [exact E2|].
  apply wp_bind. eapply wp_run_fs; [exact E3|]. apply wp_bind. eapply wp_read_struct; [exact E4|done|done|].
  rewrite Hmag, Z.eqb_refl. cbn [negb]. apply wp_bind, wp_vm_with. eapply wp_setupkvm; [done|done|exact Hv0|..].
  { intros m l _ Hl. lia. }
  intros d m l Hd Hb [Hz HU]. rewrite (proj2 (Z.eqb_neq _ _)) by done.
  assert (Hl0 : holds d 0 (fun _ => 0) m).
  { split_and!; [|change (pages 0) with 0; lia|done].
    split; [by exists l|intros n Hn _; by apply HU|unfold KERNBASE; lia|..]; change (pages 0) with 0; [lia|].
    intros n Hn _. unfold ufr. by rewrite Hz. }
  apply wp_bind. eapply (wp_load_segments k d ip _ _ _ _ _ _ sz img f5 m); [exact Hsegs|done|lia|]. intros m2 (Hl2 & Hm2 & _).
  apply wp_bind. eapply wp_run_fs; [exact E6|]. apply wp_bind. eapply wp_run_fs; [exact E7|].
  edestruct (wp_inv (exec_stack kend d sz argv) (with_fs_mem k f7 m2) (fun r k' => is_Some r /\
    forall va, 0 <= va < sz -> umem (k_mem k') d va = umem m2 d va)) as (r & k8 & E8 & [[sz' sp] ->] & Hu8).
  { apply (wp_exec_stack k f7 d sz m2); [done|done|done|done|done|]. intros r' m3 Hm3. split; [by eexists|done]. }
  apply wp_bind. eapply wp_run; [exact E8|].
  destruct (post_exec_stack k d sz m2 _ argv (ex_intro _ f7 eq_refl) Hl2 _ _ E8) as (m3 & l3 & [f8 ->] & Hb3 & HS).
  destruct (HS sz' sp eq_refl) as [Hst Hargs]. apply wp_bind, wp_ret, wp_bind, wp_modify, wp_bind, wp_zoom.
  eapply wp_free_old; [exact Ha|exact Hst|exact Hargs|exact Hb3|]. intros m' l' _ _ _ _ Hv'. apply wp_ret.
  split; [by rewrite Hent|]. intros a Har. cbn. rewrite Hv' by lia. etransitivity; [exact (Hu8 a Har)|]. apply Hm2. lia.
Qed.
End execspec.

(** C10: [exec] replaces the image of a process or leaves it alone.  Let devices
    return at most the bytes they are asked for.  First, whenever [exec] returns,
    the open files and pipes are those before.  If it returns -1, at whatever
    point it failed, the process has its old page table, size and stack pointer,
    every page in use has its old content, and the free list has the
    same pages: nothing is leaked.  If it returns 0, the process has a new
    address space in which every page below its size is mapped and the user can
    access all but the guard page under the stack; [main] finds on the stack
    [argc] and pointers to copies of the arguments; the pages of the old
    address space are free or reused, and the pages of all others untouched.
    A header read that stores more than the header, as it may from an extent
    file, is a fault of the kernel stack and not a return.  Second, [exec] does
    return 0, and memory holds the bytes of the program, when the file system
    finds a well-formed program whose reads succeed, the arguments fit in the
    stack page, and there are enough free pages. *)
Theorem exec_correct {S} `{!BlockIO S} dev_read kend kdata name0 k l path argv :
  KERNBASE < kend -> KERNLINK < kdata < KERNBASE + PHYSTOP /\ kdata mod 4096 = 0 -> dev_bounded dev_read ->
  vrep kend (k_mem k) l -> aspace (k_mem k) (k_pgdir k) ->
  post (exec dev_read kend kdata name0 path argv) k (fun r k' =>
    k_ftable k' = k_ftable k /\ k_pipes k' = k_pipes k /\ k_ofile k' = k_ofile k /\ k_killed k' = k_killed k /\
    exists l', vrep kend (k_mem k') l' /\
    match r with
    | None =>
        k_pgdir k' = k_pgdir k /\ k_sz k' = k_sz k /\ k_esp k' = k_esp k /\
        v_page (k_mem k') = v_page (k_mem k) /\ l' ≡ₚ l
    | Some _ =>
        exec_image (k_mem k') (k_pgdir k') (k_sz k') (k_esp k') argv /\
        (forall p, p ∈ l' \/ owned (k_mem k') (k_pgdir k') p <-> p ∈ l \/ owned (k_mem k) (k_pgdir k) p) /\
        (forall p x, v_page (k_mem k) !! p = Some x -> ~ owned (k_mem k) (k_pgdir k) p ->
           v_page (k_mem k') !! p = Some x)
    end) /\
  (forall entry sz img, program dev_read name0 path (k_fs k) entry sz img -> sz + 3 * PGSIZE <= KERNBASE ->
     1027 + pages sz < Z.of_nat (length l) ->
     args_size argv + 4 * (Z.of_nat (length argv) + 4) <= PGSIZE -> Z.of_nat (length argv) <= MAXARG ->
     exists k', exec dev_read kend kdata name0 path argv k = Ok (Some (entry, path_last path path)) k' /\
       forall a, 0 <= a < sz -> umem (k_mem k') (k_pgdir k') a = img a).
Proof.
  intros Hk Hkd Hdev Hv Ha. split; [|intros; by eapply exec_returns].
  eapply post_mono; [eapply (post_exec dev_read kend kdata name0 Hk Hkd Hdev (k_mem k) l Hv); [done|exact Ha]|].
  intros r k' (E1 & E2 & E3 & E4 & Hr). repeat (split; [done|]). destruct r as [r|].
  - destruct Hr as (Hi & l' & Hv' & H1 & H2). by exists l'.
  - destruct Hr as (F1 & F2 & F3 & l' & [R1 R2 R3]). exists l'. split_and!; try done.
    apply NoDup_Permutation; [apply (vr_mem _ _ _ R1)|apply (vr_mem _ _ _ Hv)|done].
Qed.

(** A disk of a few blocks, each its own buffer. *)
#[local] Instance block_list : BlockIO (list bytes) :=
  Build_BlockIO (list bytes) (fun _ b => ret (Z.to_nat b)) (fun _ => ret tt)
    (fun i s => match s !! i with Some x => Ok x s | None => Fault end) (fun i x => modify (<[i := x]>)) (fun _ => ret tt)
    (ret tt) (ret tt).

(** The program "p": its header says that 10 bytes at offset 84 go to address 0,
    in 20 bytes of memory, and that it starts at 4. *)
Definition demo_elf : bytes :=
  put32 (put32 (put32 (put32 (put32 (put32 (put32 (put16 (put32 (put32 (put32
    (replicate 84 0 ++ replicate 10 7 ++ replicate 418 0)
    0 ELF_MAGIC) 24 4) 28 52) 44 1) 52 ELF_PROG_LOAD) (52 + 4) 84) (52 + 8) 0) (52 + 12) 0) (52 + 16) 10) (52 + 20) 20) (52 + 28) 4096.
Definition demo_rootdir : bytes := enc_dirent (mkDirent 2 (112 :: replicate 13 0)) ++ replicate 496 0.
Definition demo_node (inum type size block : Z) : inode :=
  mkInode ROOTDEV inum 1 (mkSleeplock false 0) 1 type 0 0 1 size (block :: replicate 12 0) (replicate 11 (mkExtent 0 0)) 0 0 0 0.

(** A kernel with the root directory and "p" in the inode cache. *)
Definition exec_kernel : kstate (list bytes) :=
  mkK (mkF [[]; demo_rootdir; demo_elf] [demo_node ROOTINO T_DIR 16 1; demo_node 2 T_FILE 94 2] (mkSuperblock 0 0 0 0 0 0 0) 3 0)
    [] ∅ demo_vm [] false demo_dir 4096 4000.

(** [exec("/p", {"p", "hi"})] *)
Definition exec_p : outcome (kstate (list bytes)) (option (Z * bytes)) :=
  exec (fun _ => None) demo_kend demo_kdata [] [47; 112] [[112]; [104; 105]] exec_kernel.

(** [exec("/")], which fails. *)
Definition exec_root : outcome (kstate (list bytes)) (option (Z * bytes)) :=
  exec (fun _ => None) demo_kend demo_kdata [] [47] [] exec_kernel.

(** The states of the file system during [exec("/p")]. *)
Definition after {T A} (m : M T A) (s : T) : T := match m s with Ok _ s' => s' | _ => s end.
Definition exec_f1 : fstate (list bytes) := after (namei (fun _ => None) [47; 112] []) (k_fs exec_kernel).
Definition exec_f2 : fstate (list bytes) := after (ilock (Some 1%nat)) exec_f1.

Lemma exec_p_program :
  program (fun _ => None) [] [47; 112] (k_fs exec_kernel) 4 20 (overlay 0 (replicate 10 7) (fun _ => 0)).
Proof.
  exists (k_fs exec_kernel), 1%nat, exec_f1, exec_f2, (take 52 demo_elf), exec_f2, exec_f2, (after (iunlockput 1) exec_f2),
    (after (iunlockput 1) exec_f2).
  split; [reflexivity|]. split; [vm_compute; reflexivity|]. split; [vm_compute; reflexivity|].
  split; [vm_compute; reflexivity|]. split; [reflexivity|]. split; [vm_compute; reflexivity|].
  split; [vm_compute; reflexivity|]. split; [|split; [vm_compute; reflexivity|reflexivity]].
  change (Z.to_nat _) with 1%nat. change (elf_phoff _) with 52.
  eapply (segs_read_load _ _ _ _ _ _ _ (slice demo_elf 52 32) exec_f2 (replicate 10 7 ++ []) exec_f2).
  - vm_compute; reflexivity.
  - reflexivity.
  - reflexivity.
  - reflexivity.
  - vm_compute. discriminate.
  - reflexivity.
  - vm_compute. split; [discriminate|reflexivity].
  - eapply (seg_read_page _ _ _ _ _ _ (replicate 10 7) exec_f2 [] exec_f2).
    + reflexivity.
    + vm_compute. reflexivity.
    + reflexivity.
    + constructor. vm_compute. discriminate.
  - constructor.
Qed.

Lemma exec_correct_witness :
  (exists k', exec_p = Ok (Some (4, [112])) k' /\ exec_image (k_mem k') (k_pgdir k') (k_sz k') (k_esp k') [[112]; [104; 105]] /\
     umem (k_mem k') (k_pgdir k') 5 = 7 /\ umem (k_mem k') (k_pgdir k') 15 = 0) /\
  (exists k', exec_root = Ok None k' /\ v_page (k_mem k') = v_page demo_vm /\ k_pgdir k' = demo_dir).
Proof.
  destruct demo_vm_built as (Hd & _ & _). split.
  - destruct (exec_correct (fun _ => None) demo_kend demo_kdata [] exec_kernel (demo_pages 3 1197) [47; 112] [[112]; [104; 105]]
      ltac:(reflexivity) ltac:(split; [split|]; reflexivity) ltac:(intros ? ? [=]) (bu_rep _ _ _ _ _ _ _ Hd)
      (bu_as _ _ _ _ _ _ _ Hd)) as [Hpost Hret].
    destruct (Hret 4 20 _ exec_p_program) as (k' & E & Hm).
    + vm_compute. discriminate.
    + unfold demo_pages. rewrite length_map, length_seqZ. reflexivity.
    + vm_compute. discriminate.
    + vm_compute. discriminate.
    + exists k'. split; [exact E|]. destruct (Hpost _ _ E) as (_ & _ & _ & _ & l' & _ & Hi & _). split; [exact Hi|].
      split; [exact (Hm 5 ltac:(lia))|exact (Hm 15 ltac:(lia))].
  - assert (Hb : match exec_root with Ok None _ => true | _ => false end = true) by (vm_compute; reflexivity).
    unfold exec_root in *.
    match goal with |- context [?m = Ok None _] => destruct m as [[r|] k'| | | | |] eqn:E; try discriminate Hb end.
    destruct (exec_correct (fun _ => None) demo_kend demo_kdata [] exec_kernel (demo_pages 3 1197) [47] []
      ltac:(reflexivity) ltac:(split; [split|]; reflexivity) ltac:(intros ? ? [=]) (bu_rep _ _ _ _ _ _ _ Hd)
      (bu_as _ _ _ _ _ _ _ Hd)) as [Hpost _].
    destruct (Hpost None k' E) as (_ & _ & _ & _ & l' & _ & Hp & _ & _ & Hv & _).
    exists k'. split; [reflexivity|]. split; [exact Hv|exact Hp].
Defined.
