(* ===== verification/Proc.v ===== *)
(** proc.c: the process table, the three schedulers, sleep and wakeup.

    [ptab] is [ptable] with the globals next to it.  Each function here is one
    critical section of [ptable.lock] on it; a [struct proc*] is an index of
    the table, and [cur] is [myproc()].  The context switch itself ([swtch]) and
    the hardware registers are not modelled: giving up the CPU is the change of
    the table [sched] leaves behind. *)
From S2P Require Import Prelude Layout CString.

Inductive procstate := UNUSED | EMBRYO | SLEEPING | RUNNABLE | RUNNING | ZOMBIE.

#[global] Instance procstate_eq_dec : EqDecision procstate.
Proof. solve_decision. Defined.

(** [struct trapframe], without its padding. *)
Record trapframe := mkTf {
  tf_edi : Z; tf_esi : Z; tf_ebp : Z; tf_oesp : Z; tf_ebx : Z; tf_edx : Z; tf_ecx : Z; tf_eax : Z;
  tf_gs : Z; tf_fs : Z; tf_es : Z; tf_ds : Z; tf_trapno : Z; tf_err : Z;
  tf_eip : Z; tf_cs : Z; tf_eflags : Z; tf_esp : Z; tf_ss : Z
}.

Definition set_eax (x : Z) (f : trapframe) : trapframe :=
  mkTf (tf_edi f) (tf_esi f) (tf_ebp f) (tf_oesp f) (tf_ebx f) (tf_edx f) (tf_ecx f) x
    (tf_gs f) (tf_fs f) (tf_es f) (tf_ds f) (tf_trapno f) (tf_err f)
    (tf_eip f) (tf_cs f) (tf_eflags f) (tf_esp f) (tf_ss f).
(** [tf->eip = eip; tf->esp = esp]. *)
Definition set_entry (eip esp : Z) (f : trapframe) : trapframe :=
  mkTf (tf_edi f) (tf_esi f) (tf_ebp f) (tf_oesp f) (tf_ebx f) (tf_edx f) (tf_ecx f) (tf_eax f)
    (tf_gs f) (tf_fs f) (tf_es f) (tf_ds f) (tf_trapno f) (tf_err f)
    eip (tf_cs f) (tf_eflags f) esp (tf_ss f).

Definition DPL_USER : Z := 3.
Definition SEG_UCODE : Z := 3.
Definition SEG_UDATA : Z := 4.
Definition FL_IF : Z := 512.
Definition tf_zero : trapframe := mkTf 0 0 0 0 0 0 0 0 0 0 0 0 0 0 0 0 0 0 0.

(** The trap frame [userinit] makes: it starts at address 0 in user mode. *)
Definition userinit_tf : trapframe :=
  let cs := Z.lor (Z.shiftl SEG_UCODE 3) DPL_USER in
  let ds := Z.lor (Z.shiftl SEG_UDATA 3) DPL_USER in
  mkTf 0 0 0 0 0 0 0 0 0 0 ds ds 0 0 0 cs FL_IF 4096 ds.

Record proc := mkProc {
  p_sz : Z; p_pgdir : Z; p_kstack : Z; p_state : procstate; p_pid : Z;
  p_parent : option nat; p_tf : trapframe; p_chan : option chan; p_killed : bool;
  p_ofile : list (option nat); p_cwd : option nat; p_name : bytes;
  p_start : Z; p_end : Z; p_up : Z; p_priority : Z
}.

Definition set_state (x : procstate) (p : proc) : proc :=
  mkProc (p_sz p) (p_pgdir p) (p_kstack p) x (p_pid p) (p_parent p) (p_tf p) (p_chan p) (p_killed p)
    (p_ofile p) (p_cwd p) (p_name p) (p_start p) (p_end p) (p_up p) (p_priority p).
Definition set_mem (sz pgdir kstack : Z) (p : proc) : proc :=
  mkProc sz pgdir kstack (p_state p) (p_pid p) (p_parent p) (p_tf p) (p_chan p) (p_killed p)
    (p_ofile p) (p_cwd p) (p_name p) (p_start p) (p_end p) (p_up p) (p_priority p).
Definition set_pid (x : Z) (p : proc) : proc :=
  mkProc (p_sz p) (p_pgdir p) (p_kstack p) (p_state p) x (p_parent p) (p_tf p) (p_chan p) (p_killed p)
    (p_ofile p) (p_cwd p) (p_name p) (p_start p) (p_end p) (p_up p) (p_priority p).
Definition set_parent (x : option nat) (p : proc) : proc :=
  mkProc (p_sz p) (p_pgdir p) (p_kstack p) (p_state p) (p_pid p) x (p_tf p) (p_chan p) (p_killed p)
    (p_ofile p) (p_cwd p) (p_name p) (p_start p) (p_end p) (p_up p) (p_priority p).
Definition set_tf (x : trapframe) (p : proc) : proc :=
  mkProc (p_sz p) (p_pgdir p) (p_kstack p) (p_state p) (p_pid p) (p_parent p) x (p_chan p) (p_killed p)
    (p_ofile p) (p_cwd p) (p_name p) (p_start p) (p_end p) (p_up p) (p_priority p).
Definition set_chan (x : option chan) (p : proc) : proc :=
  mkProc (p_sz p) (p_pgdir p) (p_kstack p) (p_state p) (p_pid p) (p_parent p) (p_tf p) x (p_killed p)
    (p_ofile p) (p_cwd p) (p_name p) (p_start p) (p_end p) (p_up p) (p_priority p).
Definition set_killed (x : bool) (p : proc) : proc :=
  mkProc (p_sz p) (p_pgdir p) (p_kstack p) (p_state p) (p_pid p) (p_parent p) (p_tf p) (p_chan p) x
    (p_ofile p) (p_cwd p) (p_name p) (p_start p) (p_end p) (p_up p) (p_priority p).
Definition set_files (ofile : list (option nat)) (cwd : option nat) (p : proc) : proc :=
  mkProc (p_sz p) (p_pgdir p) (p_kstack p) (p_state p) (p_pid p) (p_parent p) (p_tf p) (p_chan p) (p_killed p)
    ofile cwd (p_name p) (p_start p) (p_end p) (p_up p) (p_priority p).
Definition set_name (x : bytes) (p : proc) : proc :=
  mkProc (p_sz p) (p_pgdir p) (p_kstack p) (p_state p) (p_pid p) (p_parent p) (p_tf p) (p_chan p) (p_killed p)
    (p_ofile p) (p_cwd p) x (p_start p) (p_end p) (p_up p) (p_priority p).
Definition set_times (start end_ up : Z) (p : proc) : proc :=
  mkProc (p_sz p) (p_pgdir p) (p_kstack p) (p_state p) (p_pid p) (p_parent p) (p_tf p) (p_chan p) (p_killed p)
    (p_ofile p) (p_cwd p) (p_name p) start end_ up (p_priority p).
Definition set_priority (x : Z) (p : proc) : proc :=
  mkProc (p_sz p) (p_pgdir p) (p_kstack p) (p_state p) (p_pid p) (p_parent p) (p_tf p) (p_chan p) (p_killed p)
    (p_ofile p) (p_cwd p) (p_name p) (p_start p) (p_end p) (p_up p) x.

Definition NPROC : Z := 64.
Definition NUM_PRIORITY_LEVELS : Z := 10.
Definition DEFAULT_PRIORITY : Z := NUM_PRIORITY_LEVELS / 2.

Record ptab := mkPtab {
  procs : list proc; nextpid : Z; initproc : option nat;
  currentHighestPriority : Z; ticks : Z
}.

(** The globals before the first process. *)
Definition proc_zero : proc :=
  mkProc 0 0 0 UNUSED 0 None tf_zero None false (replicate (Z.to_nat NOFILE) None) None
    (replicate 16 0) 0 0 0 0.
Definition ptab_boot : ptab := mkPtab (replicate (Z.to_nat NPROC) proc_zero) 1 None NUM_PRIORITY_LEVELS 0.

Definition set_procs (x : list proc) (t : ptab) : ptab :=
  mkPtab x (nextpid t) (initproc t) (currentHighestPriority t) (ticks t).
Definition set_nextpid (x : Z) (t : ptab) : ptab :=
  mkPtab (procs t) x (initproc t) (currentHighestPriority t) (ticks t).
Definition set_initproc (x : option nat) (t : ptab) : ptab :=
  mkPtab (procs t) (nextpid t) x (currentHighestPriority t) (ticks t).
Definition set_highest (x : Z) (t : ptab) : ptab :=
  mkPtab (procs t) (nextpid t) (initproc t) x (ticks t).

Local Abbreviation P := (M ptab).

Definition getp (k : nat) : P proc := fun t =>
  match procs t !! k with Some p => Ok p t | None => Fault end.
Definition updp (k : nat) (f : proc -> proc) : P unit := fun t =>
  match procs t !! k with
  | Some _ => Ok tt (set_procs (alter f k (procs t)) t)
  | None => Fault
  end.

(** The scheduler the kernel is built with. *)
Inductive policy := DEFAULT | FIFO | PRIORITY.

(** [for(p = ptable.proc; ...)]: the first entry with a property. *)
Fixpoint find_proc (f : proc -> bool) (l : list proc) (k : nat) : option nat :=
  match l with
  | [] => None
  | p :: l' => if f p then Some k else find_proc f l' (S k)
  end.

(** The critical section of [allocproc]: the new entry. *)
Definition allocproc_entry (pol : policy) : P (option nat) :=
  let* t := get in
  match find_proc (fun p => bool_decide (p_state p = UNUSED)) (procs t) 0 with
  | None => ret None
  | Some k =>
      updp k (set_state EMBRYO) ;;
      updp k (set_pid (nextpid t)) ;;
      modify (set_nextpid (s32 (nextpid t + 1))) ;;
      updp k (set_times 0 0 0) ;;
      (match pol with PRIORITY => updp k (set_priority DEFAULT_PRIORITY) | _ => ret tt end) ;;
      ret (Some k)
  end.

(** The end of [fork] and [userinit]. *)
Definition make_runnable (k : nat) : P unit :=
  updp k (set_state RUNNABLE) ;; updp k (set_priority DEFAULT_PRIORITY).

(** The accesses [userinit] makes to the table; [kstack] and [pgdir] are the
    pages it was given, [cwd] is [namei] of the root. *)
Definition userinit_table (pol : policy) (kstack pgdir : Z) (cwd : option nat) : P unit :=
  let* k := allocproc_entry pol in
  let* k := deref k in
  modify (set_initproc (Some k)) ;;
  updp k (set_mem 4096 pgdir kstack) ;;
  updp k (set_tf userinit_tf) ;;
  updp k (fun p => set_name (safestrcpy (p_name p) (str "initcode"%string) 16) p) ;;
  updp k (fun p => set_files (p_ofile p) cwd p) ;;
  make_runnable k.

Definition wakeup1 (c : option chan) (l : list proc) : list proc :=
  map (fun p => if bool_decide (p_state p = SLEEPING) && bool_decide (p_chan p = c)
                then set_state RUNNABLE p else p) l.

Definition wakeup (c : option chan) : P unit := modify (fun t => set_procs (wakeup1 c (procs t)) t).

Definition kill (pid : Z) : P Z :=
  let* t := get in
  match find_proc (fun p => p_pid p =? pid) (procs t) 0 with
  | None => ret (-1)
  | Some k =>
      updp k (set_killed true) ;;
      updp k (fun p => if bool_decide (p_state p = SLEEPING) then set_state RUNNABLE p else p) ;;
      ret 0
  end.

(** * Giving up the CPU *)

(** What [sched] checks of the CPU: whether it holds [ptable.lock], the count of
    [pushcli], and the interrupt flag. *)
Record held := mkHeld { hd_ptable : bool; hd_ncli : Z; hd_if : bool }.

(** The callers acquire [ptable.lock] in a process that holds no other spinlock
    ([sleep] releases the one it was given), which disables interrupts. *)
Definition only_ptable : held := mkHeld true 1 false.

Definition sched (h : held) (cur : nat) : P unit :=
  if negb (hd_ptable h) then panic "sched ptable.lock"
  else if negb (hd_ncli h =? 1) then panic "sched locks"
  else
  let* p := getp cur in
  if bool_decide (p_state p = RUNNING) then panic "sched running"
  else if hd_if h then panic "sched interruptible"
  else
    let* now := gets ticks in
    updp cur (fun p => set_times (p_start p) now (p_up p) p).

(** [true] when the process gave up the CPU. *)
Definition yield (pol : policy) (cur : nat) : P bool :=
  match pol with
  | DEFAULT => updp cur (set_state RUNNABLE) ;; sched only_ptable cur ;; ret true
  | PRIORITY =>
      let* t := get in
      match find_proc (fun p => (p_priority p <? currentHighestPriority t) && (0 <? p_priority p))
              (procs t) 0 with
      | Some _ => updp cur (set_state RUNNABLE) ;; sched only_ptable cur ;; ret true
      | None => ret false
      end
  | FIFO => ret false
  end.

(** [sleep], until it has given up the CPU. *)
Definition sleep (cur : nat) (c : option chan) : P unit :=
  updp cur (set_chan c) ;; updp cur (set_state SLEEPING) ;; sched only_ptable cur.

(** [sleep], when it runs again. *)
Definition sleep_tidy (cur : nat) : P unit := updp cur (set_chan None).

(** * The schedulers *)

(** What every scheduler does with the process it picked. *)
Definition dispatch (k : nat) : P unit :=
  let* p := getp k in
  if p_kstack p =? 0 then panic "switchuvm: no kstack"
  else if p_pgdir p =? 0 then panic "switchuvm: no pgdir"
  else
    updp k (set_state RUNNING) ;;
    let* now := gets ticks in
    updp k (fun p =>
      set_times now 0
        (if negb (p_end p =? 0) then u32 (p_up p + (p_end p - p_start p)) else p_up p) p).

(** The scan of [priorityScheduler]: the best process so far and its priority. *)
Fixpoint priority_scan (l : list proc) (k best : nat) (highest : Z) : nat * Z :=
  match l with
  | [] => (best, highest)
  | p :: l' =>
      if bool_decide (p_state p = RUNNABLE) && (p_priority p <? highest) && (0 <? p_priority p)
      then priority_scan l' (S k) k (p_priority p)
      else priority_scan l' (S k) best highest
  end.

Definition priority_pick (l : list proc) : option (nat * Z) :=
  let '(best, highest) := priority_scan l 0 0 NUM_PRIORITY_LEVELS in
  match l !! best with
  | Some p => if bool_decide (p_state p = RUNNABLE) then Some (best, highest) else None
  | None => None
  end.

(** One round of [priorityScheduler]: the process it switched to. *)
Definition priorityScheduler : P (option nat) :=
  let* t := get in
  match priority_pick (procs t) with
  | None => ret None
  | Some (k, highest) => modify (set_highest highest) ;; dispatch k ;; ret (Some k)
  end.

(** The first runnable process from [pos] on. *)
Definition default_pick (l : list proc) (pos : nat) : option nat :=
  find_proc (fun p => bool_decide (p_state p = RUNNABLE)) (drop pos l) pos.

(** [defaultScheduler] from table position [pos] to its next switch. *)
Definition defaultScheduler (pos : nat) : P (option nat) :=
  let* t := get in
  match default_pick (procs t) pos with
  | None => ret None
  | Some k => dispatch k ;; ret (Some k)
  end.

(** [fifoScheduler] from position [pos], with [firstProcess] from the round so
    far: the process it runs next and the new [firstProcess]. *)
Definition fifo_pick (l : list proc) (pos : nat) (first : option nat) : option (nat * option nat) :=
  match default_pick l pos with
  | None => None
  | Some k =>
      let first := match l !! k with
                   | Some p => if 1 <? p_pid p then Some k else first
                   | None => first
                   end in
      let chosen := match first with
                    | Some f => match l !! f with
                                | Some p => if bool_decide (p_state p = RUNNABLE) then f else k
                                | None => k
                                end
                    | None => k
                    end in
      Some (chosen, first)
  end.

Definition fifoScheduler (pos : nat) (first : option nat) : P (option (nat * option nat)) :=
  let* t := get in
  match fifo_pick (procs t) pos first with
  | None => ret None
  | Some (k, first) => dispatch k ;; ret (Some (k, first))
  end.

(** * Queries *)

Definition set_sched_priority (cur : nat) (priority : Z) : P unit :=
  if (priority <? 1) || (NUM_PRIORITY_LEVELS <? priority)
  then panic "set_sched_priority: given priority level exceeds the bounds"
  else updp cur (set_priority priority).

Definition get_sched_priority (pid : Z) : P Z :=
  let* t := get in
  match find_proc (fun p => p_pid p =? pid) (procs t) 0 with
  | None => ret (-1)
  | Some k => let* p := getp k in ret (p_priority p)
  end.

Definition queued (p : proc) : bool :=
  bool_decide (p_state p = RUNNABLE) || bool_decide (p_state p = RUNNING).

Fixpoint fifo_scan (pid : Z) (l : list proc) (counter : Z) : Z :=
  match l with
  | [] => -1
  | p :: l' =>
      if (p_pid p =? pid) && queued p then counter
      else fifo_scan pid l' (if queued p then counter + 1 else counter)
  end.

Definition fifo_position (pid : Z) : P Z := gets (fun t => fifo_scan pid (procs t) 0).

(** The loop of [printProcessTime]: the last match decides. *)
Fixpoint time_scan (pid : Z) (l : list proc) (found : bool) (ptime : Z) : Z :=
  match l with
  | [] => ptime
  | p :: l' =>
      let '(found, ptime) :=
        if p_pid p =? pid
        then (true, if bool_decide (p_state p = RUNNING) then s32 (p_up p) else 0)
        else (found, ptime) in
      time_scan pid l' found (if found then ptime else -1)
  end.

Definition printProcessTime (pid : Z) : P Z := gets (fun t => time_scan pid (procs t) false (-1)).

(** * Exit and wait, the table's part *)

(** [exit] from the acquisition of [ptable.lock] to [sched]. *)
Fixpoint reparent (cur : nat) (init : option nat) (k n : nat) (l : list proc) : list proc :=
  match n with
  | O => l
  | S n' =>
      match l !! k with
      | Some p =>
          if bool_decide (p_parent p = Some cur) then
            let l := <[k := set_parent init p]> l in
            let l := if bool_decide (p_state p = ZOMBIE) then wakeup1 (ChanProc <$> init) l else l in
            reparent cur init (S k) n' l
          else reparent cur init (S k) n' l
      | None => l
      end
  end.

Definition exit_table (cur : nat) : P unit :=
  let* p := getp cur in
  wakeup (ChanProc <$> p_parent p) ;;
  modify (fun t => set_procs (reparent cur (initproc t) 0 (length (procs t)) (procs t)) t) ;;
  updp cur (set_state ZOMBIE) ;;
  sched only_ptable cur.

(** The scan of [wait]: the zombie child, or whether there are children. *)
Fixpoint wait_scan (cur : nat) (l : list proc) (k : nat) (havekids : bool) : nat + bool :=
  match l with
  | [] => inr havekids
  | p :: l' =>
      if negb (bool_decide (p_parent p = Some cur)) then wait_scan cur l' (S k) havekids
      else if bool_decide (p_state p = ZOMBIE) then inl k
      else wait_scan cur l' (S k) true
  end.

(** What [wait] resets in the entry of a zombie. *)
Definition reap (p : proc) : proc :=
  set_state UNUSED (set_priority 0 (set_killed false (set_name (<[0%nat := 0]> (p_name p))
    (set_parent None (set_pid 0 (set_mem (p_sz p) (p_pgdir p) 0 p)))))).
