(* ===== verification/ProcInv.v ===== *)
(** The process table on several CPUs (proc.c).

    [sstep] interleaves the critical sections of [ptable.lock] that the CPUs and
    the interrupt handlers run; [cpus] is [struct cpu]'s [proc].  The invariant
    [pinv] holds in every reachable state: a process runs on exactly one CPU
    when its state says so, process ids are unique until the counter of ids wraps
    around, every process that can be
    scheduled has a stack and a page table, and no process is the child of one
    that has exited. *)
From S2P Require Import Prelude Layout CString Proc.

Record smp := mkSmp { tab : ptab; cpus : list (option nat) }.

(** What [fork] copies into the new entry before it makes it runnable. *)
Definition fork_child (cur : nat) (sz pgdir kstack : Z) (tf : trapframe) (ofile : list (option nat))
    (cwd : option nat) (name : bytes) (p : proc) : proc :=
  set_name name (set_files ofile cwd (set_tf tf (set_parent (Some cur) (set_mem sz pgdir kstack p)))).

(** [fork] and [allocproc] on their failure paths. *)
Definition unalloc (p : proc) : proc := set_state UNUSED (set_mem (p_sz p) (p_pgdir p) 0 p).

(** The scheduler of a policy, from the place in its round. *)
Definition schedule (pol : policy) (pos : nat) (first : option nat) : M ptab (option nat) :=
  match pol with
  | DEFAULT => defaultScheduler pos
  | PRIORITY => priorityScheduler
  | FIFO => let* r := fifoScheduler pos first in ret (fst <$> r)
  end.

(** A step, with the number of processes that it creates. *)
Inductive sstep (pol : policy) : Z -> smp -> smp -> Prop :=
| StAlloc t k t' cs :
    allocproc_entry pol t = Ok (Some k) t' ->
    sstep pol 1 (mkSmp t cs) (mkSmp t' cs)
| StUnalloc t k p cs :
    procs t !! k = Some p -> p_state p = EMBRYO ->
    sstep pol 0 (mkSmp t cs) (mkSmp (set_procs (<[k := unalloc p]> (procs t)) t) cs)
| StFork t c cur k p sz pgdir kstack tf ofile cwd name t' cs :
    cs !! c = Some (Some cur) -> procs t !! k = Some p -> p_state p = EMBRYO ->
    pgdir <> 0 -> kstack <> 0 ->
    make_runnable k (set_procs (<[k := fork_child cur sz pgdir kstack tf ofile cwd name p]> (procs t)) t)
      = Ok tt t' ->
    sstep pol 0 (mkSmp t cs) (mkSmp t' cs)
| StDispatch t c pos first k t' cs :
    cs !! c = Some None -> schedule pol pos first t = Ok (Some k) t' ->
    sstep pol 0 (mkSmp t cs) (mkSmp t' (<[c := Some k]> cs))
| StYield t c cur t' cs :
    cs !! c = Some (Some cur) -> yield pol cur t = Ok true t' ->
    sstep pol 0 (mkSmp t cs) (mkSmp t' (<[c := None]> cs))
| StSleep t c cur ch t' cs :
    cs !! c = Some (Some cur) -> sleep cur ch t = Ok tt t' ->
    sstep pol 0 (mkSmp t cs) (mkSmp t' (<[c := None]> cs))
| StTidy t c cur t' cs :
    cs !! c = Some (Some cur) -> sleep_tidy cur t = Ok tt t' ->
    sstep pol 0 (mkSmp t cs) (mkSmp t' cs)
| StExit t c cur t' cs :
    cs !! c = Some (Some cur) -> initproc t <> Some cur -> exit_table cur t = Ok tt t' ->
    sstep pol 0 (mkSmp t cs) (mkSmp t' (<[c := None]> cs))
| StReap t c cur k p cs :
    cs !! c = Some (Some cur) -> wait_scan cur (procs t) 0 false = inl k -> procs t !! k = Some p ->
    sstep pol 0 (mkSmp t cs) (mkSmp (set_procs (<[k := reap p]> (procs t)) t) cs)
| StWakeup t ch t' cs :
    wakeup ch t = Ok tt t' -> sstep pol 0 (mkSmp t cs) (mkSmp t' cs)
| StKill t pid r t' cs :
    kill pid t = Ok r t' -> sstep pol 0 (mkSmp t cs) (mkSmp t' cs)
| StPriority t c cur n t' cs :
    cs !! c = Some (Some cur) -> set_sched_priority cur n t = Ok tt t' ->
    sstep pol 0 (mkSmp t cs) (mkSmp t' cs).

(** A run, with the number of processes created on the way. *)
Inductive sruns (pol : policy) : Z -> smp -> smp -> Prop :=
| SrNil m : sruns pol 0 m m
| SrSnoc a b m m' m'' : sruns pol a m m' -> sstep pol b m' m'' -> sruns pol (a + b) m m''.

(** A process that has neither exited nor is being created. *)
Definition live (p : proc) : Prop :=
  p_state p = SLEEPING \/ p_state p = RUNNABLE \/ p_state p = RUNNING.

Definition on_cpu (cs : list (option nat)) (k : nat) : Prop := exists c, cs !! c = Some (Some k).

(** The identifiers are those of [a] processes created after the first, as long
    as the counter has not wrapped around. *)
Record pinv (a : Z) (m : smp) : Prop := {
  pi_run : forall k p, procs (tab m) !! k = Some p -> p_state p = RUNNING <-> on_cpu (cpus m) k;
  pi_cpu : forall c1 c2 k, cpus m !! c1 = Some (Some k) -> cpus m !! c2 = Some (Some k) -> c1 = c2;
  pi_known : forall k, on_cpu (cpus m) k -> (k < length (procs (tab m)))%nat;
  pi_next : a + 2 < 2 ^ 31 -> nextpid (tab m) = a + 2;
  pi_pid : a + 2 < 2 ^ 31 -> forall k p, procs (tab m) !! k = Some p -> p_state p <> UNUSED ->
    0 < p_pid p < nextpid (tab m);
  pi_pids : a + 2 < 2 ^ 31 -> forall j k p q, procs (tab m) !! j = Some p -> procs (tab m) !! k = Some q ->
    p_state p <> UNUSED -> p_state q <> UNUSED -> p_pid p = p_pid q -> j = k;
  pi_mem : forall k p, procs (tab m) !! k = Some p -> live p -> p_kstack p <> 0 /\ p_pgdir p <> 0;
  pi_parent : forall k p par, procs (tab m) !! k = Some p -> p_parent p = Some par ->
    exists q, procs (tab m) !! par = Some q /\ live q;
  pi_init : exists i q, initproc (tab m) = Some i /\ procs (tab m) !! i = Some q /\ live q
}.

(** * Changes that do not touch the scheduling state *)

(** Everything the invariant speaks of stays, but a sleeper may wake up and a
    process may be handed to [init]. *)
Record benign (init : option nat) (p p' : proc) : Prop := {
  bg_pid : p_pid p' = p_pid p;
  bg_mem : p_kstack p' = p_kstack p /\ p_pgdir p' = p_pgdir p;
  bg_run : p_state p' = RUNNING <-> p_state p = RUNNING;
  bg_unused : p_state p' = UNUSED <-> p_state p = UNUSED;
  bg_live : live p' <-> live p;
  bg_parent : p_parent p' = p_parent p \/ p_parent p' = init
}.

Lemma benign_refl init p : benign init p p.
Proof. split; try done. by left. Qed.

Lemma benign_trans init p q r : benign init p q -> benign init q r -> benign init p r.
Proof.
  intros [A1 [A2 A3] A4 A5 A6 A7] [B1 [B2 B3] B4 B5 B6 B7]. split; [congruence|split; congruence|tauto..|].
  destruct B7 as [->| ->]; [done|by right].
Qed.

Lemma benign_wake init p : p_state p = SLEEPING -> benign init p (set_state RUNNABLE p).
Proof. intros E. split; cbn; rewrite ?E; try done; [unfold live; cbn; rewrite E; intuition congruence|by left]. Qed.

Lemma pinv_benign a t cs l :
  pinv a (mkSmp t cs) -> Forall2 (benign (initproc t)) (procs t) l -> pinv a (mkSmp (set_procs l t) cs).
Proof.
  intros [H1 H2 H3 Hx H4 H5 H6 H7 H8] HF. cbn in *.
  assert (Hlive : forall j q, procs t !! j = Some q -> live q -> exists q', l !! j = Some q' /\ live q').
  { intros j q Hj Hq. destruct (Forall2_lookup_l _ _ _ _ _ HF Hj) as (q' & Hq' & B).
    exists q'. split; [done|]. by apply B. }
  split; cbn.
  - intros k p' Hp'. destruct (Forall2_lookup_r _ _ _ _ _ HF Hp') as (p & Hp & B).
    rewrite (bg_run _ _ _ B). by apply H1.
  - exact H2.
  - intros k Hk. rewrite <- (Forall2_length _ _ _ HF). by apply H3.
  - exact Hx.
  - intros Ha k p' Hp' Hu. destruct (Forall2_lookup_r _ _ _ _ _ HF Hp') as (p & Hp & B).
    rewrite (bg_pid _ _ _ B). apply (H4 Ha k p Hp). by rewrite <- (bg_unused _ _ _ B).
  - intros Ha j k p' q' Hj Hk Hu1 Hu2 E.
    destruct (Forall2_lookup_r _ _ _ _ _ HF Hj) as (p & Hp & B1).
    destruct (Forall2_lookup_r _ _ _ _ _ HF Hk) as (q & Hq & B2).
    rewrite (bg_unused _ _ _ B1) in Hu1. rewrite (bg_unused _ _ _ B2) in Hu2.
    rewrite (bg_pid _ _ _ B1), (bg_pid _ _ _ B2) in E. by eapply (H5 Ha).
  - intros k p' Hp' Hl. destruct (Forall2_lookup_r _ _ _ _ _ HF Hp') as (p & Hp & B).
    destruct (bg_mem _ _ _ B) as [-> ->]. apply (H6 k p Hp). by apply B.
  - intros k p' par Hp' Epar. destruct (Forall2_lookup_r _ _ _ _ _ HF Hp') as (p & Hp & B).
    destruct H8 as (i & qi & Ei & Hi & Hli).
    destruct (bg_parent _ _ _ B) as [E|E]; rewrite E in Epar.
    + destruct (H7 k p par Hp Epar) as (q & Hq & Hlq). by eapply Hlive.
    + rewrite Ei in Epar. injection Epar as <-. by eapply Hlive.
  - destruct H8 as (i & qi & Ei & Hi & Hli). destruct (Hlive i qi Hi Hli) as (q' & ? & ?). by exists i, q'.
Qed.

Lemma pinv_globals a t cs h : pinv a (mkSmp t cs) -> pinv a (mkSmp (set_highest h t) cs).
Proof. intros []. by split. Qed.

Lemma wakeup1_benign init c l : Forall2 (benign init) l (wakeup1 c l).
Proof.
  unfold wakeup1. induction l as [|p l IH]; cbn; [constructor|]. constructor; [|done].
  destruct (bool_decide (p_state p = SLEEPING)) eqn:E; cbn; [|apply benign_refl].
  destruct (bool_decide (p_chan p = c)); [|apply benign_refl]. apply benign_wake. by apply bool_decide_eq_true in E.
Qed.

Lemma insert_benign init l k p p' :
  l !! k = Some p -> benign init p p' -> Forall2 (benign init) l (<[k := p']> l).
Proof.
  intros Hk B. apply Forall2_same_length_lookup. split; [by rewrite length_insert|].
  intros j x y Hx Hy. destruct (decide (j = k)) as [->|Hne].
  - rewrite list_lookup_insert_eq in Hy by (by eapply lookup_lt_Some). by simplify_eq.
  - rewrite list_lookup_insert_ne in Hy by done. simplify_eq. apply benign_refl.
Qed.

Lemma Forall2_benign_trans init l1 l2 l3 :
  Forall2 (benign init) l1 l2 -> Forall2 (benign init) l2 l3 -> Forall2 (benign init) l1 l3.
Proof.
  intros A B. apply Forall2_same_length_lookup. split.
  - by rewrite (Forall2_length _ _ _ A), (Forall2_length _ _ _ B).
  - intros k x z Hx Hz. destruct (Forall2_lookup_l _ _ _ _ _ A Hx) as (y & Hy & A').
    destruct (Forall2_lookup_l _ _ _ _ _ B Hy) as (z' & Hz' & B'). simplify_eq. by eapply benign_trans.
Qed.

Lemma all_benign init l : Forall2 (benign init) l l.
Proof. induction l; constructor; [apply benign_refl|done]. Qed.

(** [exit] hands the children to [init]. *)
Lemma reparent_benign cur init k n l : Forall2 (benign init) l (reparent cur init k n l).
Proof.
  revert k l. induction n as [|n IH]; intros k l; cbn [reparent]; [apply all_benign|].
  destruct (l !! k) as [p|] eqn:Ek; [|apply all_benign].
  destruct (bool_decide (p_parent p = Some cur)); [|apply IH]. eapply Forall2_benign_trans; [|apply IH].
  assert (B : Forall2 (benign init) l (<[k := set_parent init p]> l)).
  { eapply insert_benign; [done|]. split; try done. by right. }
  destruct (bool_decide _); [|done]. eapply Forall2_benign_trans; [exact B|apply wakeup1_benign].
Qed.

Lemma wakeup1_parent c l k p' :
  wakeup1 c l !! k = Some p' -> exists p, l !! k = Some p /\ p_parent p' = p_parent p.
Proof.
  unfold wakeup1. intros H. apply list_lookup_fmap_Some in H as (p & -> & Hp). exists p. split; [done|].
  by destruct (_ && _).
Qed.

Lemma reparent_none cur init n l :
  init <> Some cur -> forall k, (length l <= k + n)%nat ->
  (forall j p, (j < k)%nat -> l !! j = Some p -> p_parent p <> Some cur) ->
  forall j p, reparent cur init k n l !! j = Some p -> p_parent p <> Some cur.
Proof.
  intros Hi. revert l. induction n as [|n IH]; intros l k Hl Hlow j p; cbn [reparent].
  - intros Hj. eapply Hlow; [|exact Hj]. apply lookup_lt_Some in Hj. lia.
  - destruct (l !! k) as [q|] eqn:Ek.
    2: { apply lookup_ge_None in Ek. intros Hj. eapply Hlow; [|exact Hj]. apply lookup_lt_Some in Hj. lia. }
    assert (Hins : forall j p, (j < S k)%nat -> <[k := set_parent init q]> l !! j = Some p -> p_parent p <> Some cur).
    { intros j0 p0 Hj0 H0. destruct (decide (j0 = k)) as [->|Hne].
      - rewrite list_lookup_insert_eq in H0 by (by eapply lookup_lt_Some). by injection H0 as <-.
      - rewrite list_lookup_insert_ne in H0 by done. eapply Hlow; [|exact H0]. lia. }
    destruct (bool_decide (p_parent q = Some cur)) eqn:Eb.
    + destruct (bool_decide (p_state q = ZOMBIE)); apply IH.
      * unfold wakeup1. rewrite length_fmap, length_insert. lia.
      * intros j0 p0 Hj0 H0. apply wakeup1_parent in H0 as (p1 & H1 & ->). by eapply Hins.
      * rewrite length_insert. lia.
      * exact Hins.
    + apply IH; [lia|]. intros j0 p0 Hj0 H0. destruct (decide (j0 = k)) as [->|Hne].
      * simplify_eq. by apply bool_decide_eq_false in Eb.
      * eapply Hlow; [|exact H0]. lia.
Qed.

(** * Changes of one entry and one CPU *)

(** Entry [k] becomes [p'], [nextpid] and the CPUs change with it. *)
Lemma pinv_set a a' t cs k p p' np cs' :
  pinv a (mkSmp t cs) -> procs t !! k = Some p ->
  (p_state p' = RUNNING <-> on_cpu cs' k) ->
  (forall j, j <> k -> on_cpu cs' j <-> on_cpu cs j) ->
  (forall c1 c2 j, cs' !! c1 = Some (Some j) -> cs' !! c2 = Some (Some j) -> c1 = c2) ->
  a <= a' -> (a' + 2 < 2 ^ 31 -> np = a' + 2) ->
  (a' + 2 < 2 ^ 31 -> p_state p' <> UNUSED -> 0 < p_pid p' < np /\
     forall j q, j <> k -> procs t !! j = Some q -> p_state q <> UNUSED -> p_pid q <> p_pid p') ->
  (live p' -> p_kstack p' <> 0 /\ p_pgdir p' <> 0) ->
  (forall par, p_parent p' = Some par -> p_parent p = Some par \/
     (par <> k /\ exists q, procs t !! par = Some q /\ live q)) ->
  (live p -> live p' \/ (initproc t <> Some k /\ p_parent p' <> Some k /\
     forall j q, procs t !! j = Some q -> p_parent q <> Some k)) ->
  pinv a' (mkSmp (set_nextpid np (set_procs (<[k := p']> (procs t)) t)) cs').
Proof.
  intros [H1 H2 H3 Hx H4 H5 H6 H7 H8] Hk Crun Cother Cuniq Caa Cnp Cpid Cmem Cpar Clive. cbn in *.
  pose proof (lookup_lt_Some _ _ _ Hk) as Hlt.
  assert (Hl : forall j q, <[k := p']> (procs t) !! j = Some q ->
    (j = k /\ q = p') \/ (j <> k /\ procs t !! j = Some q)).
  { intros j q. destruct (decide (j = k)) as [->|Hne].
    - rewrite list_lookup_insert_eq by done. intros [= <-]. by left.
    - rewrite list_lookup_insert_ne by done. by right. }
  assert (Hkeep : forall j q, procs t !! j = Some q -> live q -> (j = k -> live p') ->
    exists q', <[k := p']> (procs t) !! j = Some q' /\ live q').
  { intros j q Hj Hq Hlv. destruct (decide (j = k)) as [->|Hne].
    - exists p'. rewrite list_lookup_insert_eq by done. auto.
    - exists q. by rewrite list_lookup_insert_ne. }
  split; cbn.
  - intros j q [[-> ->]|[Hne Hj]]%Hl; [done|]. rewrite (Cother j Hne). by apply H1.
  - exact Cuniq.
  - intros j Hj. rewrite length_insert. destruct (decide (j = k)) as [->|Hne]; [done|].
    by apply H3, (Cother j Hne).
  - exact Cnp.
  - intros Ha j q [[-> ->]|[Hne Hj]]%Hl Hu; [by apply Cpid|]. specialize (H4 ltac:(lia) j q Hj Hu).
    rewrite Cnp by done. rewrite Hx in H4 by lia. lia.
  - intros Ha j1 j2 q1 q2 [[-> ->]|[Hne1 Hj1]]%Hl [[-> ->]|[Hne2 Hj2]]%Hl Hu1 Hu2 E; [done| | |by eapply (H5 ltac:(lia))].
    + exfalso. destruct (Cpid Ha Hu1) as [_ Hy]. by apply (Hy j2 q2 Hne2 Hj2 Hu2).
    + exfalso. destruct (Cpid Ha Hu2) as [_ Hy]. by apply (Hy j1 q1 Hne1 Hj1 Hu1).
  - intros j q [[-> ->]|[Hne Hj]]%Hl Hq; [by apply Cmem|by eapply H6].
  - intros j q par [[-> ->]|[Hne Hj]]%Hl Epar.
    + destruct (Cpar par Epar) as [E|[Hnk (q & Hq & Hlq)]].
      * destruct (H7 k p par Hk E) as (q & Hq & Hlq). apply (Hkeep par q Hq Hlq).
        intros ->. simplify_eq. destruct (Clive Hlq) as [?|(_ & Hy & _)]; done.
      * apply (Hkeep par q Hq Hlq). intros ->. done.
    + destruct (H7 j q par Hj Epar) as (r & Hr & Hlr). apply (Hkeep par r Hr Hlr).
      intros ->. simplify_eq. destruct (Clive Hlr) as [?|(_ & _ & Hy)]; [done|]. by apply (Hy j q Hj) in Epar.
  - destruct H8 as (i & qi & Ei & Hi & Hli). destruct (Hkeep i qi Hi Hli) as (q' & ? & ?); [|by exists i, q'].
    intros ->. simplify_eq. destruct (Clive Hli) as [?|(Hy & _)]; done.
Qed.

(** * The CPUs *)

Lemma cpu_idle cs c k :
  cs !! c = Some (Some k) ->
  (forall c1 c2 j, cs !! c1 = Some (Some j) -> cs !! c2 = Some (Some j) -> c1 = c2) ->
  ~ on_cpu (<[c := None]> cs) k /\
  (forall j, j <> k -> on_cpu (<[c := None]> cs) j <-> on_cpu cs j) /\
  (forall c1 c2 j, <[c := None]> cs !! c1 = Some (Some j) -> <[c := None]> cs !! c2 = Some (Some j) -> c1 = c2).
Proof.
  intros Hc Hu.
  assert (Hl : forall c1 j, <[c := None]> cs !! c1 = Some (Some j) <-> c1 <> c /\ cs !! c1 = Some (Some j)).
  { intros c1 j. rewrite list_lookup_insert_Some. intuition congruence. }
  split; [|split].
  - intros [c1 [Hne H1]%Hl]. apply Hne. by eapply Hu.
  - intros j Hj. unfold on_cpu. setoid_rewrite Hl. split; [intros (c1 & _ & H1); by exists c1|].
    intros [c1 H1]. exists c1. split; [|done]. intros ->. simplify_eq.
  - intros c1 c2 j [_ H1]%Hl [_ H2]%Hl. by eapply Hu.
Qed.

Lemma cpu_take cs c k :
  cs !! c = Some None -> ~ on_cpu cs k ->
  (forall c1 c2 j, cs !! c1 = Some (Some j) -> cs !! c2 = Some (Some j) -> c1 = c2) ->
  on_cpu (<[c := Some k]> cs) k /\
  (forall j, j <> k -> on_cpu (<[c := Some k]> cs) j <-> on_cpu cs j) /\
  (forall c1 c2 j, <[c := Some k]> cs !! c1 = Some (Some j) -> <[c := Some k]> cs !! c2 = Some (Some j) -> c1 = c2).
Proof.
  intros Hc Hk Hu. pose proof (lookup_lt_Some _ _ _ Hc) as Hlt.
  assert (Hl : forall c1 j, <[c := Some k]> cs !! c1 = Some (Some j) <->
    (c1 = c /\ j = k) \/ (c1 <> c /\ cs !! c1 = Some (Some j))).
  { intros c1 j. rewrite list_lookup_insert_Some. intuition congruence. }
  split; [|split].
  - exists c. apply Hl. by left.
  - intros j Hj. unfold on_cpu. setoid_rewrite Hl.
    split; [intros [c1 [[_ ->]|[_ H1]]]; [done|by exists c1]|].
    intros [c1 H1]. exists c1. right. split; [|done]. intros ->. simplify_eq.
  - intros c1 c2 j [[-> ->]|[Hn1 H1]]%Hl [[-> E]|[Hn2 H2]]%Hl; try done.
    + exfalso. apply Hk. by exists c2.
    + subst j. exfalso. apply Hk. by exists c1.
    + by eapply Hu.
Qed.

(** The process of CPU [c] leaves it. *)
Lemma pinv_leave a t cs c cur p p' :
  pinv a (mkSmp t cs) -> cs !! c = Some (Some cur) -> procs t !! cur = Some p ->
  p_state p' <> RUNNING -> p_state p' <> UNUSED -> p_pid p' = p_pid p ->
  p_kstack p' = p_kstack p -> p_pgdir p' = p_pgdir p -> p_parent p' = p_parent p ->
  (live p' \/ (initproc t <> Some cur /\ forall j q, procs t !! j = Some q -> p_parent q <> Some cur)) ->
  pinv a (mkSmp (set_procs (<[cur := p']> (procs t)) t) (<[c := None]> cs)).
Proof.
  intros Hi Hc Hp Hr Hu Epid Eks Epg Epar Hlive. pose proof Hi as [H1 H2 H3 Hx H4 H5 H6 _ _]. cbn in *.
  destruct (cpu_idle cs c cur Hc H2) as (I1 & I2 & I3).
  assert (Erun : p_state p = RUNNING) by (apply (H1 cur p Hp); by exists c).
  eapply (pinv_set a a t cs cur p p' (nextpid t)); try done.
  - intros Ha _. rewrite Epid. split; [apply (H4 Ha cur p Hp); congruence|].
    intros j q Hne Hj Hq E. apply Hne. by eapply (H5 Ha j cur q p Hj Hp); [|congruence|].
  - intros _. rewrite Eks, Epg. apply (H6 cur p Hp). unfold live. auto.
  - intros par E. left. congruence.
  - intros _. destruct Hlive as [?|[? Hno]]; [by left|right]. split_and!; [done| |done].
    rewrite Epar. by eapply Hno.
Qed.

(** * The operations, if they return *)

Lemma post_getp k t Q : (forall p, procs t !! k = Some p -> Q p t) -> post (getp k) t Q.
Proof. intros H a t' E. unfold getp in E. destruct (procs t !! k) eqn:Ek; [|done]. injection E as <- <-. by apply H. Qed.

Lemma post_updp k f t Q :
  (forall p, procs t !! k = Some p -> Q tt (set_procs (<[k := f p]> (procs t)) t)) -> post (updp k f) t Q.
Proof.
  intros H a t' E. unfold updp in E. destruct (procs t !! k) as [p|] eqn:Ek; [|done].
  injection E as <- <-. rewrite (alter_insert _ _ _ _ Ek). by apply H.
Qed.

Lemma post_sched cur t Q :
  (forall p, procs t !! cur = Some p -> p_state p <> RUNNING ->
     Q tt (set_procs (<[cur := set_times (p_start p) (ticks t) (p_up p) p]> (procs t)) t)) ->
  post (sched only_ptable cur) t Q.
Proof.
  intros H. unfold sched, only_ptable. cbn [hd_ptable hd_ncli hd_if negb Z.eqb Pos.eqb]. post_step. apply post_getp. intros p Hp. post_step; post_step.
  post_step. apply post_updp. intros q Hq. simplify_eq. apply H; [done|].
  by eapply bool_decide_eq_false_1.
Qed.

(** One update of the current process, then [sched]. *)
Lemma post_leave f cur t Q :
  (forall p, procs t !! cur = Some p -> p_state (f p) <> RUNNING ->
     Q tt (set_procs (<[cur := set_times (p_start (f p)) (ticks t) (p_up (f p)) (f p)]> (procs t)) t)) ->
  post (updp cur f ;; sched only_ptable cur) t Q.
Proof.
  intros H. post_step. apply post_updp. intros p Hp. apply post_sched. cbn. intros q Hq Hr.
  pose proof (lookup_lt_Some _ _ _ Hp) as Hlt. rewrite list_lookup_insert_eq in Hq by done. injection Hq as <-.
  rewrite list_insert_insert_eq. by apply H.
Qed.

Lemma yield_pinv a pol t cs c cur t' :
  pinv a (mkSmp t cs) -> cs !! c = Some (Some cur) -> yield pol cur t = Ok true t' ->
  pinv a (mkSmp t' (<[c := None]> cs)).
Proof.
  intros Hi Hc E. assert (Hy : post (updp cur (set_state RUNNABLE) ;; sched only_ptable cur ;; ret true) t
    (fun _ t' => pinv a (mkSmp t' (<[c := None]> cs)))).
  { apply post_bind. apply post_updp. intros p Hp. apply post_bind. apply post_sched. cbn. intros q Hq _.
    pose proof (lookup_lt_Some _ _ _ Hp) as Hlt. rewrite list_lookup_insert_eq in Hq by done. injection Hq as <-.
    apply post_ret. unfold set_procs; cbn. rewrite list_insert_insert_eq.
    eapply (pinv_leave a t); try done. left. unfold live. cbn. auto. }
  unfold yield in E. destruct pol; [by apply Hy in E|done|].
  unfold bind at 1, get in E. destruct (find_proc _ _ _); [by apply Hy in E|done].
Qed.

Lemma sleep_pinv a t cs c cur ch t' :
  pinv a (mkSmp t cs) -> cs !! c = Some (Some cur) -> sleep cur ch t = Ok tt t' ->
  pinv a (mkSmp t' (<[c := None]> cs)).
Proof.
  intros Hi Hc E. assert (Hy : post (sleep cur ch) t (fun _ t' => pinv a (mkSmp t' (<[c := None]> cs)))).
  { unfold sleep. apply post_bind, post_updp. intros p Hp. apply post_leave. cbn. intros q Hq _.
    pose proof (lookup_lt_Some _ _ _ Hp) as Hlt. rewrite list_lookup_insert_eq in Hq by done. injection Hq as <-.
    unfold set_procs; cbn. rewrite list_insert_insert_eq.
    eapply (pinv_leave a t); try done. left. unfold live. cbn. auto. }
  by apply Hy in E.
Qed.

Lemma exit_pinv a t cs c cur t' :
  pinv a (mkSmp t cs) -> cs !! c = Some (Some cur) -> initproc t <> Some cur -> exit_table cur t = Ok tt t' ->
  pinv a (mkSmp t' (<[c := None]> cs)).
Proof.
  intros Hi Hc Hinit E. assert (Hy : post (exit_table cur) t (fun _ t' => pinv a (mkSmp t' (<[c := None]> cs)))).
  { unfold exit_table. apply post_bind, post_getp. intros p Hp. apply post_bind. unfold wakeup. post_step.
    set (t1 := set_procs _ t). apply post_bind. post_step. apply post_leave. cbn [procs set_procs].
    set (l := reparent _ _ _ _ _). intros q Hq _.
    assert (Hi2 : pinv a (mkSmp (set_procs l t) cs)).
    { apply pinv_benign; [done|]. eapply Forall2_benign_trans; [apply wakeup1_benign|apply reparent_benign]. }
    eapply (pinv_leave a (set_procs l t) cs c cur q); try done. right. split; [done|].
    cbn. apply reparent_none; [done|cbn; lia|]. intros j ? Hj. lia. }
  by apply Hy in E.
Qed.

Lemma find_proc_some f l k0 k :
  find_proc f l k0 = Some k ->
  exists j p, k = (k0 + j)%nat /\ l !! j = Some p /\ f p = true /\
    forall i q, (i < j)%nat -> l !! i = Some q -> f q = false.
Proof.
  revert k0. induction l as [|p l IH]; intros k0; cbn [find_proc]; [done|].
  destruct (f p) eqn:Ef.
  - intros [= <-]. exists 0%nat, p. split_and!; [lia|done|done|lia].
  - intros (j & q & -> & Hj & Hf & Hlow)%IH. exists (S j), q. split_and!; [lia|done|done|].
    intros [|i] r Hi Hr; [by injection Hr as <-|]. eapply Hlow; [|exact Hr]. lia.
Qed.

Lemma find_proc_none f l k0 j p : find_proc f l k0 = None -> l !! j = Some p -> f p = false.
Proof.
  revert k0 j. induction l as [|q l IH]; intros k0 j; cbn [find_proc]; [done|].
  destruct (f q) eqn:Ef; [done|]. destruct j as [|j]; [intros _ [= <-]; done|]. by apply IH.
Qed.

(** The schedulers run a runnable process. *)
Definition dispatched (now : Z) (p : proc) : proc :=
  set_times now 0 (if negb (p_end p =? 0) then u32 (p_up p + (p_end p - p_start p)) else p_up p)
    (set_state RUNNING p).

Lemma post_dispatch k t Q :
  (forall p, procs t !! k = Some p -> Q tt (set_procs (<[k := dispatched (ticks t) p]> (procs t)) t)) ->
  post (dispatch k) t Q.
Proof.
  intros H. unfold dispatch. apply post_bind, post_getp. intros p Hp.
  post_step; [apply post_panic|]. post_step; [apply post_panic|]. apply post_bind, post_updp. intros q Hq.
  post_step. post_step. apply post_updp. cbn. intros r Hr.
  rewrite list_lookup_insert_eq in Hr by (by eapply lookup_lt_Some). injection Hr as <-. cbn.
  unfold set_procs; cbn. rewrite list_insert_insert_eq. by apply H.
Qed.

Lemma default_pick_runnable l pos k :
  default_pick l pos = Some k -> exists p, l !! k = Some p /\ p_state p = RUNNABLE.
Proof.
  unfold default_pick. intros (j & p & -> & Hj & Hf & _)%find_proc_some. rewrite lookup_drop in Hj.
  exists p. split; [done|]. by apply bool_decide_eq_true in Hf.
Qed.

Lemma fifo_pick_runnable l pos first k first' :
  fifo_pick l pos first = Some (k, first') -> exists p, l !! k = Some p /\ p_state p = RUNNABLE.
Proof.
  unfold fifo_pick. destruct (default_pick l pos) as [k0|] eqn:Ed; [|done].
  apply default_pick_runnable in Ed. intros [= E _]. revert E.
  destruct (match l !! k0 with Some p => _ | None => _ end) as [f|]; [|intros <-; done].
  destruct (l !! f) as [p|] eqn:Ef; [|intros <-; done].
  destruct (bool_decide _) eqn:Eb; intros <-; [|done]. apply bool_decide_eq_true in Eb. by exists p.
Qed.

Lemma priority_pick_runnable l k h :
  priority_pick l = Some (k, h) -> exists p, l !! k = Some p /\ p_state p = RUNNABLE.
Proof.
  unfold priority_pick. destruct (priority_scan _ _ _ _) as [best highest].
  destruct (l !! best) as [p|] eqn:El; [|done]. destruct (bool_decide _) eqn:Eb; [|done].
  intros [= <- <-]. apply bool_decide_eq_true in Eb. by exists p.
Qed.

Lemma schedule_picks pol pos first t k t' :
  schedule pol pos first t = Ok (Some k) t' ->
  exists p h, procs t !! k = Some p /\ p_state p = RUNNABLE /\
    t' = set_procs (<[k := dispatched (ticks t) p]> (procs t)) (set_highest h t).
Proof.
  assert (Hd : forall h j, (exists p, procs t !! j = Some p /\ p_state p = RUNNABLE) ->
    post (dispatch j) (set_highest h t) (fun _ t' => exists p, procs t !! j = Some p /\ p_state p = RUNNABLE /\
      t' = set_procs (<[j := dispatched (ticks t) p]> (procs t)) (set_highest h t))).
  { intros h j (p & Hp & Hr). apply post_dispatch. cbn. intros q Hq. simplify_eq. by exists p. }
  assert (Hh : set_highest (currentHighestPriority t) t = t) by by destruct t.
  unfold schedule. destruct pol; unfold defaultScheduler, priorityScheduler, fifoScheduler.
  - unfold bind at 1, get. destruct (default_pick (procs t) pos) as [j|] eqn:Ed; [|done]. intros E.
    assert (Hp : post (dispatch j ;; ret (Some j)) t (fun r t' => r = Some j /\ exists p, procs t !! j = Some p /\
      p_state p = RUNNABLE /\ t' = set_procs (<[j := dispatched (ticks t) p]> (procs t)) (set_highest (currentHighestPriority t) t))).
    { apply post_bind. rewrite <- Hh at 1. eapply post_mono; [apply Hd; by eapply default_pick_runnable|].
      intros [] t1 H1. by apply post_ret. }
    apply Hp in E as [[= ->] (p & ?)]. by exists p, (currentHighestPriority t).
  - unfold bind at 1 2, get. destruct (fifo_pick (procs t) pos first) as [[j f]|] eqn:Ed; [|done]. intros E.
    assert (Hp : post (let* r := (dispatch j ;; ret (Some (j, f))) in ret (fst <$> r)) t (fun r t' => r = Some j /\
      exists p, procs t !! j = Some p /\
      p_state p = RUNNABLE /\ t' = set_procs (<[j := dispatched (ticks t) p]> (procs t)) (set_highest (currentHighestPriority t) t))).
    { apply post_bind, post_bind. rewrite <- Hh at 1. eapply post_mono; [apply Hd; by eapply fifo_pick_runnable|].
      intros [] t1 H1. apply post_ret. by apply post_ret. }
    apply Hp in E as [[= ->] (p & ?)]. by exists p, (currentHighestPriority t).
  - unfold bind at 1, get. destruct (priority_pick (procs t)) as [[j h]|] eqn:Ed; [|done]. intros E.
    assert (Hp : post (modify (set_highest h) ;; dispatch j ;; ret (Some j)) t (fun r t' => r = Some j /\
      exists p, procs t !! j = Some p /\
      p_state p = RUNNABLE /\ t' = set_procs (<[j := dispatched (ticks t) p]> (procs t)) (set_highest h t))).
    { apply post_bind. post_step. apply post_bind. eapply post_mono; [apply Hd; by eapply priority_pick_runnable|].
      intros [] t1 H1. by apply post_ret. }
    apply Hp in E as [[= ->] (p & ?)]. by exists p, h.
Qed.

Lemma dispatch_pinv a t cs c k p h :
  pinv a (mkSmp t cs) -> cs !! c = Some None -> procs t !! k = Some p -> p_state p = RUNNABLE ->
  pinv a (mkSmp (set_procs (<[k := dispatched (ticks t) p]> (procs t)) (set_highest h t)) (<[c := Some k]> cs)).
Proof.
  intros Hi Hc Hp Hr. apply (pinv_globals _ _ _ h) in Hi. pose proof Hi as [H1 H2 H3 Hx H4 H5 H6 _ _]. cbn in *.
  assert (Hno : ~ on_cpu cs k) by (intros Hon; apply (H1 k p Hp) in Hon; congruence).
  destruct (cpu_take cs c k Hc Hno H2) as (I1 & I2 & I3).
  apply (pinv_set a a (set_highest h t) cs k p (dispatched (ticks t) p) (nextpid t)); try done.
  - intros Ha _. cbn. split; [apply (H4 Ha k p Hp); congruence|].
    intros j q Hne Hj Hq E. apply Hne. eapply (H5 Ha j k q p Hj Hp); [done|congruence|done].
  - intros _. cbn. apply (H6 k p Hp). unfold live. auto.
  - intros par E. by left.
  - intros _. left. unfold live. cbn. auto.
Qed.

Lemma not_running_off a t cs k p :
  pinv a (mkSmp t cs) -> procs t !! k = Some p -> p_state p <> RUNNING -> ~ on_cpu cs k.
Proof. intros [H1 _ _ _ _ _ _ _ _] Hp Hr Hon. by apply Hr, (H1 k p Hp). Qed.

(** An entry that is not in use, or on its way in or out. *)
Lemma pinv_dormant a a' t cs k p p' np :
  pinv a (mkSmp t cs) -> procs t !! k = Some p -> ~ live p -> ~ live p' ->
  a <= a' -> (a' + 2 < 2 ^ 31 -> np = a' + 2) ->
  (a' + 2 < 2 ^ 31 -> p_state p' <> UNUSED -> 0 < p_pid p' < np /\
     forall j q, j <> k -> procs t !! j = Some q -> p_state q <> UNUSED -> p_pid q <> p_pid p') ->
  (p_parent p' = p_parent p \/ p_parent p' = None) ->
  pinv a' (mkSmp (set_nextpid np (set_procs (<[k := p']> (procs t)) t)) cs).
Proof.
  intros Hi Hp Hl Hl' Haa Hnp Hpid Hpar. pose proof Hi as [H1 H2 _ _ _ _ _ _ _]. cbn in *.
  assert (Hr : p_state p <> RUNNING) by (unfold live in Hl; tauto).
  pose proof (not_running_off a t cs k p Hi Hp Hr) as Hoff.
  eapply (pinv_set a a' t cs k p p'); try done.
  - split; [intros E; destruct Hl'; unfold live; auto|done].
  - intros par E. left. destruct Hpar; congruence.
Qed.

Lemma alloc_pinv a pol t cs k t' :
  0 <= a -> pinv a (mkSmp t cs) -> allocproc_entry pol t = Ok (Some k) t' -> pinv (a + 1) (mkSmp t' cs).
Proof.
  intros Ha0 Hi E. pose proof Hi as [_ _ _ Hx H4 _ _ _ _]. cbn in *.
  unfold allocproc_entry, bind at 1, get in E. destruct (find_proc _ _ _) as [j|] eqn:Ef; [|done].
  apply find_proc_some in Ef as (j0 & p & -> & Hp & Hu & _). cbn [Nat.add] in *.
  apply bool_decide_eq_true in Hu.
  assert (Hy : post (updp j0 (set_state EMBRYO) ;; updp j0 (set_pid (nextpid t)) ;;
      modify (set_nextpid (s32 (nextpid t + 1))) ;; updp j0 (set_times 0 0 0) ;;
      (match pol with PRIORITY => updp j0 (set_priority DEFAULT_PRIORITY) | _ => ret tt end) ;;
      ret (Some j0)) t (fun _ t' => exists pr, t' = set_nextpid (s32 (nextpid t + 1))
        (set_procs (<[j0 := set_priority pr (set_times 0 0 0 (set_pid (nextpid t) (set_state EMBRYO p)))]> (procs t)) t))).
  { pose proof (lookup_lt_Some _ _ _ Hp) as Hlt.
    apply post_bind, post_updp. intros p1 H1. simplify_eq. apply post_bind, post_updp. cbn. intros p2 H2.
    rewrite list_lookup_insert_eq in H2 by done. injection H2 as <-. rewrite list_insert_insert_eq.
    apply post_bind. post_step. apply post_bind, post_updp. cbn. intros p3 H3.
    rewrite list_lookup_insert_eq in H3 by done. injection H3 as <-. rewrite list_insert_insert_eq.
    apply post_bind. destruct pol; [apply post_ret, post_ret..|].
    1-2: exists (p_priority p); reflexivity.
    apply post_updp. cbn. intros p4 H4'.
    rewrite list_lookup_insert_eq in H4' by done. injection H4' as <-.
    apply post_ret. exists DEFAULT_PRIORITY. unfold set_procs, set_nextpid; cbn. by rewrite list_insert_insert_eq. }
  apply Hy in E as [pr ->]. apply (pinv_dormant a (a + 1) t cs j0 p); try done; [..|by left].
  - unfold live. rewrite Hu. intuition congruence.
  - unfold live. cbn. intuition congruence.
  - lia.
  - intros Ha. rewrite Hx by lia. rewrite s32_small by lia. lia.
  - intros Ha _. cbn. rewrite Hx in * by lia. rewrite s32_small by lia. split; [lia|].
    intros j q _ Hj Hq E. specialize (H4 ltac:(lia) j q Hj Hq). lia.
Qed.

Lemma fork_pinv a t cs c cur k p sz pgdir kstack tf ofile cwd name t' :
  pinv a (mkSmp t cs) -> cs !! c = Some (Some cur) -> procs t !! k = Some p -> p_state p = EMBRYO ->
  pgdir <> 0 -> kstack <> 0 ->
  make_runnable k (set_procs (<[k := fork_child cur sz pgdir kstack tf ofile cwd name p]> (procs t)) t) = Ok tt t' ->
  pinv a (mkSmp t' cs).
Proof.
  intros Hi Hc Hp He Hpg Hks E. set (p1 := fork_child _ _ _ _ _ _ _ _ p) in E.
  pose proof (lookup_lt_Some _ _ _ Hp) as Hlt.
  assert (Hy : post (make_runnable k) (set_procs (<[k := p1]> (procs t)) t) (fun _ t' =>
    t' = set_procs (<[k := set_priority DEFAULT_PRIORITY (set_state RUNNABLE p1)]> (procs t)) t)).
  { apply post_bind, post_updp. cbn. intros q Hq. rewrite list_lookup_insert_eq in Hq by done. injection Hq as <-.
    rewrite list_insert_insert_eq. apply post_updp. cbn. intros q Hq.
    rewrite list_lookup_insert_eq in Hq by done. injection Hq as <-. by rewrite list_insert_insert_eq. }
  apply Hy in E as ->. pose proof Hi as [H1 H2 H3 Hx H4 H5 H6 _ _]. cbn in *.
  assert (Hoff : ~ on_cpu cs k) by (eapply not_running_off; [exact Hi|exact Hp|congruence]).
  destruct (lookup_lt_is_Some_2 (procs t) cur) as [q Hq]; [apply H3; by exists c|].
  assert (Hcur : p_state q = RUNNING) by (apply (H1 cur q Hq); by exists c).
  eapply (pinv_set a a t cs k p _ (nextpid t)); try done.
  - intros Ha _. cbn. split; [apply (H4 Ha k p Hp); congruence|].
    intros j r Hne Hj Hr E. apply Hne. eapply (H5 Ha j k r p Hj Hp); [done|congruence|done].
  - cbn. intros par [= <-]. right. split; [intros ->; congruence|]. exists q. split; [done|]. unfold live. auto.
  - intros Hl. unfold live in Hl. rewrite He in Hl. intuition congruence.
Qed.

Lemma wait_scan_zombie cur l k0 hk k :
  wait_scan cur l k0 hk = inl k ->
  exists j p, k = (k0 + j)%nat /\ l !! j = Some p /\ p_state p = ZOMBIE /\ p_parent p = Some cur.
Proof.
  revert k0 hk. induction l as [|p l IH]; intros k0 hk; cbn [wait_scan]; [done|].
  destruct (bool_decide (p_parent p = Some cur)) eqn:Ep; cbn [negb].
  - destruct (bool_decide (p_state p = ZOMBIE)) eqn:Ez.
    + intros [= <-]. exists 0%nat, p. apply bool_decide_eq_true in Ep, Ez. split_and!; [lia|done..].
    + intros (j & q & -> & ?)%IH. exists (S j), q. split; [lia|done].
  - intros (j & q & -> & ?)%IH. exists (S j), q. split; [lia|done].
Qed.

Lemma kill_benign pid t r t' :
  kill pid t = Ok r t' -> exists l, Forall2 (benign (initproc t)) (procs t) l /\ t' = set_procs l t.
Proof.
  intros E. assert (Hy : post (kill pid) t (fun _ t' =>
    exists l, Forall2 (benign (initproc t)) (procs t) l /\ t' = set_procs l t)).
  { unfold kill. apply post_bind. post_step. destruct (find_proc _ _ _) as [k|].
    - apply post_bind, post_updp. intros p Hp. apply post_bind, post_updp. cbn. intros q Hq.
      pose proof (lookup_lt_Some _ _ _ Hp) as Hlt. rewrite list_lookup_insert_eq in Hq by done. injection Hq as <-.
      apply post_ret. eexists. split; [|reflexivity]. rewrite list_insert_insert_eq.
      eapply insert_benign; [exact Hp|]. cbn. destruct (bool_decide (p_state p = SLEEPING)) eqn:Eb.
      + apply bool_decide_eq_true in Eb. eapply benign_trans; [by apply benign_wake|].
        split; try done. by left.
      + split; try done. by left.
    - apply post_ret. exists (procs t). split; [apply all_benign|by destruct t]. }
  by apply Hy in E.
Qed.

Lemma pinv_step pol a b m m' : 0 <= a -> pinv a m -> sstep pol b m m' -> pinv (a + b) m'.
Proof.
  intros Ha Hi Hs. pose proof (pi_next _ _ Hi) as Hx. destruct Hs; rewrite ?Z.add_0_r; cbn [tab] in Hx.
  - eapply alloc_pinv; eassumption.
  - apply (pinv_dormant a a t cs k p (unalloc p) (nextpid t)); try done; [..|by left].
    + unfold live. rewrite H0. intuition congruence.
    + unfold live. cbn. intuition congruence.
  - eapply fork_pinv; [exact Hi|exact H|exact H0|exact H1|exact H2|exact H3|exact H4].
  - apply schedule_picks in H0 as (p & h & Hp & Hr & ->). by apply dispatch_pinv.
  - eapply yield_pinv; eassumption.
  - eapply sleep_pinv; eassumption.
  - assert (Hy : post (sleep_tidy cur) t (fun _ t' => pinv a (mkSmp t' cs))); [|by apply Hy in H0].
    apply post_updp. intros p Hp. apply pinv_benign; [done|]. eapply insert_benign; [done|].
    split; try done. by left.
  - eapply exit_pinv; eassumption.
  - apply wait_scan_zombie in H0 as (j & q & -> & Hq & Hz & _). cbn [Nat.add] in *. simplify_eq.
    apply (pinv_dormant a a t cs j q (reap q) (nextpid t)); try done; [..|by right].
    + unfold live. rewrite Hz. intuition congruence.
    + unfold live. cbn. intuition congruence.
  - injection H as <-. apply pinv_benign; [done|apply wakeup1_benign].
  - apply kill_benign in H as (l & Hl & ->). by apply pinv_benign.
  - assert (Hy : post (set_sched_priority cur n) t (fun _ t' => pinv a (mkSmp t' cs))); [|by apply Hy in H0].
    unfold set_sched_priority. post_step; [apply post_panic|]. apply post_updp. intros p Hp.
    apply pinv_benign; [done|]. eapply insert_benign; [done|]. split; try done. by left.
Qed.

Lemma sruns_pinv pol a m m' : sruns pol a m m' -> pinv 0 m -> pinv a m'.
Proof.
  intros Hr Hi. assert (0 <= a /\ pinv a m') as [_ H]; [|done]. induction Hr as [m|a b m m1 m2 Hr IH Hs]; [done|].
  destruct IH as [Ha IH]; [done|]. split; [destruct Hs; lia|by eapply pinv_step].
Qed.

Lemma pinv_boot pol kstack pgdir cwd n t :
  kstack <> 0 -> pgdir <> 0 -> userinit_table pol kstack pgdir cwd ptab_boot = Ok tt t ->
  pinv 0 (mkSmp t (replicate n None)).
Proof.
  intros Hk Hp E.
  assert (Et : exists p, live p /\ p_pid p = 1 /\ p_parent p = None /\ p_state p = RUNNABLE /\
     p_kstack p = kstack /\ p_pgdir p = pgdir /\
     t = mkPtab (p :: replicate 63 proc_zero) 2 (Some 0%nat) NUM_PRIORITY_LEVELS 0).
  { destruct pol; vm_compute in E; injection E as <-; eexists (mkProc _ _ _ RUNNABLE _ _ _ _ _ _ _ _ _ _ _ _);
      (split; [unfold live; cbn; auto|]); split_and!; reflexivity. }
  destruct Et as (p & Hl & Hpid & Hpar & Hst & Hks & Hpg & ->). clear E.
  assert (Hoff : forall k, ~ on_cpu (replicate n None) k).
  { intros k (c & Hc). by apply lookup_replicate in Hc as []. }
  assert (Hz : forall k q, (p :: replicate 63 proc_zero) !! k = Some q ->
    (k = 0%nat /\ q = p) \/ q = proc_zero).
  { intros [|k] q Hq; [left; by injection Hq as <-|right]. change (replicate 63 proc_zero !! k = Some q) in Hq.
    by apply lookup_replicate in Hq as [-> _]. }
  split; cbn [tab cpus procs nextpid initproc].
  - intros k q [[-> ->]| ->]%Hz; split; intros H; try (by apply Hoff in H); [congruence|done].
  - intros c1 c2 k H. by apply lookup_replicate in H as [].
  - intros k H. by apply Hoff in H.
  - done.
  - intros _ k q [[-> ->]| ->]%Hz H; [lia|done].
  - intros _ j k q r [[-> ->]| ->]%Hz [[-> ->]| ->]%Hz Hq Hr; done.
  - intros k q [[-> ->]| ->]%Hz H; [by rewrite Hks, Hpg|]. unfold live in H. cbn in H. intuition congruence.
  - intros k q par [[-> ->]| ->]%Hz H; [congruence|done].
  - exists 0%nat, p. done.
Qed.

(** C7: in every state of the process table that the CPUs can reach from the
    one [userinit] leaves, whatever the scheduler, the number of CPUs and the
    interleaving of [allocproc], [fork], the schedulers, [yield], [sleep],
    [wakeup], [kill], [exit], [wait] and [set_sched_priority]: an entry is
    RUNNING exactly when one CPU runs it, and no two CPUs run the same; a
    process that can be scheduled has a kernel stack and a page table, so
    [switchuvm] does not panic; the parent of every child is alive, and so is
    [initproc].  As long as fewer than 2^31 - 2 processes were created after the
    first, so that [nextpid] has not wrapped around, the ids of the processes
    differ, are positive and below [nextpid], which counts the processes. *)
Theorem sched_invariant pol kstack pgdir cwd n t a m :
  kstack <> 0 -> pgdir <> 0 -> userinit_table pol kstack pgdir cwd ptab_boot = Ok tt t ->
  sruns pol a (mkSmp t (replicate n None)) m -> pinv a m.
Proof.
  intros Hk Hp E Hr. pose proof (pinv_boot pol kstack pgdir cwd n t Hk Hp E) as Hi. clear E.
  apply (sruns_pinv _ _ _ _ Hr Hi).
Qed.

Definition demo_boot : ptab :=
  match userinit_table PRIORITY 4096 8192 None ptab_boot with Ok _ t => t | _ => ptab_boot end.
Definition demo_run : ptab :=
  match schedule PRIORITY 0 None demo_boot with Ok _ t => t | _ => demo_boot end.
Definition demo_alloc : ptab :=
  match allocproc_entry PRIORITY demo_run with Ok _ t => t | _ => demo_run end.

Lemma sched_invariant_witness : pinv 1 (mkSmp demo_alloc [Some 0%nat; None]).
Proof.
  apply (sched_invariant PRIORITY 4096 8192 None 2 demo_boot); [done|done|vm_compute; reflexivity|].
  apply (SrSnoc PRIORITY 0 1 _ (mkSmp demo_run [Some 0%nat; None])).
  - apply (SrSnoc PRIORITY 0 0 _ (mkSmp demo_boot [None; None])); [apply SrNil|].
    apply (StDispatch PRIORITY demo_boot 0 0 None 0 demo_run [None; None]); [reflexivity|]. vm_compute; reflexivity.
  - apply (StAlloc PRIORITY demo_run 1 demo_alloc). vm_compute; reflexivity.
Defined.
