(* ===== verification/ProcSched.v ===== *)
(** Properties of the schedulers, of [wakeup], and of [exit] and [wait] (proc.c). *)
From S2P Require Import Prelude Layout CString Proc ProcInv.

(** * The priority scheduler *)

(** The processes its scan considers. *)
Definition candidate (p : proc) : Prop :=
  p_state p = RUNNABLE /\ 0 < p_priority p < NUM_PRIORITY_LEVELS.

Definition beats (h : Z) (p : proc) : Prop := p_state p = RUNNABLE /\ 0 < p_priority p < h.

Lemma priority_scan_spec l k0 b h :
  let '(b', h') := priority_scan l k0 b h in
  (forall j p, l !! j = Some p -> ~ beats h' p) /\ h' <= h /\
  ((b' = b /\ h' = h) \/
   exists j p, b' = (k0 + j)%nat /\ l !! j = Some p /\ beats h p /\ h' = p_priority p /\
     forall i q, (i < j)%nat -> l !! i = Some q -> p_state q = RUNNABLE -> 0 < p_priority q ->
       h' < p_priority q).
Proof.
  revert k0 b h. induction l as [|p l IH]; intros k0 b h; cbn [priority_scan].
  - split_and!; [done|lia|by left].
  - destruct (bool_decide (p_state p = RUNNABLE) && (p_priority p <? h) && (0 <? p_priority p)) eqn:E.
    + specialize (IH (S k0) k0 (p_priority p)). bool_to_prop.
      destruct (priority_scan l (S k0) k0 (p_priority p)) as [b' h'].
      destruct IH as (I1 & I2 & I3). split_and!; [|lia|right].
      * intros [|j] q Hq; [injection Hq as <-; intros [_ ?]; lia|by apply (I1 j)].
      * destruct I3 as [[-> ->]|(j & q & -> & Hq & Hb & -> & Hj)].
        -- exists 0%nat, p. apply bool_decide_eq_true in H.
           split_and!; [lia|done|by split|done|]. intros i q Hi. lia.
        -- exists (S j), q. destruct Hb as [Hb1 Hb2]. split_and!; [lia|done|split; [done|lia]|done|].
           intros [|i] r Hi Hr; [injection Hr as <-; lia|apply (Hj i); [lia|done]].
    + specialize (IH (S k0) b h). destruct (priority_scan l (S k0) b h) as [b' h'].
      destruct IH as (I1 & I2 & I3).
      assert (Hn : ~ beats h p).
      { intros [R1 R2]. rewrite bool_decide_eq_true_2 in E by done. cbn in E. lia. }
      split_and!; [|lia|].
      * intros [|j] q Hq; [injection Hq as <-; intros [R1 R2]; apply Hn; split; [done|lia]|by apply (I1 j)].
      * destruct I3 as [?|(j & q & -> & Hq & Hb & -> & Hj)]; [by left|right].
        exists (S j), q. split_and!; try done; [lia|].
        intros [|i] r Hi Hr; [|apply (Hj i); [lia|done]]. injection Hr as <-.
        intros R1 R2. destruct Hb as [_ Hb]. destruct (decide (p_priority p < h)); [|lia].
        destruct Hn. by split.
Qed.

(** The process [priorityScheduler] switches to is RUNNABLE and has the
    smallest priority number of all the RUNNABLE processes whose priority is
    in [1, NUM_PRIORITY_LEVELS - 1], the first of them in the table; when there
    is none, it runs the process in slot 0 if that is RUNNABLE, and looks again
    otherwise. *)
Theorem priority_pick_best l :
  match priority_pick l with
  | Some (k, h) => exists p, l !! k = Some p /\ p_state p = RUNNABLE /\
      ((candidate p /\ h = p_priority p /\
        forall j q, l !! j = Some q -> candidate q ->
          p_priority p <= p_priority q /\ (p_priority q = p_priority p -> (k <= j)%nat)) \/
       (k = 0%nat /\ h = NUM_PRIORITY_LEVELS /\ forall j q, l !! j = Some q -> ~ candidate q))
  | None => forall j q, l !! j = Some q -> ~ candidate q /\ (j = 0%nat -> p_state q <> RUNNABLE)
  end.
Proof.
  unfold priority_pick. pose proof (priority_scan_spec l 0 0 NUM_PRIORITY_LEVELS) as Hs.
  destruct (priority_scan l 0 0 NUM_PRIORITY_LEVELS) as [b h]. destruct Hs as (H1 & _ & H3).
  destruct H3 as [[-> ->]|(j & p & -> & Hp & Hb & -> & Hj)].
  - destruct (l !! 0%nat) as [p|] eqn:Ep.
    + case_bool_decide as Hr.
      * exists p. split_and!; [done..|]. right. split_and!; [done..|exact H1].
      * intros j q Hq. split; [by apply (H1 j)|]. intros ->. congruence.
    + destruct l; [done|discriminate].
  - cbn [Nat.add]. rewrite Hp. rewrite bool_decide_eq_true_2 by apply Hb.
    exists p. split_and!; [done|apply Hb|]. left. split_and!; [exact Hb|done|].
    intros i q Hq [Q1 Q2]. specialize (H1 i q Hq). split.
    { destruct (decide (p_priority q < p_priority p)); [|lia]. destruct H1. split; [done|lia]. }
    intros E. destruct (decide (i < j)%nat) as [Hlt|]; [|lia].
    specialize (Hj i q Hlt Hq Q1). lia.
Qed.

(** [set_sched_priority] accepts the lowest priority, but a process that
    has it never runs again under the priority scheduler unless it is in slot
    0: as long as it keeps that priority no round of the scheduler picks it,
    also when it is the only RUNNABLE process. *)
Theorem lowest_priority_starves cur t :
  cur <> 0%nat -> (cur < length (procs t))%nat ->
  exists t1, set_sched_priority cur NUM_PRIORITY_LEVELS t = Ok tt t1 /\
    (p_priority <$> procs t1 !! cur) = Some NUM_PRIORITY_LEVELS /\
    forall t2 t3, (p_priority <$> procs t2 !! cur) = Some NUM_PRIORITY_LEVELS ->
      priorityScheduler t2 <> Ok (Some cur) t3.
Proof.
  intros H0 Hlt. destruct (lookup_lt_is_Some_2 _ _ Hlt) as [p Hp]. eexists. split_and!.
  - unfold set_sched_priority, updp. cbn. by rewrite Hp.
  - cbn. rewrite list_lookup_alter_eq, Hp. done.
  - intros t2 t3 Hq E.
    assert (Hy : post priorityScheduler t2 (fun r _ => r <> Some cur)); [|by apply Hy in E].
    unfold priorityScheduler. apply post_bind. post_step.
    destruct (priority_pick (procs t2)) as [[k h]|] eqn:Ek; [|by apply post_ret].
    apply post_bind. post_step. apply post_bind. intros [] s _. apply post_ret. intros [= ->]. revert Ek. unfold priority_pick.
    pose proof (priority_scan_spec (procs t2) 0 0 NUM_PRIORITY_LEVELS) as Hs.
    destruct (priority_scan (procs t2) 0 0 NUM_PRIORITY_LEVELS) as [b h']. destruct Hs as (_ & _ & H3).
    intros Ek. assert (b = cur) as -> by (destruct (procs t2 !! b); [case_bool_decide; by simplify_eq|done]).
    destruct H3 as [[-> _]|(j & q & -> & Hj & [_ Hb] & _)]; [done|]. cbn in Hq. rewrite Hj in Hq.
    injection Hq as Hq. lia.
Qed.

Lemma lowest_priority_starves_witness :
  exists t1, set_sched_priority 1 NUM_PRIORITY_LEVELS demo_boot = Ok tt t1 /\
    (p_priority <$> procs t1 !! 1%nat) = Some NUM_PRIORITY_LEVELS /\
    forall t2 t3, (p_priority <$> procs t2 !! 1%nat) = Some NUM_PRIORITY_LEVELS ->
      priorityScheduler t2 <> Ok (Some 1%nat) t3.
Proof. apply (lowest_priority_starves 1 demo_boot); [done|vm_compute; lia]. Defined.

(** * The default scheduler *)

Lemma default_pick_spec l pos :
  match default_pick l pos with
  | Some k => (pos <= k)%nat /\ (exists p, l !! k = Some p /\ p_state p = RUNNABLE) /\
      forall j p, (pos <= j < k)%nat -> l !! j = Some p -> p_state p <> RUNNABLE
  | None => forall j p, (pos <= j)%nat -> l !! j = Some p -> p_state p <> RUNNABLE
  end.
Proof.
  unfold default_pick. destruct (find_proc _ _ _) as [k|] eqn:E.
  - apply find_proc_some in E as (j & p & -> & Hp & Hr & Hb). rewrite lookup_drop in Hp.
    split_and!; [lia|exists p; split; [done|by apply bool_decide_eq_true in Hr]|].
    intros i q Hi Hq. specialize (Hb (i - pos)%nat q). rewrite lookup_drop in Hb.
    replace (pos + (i - pos))%nat with i in Hb by lia.
    specialize (Hb ltac:(lia) Hq). by apply bool_decide_eq_false in Hb.
  - intros j p Hj Hp. apply (find_proc_none _ _ _ (j - pos)%nat p) in E.
    + by apply bool_decide_eq_false in E.
    + rewrite lookup_drop. by replace (pos + (j - pos))%nat with j by lia.
Qed.

(** The loop of [defaultScheduler]: the processes it switches to, when it finds
    the tables of [ts] one after the other, each time it holds the lock. *)
Fixpoint default_rounds (ts : list (list proc)) (pos : nat) : list nat :=
  match ts with
  | [] => []
  | l :: ts' =>
      match default_pick l pos with
      | Some k => k :: default_rounds ts' (S k)
      | None => default_rounds ts' 0
      end
  end.

Definition runnable_at (k : nat) (l : list proc) : Prop :=
  exists p, l !! k = Some p /\ p_state p = RUNNABLE.

Lemma default_rounds_reach ts pos k :
  Forall (runnable_at k) ts -> (pos <= k)%nat -> (k - pos < length ts)%nat -> k ∈ default_rounds ts pos.
Proof.
  intros HF. revert pos. induction HF as [|l ts (p & Hp & Hr) HF IH]; intros pos Hpos Hl; cbn in *; [lia|].
  pose proof (default_pick_spec l pos) as Hd. destruct (default_pick l pos) as [j|].
  - destruct Hd as (Hj & _ & Hn). assert (j <= k)%nat.
    { destruct (decide (k < j)%nat); [|lia]. by destruct (Hn k p ltac:(lia) Hp). }
    apply elem_of_cons. destruct (decide (j = k)) as [->|]; [by left|right]. apply IH; lia.
  - by destruct (Hd k p Hpos Hp).
Qed.

(** C35: the default scheduler is fair.  Whatever happens to the process table
    between its rounds, a process that is RUNNABLE in every one of
    [NPROC + 1] consecutive rounds is picked in one of them. *)
Theorem default_scheduler_fair ts pos k :
  Forall (fun l => length l = Z.to_nat NPROC) ts -> Forall (runnable_at k) ts ->
  (pos <= Z.to_nat NPROC)%nat -> length ts = S (Z.to_nat NPROC) -> k ∈ default_rounds ts pos.
Proof.
  generalize (Z.to_nat NPROC) as n. intros n Hlen HF Hpos Hts.
  assert (Hk : (k < n)%nat).
  { destruct ts as [|l ts]; [done|]. inversion HF as [|? ? (p & Hp & _) _]; subst.
    apply lookup_lt_Some in Hp. inversion Hlen; subst. lia. }
  destruct (decide (pos <= k)%nat) as [|Hgt]; [apply default_rounds_reach; [done|lia|lia]|].
  assert (Hg : (n - pos + k + 1 < length ts)%nat) by lia. clear Hts.
  revert pos Hpos Hgt Hg. induction ts as [|l ts IH]; intros pos Hpos Hgt Hg; cbn in Hg; [lia|].
  apply Forall_cons in Hlen as [Hl Hlen], HF as [Hr HF]. cbn [default_rounds].
  pose proof (default_pick_spec l pos) as Hd. destruct (default_pick l pos) as [j|].
  - destruct Hd as (Hj & (p & Hp & _) & _). apply lookup_lt_Some in Hp. apply elem_of_cons. right.
    apply IH; [done|done|lia..].
  - apply default_rounds_reach; [done|lia..].
Qed.

Lemma default_scheduler_fair_witness :
  0%nat ∈ default_rounds (replicate 65 (procs demo_boot)) 3.
Proof.
  apply default_scheduler_fair; [| |vm_compute; lia|reflexivity].
  - apply Forall_replicate. vm_compute. reflexivity.
  - apply Forall_replicate. exists (match procs demo_boot !! 0%nat with Some p => p | None => proc_zero end).
    split; vm_compute; reflexivity.
Defined.

(** * Exit and wait *)

Definition adopt (cur : nat) (init : option nat) (p : proc) : proc :=
  if bool_decide (p_parent p = Some cur) then set_parent init p else p.
Definition wake (c : option chan) (p : proc) : proc :=
  if bool_decide (p_state p = SLEEPING) && bool_decide (p_chan p = c) then set_state RUNNABLE p else p.
Definition zombie_child (cur : nat) (p : proc) : bool :=
  bool_decide (p_parent p = Some cur) && bool_decide (p_state p = ZOMBIE).

Lemma wakeup1_map c l : wakeup1 c l = map (wake c) l.
Proof. reflexivity. Qed.

Lemma wake_idem c p : wake c (wake c p) = wake c p.
Proof. unfold wake at 2 3. destruct (_ && _) eqn:E; [done|]. unfold wake. by rewrite E. Qed.

Lemma wake_adopt c cur init p : wake c (adopt cur init p) = adopt cur init (wake c p).
Proof.
  unfold wake, adopt. destruct (bool_decide (p_parent p = Some cur)) eqn:E; cbn;
    destruct (_ && _); cbn; by rewrite E.
Qed.

Lemma zombie_child_wake c cur p : zombie_child cur (wake c p) = zombie_child cur p.
Proof.
  unfold wake. destruct (_ && _) eqn:E; [|done]. apply andb_true_iff in E as [E _].
  apply bool_decide_eq_true in E. unfold zombie_child. cbn. by rewrite E.
Qed.

Lemma existsb_zombie_wake c cur l : existsb (zombie_child cur) (map (wake c) l) = existsb (zombie_child cur) l.
Proof. induction l as [|p l IH]; [done|]. cbn. by rewrite zombie_child_wake, IH. Qed.

(** The loop of [exit] in one step: every child changes hands, and [init] is
    woken when one of them is a zombie. *)
Lemma reparent_split cur init n a b :
  length b = n ->
  reparent cur init (length a) n (a ++ b) =
  let l := a ++ map (adopt cur init) b in
  if existsb (zombie_child cur) b then wakeup1 (ChanProc <$> init) l else l.
Proof.
  set (c := ChanProc <$> init). revert a b.
  induction n as [|n IH]; intros a [|p b]; try done. intros [= Hn].
  cbn [reparent existsb map]. rewrite list_lookup_middle by done.
  assert (Hs : forall q : proc, S (length a) = length (a ++ [q])) by (intros q; rewrite length_app; cbn; lia).
  replace (adopt cur init p) with (if bool_decide (p_parent p = Some cur) then set_parent init p else p) by done.
  unfold zombie_child at 1. destruct (bool_decide (p_parent p = Some cur)) eqn:Ep; cbn [andb orb].
  - rewrite insert_app_r_alt, Nat.sub_diag by lia. cbn [insert list_insert].
    set (p' := set_parent init p). destruct (bool_decide (p_state p = ZOMBIE)); cbn [orb].
    + fold c. rewrite (cons_middle p' a b), app_assoc, wakeup1_map, map_app, (Hs p'), <- (length_map (wake c)).
      rewrite IH by (by rewrite length_map). cbn zeta.
      rewrite (cons_middle p' a), app_assoc, !wakeup1_map, !map_app, !map_map, existsb_zombie_wake.
      cbn [map]. rewrite (map_ext (fun q => wake c (wake c q)) _ (wake_idem c)), !wake_idem.
      assert (Hq : forall q, adopt cur init (wake c q) = wake c (adopt cur init q))
        by (intros; by rewrite wake_adopt).
      rewrite <- !app_assoc. cbn [app]. rewrite map_map.
      destruct (existsb _ _); do 2 f_equal; apply map_ext; intros q; by rewrite ?Hq, ?wake_idem.
    + rewrite (cons_middle p' a b), app_assoc, (Hs p'), IH by done. cbn zeta. by rewrite <- !app_assoc.
  - rewrite (cons_middle p a b), app_assoc, (Hs p), IH by done. cbn zeta. by rewrite <- !app_assoc.
Qed.

Lemma reparent_all cur init l :
  reparent cur init 0 (length l) l =
  (if existsb (zombie_child cur) l then wakeup1 (ChanProc <$> init) (map (adopt cur init) l)
   else map (adopt cur init) l).
Proof. exact (reparent_split cur init (length l) [] l eq_refl). Qed.

Lemma wake_wakes c p : p_state p = SLEEPING -> p_chan p = c -> p_state (wake c p) = RUNNABLE.
Proof. intros E1 E2. unfold wake. by rewrite !bool_decide_eq_true_2. Qed.

Lemma wake_state c p : p_state (wake c p) = p_state p \/ p_state (wake c p) = RUNNABLE.
Proof. unfold wake. destruct (_ && _); auto. Qed.

(** What [exit] leaves in an entry other than the one that exits. *)
Definition exited (cur : nat) (init par : option nat) (l : list proc) (p : proc) : proc :=
  let p := adopt cur init (wake (ChanProc <$> par) p) in
  if existsb (zombie_child cur) l then wake (ChanProc <$> init) p else p.

Lemma exited_parent cur init par l p :
  p_parent (exited cur init par l p) = if bool_decide (p_parent p = Some cur) then init else p_parent p.
Proof.
  assert (Hw : forall c q, p_parent (wake c q) = p_parent q) by (intros; unfold wake; by destruct (_ && _)).
  unfold exited. destruct (existsb _ _); rewrite ?Hw; unfold adopt; rewrite Hw;
    destruct (bool_decide _); cbn; by rewrite ?Hw.
Qed.

Lemma adopt_state cur init p : p_state (adopt cur init p) = p_state p.
Proof. unfold adopt. by destruct (bool_decide _). Qed.

Lemma alter_alter (f g : proc -> proc) k (l : list proc) : alter f k (alter g k l) = alter (fun p => f (g p)) k l.
Proof. revert k. induction l as [|p l IH]; intros [|k]; try done. cbn. f_equal. apply IH. Qed.

Lemma exit_entries t cur p :
  procs t !! cur = Some p ->
  exists f, exit_table cur t = Ok tt (set_procs (alter f cur
      (map (exited cur (initproc t) (p_parent p) (procs t)) (procs t))) t) /\
    forall q, p_state (f q) = ZOMBIE /\ p_parent (f q) = p_parent q /\ p_pid (f q) = p_pid q.
Proof.
  intros Hp. pose proof (lookup_lt_Some _ _ _ Hp) as Hlt.
  exists (fun q => set_times (p_start q) (ticks t) (p_up q) (set_state ZOMBIE q)). split; [|done].
  assert (El : reparent cur (initproc t) 0 (length (wakeup1 (ChanProc <$> p_parent p) (procs t)))
      (wakeup1 (ChanProc <$> p_parent p) (procs t)) =
    map (exited cur (initproc t) (p_parent p) (procs t)) (procs t)).
  { rewrite reparent_all, !wakeup1_map, existsb_zombie_wake, !map_map. unfold exited. by destruct (existsb _ _). }
  unfold exit_table, bind at 1, getp. rewrite Hp. unfold wakeup, bind, modify. cbn. rewrite El.
  set (l := map _ _). assert (exists q, l !! cur = Some q) as [q Hq].
  { apply lookup_lt_is_Some_2. unfold l. by rewrite length_map. }
  assert (H1 : alter (set_state ZOMBIE) cur l !! cur = Some (set_state ZOMBIE q)).
  { by rewrite list_lookup_alter_eq, Hq. }
  unfold updp at 1. cbn -[alter]. rewrite Hq. unfold sched, bind, getp, gets, updp. cbn -[alter].
  rewrite H1, bool_decide_eq_false_2 by done. cbn -[alter]. rewrite H1. unfold set_procs. cbn -[alter]. by rewrite alter_alter.
Qed.

Lemma wait_scan_finds cur l k0 hk j p :
  l !! j = Some p -> p_parent p = Some cur -> p_state p = ZOMBIE -> exists k, wait_scan cur l k0 hk = inl k.
Proof.
  revert k0 hk j. induction l as [|q l IH]; intros k0 hk j Hj Hp Hz; [done|]. cbn [wait_scan].
  destruct j as [|j]; [injection Hj as ->|].
  - rewrite !bool_decide_eq_true_2 by done. by eexists.
  - destruct (negb _); [by eapply IH|]. destruct (bool_decide _); [by eexists|by eapply IH].
Qed.

(** [exit] does not lose an exit.  It leaves the process a ZOMBIE child of
    its parent; a parent that sleeps in [wait] is made RUNNABLE, and the scan of
    its [wait] then finds a zombie; the children of the process pass to
    [initproc], and when one of them is a zombie already, an [initproc] that
    sleeps in [wait] is made RUNNABLE too. *)
Theorem exit_notifies t cur p par :
  procs t !! cur = Some p -> p_parent p = Some par -> par <> cur ->
  exists t', exit_table cur t = Ok tt t' /\
    (exists p', procs t' !! cur = Some p' /\ p_state p' = ZOMBIE /\ p_parent p' = Some par) /\
    (forall q, procs t !! par = Some q -> p_state q = SLEEPING -> p_chan q = Some (ChanProc par) ->
       (p_state <$> procs t' !! par) = Some RUNNABLE) /\
    (exists k, wait_scan par (procs t') 0 false = inl k) /\
    (forall j q, procs t !! j = Some q -> p_parent q = Some cur ->
       (p_parent <$> procs t' !! j) = Some (initproc t)) /\
    (forall j q i r, procs t !! j = Some q -> p_parent q = Some cur -> p_state q = ZOMBIE ->
       initproc t = Some i -> i <> cur -> procs t !! i = Some r -> p_state r = SLEEPING ->
       p_chan r = Some (ChanProc i) -> (p_state <$> procs t' !! i) = Some RUNNABLE).
Proof.
  intros Hp Hpar Hne. destruct (exit_entries t cur p Hp) as (f & E & Hf). eexists. split; [exact E|].
  rewrite Hpar. cbn [procs set_procs]. set (g := exited _ _ _ _).
  assert (Hl : forall j q, j <> cur -> procs t !! j = Some q -> alter f cur (map g (procs t)) !! j = Some (g q)).
  { intros j q Hj Hq. rewrite list_lookup_alter_ne by done. by rewrite list_lookup_fmap, Hq. }
  assert (Hc : alter f cur (map g (procs t)) !! cur = Some (f (g p))).
  { by rewrite list_lookup_alter_eq, list_lookup_fmap, Hp. }
  assert (Hgp : p_parent (f (g p)) = Some par).
  { destruct (Hf (g p)) as (_ & -> & _). unfold g. rewrite exited_parent, Hpar.
    by rewrite bool_decide_eq_false_2 by congruence. }
  assert (Hrun : forall q, p_state (adopt cur (initproc t) (wake (ChanProc <$> Some par) q)) = RUNNABLE ->
     p_state (g q) = RUNNABLE).
  { intros q Hq. unfold g, exited. destruct (existsb _ _); [|done].
    destruct (wake_state (ChanProc <$> initproc t) (adopt cur (initproc t) (wake (ChanProc <$> Some par) q)))
      as [->| ->]; done. }
  split_and!.
  - exists (f (g p)). split_and!; [done|apply Hf|done].
  - intros q Hq Hs Hch. rewrite (Hl par q) by done. cbn. f_equal. apply Hrun.
    rewrite adopt_state. by apply wake_wakes.
  - eapply wait_scan_finds; [exact Hc|done|apply Hf].
  - intros j q Hq Hcur. destruct (decide (j = cur)) as [->|Hj]; [congruence|].
    rewrite (Hl j q) by done. cbn. f_equal. unfold g. rewrite exited_parent. by rewrite bool_decide_eq_true_2.
  - intros j q i r Hj Hqp Hqz Hi Hic Hr Hs Hch. rewrite (Hl i r) by done. cbn. f_equal.
    unfold g, exited. replace (existsb _ _) with true.
    + set (r1 := adopt _ _ _). assert (E1 : p_state r1 = SLEEPING \/ p_state r1 = RUNNABLE).
      { unfold r1. rewrite adopt_state. destruct (wake_state (ChanProc <$> Some par) r) as [->| ->]; auto. }
      destruct E1 as [E1|E1]; [apply wake_wakes; [done|]|destruct (wake_state (ChanProc <$> initproc t) r1); congruence].
      unfold r1, adopt, wake. rewrite Hi. destruct (_ && _), (bool_decide _); done.
    + symmetry. apply existsb_exists. exists q. split; [by apply list_elem_of_lookup_2, list_elem_of_In in Hj|].
      unfold zombie_child. by rewrite !bool_decide_eq_true_2.
Qed.

(** [init] waits for its child in slot 1, which runs. *)
Definition demo_parent : proc := set_chan (Some (ChanProc 0)) (set_state SLEEPING proc_zero).
Definition demo_child : proc := set_parent (Some 0%nat) (set_state RUNNING proc_zero).
Definition demo_family : ptab := mkPtab [demo_parent; demo_child] 3 (Some 0%nat) 0 7.

Lemma exit_notifies_witness :
  exists t', exit_table 1 demo_family = Ok tt t' /\
    (exists p', procs t' !! 1%nat = Some p' /\ p_state p' = ZOMBIE /\ p_parent p' = Some 0%nat) /\
    (forall q, procs demo_family !! 0%nat = Some q -> p_state q = SLEEPING -> p_chan q = Some (ChanProc 0) ->
       (p_state <$> procs t' !! 0%nat) = Some RUNNABLE) /\
    (exists k, wait_scan 0 (procs t') 0 false = inl k) /\
    (forall j q, procs demo_family !! j = Some q -> p_parent q = Some 1%nat ->
       (p_parent <$> procs t' !! j) = Some (initproc demo_family)) /\
    (forall j q i r, procs demo_family !! j = Some q -> p_parent q = Some 1%nat -> p_state q = ZOMBIE ->
       initproc demo_family = Some i -> i <> 1%nat -> procs demo_family !! i = Some r -> p_state r = SLEEPING ->
       p_chan r = Some (ChanProc i) -> (p_state <$> procs t' !! i) = Some RUNNABLE).
Proof. apply (exit_notifies demo_family 1 demo_child 0); done. Defined.

(** * Queue positions *)

(** [fifo_position] returns the number of processes before the process in
    the table that are RUNNABLE or RUNNING, when it is one of these itself, and
    -1 otherwise; with unique process ids the process it counts for is the one
    with that id. *)
Theorem fifo_position_counts pid t :
  (exists k p, procs t !! k = Some p /\ p_pid p = pid /\ queued p = true /\
     (forall j q, (j < k)%nat -> procs t !! j = Some q -> p_pid q = pid -> queued q = false) /\
     fifo_position pid t = Ok (Z.of_nat (length (filter (fun q => queued q = true) (take k (procs t))))) t) \/
  ((forall k p, procs t !! k = Some p -> p_pid p = pid -> queued p = false) /\ fifo_position pid t = Ok (-1) t).
Proof.
  unfold fifo_position, gets. generalize (procs t) as l. intros l.
  assert (H : forall c, (exists k p, l !! k = Some p /\ p_pid p = pid /\ queued p = true /\
      (forall j q, (j < k)%nat -> l !! j = Some q -> p_pid q = pid -> queued q = false) /\
      fifo_scan pid l c = c + Z.of_nat (length (filter (fun q => queued q = true) (take k l)))) \/
    ((forall k p, l !! k = Some p -> p_pid p = pid -> queued p = false) /\ fifo_scan pid l c = -1)).
  { induction l as [|p l IH]; intros c; [by right|]. cbn [fifo_scan].
    destruct ((p_pid p =? pid) && queued p) eqn:E.
    - bool_to_prop. left. exists 0%nat, p. split_and!; [done..|lia|]. cbn. lia.
    - assert (Hq : p_pid p = pid -> queued p = false).
      { intros Hp. apply Z.eqb_eq in Hp. by rewrite Hp in E. }
      destruct (IH (if queued p then c + 1 else c)) as [(k & q & Hk & Hpid & Hqu & Hlow & Hr)|[Hn Hr]].
      + left. exists (S k), q. split_and!; [done..| |].
        * intros [|j] r Hj Hr'; [by injection Hr' as <-|]. apply (Hlow j); [lia|done].
        * rewrite Hr. cbn [take]. rewrite filter_cons. case_decide as Hd; destruct (queued p); try done; cbn [length]; lia.
      + right. split; [|done]. intros [|k] q Hk; [by injection Hk as <-|by apply (Hn k)]. }
  destruct (H 0) as [(k & p & ? & ? & ? & ? & E)|[Hn E]].
  - left. exists k, p. split_and!; try done. by rewrite E.
  - right. split; [done|]. by rewrite E.
Qed.
