(* ===== verification/Kernel.v ===== *)
(** The kernel as one state: the operations of proc.c that span the process
    table and the rest, sysproc.c, the dispatch of syscall.c, and trap.c.

    [sys] is the process table next to the kernel state of File.v.  The table
    holds each process's descriptors, directory, page table and size; an
    operation of the file system runs on behalf of a process with these loaded
    from its entry and saved back ([as_proc]).  [cur] is [myproc()].  A call
    that blocks ends in [Sleep] with the state it leaves, the process asleep on
    the channel.  The wake-ups that the file system and the pipes make are steps
    of their own ([wakeup]), and the interrupt handlers of the console and the
    disk do not touch this state. *)
From S2P Require Import Prelude Layout CString Locks LogRep Fs Kalloc Vm Pipe Syscall File Sysfile Exec Proc.

Record sys (S : Type) := mkSys { y_tab : ptab; y_k : kstate S }.
Arguments mkSys {S}.
Arguments y_tab {S}.
Arguments y_k {S}.

Definition T_SYSCALL : Z := 64.
Definition T_IRQ0 : Z := 32.
Definition IRQ_TIMER : Z := 0.
Definition T_PGFLT : Z := 14.

Section kernel.
Context {S : Type} `{!BlockIO S}.
Local Abbreviation FS := (M (fstate S)).
Local Abbreviation K := (M (kstate S)).
Local Abbreviation Y := (M (sys S)).
Context (dev_read : Z -> option (nat -> Z -> FS (Z * bytes))).
Context (dev_write : Z -> option (nat -> bytes -> Z -> FS Z)).
Context (kend kdata : Z).
Context (name0 page0 : bytes).
Context (pol : policy).
(** What [sys_printProcessTable], which returns no value, leaves in [%eax]. *)
Context (eax0 : Z).

Definition ptable {A} (m : M ptab A) : Y A := zoom y_tab (fun t y => mkSys t (y_k y)) m.
Definition kernel {A} (m : K A) : Y A := zoom y_k (fun k y => mkSys (y_tab y) k) m.

Definition load_proc (p : proc) (cwd : nat) (k : kstate S) : kstate S :=
  let f := k_fs k in
  mkK (mkF (f_blk f) (f_icache f) (f_sb f) (p_pid p) cwd) (k_ftable k) (k_pipes k) (k_mem k)
    (p_ofile p) (p_killed p) (p_pgdir p) (p_sz p) (tf_esp (p_tf p)).
Definition save_proc (k : kstate S) (p : proc) : proc :=
  set_files (k_ofile k) (Some (f_cwd (k_fs k))) (set_mem (k_sz k) (k_pgdir k) (p_kstack p) p).

Definition as_proc {A} (cur : nat) (m : K A) : Y A := fun y =>
  match procs (y_tab y) !! cur with
  | None => Fault
  | Some p =>
      match p_cwd p with
      | None => Fault
      | Some cwd =>
          match zoom (fun y => load_proc p cwd (y_k y))
                  (fun k y => mkSys (set_procs (alter (save_proc k) cur (procs (y_tab y))) (y_tab y)) k) m y with
          | Sleep c y' => (ptable (sleep cur (Some c)) ;; sleep_on c) y'
          | r => r
          end
      end
  end.

(** * proc.c *)

Definition allocproc : Y (option nat) :=
  let* k := ptable (allocproc_entry pol) in
  match k with
  | None => ret None
  | Some k =>
      let* kstack := kernel (mem_op kalloc) in
      ptable (updp k (fun p => set_mem (p_sz p) (p_pgdir p) kstack p)) ;;
      if kstack =? 0 then ptable (updp k (set_state UNUSED)) ;; ret None
      else ret (Some k)
  end.

(** [initcode] is the program linked into the kernel. *)
Definition userinit (initcode : bytes) : Y unit :=
  let* k := allocproc in
  let* k := deref k in
  ptable (modify (set_initproc (Some k))) ;;
  let* pgdir := kernel (vm (setupkvm kend kdata)) in
  ptable (updp k (fun p => set_mem (p_sz p) pgdir (p_kstack p) p)) ;;
  if pgdir =? 0 then panic "userinit: out of memory?"
  else
    kernel (vm (inituvm pgdir initcode (Z.of_nat (length initcode)))) ;;
    ptable (updp k (fun p => set_mem PGSIZE (p_pgdir p) (p_kstack p) p)) ;;
    ptable (updp k (set_tf userinit_tf)) ;;
    ptable (updp k (fun p => set_name (safestrcpy (p_name p) (str "initcode") 16) p)) ;;
    let* cwd := kernel (fs (namei dev_read [47] name0)) in
    ptable (updp k (fun p => set_files (p_ofile p) cwd p)) ;;
    ptable (make_runnable k).

Definition growproc (cur : nat) (n : Z) : Y Z :=
  let* p := ptable (getp cur) in
  let sz := p_sz p in
  let* r := (if 0 <? n then
               let* sz := kernel (vm (allocuvm kend (p_pgdir p) sz (u32 (sz + n)))) in
               ret (if sz =? 0 then None else Some sz)
             else if n <? 0 then
               let* sz := kernel (vm (deallocuvm kend (p_pgdir p) sz (u32 (sz + n)))) in
               ret (if sz =? 0 then None else Some sz)
             else ret (Some sz)) in
  match r with
  | None => ret (-1)
  | Some sz => ptable (updp cur (fun p => set_mem sz (p_pgdir p) (p_kstack p) p)) ;; ret 0
  end.

(** The loop of [fork] over the open files, from descriptor [i] on. *)
Fixpoint dup_files (np : nat) (i : nat) (l : list (option nat)) : Y unit :=
  match l with
  | [] => ret tt
  | None :: l' => dup_files np (Datatypes.S i) l'
  | Some f :: l' =>
      let* f := kernel (filedup f) in
      ptable (updp np (fun p => set_files (<[i := Some f]> (p_ofile p)) (p_cwd p) p)) ;;
      dup_files np (Datatypes.S i) l'
  end.

Definition fork (cur : nat) : Y Z :=
  let* np := allocproc in
  match np with
  | None => ret (-1)
  | Some np =>
      let* p := ptable (getp cur) in
      let* pgdir := kernel (vm (copyuvm kend kdata (p_pgdir p) (p_sz p))) in
      ptable (updp np (fun q => set_mem (p_sz q) pgdir (p_kstack q) q)) ;;
      let* q := ptable (getp np) in
      if pgdir =? 0 then
        kernel (mem_op (kfree kend (p_kstack q))) ;;
        ptable (updp np (fun q => set_mem (p_sz q) (p_pgdir q) 0 q)) ;;
        ptable (updp np (set_state UNUSED)) ;;
        ret (-1)
      else
        ptable (updp np (fun q => set_mem (p_sz p) (p_pgdir q) (p_kstack q) q)) ;;
        ptable (updp np (set_parent (Some cur))) ;;
        ptable (updp np (set_tf (set_eax 0 (p_tf p)))) ;;
        dup_files np 0 (p_ofile p) ;;
        let* cwd := deref (p_cwd p) in
        let* cwd := kernel (fs (idup cwd)) in
        ptable (updp np (fun q => set_files (p_ofile q) (Some cwd) q)) ;;
        ptable (updp np (fun q => set_name (safestrcpy (p_name q) (p_name p) 16) q)) ;;
        let* q := ptable (getp np) in
        ptable (make_runnable np) ;;
        ret (p_pid q)
  end.

(** [exit]; it does not return. *)
Definition exit {A} (cur : nat) : Y A :=
  let* y := get in
  if bool_decide (initproc (y_tab y) = Some cur) then panic "init exiting"
  else
    let* _ := for_loop (Z.to_nat NOFILE) 0 (fun fd =>
      let* p := ptable (getp cur) in
      let* f := deref (p_ofile p !! Z.to_nat fd) in
      (match f with
       | None => ret tt
       | Some f =>
           as_proc cur (fileclose kend f) ;;
           ptable (updp cur (fun p => set_files (<[Z.to_nat fd := None]> (p_ofile p)) (p_cwd p) p))
       end) ;;
      ret (@None unit)) in
    let* p := ptable (getp cur) in
    let* cwd := deref (p_cwd p) in
    as_proc cur (begin_op ;; fs (iput cwd) ;; end_op) ;;
    ptable (updp cur (fun p => set_files (p_ofile p) None p)) ;;
    ptable (exit_table cur) ;;
    exit_proc.

(** [wait] until it returns or sleeps; a process that wakes up runs it again. *)
Definition wait (cur : nat) : Y Z :=
  let* t := ptable get in
  match wait_scan cur (procs t) 0 false with
  | inl k =>
      let* q := ptable (getp k) in
      kernel (mem_op (kfree kend (p_kstack q))) ;;
      kernel (vm (freevm kend (p_pgdir q))) ;;
      ptable (updp k reap) ;;
      ret (p_pid q)
  | inr havekids =>
      let* p := ptable (getp cur) in
      if negb havekids || p_killed p then ret (-1)
      else ptable (sleep cur (Some (ChanProc cur))) ;; sleep_on (ChanProc cur)
  end.

(** * sysproc.c *)

Definition arg (cur : nat) (n : Z) : Y (option Z) := as_proc cur (k_argint n).

Definition sys_set_sched_priority (cur : nat) : Y Z :=
  let* priority := arg cur 0 in
  match priority with
  | None => ret (-1)
  | Some priority => ptable (set_sched_priority cur priority) ;; ret 0
  end.

(** [sys_get_sched_priority], [sys_fifo_position], [sys_kill] and
    [sys_time_scheduled]: a call of [f] on the first argument. *)
Definition sys_of_int (f : Z -> M ptab Z) (cur : nat) : Y Z :=
  let* pid := arg cur 0 in
  match pid with None => ret (-1) | Some pid => ptable (f pid) end.

Definition sys_getpid (cur : nat) : Y Z := let* p := ptable (getp cur) in ret (p_pid p).

Definition sys_sbrk (cur : nat) : Y Z :=
  let* n := arg cur 0 in
  match n with
  | None => ret (-1)
  | Some n =>
      let* p := ptable (getp cur) in
      ptable (updp cur (fun p => set_mem (u32 (p_sz p + n)) (p_pgdir p) (p_kstack p) p)) ;;
      ret (s32 (p_sz p))
  end.

(** The loop of [sys_sleep]; [n] is converted to [uint] by the comparison. *)
Definition sys_sleep_from (cur : nat) (ticks0 n : Z) : Y Z :=
  let* t := ptable get in
  if u32 (ticks t - ticks0) <? u32 n then
    let* p := ptable (getp cur) in
    if p_killed p then ret (-1)
    else ptable (sleep cur (Some ChanTicks)) ;; sleep_on ChanTicks
  else ret 0.
Definition sys_sleep (cur : nat) : Y Z :=
  let* n := arg cur 0 in
  match n with
  | None => ret (-1)
  | Some n => let* t := ptable get in sys_sleep_from cur (ticks t) n
  end.

Definition sys_uptime : Y Z := let* t := ptable get in ret (s32 (ticks t)).

Definition sys_printProcessTable (cur : nat) : Y Z :=
  let* pid := arg cur 0 in
  match pid with None => exit cur | Some _ => ret eax0 end.

(** sysfile.c [sys_exec]. *)
Definition sys_exec (cur : nat) : Y Z :=
  let* r := as_proc cur (
    let* a := also (k_argstr 0) (k_argint 1) in
    match a with
    | None => ret None
    | Some (path, uargv) =>
        let* u := user in
        let* argv := exec_args (u32 uargv) (Z.to_nat MAXARG + 1) 0 in
        match argv with
        | None => ret None
        | Some argv => exec dev_read kend kdata name0 (ustring u path) argv
        end
    end) in
  match r with
  | None => ret (-1)
  | Some (entry, last) =>
      let* k := kernel get in
      ptable (updp cur (fun p => set_name (safestrcpy (p_name p) last 16) p)) ;;
      ptable (updp cur (fun p => set_tf (set_entry entry (k_esp k) (p_tf p)) p)) ;;
      ret 0
  end.

(** * syscall.c *)

(** The table [syscalls]. *)
Definition syscalls (cur : nat) (num : Z) : option (Y Z) :=
  let f (m : K Z) := Some (as_proc cur m) in
  match num with
  | 1 => Some (fork cur)
  | 2 => Some (exit cur)
  | 3 => Some (wait cur)
  | 4 => f (sys_pipe kend page0)
  | 5 => f (sys_read dev_read)
  | 6 => Some (sys_of_int kill cur)
  | 7 => Some (sys_exec cur)
  | 8 => f sys_fstat
  | 9 => f (sys_chdir dev_read name0)
  | 10 => f sys_dup
  | 11 => Some (sys_getpid cur)
  | 12 => Some (sys_sbrk cur)
  | 13 => Some (sys_sleep cur)
  | 14 => Some sys_uptime
  | 15 => f (sys_open dev_read dev_write kend name0)
  | 16 => f (sys_write dev_write)
  | 17 => f (sys_mknod dev_read dev_write name0)
  | 18 => f (sys_unlink dev_read dev_write name0)
  | 19 => f (sys_link dev_read dev_write name0)
  | 20 => f (sys_mkdir dev_read dev_write name0)
  | 21 => f (sys_close kend)
  | 22 => Some (sys_of_int printProcessTime cur)
  | 23 => Some (sys_set_sched_priority cur)
  | 24 => Some (sys_of_int get_sched_priority cur)
  | 25 => Some (sys_of_int fifo_position cur)
  | 26 => Some (sys_printProcessTable cur)
  | 27 => f (sys_symlink dev_read dev_write name0)
  | 28 => f sys_lseek
  | _ => None
  end.

Definition syscall (cur : nat) : Y unit :=
  let* p := ptable (getp cur) in
  let* r := match syscalls cur (s32 (tf_eax (p_tf p))) with
            | Some f => f
            | None => ret (-1)
            end in
  ptable (updp cur (fun p => set_tf (set_eax (u32 r) (p_tf p)) p)).

(** * trap.c *)

(** [exit()] when the process has been killed. *)
Definition exit_if_killed (cur : nat) : Y unit :=
  let* p := ptable (getp cur) in
  if p_killed p then exit cur else ret tt.

Definition user_mode (tf : trapframe) : bool := Z.land (tf_cs tf) 3 =? DPL_USER.

(** The switch of [trap] for everything but system calls; [cr2] is the address
    of a page fault, [cpu] the number of the CPU. *)
Definition trap_handle (cur : option nat) (cpu : Z) (tf : trapframe) (cr2 : Z) : Y unit :=
  let irq := tf_trapno tf - T_IRQ0 in
  if irq =? IRQ_TIMER then
    if cpu =? 0 then
      ptable (modify (fun t => mkPtab (procs t) (nextpid t) (initproc t) (currentHighestPriority t)
                                (u32 (ticks t + 1)))) ;;
      ptable (wakeup (Some ChanTicks))
    else ret tt
  else if (irq =? 14) || (irq =? 15) || (irq =? 1) || (irq =? 4) || (irq =? 7) || (irq =? 31) then ret tt
  else
    match cur with
    | None => panic "trap"
    | Some cur =>
        if Z.land (tf_cs tf) 3 =? 0 then panic "trap"
        else if tf_trapno tf =? T_PGFLT then
          let* p := ptable (getp cur) in
          let* ok := kernel (vm (allocPage kend (p_pgdir p) cr2 (p_sz p))) in
          if ok then ret tt else panic "allocPage: failed to allocate new page."
        else ptable (updp cur (set_killed true))
    end.

(** The frame of a trap that the kernel's own code takes; only its number and its
    code segment matter. *)
Definition kernel_tf (trapno : Z) : trapframe :=
  mkTf 0 0 0 0 0 0 0 0 0 0 0 0 trapno 0 0 8 0 0 0.

(** The kernel runs [m] for process [cur]: a page fault of its code enters [trap]
    again.  After that the access would be made again, which is not modelled;
    see [nested_panics]. *)
Definition nested {A} (cur : nat) (cpu : Z) (m : Y A) : Y A := fun y =>
  match m y with
  | PgFlt va y' => (trap_handle (Some cur) cpu (kernel_tf T_PGFLT) va ;; fault) y'
  | r => r
  end.

(** [trap]; [true] when the process gave up the CPU, in which case it goes on
    with [trap_resume] when it runs again. *)
Definition trap (cur : option nat) (cpu : Z) (tf : trapframe) (cr2 : Z) : Y bool :=
  if tf_trapno tf =? T_SYSCALL then
    let* cur := deref cur in
    exit_if_killed cur ;;
    ptable (updp cur (set_tf tf)) ;;
    nested cur cpu (syscall cur) ;;
    exit_if_killed cur ;;
    ret false
  else
    trap_handle cur cpu tf cr2 ;;
    match cur with
    | None => ret false
    | Some cur =>
        (if user_mode tf then exit_if_killed cur else ret tt) ;;
        let* p := ptable (getp cur) in
        let* gone := (if bool_decide (p_state p = RUNNING) && (tf_trapno tf =? T_IRQ0 + IRQ_TIMER)
                      then ptable (yield pol cur) else ret false) in
        if gone then ret true
        else (if user_mode tf then exit_if_killed cur else ret tt) ;; ret false
    end.

Definition trap_resume (cur : nat) (tf : trapframe) : Y unit :=
  if user_mode tf then exit_if_killed cur else ret tt.
End kernel.
