(* ===== verification/KernelSpec.v ===== *)
(** Properties of the kernel as a whole (Kernel.v). *)
From S2P Require Import Prelude Layout CString Locks LogRep Fs Kalloc Vm VmTab VmSpace VmCopy VmGrow VmWrite Pipe Syscall File Sysfile Exec Proc Kernel.

Lemma bind_ok {S A B} (m : M S A) (k : A -> M S B) s a s' : m s = Ok a s' -> bind m k s = k a s'.
Proof. unfold bind. by intros ->. Qed.

Lemma ptable_ok {S A} (m : M ptab A) t t' (k : kstate S) a :
  m t = Ok a t' -> ptable m (mkSys t k) = Ok a (mkSys t' k).
Proof. unfold ptable, zoom. cbn. by intros ->. Qed.

(** * Lazily allocated memory *)

(** A trap frame of user code. *)
Definition from_user (trapno : Z) (tf : trapframe) : Prop :=
  tf_trapno tf = trapno /\ Z.land (tf_cs tf) 3 = DPL_USER.

(** The system calls that fetch their first argument before anything else. *)
Definition fetching : list Z := [4; 5; 6; 7; 8; 10; 12; 13; 15; 16; 18; 19; 21; 22; 23; 24; 25; 26; 27; 28].

Section lazy.
Context {S : Type} `{!BlockIO S}.
Context (dev_read : Z -> option (nat -> Z -> M (fstate S) (Z * bytes))).
Context (dev_write : Z -> option (nat -> bytes -> Z -> M (fstate S) Z)).
Context (kend kdata : Z) (name0 page0 : bytes) (pol : policy) (eax0 : Z).
Local Abbreviation ktrap := (trap dev_read dev_write kend kdata name0 page0 pol eax0).

(** Process [cur] is [p], and has no pages at [sz0] and above. *)
Record lazy (y : sys S) (cur : nat) (p : proc) (sz0 : Z) (l : list Z) : Prop := {
  lz_proc : procs (y_tab y) !! cur = Some p;
  lz_live : p_killed p = false;
  lz_cwd : is_Some (p_cwd p);
  lz_rep : vrep kend (k_mem (y_k y)) l;
  lz_as : aspace (k_mem (y_k y)) (p_pgdir p);
  lz_none : forall va, PGROUNDUP sz0 <= va < KERNBASE -> upage (k_mem (y_k y)) (p_pgdir p) va = None;
  lz_sz : 0 <= sz0 <= p_sz p /\ p_sz p <= KERNBASE
}.

Lemma getp_ok cur p (y : sys S) : procs (y_tab y) !! cur = Some p -> ptable (getp cur) y = Ok p y.
Proof. destruct y as [t k]. intros Hp. apply ptable_ok. unfold getp. cbn in Hp. by rewrite Hp. Qed.

Lemma alive cur p (y : sys S) :
  procs (y_tab y) !! cur = Some p -> p_killed p = false -> exit_if_killed kend cur y = Ok tt y.
Proof. intros Hp Hk. unfold exit_if_killed. by rewrite (bind_ok _ _ _ _ _ (getp_ok _ _ _ Hp)), Hk. Qed.

Lemma updp_ok cur p f (y : sys S) :
  procs (y_tab y) !! cur = Some p ->
  ptable (updp cur f) y = Ok tt (mkSys (set_procs (alter f cur (procs (y_tab y))) (y_tab y)) (y_k y)).
Proof. destruct y as [t k]. intros Hp. apply ptable_ok. unfold updp. cbn in Hp. by rewrite Hp. Qed.

Lemma updp_ex cur p f (y : sys S) :
  procs (y_tab y) !! cur = Some p ->
  exists y', ptable (updp cur f) y = Ok tt y' /\ procs (y_tab y') !! cur = Some (f p) /\ y_k y' = y_k y.
Proof.
  intros Hp. eexists. split_and!; [by eapply updp_ok| |done].
  cbn. rewrite list_lookup_alter_eq, Hp. done.
Qed.

(** * Page faults *)

Definition with_mem (s : vmem) (y : sys S) : sys S := mkSys (y_tab y) (File.set_mem s (y_k y)).

Lemma handle_fault cur p cpu tf cr2 (y : sys S) :
  procs (y_tab y) !! cur = Some p -> from_user T_PGFLT tf ->
  trap_handle kend (Some cur) cpu tf cr2 y =
    (let* ok := kernel (vm (allocPage kend (p_pgdir p) cr2 (p_sz p))) in
     if ok then ret tt else panic "allocPage: failed to allocate new page.") y.
Proof.
  intros Hp [Htn Hcs]. unfold trap_handle. rewrite Htn, Hcs. change (14 - T_IRQ0) with (-18).
  exact (bind_ok _ _ _ _ _ (getp_ok _ _ _ Hp)).
Qed.

(** A page fault of user code for which [allocPage] returns 1. *)
Lemma trap_fault_ok cur p cpu tf cr2 (y : sys S) s' :
  procs (y_tab y) !! cur = Some p -> p_killed p = false -> from_user T_PGFLT tf ->
  allocPage kend (p_pgdir p) cr2 (p_sz p) (k_mem (y_k y)) = Ok true s' ->
  ktrap (Some cur) cpu tf cr2 y = Ok false (with_mem s' y).
Proof.
  intros Hp Hk Hu Ha. assert (Hh : trap_handle kend (Some cur) cpu tf cr2 y = Ok tt (with_mem s' y)).
  { rewrite (handle_fault _ _ _ _ _ _ Hp Hu). rewrite (bind_ok _ _ _ true (with_mem s' y)); [done|].
    unfold kernel, vm, zoom. by rewrite Ha. }
  assert (Hp' : procs (y_tab (with_mem s' y)) !! cur = Some p) by done. destruct Hu as [Htn Hcs].
  pose proof (alive _ _ _ Hp' Hk) as He. unfold trap, user_mode. rewrite Htn, Hcs.
  change (T_PGFLT =? T_SYSCALL) with false. cbn match.
  rewrite (bind_ok _ _ _ _ _ Hh). change (DPL_USER =? DPL_USER) with true. cbn match.
  rewrite (bind_ok _ _ _ _ _ He), (bind_ok _ _ _ _ _ (getp_ok _ _ _ Hp')), andb_false_r.
  rewrite (bind_ok _ _ _ false (with_mem s' y)) by done. by rewrite (bind_ok _ _ _ _ _ He).
Qed.

Lemma trap_fault_panic cur p cpu tf cr2 (y : sys S) e :
  procs (y_tab y) !! cur = Some p -> from_user T_PGFLT tf ->
  allocPage kend (p_pgdir p) cr2 (p_sz p) (k_mem (y_k y)) = Panic e ->
  ktrap (Some cur) cpu tf cr2 y = Panic e.
Proof.
  intros Hp Hu Ha. unfold trap. rewrite (proj1 Hu). change (T_PGFLT =? T_SYSCALL) with false. cbn match.
  apply bind_panic. rewrite (handle_fault _ _ _ _ _ _ Hp Hu). apply bind_panic.
  unfold kernel, vm, zoom. by rewrite Ha.
Qed.

(** A page fault of the kernel's own code. *)
Lemma nested_panics {A} cur cpu (m : M (sys S) A) y va y' :
  m y = PgFlt va y' -> nested kend cur cpu m y = Panic "trap".
Proof. intros E. unfold nested. by rewrite E. Qed.

Lemma lazy_built y cur p sz0 l :
  lazy y cur p sz0 l -> exists s0 l0, vrep kend s0 l0 /\ built kend s0 l0 (p_pgdir p) [] (k_mem (y_k y)) l /\
    (length l <= length l0)%nat /\ forall n, upg n -> pages sz0 <= n -> ufr (k_mem (y_k y)) (p_pgdir p) n = None.
Proof.
  intros [_ _ _ Hv Ha Hno Hsz]. destruct (carve kend _ l _ Hv Ha) as (s0 & l0 & Hv0 & Hb & _). exists s0, l0.
  split_and!; [done|done|..].
  - apply submseteq_length, NoDup_submseteq; [apply (vr_mem _ _ _ Hv)|]. intros q Hq.
    apply (bu_free _ _ _ _ _ _ _ Hb). by left.
  - intros n Hn Hlo. unfold upg in Hn. specialize (Hno (4096 * n)). unfold KERNBASE in *.
    rewrite PGROUNDUP_div in Hno by lia. fold (pages sz0) in Hno. specialize (Hno ltac:(lia)).
    rewrite (upage_ufr kend _ l), (Z.mul_comm 4096 n), Z.div_mul in Hno by (done || apply Ha || lia).
    by destruct (ufr _ _ n).
Qed.

(** The page of a lazily allocated address. *)
Lemma lazy_page sz0 sz va :
  0 <= sz0 <= sz -> sz <= KERNBASE -> PGROUNDUP sz0 <= va < sz ->
  PGROUNDDOWN va = 4096 * (va / 4096) /\ pages sz0 <= va / 4096 < pages sz.
Proof.
  intros H0 Hk Hva. unfold KERNBASE in *. rewrite PGROUNDUP_div in Hva by lia. fold (pages sz0) in Hva.
  destruct (pages_spec sz0 ltac:(lia)) as [? _]. destruct (pages_spec sz ltac:(lia)) as [_ ?].
  split; [apply PGROUNDDOWN_div; lia|]. pose proof (Z.div_mod va 4096). pose proof (Z.mod_pos_bound va 4096). lia.
Qed.

(** The first fault in memory that [sbrk] gave maps it from that page on. *)
Lemma lazy_touch y cur p sz0 l va :
  lazy y cur p sz0 l -> 1026 + pages (p_sz p) < Z.of_nat (length l) -> PGROUNDUP sz0 <= va < p_sz p ->
  exists s0 l0 s' l', vrep kend s0 l0 /\ (length l <= length l0)%nat /\
    allocPage kend (p_pgdir p) va (p_sz p) (k_mem (y_k y)) = Ok true s' /\
    built kend s0 l0 (p_pgdir p) [] s' l' /\ grown (p_pgdir p) (k_mem (y_k y)) (va / 4096) (pages (p_sz p)) s'.
Proof.
  intros Hl Hroom Hva. destruct (lazy_built _ _ _ _ _ Hl) as (s0 & l0 & Hv0 & Hb & Hlen & Hno).
  pose proof (lz_sz _ _ _ _ _ Hl) as [Hsz Hk]. destruct (lazy_page sz0 (p_sz p) va ltac:(lia) Hk Hva) as [Ep Hp].
  destruct (pages_spec sz0 ltac:(lia)) as [? _].
  edestruct (wp_inv (allocPage kend (p_pgdir p) va (p_sz p)) (k_mem (y_k y)) (fun r s' => r = true /\ exists l',
    built kend s0 l0 (p_pgdir p) [] s' l' /\ grown (p_pgdir p) (k_mem (y_k y)) (va / 4096) (pages (p_sz p)) s'))
    as (r & s' & E & -> & l' & Hb' & Hg).
  - eapply (wp_allocPage kend s0 l0 _ _ l (va / 4096)); [done|done|done|lia|lia|intros; apply Hno; [done|lia]|lia|].
    intros s' l' H1 H2. split; [done|]. by exists l'.
  - exists s0, l0, s', l'. by split_and!.
Qed.

(** * Arguments of system calls in such memory *)

Definition pgflt {T A} (m : M T A) (s : T) : Prop := exists va s', m s = PgFlt va s'.

Lemma pgflt_bind {T A B} (m : M T A) (k : A -> M T B) s : pgflt m s -> pgflt (bind m k) s.
Proof. intros (va & s' & E). exists va, s'. unfold bind. by rewrite E. Qed.

Lemma pgflt_as_proc {A} cur p cwd (m : M (kstate S) A) (y : sys S) :
  procs (y_tab y) !! cur = Some p -> p_cwd p = Some cwd -> pgflt m (load_proc p cwd (y_k y)) -> pgflt (as_proc cur m) y.
Proof.
  intros Hp Hc (va & s' & E). unfold pgflt, as_proc, zoom. rewrite Hp, Hc, E. by eexists _, _.
Qed.

(** The word of the first argument is below the size but not present. *)
Definition absent_arg (k : kstate S) : Prop :=
  let a := u32 (k_esp k + 4) in
  a + 4 <= k_sz k <= KERNBASE /\ umapped (k_mem k) (k_pgdir k) a 4 = false.

Lemma pgflt_argint k : absent_arg k -> pgflt (k_argint 0) k.
Proof.
  intros [Ha Hu]. unfold pgflt, k_argint, user, gets, get, bind at 1. cbv beta iota. cbn [u_esp].
  unfold argint, fetchint. cbn [u_sz u_esp u_mem]. replace (k_esp k + 4 + 4 * 0) with (k_esp k + 4) by lia.
  pose proof (u32_range (k_esp k + 4)). unfold KERNBASE in *.
  rewrite (proj2 (Z.leb_gt _ _)), (u32_small (u32 _ + 4)), (proj2 (Z.ltb_ge _ _)) by lia. cbn [orb].
  apply pgflt_bind. unfold pgflt, touch, get, bind. rewrite Hu. by eexists _, _.
Qed.

Lemma fetching_faults cur p cwd num f (y : sys S) :
  procs (y_tab y) !! cur = Some p -> p_cwd p = Some cwd -> absent_arg (load_proc p cwd (y_k y)) -> num ∈ fetching ->
  syscalls dev_read dev_write kend kdata name0 page0 pol eax0 cur num = Some f -> pgflt f y.
Proof.
  intros Hp Hc Ha%pgflt_argint Hn. unfold fetching in Hn.
  repeat match goal with
         | H : _ ∈ _ :: _ |- _ => apply elem_of_cons in H as [->|H]
         | H : _ ∈ [] |- _ => by apply not_elem_of_nil in H
         end; cbn [syscalls]; intros [= <-];
    try (eapply pgflt_as_proc; [done|done|]);
    repeat first [exact Ha | apply pgflt_bind | eapply pgflt_as_proc; [done|done|]
                 | progress unfold sys_pipe, sys_read, sys_of_int, sys_exec, sys_fstat, sys_dup, sys_sbrk, sys_sleep, sys_open,
                     sys_write, sys_unlink, sys_link, sys_close, sys_set_sched_priority, sys_printProcessTable, sys_symlink,
                     sys_lseek, also, path_of, argfd, k_argstr, k_argptr, arg].
Qed.

(** The start of a system call, up to the handler. *)
Lemma trap_syscall cur p cpu tf cr2 (y : sys S) :
  procs (y_tab y) !! cur = Some p -> p_killed p = false -> tf_trapno tf = T_SYSCALL ->
  exists y0, procs (y_tab y0) !! cur = Some (set_tf tf p) /\ y_k y0 = y_k y /\
    ktrap (Some cur) cpu tf cr2 y =
      (nested kend cur cpu (syscall dev_read dev_write kend kdata name0 page0 pol eax0 cur) ;;
       exit_if_killed kend cur ;; ret false) y0.
Proof.
  intros Hp Hk Ht. destruct (updp_ex cur p (set_tf tf) y Hp) as (y0 & E & Hp0 & K0). exists y0. split_and!; [done|done|].
  unfold trap. rewrite Ht. change (T_SYSCALL =? T_SYSCALL) with true. cbn match.
  rewrite (bind_ok _ _ _ cur y) by done. rewrite (bind_ok _ _ _ _ _ (alive _ _ _ Hp Hk)).
  exact (bind_ok _ _ _ _ _ E).
Qed.

Lemma trap_fetch_panics cur p cpu tf cr2 (y : sys S) :
  procs (y_tab y) !! cur = Some p -> p_killed p = false -> is_Some (p_cwd p) ->
  tf_trapno tf = T_SYSCALL -> s32 (tf_eax tf) ∈ fetching -> u32 (tf_esp tf + 4) + 4 <= p_sz p <= KERNBASE ->
  umapped (k_mem (y_k y)) (p_pgdir p) (u32 (tf_esp tf + 4)) 4 = false ->
  ktrap (Some cur) cpu tf cr2 y = Panic "trap".
Proof.
  intros Hp Hk [cwd Hc] Ht Hn Hsz Hu. destruct (trap_syscall cur p cpu tf cr2 y Hp Hk Ht) as (y0 & Hp0 & E0 & ->).
  apply bind_panic. assert (pgflt (syscall dev_read dev_write kend kdata name0 page0 pol eax0 cur) y0) as (va & y' & E).
  2: exact (nested_panics _ _ _ _ _ _ E).
  unfold pgflt, syscall. rewrite (bind_ok _ _ _ _ _ (getp_ok _ _ _ Hp0)). cbn [p_tf set_tf].
  destruct (syscalls dev_read dev_write kend kdata name0 page0 pol eax0 cur (s32 (tf_eax tf))) as [f|] eqn:Ef.
  - apply pgflt_bind. eapply (fetching_faults cur _ cwd _ f y0 Hp0 Hc); [|exact Hn|exact Ef].
    rewrite E0. by split.
  - unfold fetching in Hn. by repeat (apply elem_of_cons in Hn as [Hn|Hn]; [by rewrite Hn in Ef|]); apply not_elem_of_nil in Hn.
Qed.

(** The arguments the process passes on its stack. *)
Definition uargs (y : sys S) (p : proc) (tf : trapframe) : uproc :=
  mkU (umem (k_mem (y_k y)) (p_pgdir p)) (p_sz p) (tf_esp tf).

Lemma arg_ok cur p cwd (y : sys S) v :
  procs (y_tab y) !! cur = Some p -> p_cwd p = Some cwd ->
  argint (uargs y p (p_tf p)) 0 = Some v -> umapped (k_mem (y_k y)) (p_pgdir p) (u32 (tf_esp (p_tf p) + 4)) 4 = true ->
  exists y', arg cur 0 y = Ok (Some v) y' /\ procs (y_tab y') !! cur = Some p /\ k_mem (y_k y') = k_mem (y_k y).
Proof.
  intros Hp Hc Hv Hu. unfold uargs in Hv. unfold arg, as_proc, zoom. rewrite Hp, Hc.
  assert (E : k_argint 0 (load_proc p cwd (y_k y)) = Ok (Some v) (load_proc p cwd (y_k y))).
  { unfold k_argint, user, gets, get, bind at 1. cbv beta iota. cbn [load_proc k_mem k_pgdir k_sz k_esp]. rewrite Hv.
    cbn [u_esp]. unfold touch, get, bind. replace (tf_esp (p_tf p) + 4 + 4 * 0) with (tf_esp (p_tf p) + 4) by lia.
    cbn [load_proc k_mem k_pgdir]. by rewrite Hu. }
  rewrite E. eexists. split_and!; [done| |done]. cbn. rewrite list_lookup_alter_eq, Hp. cbn. f_equal.
  destruct p; cbn in *. by subst.
Qed.

(** [sbrk] adds to the size, and touches no memory. *)
Lemma trap_sbrk cur p cpu tf cr2 n (y : sys S) :
  procs (y_tab y) !! cur = Some p -> p_killed p = false -> is_Some (p_cwd p) ->
  tf_trapno tf = T_SYSCALL -> s32 (tf_eax tf) = 12 -> argint (uargs y p tf) 0 = Some n ->
  umapped (k_mem (y_k y)) (p_pgdir p) (u32 (tf_esp tf + 4)) 4 = true ->
  exists y' p', ktrap (Some cur) cpu tf cr2 y = Ok false y' /\ procs (y_tab y') !! cur = Some p' /\
    k_mem (y_k y') = k_mem (y_k y) /\ p_pgdir p' = p_pgdir p /\ p_sz p' = u32 (p_sz p + n) /\
    p_killed p' = false /\ p_cwd p' = p_cwd p /\ tf_eax (p_tf p') = u32 (s32 (p_sz p)).
Proof.
  intros Hp Hk [cwd Hc] Ht Hn Hv Hu. destruct (trap_syscall cur p cpu tf cr2 y Hp Hk Ht) as (y0 & Hp0 & E0 & ->).
  destruct (arg_ok cur _ cwd y0 n Hp0) as (y1 & E1 & Hp1 & Hm1); [done|unfold uargs; by rewrite E0|by rewrite E0|].
  destruct (updp_ex cur _ (fun p => set_mem (u32 (p_sz p + n)) (p_pgdir p) (p_kstack p) p) y1 Hp1) as (y2 & E2 & Hp2 & K2).
  destruct (updp_ex cur _ (fun q => set_tf (set_eax (u32 (s32 (p_sz (set_tf tf p)))) (p_tf q)) q) y2 Hp2) as (y3 & E3 & Hp3 & K3).
  assert (Es : syscall dev_read dev_write kend kdata name0 page0 pol eax0 cur y0 = Ok tt y3).
  { unfold syscall. rewrite (bind_ok _ _ _ _ _ (getp_ok _ _ _ Hp0)). cbn [p_tf set_tf]. rewrite Hn. cbn [syscalls].
    rewrite (bind_ok _ _ _ (s32 (p_sz (set_tf tf p))) y2); [exact E3|]. unfold sys_sbrk. rewrite (bind_ok _ _ _ _ _ E1).
    rewrite (bind_ok _ _ _ _ _ (getp_ok _ _ _ Hp1)). by rewrite (bind_ok _ _ _ _ _ E2). }
  exists y3. eexists. split_and!; [|exact Hp3|by rewrite K3, K2, Hm1, E0|done..].
  rewrite (bind_ok _ _ _ tt y3) by (unfold nested; by rewrite Es).
  by rewrite (bind_ok _ _ _ _ _ (alive _ _ _ Hp3 Hk)).
Qed.

(** * The theorem *)

(** A word that ends in the new memory is not mapped. *)
Lemma lazy_unmapped y cur p sz0 l a :
  lazy y cur p sz0 l -> PGROUNDUP sz0 <= a + 3 < KERNBASE -> umapped (k_mem (y_k y)) (p_pgdir p) a 4 = false.
Proof.
  intros Hl Ha. apply not_true_iff_false. unfold umapped. rewrite forallb_forall. intros Hall.
  specialize (Hall 3%nat ltac:(cbn; tauto)). unfold ubyte_mapped in Hall. change (Z.of_nat 3) with 3 in Hall.
  by rewrite (lz_none _ _ _ _ _ Hl) in Hall.
Qed.

Section grown_process.
Context (y : sys S) (cur : nat) (p : proc) (sz0 : Z) (l : list Z).
Context (Hl : lazy y cur p sz0 l) (Hroom : 1026 + pages (p_sz p) < Z.of_nat (length l)).

Lemma lazy_remap c1 tf1 va1 c2 tf2 va2 :
  from_user T_PGFLT tf1 -> from_user T_PGFLT tf2 -> PGROUNDUP sz0 <= va2 -> va2 / 4096 < va1 / 4096 -> va1 < p_sz p ->
  (let* _ := ktrap (Some cur) c1 tf1 va1 in ktrap (Some cur) c2 tf2 va2) y = Panic "remap".
Proof.
  intros Hu1 Hu2 Hlo Hlt Hhi. pose proof (lz_sz _ _ _ _ _ Hl) as [Hsz HK].
  assert (va2 < va1).
  { pose proof (Z.div_mod va1 4096). pose proof (Z.mod_pos_bound va1 4096). pose proof (Z.div_mod va2 4096).
    pose proof (Z.mod_pos_bound va2 4096). lia. }
  destruct (lazy_touch _ _ _ _ _ va1 Hl Hroom ltac:(lia)) as (s0 & l0 & s' & l' & Hv0 & Hlen & E & Hb & Hg).
  destruct (lazy_page sz0 (p_sz p) va1 Hsz HK ltac:(lia)) as [_ Hk1].
  destruct (lazy_page sz0 (p_sz p) va2 Hsz HK ltac:(lia)) as [E2 Hk2]. destruct (pages_spec sz0 ltac:(lia)) as [? _].
  rewrite (bind_ok _ _ _ _ _ (trap_fault_ok _ _ _ _ _ _ _ (lz_proc _ _ _ _ _ Hl) (lz_live _ _ _ _ _ Hl) Hu1 E)).
  eapply trap_fault_panic; [apply Hl|done|]. cbn [with_mem y_k k_mem File.set_mem].
  destruct (gr_new _ _ _ _ _ Hg (va1 / 4096) ltac:(lia)) as (q & Eq & _).
  eapply (allocPage_remap kend s0 l0 _ s' l' (va2 / 4096) (va1 / 4096)); [done|done|done|lia|lia|lia|by eexists|apply Hg|lia].
Qed.

Lemma lazy_call c1 tf1 cr2 :
  from_user T_SYSCALL tf1 -> s32 (tf_eax tf1) ∈ fetching -> PGROUNDUP sz0 <= tf_esp tf1 + 4 ->
  tf_esp tf1 + 8 <= p_sz p -> ktrap (Some cur) c1 tf1 cr2 y = Panic "trap".
Proof.
  intros [Ht _] Hn Hlo Hhi. pose proof Hl as [Hp Hlive Hcwd _ _ _ [Hsz HK]].
  assert (0 <= PGROUNDUP sz0).
  { unfold KERNBASE in HK. rewrite PGROUNDUP_div by lia. fold (pages sz0). destruct (pages_spec sz0 ltac:(lia)). lia. }
  assert (Ea : u32 (tf_esp tf1 + 4) = tf_esp tf1 + 4) by (apply u32_small; unfold KERNBASE in HK; lia).
  eapply trap_fetch_panics; rewrite ?Ea; try done; [lia|]. eapply lazy_unmapped; [exact Hl|lia].
Qed.

Lemma lazy_first c1 tf1 va1 :
  from_user T_PGFLT tf1 -> PGROUNDUP sz0 <= va1 < p_sz p -> va1 < PGROUNDUP sz0 + PGSIZE ->
  exists s', ktrap (Some cur) c1 tf1 va1 y = Ok false (with_mem s' y) /\
    (forall va, PGROUNDUP sz0 <= va < p_sz p -> umem s' (p_pgdir p) va = 0 /\ is_Some (upage s' (p_pgdir p) va)) /\
    (forall va, 0 <= va < PGROUNDUP sz0 ->
       upage s' (p_pgdir p) va = upage (k_mem (y_k y)) (p_pgdir p) va /\
       umem s' (p_pgdir p) va = umem (k_mem (y_k y)) (p_pgdir p) va).
Proof.
  intros Hu Hva Hfirst. pose proof Hl as [Hp Hlive Hcwd Hv Ha _ [Hsz HK]].
  destruct (lazy_touch _ _ _ _ _ va1 Hl Hroom Hva) as (s0 & l0 & s' & l' & Hv0 & _ & E & Hb & Hg). exists s'.
  destruct (pages_spec sz0 ltac:(lia)) as [H0 _]. destruct (pages_spec (p_sz p) ltac:(lia)) as [_ Hhi].
  unfold KERNBASE, PGSIZE in *. rewrite PGROUNDUP_div in * by lia. fold (pages sz0) in *.
  replace (va1 / 4096) with (pages sz0) in Hg by (apply Z.div_unique with (va1 - 4096 * pages sz0); lia).
  split_and!.
  - by eapply trap_fault_ok.
  - intros va Hr. destruct (grown_mid kend s' l' _ _ _ _ va (bu_rep _ _ _ _ _ _ _ Hb) (as_pt _ _ (bu_as _ _ _ _ _ _ _ Hb)) Hg)
      as (Hz & e & q & Eq & _); [lia|lia|lia|]. split; [done|]. by rewrite Eq.
  - intros va Hr. eapply (grown_below kend _ l s' l'); [done|apply Ha|apply Hb|apply Hb|exact Hg|lia|done].
Qed.
End grown_process.


(** A wild access is not stopped.  A page fault of a user program at an
    address above the size of the process, which has not been killed, returns
    to the program with nothing changed, so that it faults again, instead of
    killing it. *)
Theorem wild_access_ignored (y : sys S) cur p cpu tf cr2 :
  procs (y_tab y) !! cur = Some p -> p_killed p = false ->
  from_user T_PGFLT tf -> p_sz p <= PGROUNDDOWN cr2 ->
  ktrap (Some cur) cpu tf cr2 y = Ok false y.
Proof.
  intros Hp Hk Hu Hsz. rewrite (trap_fault_ok cur p cpu tf cr2 y (k_mem (y_k y)) Hp Hk Hu).
  - by destruct y as [? []].
  - unfold allocPage. rewrite Nat.add_comm. cbn [while_loop Nat.add]. unfold bind at 1.
    by rewrite (proj2 (Z.ltb_ge _ _)).
Qed.
End lazy.

(** A process with one page of memory; the word at 104 is 8192. *)
Definition lazy_data : bytes := put32 (replicate 4096 0) 104 8192.
Definition lazy_vm : vmem := write_page demo_vm demo_frame lazy_data.
Definition lazy_proc : proc :=
  Proc.set_mem 4096 demo_dir 1 (set_state RUNNING (set_files (p_ofile proc_zero) (Some 0%nat) proc_zero)).

(** A state without a disk, for a run that does not use one. *)
#[local] Instance no_disk : BlockIO unit :=
  Build_BlockIO unit (fun _ _ => fault) (fun _ => fault) (fun _ => fault) (fun _ _ => fault) (fun _ => fault)
    fault fault.
Definition no_fs : fstate unit := mkF tt [] (mkSuperblock 0 0 0 0 0 0 0) 0 0.
Definition lazy_sys : sys unit :=
  mkSys (mkPtab [lazy_proc] 2 None 0 0) (mkK no_fs [] ∅ lazy_vm [] false 0 0 0).

(** A trap of the process from user mode. *)
Definition lazy_tf (trapno eax esp : Z) : trapframe :=
  mkTf 0 0 0 0 0 0 0 eax 0 0 35 35 trapno 0 0 27 FL_IF esp 35.
Definition lazy_trap (tf : trapframe) (cr2 : Z) : M (sys unit) bool :=
  trap (fun _ => None) (fun _ => None) demo_kend demo_kdata [] [] DEFAULT 0 (Some 0%nat) 0 tf cr2.

Lemma lazy_sys_ok : lazy demo_kend lazy_sys 0 lazy_proc 4096 (demo_pages 3 1197).
Proof.
  destruct demo_vm_built as (Hb & Hu & Hno).
  destruct (built_write demo_kend demo_vm0 (demo_pages 0 1200) demo_dir [] demo_vm (demo_pages 3 1197) demo_frame lazy_data)
    as [Hw Hp]; [apply demo_vm0_rep|exact Hb|exists 0; split; [unfold upg; lia|exact Hu]|reflexivity|].
  split; [reflexivity|reflexivity|by eexists|apply Hw|apply Hw| |cbn; unfold KERNBASE; lia].
  change (PGROUNDUP 4096) with 4096. unfold KERNBASE. intros va Hva. cbn [lazy_sys y_k k_mem lazy_proc p_pgdir].
  change (p_pgdir lazy_proc) with demo_dir.
  rewrite (upage_ufr demo_kend lazy_vm (demo_pages 3 1197)); [|apply Hw|apply Hw|lia].
  assert (1 <= va / 4096 < 524288) by (split; [apply Z.div_le_lower_bound; lia|apply Z.div_lt_upper_bound; lia]).
  unfold ufr, lazy_vm. rewrite Hp by (unfold pg; lia). fold (ufr demo_vm demo_dir (va / 4096)).
  by rewrite Hno by (unfold upg; lia).
Qed.


Lemma wild_access_ignored_witness :
  lazy_trap (lazy_tf T_PGFLT 0 100) 1000000 lazy_sys = Ok false lazy_sys.
Proof.
  apply (wild_access_ignored (fun _ => None) (fun _ => None) demo_kend demo_kdata [] [] DEFAULT 0 lazy_sys
    0 lazy_proc); [reflexivity|reflexivity|split; reflexivity|]. vm_compute. discriminate.
Defined.
