(* ===== verification/KernelFork.v ===== *)
(** proc.c [fork] across the process table, the memory and the open files. *)
From S2P Require Import Prelude Layout CString Locks LogRep Fs Kalloc Vm VmTab VmSpace VmCopy Pipe Syscall File FileWrite FsInode Sysfile Exec Proc ProcInv Kernel.

Section fork.
Context {S : Type} `{!BlockIO S}.
Local Abbreviation Y := (M (sys S)).

(** * Rules for the parts of the state *)

Lemma wp_getp k p t (Q : proc -> ptab -> Prop) : procs t !! k = Some p -> Q p t -> wp (getp k) t Q.
Proof. intros Hp HQ. unfold wp, getp. by rewrite Hp. Qed.

Lemma wp_updp k p f t (Q : unit -> ptab -> Prop) :
  procs t !! k = Some p -> Q tt (set_procs (<[k := f p]> (procs t)) t) -> wp (updp k f) t Q.
Proof.
  intros Hp HQ. unfold wp, updp. by rewrite Hp, (alter_insert _ _ _ _ Hp).
Qed.

Lemma wp_ptable {A} (m : M ptab A) t (k : kstate S) (Q : A -> sys S -> Prop) :
  wp m t (fun a t' => Q a (mkSys t' k)) -> wp (ptable m) (mkSys t k) Q.
Proof. intros H. by apply wp_zoom. Qed.

Lemma wp_kernel {A} (m : M (kstate S) A) t (k : kstate S) (Q : A -> sys S -> Prop) :
  wp m k (fun a k' => Q a (mkSys t k')) -> wp (kernel m) (mkSys t k) Q.
Proof. intros H. by apply wp_zoom. Qed.

Lemma wp_vm {A} (m : M vmem A) (k : kstate S) (Q : A -> kstate S -> Prop) :
  wp m (k_mem k) (fun a s => Q a (File.set_mem s k)) -> wp (vm m) k Q.
Proof. intros H. by apply wp_zoom. Qed.

(** The next update of an entry that was just updated. *)
Ltac upd_again :=
  eapply wp_updp;
    [cbn [procs set_procs set_nextpid set_initproc]; apply list_lookup_insert_eq;
     rewrite ?length_insert; assumption
    |cbn [procs set_procs set_nextpid set_initproc]; rewrite ?list_insert_insert_eq].

(** * allocproc *)

(** The entry [allocproc] has filled, before it has a stack. *)
Definition fresh_proc (pol : policy) (pid : Z) (p : proc) : proc :=
  let p := set_times 0 0 0 (set_pid pid (set_state EMBRYO p)) in
  match pol with PRIORITY => set_priority DEFAULT_PRIORITY p | _ => p end.

Lemma wp_allocproc_entry pol t (Q : option nat -> ptab -> Prop) :
  ((forall k p, procs t !! k = Some p -> p_state p <> UNUSED) -> Q None t) ->
  (forall k p, procs t !! k = Some p -> p_state p = UNUSED ->
     Q (Some k) (set_nextpid (s32 (nextpid t + 1)) (set_procs (<[k := fresh_proc pol (nextpid t) p]> (procs t)) t))) ->
  wp (allocproc_entry pol) t Q.
Proof.
  intros HN HS. unfold allocproc_entry. apply wp_bind, wp_get.
  destruct (find_proc _ _ _) as [k|] eqn:E.
  - apply find_proc_some in E as (j & p & -> & Hp & Hu & _). apply bool_decide_eq_true in Hu. cbn [Nat.add].
    pose proof (lookup_lt_Some _ _ _ Hp) as Hlt. specialize (HS j p Hp Hu).
    apply wp_bind, (wp_updp _ p); [done|]. apply wp_bind. upd_again. apply wp_bind, wp_modify, wp_bind.
    upd_again. apply wp_bind. destruct pol; [apply wp_ret, wp_ret, HS..|].
    upd_again. apply wp_ret, HS.
  - apply wp_ret, HN. intros k p Hk Hu. apply (find_proc_none _ _ _ _ _ E) in Hk.
    by apply bool_decide_eq_false in Hk.
Qed.

(** * Sharing the open files *)

Definition count (l : list (option nat)) (f : nat) : Z := Z.of_nat (length (filter (fun o => o = Some f) l)).

Record refs_added (l : list (option nat)) (ft ft' : list file) : Prop := {
  ra_len : length ft' = length ft;
  ra_ref : forall f x, ft !! f = Some x -> ft' !! f = Some (set_fref (fd_ref x + count l f) x)
}.

Lemma set_fref_same x : set_fref (fd_ref x) x = x.
Proof. by destruct x. Qed.

Lemma refs_added_nil ft : refs_added [] ft ft.
Proof. split; [done|]. intros f x Hf. unfold count. cbn. by rewrite Z.add_0_r, set_fref_same. Qed.

Lemma refs_added_none l ft ft' : refs_added l ft ft' -> refs_added (None :: l) ft ft'.
Proof. intros [H1 H2]. split; [done|]. intros f x Hf. rewrite (H2 f x Hf). unfold count. by rewrite filter_cons_False. Qed.

Lemma refs_added_some f x l ft ft' :
  ft !! f = Some x -> refs_added l (<[f := set_fref (fd_ref x + 1) x]> ft) ft' -> refs_added (Some f :: l) ft ft'.
Proof.
  intros Hx [H1 H2]. split; [by rewrite H1, length_insert|]. intros g y Hg.
  destruct (decide (g = f)) as [->|Hne].
  - rewrite Hx in Hg. injection Hg as ->. rewrite (H2 f (set_fref (fd_ref y + 1) y)).
    + unfold count. rewrite filter_cons_True by done. cbn. f_equal. unfold set_fref. cbn. f_equal. lia.
    + apply list_lookup_insert_eq. by eapply lookup_lt_Some.
  - rewrite (H2 g y) by (by rewrite list_lookup_insert_ne). unfold count.
    by rewrite filter_cons_False by congruence.
Qed.

Definition files_ok (l : list (option nat)) (ft : list file) : Prop :=
  forall f, Some f ∈ l -> exists x, ft !! f = Some x /\ 1 <= fd_ref x.

Lemma wp_dup_files np l : forall a q t (k : kstate S) (Q : unit -> sys S -> Prop),
  procs t !! np = Some q -> p_ofile q = a ++ replicate (length l) None -> files_ok l (k_ftable k) ->
  (forall ft, refs_added l (k_ftable k) ft ->
     Q tt (mkSys (set_procs (<[np := set_files (a ++ l) (p_cwd q) q]> (procs t)) t) (set_ftable ft k))) ->
  wp (dup_files np (length a) l) (mkSys t k) Q.
Proof.
  induction l as [|[f|] l IH]; intros a q t k Q Hq Ho Hok HQ; cbn [dup_files].
  - apply wp_ret. specialize (HQ _ (refs_added_nil _)). cbn in Ho.
    replace (set_files (a ++ []) (p_cwd q) q) with q in HQ by (rewrite <- Ho; by destruct q).
    rewrite list_insert_id in HQ by done. by destruct t, k.
  - destruct (Hok f ltac:(by left)) as (x & Hx & Hr). apply wp_bind, wp_kernel. unfold filedup.
    apply wp_bind. eapply wp_getf; [exact Hx|]. rewrite (proj2 (Z.ltb_ge _ _)) by lia.
    apply wp_bind. eapply wp_updf; [exact Hx|]. apply wp_ret, wp_bind, wp_ptable.
    eapply wp_updp; [exact Hq|]. pose proof (lookup_lt_Some _ _ _ Hq) as Hlt.
    set (q1 := set_files _ _ q).
    assert (Ho1 : p_ofile q1 = (a ++ [Some f]) ++ replicate (length l) None).
    { cbn. rewrite Ho. cbn. rewrite insert_app_r_alt, Nat.sub_diag by lia. by rewrite <- app_assoc. }
    replace (Datatypes.S (length a)) with (length (a ++ [Some f])) by (rewrite length_app; cbn; lia).
    eapply (IH _ q1); [by apply list_lookup_insert_eq|exact Ho1|..].
    + intros g Hg. destruct (Hok g ltac:(by right)) as (y & Hy & Hry). cbn.
      destruct (decide (g = f)) as [->|]; [|exists y; by rewrite list_lookup_insert_ne].
      eexists. rewrite list_lookup_insert_eq by (by eapply lookup_lt_Some). split; [done|]. cbn. lia.
    + intros ft Hft. cbn -[app]. rewrite list_insert_insert_eq, <- app_assoc. cbn [app].
      apply (HQ ft). by eapply refs_added_some.
  - replace (Datatypes.S (length a)) with (length (a ++ [@None nat])) by (rewrite length_app; cbn; lia).
    apply (IH (a ++ [None]) q); [done|by rewrite <- app_assoc|intros f Hf; apply Hok; by right|].
    intros ft Hft. rewrite <- app_assoc. apply (HQ ft). by apply refs_added_none.
Qed.

(** * fork *)

Context (kend kdata : Z) (pol : policy).

(** What [fork] makes of the state when it succeeds: entry [np] is the child. *)
Record forked (cur np : nat) (p : proc) (y y' : sys S) : Prop := {
  fk_slot : (p_state <$> procs (y_tab y) !! np) = Some UNUSED;
  fk_child : exists q, procs (y_tab y') !! np = Some q /\
    p_state q = RUNNABLE /\ p_parent q = Some cur /\ p_pid q = nextpid (y_tab y) /\
    p_tf q = set_eax 0 (p_tf p) /\ p_sz q = p_sz p /\ p_ofile q = p_ofile p /\ p_cwd q = p_cwd p /\
    p_kstack q <> 0 /\ aspace (k_mem (y_k y')) (p_pgdir q) /\
    (forall a, owned (k_mem (y_k y')) (p_pgdir q) a -> v_page (k_mem (y_k y)) !! a = None) /\
    (forall va, 0 <= va < p_sz p ->
       umem (k_mem (y_k y')) (p_pgdir q) va = umem (k_mem (y_k y)) (p_pgdir p) va);
  fk_rest : forall j, j <> np -> procs (y_tab y') !! j = procs (y_tab y) !! j;
  fk_refs : refs_added (p_ofile p) (k_ftable (y_k y)) (k_ftable (y_k y'));
  fk_cwd : forall c i, p_cwd p = Some c -> f_icache (k_fs (y_k y)) !! c = Some i ->
    f_icache (k_fs (y_k y')) = <[c := set_ref (i_ref i + 1) i]> (f_icache (k_fs (y_k y)));
  fk_pages : forall a x, v_page (k_mem (y_k y)) !! a = Some x -> v_page (k_mem (y_k y')) !! a = Some x
}.

(** What it leaves when it fails: no process and no file has changed, and the
    pages are back. *)
Record not_forked (l : list Z) (y y' : sys S) : Prop := {
  nf_procs : forall j q, procs (y_tab y) !! j = Some q -> p_state q <> UNUSED -> procs (y_tab y') !! j = Some q;
  nf_unused : forall j, (p_state <$> procs (y_tab y) !! j) = Some UNUSED ->
    (p_state <$> procs (y_tab y') !! j) = Some UNUSED;
  nf_files : k_ftable (y_k y') = k_ftable (y_k y) /\ k_fs (y_k y') = k_fs (y_k y);
  nf_pages : v_page (k_mem (y_k y')) = v_page (k_mem (y_k y));
  nf_free : exists l', vrep kend (k_mem (y_k y')) l' /\ l' ≡ₚ l
}.

Lemma vrep_tail s p l k : vrep kend s (p :: l) -> kmem_rep kend k l -> vrep kend (mkVmem k (v_page s)) l.
Proof. intros [H1 H2 H3] Hk. split; [done| |done]. intros q Hq. apply H2. by right. Qed.

(** The state with entry [np] and the memory replaced. *)
Definition with_child (np : nat) (q : proc) (pid : Z) (t : ptab) : ptab :=
  set_nextpid pid (set_procs (<[np := q]> (procs t)) t).

Lemma not_forked_child l np q q' pid t k m l' :
  procs t !! np = Some q -> p_state q = UNUSED -> p_state q' = UNUSED ->
  v_page m = v_page (k_mem k) -> vrep kend m l' -> l' ≡ₚ l ->
  not_forked l (mkSys t k) (mkSys (with_child np q' pid t) (File.set_mem m k)).
Proof.
  intros Hq Hu Hu' Hm Hv Hl. pose proof (lookup_lt_Some _ _ _ Hq) as Hlt. split; cbn; [..|done|done|eauto].
  - intros j r Hj Hr. rewrite list_lookup_insert_ne; [done|congruence].
  - intros j Hj. destruct (decide (j = np)) as [->|]; [by rewrite list_lookup_insert_eq, <- Hu' by done|].
    by rewrite list_lookup_insert_ne.
Qed.

Lemma wp_allocproc t (k : kstate S) l (Q : option nat -> sys S -> Prop) :
  vrep kend (k_mem k) l ->
  ((forall j q, procs t !! j = Some q -> p_state q <> UNUSED) -> Q None (mkSys t k)) ->
  (forall np q q', procs t !! np = Some q -> p_state q = UNUSED -> p_state q' = UNUSED -> l = [] ->
     Q None (mkSys (with_child np q' (s32 (nextpid t + 1)) t) k)) ->
  (forall np q a l' km, procs t !! np = Some q -> p_state q = UNUSED -> l = a :: l' -> a <> 0 ->
     kmem_rep kend km l' -> kpage kend a ->
     Q (Some np) (mkSys (with_child np (Proc.set_mem (p_sz q) (p_pgdir q) a (fresh_proc pol (nextpid t) q))
                          (s32 (nextpid t + 1)) t) (File.set_mem (mkVmem km (v_page (k_mem k))) k))) ->
  wp (allocproc pol) (mkSys t k) Q.
Proof.
  intros Hv HN HE HS. unfold allocproc. apply wp_bind, wp_ptable, wp_allocproc_entry.
  - intros Hno. apply wp_ret, HN, Hno.
  - intros np q Hq Hu. pose proof (lookup_lt_Some _ _ _ Hq) as Hlt. apply wp_bind, wp_kernel.
    unfold mem_op. apply wp_vm. eapply wp_vm_kalloc; [exact Hv|..].
    + intros ->. apply wp_bind, wp_ptable. upd_again. rewrite Z.eqb_refl. apply wp_bind, wp_ptable. upd_again.
      apply wp_ret. replace (File.set_mem (k_mem k) k) with k by (by destruct k).
      by eapply (HE np q).
    + intros a l' km -> Ha Hpos Hkm. apply wp_bind, wp_ptable. upd_again.
      rewrite (proj2 (Z.eqb_neq _ _)) by lia. apply wp_ret.
      replace (p_sz (fresh_proc pol (nextpid t) q)) with (p_sz q) by (by destruct pol).
      replace (p_pgdir (fresh_proc pol (nextpid t) q)) with (p_pgdir q) by (by destruct pol).
      eapply (HS np q a l' km); try done. lia.
Qed.

(** The end of [fork], from the new page table on. *)
Lemma fork_child_entry t (k : kstate S) np cur p q pid c i (Q : Z -> sys S -> Prop) :
  np <> cur -> procs t !! np = Some q -> p_cwd p = Some c -> f_icache (k_fs k) !! c = Some i ->
  files_ok (p_ofile p) (k_ftable k) -> p_ofile q = replicate (length (p_ofile p)) None ->
  (forall ft q', refs_added (p_ofile p) (k_ftable k) ft ->
     p_state q' = RUNNABLE -> p_parent q' = Some cur -> p_pid q' = p_pid q -> p_tf q' = set_eax 0 (p_tf p) ->
     p_sz q' = p_sz p -> p_pgdir q' = p_pgdir q -> p_kstack q' = p_kstack q -> p_ofile q' = p_ofile p ->
     p_cwd q' = p_cwd p ->
     Q (p_pid q) (mkSys (with_child np q' pid t)
       (set_fs (set_icache (<[c := set_ref (i_ref i + 1) i]> (f_icache (k_fs k))) (k_fs k)) (set_ftable ft k)))) ->
  wp (ptable (updp np (fun q => Proc.set_mem (p_sz p) (p_pgdir q) (p_kstack q) q)) ;;
      ptable (updp np (set_parent (Some cur))) ;;
      ptable (updp np (set_tf (set_eax 0 (p_tf p)))) ;;
      dup_files np 0 (p_ofile p) ;;
      let* cwd := deref (p_cwd p) in
      let* cwd := kernel (fs (idup cwd)) in
      ptable (updp np (fun q => set_files (p_ofile q) (Some cwd) q)) ;;
      ptable (updp np (fun q => set_name (safestrcpy (p_name q) (p_name p) 16) q)) ;;
      let* q := ptable (getp np) in
      ptable (make_runnable np) ;;
      ret (p_pid q)) (mkSys (set_nextpid pid t) k) Q.
Proof.
  intros Hne Hq Hc Hi Hok Ho HQ. pose proof (lookup_lt_Some _ _ _ Hq) as Hlt.
  apply wp_bind, wp_ptable. eapply wp_updp; [exact Hq|]. cbn [procs set_procs set_nextpid].
  apply wp_bind, wp_ptable. upd_again. apply wp_bind, wp_ptable. upd_again. apply wp_bind.
  eapply (wp_dup_files np (p_ofile p) []); [by apply list_lookup_insert_eq|exact Ho|done|].
  intros ft Hft. cbn [procs set_procs set_nextpid app]. rewrite list_insert_insert_eq.
  apply wp_bind. rewrite Hc. apply wp_ret. apply wp_bind, wp_kernel, wp_fs. unfold idup. apply wp_bind.
  eapply wp_updi; [exact Hi|]. apply wp_ret. apply wp_bind, wp_ptable. upd_again.
  apply wp_bind, wp_ptable. upd_again. apply wp_bind, wp_ptable.
  eapply wp_getp; [by apply list_lookup_insert_eq|]. apply wp_bind, wp_ptable. unfold make_runnable.
  apply wp_bind. upd_again. upd_again. apply wp_ret. apply (HQ ft); done.
Qed.

Lemma wp_fork cur t (k : kstate S) p c i l (Q : Z -> sys S -> Prop) :
  KERNBASE < kend -> KERNLINK < kdata < KERNBASE + PHYSTOP /\ kdata mod 4096 = 0 ->
  procs t !! cur = Some p -> p_state p = RUNNING -> p_cwd p = Some c -> f_icache (k_fs k) !! c = Some i ->
  files_ok (p_ofile p) (k_ftable k) ->
  (forall j q, procs t !! j = Some q -> p_state q = UNUSED -> p_ofile q = replicate (length (p_ofile p)) None) ->
  vrep kend (k_mem k) l -> aspace (k_mem k) (p_pgdir p) -> 0 <= p_sz p <= KERNBASE ->
  (forall va, 0 <= va < p_sz p -> is_Some (upage (k_mem k) (p_pgdir p) va)) ->
  (forall y', not_forked l (mkSys t k) y' ->
     (forall j q, procs t !! j = Some q -> p_state q <> UNUSED) \/
     Z.of_nat (length l) <= 1026 + (p_sz p + 4095) / 4096 -> Q (-1) y') ->
  (forall np y', forked cur np p (mkSys t k) y' -> Q (nextpid t) y') ->
  wp (fork kend kdata pol cur) (mkSys t k) Q.
Proof.
  intros Hk Hkd Hp Hrun Hc Hi Hok Hun Hv Ha Hsz Hall HF HT. unfold fork.
  assert (Hdiv : 0 <= (p_sz p + 4095) / 4096) by (apply Z.div_pos; lia).
  apply wp_bind. eapply wp_allocproc; [exact Hv|..].
  - intros Hno. apply wp_ret, HF; [|by left]. split; try done. eauto.
  - intros np q q' Hq Hu Hu' ->. apply wp_ret, HF; [|right; cbn; lia].
    replace k with (File.set_mem (k_mem k) k) at 2 by (by destruct k). by eapply not_forked_child.
  - intros np q a l' km Hq Hu -> Ha0 Hkm Hkp. pose proof (lookup_lt_Some _ _ _ Hq) as Hlt.
    assert (Hne : np <> cur) by congruence. set (q0 := Proc.set_mem _ _ a _).
    set (m1 := mkVmem km (v_page (k_mem k))).
    assert (Hv1 : vrep kend m1 l') by (by eapply vrep_tail).
    assert (Hsame : forall b, owned (k_mem k) (p_pgdir p) b -> v_page m1 !! b = v_page (k_mem k) !! b) by done.
    destruct (same_space _ m1 _ Ha Hsame) as (Ha1 & _ & _ & _).
    unfold with_child. apply wp_bind, wp_ptable. eapply wp_getp; [cbn; by rewrite list_lookup_insert_ne|].
    apply wp_bind, wp_kernel, wp_vm. cbn [k_mem File.set_mem].
    eapply (wp_copyuvm kend kdata Hk Hkd m1 l'); [exact Hv1|exact Ha1|exact Hsz|..].
    + intros n Hn. eapply present_pages; [exact Hv1|apply Ha1|exact Hsz|exact Hall|exact Hn].
    + intros m2 l2 [R1 R2 R3] Hlen. apply wp_bind, wp_ptable. upd_again. apply wp_bind, wp_ptable.
      eapply wp_getp; [cbn; by apply list_lookup_insert_eq|]. rewrite Z.eqb_refl.
      apply wp_bind, wp_kernel. unfold mem_op. apply wp_vm. unfold vm_alloc. apply wp_zoom.
      destruct Hkp as [Hpo Hpr]. unfold KERNBASE in Hpr.
      assert (Hnl : a ∉ l2).
      { rewrite R2. pose proof (kr_nodup _ _ _ (vr_mem _ _ _ Hv)) as Hnd. by apply NoDup_cons in Hnd as [? _]. }
      eapply wp_kfree; [apply R1|done|cbn; lia|done|]. intros km2 Hkm2 _.
      apply wp_bind, wp_ptable. upd_again. apply wp_bind, wp_ptable. upd_again. apply wp_ret. apply HF.
      * eapply (not_forked_child (a :: l') np q _ (s32 (nextpid t + 1)) t k (mkVmem km2 (v_page m2)) (a :: l2)); try done.
        -- split; [done| |].
           ++ intros b [->|Hb]%elem_of_cons; cbn; rewrite R3; [|by apply (vr_free _ _ _ Hv); right; apply R2].
              apply (vr_free _ _ _ Hv). by left.
           ++ cbn. rewrite R3. apply (vr_used _ _ _ Hv).
        -- apply perm_skip. apply NoDup_Permutation; [apply (vr_mem _ _ _ R1)|apply (vr_mem _ _ _ Hv1)|done].
      * right. cbn [length]. lia.
    + intros d m2 l2 Hd Hb Hcp. apply wp_bind, wp_ptable. upd_again. apply wp_bind, wp_ptable.
      eapply wp_getp; [cbn; by apply list_lookup_insert_eq|]. rewrite (proj2 (Z.eqb_neq _ _)) by done.
      apply (fork_child_entry (set_procs (<[np := Proc.set_mem (p_sz q0) d (p_kstack q0) q0]> (procs t)) t)
        (File.set_mem m2 k) np cur p (Proc.set_mem (p_sz q0) d (p_kstack q0) q0) (s32 (nextpid t + 1)) c i); try done.
      * by apply list_lookup_insert_eq.
      * transitivity (p_ofile q); [unfold q0; by destruct pol|]. by eapply Hun.
      * intros ft q' Hft S1 S2 S3 S4 S5 S6 S7 S8 S9.
        match goal with |- Q _ (mkSys ?t' _) =>
          assert (Ec : procs t' = <[np := q']> (procs t)) by (apply list_insert_insert_eq) end.
        replace (p_pid (Proc.set_mem _ d _ q0)) with (nextpid t) in * by (unfold q0; by destruct pol).
        apply (HT np). pose proof Hb as [B1 B2 B3 B4 B5 B6]. split; cbn [y_tab y_k].
        -- by rewrite Hq, <- Hu.
        -- exists q'. split; [etransitivity; [exact (f_equal (fun z => z !! np) Ec)|by apply list_lookup_insert_eq]|].
           cbn in S6, S7. rewrite S6. split_and!; try done.
           ++ rewrite S7. unfold q0. by destruct pol.
           ++ intros b Hb'. assert (Hbl : b ∈ l') by (apply B4; auto). apply (vr_free _ _ _ Hv). by right.
           ++ intros va Hva. change (umem (k_mem k) (p_pgdir p) va) with (umem m1 (p_pgdir p) va).
              eapply copied_umem; [exact Hv1|exact B1|apply Ha1|apply B2| |exact Hcp|exact Hva]. lia.
        -- intros j Hj. etransitivity; [exact (f_equal (fun z => z !! j) Ec)|by apply list_lookup_insert_ne].
        -- exact Hft.
        -- intros c' i' E1 E2. cbn. rewrite Hc in E1. injection E1 as <-. cbn in E2. rewrite Hi in E2. by injection E2 as <-.
        -- intros b x Hbx. cbn. by apply B3.
Qed.
End fork.

(** C8: [fork].  Let the running process have all its pages below its size
    present and its open files referenced.  Then [fork] returns.  Either it
    returns -1, then the table is full or there are few free pages, no process
    and no open file has changed, and all pages are back on the free list; or it
    returns the id of a new RUNNABLE child, which has the same descriptors,
    directory, size and registers, but 0 in [%eax], the bytes of the parent at
    every address, in pages of its own, and each open file has one more
    reference for each descriptor; the other processes have not changed. *)
Theorem fork_correct {S} kend kdata pol cur t (k : kstate S) p c i l :
  KERNBASE < kend -> KERNLINK < kdata < KERNBASE + PHYSTOP /\ kdata mod 4096 = 0 ->
  procs t !! cur = Some p -> p_state p = RUNNING -> p_cwd p = Some c -> f_icache (k_fs k) !! c = Some i ->
  files_ok (p_ofile p) (k_ftable k) ->
  (forall j q, procs t !! j = Some q -> p_state q = UNUSED -> p_ofile q = replicate (length (p_ofile p)) None) ->
  vrep kend (k_mem k) l -> aspace (k_mem k) (p_pgdir p) -> 0 <= p_sz p <= KERNBASE ->
  (forall va, 0 <= va < p_sz p -> is_Some (upage (k_mem k) (p_pgdir p) va)) ->
  exists r y', fork kend kdata pol cur (mkSys t k) = Ok r y' /\
    ((r = nextpid t /\ exists np, forked cur np p (mkSys t k) y') \/
     (r = -1 /\ not_forked kend l (mkSys t k) y' /\
      ((forall j q, procs t !! j = Some q -> p_state q <> UNUSED) \/
       Z.of_nat (length l) <= 1026 + (p_sz p + 4095) / 4096))).
Proof.
  intros Hk Hkd Hp Hr Hc Hi Hok Hun Hv Ha Hsz Hall.
  eapply (wp_fork kend kdata pol cur t k p c i l (fun r y' =>
    (r = nextpid t /\ exists np, forked cur np p (mkSys t k) y') \/
    (r = -1 /\ not_forked kend l (mkSys t k) y' /\ _))) in Hall as Hw; eauto.
  apply wp_inv in Hw as (r & y' & E & H). by exists r, y'.
Qed.

Definition demo_parent_proc : proc :=
  Proc.set_mem 4096 demo_dir 1 (set_state RUNNING
    (set_files (<[0%nat := Some 0%nat]> (p_ofile proc_zero)) (Some 0%nat) proc_zero)).
Definition demo_ptab : ptab := mkPtab [demo_parent_proc; proc_zero] 2 (Some 0%nat) 0 0.
Definition demo_cwd : inode :=
  mkInode 1 1 1 (mkSleeplock false 0) 1 T_DIR 0 0 1 512 (replicate 13 0) (replicate 11 (mkExtent 0 0)) 0 0 0 0.
Definition demo_kernel : kstate unit :=
  mkK (mkF tt [demo_cwd] (mkSuperblock 0 0 0 0 0 0 0) 0 0) [mkFile FD_INODE 1 true true 0 (Some 0%nat) 0] ∅
    demo_vm [] false 0 0 0.

Lemma fork_correct_witness :
  exists y' np, fork demo_kend demo_kdata DEFAULT 0 (mkSys demo_ptab demo_kernel) = Ok 2 y' /\
    forked 0 np demo_parent_proc (mkSys demo_ptab demo_kernel) y'.
Proof.
  destruct demo_vm_built as (Hb & Hu & _).
  destruct (fork_correct demo_kend demo_kdata DEFAULT 0 demo_ptab demo_kernel demo_parent_proc 0 demo_cwd
    (demo_pages 3 1197)) as (r & y' & E & [(-> & np & Hf)|(_ & _ & [Hno|Hlen])]).
  - reflexivity.
  - split; [split|]; reflexivity.
  - reflexivity.
  - reflexivity.
  - reflexivity.
  - reflexivity.
  - intros f Hf. exists (mkFile FD_INODE 1 true true 0 (Some 0%nat) 0). cbn in Hf.
    repeat (apply elem_of_cons in Hf as [Hf|Hf]; [|]); try discriminate; [injection Hf as ->; split; [done|cbn; lia]|].
    by apply elem_of_nil in Hf.
  - intros [|[|j]] q Hq Hun; [|by injection Hq as <-|done]. injection Hq as <-. discriminate.
  - apply Hb.
  - apply Hb.
  - split; vm_compute; discriminate.
  - intros va Hva. rewrite (upage_ufr demo_kend demo_vm (demo_pages 3 1197)); [|apply Hb|apply Hb|cbn in Hva; lia].
    change (p_pgdir demo_parent_proc) with demo_dir. rewrite Z.div_small, Hu by (cbn in Hva; lia). by eexists.
  - exists y', np. split; [exact E|exact Hf].
  - exfalso. by apply (Hno 1%nat proc_zero).
  - exfalso. revert Hlen. unfold demo_pages. rewrite length_map, length_seqZ. vm_compute. congruence.
Defined.
