(* ===== verification/Console.v ===== *)
(** console.c: the line editor behind the keyboard, the screen, and [cprintf].

    [con_pos] is the cursor register of the screen, [con_uart] what has been sent
    to the serial line, [con_wakes] how often readers were woken up.  The code
    runs with [cons.lock] held except while a reader sleeps, so a run between
    two sleeps is one step. *)
From S2P Require Import Prelude Layout CString Locks LogRep Fs.

Definition BACKSPACE : Z := 256.
Definition INPUT_BUF : Z := 128.
(** [C(x)]; [C('D')], [C('H')], [C('P')], [C('U')]. *)
Definition ctrl (x : Z) : Z := x - 64.
Definition ctrl_D : Z := ctrl 68.
Definition ctrl_H : Z := ctrl 72.
Definition ctrl_P : Z := ctrl 80.
Definition ctrl_U : Z := ctrl 85.

Record console := mkCon {
  con_buf : bytes; con_r : Z; con_w : Z; con_e : Z;
  con_panicked : bool; con_uart : bytes; con_crt : list Z; con_pos : Z; con_wakes : Z
}.
Definition set_input (buf : bytes) (r w e : Z) (s : console) : console :=
  mkCon buf r w e (con_panicked s) (con_uart s) (con_crt s) (con_pos s) (con_wakes s).
Definition set_screen (crt : list Z) (pos : Z) (s : console) : console :=
  mkCon (con_buf s) (con_r s) (con_w s) (con_e s) (con_panicked s) (con_uart s) crt pos (con_wakes s).
Definition uartputc (c : Z) (s : console) : console :=
  mkCon (con_buf s) (con_r s) (con_w s) (con_e s) (con_panicked s) (con_uart s ++ [u8 c]) (con_crt s) (con_pos s) (con_wakes s).
Definition con_wakeup (s : console) : console :=
  mkCon (con_buf s) (con_r s) (con_w s) (con_e s) (con_panicked s) (con_uart s) (con_crt s) (con_pos s) (con_wakes s + 1).

Local Abbreviation CM := (M console).

Definition cgaputc (c : Z) : CM unit :=
  let* s := get in
  let pos := con_pos s in
  let '(crt, pos) :=
    if c =? 10 then (con_crt s, pos + (80 - pos mod 80))
    else if c =? BACKSPACE then (con_crt s, if 0 <? pos then pos - 1 else pos)
    else (<[Z.to_nat pos := Z.lor (Z.land c 255) 1792]> (con_crt s), pos + 1) in
  if (pos <? 0) || (25 * 80 <? pos) then panic "pos under/overflow"
  else
    let '(crt, pos) :=
      if 24 <=? pos / 80 then
        let crt := splice crt 0 (slice crt 80 (23 * 80)) in
        let pos := pos - 80 in
        (splice crt (Z.to_nat pos) (replicate (Z.to_nat (24 * 80 - pos)) 0), pos)
      else (crt, pos) in
    put (set_screen (<[Z.to_nat pos := Z.lor 32 1792]> crt) (u16 pos) s).

(** A CPU that finds [panicked] set stops for ever. *)
Definition consputc (c : Z) : CM unit :=
  let* s := get in
  if con_panicked s then panic "panicked"
  else
    (if c =? BACKSPACE then modify (uartputc 8) ;; modify (uartputc 32) ;; modify (uartputc 8)
     else modify (uartputc c)) ;;
    cgaputc c.

Fixpoint cons_puts (l : bytes) : CM unit :=
  match l with [] => ret tt | c :: l' => consputc c ;; cons_puts l' end.

Definition digit_lower (d : Z) : Z := if d <? 10 then 48 + d else 87 + d.

Definition printint (xx base : Z) (sign : bool) : CM unit :=
  let neg := sign && (xx <? 0) in
  let x := if neg then u32 (- xx) else u32 xx in
  let buf := map digit_lower (digits_rev 32 x base) ++ (if neg then [45] else []) in
  cons_puts (rev buf).

(** The arguments of [cprintf]; a null string is [None]. *)
Inductive carg := AInt (z : Z) | AStr (s : option bytes).

Fixpoint cprintf_from (fmt : bytes) (argp : list carg) : CM unit :=
  match fmt with
  | [] => ret tt
  | c :: fmt' =>
      if c =? 0 then ret tt
      else if negb (c =? 37) then consputc c ;; cprintf_from fmt' argp
      else
        match fmt' with
        | [] => ret tt
        | c :: fmt'' =>
            if c =? 0 then ret tt
            else if c =? 100 then
              match argp with
              | AInt z :: argp' => printint (s32 z) 10 true ;; cprintf_from fmt'' argp'
              | _ => fault
              end
            else if (c =? 120) || (c =? 112) then
              match argp with
              | AInt z :: argp' => printint (s32 z) 16 false ;; cprintf_from fmt'' argp'
              | _ => fault
              end
            else if c =? 115 then
              match argp with
              | AStr s :: argp' => cons_puts (cstring (default (str "(null)") s)) ;; cprintf_from fmt'' argp'
              | _ => fault
              end
            else if c =? 37 then consputc 37 ;; cprintf_from fmt'' argp
            else consputc 37 ;; consputc c ;; cprintf_from fmt'' argp
        end
  end.
Definition cprintf (fmt : option bytes) (argp : list carg) : CM unit :=
  match fmt with None => panic "null fmt" | Some fmt => cprintf_from fmt argp end.

(** * Input *)

Definition last_char (s : console) : Z := nth0 (con_buf s) (Z.to_nat (u32 (con_e s - 1) mod INPUT_BUF)).

Definition erase : CM unit :=
  modify (fun s => set_input (con_buf s) (con_r s) (con_w s) (u32 (con_e s - 1)) s) ;; consputc BACKSPACE.

Definition kill_line : CM unit :=
  let* s := get in
  while_loop (Z.to_nat (u32 (con_e s - con_w s)) + 1) tt (fun _ =>
    let* s := get in
    if negb (con_e s =? con_w s) && negb (last_char s =? 10) then erase ;; ret (inl tt) else ret (inr tt)).

(** The body of [consoleintr]'s loop; [true] when it sets [doprocdump]. *)
Definition console_key (c : Z) : CM bool :=
  if c =? ctrl_P then ret true
  else if c =? ctrl_U then kill_line ;; ret false
  else if (c =? ctrl_H) || (c =? 127) then
    let* s := get in
    (if negb (con_e s =? con_w s) then erase else ret tt) ;; ret false
  else
    let* s := get in
    if negb (c =? 0) && (u32 (con_e s - con_r s) <? INPUT_BUF) then
      let c := if c =? 13 then 10 else c in
      put (set_input (<[Z.to_nat (con_e s mod INPUT_BUF) := u8 c]> (con_buf s)) (con_r s) (con_w s) (u32 (con_e s + 1)) s) ;;
      consputc c ;;
      let* s := get in
      (if (c =? 10) || (c =? ctrl_D) || (con_e s =? u32 (con_r s + INPUT_BUF)) then
         put (set_input (con_buf s) (con_r s) (con_e s) (con_e s) s) ;; modify con_wakeup
       else ret tt) ;;
      ret false
    else ret false.

(** [getc] returns the codes of [cs], then a negative number. *)
Fixpoint consoleintr (cs : list Z) : CM bool :=
  match cs with
  | [] => ret false
  | c :: cs' =>
      let* d := console_key c in
      let* d' := consoleintr cs' in
      ret (d || d')
  end.

(** A run of the loop of [consoleread], with [n] bytes to go and [dst] read: it
    stops with a number of bytes left, or goes to sleep, or finds the process
    killed. *)
Inductive cread := CStop (n : nat) (dst : bytes) | CSleep (n : nat) (dst : bytes) | CKilled (dst : bytes).

Fixpoint consoleread_loop (killed : bool) (target : Z) (n : nat) (dst : bytes) : CM cread :=
  match n with
  | O => ret (CStop O dst)
  | Datatypes.S n' =>
      let* s := get in
      if con_r s =? con_w s then ret (if killed then CKilled dst else CSleep n dst)
      else
        let c := nth0 (con_buf s) (Z.to_nat (con_r s mod INPUT_BUF)) in
        put (set_input (con_buf s) (u32 (con_r s + 1)) (con_w s) (con_e s) s) ;;
        if c =? ctrl_D then
          (if Z.of_nat n <? target
           then modify (fun s => set_input (con_buf s) (u32 (con_r s - 1)) (con_w s) (con_e s) s)
           else ret tt) ;;
          ret (CStop n dst)
        else if c =? 10 then ret (CStop n' (dst ++ [c]))
        else consoleread_loop killed target n' (dst ++ [c])
  end.

(** The console next to the inodes, whose lock is released while reading. *)
Section dev.
Context {S : Type} `{!BlockIO S}.
Record cstate := mkC { c_fs : fstate S; c_con : console }.
Definition c_ino {A} (m : M (fstate S) A) : M cstate A := zoom c_fs (fun f s => mkC f (c_con s)) m.
Definition c_cons {A} (m : CM A) : M cstate A := zoom c_con (fun c s => mkC (c_fs s) c) m.

(** [consoleread] from the loop on: [inl] when it sleeps, with what is left to
    do, else the result and the bytes. *)
Definition consoleread_from (killed : bool) (ip : nat) (target : Z) (n : nat) (dst : bytes)
    : M cstate (nat * bytes + Z * bytes) :=
  let* r := c_cons (consoleread_loop killed (u32 target) n dst) in
  match r with
  | CSleep n dst => ret (inl (n, dst))
  | CKilled dst => c_ino (ilock (Some ip)) ;; ret (inr (-1, dst))
  | CStop n' dst => c_ino (ilock (Some ip)) ;; ret (inr (s32 (if target <? 0 then 0 else target - Z.of_nat n'), dst))
  end.

Definition consoleread (killed : bool) (ip : nat) (n : Z) : M cstate (nat * bytes + Z * bytes) :=
  c_ino (iunlock (Some ip)) ;; consoleread_from killed ip n (Z.to_nat n) [].

Definition consolewrite (ip : nat) (buf : bytes) (n : Z) : M cstate Z :=
  c_ino (iunlock (Some ip)) ;;
  c_cons (cons_puts (map (fun c => Z.land c 255) (take (Z.to_nat n) buf))) ;;
  c_ino (ilock (Some ip)) ;;
  ret n.
End dev.

(** console.c: the console is a line editor in front of a queue of lines, and
    the cursor never leaves the screen. *)

(** * Output *)

Record con_ok (s : console) : Prop := {
  ok_run : con_panicked s = false;
  ok_crt : (2001 <= length (con_crt s))%nat;
  ok_pos : 0 <= con_pos s < 1920
}.

(** [s'] differs from [s] on the screen only, and by the output [out]. *)
Definition printed (out : bytes) (s s' : console) : Prop :=
  con_ok s' /\ con_uart s' = con_uart s ++ out /\
  con_buf s' = con_buf s /\ con_r s' = con_r s /\ con_w s' = con_w s /\ con_e s' = con_e s /\ con_wakes s' = con_wakes s.

Definition echo (c : Z) : bytes := if c =? BACKSPACE then [8; 32; 8] else [u8 c].

Lemma wp_cgaputc c s (Q : unit -> console -> Prop) :
  con_ok s -> (forall s', printed [] s s' -> Q tt s') -> wp (cgaputc c) s Q.
Proof.
  intros [H1 H2 H3] HQ. unfold cgaputc. apply wp_bind, wp_get.
  assert (Hm : 0 <= con_pos s mod 80 < 80) by (apply Z.mod_pos_bound; lia).
  assert (Hd : con_pos s = 80 * (con_pos s / 80) + con_pos s mod 80) by (apply Z.div_mod; lia).
  assert (exists crt pos,
    (if c =? 10 then (con_crt s, con_pos s + (80 - con_pos s mod 80))
     else if c =? BACKSPACE then (con_crt s, if 0 <? con_pos s then con_pos s - 1 else con_pos s)
     else (<[Z.to_nat (con_pos s) := Z.lor (Z.land c 255) 1792]> (con_crt s), con_pos s + 1)) = (crt, pos) /\
    0 <= pos <= 1920 /\ (2001 <= length crt)%nat) as (crt & pos & -> & Hp & Hl).
  { destruct (c =? 10); [|destruct (c =? BACKSPACE)]; eexists _, _; (split; [reflexivity|]); split; try done; try lia.
    - destruct (Z.ltb_spec 0 (con_pos s)); lia.
    - by rewrite length_insert. }
  zif. assert (Hd2 : pos = 80 * (pos / 80) + pos mod 80) by (apply Z.div_mod; lia).
  assert (Hm2 : 0 <= pos mod 80 < 80) by (apply Z.mod_pos_bound; lia).
  assert (exists crt' pos',
    (if 24 <=? pos / 80 then
       (splice (splice crt 0 (slice crt 80 (23 * 80))) (Z.to_nat (pos - 80)) (replicate (Z.to_nat (24 * 80 - (pos - 80))) 0), pos - 80)
     else (crt, pos)) = (crt', pos') /\ 0 <= pos' < 1920 /\ (2001 <= length crt')%nat) as (crt' & pos' & -> & Hp' & Hl').
  { destruct (Z.leb_spec 24 (pos / 80)); eexists _, _; (split; [reflexivity|]); split; try done; try lia.
    assert (Hs : length (slice crt 80 (23 * 80)) = 1840%nat) by (unfold slice; rewrite length_take, length_drop; lia).
    rewrite length_splice; rewrite length_splice; rewrite ?Hs, ?length_replicate; lia. }
  apply wp_put, HQ. unfold printed, u16. rewrite app_nil_r, Z.mod_small by lia.
  split_and!; try done. split; cbn; [done|by rewrite length_insert|lia].
Qed.

Lemma wp_consputc c s (Q : unit -> console -> Prop) :
  con_ok s -> (forall s', printed (echo c) s s' -> Q tt s') -> wp (consputc c) s Q.
Proof.
  intros Hok HQ. pose proof Hok as [H1 H2 H3]. unfold consputc, echo in *. apply wp_bind, wp_get. rewrite H1.
  assert (Hp : forall out s1 s', con_ok s1 -> printed [] s1 s' -> con_uart s1 = con_uart s ++ out ->
    con_buf s1 = con_buf s -> con_r s1 = con_r s -> con_w s1 = con_w s -> con_e s1 = con_e s -> con_wakes s1 = con_wakes s ->
    printed out s s').
  { intros out s1 s' _ (P1 & P2 & P3 & P4 & P5 & P6 & P7) ? ? ? ? ? ?. rewrite app_nil_r in P2. split_and!; congruence. }
  apply wp_bind. destruct (c =? BACKSPACE).
  - apply wp_bind, wp_modify, wp_bind, wp_modify, wp_modify. eapply wp_cgaputc; [by split|]. intros s' Hs'. apply HQ.
    eapply (Hp _ _ s'); [|exact Hs'|..]; [by split|cbn; by rewrite <- !app_assoc|done..].
  - apply wp_modify. eapply wp_cgaputc; [by split|]. intros s' Hs'. apply HQ.
    eapply (Hp _ _ s'); [|exact Hs'|..]; [by split|done..].
Qed.

Lemma printed_trans o1 o2 s s1 s2 : printed o1 s s1 -> printed o2 s1 s2 -> printed (o1 ++ o2) s s2.
Proof.
  intros (A1 & A2 & A3 & A4 & A5 & A6 & A7) (B1 & B2 & B3 & B4 & B5 & B6 & B7). split_and!; try congruence.
  by rewrite B2, A2, app_assoc.
Qed.

Lemma wp_cons_puts l : forall s (Q : unit -> console -> Prop),
  con_ok s -> (forall s', printed (concat (map echo l)) s s' -> Q tt s') -> wp (cons_puts l) s Q.
Proof.
  induction l as [|c l IH]; intros s Q Hok HQ; cbn [cons_puts].
  - apply wp_ret, HQ. unfold printed. cbn. rewrite app_nil_r. by split_and!.
  - apply wp_bind. apply wp_consputc; [done|]. intros s1 H1. apply IH; [apply H1|]. intros s2 H2. apply HQ.
    by eapply printed_trans.
Qed.

(** * Input *)

(** The console holds the queue [q] of finished lines and the line [l] being
    edited. *)
Record con_rep (s : console) (q l : bytes) : Prop := {
  cr_ok : con_ok s;
  cr_buf : length (con_buf s) = 128%nat;
  cr_r : 0 <= con_r s < 2 ^ 32;
  cr_w : con_w s = u32 (con_r s + Z.of_nat (length q));
  cr_e : con_e s = u32 (con_r s + Z.of_nat (length q) + Z.of_nat (length l));
  cr_len : (length q + length l <= 128)%nat;
  cr_data : forall j, (j < length (q ++ l))%nat ->
    nth0 (con_buf s) (Z.to_nat ((con_r s + Z.of_nat j) mod 128)) = nth0 (q ++ l) j
}.

(** One key, on the queue and the line. *)
Definition line_key (c : Z) (st : bytes * bytes) : bytes * bytes :=
  let '(q, l) := st in
  if c =? ctrl_P then (q, l)
  else if c =? ctrl_U then (q, [])
  else if (c =? ctrl_H) || (c =? 127) then (q, removelast l)
  else if (c =? 0) || (128 <=? Z.of_nat (length q + length l)) then (q, l)
  else
    let c := if c =? 13 then 10 else c in
    if (c =? 10) || (c =? ctrl_D) || (Z.of_nat (length q + length l) =? 127) then (q ++ l ++ [c], [])
    else (q, l ++ [c]).

(** A read of at most [n] bytes from the queue: to the end of the line or a
    control-D, which stays in the queue when bytes were read before it. *)
Fixpoint line_read (killed any : bool) (n : nat) (dst q : bytes) : cread * bytes :=
  match n, q with
  | O, _ => (CStop O dst, q)
  | Datatypes.S n', [] => (if killed then CKilled dst else CSleep n dst, [])
  | Datatypes.S n', c :: q' =>
      if c =? ctrl_D then (CStop n dst, if any then q else q')
      else if c =? 10 then (CStop n' (dst ++ [c]), q')
      else line_read killed true n' (dst ++ [c]) q'
  end.

Lemma u32_add_l a b : u32 (u32 a + b) = u32 (a + b).
Proof. unfold u32. by rewrite Zplus_mod_idemp_l. Qed.
Lemma u32_sub_l a b : u32 (u32 a - b) = u32 (a - b).
Proof. unfold u32. by rewrite Zminus_mod_idemp_l. Qed.
Lemma u32_sub_r a b : u32 (a - u32 b) = u32 (a - b).
Proof. unfold u32. by rewrite Zminus_mod_idemp_r. Qed.
Lemma u32_mod128 a : u32 a mod 128 = a mod 128.
Proof. unfold u32. apply Z.mod_mod_divide. by exists (2 ^ 25). Qed.

(** Counters that differ by less than the buffer are equal when their
    difference is 0. *)
Lemma u32_eq_len r a b : 0 <= b -> 0 <= a -> a < 2 ^ 31 -> b < 2 ^ 31 -> u32 (r + a) = u32 (r + b) <-> a = b.
Proof.
  intros. split; [|by intros ->]. intros E. unfold u32 in E. apply (f_equal (fun x => (x - r) mod 2 ^ 32)) in E.
  rewrite !Zminus_mod_idemp_l in E. replace (r + a - r) with a in E by lia. replace (r + b - r) with b in E by lia.
  rewrite !Z.mod_small in E; lia.
Qed.

Lemma rep_printed out s s' q l : con_rep s q l -> printed out s s' -> con_rep s' q l.
Proof.
  intros [R1 R2 R3 R4 R5 R6 R7] (P1 & P2 & P3 & P4 & P5 & P6 & P7).
  split; rewrite ?P3, ?P4, ?P5, ?P6; done.
Qed.

(** The last byte of the line goes. *)
Lemma rep_erase s q l c :
  con_rep s q (l ++ [c]) -> con_rep (set_input (con_buf s) (con_r s) (con_w s) (u32 (con_e s - 1)) s) q l.
Proof.
  intros [[H1 H2 H3] R2 R3 R4 R5 R6 R7]. rewrite length_app in R5, R6. cbn [length] in R5, R6.
  split; cbn [set_input con_buf con_r con_w con_e]; try done; try lia.
  - rewrite R5, u32_sub_l. f_equal. lia.
  - intros j Hj. rewrite length_app in Hj. rewrite R7 by (rewrite !length_app; cbn; lia).
    rewrite app_assoc, !nth0_lookup, lookup_app_l; [done|rewrite length_app; lia].
Qed.

(** A byte is added to the line. *)
Lemma rep_type s q l c :
  con_rep s q l -> (length q + length l < 128)%nat ->
  con_rep (set_input (<[Z.to_nat (con_e s mod 128) := c]> (con_buf s)) (con_r s) (con_w s) (u32 (con_e s + 1)) s) q (l ++ [c]).
Proof.
  intros [[H1 H2 H3] R2 R3 R4 R5 R6 R7] Hlt.
  split; cbn [set_input con_buf con_r con_w con_e]; try done; rewrite ?length_app; cbn [length]; try lia.
  - by rewrite length_insert.
  - rewrite R5, u32_add_l. f_equal. lia.
  - intros j Hj. rewrite R5, u32_mod128. pose proof (Z.mod_pos_bound (con_r s + Z.of_nat (length q) + Z.of_nat (length l)) 128 ltac:(lia)).
    rewrite nth0_insert by lia. rewrite app_assoc, !nth0_lookup. case_decide as E.
    + assert (j = length q + length l)%nat as ->.
      { apply Z2Nat.inj in E; [|lia|by apply Z.mod_pos_bound].
        pose proof (Z.div_mod (con_r s + Z.of_nat (length q) + Z.of_nat (length l)) 128).
        pose proof (Z.div_mod (con_r s + Z.of_nat j) 128). lia. }
      by rewrite <- length_app, list_lookup_middle.
    + assert (j < length (q ++ l))%nat as Hj'.
      { rewrite length_app. destruct (decide (j = length q + length l)%nat) as [->|]; [|lia].
        exfalso. apply E. f_equal. f_equal. lia. }
      rewrite lookup_app_l by done. rewrite <- !nth0_lookup. by apply R7.
Qed.

(** The line is finished. *)
Lemma rep_commit s q l : con_rep s q l -> con_rep (set_input (con_buf s) (con_r s) (con_e s) (con_e s) s) (q ++ l) [].
Proof.
  intros [[H1 H2 H3] R2 R3 R4 R5 R6 R7].
  split; cbn [set_input con_buf con_r con_w con_e]; try done; rewrite ?app_nil_r, ?length_app; cbn [length]; try lia.
  - rewrite R5. f_equal. lia.
  - rewrite R5. f_equal. lia.
  - intros j Hj. apply R7. by rewrite length_app.
Qed.

(** A byte is taken from the queue. *)
Lemma rep_take s c q l :
  con_rep s (c :: q) l ->
  nth0 (con_buf s) (Z.to_nat (con_r s mod 128)) = c /\
  con_rep (set_input (con_buf s) (u32 (con_r s + 1)) (con_w s) (con_e s) s) q l.
Proof.
  intros [[H1 H2 H3] R2 R3 R4 R5 R6 R7]. cbn [length] in *. split.
  - specialize (R7 0%nat ltac:(cbn; lia)). by rewrite Z.add_0_r in R7.
  - split; cbn [set_input con_buf con_r con_w con_e]; try done; try lia; [apply u32_range|..].
    + rewrite R4, u32_add_l. f_equal. lia.
    + rewrite R5, <- (Z.add_assoc (u32 _)), u32_add_l. f_equal. lia.
    + intros j Hj. specialize (R7 (Datatypes.S j)). cbn [length app] in R7. rewrite <- Z.add_mod_idemp_l, u32_mod128, Z.add_mod_idemp_l by lia.
      replace (con_r s + 1 + Z.of_nat j) with (con_r s + Z.of_nat (Datatypes.S j)) by lia. apply R7. lia.
Qed.

(** A control-D that was taken is put back. *)
Lemma rep_untake s c q l :
  con_rep s (c :: q) l ->
  con_rep (set_input (con_buf s) (u32 (u32 (con_r s + 1) - 1)) (con_w s) (con_e s) s) (c :: q) l.
Proof.
  intros [[H1 H2 H3] R2 R3 R4 R5 R6 R7]. rewrite u32_sub_l. replace (con_r s + 1 - 1) with (con_r s) by lia.
  rewrite (u32_small (con_r s)) by done. by split.
Qed.

(** The tests of the counters. *)
Lemma rep_line_empty s q l : con_rep s q l -> (con_e s =? con_w s) = bool_decide (l = []).
Proof.
  intros [_ R2 R3 R4 R5 R6 R7]. rewrite R4, R5, <- Z.add_assoc. destruct (Z.eqb_spec (u32 (con_r s + (Z.of_nat (length q) + Z.of_nat (length l)))) (u32 (con_r s + Z.of_nat (length q)))) as [E|E].
  - apply u32_eq_len in E; [|lia..]. destruct l; [done|cbn in E; lia].
  - destruct l; [|done]. exfalso. apply E. f_equal. cbn. lia.
Qed.

Lemma rep_queue_empty s q l : con_rep s q l -> (con_r s =? con_w s) = bool_decide (q = []).
Proof.
  intros [_ R2 R3 R4 R5 R6 R7]. rewrite R4. destruct (Z.eqb_spec (con_r s) (u32 (con_r s + Z.of_nat (length q)))) as [E|E].
  - rewrite <- (u32_small (con_r s)) in E at 1 by done. replace (con_r s) with (con_r s + 0) in E at 1 by lia.
    apply u32_eq_len in E; [|lia..]. destruct q; [done|cbn in E; lia].
  - destruct q; [|done]. exfalso. apply E. cbn. rewrite Z.add_0_r. symmetry. by apply u32_small.
Qed.

Lemma rep_length s q l : con_rep s q l -> u32 (con_e s - con_r s) = Z.of_nat (length q + length l).
Proof.
  intros [_ R2 R3 R4 R5 R6 R7]. rewrite R5, u32_sub_l. rewrite u32_small; lia.
Qed.

Lemma rep_full s q l : con_rep s q l -> (con_e s =? u32 (con_r s + 128)) = (Z.of_nat (length q + length l) =? 128).
Proof.
  intros [_ R2 R3 R4 R5 R6 R7]. rewrite R5, <- Z.add_assoc.
  destruct (Z.eqb_spec (u32 (con_r s + (Z.of_nat (length q) + Z.of_nat (length l)))) (u32 (con_r s + 128))) as [E|E];
    destruct (Z.eqb_spec (Z.of_nat (length q + length l)) 128) as [E'|E']; try done; exfalso.
  - apply u32_eq_len in E; lia.
  - apply E. f_equal. lia.
Qed.

Lemma rep_last s q l c : con_rep s q (l ++ [c]) -> last_char s = c.
Proof.
  intros [_ R2 R3 R4 R5 R6 R7]. unfold last_char, INPUT_BUF. rewrite R5, u32_sub_l, u32_mod128. rewrite length_app in *. cbn [length] in *.
  specialize (R7 (length q + length l)%nat). rewrite !length_app in R7. cbn [length] in R7.
  replace (con_r s + Z.of_nat (length q) + Z.of_nat (length l + 1) - 1) with (con_r s + Z.of_nat (length q + length l)) by lia.
  rewrite R7 by lia. rewrite app_assoc, nth0_lookup, <- length_app. by rewrite list_lookup_middle.
Qed.

Lemma wp_erase s q l c (Q : unit -> console -> Prop) :
  con_rep s q (l ++ [c]) -> (forall s', con_rep s' q l -> Q tt s') -> wp erase s Q.
Proof.
  intros Hr HQ. unfold erase. apply wp_bind, wp_modify. pose proof (rep_erase s q l c Hr) as Hr'.
  apply wp_consputc; [apply Hr'|]. intros s' Hp. apply HQ. by eapply rep_printed.
Qed.

Lemma wp_kill_line s q l (Q : unit -> console -> Prop) :
  con_rep s q l -> 10 ∉ l -> (forall s', con_rep s' q [] -> Q tt s') -> wp kill_line s Q.
Proof.
  intros Hr Hl HQ. unfold kill_line. apply wp_bind, wp_get.
  assert (Ef : (Z.to_nat (u32 (con_e s - con_w s)) + 1 = length l + 1)%nat).
  { destruct Hr as [_ R2 R3 R4 R5 R6 R7]. rewrite R4, R5, u32_sub_l, u32_sub_r, u32_small; lia. }
  rewrite Ef. clear Ef.
  apply (wp_while_loop (fun fuel _ s => exists l', con_rep s q l' /\ (10 ∉ l') /\ fuel = (length l' + 1)%nat)).
  - by exists l.
  - intros _ s' (l' & _ & _ & ?). lia.
  - intros fuel _ s1 (l' & Hr' & Hl' & Hf). apply wp_bind, wp_get. rewrite (rep_line_empty _ _ _ Hr').
    destruct l' as [|c l' _] using rev_ind; [apply wp_ret; by apply HQ|].
    rewrite (rep_last _ _ _ _ Hr'). rewrite not_elem_of_app in Hl'. destruct Hl' as [Hl1 Hl2].
    rewrite list_elem_of_singleton in Hl2. rewrite bool_decide_eq_false_2 by (by destruct l').
    rewrite (proj2 (Z.eqb_neq _ _)) by congruence. cbn [negb andb]. apply wp_bind. eapply wp_erase; [exact Hr'|].
    intros s2 Hr2. apply wp_ret. exists l'. split_and!; try done. rewrite length_app in Hf. cbn in Hf. lia.
Qed.

(** The console is in the state [st] of the line editor. *)
Definition con_in (s : console) (st : bytes * bytes) : Prop := con_rep s st.1 st.2 /\ (10 ∉ st.2).

Lemma wp_console_key c s st (Q : bool -> console -> Prop) :
  con_in s st -> 0 <= c < 256 -> (forall s', con_in s' (line_key c st) -> Q (c =? ctrl_P) s') -> wp (console_key c) s Q.
Proof.
  destruct st as [q l]. intros [Hr Hl] Hc HQ. cbn [fst snd] in *. unfold console_key, line_key in *.
  destruct (c =? ctrl_P) eqn:EP; [apply wp_ret, HQ; by split|].
  destruct (c =? ctrl_U) eqn:EU.
  { apply wp_bind. eapply wp_kill_line; [exact Hr|done|]. intros s' Hr'. apply wp_ret, HQ. split; [done|apply not_elem_of_nil]. }
  destruct ((c =? ctrl_H) || (c =? 127)) eqn:EH.
  { apply wp_bind, wp_get, wp_bind. rewrite (rep_line_empty _ _ _ Hr).
    destruct l as [|b l _] using rev_ind; [by apply wp_ret, wp_ret, HQ|].
    rewrite bool_decide_eq_false_2 by (by destruct l). cbn [negb]. rewrite removelast_last in HQ.
    eapply wp_erase; [exact Hr|]. intros s' Hr'. apply wp_ret, HQ. split; [done|]. cbn. rewrite not_elem_of_app in Hl. tauto. }
  apply wp_bind, wp_get. rewrite (rep_length _ _ _ Hr). unfold INPUT_BUF.
  assert (Eb : negb (c =? 0) && (Z.of_nat (length q + length l) <? 128) = negb ((c =? 0) || (128 <=? Z.of_nat (length q + length l)))).
  { rewrite negb_orb. f_equal. by rewrite Z.ltb_antisym. }
  rewrite Eb. clear Eb. destruct ((c =? 0) || (128 <=? Z.of_nat (length q + length l))) eqn:E0; cbn [negb]; [by apply wp_ret, HQ|].
  apply orb_false_elim in E0 as [_ E0]. apply Z.leb_gt in E0. set (c' := if c =? 13 then 10 else c) in *.
  assert (Hc' : u8 c' = c') by (unfold u8, c'; destruct (c =? 13); apply Z.mod_small; lia). rewrite Hc'.
  apply wp_bind, wp_put. pose proof (rep_type s q l c' Hr ltac:(lia)) as Hr1.
  apply wp_bind. apply wp_consputc; [apply Hr1|]. intros s2 Hp. pose proof (rep_printed _ _ _ _ _ Hr1 Hp) as Hr2.
  apply wp_bind, wp_get. rewrite (rep_full _ _ _ Hr2), length_app. cbn [length].
  replace (Z.of_nat (length q + (length l + 1)) =? 128) with (Z.of_nat (length q + length l) =? 127)
    by (destruct (Z.eqb_spec (Z.of_nat (length q + length l)) 127), (Z.eqb_spec (Z.of_nat (length q + (length l + 1))) 128); lia).
  apply wp_bind. destruct ((c' =? 10) || (c' =? ctrl_D) || (Z.of_nat (length q + length l) =? 127)) eqn:E.
  - apply wp_bind, wp_put, wp_modify, wp_ret, HQ. pose proof (rep_commit _ _ _ Hr2) as Hr3. split; [|apply not_elem_of_nil].
    cbn [fst snd]. destruct Hr3 as [[H1 H2 H3] R2 R3 R4 R5 R6 R7]. by split.
  - apply wp_ret, wp_ret, HQ. split; [done|]. cbn. rewrite not_elem_of_app, list_elem_of_singleton. split; [done|].
    apply orb_false_elim in E as [[E%Z.eqb_neq _]%orb_false_elim _]. congruence.
Qed.

Lemma wp_consoleintr cs : forall s st (Q : bool -> console -> Prop),
  con_in s st -> Forall (fun c => 0 <= c < 256) cs ->
  (forall s', con_in s' (fold_left (fun st c => line_key c st) cs st) -> Q (bool_decide (ctrl_P ∈ cs)) s') ->
  wp (consoleintr cs) s Q.
Proof.
  induction cs as [|c cs IH]; intros s st Q Hin Hcs HQ; cbn [consoleintr fold_left] in *.
  - by apply wp_ret, HQ.
  - apply Forall_cons in Hcs as [Hc Hcs]. apply wp_bind. eapply wp_console_key; [exact Hin|done|]. intros s1 H1.
    apply wp_bind. eapply IH; [exact H1|done|]. intros s2 H2. apply wp_ret. specialize (HQ s2 H2).
    destruct (Z.eqb_spec c ctrl_P) as [->|Hne]; cbn [orb].
    + by rewrite bool_decide_eq_true_2 in HQ by (by left).
    + rewrite (bool_decide_ext _ (ctrl_P ∈ cs)) in HQ; [done|]. rewrite elem_of_cons. intuition congruence.
Qed.

Lemma wp_consoleread_loop killed n : forall target dst s q l (Q : cread -> console -> Prop),
  con_rep s q l -> Z.of_nat n <= target ->
  (forall s', con_rep s' (line_read killed (Z.of_nat n <? target) n dst q).2 l ->
     Q (line_read killed (Z.of_nat n <? target) n dst q).1 s') ->
  wp (consoleread_loop killed target n dst) s Q.
Proof.
  induction n as [|n IH]; intros target dst s q l Q Hr Ht HQ.
  { by apply wp_ret, HQ. }
  cbn [consoleread_loop line_read] in *. apply wp_bind, wp_get. rewrite (rep_queue_empty _ _ _ Hr).
  destruct q as [|c q]; [by apply wp_ret, HQ|]. rewrite bool_decide_eq_false_2 by done.
  destruct (rep_take _ _ _ _ Hr) as [Ec Hr1]. unfold INPUT_BUF. rewrite Ec. apply wp_bind, wp_put.
  destruct (c =? ctrl_D).
  - apply wp_bind. destruct (Z.of_nat (Datatypes.S n) <? target).
    + apply wp_modify, wp_ret, HQ. exact (rep_untake _ _ _ _ Hr).
    + by apply wp_ret, wp_ret, HQ.
  - destruct (c =? 10); [by apply wp_ret, HQ|]. eapply IH; [exact Hr1|lia|].
    rewrite (proj2 (Z.ltb_lt (Z.of_nat n) target)) by lia. exact HQ.
Qed.

(** * Runs *)

(** What happens to the console: an interrupt with the codes [cs], a run of
    [consoleread] that wants [n] more of [target] bytes, the output of
    [consolewrite]. *)
Inductive con_event := EKeys (cs : list Z) | ERead (killed : bool) (target : Z) (n : nat) (dst : bytes) | EWrite (l : bytes).
Inductive con_result := OKeys (dump : bool) | ORead (r : cread) | OWrite.

Definition con_do (e : con_event) : M console con_result :=
  match e with
  | EKeys cs => let* d := consoleintr cs in ret (OKeys d)
  | ERead killed target n dst => let* r := consoleread_loop killed target n dst in ret (ORead r)
  | EWrite l => cons_puts (map (fun c => Z.land c 255) l) ;; ret OWrite
  end.
Fixpoint con_run (es : list con_event) : M console (list con_result) :=
  match es with
  | [] => ret []
  | e :: es' => let* r := con_do e in let* rs := con_run es' in ret (r :: rs)
  end.

(** The same for the line editor. *)
Definition line_do (e : con_event) (st : bytes * bytes) : con_result * (bytes * bytes) :=
  match e with
  | EKeys cs => (OKeys (bool_decide (ctrl_P ∈ cs)), fold_left (fun st c => line_key c st) cs st)
  | ERead killed target n dst =>
      let '(r, q) := line_read killed (Z.of_nat n <? target) n dst st.1 in (ORead r, (q, st.2))
  | EWrite _ => (OWrite, st)
  end.
Fixpoint line_run (es : list con_event) (st : bytes * bytes) : list con_result * (bytes * bytes) :=
  match es with
  | [] => ([], st)
  | e :: es' => let '(r, st1) := line_do e st in let '(rs, st2) := line_run es' st1 in (r :: rs, st2)
  end.

(** Key codes are bytes; a read has not read more than it was asked for. *)
Definition event_ok (e : con_event) : Prop :=
  match e with
  | EKeys cs => Forall (fun c => 0 <= c < 256) cs
  | ERead _ target n _ => Z.of_nat n <= target
  | EWrite _ => True
  end.

Lemma wp_con_do e s st (Q : con_result -> console -> Prop) :
  con_in s st -> event_ok e -> (forall s', con_in s' (line_do e st).2 -> Q (line_do e st).1 s') -> wp (con_do e) s Q.
Proof.
  intros Hin Hok HQ. destruct e as [cs|killed target n dst|l]; cbn [con_do line_do event_ok] in *; apply wp_bind.
  - eapply wp_consoleintr; [exact Hin|done|]. intros s' H'. by apply wp_ret, HQ.
  - destruct st as [q l], Hin as [Hr Hl]. cbn [fst snd] in *. eapply wp_consoleread_loop; [exact Hr|done|]. intros s' H'.
    apply wp_ret. destruct (line_read _ _ _ _ _). by apply HQ.
  - destruct Hin as [Hr Hl]. apply wp_cons_puts; [apply Hr|]. intros s' H'. apply wp_ret, HQ.
    split; [by eapply rep_printed|done].
Qed.

(** C31: the console behaves as a line editor with a queue of finished lines,
    whatever the interleaving of key strokes, reads and output.  No run of the
    interrupt handler, of [consoleread] or of [consolewrite] panics: the cursor
    stays on the screen, and the buffer of 128 bytes never overflows, also when
    its 32-bit indices wrap around.  Every read gets the bytes the line editor
    gives: characters in the order they were typed, without the
    erased ones, up to the end of a line or control-D. *)
Theorem console_refines es : forall s st,
  con_in s st -> Forall event_ok es ->
  exists s', con_run es s = Ok (line_run es st).1 s' /\ con_in s' (line_run es st).2.
Proof.
  enough (Hwp : forall s st (Q : list con_result -> console -> Prop), con_in s st -> Forall event_ok es ->
    (forall s', con_in s' (line_run es st).2 -> Q (line_run es st).1 s') -> wp (con_run es) s Q).
  { intros s st Hin Hok.
    destruct (wp_inv (con_run es) s (fun r s' => r = (line_run es st).1 /\ con_in s' (line_run es st).2)) as (r & s' & E & -> & H).
    - apply (Hwp s st); [done..|]. auto.
    - by exists s'. }
  induction es as [|e es IH]; intros s st Q Hin Hok HQ; cbn [con_run line_run] in *; [by apply wp_ret, HQ|].
  apply Forall_cons in Hok as [He Hes]. apply wp_bind. eapply wp_con_do; [exact Hin|done|]. intros s1 H1.
  destruct (line_do e st) as [r st1]. cbn [fst snd] in *. apply wp_bind. eapply IH; [exact H1|done|]. intros s2 H2.
  destruct (line_run es st1) as [rs st2]. by apply wp_ret, HQ.
Qed.

(** A console whose indices are about to wrap around and whose screen is full. *)
Definition demo_console : console :=
  mkCon (replicate 128 0) 4294967294 4294967294 4294967294 false [] (replicate 2001 0) 1919 0.

Lemma console_refines_witness :
  exists s', con_run [EKeys [97; 98; 8; 99; 13]; ERead false 10 10 []] demo_console =
    Ok [OKeys false; ORead (CStop 7 [97; 99; 10])] s'.
Proof.
  destruct (console_refines [EKeys [97; 98; 8; 99; 13]; ERead false 10 10 []] demo_console ([], [])) as (s' & E & _).
  - split; [|apply not_elem_of_nil]. split; try done; cbn; lia.
  - apply Forall_cons. split; [repeat (apply Forall_cons; split; [lia|]); apply Forall_nil_2|].
    apply Forall_cons. split; [cbn; lia|apply Forall_nil_2].
  - exists s'. exact E.
Defined.
