(* ===== verification/Kbd.v ===== *)
(** kbd.c: from the codes of the keyboard to characters.

    A key has a code below 128; the keys of the extended set send 0xE0 first.  A
    key that is released sends its code with the top bit set. *)
From S2P Require Import Prelude Console.

Definition SHIFT : Z := Z.shiftl 1 0.
Definition CTL : Z := Z.shiftl 1 1.
Definition ALT : Z := Z.shiftl 1 2.
Definition CAPSLOCK : Z := Z.shiftl 1 3.
Definition NUMLOCK : Z := Z.shiftl 1 4.
Definition SCROLLLOCK : Z := Z.shiftl 1 5.
Definition E0ESC : Z := Z.shiftl 1 6.
Definition KBS_DIB : Z := 0x01.

Definition KEY_HOME : Z := 0xE0.
Definition KEY_END : Z := 0xE1.
Definition KEY_UP : Z := 0xE2.
Definition KEY_DN : Z := 0xE3.
Definition KEY_LF : Z := 0xE4.
Definition KEY_RT : Z := 0xE5.
Definition KEY_PGUP : Z := 0xE6.
Definition KEY_PGDN : Z := 0xE7.
Definition KEY_INS : Z := 0xE8.
Definition KEY_DEL : Z := 0xE9.

(** [C('A')], stored in a [uchar]. *)
Definition C (x : Z) : Z := u8 (x - 64).

(** An array of 256 bytes with designated elements; the others are 0. *)
Fixpoint at_index (l : list (Z * Z)) (i : Z) : Z :=
  match l with [] => 0 | (j, v) :: l => if i =? j then v else at_index l i end.

Definition shiftcode : Z -> Z := at_index [(0x1D, CTL); (0x2A, SHIFT); (0x36, SHIFT); (0x38, ALT); (0x9D, CTL); (0xB8, ALT)].
Definition togglecode : Z -> Z := at_index [(0x3A, CAPSLOCK); (0x45, NUMLOCK); (0x46, SCROLLLOCK)].

(** The elements that all three maps have but for Enter and the slash. *)
Definition special_keys : list (Z * Z) :=
  [(0xC8, KEY_UP); (0xD0, KEY_DN); (0xC9, KEY_PGUP); (0xD1, KEY_PGDN); (0xCB, KEY_LF); (0xCD, KEY_RT);
   (0x97, KEY_HOME); (0xCF, KEY_END); (0xD2, KEY_INS); (0xD3, KEY_DEL)].

(** The initialiser of a map: the first elements, and designated ones. *)
Definition table (first : list Z) (rest : list (Z * Z)) (i : Z) : Z :=
  if i <? Z.of_nat (length first) then nth (Z.to_nat i) first 0 else at_index rest i.

Definition normalmap : Z -> Z := table
  ([0; 0x1B] ++ str "1234567890-=" ++ [8; 9] ++ str "qwertyuiop[]" ++ [10; 0] ++ str "asdfghjkl;'`" ++ [0; 92] ++
   str "zxcvbnm,./" ++ [0] ++ str "*" ++ [0] ++ str " " ++ replicate 13 0 ++ str "789-456+1230." ++ replicate 4 0)
  ((0x9C, 10) :: (0xB5, 47) :: special_keys).
Definition shiftmap : Z -> Z := table
  ([0; 0x1B] ++ str "!@#$%^&*()_+" ++ [8; 9] ++ str "QWERTYUIOP{}" ++ [10; 0] ++ str "ASDFGHJKL:" ++ [34] ++ str "~" ++ [0] ++ str "|" ++
   str "ZXCVBNM<>?" ++ [0] ++ str "*" ++ [0] ++ str " " ++ replicate 13 0 ++ str "789-456+1230." ++ replicate 4 0)
  ((0x9C, 10) :: (0xB5, 47) :: special_keys).
Definition ctlmap : Z -> Z := table
  (replicate 16 0 ++ map C (str "QWERTYUIOP") ++ [0; 0; 13; 0] ++ map C (str "ASDFGHJKL") ++ [0; 0; 0; 0; C 92] ++
   map C (str "ZXCVBNM") ++ [0; 0; C 47; 0; 0])
  ((0x9C, 13) :: (0xB5, C 47) :: special_keys).

Definition charcode (i : Z) : Z -> Z := if i =? 0 then normalmap else if i =? 1 then shiftmap else ctlmap.

(** [kbdgetc], given the status and the data port: the new value of [shift] and the
    result. *)
Definition kbdgetc (st data shift : Z) : Z * Z :=
  if Z.land st KBS_DIB =? 0 then (shift, -1)
  else if data =? 0xE0 then (Z.lor shift E0ESC, 0)
  else if negb (Z.land data 0x80 =? 0) then
    let data := if negb (Z.land shift E0ESC =? 0) then data else Z.land data 0x7F in
    (Z.land shift (Z.lnot (Z.lor (shiftcode data) E0ESC)), 0)
  else
    let '(data, shift) :=
      if negb (Z.land shift E0ESC =? 0) then (Z.lor data 0x80, Z.land shift (Z.lnot E0ESC)) else (data, shift) in
    let shift := Z.lor shift (shiftcode data) in
    let shift := Z.lxor shift (togglecode data) in
    let c := charcode (Z.land shift (Z.lor CTL SHIFT)) data in
    let c :=
      if negb (Z.land shift CAPSLOCK =? 0) then
        if (97 <=? c) && (c <=? 122) then c + (65 - 97)
        else if (65 <=? c) && (c <=? 90) then c + (97 - 65)
        else c
      else c in
    (shift, c).

(** The results of [kbdgetc] for the codes that wait. *)
Fixpoint feed (shift : Z) (codes : list Z) : Z * list Z :=
  match codes with
  | [] => (shift, [])
  | d :: codes =>
      let r := kbdgetc KBS_DIB d shift in
      let r' := feed r.1 codes in
      (r'.1, r.2 :: r'.2)
  end.

(** [kbdintr]: the console takes what [kbdgetc] returns until there is no code. *)
Definition kbdintr (shift : Z) (codes : list Z) : M console Z :=
  let r := feed shift codes in
  let* _ := consoleintr r.2 in
  ret r.1.

(** * Typing *)

(** A key: its code, and whether it is of the extended set. *)
Record key := mkKey { code : Z; extended : bool }.
Inductive event := Press (k : key) | Release (k : key).

Definition key_ok (k : key) : Prop := 0 <= code k < 0x60.

(** The codes that the keyboard sends. *)
Definition prefix (k : key) : list Z := if extended k then [0xE0] else [].
Definition scancodes (e : event) : list Z :=
  match e with Press k => prefix k ++ [code k] | Release k => prefix k ++ [code k + 0x80] end.

(** The modifiers: the keys that are held, and the locks that are on. *)
Record mods := mkMods { shift_on : bool; ctl_on : bool; alt_on : bool; caps : bool; num : bool; scroll : bool }.

Definition is_shift (k : key) : bool := negb (extended k) && ((code k =? 0x2A) || (code k =? 0x36)).
Definition is_ctl (k : key) : bool := code k =? 0x1D.
Definition is_alt (k : key) : bool := code k =? 0x38.

Definition press (k : key) (m : mods) : mods :=
  mkMods (is_shift k || shift_on m) (is_ctl k || ctl_on m) (is_alt k || alt_on m)
    (xorb (negb (extended k) && (code k =? 0x3A)) (caps m)) (xorb (negb (extended k) && (code k =? 0x45)) (num m))
    (xorb (negb (extended k) && (code k =? 0x46)) (scroll m)).
Definition release (k : key) (m : mods) : mods :=
  mkMods (negb (is_shift k) && shift_on m) (negb (is_ctl k) && ctl_on m) (negb (is_alt k) && alt_on m) (caps m) (num m) (scroll m).
Definition after (e : event) (m : mods) : mods := match e with Press k => press k m | Release k => release k m end.

(** The letter keys: capital when one of shift and caps lock is on. *)
Definition letter (k : key) : bool :=
  let c := normalmap (code k) in negb (extended k) && ((97 <=? c) && (c <=? 122)).

(** The character of a key, given the modifiers. *)
Definition typed (k : key) (m : mods) : Z :=
  let i := if extended k then code k + 0x80 else code k in
  if ctl_on m then ctlmap i
  else if (if letter k then xorb (shift_on m) (caps m) else shift_on m) then shiftmap i
  else normalmap i.

(** What a sequence of events is to give: the characters, with a 0 for every code that gives none. *)
Fixpoint typing (m : mods) (es : list event) : mods * list Z :=
  match es with
  | [] => (m, [])
  | e :: es =>
      let out := match e with
        | Press k => (if extended k then [0] else []) ++ [typed k (press k m)]
        | Release k => (if extended k then [0] else []) ++ [0]
        end in
      let r := typing (after e m) es in
      (r.1, out ++ r.2)
  end.

(** The variable [shift] for the modifiers. *)
Definition bits (m : mods) : Z :=
  Z.b2z (shift_on m) * SHIFT + Z.b2z (ctl_on m) * CTL + Z.b2z (alt_on m) * ALT + Z.b2z (caps m) * CAPSLOCK +
  Z.b2z (num m) * NUMLOCK + Z.b2z (scroll m) * SCROLLLOCK.

Definition all_bools (f : bool -> bool) : bool := f false && f true.
Lemma all_bools_spec f : all_bools f = true -> forall b, f b = true.
Proof. unfold all_bools. intros [? ?]%andb_true_iff []; done. Qed.

Definition event_of (pr : bool) (k : key) : event := if pr then Press k else Release k.

(** Every event with every modifier. *)
Definition one_event (c : Z) (x pr : bool) (m : mods) : bool :=
  bool_decide (feed (bits m) (scancodes (event_of pr (mkKey c x))) =
    (bits (after (event_of pr (mkKey c x)) m), (typing m [event_of pr (mkKey c x)]).2)).

Lemma every_event : forallb (fun c =>
  all_bools (fun x => all_bools (fun pr => all_bools (fun a => all_bools (fun b => all_bools (fun d =>
    all_bools (fun e => all_bools (fun f => all_bools (fun g => one_event c x pr (mkMods a b d e f g)))))))))) (seqZ 0 0x60) = true.
Proof. vm_compute. reflexivity. Qed.

Lemma feed_app shift a b : feed shift (a ++ b) =
  ((feed (feed shift a).1 b).1, (feed shift a).2 ++ (feed (feed shift a).1 b).2).
Proof. revert shift. induction a as [|d a IH]; intros shift; cbn [feed app fst snd]; [by destruct (feed shift b)|]. by rewrite IH. Qed.

Definition key_of (e : event) : key := match e with Press k | Release k => k end.

Lemma feed_event e m : key_ok (key_of e) -> feed (bits m) (scancodes e) = (bits (after e m), (typing m [e]).2).
Proof.
  intros Hk. pose proof every_event as H. rewrite forallb_forall in H.
  destruct e as [[c x]|[c x]], m as [a b d e f g]; specialize (H c (proj1 (list_elem_of_In _ _) (proj2 (elem_of_seqZ 0 0x60 c) Hk))).
  - pose proof (all_bools_spec _ (all_bools_spec _ H x) true) as H1. cbv beta in H1.
    pose proof (all_bools_spec _ (all_bools_spec _ (all_bools_spec _ (all_bools_spec _ (all_bools_spec _ (all_bools_spec _ H1 a) b) d) e) f) g) as H2.
    by apply bool_decide_eq_true in H2.
  - pose proof (all_bools_spec _ (all_bools_spec _ H x) false) as H1. cbv beta in H1.
    pose proof (all_bools_spec _ (all_bools_spec _ (all_bools_spec _ (all_bools_spec _ (all_bools_spec _ (all_bools_spec _ H1 a) b) d) e) f) g) as H2.
    by apply bool_decide_eq_true in H2.
Qed.

(** The codes of any sequence of events give the characters it types: a letter is a
    capital when one of shift and caps lock is on, control has its own map, and the
    extended code of a shift key is not taken for one. *)
Theorem kbd_types es m : Forall (fun e => key_ok (key_of e)) es ->
  feed (bits m) (concat (map scancodes es)) = (bits (typing m es).1, (typing m es).2).
Proof.
  intros Hes. revert m. induction Hes as [|e es He _ IH]; intros m; [done|]. cbn [map concat]. rewrite feed_app, feed_event by done.
  cbn [fst snd]. rewrite IH. cbn [typing fst snd]. by rewrite app_nil_r.
Qed.
