(* ===== verification/Ulib.v ===== *)
(** ulib.c and printf.c: the library of user programs.

    Strings are lists of the bytes before the terminating 0; a function that
    writes with [putc] is modelled by the bytes it writes. *)
From S2P Require Import Prelude.

(** * ulib.c *)

Fixpoint strcmp (p q : bytes) : Z :=
  match p, q with
  | [], [] => 0
  | [], d :: _ => 0 - d
  | c :: _, [] => c - 0
  | c :: p', d :: q' => if c =? d then strcmp p' q' else c - d
  end.

(** The index of the first [c]; there is none of the terminating 0. *)
Fixpoint strchr (s : bytes) (c : Z) : option nat :=
  match s with [] => None | x :: s' => if x =? c then Some O else Datatypes.S <$> strchr s' c end.

Fixpoint atoi_from (n : Z) (s : bytes) : Z :=
  match s with
  | [] => n
  | c :: s' => if (48 <=? c) && (c <=? 57) then atoi_from (s32 (n * 10 + c - 48)) s' else n
  end.
Definition atoi (s : bytes) : Z := atoi_from 0 s.

(** [gets] on an input [src] read a byte at a time: the string and what is left. *)
Fixpoint gets_loop (room : nat) (buf src : bytes) : bytes * bytes :=
  match room, src with
  | Datatypes.S room', c :: src' =>
      if (c =? 10) || (c =? 13) then (buf ++ [c], src') else gets_loop room' (buf ++ [c]) src'
  | _, _ => (buf, src)
  end.
Definition gets (max : Z) (src : bytes) : bytes * bytes := gets_loop (Z.to_nat (max - 1)) [] src.

(** [memmove] in the memory [m]: always from the first byte to the last. *)
Fixpoint memmove (m : bytes) (dst src n : nat) : bytes :=
  match n with
  | O => m
  | Datatypes.S n' => memmove (<[dst := nth0 m src]> m) (dst + 1) (src + 1) n'
  end.

(** * printf.c *)

Definition digit_upper (d : Z) : Z := if d <? 10 then 48 + d else 55 + d.

Definition printint (xx base : Z) (sgn : bool) : bytes :=
  let neg := sgn && (xx <? 0) in
  let x := if neg then u32 (- xx) else u32 xx in
  rev (map digit_upper (digits_rev 32 x base) ++ (if neg then [45] else [])).

(** The arguments of [printf]; a null string is [None]. *)
Inductive parg := PInt (z : Z) | PStr (s : option bytes).

(** [state] is whether the last character was a %; [None] when an argument is
    missing or of the wrong kind. *)
Fixpoint printf_from (state : bool) (fmt : bytes) (ap : list parg) : option bytes :=
  match fmt with
  | [] => Some []
  | c :: fmt' =>
      if negb state then
        if c =? 37 then printf_from true fmt' ap
        else out ← printf_from false fmt' ap; Some (c :: out)
      else if c =? 100 then
        match ap with
        | PInt z :: ap' => out ← printf_from false fmt' ap'; Some (printint (s32 z) 10 true ++ out)
        | _ => None
        end
      else if (c =? 120) || (c =? 112) then
        match ap with
        | PInt z :: ap' => out ← printf_from false fmt' ap'; Some (printint (s32 z) 16 false ++ out)
        | _ => None
        end
      else if c =? 115 then
        match ap with
        | PStr s :: ap' => out ← printf_from false fmt' ap'; Some (default (str "(null)") s ++ out)
        | _ => None
        end
      else if c =? 99 then
        match ap with
        | PInt z :: ap' => out ← printf_from false fmt' ap'; Some (u8 z :: out)
        | _ => None
        end
      else if c =? 37 then out ← printf_from false fmt' ap; Some (37 :: out)
      else out ← printf_from false fmt' ap; Some (37 :: c :: out)
  end.
Definition printf (fmt : bytes) (ap : list parg) : option bytes := printf_from false fmt ap.

(** * Numbers *)

(** The value of a string of digits in base [base]. *)
Definition digit_value (c : Z) : Z := if c <? 58 then c - 48 else c - 55.
Definition number (base : Z) (s : bytes) : Z := fold_left (fun n c => n * base + digit_value c) s 0.

Lemma number_rev base l : Forall (fun d => 0 <= d < 16) l -> number base (rev (map digit_upper l)) = value_rev base l.
Proof.
  unfold number. induction 1 as [|d l Hd Hl IH]; [done|]. cbn [map rev value_rev]. rewrite fold_left_app, IH. cbn [fold_left].
  unfold digit_value, digit_upper. destruct (Z.ltb_spec d 10); [rewrite (proj2 (Z.ltb_lt _ _))|rewrite (proj2 (Z.ltb_ge _ _))]; lia.
Qed.

Lemma printint_number x base :
  2 <= base <= 16 -> 0 <= x < 2 ^ 32 ->
  number base (rev (map digit_upper (digits_rev 32 x base))) = x /\ Forall (fun d => 0 <= d < base) (digits_rev 32 x base).
Proof.
  intros Hb Hx. destruct (digits_rev_value base 32 x) as [H1 H2]; [lia| |].
  { split; [lia|]. pose proof (Z.pow_le_mono_l 2 base (Z.of_nat 32) ltac:(lia)). change (Z.of_nat 32) with 32 in *. lia. }
  split; [|done]. rewrite number_rev; [done|]. eapply Forall_impl; [exact H2|]. cbn. intros; lia.
Qed.

Lemma atoi_number s : forall n, 0 <= n -> Forall (fun c => 48 <= c <= 57) s ->
  fold_left (fun n c => n * 10 + digit_value c) s n < 2 ^ 31 ->
  atoi_from n s = fold_left (fun n c => n * 10 + digit_value c) s n.
Proof.
  assert (Hmono : forall s n, 0 <= n -> Forall (fun c => 48 <= c <= 57) s -> n <= fold_left (fun n c => n * 10 + digit_value c) s n).
  { clear. induction s as [|c s IH]; intros n Hn Hs; cbn; [lia|]. apply Forall_cons in Hs as [Hc Hs].
    unfold digit_value at 2. rewrite (proj2 (Z.ltb_lt _ _)) by lia. specialize (IH (n * 10 + (c - 48)) ltac:(lia) Hs). lia. }
  induction s as [|c s IH]; intros n Hn Hs Hlt; cbn in *; [done|]. apply Forall_cons in Hs as [Hc Hs].
  rewrite (proj2 (Z.leb_le 48 c)), (proj2 (Z.leb_le c 57)) by lia. cbn [andb]. unfold digit_value at 2 in Hlt. unfold digit_value at 2.
  rewrite (proj2 (Z.ltb_lt c 58)) in * by lia. pose proof (Hmono s (n * 10 + (c - 48)) ltac:(lia) Hs).
  rewrite s32_small by lia. replace (n * 10 + c - 48) with (n * 10 + (c - 48)) by lia. apply IH; [lia|done|done].
Qed.

(** [strcmp] returns 0 exactly on equal strings. *)
Lemma strcmp_zero p q : Forall (fun c => c <> 0) p -> Forall (fun c => c <> 0) q -> strcmp p q = 0 <-> p = q.
Proof.
  intros Hp. revert q. induction Hp as [|c p Hc Hp IH]; intros [|d q] Hq; cbn [strcmp]; [done|..].
  - apply Forall_cons in Hq as [Hd _]. split; [lia|done].
  - split; [lia|done].
  - apply Forall_cons in Hq as [Hd Hq]. destruct (Z.eqb_spec c d) as [->|E].
    + rewrite (IH _ Hq). split; [by intros ->|by intros [= ->]].
    + split; [lia|]. by intros [= ->].
Qed.

(** Numbers survive printing.  What [printf] prints for %d, read by [atoi], is
    the number again when it is not negative; a negative number, the smallest
    one too, is printed as a minus sign and the digits of its absolute value;
    the digits of %x have the value of the argument as an unsigned number. *)
Theorem printf_roundtrip :
  (forall n, 0 <= n < 2 ^ 31 -> atoi (printint n 10 true) = n) /\
  (forall n, - 2 ^ 31 <= n < 0 -> exists ds, printint n 10 true = 45 :: ds /\ number 10 ds = - n) /\
  (forall z, number 16 (printint z 16 false) = u32 z).
Proof.
  split_and!.
  - intros n Hn. unfold printint. rewrite (proj2 (Z.ltb_ge n 0)) by lia. cbn [andb]. rewrite app_nil_r, u32_small by lia.
    destruct (printint_number n 10) as [H1 H2]; [lia..|]. unfold atoi. rewrite atoi_number; [exact H1|lia| |].
    + apply Forall_rev, Forall_fmap. eapply Forall_impl; [exact H2|]. cbn. intros d Hd. unfold digit_upper.
      rewrite (proj2 (Z.ltb_lt _ _)) by lia. lia.
    + unfold number in H1. rewrite H1. lia.
  - intros n Hn. unfold printint. rewrite (proj2 (Z.ltb_lt n 0)) by lia. cbn [andb]. rewrite rev_app_distr, u32_small by lia.
    eexists. split; [reflexivity|]. apply printint_number; lia.
  - intros z. unfold printint. cbn [andb]. rewrite app_nil_r. apply printint_number; [lia|apply u32_range].
Qed.

(** [memmove] is wrong for a move to higher addresses that overlap. *)
Lemma memmove_overlap : memmove [1; 2; 3] 1 0 2 = [1; 1; 1].
Proof. reflexivity. Qed.
