(* ===== verification/Umalloc.v ===== *)
(** umalloc.c: the allocator of user programs.

    The headers of blocks are kept in [h_hdr], by address: the pointer to the
    next free block and the size in units of a header.  Memory that was never
    written reads as 0.  [h_brk] is the end of the process's memory.  The address
    [base] is that of the static header, and [grant brk n] tells whether the
    system lets the program grow from [brk] by [n] bytes. *)
From S2P Require Import Prelude.

Definition sizeof_Header : Z := 8.

Record heap := mkHeap { h_hdr : gmap Z (Z * Z); h_freep : Z; h_brk : Z }.

Definition header (s : heap) (p : Z) : Z * Z := default (0, 0) (h_hdr s !! p).
Definition hset (p : Z) (x : Z * Z) (s : heap) : heap := mkHeap (<[p := x]> (h_hdr s)) (h_freep s) (h_brk s).
Definition set_freep (p : Z) (s : heap) : heap := mkHeap (h_hdr s) p (h_brk s).

Section umalloc.
Context (base : Z) (grant : Z -> Z -> bool).
Local Abbreviation H := (M heap).

(** [p->s.ptr] and [p->s.size]. *)
Definition get_ptr (p : Z) : H Z := gets (fun s => (header s p).1).
Definition get_size (p : Z) : H Z := gets (fun s => (header s p).2).
Definition set_ptr (p x : Z) : H unit := modify (fun s => hset p (x, (header s p).2) s).
Definition set_size (p x : Z) : H unit := modify (fun s => hset p ((header s p).1, x) s).

Definition sbrk (n : Z) : H Z :=
  let* s := get in
  if grant (h_brk s) n then put (mkHeap (h_hdr s) (h_freep s) (h_brk s + n)) ;; ret (h_brk s)
  else ret (u32 (-1)).

(** The loop of [free]. *)
Definition find_place (bp : Z) : H Z :=
  let* s := get in
  while_loop (size (h_hdr s) + 1) (h_freep s) (fun p =>
    let* nx := get_ptr p in
    if (p <? bp) && (bp <? nx) then ret (inr p)
    else if (nx <=? p) && ((p <? bp) || (bp <? nx)) then ret (inr p)
    else ret (inl nx)).

Definition free (ap : Z) : H unit :=
  let bp := ap - sizeof_Header in
  let* p := find_place bp in
  let* sz := get_size bp in
  let* nx := get_ptr p in
  (if u32 (bp + sz * sizeof_Header) =? nx then
     let* nsz := get_size nx in
     set_size bp (u32 (sz + nsz)) ;;
     let* nnx := get_ptr nx in
     set_ptr bp nnx
   else set_ptr bp nx) ;;
  let* psz := get_size p in
  (if u32 (p + psz * sizeof_Header) =? bp then
     let* bsz := get_size bp in
     set_size p (u32 (psz + bsz)) ;;
     let* bnx := get_ptr bp in
     set_ptr p bnx
   else set_ptr p bp) ;;
  modify (set_freep p).

(** 0 is the null pointer. *)
Definition morecore (nu : Z) : H Z :=
  let nu := if nu <? 4096 then 4096 else nu in
  let* p := sbrk (u32 (nu * sizeof_Header)) in
  if p =? u32 (-1) then ret 0
  else
    set_size p nu ;;
    free (p + sizeof_Header) ;;
    gets h_freep.

Definition units (nbytes : Z) : Z := u32 (u32 (nbytes + sizeof_Header - 1) / sizeof_Header + 1).

Definition malloc (nbytes : Z) : H Z :=
  let nunits := units nbytes in
  let* s := get in
  (if h_freep s =? 0 then modify (set_freep base) ;; set_ptr base base ;; set_size base 0 else ret tt) ;;
  let* prevp := gets h_freep in
  let* p := get_ptr prevp in
  let* s := get in
  while_loop (2 * size (h_hdr s) + 2) (prevp, p) (fun '(prevp, p) =>
    let* sz := get_size p in
    if nunits <=? sz then
      let* r := (if sz =? nunits then let* nx := get_ptr p in set_ptr prevp nx ;; ret p
                 else
                   set_size p (sz - nunits) ;;
                   let p := p + (sz - nunits) * sizeof_Header in
                   set_size p nunits ;; ret p) in
      modify (set_freep prevp) ;; ret (inr (r + sizeof_Header))
    else
      let* freep := gets h_freep in
      let* p' := (if p =? freep then morecore nunits else ret p) in
      if (p =? freep) && (p' =? 0) then ret (inr 0)
      else let* nx := get_ptr p' in ret (inl (p', nx))).
End umalloc.

(** umalloc.c: blocks in use never overlap. *)

(** * The blocks of the heap *)

(** A block: address of its header, size in units, and whether it is free. *)
Record blk := mkBlk { b_addr : Z; b_size : Z; b_free : bool }.
Definition b_end (b : blk) : Z := b_addr b + 8 * b_size b.

Definition frees (B : list blk) : list Z := omap (fun b => if b_free b then Some (b_addr b) else None) B.
(** The blocks in use. *)
Definition live (B : list blk) : list (Z * Z) :=
  omap (fun b => if b_free b then None else Some (b_addr b, b_size b)) B.

Lemma frees_app B1 B2 : frees (B1 ++ B2) = frees B1 ++ frees B2.
Proof. unfold frees. by rewrite omap_app. Qed.
Lemma live_app B1 B2 : live (B1 ++ B2) = live B1 ++ live B2.
Proof. unfold live. by rewrite omap_app. Qed.

Lemma elem_frees a B : a ∈ frees B <-> exists b, b ∈ B /\ b_free b = true /\ b_addr b = a.
Proof.
  unfold frees. rewrite list_elem_of_omap. split.
  - intros (b & Hb & E). exists b. destruct (b_free b); [|done]. by injection E as ->.
  - intros (b & Hb & E & <-). exists b. by rewrite E.
Qed.

(** The first free block of [B], or [nx]. *)
Definition nxt (B : list blk) (nx : Z) : Z := hd nx (frees B).

Lemma nxt_app B1 B2 nx : nxt (B1 ++ B2) nx = nxt B1 (nxt B2 nx).
Proof. unfold nxt. rewrite frees_app. by destruct (frees B1). Qed.

(** The blocks of [B] lie in order between [lo] and [hi], their headers are
    right, and the last free one points to [nx]. *)
Fixpoint seg (s : heap) (lo : Z) (B : list blk) (nx hi : Z) : Prop :=
  match B with
  | [] => lo <= hi
  | b :: B' =>
      lo <= b_addr b /\ 1 <= b_size b /\ (header s (b_addr b)).2 = b_size b /\
      (b_free b = true -> (header s (b_addr b)).1 = nxt B' nx) /\ seg s (b_end b) B' nx hi
  end.

Lemma seg_app s B1 B2 nx : forall lo hi,
  seg s lo (B1 ++ B2) nx hi <-> exists mid, seg s lo B1 (nxt B2 nx) mid /\ seg s mid B2 nx hi.
Proof.
  induction B1 as [|b B1 IH]; intros lo hi; cbn [app seg].
  - split; [intros Hs; by exists lo|]. intros (mid & Hle & Hs). destruct B2 as [|c B2]; cbn in *; [lia|].
    destruct Hs as (? & ?). split; [lia|done].
  - rewrite nxt_app. setoid_rewrite IH. split.
    + intros (H1 & H2 & H3 & H4 & mid & H5 & H6). exists mid. by split_and!.
    + intros (mid & (H1 & H2 & H3 & H4 & H5) & H6). split_and!; try done. by exists mid.
Qed.

Lemma seg_bounds s B nx : forall lo hi, seg s lo B nx hi -> lo <= hi /\ forall b, b ∈ B -> lo <= b_addr b /\ 1 <= b_size b /\ b_end b <= hi.
Proof.
  induction B as [|b B IH]; intros lo hi; cbn [seg].
  - intros H. split; [done|]. intros b Hb. by apply elem_of_nil in Hb.
  - intros (H1 & H2 & _ & _ & H5). destruct (IH _ _ H5) as [H6 H7]. unfold b_end in *. split; [lia|].
    intros c [->|Hc]%elem_of_cons; [lia|]. destruct (H7 c Hc). lia.
Qed.

(** A header elsewhere does not matter. *)
Lemma seg_hset s p x B nx : forall lo hi, (forall b, b ∈ B -> b_addr b <> p) -> seg s lo B nx hi -> seg (hset p x s) lo B nx hi.
Proof.
  induction B as [|b B IH]; intros lo hi Hp; cbn [seg]; [done|]. intros (H1 & H2 & H3 & H4 & H5).
  assert (E : header (hset p x s) (b_addr b) = header s (b_addr b)).
  { unfold header, hset. cbn. rewrite lookup_insert_ne; [done|]. symmetry. apply Hp. by left. }
  rewrite E. split_and!; try done. apply IH; [|done]. intros c Hc. apply Hp. by right.
Qed.

Lemma seg_hdr s s' B nx : h_hdr s' = h_hdr s -> forall lo hi, seg s lo B nx hi -> seg s' lo B nx hi.
Proof.
  intros E. induction B as [|b B IH]; intros lo hi; cbn [seg]; [done|]. unfold header. rewrite E.
  intros (H1 & H2 & H3 & H4 & H5). split_and!; try done. by apply IH.
Qed.

Lemma header_hset s p x : header (hset p x s) p = x.
Proof. unfold header, hset. cbn. by rewrite lookup_insert_eq. Qed.
Lemma header_hset_ne s p x q : q <> p -> header (hset p x s) q = header s q.
Proof. intros. unfold header, hset. cbn. by rewrite lookup_insert_ne. Qed.

Lemma seg_nofree s B nx nx' : forall lo hi, frees B = [] -> seg s lo B nx hi -> seg s lo B nx' hi.
Proof.
  induction B as [|b B IH]; intros lo hi; cbn [seg]; [done|]. unfold frees. cbn. intros E (H1 & H2 & H3 & H4 & H5).
  destruct (b_free b); [done|]. split_and!; try done. by apply IH.
Qed.

Lemma split_last_free B :
  frees B <> [] -> exists B1 b B2, B = B1 ++ b :: B2 /\ b_free b = true /\ frees B2 = [] /\ last (frees B) = Some (b_addr b).
Proof.
  induction B as [|c B IH] using rev_ind; [done|].
  assert (Ec : frees (B ++ [c]) = frees B ++ (if b_free c then [b_addr c] else [])).
  { rewrite frees_app. f_equal. unfold frees. cbn. by destruct (b_free c). }
  rewrite Ec. destruct (b_free c) eqn:E; intros Hne.
  - exists B, c, []. split_and!; try done. by rewrite last_snoc.
  - rewrite app_nil_r in *. destruct (IH Hne) as (B1 & b & B2 & -> & H1 & H2 & H3). exists B1, b, (B2 ++ [c]).
    split_and!; try done; [by rewrite <- app_assoc|]. rewrite frees_app, H2. unfold frees. cbn. by rewrite E.
Qed.

Section spec.
Context (base : Z) (base_pos : 0 < base).

(** The static header and the blocks [B] after it, whose last free one points
    to [nx]. *)
Definition lst (s : heap) (B : list blk) (nx hi : Z) : Prop :=
  header s base = (nxt B nx, 0) /\ seg s (base + 8) B nx hi.

Lemma lst_hdr s s' B nx hi : h_hdr s' = h_hdr s -> lst s B nx hi -> lst s' B nx hi.
Proof. intros E [H1 H2]. split; [unfold header; by rewrite E|by eapply seg_hdr]. Qed.

Lemma lst_freep s p B nx hi : lst s B nx hi -> lst (set_freep p s) B nx hi.
Proof. by apply lst_hdr. Qed.

(** The last free block, or the static header. *)
Definition pred (B : list blk) : Z := default base (last (frees B)).

(** The last free block before the end of [B] is made to point elsewhere. *)
Lemma lst_relink s B nx hi nx' :
  lst s B nx hi -> lst (hset (pred B) (nx', (header s (pred B)).2) s) B nx' hi.
Proof.
  intros [Hb Hs]. destruct (seg_bounds _ _ _ _ _ Hs) as [_ Hbd]. unfold pred. destruct (decide (frees B = [])) as [E|E].
  - rewrite E. cbn [last default]. split; [rewrite header_hset, Hb; unfold nxt; by rewrite E|].
    apply seg_hset; [|by eapply seg_nofree]. intros b Hb'. specialize (Hbd b Hb'). lia.
  - destruct (split_last_free B E) as (B1 & b & B2 & -> & Hf & H2 & ->). cbn [from_option id].
    assert (Hin : b ∈ B1 ++ b :: B2) by (apply elem_of_app; right; by left).
    assert (En : forall x, nxt (b :: B2) x = b_addr b) by (intros x; unfold nxt, frees; cbn; by rewrite Hf).
    apply seg_app in Hs as (mid & S1 & S2). rewrite En in S1. destruct (seg_bounds _ _ _ _ _ S1) as [_ Hb1].
    destruct S2 as (G1 & G2 & G3 & G4 & G5). destruct (seg_bounds _ _ _ _ _ G5) as [_ Hb2]. split.
    + rewrite header_hset_ne by (specialize (Hbd b Hin); lia). rewrite Hb, !nxt_app, !En. done.
    + apply seg_app. exists mid. rewrite En. split.
      * apply seg_hset; [|done]. intros c Hc. specialize (Hb1 c Hc). unfold b_end in *. lia.
      * cbn [seg]. rewrite header_hset. split_and!; try done; [intros _; unfold nxt; by rewrite H2|].
        apply seg_hset; [|by eapply seg_nofree]. intros c Hc. specialize (Hb2 c Hc). unfold b_end in *. lia.
Qed.

(** The free list as the program sees it: a ring. *)
Definition ring (B : list blk) : list Z := base :: frees B.

Fixpoint chain (s : heap) (F : list Z) (nx : Z) : Prop :=
  match F with [] => True | x :: F' => (header s x).1 = hd nx F' /\ chain s F' nx end.

Lemma seg_chain s B nx : forall lo hi, seg s lo B nx hi -> chain s (frees B) nx.
Proof.
  induction B as [|b B IH]; intros lo hi; cbn [seg]; [done|]. intros (H1 & H2 & H3 & H4 & H5). unfold frees. cbn.
  destruct (b_free b) eqn:E; [|by eapply IH]. split; [by apply H4|by eapply IH].
Qed.

Lemma chain_lookup s F nx i x : chain s F nx -> F !! i = Some x -> (header s x).1 = default nx (F !! Datatypes.S i).
Proof.
  revert i. induction F as [|y F IH]; intros i Hc Hi; [done|]. destruct Hc as [H1 H2]. destruct i as [|i]; cbn in *.
  - injection Hi as ->. rewrite H1. by destruct F.
  - by apply IH.
Qed.

Lemma lst_chain s B hi i x : lst s B base hi -> ring B !! i = Some x -> (header s x).1 = default base (ring B !! Datatypes.S i).
Proof.
  intros [Hb Hs] Hi. eapply chain_lookup; [|exact Hi]. split; [by rewrite Hb|by eapply seg_chain].
Qed.

(** The ring is in the order of addresses. *)
Lemma ring_sorted s B nx hi i j x y :
  lst s B nx hi -> ring B !! i = Some x -> ring B !! j = Some y -> (i < j)%nat -> x < y.
Proof.
  intros [_ Hs] Hi Hj Hij.
  assert (Hsort : forall B lo hi, seg s lo B nx hi -> forall i j x y, frees B !! i = Some x -> frees B !! j = Some y -> (i < j)%nat -> x < y).
  { clear. induction B as [|b B IH]; intros lo hi Hs i j x y; [done|]. destruct Hs as (H1 & H2 & _ & _ & H5).
    unfold frees. cbn. destruct (b_free b); [|by eapply IH]. destruct i as [|i], j as [|j]; cbn; try lia.
    - intros [= <-] Hj _. apply list_elem_of_lookup_2, elem_frees in Hj as (c & Hc & _ & <-).
      destruct (seg_bounds _ _ _ _ _ H5) as [_ Hb]. specialize (Hb c Hc). unfold b_end in *. lia.
    - intros Hi Hj Hij. eapply (IH _ _ H5 i j); [done|done|lia]. }
  destruct i as [|i], j as [|j]; cbn in *; try lia.
  - injection Hi as <-. apply list_elem_of_lookup_2, elem_frees in Hj as (c & Hc & _ & <-).
    destruct (seg_bounds _ _ _ _ _ Hs) as [_ Hb]. specialize (Hb c Hc). lia.
  - eapply Hsort; [exact Hs|done|done|lia].
Qed.

Lemma ring_length s B nx hi : 0 < nx -> lst s B nx hi -> (length (ring B) <= size (h_hdr s))%nat.
Proof.
  intros Hn0 Hl. pose proof Hl as [Hb Hs].
  assert (Hnd : NoDup (ring B)).
  { apply NoDup_alt. intros i j x Hi Hj. destruct (decide (i < j)%nat); [pose proof (ring_sorted _ _ _ _ _ _ _ _ Hl Hi Hj); lia|].
    destruct (decide (j < i)%nat); [pose proof (ring_sorted _ _ _ _ _ _ _ _ Hl Hj Hi); lia|lia]. }
  rewrite <- (size_list_to_set (C := gset Z)) by done. rewrite <- size_dom. apply subseteq_size.
  intros x. rewrite elem_of_list_to_set, elem_of_dom. intros [->|Hx]%elem_of_cons.
  - unfold header in Hb. destruct (h_hdr s !! base); [by eexists|]. cbn in Hb. injection Hb as E. exfalso.
    revert E. unfold nxt. destruct (frees B) as [|y l] eqn:E; cbn; [lia|]. intros <-.
    assert (Hy : 0 ∈ frees B) by (rewrite E; by left). apply elem_frees in Hy as (c & Hc & _ & Ec).
    destruct (seg_bounds _ _ _ _ _ Hs) as [_ Hbd]. specialize (Hbd c Hc). lia.
  - apply elem_frees in Hx as (b & Hb' & _ & <-). apply list_elem_of_split in Hb' as (B1 & B2 & ->).
    apply seg_app in Hs as (mid & _ & (_ & G2 & G3 & _)). unfold header in G3.
    destruct (h_hdr s !! b_addr b); [by eexists|]. cbn in G3. lia.
Qed.

Record hrep (s : heap) (B : list blk) : Prop := {
  hr_lst : lst s B base (h_brk s);
  hr_freep : h_freep s ∈ ring B;
  hr_brk : h_brk s <= 2 ^ 31
}.

(** * free *)

Lemma pred_lookup pre rest : (base :: frees pre ++ rest) !! length (frees pre) = Some (pred pre).
Proof.
  unfold pred. destruct (frees pre) as [|x l _] using rev_ind; [done|]. rewrite last_snoc, length_app, app_comm_cons.
  cbn [length]. rewrite lookup_app_l by (cbn; rewrite length_app; cbn; lia). rewrite Nat.add_1_r.
  exact (list_lookup_middle l [] x (length l) eq_refl).
Qed.

(** [find_place] finds the free block before the block at hand. *)
Lemma wp_find_place s pre b post (Q : Z -> heap -> Prop) :
  hrep s (pre ++ b :: post) -> b_free b = false -> Q (pred pre) s -> wp (find_place (b_addr b)) s Q.
Proof.
  intros [Hl Hf _] Hb HQ. set (B := pre ++ b :: post) in *. set (j := length (frees pre)).
  assert (ER : ring B = base :: frees pre ++ frees post).
  { unfold ring, B. rewrite frees_app. f_equal. f_equal. unfold frees. cbn. by rewrite Hb. }
  assert (Ej : ring B !! j = Some (pred pre)) by (rewrite ER; apply pred_lookup).
  pose proof Hl as [_ Hs]. unfold B in Hs. apply seg_app in Hs as (mid & S1 & (G1 & G2 & _ & _ & G5)).
  destruct (seg_bounds _ _ _ _ _ S1) as [_ Hb1]. destruct (seg_bounds _ _ _ _ _ G5) as [_ Hb2]. unfold b_end in *.
  assert (Hbase : base < b_addr b) by (destruct (seg_bounds _ _ _ _ _ S1); lia).
  assert (Hlow : forall i x, (i <= j)%nat -> ring B !! i = Some x -> x < b_addr b).
  { intros i x Hi Hx. assert (Hp : pred pre < b_addr b).
    { unfold pred. destruct (last (frees pre)) as [y|] eqn:E; [|done]. cbn.
      apply last_Some_elem_of, elem_frees in E as (c & Hc & _ & <-). specialize (Hb1 c Hc). lia. }
    destruct (decide (i = j)) as [->|]; [congruence|].
    pose proof (ring_sorted s B base _ i j x _ Hl Hx Ej ltac:(lia)). lia. }
  assert (Hhigh : forall i x, (j < i)%nat -> ring B !! i = Some x -> b_addr b < x).
  { intros i x Hi Hx. rewrite ER, app_comm_cons, lookup_app_r in Hx by (cbn; unfold j in Hi; lia).
    apply list_elem_of_lookup_2, elem_frees in Hx as (c & Hc & _ & <-). specialize (Hb2 c Hc). lia. }
  pose proof (ring_length s B base _ base_pos Hl) as Hlen.
  assert (Hj : (j < length (ring B))%nat) by (by apply lookup_lt_Some in Ej).
  unfold find_place. apply wp_bind, wp_get. apply (wp_while_loop (fun fuel p s' => s' = s /\ exists i, ring B !! i = Some p /\
    ((if decide (i <= j)%nat then j - i else length (ring B) - i + j) + 1 <= fuel)%nat)).
  - split; [done|]. apply list_elem_of_lookup_1 in Hf as [i Hi]. exists i. split; [done|].
    apply lookup_lt_Some in Hi. case_decide; lia.
  - intros p s' (_ & i & _ & ?). lia.
  - intros fuel p s' (-> & i & Hi & Hfu). apply wp_bind, wp_gets.
    rewrite (lst_chain s B _ i p Hl Hi). pose proof (lookup_lt_Some _ _ _ Hi) as Hil.
    destruct (decide (i < j)%nat) as [Hij|Hij].
    + destruct (lookup_lt_is_Some_2 (ring B) (Datatypes.S i) ltac:(lia)) as [y Hy]. rewrite Hy. cbn [from_option id].
      pose proof (Hlow (Datatypes.S i) y ltac:(lia) Hy). pose proof (ring_sorted s B base _ i (Datatypes.S i) p y Hl Hi Hy ltac:(lia)).
      zif. zif. apply wp_ret. split; [done|]. exists (Datatypes.S i). split; [done|]. repeat case_decide; lia.
    + destruct (decide (i = j)) as [->|Hne].
      * rewrite Ej in Hi. injection Hi as <-. pose proof (Hlow j _ ltac:(lia) Ej) as Hp.
        destruct (ring B !! Datatypes.S j) as [y|] eqn:Hy; cbn [from_option id].
        -- pose proof (Hhigh (Datatypes.S j) y ltac:(lia) Hy). zif. by apply wp_ret.
        -- assert (base <= pred pre).
           { destruct j as [|j']; [rewrite ER in Ej; cbn in Ej; injection Ej as <-; lia|].
             pose proof (ring_sorted s B base _ 0 (Datatypes.S j') base _ Hl ltac:(done) Ej ltac:(lia)). lia. }
           zif. zif. by apply wp_ret.
      * pose proof (Hhigh i p ltac:(lia) Hi) as Hp.
        destruct (ring B !! Datatypes.S i) as [y|] eqn:Hy; cbn [from_option id].
        -- pose proof (ring_sorted s B base _ i (Datatypes.S i) p y Hl Hi Hy ltac:(lia)). zif. zif. apply wp_ret.
           split; [done|]. exists (Datatypes.S i). split; [done|]. repeat case_decide; lia.
        -- zif. zif. apply wp_ret. split; [done|]. exists 0%nat. split; [done|]. repeat case_decide; lia.
Qed.

Lemma hset_hset s p x y : hset p x (hset p y s) = hset p x s.
Proof. unfold hset. cbn. by rewrite insert_insert_eq. Qed.

Lemma lst_app s B1 B2 nx hi : lst s (B1 ++ B2) nx hi <-> exists mid, lst s B1 (nxt B2 nx) mid /\ seg s mid B2 nx hi.
Proof.
  unfold lst. rewrite nxt_app, seg_app. split.
  - intros (H1 & mid & H2 & H3). by exists mid.
  - intros (mid & (H1 & H2) & H3). split; [done|]. by exists mid.
Qed.

Lemma lst_pred s B nx hi : lst s B nx hi -> (header s (pred B)).1 = nx.
Proof.
  intros [Hb Hs]. unfold pred. destruct (decide (frees B = [])) as [E|E].
  - rewrite E. cbn. rewrite Hb. unfold nxt. by rewrite E.
  - destruct (split_last_free B E) as (B1 & b & B2 & -> & Hf & H2 & ->). cbn [from_option id].
    apply seg_app in Hs as (mid & _ & (_ & _ & _ & H4 & _)). rewrite H4 by done. unfold nxt. by rewrite H2.
Qed.

Lemma nxt_free b B nx : b_free b = true -> nxt (b :: B) nx = b_addr b.
Proof. intros E. unfold nxt, frees. cbn. by rewrite E. Qed.
Lemma nxt_used b B nx : b_free b = false -> nxt (b :: B) nx = nxt B nx.
Proof. intros E. unfold nxt, frees. cbn. by rewrite E. Qed.

(** The block is joined with the next one when that is free and adjacent. *)
Lemma wp_join_next s mid b post brk (Q : unit -> heap -> Prop) :
  seg s mid (b :: post) base brk -> base + 8 <= mid -> brk <= 2 ^ 31 ->
  (forall x b' rest, b_addr b' = b_addr b -> b_free b' = true -> b_size b <= b_size b' -> live rest = live post ->
     (length (frees rest) <= length (frees post))%nat ->
     seg (hset (b_addr b) x s) mid (b' :: rest) base brk -> Q tt (hset (b_addr b) x s)) ->
  wp (if u32 (b_addr b + b_size b * sizeof_Header) =? nxt post base then
        let* nsz := get_size (nxt post base) in
        set_size (b_addr b) (u32 (b_size b + nsz)) ;;
        let* nnx := get_ptr (nxt post base) in
        set_ptr (b_addr b) nnx
      else set_ptr (b_addr b) (nxt post base)) s Q.
Proof.
  intros Hs Hm Hbrk HQ. destruct Hs as (G1 & G2 & G3 & G4 & G5). destruct (seg_bounds _ _ _ _ _ G5) as [Hle Hb2].
  unfold sizeof_Header, b_end in *. rewrite u32_small by lia.
  assert (Hno : forall c, c ∈ post -> b_addr c <> b_addr b) by (intros c Hc; specialize (Hb2 c Hc); lia).
  destruct (Z.eqb_spec (b_addr b + b_size b * 8) (nxt post base)) as [E|E].
  - assert (exists c post', post = c :: post' /\ b_free c = true /\ b_addr c = nxt post base) as (c & post' & -> & Hc & Ec).
    { destruct post as [|c post']; [unfold nxt in E; cbn in E; lia|]. destruct (b_free c) eqn:Hc.
      - exists c, post'. by rewrite nxt_free.
      - exfalso. destruct G5 as (? & ? & _ & _ & G5). rewrite nxt_used in E by done.
        destruct (seg_bounds _ _ _ _ _ G5) as [_ Hb3]. unfold nxt in E. destruct (frees post') as [|y l] eqn:Ef; cbn in E; [lia|].
        assert (Hy : y ∈ frees post') by (rewrite Ef; by left). apply elem_frees in Hy as (d & Hd & _ & <-).
        specialize (Hb3 d Hd). unfold b_end in *. lia. }
    pose proof (Hb2 c ltac:(by left)) as Hcb. rewrite <- Ec in *. destruct G5 as (C1 & C2 & C3 & C4 & C5).
    apply wp_bind, wp_gets. rewrite C3, u32_small by lia. apply wp_bind, wp_modify. apply wp_bind, wp_gets.
    rewrite header_hset_ne by lia. rewrite C4 by done. apply wp_modify. rewrite hset_hset, header_hset. cbn [snd].
    apply (HQ _ (mkBlk (b_addr b) (b_size b + b_size c) true) post'); try done; [cbn; lia| | |].
    + unfold live. cbn. by rewrite Hc.
    + unfold frees. cbn. rewrite Hc. cbn. lia.
    + cbn [seg b_addr b_size b_free]. rewrite header_hset. split_and!; try done; [lia|].
      unfold b_end in *. cbn [b_addr b_size]. replace (b_addr b + 8 * (b_size b + b_size c)) with (b_addr c + 8 * b_size c) by lia.
      apply seg_hset; [|done]. intros d Hd. apply Hno. by right.
  - apply wp_modify. apply (HQ _ (mkBlk (b_addr b) (b_size b) true) post); try done; try (cbn; lia).
    cbn [seg b_addr b_size b_free]. rewrite header_hset. cbn [fst snd]. split_and!; try done. by apply seg_hset.
Qed.

Lemma lst_hset s p x B nx hi : p <> base -> (forall b, b ∈ B -> b_addr b <> p) -> lst s B nx hi -> lst (hset p x s) B nx hi.
Proof. intros Hp HB [H1 H2]. split; [by rewrite header_hset_ne|by apply seg_hset]. Qed.

(** The free block is joined with the free one before it, or linked after it. *)
Lemma wp_join_prev s pre nx0 mid b rest brk (Q : unit -> heap -> Prop) :
  lst s pre nx0 mid -> seg s mid (b :: rest) base brk -> b_free b = true -> brk <= 2 ^ 31 ->
  (forall x B, lst (hset (pred pre) x s) B base brk -> live B = live pre ++ live rest -> pred pre ∈ ring B ->
     (exists c, c ∈ B /\ b_free c = true /\ b_size b <= b_size c) ->
     (length (frees B) <= length (frees pre) + 1 + length (frees rest))%nat -> Q tt (hset (pred pre) x s)) ->
  wp (if u32 (pred pre + (header s (pred pre)).2 * sizeof_Header) =? b_addr b then
        let* bsz := get_size (b_addr b) in
        set_size (pred pre) (u32 ((header s (pred pre)).2 + bsz)) ;;
        let* bnx := get_ptr (b_addr b) in
        set_ptr (pred pre) bnx
      else set_ptr (pred pre) (b_addr b)) s Q.
Proof.
  intros Hl Hs Hb Hbrk HQ. pose proof Hl as [Hbase Hpre]. destruct (seg_bounds _ _ _ _ _ Hpre) as [Hmid Hbd].
  pose proof Hs as (G1 & G2 & G3 & G4 & G5). destruct (seg_bounds _ _ _ _ _ Hs) as [Hend Hbs].
  assert (Hpin : pred pre ∈ base :: frees pre).
  { unfold pred. destruct (last (frees pre)) eqn:E; [right; by apply last_Some_elem_of|by left]. }
  pose proof (Hbs b ltac:(by left)) as Hbb. unfold sizeof_Header, b_end in *.
  assert (Hsz : 0 <= (header s (pred pre)).2 /\ pred pre + (header s (pred pre)).2 * 8 <= mid /\ base <= pred pre < mid).
  { apply elem_of_cons in Hpin as [->|Hp]; [rewrite Hbase; cbn; lia|]. apply elem_frees in Hp as (c & Hc & _ & <-).
    pose proof (Hbd c Hc). apply list_elem_of_split in Hc as (B1 & B2 & ->). apply seg_app in Hpre as (m1 & _ & (_ & _ & -> & _)). lia. }
  rewrite (u32_small (pred pre + (header s (pred pre)).2 * 8)) by lia.
  destruct (Z.eqb_spec (pred pre + (header s (pred pre)).2 * 8) (b_addr b)) as [E|E].
  - assert (Hne : frees pre <> []).
    { intros E0. unfold pred in *. rewrite E0 in *. cbn in E. rewrite Hbase in E. cbn in E. lia. }
    destruct (split_last_free pre Hne) as (B1 & c & B2 & -> & Hc & HB2 & El).
    assert (Ep : pred (B1 ++ c :: B2) = b_addr c) by (unfold pred; by rewrite El). rewrite Ep in *.
    pose proof Hl as Hl'. apply lst_app in Hl' as (m1 & L1 & S1). pose proof S1 as (C1 & C2 & C3 & C4 & C5).
    rewrite C3 in *. unfold b_end in *.
    assert (B2 = []) as ->.
    { destruct B2 as [|d B2]; [done|]. destruct (seg_bounds _ _ _ _ _ C5) as [_ Hb2]. specialize (Hb2 d ltac:(by left)). unfold b_end in *. lia. }
    rewrite nxt_free in L1 by done. apply wp_bind, wp_gets. rewrite G3, u32_small by lia.
    apply wp_bind, wp_modify, wp_bind, wp_gets. rewrite header_hset_ne by lia. rewrite G4 by done.
    apply wp_modify. rewrite hset_hset, header_hset. cbn [snd].
    set (c' := mkBlk (b_addr c) (b_size c + b_size b) true).
    apply (HQ _ (B1 ++ c' :: rest)).
    + apply lst_app. exists m1. rewrite nxt_free by done. destruct (seg_bounds _ _ _ _ _ (proj2 L1)) as [? Hb1]. split.
      * apply lst_hset; [lia| |done]. intros d Hd. specialize (Hb1 d Hd). unfold b_end in *. lia.
      * cbn [seg c' b_addr b_size b_free]. rewrite header_hset. split_and!; try done; [lia|].
        unfold b_end. cbn [c' b_addr b_size]. replace (b_addr c + 8 * (b_size c + b_size b)) with (b_addr b + 8 * b_size b) by lia.
        apply seg_hset; [|done]. intros d Hd. destruct (seg_bounds _ _ _ _ _ G5) as [_ Hb2]. specialize (Hb2 d Hd). lia.
    + rewrite !live_app. unfold live at 2 4. cbn. rewrite Hc. cbn. by rewrite app_nil_r.
    + unfold ring. rewrite frees_app. right. apply elem_of_app. right. unfold frees. cbn. by left.
    + exists c'. split; [apply elem_of_app; right; by left|]. split; [done|]. cbn. lia.
    + rewrite !frees_app, !length_app. unfold frees at 2 4. cbn. rewrite Hc. cbn. fold (frees rest). lia.
  - apply wp_modify. apply (HQ _ (pre ++ b :: rest)).
    + apply lst_app. exists mid. rewrite nxt_free by done. split; [by eapply lst_relink|].
      apply seg_hset; [|done]. intros d Hd Ed. specialize (Hbs d Hd). lia.
    + rewrite live_app. f_equal. unfold live. cbn. by rewrite Hb.
    + apply elem_of_cons in Hpin as [->|Hp]; [by left|]. right. rewrite frees_app. apply elem_of_app. by left.
    + exists b. split; [apply elem_of_app; right; by left|]. split; [done|lia].
    + rewrite frees_app, length_app. unfold frees at 2. cbn. rewrite Hb. cbn. fold (frees rest). lia.
Qed.

Lemma wp_free s pre b post (Q : unit -> heap -> Prop) :
  hrep s (pre ++ b :: post) -> b_free b = false ->
  (forall s' B, hrep s' B -> live B = live pre ++ live post -> h_brk s' = h_brk s ->
     (exists c, c ∈ B /\ b_free c = true /\ b_size b <= b_size c) ->
     (length (frees B) <= length (frees (pre ++ b :: post)) + 1)%nat -> Q tt s') ->
  wp (free (b_addr b + sizeof_Header)) s Q.
Proof.
  intros Hr Hb HQ. unfold free. rewrite Z.add_simpl_r. apply wp_bind. eapply wp_find_place; [exact Hr|done|].
  destruct Hr as [Hl Hf Hbrk]. pose proof Hl as Hl'. apply lst_app in Hl' as (mid & Hpre & Hs).
  pose proof Hs as (G1 & G2 & G3 & _ & G5). apply wp_bind, wp_gets. rewrite G3. apply wp_bind, wp_gets.
  rewrite (lst_pred _ _ _ _ Hpre), nxt_used by done. destruct (seg_bounds _ _ _ _ _ (proj2 Hpre)) as [Hm Hb1].
  apply wp_bind. eapply wp_join_next; [exact Hs|lia|exact Hbrk|].
  intros x b' rest Ea Ef Hsz Hlive Hlen Hs'. set (s1 := hset (b_addr b) x s) in *.
  assert (Hpre' : lst s1 pre (nxt (b :: post) base) mid).
  { apply lst_hset; [lia| |done]. intros c Hc. specialize (Hb1 c Hc). unfold b_end in *. lia. }
  rewrite <- Ea. apply wp_bind, wp_gets, wp_bind. eapply wp_join_prev; [exact Hpre'|exact Hs'|done|exact Hbrk|].
  intros y B HlB HliveB Hin (c & Hc & Hcf & Hcs) HlenB. apply wp_modify. apply (HQ _ B).
  - split; [by apply lst_freep|done|done].
  - by rewrite HliveB, Hlive.
  - done.
  - exists c. split_and!; try done. lia.
  - rewrite frees_app, length_app. unfold frees at 3. cbn. rewrite Hb. fold (frees post). lia.
Qed.

(** * malloc *)

(** Index [i] of the ring is [cyc i j] steps before index [j]. *)
Definition cyc (n i j : nat) : nat := if decide (i <= j)%nat then (j - i)%nat else (n - i + j)%nat.
Definition succ (n i : nat) : nat := if decide (Datatypes.S i < n)%nat then Datatypes.S i else 0%nat.

Lemma ring_next s B i x :
  lst s B base (h_brk s) -> ring B !! i = Some x -> ring B !! succ (length (ring B)) i = Some (header s x).1.
Proof.
  intros Hl Hi. rewrite (lst_chain s B _ i x Hl Hi). unfold succ. case_decide as E.
  - destruct (lookup_lt_is_Some_2 (ring B) (Datatypes.S i) E) as [y Hy]. by rewrite Hy.
  - by rewrite (lookup_ge_None_2 (ring B) (Datatypes.S i)) by lia.
Qed.

Lemma split_free B : forall i p, frees B !! i = Some p ->
  exists pre b post, B = pre ++ b :: post /\ b_free b = true /\ b_addr b = p /\ i = length (frees pre).
Proof.
  induction B as [|c B IH]; intros i p; [done|]. unfold frees. cbn. destruct (b_free c) eqn:E; [destruct i as [|i]|].
  - intros [= <-]. by exists [], c, B.
  - intros Hi. destruct (IH i p Hi) as (pre & b & post & -> & H1 & H2 & ->). exists (c :: pre), b, post.
    split_and!; try done. cbn. by rewrite E.
  - intros Hi. destruct (IH i p Hi) as (pre & b & post & -> & H1 & H2 & ->). exists (c :: pre), b, post.
    split_and!; try done. cbn. by rewrite E.
Qed.

Lemma pred_in_ring pre rest : pred pre ∈ base :: frees pre ++ rest.
Proof. eapply list_elem_of_lookup_2, pred_lookup. Qed.

(** A block of the right size leaves the free list; a larger one gives its end. *)
Lemma wp_take {R} (f : Z -> R) s B i prevp p n (Q : R -> heap -> Prop) :
  hrep s B -> ring B !! i = Some prevp -> ring B !! succ (length (ring B)) i = Some p -> 1 <= n <= (header s p).2 ->
  (forall r s' B', hrep s' B' -> h_brk s' = h_brk s -> h_freep s' = prevp -> live B' ≡ₚ (r, n) :: live B ->
     1 <= r -> Q (f r) s') ->
  wp (let* r := (if (header s p).2 =? n then let* nx := get_ptr p in set_ptr prevp nx ;; ret p
                 else
                   set_size p ((header s p).2 - n) ;;
                   let p := p + ((header s p).2 - n) * sizeof_Header in
                   set_size p n ;; ret p) in
      modify (set_freep prevp) ;; ret (f r)) s Q.
Proof.
  intros [Hl Hf Hbrk] Hi Hp Hn HQ. unfold sizeof_Header. apply list_elem_of_lookup_2 in Hp as Hpin.
  assert (exists pre b post, B = pre ++ b :: post /\ b_free b = true /\ b_addr b = p /\ prevp = pred pre) as
    (pre & b & post & -> & Hb & <- & ->).
  { unfold succ in Hp. case_decide as E.
    - destruct (split_free B i p Hp) as (pre & b & post & -> & H1 & H2 & ->). exists pre, b, post. split_and!; try done.
      unfold ring in Hi. rewrite frees_app, pred_lookup in Hi. congruence.
    - cbn in Hp. injection Hp as <-. rewrite (proj1 Hl) in Hn. cbn in Hn. lia. }
  pose proof Hl as Hl'. apply lst_app in Hl' as (mid & Hpre & Hs). pose proof Hs as (G1 & G2 & G3 & G4 & G5).
  rewrite G3 in *. rewrite nxt_free in Hpre by done.
  destruct (seg_bounds _ _ _ _ _ (proj2 Hpre)) as [Hm Hb1], (seg_bounds _ _ _ _ _ G5) as [Hle Hb2]. unfold b_end in *.
  assert (Hpred : base <= pred pre < mid).
  { pose proof (pred_in_ring pre []) as Hin. rewrite app_nil_r in Hin. apply elem_of_cons in Hin as [->|Hin]; [lia|].
    apply elem_frees in Hin as (c & Hc & _ & <-). specialize (Hb1 c Hc). lia. }
  assert (Hfr : forall c rest, b_free c = false -> frees (pre ++ c :: rest) = frees pre ++ frees rest).
  { intros c rest Ec. rewrite frees_app. unfold frees at 2. cbn. by rewrite Ec. }
  assert (Hlv : live (pre ++ b :: post) = live pre ++ live post).
  { rewrite live_app. unfold live at 2. cbn. by rewrite Hb. }
  apply wp_bind. destruct (Z.eqb_spec (b_size b) n) as [E|E].
  - apply wp_bind, wp_gets, wp_bind, wp_modify, wp_ret. rewrite G4 by done. apply wp_bind, wp_modify, wp_ret.
    set (b' := mkBlk (b_addr b) (b_size b) false). apply (HQ _ _ (pre ++ b' :: post)); try done.
    + split; [|cbn; unfold ring; rewrite (Hfr b') by done; apply pred_in_ring|done].
      apply lst_freep, lst_app. exists mid. rewrite nxt_used by done. split; [by eapply lst_relink|].
      apply seg_hset; [intros c [->|Hc]%elem_of_cons; [cbn; lia|specialize (Hb2 c Hc); lia]|]. by split_and!.
    + rewrite Hlv, live_app, <- E. unfold live at 2. cbn. by rewrite Permutation_middle.
    + lia.
  - apply wp_bind, wp_modify, wp_bind, wp_modify, wp_ret. apply wp_bind, wp_modify, wp_ret.
    set (b1 := mkBlk (b_addr b) (b_size b - n) true). set (b2 := mkBlk (b_addr b + (b_size b - n) * 8) n false).
    apply (HQ _ _ (pre ++ b1 :: b2 :: post)); try done.
    + split; [| |done].
      * apply lst_freep, lst_app. exists mid. rewrite nxt_free by done. split.
        { apply lst_hset; [lia|intros c Hc; specialize (Hb1 c Hc); lia|].
          apply lst_hset; [lia|intros c Hc; specialize (Hb1 c Hc); lia|done]. }
        cbn [seg b1 b2 b_addr b_size b_free]. unfold b_end. cbn [b1 b2 b_addr b_size b_free].
        rewrite !header_hset, header_hset_ne, header_hset by lia. cbn [fst snd]. split_and!; try done; try lia.
        { intros _. rewrite nxt_used by done. by apply G4. }
        replace (b_addr b + (b_size b - n) * 8 + 8 * n) with (b_addr b + 8 * b_size b) by lia.
        apply seg_hset; [intros c Hc; specialize (Hb2 c Hc); lia|]. apply seg_hset; [intros c Hc; specialize (Hb2 c Hc); lia|done].
      * cbn. unfold ring. rewrite frees_app. apply pred_in_ring.
    + rewrite Hlv, live_app. unfold live at 2. cbn. by rewrite Permutation_middle.
    + lia.
Qed.

Lemma cyc_self n i : cyc n i i = 0%nat.
Proof. unfold cyc. case_decide; lia. Qed.
Lemma cyc_zero n i j : (i < n)%nat -> cyc n i j = 0%nat -> i = j.
Proof. unfold cyc. case_decide; lia. Qed.
Lemma cyc_succ n i j : (i < n)%nat -> (j < n)%nat -> i <> j -> cyc n i j = Datatypes.S (cyc n (succ n i) j).
Proof. unfold cyc, succ. intros. repeat case_decide; lia. Qed.
Lemma cyc_le n i j : (i < n)%nat -> (j < n)%nat -> (cyc n (succ n i) j <= cyc n (succ n i) i)%nat /\ cyc n (succ n i) i = (n - 1)%nat.
Proof. unfold cyc, succ. intros. repeat case_decide; lia. Qed.
Lemma succ_lt n i : (0 < n)%nat -> (succ n i < n)%nat.
Proof. unfold succ. case_decide; lia. Qed.

Context (grant : Z -> Z -> bool).
(** The system grants memory below the kernel only. *)
Context (grant_ok : forall brk n, grant brk n = true -> brk + n <= 2 ^ 31).

Lemma wp_morecore s B nu (Q : Z -> heap -> Prop) :
  hrep s B -> 1 <= nu < 2 ^ 28 ->
  (grant (h_brk s) (8 * Z.max nu 4096) = false -> Q 0 s) ->
  (forall s' B', hrep s' B' -> live B' = live B -> (exists c, c ∈ B' /\ b_free c = true /\ nu <= b_size c) ->
     (length (frees B') <= length (frees B) + 1)%nat -> Q (h_freep s') s') ->
  wp (morecore grant nu) s Q.
Proof.
  intros [Hl Hf Hbrk] Hnu HF HT. unfold morecore. set (nu' := if nu <? 4096 then 4096 else nu).
  assert (En : nu' = Z.max nu 4096) by (unfold nu'; destruct (Z.ltb_spec nu 4096); lia).
  unfold sizeof_Header. rewrite u32_small by lia. rewrite <- En, Z.mul_comm in HF. unfold sbrk. apply wp_bind, wp_bind, wp_get.
  destruct (grant (h_brk s) (nu' * 8)) eqn:Eg.
  2: { apply wp_ret. rewrite Z.eqb_refl. by apply wp_ret, HF. }
  pose proof (grant_ok _ _ Eg) as Hg. destruct (seg_bounds _ _ _ _ _ (proj2 Hl)) as [Hlo Hbd].
  apply wp_bind, wp_put, wp_ret. change (u32 (-1)) with 4294967295. rewrite (proj2 (Z.eqb_neq _ _)) by lia.
  apply wp_bind, wp_modify. apply wp_bind.
  set (b := mkBlk (h_brk s) nu' false). set (s1 := mkHeap (h_hdr s) (h_freep s) (h_brk s + nu' * 8)).
  assert (Hr1 : hrep (hset (h_brk s) ((header s1 (h_brk s)).1, nu') s1) (B ++ [b])).
  { split; [|cbn; unfold ring; rewrite frees_app; unfold frees at 2; cbn; by rewrite app_nil_r|cbn; lia].
    apply lst_app. exists (h_brk s). rewrite nxt_used by done. split.
    - apply lst_hset; [lia|intros c Hc; specialize (Hbd c Hc); unfold b_end in *; lia|]. by eapply lst_hdr; [|exact Hl].
    - cbn [seg b b_addr b_size b_free]. rewrite header_hset. cbn [snd]. unfold b_end. cbn. split_and!; try done; lia. }
  eapply (wp_free _ B b []); [exact Hr1|done|]. intros s2 B2 Hr2 Hlive _ (c & Hc & Hcf & Hcs) Hlen.
  apply wp_gets. apply (HT s2 B2); [done| | |].
  - rewrite Hlive. cbn. by rewrite app_nil_r.
  - exists c. split_and!; try done. cbn in Hcs. lia.
  - rewrite frees_app, length_app in Hlen. cbn in Hlen. lia.
Qed.

Lemma ring_inj s B i j x : lst s B base (h_brk s) -> ring B !! i = Some x -> ring B !! j = Some x -> i = j.
Proof.
  intros Hl Hi Hj. destruct (decide (i < j)%nat); [pose proof (ring_sorted _ _ _ _ _ _ _ _ Hl Hi Hj); lia|].
  destruct (decide (j < i)%nat); [pose proof (ring_sorted _ _ _ _ _ _ _ _ Hl Hj Hi); lia|lia].
Qed.

(** The search of [malloc] stands between indices [i] and [succ i] of the ring:
    it may still come round to [freep], or a block that fits lies ahead. *)
Definition searching (n : Z) (L : list (Z * Z)) (brk0 : Z) (fuel : nat) (st : Z * Z) (s : heap) : Prop :=
  exists B i f, let m := length (ring B) in
    hrep s B /\ live B = L /\ ring B !! i = Some st.1 /\ ring B !! succ m i = Some st.2 /\
    ring B !! f = Some (h_freep s) /\
    ((h_brk s = brk0 /\ cyc m (succ m i) f + m + 3 <= fuel)%nat \/
     exists j x, ring B !! j = Some x /\ n <= (header s x).2 /\
       (cyc m (succ m i) j + 1 <= fuel)%nat /\ (cyc m (succ m i) j <= cyc m (succ m i) f)%nat).

Lemma wp_search n L s0 fuel prevp p s (Q : Z -> heap -> Prop) :
  1 <= n < 2 ^ 28 -> searching n L (h_brk s0) fuel (prevp, p) s ->
  (forall s' B, hrep s' B -> live B = L -> grant (h_brk s0) (8 * Z.max n 4096) = false -> Q 0 s') ->
  (forall r s' B, hrep s' B -> live B ≡ₚ (r, n) :: L -> 1 <= r -> Q (r + sizeof_Header) s') ->
  wp (while_loop fuel (prevp, p) (fun '(prevp, p) =>
    let* sz := get_size p in
    if n <=? sz then
      let* r := (if sz =? n then let* nx := get_ptr p in set_ptr prevp nx ;; ret p
                 else
                   set_size p (sz - n) ;;
                   let p := p + (sz - n) * sizeof_Header in
                   set_size p n ;; ret p) in
      modify (set_freep prevp) ;; ret (inr (r + sizeof_Header))
    else
      let* freep := gets h_freep in
      let* p' := (if p =? freep then morecore grant n else ret p) in
      if (p =? freep) && (p' =? 0) then ret (inr 0)
      else let* nx := get_ptr p' in ret (inl (p', nx)))) s Q.
Proof.
  intros Hn Hst HF HT. apply (wp_while_loop (searching n L (h_brk s0))); [exact Hst|..]; clear Hst s prevp p fuel.
  { intros st s (B & i & f & _ & _ & _ & _ & _ & [[_ ?]|(j & x & _ & _ & ? & _)]); lia. }
  intros fuel [prevp p] s (B & i & f & Hr & HL & Hi & Hp & Hf & Hph). cbn [fst snd] in *. pose proof (hr_lst _ _ Hr) as Hl.
  set (m := length (ring B)) in *. assert (Hm : (0 < m)%nat) by (unfold m; cbn; lia).
  pose proof (succ_lt m i Hm) as Hsi. pose proof (lookup_lt_Some _ _ _ Hf) as Hfl. fold m in Hfl.
  apply wp_bind, wp_gets. destruct (Z.leb_spec n (header s p).2) as [Hfit|Hfit].
  { eapply (wp_take (fun r => inr (r + sizeof_Header))); [exact Hr|exact Hi|exact Hp|lia|].
    intros r s' B' Hr' _ _ Hlive H1. eapply HT; [exact Hr'|by rewrite Hlive, HL|done]. }
  apply wp_bind, wp_gets, wp_bind. destruct (Z.eqb_spec p (h_freep s)) as [E|E].
  - assert (succ m i = f) as Esf by (eapply ring_inj; [exact Hl|exact Hp|by rewrite E]).
    destruct Hph as [[Eb Hfu]|(j & x & Hj & Hx & _ & Hle)].
    2: { exfalso. rewrite Esf, cyc_self in Hle. assert (f = j) by (apply (cyc_zero m); lia). subst j. rewrite Esf in Hp. assert (x = p) by congruence. subst x. lia. }
    eapply wp_morecore; [exact Hr|exact Hn|..].
    { intros Hg. cbn [andb]. apply wp_ret. eapply HF; [exact Hr|done|by rewrite <- Eb]. }
    intros s' B' Hr' HL' (c & Hc & Hcf & Hcs) Hlen. pose proof (hr_lst _ _ Hr') as Hl'.
    destruct (list_elem_of_lookup_1 _ _ (hr_freep _ _ Hr')) as [f' Hf'].
    assert (h_freep s' <> 0).
    { pose proof (hr_freep _ _ Hr') as Hin. apply elem_of_cons in Hin as [->|Hin]; [lia|]. apply elem_frees in Hin as (d & Hd & _ & <-).
      destruct (seg_bounds _ _ _ _ _ (proj2 Hl')) as [_ Hbd]. specialize (Hbd d Hd). lia. }
    rewrite (proj2 (Z.eqb_neq _ _)) by done. cbn [andb]. apply wp_bind, wp_gets, wp_ret.
    set (m' := length (ring B')). assert (Hmm : (m' <= m + 1)%nat) by (unfold m, m'; cbn; lia).
    assert (Hcin : b_addr c ∈ ring B') by (right; apply elem_frees; by exists c). apply list_elem_of_lookup_1 in Hcin as [j Hj].
    pose proof (lookup_lt_Some _ _ _ Hj) as Hjl. pose proof (lookup_lt_Some _ _ _ Hf') as Hfl'. fold m' in Hjl, Hfl'.
    destruct (cyc_le m' f' j Hfl' Hjl) as [C1 C2].
    exists B', f', f'. cbv zeta. fold m'. split_and!; try done; [by rewrite HL'|by apply ring_next|].
    right. exists j, (b_addr c). split_and!; [done| |lia|lia].
    apply list_elem_of_split in Hc as (B1 & B2 & ->). destruct Hl' as [_ Hs]. apply seg_app in Hs as (mid & _ & (_ & _ & -> & _)). lia.
  - apply wp_ret. cbn [andb]. apply wp_bind, wp_gets, wp_ret.
    assert (Hsf : succ m i <> f) by (intros Esf; rewrite Esf in Hp; congruence).
    exists B, (succ m i), f. cbv zeta. fold m. pose proof (cyc_succ m (succ m i) f Hsi Hfl Hsf) as C1.
    split_and!; try done; [by apply ring_next|]. destruct Hph as [[Eb Hfu]|(j & x & Hj & Hx & Hfu & Hle)].
    + left. split; [done|lia].
    + right. exists j, x. assert (Hsj : succ m i <> j) by (intros Esj; rewrite Esj in Hp; assert (x = p) by congruence; subst; lia).
      pose proof (cyc_succ m (succ m i) j Hsi (lookup_lt_Some _ _ _ Hj) Hsj) as C2. split_and!; [done|done|lia|lia].
Qed.

(** The heap with the blocks in use [L]; before the first [malloc], it is empty. *)
Definition heap_ok (s : heap) (L : list (Z * Z)) : Prop :=
  exists B, live B ≡ₚ L /\ (hrep s B \/ B = [] /\ h_freep s = 0 /\ base + 8 <= h_brk s <= 2 ^ 31).

Lemma units_spec n : 0 <= n <= 2 ^ 31 - 16 -> 1 <= units n < 2 ^ 28 /\ n <= 8 * (units n - 1).
Proof.
  intros Hn. unfold units, sizeof_Header. rewrite (u32_small (n + 8 - 1)) by lia.
  pose proof (Z.div_mod (n + 8 - 1) 8). pose proof (Z.mod_pos_bound (n + 8 - 1) 8).
  rewrite u32_small; lia.
Qed.

(** The sum of [malloc] wraps. *)
Lemma units_wrap n : 2 ^ 32 - 7 <= n < 2 ^ 32 -> units n = 1.
Proof.
  intros Hn. unfold units, sizeof_Header. assert (E : u32 (n + 8 - 1) = n + 7 - 2 ^ 32).
  { unfold u32. symmetry. apply (Z.mod_unique _ _ 1); lia. }
  rewrite E, Z.div_small by lia. done.
Qed.

Lemma wp_malloc s L nbytes (Q : Z -> heap -> Prop) :
  heap_ok s L -> 1 <= units nbytes < 2 ^ 28 ->
  (forall s', heap_ok s' L -> grant (h_brk s) (8 * Z.max (units nbytes) 4096) = false -> Q 0 s') ->
  (forall r s', heap_ok s' ((r, units nbytes) :: L) -> 1 <= r -> Q (r + sizeof_Header) s') ->
  wp (malloc base grant nbytes) s Q.
Proof.
  intros (B & HL & HB) Hn HF HT. unfold malloc. apply wp_bind, wp_get.
  apply wp_bind. apply (wp_mono _ _ (fun _ s1 => hrep s1 B /\ h_brk s1 = h_brk s)).
  - destruct HB as [Hr|(-> & Hf0 & Hb)].
    + assert (h_freep s <> 0).
      { pose proof (hr_freep _ _ Hr) as Hin. apply elem_of_cons in Hin as [->|Hin]; [lia|]. apply elem_frees in Hin as (d & Hd & _ & <-).
        destruct (seg_bounds _ _ _ _ _ (proj2 (hr_lst _ _ Hr))) as [_ Hbd]. specialize (Hbd d Hd). lia. }
      rewrite (proj2 (Z.eqb_neq _ _)) by done. by apply wp_ret.
    + rewrite Hf0. cbn [Z.eqb]. apply wp_bind, wp_modify, wp_bind, wp_modify, wp_modify. rewrite header_hset, hset_hset. cbn [fst].
      split; [|done]. split; [|by left|cbn; lia]. split; [by rewrite header_hset|cbn; lia].
  - intros _ s1 [Hr Hb]. apply wp_bind, wp_gets, wp_bind, wp_gets, wp_bind, wp_get. pose proof (hr_lst _ _ Hr) as Hl.
    destruct (list_elem_of_lookup_1 _ _ (hr_freep _ _ Hr)) as [f Hf]. pose proof (lookup_lt_Some _ _ _ Hf) as Hfl.
    eapply (wp_search (units nbytes) (live B) s); [exact Hn|..].
    + exists B, f, f. cbv zeta. split_and!; try done; [by apply ring_next|]. left. split; [done|].
      destruct (cyc_le (length (ring B)) f f Hfl Hfl) as [_ ->]. pose proof (ring_length s1 B base _ base_pos Hl). lia.
    + intros s' B' Hr' HL' Hg. apply HF; [|done]. exists B'. split; [by rewrite HL'|by left].
    + intros r s' B' Hr' HL' H1. apply HT; [|done]. exists B'. split; [by rewrite HL', HL|by left].
Qed.

Lemma wp_free_live s L a sz (Q : unit -> heap -> Prop) :
  heap_ok s L -> (a, sz) ∈ L ->
  (forall s' L', L ≡ₚ (a, sz) :: L' -> heap_ok s' L' -> Q tt s') -> wp (free (a + sizeof_Header)) s Q.
Proof.
  intros (B & HL & HB) Hin HQ. rewrite <- HL in Hin. unfold live in Hin. apply list_elem_of_omap in Hin as (b & Hb & Eb).
  destruct (b_free b) eqn:Hf; [done|]. injection Eb as <- <-. apply list_elem_of_split in Hb as (pre & post & ->).
  destruct HB as [Hr|(E & _)]; [|by destruct pre].
  eapply (wp_free s pre b post); [exact Hr|done|]. intros s' B' Hr' HL' _ _ _. apply (HQ s' (live pre ++ live post)).
  - rewrite <- HL, live_app. unfold live at 2. cbn. rewrite Hf. by rewrite Permutation_middle.
  - exists B'. split; [by rewrite HL'|by left].
Qed.

(** Blocks do not overlap. *)
Definition apart (x y : Z * Z) : Prop := x.1 + 8 * x.2 <= y.1 \/ y.1 + 8 * y.2 <= x.1.
Fixpoint pairwise (L : list (Z * Z)) : Prop :=
  match L with [] => True | x :: L' => Forall (apart x) L' /\ pairwise L' end.

Lemma pairwise_perm L L' : L ≡ₚ L' -> pairwise L -> pairwise L'.
Proof.
  induction 1 as [|x L L' HP IH|x y L|L1 L2 L3 H1 IH1 H2 IH2]; [done|..|by auto].
  - intros [H1 H2]. split; [by rewrite <- HP|by apply IH].
  - intros [H1 [H2 H3]]. apply Forall_cons in H1 as [H4 H5]. split; [|by split]. apply Forall_cons. split; [|done].
    unfold apart in *. tauto.
Qed.

Lemma seg_live s B nx : forall lo hi, seg s lo B nx hi ->
  pairwise (live B) /\ Forall (fun x => lo <= x.1 /\ 1 <= x.2 /\ x.1 + 8 * x.2 <= hi) (live B).
Proof.
  induction B as [|b B IH]; intros lo hi; cbn [seg]; [done|]. intros (H1 & H2 & _ & _ & H5).
  destruct (IH _ _ H5) as [H6 H7], (seg_bounds _ _ _ _ _ H5) as [Hle _]. unfold b_end in *.
  unfold live. cbn. fold (live B). destruct (b_free b).
  - split; [done|]. eapply Forall_impl; [exact H7|]. cbn. intros; lia.
  - split; [split; [|done]|apply Forall_cons; split; [cbn; lia|]]; (eapply Forall_impl; [exact H7|]); unfold apart; cbn; intros; lia.
Qed.

Lemma heap_ok_apart s L : heap_ok s L ->
  pairwise L /\ Forall (fun x => base + 8 <= x.1 /\ 1 <= x.2 /\ x.1 + 8 * x.2 <= h_brk s) L.
Proof.
  intros (B & HL & HB). assert (H : pairwise (live B) /\ Forall (fun x => base + 8 <= x.1 /\ 1 <= x.2 /\ x.1 + 8 * x.2 <= h_brk s) (live B)).
  { destruct HB as [Hr|(-> & _)]; [|done]. eapply seg_live. apply (hr_lst _ _ Hr). }
  destruct H as [H1 H2]. split; [by eapply pairwise_perm|by rewrite <- HL].
Qed.
End spec.

(** C30: the allocator of user programs.  Let [L] be the blocks in use, and let
    the system grant no memory at or above 2^31.  The blocks lie in the memory
    of the process and do not overlap.  [malloc] of at most 2^31 - 16 bytes
    (with the header, the most that the [int] of [sbrk] can ask for) returns: a
    null pointer, when the system grants no more memory, and the blocks are as
    they were; or a block of at least [nbytes] bytes, and all blocks, with the
    new one, are again in the memory of the process and apart.  For the seven
    largest values of [nbytes] its sum wraps: then the block it returns is a
    header with no bytes behind it.  [free] of a block in use returns, and the
    other blocks stay. *)
Theorem umalloc_correct base grant s L :
  0 < base -> (forall brk n, grant brk n = true -> brk + n <= 2 ^ 31) -> heap_ok base s L ->
  (pairwise L /\ Forall (fun x => base + 8 <= x.1 /\ 1 <= x.2 /\ x.1 + 8 * x.2 <= h_brk s) L) /\
  (forall nbytes, 0 <= nbytes <= 2 ^ 31 - 16 -> exists r s', malloc base grant nbytes s = Ok r s' /\
     (r = 0 /\ heap_ok base s' L /\ grant (h_brk s) (8 * Z.max (units nbytes) 4096) = false \/
      8 < r /\ heap_ok base s' ((r - 8, units nbytes) :: L) /\ nbytes <= 8 * (units nbytes - 1))) /\
  (forall nbytes, 2 ^ 32 - 7 <= nbytes < 2 ^ 32 -> exists r s', malloc base grant nbytes s = Ok r s' /\
     (r = 0 /\ heap_ok base s' L /\ grant (h_brk s) (8 * 4096) = false \/
      8 < r /\ heap_ok base s' ((r - 8, 1) :: L))) /\
  (forall ap sz, (ap - 8, sz) ∈ L -> exists s' L', free ap s = Ok tt s' /\ L ≡ₚ (ap - 8, sz) :: L' /\ heap_ok base s' L').
Proof.
  intros Hb Hg Hok. split; [by apply heap_ok_apart|]. split.
  - intros n Hn. destruct (units_spec n Hn) as [Hu Hle]. apply (wp_inv (malloc base grant n) s).
    eapply wp_malloc; [done|exact Hg|exact Hok|done|by left|].
    intros r s' Hok' H1. right. unfold sizeof_Header. split_and!; [lia| |done].
    by replace (r + 8 - 8) with r by lia.
  - split.
    { intros n Hn. pose proof (units_wrap n Hn) as Eu. apply (wp_inv (malloc base grant n) s).
      eapply wp_malloc; [done|exact Hg|exact Hok|by rewrite Eu|rewrite Eu; by left|rewrite Eu].
      intros r s' Hok' H1. right. unfold sizeof_Header. split; [lia|]. by replace (r + 8 - 8) with r by lia. }
    intros ap sz Hin. destruct (wp_inv (free ap) s (fun _ s' => exists L', L ≡ₚ (ap - 8, sz) :: L' /\ heap_ok base s' L'))
      as ([] & s' & E & L' & H1 & H2); [|by exists s', L'].
    replace ap with (ap - 8 + sizeof_Header) by (unfold sizeof_Header; lia).
    eapply wp_free_live; [done|exact Hok|by replace (ap - 8 + sizeof_Header - 8) with (ap - 8) in Hin by (unfold sizeof_Header; lia)|].
    intros s' L' HP Hok'. exists L'. split; [|done]. by replace (ap - 8 + sizeof_Header - 8) with (ap - 8) by (unfold sizeof_Header; lia).
Qed.

Definition demo_grant (brk n : Z) : bool := brk + n <=? 2 ^ 31.

Lemma umalloc_correct_witness :
  exists r s', malloc 4096 demo_grant 10 (mkHeap ∅ 0 12288) = Ok r s' /\ heap_ok 4096 s' [(r - 8, 3)].
Proof.
  assert (Hok : heap_ok 4096 (mkHeap ∅ 0 12288) []) by (exists []; split; [done|right; cbn [h_freep h_brk]; split_and!; (reflexivity || lia)]).
  destruct (umalloc_correct 4096 demo_grant (mkHeap ∅ 0 12288) [] ltac:(lia) ltac:(intros ? ? ?%Z.leb_le; lia) Hok) as (_ & Hm & _ & _).
  destruct (Hm 10 ltac:(lia)) as (r & s' & E & [(_ & _ & Hg)|(_ & H & _)]); [discriminate Hg|].
  exists r, s'. split; [exact E|exact H].
Defined.
