(* ===== verification/Grep.v ===== *)
(** grep.c: the pattern matcher and the search through a buffer.

    Strings are lists of the bytes before the terminating 0. *)
From S2P Require Import Prelude.

(** [matchstar], for the matcher [here] of the rest of the pattern. *)
Fixpoint matchstar (here : bytes -> bool) (c : Z) (text : bytes) : bool :=
  here text ||
  match text with
  | [] => false
  | x :: text' => if (x =? c) || (c =? 46) then matchstar here c text' else false
  end.

Fixpoint matchhere (re : bytes) (text : bytes) : bool :=
  match re with
  | [] => true
  | c :: re1 =>
      match re1 with
      | s :: re2 =>
          if s =? 42 then matchstar (matchhere re2) c text
          else match text with
               | [] => false
               | x :: text' => if (c =? 46) || (c =? x) then matchhere re1 text' else false
               end
      | [] =>
          if c =? 36 then match text with [] => true | _ => false end
          else match text with
               | [] => false
               | x :: text' => if (c =? 46) || (c =? x) then matchhere re1 text' else false
               end
      end
  end.

(** The loop of [match] over the suffixes of the text. *)
Fixpoint match_any (re text : bytes) : bool :=
  matchhere re text || match text with [] => false | _ :: text' => match_any re text' end.

Definition match_ (re text : bytes) : bool :=
  match re with
  | c :: re' => if c =? 94 then matchhere re' text else match_any re text
  | [] => match_any re text
  end.

(** The loop over the lines of the buffer, [cur] being the line so far: what is
    written, what is left after the last line, and whether there was a line.
    [strchr] does not look past a 0. *)
Fixpoint grep_scan (pattern cur b : bytes) : bytes * bytes * bool :=
  match b with
  | [] => ([], cur, false)
  | c :: b' =>
      if c =? 0 then ([], cur ++ b, false)
      else if c =? 10 then
        let '(o, l, _) := grep_scan pattern [] b' in
        ((if match_ pattern cur then cur ++ [10] else []) ++ o, l, true)
      else grep_scan pattern (cur ++ [c]) b'
  end.

(** [grep] on a descriptor with the bytes [src] to come; [amount] is how many of
    them a [read] with room for [cap] gives. *)
Fixpoint grep_loop (fuel : nat) (amount : nat -> nat -> nat) (pattern buf src : bytes) : option bytes :=
  match fuel with
  | O => None
  | S fuel' =>
      let n := amount (1024 - length buf - 1)%nat (length src) in
      if decide (n = O) then Some []
      else
        let '(o, l, found) := grep_scan pattern [] (buf ++ take n src) in
        out ← grep_loop fuel' amount pattern (if found then l else []) (drop n src);
        Some (o ++ out)
  end.
Definition grep (amount : nat -> nat -> nat) (pattern src : bytes) : option bytes :=
  grep_loop (length src + 1) amount pattern [] src.

(** * What a pattern means *)

Inductive item := One (c : Z) | Star (c : Z) | End.

Fixpoint parse (re : bytes) : list item :=
  match re with
  | [] => []
  | c :: re1 =>
      match re1 with
      | s :: re2 => if s =? 42 then Star c :: parse re2 else One c :: parse re1
      | [] => if c =? 36 then [End] else [One c]
      end
  end.

(** A character of the pattern stands for itself, a dot for any. *)
Definition fits (c x : Z) : Prop := c = 46 \/ c = x.

(** The text begins with a string of the pattern. *)
Inductive begins : list item -> bytes -> Prop :=
| begins_nil t : begins [] t
| begins_one c x its t : fits c x -> begins its t -> begins (One c :: its) (x :: t)
| begins_star c s its t : Forall (fits c) s -> begins its t -> begins (Star c :: its) (s ++ t)
| begins_end : begins [End] [].

Definition means (re text : bytes) : Prop :=
  match re with
  | c :: re' => if c =? 94 then begins (parse re') text else exists s t, text = s ++ t /\ begins (parse re) t
  | [] => True
  end.

Lemma matchstar_spec here c its :
  (forall t, here t = true <-> begins its t) -> forall t, matchstar here c t = true <-> begins (Star c :: its) t.
Proof.
  intros Hh t. split.
  - induction t as [|x t IH]; cbn [matchstar]; rewrite orb_true_iff, Hh.
    + intros [H|H]; [|done]. by apply (begins_star c []).
    + intros [H|H]; [by apply (begins_star c [])|]. destruct ((x =? c) || (c =? 46)) eqn:E; [|done].
      specialize (IH H). inversion IH as [| |c' s its' t' Hs Ht|]; subst. apply (begins_star c (x :: s)); [|done].
      apply Forall_cons. split; [|done]. unfold fits. apply orb_true_iff in E as [?%Z.eqb_eq|?%Z.eqb_eq]; auto.
  - intros H. inversion H as [| |c' s its' t' Hs Ht|]; subst. clear H. induction Hs as [|x s Hx Hs IH]; cbn [app].
    + apply Hh in Ht. destruct t'; cbn [matchstar]; by rewrite Ht.
    + cbn [matchstar]. rewrite IH. apply orb_true_iff. right.
      destruct Hx as [-> | ->]; [by rewrite Z.eqb_refl, orb_true_r|by rewrite Z.eqb_refl].
Qed.

Lemma one_spec (f : bytes -> bool) c its t :
  (forall t, f t = true <-> begins its t) ->
  match t with [] => false | x :: t' => if (c =? 46) || (c =? x) then f t' else false end = true <-> begins (One c :: its) t.
Proof.
  intros Hf. destruct t as [|x t]; [split; [done|inversion 1]|]. destruct ((c =? 46) || (c =? x)) eqn:E.
  - rewrite Hf. split; [|by inversion 1]. intros H. constructor; [|done].
    unfold fits. apply orb_true_iff in E as [?%Z.eqb_eq|?%Z.eqb_eq]; auto.
  - split; [done|]. inversion 1 as [|c' x' its' t' Hx Ht| |]; subst. apply orb_false_iff in E as [?%Z.eqb_neq ?%Z.eqb_neq].
    destruct Hx; congruence.
Qed.

Lemma matchhere_spec n : forall re t, (length re <= n)%nat -> matchhere re t = true <-> begins (parse re) t.
Proof.
  induction n as [|n IH]; intros re t Hn; (destruct re as [|c re1]; [split; [constructor|done]|]); cbn [length] in Hn; [lia|].
  destruct re1 as [|s re2]; cbn [matchhere parse].
  - destruct (c =? 36).
    + destruct t as [|x t]; split; try done; [constructor|inversion 1].
    + apply (one_spec (fun _ => true) c [] t). intros t'. split; [constructor|done].
  - destruct (s =? 42).
    + apply matchstar_spec. intros t'. apply IH. cbn [length] in Hn. lia.
    + apply one_spec. intros t'. apply (IH (s :: re2)). lia.
Qed.

(** C33: the matcher of grep decides the meaning of a pattern: with an initial
    [^] the text begins with a string of the pattern, otherwise some part of it
    does; [.] stands for any character, [c*] for any number of [c], and a
    final [$] for the end of the text. *)
Theorem match_decides re text : match_ re text = true <-> means re text.
Proof.
  assert (Hany : forall text, match_any re text = true <-> exists s t, text = s ++ t /\ begins (parse re) t).
  { clear text. intros text. induction text as [|x text IH]; cbn [match_any]; rewrite orb_true_iff, (matchhere_spec (length re)) by done.
    - split; [intros [H|H]; [by exists [], []|done]|]. intros (s & t & E & H). left. symmetry in E. apply app_nil in E as [_ ->]. done.
    - rewrite IH. split.
      + intros [H|(s & t & -> & H)]; [by exists [], (x :: text)|by exists (x :: s), t].
      + intros ([|y s] & t & E & H); cbn in E; [left; by subst|]. injection E as <- ->. right. by exists s, t. }
  destruct re as [|c re']; cbn [match_ means].
  - split; [done|]. intros _. apply Hany. exists text, []. split; [by rewrite app_nil_r|constructor].
  - destruct (c =? 94); [by apply (matchhere_spec (length re'))|apply Hany].
Qed.

(** * The buffer *)

(** All lines of [b], of which the first has begun with [n] bytes, have at most
    [m] bytes. *)
Fixpoint short_lines (m n : nat) (b : bytes) : Prop :=
  match b with
  | [] => True
  | c :: b' => if c =? 10 then short_lines m O b' else (S n <= m)%nat /\ short_lines m (S n) b'
  end.

#[global] Instance short_lines_dec m : forall n b, Decision (short_lines m n b).
Proof. intros n b. revert n. induction b as [|c b IH]; intros n; cbn; [|destruct (c =? 10)]; apply _. Defined.

Lemma grep_scan_app pattern a : forall cur b, Forall (fun c => c <> 0) a ->
  (grep_scan pattern cur (a ++ b)).1.1 =
    (grep_scan pattern cur a).1.1 ++ (grep_scan pattern (grep_scan pattern cur a).1.2 b).1.1.
Proof.
  induction a as [|c a IH]; intros cur b Ha; [done|]. apply Forall_cons in Ha as [Hc Ha]. cbn [app grep_scan].
  rewrite (proj2 (Z.eqb_neq _ _)) by done. destruct (c =? 10); [|by apply IH].
  specialize (IH [] b Ha). destruct (grep_scan pattern [] (a ++ b)) as [[o1 l1] f1], (grep_scan pattern [] a) as [[o2 l2] f2].
  cbn in *. by rewrite IH, app_assoc.
Qed.

(** What is left has no newline, and is the end of the bytes scanned. *)
Lemma grep_scan_left pattern b : forall cur, Forall (fun c => c <> 0) b ->
  exists w, cur ++ b = w ++ (grep_scan pattern cur b).1.2 /\ (grep_scan pattern cur b).2 = bool_decide (10 ∈ b) /\
    ((grep_scan pattern cur b).2 = true -> (length w > length cur)%nat) /\
    (10 ∉ cur -> 10 ∉ (grep_scan pattern cur b).1.2).
Proof.
  induction b as [|c b IH]; intros cur Hb; cbn [grep_scan].
  - exists []. rewrite app_nil_r. by split_and!.
  - apply Forall_cons in Hb as [Hc Hb]. rewrite (proj2 (Z.eqb_neq _ _)) by done. destruct (Z.eqb_spec c 10) as [->|Hne].
    + destruct (IH [] Hb) as (w & E & _ & _ & Hn). destruct (grep_scan pattern [] b) as [[o l] f]. cbn in *.
      exists (cur ++ 10 :: w). rewrite <- app_assoc. cbn. rewrite <- E. split_and!; [done| | |].
      * symmetry. apply bool_decide_eq_true. by left.
      * rewrite length_app. cbn. lia.
      * intros _. apply Hn, not_elem_of_nil.
    + destruct (IH (cur ++ [c]) Hb) as (w & E & Ef & Hf & Hn). exists w. rewrite <- app_assoc in E. split_and!; [done| | |].
      * rewrite Ef. apply bool_decide_ext. rewrite elem_of_cons. intuition congruence.
      * intros H. specialize (Hf H). rewrite length_app in Hf. cbn in Hf. lia.
      * intros Hcur. apply Hn. rewrite not_elem_of_app, list_elem_of_singleton. split; [done|congruence].
Qed.

Lemma grep_scan_none pattern b : forall cur, Forall (fun c => c <> 0) b -> 10 ∉ b ->
  (grep_scan pattern cur b).1.1 = [].
Proof.
  induction b as [|c b IH]; intros cur Hb Hn; [done|]. apply Forall_cons in Hb as [Hc Hb].
  rewrite not_elem_of_cons in Hn. cbn [grep_scan]. rewrite !(proj2 (Z.eqb_neq _ _)) by (intuition congruence).
  apply IH; [done|tauto].
Qed.

Lemma short_lines_app m a : forall n b, short_lines m n (a ++ b) ->
  10 ∉ a -> (a = [] \/ n + length a <= m)%nat /\ short_lines m (n + length a) b.
Proof.
  induction a as [|c a IH]; intros n b Hs Hn; [split; [by left|by rewrite Nat.add_0_r]|].
  rewrite not_elem_of_cons in Hn. cbn [app short_lines] in Hs. rewrite (proj2 (Z.eqb_neq _ _)) in Hs by (intuition congruence).
  destruct Hs as [Hle Hs]. destruct (IH (S n) b Hs ltac:(tauto)) as [H1 H2]. cbn [length].
  rewrite <- Nat.add_succ_comm. split; [|done]. right. destruct H1 as [->|]; cbn; lia.
Qed.

Lemma grep_scan_start pattern l : forall cur b, Forall (fun c => c <> 0) l -> 10 ∉ l ->
  grep_scan pattern cur (l ++ b) = grep_scan pattern (cur ++ l) b.
Proof.
  induction l as [|c l IH]; intros cur b Hl Hn; [by rewrite app_nil_r|]. apply Forall_cons in Hl as [Hc Hl].
  rewrite not_elem_of_cons in Hn. cbn [app grep_scan]. rewrite !(proj2 (Z.eqb_neq _ _)) by (intuition congruence).
  rewrite IH by tauto. by rewrite <- app_assoc.
Qed.

Lemma short_lines_prefix m l : forall n b, 10 ∉ l -> (n + length l <= m)%nat -> short_lines m (n + length l) b -> short_lines m n (l ++ b).
Proof.
  induction l as [|c l IH]; intros n b Hn Hle; cbn [app short_lines length] in *; [by rewrite Nat.add_0_r|].
  rewrite not_elem_of_cons in Hn. rewrite (proj2 (Z.eqb_neq _ _)) by (intuition congruence). intros Hs. split; [lia|].
  apply IH; [tauto|lia|]. by rewrite Nat.add_succ_comm.
Qed.

Lemma grep_scan_short pattern m b : forall cur rest, Forall (fun c => c <> 0) b -> (length cur <= m)%nat ->
  short_lines m (length cur) (b ++ rest) ->
  (length (grep_scan pattern cur b).1.2 <= m)%nat /\ short_lines m (length (grep_scan pattern cur b).1.2) rest.
Proof.
  induction b as [|c b IH]; intros cur rest Hb Hc Hs; cbn [grep_scan app short_lines] in *; [done|].
  apply Forall_cons in Hb as [H0 Hb]. rewrite (proj2 (Z.eqb_neq _ _)) by done. destruct (c =? 10).
  - specialize (IH [] rest Hb ltac:(cbn; lia) Hs). by destruct (grep_scan pattern [] b) as [[o l] f].
  - apply IH; [done|..]; rewrite length_app; cbn [length]; [lia|]. rewrite Nat.add_1_r. tauto.
Qed.

Lemma grep_loop_spec pattern fuel : forall buf src,
  (length src < fuel)%nat -> Forall (fun c => c <> 0) (buf ++ src) -> 10 ∉ buf -> (length buf <= 1022)%nat ->
  short_lines 1022 0 (buf ++ src) ->
  grep_loop fuel Nat.min pattern buf src = Some (grep_scan pattern [] (buf ++ src)).1.1.
Proof.
  induction fuel as [|fuel IH]; intros buf src Hf H0 Hn Hb Hs; [lia|]. cbn [grep_loop].
  pose proof (proj1 (Forall_app _ _ _) H0) as [H0b H0s]. case_decide as En.
  - assert (src = []) as -> by (destruct src; [done|cbn [length] in En; lia]). by rewrite app_nil_r, grep_scan_none.
  - set (n := Nat.min (1024 - length buf - 1) (length src)) in *. set (a := buf ++ take n src).
    assert (Ea : buf ++ src = a ++ drop n src) by (unfold a; by rewrite <- app_assoc, take_drop).
    assert (H0a : Forall (fun c => c <> 0) a) by (apply Forall_app; split; [done|by apply Forall_take]).
    rewrite Ea, grep_scan_app by done. rewrite Ea in Hs. destruct (grep_scan_left pattern a [] H0a) as (w & Ew & Ef & _ & Hl).
    destruct (grep_scan_short pattern 1022 a [] (drop n src) H0a ltac:(cbn; lia) Hs) as [Hll Hls].
    pose proof (grep_scan_none pattern a [] H0a) as Hnone. specialize (Hl ltac:(apply not_elem_of_nil)).
    destruct (grep_scan pattern [] a) as [[o l] f]. cbn [fst snd] in *. subst f.
    assert (Hd : (length (drop n src) < fuel)%nat) by (rewrite length_drop; lia).
    case_bool_decide as Hin.
    + cbn [app] in Ew. assert (H0l : Forall (fun c => c <> 0) l) by (rewrite Ew in H0a; by apply Forall_app in H0a as [_ ?]).
      rewrite IH; [|done|apply Forall_app; split; [done|by apply Forall_drop]|done|done|by apply short_lines_prefix].
      cbn. by rewrite grep_scan_start.
    + assert (Ed : drop n src = []).
      { apply drop_ge. destruct (short_lines_app 1022 a 0 _ Hs Hin) as [[Ea0|Hle] _].
        - apply (f_equal length) in Ea0. unfold a in Ea0. rewrite length_app, length_take in Ea0. cbn [length] in Ea0. lia.
        - unfold a in Hle. rewrite length_app, length_take in Hle. lia. }
      rewrite Ed in *. rewrite IH; [done|done|done|apply not_elem_of_nil|cbn; lia|done].
Qed.

(** The buffering of grep.  On a file, where [read] returns as many bytes
    as fit, and whose lines have at most 1022 bytes and no 0, [grep] writes
    what a search line by line through the whole file writes, in its order: the
    lines that match.  It comes to an end. *)
Theorem grep_buffered pattern src :
  Forall (fun c => c <> 0) src -> short_lines 1022 0 src ->
  grep Nat.min pattern src = Some (grep_scan pattern [] src).1.1.
Proof. intros H0 Hs. apply grep_loop_spec; try done; [lia|apply not_elem_of_nil|cbn; lia]. Qed.

(** Three short lines around one that fills the buffer. *)
Definition demo_text : bytes := [97; 97; 98; 10] ++ replicate 1020 99 ++ [10; 98; 10; 98; 99; 10].

Lemma grep_buffered_witness : grep Nat.min [97; 42; 98; 36] demo_text = Some [97; 97; 98; 10; 98; 10].
Proof.
  rewrite (grep_buffered [97; 42; 98; 36] demo_text).
  - vm_compute. reflexivity.
  - apply (bool_decide_unpack (Forall (fun c => c <> 0) demo_text)). vm_compute. exact I.
  - apply (bool_decide_unpack (short_lines 1022 0 demo_text)). vm_compute. exact I.
Defined.

(** A line that reaches grep in pieces, as from a pipe, is lost: when no
    newline is in the buffer yet, it is thrown away. *)
Lemma grep_drops_pieces :
  grep (fun cap n => Nat.min 2 (Nat.min cap n)) [97] [97; 98; 99; 10] = Some [] /\
  grep Nat.min [97] [97; 98; 99; 10] = Some [97; 98; 99; 10].
Proof. split; vm_compute; reflexivity. Qed.
