(* ===== verification/User.v ===== *)
(** User programs: C code that makes system calls (user.h).

    A program is a tree of calls: each call is followed by what the program does
    with its result.  Loops that end only with the input have a bound. *)
From S2P Require Import Prelude Layout Ulib.

(** The calls the modelled programs make, and the type of their results.  A
    call that fails returns a negative number; [Fstat] gives the type, the size
    and the inode number of a file. *)
Inductive sys : Type -> Type :=
| Fork : sys Z
| Wait : sys Z
| Exec (path : bytes) (argv : list bytes) : sys Z
| Open (path : bytes) (mode : Z) : sys Z
| Close (fd : Z) : sys Z
| Dup (fd : Z) : sys Z
| Pipe : sys (option (Z * Z))
| Read (fd n : Z) : sys (Z * bytes)
| Write (fd : Z) (s : bytes) : sys Z
| Fstat (fd : Z) : sys (option (Z * Z * Z))
| Chdir (path : bytes) : sys Z
| Unlink (path : bytes) : sys Z
| Mkdir (path : bytes) : sys Z
| Link (old new : bytes) : sys Z
| Mknod (path : bytes) (major minor : Z) : sys Z
| Kill (pid : Z) : sys Z
| Sleep (n : Z) : sys Z.

(** A program returns, exits, makes a call, or does what the language leaves
    undefined. *)
Inductive prog (A : Type) : Type :=
| Ret (a : A)
| Exit_
| Undef
| Call (R : Type) (c : sys R) (k : R -> prog A).
Arguments Ret {A} a.
Arguments Exit_ {A}.
Arguments Undef {A}.
Arguments Call {A R} c k.

(** The rest of a program after one that returns. *)
Fixpoint pbind {A B} (p : prog A) (f : A -> prog B) : prog B :=
  match p with
  | Ret a => f a
  | Exit_ => Exit_
  | Undef => Undef
  | Call c k => Call c (fun r => pbind (k r) f)
  end.

Declare Scope prog_scope.
Delimit Scope prog_scope with prog.
#[global] Open Scope prog_scope.
Notation "'call*' x ':=' c 'in' k" := (Call c (fun x => k))
  (at level 10, x pattern, c at level 100, k at level 200,
   format "'[v' 'call*'  x  ':='  c  'in' '/' k ']'") : prog_scope.
Notation "'do*' x ':=' p 'in' k" := (pbind p (fun x => k))
  (at level 10, x pattern, p at level 100, k at level 200,
   format "'[v' 'do*'  x  ':='  p  'in' '/' k ']'") : prog_scope.

(** [printf(fd, fmt, s)] as one [write]. *)
Definition say {A} (fd : Z) (fmt : bytes) (s : bytes) (k : prog A) : prog A :=
  call* _ := Write fd (default [] (printf fmt [PStr (Some s)])) in k.

Lemma printf_no_percent l ap : Forall (fun c => c <> 37) l -> printf_from false l ap = Some l.
Proof. induction 1 as [|c l Hc Hl IH]; [done|]. cbn [printf_from negb]. by rewrite (proj2 (Z.eqb_neq _ _) Hc), IH. Qed.

Lemma printf_string pre post s : Forall (fun c => c <> 37) pre -> Forall (fun c => c <> 37) post ->
  printf (pre ++ [37; 115] ++ post) [PStr (Some s)] = Some (pre ++ s ++ post).
Proof.
  intros Hpre Hpost. unfold printf. induction Hpre as [|c pre Hc Hl IH].
  - cbn [app printf_from negb Z.eqb Pos.eqb orb]. by rewrite printf_no_percent.
  - cbn [app printf_from negb] in *. by rewrite (proj2 (Z.eqb_neq _ _) Hc), IH.
Qed.

(** [stat] of the user library. *)
Definition stat (n : bytes) : prog (option (Z * Z * Z)) :=
  call* fd := Open n O_RDONLY in
  if fd <? 0 then Ret None
  else call* r := Fstat fd in call* _ := Close fd in Ret r.

(** * Descriptors *)

(** A table of open files, as [fdalloc] of sysfile.c keeps it: a new descriptor
    is the first free entry. *)
Section descriptors.
Context {F : Type}.
Local Abbreviation fdtab := (list (option F)).

Fixpoint lowest (t : fdtab) : option nat :=
  match t with [] => None | None :: _ => Some O | Some _ :: t' => S <$> lowest t' end.

Definition fd_alloc (f : F) (t : fdtab) : Z * fdtab :=
  match lowest t with Some fd => (Z.of_nat fd, <[fd := Some f]> t) | None => (-1, t) end.
Definition fd_get (fd : Z) (t : fdtab) : option F :=
  if fd <? 0 then None else mjoin (t !! Z.to_nat fd).
Definition fd_close (fd : Z) (t : fdtab) : fdtab := if fd <? 0 then t else <[Z.to_nat fd := None]> t.
End descriptors.
