(* ===== verification/Shell.v ===== *)
(** sh.c: reading a command line, parsing it, and running the command.

    The line is the list [buf] of the bytes before its terminating 0, so that
    [es] is its length and the pointers into it are indices.  The parser's
    state is the index [ps]; the outcome [Panic] is the shell's own [panic],
    which prints the message on descriptor 2 and exits.  [malloc] is taken to
    succeed; the structures it returns are the constructors of [cmd]. *)
From S2P Require Import Prelude Layout CString Ulib User.

Definition MAXARGS : nat := 10.
Definition whitespace : bytes := [32; 9; 13; 10; 11].
Definition symbols : bytes := str "<|>&;()".

(** Arguments and file names are a first index and the index after the last. *)
Record redir := mkRedir { r_file : nat; r_efile : nat; r_mode : Z; r_fd : Z }.

Inductive cmd :=
| EXEC (argv : list (nat * nat))
| REDIR (c : cmd) (r : redir)
| PIPE (left right : cmd)
| LIST (left right : cmd)
| BACK (c : cmd).

Definition is_one_of (l : bytes) (c : Z) : bool :=
  match strchr l c with Some _ => true | None => false end.
Definition space (c : Z) : bool := is_one_of whitespace c.
Definition word_char (c : Z) : bool := negb (space c) && negb (is_one_of symbols c).

(** How far the loop goes that advances [s] while it is below [es] and [f] holds. *)
Fixpoint span (f : Z -> bool) (l : bytes) : nat :=
  match l with [] => O | c :: l' => if f c then S (span f l') else O end.

Section parser.
Context (buf : bytes).
Local Abbreviation P := (M nat).

Definition skip (s : nat) : nat := (s + span space (drop s buf))%nat.

(** The code of the token at [q], which has no white space before it, and where
    the token ends. *)
Definition token_at (q : nat) : Z * nat :=
  let c := nth0 buf q in
  if c =? 0 then (0, q)
  else if is_one_of (str "|();&<") c then (c, S q)
  else if c =? 62 then if nth0 buf (S q) =? 62 then (43, S (S q)) else (62, S q)
  else (97, (q + span word_char (drop q buf))%nat).

(** The code of the token, [q] and [eq]. *)
Definition gettoken : P (Z * nat * nat) :=
  let* s := get in
  let q := skip s in
  let '(r, eq) := token_at q in
  put (skip eq) ;; ret (r, q, eq).

Definition peek (toks : string) : P bool :=
  let* s := get in
  put (skip s) ;;
  ret (negb (nth0 buf (skip s) =? 0) && is_one_of (str toks) (nth0 buf (skip s))).

(** [redircmd] around [c] for each of [rs]: the last one is the outermost. *)
Definition redirect (rs : list redir) (c : cmd) : cmd := fold_left REDIR rs c.

(** The redirections that [parseredirs] puts around its command.  [parseexec]
    goes on to add arguments to the command inside, so it keeps them apart. *)
Definition parseredirs : P (list redir) :=
  while_loop (S (length buf)) [] (fun rs =>
    let* b := peek "<>" in
    if b then
      let* t := gettoken in
      let* f := gettoken in
      let '(a, q, eq) := f in
      if negb (a =? 97) then panic "missing file for redirection"
      else if t.1.1 =? 60 then ret (inl (rs ++ [mkRedir q eq O_RDONLY 0]))
      else if t.1.1 =? 62 then ret (inl (rs ++ [mkRedir q eq (Z.lor O_WRONLY O_CREATE) 1]))
      else if t.1.1 =? 43 then ret (inl (rs ++ [mkRedir q eq (Z.lor O_WRONLY O_CREATE) 1]))
      else ret (inl rs)
    else ret (inr rs)).

(** The loop of [parseexec] over the arguments. *)
Definition parseargs (rs : list redir) : P (list (nat * nat) * list redir) :=
  while_loop (S (length buf)) ([], rs) (fun '(argv, rs) =>
    let* b := peek "|)&;" in
    if b then ret (inr (argv, rs))
    else
      let* t := gettoken in
      let '(tok, q, eq) := t in
      if tok =? 0 then ret (inr (argv, rs))
      else if negb (tok =? 97) then panic "syntax"
      else
        let argv := argv ++ [(q, eq)] in
        if (MAXARGS <=? length argv)%nat then panic "too many args"
        else let* rs' := parseredirs in ret (inl (argv, rs ++ rs'))).

(** The four functions call each other; [n] bounds the depth of the calls. *)
Fixpoint parseline (n : nat) : P cmd :=
  match n with
  | O => fault
  | S n =>
      let* c := parsepipe n in
      let* c := while_loop (S (length buf)) c (fun c =>
        let* b := peek "&" in
        if b then gettoken ;; ret (inl (BACK c)) else ret (inr c)) in
      let* b := peek ";" in
      if b then gettoken ;; let* r := parseline n in ret (LIST c r)
      else ret c
  end
with parsepipe (n : nat) : P cmd :=
  match n with
  | O => fault
  | S n =>
      let* c := parseexec n in
      let* b := peek "|" in
      if b then gettoken ;; let* r := parsepipe n in ret (PIPE c r)
      else ret c
  end
with parseexec (n : nat) : P cmd :=
  match n with
  | O => fault
  | S n =>
      let* b := peek "(" in
      if b then parseblock n
      else
        let* rs := parseredirs in
        let* r := parseargs rs in
        ret (redirect r.2 (EXEC r.1))
  end
with parseblock (n : nat) : P cmd :=
  match n with
  | O => fault
  | S n =>
      let* b := peek "(" in
      if negb b then panic "parseblock"
      else
        gettoken ;;
        let* c := parseline n in
        let* b := peek ")" in
        if negb b then panic "syntax - missing )"
        else
          gettoken ;;
          let* rs := parseredirs in
          ret (redirect rs c)
  end.
End parser.

(** The indices at which [nulterminate] stores a 0, and the line after it. *)
Fixpoint ends (c : cmd) : list nat :=
  match c with
  | EXEC argv => argv.*2
  | REDIR c r => ends c ++ [r_efile r]
  | PIPE l r | LIST l r => ends l ++ ends r
  | BACK c => ends c
  end.
Definition nulterminate (mem : bytes) (c : cmd) : bytes :=
  fold_left (fun m i => <[i := 0]> m) (ends c) mem.

(** The command and the memory of the line, or what is left of a line that is
    too long; the shell prints it and panics with the message "syntax". *)
Definition parsecmd (buf : bytes) : M nat (cmd * bytes + bytes) :=
  let* c := parseline buf (4 * length buf + 3) in
  peek buf "" ;;
  let* s := get in
  if (s =? length buf)%nat then ret (inl (c, nulterminate (buf ++ [0]) c))
  else ret (inr (drop s buf)).

(** * Running a command *)

(** The string at an index of the memory of the line. *)
Definition string_at (mem : bytes) (q : nat * nat) : bytes := cstring (drop q.1 mem).

(** [panic]. *)
Definition panic_ {A} (s : bytes) : prog A := say 2 (str "%s" ++ [10]) s Exit_.

Definition fork1 {A} (k : Z -> prog A) : prog A :=
  call* pid := Fork in
  if pid =? -1 then panic_ (str "fork") else k pid.

(** [runcmd] never returns: where the source goes on after a call of it, the
    process has exited or become another program. *)
Fixpoint runcmd (mem : bytes) (c : cmd) : prog unit :=
  match c with
  | EXEC argv =>
      match argv with
      | [] => Exit_
      | a :: _ =>
          call* _ := Exec (string_at mem a) (map (string_at mem) argv) in
          say 2 (str "exec %s failed" ++ [10]) (string_at mem a) Exit_
      end
  | REDIR c r =>
      let file := string_at mem (r_file r, r_efile r) in
      call* _ := Close (r_fd r) in
      call* fd := Open file (r_mode r) in
      if fd <? 0 then say 2 (str "open %s failed" ++ [10]) file Exit_ else runcmd mem c
  | LIST l r =>
      fork1 (fun pid =>
        if pid =? 0 then runcmd mem l
        else call* _ := Wait in runcmd mem r)
  | PIPE l r =>
      call* p := Pipe in
      match p with
      | None => panic_ (str "pipe")
      | Some (p0, p1) =>
          fork1 (fun pid =>
            if pid =? 0 then
              call* _ := Close 1 in call* _ := Dup p1 in call* _ := Close p0 in call* _ := Close p1 in
              runcmd mem l
            else
              fork1 (fun pid =>
                if pid =? 0 then
                  call* _ := Close 0 in call* _ := Dup p0 in call* _ := Close p0 in call* _ := Close p1 in
                  runcmd mem r
                else
                  call* _ := Close p0 in call* _ := Close p1 in call* _ := Wait in call* _ := Wait in Exit_))
      end
  | BACK c => fork1 (fun pid => if pid =? 0 then runcmd mem c else Exit_)
  end.

(** * Reading commands *)

(** The loop of [gets] on descriptor 0 with room for [room] characters. *)
Fixpoint gets_from {A} (room : nat) (buf : bytes) (k : bytes -> prog A) : prog A :=
  match room with
  | O => k buf
  | S room' =>
      call* r := Read 0 1 in
      if r.1 <? 1 then k buf
      else
        let c := nth0 r.2 0 in
        if (c =? 10) || (c =? 13) then k (buf ++ [c]) else gets_from room' (buf ++ [c]) k
  end.

(** The line, up to the first 0 in it; [None] at the end of the input. *)
Definition getcmd {A} (nbuf : nat) (k : option bytes -> prog A) : prog A :=
  call* _ := Write 2 (str "$ ") in
  gets_from (nbuf - 1) [] (fun buf =>
    k (if nth0 buf 0 =? 0 then None else Some (cstring buf))).

(** The first loop of [main]: at most four descriptors are opened. *)
Fixpoint open_console (n : nat) (k : prog unit) : prog unit :=
  match n with
  | O => k
  | S n' =>
      call* fd := Open (str "console") O_RDWR in
      if fd <? 0 then k
      else if 3 <=? fd then call* _ := Close fd in k
      else open_console n' k
  end.

(** The command [cd] of the shell itself. *)
Definition is_cd (buf : bytes) : bool := (nth0 buf 0 =? 99) && (nth0 buf 1 =? 100) && (nth0 buf 2 =? 32).

(** What [main] does with the next [n] lines; it returns when there may be more. *)
Fixpoint main_loop (n : nat) : prog unit :=
  match n with
  | O => Ret tt
  | S n' =>
      getcmd 100 (fun line =>
        match line with
        | None => Exit_
        | Some buf =>
            if is_cd buf then
              let dir := drop 3 (take (length buf - 1) buf) in
              call* r := Chdir dir in
              if r <? 0 then say 2 (str "cannot cd %s" ++ [10]) dir (main_loop n') else main_loop n'
            else
              fork1 (fun pid =>
                if pid =? 0 then
                  match parsecmd buf O with
                  | Ok (inl (c, mem)) _ => runcmd mem c
                  | Ok (inr rest) _ => say 2 (str "leftovers: %s" ++ [10]) rest (panic_ (str "syntax"))
                  | Panic msg => panic_ (str msg)
                  | _ => Exit_
                  end
                else call* _ := Wait in main_loop n')
        end)
  end.
Definition main (n : nat) : prog unit := open_console 4 (main_loop n).
