(* ===== verification/ShellSpec.v ===== *)
(** sh.c: the parser accepts exactly the commands of the shell's grammar, and
    always comes to an end. *)
From S2P Require Import Prelude Layout CString Ulib User Shell.

(** * The language of the shell *)

(** Words, and the symbols; [Sym 43] is the symbol [>>]. *)
Inductive token := Word (w : bytes) | Sym (c : Z).

Definition flush (cur : bytes) : list token := match cur with [] => [] | _ => [Word cur] end.

(** The tokens of a line, [cur] being the word that has begun. *)
Fixpoint lex (cur l : bytes) : list token :=
  match l with
  | [] => flush cur
  | c :: l' =>
      if space c then flush cur ++ lex [] l'
      else if is_one_of symbols c then
        flush cur ++
        match l' with
        | d :: l'' => if (c =? 62) && (d =? 62) then Sym 43 :: lex [] l'' else Sym c :: lex [] l'
        | [] => [Sym c]
        end
      else lex (cur ++ [c]) l'
  end.

(** Commands, with their words. *)
Inductive scmd :=
| SExec (argv : list bytes)
| SRedir (c : scmd) (file : bytes) (mode fd : Z)
| SPipe (l r : scmd)
| SList (l r : scmd)
| SBack (c : scmd).

Record sredir := mkSRedir { sr_file : bytes; sr_mode : Z; sr_fd : Z }.
Definition sredirect (rs : list sredir) (c : scmd) : scmd :=
  fold_left (fun c r => SRedir c (sr_file r) (sr_mode r) (sr_fd r)) rs c.
Definition backs (n : nat) (c : scmd) : scmd := Nat.iter n SBack c.

Inductive is_redir : Z -> Z -> Z -> Prop :=
| redir_in : is_redir 60 O_RDONLY 0
| redir_out : is_redir 62 (Z.lor O_WRONLY O_CREATE) 1
| redir_app : is_redir 43 (Z.lor O_WRONLY O_CREATE) 1.

(** Arguments and redirections in any order. *)
Inductive g_args : list token -> list bytes -> list sredir -> Prop :=
| ga_nil : g_args [] [] []
| ga_word w ts argv rs : g_args ts argv rs -> g_args (Word w :: ts) (w :: argv) rs
| ga_redir c mode fd f ts argv rs :
    is_redir c mode fd -> g_args ts argv rs -> g_args (Sym c :: Word f :: ts) argv (mkSRedir f mode fd :: rs).

(** A line is a list of pipelines separated by a semicolon, each followed by any
    number of ampersands; a pipeline is a sequence of simple commands and of
    lines in parentheses. *)
Inductive g_line : list token -> scmd -> Prop :=
| gl_one ts c n : g_pipe ts c -> g_line (ts ++ replicate n (Sym 38)) (backs n c)
| gl_seq ts c n ts' c' :
    g_pipe ts c -> g_line ts' c' ->
    g_line (ts ++ replicate n (Sym 38) ++ Sym 59 :: ts') (SList (backs n c) c')
with g_pipe : list token -> scmd -> Prop :=
| gp_one ts c : g_exec ts c -> g_pipe ts c
| gp_pipe ts c ts' c' : g_exec ts c -> g_pipe ts' c' -> g_pipe (ts ++ Sym 124 :: ts') (SPipe c c')
with g_exec : list token -> scmd -> Prop :=
| ge_args ts argv rs : g_args ts argv rs -> (length argv < MAXARGS)%nat -> g_exec ts (sredirect rs (SExec argv))
| ge_block ts c ts' rs :
    g_line ts c -> g_args ts' [] rs -> g_exec (Sym 40 :: ts ++ Sym 41 :: ts') (sredirect rs c).

Scheme g_line_mut := Minimality for g_line Sort Prop
  with g_pipe_mut := Minimality for g_pipe Sort Prop
  with g_exec_mut := Minimality for g_exec Sort Prop.
Combined Scheme grammar_ind from g_line_mut, g_pipe_mut, g_exec_mut.

(** The command a tree of the parser stands for, when its words are read by [rd]. *)
Fixpoint scmd_of (rd : nat * nat -> bytes) (c : cmd) : scmd :=
  match c with
  | EXEC argv => SExec (map rd argv)
  | REDIR c r => SRedir (scmd_of rd c) (rd (r_file r, r_efile r)) (r_mode r) (r_fd r)
  | PIPE l r => SPipe (scmd_of rd l) (scmd_of rd r)
  | LIST l r => SList (scmd_of rd l) (scmd_of rd r)
  | BACK c => SBack (scmd_of rd c)
  end.

(** * Tokens *)

Lemma span_le f l : (span f l <= length l)%nat.
Proof. induction l as [|c l IH]; cbn; [lia|]. destruct (f c); lia. Qed.

Lemma span_all f l : Forall (fun c => f c = true) (take (span f l) l).
Proof. induction l as [|c l IH]; [constructor|]. cbn. destruct (f c) eqn:E; [by constructor|constructor]. Qed.

Lemma span_stop f l c l' : drop (span f l) l = c :: l' -> f c = false.
Proof. induction l as [|d l IH]; [done|]. cbn. destruct (f d) eqn:E; [apply IH|]. by intros [= <- _]. Qed.

Lemma lex_spaces l : lex [] (drop (span space l) l) = lex [] l.
Proof. induction l as [|c l IH]; [done|]. cbn. destruct (space c) eqn:E; [exact IH|]. cbn. by rewrite E. Qed.

Lemma lex_flush cur c l : word_char c = false -> lex cur (c :: l) = flush cur ++ lex [] (c :: l).
Proof. unfold word_char. intros H. cbn [lex]. destruct (space c); [done|]. apply negb_false_iff in H. by rewrite H. Qed.

Lemma lex_word l : forall cur, cur ++ take (span word_char l) l <> [] ->
  lex cur l = Word (cur ++ take (span word_char l) l) :: lex [] (drop (span word_char l) l).
Proof.
  induction l as [|c l IH]; intros cur Hne.
  - cbn in *. rewrite app_nil_r in *. by destruct cur.
  - cbn [span] in *. destruct (word_char c) eqn:E.
    + cbn [take drop]. rewrite cons_middle, app_assoc. rewrite <- IH by by destruct cur.
      unfold word_char in E. apply andb_true_iff in E as [E1%negb_true_iff E2%negb_true_iff]. cbn [lex]. by rewrite E1, E2.
    + rewrite lex_flush by done. cbn [take drop] in *. rewrite app_nil_r in *. by destruct cur.
Qed.

Lemma is_one_of_spec l c : is_one_of l c = bool_decide (c ∈ l).
Proof.
  symmetry. unfold is_one_of. induction l as [|d l IH]; [done|]. cbn. destruct (Z.eqb_spec d c) as [->|Hne].
  - apply bool_decide_eq_true. set_solver.
  - replace (bool_decide (c ∈ d :: l)) with (bool_decide (c ∈ l)) by (apply bool_decide_ext; set_solver).
    rewrite IH. by destruct (strchr l c).
Qed.

Lemma symbols_val : symbols = [60; 124; 62; 38; 59; 40; 41].
Proof. reflexivity. Qed.
Lemma symbols1_val : str "|();&<" = [124; 40; 41; 59; 38; 60].
Proof. reflexivity. Qed.

(** The code [gettoken] returns, and the first character, which [peek] sees. *)
Definition code (t : token) : Z := match t with Word _ => 97 | Sym c => c end.
Definition first (t : token) : Z := match t with Word w => hd 0 w | Sym c => if c =? 43 then 62 else c end.

(** The word at [q] in the line [buf]. *)
Definition text (buf : bytes) (q : nat * nat) : bytes := slice buf q.1 (q.2 - q.1).
Record at_word (buf : bytes) (q : nat * nat) : Prop := {
  aw_pos : (q.1 < q.2 <= length buf)%nat;
  aw_chars : Forall (fun c => word_char c = true) (text buf q);
  aw_end : forall c, buf !! q.2 = Some c -> word_char c = false
}.

Definition is_token (buf : bytes) (t : token) (q e : nat) : Prop :=
  match t with
  | Word w => w = text buf (q, e) /\ at_word buf (q, e)
  | Sym c => c ∈ [124; 40; 41; 59; 38; 60; 62; 43]
  end.

Section tokens.
Context (buf : bytes) (buf_ok : Forall (fun c => c <> 0) buf).

Definition toks (p : nat) : list token := lex [] (drop p buf).

Lemma skip_ge p : (p <= skip buf p)%nat.
Proof. unfold skip. lia. Qed.
Lemma skip_le p : (p <= length buf)%nat -> (skip buf p <= length buf)%nat.
Proof. intros H. unfold skip. pose proof (span_le space (drop p buf)). rewrite length_drop in *. lia. Qed.
Lemma skip_toks p : toks (skip buf p) = toks p.
Proof. unfold toks, skip. rewrite <- drop_drop. apply lex_spaces. Qed.
Lemma skip_stop p c : buf !! skip buf p = Some c -> space c = false.
Proof.
  unfold skip. intros H. rewrite <- lookup_drop in H.
  apply (span_stop _ (drop p buf) _ (drop (S (p + span space (drop p buf))) buf)).
  rewrite lookup_drop in H. rewrite drop_drop. by apply drop_S.
Qed.

Lemma token_at_word q c :
  buf !! q = Some c -> word_char c = true ->
  exists e w, token_at buf q = (97, e) /\ toks q = Word w :: toks e /\ is_token buf (Word w) q e /\ (q < e <= length buf)%nat.
Proof.
  intros Hc Hw. set (l := drop q buf). assert (El : l = c :: drop (S q) buf) by by apply drop_S.
  set (k := span word_char l). exists (q + k)%nat, (take k l).
  assert (Hk : (0 < k)%nat) by (unfold k; rewrite El; cbn; rewrite Hw; lia).
  assert (Hl : (q + k <= length buf)%nat).
  { pose proof (span_le word_char l). pose proof (lookup_lt_Some _ _ _ Hc). unfold k, l in *. rewrite length_drop in *. lia. }
  assert (E0 : c <> 0) by by apply (Forall_lookup_1 _ _ _ _ buf_ok Hc).
  assert (Et : text buf (q, (q + k)%nat) = take k l) by (unfold text, slice; cbn; f_equal; lia).
  split_and!; try lia.
  - unfold token_at. rewrite nth0_lookup, Hc. cbn [from_option default id]. rewrite (proj2 (Z.eqb_neq _ _) E0).
    assert (Hs : is_one_of symbols c = false).
    { unfold word_char in Hw. by apply andb_true_iff in Hw as [_ ?%negb_true_iff]. }
    assert (Hs' : is_one_of (str "|();&<") c = false /\ c <> 62).
    { rewrite symbols1_val. rewrite symbols_val in Hs. rewrite is_one_of_spec, bool_decide_eq_false in *. set_solver. }
    destruct Hs' as [-> Hs']. by rewrite (proj2 (Z.eqb_neq _ _) Hs').
  - unfold toks. fold l. rewrite (lex_word l []); [|fold k; rewrite El; destruct k; [lia|done]].
    cbn [app]. f_equal. unfold l, k. by rewrite drop_drop.
  - split; [done|]. split; [cbn; lia|rewrite Et; apply span_all|cbn].
    intros d Hd. apply (span_stop _ l _ (drop (S (q + k)) buf)). unfold l at 2. rewrite drop_drop. by apply drop_S.
Qed.

Lemma is_symbol c : is_one_of symbols c = true -> c ∈ [60; 124; 62; 38; 59; 40; 41].
Proof. rewrite symbols_val, is_one_of_spec. apply bool_decide_eq_true_1. Qed.

Lemma token_at_sym q c :
  buf !! q = Some c -> is_one_of symbols c = true ->
  exists e d, token_at buf q = (d, e) /\ toks q = Sym d :: toks e /\ is_token buf (Sym d) q e /\
    first (Sym d) = c /\ (q < e <= length buf)%nat.
Proof.
  intros Hc Hs. pose proof (lookup_lt_Some _ _ _ Hc). pose proof (is_symbol _ Hs) as Hin.
  assert (Ht : toks q = match drop (S q) buf with
    | d :: l => if (c =? 62) && (d =? 62) then Sym 43 :: lex [] l else Sym c :: lex [] (drop (S q) buf)
    | [] => [Sym c] end).
  { unfold toks. rewrite (drop_S _ _ _ Hc). cbn [lex]. rewrite Hs.
    rewrite !elem_of_cons in Hin. replace (space c) with false; [done|].
    destruct Hin as [->|[->|[->|[->|[->|[->|[->|?%not_elem_of_nil]]]]]]]; done. }
  unfold token_at. rewrite nth0_lookup, Hc. cbn [from_option default id].
  destruct (Z.eqb_spec c 62) as [->|Hne].
  - cbn [Z.eqb Pos.eqb]. change (is_one_of (str "|();&<") 62) with false. cbn iota.
    destruct (buf !! S q) as [d|] eqn:Hd.
    + rewrite (drop_S _ _ _ Hd) in Ht. rewrite nth0_lookup, Hd. cbn [from_option default id andb] in *.
      pose proof (lookup_lt_Some _ _ _ Hd).
      destruct (Z.eqb_spec d 62) as [Ed|_]; [exists (S (S q)), 43|exists (S q), 62]; (split_and!; [done| |cbn; set_solver|done|lia|lia]);
        rewrite Ht; [done|unfold toks; by rewrite (drop_S _ _ _ Hd)].
    + rewrite nth0_lookup, Hd. cbn. exists (S q), 62. apply lookup_ge_None in Hd. rewrite drop_ge in Ht by lia.
      split_and!; [done| |cbn; set_solver|done|lia|lia]. rewrite Ht. unfold toks. by rewrite drop_ge by lia.
  - exists (S q), c. assert (E0 : c <> 0) by by apply (Forall_lookup_1 _ _ _ _ buf_ok Hc).
    rewrite (proj2 (Z.eqb_neq _ _) E0). rewrite !elem_of_cons in Hin.
    assert (Et : toks q = Sym c :: toks (S q)) by (rewrite Ht; unfold toks; by destruct (drop (S q) buf)).
    split_and!; try lia; [|done|cbn; set_solver|].
    + destruct Hin as [->|[->|[->|[->|[->|[->|[->|?%not_elem_of_nil]]]]]]]; done.
    + destruct Hin as [->|[->|[->|[->|[->|[->|[->|?%not_elem_of_nil]]]]]]]; done.
Qed.

(** What [gettoken] and [peek] do, in terms of the tokens that are left. *)
Lemma gettoken_run p : (p <= length buf)%nat ->
  exists r q e p', gettoken buf p = Ok (r, q, e) p' /\ (p <= p' <= length buf)%nat /\
    match toks p with
    | [] => r = 0 /\ toks p' = []
    | t :: ts => r = code t /\ is_token buf t q e /\ toks p' = ts /\ (p < p')%nat
    end.
Proof.
  intros Hp. unfold gettoken, get, put, ret, bind. pose proof (skip_ge p). pose proof (skip_le p Hp).
  rewrite <- skip_toks. set (q := skip buf p) in *.
  assert (He : forall e, (q < e <= length buf)%nat -> (p < skip buf e <= length buf)%nat).
  { intros e ?. pose proof (skip_ge e). pose proof (skip_le e). lia. }
  destruct (buf !! q) as [c|] eqn:Hc.
  - destruct (word_char c) eqn:Hw.
    + destruct (token_at_word q c Hc Hw) as (e & w & -> & -> & Ht & Hlt). specialize (He e Hlt).
      exists 97, q, e, (skip buf e). rewrite skip_toks. repeat (split; [done || lia || exact Ht|]). lia.
    + pose proof (skip_stop p c Hc) as Hsp. assert (Hs : is_one_of symbols c = true).
      { unfold word_char in Hw. rewrite Hsp in Hw. by apply negb_false_iff in Hw. }
      destruct (token_at_sym q c Hc Hs) as (e & d & -> & -> & Ht & _ & Hlt). specialize (He e Hlt).
      exists d, q, e, (skip buf e). rewrite skip_toks. repeat (split; [done || lia || exact Ht|]). lia.
  - unfold token_at. rewrite nth0_lookup, Hc. cbn. apply lookup_ge_None in Hc. pose proof (skip_ge q). pose proof (skip_le q).
    exists 0, q, q, (skip buf q). unfold toks. rewrite (drop_ge _ q), (drop_ge _ (skip buf q)) by lia.
    repeat (split; [done || lia|]). done.
Qed.

Definition peeks (l : string) (ts : list token) : bool :=
  match ts with [] => false | t :: _ => is_one_of (str l) (first t) end.

Lemma peek_run l p : (p <= length buf)%nat ->
  exists p', peek buf l p = Ok (peeks l (toks p)) p' /\ (p <= p' <= length buf)%nat /\ toks p' = toks p /\
    (toks p = [] <-> p' = length buf).
Proof.
  intros Hp. unfold peek, get, put, ret, bind. pose proof (skip_ge p). pose proof (skip_le p Hp).
  exists (skip buf p). rewrite <- skip_toks. set (q := skip buf p) in *.
  destruct (buf !! q) as [c|] eqn:Hc; rewrite nth0_lookup, Hc; cbn [from_option default id].
  - assert (E0 : c <> 0) by by apply (Forall_lookup_1 _ _ _ _ buf_ok Hc). rewrite (proj2 (Z.eqb_neq _ _) E0).
    pose proof (lookup_lt_Some _ _ _ Hc). cbn [negb andb]. destruct (word_char c) eqn:Hw.
    + destruct (token_at_word q c Hc Hw) as (e & w & _ & -> & [-> _] & Hlt).
      split_and!; try done; try lia; [|split; [done|lia]]. cbn. do 2 f_equal. unfold text, slice. rewrite (drop_S _ _ _ Hc).
      cbn [fst snd]. by replace (e - q)%nat with (S (e - S q)) by lia.
    + assert (Hs : is_one_of symbols c = true).
      { unfold word_char in Hw. rewrite (skip_stop p c Hc) in Hw. by apply negb_false_iff in Hw. }
      destruct (token_at_sym q c Hc Hs) as (e & d & _ & -> & _ & <- & Hlt). split_and!; try done; try lia. split; [done|lia].
  - apply lookup_ge_None in Hc. unfold toks. rewrite drop_ge by lia. split_and!; try done; try lia. split; [lia|done].
Qed.

(** * The parser ends, and what it returns is in the grammar *)

(** The errors of the parser; the one of [parseblock] does not occur. *)
Definition syntax_errors : list string :=
  ["missing file for redirection"; "syntax"; "too many args"; "syntax - missing )"]%string.

(** [m] returns with [Q] or panics; it neither runs out of fuel nor faults. *)
Definition may {A} (m : M nat A) (p : nat) (Q : A -> nat -> Prop) : Prop :=
  match m p with Ok a p' => Q a p' | Panic msg => msg ∈ syntax_errors | _ => False end.

Lemma may_panic {A} msg p (Q : A -> nat -> Prop) : msg ∈ syntax_errors -> may (panic msg) p Q.
Proof. done. Qed.
Ltac may_error := apply may_panic; unfold syntax_errors; set_solver.

Lemma may_bind {A B} (m : M nat A) (k : A -> M nat B) p Q :
  may m p (fun a p' => may (k a) p' Q) -> may (bind m k) p Q.
Proof. unfold may, bind. by destruct (m p). Qed.

Lemma may_mono {A} (m : M nat A) p (Q Q' : A -> nat -> Prop) :
  may m p Q -> (forall a p', Q a p' -> Q' a p') -> may m p Q'.
Proof. unfold may. destruct (m p); naive_solver. Qed.

Lemma may_while {St B} (I : St -> nat -> Prop) (body : St -> M nat (St + B)) fuel st p (Q : B -> nat -> Prop) :
  I st p -> (length buf - p < fuel)%nat ->
  (forall st p, I st p -> may (body st) p (fun r p' =>
     match r with inl st' => I st' p' /\ (p < p' <= length buf)%nat | inr b => Q b p' end)) ->
  may (while_loop fuel st body) p Q.
Proof.
  intros HI Hf Hb. revert st p HI Hf. induction fuel as [|k IH]; intros st p HI Hf; [lia|].
  cbn. apply may_bind. eapply may_mono; [by apply Hb|]. intros [st'|b] p' H; [|done].
  destruct H as [H ?]. apply IH; [done|lia].
Qed.

(** One step of the parser under [may] and under [wp]. *)
Lemma may_peek l p (Q : bool -> nat -> Prop) : (p <= length buf)%nat ->
  (forall p', (p <= p' <= length buf)%nat -> toks p' = toks p -> Q (peeks l (toks p)) p') -> may (peek buf l) p Q.
Proof. intros Hp HQ. destruct (peek_run l p Hp) as (p' & E & H & Ht & _). unfold may. rewrite E. by apply HQ. Qed.

Lemma may_gettoken p (Q : Z * nat * nat -> nat -> Prop) : (p <= length buf)%nat ->
  (toks p = [] -> forall q e p', (p <= p' <= length buf)%nat -> toks p' = [] -> Q (0, q, e) p') ->
  (forall t ts, toks p = t :: ts -> forall q e p', is_token buf t q e -> (p < p' <= length buf)%nat -> toks p' = ts ->
     Q (code t, q, e) p') -> may (gettoken buf) p Q.
Proof.
  intros Hp H0 H1. destruct (gettoken_run p Hp) as (r & q & e & p' & E & H & Ht). unfold may. rewrite E.
  destruct (toks p) as [|t ts] eqn:Et; [destruct Ht as [-> Ht]; by apply H0|].
  destruct Ht as (-> & Hi & Ht & ?). apply (H1 t ts); [done|done|lia|done].
Qed.

Lemma wp_peek l p (Q : bool -> nat -> Prop) : (p <= length buf)%nat ->
  (forall p', (p <= p' <= length buf)%nat -> toks p' = toks p -> Q (peeks l (toks p)) p') -> wp (peek buf l) p Q.
Proof. intros Hp HQ. destruct (peek_run l p Hp) as (p' & E & H & Ht & _). unfold wp. rewrite E. by apply HQ. Qed.

Lemma wp_gettoken p t ts (Q : Z * nat * nat -> nat -> Prop) : (p <= length buf)%nat -> toks p = t :: ts ->
  (forall q e p', is_token buf t q e -> (p < p' <= length buf)%nat -> toks p' = ts -> Q (code t, q, e) p') ->
  wp (gettoken buf) p Q.
Proof.
  intros Hp Et HQ. destruct (gettoken_run p Hp) as (r & q & e & p' & E & H & Ht). unfold wp. rewrite E, Et in *.
  destruct Ht as (-> & Hi & Ht & ?). apply HQ; [done|lia|done].
Qed.

Lemma peeks_cons l ts : peeks l ts = true -> exists t ts', ts = t :: ts' /\ is_one_of (str l) (first t) = true.
Proof. destruct ts as [|t ts']; [done|]. intros H. by exists t, ts'. Qed.

(** The words of a tree. *)
Fixpoint words (c : cmd) : list (nat * nat) :=
  match c with
  | EXEC argv => argv
  | REDIR c r => words c ++ [(r_file r, r_efile r)]
  | PIPE l r | LIST l r => words l ++ words r
  | BACK c => words c
  end.
Definition sr (r : redir) : sredir := mkSRedir (text buf (r_file r, r_efile r)) (r_mode r) (r_fd r).
Definition redir_word (r : redir) : nat * nat := (r_file r, r_efile r).

Lemma words_redirect rs : forall c, words (redirect rs c) = words c ++ map redir_word rs.
Proof. induction rs as [|r rs IH]; intros c; cbn; [by rewrite app_nil_r|]. unfold redirect in IH. rewrite IH. cbn. by rewrite <- app_assoc. Qed.
Lemma scmd_redirect rs : forall c, scmd_of (text buf) (redirect rs c) = sredirect (map sr rs) (scmd_of (text buf) c).
Proof. induction rs as [|r rs IH]; intros c; cbn; [done|]. unfold redirect in IH. by rewrite IH. Qed.

Lemma g_args_app ts1 a1 r1 ts2 a2 r2 :
  g_args ts1 a1 r1 -> g_args ts2 a2 r2 -> g_args (ts1 ++ ts2) (a1 ++ a2) (r1 ++ r2).
Proof. induction 1; intros; cbn; [done|constructor; auto|constructor; auto]. Qed.

(** The first token begins with one of the characters: it is that symbol. *)
Lemma sym_first l t q e : Forall (fun c => is_one_of symbols c = true) (str l) -> is_one_of (str l) (first t) = true ->
  is_token buf t q e -> exists c, t = Sym c /\ first t ∈ str l.
Proof.
  intros Hl Hf Ht. rewrite is_one_of_spec in Hf. apply bool_decide_eq_true in Hf. destruct t as [w|c]; [|eauto].
  exfalso. destruct Ht as [-> [Hp Hc _]]. pose proof (proj1 (Forall_forall _ _) Hl _ Hf) as Hs. cbn [first fst snd] in *.
  destruct (text buf (q, e)) as [|d w] eqn:E.
  - apply (f_equal length) in E. unfold text, slice in E. rewrite length_take, length_drop in E. cbn in *. lia.
  - apply Forall_cons in Hc as [Hc _]. unfold word_char in Hc. apply andb_true_iff in Hc as [_ Hc%negb_true_iff].
    cbn [hd] in Hs. congruence.
Qed.

(** A part of the parser that returned: the tokens it took, and their command. *)
Definition took (G : list token -> scmd -> Prop) (p : nat) (c : cmd) (p' : nat) : Prop :=
  (p <= p' <= length buf)%nat /\ Forall (at_word buf) (words c) /\
  exists ts, toks p = ts ++ toks p' /\ G ts (scmd_of (text buf) c).
Definition took_redirs (p : nat) (rs : list redir) (p' : nat) : Prop :=
  (p <= p' <= length buf)%nat /\ Forall (at_word buf) (map redir_word rs) /\
  exists ts, toks p = ts ++ toks p' /\ g_args ts [] (map sr rs).
Definition took_args (p : nat) (argv : list (nat * nat)) (rs : list redir) (p' : nat) : Prop :=
  (p <= p' <= length buf)%nat /\ (length argv < MAXARGS)%nat /\
  Forall (at_word buf) argv /\ Forall (at_word buf) (map redir_word rs) /\
  exists ts, toks p = ts ++ toks p' /\ g_args ts (map (text buf) argv) (map sr rs).

Lemma took_redir p rs p1 c f q e mode fd p3 :
  took_redirs p rs p1 -> toks p1 = Sym c :: Word f :: toks p3 -> is_token buf (Word f) q e ->
  is_redir c mode fd -> (p1 <= p3 <= length buf)%nat -> took_redirs p (rs ++ [mkRedir q e mode fd]) p3.
Proof.
  intros (Hp & Hw & ts & Et & Hg) E1 [-> Hf] Hr Hp3. split; [lia|]. split.
  - rewrite map_app, Forall_app. split; [done|]. by constructor.
  - exists (ts ++ [Sym c; Word (text buf (q, e))]). rewrite <- app_assoc. cbn [app]. rewrite <- E1. split; [done|].
    rewrite map_app. apply (g_args_app _ [] _ _ [] _ Hg). constructor; [done|constructor].
Qed.

Lemma may_parseredirs p : (p <= length buf)%nat -> may (parseredirs buf) p (took_redirs p).
Proof.
  intros Hp. unfold parseredirs. apply (may_while (took_redirs p)); [|lia|].
  { split; [lia|]. split; [constructor|]. exists []. split; [done|constructor]. }
  clear Hp. intros rs p1 Ht. pose proof Ht as (Hp & _). apply may_bind, may_peek; [lia|]. intros p2 Hp2 E2.
  assert (Ht2 : took_redirs p rs p2).
  { destruct Ht as (? & ? & ts & ? & ?). split; [lia|]. split; [done|]. exists ts. by rewrite E2. }
  destruct (peeks "<>" (toks p1)) eqn:Ek; [|exact Ht2].
  apply may_bind, may_gettoken; [lia| |]; [intros E; by rewrite <- E2, E in Ek|].
  intros t ts Et q e p3 Htok Hp3 E3. rewrite <- E2, Et in Ek. cbn [peeks] in Ek.
  apply may_bind, may_gettoken; [lia|intros; may_error|].
  intros t' ts' Et' q' e' p4 Htok' Hp4 E4. destruct t' as [f|d]; cbn [code fst].
  2:{ cbn in Htok'. replace (negb (d =? 97)) with true by set_solver. may_error. }
  cbn [negb Z.eqb Pos.eqb]. destruct (sym_first "<>" t q e) as (c & -> & _); [by repeat constructor|done|done|].
  cbn [code]. rewrite E3 in Et'. subst ts ts'.
  assert (Hr : forall mode fd, is_redir c mode fd -> took_redirs p (rs ++ [mkRedir q' e' mode fd]) p4 /\ (p1 < p4 <= length buf)%nat).
  { intros mode fd Hr. split; [|lia]. eapply (took_redir p rs p2); [done| |done|done|lia]. by rewrite Et, Et'. }
  destruct (Z.eqb_spec c 60) as [->|]; [apply Hr; constructor|].
  destruct (Z.eqb_spec c 62) as [->|]; [apply Hr; constructor|].
  destruct (Z.eqb_spec c 43) as [->|]; [apply Hr; constructor|].
  exfalso. rewrite is_one_of_spec, bool_decide_eq_true in Ek. cbn [first] in Ek.
  destruct (Z.eqb_spec c 43); [done|]. vm_compute (str "<>") in Ek. set_solver.
Qed.

Lemma may_parseargs rs0 p0 p : took_args p0 [] rs0 p ->
  may (parseargs buf rs0) p (fun r p' => took_args p0 r.1 r.2 p').
Proof.
  intros H0. unfold parseargs. apply (may_while (fun st p' => took_args p0 st.1 st.2 p')); [exact H0|destruct H0; lia|].
  clear H0. intros [argv rs] p1 (Hp & Hl & Ha & Hr & ts & Et & Hg). cbn [fst snd] in *.
  apply may_bind, may_peek; [lia|]. intros p2 Hp2 E2.
  assert (Hend : forall p3, (p2 <= p3 <= length buf)%nat -> toks p3 = toks p2 -> took_args p0 argv rs p3).
  { intros p3 Hp3 E3. split; [lia|]. split_and!; try done. exists ts. by rewrite E3, E2. }
  destruct (peeks _ _); [apply Hend; [lia|done]|]. apply may_bind, may_gettoken; [lia| |].
  { intros E q e p3 Hp3 E3. cbn. apply Hend; [lia|congruence]. }
  intros t ts' Et' q e p3 Htok Hp3 E3. destruct t as [w|c].
  2:{ cbn in Htok. cbn [code]. replace (c =? 0) with false by set_solver. replace (negb (c =? 97)) with true by set_solver. may_error. }
  cbn [code Z.eqb negb Pos.eqb]. destruct (Nat.leb_spec MAXARGS (length (argv ++ [(q, e)]))) as [|Hm]; [may_error|].
  apply may_bind. eapply may_mono; [apply may_parseredirs; lia|].
  intros rs' p4 (Hp4 & Hr' & ts4 & Et4 & Hg4). destruct Htok as [-> Hw]. split; [|lia]. split; [cbn; lia|].
  split_and!; cbn [fst snd]; [done|by apply Forall_app; split; [|constructor]|rewrite map_app; by apply Forall_app|].
  exists (ts ++ [Word (text buf (q, e))] ++ ts4). rewrite Et, <- E2, Et', <- E3, Et4, <- !app_assoc. split; [done|].
  rewrite !map_app. apply g_args_app; [done|]. apply (g_args_app [_] [_] []); [repeat constructor|done].
Qed.

(** A command, then the symbol [c], then a command. *)
Lemma may_peek_sym l c p (Q : bool -> nat -> Prop) : (p <= length buf)%nat -> str l = [c] -> is_one_of symbols c = true -> c <> 62 ->
  (forall p', (p <= p' <= length buf)%nat -> toks p' = toks p -> peeks l (toks p) = false -> Q false p') ->
  (forall p' ts, (p <= p' <= length buf)%nat -> toks p = Sym c :: ts -> toks p' = Sym c :: ts -> Q true p') -> may (peek buf l) p Q.
Proof.
  intros Hp El Hs Hne H0 H1. apply may_peek; [done|]. intros p' Hp' E. destruct (peeks l (toks p)) eqn:Ek; [|by apply H0].
  apply peeks_cons in Ek as (t & ts & Et & Hf). destruct (gettoken_run p Hp) as (r & q & e & p'' & _ & _ & Ht).
  rewrite Et in Ht. destruct Ht as (_ & Ht & _). destruct (sym_first l t q e) as (d & -> & Hd); [|done|done|].
  { rewrite El. by repeat constructor. }
  rewrite El in Hd. assert (d = c) as ->. { apply list_elem_of_singleton in Hd. cbn in Hd. destruct (Z.eqb_spec d 43); congruence. }
  apply (H1 p' ts); [done|done|congruence].
Qed.

Lemma may_gettoken_sym p c ts (Q : Z * nat * nat -> nat -> Prop) : (p <= length buf)%nat -> toks p = Sym c :: ts ->
  (forall x p', (p < p' <= length buf)%nat -> toks p' = ts -> Q x p') -> may (gettoken buf) p Q.
Proof.
  intros Hp Et HQ. apply may_gettoken; [done|by rewrite Et|]. intros t ts' Et' q e p' _ Hp' E'.
  apply HQ; [done|congruence].
Qed.

Definition fuel (p : nat) : nat := (4 * (length buf - p))%nat.

(** The four functions with fuel [n]. *)
Definition parses (n : nat) : Prop :=
  (forall p, (p <= length buf)%nat -> (fuel p + 3 <= n)%nat -> may (parseline buf n) p (took g_line p)) /\
  (forall p, (p <= length buf)%nat -> (fuel p + 2 <= n)%nat -> may (parsepipe buf n) p (took g_pipe p)) /\
  (forall p, (p <= length buf)%nat -> (fuel p + 1 <= n)%nat -> may (parseexec buf n) p (took g_exec p)) /\
  (forall p, (p < length buf)%nat -> (fuel p <= n)%nat -> peeks "(" (toks p) = true -> may (parseblock buf n) p (took g_exec p)).

(** The ampersands after a pipeline. *)
Lemma may_backs p c0 p0 : took g_pipe p c0 p0 ->
  may (while_loop (S (length buf)) c0 (fun c =>
    let* b := peek buf "&" in
    if b then gettoken buf ;; ret (inl (BACK c)) else ret (inr c))) p0
  (took (fun ts s => exists ts0 m c, g_pipe ts0 c /\ ts = ts0 ++ replicate m (Sym 38) /\ s = backs m c) p).
Proof.
  intros (Hp0 & Hw0 & ts0 & E0 & G0).
  apply (may_while (took (fun ts s => exists ts0 m c, g_pipe ts0 c /\ ts = ts0 ++ replicate m (Sym 38) /\ s = backs m c) p)).
  - split; [lia|]. split; [done|]. exists ts0. split; [done|]. exists ts0, O, (scmd_of (text buf) c0). by rewrite app_nil_r.
  - lia.
  - intros c p1 (Hp1 & Hw & ts & E1 & ts1 & m & s & G & -> & Hs). apply may_bind, (may_peek_sym _ 38); try done; [lia| |].
    + intros p2 Hp2 E2 _. split; [lia|]. split; [done|]. eexists. rewrite E2. split; [done|]. by exists ts1, m, s.
    + intros p2 ts Hp2 E2 E2'. apply may_bind, (may_gettoken_sym _ 38 ts); [lia|done|]. intros _ p3 Hp3 E3.
      split; [|lia]. split; [lia|]. split; [done|]. exists (ts1 ++ replicate (S m) (Sym 38)).
      rewrite E1, E2, E3, replicate_S_end, <- !app_assoc. split; [done|]. exists ts1, (S m), s.
      split; [done|]. split; [by rewrite replicate_S_end|]. cbn [scmd_of]. by rewrite Hs.
Qed.

Lemma may_parseline n p : parses n -> (p <= length buf)%nat -> (fuel p + 3 <= S n)%nat ->
  may (parseline buf (S n)) p (took g_line p).
Proof.
  unfold parses, fuel. intros (IHl & IHp & _) Hp Hf. cbn [parseline].
  apply may_bind. eapply may_mono; [apply IHp; lia|]. intros c0 p0 H0.
  apply may_bind. eapply may_mono; [by apply (may_backs p)|].
  intros c p1 (Hp1 & Hw & ts & E1 & ts0 & m & s & G & -> & Hs). apply may_bind, (may_peek_sym _ 59); try done; [lia| |].
  - intros p2 Hp2 E2 _. split; [lia|]. split; [done|]. eexists. rewrite E2. split; [done|]. rewrite Hs. by constructor.
  - intros p2 ts Hp2 E2 E2'. apply may_bind, (may_gettoken_sym _ 59 ts); [lia|done|]. intros _ p3 Hp3 E3.
    apply may_bind. destruct H0 as (? & _). eapply may_mono; [apply IHl; lia|]. intros r p4 (Hp4 & Hw4 & ts4 & E4 & G4).
    split; [lia|]. split; [by apply Forall_app|]. exists (ts0 ++ replicate m (Sym 38) ++ Sym 59 :: ts4).
    rewrite E1, E2, <- E3, E4, <- !app_assoc. split; [done|]. cbn [scmd_of]. rewrite Hs. by constructor.
Qed.

Lemma may_parsepipe n p : parses n -> (p <= length buf)%nat -> (fuel p + 2 <= S n)%nat ->
  may (parsepipe buf (S n)) p (took g_pipe p).
Proof.
  unfold parses, fuel. intros (_ & IHp & IHe & _) Hp Hf. cbn [parsepipe]. apply may_bind. eapply may_mono; [apply IHe; lia|]. intros c p1 (Hp1 & Hw & ts1 & E1 & G1).
  apply may_bind, (may_peek_sym _ 124); try done; [lia| |].
  - intros p2 Hp2 E2 _. split; [lia|]. split; [done|]. exists ts1. rewrite E2. split; [done|]. by constructor.
  - intros p2 ts Hp2 E2 E2'. apply may_bind, (may_gettoken_sym _ 124 ts); [lia|done|]. intros _ p3 Hp3 E3.
    apply may_bind. eapply may_mono; [apply IHp; lia|]. intros r p4 (Hp4 & Hw4 & ts4 & E4 & G4).
    split; [lia|]. split; [by apply Forall_app|]. exists (ts1 ++ Sym 124 :: ts4).
    rewrite E1, E2, <- E3, E4, <- !app_assoc. split; [done|]. by constructor.
Qed.

Lemma may_parseexec n p : parses n -> (p <= length buf)%nat -> (fuel p + 1 <= S n)%nat ->
  may (parseexec buf (S n)) p (took g_exec p).
Proof.
  unfold parses, fuel. intros (_ & _ & _ & IHb) Hp Hf. cbn [parseexec]. apply may_bind, (may_peek_sym _ 40); try done.
  - intros p1 Hp1 E1 _. apply may_bind. eapply may_mono; [apply may_parseredirs; lia|].
    intros rs p2 (Hp2 & Hr & ts & E2 & G). apply may_bind. eapply may_mono; [apply (may_parseargs rs p)|].
    { split; [lia|]. split; [cbn; unfold MAXARGS; lia|]. split; [constructor|]. split; [done|]. exists ts. by rewrite <- E1. }
    intros [argv rs'] p3 (Hp3 & Hl & Ha & Hr' & ts' & E3 & G'). cbn [fst snd] in *. split; [lia|].
    rewrite words_redirect, scmd_redirect. split; [by apply Forall_app|]. exists ts'. split; [done|].
    cbn [scmd_of]. apply ge_args; [done|by rewrite length_map].
  - intros p1 ts Hp1 E1 E1'. assert (p1 < length buf)%nat.
    { destruct (decide (p1 = length buf)) as [->|]; [|lia]. unfold toks in E1'. by rewrite drop_ge in E1'. }
    eapply may_mono; [apply IHb; [lia|lia|by rewrite E1']|]. intros c p2 (Hp2 & Hw & ts2 & E2 & G). split; [lia|]. split; [done|].
    exists ts2. by rewrite E1, <- E1'.
Qed.

Lemma may_parseblock n p : parses n -> (p < length buf)%nat -> (fuel p <= S n)%nat -> peeks "(" (toks p) = true ->
  may (parseblock buf (S n)) p (took g_exec p).
Proof.
  unfold parses, fuel. intros (IHl & _) Hp Hf Hb. cbn [parseblock]. apply may_bind.
  apply (may_peek_sym _ 40); try done; [lia|intros p1 Hp1 E1 Hb'; congruence|].
  intros p1 ts Hp1 E1 E1'. cbn [negb]. apply may_bind, (may_gettoken_sym _ 40 ts); [lia|done|]. intros _ p2 Hp2 E2.
  apply may_bind. eapply may_mono; [apply IHl; lia|]. intros c p3 (Hp3 & Hw & ts3 & E3 & G).
  apply may_bind, (may_peek_sym _ 41); try done; [lia|intros; may_error|].
  intros p4 ts4 Hp4 E4 E4'. cbn [negb]. apply may_bind, (may_gettoken_sym _ 41 ts4); [lia|done|]. intros _ p5 Hp5 E5.
  apply may_bind. eapply may_mono; [apply may_parseredirs; lia|]. intros rs p6 (Hp6 & Hr & ts6 & E6 & G6).
  split; [lia|]. rewrite words_redirect, scmd_redirect. split; [by apply Forall_app|].
  exists (Sym 40 :: ts3 ++ Sym 41 :: ts6). split; [|by constructor].
  rewrite E1, <- E2, E3, E4, <- E5, E6. cbn [app]. by rewrite <- !app_assoc.
Qed.

Lemma may_parse n : parses n.
Proof.
  induction n as [|n IH]; [split_and!; unfold fuel; intros; lia|].
  split_and!; intros; [by apply may_parseline|by apply may_parsepipe|by apply may_parseexec|by apply may_parseblock].
Qed.

(** * Every command of the grammar is parsed *)

(** What may come after a part of a line. *)
Definition follow (l : list Z) (rest : list token) : Prop :=
  match rest with [] => True | Sym c :: _ => c ∈ l | Word _ :: _ => False end.

Lemma follow_weaken l l' rest : follow l rest -> l ⊆ l' -> follow l' rest.
Proof. intros H Hl. destruct rest as [|[w|c] r]; cbn in *; auto. Qed.

Lemma follow_peeks l s rest : follow l rest -> Forall (fun c => c <> 43) l -> Forall (fun c => is_one_of (str s) c = false) l -> peeks s rest = false.
Proof.
  intros H H43 Hl. destruct rest as [|[w|c] r]; [done|done|]. cbn in *.
  rewrite Forall_forall in *. destruct (Z.eqb_spec c 43) as [->|]; [by destruct (H43 43)|]. by apply Hl.
Qed.

Lemma wp_peek_is s b p (Q : bool -> nat -> Prop) : (p <= length buf)%nat -> peeks s (toks p) = b ->
  (forall p', (p <= p' <= length buf)%nat -> toks p' = toks p -> Q b p') -> wp (peek buf s) p Q.
Proof. intros Hp <- HQ. by apply wp_peek. Qed.

Lemma g_args_redir ts argv rs : g_args ts argv rs ->
  ts = [] /\ argv = [] /\ rs = [] \/
  (exists w ts' argv', ts = Word w :: ts' /\ argv = w :: argv' /\ g_args ts' argv' rs) \/
  (exists c mode fd f ts' rs', ts = Sym c :: Word f :: ts' /\ rs = mkSRedir f mode fd :: rs' /\ is_redir c mode fd /\ g_args ts' argv rs').
Proof. intros H. inversion H; subst; [left; done|right; left; eauto 10|right; right; do 6 eexists; eauto]. Qed.

(** What is left of [g_args] after its first redirections. *)
Definition no_redir (ts : list token) : Prop := match ts with Sym _ :: _ => False | _ => True end.

Lemma word_no_redir w q e : is_token buf (Word w) q e -> is_one_of (str "<>") (first (Word w)) = false.
Proof.
  intros Hw. destruct (is_one_of _ _) eqn:E; [|done]. destruct (sym_first "<>" (Word w) q e) as (c & ? & _); [by repeat constructor|done|done|done].
Qed.

Lemma peeks_word s p w ts : (p <= length buf)%nat -> toks p = Word w :: ts ->
  Forall (fun c => is_one_of symbols c = true) (str s) -> peeks s (toks p) = false.
Proof.
  intros Hp Et Hs. destruct (peeks s (toks p)) eqn:E; [|done]. rewrite Et in E. cbn [peeks] in E.
  destruct (gettoken_run p Hp) as (r & q & e & p' & _ & _ & Ht). rewrite Et in Ht. destruct Ht as (_ & Ht & _).
  by destruct (sym_first s (Word w) q e Hs E Ht) as (c & ? & _).
Qed.

Definition follow_exec : list Z := [124; 38; 59; 41].

Lemma wp_parseredirs p ts argv rs rest :
  (p <= length buf)%nat -> toks p = ts ++ rest -> g_args ts argv rs -> follow follow_exec rest ->
  wp (parseredirs buf) p (fun rs1 p' => (p <= p' <= length buf)%nat /\ exists ts2 rs2,
    toks p' = ts2 ++ rest /\ g_args ts2 argv rs2 /\ rs = map sr rs1 ++ rs2 /\ no_redir ts2).
Proof.
  intros Hp Et Hg Hfo. unfold parseredirs.
  apply (wp_while_loop (fun k rs1 p' => (length buf - p' < k)%nat /\ (p <= p' <= length buf)%nat /\ exists ts2 rs2,
    toks p' = ts2 ++ rest /\ g_args ts2 argv rs2 /\ rs = map sr rs1 ++ rs2)).
  { split; [lia|]. split; [lia|]. by exists ts, rs. }
  { intros rs1 p' [? _]. lia. }
  intros k rs1 p1 (Hk & Hp1 & ts1 & rs2 & E1 & G1 & ->).
  destruct (g_args_redir _ _ _ G1) as [(-> & -> & ->)|[(w & ts' & argv' & -> & -> & G2)|(c & mode & fd & f & ts' & rs' & -> & -> & Hr & G2)]].
  - apply wp_bind, (wp_peek_is _ false); [lia| |].
    + rewrite E1. apply (follow_peeks follow_exec); [done|by repeat constructor..].
    + intros p2 Hp2 E2. split; [lia|]. exists [], []. by rewrite E2.
  - apply wp_bind, (wp_peek_is _ false); [lia| |].
    + eapply peeks_word; [lia|exact E1|by repeat constructor].
    + intros p2 Hp2 E2. split; [lia|]. exists (Word w :: ts'), rs2. by rewrite E2.
  - apply wp_bind, (wp_peek_is _ true); [lia| |].
    + rewrite E1. by destruct Hr.
    + intros p2 Hp2 E2. apply wp_bind. eapply (wp_gettoken _ _ _); [lia|rewrite E2; exact E1|]. intros q e p3 _ Hp3 E3.
      apply wp_bind. eapply (wp_gettoken _ _ _); [lia|exact E3|]. intros q' e' p4 [-> _] Hp4 E4.
      assert (Hc : forall rs3, rs3 = rs1 ++ [mkRedir q' e' mode fd] -> (length buf - p4 < k)%nat /\ (p <= p4 <= length buf)%nat /\ exists ts2 rs2,
        toks p4 = ts2 ++ rest /\ g_args ts2 argv rs2 /\ map sr rs1 ++ mkSRedir (text buf (q', e')) mode fd :: rs' = map sr rs3 ++ rs2).
      { intros ? ->. split; [lia|]. split; [lia|]. exists ts', rs'. rewrite map_app, <- app_assoc. by split_and!. }
      destruct Hr; cbn; by apply Hc.
Qed.

Lemma wp_parseargs p rs0 ts argv rs rest :
  (p <= length buf)%nat -> toks p = ts ++ rest -> g_args ts argv rs -> no_redir ts -> follow follow_exec rest -> (length argv < MAXARGS)%nat ->
  wp (parseargs buf rs0) p (fun r p' => (p <= p' <= length buf)%nat /\ toks p' = rest /\
    map (text buf) r.1 = argv /\ map sr r.2 = map sr rs0 ++ rs).
Proof.
  intros Hp Et Hg Hn Hfo Hl. unfold parseargs.
  apply (wp_while_loop (fun k st p' => (length buf - p' < k)%nat /\ (p <= p' <= length buf)%nat /\ exists ts2 argv2 rs2,
    toks p' = ts2 ++ rest /\ g_args ts2 argv2 rs2 /\ no_redir ts2 /\ argv = map (text buf) st.1 ++ argv2 /\
    map sr rs0 ++ rs = map sr st.2 ++ rs2)).
  { split; [lia|]. split; [lia|]. by exists ts, argv, rs. }
  { intros st p' [? _]. lia. }
  clear Et Hg Hn. intros k [argv1 rs1] p1 (Hk & Hp1 & ts1 & argv2 & rs2 & E1 & G1 & Hn & Ea & Er). cbn [fst snd] in *.
  destruct (g_args_redir _ _ _ G1) as [(-> & -> & ->)|[(w & ts' & argv' & -> & -> & G2)|(c & mode & fd & f & ts' & rs' & -> & _)]]; [| |done].
  - rewrite app_nil_r in Ea, Er. cbn [app] in E1. apply wp_bind, wp_peek; [lia|]. intros p2 Hp2 E2.
    destruct (peeks _ _) eqn:Ek; [split; [lia|by split; [congruence|]]|]. rewrite E1 in Ek. destruct rest as [|t rest].
    + destruct (gettoken_run p2) as (r & q & e & p3 & Eg & Hp3 & Ht); [lia|]. rewrite E2, E1 in Ht. destruct Ht as [-> Ht].
      apply wp_bind. unfold wp. rewrite Eg. cbn. split; [lia|done].
    + exfalso. destruct t as [w|c]; [done|]. cbn [follow] in Hfo. unfold follow_exec in Hfo. cbn [peeks first] in Ek.
      rewrite !elem_of_cons in Hfo. by destruct Hfo as [->|[->|[->|[->|?%not_elem_of_nil]]]].
  - apply wp_bind, (wp_peek_is _ false); [lia|eapply peeks_word; [lia|exact E1|by repeat constructor]|]. intros p2 Hp2 E2.
    apply wp_bind. eapply (wp_gettoken _ _ _); [lia|rewrite E2; exact E1|]. intros q e p3 [-> _] Hp3 E3. cbn [code Z.eqb negb Pos.eqb].
    assert (Hlen : (length (argv1 ++ [(q, e)]) < MAXARGS)%nat).
    { rewrite Ea in Hl. rewrite length_app in *. rewrite length_map in Hl. cbn in *. lia. }
    rewrite (proj2 (Nat.leb_gt _ _) Hlen). apply wp_bind.
    eapply wp_mono; [by apply (wp_parseredirs p3 ts' argv' rs2 rest); [lia| | |]|].
    intros rs3 p4 (Hp4 & ts4 & rs4 & E4 & G4 & -> & Hn4). split; [lia|]. split; [lia|]. exists ts4, argv', rs4.
    cbn [fst snd]. rewrite !map_app, <- app_assoc. split_and!; try done. by rewrite Er, app_assoc.
Qed.

Definition parsed (m : nat -> M nat cmd) (k : nat) (fo : list Z) (ts : list token) (c : scmd) : Prop :=
  forall p rest n, (p <= length buf)%nat -> toks p = ts ++ rest -> follow fo rest -> (fuel p + k <= n)%nat ->
    wp (m n) p (fun t p' => (p <= p' <= length buf)%nat /\ toks p' = rest /\ scmd_of (text buf) t = c).
Definition follow_line : list Z := [41].
Definition follow_pipe : list Z := [38; 59; 41].

Lemma wp_peek_sym s c p ts (Q : bool -> nat -> Prop) : (p <= length buf)%nat -> str s = [c] -> c <> 43 -> toks p = Sym c :: ts ->
  (forall p', (p <= p' <= length buf)%nat -> toks p' = Sym c :: ts -> Q true p') -> wp (peek buf s) p Q.
Proof.
  intros Hp Es Hc Et HQ. apply (wp_peek_is _ true); [done| |intros p' Hp' E; apply HQ; congruence].
  rewrite Et. cbn [peeks first]. rewrite (proj2 (Z.eqb_neq _ _) Hc), Es, is_one_of_spec. apply bool_decide_eq_true. set_solver.
Qed.

Lemma wp_peek_no s fo p (Q : bool -> nat -> Prop) : (p <= length buf)%nat -> follow fo (toks p) ->
  forallb (fun c => negb (c =? 43) && negb (is_one_of (str s) c)) fo = true ->
  (forall p', (p <= p' <= length buf)%nat -> toks p' = toks p -> Q false p') -> wp (peek buf s) p Q.
Proof.
  intros Hp Hfo Hb HQ. apply (wp_peek_is _ false); [done| |done]. rewrite forallb_forall in Hb.
  apply (follow_peeks fo); [done|..]; apply Forall_forall; intros c Hc%list_elem_of_In%Hb;
    apply andb_true_iff in Hc as [Hc1%negb_true_iff Hc2%negb_true_iff]; [by apply Z.eqb_neq|done].
Qed.

Lemma wp_backs m p c0 rest : (p <= length buf)%nat -> toks p = replicate m (Sym 38) ++ rest -> follow [59; 41] rest ->
  wp (while_loop (S (length buf)) c0 (fun c =>
    let* b := peek buf "&" in
    if b then gettoken buf ;; ret (inl (BACK c)) else ret (inr c))) p
  (fun c p' => (p <= p' <= length buf)%nat /\ toks p' = rest /\ scmd_of (text buf) c = backs m (scmd_of (text buf) c0)).
Proof.
  intros Hp Et Hfo. apply (wp_while_loop (fun k c p' => (length buf - p' < k)%nat /\ (p <= p' <= length buf)%nat /\
    exists i j, (i + j = m)%nat /\ toks p' = replicate j (Sym 38) ++ rest /\ scmd_of (text buf) c = backs i (scmd_of (text buf) c0))).
  - split; [lia|]. split; [lia|]. by exists O, m.
  - intros c p' [? _]. lia.
  - intros k c p1 (Hk & Hp1 & i & [|j] & Hij & E1 & Ec).
    + apply wp_bind. eapply (wp_peek_no _ [59; 41]); [lia|by rewrite E1|done|]. intros p2 Hp2 E2.
      split; [lia|]. rewrite E2, E1. replace m with i by lia. done.
    + apply wp_bind. eapply (wp_peek_sym _ 38); [lia|done|done|exact E1|]. intros p2 Hp2 E2. apply wp_bind.
      eapply (wp_gettoken _ _ _); [lia|exact E2|]. intros q e p3 _ Hp3 E3. split; [lia|]. split; [lia|].
      exists (S i), j. split; [lia|]. split; [done|]. cbn [scmd_of]. by rewrite Ec.
Qed.

Lemma wp_parse_line ts c m : parsed (parsepipe buf) 2 follow_pipe ts c ->
  parsed (parseline buf) 3 follow_line (ts ++ replicate m (Sym 38)) (backs m c).
Proof.
  unfold parsed, fuel. intros IH p rest [|n] Hp Et Hfo Hn; [lia|]. rewrite <- app_assoc in Et. cbn [parseline].
  apply wp_bind. eapply wp_mono; [eapply IH; [done|exact Et| |lia]|].
  { destruct m; [eapply follow_weaken; [exact Hfo|unfold follow_line, follow_pipe; set_solver]|cbn; unfold follow_pipe; set_solver]. }
  intros c0 p0 (Hp0 & E0 & Ec0). apply wp_bind. eapply wp_mono; [apply (wp_backs m); [lia|exact E0|]|].
  { eapply follow_weaken; [exact Hfo|unfold follow_line; set_solver]. }
  intros c1 p1 (Hp1 & E1 & Ec1). apply wp_bind. eapply (wp_peek_no _ follow_line); [lia|by rewrite E1|done|].
  intros p2 Hp2 E2. split; [lia|]. split; congruence.
Qed.

Lemma wp_parse_list ts c m ts' c' : parsed (parsepipe buf) 2 follow_pipe ts c -> parsed (parseline buf) 3 follow_line ts' c' ->
  parsed (parseline buf) 3 follow_line (ts ++ replicate m (Sym 38) ++ Sym 59 :: ts') (SList (backs m c) c').
Proof.
  unfold parsed, fuel. intros IH IH' p rest [|n] Hp Et Hfo Hn; [lia|]. rewrite <- !app_assoc in Et. cbn [parseline].
  apply wp_bind. eapply wp_mono; [eapply IH; [done|exact Et| |lia]|].
  { destruct m; cbn; unfold follow_pipe; set_solver. }
  intros c0 p0 (Hp0 & E0 & Ec0). apply wp_bind. eapply wp_mono; [apply (wp_backs m); [lia|exact E0|cbn; set_solver]|].
  intros c1 p1 (Hp1 & E1 & Ec1). apply wp_bind. eapply (wp_peek_sym _ 59); [lia|done|done|exact E1|].
  intros p2 Hp2 E2. apply wp_bind. eapply (wp_gettoken _ _ _); [lia|exact E2|]. intros q e p3 _ Hp3 E3.
  apply wp_bind. eapply wp_mono; [eapply IH'; [lia|exact E3|done|lia]|]. intros r p4 (Hp4 & E4 & Ec4).
  split; [lia|]. split; [done|]. cbn [scmd_of]. congruence.
Qed.

Lemma wp_parse_pipe ts c : parsed (parseexec buf) 1 follow_exec ts c -> parsed (parsepipe buf) 2 follow_pipe ts c.
Proof.
  unfold parsed, fuel. intros IH p rest [|n] Hp Et Hfo Hn; [lia|]. cbn [parsepipe].
  apply wp_bind. eapply wp_mono; [eapply IH; [done|exact Et| |lia]|].
  { eapply follow_weaken; [exact Hfo|unfold follow_pipe, follow_exec; set_solver]. }
  intros c0 p0 (Hp0 & E0 & Ec0). apply wp_bind. eapply (wp_peek_no _ follow_pipe); [lia|by rewrite E0|done|].
  intros p2 Hp2 E2. split; [lia|]. split; congruence.
Qed.

Lemma wp_parse_pipes ts c ts' c' : parsed (parseexec buf) 1 follow_exec ts c -> parsed (parsepipe buf) 2 follow_pipe ts' c' ->
  parsed (parsepipe buf) 2 follow_pipe (ts ++ Sym 124 :: ts') (SPipe c c').
Proof.
  unfold parsed, fuel. intros IH IH' p rest [|n] Hp Et Hfo Hn; [lia|]. rewrite <- !app_assoc in Et. cbn [parsepipe].
  apply wp_bind. eapply wp_mono; [eapply IH; [done|exact Et|cbn; unfold follow_exec; set_solver|lia]|].
  intros c0 p0 (Hp0 & E0 & Ec0). apply wp_bind. eapply (wp_peek_sym _ 124); [lia|done|done|exact E0|].
  intros p2 Hp2 E2. apply wp_bind. eapply (wp_gettoken _ _ _); [lia|exact E2|]. intros q e p3 _ Hp3 E3.
  apply wp_bind. eapply wp_mono; [eapply IH'; [lia|exact E3|done|lia]|]. intros r p4 (Hp4 & E4 & Ec4).
  split; [lia|]. split; [done|]. cbn [scmd_of]. congruence.
Qed.

Lemma wp_parse_args ts argv rs : g_args ts argv rs -> (length argv < MAXARGS)%nat ->
  parsed (parseexec buf) 1 follow_exec ts (sredirect rs (SExec argv)).
Proof.
  unfold parsed. intros Hg Hl p rest [|n] Hp Et Hfo Hn; [lia|]. cbn [parseexec].
  assert (Hk : peeks "(" (toks p) = false).
  { destruct (g_args_redir _ _ _ Hg) as [(-> & _)|[(w & ts' & argv' & -> & _)|(c & mode & fd & f & ts' & rs' & -> & _ & Hr & _)]].
    - rewrite Et. by apply (follow_peeks follow_exec); [|repeat constructor..].
    - by eapply peeks_word; [|exact Et|repeat constructor].
    - rewrite Et. by destruct Hr. }
  apply wp_bind. eapply (wp_peek_is _ false); [done|done|]. intros p1 Hp1 E1. apply wp_bind.
  eapply wp_mono; [apply (wp_parseredirs p1 ts argv rs rest); [lia|congruence|done|done]|].
  intros rs1 p2 (Hp2 & ts2 & rs2 & E2 & G2 & -> & Hn2). apply wp_bind.
  eapply wp_mono; [by apply (wp_parseargs p2 rs1 ts2 argv rs2 rest); [lia|..]|].
  intros [a r] p3 (Hp3 & E3 & Ea & Er). cbn [fst snd] in *. split; [lia|]. split; [done|].
  rewrite scmd_redirect, Er. cbn [scmd_of]. by rewrite Ea.
Qed.

Lemma wp_parse_block ts c ts' rs : parsed (parseline buf) 3 follow_line ts c -> g_args ts' [] rs ->
  parsed (parseexec buf) 1 follow_exec (Sym 40 :: ts ++ Sym 41 :: ts') (sredirect rs c).
Proof.
  unfold parsed, fuel. intros IH Hg p rest n Hp Et Hfo Hn. rewrite <- app_comm_cons, <- app_assoc in Et.
  assert (p < length buf)%nat.
  { destruct (decide (p = length buf)) as [->|]; [|lia]. unfold toks in Et. by rewrite drop_ge in Et. }
  destruct n as [|[|n]]; [lia|lia|]. cbn [parseexec]. apply wp_bind. eapply (wp_peek_sym _ 40); [done|done|done|exact Et|].
  intros p1 Hp1 E1. cbn [parseblock]. apply wp_bind. eapply (wp_peek_sym _ 40); [lia|done|done|exact E1|].
  intros p2 Hp2 E2. cbn [negb]. apply wp_bind. eapply (wp_gettoken _ _ _); [lia|exact E2|]. intros q e p3 _ Hp3 E3.
  apply wp_bind. eapply wp_mono; [eapply IH; [lia|exact E3|cbn; unfold follow_line; set_solver|lia]|].
  intros c0 p4 (Hp4 & E4 & Ec). apply wp_bind. eapply (wp_peek_sym _ 41); [lia|done|done|exact E4|].
  intros p5 Hp5 E5. cbn [negb]. apply wp_bind. eapply (wp_gettoken _ _ _); [lia|exact E5|]. intros q' e' p6 _ Hp6 E6.
  apply wp_bind. eapply wp_mono; [by apply (wp_parseredirs p6 ts' [] rs rest); [lia|..]|].
  intros rs1 p7 (Hp7 & ts2 & rs2 & E7 & G2 & -> & Hn2). split; [lia|].
  inversion G2; subst; [|done]. rewrite scmd_redirect, app_nil_r. by split.
Qed.

Lemma wp_parse ts c : g_line ts c -> parsed (parseline buf) 3 follow_line ts c.
Proof.
  apply (grammar_ind (parsed (parseline buf) 3 follow_line) (parsed (parsepipe buf) 2 follow_pipe) (parsed (parseexec buf) 1 follow_exec));
    eauto using wp_parse_line, wp_parse_list, wp_parse_pipe, wp_parse_pipes, wp_parse_args, wp_parse_block.
Qed.
End tokens.

(** * The strings in the line after [nulterminate] *)

Lemma ends_words c : ends c = (words c).*2.
Proof. induction c; cbn [ends words]; rewrite ?fmap_app, ?IHc, ?IHc1, ?IHc2; done. Qed.

Lemma length_zeros l (m : bytes) : length (fold_left (fun m i => <[i := 0]> m) l m) = length m.
Proof. revert m. induction l as [|i l IH]; intros m; cbn; [done|]. by rewrite IH, length_insert. Qed.

Lemma lookup_zeros l : forall (m : bytes) k, (k < length m)%nat ->
  fold_left (fun m i => <[i := 0]> m) l m !! k = if decide (k ∈ l) then Some 0 else m !! k.
Proof.
  induction l as [|i l IH]; intros m k Hk; cbn [fold_left]; [by rewrite decide_False by set_solver|].
  rewrite IH by by rewrite length_insert. destruct (decide (k ∈ l)).
  - by rewrite decide_True by set_solver.
  - destruct (decide (k = i)) as [->|]; [rewrite decide_True by set_solver; by apply list_lookup_insert_eq|].
    rewrite decide_False by set_solver. by rewrite list_lookup_insert_ne.
Qed.

Lemma cstring_until w r : Forall (fun c => c <> 0) w -> cstring (w ++ 0 :: r) = w.
Proof. induction 1 as [|c w Hc Hw IH]; cbn; [done|]. by rewrite (proj2 (Z.eqb_neq _ _) Hc), IH. Qed.

Lemma lookup_text buf q k : (k < q.2 - q.1)%nat -> text buf q !! k = buf !! (q.1 + k)%nat.
Proof. intros Hk. unfold text, slice. by rewrite lookup_take_lt, lookup_drop by done. Qed.

(** A character of a word is not where [nulterminate] stores a 0. *)
Lemma word_kept buf c q k : Forall (at_word buf) (words c) -> q ∈ words c -> (q.1 <= k < q.2)%nat -> (k ∉ ends c).
Proof.
  intros Hc Hq Hk. rewrite ends_words, list_elem_of_fmap. intros (q' & -> & Hq'). rewrite Forall_forall in Hc.
  destruct (Hc _ Hq) as [Hpos Hch _], (Hc _ Hq') as [Hpos' _ He].
  destruct (lookup_lt_is_Some_2 buf q'.2) as [x Hx]; [lia|]. specialize (He x Hx).
  rewrite Forall_lookup in Hch. specialize (Hch (q'.2 - q.1)%nat x). rewrite lookup_text in Hch by lia.
  replace (q.1 + (q'.2 - q.1))%nat with q'.2 in Hch by lia. rewrite Hch in He; done.
Qed.

Lemma string_at_word buf c q : Forall (fun x => x <> 0) buf -> Forall (at_word buf) (words c) -> q ∈ words c ->
  string_at (nulterminate (buf ++ [0]) c) q = text buf q.
Proof.
  intros H0 Hc Hq. set (mem := nulterminate _ _).
  assert (Hl : length mem = S (length buf)) by (unfold mem, nulterminate; rewrite length_zeros, length_app; cbn; lia).
  pose proof (proj1 (Forall_forall _ _) Hc _ Hq) as [Hpos Hch _].
  assert (Hm : forall k, (k <= length buf)%nat -> mem !! k = if decide (k ∈ ends c) then Some 0 else (buf ++ [0]) !! k).
  { intros k Hk. unfold mem, nulterminate. apply lookup_zeros. rewrite length_app. cbn. lia. }
  unfold string_at. rewrite <- (take_drop (q.2 - q.1) (drop q.1 mem)), drop_drop.
  replace (q.1 + (q.2 - q.1))%nat with q.2 by lia. rewrite (drop_S mem 0 q.2).
  2:{ rewrite Hm by lia. rewrite decide_True; [done|]. rewrite ends_words. by apply list_elem_of_fmap_2. }
  assert (Et : take (q.2 - q.1) (drop q.1 mem) = text buf q).
  { apply list_eq. intros k. destruct (decide (k < q.2 - q.1)%nat) as [Hk|Hk].
    - rewrite lookup_text, lookup_take_lt, lookup_drop, Hm by lia.
      rewrite decide_False by (eapply word_kept; [done|done|lia]). by rewrite lookup_app_l by lia.
    - rewrite !lookup_ge_None_2; [done|unfold text, slice|]; rewrite length_take; lia. }
  rewrite Et, cstring_until; [done|]. apply Forall_take, Forall_drop, H0.
Qed.

Lemma scmd_of_ext rd rd' c : Forall (fun q => rd q = rd' q) (words c) -> scmd_of rd c = scmd_of rd' c.
Proof.
  induction c as [argv|c IH r|l IHl r IHr|l IHl r IHr|c IH]; cbn [words scmd_of]; rewrite ?Forall_app.
  - intros H. f_equal. apply map_ext_in. intros q Hq%list_elem_of_In. by apply (proj1 (Forall_forall _ _) H).
  - intros [H [Hr _]%Forall_cons]. by rewrite IH, Hr.
  - intros []. by rewrite IHl, IHr.
  - intros []. by rewrite IHl, IHr.
  - intros H. by rewrite IH.
Qed.

(** What is left to do after [parseline] has returned. *)
Lemma parsecmd_end buf t p : Forall (fun c => c <> 0) buf ->
  parseline buf (4 * length buf + 3) 0%nat = Ok t p -> took buf g_line 0 t p ->
  parsecmd buf 0%nat =
    if decide (toks buf p = []) then Ok (inl (t, nulterminate (buf ++ [0]) t)) (length buf)
    else Ok (inr (drop (skip buf p) buf)) (skip buf p).
Proof.
  intros H0 E (Hp & _). unfold parsecmd, bind at 1. rewrite E.
  destruct (peek_run buf H0 "" p) as (p' & Ep & Hp' & Et & Hiff); [lia|].
  assert (Es : p' = skip buf p) by (unfold peek, bind, get, put, ret in Ep; congruence).
  unfold bind at 1. rewrite Ep. unfold bind, get. rewrite <- Es. destruct (decide (toks buf p = [])) as [Hn|Hn].
  - by rewrite (proj1 Hiff Hn), Nat.eqb_refl.
  - destruct (Nat.eqb_spec p' (length buf)) as [E'|]; [|done]. by destruct (Hn (proj2 Hiff E')).
Qed.

Lemma scmd_of_strings buf t : Forall (fun c => c <> 0) buf -> Forall (at_word buf) (words t) ->
  scmd_of (string_at (nulterminate (buf ++ [0]) t)) t = scmd_of (text buf) t.
Proof. intros H0 Hw. apply scmd_of_ext, Forall_forall. intros q Hq. by apply string_at_word. Qed.

Lemma may_parseline_all buf : Forall (fun c => c <> 0) buf ->
  may (parseline buf (4 * length buf + 3)) 0%nat (took buf g_line 0).
Proof. intros H0. apply (proj1 (may_parse buf H0 _)); unfold fuel; lia. Qed.

Lemma wp_parseline_all buf c : Forall (fun c => c <> 0) buf -> g_line (lex [] buf) c ->
  wp (parseline buf (4 * length buf + 3)) 0%nat (fun t p => toks buf p = [] /\ scmd_of (text buf) t = c).
Proof.
  intros H0 Hc. eapply wp_mono; [apply (wp_parse buf H0 _ _ Hc 0%nat []); unfold fuel, toks; rewrite ?drop_0, ?app_nil_r; done || lia|].
  by intros t p (_ & ? & ?).
Qed.

Lemma parsecmd_panic buf msg : parseline buf (4 * length buf + 3) 0%nat = Panic msg -> parsecmd buf 0%nat = Panic msg.
Proof. intros E. unfold parsecmd, bind at 1. by rewrite E. Qed.

(** What the parser can return. *)
Lemma parsecmd_cases buf :
  Forall (fun c => c <> 0) buf ->
  (exists t mem p, parsecmd buf 0%nat = Ok (inl (t, mem)) p /\ g_line (lex [] buf) (scmd_of (string_at mem) t)) \/
  (exists rest p, parsecmd buf 0%nat = Ok (inr rest) p /\ rest <> [] /\ rest `suffix_of` buf) \/
  (exists msg, parsecmd buf 0%nat = Panic msg /\ msg ∈ syntax_errors).
Proof.
  intros H0. pose proof (may_parseline_all buf H0) as Hm. unfold may in Hm.
  destruct (parseline buf _ 0%nat) as [t p|msg| | | |] eqn:E; try done.
  - rewrite (parsecmd_end buf t p H0 E Hm). destruct Hm as (Hp & Hw & ts & Et & Hg). unfold toks in Et at 1. rewrite drop_0 in Et.
    case_decide as Hn.
    + left. do 3 eexists. split; [done|]. by rewrite scmd_of_strings, Et, Hn, app_nil_r.
    + right. left. do 2 eexists. split; [done|]. split; [|exists (take (skip buf p) buf); by rewrite take_drop].
      intros En. apply Hn. rewrite <- skip_toks. unfold toks. by rewrite En.
  - right. right. exists msg. split; [by apply parsecmd_panic|done].
Qed.

Lemma parsecmd_complete buf c :
  Forall (fun c => c <> 0) buf -> g_line (lex [] buf) c ->
  exists t mem p, parsecmd buf 0%nat = Ok (inl (t, mem)) p /\ scmd_of (string_at mem) t = c.
Proof.
  intros H0 Hc. pose proof (wp_parseline_all buf c H0 Hc) as Hwp. pose proof (may_parseline_all buf H0) as Hm.
  unfold may, wp in Hm, Hwp. destruct (parseline buf _ 0%nat) as [t p|msg| | | |] eqn:E; try done. destruct Hwp as [En Ec].
  rewrite (parsecmd_end buf t p H0 E Hm), decide_True by done. destruct Hm as (_ & Hw & _).
  do 3 eexists. split; [done|]. by rewrite scmd_of_strings.
Qed.

(** C32: the shell's parser ends.  Whatever line it is given, it returns a command
    and the memory of the line, or what is left of the line after a command, or
    reports one of its errors and exits. *)
Theorem parsecmd_ends buf :
  Forall (fun c => c <> 0) buf ->
  (exists t mem p, parsecmd buf 0%nat = Ok (inl (t, mem)) p) \/
  (exists rest p, parsecmd buf 0%nat = Ok (inr rest) p /\ rest <> [] /\ rest `suffix_of` buf) \/
  (exists msg, parsecmd buf 0%nat = Panic msg /\ msg ∈ syntax_errors).
Proof. intros H0. destruct (parsecmd_cases buf H0) as [(t & mem & p & E & _)|H]; [by left; eauto|by right]. Qed.

(** C16: the shell's parser decides its grammar.  It returns a command exactly when
    the tokens of the line form a line of the grammar, and then it is the
    command of the grammar, the words of which are the strings in memory
    after [nulterminate]. *)
Theorem parsecmd_correct buf :
  Forall (fun c => c <> 0) buf ->
  forall c, g_line (lex [] buf) c <->
    exists t mem p, parsecmd buf 0%nat = Ok (inl (t, mem)) p /\ scmd_of (string_at mem) t = c.
Proof.
  intros H0 c. split; [by apply parsecmd_complete|]. intros (t & mem & p & E & <-).
  destruct (parsecmd_cases buf H0) as [(t' & mem' & p' & E' & Hg)|[(? & ? & E' & _)|(? & E' & _)]]; rewrite E in E'; try discriminate.
  by injection E' as <- <- <-.
Qed.

Definition demo_line : bytes := str "(ls|wc)>out; grep a b&" ++ [10].

Lemma parsecmd_ends_witness : exists t mem p, parsecmd demo_line 0%nat = Ok (inl (t, mem)) p.
Proof.
  destruct (parsecmd_ends demo_line) as [H|[(rest & p & H & _)|(msg & H & _)]]; [|exact H|..].
  - apply (bool_decide_unpack (Forall (fun c => c <> 0) demo_line)). vm_compute. exact I.
  - vm_compute in H. discriminate H.
  - vm_compute in H. discriminate H.
Defined.

Lemma parsecmd_correct_witness :
  g_line (lex [] demo_line)
    (SList (SRedir (SPipe (SExec [str "ls"]) (SExec [str "wc"])) (str "out") 513 1)
       (SBack (SExec [str "grep"; str "a"; str "b"]))).
Proof.
  apply (parsecmd_correct demo_line).
  - apply (bool_decide_unpack (Forall (fun c => c <> 0) demo_line)). vm_compute. exact I.
  - do 3 eexists. split; vm_compute; reflexivity.
Defined.
