(* ===== verification/ShellRun.v ===== *)
(** sh.c: what the processes of a command have as standard input and output.

    The system calls act on the descriptors of a process as the handlers of
    sysfile.c do: a new descriptor is the first free one, fork copies them. *)
From S2P Require Import Prelude Layout CString Ulib User Shell ShellSpec.

(** * System calls on descriptors *)

Inductive ofile := OFile (path : bytes) (mode : Z) | OPipeR (n : nat) | OPipeW (n : nat) | OTerm (n : nat).
Local Abbreviation fdtab := (list (option ofile)).

(** What can be seen of a run: the programs that are started, with their
    descriptors, output, and processes that wait, with theirs. *)
Inductive event :=
| EExec (argv : list bytes) (t : fdtab)
| EWrite (f : option ofile) (s : bytes)
| EChdir (dir : bytes)
| EWait (t : fdtab).

(** How many pipes have been made, and what can still be read from the terminal. *)
Record world := mkWorld { w_pipes : nat; w_input : bytes }.
Definition new_pipe (w : world) : world := mkWorld (S (w_pipes w)) (w_input w).

Section run.
Context (exec_ok : bytes -> bool) (open_ok : bytes -> Z -> bool) (chdir_ok : bytes -> bool).

(** The events of a program and of the processes it makes, those of a child
    before those of its parent.  The processes run at the same time, but none
    can change the descriptors of another.  What a program does after [exec]
    is not looked at: it does not read from the terminal, and the shell reads
    from nothing else, and does not call [fstat]. *)
Fixpoint eval {A} (p : prog A) (t : fdtab) (w : world) : list event * world :=
  match p with
  | Ret _ | Exit_ | Undef => ([], w)
  | Call c k =>
      match c in sys R return (R -> prog A) -> list event * world with
      | Fork => fun k =>
          let child := eval (k 0) t w in
          let parent := eval (k 1) t child.2 in
          (child.1 ++ parent.1, parent.2)
      | Wait => fun k => let r := eval (k 1) t w in (EWait t :: r.1, r.2)
      | Exec path argv => fun k => if exec_ok path then ([EExec argv t], w) else eval (k (-1)) t w
      | Open path mode => fun k =>
          if open_ok path mode then let r := fd_alloc (OFile path mode) t in eval (k r.1) r.2 w
          else eval (k (-1)) t w
      | Close fd => fun k => eval (k 0) (fd_close fd t) w
      | Dup fd => fun k =>
          match fd_get fd t with
          | Some f => let r := fd_alloc f t in eval (k r.1) r.2 w
          | None => eval (k (-1)) t w
          end
      | Pipe => fun k =>
          let r0 := fd_alloc (OPipeR (w_pipes w)) t in
          let r1 := fd_alloc (OPipeW (w_pipes w)) r0.2 in
          if r1.1 <? 0 then eval (k None) t w else eval (k (Some (r0.1, r1.1))) r1.2 (new_pipe w)
      | Read _ n => fun k =>
          let s := take (Z.to_nat n) (w_input w) in
          eval (k (Z.of_nat (length s), s)) t (mkWorld (w_pipes w) (drop (Z.to_nat n) (w_input w)))
      | Write fd s => fun k =>
          let r := eval (k (Z.of_nat (length s))) t w in (EWrite (fd_get fd t) s :: r.1, r.2)
      | Fstat _ => fun k => eval (k None) t w
      | Chdir dir => fun k =>
          let r := eval (k (if chdir_ok dir then 0 else -1)) t w in (EChdir dir :: r.1, r.2)
      | Unlink _ | Mkdir _ | Link _ _ | Mknod _ _ _ | Kill _ | Sleep _ => fun k => eval (k (-1)) t w
      end k
  end.

(** * What a command means *)

(** Standard input, output and error output, and no other descriptor. *)
Definition std (i o e : ofile) : fdtab := Some i :: Some o :: Some e :: replicate 13 None.

(** The programs of a command, with [i], [o] and [e] for the three descriptors. *)
Fixpoint layout (c : scmd) (i o e : ofile) (w : world) : list event * world :=
  match c with
  | SExec [] => ([], w)
  | SExec (a :: argv) =>
      ([if exec_ok a then EExec (a :: argv) (std i o e)
        else EWrite (Some e) (str "exec " ++ a ++ str " failed" ++ [10])], w)
  | SRedir c file mode fd =>
      if open_ok file mode then
        if fd =? 0 then layout c (OFile file mode) o e w else layout c i (OFile file mode) e w
      else ([EWrite (Some e) (str "open " ++ file ++ str " failed" ++ [10])], w)
  | SPipe l r =>
      let x := layout l i (OPipeW (w_pipes w)) e (new_pipe w) in
      let y := layout r (OPipeR (w_pipes w)) o e x.2 in
      (x.1 ++ y.1 ++ [EWait (std i o e); EWait (std i o e)], y.2)
  | SList l r =>
      let x := layout l i o e w in
      let y := layout r i o e x.2 in
      (x.1 ++ EWait (std i o e) :: y.1, y.2)
  | SBack c => layout c i o e w
  end.

Fixpoint redirs_ok (c : scmd) : Prop :=
  match c with
  | SExec _ => True
  | SRedir c _ _ fd => (fd = 0 \/ fd = 1) /\ redirs_ok c
  | SPipe l r | SList l r => redirs_ok l /\ redirs_ok r
  | SBack c => redirs_ok c
  end.

(** * Running the calls *)

Lemma eval_say {A} fd pre post s (k : prog A) t n :
  Forall (fun c => c <> 37) pre -> Forall (fun c => c <> 37) post ->
  eval (say fd (pre ++ [37; 115] ++ post) s k) t n =
    (EWrite (fd_get fd t) (pre ++ s ++ post) :: (eval k t n).1, (eval k t n).2).
Proof. intros H1 H2. unfold say. rewrite printf_string by done. reflexivity. Qed.

Lemma eval_fork1 {A} (k : Z -> prog A) t n :
  eval (fork1 k) t n = ((eval (k 0) t n).1 ++ (eval (k 1) t (eval (k 0) t n).2).1, (eval (k 1) t (eval (k 0) t n).2).2).
Proof. reflexivity. Qed.
Lemma eval_wait {A} (k : Z -> prog A) t n :
  eval (Call Wait k) t n = (EWait t :: (eval (k 1) t n).1, (eval (k 1) t n).2).
Proof. reflexivity. Qed.
Lemma eval_close {A} fd (k : Z -> prog A) t n : eval (Call (Close fd) k) t n = eval (k 0) (fd_close fd t) n.
Proof. reflexivity. Qed.
Lemma eval_open {A} path mode (k : Z -> prog A) t n :
  eval (Call (Open path mode) k) t n =
    if open_ok path mode then eval (k (fd_alloc (OFile path mode) t).1) (fd_alloc (OFile path mode) t).2 n
    else eval (k (-1)) t n.
Proof. reflexivity. Qed.
Lemma eval_exec {A} path argv (k : Z -> prog A) t n :
  eval (Call (Exec path argv) k) t n = if exec_ok path then ([EExec argv t], n) else eval (k (-1)) t n.
Proof. reflexivity. Qed.

(** A pipe takes the descriptors 3 and 4. *)
Definition piped (i o e : ofile) (n : nat) : fdtab :=
  Some i :: Some o :: Some e :: Some (OPipeR n) :: Some (OPipeW n) :: replicate 11 None.
Lemma eval_pipe {A} (k : option (Z * Z) -> prog A) i o e n :
  eval (Call Pipe k) (std i o e) n = eval (k (Some (3, 4))) (piped i o e (w_pipes n)) (new_pipe n).
Proof. reflexivity. Qed.

Lemma eval_left {A} (k : prog A) i o e n m :
  eval (call* _ := Close 1 in call* _ := Dup 4 in call* _ := Close 3 in call* _ := Close 4 in k) (piped i o e n) m =
  eval k (std i (OPipeW n) e) m.
Proof. reflexivity. Qed.
Lemma eval_right {A} (k : prog A) i o e n m :
  eval (call* _ := Close 0 in call* _ := Dup 3 in call* _ := Close 3 in call* _ := Close 4 in k) (piped i o e n) m =
  eval k (std (OPipeR n) o e) m.
Proof. reflexivity. Qed.
Lemma eval_parent {A} (k : prog A) i o e n m :
  eval (call* _ := Close 3 in call* _ := Close 4 in k) (piped i o e n) m = eval k (std i o e) m.
Proof. reflexivity. Qed.

Lemma eval_exec_cmd mem a argv i o e n :
  eval (runcmd mem (EXEC (a :: argv))) (std i o e) n = layout (SExec (map (string_at mem) (a :: argv))) i o e n.
Proof.
  cbn [runcmd map layout]. rewrite eval_exec. destruct (exec_ok _); [done|].
  change (str "exec %s failed" ++ [10]) with (str "exec " ++ [37; 115] ++ str " failed" ++ [10]).
  rewrite eval_say by (vm_compute; repeat constructor; discriminate). reflexivity.
Qed.

Lemma eval_redir mem c r i o e n :
  r_fd r = 0 \/ r_fd r = 1 ->
  (forall i o, eval (runcmd mem c) (std i o e) n = layout (scmd_of (string_at mem) c) i o e n) ->
  eval (runcmd mem (REDIR c r)) (std i o e) n = layout (scmd_of (string_at mem) (REDIR c r)) i o e n.
Proof.
  intros Hfd IH. cbn [runcmd scmd_of layout]. rewrite eval_close, eval_open. set (file := string_at mem _).
  destruct (open_ok file (r_mode r)).
  - destruct Hfd as [-> | ->]; [apply (IH (OFile file (r_mode r)) o)|apply (IH i (OFile file (r_mode r)))].
  - change (str "open %s failed" ++ [10]) with (str "open " ++ [37; 115] ++ str " failed" ++ [10]).
    cbn [Z.ltb Z.compare]. rewrite eval_say by (vm_compute; repeat constructor; discriminate). by destruct Hfd as [-> | ->].
Qed.

Lemma eval_runcmd mem c : forall i o e n, redirs_ok (scmd_of (string_at mem) c) ->
  eval (runcmd mem c) (std i o e) n = layout (scmd_of (string_at mem) c) i o e n.
Proof.
  induction c as [argv|c IH r|l IHl r IHr|l IHl r IHr|c IH]; intros i o e n Hr; cbn [scmd_of redirs_ok] in Hr.
  - destruct argv as [|a argv]; [done|]. apply eval_exec_cmd.
  - destruct Hr as [Hfd Hr]. apply eval_redir; [done|]. intros. by apply IH.
  - destruct Hr as [Hl Hr]. cbn [runcmd scmd_of layout]. rewrite eval_pipe, eval_fork1. cbn [Z.eqb].
    rewrite eval_left, IHl, eval_fork1 by done. cbn [Z.eqb]. rewrite eval_right, IHr, eval_parent, !eval_wait by done. reflexivity.
  - destruct Hr as [Hl Hr]. cbn [runcmd scmd_of layout]. rewrite eval_fork1. cbn [Z.eqb]. by rewrite eval_wait, IHl, IHr.
  - cbn [runcmd scmd_of layout]. rewrite eval_fork1. cbn [Z.eqb]. rewrite IH by done. cbn [eval fst snd].
    rewrite app_nil_r. by destruct (layout _ _ _ _ _).
Qed.
End run.

(** * From the line to the processes *)

Lemma redirs_ok_redirect ts argv rs c : g_args ts argv rs -> redirs_ok c -> redirs_ok (sredirect rs c).
Proof.
  intros Hg. revert c. induction Hg as [|w ts argv rs Hg IH|x mode fd f ts argv rs Hr Hg IH]; intros c Hc; cbn [sredirect fold_left]; [done|by apply IH|].
  apply IH. cbn. split; [|done]. destruct Hr; auto.
Qed.

Lemma redirs_ok_backs n c : redirs_ok c -> redirs_ok (backs n c).
Proof. unfold backs. induction n; cbn; auto. Qed.

Lemma g_line_redirs ts c : g_line ts c -> redirs_ok c.
Proof.
  apply (grammar_ind (fun _ => redirs_ok) (fun _ => redirs_ok) (fun _ => redirs_ok)).
  - intros. by apply redirs_ok_backs.
  - intros. split; [by apply redirs_ok_backs|done].
  - done.
  - done.
  - intros ts' argv rs Hg _. by eapply redirs_ok_redirect.
  - intros. by eapply redirs_ok_redirect.
Qed.

(** * A session *)

(** The next line of the input, as [gets] reads it, and the rest. *)
Fixpoint next_line (room : nat) (inp : bytes) : bytes * bytes :=
  match room, inp with
  | S room, c :: inp =>
      if (c =? 10) || (c =? 13) then ([c], inp) else let x := next_line room inp in (c :: x.1, x.2)
  | _, _ => ([], inp)
  end.

(** What the shell prints for a line that is not of the grammar. *)
Inductive complains (buf : bytes) : list bytes -> Prop :=
| complains_left rest :
    rest <> [] -> rest `suffix_of` buf -> complains buf [str "leftovers: " ++ rest ++ [10]; str "syntax" ++ [10]]
| complains_msg msg : msg ∈ syntax_errors -> complains buf [str msg ++ [10]].

Section session.
Context (exec_ok : bytes -> bool) (open_ok : bytes -> Z -> bool) (chdir_ok : bytes -> bool) (i o e : ofile).

Definition prompt : event := EWrite (Some e) (str "$ ").
Definition cd_events (dir : bytes) : list event :=
  EChdir dir :: if chdir_ok dir then [] else [EWrite (Some e) (str "cannot cd " ++ dir ++ [10])].

(** The events of the first lines of the input. *)
Inductive session : nat -> world -> list event -> Prop :=
| session_more w : session 0 w []
| session_eof n w : nth0 (next_line 99 (w_input w)).1 0 = 0 -> session (S n) w [prompt]
| session_cd n w line rest evs :
    next_line 99 (w_input w) = (line, rest) -> nth0 line 0 <> 0 -> is_cd (cstring line) = true ->
    session n (mkWorld (w_pipes w) rest) evs ->
    session (S n) w (prompt :: cd_events (drop 3 (take (length (cstring line) - 1) (cstring line))) ++ evs)
| session_cmd n w line rest c evs :
    next_line 99 (w_input w) = (line, rest) -> nth0 line 0 <> 0 -> is_cd (cstring line) = false ->
    g_line (lex [] (cstring line)) c ->
    session n (layout exec_ok open_ok c i o e (mkWorld (w_pipes w) rest)).2 evs ->
    session (S n) w (prompt :: (layout exec_ok open_ok c i o e (mkWorld (w_pipes w) rest)).1 ++ EWait (std i o e) :: evs)
| session_bad n w line rest out evs :
    next_line 99 (w_input w) = (line, rest) -> nth0 line 0 <> 0 -> is_cd (cstring line) = false ->
    (forall c, ~ g_line (lex [] (cstring line)) c) -> complains (cstring line) out ->
    session n (mkWorld (w_pipes w) rest) evs ->
    session (S n) w (prompt :: map (EWrite (Some e)) out ++ EWait (std i o e) :: evs).

Local Abbreviation ev := (eval exec_ok open_ok chdir_ok).

Lemma eval_gets {A} (k : bytes -> prog A) room : forall buf w,
  ev (gets_from room buf k) (std i o e) w =
  ev (k (buf ++ (next_line room (w_input w)).1)) (std i o e) (mkWorld (w_pipes w) (next_line room (w_input w)).2).
Proof.
  induction room as [|room IH]; intros buf [np inp]; cbn [gets_from next_line w_input w_pipes fst snd].
  - by rewrite app_nil_r.
  - destruct inp as [|c inp]; [cbn [next_line fst snd]; rewrite app_nil_r; reflexivity|].
    change (ev (call* r := Read 0 1 in _) _ _) with
      (ev (if (c =? 10) || (c =? 13) then k (buf ++ [c]) else gets_from room (buf ++ [c]) k) (std i o e) (mkWorld np inp)).
    destruct ((c =? 10) || (c =? 13)); [done|]. rewrite IH. cbn [w_input w_pipes fst snd]. by rewrite <- app_assoc.
Qed.

Lemma eval_getcmd {A} (k : option bytes -> prog A) w :
  let line := (next_line 99 (w_input w)).1 in
  let r := ev (k (if nth0 line 0 =? 0 then None else Some (cstring line))) (std i o e)
             (mkWorld (w_pipes w) (next_line 99 (w_input w)).2) in
  ev (getcmd 100 k) (std i o e) w = (prompt :: r.1, r.2).
Proof.
  intros line r. unfold getcmd. change (100 - 1)%nat with 99%nat.
  change (ev (call* _ := Write 2 (str "$ ") in ?p) (std i o e) w) with (prompt :: (ev p (std i o e) w).1, (ev p (std i o e) w).2).
  by rewrite (eval_gets _ 99 [] w).
Qed.

Lemma eval_complain buf k t : forall w, Forall (fun c => c <> 0) buf ->
  parsecmd buf 0%nat = k -> (forall c mem p, k <> Ok (inl (c, mem)) p) ->
  exists out, complains buf out /\
    ev (match k with
        | Ok (inl (c, mem)) _ => runcmd mem c
        | Ok (inr rest) _ => say 2 (str "leftovers: %s" ++ [10]) rest (panic_ (str "syntax"))
        | Panic msg => panic_ (str msg)
        | _ => Exit_
        end) t w = (map (EWrite (fd_get 2 t)) out, w).
Proof.
  intros w H0 E Hk. destruct (parsecmd_cases buf H0) as [(t' & mem & p & E' & Hg)|[(rest & p & E' & Hne & Hsuf)|(msg & E' & Hin)]]; rewrite E' in E; subst k.
  - by destruct (Hk t' mem p).
  - eexists. split; [by eapply complains_left|]. change (str "leftovers: %s" ++ [10]) with (str "leftovers: " ++ [37; 115] ++ [10]).
    rewrite eval_say by (vm_compute; repeat constructor; discriminate). unfold panic_.
    change (str "%s" ++ [10]) with ([] ++ [37; 115] ++ [10]). rewrite eval_say by (vm_compute; repeat constructor; discriminate). reflexivity.
  - eexists. split; [by eapply complains_msg|]. unfold panic_.
    change (str "%s" ++ [10]) with ([] ++ [37; 115] ++ [10]). rewrite eval_say by (vm_compute; repeat constructor; discriminate). reflexivity.
Qed.

(** The child that runs a line. *)
Definition child (buf : bytes) : prog unit :=
  match parsecmd buf O with
  | Ok (inl (c, mem)) _ => runcmd mem c
  | Ok (inr rest) _ => say 2 (str "leftovers: %s" ++ [10]) rest (panic_ (str "syntax"))
  | Panic msg => panic_ (str msg)
  | _ => Exit_
  end.

Lemma eval_child buf w : Forall (fun c => c <> 0) buf ->
  (exists c, g_line (lex [] buf) c /\ ev (child buf) (std i o e) w = layout exec_ok open_ok c i o e w) \/
  (exists out, (forall c, ~ g_line (lex [] buf) c) /\ complains buf out /\
     ev (child buf) (std i o e) w = (map (EWrite (Some e)) out, w)).
Proof.
  intros H0. destruct (parsecmd_cases buf H0) as [(t & mem & p & E & Hg)|Hbad].
  - left. eexists. split; [exact Hg|]. unfold child. rewrite E. apply eval_runcmd. by eapply g_line_redirs.
  - right. assert (Hk : forall c mem p, parsecmd buf 0%nat <> Ok (inl (c, mem)) p).
    { intros c mem p E. destruct Hbad as [(? & ? & E' & _)|(? & E' & _)]; by rewrite E in E'. }
    destruct (eval_complain buf _ (std i o e) w H0 eq_refl Hk) as (out & Hc & E). exists out. split; [|done].
    intros c (t & mem & p & E' & _)%(parsecmd_complete buf c H0). by eapply Hk.
Qed.

Lemma eval_main_loop n : forall w, session n w (ev (main_loop n) (std i o e) w).1.
Proof.
  induction n as [|n IH]; intros w; [constructor|]. cbn [main_loop]. rewrite eval_getcmd.
  destruct (next_line 99 (w_input w)) as [line rest] eqn:El. cbn [fst snd].
  destruct (Z.eqb_spec (nth0 line 0) 0) as [E0|E0]; [apply session_eof; by rewrite El|].
  assert (Hb : Forall (fun c => c <> 0) (cstring line)) by apply cstring_nonzero.
  set (buf := cstring line) in *. destruct (is_cd buf) eqn:Ecd.
  - set (dir := drop 3 (take (length buf - 1) buf)). pose proof (session_cd n w line rest) as H. fold buf dir in H.
    specialize (fun evs => H evs El E0 Ecd). cbn [fst snd eval]. unfold cd_events in H. destruct (chdir_ok dir).
    + apply (H _ (IH _)).
    + change (-1 <? 0) with true. cbn match. change (str "cannot cd %s" ++ [10]) with (str "cannot cd " ++ [37; 115] ++ [10]).
      rewrite eval_say by (vm_compute; repeat constructor; discriminate). apply (H _ (IH _)).
  - rewrite eval_fork1. cbn [Z.eqb]. fold (child buf). rewrite eval_wait. cbn [fst snd].
    destruct (eval_child buf (mkWorld (w_pipes w) rest) Hb) as [(c & Hc & ->)|(out & Hno & Hco & ->)].
    + by eapply session_cmd.
    + by eapply session_bad.
Qed.

(** Opening the console fills the descriptors below 3. *)
Definition console_file : ofile := OFile (str "console") O_RDWR.
Lemma eval_open_console n k t fd w : open_ok (str "console") O_RDWR = true -> lowest t = Some fd ->
  ev (open_console (S n) k) t w =
  if (3 <=? fd)%nat then ev k (fd_close (Z.of_nat fd) (<[fd := Some console_file]> t)) w
  else ev (open_console n k) (<[fd := Some console_file]> t) w.
Proof.
  intros Ho Hl. cbn [open_console]. rewrite eval_open, Ho. unfold fd_alloc. rewrite Hl. cbn [fst snd].
  rewrite (proj2 (Z.ltb_ge _ 0)) by lia. by destruct (Nat.leb_spec 3 fd), (Z.leb_spec 3 (Z.of_nat fd)); try lia.
Qed.

Definition start_fds (l : list ofile) : fdtab := map Some l ++ replicate (16 - length l) None.
End session.

(** C17: the shell does what its input says.  It starts with at most three open
    descriptors, takes the console for the missing ones, and prints a prompt for
    each line.  A line of the grammar makes it start exactly the programs of the
    command: each has three open descriptors, a file or the end of a pipe where
    the line redirects or has a pipe, those of the shell otherwise.  No process
    that starts a program or waits keeps an end of a pipe that is not its
    standard input or output, so readers see the end of their input.  The shell
    changes its directory for cd, reports a line that is not of the grammar and
    goes on, and stops at the end of the input. *)
Theorem shell_session exec_ok open_ok chdir_ok l n w :
  (length l <= 3)%nat -> open_ok (str "console") O_RDWR = true ->
  let f k := nth k l console_file in
  session exec_ok open_ok chdir_ok (f 0%nat) (f 1%nat) (f 2%nat) n w (eval exec_ok open_ok chdir_ok (main n) (start_fds l) w).1.
Proof.
  intros Hl Ho f. assert (E : eval exec_ok open_ok chdir_ok (main n) (start_fds l) w =
    eval exec_ok open_ok chdir_ok (main_loop n) (std (f 0%nat) (f 1%nat) (f 2%nat)) w).
  { unfold main. destruct l as [|a [|b [|c [|? ?]]]]; [| | | |cbn in Hl; lia];
      repeat (erewrite eval_open_console by (done || reflexivity); cbn [Nat.leb]); reflexivity. }
  rewrite E. apply eval_main_loop.
Qed.

Lemma shell_session_witness :
  session (fun _ => true) (fun _ _ => true) (fun _ => true) (OTerm 0) console_file console_file 2
    (mkWorld 7 (str "cat f|wc" ++ [10]))
    [prompt console_file;
     EExec [str "cat"; str "f"] (std (OTerm 0) (OPipeW 7) console_file);
     EExec [str "wc"] (std (OPipeR 7) console_file console_file);
     EWait (std (OTerm 0) console_file console_file); EWait (std (OTerm 0) console_file console_file);
     EWait (std (OTerm 0) console_file console_file);
     prompt console_file].
Proof.
  apply (shell_session (fun _ => true) (fun _ _ => true) (fun _ => true) [OTerm 0] 2 (mkWorld 7 (str "cat f|wc" ++ [10])));
    [cbn; lia|reflexivity].
Defined.
