(* ===== verification/UserRun.v ===== *)
(** Running a user program on a tree of files: what the system calls of User.v do
    for a process that only reads files and writes to its terminal.  The tree has no
    symbolic links. *)
From S2P Require Import Prelude Layout CString Fs FsDir Ulib User.

(** * Files *)

(** A file, or a directory: the numbers of its "." and ".." and its other
    entries, of which [None] is one whose number is 0. *)
Inductive node :=
| NFile (ino type : Z) (content : bytes)
| NDir (self parent : Z) (ents : list (option (Z * bytes * node))).

Local Abbreviation entry := (option (Z * bytes * node)).

Definition dot : bytes := str ".".
Definition dotdot : bytes := str "..".

(** A file with the directories above it, the innermost first. *)
Definition place : Type := list node.

(** All entries of the directory [d] below [up]. *)
Definition entries (d : node) (up : place) : list entry :=
  match d with
  | NFile _ _ _ => []
  | NDir self parent ents => Some (self, dot, d) :: Some (parent, dotdot, hd d up) :: ents
  end.

Definition entry_bytes (e : entry) : bytes :=
  match e with
  | None => replicate 16 0
  | Some (inum, name, _) => enc_dirent (mkDirent inum (strncpy name 14))
  end.

Definition content (d : node) (up : place) : bytes :=
  match d with NFile _ _ c => c | NDir _ _ _ => concat (map entry_bytes (entries d up)) end.
Definition type_of (d : node) : Z := match d with NFile _ t _ => t | NDir _ _ _ => T_DIR end.
Definition size_of (d : node) : Z :=
  match d with NFile _ _ c => Z.of_nat (length c) | NDir _ _ ents => 16 * Z.of_nat (2 + length ents) end.

Definition ino_of (d : node) : Z := match d with NFile i _ _ => i | NDir self _ _ => self end.

Fixpoint child (name : bytes) (ents : list entry) : option node :=
  match ents with
  | [] => None
  | Some (_, n, c) :: ents => if decide (n = name) then Some c else child name ents
  | None :: ents => child name ents
  end.

(** One component of a path. *)
Definition walk1 (pl : place) (name : bytes) : option place :=
  match pl with
  | NDir _ _ ents :: up =>
      if decide (name = dot) then Some pl
      else if decide (name = dotdot) then Some (match up with [] => pl | _ => up end)
      else (.:: pl) <$> child (take 14 name) ents
  | _ => None
  end.

Definition walk (pl : place) (names : list bytes) : option place :=
  fold_left (fun pl name => pl ≫= fun pl => walk1 pl name) names (Some pl).

(** * Running a program *)

Inductive ofile := Term | Open_ (pl : place) (off : nat).

(** The open files, and what was written, with its descriptor. *)
Definition state : Type := list (option ofile) * list (Z * bytes).

Section world.
Context (root cwd : place).

Definition resolve (path : bytes) : option place :=
  walk (if hd0 path =? 47 then root else cwd) (components path).

(** The system calls that the program makes. *)
Definition serve {R} (c : sys R) (s : state) : option (R * state) :=
  let '(t, o) := s in
  match c with
  | Open path mode =>
      match resolve path with
      | Some pl => if mode =? O_RDONLY then let r := fd_alloc (Open_ pl 0) t in Some (r.1, (r.2, o)) else None
      | None => Some (-1, s)
      end
  | Close fd => Some (match fd_get fd t with Some _ => 0 | None => -1 end, (fd_close fd t, o))
  | Fstat fd =>
      match fd_get fd t with
      | Some (Open_ (d :: _) _) => Some (Some (type_of d, size_of d, ino_of d), s)
      | _ => Some (None, s)
      end
  | Read fd n =>
      match fd_get fd t with
      | Some (Open_ (d :: up) off) =>
          let r := slice (content d up) off (Z.to_nat n) in
          Some ((Z.of_nat (length r), r), (<[Z.to_nat fd := Some (Open_ (d :: up) (off + length r))]> t, o))
      | _ => None
      end
  | Write fd l => Some (Z.of_nat (length l), (t, o ++ [(fd, l)]))
  | _ => None
  end.

(** [None]: the program does something undefined.  [Some (None, _)]: it exits. *)
Fixpoint run {A} (p : prog A) (s : state) : option (option A * state) :=
  match p with
  | Ret a => Some (Some a, s)
  | Exit_ => Some (None, s)
  | Undef => None
  | Call c k => match serve c s with Some (r, s) => run (k r) s | None => None end
  end.
End world.

(** Free descriptors. *)
Definition free (t : list (option ofile)) : nat := length (filter (fun f => f = None) t).

(** * Paths *)

Lemma split_path_snoc path name : forall acc, Forall (fun c => c <> 0) path -> Forall is_name name -> name <> [] ->
  split_path acc (path ++ 47 :: name) = split_path acc path ++ [name].
Proof.
  assert (Hend : forall name, Forall is_name name -> name <> [] -> split_path [] name = [name]).
  { intros n Hn Hne. pose proof (split_path_name [] n [] Hn) as E. rewrite app_nil_r in E. rewrite E. cbn.
    by rewrite decide_False. }
  induction path as [|c path IH]; intros acc Hp Hn Hne; cbn [app split_path].
  - change (47 =? 0) with false. change (47 =? slash) with true. cbn match. rewrite Hend by done.
    by destruct (decide (acc = [])).
  - apply Forall_cons in Hp as [Hc Hp]. rewrite (proj2 (Z.eqb_neq c 0)) by done.
    destruct (c =? slash); [destruct (decide (acc = []))|]; by rewrite IH.
Qed.

Lemma resolve_snoc root cwd path name : Forall (fun c => c <> 0) path -> path <> [] -> Forall is_name name -> name <> [] ->
  resolve root cwd (path ++ 47 :: name) = resolve root cwd path ≫= fun pl => walk1 pl name.
Proof.
  intros Hp Hpe Hn Hne. unfold resolve, components. rewrite split_path_snoc by done.
  destruct path as [|c path]; [done|]. cbn [app hd0]. unfold walk. by rewrite fold_left_app.
Qed.

Lemma is_name_nonzero name : Forall is_name name -> Forall (fun c => c <> 0) name.
Proof. intros H. eapply Forall_impl; [exact H|]. by intros ? []. Qed.

(** * Descriptors *)

Lemma lowest_free t m (f : ofile) : (S m <= free t)%nat ->
  exists k, lowest t = Some k /\ t !! k = Some None /\ (m <= free (<[k := Some f]> t))%nat.
Proof.
  unfold free. induction t as [|[x|] t IH]; intros H; [cbn in H; lia|..].
  - rewrite filter_cons_False in H by done. destruct (IH H) as (k & Hk & Hl & Hf). exists (S k). cbn [lowest].
    rewrite Hk. split_and!; [done|done|]. cbn [insert list_insert]. by rewrite filter_cons_False.
  - exists O. split_and!; [done|done|]. cbn [insert list_insert]. rewrite filter_cons_True in H by done.
    rewrite filter_cons_False by done. cbn in H. lia.
Qed.

Lemma free_reopen t k (f g : ofile) : t !! k = Some (Some f) -> free (<[k := Some g]> t) = free t.
Proof.
  unfold free. revert k. induction t as [|x t IH]; intros [|k] H; cbn in H; [done|done|..].
  - injection H as ->. cbn [insert list_insert]. by rewrite !filter_cons_False.
  - cbn [insert list_insert]. rewrite !filter_cons. case_decide; cbn [length]; [f_equal|]; exact (IH _ H).
Qed.

Lemma fd_get_nat (t : list (option ofile)) k : fd_get (Z.of_nat k) t = mjoin (t !! k).
Proof. unfold fd_get. rewrite (proj2 (Z.ltb_ge _ _)) by lia. by rewrite Nat2Z.id. Qed.

Lemma fd_close_nat (t : list (option ofile)) k : fd_close (Z.of_nat k) t = <[k := None]> t.
Proof. unfold fd_close. rewrite (proj2 (Z.ltb_ge _ _)) by lia. by rewrite Nat2Z.id. Qed.

Section calls.
Context (root cwd : place).

Lemma run_pbind {A B} (p : prog A) (f : A -> prog B) s :
  run root cwd (pbind p f) s =
    match run root cwd p s with
    | Some (Some a, s') => run root cwd (f a) s'
    | Some (None, s') => Some (None, s')
    | None => None
    end.
Proof.
  revert s. induction p as [a| | |R c k IH]; intros s; cbn [pbind run]; [done..|].
  destruct (serve root cwd c s) as [[r s']|]; [apply IH|done].
Qed.

Lemma run_say {A} fd s post (k : prog A) t o : Forall (fun c => c <> 37) post ->
  run root cwd (say fd ([37; 115] ++ post) s k) (t, o) = run root cwd k (t, o ++ [(fd, s ++ post)]).
Proof. intros Hp. unfold say. rewrite (printf_string [] post) by (done || constructor). done. Qed.

Lemma run_open path pl t o m : resolve root cwd path = Some pl -> (S m <= free t)%nat ->
  exists i, t !! i = Some None /\ (m <= free (<[i := Some (Open_ pl 0)]> t))%nat /\
    forall A (k : Z -> prog A),
      run root cwd (Call (Open path O_RDONLY) k) (t, o) = run root cwd (k (Z.of_nat i)) (<[i := Some (Open_ pl 0)]> t, o).
Proof.
  intros Hr Hf. destruct (lowest_free t m (Open_ pl 0) Hf) as (i & Hl & Hi & Hfree). exists i. split_and!; [done|done|].
  intros A k. cbn [run serve]. rewrite Hr. change (O_RDONLY =? O_RDONLY) with true. unfold fd_alloc. rewrite Hl. done.
Qed.

Lemma run_fstat {A} (k : option (Z * Z * Z) -> prog A) t o i d up off : t !! i = Some (Some (Open_ (d :: up) off)) ->
  run root cwd (Call (Fstat (Z.of_nat i)) k) (t, o) = run root cwd (k (Some (type_of d, size_of d, ino_of d))) (t, o).
Proof. intros Hi. cbn [run serve]. rewrite fd_get_nat, Hi. done. Qed.

Lemma run_close {A} (k : Z -> prog A) t o i f : t !! i = Some (Some f) ->
  run root cwd (Call (Close (Z.of_nat i)) k) (t, o) = run root cwd (k 0) (<[i := None]> t, o).
Proof. intros Hi. cbn [run serve]. rewrite fd_get_nat, Hi. by rewrite fd_close_nat. Qed.

(** [stat] leaves the descriptors as they were. *)
Lemma run_stat path d up t o : resolve root cwd path = Some (d :: up) -> (1 <= free t)%nat ->
  run root cwd (stat path) (t, o) = Some (Some (Some (type_of d, size_of d, ino_of d)), (t, o)).
Proof.
  intros Hr Hf. unfold stat.
  destruct (run_open path (d :: up) t o 0 Hr Hf) as (i & Hi & _ & E). rewrite E. clear E.
  rewrite (proj2 (Z.ltb_ge _ _)) by lia. pose proof (lookup_lt_Some _ _ _ Hi) as Hlt.
  assert (<[i:=Some (Open_ (d :: up) 0)]> t !! i = Some (Some (Open_ (d :: up) 0))) as Hl by (by apply list_lookup_insert_eq).
  rewrite (run_fstat _ _ _ _ _ _ _ Hl), (run_close _ _ _ _ _ Hl). cbn [run].
  rewrite list_insert_insert_eq, list_insert_id by done. done.
Qed.
End calls.
