(* ===== verification/Find.v ===== *)
(** find.c: the search of a directory tree for files of a given name.

    The buffer that holds the path is one array, which the functions share: the
    call for a directory inside another goes on writing where the name of that
    directory ends.  [buf] is its contents.  A write past its end is [Undef]. *)
From S2P Require Import Prelude Layout CString Ulib User.

Definition FOLDER : bytes := str "f".
Definition DIRECTORY : bytes := str "d".
Definition NULLTYPE : bytes := str "n".
Definition NULLSIZE : Z := -1.
Definition MAXSIZE : nat := 512.

Record findCommandStruct := mkFind {
  fileName : bytes; ftype : bytes; equalSize : Z; greaterThanSize : Z; lessThanSize : Z;
  noFlags : bool; oneFlag : bool; bothFlags : bool
}.

Definition error_lines : list bytes := [
  [10] ++ str "find failed: Invalid number of arguments. Please format your arguments to one of the following: " ++ [10];
  [10; 9; 9] ++ str "find <name>";
  [10; 9; 9] ++ str "find <folder> -name <name>";
  [10; 9; 9] ++ str "find <folder> -name <name> -type f";
  [10; 9; 9] ++ str "find <folder> -name <name> -type d";
  [10; 9; 9] ++ str "find <folder> -name <name> -size +<number of bytes>";
  [10; 9; 9] ++ str "find <folder> -name <name> -size -<number of bytes>" ++ [10];
  [10; 9; 9] ++ str "find <folder> -name <name> -size -<number of bytes> -type <f or d>" ++ [10] ].
Definition displayFormattingErrorMsg {A} : prog A :=
  fold_right (fun l k => call* _ := Write 1 l in k) Exit_ error_lines.

(** The loop of [fmtname] from index [i] down: where the last component starts. *)
Fixpoint last_slash (path : bytes) (i : nat) : nat :=
  if nth0 path i =? 47 then S i
  else match i with O => O | S i' => last_slash path i' end.

(** The string that [fmtname] returns a pointer to. *)
Definition fmtname (folderPath : bytes) : bytes :=
  let p := drop (last_slash folderPath (length folderPath)) folderPath in
  if DIRSIZ <=? strlen p then p
  else cstring (p ++ replicate (Z.to_nat DIRSIZ - length p) 0 ++ [0]).

Definition isCurrentOrParentDir (folderPath : bytes) : bool :=
  (strcmp (fmtname folderPath) (str "..") =? 0) || (strcmp (fmtname folderPath) (str ".") =? 0).

(** What the body of the loop does with an entry: [continue], or print its path
    or not and then look inside. *)
Inductive verdict := Skip | Go (print : bool).

Definition named (findCmd : findCommandStruct) (buf : bytes) : bool :=
  strcmp (fmtname buf) (fileName findCmd) =? 0.

(** The tests of the size; the fields are compared as unsigned numbers. *)
Definition sized (findCmd : findCommandStruct) (size : Z) : bool :=
  if negb (equalSize findCmd =? -1) then u32 (equalSize findCmd) =? size
  else if negb (greaterThanSize findCmd =? -1) then u32 (greaterThanSize findCmd) <? size
  else if negb (lessThanSize findCmd =? -1) then size <? u32 (lessThanSize findCmd)
  else false.

Definition visit_none (findCmd : findCommandStruct) (type size : Z) (buf : bytes) : verdict :=
  Go (named findCmd buf).

Definition visit_one (findCmd : findCommandStruct) (type size : Z) (buf : bytes) : verdict :=
  if strcmp (ftype findCmd) FOLDER =? 0 then Go ((type =? T_FILE) && named findCmd buf)
  else if strcmp (ftype findCmd) DIRECTORY =? 0 then
    if type =? T_DIR then Go (named findCmd buf) else Skip
  else Go (sized findCmd size && named findCmd buf).

Definition visit_both (findCmd : findCommandStruct) (type size : Z) (buf : bytes) : verdict :=
  if strcmp (ftype findCmd) FOLDER =? 0 then Go ((type =? T_FILE) && (sized findCmd size && named findCmd buf))
  else if strcmp (ftype findCmd) DIRECTORY =? 0 then
    if type =? T_DIR then Go (sized findCmd size && named findCmd buf) else Skip
  else Go false.

(** The tests of the function that [nestedDirectoryFound] chooses. *)
Definition visit (findCmd : findCommandStruct) : option (Z -> Z -> bytes -> verdict) :=
  if noFlags findCmd then Some (visit_none findCmd)
  else if oneFlag findCmd then Some (visit_one findCmd)
  else if bothFlags findCmd then Some (visit_both findCmd)
  else None.

(** Bytes stored in the buffer. *)
Definition poke (buf : bytes) (i : nat) (s : bytes) : option bytes :=
  if (i + length s <=? length buf)%nat then Some (splice buf i s) else None.

(** [findNoFlags], [findOneFlag] and [findBothFlags] differ in the tests [v] and
    in the descriptor on which they report that [stat] failed.  [search] is their
    loop, with the name of an entry at [p] of the buffer; [enter] is what comes
    before it.  [n] bounds the calls and the iterations. *)
Fixpoint search (n : nat) (findCmd : findCommandStruct) (v : Z -> Z -> bytes -> verdict)
    (fileDescriptor : Z) (buf : bytes) (p : nat) : prog bytes :=
  match n with
  | O => Undef
  | S n =>
      call* r := Read fileDescriptor sizeof_dirent in
      if negb (r.1 =? sizeof_dirent) then Ret buf
      else
        let direntObj := dec_dirent r.2 in
        if de_inum direntObj =? 0 then search n findCmd v fileDescriptor buf p
        else match poke buf p (de_name direntObj ++ [0]) with
        | None => Undef
        | Some buf =>
            let path := cstring buf in
            do* statObj := stat path in
            match statObj with
            | None =>
                say (if noFlags findCmd then 2 else 1) (str "find failed: Cannot get the status of %s" ++ [10]) path
                  (search n findCmd v fileDescriptor buf p)
            | Some (type, size, _) =>
                match v type size path with
                | Skip => search n findCmd v fileDescriptor buf p
                | Go print =>
                    let rest :=
                      if negb (isCurrentOrParentDir path) && (type =? T_DIR)
                      then do* buf := nestedDirectoryFound n findCmd buf in search n findCmd v fileDescriptor buf p
                      else search n findCmd v fileDescriptor buf p in
                    if print then say 1 (str "%s" ++ [10]) path rest else rest
                end
            end
        end
  end
with enter (n : nat) (findCmd : findCommandStruct) (v : Z -> Z -> bytes -> verdict)
    (folderPath : bytes) (fileDescriptor : Z) (buf : bytes) : prog bytes :=
  match n with
  | O => Undef
  | S n =>
      match poke buf 0 (folderPath ++ [0]) ≫= fun buf => poke buf (length folderPath) [47] with
      | None => Undef
      | Some buf => search n findCmd v fileDescriptor buf (S (length folderPath))
      end
  end
with nestedDirectoryFound (n : nat) (findCmd : findCommandStruct) (buf : bytes) : prog bytes :=
  match n with
  | O => Undef
  | S n =>
      let newFolderPath := cstring buf in
      call* fd := Open newFolderPath 0 in
      if fd <? 0 then
        say 2 (str "find failed: Cannot open folder: %s, or folder does not exist." ++ [10]) newFolderPath (Ret buf)
      else
        call* r := Fstat fd in
        match r with
        | None =>
            say 2 (str "find failed: Cannot get status information about: %s" ++ [10]) newFolderPath
              (call* _ := Close fd in Ret buf)
        | Some _ =>
            do* buf := match visit findCmd with Some v => enter n findCmd v newFolderPath fd buf | None => Ret buf end in
            call* _ := Close fd in
            Ret buf
        end
  end.

Definition findNoFlags (n : nat) (findCmd : findCommandStruct) : bytes -> Z -> bytes -> prog bytes :=
  enter n findCmd (visit_none findCmd).
Definition findOneFlag (n : nat) (findCmd : findCommandStruct) : bytes -> Z -> bytes -> prog bytes :=
  enter n findCmd (visit_one findCmd).
Definition findBothFlags (n : nat) (findCmd : findCommandStruct) : bytes -> Z -> bytes -> prog bytes :=
  enter n findCmd (visit_both findCmd).

(** * [main] *)

(** The value of "-size".  [after] is what lies behind the variable [indFlag] in
    memory: the code compares from there on as if [indFlag] were a string.  The
    copies are to pointers that were never set. *)
Definition parse_size (after arg : bytes) (findCmd : findCommandStruct) : prog findCommandStruct :=
  let indFlag2 := cstring (hd0 arg :: after) in
  let with_sizes e g l := mkFind (fileName findCmd) (ftype findCmd) e g l (noFlags findCmd) (oneFlag findCmd) (bothFlags findCmd) in
  if strcmp indFlag2 (str "+") =? 0 then
    if 1 <? strlen arg then Undef
    else Ret (with_sizes (equalSize findCmd) (atoi arg) (lessThanSize findCmd))
  else if strcmp indFlag2 (str "-") =? 0 then
    if 1 <? strlen arg then Undef
    else Ret (with_sizes (equalSize findCmd) (greaterThanSize findCmd) (atoi arg))
  else Ret (with_sizes (atoi arg) (greaterThanSize findCmd) (lessThanSize findCmd)).

Definition parse_type (arg : bytes) (findCmd : findCommandStruct) : prog findCommandStruct :=
  if negb (strcmp arg FOLDER =? 0) && negb (strcmp arg DIRECTORY =? 0) then displayFormattingErrorMsg
  else Ret (mkFind (fileName findCmd) arg (equalSize findCmd) (greaterThanSize findCmd) (lessThanSize findCmd)
              (noFlags findCmd) (oneFlag findCmd) (bothFlags findCmd)).

(** One flag with its value. *)
Definition parse_flag (after flag arg : bytes) (findCmd : findCommandStruct) : prog findCommandStruct :=
  if strcmp flag (str "-size") =? 0 then parse_size after arg findCmd
  else if strcmp flag (str "-type") =? 0 then parse_type arg findCmd
  else displayFormattingErrorMsg.

Definition default_cmd : findCommandStruct := mkFind [] NULLTYPE NULLSIZE NULLSIZE NULLSIZE false false false.
Definition set_flags (a b c : bool) (findCmd : findCommandStruct) : findCommandStruct :=
  mkFind (fileName findCmd) (ftype findCmd) (equalSize findCmd) (greaterThanSize findCmd) (lessThanSize findCmd) a b c.
Definition set_name (name : bytes) (findCmd : findCommandStruct) : findCommandStruct :=
  mkFind name (ftype findCmd) (equalSize findCmd) (greaterThanSize findCmd) (lessThanSize findCmd)
    (noFlags findCmd) (oneFlag findCmd) (bothFlags findCmd).

Definition is_flag (s : bytes) : bool := (strcmp s (str "-type") =? 0) || (strcmp s (str "-size") =? 0).

(** The arguments after the name of the program: the folder and the command. *)
Definition parse_args (after after' : bytes) (argv : list bytes) : prog (bytes * findCommandStruct) :=
  match argv with
  | [folder; dash_name; name] =>
      if negb (strcmp dash_name (str "-name") =? 0) then displayFormattingErrorMsg
      else Ret (folder, set_name name (set_flags true false false default_cmd))
  | [folder; dash_name; name; flag; arg] =>
      if negb (strcmp dash_name (str "-name") =? 0) || negb (is_flag flag) then displayFormattingErrorMsg
      else
        do* c := parse_flag after flag arg default_cmd in
        Ret (folder, set_name name (set_flags false true false c))
  | [folder; dash_name; name; flag; arg; flag'; arg'] =>
      if negb (strcmp dash_name (str "-name") =? 0) || negb (is_flag flag) || negb (is_flag flag') then displayFormattingErrorMsg
      else
        do* c := parse_flag after flag arg default_cmd in
        do* c := parse_flag after' flag' arg' c in
        Ret (folder, set_name name (set_flags false false true c))
  | _ => displayFormattingErrorMsg
  end.

(** [bufferStr] is not initialised: [buf] is what it holds. *)
Definition main (n : nat) (after after' buf : bytes) (argv : list bytes) : prog unit :=
  do* r := parse_args after after' argv in
  let '(folder, findCmd) := r in
  call* fd := Open folder 0 in
  if fd <? 0 then say 1 (str "find failed: Cannot open folder: %s, or folder does not exist." ++ [10]) folder Exit_
  else
    call* st := Fstat fd in
    match st with
    | None =>
        say 1 (str "find failed: Cannot get status information about: %s" ++ [10]) folder
          (call* _ := Close fd in Exit_)
    | Some _ =>
        do* _ :=
          (if noFlags findCmd then findNoFlags n findCmd folder fd buf
           else if oneFlag findCmd then findOneFlag n findCmd folder fd buf
           else if bothFlags findCmd then findBothFlags n findCmd folder fd buf
           else Ret buf) in
        call* _ := Close fd in
        Exit_
    end.
