(* ===== verification/FindSpec.v ===== *)
(** What find.c finds: the program run on a tree of files prints the path of each
    entry that matches, in the order of the directories. *)
From S2P Require Import Prelude Layout CString Fs FsDir Ulib User UserRun Find.

Local Abbreviation entry := (option (Z * bytes * node)).

(** * What is to be found *)

Inductive kind := KFile | KDir.

(** A name; with "-type" a kind; with "-size" a number as it is written. *)
Record query := mkQuery { q_name : bytes; q_type : option kind; q_size : option bytes }.

Definition kind_type (k : kind) : Z := match k with KFile => T_FILE | KDir => T_DIR end.

Definition wanted (q : query) (type size : Z) (name : bytes) : bool :=
  bool_decide (name = q_name q) &&
  match q_type q with None => true | Some k => type =? kind_type k end &&
  match q_size q with None => true | Some ds => number 10 ds =? size end.

Definition line (q : query) (path name : bytes) (d : node) : list (Z * bytes) :=
  if wanted q (type_of d) (size_of d) name then [(1, path ++ [47] ++ name ++ [10])] else [].

(** The entries to be printed for the directory [d] at [path] below [up], and for
    the directories inside it. *)
Fixpoint hits (q : query) (path : bytes) (up : place) (d : node) : list (Z * bytes) :=
  match d with
  | NFile _ _ _ => []
  | NDir _ _ ents =>
      line q path dot d ++ line q path dotdot (hd d up) ++
      concat (map (fun e =>
        match e with
        | None => []
        | Some (_, name, c) => line q path name c ++ hits q (path ++ [47] ++ name) (d :: up) c
        end) ents)
  end.

(** The arguments that ask for it; the flags come in either order. *)
Definition kind_arg (k : kind) : bytes := match k with KFile => FOLDER | KDir => DIRECTORY end.
Definition type_args (q : query) : list bytes := match q_type q with None => [] | Some k => [str "-type"; kind_arg k] end.
Definition size_args (q : query) : list bytes := match q_size q with None => [] | Some ds => [str "-size"; ds] end.
Definition query_args (folder : bytes) (q : query) : list (list bytes) :=
  [ [folder; str "-name"; q_name q] ++ type_args q ++ size_args q;
    [folder; str "-name"; q_name q] ++ size_args q ++ type_args q ].

(** A size is written with digits and fits an [int]. *)
Definition query_ok (q : query) : Prop :=
  Forall (fun c => c <> 0) (q_name q) /\
  match q_size q with
  | None => True
  | Some ds => ds <> [] /\ Forall (fun c => 48 <= c <= 57) ds /\ number 10 ds < 2 ^ 31
  end.

(** * Well-formed trees *)

Definition name_ok (name : bytes) : Prop :=
  name <> [] /\ (length name <= 14)%nat /\ Forall is_name name /\ Forall is_byte name.

Definition inum_ok (i : Z) : Prop := 0 < i < 2 ^ 16.

Fixpoint node_ok (d : node) : Prop :=
  match d with
  | NFile _ type _ => type <> T_DIR
  | NDir self parent ents =>
      inum_ok self /\ inum_ok parent /\
      NoDup (omap (fun e => (fun x : Z * bytes * node => x.1.2) <$> e) ents) /\
      fold_right (fun e P =>
        match e with
        | None => P
        | Some (i, name, c) => (inum_ok i /\ name_ok name /\ name <> dot /\ name <> dotdot /\ node_ok c) /\ P
        end) True ents
  end.

(** The number of directories one inside the other. *)
Fixpoint height (d : node) : nat :=
  match d with
  | NFile _ _ _ => O
  | NDir _ _ ents => S (list_max (map (fun e => match e with None => O | Some (_, _, c) => height c end) ents))
  end.

(** The calls and iterations it takes to search a directory. *)
Fixpoint weight (d : node) : nat :=
  match d with
  | NFile _ _ _ => O
  | NDir _ _ ents => 5 + list_sum (map (fun e => match e with None => 1 | Some (_, _, c) => S (weight c) end) ents)
  end%nat.

(** * Paths *)

Lemma cstring_app s t : Forall (fun c => c <> 0) s -> cstring (s ++ t) = s ++ cstring t.
Proof. induction 1 as [|c s Hc _ IH]; [done|]. cbn. by rewrite (proj2 (Z.eqb_neq _ _) Hc), IH. Qed.

Lemma cstring_strncpy_end name n rest : Forall (fun c => c <> 0) name -> (length name <= n)%nat ->
  cstring (strncpy name n ++ 0 :: rest) = name.
Proof.
  revert name. induction n as [|n IH]; intros [|c name] Hn Hl; cbn in Hl |- *; try done; [lia|].
  apply Forall_cons in Hn as [Hc Hn]. rewrite !(proj2 (Z.eqb_neq _ _) Hc). rewrite IH; [done|done|lia].
Qed.

Lemma last_slash_spec path name k : Forall is_name name ->
  last_slash (path ++ 47 :: name) (S (length path) + k) = S (length path).
Proof.
  intros Hn. induction k as [|k IH].
  - rewrite Nat.add_0_r. cbn [last_slash].
    assert (nth0 (path ++ 47 :: name) (S (length path)) <> 47) as Hx.
    { rewrite nth0_lookup, lookup_app_r by lia. replace (S (length path) - length path)%nat with 1%nat by lia.
      destruct Hn as [|c n [Hc _] _]; cbn; [done|]. exact Hc. }
    rewrite (proj2 (Z.eqb_neq _ _) Hx). destruct (length path) as [|m] eqn:E.
    + destruct path; [|done]. done.
    + cbn [last_slash]. rewrite nth0_lookup, lookup_app_r by lia. rewrite E, Nat.sub_diag. done.
  - rewrite Nat.add_succ_r. cbn [last_slash Nat.add].
    assert (nth0 (path ++ 47 :: name) (S (S (length path + k))) <> 47) as Hx.
    { rewrite nth0_lookup, lookup_app_r by lia.
      replace (S (S (length path + k)) - length path)%nat with (S (S k)) by lia. change (default 0 (name !! S k) <> 47).
      destruct (name !! S k) as [c|] eqn:E; [|done]. by destruct (Forall_lookup_1 _ _ _ _ Hn E). }
    rewrite (proj2 (Z.eqb_neq _ _) Hx). exact IH.
Qed.

Lemma fmtname_spec path name : Forall is_name name -> (length name <= 14)%nat -> fmtname (path ++ 47 :: name) = name.
Proof.
  intros Hn Hl. unfold fmtname. rewrite length_app. cbn [length].
  replace (length path + S (length name))%nat with (S (length path) + length name)%nat by lia.
  rewrite last_slash_spec by done. change (path ++ 47 :: name) with (path ++ [47] ++ name).
  rewrite app_assoc, drop_app_length' by (rewrite length_app; cbn; lia).
  case_match; [done|]. rewrite cstring_app by (by apply is_name_nonzero).
  destruct (Z.to_nat DIRSIZ - length name)%nat; cbn; by rewrite app_nil_r.
Qed.

Definition is_dots (name : bytes) : bool := bool_decide (name = dotdot) || bool_decide (name = dot).

Lemma strcmp_eqb p q : Forall (fun c => c <> 0) p -> Forall (fun c => c <> 0) q -> (strcmp p q =? 0) = bool_decide (p = q).
Proof.
  intros Hp Hq. pose proof (strcmp_zero p q Hp Hq) as E. case_bool_decide as H; [by apply Z.eqb_eq, E|].
  apply Z.eqb_neq. by rewrite E.
Qed.

Lemma isCurrentOrParentDir_spec path name : name_ok name -> isCurrentOrParentDir (path ++ 47 :: name) = is_dots name.
Proof.
  intros (_ & Hl & Hn & _). unfold isCurrentOrParentDir. rewrite fmtname_spec by done.
  rewrite !strcmp_eqb; [done|..]; try (by apply is_name_nonzero); by repeat constructor.
Qed.

(** * Directories *)

(** An entry of [d], and the file it names. *)
Definition entry_at (d : node) (up : place) (e : entry) : Prop :=
  match e with
  | None => True
  | Some (i, name, c) =>
      inum_ok i /\ name_ok name /\
      exists pl, walk1 (d :: up) name = Some (c :: pl) /\
        (is_dots name = false -> pl = d :: up /\ node_ok c /\ (S (height c) <= height d)%nat)
  end.

(** What an entry adds to the output, and to the number of steps. *)
Definition out_of (q : query) (path : bytes) (pl : place) (e : entry) : list (Z * bytes) :=
  match e with
  | None => []
  | Some (_, name, c) => line q path name c ++ if is_dots name then [] else hits q (path ++ [47] ++ name) pl c
  end.
Definition steps_of (e : entry) : nat :=
  match e with None => 1 | Some (_, name, c) => if is_dots name then 1 else S (weight c) end.

Lemma dots_false name : name <> dot -> name <> dotdot -> is_dots name = false.
Proof. intros ??. unfold is_dots. by rewrite !bool_decide_eq_false_2. Qed.

(** The entries other than "." and "..". *)
Lemma ents_ok self parent ents i name c : node_ok (NDir self parent ents) -> Some (i, name, c) ∈ ents ->
  inum_ok i /\ name_ok name /\ is_dots name = false /\ node_ok c.
Proof.
  intros (_ & _ & _ & H) Hin. induction ents as [|e ents IH]; [by apply elem_of_nil in Hin|].
  cbn [fold_right] in H. apply elem_of_cons in Hin as [<-|Hin].
  - destruct H as [(? & ? & ? & ? & ?) _]. split_and!; [done|done| |done]. by apply dots_false.
  - apply IH; [|done]. by destruct e as [[[??]?]|]; [destruct H|].
Qed.

Lemma ents_child ents i name c : NoDup (omap (fun e => (fun x : Z * bytes * node => x.1.2) <$> e) ents) ->
  Some (i, name, c) ∈ ents -> child name ents = Some c.
Proof.
  intros H Hin. induction ents as [|e ents IH]; [by apply elem_of_nil in Hin|].
  destruct e as [[[i' n'] c']|]; cbn [child omap list_omap fmap option_fmap option_map fst snd] in *.
  - apply NoDup_cons in H as [Hn H]. apply elem_of_cons in Hin as [[= <- <- <-]|Hin]; [by rewrite decide_True|].
    rewrite decide_False; [by apply IH|]. intros ->. apply Hn. apply list_elem_of_omap. by exists (Some (i, name, c)).
  - apply elem_of_cons in Hin as [[=]|Hin]. by apply IH.
Qed.

Lemma ents_height ents i name c : Some (i, name, c) ∈ ents ->
  (height c <= list_max (map (fun e : entry => match e with None => O | Some (_, _, c) => height c end) ents))%nat.
Proof.
  induction ents as [|e ents IH]; intros Hin; [by apply elem_of_nil in Hin|]. cbn [map list_max foldr].
  apply elem_of_cons in Hin as [<-|Hin]; [lia|]. specialize (IH Hin). unfold list_max in IH. lia.
Qed.

Lemma entries_at d up : node_ok d -> Forall (entry_at d up) (entries d up).
Proof.
  destruct d as [ty co|self parent ents]; [constructor|]. intros Hd. pose proof Hd as (Hs & Hp & Hnd & _).
  assert (forall n, n = dot \/ n = dotdot -> name_ok n) as Hdots.
  { intros n [->| ->]; (split_and!; [done|cbn; lia|..]); repeat constructor; try done; unfold is_byte; lia. }
  constructor; [|constructor].
  - split_and!; [done|by apply Hdots; left|]. exists up. split; [done|]. done.
  - split_and!; [done|by apply Hdots; right|]. cbn [walk1]. rewrite decide_False by done. rewrite decide_True by done.
    destruct up as [|u up]; [exists []|exists up]; (split; [done|]); done.
  - apply Forall_forall. intros [[[i name] c]|] Hin; [|done].
    destruct (ents_ok _ _ _ _ _ _ Hd Hin) as (? & Hn & Hdots' & ?). split_and!; [done|done|].
    exists (NDir self parent ents :: up). split.
    + cbn [walk1]. unfold is_dots in Hdots'. apply orb_false_iff in Hdots' as [H1 H2].
      apply bool_decide_eq_false in H1, H2. rewrite !decide_False by done.
      destruct Hn as (_ & Hl & _). rewrite take_ge by done. by erewrite ents_child.
    + intros _. split_and!; [done|done|]. cbn [height]. pose proof (ents_height _ _ _ _ Hin). lia.
Qed.

Lemma hits_entries q path up d : node_ok d -> hits q path up d = concat (map (out_of q path (d :: up)) (entries d up)).
Proof.
  destruct d as [ty co|self parent ents]; [done|]. intros Hd. cbn [hits entries map concat out_of].
  change (is_dots dot) with true. change (is_dots dotdot) with true. cbn match. rewrite !app_nil_r.
  do 3 f_equal. apply map_ext_in. intros [[[i name] c]|] Hin; [|done]. apply list_elem_of_In in Hin.
  destruct (ents_ok _ _ _ _ _ _ Hd Hin) as (_ & _ & Hx & _). cbn [out_of]. by rewrite Hx.
Qed.

Lemma weight_entries self parent ents up : node_ok (NDir self parent ents) ->
  weight (NDir self parent ents) = (3 + list_sum (map steps_of (entries (NDir self parent ents) up)))%nat.
Proof.
  intros Hd. cbn [weight entries map list_sum foldr steps_of]. change (is_dots dot) with true. change (is_dots dotdot) with true.
  cbn match. change (5 + ?a = 3 + (1 + (1 + ?b)))%nat with (5 + a = 5 + b)%nat. do 2 f_equal. apply map_ext_in. intros [[[i name] c]|] Hin; [|done].
  apply list_elem_of_In in Hin. destruct (ents_ok _ _ _ _ _ _ Hd Hin) as (_ & _ & Hx & _). cbn. by rewrite Hx.
Qed.

(** * The command *)

Definition size_value (q : query) : Z := match q_size q with None => NULLSIZE | Some ds => number 10 ds end.
Definition cmd_of (q : query) : findCommandStruct :=
  mkFind (q_name q) (match q_type q with None => NULLTYPE | Some k => kind_arg k end)
    (size_value q) NULLSIZE NULLSIZE
    match q_type q, q_size q with None, None => true | _, _ => false end
    match q_type q, q_size q with None, Some _ | Some _, None => true | _, _ => false end
    match q_type q, q_size q with Some _, Some _ => true | _, _ => false end.

Lemma number_nonneg ds : Forall (fun c => 48 <= c <= 57) ds -> 0 <= number 10 ds.
Proof.
  assert (forall n, 0 <= n -> Forall (fun c => 48 <= c <= 57) ds ->
    0 <= fold_left (fun n c => n * 10 + digit_value c) ds n) as H; [|by intros Hd; apply H].
  induction ds as [|c ds IH]; intros n Hn Hd; [done|]. apply Forall_cons in Hd as [Hc Hd]. cbn [fold_left]. apply IH; [|done].
  unfold digit_value. rewrite (proj2 (Z.ltb_lt _ _)) by lia. lia.
Qed.

Lemma parse_size_spec after ds c : ds <> [] -> Forall (fun c => 48 <= c <= 57) ds -> number 10 ds < 2 ^ 31 ->
  parse_size after ds c =
    Ret (mkFind (fileName c) (ftype c) (number 10 ds) (greaterThanSize c) (lessThanSize c) (noFlags c) (oneFlag c) (bothFlags c)).
Proof.
  intros Hne Hd Hlt. unfold parse_size. destruct ds as [|d ds]; [done|]. pose proof Hd as Hd'. apply Forall_cons in Hd as [Hd _]. cbn [hd0 cstring].
  rewrite (proj2 (Z.eqb_neq d 0)) by lia. change (str "+") with [43]. change (str "-") with [45]. cbn [strcmp].
  rewrite (proj2 (Z.eqb_neq d 43)), (proj2 (Z.eqb_neq d 45)), (proj2 (Z.eqb_neq (d - 43) 0)), (proj2 (Z.eqb_neq (d - 45) 0)) by lia.
  unfold atoi. by rewrite atoi_number.
Qed.

Lemma parse_type_spec k c : parse_type (kind_arg k) c =
  Ret (mkFind (fileName c) (kind_arg k) (equalSize c) (greaterThanSize c) (lessThanSize c) (noFlags c) (oneFlag c) (bothFlags c)).
Proof. by destruct k. Qed.

Lemma parse_flag_size after arg c : parse_flag after (str "-size") arg c = parse_size after arg c.
Proof. done. Qed.
Lemma parse_flag_type after arg c : parse_flag after (str "-type") arg c = parse_type arg c.
Proof. done. Qed.

(** The arguments are understood as they are meant. *)
Lemma parse_args_spec after after' folder q argv : query_ok q -> argv ∈ query_args folder q ->
  parse_args after after' argv = Ret (folder, cmd_of q).
Proof.
  intros [_ Hs] Hin. unfold query_args in Hin.
  assert (argv = [folder; str "-name"; q_name q] ++ type_args q ++ size_args q \/
          argv = [folder; str "-name"; q_name q] ++ size_args q ++ type_args q) as H by set_solver. clear Hin.
  destruct q as [name [k|] [ds|]]; cbn [q_name q_type q_size type_args size_args app] in *;
    unfold type_args, size_args in H; cbn [q_type q_size app] in H;
    destruct H as [->| ->]; cbn [parse_args]; try done;
    repeat match goal with |- context [?x || ?y] => change (x || y) with false end; cbn match;
    rewrite ?parse_flag_size, ?parse_flag_type, ?parse_type_spec, ?parse_size_spec by apply Hs; cbn [pbind];
    rewrite ?parse_flag_size, ?parse_flag_type, ?parse_type_spec, ?parse_size_spec by apply Hs; done.
Qed.

Lemma sized_cmd q size : query_ok q -> q_size q <> None ->
  sized (cmd_of q) size = match q_size q with None => true | Some ds => number 10 ds =? size end.
Proof.
  intros [_ Hs] Hq. destruct q as [name k [ds|]]; [|done]. cbn [q_size] in *. unfold sized. cbn.
  pose proof (number_nonneg ds ltac:(apply Hs)). rewrite (proj2 (Z.eqb_neq (number 10 ds) (-1))) by lia. cbn [negb].
  rewrite u32_small by lia. done.
Qed.

(** Each of the three functions prints what is wanted, and does not pass over a directory. *)
Lemma visit_spec q : query_ok q -> exists v, visit (cmd_of q) = Some v /\
  forall type size path name, name_ok name ->
    match v type size (path ++ 47 :: name) with
    | Skip => type <> T_DIR /\ wanted q type size name = false
    | Go b => b = wanted q type size name
    end.
Proof.
  intros Hq. pose proof (sized_cmd q) as Hz. pose proof Hq as [Hn _].
  assert (forall path name, name_ok name -> named (cmd_of q) (path ++ 47 :: name) = bool_decide (name = q_name q)) as Hnamed.
  { intros path name (_ & Hl & Hname & _). unfold named. rewrite fmtname_spec by done.
    apply strcmp_eqb; [by apply is_name_nonzero|done]. }
  destruct (visit (cmd_of q)) as [v|] eqn:Ev; [|by destruct q as [? [?|] [?|]]].
  exists v. split; [done|]. intros type size path name Hok. specialize (Hnamed path name Hok). specialize (Hz size Hq).
  destruct q as [qn [[]|] [ds|]]; cbn [visit cmd_of noFlags oneFlag bothFlags q_type q_size] in Ev;
    injection Ev as <-; unfold visit_none, visit_one, visit_both; rewrite ?Hnamed; unfold wanted; cbn [q_type q_size q_name kind_type];
    try (rewrite Hz by done); cbn [cmd_of ftype q_type kind_arg];
    repeat match goal with |- context [strcmp ?a ?b =? 0] => let r := eval vm_compute in (strcmp a b =? 0) in change (strcmp a b =? 0) with r end;
    cbn match; cbn [q_size].
  all: try (destruct (Z.eqb_spec type T_DIR)); try (destruct (type =? T_FILE)); try (destruct (number 10 ds =? size)); destruct (bool_decide (name = qn)); try done.
Qed.

(** * The buffer *)

Lemma poke_spec buf i s : (i + length s <= length buf)%nat ->
  poke buf i s = Some (splice buf i s) /\ length (splice buf i s) = length buf.
Proof. intros H. unfold poke. rewrite (proj2 (Nat.leb_le _ _) H). split; [done|by apply length_splice]. Qed.

(** An entry's name put after the path of its directory. *)
Lemma poke_name path name buf : Forall (fun c => c <> 0) path -> name_ok name ->
  take (S (length path)) buf = path ++ [47] -> (length path + 16 <= length buf)%nat ->
  exists buf', poke buf (S (length path)) (strncpy name 14 ++ [0]) = Some buf' /\ length buf' = length buf /\
    take (S (length path)) buf' = path ++ [47] /\ cstring buf' = path ++ 47 :: name.
Proof.
  intros Hp (Hne & Hl & Hn & _) Ht Hb. assert (length (strncpy name 14 ++ [0]) = 15%nat) as Hlen.
  { rewrite length_app, length_strncpy. done. }
  destruct (poke_spec buf (S (length path)) (strncpy name 14 ++ [0])) as [E1 E2]; [lia|].
  eexists. split; [exact E1|]. split; [done|]. unfold splice. rewrite Ht. split.
  - rewrite take_app_le by (rewrite length_app; cbn; lia). rewrite take_ge by (rewrite length_app; cbn; lia). done.
  - change (path ++ 47 :: name) with (path ++ [47] ++ name). rewrite (app_assoc path), <- (app_assoc (strncpy name 14)). cbn [app].
    rewrite cstring_app, cstring_strncpy_end; [done|by apply is_name_nonzero|done|].
    apply Forall_app. split; [done|]. by repeat constructor.
Qed.

(** The path of a directory put at the start, and a slash. *)
Lemma poke_path path buf : (length path + 1 <= length buf)%nat ->
  exists buf', (poke buf 0 (path ++ [0]) ≫= fun buf => poke buf (length path) [47]) = Some buf' /\
    length buf' = length buf /\ take (S (length path)) buf' = path ++ [47].
Proof.
  intros Hb. destruct (poke_spec buf 0 (path ++ [0])) as [E1 L1]; [rewrite length_app; cbn; lia|]. rewrite E1. cbn [mbind option_bind].
  destruct (poke_spec (splice buf 0 (path ++ [0])) (length path) [47]) as [E2 L2]; [cbn; lia|].
  eexists. split; [exact E2|]. split; [lia|]. unfold splice. rewrite take_0, app_nil_l.
  rewrite <- !(app_assoc path). rewrite take_app_length. rewrite app_assoc, take_app_length' by (rewrite length_app; cbn; lia). done.
Qed.

(** * Reading a directory *)

Lemma length_entry_bytes e : length (entry_bytes e) = 16%nat.
Proof. destruct e as [[[i name] c]|]; [|done]. apply length_enc_dirent, length_strncpy. Qed.

Lemma length_entry_list l : length (concat (map entry_bytes l)) = (16 * length l)%nat.
Proof. induction l as [|e l IH]; [done|]. cbn [map concat length]. rewrite length_app, IH, length_entry_bytes. lia. Qed.

Lemma slice_entry_list pre es : slice (concat (map entry_bytes (pre ++ es))) (16 * length pre) 16 =
  match es with [] => [] | e :: _ => entry_bytes e end.
Proof.
  unfold slice. rewrite map_app, concat_app, drop_app_length' by (by rewrite length_entry_list).
  destruct es as [|e es]; [done|]. cbn [map concat]. by rewrite take_app_length' by (by rewrite length_entry_bytes).
Qed.

Lemma dec_entry i name c : inum_ok i -> name_ok name ->
  dec_dirent (entry_bytes (Some (i, name, c))) = mkDirent i (strncpy name 14).
Proof.
  intros Hi (_ & _ & _ & Hb). unfold inum_ok in Hi. apply dec_enc_dirent. split_and!; [cbn; lia|cbn; lia|apply length_strncpy|].
  by apply strncpy_is_byte.
Qed.

Section search.
Context (root cwd : place) (q : query) (v : Z -> Z -> bytes -> verdict).
Context (Hq : query_ok q) (Hv : visit (cmd_of q) = Some v).

(** A directory that can be searched at [path]. *)
Record dir_at (path : bytes) (d : node) (up : place) : Prop := {
  da_ok : node_ok d;
  da_dir : type_of d = T_DIR;
  da_resolve : resolve root cwd path = Some (d :: up);
  da_path : path <> [] /\ Forall (fun c => c <> 0) path;
  da_fits : (length path + 15 * height d < MAXSIZE)%nat
}.

Lemma dir_content d up : type_of d = T_DIR -> node_ok d -> content d up = concat (map entry_bytes (entries d up)) /\ (1 <= height d)%nat.
Proof. destruct d; [done|]. intros _ _. split; [done|]. cbn. lia. Qed.

Lemma run_read {A} (k : Z * bytes -> prog A) t o fd d up pre es : type_of d = T_DIR -> node_ok d ->
  entries d up = pre ++ es -> t !! fd = Some (Some (Open_ (d :: up) (16 * length pre))) ->
  run root cwd (Call (Read (Z.of_nat fd) sizeof_dirent) k) (t, o) =
    match es with
    | [] => run root cwd (k (0, [])) (t, o)
    | e :: _ => run root cwd (k (16, entry_bytes e)) (<[fd := Some (Open_ (d :: up) (16 * S (length pre)))]> t, o)
    end.
Proof.
  intros Hd Hok He Hfd. cbn [run serve]. rewrite fd_get_nat, Hfd. cbn [mjoin option_join].
  rewrite (proj1 (dir_content d up Hd Hok)), He. change (Z.to_nat sizeof_dirent) with 16%nat. rewrite slice_entry_list, Nat2Z.id.
  destruct es as [|e es].
  - cbn [length]. rewrite Nat.add_0_r, list_insert_id by done. done.
  - rewrite length_entry_bytes. replace (16 * length pre + 16)%nat with (16 * S (length pre))%nat by lia. done.
Qed.

Lemma resolve_entry path d up i name c : dir_at path d up -> entry_at d up (Some (i, name, c)) ->
  exists pl, resolve root cwd (path ++ 47 :: name) = Some (c :: pl) /\
    (is_dots name = false -> pl = d :: up /\ (type_of c = T_DIR -> dir_at (path ++ 47 :: name) c pl)).
Proof.
  intros [Hok Hd Hr [Hpe Hpz] Hfit] (_ & Hn & pl & Hw & Hc). exists pl. pose proof Hn as (Hne & Hl & Hname & _).
  assert (resolve root cwd (path ++ 47 :: name) = Some (c :: pl)) as Hres by (by rewrite resolve_snoc, Hr).
  split; [done|]. intros Hdots. destruct (Hc Hdots) as (-> & Hcok & Hh). split; [done|]. intros Htype.
  split; [done|done|done| |]. 
  - split; [by destruct path|]. apply Forall_app. split; [done|]. constructor; [done|by apply is_name_nonzero].
  - rewrite length_app. cbn [length]. lia.
Qed.

Definition search_ok (n : nat) : Prop := forall es pre path d up buf t o fd,
  dir_at path d up -> entries d up = pre ++ es ->
  t !! fd = Some (Some (Open_ (d :: up) (16 * length pre))) ->
  length buf = MAXSIZE -> take (S (length path)) buf = path ++ [47] ->
  (height d <= free t)%nat -> (1 + list_sum (map steps_of es) <= n)%nat ->
  exists buf', length buf' = MAXSIZE /\ take (S (length path)) buf' = path ++ [47] /\
    run root cwd (search n (cmd_of q) v (Z.of_nat fd) buf (S (length path))) (t, o) =
      Some (Some buf', (<[fd := Some (Open_ (d :: up) (16 * length (entries d up)))]> t,
                        o ++ concat (map (out_of q path (d :: up)) es))).

Definition nested_ok (n : nat) : Prop := forall path d up buf t o,
  dir_at path d up -> cstring buf = path -> length buf = MAXSIZE ->
  (S (height d) <= free t)%nat -> (weight d <= n)%nat ->
  exists buf', length buf' = MAXSIZE /\ take (length path) buf' = path /\
    run root cwd (nestedDirectoryFound n (cmd_of q) buf) (t, o) = Some (Some buf', (t, o ++ hits q path up d)).

(** A directory that was just opened. *)
Lemma run_enter n path d up buf t o fd : search_ok n -> dir_at path d up ->
  t !! fd = Some (Some (Open_ (d :: up) 0)) -> length buf = MAXSIZE -> (height d <= free t)%nat -> (weight d <= 2 + n)%nat ->
  exists buf', length buf' = MAXSIZE /\ take (S (length path)) buf' = path ++ [47] /\
    run root cwd (enter (S n) (cmd_of q) v path (Z.of_nat fd) buf) (t, o) =
      Some (Some buf', (<[fd := Some (Open_ (d :: up) (16 * length (entries d up)))]> t, o ++ hits q path up d)).
Proof.
  intros IH Hda Hfd Hb Hf Hn. pose proof Hda as [Hok Hd _ _ Hfit]. destruct (dir_content d up Hd Hok) as [_ Hh].
  destruct (poke_path path buf) as (buf1 & E & Hb1 & Ht1); [lia|].
  destruct (IH (entries d up) [] path d up buf1 t o fd) as (buf' & Hb' & Ht' & Hrun); [done|done|done|lia|done|done| |].
  { destruct d as [|self parent ents]; [done|]. rewrite (weight_entries _ _ _ up Hok) in Hn. lia. }
  exists buf'. split_and!; [done|done|]. cbn [enter]. rewrite E, Hrun. by rewrite <- hits_entries.
Qed.

Lemma run_nested n : search_ok n -> nested_ok (2 + n).
Proof.
  intros IH path d up buf t o Hda Hc Hb Hf Hn. pose proof Hda as [_ _ Hr _ _]. cbn [Nat.add nestedDirectoryFound]. rewrite Hc.
  destruct (run_open root cwd path (d :: up) t o (height d) Hr Hf) as (fd & Hfd & Hfree & E). rewrite E. clear E.
  rewrite (proj2 (Z.ltb_ge _ _)) by lia. pose proof (lookup_lt_Some _ _ _ Hfd) as Hlt.
  assert (forall x, <[fd := Some x]> t !! fd = Some (Some x)) as Hl by (intros; by apply list_lookup_insert_eq).
  rewrite (run_fstat _ _ _ _ _ _ _ _ _ (Hl _)), run_pbind, Hv.
  destruct (run_enter n path d up buf (<[fd := Some (Open_ (d :: up) 0)]> t) o fd) as (buf' & Hb' & Ht' & ->); try done.
  exists buf'. split_and!; [done| |].
  - transitivity (take (length path) (take (S (length path)) buf')); [rewrite take_take; f_equal; lia|].
    rewrite Ht'. apply take_app_length.
  - rewrite list_insert_insert_eq, (run_close _ _ _ _ _ _ _ (Hl _)). cbn [run].
    rewrite list_insert_insert_eq, list_insert_id by done. done.
Qed.

Lemma nested_below n : (forall m, (m <= n)%nat -> search_ok m) -> nested_ok n.
Proof.
  intros IH. destruct n as [|[|n]]; [..|apply run_nested, IH; lia];
    intros path d up buf t o [Hok Hd _ _ _] _ _ _ Hn; (destruct d; [done|cbn [weight] in Hn; lia]).
Qed.

(** What the loop does after [stat] with an entry that names [c]. *)
Lemma run_visit n path d up i name c buf t o (rest : bytes -> prog bytes) : nested_ok n ->
  dir_at path d up -> entry_at d up (Some (i, name, c)) ->
  length buf = MAXSIZE -> take (S (length path)) buf = path ++ [47] -> cstring buf = path ++ 47 :: name ->
  (height d <= free t)%nat -> (steps_of (Some (i, name, c)) <= S n)%nat ->
  exists buf', length buf' = MAXSIZE /\ take (S (length path)) buf' = path ++ [47] /\
    run root cwd
      match v (type_of c) (size_of c) (cstring buf) with
      | Skip => rest buf
      | Go print =>
          let next :=
            if negb (isCurrentOrParentDir (cstring buf)) && (type_of c =? T_DIR)
            then do* buf := nestedDirectoryFound n (cmd_of q) buf in rest buf
            else rest buf in
          if print then say 1 (str "%s" ++ [10]) (cstring buf) next else next
      end (t, o) =
    run root cwd (rest buf') (t, o ++ out_of q path (d :: up) (Some (i, name, c))).
Proof.
  intros IH Hda Hat Hb Ht Hc Hf Hn. destruct (resolve_entry _ _ _ _ _ _ Hda Hat) as (pl & Hr & Hpl). destruct Hat as (_ & Hname & pl' & _ & Hh).
  destruct (visit_spec q Hq) as (v' & Hv' & Hspec). rewrite Hv in Hv'. injection Hv' as <-.
  specialize (Hspec (type_of c) (size_of c) path name Hname). rewrite Hc, isCurrentOrParentDir_spec by done.
  cbn [out_of]. destruct (v _ _ _) as [|print].
  { destruct Hspec as [Hty E]. unfold line. rewrite E. exists buf. split_and!; [done|done|]. destruct c; [|done]. cbn [hits].
    rewrite app_nil_l. by destruct (is_dots name); rewrite app_nil_r. }
  subst print. set (o1 := line q path name c).
  assert (forall k : prog bytes, run root cwd (if wanted q (type_of c) (size_of c) name then say 1 (str "%s" ++ [10]) (path ++ 47 :: name) k else k) (t, o)
    = run root cwd k (t, o ++ o1)) as Hsay.
  { intros k. subst o1. unfold line. destruct (wanted _ _ _ _); [|by rewrite app_nil_r]. change (str "%s" ++ [10]) with ([37; 115] ++ [10]).
    rewrite run_say by (by repeat constructor). by rewrite <- app_assoc. }
  cbn zeta. rewrite Hsay. destruct (is_dots name) eqn:Hdots; cbn [negb andb].
  { exists buf. rewrite app_nil_r. done. }
  destruct (Hpl eq_refl) as [-> Hdir]. destruct (Z.eqb_spec (type_of c) T_DIR) as [Hty|Hty].
  - destruct (IH (path ++ 47 :: name) c (d :: up) buf t (o ++ o1)) as (buf' & Hb' & Ht' & E);
      [by apply Hdir|done|done| |cbn [steps_of] in Hn; rewrite Hdots in Hn; lia|].
    { destruct (Hh eq_refl) as (_ & _ & Hlt). lia. }
    exists buf'. split_and!; [done| |].
    + transitivity (take (S (length path)) (take (length (path ++ 47 :: name)) buf')).
      { rewrite take_take. f_equal. rewrite length_app. cbn [length]. lia. }
      rewrite Ht'. change (path ++ 47 :: name) with (path ++ [47] ++ name). rewrite app_assoc.
      apply take_app_length'. rewrite length_app. cbn. lia.
    + rewrite run_pbind, E. by rewrite <- app_assoc.
  - exists buf. split_and!; [done|done|]. destruct c; [|done]. cbn [hits]. by rewrite app_nil_r.
Qed.

(** The loop over the entries that are left. *)
Lemma run_search n : search_ok n.
Proof.
  induction n as [n IH] using lt_wf_ind. intros es pre path d up buf t o fd Hda He Hfd Hb Ht Hf Hn.
  pose proof Hda as [Hok Hd _ [_ Hpz] Hfit]. destruct n as [|n]; [lia|]. cbn [search].
  pose proof (dir_content d up Hd Hok) as [_ Hh].
  erewrite run_read by done. destruct es as [|e es].
  { exists buf. split_and!; [done|done|]. cbn [negb fst]. rewrite app_nil_r in He. cbn [map concat run]. rewrite app_nil_r, He.
    by rewrite list_insert_id. }
  set (t1 := <[fd := Some (Open_ (d :: up) (16 * S (length pre)))]> t).
  assert (t1 !! fd = Some (Some (Open_ (d :: up) (16 * S (length pre))))) as Hfd1
    by (apply list_lookup_insert_eq; by eapply lookup_lt_Some).
  assert (free t1 = free t) as Hf1 by (by eapply free_reopen).
  assert (forall buf' o', length buf' = MAXSIZE -> take (S (length path)) buf' = path ++ [47] ->
    exists buf'', length buf'' = MAXSIZE /\ take (S (length path)) buf'' = path ++ [47] /\
    run root cwd (search n (cmd_of q) v (Z.of_nat fd) buf' (S (length path))) (t1, o') =
      Some (Some buf'', (<[fd := Some (Open_ (d :: up) (16 * length (entries d up)))]> t,
                         o' ++ concat (map (out_of q path (d :: up)) es)))) as Hrest.
  { intros buf' o' Hb' Ht'. cbn [map list_sum foldr] in Hn. change (foldr Nat.add 0%nat (map steps_of es)) with (list_sum (map steps_of es)) in Hn.
    assert (1 <= steps_of e)%nat by (destruct e as [[[??]?]|]; cbn; [case_match|]; lia).
    destruct (IH n ltac:(lia) es (pre ++ [e]) path d up buf' t1 o' fd) as (buf'' & ? & ? & E); try done; [..|lia|lia|].
    - by rewrite <- app_assoc.
    - rewrite length_app. cbn [length]. by rewrite Nat.add_1_r.
    - exists buf''. split_and!; [done|done|]. rewrite E. subst t1. by rewrite list_insert_insert_eq. }
  change (fst (16, entry_bytes e) =? sizeof_dirent) with true. cbn [negb]. cbn match.
  pose proof (entries_at d up Hok) as Hall. rewrite He in Hall. apply Forall_app in Hall as [_ Hall]. apply Forall_cons in Hall as [Hat _].
  destruct e as [[[i name] c]|].
  2: { change (de_inum (dec_dirent (16, entry_bytes None).2) =? 0) with true. cbn [map concat out_of app]. by apply Hrest. }
  pose proof Hat as (Hi & Hname & _). cbn [snd]. rewrite dec_entry by done. cbn [de_inum de_name].
  rewrite (proj2 (Z.eqb_neq i 0)) by (unfold inum_ok in Hi; lia).
  destruct (poke_name path name buf Hpz Hname Ht) as (buf1 & -> & Hb1 & Ht1 & Hc1); [lia|].
  destruct (resolve_entry _ _ _ _ _ _ Hda Hat) as (pl & Hr & _).
  rewrite run_pbind, Hc1, (run_stat _ _ _ c pl) by (done || lia). rewrite <- Hc1.
  destruct (run_visit n path d up i name c buf1 t1 o (fun buf => search n (cmd_of q) v (Z.of_nat fd) buf (S (length path))))
    as (buf2 & Hb2 & Ht2 & E); [apply nested_below; intros; apply IH; lia|done|done|lia|done|done|lia|cbn [map list_sum foldr] in Hn; lia|].
  destruct (Hrest buf2 (o ++ out_of q path (d :: up) (Some (i, name, c))) Hb2 Ht2) as (buf3 & Hb3 & Ht3 & E3).
  exists buf3. split_and!; [done|done|]. etransitivity; [exact E|]. rewrite E3. cbn [map concat]. by rewrite <- app_assoc.
Qed.
End search.

(** [c] is the entry [name] of a directory at [p], which is [d] at [path] or a
    directory inside it. *)
Inductive inside : bytes -> place -> node -> bytes -> bytes -> node -> Prop :=
| inside_here path up d i name c : Some (i, name, c) ∈ entries d up -> inside path up d path name c
| inside_below path up d i name c p name' c' : Some (i, name, c) ∈ entries d up -> is_dots name = false ->
    inside (path ++ [47] ++ name) (d :: up) c p name' c' -> inside path up d p name' c'.

Lemma elem_of_line q path name c x :
  x ∈ line q path name c <-> wanted q (type_of c) (size_of c) name = true /\ x = (1, path ++ [47] ++ name ++ [10]).
Proof.
  unfold line. destruct (wanted _ _ _ _); [rewrite list_elem_of_singleton|rewrite elem_of_nil]; naive_solver.
Qed.

Lemma elem_of_hits q path up d x : node_ok d ->
  x ∈ hits q path up d <-> exists i name c, Some (i, name, c) ∈ entries d up /\
    (x ∈ line q path name c \/ is_dots name = false /\ x ∈ hits q (path ++ [47] ++ name) (d :: up) c).
Proof.
  intros Hok. rewrite hits_entries by done. rewrite list_elem_of_In, in_concat. setoid_rewrite <- list_elem_of_In.
  setoid_rewrite list_elem_of_fmap. split.
  - intros (l & ([[[i name] c]|] & -> & He) & Hx); [|by apply elem_of_nil in Hx]. exists i, name, c. split; [done|].
    cbn [out_of] in Hx. apply elem_of_app in Hx as [?|Hx]; [by left|]. destruct (is_dots name); [by apply elem_of_nil in Hx|by right].
  - intros (i & name & c & He & Hx). eexists. split; [exists (Some (i, name, c)); done|]. cbn [out_of]. apply elem_of_app.
    destruct Hx as [?|[-> ?]]; [by left|by right].
Qed.

Lemma entry_ok d up i name c : node_ok d -> Some (i, name, c) ∈ entries d up -> is_dots name = false ->
  node_ok c /\ (height c < height d)%nat.
Proof.
  intros Hok He Hd. pose proof (entries_at d up Hok) as H. rewrite Forall_forall in H.
  destruct (H _ He) as (_ & _ & pl & _ & Hc). destruct (Hc Hd) as (_ & ? & ?). split; [done|lia].
Qed.

(** The output consists of the matching entries at any depth. *)
Lemma hits_inside q path up d x : node_ok d ->
  x ∈ hits q path up d <-> exists p name c, inside path up d p name c /\
    wanted q (type_of c) (size_of c) name = true /\ x = (1, p ++ [47] ++ name ++ [10]).
Proof.
  intros Hok. split.
  - remember (height d) as h eqn:Eh. revert path up d Hok Eh. induction h as [h IH] using lt_wf_ind. intros path up d Hok ->.
    intros (i & name & c & He & Hx)%elem_of_hits; [|done]. destruct Hx as [[Hw Hx]%elem_of_line|[Hd Hx]].
    + exists path, name, c. split; [by econstructor|done].
    + destruct (entry_ok _ _ _ _ _ Hok He Hd) as [Hc Hlt]. destruct (IH _ Hlt _ _ _ Hc eq_refl Hx) as (p & n & c' & Hin & ?).
      exists p, n, c'. split; [by eapply inside_below|done].
  - intros (p & name & c & Hin & Hw & ->). revert Hok. induction Hin as [path up d i name c He|path up d i name c p name' c' He Hd _ IH]; intros Hok.
    + apply elem_of_hits; [done|]. exists i, name, c. split; [done|]. left. by apply elem_of_line.
    + apply elem_of_hits; [done|]. exists i, name, c. split; [done|]. right. split; [done|]. apply IH; [done|]. by eapply entry_ok.
Qed.

(** [main] calls the function with the tests [v]. *)
Lemma dispatch n q v folder fd buf : visit (cmd_of q) = Some v ->
  (if noFlags (cmd_of q) then findNoFlags n (cmd_of q) folder fd buf
   else if oneFlag (cmd_of q) then findOneFlag n (cmd_of q) folder fd buf
   else if bothFlags (cmd_of q) then findBothFlags n (cmd_of q) folder fd buf
   else Ret buf) = enter n (cmd_of q) v folder fd buf.
Proof. unfold visit. intros E. repeat case_match; by simplify_eq. Qed.

(** C23: find.c finds what was asked for.  Its arguments name a folder and a name,
    with "-type f" or "-type d", "-size" and a number, both in either order, or
    neither.  On a tree of files in which the folder can be searched (the paths fit
    the buffer of 512 bytes, and there are descriptors for the directories open at
    a time and one for [stat]), the program ends, does nothing undefined, closes
    what it opened, and prints the path of every entry at any depth below the
    folder that matches, and no others, in the order of the directories.  This does
    not depend on what its uninitialised buffer holds. *)
Theorem find_correct root cwd q folder d up argv after after' buf t o n :
  query_ok q -> argv ∈ query_args folder q -> dir_at root cwd folder d up ->
  length buf = MAXSIZE -> (height d < free t)%nat -> (weight d <= n)%nat ->
  run root cwd (main n after after' buf argv) (t, o) = Some (None, (t, o ++ hits q folder up d)) /\
  forall x, x ∈ hits q folder up d <-> exists p name c, inside folder up d p name c /\
    wanted q (type_of c) (size_of c) name = true /\ x = (1, p ++ [47] ++ name ++ [10]).
Proof.
  intros Hq Hargs Hda Hb Hf Hn. pose proof Hda as [Hok Hd Hr _ _]. split; [|intros; by apply hits_inside].
  unfold main. rewrite (parse_args_spec after after' folder q) by done. cbn [pbind].
  destruct (run_open root cwd folder (d :: up) t o (height d) Hr Hf) as (fd & Hfd & Hfree & E). rewrite E. clear E.
  rewrite (proj2 (Z.ltb_ge _ _)) by lia. pose proof (lookup_lt_Some _ _ _ Hfd) as Hlt.
  assert (forall x, <[fd := Some x]> t !! fd = Some (Some x)) as Hl by (intros; by apply list_lookup_insert_eq).
  rewrite (run_fstat _ _ _ _ _ _ _ _ _ (Hl _)), run_pbind. destruct (visit_spec q Hq) as (v & Hv & _).
  rewrite (dispatch n q v folder _ buf Hv).
  destruct n as [|n]; [destruct d; [done|cbn [weight] in Hn; lia]|].
  destruct (run_enter root cwd q v n folder d up buf (<[fd := Some (Open_ (d :: up) 0)]> t) o fd) as (buf' & _ & _ & ->);
    try done; [by apply run_search|lia|].
  rewrite list_insert_insert_eq, (run_close _ _ _ _ _ _ _ (Hl _)). cbn [run].
  rewrite list_insert_insert_eq, list_insert_id by done. done.
Qed.

(** A tree with a file in the folder and one of the same name two directories down. *)
Definition sample_tree : node :=
  NDir 1 1 [Some (2, str "README", NFile 2 T_FILE (str "xv6"));
            None;
            Some (3, str "src", NDir 3 1 [
              Some (4, str "lib", NDir 4 3 [Some (5, str "README", NFile 5 T_FILE (str "lib"))]);
              Some (6, str "README", NDir 6 3 [])]);
            Some (7, str "console", NFile 7 T_DEV [])].

Lemma find_correct_witness :
  run [sample_tree] [sample_tree]
    (main 100 [] [] (replicate MAXSIZE 7) [str "."; str "-name"; str "README"; str "-size"; str "3"; str "-type"; str "f"])
    (replicate 3 (Some Term) ++ replicate 13 None, []) =
    Some (None, (replicate 3 (Some Term) ++ replicate 13 None,
                 [(1, str "./README" ++ [10]); (1, str "./src/lib/README" ++ [10])])).
Proof.
  etransitivity;
    [apply (find_correct [sample_tree] [sample_tree] (mkQuery (str "README") (Some KFile) (Some (str "3"))) (str ".") sample_tree [])|].
  - split; [by repeat constructor|]. split; [done|]. split; [by repeat constructor|done].
  - apply list_elem_of_In. right. by left.
  - split; [|done|done|by split; repeat constructor|vm_compute; lia].
    cbn. unfold inum_ok, name_ok, is_name, is_byte, dot, dotdot.
    repeat match goal with |- _ /\ _ => split | |- Forall _ _ => constructor end; try done; try (vm_compute; lia).
    all: apply (bool_decide_unpack _); vm_compute; done.
  - by rewrite length_replicate.
  - vm_compute. lia.
  - vm_compute. lia.
  - vm_compute. reflexivity.
Defined.

(** "-size +N" never asks for larger files: either the byte behind [indFlag] is
    0 and the program copies to pointers that were never set, or the sign is
    not seen and the search is for the size 0. *)
Lemma parse_size_plus after d ds c : Forall (fun c => c <> 0) (d :: ds) ->
  parse_size after (43 :: d :: ds) c =
    if hd0 after =? 0 then Undef
    else Ret (mkFind (fileName c) (ftype c) 0 (greaterThanSize c) (lessThanSize c) (noFlags c) (oneFlag c) (bothFlags c)).
Proof.
  intros Hd. unfold parse_size. change (str "+") with [43]. change (str "-") with [45]. cbn [hd0 cstring].
  change (43 =? 0) with false. cbn match. cbn [strcmp]. rewrite Z.eqb_refl.
  assert (1 < strlen (43 :: d :: ds)) as Hlen.
  { rewrite strlen_cstring, cstring_id by (constructor; [done|exact Hd]). cbn [length]. lia. }
  rewrite (proj2 (Z.ltb_lt _ _) Hlen). destruct after as [|x after]; [done|]. cbn [hd0 cstring].
  destruct (Z.eqb_spec x 0) as [->|Hx]; [done|]. cbn [strcmp]. rewrite (proj2 (Z.eqb_neq (x - 0) 0)) by lia. done.
Qed.
