(* ===== verification/Text.v ===== *)
(** What cat.c, wc.c and uniq.c have in common.  The arguments are those after the
    name of the program. *)
From S2P Require Import Prelude Layout CString Ulib User.

(** [printf(1, fmt, ...)] *)
Definition print {A} (fmt : bytes) (ap : list parg) (k : prog A) : prog A :=
  call* _ := Write 1 (default [] (printf fmt ap)) in k.

(** The loop of [main] over the files: open, [f], close. *)
Fixpoint each_file (name : bytes) (f : Z -> bytes -> prog unit) (argv : list bytes) : prog unit :=
  match argv with
  | [] => Exit_
  | arg :: argv =>
      call* fd := Open arg 0 in
      if fd <? 0 then print (name ++ str ": cannot open %s" ++ [10]) [PStr (Some arg)] Exit_
      else
        do* _ := f fd arg in
        call* _ := Close fd in
        each_file name f argv
  end.
