(* ===== verification/Cat.v ===== *)
(** cat.c: the files one after the other.  [n] bounds the calls of [read]. *)
From S2P Require Import Prelude Layout CString Ulib User Text.

Fixpoint cat (n : nat) (fd : Z) : prog unit :=
  match n with
  | O => Undef
  | S n =>
      call* r := Read fd 512 in
      if 0 <? r.1 then
        call* w := Write 1 r.2 in
        if negb (w =? r.1) then print (str "cat: write error" ++ [10]) [] Exit_
        else cat n fd
      else if r.1 <? 0 then print (str "cat: read error" ++ [10]) [] Exit_
      else Ret tt
  end.

Definition main (n : nat) (argv : list bytes) : prog unit :=
  match argv with
  | [] => do* _ := cat n 0 in Exit_
  | _ => each_file (str "cat") (fun fd _ => cat n fd) argv
  end.
