(* ===== verification/Wc.v ===== *)
(** wc.c: counting lines, words and bytes.  [n] bounds the calls of [read]. *)
From S2P Require Import Prelude Layout CString Ulib User Text.

Record counts := mkCounts { lines : Z; words : Z; chars : Z; inword : bool }.

(** The loop over the bytes that were read. *)
Definition count_byte (s : counts) (x : Z) : counts :=
  let c := s32 (chars s + 1) in
  let l := if x =? 10 then s32 (lines s + 1) else lines s in
  match strchr [32; 13; 9; 10; 11] x with
  | Some _ => mkCounts l (words s) c false
  | None => if negb (inword s) then mkCounts l (s32 (words s + 1)) c true else mkCounts l (words s) c (inword s)
  end.

Fixpoint wc_loop (n : nat) (fd : Z) (name : bytes) (s : counts) : prog unit :=
  match n with
  | O => Undef
  | S n =>
      call* r := Read fd 512 in
      if 0 <? r.1 then wc_loop n fd name (fold_left count_byte r.2 s)
      else if r.1 <? 0 then print (str "wc: read error" ++ [10]) [] Exit_
      else
        print (str "%d %d %d %s" ++ [10]) [PInt (lines s); PInt (words s); PInt (chars s); PStr (Some name)] (Ret tt)
  end.
Definition wc (n : nat) (fd : Z) (name : bytes) : prog unit := wc_loop n fd name (mkCounts 0 0 0 false).

Definition main (n : nat) (argv : list bytes) : prog unit :=
  match argv with
  | [] => do* _ := wc n 0 [] in Exit_
  | _ => each_file (str "wc") (wc n) argv
  end.
