(* ===== verification/Uniq.v ===== *)
(** uniq.c: one line for each run of equal lines.  [n] bounds the calls of [read]. *)
From S2P Require Import Prelude Layout CString Ulib User Text.

(** The flags -c, -i and -d. *)
Record flags := mkFlags { count : bool; ignore : bool; dups : bool }.

(** The variables of [uniq].  The arrays are not initialised. *)
Record vars := mkVars {
  isFirstIteration : bool; line1 : bytes; line1len : nat; line2 : bytes; line2len : nat; matchesFound : Z
}.

(** An array as a string: there must be a 0 in it. *)
Definition string_in (a : bytes) : option bytes := if existsb (Z.eqb 0) a then Some (cstring a) else None.

(** [strcmp] of two arrays; [None] if it would read past their ends. *)
Fixpoint strcmp_in (a b : bytes) : option Z :=
  match a, b with
  | c :: a', d :: b' => if (c =? d) && negb (c =? 0) then strcmp_in a' b' else Some (c - d)
  | _, _ => None
  end.

(** Printing a line, unless only duplicates are to be printed. *)
Definition print_line {A} (fl : flags) (v : vars) (s : bytes) (k : prog A) : prog A :=
  let rest := print (str "%s" ++ [10]) [PStr (Some s)] k in
  if count fl then print (str "%d  ") [PInt (matchesFound v + 1)] rest else rest.

(** What follows the comparison at the end of a line. *)
Definition shift (v : vars) (matches : Z) : vars :=
  let a := splice (line1 v) 0 (replicate (line1len v) 0) in
  let a := splice a 0 (take (line2len v) (line2 v)) in
  mkVars false a (line2len v) (splice (line2 v) 0 (replicate (line2len v) 0)) O matches.

(** The end of a line. *)
Definition newline (fl : flags) (v : vars) (k : vars -> prog unit) : prog unit :=
  if isFirstIteration v then k (mkVars false (line1 v) (line1len v) (line2 v) (line2len v) (matchesFound v))
  else
    match strcmp_in (line1 v) (line2 v) with
    | Some r =>
        if r =? 0 then k (shift v (s32 (matchesFound v + 1)))
        else if dups fl && (matchesFound v =? 0) then k (shift v (matchesFound v))
        else match string_in (line1 v) with Some s1 => print_line fl v s1 (k (shift v 0)) | None => Undef end
    | None => Undef
    end.

(** Any other character; the arrays have 512 bytes. *)
Definition add_char (fl : flags) (v : vars) (x : Z) (k : vars -> prog unit) : prog unit :=
  let x := if ignore fl && ((65 <=? x) && (x <=? 90)) then x + 32 else x in
  if isFirstIteration v then
    if (line1len v <? length (line1 v))%nat
    then k (mkVars (isFirstIteration v) (<[line1len v := x]> (line1 v)) (S (line1len v)) (line2 v) (line2len v) (matchesFound v))
    else Undef
  else
    if (line2len v <? length (line2 v))%nat
    then k (mkVars (isFirstIteration v) (line1 v) (line1len v) (<[line2len v := x]> (line2 v)) (S (line2len v)) (matchesFound v))
    else Undef.

(** After the loop: the last line. *)
Definition last_line (fl : flags) (v : vars) : prog unit :=
  if dups fl && (matchesFound v =? 0) then Ret tt
  else match string_in (line1 v) with Some s => print_line fl v s (Ret tt) | None => Undef end.

Fixpoint uniq_loop (n : nat) (fl : flags) (fd : Z) (v : vars) : prog unit :=
  match n with
  | O => Undef
  | S n =>
      call* r := Read fd 1 in
      if 0 <? r.1 then
        let x := hd0 r.2 in
        if x =? 10 then newline fl v (uniq_loop n fl fd) else add_char fl v x (uniq_loop n fl fd)
      else if r.1 <? 0 then print (str "uniq: could not read file" ++ [10]) [] Exit_
      else last_line fl v
  end.

(** [a1] and [a2] are what the arrays hold at first. *)
Definition uniq (n : nat) (a1 a2 : bytes) (fl : flags) (fd : Z) : prog unit :=
  uniq_loop n fl fd (mkVars true a1 O a2 O 0).

Definition set_flag (fl : flags) (arg : bytes) : flags :=
  if strcmp arg (str "-c") =? 0 then mkFlags true (ignore fl) (dups fl)
  else if strcmp arg (str "-i") =? 0 then mkFlags (count fl) true (dups fl)
  else if strcmp arg (str "-d") =? 0 then mkFlags (count fl) (ignore fl) true
  else fl.

Definition with_newlines (p : prog unit) : prog unit :=
  print [10] [] (do* _ := p in print [10] [] Exit_).

(** The last argument is the file. *)
Definition main (n : nat) (a1 a2 : bytes) (argv : list bytes) : prog unit :=
  match last argv with
  | None => with_newlines (uniq n a1 a2 (mkFlags false false false) 0)
  | Some file =>
      call* fd := Open file 0 in
      if fd <? 0 then print (str "uniq: %s cannot be opened" ++ [10]) [PStr (Some file)] Exit_
      else with_newlines (uniq n a1 a2 (fold_left set_flag (removelast argv) (mkFlags false false false)) fd)
  end.
