(* ===== verification/TextSpec.v ===== *)
(** What cat.c, wc.c and uniq.c print for the files of a tree. *)
From S2P Require Import Prelude Layout CString Fs FsDir Ulib User UserRun Text Cat Wc Uniq.

(** * Reading a file *)

Section read.
Context (root cwd : place).

Lemma run_read_file {A} (k : Z * bytes -> prog A) t o fd nu ty c up off m : (fd < length t)%nat -> 0 <= m ->
  run root cwd (Call (Read (Z.of_nat fd) m) k) (<[fd := Some (Open_ (NFile nu ty c :: up) off)]> t, o) =
    let s := slice c off (Z.to_nat m) in
    run root cwd (k (Z.of_nat (length s), s)) (<[fd := Some (Open_ (NFile nu ty c :: up) (off + length s))]> t, o).
Proof.
  intros Hlt Hm. cbn [run serve]. rewrite fd_get_nat, list_lookup_insert_eq by done. cbn [mjoin option_join content].
  by rewrite Nat2Z.id, list_insert_insert_eq.
Qed.

Lemma run_print {A} fmt ap (k : prog A) t o :
  run root cwd (print fmt ap k) (t, o) = run root cwd k (t, o ++ [(1, default [] (printf fmt ap))]).
Proof. done. Qed.

(** A program that ends the reading of an open file [c] and writes [f c]. *)
Definition reads (p : Z -> prog unit) (c : bytes) (out : list (Z * bytes)) : Prop :=
  forall t o fd nu ty up, (fd < length t)%nat ->
    run root cwd (p (Z.of_nat fd)) (<[fd := Some (Open_ (NFile nu ty c :: up) 0)]> t, o) =
      Some (Some tt, (<[fd := Some (Open_ (NFile nu ty c :: up) (length c))]> t, o ++ out)).

(** The loop of [main] over files, each of which can be opened. *)
Lemma run_each_file name f out argv t o : (1 <= free t)%nat ->
  Forall (fun arg => exists nu ty c up, resolve root cwd arg = Some (NFile nu ty c :: up) /\ reads (fun fd => f fd arg) c (out arg c)) argv ->
  run root cwd (each_file name f argv) (t, o) =
    Some (None, (t, o ++ concat (map (fun arg =>
      match resolve root cwd arg with Some (NFile _ _ c :: _) => out arg c | _ => [] end) argv))).
Proof.
  intros Hf Hall. revert o. induction Hall as [|arg argv (nu & ty & c & up & Hr & Hp) _ IH]; intros o; [by cbn; rewrite app_nil_r|].
  cbn [each_file map concat]. rewrite Hr. destruct (run_open root cwd arg _ t o 0 Hr Hf) as (fd & Hfd & _ & E). rewrite E. clear E.
  rewrite (proj2 (Z.ltb_ge _ _)) by lia. pose proof (lookup_lt_Some _ _ _ Hfd) as Hlt. rewrite run_pbind, Hp by done.
  erewrite run_close by (by apply list_lookup_insert_eq). rewrite list_insert_insert_eq, list_insert_id by done.
  rewrite IH. by rewrite <- app_assoc.
Qed.
End read.

(** * cat.c *)

(** The pieces of 512 bytes of a file. *)
Fixpoint pieces (n : nat) (c : bytes) : list bytes :=
  match n with
  | O => []
  | S n => match c with [] => [] | _ => take 512 c :: pieces n (drop 512 c) end
  end.

Lemma pieces_concat n c : (length c <= n)%nat -> concat (pieces n c) = c.
Proof.
  revert c. induction n as [|n IH]; intros [|x c] Hn; try done; [cbn in Hn; lia|]. cbn [pieces concat].
  rewrite IH; [apply take_drop|]. rewrite length_drop. cbn in *. lia.
Qed.

Lemma cat_reads root cwd n c : (length c < n)%nat -> reads root cwd (Cat.cat n) c (map (pair 1) (pieces n c)).
Proof.
  intros Hn t o fd nu ty up Hlt.
  assert (forall off, (length (drop off c) < n)%nat -> (off <= length c)%nat ->
    run root cwd (Cat.cat n (Z.of_nat fd)) (<[fd := Some (Open_ (NFile nu ty c :: up) off)]> t, o) =
      Some (Some tt, (<[fd := Some (Open_ (NFile nu ty c :: up) (length c))]> t, o ++ map (pair 1) (pieces n (drop off c))))) as Hgen.
  2: { rewrite (Hgen 0%nat); [by rewrite drop_0|by rewrite drop_0|lia]. }
  clear Hn. revert o. induction n as [|n IH]; intros o off Hn Hoff; [lia|]. cbn [Cat.cat]. rewrite run_read_file by (done || lia).
  cbv zeta. unfold slice. change (Z.to_nat 512) with 512%nat. cbn [fst snd pieces]. rewrite length_take.
  destruct (drop off c) as [|x l] eqn:E.
  - cbn [length]. rewrite Nat.min_0_r. cbn. assert (length (drop off c) = 0%nat) as El by (by rewrite E). rewrite length_drop in El.
    by rewrite app_nil_r, Nat.add_0_r, (Nat.le_antisymm off (length c)) by lia.
  - assert (0 < length (x :: l))%nat by (cbn; lia). assert (length (drop off c) = length (x :: l)) as El by (by rewrite E). rewrite length_drop in El.
    rewrite (proj2 (Z.ltb_lt _ _)) by lia. cbn [run serve]. rewrite length_take, Z.eqb_refl. cbn [negb].
    assert (drop (off + Nat.min 512 (length (x :: l))) c = drop 512 (x :: l)) as Ed.
    { rewrite <- drop_drop, E. destruct (decide (512 <= length (x :: l))%nat); [by rewrite Nat.min_l|]. rewrite Nat.min_r, !drop_ge by lia. done. }
    rewrite IH; rewrite ?Ed, ?length_drop; [|lia|lia]. cbn [map]. by rewrite <- app_assoc.
Qed.

(** cat.c writes the files one after the other. *)
Lemma cat_copies root cwd argv t n : argv <> [] -> (1 <= free t)%nat ->
  Forall (fun arg => exists nu ty c up, resolve root cwd arg = Some (NFile nu ty c :: up) /\ (length c < n)%nat) argv ->
  exists out, run root cwd (Cat.main n argv) (t, []) = Some (None, (t, out)) /\
    concat (map snd out) = concat (map (fun arg => match resolve root cwd arg with Some (NFile _ _ c :: _) => c | _ => [] end) argv).
Proof.
  intros Hne Hf Hall. eexists. split.
  - destruct argv as [|a argv]; [done|]. cbn [Cat.main].
    apply (run_each_file root cwd (str "cat") (fun fd _ => Cat.cat n fd) (fun _ c => map (pair 1) (pieces n c))); [done|].
    eapply Forall_impl; [exact Hall|]. intros arg (nu & ty & c & up & Hr & Hn). exists nu, ty, c, up. split; [done|]. by apply cat_reads.
  - clear Hne Hf. rewrite app_nil_l. induction Hall as [|arg argv (nu & ty & c & up & Hr & Hn) _ IH]; [done|]. cbn [map concat]. rewrite Hr, map_app, concat_app.
    rewrite IH. f_equal. rewrite map_map. cbn [snd]. rewrite map_id. apply pieces_concat. lia.
Qed.

(** * wc.c *)

Definition space (x : Z) : bool := match strchr [32; 13; 9; 10; 11] x with Some _ => true | None => false end.

(** The words of a text: the longest pieces without space; [acc] is the one being read. *)
Fixpoint text_words (acc c : bytes) : list bytes :=
  match c with
  | [] => if decide (acc = []) then [] else [acc]
  | x :: c =>
      if space x then (if decide (acc = []) then text_words [] c else acc :: text_words [] c)
      else text_words (acc ++ [x]) c
  end.
Definition text_lines (c : bytes) : Z := Z.of_nat (length (filter (fun x => x = 10) c)).

Lemma text_words_acc acc c : acc <> [] -> exists w ws, text_words acc c = w :: ws.
Proof.
  revert acc. induction c as [|x c IH]; intros acc Ha; cbn [text_words]; [rewrite decide_False by done; eauto|].
  destruct (space x); [rewrite decide_False by done; eauto|]. apply IH. by destruct acc.
Qed.

(** [s] counts the bytes before [c]; the word being counted is [acc]. *)
Lemma count_bytes acc c s : Wc.inword s = negb (bool_decide (acc = [])) ->
  0 <= Wc.lines s <= Wc.chars s -> 0 <= Wc.words s <= Wc.chars s -> Wc.chars s + Z.of_nat (length c) < 2 ^ 31 ->
  let r := fold_left Wc.count_byte c s in
  Wc.lines r = Wc.lines s + text_lines c /\
  Wc.words r = Wc.words s + Z.of_nat (length (text_words acc c)) - (if decide (acc = []) then 0 else 1) /\
  Wc.chars r = Wc.chars s + Z.of_nat (length c).
Proof.
  revert acc s. induction c as [|x c IH]; intros acc s Hin Hl Hw Hc; cbn [fold_left text_words]; cbv zeta.
  - unfold text_lines. cbn. case_decide; cbn; lia.
  - cbn [length] in Hc |- *.
    assert (Hx : text_lines (x :: c) = (if x =? 10 then 1 else 0) + text_lines c).
    { unfold text_lines. rewrite filter_cons. destruct (Z.eqb_spec x 10); [rewrite decide_True by done|rewrite decide_False by done]; cbn [length]; lia. }
    assert (Hl' : (if x =? 10 then s32 (Wc.lines s + 1) else Wc.lines s) = Wc.lines s + if x =? 10 then 1 else 0).
    { destruct (x =? 10); [apply s32_small|]; lia. }
    assert (Hx1 : 0 <= (if x =? 10 then 1 else 0) <= 1) by (destruct (x =? 10); lia).
    unfold Wc.count_byte at 2 4 6. rewrite Hl', (s32_small (Wc.chars s + 1)) by lia. fold (Wc.count_byte). rewrite Hin.
    unfold space. destruct (strchr [32; 13; 9; 10; 11] x).
    + destruct (IH [] (Wc.mkCounts (Wc.lines s + if x =? 10 then 1 else 0) (Wc.words s) (Wc.chars s + 1) false)) as (E1 & E2 & E3);
        cbn [Wc.lines Wc.words Wc.chars Wc.inword] in *; [done|lia|lia|lia|].
      rewrite E1, E2, E3, Hx. rewrite (decide_True (P := [] = [])) by done. destruct (decide (acc = [])); cbn [length]; lia.
    + assert (Hne : acc ++ [x] <> []) by (by destruct acc). destruct (text_words_acc _ c Hne) as (w & ws & E). 
      case_bool_decide as Ha; cbn [negb].
      * destruct (IH (acc ++ [x]) (Wc.mkCounts (Wc.lines s + if x =? 10 then 1 else 0) (s32 (Wc.words s + 1)) (Wc.chars s + 1) true)) as (E1 & E2 & E3);
          cbn [Wc.lines Wc.words Wc.chars Wc.inword] in *; [by rewrite bool_decide_eq_false_2|lia|rewrite s32_small by lia; lia|lia|].
        rewrite E1, E2, E3, Hx, s32_small by lia. rewrite (decide_False (P := acc ++ [x] = [])) by done. rewrite (decide_True (P := acc = [])) by done. lia.
      * destruct (IH (acc ++ [x]) (Wc.mkCounts (Wc.lines s + if x =? 10 then 1 else 0) (Wc.words s) (Wc.chars s + 1) true)) as (E1 & E2 & E3);
          cbn [Wc.lines Wc.words Wc.chars Wc.inword] in *; [by rewrite bool_decide_eq_false_2|lia|lia|lia|].
        rewrite E1, E2, E3, Hx. rewrite (decide_False (P := acc ++ [x] = [])) by done. rewrite (decide_False (P := acc = [])) by done. lia.
Qed.

(** What wc.c prints for a file. *)
Definition wc_line (name c : bytes) : list (Z * bytes) :=
  [(1, default [] (printf (str "%d %d %d %s" ++ [10])
         [PInt (text_lines c); PInt (Z.of_nat (length (text_words [] c))); PInt (Z.of_nat (length c)); PStr (Some name)]))].

Lemma wc_reads root cwd n name c : (length c < n)%nat -> Z.of_nat (length c) < 2 ^ 31 ->
  reads root cwd (fun fd => Wc.wc n fd name) c (wc_line name c).
Proof.
  intros Hn Hc t o fd nu ty up Hlt. unfold Wc.wc.
  assert (forall off s, (length (drop off c) < n)%nat -> (off <= length c)%nat ->
    fold_left Wc.count_byte c (Wc.mkCounts 0 0 0 false) = fold_left Wc.count_byte (drop off c) s ->
    run root cwd (Wc.wc_loop n (Z.of_nat fd) name s) (<[fd := Some (Open_ (NFile nu ty c :: up) off)]> t, o) =
      Some (Some tt, (<[fd := Some (Open_ (NFile nu ty c :: up) (length c))]> t, o ++ wc_line name c))) as Hgen.
  2: { rewrite (Hgen 0%nat); [done|by rewrite drop_0|lia|by rewrite drop_0]. }
  clear Hn. induction n as [|n IH]; intros off s Hn Hoff Hs; [lia|]. cbn [Wc.wc_loop]. rewrite run_read_file by (done || lia).
  cbv zeta. unfold slice. change (Z.to_nat 512) with 512%nat. cbn [fst snd]. rewrite length_take.
  assert (length (drop off c) = length c - off)%nat as El by apply length_drop.
  destruct (drop off c) as [|x l] eqn:E.
  - cbn [length] in *. rewrite Nat.min_0_r. cbn [fold_left] in Hs. change (Z.of_nat 0) with 0. change (0 <? 0) with false. cbn match.
    rewrite run_print. destruct (count_bytes [] c (Wc.mkCounts 0 0 0 false)) as (E1 & E2 & E3);
      cbn [Wc.lines Wc.words Wc.chars Wc.inword]; [done|lia|lia|lia|].
    rewrite Hs in E1, E2, E3. cbn [Wc.lines Wc.words Wc.chars] in E1, E2, E3. rewrite Z.add_0_l in E1, E2, E3.
    rewrite (decide_True (P := [] = [])), Z.sub_0_r in E2 by done. rewrite E1, E2, E3.
    rewrite Nat.add_0_r, (Nat.le_antisymm off (length c)) by lia. unfold wc_line. reflexivity.
  - assert (0 < length (x :: l))%nat by (cbn; lia). rewrite (proj2 (Z.ltb_lt _ _)) by lia.
    assert (drop (off + Nat.min 512 (length (x :: l))) c = drop 512 (x :: l)) as Ed.
    { rewrite <- drop_drop, E. destruct (decide (512 <= length (x :: l))%nat); [by rewrite Nat.min_l|]. rewrite Nat.min_r, !drop_ge by lia. done. }
    apply IH; [rewrite Ed, length_drop; lia|lia|]. rewrite Hs, Ed, <- fold_left_app, take_drop. done.
Qed.

(** wc.c counts lines, words and bytes however [read] cuts the file. *)
Lemma wc_counts root cwd argv t n : argv <> [] -> (1 <= free t)%nat ->
  Forall (fun arg => exists nu ty c up, resolve root cwd arg = Some (NFile nu ty c :: up) /\ (length c < n)%nat /\ Z.of_nat (length c) < 2 ^ 31) argv ->
  run root cwd (Wc.main n argv) (t, []) =
    Some (None, (t, concat (map (fun arg => match resolve root cwd arg with Some (NFile _ _ c :: _) => wc_line arg c | _ => [] end) argv))).
Proof.
  intros Hne Hf Hall. destruct argv as [|a argv]; [done|]. cbn [Wc.main]. rewrite (run_each_file root cwd (str "wc") (Wc.wc n) wc_line); [done|done|].
  eapply Forall_impl; [exact Hall|]. intros arg (nu & ty & c & up & Hr & Hn & Hc). exists nu, ty, c, up. split; [done|]. by apply wc_reads.
Qed.

(** * uniq.c *)

Section uniq.

Definition lower (fl : flags) (x : Z) : Z := if ignore fl && ((65 <=? x) && (x <=? 90)) then x + 32 else x.

(** Runs of equal lines, with their lengths; [cur] is the current one, seen [n] times. *)
Fixpoint groups (cur : bytes) (n : Z) (ls : list bytes) : list (bytes * Z) :=
  match ls with
  | [] => [(cur, n)]
  | l :: ls => if decide (cur = l) then groups cur (n + 1) ls else (cur, n) :: groups l 1 ls
  end.

(** What is to be printed for a run. *)
Definition group_out (fl : flags) (g : bytes * Z) : list (Z * bytes) :=
  if dups fl && (g.2 =? 1) then []
  else (if count fl then [(1, printint g.2 10 true ++ str "  ")] else []) ++ [(1, g.1 ++ [10])].

(** The characters of a line, and the lines that fit the arrays. *)
Definition is_char (x : Z) : Prop := 0 < x /\ x <> 10.
Definition line_ok (l : bytes) : Prop := Forall is_char l /\ (length l < 512)%nat.

Definition pad (l : bytes) : bytes := l ++ replicate (512 - length l) 0.

(** The variables: [b] in the first line; [cur] the line before, [part] what has been read of the next. *)
Definition V (b : bool) (cur part : bytes) (m : Z) : vars :=
  if b then mkVars true (pad part) (length part) (pad []) 0 0
  else mkVars false (pad cur) (length cur) (pad part) (length part) m.

Lemma length_pad l : (length l <= 512)%nat -> length (pad l) = 512%nat.
Proof. intros H. unfold pad. rewrite length_app, length_replicate. lia. Qed.

Lemma pad_snoc l x : (length l < 512)%nat -> <[length l := x]> (pad l) = pad (l ++ [x]).
Proof.
  intros H. unfold pad. rewrite length_app. cbn [length]. replace (512 - length l)%nat with (S (512 - (length l + 1)))%nat by lia.
  rewrite insert_app_r_alt by lia. rewrite Nat.sub_diag. cbn [replicate]. by rewrite <- app_assoc.
Qed.

Lemma pad_clear l : (length l <= 512)%nat -> splice (pad l) 0 (replicate (length l) 0) = pad [].
Proof.
  intros H. unfold splice. rewrite take_0, app_nil_l, length_replicate. unfold pad. rewrite drop_app_length' by lia.
  rewrite app_nil_l, <- replicate_add. f_equal. cbn. lia.
Qed.

Lemma pad_copy l : (length l <= 512)%nat -> splice (pad []) 0 (take (length l) (pad l)) = pad l.
Proof.
  intros H. unfold pad at 2. rewrite take_app_length. unfold splice. rewrite take_0, app_nil_l. unfold pad. rewrite app_nil_l. f_equal.
  rewrite drop_replicate. f_equal.
Qed.

Lemma is_char_nonzero l : Forall is_char l -> Forall (fun c => c <> 0) l.
Proof. intros H. eapply Forall_impl; [exact H|]. intros x []. lia. Qed.

Lemma string_in_pad l : line_ok l -> string_in (pad l) = Some l.
Proof.
  intros [Hc Hl]. unfold string_in, pad. destruct (512 - length l)%nat as [|k] eqn:E; [lia|]. cbn [replicate].
  rewrite existsb_app. cbn [existsb Z.eqb orb]. rewrite orb_true_r. f_equal.
  apply is_char_nonzero in Hc. clear E Hl. induction Hc as [|c l Hc' Hl IH]; [done|]. cbn. by rewrite (proj2 (Z.eqb_neq _ _) Hc'), IH.
Qed.

Lemma strcmp_in_pad a b : line_ok a -> line_ok b -> exists r, strcmp_in (pad a) (pad b) = Some r /\ (r = 0 <-> a = b).
Proof.
  intros [Ha Hla] [Hb Hlb]. unfold pad.
  assert (exists k k', (512 - length a)%nat = S k /\ (512 - length b)%nat = S k') as (k & k' & -> & ->).
  { exists (511 - length a)%nat, (511 - length b)%nat. lia. }
  clear Hla Hlb. revert b Hb. induction Ha as [|c a [Hc _] _ IH]; intros b Hb; destruct Hb as [|d b [Hd _] Hb]; cbn [app replicate strcmp_in].
  - exists 0. done.
  - rewrite (proj2 (Z.eqb_neq 0 d)) by lia. cbn [andb]. eexists. split; [done|]. split; [lia|done].
  - rewrite (proj2 (Z.eqb_neq c 0)) by lia. cbn [andb]. eexists. split; [done|]. split; [lia|done].
  - destruct (Z.eqb_spec c d) as [->|Hcd].
    + rewrite (proj2 (Z.eqb_neq d 0)) by lia. cbn [negb andb]. destruct (IH b Hb) as (r & E & Hr). exists r. split; [exact E|].
      rewrite Hr. split; [by intros ->|by intros [= ->]].
    + cbn [andb]. eexists. split; [done|]. split; [lia|]. by intros [= ->].
Qed.

Lemma lower_char fl x : is_char x -> is_char (lower fl x).
Proof. unfold is_char, lower. destruct (ignore fl); cbn [andb]; [|done]. destruct (Z.leb_spec 65 x), (Z.leb_spec x 90); cbn; lia. Qed.

Lemma lower_line fl l : line_ok l -> line_ok (map (lower fl) l).
Proof.
  intros [Hc Hl]. split; [|by rewrite length_map]. apply Forall_map. eapply Forall_impl; [exact Hc|]. apply lower_char.
Qed.

Lemma shift_V cur part m m' : line_ok cur -> line_ok part -> shift (V false cur part m) m' = V false part [] m'.
Proof.
  intros [_ Hc] [_ Hp]. unfold shift, V. cbn [line1 line1len line2 line2len]. rewrite !pad_clear, pad_copy by lia. done.
Qed.

(** A line is printed, with its count. *)
Lemma run_print_line {A} root cwd fl v s (k : prog A) t o : 0 <= matchesFound v < 2 ^ 31 - 1 ->
  run root cwd (print_line fl v s k) (t, o) =
    run root cwd k (t, o ++ (if count fl then [(1, printint (matchesFound v + 1) 10 true ++ str "  ")] else []) ++ [(1, s ++ [10])]).
Proof.
  intros Hm. unfold print_line.
  assert (default [] (printf (str "%s" ++ [10]) [PStr (Some s)]) = s ++ [10]) as E1 by done.
  assert (default [] (printf (str "%d  ") [PInt (matchesFound v + 1)]) = printint (matchesFound v + 1) 10 true ++ str "  ") as E2.
  { unfold printf. change (str "%d  ") with [37; 100; 32; 32]. cbn [printf_from negb Z.eqb Pos.eqb mbind option_bind default]. by rewrite s32_small by lia. }
  destruct (count fl); rewrite !run_print, E1, ?E2; [|done]. by rewrite <- app_assoc.
Qed.

Section file.
Context (root cwd : place) (fl : flags) (nu ty : Z) (c : bytes) (up : place) (t : list (option ofile)) (fd : nat).
Context (Hfd : (fd < length t)%nat).

Definition at_off (off : nat) : list (option ofile) := <[fd := Some (Open_ (NFile nu ty c :: up) off)]> t.

Lemma slice_one off x rest : drop off c = x :: rest -> slice c off (Z.to_nat 1) = [x].
Proof. intros E. unfold slice. by rewrite E. Qed.

(** The characters of a line are collected. *)
Lemma run_chars n b cur part m l rest o : Forall is_char l -> (length part + length l <= 512)%nat ->
  forall off, drop off c = l ++ rest ->
  run root cwd (uniq_loop (length l + n) fl (Z.of_nat fd) (V b cur part m)) (at_off off, o) =
    run root cwd (uniq_loop n fl (Z.of_nat fd) (V b cur (part ++ map (lower fl) l) m)) (at_off (off + length l), o).
Proof.
  intros Hl. revert part. induction Hl as [|x l [Hx0 Hx] _ IH]; intros part Hlen off Hoff.
  { cbn. by rewrite app_nil_r, Nat.add_0_r. }
  cbn [length Nat.add uniq_loop] in Hlen |- *. unfold at_off. rewrite run_read_file by (done || lia). cbv zeta. rewrite (slice_one _ _ _ Hoff).
  cbn [length fst snd hd0]. change (0 <? Z.of_nat 1) with true. cbn match. rewrite (proj2 (Z.eqb_neq x 10)) by done.
  assert (add_char fl (V b cur part m) x (uniq_loop (length l + n) fl (Z.of_nat fd)) =
    uniq_loop (length l + n) fl (Z.of_nat fd) (V b cur (part ++ [lower fl x]) m)) as ->.
  { unfold add_char. fold (lower fl x). unfold V. destruct b; cbn [isFirstIteration line1 line1len line2 line2len matchesFound];
      rewrite length_pad by lia; rewrite (proj2 (Nat.ltb_lt _ _)) by lia; rewrite pad_snoc, length_app by lia; cbn [length]; by rewrite Nat.add_1_r. }
  fold (at_off (off + 1)). rewrite IH.
  - cbn [map]. rewrite <- app_assoc. cbn [app]. by replace (off + S (length l))%nat with (off + 1 + length l)%nat by lia.
  - rewrite length_app. cbn. lia.
  - by rewrite <- drop_drop, Hoff.
Qed.

(** The end of the file, in the middle of a line that is not kept. *)
Lemma run_last n cur part m o : line_ok cur -> 0 <= m < 2 ^ 31 - 1 ->
  run root cwd (uniq_loop (S n) fl (Z.of_nat fd) (V false cur part m)) (at_off (length c), o) =
    Some (Some tt, (at_off (length c), o ++ group_out fl (cur, m + 1))).
Proof.
  intros Hcur Hm. cbn [uniq_loop]. unfold at_off. rewrite run_read_file by (done || lia). cbv zeta.
  assert (slice c (length c) (Z.to_nat 1) = []) as -> by (unfold slice; by rewrite drop_all). cbn [length fst snd]. change (0 <? Z.of_nat 0) with false.
  change (Z.of_nat 0 <? 0) with false. cbn match. rewrite Nat.add_0_r. unfold last_line, V. cbn [matchesFound line1]. rewrite string_in_pad by done.
  unfold group_out. cbn [fst snd]. replace (m + 1 =? 1) with (m =? 0) by (destruct (Z.eqb_spec m 0), (Z.eqb_spec (m + 1) 1); (done || lia)).
  destruct (dups fl && (m =? 0)); [by rewrite app_nil_r|]. by rewrite run_print_line.
Qed.

(** The end of a line: a run goes on, or is printed and a new one begins. *)
Lemma run_newline n cur part m o off rest ls : line_ok cur -> line_ok part -> 0 <= m < 2 ^ 31 - 1 -> drop off c = 10 :: rest ->
  exists cur' m' o', run root cwd (uniq_loop (S n) fl (Z.of_nat fd) (V false cur part m)) (at_off off, o) =
      run root cwd (uniq_loop n fl (Z.of_nat fd) (V false cur' [] m')) (at_off (S off), o ++ o') /\
    line_ok cur' /\ 0 <= m' <= m + 1 /\
    concat (map (group_out fl) (groups cur (m + 1) (part :: ls))) = o' ++ concat (map (group_out fl) (groups cur' (m' + 1) ls)).
Proof.
  intros Hcur Hpart Hm Hoff. cbn [uniq_loop]. unfold at_off. rewrite run_read_file by (done || lia). cbv zeta. rewrite (slice_one _ _ _ Hoff).
  cbn [length fst snd hd0]. change (0 <? Z.of_nat 1) with true. change (10 =? 10) with true. cbn match. fold (at_off (off + 1)). rewrite Nat.add_1_r.
  unfold newline. change (isFirstIteration (V false cur part m)) with false. cbn match.
  change (line1 (V false cur part m)) with (pad cur). change (line2 (V false cur part m)) with (pad part). change (matchesFound (V false cur part m)) with m.
  destruct (strcmp_in_pad _ _ Hcur Hpart) as (r & -> & Hr). rewrite !shift_V by done. cbn [groups].
  destruct (Z.eqb_spec r 0) as [E|E].
  - apply Hr in E as <-. rewrite decide_True by done. exists cur, (m + 1), []. rewrite s32_small by lia. rewrite app_nil_r. split_and!; [done|done|lia|lia|].
    done.
  - rewrite decide_False by (by rewrite <- Hr). cbn [map concat]. unfold group_out at 1. cbn [fst snd].
    replace (m + 1 =? 1) with (m =? 0) by (destruct (Z.eqb_spec m 0), (Z.eqb_spec (m + 1) 1); (done || lia)).
    destruct (dups fl && (m =? 0)) eqn:Ed.
    + apply andb_true_iff in Ed as [_ ->%Z.eqb_eq]. exists part, 0, []. rewrite app_nil_r. split_and!; [done|done|lia|lia|done].
    + rewrite string_in_pad by done. rewrite run_print_line by done. eexists part, 0, _. split_and!; [done|done|lia|lia|done].
Qed.

Lemma run_lines ls tail n : Forall line_ok ls -> line_ok tail -> forall cur m off o, line_ok cur -> 0 <= m -> m + Z.of_nat (length ls) < 2 ^ 31 - 1 ->
  drop off c = concat (map (fun l => l ++ [10]) ls) ++ tail -> (length (drop off c) < n)%nat -> (off <= length c)%nat ->
  run root cwd (uniq_loop n fl (Z.of_nat fd) (V false cur [] m)) (at_off off, o) =
    Some (Some tt, (at_off (length c), o ++ concat (map (group_out fl) (groups cur (m + 1) (map (map (lower fl)) ls))))).
Proof.
  intros Hls Htail. revert n. induction Hls as [|l ls Hl Hls IH]; intros n cur m off o Hcur Hm Hmax Hoff Hn Hle.
  - cbn [map concat app] in Hoff. rewrite Hoff in Hn. replace n with (length tail + S (n - length tail - 1))%nat by lia.
    rewrite (run_chars _ false cur [] m tail [] o) by (try apply Htail; destruct Htail; cbn; (lia || by rewrite app_nil_r)).
    assert (length (drop off c) = length tail) as El by (by rewrite Hoff). rewrite length_drop in El.
    replace (off + length tail)%nat with (length c) by lia. rewrite run_last by (done || cbn in Hmax; lia). cbn [map groups concat]. by rewrite app_nil_r.
  - cbn [map concat] in Hoff. rewrite <- !app_assoc in Hoff. cbn [app length] in Hoff, Hmax.
    assert (length (drop off c) = length l + S (length (concat (map (fun l => l ++ [10%Z]) ls) ++ tail)))%nat as El by (rewrite Hoff, length_app; done).
    replace n with (length l + S (n - length l - 1))%nat by lia.
    rewrite (run_chars _ false cur [] m l (10 :: concat (map (fun l => l ++ [10]) ls) ++ tail) o) by (try apply Hl; destruct Hl; cbn; (lia || done)).
    assert (drop (off + length l) c = 10 :: concat (map (fun l => l ++ [10]) ls) ++ tail) as Hoff2 by (rewrite <- drop_drop, Hoff; apply drop_app_length).
    cbn [app]. destruct (run_newline (n - length l - 1) cur (map (lower fl) l) m o (off + length l) _ (map (map (lower fl)) ls) Hcur (lower_line fl l Hl) ltac:(lia) Hoff2)
      as (cur' & m' & o' & E & Hcur' & Hm' & Eg). rewrite E. rewrite length_drop in El, Hn.
    assert (drop (S (off + length l)) c = concat (map (fun l => l ++ [10]) ls) ++ tail) as Hoff3.
    { rewrite <- Nat.add_1_r, <- drop_drop, Hoff2. done. }
    rewrite IH; [|done|lia|lia|done|rewrite Hoff3; lia|lia]. cbn [map]. rewrite Eg. by rewrite <- app_assoc.
Qed.
End file.

(** [gs] are the runs of equal lines of [ls]: their lengths add up, and the lines of
    neighbouring runs differ. *)
Fixpoint neighbours_differ (gs : list (bytes * Z)) : Prop :=
  match gs with
  | g :: (g' :: _) as gs' => g.1 <> g'.1 /\ neighbours_differ gs'
  | _ => True
  end.
Definition runs_of (ls : list bytes) (gs : list (bytes * Z)) : Prop :=
  concat (map (fun g => replicate (Z.to_nat g.2) g.1) gs) = ls /\ Forall (fun g => 0 < g.2) gs /\ neighbours_differ gs.

Lemma groups_head cur n ls : exists m gs, groups cur n ls = (cur, m) :: gs.
Proof. revert n. induction ls as [|l ls IH]; intros n; cbn [groups]; [eauto|]. case_decide; [apply IH|eauto]. Qed.

Lemma groups_runs cur n ls : 0 < n -> runs_of (replicate (Z.to_nat n) cur ++ ls) (groups cur n ls).
Proof.
  revert cur n. induction ls as [|l ls IH]; intros cur n Hn; cbn [groups].
  - unfold runs_of. cbn. by repeat constructor.
  - case_decide as E.
    + subst l. specialize (IH cur (n + 1) ltac:(lia)). rewrite Z2Nat.inj_add, replicate_add, <- app_assoc in IH by lia. exact IH.
    + destruct (IH l 1 ltac:(lia)) as (H1 & H2 & H3). unfold runs_of. cbn [map concat fst snd]. rewrite H1. split_and!; [done|by constructor|].
      destruct (groups_head l 1 ls) as (m & gs & Eg). rewrite Eg in H3 |- *. done.
Qed.

Lemma runs_groups l ls : runs_of (l :: ls) (groups l 1 ls).
Proof. exact (groups_runs l 1 ls ltac:(lia)). Qed.
End uniq.

(** Uniq.c prints one line for each run of equal lines.  For a file of lines that
    fit its arrays it ends and prints, between two empty lines, the first line of
    every run, with "-c" the length of the run before it, with "-d" only runs of two
    lines or more, with "-i" in lower case.  This holds when its arrays, which it does
    not initialise, hold zeros; and what follows the last newline of the file, [tail],
    is not printed. *)
Theorem uniq_runs root cwd fls file nu ty l ls tail up t n :
  resolve root cwd file = Some (NFile nu ty (concat (map (fun l => l ++ [10]) (l :: ls)) ++ tail) :: up) ->
  Forall line_ok (l :: ls) -> line_ok tail -> Z.of_nat (length ls) < 2 ^ 31 - 1 -> (1 <= free t)%nat ->
  (length (concat (map (fun l => l ++ [10%Z]) (l :: ls)) ++ tail) < n)%nat ->
  let fl := fold_left Uniq.set_flag fls (Uniq.mkFlags false false false) in
  exists gs t', runs_of (map (map (lower fl)) (l :: ls)) gs /\
    run root cwd (Uniq.main n (replicate 512 0) (replicate 512 0) (fls ++ [file])) (t, []) =
      Some (None, (t', [(1, [10])] ++ concat (map (group_out fl) gs) ++ [(1, [10])])).
Proof.
  intros Hr Hls Htail Hmax Hf Hn fl. apply Forall_cons in Hls as [Hl Hls].
  set (c := concat (map (fun l => l ++ [10]) (l :: ls)) ++ tail) in *.
  assert (Hc : c = l ++ 10 :: concat (map (fun l => l ++ [10]) ls) ++ tail) by (subst c; cbn [map concat]; by rewrite <- !app_assoc).
  exists (groups (map (lower fl) l) 1 (map (map (lower fl)) ls)). unfold Uniq.main. rewrite last_snoc, removelast_last. fold fl.
  destruct (run_open root cwd file _ t [] 0 Hr Hf) as (fd & Hfd & _ & E). rewrite E. clear E. pose proof (lookup_lt_Some _ _ _ Hfd) as Hlt.
  exists (at_off nu ty c up t fd (length c)). split; [apply runs_groups|]. rewrite (proj2 (Z.ltb_ge _ _)) by lia. unfold Uniq.with_newlines. rewrite run_print, run_pbind. cbn [app].
  change (Uniq.uniq n (replicate 512 0) (replicate 512 0) fl (Z.of_nat fd)) with (Uniq.uniq_loop n fl (Z.of_nat fd) (V true [] [] 0)).
  assert (length l + 1 <= length c)%nat as Hlc by (rewrite Hc, length_app; cbn; lia).
  replace n with (length l + S (n - length l - 1))%nat by lia.
  rewrite (run_chars root cwd fl nu ty c up t fd Hlt _ true [] [] 0 l (10 :: concat (map (fun l => l ++ [10]) ls) ++ tail)) with (off := 0%nat);
    [|apply Hl|destruct Hl; cbn; lia|by rewrite drop_0].
  cbn [app Nat.add Uniq.uniq_loop]. unfold at_off. rewrite run_read_file by (done || lia). cbv zeta.
  assert (Hoff : drop (length l) c = 10 :: concat (map (fun l => l ++ [10]) ls) ++ tail) by (rewrite Hc; apply drop_app_length).
  rewrite (slice_one _ _ _ _ Hoff). cbn [length fst snd hd0]. change (0 <? Z.of_nat 1) with true. change (10 =? 10) with true. cbn match.
  unfold Uniq.newline. change (Uniq.isFirstIteration (V true [] (map (lower fl) l) 0)) with true. cbn match.
  change (Uniq.mkVars _ _ _ _ _ _) with (V false (map (lower fl) l) [] 0). fold (at_off nu ty c up t fd (length l + 1)).
  assert (Hoff2 : drop (length l + 1) c = concat (map (fun l => l ++ [10]) ls) ++ tail) by (by rewrite <- drop_drop, Hoff).
  rewrite (run_lines root cwd fl nu ty c up t fd Hlt ls tail); [|done|done|by apply lower_line|lia|lia|done|rewrite length_drop; lia|lia].
  rewrite run_print. cbn [run]. rewrite <- app_assoc. reflexivity.
Qed.

(** A file whose last line has no newline. *)
Definition names_file : node := NFile 2 T_FILE (str "Ann" ++ [10] ++ str "ann" ++ [10] ++ str "bob" ++ [10] ++ str "eve").
Definition names_dir : node := NDir 1 1 [Some (2, str "names", names_file)].

Lemma uniq_runs_witness :
  exists gs t', runs_of [str "ann"; str "ann"; str "bob"] gs /\
    run [names_dir] [names_dir] (Uniq.main 100 (replicate 512 0) (replicate 512 0) [str "-i"; str "-c"; str "names"])
        (replicate 3 (Some Term) ++ replicate 13 None, []) =
      Some (None, (t', [(1, [10])] ++ concat (map (group_out (Uniq.mkFlags true true false)) gs) ++ [(1, [10])])).
Proof.
  apply (uniq_runs [names_dir] [names_dir] [str "-i"; str "-c"] (str "names") 2 T_FILE (str "Ann") [str "ann"; str "bob"] (str "eve") [names_dir]).
  - by vm_compute.
  - repeat constructor; vm_compute; (done || lia).
  - repeat constructor; vm_compute; (done || lia).
  - done.
  - vm_compute. lia.
  - vm_compute. lia.
Defined.
