(* ===== verification/Mkfs.v ===== *)
(** mkfs.c: the program that builds the disk image of the file system.

    [m_img] holds the sectors of the image written so far.  Integers are stored
    in the byte order of the kernel's machine, which [xint] and [xshort] see
    to.  A failed assertion is a [Panic], [exit(1)] is [Exit], and an index past
    the end of an array a [Fault]. *)
From S2P Require Import Prelude Layout CString Locks LogRep Fs.

Definition NINODES : Z := 200.

Record mkfs := mkM { m_img : gmap Z bytes; m_sb : superblock; m_freeinode : Z; m_freeblock : Z }.
Local Abbreviation MK := (M mkfs).

Definition nbitmap : Z := FSSIZE / (BSIZE * 8) + 1.
Definition ninodeblocks : Z := NINODES / IPB + 1.
Definition nlog : Z := LOGSIZE.
Definition nmeta : Z := 2 + nlog + ninodeblocks + nbitmap.
Definition nblocks : Z := FSSIZE - nmeta.
Definition mkfs_sb : superblock :=
  mkSuperblock FSSIZE nblocks NINODES nlog 2 (2 + nlog) (2 + nlog + ninodeblocks).

Definition set_img (d : gmap Z bytes) (s : mkfs) : mkfs := mkM d (m_sb s) (m_freeinode s) (m_freeblock s).

Definition wsect (sec : Z) (buf : bytes) : MK unit := modify (fun s => set_img (<[sec := buf]> (m_img s)) s).
(** A sector past the end of the image cannot be read. *)
Definition rsect (sec : Z) : MK bytes :=
  let* s := get in
  match m_img s !! sec with Some b => ret b | None => exit_proc end.

(** [freeblock++]. *)
Definition next_block : MK Z :=
  let* s := get in
  put (mkM (m_img s) (m_sb s) (m_freeinode s) (u32 (m_freeblock s + 1))) ;;
  ret (m_freeblock s).

Definition winode (inum : Z) (din : dinode) : MK unit :=
  let* sb := gets m_sb in
  let* buf := rsect (IBLOCK inum sb) in
  wsect (IBLOCK inum sb) (put_dinode buf inum din).

Definition rinode (inum : Z) : MK dinode :=
  let* sb := gets m_sb in
  let* buf := rsect (IBLOCK inum sb) in
  ret (get_dinode buf inum).

Definition ialloc (type : Z) : MK Z :=
  let* s := get in
  let inum := m_freeinode s in
  put (mkM (m_img s) (m_sb s) (u32 (inum + 1)) (m_freeblock s)) ;;
  winode inum (mkDinode type 0 0 1 0 (replicate 13 0)) ;;
  ret inum.

(** The entry [k] of [din.addrs], allocated if it is 0. *)
Definition addr_at (ad : list Z) (k : Z) : MK (list Z * Z) :=
  let* x := deref (ad !! Z.to_nat k) in
  if x =? 0 then let* b := next_block in ret (<[Z.to_nat k := b]> ad, b) else ret (ad, x).

(** The sector of block [fbn] of the file, and [din.addrs]. *)
Definition iappend_block (ad : list Z) (fbn : Z) : MK (list Z * Z) :=
  if fbn <? NDIRECT then addr_at ad fbn
  else
    let* r := addr_at ad NDIRECT in
    let* indirect := rsect r.2 in
    if NINDIRECT <=? fbn - NDIRECT then fault
    else if get_slot indirect (fbn - NDIRECT) =? 0 then
      let* b := next_block in
      wsect r.2 (put_slot indirect (fbn - NDIRECT) b) ;;
      ret (r.1, b)
    else ret (r.1, get_slot indirect (fbn - NDIRECT)).

(** The loop of [iappend]: [din.addrs] and [off] at its end. *)
Definition iappend_loop (ad : list Z) (off : Z) (p : bytes) : MK (list Z * Z) :=
  let n := Z.of_nat (length p) in
  while_loop (copy_fuel n) (0, off, ad) (fun '(tot, off, ad) =>
    if tot <? n then
      let fbn := off / BSIZE in
      if negb (fbn <? MAXFILE) then panic "assert"
      else
        let* r := iappend_block ad fbn in
        let n1 := chunk n tot off in
        let* buf := rsect r.2 in
        wsect r.2 (splice buf (Z.to_nat (off mod BSIZE)) (slice p (Z.to_nat tot) (Z.to_nat n1))) ;;
        ret (inl (tot + n1, u32 (off + n1), r.1))
    else ret (inr (ad, off))).

Definition iappend (inum : Z) (p : bytes) : MK unit :=
  let* din := rinode inum in
  let* r := iappend_loop (d_addrs din) (d_size din) p in
  winode inum (mkDinode (d_type din) (d_major din) (d_minor din) (d_nlink din) r.2 r.1).

(** [balloc]: the first [used] blocks are in use. *)
Definition balloc (used : Z) : MK unit :=
  if negb (used <? BSIZE * 8) then panic "assert"
  else
    let* sb := gets m_sb in
    wsect (sb_bmapstart sb) (fold_left set_bit (seqZ 0 used) zero_block).

(** An argument of the program: the name of a file and what the calls of [read]
    return, or [None] when it cannot be opened. *)
Abbreviation src_file := (bytes * option (list bytes))%type.

(** Leading underscores of the names of binaries are dropped, one of each. *)
Definition strip (name : bytes) : bytes := if hd0 name =? 95 then tl name else name.

Definition append_entry (inum : Z) (name : bytes) : MK unit :=
  iappend ROOTINO (enc_dirent (mkDirent inum (strncpy name (Z.to_nat DIRSIZ)))).

Fixpoint append_all (inum : Z) (chunks : list bytes) : MK unit :=
  match chunks with [] => ret tt | c :: cs => iappend inum c ;; append_all inum cs end.

(** The body of the loop over the arguments. *)
Definition add_file (f : src_file) : MK unit :=
  if existsb (Z.eqb 47) f.1 then panic "assert"
  else match f.2 with
  | None => exit_proc
  | Some chunks =>
      let* inum := ialloc T_FILE in
      append_entry inum (strip f.1) ;;
      append_all inum chunks
  end.

Fixpoint add_files (fs : list src_file) : MK unit :=
  match fs with [] => ret tt | f :: fs' => add_file f ;; add_files fs' end.

(** The image with every sector written as zeros. *)
Definition zero_image : MK unit :=
  let* _ := for_loop (Z.to_nat FSSIZE) 0 (fun i => wsect i zero_block ;; ret (@None unit)) in ret tt.

Definition main (files : list src_file) : MK unit :=
  modify (fun s => mkM (m_img s) mkfs_sb (m_freeinode s) nmeta) ;;
  zero_image ;;
  wsect 1 (splice zero_block 0 (enc_superblock mkfs_sb)) ;;
  let* rootino := ialloc T_DIR in
  if negb (rootino =? ROOTINO) then panic "assert"
  else
    append_entry rootino (str ".") ;;
    append_entry rootino (str "..") ;;
    add_files files ;;
    let* din := rinode rootino in
    let off := (d_size din / BSIZE + 1) * BSIZE in
    winode rootino (mkDinode (d_type din) (d_major din) (d_minor din) (d_nlink din) off (d_addrs din)) ;;
    let* s := get in
    balloc (m_freeblock s).

(** The program starts with an empty image. *)
Definition mkfs0 : mkfs := mkM ∅ (mkSuperblock 0 0 0 0 0 0 0) 1 0.
