(* ===== verification/MkfsSpec.v ===== *)
(** mkfs.c: the image is a file system the kernel can boot, with the files that
    were given to the program.

    While the program runs, the blocks before [freeblock] are the ones in use,
    though the free map is only written at the end.  The proof follows the disk
    [v] that has the free map of the blocks in use already, so that the lemmas
    about the block maps of fs.c apply. *)
From S2P Require Import Prelude Layout CString Locks Bio Log LogRep Crash Fs FsBlock FsMap FsData FsInode FsDir Mkfs.

Local Abbreviation sb := mkfs_sb.
Definition mkfs_geom : geom := mkGeom FSSIZE 2 30.

Lemma mkfs_sb_ok : sb_ok mkfs_geom sb.
Proof. split; vm_compute; intuition congruence. Qed.
Local Abbreviation Hsb := mkfs_sb_ok.

Lemma mkfs_datastart : datastart sb = 107.
Proof. reflexivity. Qed.
Lemma mkfs_size : sb_size sb = 200000.
Proof. reflexivity. Qed.
Lemma mkfs_bmap : sb_bmapstart sb = 58.
Proof. reflexivity. Qed.
Lemma mkfs_ninodes : sb_ninodes sb = 200.
Proof. reflexivity. Qed.
Lemma nmeta_val : nmeta = 107.
Proof. reflexivity. Qed.
Lemma FSSIZE_val : FSSIZE = 200000.
Proof. reflexivity. Qed.
Ltac sizes := rewrite ?mkfs_datastart, ?mkfs_size, ?mkfs_bmap, ?mkfs_ninodes, ?nmeta_val, ?FSSIZE_val in *.

(** * The image and the disk it stands for *)

Record core (s : mkfs) (v : Z -> bytes) : Prop := {
  co_sb : m_sb s = sb;
  co_ok : forall c, is_block (v c);
  co_dom : forall c, is_Some (m_img s !! c) <-> 0 <= c < FSSIZE;
  co_bmap : forall c, 58 <= c < 107 -> m_img s !! c = Some zero_block;
  co_view : forall c, 0 <= c < 58 \/ 107 <= c < FSSIZE -> m_img s !! c = Some (v c);
  co_used : forall b, 0 <= b < FSSIZE -> used sb v b = (b <? m_freeblock s);
  co_free : 107 <= m_freeblock s;
  co_zero : forall c, m_freeblock s <= c < FSSIZE -> v c = zero_block
}.

Lemma core_meta s v : core s v -> meta_used sb v.
Proof. intros H b Hb. sizes. rewrite (co_used _ _ H) by (sizes; lia). apply Z.ltb_lt. pose proof (co_free _ _ H). lia. Qed.

Lemma core_first s v : core s v -> m_freeblock s < FSSIZE -> first_free sb v (m_freeblock s).
Proof.
  intros H Hf. pose proof (co_free _ _ H). split; [sizes; lia|]. split.
  - rewrite (co_used _ _ H) by lia. by rewrite Z.ltb_irrefl.
  - intros c Hc. rewrite (co_used _ _ H) by lia. apply Z.ltb_lt. lia.
Qed.

Lemma wp_rsect s v c (Q : bytes -> mkfs -> Prop) :
  core s v -> 0 <= c < 58 \/ 107 <= c < FSSIZE -> Q (v c) s -> wp (rsect c) s Q.
Proof. intros H Hc HQ. unfold rsect, wp, bind, get. by rewrite (co_view _ _ H). Qed.

Lemma core_write s v c x :
  core s v -> 0 <= c < 58 \/ 107 <= c < m_freeblock s -> m_freeblock s <= FSSIZE -> is_block x ->
  core (set_img (<[c := x]> (m_img s)) s) (vupd v c x).
Proof.
  intros [] Hc Hf Hx. split; cbn; try done.
  - intros e. unfold vupd. by case_decide.
  - intros e. rewrite <- co_dom0. destruct (decide (e = c)) as [->|Hne]; [|by rewrite lookup_insert_ne].
    rewrite lookup_insert_eq. split; [|done]. intros _. apply co_dom0. lia.
  - intros e He. rewrite lookup_insert_ne by lia. by apply co_bmap0.
  - intros e He. destruct (decide (e = c)) as [->|Hne]; [by rewrite lookup_insert_eq, vupd_eq|].
    rewrite lookup_insert_ne, vupd_ne by done. by apply co_view0.
  - intros b Hb. rewrite used_vupd by (sizes; lia). by apply co_used0.
  - intros e He. rewrite vupd_ne by lia. by apply co_zero0.
Qed.

Lemma wp_wsect s v c x (Q : unit -> mkfs -> Prop) :
  core s v -> 0 <= c < 58 \/ 107 <= c < m_freeblock s -> m_freeblock s <= FSSIZE -> is_block x ->
  (forall s', core s' (vupd v c x) -> m_freeinode s' = m_freeinode s -> m_freeblock s' = m_freeblock s -> Q tt s') ->
  wp (wsect c x) s Q.
Proof. intros H Hc Hf Hx HQ. apply HQ; [by apply core_write|done|done]. Qed.

Lemma core_alloc s v :
  core s v -> m_freeblock s < FSSIZE ->
  core (mkM (m_img s) (m_sb s) (m_freeinode s) (m_freeblock s + 1)) (v_alloc sb v (m_freeblock s)).
Proof.
  intros H Hf. pose proof (co_free _ _ H) as Hfr. set (b := m_freeblock s) in *.
  assert (Hbb : 58 <= BBLOCK b sb < 107) by (apply (BBLOCK_bounds sb b); sizes; lia).
  assert (Ho : forall c, ~ 58 <= c < 107 -> v_alloc sb v b c = v c).
  { intros c Hc. unfold v_alloc, v_mark. destruct (decide (c = b)) as [->|]; [rewrite vupd_eq; symmetry; apply (co_zero _ _ H); lia|].
    rewrite !vupd_ne by lia. done. }
  destruct H. split; cbn; try done.
  - intros c. unfold v_alloc, v_mark, vupd. case_decide; [apply zero_block_ok|]. case_decide; [apply set_bit_ok, co_ok0|apply co_ok0].
  - intros c Hc. rewrite Ho by lia. by apply co_view0.
  - intros c Hc. rewrite (used_alloc sb v b) by (sizes; done || lia || apply co_ok0). rewrite co_used0 by done. fold b.
    case_decide; [subst; symmetry; apply Z.ltb_lt; lia|]. destruct (Z.ltb_spec c b), (Z.ltb_spec c (b + 1)); done || lia.
  - fold b. lia.
  - intros c Hc. fold b in Hc. rewrite Ho by lia. apply co_zero0. fold b. lia.
Qed.

Lemma wp_next_block s v (Q : Z -> mkfs -> Prop) :
  core s v -> m_freeblock s < FSSIZE ->
  (forall s', core s' (v_alloc sb v (m_freeblock s)) -> m_freeinode s' = m_freeinode s ->
     m_freeblock s' = m_freeblock s + 1 -> Q (m_freeblock s) s') ->
  wp next_block s Q.
Proof.
  intros H Hf HQ. pose proof (co_free _ _ H). unfold next_block. apply wp_bind, wp_get. apply wp_bind, wp_put. apply wp_ret.
  rewrite u32_small by (rewrite FSSIZE_val in Hf; lia). by apply HQ; [apply core_alloc|..].
Qed.

(** * The sector of a block of a file *)

Definition new (x : Z) : Z := if x =? 0 then 1 else 0.
Lemma new_0 x : x = 0 -> new x = 1.
Proof. by intros ->. Qed.
Lemma new_ne x : x <> 0 -> new x = 0.
Proof. intros H. unfold new. by rewrite (proj2 (Z.eqb_neq _ _) H). Qed.
Lemma new_range x : 0 <= new x <= 1.
Proof. unfold new. destruct (x =? 0); lia. Qed.

Lemma wp_addr_at s v ad k (Q : list Z * Z -> mkfs -> Prop) :
  core s v -> blocks_wf sb v ad -> 0 <= k < 13 -> m_freeblock s + new (nth0 ad (Z.to_nat k)) <= FSSIZE ->
  (forall s' v' ad' x, core s' v' -> m_freeinode s' = m_freeinode s ->
     m_freeblock s' = m_freeblock s + new (nth0 ad (Z.to_nat k)) ->
     grow sb v ad v' ad' -> slot_val v' ad' (SAddr k) = x -> x <> 0 -> 
     (forall t, slot_ok t -> t <> SAddr k -> slot_val v' ad' t = slot_val v ad t) -> Q (ad', x) s') ->
  wp (addr_at ad k) s Q.
Proof.
  intros H Hwf Hk Hf HQ. unfold addr_at. pose proof (bw_len Hwf) as Hl.
  apply wp_bind. eapply wp_deref; [apply nth0_lookup_lt; lia|]. unfold new in *. destruct (Z.eqb_spec (nth0 ad (Z.to_nat k)) 0) as [E0|E0].
  - apply wp_bind. eapply wp_next_block; [done|lia|]. intros s' H' E1 E2.
    destruct (fill_grow mkfs_geom sb v ad (SAddr k) (m_freeblock s)) as (G & Es & Hne); try done; try apply Hsb.
    { apply (co_ok _ _ H). } { by eapply core_meta. } { apply core_first; [done|lia]. }
    apply (HQ s' (fill_v sb v ad (SAddr k) (m_freeblock s)) (fill_ad ad (SAddr k) (m_freeblock s))); try done.
    intros t Ht Hne'. erewrite fill_slot_val; try done; try apply Hsb.
    + by rewrite decide_False.
    + apply (co_ok _ _ H).
    + by eapply core_meta.
    + apply core_first; [done|lia].
  - apply (HQ s v ad); try done; [lia|]. apply grow_refl; [done|by eapply core_meta].
Qed.

(** The blocks that appending at block [fbn] takes. *)
Definition takes (v : Z -> bytes) (ad : list Z) (fbn : Z) : Z :=
  new (faddr v ad fbn) + (if 11 <=? fbn then new (nth0 ad 11) else 0).

Lemma wp_iappend_block s v ad fbn (Q : list Z * Z -> mkfs -> Prop) :
  core s v -> blocks_wf sb v ad -> 0 <= fbn < 139 -> m_freeblock s + takes v ad fbn <= FSSIZE ->
  (forall s' v' ad' x, core s' v' -> m_freeinode s' = m_freeinode s -> m_freeblock s' = m_freeblock s + takes v ad fbn ->
     grow sb v ad v' ad' -> faddr v' ad' fbn = x -> x <> 0 -> Q (ad', x) s') ->
  wp (iappend_block ad fbn) s Q.
Proof.
  intros H Hwf Hb Hf HQ. unfold iappend_block, takes, faddr, data_slot in *. change NDIRECT with 11. change NINDIRECT with 128.
  destruct (Z.ltb_spec fbn 11) as [Hlt|Hge].
  - rewrite (proj2 (Z.leb_gt 11 fbn)) in * by lia. cbn [slot_val] in *. eapply wp_addr_at; [done|done|lia|lia|].
    intros s' v' ad' x H' E1 E2 G Es Hx _. apply (HQ s' v' ad'); try done. lia.
  - rewrite (proj2 (Z.leb_le 11 fbn)) in * by lia. rewrite (proj2 (Z.ltb_lt fbn 139)) in * by lia. assert (Hj0 : 0 <= fbn - 11 < 128) by lia. set (j := fbn - 11) in *. clearbody j.
    pose proof (new_range (slot_val v ad (SInd j))) as Hn1. pose proof (new_range (nth0 ad 11)) as Hn2.
    apply wp_bind. eapply wp_addr_at; [done|done|lia|change (Z.to_nat 11) with 11%nat; lia|].
    intros s1 v1 ad1 a H1 E1 E2 G Ea Ha Hother. change (Z.to_nat 11) with 11%nat in *. cbn [fst snd].
    pose proof (proj1 G) as X1. pose proof (ex_wf X1) as Hwf1.
    assert (Hj : slot_ok (SInd j)) by (cbn; lia).
    destruct (bw_range Hwf1 (SAddr 11)) as [Har Hau]; [cbn; lia|by rewrite Ea|]. rewrite Ea in Har, Hau. sizes.
    rewrite (co_used _ _ H1) in Hau by (sizes; lia). apply Z.ltb_lt in Hau.
    apply wp_bind. eapply wp_rsect; [done|right; sizes; lia|].
    rewrite (proj2 (Z.leb_gt 128 j)) by lia.
    assert (Ei : slot_val v1 ad1 (SInd j) = get_slot (v1 a) j).
    { rewrite (slot_val_parent _ _ _ (SAddr 11)) by done. rewrite Ea. unfold entry. by rewrite (proj2 (Z.eqb_neq _ _) Ha). }
    rewrite <- Ei. assert (Ej : slot_val v1 ad1 (SInd j) = slot_val v ad (SInd j)) by (by apply Hother).
    rewrite Ej. destruct (Z.eqb_spec (slot_val v ad (SInd j)) 0) as [E0|E0]; [rewrite (new_0 _ E0) in *|rewrite (new_ne _ E0) in *].
    + apply wp_bind. eapply wp_next_block; [done|sizes; lia|]. intros s2 H2 E3 E4. rewrite E0 in Ej.
      destruct (fill_grow mkfs_geom sb v1 ad1 (SInd j) (m_freeblock s1)) as (G2 & Es & Hne); try done; try apply Hsb.
      { apply (co_ok _ _ H1). } { by eapply core_meta. } { apply core_first; [done|sizes; lia]. } { intros p [= <-]. by rewrite Ea. }
      assert (Ev : v_alloc sb v1 (m_freeblock s1) a = v1 a).
      { unfold v_alloc, v_mark. rewrite !vupd_ne; [done| |lia]. pose proof (BBLOCK_bounds sb (m_freeblock s1)). sizes. lia. }
      apply wp_bind. eapply wp_wsect; [exact H2|right; lia|sizes; lia|apply put_slot_ok; [apply (co_ok _ _ H1)|lia]|].
      intros s3 H3 E5 E6. eapply (HQ s3 (fill_v sb v1 ad1 (SInd j) (m_freeblock s1)) ad1); [|congruence|lia| |exact Es|exact Hne].
      * unfold fill_v. cbn [parent]. cbn zeta. rewrite Ea, Ev. exact H3.
      * eapply grow_trans; [apply Hsb|exact G|exact G2].
    + eapply (HQ s1 v1 ad1); [done|done|lia|done|done|done].
Qed.

(** * Appending to a file *)

(** The blocks of a file of [n] bytes, the indirect block too. *)
Definition cost (n : Z) : Z := (n + 511) / 512 + (if 5632 <? n then 1 else 0).

Definition mapped (v : Z -> bytes) (ad : list Z) (n : Z) : Prop :=
  forall i, 0 <= i < n -> faddr v ad (i / BSIZE) <> 0.

Lemma takes_cost v ad c m :
  mapped v ad c -> 0 <= c -> 0 < m <= 512 - c mod 512 -> takes v ad (c / 512) <= cost (c + m) - cost c.
Proof.
  intros Hmap Hc Hm. pose proof (Z.div_mod c 512) as Hd. pose proof (Z.mod_pos_bound c 512) as Hr.
  set (q := c / 512) in *. set (r := c mod 512) in *. unfold takes, cost.
  pose proof (new_range (faddr v ad q)). pose proof (new_range (nth0 ad 11)).
  assert (E1 : (c + m + 511) / 512 = q + 1) by (symmetry; apply (Z.div_unique _ _ _ (r + m - 1)); lia).
  rewrite E1. assert (H1 : new (faddr v ad q) + (c + 511) / 512 <= q + 1).
  { destruct (decide (r = 0)) as [E|E].
    - replace ((c + 511) / 512) with q by (apply (Z.div_unique _ _ _ 511); lia). lia.
    - replace ((c + 511) / 512) with (q + 1) by (apply (Z.div_unique _ _ _ (r - 1)); lia).
      rewrite new_ne; [lia|]. assert (Eq : q = (c - 1) / 512) by (apply (Z.div_unique _ _ _ (r - 1)); lia).
      rewrite Eq. apply Hmap. lia. }
  destruct (Z.leb_spec 11 q) as [H11|H11].
  - rewrite (proj2 (Z.ltb_lt 5632 (c + m))) by lia. destruct (Z.ltb_spec 5632 c) as [H2|H2]; [|lia].
    rewrite (new_ne (nth0 ad 11)); [lia|]. pose proof (Hmap 5632 ltac:(lia)) as Hne. by apply entry_ne in Hne.
  - rewrite (proj2 (Z.ltb_ge 5632 c)) by lia. destruct (5632 <? c + m); lia.
Qed.

Lemma mapped_spliced sbb v ad v' ad' off tot src :
  extends sbb v ad v' ad' -> spliced v ad v' ad' off tot src -> mapped v ad off -> 0 <= off -> 0 <= tot ->
  off + tot <= MAXFILE * BSIZE -> mapped v' ad' (off + tot).
Proof.
  intros X (_ & Hm & _) Hmap Ho Ht Hmax i Hi. destruct (decide (i < off)) as [Hlt|]; [|apply Hm; lia].
  pose proof (Hmap i ltac:(lia)) as Hne. unfold faddr in *. rewrite (ex_slot X); [done| |done].
  apply data_slot_ok. split; [apply Z.div_pos; [lia|done]|apply Z.div_lt_upper_bound; [done|lia]].
Qed.

Definition MAXMK : Z := 139 * 512.

Lemma wp_iappend_loop s v ad off p (Q : list Z * Z -> mkfs -> Prop) :
  let n := Z.of_nat (length p) in
  core s v -> blocks_wf sb v ad -> 0 <= off -> off + n <= MAXMK -> mapped v ad off -> Forall is_byte p ->
  m_freeblock s + cost (off + n) - cost off <= FSSIZE ->
  (forall s' v' ad', core s' v' -> m_freeinode s' = m_freeinode s -> m_freeblock s' <= m_freeblock s + cost (off + n) - cost off ->
     extends sb v ad v' ad' -> spliced v ad v' ad' off n p -> mapped v' ad' (off + n) -> Q (ad', off + n) s') ->
  wp (iappend_loop ad off p) s Q.
Proof.
  intros n H Hwf Ho Hmax Hmap Hby Hfr HQ. unfold iappend_loop. fold n. unfold MAXMK in *.
  assert (Hmm : forall k, k <= 139 * 512 -> k <= MAXFILE * BSIZE) by (rewrite MAXFILE_val, BSIZE_val; lia).
  assert (Hn0 : 0 <= n) by (unfold n; lia).
  apply (wp_while_loop (fun k '(tot, c, ad1) s1 => exists v1, core s1 v1 /\ m_freeinode s1 = m_freeinode s /\
    m_freeblock s1 <= m_freeblock s + cost (off + tot) - cost off /\ extends sb v ad v1 ad1 /\ spliced v ad v1 ad1 off tot p /\
    c = off + tot /\ 0 <= tot <= n /\ (Z.to_nat (blocks_left c (off + n)) + 1 <= k)%nat)).
  - exists v. rewrite Z.add_0_r. split_and!; try done; try lia.
    + apply extends_refl; [done|by eapply core_meta].
    + apply spliced_0.
    + by apply blocks_left_fuel.
  - intros [[tot c] ad1] s1 (v1 & Hx). lia.
  - intros k [[tot c] ad1] s1 (v1 & H1 & E1 & F1 & X1 & Sp1 & -> & Ht & Hk).
    assert (Hmap1 : mapped v1 ad1 (off + tot)) by (eapply mapped_spliced; [exact X1|exact Sp1|done|lia|lia|apply Hmm; lia]).
    destruct (Z.ltb_spec tot n) as [Hlt|Hge]; [|assert (tot = n) as -> by lia; by eapply HQ].
    pose proof (blocks_left_step off tot n Ho) as [Hbl Hbl0]; [lia|]. set (c := off + tot) in *.
    pose proof (chunk_bounds n tot c Hlt) as Hm. set (m := chunk n tot c) in *. pose proof (block_split c) as Hcs.
    rewrite BSIZE_val in Hm, Hcs. assert (Hc : 0 <= c / 512 < 139) by (split; [apply Z.div_pos; lia|apply Z.div_lt_upper_bound; lia]).
    rewrite BSIZE_val. rewrite (proj2 (Z.ltb_lt (c / 512) MAXFILE)) by (rewrite MAXFILE_val; lia). cbn [negb].
    pose proof (takes_cost v1 ad1 c m Hmap1 ltac:(lia) ltac:(lia)) as Htk.
    assert (Hct : cost (c + m) <= cost (off + n)).
    { unfold cost. pose proof (Z.div_le_mono (c + m + 511) (off + n + 511) 512 ltac:(lia) ltac:(lia)).
      destruct (Z.ltb_spec 5632 (c + m)), (Z.ltb_spec 5632 (off + n)); lia. }
    apply wp_bind. eapply wp_iappend_block; [exact H1|apply X1|exact Hc|lia|].
    intros s2 v2 ad2 x H2 E2 F2 G2 Ex Hx0. cbn [fst snd]. pose proof (proj1 G2) as X2.
    assert (Hxr : 107 <= x < m_freeblock s2 /\ x < FSSIZE).
    { destruct (bw_range (ex_wf X2) (data_slot (c / 512))) as [Hr Hu]; [apply data_slot_ok; rewrite MAXFILE_val; lia|by unfold faddr in Ex; rewrite Ex|].
      unfold faddr in Ex. rewrite Ex in Hr, Hu. sizes. rewrite (co_used _ _ H2) in Hu by (sizes; lia). apply Z.ltb_lt in Hu. lia. }
    apply wp_bind. eapply wp_rsect; [exact H2|right; lia|].
    assert (Hsl : length (slice p (Z.to_nat tot) (Z.to_nat m)) = Z.to_nat m) by (apply length_slice; lia).
    apply wp_bind. eapply wp_wsect; [exact H2|right; lia|lia| |].
    { destruct (co_ok _ _ H2 x) as [Hl Hb]. split; [|apply Forall_splice; [done|by apply Forall_slice]].
      rewrite length_splice; [done|]. rewrite Hsl, Hl. unfold BSIZEn. lia. }
    intros s3 H3 E3 F3. assert (Eu : u32 (c + m) = c + m) by (apply u32_small; lia).
    eexists. rewrite Eu. split; [exact H3|]. split; [congruence|]. split; [unfold c in *; rewrite Z.add_assoc; lia|].
    replace (c / 512) with (c / BSIZE) in * by (by rewrite BSIZE_val). subst x.
    pose proof (write_extends mkfs_geom sb Hsb v2 ad2 (c / BSIZE) (splice (v2 (faddr v2 ad2 (c / BSIZE))) (Z.to_nat (c mod 512)) (slice p (Z.to_nat tot) (Z.to_nat m)))
      (ex_wf X2) (ex_meta X2) ltac:(rewrite MAXFILE_val; lia) Hx0) as W.
    split; [eapply extends_trans; [apply Hsb|exact X1|eapply extends_trans; [apply Hsb|exact X2|exact W]]|].
    split; [|split; [unfold c; lia|split; [lia|fold m in Hbl; rewrite Hbl in Hk; lia]]].
    apply (spliced_step mkfs_geom sb v ad v1 ad1 v2 ad2 off tot n p); try done; try apply Hsb; try lia; [apply (co_ok _ _ H2)|apply Hmm; lia].
Qed.

(** * Files beside the one that grows *)

Definition ads (v : Z -> bytes) (n : Z) : list Z := d_addrs (disk_inode sb v n).

(** Two block maps share no block. *)
Definition apart (v : Z -> bytes) (ad1 ad2 : list Z) : Prop :=
  forall t u, slot_ok t -> slot_ok u -> slot_val v ad1 t <> 0 -> slot_val v ad1 t <> slot_val v ad2 u.

Lemma apart_sym v ad1 ad2 : apart v ad1 ad2 -> apart v ad2 ad1.
Proof. intros H t u Ht Hu Hne E. apply (H u t); [done|done|congruence|congruence]. Qed.

(** A disk [v'] with the same blocks of the map [ad2] as [v]. *)
Definition keeps_blocks (v v' : Z -> bytes) (ad2 : list Z) : Prop :=
  forall t, slot_ok t -> slot_val v ad2 t <> 0 -> v' (slot_val v ad2 t) = v (slot_val v ad2 t).

Lemma keeps_slot v v' ad2 t : keeps_blocks v v' ad2 -> slot_ok t -> slot_val v' ad2 t = slot_val v ad2 t.
Proof.
  intros Hk. induction t as [k|t p Ep IH] using slot_ind_parent; intros Ht; [done|].
  pose proof (parent_ok _ _ Ht Ep) as Hp.
  rewrite (slot_val_parent v' _ _ _ Ep), (slot_val_parent v _ _ _ Ep), IH by done.
  unfold entry. destruct (Z.eqb_spec (slot_val v ad2 p) 0) as [|E0]; [done|]. by rewrite Hk.
Qed.

Lemma keeps_fbyte v v' ad2 i : keeps_blocks v v' ad2 -> 0 <= i < MAXFILE * BSIZE -> fbyte v' ad2 i = fbyte v ad2 i.
Proof.
  intros Hk Hi. assert (Hs : slot_ok (data_slot (i / BSIZE))).
  { apply data_slot_ok. split; [apply Z.div_pos; [lia|done]|apply Z.div_lt_upper_bound; [done|lia]]. }
  unfold fbyte, fblock, faddr. rewrite (keeps_slot v v') by done.
  destruct (Z.eqb_spec (slot_val v ad2 (data_slot (i / BSIZE))) 0); [done|]. by rewrite Hk.
Qed.

Lemma keeps_wf v v' ad2 : keeps_blocks v v' ad2 ->
  (forall c, 0 <= c < sb_size sb -> used sb v c = true -> used sb v' c = true) -> blocks_wf sb v ad2 -> blocks_wf sb v' ad2.
Proof.
  intros Hk Hu Hwf. pose proof (sb_order _ _ Hsb). split; [apply Hwf| |].
  - intros t Ht. rewrite (keeps_slot v v') by done. intros Hne. destruct (bw_range Hwf t Ht Hne) as [Hr Hu'].
    split; [done|]. apply Hu; [lia|done].
  - intros t u Ht Hu'. rewrite !(keeps_slot v v') by done. by apply (bw_inj Hwf).
Qed.

Lemma extends_keeps v ad v' ad' ad2 : extends sb v ad v' ad' -> blocks_wf sb v ad2 -> apart v ad2 ad -> keeps_blocks v v' ad2.
Proof.
  intros X Hwf Ha t Ht Hne. destruct (bw_range Hwf t Ht Hne) as [Hr Hu]. apply (ex_frame X). right.
  split; [done|]. split; [done|]. intros u Hu'. apply not_eq_sym. by apply Ha.
Qed.

Lemma extends_apart v ad v' ad' ad2 : extends sb v ad v' ad' -> blocks_wf sb v ad2 -> apart v ad2 ad -> apart v' ad2 ad'.
Proof.
  intros X Hwf Ha t u Ht Hu. pose proof (extends_keeps v ad v' ad' ad2 X Hwf Ha) as Hk. rewrite (keeps_slot v v') by done.
  intros Hne E. destruct (bw_range Hwf t Ht Hne) as [_ Hus]. destruct (decide (slot_val v ad u = 0)) as [E0|E0].
  - pose proof (ex_new X u Hu E0 ltac:(congruence)) as Hun. congruence.
  - rewrite (ex_slot X u Hu E0) in E. by apply (Ha t u).
Qed.

(** Inode [n] is a file of type [ty] with the contents [data]. *)
Record file_at (v : Z -> bytes) (n ty : Z) (data : bytes) : Prop := {
  fa_inode : disk_inode sb v n = mkDinode ty 0 0 1 (Z.of_nat (length data)) (ads v n);
  fa_wf : blocks_wf sb v (ads v n);
  fa_map : mapped v (ads v n) (Z.of_nat (length data));
  fa_data : forall i, 0 <= i < MAXFILE * BSIZE -> fbyte v (ads v n) i = nth0 data (Z.to_nat i)
}.

Lemma keeps_file v v' n ty data : file_at v n ty data -> disk_inode sb v' n = disk_inode sb v n -> keeps_blocks v v' (ads v n) ->
  (forall c, 0 <= c < sb_size sb -> used sb v c = true -> used sb v' c = true) -> Z.of_nat (length data) <= MAXMK -> file_at v' n ty data.
Proof.
  intros [Hi Hwf Hm Hd] Ei Hk Hu Hl. assert (Ea : ads v' n = ads v n) by (unfold ads; by rewrite Ei).
  split; rewrite ?Ea, ?Ei; [done|by eapply keeps_wf| |].
  - intros i Hi'. unfold faddr. rewrite (keeps_slot v v'); [by apply Hm|done|]. unfold MAXMK in Hl.
    apply data_slot_ok. rewrite BSIZE_val, MAXFILE_val. split; [apply Z.div_pos; lia|apply Z.div_lt_upper_bound; lia].
  - intros i Hi'. rewrite (keeps_fbyte v v') by done. by apply Hd.
Qed.

(** * The files of the image *)

Definition cost_of (f : Z * bytes) : Z := cost (Z.of_nat (length f.2)).
Definition total (A : list (Z * bytes)) : Z := foldr (fun f n => cost_of f + n) 0 A.

Lemma total_insert A k f f' : A !! k = Some f -> total (<[k := f']> A) = total A - cost_of f + cost_of f'.
Proof.
  revert k. induction A as [|x A IH]; intros [|k] H; try done.
  - injection H as ->. unfold total. cbn. lia.
  - change (cost_of x + total (<[k := f']> A) = cost_of x + total A - cost_of f + cost_of f'). rewrite (IH k H). lia.
Qed.

Definition inum (k : nat) : Z := Z.of_nat k + 1.
Definition sb_block : bytes := splice zero_block 0 (enc_superblock sb).

(** Inode [k + 1] is the [k]-th of the files [A]. *)
Record rep (s : mkfs) (v : Z -> bytes) (A : list (Z * bytes)) : Prop := {
  rp_core : core s v;
  rp_inum : m_freeinode s = inum (length A);
  rp_small : (length A < 200)%nat;
  rp_files : forall k ty data, A !! k = Some (ty, data) ->
    file_at v (inum k) ty data /\ Z.of_nat (length data) <= MAXMK /\ is_s16 ty;
  rp_apart : forall k k', (k < length A)%nat -> (k' < length A)%nat -> k <> k' -> apart v (ads v (inum k)) (ads v (inum k'));
  rp_unused : forall n, inum (length A) <= n < 200 -> d_type (disk_inode sb v n) = 0;
  rp_free : m_freeblock s <= 107 + total A;
  rp_sb : v 1 = sb_block;
  rp_log : v 2 = zero_block
}.

Lemma inode_block n : 0 <= n < 200 -> 32 <= IBLOCK n sb < 58.
Proof. intros Hn. pose proof (IBLOCK_bounds _ _ Hsb n) as H. sizes. change (sb_inodestart sb) with 32 in H. lia. Qed.

Lemma wp_winode s v n d (Q : unit -> mkfs -> Prop) :
  core s v -> 0 <= n < 200 -> length (d_addrs d) = 13%nat -> m_freeblock s <= FSSIZE ->
  (forall s', core s' (v_inode sb v n d) -> m_freeinode s' = m_freeinode s -> m_freeblock s' = m_freeblock s -> Q tt s') ->
  wp (winode n d) s Q.
Proof.
  intros H Hn Hd Hf HQ. pose proof (inode_block n Hn). unfold winode. apply wp_bind, wp_gets. rewrite (co_sb _ _ H).
  apply wp_bind. eapply wp_rsect; [done|lia|]. eapply wp_wsect; [done|lia|done|apply put_dinode_ok; [apply (co_ok _ _ H)|lia|done]|exact HQ].
Qed.

Lemma inode_keeps v n d ad : 0 <= n < 200 -> blocks_wf sb v ad -> keeps_blocks v (v_inode sb v n d) ad.
Proof.
  intros Hn Hwf t Ht Hne. destruct (bw_range Hwf t Ht Hne) as [Hr _]. pose proof (inode_block n Hn). sizes.
  unfold v_inode. apply vupd_ne. lia.
Qed.

Lemma inode_used v n d c : 0 <= n < 200 -> 0 <= c < sb_size sb -> used sb (v_inode sb v n d) c = used sb v c.
Proof. intros Hn Hc. pose proof (inode_block n Hn). apply used_vupd; [done|sizes; lia]. Qed.

Lemma blocks_u32 v ad : blocks_wf sb v ad -> Forall is_u32 ad.
Proof.
  intros Hwf. apply Forall_lookup. intros k x Hx. pose proof (lookup_lt_Some _ _ _ Hx) as Hk. rewrite (bw_len Hwf) in Hk.
  destruct (decide (x = 0)) as [->|Hne]; [unfold is_u32; lia|]. assert (Es : slot_val v ad (SAddr (Z.of_nat k)) = x).
  { cbn. rewrite nth0_lookup, Nat2Z.id, Hx. done. }
  destruct (bw_range Hwf (SAddr (Z.of_nat k))) as [Hr _]; [cbn; lia|congruence|]. rewrite Es in Hr. sizes. unfold is_u32. lia.
Qed.

Lemma dinode_ok_file ty n ad : is_s16 ty -> 0 <= n <= MAXMK -> length ad = 13%nat -> Forall is_u32 ad -> dinode_ok (mkDinode ty 0 0 1 n ad).
Proof. unfold MAXMK. intros. split_and!; cbn; try done; unfold is_s16, is_u32; lia. Qed.

(** The rest of the disk when inode [n] takes the block map [ad'] of [v1]. *)
Lemma inode_step v v1 n ad' d m :
  extends sb v (ads v n) v1 ad' -> (forall c, is_block (v1 c)) -> 0 <= n < 200 -> 0 <= m < 200 -> m <> n -> length (d_addrs d) = 13%nat ->
  disk_inode sb (v_inode sb v1 n d) m = disk_inode sb v m.
Proof.
  intros X Hok Hn Hm Hne Hd. rewrite disk_inode_other by (done || lia). unfold disk_inode.
  rewrite (ex_frame X); [done|]. pose proof (inode_block m Hm). left. sizes. lia.
Qed.

(** The state after inode [k] has grown to the contents [data'], with the inode
    stored. *)
Section grown.
Context (s : mkfs) (v : Z -> bytes) (A : list (Z * bytes)) (R : rep s v A).
Context (k : nat) (ty : Z) (data data' : bytes) (Hk : A !! k = Some (ty, data)).
Context (v1 : Z -> bytes) (ad' : list Z) (X : extends sb v (ads v (inum k)) v1 ad') (Hok : forall c, is_block (v1 c)).
Context (Hlen : Z.of_nat (length data') <= MAXMK) (Hmap : mapped v1 ad' (Z.of_nat (length data'))).
Context (Hdata : forall i, 0 <= i < MAXFILE * BSIZE -> fbyte v1 ad' i = nth0 data' (Z.to_nat i)).
Let d := mkDinode ty 0 0 1 (Z.of_nat (length data')) ad'.
Let v' := v_inode sb v1 (inum k) d.

Lemma grown_num m : (m < length A)%nat -> 0 <= inum m < 200.
Proof. pose proof (rp_small _ _ _ R). unfold inum. lia. Qed.
Lemma grown_k : (k < length A)%nat.
Proof. by eapply lookup_lt_Some. Qed.
Lemma grown_type : is_s16 ty.
Proof. apply (rp_files _ _ _ R k ty data Hk). Qed.
Lemma grown_dok : dinode_ok d.
Proof. apply dinode_ok_file; [apply grown_type|lia|apply (bw_len (ex_wf X))|eapply blocks_u32, X]. Qed.

Lemma grown_used c : 0 <= c < sb_size sb -> used sb v1 c = true -> used sb v' c = true.
Proof. intros Hc. unfold v'. by rewrite inode_used by (done || apply grown_num, grown_k). Qed.

Lemma grown_self : file_at v' (inum k) ty data'.
Proof.
  pose proof (grown_num k grown_k) as Hn.
  assert (Ei : disk_inode sb v' (inum k) = d) by (apply disk_inode_same; [apply Hok|lia|apply grown_dok]).
  assert (Ea : ads v' (inum k) = ad') by (unfold ads; by rewrite Ei).
  pose proof (inode_keeps v1 (inum k) d ad' Hn (ex_wf X)) as Hkeep.
  split; rewrite ?Ea; [exact Ei|eapply keeps_wf; [exact Hkeep|apply grown_used|apply X]| |].
  - intros i Hi. unfold faddr. rewrite (keeps_slot v1 v'); [by apply Hmap|done|]. unfold MAXMK in Hlen.
    apply data_slot_ok. rewrite BSIZE_val, MAXFILE_val. split; [apply Z.div_pos; lia|apply Z.div_lt_upper_bound; lia].
  - intros i Hi. rewrite (keeps_fbyte v1 v') by done. by apply Hdata.
Qed.

Lemma grown_other_keeps m : (m < length A)%nat -> m <> k -> blocks_wf sb v (ads v (inum m)) ->
  disk_inode sb v' (inum m) = disk_inode sb v (inum m) /\ keeps_blocks v v' (ads v (inum m)) /\ apart v' (ads v (inum m)) ad'.
Proof.
  intros Hm Hne Hwf. pose proof (grown_num k grown_k) as Hn. pose proof (grown_num m Hm) as Hn'.
  pose proof (rp_apart _ _ _ R m k Hm grown_k Hne) as Hap.
  pose proof (extends_keeps _ _ _ _ _ X Hwf Hap) as K1.
  assert (Hwf1 : blocks_wf sb v1 (ads v (inum m))) by (eapply keeps_wf; [exact K1|apply (ex_used X)|done]).
  pose proof (inode_keeps v1 (inum k) d _ Hn Hwf1) as K2. pose proof (inode_keeps v1 (inum k) d _ Hn (ex_wf X)) as K3.
  split; [|split].
  - apply (inode_step v v1 (inum k) ad'); try done; [unfold inum; lia|apply (bw_len (ex_wf X))].
  - intros t Ht H0. rewrite <- (K1 t Ht H0). rewrite <- (keeps_slot v v1 _ t K1 Ht) in H0 |- *. by apply K2.
  - intros t u Ht Hu. unfold v'. rewrite (keeps_slot v1 _ _ _ K2), (keeps_slot v1 _ _ _ K3) by done.
    by apply (extends_apart v (ads v (inum k)) v1 ad').
Qed.

Lemma grown_rep s2 :
  core s2 v' -> m_freeinode s2 = m_freeinode s -> m_freeblock s2 <= 107 + total (<[k := (ty, data')]> A) ->
  rep s2 v' (<[k := (ty, data')]> A).
Proof.
  intros C2 E2 F2. pose proof (rp_small _ _ _ R). pose proof grown_k as Hkl. pose proof (grown_num k Hkl) as Hn.
  assert (Ek : ads v' (inum k) = ad').
  { unfold ads, v'. rewrite disk_inode_same by (apply Hok || lia || apply grown_dok). done. }
  assert (Hwf : forall m, (m < length A)%nat -> blocks_wf sb v (ads v (inum m))).
  { intros m Hm. destruct (lookup_lt_is_Some_2 A m Hm) as [[t x] Hx]. by apply (rp_files _ _ _ R) in Hx as ([] & _). }
  assert (Eo : forall m, (m < length A)%nat -> m <> k -> ads v' (inum m) = ads v (inum m)).
  { intros m Hm Hne. unfold ads. by destruct (grown_other_keeps m Hm Hne (Hwf m Hm)) as [-> _]. }
  assert (Hlow : forall c, 0 <= c < 32 -> v' c = v c).
  { intros c Hc. pose proof (inode_block _ Hn). unfold v', v_inode. rewrite vupd_ne by lia. apply (ex_frame X). left. sizes. lia. }
  split; rewrite ?length_insert; try done.
  - rewrite E2. apply (rp_inum _ _ _ R).
  - intros m t x Hx. destruct (decide (m = k)) as [->|Hne].
    + rewrite list_lookup_insert_eq in Hx by done. injection Hx as <- <-. split; [apply grown_self|]. split; [done|apply grown_type].
    + rewrite list_lookup_insert_ne in Hx by done. pose proof (lookup_lt_Some _ _ _ Hx) as Hm.
      destruct (rp_files _ _ _ R m t x Hx) as (Hf & Hl & Ht). split; [|done].
      destruct (grown_other_keeps m Hm Hne (Hwf m Hm)) as (Hi & Hkp & _).
      eapply keeps_file; [exact Hf|exact Hi|exact Hkp| |done].
      intros c Hc Hu. apply grown_used; [done|]. by apply (ex_used X).
  - intros m m' Hm Hm' Hne. destruct (decide (m = k)) as [->|Hmk]; [|destruct (decide (m' = k)) as [->|Hmk']].
    + rewrite Ek, Eo by done. apply apart_sym. by apply grown_other_keeps; [| |apply Hwf].
    + rewrite Ek, Eo by done. by apply grown_other_keeps; [| |apply Hwf].
    + rewrite !Eo by done. intros t u Ht Hu. destruct (grown_other_keeps m Hm Hmk (Hwf m Hm)) as (_ & K1 & _).
      destruct (grown_other_keeps m' Hm' Hmk' (Hwf m' Hm')) as (_ & K2 & _).
      rewrite (keeps_slot v v' _ _ K1), (keeps_slot v v' _ _ K2) by done. by apply (rp_apart _ _ _ R).
  - intros n Hn'. unfold v'. rewrite (inode_step v v1 (inum k) ad'); try done; [by apply (rp_unused _ _ _ R)|..].
    + unfold inum in Hn'. lia.
    + unfold inum in *. lia.
    + apply (bw_len (ex_wf X)).
  - rewrite Hlow by lia. apply (rp_sb _ _ _ R).
  - rewrite Hlow by lia. apply (rp_log _ _ _ R).
Qed.
End grown.

Lemma wp_iappend s v A k ty data p (Q : unit -> mkfs -> Prop) :
  rep s v A -> A !! k = Some (ty, data) -> Z.of_nat (length (data ++ p)) <= MAXMK -> Forall is_byte p ->
  107 + total (<[k := (ty, data ++ p)]> A) <= FSSIZE ->
  (forall s' v', rep s' v' (<[k := (ty, data ++ p)]> A) -> Q tt s') ->
  wp (iappend (inum k) p) s Q.
Proof.
  intros R Hk Hl Hby Htot HQ. destruct (rp_files _ _ _ R k ty data Hk) as ([Hi Hwf Hm Hd] & Hl0 & Hty).
  pose proof (lookup_lt_Some _ _ _ Hk) as Hlt. pose proof (rp_small _ _ _ R) as Hs. pose proof (rp_core _ _ _ R) as C.
  assert (Hn : 0 <= inum k < 200) by (unfold inum; lia). pose proof (inode_block _ Hn) as Hib. pose proof (rp_free _ _ _ R) as Hfree.
  pose proof (total_insert _ _ _ (ty, data ++ p) Hk) as Et. unfold cost_of in Et. cbn [snd] in Et.
  assert (El : Z.of_nat (length (data ++ p)) = Z.of_nat (length data) + Z.of_nat (length p)) by (rewrite length_app; lia).
  rewrite El in Et. unfold iappend. apply wp_bind. unfold rinode. apply wp_bind, wp_gets. rewrite (co_sb _ _ C). apply wp_bind.
  eapply wp_rsect; [exact C|lia|]. apply wp_ret. change (get_dinode (v (IBLOCK (inum k) sb)) (inum k)) with (disk_inode sb v (inum k)).
  rewrite Hi. cbn [d_type d_major d_minor d_nlink d_size d_addrs]. apply wp_bind.
  eapply wp_iappend_loop; [exact C|exact Hwf|lia|lia|exact Hm|exact Hby|lia|].
  intros s1 v1 ad' C1 E1 F1 X1 Sp1 M1. cbn [fst snd]. rewrite <- El.
  eapply wp_winode; [exact C1|done|apply (bw_len (ex_wf X1))|lia|]. intros s2 C2 E2 F2.
  eapply HQ, (grown_rep s v A R k ty data _ Hk v1 ad' X1 (co_ok _ _ C1)); [done|by rewrite El| |exact C2|congruence|lia].
  intros i Hi'. destruct Sp1 as (Sp & _). rewrite Sp by done. rewrite Hd by done. rewrite !nth0_lookup.
  case_decide as Hin; [rewrite lookup_app_r by lia; do 2 f_equal; lia|].
  destruct (decide (Z.to_nat i < length data)%nat); [by rewrite lookup_app_l|].
  rewrite !lookup_ge_None_2; [done|rewrite length_app; lia|lia].
Qed.

(** * A new inode *)

Lemma slot_val_zeros v t : slot_ok t -> slot_val v (replicate 13 0) t = 0.
Proof.
  assert (Hz : forall k, nth0 (replicate 13 0) k = 0).
  { intros k. rewrite nth0_lookup. destruct (replicate 13 0 !! k) as [x|] eqn:E; [|done]. by apply lookup_replicate in E as [-> _]. }
  destruct t; cbn [slot_val]; intros _; rewrite ?Hz; done.
Qed.

Lemma zeros_wf v : blocks_wf sb v (replicate 13 0).
Proof. split; [done|..]; intros t; [intros Ht|intros u Ht _]; by rewrite (slot_val_zeros v t Ht). Qed.

Lemma zeros_file v n ty d : disk_inode sb v n = d -> d = mkDinode ty 0 0 1 0 (replicate 13 0) -> file_at v n ty [].
Proof.
  intros Ei ->. assert (Ea : ads v n = replicate 13 0) by (unfold ads; by rewrite Ei).
  split; rewrite ?Ea; [by rewrite Ei|apply zeros_wf|intros i Hi; cbn in Hi; lia|].
  intros i Hi. unfold fbyte, fblock, faddr. rewrite slot_val_zeros.
  - cbn [Z.eqb]. rewrite !nth0_lookup. unfold zero_block. destruct (replicate BSIZEn 0 !! _) as [x|] eqn:E; [|done].
    by apply lookup_replicate in E as [-> _].
  - apply data_slot_ok. split; [apply Z.div_pos; [lia|done]|apply Z.div_lt_upper_bound; [done|lia]].
Qed.

Lemma total_snoc A f : total (A ++ [f]) = total A + cost_of f.
Proof. unfold total. rewrite foldr_app. cbn [foldr]. induction A as [|x A IH]; cbn [foldr]; lia. Qed.

Lemma rep_add s v A ty s' :
  let v' := v_inode sb v (inum (length A)) (mkDinode ty 0 0 1 0 (replicate 13 0)) in
  rep s v A -> (length A < 199)%nat -> is_s16 ty -> core s' v' -> m_freeinode s' = m_freeinode s + 1 ->
  m_freeblock s' = m_freeblock s -> rep s' v' (A ++ [(ty, [])]).
Proof.
  intros v' R Hl Hty C' E1 E2. set (n := inum (length A)) in *. assert (Hn : 0 <= n < 200) by (unfold n, inum; lia).
  set (d := mkDinode ty 0 0 1 0 (replicate 13 0)) in *.
  assert (Ei : disk_inode sb v' n = d).
  { apply disk_inode_same; [apply (co_ok _ _ (rp_core _ _ _ R))|lia|]. apply dinode_ok_file; [done|unfold MAXMK; lia|done|by apply Forall_replicate]. }
  assert (Eo : forall m, (m < length A)%nat -> disk_inode sb v' (inum m) = disk_inode sb v (inum m)).
  { intros m Hm. apply disk_inode_other; try done; [apply (co_ok _ _ (rp_core _ _ _ R))|lia|unfold inum; lia|unfold n, inum; lia]. }
  assert (Ea : forall m, (m < length A)%nat -> ads v' (inum m) = ads v (inum m)) by (intros m Hm; unfold ads; by rewrite Eo).
  assert (En : ads v' n = replicate 13 0) by (unfold ads; by rewrite Ei).
  assert (Hk : forall m, (m < length A)%nat -> keeps_blocks v v' (ads v (inum m))).
  { intros m Hm. apply inode_keeps; [done|]. destruct (lookup_lt_is_Some_2 A m Hm) as [[t x] Hx]. by apply (rp_files _ _ _ R) in Hx as ([] & _). }
  assert (Hz : forall w ad, apart w ad (replicate 13 0)).
  { intros w ad t u Ht Hu Hne. by rewrite (slot_val_zeros w u Hu). }
  split; rewrite ?length_app; cbn [length]; try done; try lia.
  - rewrite E1, (rp_inum _ _ _ R). unfold inum. lia.
  - intros m t x Hx. destruct (decide (m < length A)%nat) as [Hm|Hm].
    + rewrite lookup_app_l in Hx by done. destruct (rp_files _ _ _ R m t x Hx) as (Hf & Hb & Ht). split; [|done].
      eapply keeps_file; [exact Hf|by apply Eo|by apply Hk| |done]. intros c Hc. unfold v'. by rewrite inode_used.
    + pose proof (lookup_lt_Some _ _ _ Hx) as Hm'. rewrite length_app in Hm'. cbn in Hm'. assert (m = length A) as -> by lia.
      rewrite lookup_app_r, Nat.sub_diag in Hx by lia. injection Hx as <- <-. split; [by eapply zeros_file|]. split; [unfold MAXMK; cbn; lia|done].
  - intros m m' Hm Hm' Hne. destruct (decide (m = length A)) as [->|Hml]; [|destruct (decide (m' = length A)) as [->|Hml']].
    + fold n. rewrite En. apply apart_sym, Hz.
    + fold n. rewrite En. apply Hz.
    + rewrite !Ea by lia. intros t u Ht Hu. rewrite (keeps_slot v v' _ t), (keeps_slot v v' _ u) by (done || apply Hk; lia).
      apply (rp_apart _ _ _ R); done || lia.
  - intros m Hm. unfold v'. rewrite disk_inode_other; [apply (rp_unused _ _ _ R)|apply (co_ok _ _ (rp_core _ _ _ R))|..]; try done; unfold n, inum in *; lia.
  - rewrite total_snoc, E2. pose proof (rp_free _ _ _ R). change (cost_of (ty, [])) with 0. lia.
  - pose proof (inode_block n Hn). unfold v', v_inode. rewrite vupd_ne by lia. apply (rp_sb _ _ _ R).
  - pose proof (inode_block n Hn). unfold v', v_inode. rewrite vupd_ne by lia. apply (rp_log _ _ _ R).
Qed.

Lemma wp_ialloc s v A ty (Q : Z -> mkfs -> Prop) :
  rep s v A -> (length A < 199)%nat -> is_s16 ty -> m_freeblock s <= FSSIZE ->
  (forall s' v', rep s' v' (A ++ [(ty, [])]) -> Q (inum (length A)) s') -> wp (ialloc ty) s Q.
Proof.
  intros R Hl Hty Hf HQ. unfold ialloc. apply wp_bind, wp_get. apply wp_bind, wp_put. rewrite (rp_inum _ _ _ R), u32_small by (unfold inum; lia). apply wp_bind.
  eapply (wp_winode _ v); [|unfold inum; lia|done|done|].
  - destruct (rp_core _ _ _ R). by split.
  - intros s' C' E1 E2. apply wp_ret. eapply HQ, (rep_add s v A); try done. cbn in *. rewrite E1, (rp_inum _ _ _ R). done.
Qed.
