(* ===== verification/MkfsImage.v ===== *)
(** mkfs.c: the whole run of the program, and the file system on the image. *)
From S2P Require Import Prelude Layout CString Locks Bio Log LogRep Crash Fs FsBlock FsMap FsData FsInode FsDir Mkfs MkfsSpec.

Local Abbreviation sb := mkfs_sb.

(** * The free map *)

Definition first_bits (n : Z) : bytes := fold_left set_bit (seqZ 0 n) zero_block.

Lemma first_bits_S n : 0 <= n -> first_bits (n + 1) = set_bit (first_bits n) n.
Proof. intros Hn. unfold first_bits. rewrite seqZ_app by lia. by rewrite fold_left_app. Qed.

Lemma bit_clear_zero bj : bit_clear zero_block bj = true.
Proof.
  unfold bit_clear. rewrite nth0_lookup. unfold zero_block. destruct (replicate BSIZEn 0 !! _) as [x|] eqn:E; [|done].
  by apply lookup_replicate in E as [-> _].
Qed.

Lemma first_bits_spec n : 0 <= n <= BPB -> is_block (first_bits n) /\ forall bj, 0 <= bj < BPB -> bit_clear (first_bits n) bj = negb (bj <? n).
Proof.
  intros Hn. pattern n. apply natlike_ind; [| |lia].
  - split; [apply zero_block_ok|]. intros bj Hbj. change (first_bits 0) with zero_block.
    rewrite bit_clear_zero. destruct (Z.ltb_spec bj 0); [lia|done].
  - clear n Hn. intros n Hn [Hb IH]. unfold Z.succ. rewrite first_bits_S by done. split; [by apply set_bit_ok|].
    intros bj Hbj. destruct (Z_lt_le_dec n BPB) as [Hlt|Hge].
    + rewrite bit_clear_set, IH by (done || lia). destruct (Z.ltb_spec bj n), (Z.ltb_spec bj (n + 1)); case_decide; done || lia.
    + assert (Hne : bit_clear (set_bit (first_bits n) n) bj = bit_clear (first_bits n) bj).
      { unfold bit_clear, set_bit. rewrite list_insert_ge; [done|]. destruct Hb as [-> _]. unfold BSIZEn.
        change BPB with 4096 in *. pose proof (Z.div_le_lower_bound n 8 512). lia. }
      rewrite Hne, IH by done. destruct (Z.ltb_spec bj n), (Z.ltb_spec bj (n + 1)); done || lia.
Qed.

(** A disk whose free map is [first_bits n] and zeros. *)
Lemma used_first v n b : 0 <= n <= BPB -> 0 <= b < FSSIZE -> v 58 = first_bits n ->
  (forall c, 58 < c < 107 -> v c = zero_block) -> used sb v b = (b <? n).
Proof.
  intros Hn Hb H58 Hz. unfold used. pose proof (BBLOCK_bounds sb b Hb) as Hbb. rewrite mkfs_bmap, mkfs_datastart in Hbb.
  pose proof (Z.mod_pos_bound b BPB). pose proof (Z.div_mod b BPB). unfold BBLOCK in *. rewrite mkfs_bmap in *. change BPB with 4096 in *.
  destruct (decide (b / 4096 = 0)) as [E|E].
  - rewrite E. change (0 + 58) with 58. rewrite H58, (proj2 (first_bits_spec n Hn)) by (change BPB with 4096; lia).
    rewrite negb_involutive. do 2 f_equal. lia.
  - rewrite Hz by lia. rewrite bit_clear_zero. cbn. symmetry. apply Z.ltb_ge. nia.
Qed.

(** * The empty image *)

Lemma wp_zero_image s (Q : unit -> mkfs -> Prop) :
  m_img s = ∅ ->
  (forall img, (forall c, img !! c = if decide (0 <= c < FSSIZE) then Some zero_block else None) -> Q tt (set_img img s)) ->
  wp zero_image s Q.
Proof.
  intros He HQ. unfold zero_image. apply wp_bind.
  apply (wp_for_loop (fun i s' => exists img, s' = set_img img s /\ forall c, img !! c = if decide (0 <= c < i) then Some zero_block else None)).
  - exists ∅. split; [by destruct s; cbn in *; subst|]. intros c. rewrite decide_False by lia. apply lookup_empty.
  - intros k s' Hk (img & -> & Himg). apply wp_bind. unfold wsect. apply wp_modify, wp_ret. exists (<[k := zero_block]> img).
    split; [done|]. intros c. destruct (decide (c = k)) as [->|Hne].
    + by rewrite lookup_insert_eq, decide_True by lia.
    + rewrite lookup_insert_ne, Himg by done. destruct (decide (0 <= c < k)); [by rewrite decide_True by lia|by rewrite decide_False by lia].
  - intros s' (img & -> & Himg). apply wp_ret. apply HQ. intros c. rewrite Himg. rewrite Z.add_0_l, Z2Nat.id by (rewrite FSSIZE_val; lia). done.
Qed.

(** The disk that stands for the image before any inode. *)
Definition v0 : Z -> bytes := vupd (vupd (fun _ => zero_block) 58 (first_bits 107)) 1 sb_block.

Lemma sb_block_ok : is_block sb_block.
Proof. apply (bool_decide_unpack (length sb_block = BSIZEn /\ Forall is_byte sb_block)). vm_compute. exact I. Qed.

Lemma v0_outside c : c <> 1 -> c <> 58 -> v0 c = zero_block.
Proof. intros. unfold v0. by rewrite !vupd_ne. Qed.

Lemma rep0 img fi :
  (forall c, img !! c = if decide (0 <= c < FSSIZE) then Some zero_block else None) -> fi = 1 ->
  rep (mkM (<[1 := sb_block]> img) sb fi nmeta) v0 [].
Proof.
  intros Himg ->. split; cbn; try done; try lia.
  - split; cbn [m_img m_sb m_freeblock]; try done.
    + intros c. unfold v0, vupd. case_decide; [apply sb_block_ok|]. case_decide; [|apply zero_block_ok].
      apply (proj1 (first_bits_spec 107 ltac:(change BPB with 4096; lia))).
    + intros c. destruct (decide (c = 1)) as [->|Hne].
      * rewrite lookup_insert_eq. split; [rewrite FSSIZE_val; lia|done].
      * rewrite lookup_insert_ne, Himg by done. case_decide; split; intros Hx; done || by destruct Hx.
    + intros c Hc. rewrite lookup_insert_ne, Himg, decide_True by (rewrite ?FSSIZE_val; lia). done.
    + intros c Hc. destruct (decide (c = 1)) as [->|Hne]; [by rewrite lookup_insert_eq|].
      rewrite lookup_insert_ne, Himg, decide_True, v0_outside by (rewrite ?FSSIZE_val in *; lia). done.
    + intros b Hb. rewrite (used_first v0 107); [done|change BPB with 4096; lia|done|done|].
      intros c Hc. apply v0_outside; lia.
    + intros c Hc. rewrite nmeta_val in Hc. apply v0_outside; lia.
  - intros n Hn. unfold disk_inode. pose proof (inode_block n ltac:(unfold inum in Hn; lia)). rewrite v0_outside by lia.
    pose proof (dinode_off_bound n ltac:(unfold inum in Hn; lia)) as Hb.
    unfold get_dinode, zero_block. rewrite drop_replicate. unfold dec_dinode. cbn [d_type]. unfold get16, slice.
    rewrite drop_replicate, take_replicate. by replace (2 `min` (BSIZEn - dinode_off n - 0))%nat with 2%nat by lia.
Qed.

(** * The directory and the files *)

(** The entries of the root directory. *)
Definition entry_of (n : Z) (name : bytes) : bytes := enc_dirent (mkDirent n (strncpy name 14)).
Definition names (fs : list src_file) : list bytes := str "." :: str ".." :: map (fun f => strip f.1) fs.
Definition entry_inum (k : nat) : Z := if decide (k < 2)%nat then 1 else Z.of_nat k.
Definition dir_bytes (fs : list src_file) : bytes := concat (imap (fun k name => entry_of (entry_inum k) name) (names fs)).
Definition contents (f : src_file) : bytes := concat (default [] f.2).
Definition image_files (fs : list src_file) : list (Z * bytes) :=
  (T_DIR, dir_bytes fs) :: map (fun f => (T_FILE, contents f)) fs.

Record file_ok (f : src_file) : Prop := {
  fo_slash : existsb (Z.eqb 47) f.1 = false;
  fo_name : Forall is_byte f.1;
  fo_open : is_Some f.2;
  fo_bytes : Forall is_byte (contents f);
  fo_size : Z.of_nat (length (contents f)) <= MAXMK
}.

Lemma length_entry n name : length (entry_of n name) = 16%nat.
Proof. unfold entry_of. rewrite length_enc_dirent; [done|apply length_strncpy]. Qed.

Lemma length_entries (f : nat -> bytes -> bytes) l :
  (forall k x, length (f k x) = 16%nat) -> length (concat (imap f l)) = (16 * length l)%nat.
Proof.
  revert f. induction l as [|x l IH]; intros f Hf; [done|]. cbn. rewrite length_app, Hf, IH; [lia|]. intros k y. apply Hf.
Qed.

Lemma length_dir_bytes fs : length (dir_bytes fs) = (16 * (length fs + 2))%nat.
Proof. unfold dir_bytes. rewrite length_entries by (intros; apply length_entry). unfold names. cbn [length]. rewrite length_map. lia. Qed.

Lemma dir_bytes_snoc fs f : dir_bytes (fs ++ [f]) = dir_bytes fs ++ entry_of (Z.of_nat (length fs) + 2) (strip f.1).
Proof.
  unfold dir_bytes. replace (names (fs ++ [f])) with (names fs ++ [strip f.1]) by (unfold names; by rewrite map_app).
  rewrite imap_app, concat_app. f_equal. cbn [imap concat]. rewrite app_nil_r. f_equal. unfold entry_inum, names. cbn [length].
  rewrite length_map, decide_False by lia. lia.
Qed.

Lemma image_files_snoc fs f : image_files (fs ++ [f]) = <[0%nat := (T_DIR, dir_bytes (fs ++ [f]))]> (image_files fs) ++ [(T_FILE, contents f)].
Proof. unfold image_files. rewrite map_app. reflexivity. Qed.

(** * Adding the files *)

Lemma cost_nonneg n : 0 <= n -> 0 <= cost n.
Proof. intros Hn. unfold cost. pose proof (Z.div_pos (n + 511) 512). destruct (5632 <? n); lia. Qed.

Lemma cost_mono m n : 0 <= m <= n -> cost m <= cost n.
Proof.
  intros Hn. unfold cost. pose proof (Z.div_le_mono (m + 511) (n + 511) 512). destruct (Z.ltb_spec 5632 m), (Z.ltb_spec 5632 n); lia.
Qed.

Lemma is_byte_tl l : Forall is_byte l -> Forall is_byte (tl l) /\ is_byte (hd0 l).
Proof. destruct 1; cbn; [|done]. split; [constructor|unfold is_byte; lia]. Qed.

Lemma strncpy_bytes n : forall l, Forall is_byte l -> Forall is_byte (strncpy l n).
Proof.
  induction n as [|n IH]; intros l Hl; [constructor|]. cbn [strncpy]. destruct (is_byte_tl l Hl) as [Ht Hh]. constructor; [done|].
  destruct (hd0 l =? 0); [apply Forall_replicate; unfold is_byte; lia|by apply IH].
Qed.

Lemma entry_bytes n name : Forall is_byte name -> Forall is_byte (entry_of n name).
Proof. intros H. unfold entry_of, enc_dirent. apply Forall_app. split; [apply le_is_byte|by apply strncpy_bytes]. Qed.

(** One entry of the root directory, and the chunks of the last file. *)
Lemma wp_append_entry s v A data n name (Q : unit -> mkfs -> Prop) :
  rep s v A -> A !! 0%nat = Some (T_DIR, data) -> Forall is_byte name -> Z.of_nat (length data) + 16 <= MAXMK ->
  107 + total (<[0%nat := (T_DIR, data ++ entry_of n name)]> A) <= FSSIZE ->
  (forall s' v', rep s' v' (<[0%nat := (T_DIR, data ++ entry_of n name)]> A) -> Q tt s') ->
  wp (append_entry n name) s Q.
Proof.
  intros R H0 Hn Hl Ht HQ. unfold append_entry. change ROOTINO with (inum 0). eapply (wp_iappend s v A 0); try done.
  - rewrite length_app. change (Z.to_nat DIRSIZ) with 14%nat. fold (entry_of n name). rewrite length_entry. lia.
  - by apply entry_bytes.
Qed.

Lemma wp_append_all chunks : forall s v A data (Q : unit -> mkfs -> Prop),
  rep s v (A ++ [(T_FILE, data)]) -> Z.of_nat (length (data ++ concat chunks)) <= MAXMK -> Forall is_byte (concat chunks) ->
  107 + total (A ++ [(T_FILE, data ++ concat chunks)]) <= FSSIZE ->
  (forall s' v', rep s' v' (A ++ [(T_FILE, data ++ concat chunks)]) -> Q tt s') ->
  wp (append_all (inum (length A)) chunks) s Q.
Proof.
  induction chunks as [|c cs IH]; intros s v A data Q R Hl Hb Ht HQ; cbn [append_all concat] in *.
  - apply wp_ret. rewrite app_nil_r in HQ. by eapply HQ.
  - apply Forall_app in Hb as [Hb1 Hb2]. rewrite app_assoc in Hl, Ht. rewrite total_snoc in Ht.
    assert (Hc : cost (Z.of_nat (length (data ++ c))) <= cost (Z.of_nat (length ((data ++ c) ++ concat cs)))).
    { apply cost_mono. rewrite (length_app (data ++ c)). lia. }
    assert (Ei : forall x, <[length A := x]> (A ++ [(T_FILE, data)]) = A ++ [x]).
    { intros x. by rewrite insert_app_r_alt, Nat.sub_diag by lia. }
    apply wp_bind. eapply (wp_iappend s v _ (length A) T_FILE data); [done| | |done| |].
    + by rewrite lookup_app_r, Nat.sub_diag by lia.
    + rewrite length_app in Hl. lia.
    + rewrite Ei, total_snoc. unfold cost_of in *. cbn [snd] in *. lia.
    + intros s' v' R'. rewrite Ei in R'. eapply IH; [exact R'|done|done|by rewrite total_snoc|].
      intros s2 v2 R2. rewrite <- app_assoc in R2. by eapply HQ.
Qed.

Lemma total_nonneg A : 0 <= total A.
Proof.
  unfold total. induction A as [|x A IH]; cbn [foldr]; [lia|].
  assert (0 <= cost_of x) by (apply cost_nonneg; lia). lia.
Qed.

Lemma image_total fs f : total (image_files (fs ++ [f])) =
  total (<[0%nat := (T_DIR, dir_bytes (fs ++ [f]))]> (image_files fs)) + cost_of (T_FILE, contents f).
Proof. by rewrite image_files_snoc, total_snoc. Qed.

Lemma image_total_dir fs f : total (image_files fs) <= total (<[0%nat := (T_DIR, dir_bytes (fs ++ [f]))]> (image_files fs)).
Proof.
  rewrite (total_insert _ 0 (T_DIR, dir_bytes fs)) by done. unfold cost_of. cbn [snd].
  assert (cost (Z.of_nat (length (dir_bytes fs))) <= cost (Z.of_nat (length (dir_bytes (fs ++ [f]))))); [|lia].
  apply cost_mono. rewrite dir_bytes_snoc, length_app. lia.
Qed.

Lemma image_total_mono fs f : total (image_files fs) <= total (image_files (fs ++ [f])).
Proof.
  rewrite image_total. pose proof (image_total_dir fs f). pose proof (cost_nonneg (Z.of_nat (length (contents f)))).
  unfold cost_of. cbn [snd]. lia.
Qed.

Lemma wp_add_file s v fs f (Q : unit -> mkfs -> Prop) :
  rep s v (image_files fs) -> file_ok f -> (length fs < 198)%nat -> 107 + total (image_files (fs ++ [f])) <= FSSIZE ->
  (forall s' v', rep s' v' (image_files (fs ++ [f])) -> Q tt s') -> wp (add_file f) s Q.
Proof.
  intros R [Hsl Hnm Hop Hby Hsz] Hl Ht HQ. unfold add_file. rewrite Hsl. pose proof (image_total_mono fs f).
  pose proof (rp_free _ _ _ R). set (A := image_files fs) in *. assert (HA : length A = S (length fs)) by (unfold A, image_files; cbn; by rewrite length_map).
  destruct f as [name [chunks|]]; cbn [fst snd] in *; [|by destruct Hop]. change (contents (name, Some chunks)) with (concat chunks) in *.
  apply wp_bind. eapply (wp_ialloc s v A); [done|lia|done|lia|]. intros s1 v1 R1.
  pose proof (image_total fs (name, Some chunks)) as Et. fold A in Et. rewrite dir_bytes_snoc in Et. cbn [fst] in Et.
  change (contents (name, Some chunks)) with (concat chunks) in Et.
  assert (En : inum (length A) = Z.of_nat (length fs) + 2) by (unfold inum; lia).
  assert (Ei : forall x, <[0%nat := x]> (A ++ [(T_FILE, [])]) = <[0%nat := x]> A ++ [(T_FILE, [])]) by done.
  set (A' := <[0%nat := (T_DIR, dir_bytes fs ++ entry_of (inum (length A)) (strip name))]> A).
  assert (HA' : length A' = length A) by apply length_insert.
  rewrite <- En in Et. change (<[0%nat:=(T_DIR, dir_bytes fs ++ entry_of (inum (length A)) (strip name))]> A) with A' in Et.
  apply wp_bind. eapply (wp_append_entry s1 v1 _ (dir_bytes fs)); [done|done| | | |].
  - unfold strip. destruct (hd0 name =? 95); [by apply is_byte_tl|done].
  - rewrite length_dir_bytes. unfold MAXMK. lia.
  - rewrite Ei, total_snoc. fold A'. change (cost_of (T_FILE, [])) with 0.
    pose proof (cost_nonneg (Z.of_nat (length (concat chunks)))). unfold cost_of in Et. cbn [snd] in Et. lia.
  - intros s2 v2 R2. rewrite Ei in R2. fold A' in R2. rewrite <- HA'. eapply wp_append_all; [exact R2|done|done|by rewrite total_snoc; cbn [app]; lia|].
    intros s3 v3 R3. eapply HQ. rewrite image_files_snoc, dir_bytes_snoc. cbn [fst]. rewrite <- En. exact R3.
Qed.

Lemma image_total_app fs fs' : total (image_files fs) <= total (image_files (fs ++ fs')).
Proof.
  revert fs. induction fs' as [|f fs' IH]; intros fs; [rewrite app_nil_r; lia|].
  pose proof (image_total_mono fs f). specialize (IH (fs ++ [f])). rewrite <- app_assoc in IH. cbn [app] in IH. lia.
Qed.

Lemma wp_add_files fs' : forall s v fs (Q : unit -> mkfs -> Prop),
  rep s v (image_files fs) -> Forall file_ok fs' -> (length (fs ++ fs') <= 198)%nat -> 107 + total (image_files (fs ++ fs')) <= FSSIZE ->
  (forall s' v', rep s' v' (image_files (fs ++ fs')) -> Q tt s') -> wp (add_files fs') s Q.
Proof.
  induction fs' as [|f fs' IH]; intros s v fs Q R Hf Hl Ht HQ; cbn [add_files].
  - apply wp_ret. rewrite app_nil_r in HQ. by eapply HQ.
  - apply Forall_cons in Hf as [Hf Hf']. rewrite cons_middle, app_assoc in *. rewrite !length_app in Hl. cbn in Hl. apply wp_bind.
    eapply (wp_add_file s v fs f); [done|done|lia| |].
    + pose proof (image_total_app (fs ++ [f]) fs'). lia.
    + intros s' v' R'. eapply (IH s' v' (fs ++ [f])); [done|done|rewrite !length_app; cbn; lia|done|done].
Qed.

(** * The finished image *)

Lemma slice_entries (f : nat -> bytes -> bytes) l k x :
  (forall k x, length (f k x) = 16%nat) -> l !! k = Some x -> slice (concat (imap f l)) (16 * k) 16 = f k x.
Proof.
  intros Hf. revert f k Hf. induction l as [|y l IH]; intros f [|k] Hf Hk; cbn in Hk; try done.
  - injection Hk as ->. cbn [imap concat]. rewrite Nat.mul_0_r. apply slice_app_here, Hf.
  - cbn [imap concat]. rewrite slice_app_skip by (rewrite Hf; lia). rewrite Hf.
    replace (16 * S k - 16)%nat with (16 * k)%nat by lia. apply (IH (f ∘ S) k); [|done]. intros. apply Hf.
Qed.

Section root.
Context (fs : list src_file) (v : Z -> bytes) (ad : list Z).
Context (Hfs : Forall file_ok fs) (Hsmall : (length fs <= 198)%nat).
Context (Hdata : forall i, 0 <= i < MAXFILE * BSIZE -> fbyte v ad i = nth0 (dir_bytes fs) (Z.to_nat i)).

Lemma names_bytes : Forall (Forall is_byte) (names fs).
Proof.
  unfold names. constructor; [by repeat constructor|]. constructor; [by repeat constructor|].
  apply Forall_map. eapply Forall_impl; [exact Hfs|]. intros [name c] [_ H _ _ _]. cbn in *.
  unfold strip. destruct (hd0 name =? 95); [by apply is_byte_tl|done].
Qed.

Lemma fbytes_dir k : 0 <= k -> k * 16 + 16 <= MAXFILE * BSIZE ->
  fbytes v ad (k * 16) 16 = slice (dir_bytes fs) (16 * Z.to_nat k) 16 ++ replicate (16 - length (slice (dir_bytes fs) (16 * Z.to_nat k) 16)) 0.
Proof.
  intros Hk Hm. assert (Hl : (length (slice (dir_bytes fs) (16 * Z.to_nat k) 16) <= 16)%nat) by (unfold slice; rewrite length_take; lia).
  apply bytes_ext; [rewrite length_fbytes, length_app, length_replicate; lia|].
  rewrite length_fbytes. intros j Hj. rewrite (nth0_lookup (fbytes _ _ _ _)), lookup_fbytes by lia. cbn [from_option default id].
  rewrite Hdata by lia. rewrite !nth0_lookup. replace (Z.to_nat (k * 16 + Z.of_nat j)) with (16 * Z.to_nat k + j)%nat by lia.
  unfold slice in *. rewrite length_take, length_drop in Hl |- *.
  destruct (decide (16 * Z.to_nat k + j < length (dir_bytes fs))%nat).
  - by rewrite lookup_app_l, lookup_take_lt, lookup_drop by (rewrite ?length_take, ?length_drop; lia).
  - rewrite lookup_app_r by (rewrite length_take, length_drop; lia). rewrite lookup_ge_None_2 by lia.
    rewrite lookup_replicate_2; [done|]. rewrite length_take, length_drop. lia.
Qed.

Lemma dir_entry_image k : 0 <= k -> k * 16 + 16 <= MAXFILE * BSIZE ->
  dir_entry v ad k = match names fs !! Z.to_nat k with
    | Some name => mkDirent (entry_inum (Z.to_nat k)) (strncpy name 14)
    | None => mkDirent 0 (replicate 14 0) end.
Proof.
  intros Hk Hm. unfold dir_entry. rewrite fbytes_dir by done. assert (Hn : length (names fs) = (length fs + 2)%nat) by (unfold names; cbn; rewrite length_map; lia).
  destruct (names fs !! Z.to_nat k) as [name|] eqn:E.
  - unfold dir_bytes. rewrite (slice_entries _ _ _ name) by (done || intros; apply length_entry).
    rewrite length_entry. cbn [Nat.sub replicate]. rewrite app_nil_r. apply dec_enc_dirent.
    pose proof (lookup_lt_Some _ _ _ E) as Hlt. split; [cbn [de_inum]; unfold entry_inum; case_decide; lia|].
    split; [apply length_strncpy|]. apply strncpy_bytes. exact (Forall_lookup_1 _ _ _ _ names_bytes E).
  - apply lookup_ge_None in E. assert (Es : slice (dir_bytes fs) (16 * Z.to_nat k) 16 = []).
    { unfold slice. rewrite drop_ge; [done|]. rewrite length_dir_bytes. lia. }
    rewrite Es. done.
Qed.

Lemma dir_lookup_image i name :
  i_addrs i = ad -> Z.of_nat (dirents i) * 16 <= MAXFILE * BSIZE -> (length fs + 2 <= dirents i)%nat ->
  dir_lookup v i name = entry_inum <$> (fst <$> list_find (fun x => dname x = dname name) (names fs)).
Proof.
  intros Ea Hm Hd. unfold dir_lookup. rewrite Ea. assert (Hn : length (names fs) = (length fs + 2)%nat) by (unfold names; cbn; rewrite length_map; lia).
  assert (He : forall k, 0 <= k < Z.of_nat (dirents i) -> entry_is name (dir_entry v ad k) =
    match names fs !! Z.to_nat k with Some x => bool_decide (dname x = dname name) | None => false end).
  { intros k Hk. rewrite dir_entry_image by lia. destruct (names fs !! Z.to_nat k) as [x|] eqn:E; [|done].
    unfold entry_is. cbn [de_inum de_name]. assert (entry_inum (Z.to_nat k) <> 0) by (unfold entry_inum; case_decide; lia).
    rewrite (proj2 (Z.eqb_neq _ _)) by done. cbn [negb andb]. pose proof (namecmp_zero name (strncpy x 14)) as Hz. rewrite dname_strncpy in Hz.
    case_bool_decide as Hx; [by apply Z.eqb_eq, Hz|]. apply Z.eqb_neq. rewrite Hz. congruence. }
  destruct (list_find _ (names fs)) as [[k x]|] eqn:Ef; cbn [fmap option_fmap option_map fst].
  - apply list_find_Some in Ef as (Hk & Hx & Hlow). pose proof (lookup_lt_Some _ _ _ Hk) as Hlt.
    rewrite (proj2 (dir_find_Some v ad name (dirents i) 0 (Z.of_nat k))).
    + cbn [fmap option_fmap option_map]. rewrite dir_entry_image, Nat2Z.id, Hk by lia. done.
    + split; [lia|]. split; [rewrite He, Nat2Z.id, Hk by lia; by rewrite bool_decide_eq_true_2|].
      intros j Hj. rewrite He by lia. destruct (names fs !! Z.to_nat j) as [y|] eqn:Ey; [|done].
      apply bool_decide_eq_false_2. by apply (Hlow _ _ Ey); lia.
  - apply list_find_None in Ef. rewrite (proj2 (dir_find_None v ad name (dirents i) 0)); [done|].
    intros j Hj. rewrite He by lia. destruct (names fs !! Z.to_nat j) as [y|] eqn:Ey; [|done].
    apply bool_decide_eq_false_2. rewrite Forall_lookup in Ef. by apply (Ef _ _ Ey).
Qed.
End root.

(** The size of the root directory, rounded up by the program. *)
Definition root_size (fs : list src_file) : Z := (Z.of_nat (length (dir_bytes fs)) / BSIZE + 1) * BSIZE.

Lemma root_size_bound fs : (length fs <= 198)%nat -> 0 <= root_size fs <= MAXMK.
Proof.
  intros Hl. unfold root_size, MAXMK. rewrite length_dir_bytes, BSIZE_val. set (L := Z.of_nat (16 * (length fs + 2))).
  assert (0 <= L <= 3200) by (unfold L; lia). pose proof (Z.div_le_mono L 3200 512). pose proof (Z.div_pos L 512).
  change (3200 / 512) with 6 in *. lia.
Qed.

(** The file system that the kernel finds on the disk [v]. *)
Record image (v : Z -> bytes) (fs : list src_file) : Prop := {
  im_sb : dec_superblock (v 1) = sb /\ sb_ok mkfs_geom sb;
  im_used : exists f, 107 <= f < 4096 /\ forall b, 0 <= b < FSSIZE -> used sb v b = (b <? f);
  im_root_inode : disk_inode sb v 1 = mkDinode T_DIR 0 0 1 (root_size fs) (ads v 1);
  im_root : forall i, i_dinode i = disk_inode sb v 1 ->
    dir_ok v i /\ i_nlink i = 1 /\
    forall name, dir_lookup v i name = entry_inum <$> (fst <$> list_find (fun x => dname x = dname name) (names fs));
  im_file : forall k f, fs !! k = Some f -> let n := Z.of_nat (length (contents f)) in
    disk_inode sb v (Z.of_nat k + 2) = mkDinode T_FILE 0 0 1 n (ads v (Z.of_nat k + 2)) /\
    mapped v (ads v (Z.of_nat k + 2)) n /\ fbytes v (ads v (Z.of_nat k + 2)) 0 n = contents f;
  im_unused : forall n, Z.of_nat (length fs) + 2 <= n < 200 -> d_type (disk_inode sb v n) = 0;
  im_wf : forall n, 1 <= n < Z.of_nat (length fs) + 2 -> blocks_wf sb v (ads v n);
  im_apart : forall m n, 1 <= m < Z.of_nat (length fs) + 2 -> 1 <= n < Z.of_nat (length fs) + 2 -> m <> n ->
    apart v (ads v m) (ads v n)
}.

Section finish.
Context (s : mkfs) (v : Z -> bytes) (fs : list src_file) (R : rep s v (image_files fs)).
Context (Hfs : Forall file_ok fs) (Hsmall : (length fs <= 198)%nat) (Hfit : m_freeblock s < 4096).
Context (Hpad : ((length fs + 2) mod 32 <> 0)%nat).
Context (w : Z -> bytes).
Let d := mkDinode T_DIR 0 0 1 (root_size fs) (ads v 1).
Context (Hlow : w 1 = v 1) (Hino : forall c, 32 <= c < 58 -> w c = v_inode sb v 1 d c).
Context (Hhigh : forall c, 107 <= c < FSSIZE -> w c = v c).
Context (Hused : forall b, 0 <= b < FSSIZE -> used sb w b = (b <? m_freeblock s)).

Lemma finish_len : length (image_files fs) = S (length fs).
Proof. unfold image_files. cbn. by rewrite length_map. Qed.
Lemma finish_files k ty data : image_files fs !! k = Some (ty, data) -> file_at v (inum k) ty data.
Proof. intros H. by apply (rp_files _ _ _ R) in H as (? & _). Qed.
Lemma finish_root : file_at v 1 T_DIR (dir_bytes fs).
Proof. by apply (finish_files 0). Qed.

Lemma finish_inode n : 0 <= n < 200 -> disk_inode sb w n = if decide (n = 1) then d else disk_inode sb v n.
Proof.
  intros Hn. pose proof (inode_block n Hn) as Hb. pose proof (co_ok _ _ (rp_core _ _ _ R)) as Hok.
  pose proof (fa_wf _ _ _ _ finish_root) as Hwf.
  assert (E : disk_inode sb w n = disk_inode sb (v_inode sb v 1 d) n) by (unfold disk_inode; by rewrite Hino).
  rewrite E. case_decide as En.
  - subst. apply disk_inode_same; [apply Hok|lia|].
    apply dinode_ok_file; [done|by apply root_size_bound|apply (bw_len Hwf)|by eapply blocks_u32].
  - apply disk_inode_other; (done || lia || apply (bw_len Hwf)).
Qed.

Lemma finish_ads n : 0 <= n < 200 -> ads w n = ads v n.
Proof. intros Hn. unfold ads. rewrite finish_inode by done. by case_decide as E; [subst|]. Qed.

Lemma finish_keeps ad : blocks_wf sb v ad -> keeps_blocks v w ad.
Proof. intros Hwf t Ht Hne. destruct (bw_range Hwf t Ht Hne) as [Hr _]. apply Hhigh. rewrite mkfs_datastart, mkfs_size, FSSIZE_val in *. lia. Qed.

Lemma finish_wf n : 1 <= n < Z.of_nat (length fs) + 2 -> blocks_wf sb v (ads v n).
Proof.
  intros Hn. destruct (lookup_lt_is_Some_2 (image_files fs) (Z.to_nat (n - 1))) as [[ty x] Hx]; [rewrite finish_len; lia|].
  apply finish_files in Hx. replace (inum (Z.to_nat (n - 1))) with n in Hx by (unfold inum; lia). apply Hx.
Qed.

Lemma finish_dir i : i_dinode i = disk_inode sb w 1 ->
  dir_ok w i /\ i_nlink i = 1 /\
  forall name, dir_lookup w i name = entry_inum <$> (fst <$> list_find (fun x => dname x = dname name) (names fs)).
Proof.
  rewrite finish_inode, decide_True by (done || lia). unfold i_dinode, d. intros [= Et _ _ En Es Ea].
  pose proof finish_root as [_ Hwf Hmap Hdata]. pose proof (finish_keeps _ Hwf) as Hk. rewrite length_dir_bytes in Hmap.
  unfold root_size in Es. rewrite length_dir_bytes, BSIZE_val in Es. set (L := Z.of_nat (16 * (length fs + 2))) in *.
  assert (HL : 32 <= L <= 3200) by (unfold L; lia). pose proof (Z.div_mod L 512) as Hd. pose proof (Z.mod_pos_bound L 512) as Hr.
  assert (Hne : L mod 512 <> 0).
  { intros E0. apply Hpad. apply Nat2Z.inj. rewrite Nat2Z.inj_mod. change (Z.of_nat 32) with 32.
    symmetry. apply (Z.mod_unique _ _ (L / 512)); [left; lia|]. unfold L in *. lia. }
  assert (Hent : Z.of_nat (dirents i) * 16 = i_size i).
  { unfold dirents. change sizeof_dirent with 16. rewrite Es. replace ((L / 512 + 1) * 512 + 16 - 1) with ((L / 512 + 1) * 32 * 16 + 15) by lia.
    rewrite Z.div_add_l by lia. change (15 / 16) with 0. lia. }
  split; [split|split; [done|]].
  - done.
  - rewrite Es. replace ((L / 512 + 1) * 512) with ((L / 512 + 1) * 32 * 16) by lia. by apply Z.mod_mul.
  - rewrite Es, MAXFILE_val, BSIZE_val. lia.
  - intros k Hk'. rewrite Ea. unfold faddr. rewrite (keeps_slot v w); [|done|].
    + destruct (decide (k < L)) as [Hlt|Hge]; [apply (Hmap k); lia|].
      assert (Eb : k / BSIZE = (L - 1) / BSIZE).
      { rewrite BSIZE_val. assert (E1 : k / 512 = L / 512) by (symmetry; apply (Z.div_unique _ _ _ (k - 512 * (L / 512))); lia).
        assert (E2 : (L - 1) / 512 = L / 512) by (symmetry; apply (Z.div_unique _ _ _ (L mod 512 - 1)); lia). congruence. }
      rewrite Eb. apply (Hmap (L - 1)). lia.
    + apply data_slot_ok. rewrite BSIZE_val, MAXFILE_val. split; [apply Z.div_pos; lia|apply Z.div_lt_upper_bound; lia].
  - intros name. apply (dir_lookup_image fs w (ads v 1)); try done; [|rewrite Hent, Es, MAXFILE_val, BSIZE_val; lia|].
    + intros j Hj. rewrite (keeps_fbyte v w) by done. by apply Hdata.
    + unfold L in *. lia.
Qed.

Lemma finish_image : image w fs.
Proof.
  pose proof (rp_core _ _ _ R) as C. pose proof (co_free _ _ C). split.
  - split; [|apply mkfs_sb_ok]. rewrite Hlow, (rp_sb _ _ _ R). vm_compute. reflexivity.
  - exists (m_freeblock s). split; [lia|done].
  - rewrite finish_ads, finish_inode, decide_True by (done || lia). done.
  - apply finish_dir.
  - intros k f Hk n. pose proof (lookup_lt_Some _ _ _ Hk). pose proof (proj1 (Forall_forall _ _) Hfs f (list_elem_of_lookup_2 _ _ _ Hk)) as [_ _ _ _ Hsz].
    assert (Hx : file_at v (inum (S k)) T_FILE (contents f)).
    { apply finish_files. change (((fun f => (T_FILE, contents f)) <$> fs) !! k = Some (T_FILE, contents f)). by rewrite list_lookup_fmap, Hk. }
    replace (inum (S k)) with (Z.of_nat k + 2) in Hx by (unfold inum; lia). destruct Hx as [Hi Hwf Hm Hd].
    rewrite finish_ads, finish_inode, decide_False by lia. split; [done|]. pose proof (finish_keeps _ Hwf) as Hkp.
    unfold MAXMK in Hsz. fold n in Hsz, Hm. assert (Hb : forall i, 0 <= i < n -> 0 <= i < MAXFILE * BSIZE) by (rewrite MAXFILE_val, BSIZE_val; lia).
    split.
    + intros i Hi'. unfold faddr. rewrite (keeps_slot v w); [by apply Hm|done|].
      apply data_slot_ok. rewrite BSIZE_val, MAXFILE_val. split; [apply Z.div_pos; lia|apply Z.div_lt_upper_bound; lia].
    + apply bytes_ext; [rewrite length_fbytes; unfold n; lia|]. rewrite length_fbytes. intros j Hj.
      rewrite (nth0_lookup (fbytes _ _ _ _)), lookup_fbytes by lia. cbn [from_option default id].
      rewrite (keeps_fbyte v w) by (done || apply Hb; lia). rewrite Hd by (apply Hb; lia). f_equal. lia.
  - intros n Hn. rewrite finish_inode, decide_False by lia. apply (rp_unused _ _ _ R). rewrite finish_len. unfold inum. lia.
  - intros n Hn. rewrite finish_ads by lia. eapply keeps_wf; [apply finish_keeps|..]; try by apply finish_wf.
    intros c Hc. rewrite mkfs_size in Hc. rewrite Hused, (co_used _ _ C) by (rewrite FSSIZE_val; lia). done.
  - intros m n Hm Hn Hne t u Ht Hu. rewrite !finish_ads by lia.
    rewrite (keeps_slot v w _ t), (keeps_slot v w _ u) by (done || apply finish_keeps, finish_wf; done).
    replace m with (inum (Z.to_nat (m - 1))) by (unfold inum; lia). replace n with (inum (Z.to_nat (n - 1))) by (unfold inum; lia).
    apply (rp_apart _ _ _ R); rewrite ?finish_len; done || lia.
Qed.
End finish.

(** * The whole program *)

Definition root_dinode (v : Z -> bytes) (fs : list src_file) : dinode := mkDinode T_DIR 0 0 1 (root_size fs) (ads v 1).

(** The finished image: the disk [v] of the files, with the size of the root
    directory rounded up and the map of the blocks in use. *)
Definition built (img : gmap Z bytes) (fs : list src_file) : Prop :=
  exists s s2 v, rep s v (image_files fs) /\ m_freeblock s < 4096 /\
    core s2 (v_inode sb v 1 (root_dinode v fs)) /\ img = <[58 := first_bits (m_freeblock s)]> (m_img s2).

Lemma wp_finish s v fs (Q : unit -> mkfs -> Prop) :
  rep s v (image_files fs) -> 107 + total (image_files fs) < 4096 ->
  (forall s', built (m_img s') fs -> Q tt s') ->
  wp (let* din := rinode 1 in
      winode 1 (mkDinode (d_type din) (d_major din) (d_minor din) (d_nlink din) ((d_size din / BSIZE + 1) * BSIZE) (d_addrs din)) ;;
      let* s := get in balloc (m_freeblock s)) s Q.
Proof.
  intros R Ht HQ. pose proof (rp_core _ _ _ R) as C. pose proof (rp_free _ _ _ R) as Hf.
  destruct (rp_files _ _ _ R 0 T_DIR (dir_bytes fs) eq_refl) as ([Hi Hwf _ _] & _ & _). change (inum 0) with 1 in *.
  pose proof (inode_block 1 ltac:(lia)) as Hb. apply wp_bind. unfold rinode. apply wp_bind, wp_gets. rewrite (co_sb _ _ C).
  apply wp_bind. eapply wp_rsect; [exact C|lia|]. apply wp_ret. change (get_dinode (v (IBLOCK 1 sb)) 1) with (disk_inode sb v 1).
  rewrite Hi. cbn [d_type d_major d_minor d_nlink d_size d_addrs]. apply wp_bind.
  eapply (wp_winode s v); [exact C|lia|apply (bw_len Hwf)|rewrite FSSIZE_val; lia|]. intros s2 C2 _ E2.
  apply wp_bind, wp_get. unfold balloc. rewrite E2. change (BSIZE * 8) with 4096. rewrite (proj2 (Z.ltb_lt _ _)) by lia. cbn [negb].
  apply wp_bind, wp_gets. rewrite (co_sb _ _ C2). unfold wsect. apply wp_modify. apply HQ. exists s, s2, v. split_and!; try done. lia.
Qed.

Lemma total_one f : total [f] = cost_of f.
Proof. unfold total. cbn [foldr]. lia. Qed.

(** The entries [.] and [..] fit. *)
Lemma first_entries x y :
  107 + total [(T_DIR, entry_of 1 x)] <= FSSIZE /\ Z.of_nat (length (entry_of 1 x)) + 16 <= MAXMK /  107 + total [(T_DIR, entry_of 1 x ++ entry_of 1 y)] <= FSSIZE.
Proof.
  rewrite !total_one, FSSIZE_val. unfold cost_of. cbn [snd]. rewrite length_app, !length_entry. by split_and!; vm_compute.
Qed.

Lemma wp_main fs (Q : unit -> mkfs -> Prop) :
  Forall file_ok fs -> (length fs <= 198)%nat -> 107 + total (image_files fs) < 4096 ->
  (forall s', built (m_img s') fs -> Q tt s') -> wp (main fs) mkfs0 Q.
Proof.
  intros Hfs Hl Ht HQ. pose proof FSSIZE_val as HS. unfold main. apply wp_bind, wp_modify. apply wp_bind. apply wp_zero_image; [done|]. intros img Himg.
  apply wp_bind. unfold wsect. apply wp_modify. pose proof (rep0 img 1 Himg eq_refl) as R0. fold sb. fold sb_block.
  apply wp_bind. eapply (wp_ialloc _ v0 []); [exact R0|cbn; lia|done|cbn [m_freeblock set_img]; rewrite nmeta_val; lia|]. intros s1 v1 R1.
  change (inum (length [])) with 1. change (negb (1 =? ROOTINO)) with false. cbn match.
  destruct (first_entries (str ".") (str "..")) as (T1 & T2 & T3).
  apply wp_bind. eapply (wp_append_entry s1 v1 _ []); [exact R1|done|by repeat constructor|done|exact T1|].
  intros s2 v2 R2. apply wp_bind. eapply (wp_append_entry s2 v2 _ (entry_of 1 (str "."))); [exact R2|done|by repeat constructor|exact T2|exact T3|].
  intros s3 v3 R3. apply wp_bind. eapply (wp_add_files fs s3 v3 []); [exact R3|done|done|cbn [app]; lia|]. intros s4 v4 R4.
  by eapply wp_finish.
Qed.

Section boot.
Context (img : gmap Z bytes) (fs : list src_file) (B : built img fs).

Lemma built_ok c x : img !! c = Some x -> is_block x.
Proof.
  destruct B as (s & s2 & v & R & Hf & C & ->). destruct (decide (c = 58)) as [->|Hne].
  - rewrite lookup_insert_eq. intros [= <-]. pose proof (co_free _ _ (rp_core _ _ _ R)). apply first_bits_spec. change BPB with 4096. lia.
  - rewrite lookup_insert_ne by done. intros Hx. assert (Hc : 0 <= c < FSSIZE) by (apply (co_dom _ _ C); eauto).
    destruct (decide (58 <= c < 107)) as [Hb|Hb].
    + rewrite (co_bmap _ _ C) in Hx by done. injection Hx as <-. apply zero_block_ok.
    + rewrite (co_view _ _ C) in Hx by lia. injection Hx as <-. apply (co_ok _ _ C).
Qed.

Lemma built_sb : disk_block img 1 = sb_block /\ disk_block img 2 = zero_block.
Proof.
  destruct B as (s & s2 & v & R & Hf & C & ->). pose proof (inode_block 1 ltac:(lia)). pose proof FSSIZE_val.
  unfold disk_block. rewrite !lookup_insert_ne, !(co_view _ _ C) by lia. cbn [default from_option id].
  unfold v_inode. rewrite !vupd_ne by lia. split; [apply (rp_sb _ _ _ R)|apply (rp_log _ _ _ R)].
Qed.

Lemma built_boot pid : exists b w, recover img FSSIZE pid = Ok tt b /\ log_rep mkfs_geom b (mkAblk w ∅ ∅ [] 0 w) /\
  forall c, ~ 2 <= c < 32 -> w c = disk_block img c.
Proof.
  destruct built_sb as [E1 E2]. destruct (recover_rep img FSSIZE pid 2 30 []) as (b & w & Hrun & Hrep & Hout & _).
  - unfold log_at. rewrite E1, FSSIZE_val. split_and!; try done. apply built_ok.
  - apply head_lists_nil. rewrite E2. by vm_compute.
  - by apply NoDup_nil.
  - apply not_elem_of_nil.
  - unfold NBUFn. cbn. lia.
  - done.
  - by apply Forall_nil.
  - exists b, w. split; [exact Hrun|]. clear Hrun. split; [exact Hrep|]. intros c Hc. apply Hout; [lia|apply not_elem_of_nil].
Qed.

Context (Hfs : Forall file_ok fs) (Hsmall : (length fs <= 198)%nat) (Hpad : ((length fs + 2) mod 32 <> 0)%nat).

Lemma built_image w : (forall c, ~ 2 <= c < 32 -> w c = disk_block img c) -> image w fs.
Proof.
  intros Hw. destruct built_sb as [E1 _]. destruct B as (s & s2 & v & R & Hf & C & ->).
  pose proof (co_free _ _ (rp_core _ _ _ R)) as Hfr. pose proof FSSIZE_val as HS.
  assert (Hview : forall c, 32 <= c < 58 \/ 107 <= c < FSSIZE -> w c = v_inode sb v 1 (root_dinode v fs) c).
  { intros c Hc. rewrite Hw by lia. unfold disk_block. by rewrite lookup_insert_ne, (co_view _ _ C) by lia. }
  apply (finish_image s v fs R Hfs Hsmall Hf Hpad).
  - rewrite Hw, E1 by lia. symmetry. apply (rp_sb _ _ _ R).
  - intros c Hc. apply Hview. lia.
  - intros c Hc. rewrite Hview by lia. pose proof (inode_block 1 ltac:(lia)). unfold v_inode. apply vupd_ne. lia.
  - intros b Hb. apply used_first; [change BPB with 4096; lia|done| |].
    + rewrite Hw by lia. unfold disk_block. by rewrite lookup_insert_eq.
    + intros c Hc. rewrite Hw by lia. unfold disk_block. by rewrite lookup_insert_ne, (co_bmap _ _ C) by lia.
Qed.
End boot.

(** C18: mkfs builds the file system that the kernel then uses.  For files that
    can be opened, have no slash in their names and fit (198 files, the blocks of
    one bitmap sector, a file of direct and singly indirect blocks), and a number
    of directory entries that does not fill the last block, the program ends
    without a failed assertion, and the kernel that boots from the image recovers
    an empty log and finds: the superblock; the blocks in use; the root directory,
    in which every lookup gives the inode of the first file with that name; the
    bytes of each file in its inode; the other inodes free; and no block in two
    places. *)
Theorem mkfs_image fs :
  Forall file_ok fs -> (length fs <= 198)%nat -> ((length fs + 2) mod 32 <> 0)%nat ->
  107 + total (image_files fs) < 4096 ->
  exists s, main fs mkfs0 = Ok tt s /\
    forall pid, exists b w, recover (m_img s) FSSIZE pid = Ok tt b /\
      log_rep mkfs_geom b (mkAblk w ∅ ∅ [] 0 w) /\ image w fs.
Proof.
  intros Hfs Hl Hpad Ht. destruct (wp_inv (main fs) mkfs0 (fun _ s => built (m_img s) fs)) as ([] & s & E & B); [by eapply wp_main|].
  exists s. split; [exact E|]. clear E. intros pid. destruct (built_boot _ _ B pid) as (b & w & E & Hrep & Hw).
  exists b, w. split; [exact E|]. clear E. split; [exact Hrep|]. by eapply built_image.
Qed.

(** Two programs, the second in two reads. *)
Definition sample : list src_file := [(str "_cat", Some [[104; 105]]); (str "README", Some [replicate 512 97; [10]])].

Lemma mkfs_image_witness :
  exists s, main sample mkfs0 = Ok tt s /\
    forall pid, exists b w, recover (m_img s) FSSIZE pid = Ok tt b /\
      log_rep mkfs_geom b (mkAblk w ∅ ∅ [] 0 w) /\ image w sample.
Proof.
  apply (mkfs_image sample); [|cbn; lia|cbn; lia|by vm_compute].
  repeat constructor; try done; cbn; unfold is_byte; try lia.
Defined.
