(* ===== verification/MkfsBoot.v ===== *)
(** From mkfs to the kernel: the files that mkfs.c was given can be found by
    their names and read in the kernel that boots from the image. *)
From S2P Require Import Prelude Layout CString Locks Bio Log LogRep Crash Fs FsBlock FsMap FsData FsInode FsDir FsName Mkfs MkfsSpec MkfsImage.

Local Abbreviation sb := mkfs_sb.

Definition in_image (fs : list src_file) (n : Z) : Prop := 1 <= n < Z.of_nat (length fs) + 2.

Lemma image_file_inode w fs n : image w fs -> in_image fs n -> n <> 1 ->
  exists f, fs !! Z.to_nat (n - 2) = Some f /\ disk_inode sb w n = mkDinode T_FILE 0 0 1 (Z.of_nat (length (contents f))) (ads w n).
Proof.
  intros Im Hn Hne. unfold in_image in Hn. destruct (lookup_lt_is_Some_2 fs (Z.to_nat (n - 2))) as [f Hf]; [lia|]. exists f. split; [done|].
  pose proof (im_file _ _ Im _ f Hf) as H. cbn zeta in H. replace (Z.of_nat (Z.to_nat (n - 2)) + 2) with n in H by lia. apply H.
Qed.

Lemma names_length fs : length (names fs) = (length fs + 2)%nat.
Proof. unfold names. cbn. rewrite length_map. lia. Qed.

Lemma image_tree w fs : image w fs -> (length fs <= 198)%nat -> Forall file_ok fs -> tree sb w (in_image fs).
Proof.
  intros Im Hl Hfs. assert (Hai : i_dinode (as_inode (disk_inode sb w 1)) = disk_inode sb w 1) by (by destruct (disk_inode sb w 1)).
  destruct (im_root _ _ Im _ Hai) as (Hdo & _ & Hlook).
  assert (Hty : forall n, in_image fs n -> n = 1 \/ d_type (disk_inode sb w n) = T_FILE).
  { intros n Hn. destruct (decide (n = 1)); [by left|right]. destruct (image_file_inode w fs n Im Hn) as (f & _ & ->); done. }
  split.
  - intros n Hn. rewrite mkfs_ninodes. unfold in_image in Hn. lia.
  - intros n Hn d. pose proof (im_wf _ _ Im n Hn) as Hwf. pose proof (blocks_u32 _ _ Hwf) as Hu. destruct (decide (n = 1)) as [->|Hne].
    + unfold d. rewrite (im_root_inode _ _ Im). split; [|done]. apply dinode_ok_file; [done|by apply root_size_bound|apply (bw_len Hwf)|done].
    + destruct (image_file_inode w fs n Im Hn Hne) as (f & Hf & E). unfold d. rewrite E. split; [|done].
      apply dinode_ok_file; [done| |apply (bw_len Hwf)|done]. destruct (proj1 (Forall_lookup _ _) Hfs _ _ Hf). lia.
  - intros n Hn d Hd. destruct (Hty n Hn) as [->|E]; [|unfold d in Hd; by rewrite E in Hd]. split; [done|]. apply (im_wf _ _ Im 1 Hn).
  - intros n name m Hn d Hd. destruct (Hty n Hn) as [->|E]; [|unfold d in Hd; by rewrite E in Hd]. unfold d. rewrite Hlook.
    destruct (list_find _ (names fs)) as [[j x]|] eqn:Ef; [|done]. intros [= <-]. apply list_find_Some in Ef as (Hj & _ & _).
    apply lookup_lt_Some in Hj. rewrite names_length in Hj. unfold in_image, entry_inum. case_decide; lia.
Qed.

(** * The kernel after boot *)

Definition empty_inode : inode :=
  mkInode 0 0 0 initsleeplock 0 0 0 0 0 0 (replicate 13 0) (replicate 11 (mkExtent 0 0)) 0 0 0 0.
(** No inode is cached; the superblock has been read. *)
Definition booted (img : gmap Z bytes) (b : lstate) (pid : Z) : fstate lstate :=
  mkF b (replicate 50 empty_inode) (dec_superblock (disk_block img 1)) pid 0.

Lemma booted_cache w fs : cache_ok sb w (in_image fs) (replicate 50 empty_inode) None.
Proof.
  split.
  - split; [done| |].
    + intros k i [-> _]%lookup_replicate. done.
    + intros k1 k2 i1 i2 dev inum [-> _]%lookup_replicate _ [H _]. cbn in H. lia.
  - intros k i [-> _]%lookup_replicate H. cbn in H. lia.
  - intros k i [-> _]%lookup_replicate _. done.
Qed.

Lemma booted_free : two_free (replicate 50 empty_inode).
Proof. by exists 0%nat, 1%nat. Qed.

(** Opening a file by its path, and reading it. *)
Definition read_path (path : bytes) (n : Z) : M (fstate lstate) (option (Z * bytes)) :=
  let* r := namei (fun _ => None) path (replicate 14 0) in
  match r with
  | None => ret None
  | Some ip => let* x := (ilock (Some ip) ;; readi (fun _ => None) ip 0 n) in ret (Some x)
  end.

Section read.
Context (w : Z -> bytes) (fs : list src_file) (Im : image w fs) (Hl : (length fs <= 198)%nat) (Hfs : Forall file_ok fs).
Context (b : lstate) (Hrep : log_rep mkfs_geom b (mkAblk w ∅ ∅ [] 0 w)) (pid : Z).
Local Abbreviation st := (mkF b (replicate 50 empty_inode) sb pid 0).
Local Abbreviation inv := (walk_inv mkfs_geom 0 w sb w [] (in_image fs) pid 0).

Lemma wp_read_file s k f n (Q : Z * bytes -> fstate lstate -> Prop) ip ic0 :
  inv s None -> fs !! k = Some f -> held ic0 (f_icache s) ip (Z.of_nat k + 2) ->
  n = Z.of_nat (length (contents f)) -> (forall s', Q (n, contents f) s') ->
  wp (ilock (Some ip) ;; readi (fun _ => None) ip 0 n) s Q.
Proof.
  intros Hi Hf (i & Hip & (Href & Hdv & Hin) & _) -> HQ. set (m := Z.of_nat k + 2) in *. pose proof (lookup_lt_Some _ _ _ Hf) as Hk.
  assert (Hm : in_image fs m) by (unfold in_image, m; lia). destruct (im_sb _ _ Im) as [_ Hsb].
  destruct (im_file _ _ Im k f Hf) as (Hd & Hmap & Hby). fold m in Hd, Hmap, Hby. destruct (im_used _ _ Im) as (fr & Hfr & Hu).
  assert (Hmeta : meta_used sb w). { intros c Hc. rewrite mkfs_datastart in Hc. rewrite Hu by (rewrite FSSIZE_val; lia). apply Z.ltb_lt. lia. }
  destruct (proj1 (Forall_lookup _ _) Hfs _ _ Hf) as [_ _ _ _ Hsz]. set (n := Z.of_nat (length (contents f))) in *.
  pose proof (image_tree w fs Im Hl Hfs) as Ht. wp_step. eapply (wp_ilock_walk mkfs_geom 0 w sb w [] (in_image fs) Ht Hsb); [unfold NBUFn; cbn; lia|exact Hi|exact Hip|done|].
  intros s1 i1 Hi1 Hip1 _ _ Hd1 _ Hdv1 Hin1 _. rewrite Hin in *. rewrite Hd in Hd1. injection Hd1 as Ety Ema Emi Enl Esz Ead.
  assert (Hrl : read_len i1 0 n = n) by (unfold read_len; rewrite Esz; destruct (Z.ltb_spec n (0 + n)); lia).
  eapply (wp_readi_file (fun _ => None) mkfs_geom 0 w s1 w [] ip i1 0 n); rewrite ?Hrl, ?Ead; try done.
  - destruct Hi1 as [Es _ _ Hr _]. split; rewrite ?Es; try done; [|by rewrite Ety|rewrite Ead; by apply (im_wf _ _ Im)].
    split; [done|rewrite mkfs_ninodes, Hin1; unfold in_image in Hm; lia|]. unfold i_dinode. rewrite Ety, Ema, Emi, Enl, Esz, Ead, <- Hd.
    by apply (tr_inode _ _ _ Ht).
  - unfold NBUFn. cbn. lia.
  - lia.
  - lia.
  - rewrite Esz. unfold MAXMK in Hsz. rewrite MAXFILE_val, BSIZE_val. lia.
  - unfold MAXMK in Hsz. lia.
  - intros b' s' _. rewrite Hby. apply HQ.
Qed.

(** The state after boot is one in which paths are resolved. *)
Lemma booted_inv : inv st None /\ meta_used sb w.
Proof.
  split; [split; try done; apply booted_cache|]. destruct (im_used _ _ Im) as (fr & Hfr & Hu).
  intros c Hc. rewrite mkfs_datastart in Hc. rewrite Hu by (rewrite FSSIZE_val; lia). apply Z.ltb_lt. lia.
Qed.

Lemma components_root name : Forall is_name name -> name <> [] -> components (slash :: name) = [name].
Proof.
  intros Hn Hne. unfold components. cbn [split_path]. change (slash =? 0) with false. rewrite Z.eqb_refl, decide_True by done.
  rewrite <- (app_nil_r name) at 1. rewrite split_path_name by done. cbn. by rewrite decide_False.
Qed.

Lemma wp_read_path name k f (Q : option (Z * bytes) -> fstate lstate -> Prop) :
  Forall is_name name -> name <> [] -> list_find (fun x => dname x = dname name) (names fs) = Some (k + 2, strip f.1)%nat ->
  fs !! k = Some f -> (forall s', Q (Some (Z.of_nat (length (contents f)), contents f)) s') ->
  wp (read_path (slash :: name) (Z.of_nat (length (contents f)))) st Q.
Proof.
  intros Hn Hne Hfind Hf HQ. destruct booted_inv as [Hi Hm]. pose proof (image_tree w fs Im Hl Hfs) as Ht. destruct (im_sb _ _ Im) as [_ Hsb].
  unfold read_path. wp_step. unfold namei. wp_step.
  eapply (wp_namex (fun _ => None) mkfs_geom 0 w sb w [] (in_image fs) pid 0%nat st (slash :: name) false _ ROOTINO); try done;
    [unfold NBUFn; cbn; lia|apply booted_free|unfold in_image; change ROOTINO with 1; lia|].
  intros r name' s' [Hi' Hw]. rewrite components_root in Hw by done. cbn [walk_to walk] in Hw.
  assert (Hai : i_dinode (as_inode (disk_inode sb w 1)) = disk_inode sb w 1) by (by destruct (disk_inode sb w 1)).
  destruct (im_root _ _ Im _ Hai) as (Hdo & _ & Hlook). assert (Ed : is_dir sb w ROOTINO = true).
  { unfold is_dir. change ROOTINO with 1. by rewrite (im_root_inode _ _ Im). }
  rewrite Ed in Hw. unfold look in Hw. change ROOTINO with 1 in Hw. rewrite Hlook, Hfind in Hw. cbn [fmap option_fmap option_map fst mbind option_bind] in Hw.
  unfold entry_inum in Hw. rewrite decide_False in Hw by lia. destruct Hw as (ip & -> & Hh & _).
  replace (Z.of_nat (k + 2)) with (Z.of_nat k + 2) in Hh by lia. wp_step. cbn [fst].
  wp_step. eapply (wp_read_file s' k f); [exact Hi'|exact Hf|exact Hh|done|]. intros s2. apply wp_ret. apply HQ.
Qed.
End read.

(** C5: what mkfs was given, the kernel reads.  For arguments that fit, the kernel
    that boots from the image finds the first file of each name in the root
    directory by its path, and reading it from the start returns exactly the
    bytes that mkfs read. *)
Theorem mkfs_boot_read fs :
  Forall file_ok fs -> (length fs <= 198)%nat -> ((length fs + 2) mod 32 <> 0)%nat -> 107 + total (image_files fs) < 4096 ->
  exists s, main fs mkfs0 = Ok tt s /\
    forall pid, exists b, recover (m_img s) FSSIZE pid = Ok tt b /\
      forall k f name, fs !! k = Some f -> Forall is_name name -> name <> [] ->
        list_find (fun x => dname x = dname name) (names fs) = Some (k + 2, strip f.1)%nat ->
        exists s', read_path (slash :: name) (Z.of_nat (length (contents f))) (booted (m_img s) b pid) =
          Ok (Some (Z.of_nat (length (contents f)), contents f)) s'.
Proof.
  intros Hfs Hl Hpad Ht. destruct (wp_inv (main fs) mkfs0 (fun _ s => built (m_img s) fs)) as ([] & s & E & B); [by eapply wp_main|].
  exists s. split; [exact E|]. clear E. intros pid. destruct (built_boot _ _ B pid) as (b & w & E & Hrep & Hw).
  exists b. split; [exact E|]. clear E. pose proof (built_image _ _ B Hfs Hl Hpad w Hw) as Im.
  assert (Esb : dec_superblock (disk_block (m_img s) 1) = sb). { rewrite <- Hw by lia. apply (im_sb _ _ Im). }
  intros k f name Hf Hn Hne Hfind. unfold booted. rewrite Esb.
  assert (Hwp : wp (read_path (slash :: name) (Z.of_nat (length (contents f)))) (mkF b (replicate 50 empty_inode) sb pid 0)
    (fun r _ => r = Some (Z.of_nat (length (contents f)), contents f))) by (by eapply (wp_read_path w fs Im Hl Hfs b Hrep pid name k f)).
  apply wp_inv in Hwp as (r & s' & E & ->). by exists s'.
Qed.

Lemma file_ok_sample : Forall file_ok sample.
Proof. repeat constructor; try done; cbn; unfold is_byte; try lia. Qed.

Lemma mkfs_boot_read_witness :
  exists s, main sample mkfs0 = Ok tt s /\
    forall pid, exists b, recover (m_img s) FSSIZE pid = Ok tt b /\
      exists s', read_path (str "/cat") 2 (booted (m_img s) b pid) = Ok (Some (2, [104; 105])) s'.
Proof.
  destruct (mkfs_boot_read sample file_ok_sample ltac:(cbn; lia) ltac:(cbn; lia) ltac:(by vm_compute)) as (s & E & H).
  exists s. split; [exact E|]. clear E. intros pid. destruct (H pid) as (b & E & Hr). exists b. split; [exact E|]. clear E.
  apply (Hr 0%nat (str "_cat", Some [[104; 105]]) (str "cat")); [done|by repeat constructor|done|by vm_compute].
Defined.

(** /cat is inode 2; its directory is the root. *)
Lemma namex_correct_witness :
  exists s0 (s : fstate lstate) r name' s', main sample mkfs0 = Ok tt s0 /\
    namex (fun _ => None) (str "/cat") true (replicate 14 0) s = Ok (r, name') s' /\ dname name' = str "cat" /\
    exists k i, r = Some k /\ f_icache s' !! k = Some i /\ i_inum i = 1.
Proof.
  destruct (wp_inv (main sample) mkfs0 (fun _ s => built (m_img s) sample)) as ([] & s & E & B);
    [eapply wp_main; [apply file_ok_sample|cbn; lia|by vm_compute|done]|]. exists s.
  destruct (built_boot _ _ B 7) as (b & w & _ & Hrep & Hw). pose proof (built_image _ _ B file_ok_sample ltac:(cbn; lia) ltac:(cbn; lia) w Hw) as Im.
  destruct (booted_inv w sample Im ltac:(cbn; lia) b Hrep 7) as [Hi Hm].
  destruct (namex_correct (fun _ => None) mkfs_geom 0 w sb w [] (in_image sample) 7 0%nat _ (str "/cat") true (replicate 14 0) ROOTINO
    (image_tree w sample Im ltac:(cbn; lia) file_ok_sample) mkfs_sb_ok Hm ltac:(unfold NBUFn; cbn; lia) Hi booted_free)
    as (r & name' & s' & Ex & _ & Hres); [clear E; unfold in_image; change ROOTINO with 1; cbn; lia|reflexivity|reflexivity|].
  change (components (str "/cat")) with [str "cat"] in Hres. unfold walk_parent in Hres. cbn [removelast walk mbind option_bind] in Hres.
  assert (Ed : is_dir sb w ROOTINO = true) by (unfold is_dir; change ROOTINO with 1; by rewrite (im_root_inode _ _ Im)).
  rewrite Ed in Hres. destruct Hres as (k & -> & (i & Hk & (_ & _ & Hin) & _) & Hn). destruct (Hn eq_refl) as (c & [= <-] & Hc).
  do 4 eexists. split; [exact E|]. split; [exact Ex|]. split; [exact Hc|]. exists k, i.
  split; [reflexivity|]. split; [exact Hk|exact Hin].
Defined.
