(* ===== verification/Hw.v ===== *)
(** x86.h [inb], [outb] and memory-mapped registers: what the device drivers use of the machine.

    The devices see the accesses in order: a state is the history of them, and
    what a read returns is a function of the history, which is hardware and so
    a parameter. *)
From S2P Require Import Prelude.

Inductive event :=
| Out (port v : Z)                         (* outb *)
| In (port : Z)                            (* inb *)
| Wr (addr v : Z)                          (* a store to a device's register *)
| Rd (addr : Z).                           (* a load from it *)

#[export] Instance event_eq_dec : EqDecision event.
Proof. solve_decision. Defined.

(** The answer to a read after a history, the last access first. *)
Class Hardware := answer : list event -> event -> Z.

Section ports.
Context `{Hardware} {S : Type}.

(** A driver's state has the history as a part. *)
Record driver (S : Type) := mkDriver { hist : list event; vars : S }.

Definition access (e : event) : M (driver S) unit := modify (fun s => mkDriver S (e :: hist S s) (vars S s)).
Definition ask (e : event) : M (driver S) Z := fun s => Ok (answer (hist S s) e) (mkDriver S (e :: hist S s) (vars S s)).

Definition outb (port v : Z) : M (driver S) unit := access (Out port (u8 v)).
Definition inb (port : Z) : M (driver S) Z := ask (In port).
Definition wr (addr v : Z) : M (driver S) unit := access (Wr addr v).
Definition rd (addr : Z) : M (driver S) Z := ask (Rd addr).
Definition var : M (driver S) S := gets (vars S).
Definition set_var (f : S -> S) : M (driver S) unit := modify (fun s => mkDriver S (hist S s) (f (vars S s))).
End ports.
Arguments mkDriver {S}.
Arguments hist {S}.
Arguments vars {S}.

Lemma wp_access {S} e (s : driver S) (Q : unit -> driver S -> Prop) : Q tt (mkDriver (e :: hist s) (vars s)) -> wp (access e) s Q.
Proof. done. Qed.
Lemma wp_ask `{Hardware} {S} e (s : driver S) (Q : Z -> driver S -> Prop) :
  Q (answer (hist s) e) (mkDriver (e :: hist s) (vars s)) -> wp (ask e) s Q.
Proof. done. Qed.
Lemma wp_set_var {S} f (s : driver S) (Q : unit -> driver S -> Prop) : Q tt (mkDriver (hist s) (f (vars s))) -> wp (set_var f) s Q.
Proof. done. Qed.

(** The value last stored in a register. *)
Fixpoint reg_of (h : list event) (a : Z) : option Z :=
  match h with
  | Wr a' v :: h => if a' =? a then Some v else reg_of h a
  | _ :: h => reg_of h a
  | [] => None
  end.

Ltac hw_step :=
  lazymatch goal with
  | |- wp (bind _ _) _ _ => apply wp_bind
  | |- wp (outb _ _) _ _ => apply wp_access
  | |- wp (wr _ _) _ _ => apply wp_access
  | |- wp (inb _) _ _ => apply wp_ask
  | |- wp (rd _) _ _ => apply wp_ask
  | |- wp (set_var _) _ _ => apply wp_set_var
  | |- wp var _ _ => apply wp_gets
  | |- _ => wp_step
  end; cbn [hist vars].
