(* ===== verification/Boot.v ===== *)
(** bootmain.c: the boot loader, which reads the kernel from the disk.

    The loader polls the drive of Ide.v: [DrivePolls] is what a status register
    shows while the drive reads.  Memory is physical memory. *)
From S2P Require Import Prelude Layout CString Locks Bio Ide IdeSpec Exec.

(** A drive that reads shows that it is busy until the data is there. *)
Class DrivePolls (H : Type) `{DriveLaws H} : Prop := {
  poll_reading h d l n : job_of h = Reading d l n ->
    media (snd (inb 0x1f7 h)) = media h /\
    match ready_in h with
    | O => Z.land (fst (inb 0x1f7 h)) (Z.lor IDE_BSY IDE_DRDY) = IDE_DRDY /\
           job_of (snd (inb 0x1f7 h)) = DoneRead (concat (map (fun k => media h d (l + k)) (seqZ 0 n)))
    | S k => Z.land (fst (inb 0x1f7 h)) IDE_BSY <> 0 /\
             job_of (snd (inb 0x1f7 h)) = Reading d l n /\ ready_in (snd (inb 0x1f7 h)) = k
    end
}.

Definition SECTSIZE : Z := 512.

Record machine (H : Type) := mkMachine { m_mem : mem; m_drive : H }.
Arguments mkMachine {H}.
Arguments m_mem {H}.
Arguments m_drive {H}.

(** [n] bytes of memory, and bytes stored in it. *)
Definition bytes_at (m : mem) (a : Z) (n : nat) : bytes := map (fun k => m (a + Z.of_nat k)) (seq 0 n).
Definition store_bytes (m : mem) (a : Z) (l : bytes) : mem :=
  fun x => if (a <=? x) && (x <? a + Z.of_nat (length l)) then nth0 l (Z.to_nat (x - a)) else m x.
Definition ld32 (m : mem) (a : Z) : Z := unle (bytes_at m a 4).
Definition ld16 (m : mem) (a : Z) : Z := unle (bytes_at m a 2).

Section loader.
Context {H : Type} `{Drive H}.
Local Abbreviation MB := (M (machine H)).

Definition port (f : H -> H) : MB unit := modify (fun s => mkMachine (m_mem s) (f (m_drive s))).

Definition waitdisk : MB unit :=
  while_loop (S max_wait) tt (fun _ => fun s =>
    let r := inb 0x1f7 (m_drive s) in
    Ok (if negb (Z.land (fst r) 0xC0 =? 0x40) then inl tt else inr tt) (mkMachine (m_mem s) (snd r))).

Definition readsect (dst offset : Z) : MB unit :=
  waitdisk ;;
  port (outb 0x1f2 1) ;;
  port (outb 0x1f3 (u8 offset)) ;;
  port (outb 0x1f4 (u8 (Z.shiftr offset 8))) ;;
  port (outb 0x1f5 (u8 (Z.shiftr offset 16))) ;;
  port (outb 0x1f6 (u8 (Z.lor (Z.shiftr offset 24) 0xE0))) ;;
  port (outb 0x1f7 0x20) ;;
  waitdisk ;;
  modify (fun s => let r := insl 0x1f0 (SECTSIZE / 4) (m_drive s) in
                   mkMachine (store_bytes (m_mem s) dst (fst r)) (snd r)).

(** The rounds of the loop are bounded by the sectors that [count] bytes can touch. *)
Definition readseg (pa count offset : Z) : MB unit :=
  let epa := u32 (pa + count) in
  let pa := u32 (pa - offset mod SECTSIZE) in
  let offset := offset / SECTSIZE + 1 in
  while_loop (Z.to_nat (count / SECTSIZE) + 3) (pa, offset) (fun '(pa, offset) =>
    if pa <? epa then
      readsect pa offset ;;
      ret (inl (u32 (pa + SECTSIZE), u32 (offset + 1)))
    else ret (inr tt)).

Definition ELF_SCRATCH : Z := 0x10000.

(** The loop over the program headers from [ph] to [eph], of which there are at most [n]. *)
Definition load_headers (n : nat) (ph eph : Z) : MB unit :=
  while_loop (S n) ph (fun ph =>
    if ph <? eph then
      let* m := gets m_mem in
      let pa := ld32 m (ph + 12) in
      readseg pa (ld32 m (ph + 16)) (ld32 m (ph + 4)) ;;
      let* m := gets m_mem in
      (if ld32 m (ph + 16) <? ld32 m (ph + 20)
       then modify (fun s => mkMachine (stosb (m_mem s) (u32 (pa + ld32 m (ph + 16))) 0
                                          (Z.to_nat (ld32 m (ph + 20) - ld32 m (ph + 16)))) (m_drive s))
       else ret tt) ;;
      ret (inl (u32 (ph + sizeof_proghdr)))
    else ret (inr tt)).

(** The address that [bootmain] jumps to; [None] if it returns. *)
Definition bootmain : MB (option Z) :=
  readseg ELF_SCRATCH 4096 0 ;;
  let* m := gets m_mem in
  if negb (ld32 m ELF_SCRATCH =? ELF_MAGIC) then ret None
  else
    let ph := u32 (ELF_SCRATCH + ld32 m (ELF_SCRATCH + 28)) in
    let phnum := ld16 m (ELF_SCRATCH + 44) in
    load_headers (Z.to_nat phnum) ph (u32 (ph + phnum * sizeof_proghdr)) ;;
    let* m := gets m_mem in
    ret (Some (ld32 m (ELF_SCRATCH + 24))).
End loader.

(** The boot loader puts the segments of the kernel where its headers say, and
    writes to no other memory than its scratch page and whole sectors around them. *)

(** * The specification *)

(** Byte [k] of the kernel's file, which starts at sector 1 of disk 0. *)
Definition image {H} `{Drive H} (h : H) : mem :=
  fun k => nth0 (media h 0 (1 + k / SECTSIZE)) (Z.to_nat (k mod SECTSIZE)).

Record segment := mkSegment { sg_off : Z; sg_pa : Z; sg_filesz : Z; sg_memsz : Z }.

Definition segment_at (m : mem) (ph : Z) : segment :=
  mkSegment (ld32 m (ph + 4)) (ld32 m (ph + 12)) (ld32 m (ph + 16)) (ld32 m (ph + 20)).

Definition segments (img : mem) : list segment :=
  map (fun i => segment_at img (ld32 img 28 + sizeof_proghdr * i)) (seqZ 0 (ld16 img 44)).

(** Reading starts at a sector's first byte and takes whole sectors. *)
Definition lo (pa off : Z) : Z := pa - off mod SECTSIZE.
Definition sectors (count off : Z) : Z := (count + off mod SECTSIZE + (SECTSIZE - 1)) / SECTSIZE.
Definition read_hi (pa count off : Z) : Z := lo pa off + SECTSIZE * sectors count off.

(** The memory that loading a segment changes. *)
Definition seg_lo (g : segment) : Z := lo (sg_pa g) (sg_off g).
Definition seg_hi (g : segment) : Z :=
  Z.max (read_hi (sg_pa g) (sg_filesz g) (sg_off g)) (sg_pa g + sg_memsz g).
Definition touched (g : segment) (x : Z) : Prop := seg_lo g <= x < seg_hi g.

(** A segment whose sectors lie in the memory, off the scratch page. *)
Definition seg_fits (g : segment) : Prop :=
  0 <= seg_lo g /\ sg_pa g + sg_filesz g + SECTSIZE <= 2 ^ 32 /\ sg_pa g + sg_memsz g < 2 ^ 32 /\
  (seg_hi g <= ELF_SCRATCH \/ ELF_SCRATCH + 4096 <= seg_lo g).

(** What loading a segment makes of the memory. *)
Definition read_mem (img : mem) (pa count off : Z) (m : mem) : mem :=
  fun x => if (lo pa off <=? x) && (x <? read_hi pa count off) then img (off + (x - pa)) else m x.
Definition load_seg (img : mem) (m : mem) (g : segment) : mem :=
  fun x => if (sg_pa g + sg_filesz g <=? x) && (x <? sg_pa g + sg_memsz g) then 0
           else read_mem img (sg_pa g) (sg_filesz g) (sg_off g) m x.

(** * Memory *)

Lemma bytes_at_ext m m' a n : (forall x, a <= x < a + Z.of_nat n -> m x = m' x) -> bytes_at m a n = bytes_at m' a n.
Proof. intros E. apply map_ext_in. intros k Hk%in_seq. apply E. lia. Qed.

Lemma bytes_at_shift m m' a b n : (forall k, 0 <= k < Z.of_nat n -> m (a + k) = m' (b + k)) -> bytes_at m a n = bytes_at m' b n.
Proof. intros E. apply map_ext_in. intros k Hk%in_seq. apply E. lia. Qed.

Lemma bytes_at_range m a n : (forall x, is_byte (m x)) -> 0 <= unle (bytes_at m a n) < 256 ^ Z.of_nat n.
Proof.
  intros Hm. assert (Hl : length (bytes_at m a n) = n) by (unfold bytes_at; by rewrite length_map, length_seq).
  rewrite <- Hl at 3. apply unle_range, Forall_map, Forall_forall. intros k _. apply Hm.
Qed.

Lemma store_bytes_spec m a l x :
  store_bytes m a l x = if (a <=? x) && (x <? a + Z.of_nat (length l)) then nth0 l (Z.to_nat (x - a)) else m x.
Proof. done. Qed.

Lemma bytes_at_store m a l : bytes_at (store_bytes m a l) a (length l) = l.
Proof.
  apply list_eq. intros k. unfold bytes_at. rewrite list_lookup_fmap. destruct (decide (k < length l)%nat) as [Hk|Hk].
  - rewrite lookup_seq_lt by done. cbn. rewrite store_bytes_spec, (proj2 (Z.leb_le _ _)), (proj2 (Z.ltb_lt _ _)) by lia. cbn [andb].
    replace (Z.to_nat (a + Z.of_nat k - a)) with k by lia. symmetry. by apply nth0_lookup_lt.
  - rewrite lookup_seq_ge, lookup_ge_None_2 by lia. done.
Qed.

Lemma ld32_store m a v : ld32 (store_bytes m a (le 4 v)) a = u32 v.
Proof. unfold ld32. rewrite <- (length_le 4 v) at 2. by rewrite bytes_at_store, unle_le. Qed.

Section loader.
Context {H : Type} `{HP : DrivePolls H}.
Local Abbreviation st := (machine H).

(** The sectors of disk 0 are full. *)
Definition disk_ok (h : H) : Prop := forall l, length (media h 0 l) = Z.to_nat SECTSIZE /\ Forall is_byte (media h 0 l).

Lemma image_byte h k : disk_ok h -> is_byte (image h k).
Proof.
  intros Hd. destruct (Hd (1 + k / SECTSIZE)) as [Hl Hb]. unfold image. rewrite Forall_forall in Hb.
  apply Hb. apply list_elem_of_lookup_2 with (Z.to_nat (k mod SECTSIZE)). apply nth0_lookup_lt. rewrite Hl.
  pose proof (Z.mod_pos_bound k SECTSIZE). unfold SECTSIZE in *. lia.
Qed.

(** * Polling *)

Lemma wp_waitdisk_ready (s : st) (Q : unit -> st -> Prop) : settled (job_of (m_drive s)) = true ->
  (forall h, same_disk (m_drive s) h -> Q tt (mkMachine (m_mem s) h)) -> wp waitdisk s Q.
Proof.
  intros Hs HQ. unfold waitdisk.
  apply (wp_while_loop (fun k _ s' => exists h, s' = mkMachine (m_mem s) h /\ same_disk (m_drive s) h /\ (ready_in h < k)%nat)).
  - exists (m_drive s). split_and!; [by destruct s|done|]. pose proof (ready_bound (m_drive s)). lia.
  - intros _ s' (h & _ & _ & ?). lia.
  - intros k _ s' (h & -> & Hd & Hk). unfold wp. cbn [m_mem m_drive].
    destruct (inb_status h) as [Hd' Hr]; [by rewrite (proj1 Hd)|].
    pose proof (same_drive_trans _ _ _ Hd Hd') as Hd2. destruct (ready_in h) as [|n].
    + destruct Hr as [E _]. change (Z.lor IDE_BSY IDE_DRDY) with 0xC0 in E. rewrite E. by apply HQ.
    + destruct Hr as [Hb Hr]. assert (Z.land (inb 0x1f7 h).1 0xC0 <> 0x40) as Hn.
      { intros E. apply Hb. change IDE_BSY with (Z.land 0xC0 IDE_BSY). by rewrite Z.land_assoc, E. }
      rewrite (proj2 (Z.eqb_neq _ _) Hn). cbn [negb]. eexists. split_and!; [done|done|lia].
Qed.

Lemma wp_waitdisk_read (s : st) d l n (Q : unit -> st -> Prop) : job_of (m_drive s) = Reading d l n ->
  (forall h, job_of h = DoneRead (concat (map (fun k => media h d (l + k)) (seqZ 0 n))) ->
     media h = media (m_drive s) -> Q tt (mkMachine (m_mem s) h)) -> wp waitdisk s Q.
Proof.
  intros Hs HQ. unfold waitdisk.
  apply (wp_while_loop (fun k _ s' => exists h, s' = mkMachine (m_mem s) h /\ job_of h = Reading d l n /\
           media h = media (m_drive s) /\ (ready_in h < k)%nat)).
  - exists (m_drive s). split_and!; [by destruct s|done|done|]. pose proof (ready_bound (m_drive s)). lia.
  - intros _ s' (h & _ & _ & _ & ?). lia.
  - intros k _ s' (h & -> & Hj & Hm & Hk). unfold wp. cbn [m_mem m_drive].
    destruct (poll_reading h d l n Hj) as [Hm' Hr]. destruct (ready_in h) as [|m].
    + destruct Hr as [E Hj']. change (Z.lor IDE_BSY IDE_DRDY) with 0xC0 in E. rewrite E. cbn.
      apply HQ; [by rewrite Hj', Hm'|congruence].
    + destruct Hr as (Hb & Hj' & Hr). assert (Z.land (inb 0x1f7 h).1 0xC0 <> 0x40) as Hn.
      { intros E. apply Hb. change IDE_BSY with (Z.land 0xC0 IDE_BSY). by rewrite Z.land_assoc, E. }
      rewrite (proj2 (Z.eqb_neq _ _) Hn). cbn [negb]. eexists. split_and!; [done|done|congruence|lia].
Qed.

Lemma wp_port {A} p v (k : unit -> M st A) (s : st) (Q : A -> st -> Prop) :
  accepts (job_of (m_drive s)) = true -> 0x1f2 <= p <= 0x1f6 ->
  (forall h, accepts (job_of h) = true -> media h = media (m_drive s) ->
     (forall p', reg h p' = if p' =? p then v else reg (m_drive s) p') -> wp (k tt) (mkMachine (m_mem s) h) Q) ->
  wp (bind (port (outb p v)) k) s Q.
Proof.
  intros Ha Hp HQ. apply wp_bind. unfold port. apply wp_modify.
  destruct (outb_reg (m_drive s) p v Ha Hp) as [[Hj Hm] Hr]. apply HQ; [by rewrite Hj|done|done].
Qed.

Lemma boot_lba s : 0 <= s < 2 ^ 28 ->
  let v := u8 (Z.lor (Z.shiftr s 24) 0xE0) in
  Z.land (Z.shiftr v 4) 1 = 0 /\
  u8 s + Z.shiftl (u8 (Z.shiftr s 8)) 8 + Z.shiftl (u8 (Z.shiftr s 16)) 16 + Z.shiftl (Z.land v 0x0f) 24 = s.
Proof.
  intros Hs v.
  assert (Hv : v = Z.lor (Z.land (Z.shiftr s 24) 0x0f) 0xE0).
  { unfold v, u8. change 256 with (2 ^ 8). rewrite <- Z.land_ones by lia. change 0x0f with (Z.ones 4).
    rewrite !Z.land_ones by lia. rewrite !Z.shiftr_div_pow2 by lia.
    assert (0 <= s / 2 ^ 24 < 2 ^ 4) as Hr by (split; [apply Z.div_pos|apply Z.div_lt_upper_bound]; lia).
    rewrite (Z.mod_small (s / _)) by lia. apply Z.mod_small.
    split; [apply Z.lor_nonneg; lia|]. apply Z.log2_lt_cancel. rewrite Z.log2_lor by lia.
    apply Z.max_lub_lt; [|done]. apply Z.le_lt_trans with (Z.log2 15); [apply Z.log2_le_mono; lia|done]. }
  clearbody v. subst v. split.
  - rewrite Z.shiftr_lor, Z.shiftr_land. change (Z.shiftr 0x0f 4) with 0. by rewrite Z.land_0_r.
  - rewrite Z.land_lor_distr_l, <- Z.land_assoc, Z.land_diag. change (Z.land 0xE0 0x0f) with 0. rewrite Z.lor_0_r.
    rewrite <- (lba_bytes s) at 5 by done. unfold u8. change 256 with (2 ^ 8). by rewrite <- !Z.land_ones by lia.
Qed.

(** Any number of polls later, the sector is in memory. *)
Lemma wp_readsect dst l (s : st) (Q : unit -> st -> Prop) : accepts (job_of (m_drive s)) = true -> 0 <= l < 2 ^ 28 ->
  length (media (m_drive s) 0 l) = Z.to_nat SECTSIZE ->
  (forall h, accepts (job_of h) = true -> media h = media (m_drive s) ->
     Q tt (mkMachine (store_bytes (m_mem s) dst (media (m_drive s) 0 l)) h)) ->
  wp (readsect dst l) s Q.
Proof.
  intros Ha Hl Hlen HQ. unfold readsect. wp_step. apply wp_waitdisk_ready; [by destruct (job_of (m_drive s))|].
  intros h1 [Hj1 Hm1]. rewrite <- Hj1 in Ha.
  apply wp_port; [done|lia|]. intros h2 Ha2 Hm2 Hr2. apply wp_port; [done|lia|]. intros h3 Ha3 Hm3 Hr3.
  apply wp_port; [done|lia|]. intros h4 Ha4 Hm4 Hr4. apply wp_port; [done|lia|]. intros h5 Ha5 Hm5 Hr5.
  apply wp_port; [done|lia|]. intros h6 Ha6 Hm6 Hr6. cbn [m_mem m_drive] in *.
  destruct (boot_lba l Hl) as [Ed El].
  assert (reg h6 0x1f2 = 1 /\ sel_dev h6 = 0 /\ sel_lba h6 = l) as (Hn & Hd & Hsl).
  { unfold sel_dev, sel_lba. rewrite !Hr6, !Hr5, !Hr4, !Hr3, !Hr2. cbn [Z.eqb Pos.eqb]. done. }
  destruct (outb_read h6 IDE_CMD_READ Ha6) as [Hj7 Hm7]; [by left|]. change IDE_CMD_READ with 0x20 in *. rewrite Hn, Hd, Hsl in Hj7.
  wp_step. unfold port. wp_step. cbn [m_mem m_drive]. wp_step.
  eapply wp_waitdisk_read; [exact Hj7|]. intros h8 Hj8 Hm8. wp_step. cbn [m_mem m_drive] in *.
  change (seqZ 0 1) with [0] in Hj8. cbn [map concat] in Hj8. rewrite Z.add_0_r, app_nil_r in Hj8.
  assert (Hm : media h8 = media (m_drive s)) by congruence. rewrite Hm in Hj8.
  destruct (insl_data h8 _ (SECTSIZE / 4) Hj8) as (-> & Hj9 & Hm9); [by rewrite Hlen|].
  apply HQ; [by rewrite Hj9|congruence].
Qed.
(** * Segments *)

Lemma sectors_lt count off j : 0 <= j -> (SECTSIZE * j < count + off mod SECTSIZE <-> j < sectors count off).
Proof.
  intros Hj. unfold sectors, SECTSIZE. pose proof (Z.mod_pos_bound off 512 eq_refl). generalize dependent (off mod 512).
  intros r Hr. Z.div_mod_to_equations. lia.
Qed.

Lemma sectors_bound count off : 0 <= count -> 0 <= sectors count off <= count / SECTSIZE + 2.
Proof.
  intros Hc. unfold sectors, SECTSIZE. pose proof (Z.mod_pos_bound off 512 eq_refl). generalize dependent (off mod 512).
  intros r Hr. Z.div_mod_to_equations. lia.
Qed.

(** A sector of the file, as bytes of memory. *)
Lemma sector_byte h pa off j x : lo pa off + SECTSIZE * j <= x < lo pa off + SECTSIZE * (j + 1) ->
  nth0 (media h 0 (off / SECTSIZE + 1 + j)) (Z.to_nat (x - (lo pa off + SECTSIZE * j))) = image h (off + (x - pa)).
Proof.
  unfold image, lo, SECTSIZE. intros Hx. pose proof (Z.div_mod off 512) as E.
  assert (Hq : off / 512 + j = (off + (x - pa)) / 512).
  { apply Z.div_unique with (x - (pa - off mod 512 + 512 * j)); lia. }
  replace (off / 512 + 1 + j) with (1 + (off + (x - pa)) / 512) by lia. f_equal. f_equal. rewrite (Z.mod_eq (off + (x - pa)) 512) by done. lia.
Qed.

Lemma wp_readseg pa count off (s : st) (Q : unit -> st -> Prop) :
  accepts (job_of (m_drive s)) = true -> disk_ok (m_drive s) -> 0 <= off < 2 ^ 32 -> 0 <= count < 2 ^ 32 ->
  0 <= lo pa off -> pa + count + SECTSIZE <= 2 ^ 32 ->
  (forall s', accepts (job_of (m_drive s')) = true -> media (m_drive s') = media (m_drive s) ->
     (forall x, m_mem s' x = read_mem (image (m_drive s)) pa count off (m_mem s) x) -> Q tt s') ->
  wp (readseg pa count off) s Q.
Proof.
  intros Ha Hok Ho Hc Hlo Hhi HQ. pose proof (sectors_bound count off (proj1 Hc)) as Hsb.
  pose proof (Z.mod_pos_bound off SECTSIZE eq_refl) as Hr. unfold readseg.
  rewrite (u32_small (pa + count)) by (unfold lo, SECTSIZE in *; lia).
  fold (lo pa off). rewrite (u32_small (lo pa off)) by (unfold lo, SECTSIZE in *; lia).
  set (n := sectors count off) in *.
  apply (wp_while_loop (fun k st s' => exists j, 0 <= j <= n /\ st = (lo pa off + SECTSIZE * j, off / SECTSIZE + 1 + j) /\
    n - j < Z.of_nat k /\ accepts (job_of (m_drive s')) = true /\ media (m_drive s') = media (m_drive s) /\
    forall x, m_mem s' x = if (lo pa off <=? x) && (x <? lo pa off + SECTSIZE * j) then image (m_drive s) (off + (x - pa)) else m_mem s x)).
  - exists 0. split_and!; try done; try lia; [f_equal; lia|].
    intros x. case_match eqn:E; [|done]. apply andb_prop in E as [?%Z.leb_le ?%Z.ltb_lt]. lia.
  - intros ? s' (j & ? & _ & ? & _). lia.
  - intros k ? s' (j & Hj & -> & Hk & Ha' & Hm' & Hx). pose proof (sectors_lt count off j (proj1 Hj)) as Hlt. fold n in Hlt.
    destruct (Z.ltb_spec (lo pa off + SECTSIZE * j) (pa + count)) as [Hin|Hout].
    + assert (off / SECTSIZE < 2 ^ 23) by (apply Z.div_lt_upper_bound; unfold SECTSIZE; lia).
      assert (count / SECTSIZE < 2 ^ 23) by (apply Z.div_lt_upper_bound; unfold SECTSIZE; lia).
      assert (0 <= off / SECTSIZE) by (apply Z.div_pos; unfold SECTSIZE; lia).
      assert (j < n) by (apply Hlt; unfold lo in Hin; lia).
      wp_step. apply wp_readsect; [done|lia|rewrite Hm'; apply Hok|]. intros h Hah Hmh. wp_step.
      exists (j + 1). cbn [m_mem m_drive]. split_and!; try done; try lia; [|congruence|].
      { rewrite !u32_small by (unfold lo, SECTSIZE in *; lia). f_equal; lia. }
      intros x. rewrite store_bytes_spec, Hm', (proj1 (Hok _)), Hx. change (Z.of_nat (Z.to_nat SECTSIZE)) with SECTSIZE.
      case_match eqn:E.
      * apply andb_prop in E as [?%Z.leb_le ?%Z.ltb_lt]. rewrite sector_byte by lia.
        rewrite (proj2 (Z.leb_le _ _)), (proj2 (Z.ltb_lt _ _)) by (unfold SECTSIZE in *; lia). done.
      * apply andb_false_iff in E. rewrite Z.leb_gt, Z.ltb_ge in E.
        unfold SECTSIZE in *. destruct (Z.leb_spec (lo pa off) x), (Z.ltb_spec x (lo pa off + 512 * j)),
          (Z.ltb_spec x (lo pa off + 512 * (j + 1))); cbn; try lia; done.
    + wp_step. apply HQ; [done|done|]. intros x. rewrite Hx. unfold read_mem, read_hi. fold n.
      assert (j = n) as -> by (unfold lo in Hout; lia). done.
Qed.
(** * The headers *)

(** The scratch page holds the start of the file. *)
Definition scratch (img m : mem) : Prop := forall k, 0 <= k < 4096 -> m (ELF_SCRATCH + k) = img k.

Lemma scratch_ld32 img m o : scratch img m -> 0 <= o -> o + 4 <= 4096 -> ld32 m (ELF_SCRATCH + o) = ld32 img o.
Proof. intros Hs ? ?. unfold ld32. f_equal. apply bytes_at_shift. intros k Hk. rewrite <- Z.add_assoc. apply Hs. lia. Qed.

Lemma scratch_ld16 img m o : scratch img m -> 0 <= o -> o + 2 <= 4096 -> ld16 m (ELF_SCRATCH + o) = ld16 img o.
Proof. intros Hs ? ?. unfold ld16. f_equal. apply bytes_at_shift. intros k Hk. rewrite <- Z.add_assoc. apply Hs. lia. Qed.

Lemma scratch_segment img m o : scratch img m -> 0 <= o -> o + sizeof_proghdr <= 4096 ->
  segment_at m (ELF_SCRATCH + o) = segment_at img o.
Proof.
  unfold sizeof_proghdr. intros Hs ? ?. unfold segment_at. rewrite <- !Z.add_assoc. by rewrite !(scratch_ld32 img m) by (done || lia).
Qed.

Lemma read_mem_scratch img g m : seg_fits g -> scratch img m ->
  scratch img (read_mem img (sg_pa g) (sg_filesz g) (sg_off g) m).
Proof.
  intros (_ & _ & _ & Hd) Hs k Hk. unfold read_mem. case_match eqn:E; [|by apply Hs].
  apply andb_prop in E as [?%Z.leb_le ?%Z.ltb_lt]. unfold seg_lo, seg_hi in Hd. lia.
Qed.

Lemma filesz_le_hi g : 0 <= sg_filesz g -> sg_pa g + sg_filesz g <= read_hi (sg_pa g) (sg_filesz g) (sg_off g).
Proof.
  intros Hf. unfold read_hi. pose proof (sectors_bound (sg_filesz g) (sg_off g) Hf).
  pose proof (sectors_lt (sg_filesz g) (sg_off g) (sectors (sg_filesz g) (sg_off g))). unfold lo. lia.
Qed.

Lemma load_seg_scratch img g m : 0 <= sg_off g -> 0 <= sg_filesz g -> seg_fits g -> scratch img m -> scratch img (load_seg img m g).
Proof.
  intros Ho Hf Hfit Hs k Hk. unfold load_seg. case_match eqn:E; [|by apply read_mem_scratch].
  apply andb_prop in E as [?%Z.leb_le ?%Z.ltb_lt]. destruct Hfit as (_ & _ & _ & Hd). unfold seg_lo, seg_hi, lo in Hd.
  pose proof (Z.mod_pos_bound (sg_off g) SECTSIZE eq_refl). lia.
Qed.

Lemma segment_range m o : (forall x, is_byte (m x)) ->
  let g := segment_at m o in 0 <= sg_off g < 2 ^ 32 /\ 0 <= sg_filesz g < 2 ^ 32 /\ 0 <= sg_memsz g < 2 ^ 32.
Proof. intros Hm g. split_and!; cbn; apply (bytes_at_range _ _ 4 Hm). Qed.

(** The body of the loop. *)
Lemma wp_load_one {A} o (k : unit -> M st A) (s : st) (Q : A -> st -> Prop) (h0 : H) :
  let img := image h0 in let g := segment_at img o in let ph := ELF_SCRATCH + o in
  accepts (job_of (m_drive s)) = true -> media (m_drive s) = media h0 -> disk_ok h0 -> scratch img (m_mem s) ->
  0 <= o -> o + sizeof_proghdr <= 4096 -> seg_fits g ->
  (forall s', accepts (job_of (m_drive s')) = true -> media (m_drive s') = media h0 -> scratch img (m_mem s') ->
     (forall x, m_mem s' x = load_seg img (m_mem s) g x) -> wp (k tt) s' Q) ->
  wp (let* m := gets m_mem in
      let pa := ld32 m (ph + 12) in
      readseg pa (ld32 m (ph + 16)) (ld32 m (ph + 4)) ;;
      let* m := gets m_mem in
      let* r := (if ld32 m (ph + 16) <? ld32 m (ph + 20)
       then modify (fun s => mkMachine (stosb (m_mem s) (u32 (pa + ld32 m (ph + 16))) 0
                                          (Z.to_nat (ld32 m (ph + 20) - ld32 m (ph + 16)))) (m_drive s))
       else ret tt) in k r) s Q.
Proof.
  intros img g ph Ha Hm Hok Hs Ho Hoe Hfit HQ.
  assert (Himg : forall x, is_byte (img x)) by (intros x; by apply image_byte).
  destruct (segment_range img o Himg) as (Ho4 & Ho16 & Ho20). fold g in Ho4, Ho16, Ho20.
  assert (Eimg : image (m_drive s) = img) by (unfold img, image; by rewrite Hm).
  pose proof (scratch_segment img (m_mem s) o Hs Ho Hoe) as Eg. injection Eg as E4 E12 E16 E20. fold ph in E4, E12, E16, E20.
  wp_step. wp_step. cbv zeta. wp_step. rewrite E4, E12, E16.
  change (ld32 img (o + 4)) with (sg_off g). change (ld32 img (o + 12)) with (sg_pa g). change (ld32 img (o + 16)) with (sg_filesz g).
  pose proof Hfit as (Hlo & Hfs & Hms & Hdis).
  apply wp_readseg; [done|by intros l; rewrite Hm; apply Hok|done..|]. intros s1 Ha1 Hm1 Hx1. rewrite Eimg in Hx1.
  assert (Hs1 : scratch img (m_mem s1)) by (intros i Hi; rewrite Hx1; by apply read_mem_scratch).
  wp_step. wp_step. pose proof (scratch_segment img (m_mem s1) o Hs1 Ho Hoe) as Eg1. injection Eg1 as _ _ F16 F20. fold ph in F16, F20.
  rewrite F16, F20. change (ld32 img (o + 16)) with (sg_filesz g). change (ld32 img (o + 20)) with (sg_memsz g).
  assert (Hscr : forall m', (forall x, m' x = load_seg img (m_mem s) g x) -> scratch img m').
  { intros m' Hx i Hi. rewrite Hx. apply load_seg_scratch; [lia|lia|done|done|done]. }
  assert (0 <= sg_pa g + sg_filesz g < 2 ^ 32).
  { unfold seg_lo, lo in Hlo. unfold SECTSIZE in Hlo, Hfs. pose proof (Z.mod_pos_bound (sg_off g) 512 eq_refl). lia. }
  wp_step. destruct (Z.ltb_spec (sg_filesz g) (sg_memsz g)) as [Hlt|Hge].
  - wp_step. rewrite u32_small by done.
    assert (E : forall x, stosb (m_mem s1) (sg_pa g + sg_filesz g) 0 (Z.to_nat (sg_memsz g - sg_filesz g)) x = load_seg img (m_mem s) g x).
    { intros x. rewrite stosb_spec, Hx1. unfold load_seg. case_decide as Hd.
      - rewrite (proj2 (Z.leb_le _ _)), (proj2 (Z.ltb_lt _ _)) by lia. done.
      - case_match eqn:Eb; [|done]. apply andb_prop in Eb as [?%Z.leb_le ?%Z.ltb_lt]. lia. }
    apply HQ; [done|cbn; congruence|by apply Hscr|done].
  - wp_step. assert (E : forall x, m_mem s1 x = load_seg img (m_mem s) g x).
    { intros x. rewrite Hx1. unfold load_seg. case_match eqn:Eb; [|done]. apply andb_prop in Eb as [?%Z.leb_le ?%Z.ltb_lt]. lia. }
    apply HQ; [done|congruence|by apply Hscr|done].
Qed.

Lemma wp_load_headers off n (s : st) (Q : unit -> st -> Prop) (h0 : H) :
  let img := image h0 in let gs := map (fun i => segment_at img (off + sizeof_proghdr * i)) (seqZ 0 n) in
  accepts (job_of (m_drive s)) = true -> media (m_drive s) = media h0 -> disk_ok h0 -> scratch img (m_mem s) ->
  0 <= off -> 0 <= n -> off + sizeof_proghdr * n <= 4096 -> Forall seg_fits gs ->
  (forall s', accepts (job_of (m_drive s')) = true -> media (m_drive s') = media h0 -> scratch img (m_mem s') ->
     (forall x, m_mem s' x = foldl (load_seg img) (m_mem s) gs x) -> Q tt s') ->
  wp (load_headers (Z.to_nat n) (ELF_SCRATCH + off) (ELF_SCRATCH + (off + sizeof_proghdr * n))) s Q.
Proof.
  intros img gs Ha Hm Hok Hs Ho Hn Hend Hfit HQ. unfold load_headers.
  assert (Hlen : Z.of_nat (length gs) = n) by (unfold gs; rewrite length_map, length_seqZ; lia).
  assert (Hg : forall i, 0 <= i < n -> gs !! Z.to_nat i = Some (segment_at img (off + sizeof_proghdr * i))).
  { intros i Hi. unfold gs. rewrite list_lookup_fmap, lookup_seqZ_lt by lia. cbn [fmap option_fmap option_map]. by rewrite Z2Nat.id by lia. }
  apply (wp_while_loop (fun k ph s' => exists i, 0 <= i <= n /\ ph = ELF_SCRATCH + (off + sizeof_proghdr * i) /\ n - i < Z.of_nat k /\
    accepts (job_of (m_drive s')) = true /\ media (m_drive s') = media h0 /\ scratch img (m_mem s') /\
    forall x, m_mem s' x = foldl (load_seg img) (m_mem s) (take (Z.to_nat i) gs) x)).
  - exists 0. split_and!; try done; lia.
  - intros ? s' (i & ? & _ & ? & _). lia.
  - intros k ph s' (i & Hi & -> & Hk & Ha' & Hm' & Hs' & Hx). unfold sizeof_proghdr in *.
    destruct (Z.ltb_spec (ELF_SCRATCH + (off + 32 * i)) (ELF_SCRATCH + (off + 32 * n))) as [Hlt|Hge].
    + apply (wp_load_one (off + 32 * i) _ s' _ h0); try done; try (unfold sizeof_proghdr; lia).
      { rewrite Forall_lookup in Hfit. eapply Hfit, Hg. lia. }
      intros s1 Ha1 Hm1 Hs1 Hx1. wp_step. exists (i + 1). split_and!; try done; try lia.
      { rewrite u32_small; unfold ELF_SCRATCH; lia. }
      intros x. rewrite Hx1. replace (Z.to_nat (i + 1)) with (S (Z.to_nat i)) by lia.
      erewrite take_S_r by (apply Hg; lia). rewrite foldl_snoc. unfold load_seg, read_mem. by rewrite Hx.
    + wp_step. apply HQ; try done. intros x. rewrite Hx, take_ge by lia. done.
Qed.
(** A kernel file that the loader can load: its header table is in the page that is read first. *)
Definition elf_ok (img : mem) : Prop :=
  ld32 img 0 = ELF_MAGIC /\ ld32 img 28 + sizeof_proghdr * ld16 img 44 <= 4096 /\ Forall seg_fits (segments img).

(** The memory after the first page is read. *)
Definition first_page (img m : mem) : mem := read_mem img ELF_SCRATCH 4096 0 m.

Lemma first_page_spec img m x :
  first_page img m x = if (ELF_SCRATCH <=? x) && (x <? ELF_SCRATCH + 4096) then img (x - ELF_SCRATCH) else m x.
Proof. done. Qed.

Lemma first_page_scratch img m : scratch img (first_page img m).
Proof.
  intros k Hk. rewrite first_page_spec, (proj2 (Z.leb_le _ _)), (proj2 (Z.ltb_lt _ _)) by lia. f_equal. lia.
Qed.

Lemma wp_first_page (s : st) (Q : unit -> st -> Prop) : accepts (job_of (m_drive s)) = true -> disk_ok (m_drive s) ->
  (forall s', accepts (job_of (m_drive s')) = true -> media (m_drive s') = media (m_drive s) -> scratch (image (m_drive s)) (m_mem s') ->
     (forall x, m_mem s' x = first_page (image (m_drive s)) (m_mem s) x) -> Q tt s') ->
  wp (readseg ELF_SCRATCH 4096 0) s Q.
Proof.
  intros Ha Hok HQ. apply wp_readseg; [done|done|lia|lia|done|done|]. intros s' Ha' Hm' Hx.
  apply HQ; [done|done| |done]. intros k Hk. rewrite Hx. by apply first_page_scratch.
Qed.

Lemma foldl_load_ext img gs m m' x : (forall x, m x = m' x) -> foldl (load_seg img) m gs x = foldl (load_seg img) m' gs x.
Proof.
  revert m m'. induction gs as [|g gs IH]; intros m m' E; [apply E|]. cbn. apply IH. intros y. unfold load_seg, read_mem. by rewrite E.
Qed.

Lemma wp_bootmain (s : st) : let img := image (m_drive s) in
  accepts (job_of (m_drive s)) = true -> disk_ok (m_drive s) -> elf_ok img ->
  wp bootmain s (fun r s' => r = Some (ld32 img 24) /\ media (m_drive s') = media (m_drive s) /\
    forall x, m_mem s' x = foldl (load_seg img) (first_page img (m_mem s)) (segments img) x).
Proof.
  intros img Ha Hok (Hmag & Htab & Hfit). unfold bootmain. wp_step. apply wp_first_page; [done|done|].
  fold img. intros s1 Ha1 Hm1 Hs1 Hx1. wp_step. wp_step.
  assert (Himg : forall x, is_byte (img x)) by (intros x; by apply image_byte).
  pose proof (scratch_ld32 img (m_mem s1) 0 Hs1) as E0. rewrite Z.add_0_r in E0.
  rewrite E0, Hmag by lia. change (negb (ELF_MAGIC =? ELF_MAGIC)) with false. cbv iota zeta.
  rewrite (scratch_ld32 img), (scratch_ld16 img) by (done || lia).
  pose proof (bytes_at_range img 28 4 Himg) as H28. pose proof (bytes_at_range img 44 2 Himg) as H44.
  change (unle (bytes_at img 28 4)) with (ld32 img 28) in H28. change (unle (bytes_at img 44 2)) with (ld16 img 44) in H44.
  unfold sizeof_proghdr in Htab. rewrite (u32_small (ELF_SCRATCH + ld32 img 28)) by (unfold ELF_SCRATCH; lia).
  rewrite (u32_small (_ + _ * _)) by (unfold ELF_SCRATCH, sizeof_proghdr; lia).
  replace (ELF_SCRATCH + ld32 img 28 + ld16 img 44 * sizeof_proghdr) with (ELF_SCRATCH + (ld32 img 28 + sizeof_proghdr * ld16 img 44)) by lia.
  wp_step. apply (wp_load_headers _ _ _ _ (m_drive s)); [done|done|done|done|lia|lia|unfold sizeof_proghdr; lia|done|].
  fold img. intros s2 Ha2 Hm2 Hs2 Hx2. wp_step. wp_step. wp_step. split_and!; [|done|].
  - f_equal. apply scratch_ld32; [done|lia|lia].
  - intros x. rewrite Hx2. apply foldl_load_ext, Hx1.
Qed.

(** * What the segments leave in memory *)

Lemma load_seg_untouched img m g x : 0 <= sg_off g -> 0 <= sg_filesz g -> ~ touched g x -> load_seg img m g x = m x.
Proof.
  intros Ho Hf Hx. unfold load_seg, read_mem. unfold touched, seg_lo, seg_hi in Hx.
  pose proof (Z.mod_pos_bound (sg_off g) SECTSIZE eq_refl). unfold lo in *.
  case_match eqn:E; [apply andb_prop in E as [?%Z.leb_le ?%Z.ltb_lt]; lia|].
  case_match eqn:F; [apply andb_prop in F as [?%Z.leb_le ?%Z.ltb_lt]; lia|done].
Qed.

Definition sg_ok (g : segment) : Prop := 0 <= sg_off g /\ 0 <= sg_filesz g.

Lemma load_segs_untouched img gs m x : Forall sg_ok gs -> Forall (fun g => ~ touched g x) gs ->
  foldl (load_seg img) m gs x = m x.
Proof.
  revert m. induction gs as [|g gs IH]; intros m Hok Hx; [done|]. inversion_clear Hok as [|? ? [Ho Hf] Hok'].
  inversion_clear Hx. cbn. rewrite IH by done. by apply load_seg_untouched.
Qed.

(** The bytes of a segment: those of the file, and zeros up to its size in memory. *)
Definition seg_byte (img : mem) (g : segment) (x : Z) : Z :=
  if x <? sg_pa g + sg_filesz g then img (sg_off g + (x - sg_pa g)) else 0.

Lemma load_seg_loaded img m g x : sg_ok g -> sg_pa g <= x < sg_pa g + Z.max (sg_filesz g) (sg_memsz g) ->
  load_seg img m g x = seg_byte img g x.
Proof.
  intros [Ho Hf] Hx. unfold load_seg, seg_byte, read_mem. pose proof (filesz_le_hi g Hf).
  pose proof (Z.mod_pos_bound (sg_off g) SECTSIZE eq_refl). destruct (Z.ltb_spec x (sg_pa g + sg_filesz g)).
  - rewrite (proj2 (Z.leb_gt _ _)) by lia. cbn. rewrite (proj2 (Z.leb_le _ _)), (proj2 (Z.ltb_lt _ _)) by (unfold lo; lia). done.
  - rewrite (proj2 (Z.leb_le _ _)), (proj2 (Z.ltb_lt _ _)) by lia. done.
Qed.

Lemma segments_ok h : disk_ok h -> Forall sg_ok (segments (image h)).
Proof.
  intros Hd. apply Forall_forall. intros g (i & <- & _)%list_elem_of_In%in_map_iff.
  destruct (segment_range (image h) (ld32 (image h) 28 + sizeof_proghdr * i)) as (? & ? & _); [intros; by apply image_byte|].
  split; lia.
Qed.

(** The sectors of a later segment miss the bytes of an earlier one. *)
Definition in_order (gs : list segment) : Prop :=
  forall i j g g', (i < j)%nat -> gs !! i = Some g -> gs !! j = Some g' ->
    sg_pa g + Z.max (sg_filesz g) (sg_memsz g) <= seg_lo g' \/ seg_hi g' <= sg_pa g.

Lemma load_segs_loaded img gs m i g x : Forall sg_ok gs -> in_order gs -> gs !! i = Some g ->
  sg_pa g <= x < sg_pa g + Z.max (sg_filesz g) (sg_memsz g) -> foldl (load_seg img) m gs x = seg_byte img g x.
Proof.
  intros Hok Hord Hi Hx. pose proof (take_drop_middle gs i g Hi) as E. rewrite <- E, foldl_app. cbn.
  assert (Hg : sg_ok g) by (by eapply Forall_lookup_1). rewrite load_segs_untouched.
  - by apply load_seg_loaded.
  - by apply Forall_drop.
  - apply Forall_lookup. intros j g' Hj. rewrite lookup_drop in Hj. destruct (Hord i (S i + j)%nat g g') as [?|?]; [lia|done|done|..];
      unfold touched; lia.
Qed.
End loader.

(** C13: [bootmain] loads the kernel.  The drive accepts commands and its
    sectors have 512 bytes; the file on disk 0 from sector 1 on has the ELF
    magic number, its program headers lie in the first 4096 bytes, and each
    segment, rounded to the sectors that are read for it, lies in the address
    space and off the scratch page at 0x10000.  Moreover the rounded range of a
    segment, which also gets the bytes of the file around it, misses the
    segments loaded before it.  Then [bootmain] returns the entry point, with
    every segment at its physical address: the bytes of the file, then zeros up
    to its size in memory. *)
Theorem bootmain_loads {H} `{DrivePolls H} (s : machine H) : let img := image (m_drive s) in
  accepts (job_of (m_drive s)) = true -> disk_ok (m_drive s) -> elf_ok img -> in_order (segments img) ->
  wp bootmain s (fun r s' => r = Some (ld32 img 24) /\
    forall g x, g ∈ segments img -> sg_pa g <= x < sg_pa g + Z.max (sg_filesz g) (sg_memsz g) -> m_mem s' x = seg_byte img g x).
Proof.
  intros img Ha Hok Helf Hord. eapply wp_mono; [by apply wp_bootmain|]. intros r s' (-> & _ & Hx). split; [done|].
  intros g x [i Hi]%list_elem_of_lookup Hb. rewrite Hx. eapply load_segs_loaded; [by apply segments_ok|done|done|done].
Qed.

(** A file that is not an ELF file is not run. *)
Lemma bootmain_rejects {H} `{DrivePolls H} (s : machine H) : let img := image (m_drive s) in
  accepts (job_of (m_drive s)) = true -> disk_ok (m_drive s) -> ld32 img 0 <> ELF_MAGIC ->
  wp bootmain s (fun r s' => r = None /\ media (m_drive s') = media (m_drive s) /\
    forall x, ~ ELF_SCRATCH <= x < ELF_SCRATCH + 4096 -> m_mem s' x = m_mem s x).
Proof.
  intros img Ha Hok Hne. unfold bootmain. wp_step. apply wp_first_page; [done|done|]. fold img. intros s1 _ Hm1 Hs1 Hx1. wp_step. wp_step.
  pose proof (scratch_ld32 img (m_mem s1) 0 Hs1) as E0. rewrite Z.add_0_r in E0. rewrite E0, (proj2 (Z.eqb_neq _ _)) by (done || lia).
  cbn [negb]. wp_step. split; [done|]. split; [done|]. intros x Hx. rewrite Hx1, first_page_spec.
  case_match eqn:E; [|done]. apply andb_prop in E as [?%Z.leb_le ?%Z.ltb_lt]. lia.
Qed.

(** C19: [bootmain] stays in bounds.  The drive accepts commands, its sectors
    have 512 bytes, and if the file on disk 0 from sector 1 on has the ELF magic
    number, its program headers lie in the first 4096 bytes and each segment,
    rounded to sectors, lies in the address space and off the scratch page.
    Then [bootmain] returns, and writes only to its scratch page and to
    segments, of which it overruns each end by less than a sector; segments may
    overlap.  The disk is not written. *)
Theorem bootmain_bounds {H} `{DrivePolls H} (s : machine H) : let img := image (m_drive s) in
  accepts (job_of (m_drive s)) = true -> disk_ok (m_drive s) -> (ld32 img 0 = ELF_MAGIC -> elf_ok img) ->
  wp bootmain s (fun _ s' => media (m_drive s') = media (m_drive s) /\ forall x, m_mem s' x <> m_mem s x ->
    ELF_SCRATCH <= x < ELF_SCRATCH + 4096 \/
    exists g, g ∈ segments img /\ sg_pa g - SECTSIZE < x < sg_pa g + Z.max (sg_filesz g + SECTSIZE) (sg_memsz g)).
Proof.
  intros img Ha Hok Helf. destruct (decide (ld32 img 0 = ELF_MAGIC)) as [Hmag|Hmag].
  2: { eapply wp_mono; [by apply bootmain_rejects|]. intros r s' (_ & Hm & Hx). split; [done|]. intros x Hne. left.
       destruct (decide (ELF_SCRATCH <= x < ELF_SCRATCH + 4096)); [done|]. destruct Hne. by apply Hx. }
  eapply wp_mono; [by apply wp_bootmain; [..|apply Helf]|]. intros r s' (-> & Hm & Hx). split; [done|].
  intros x Hne. destruct (decide (ELF_SCRATCH <= x < ELF_SCRATCH + 4096)) as [|Hout]; [by left|right].
  destruct (decide (Exists (fun g => touched g x) (segments img))) as [(g & Hg & Ht)%Exists_exists|Hn].
  - exists g. split; [done|]. pose proof (segments_ok _ Hok) as Hsg. fold img in Hsg. rewrite Forall_forall in Hsg. destruct (Hsg g Hg) as [Ho Hf].
    unfold touched, seg_lo, seg_hi, read_hi, sectors, lo in Ht. unfold SECTSIZE in *. pose proof (Z.mod_pos_bound (sg_off g) 512 eq_refl).
    generalize dependent (sg_off g mod 512). intros q Hq Hr. Z.div_mod_to_equations. lia.
  - destruct Hne. rewrite Hx, load_segs_untouched; [|by apply segments_ok|by apply Forall_Exists_neg].
    rewrite first_page_spec. case_match eqn:E; [|done]. apply andb_prop in E as [?%Z.leb_le ?%Z.ltb_lt]. lia.
Qed.

(** * A kernel on the drive of IdeSpec.v *)

#[export] Instance toy_polls : DrivePolls toy.
Proof. split. intros h d l n Hj. cbn in *. unfold toy_inb. rewrite Hj. done. Qed.

(** One segment of 600 bytes at offset 600 of the file, 1000 bytes in memory. *)
Definition toy_kernel : bytes :=
  put32 (put32 (put32 (put32 (put32 (put16 (put32 (put32 (put32
    (replicate 600 0 ++ replicate 600 7 ++ replicate 848 9)
    0 ELF_MAGIC) 24 0x10000c) 28 52) 44 1) (52 + 4) 600) (52 + 12) 0x100258) (52 + 16) 600) (52 + 20) 1000) 52 1.
Definition toy_disk (dev l : Z) : bytes :=
  if (1 <=? l) && (l <? 5) then slice toy_kernel (Z.to_nat (512 * (l - 1))) 512 else replicate 512 0.
Definition toy_machine : machine toy := mkMachine (fun _ => 5) (mkToy (fun _ => 0) Idle toy_disk).

Lemma toy_kernel_bytes : Forall is_byte toy_kernel.
Proof. apply (Forall_impl (fun z => (0 <=? z) && (z <? 256) = true)); [|intros z; unfold is_byte; rewrite andb_true_iff, Z.leb_le, Z.ltb_lt; lia].
  apply Forall_forall. intros z Hz%list_elem_of_In. revert z Hz. apply forallb_forall. by vm_compute.
Qed.

Lemma toy_disk_ok : disk_ok (m_drive toy_machine).
Proof.
  intros l. cbn. unfold toy_disk. case_match eqn:E.
  - apply andb_prop in E as [?%Z.leb_le ?%Z.ltb_lt]. split; [|apply Forall_slice, toy_kernel_bytes].
    assert (l = 1 \/ l = 2 \/ l = 3 \/ l = 4) as [->|[->|[->| ->]]] by lia; by vm_compute.
  - split; [done|]. apply Forall_replicate. done.
Qed.

Lemma toy_segments : segments (image (m_drive toy_machine)) = [mkSegment 600 0x100258 600 1000].
Proof. by vm_compute. Qed.

Lemma toy_elf_ok : elf_ok (image (m_drive toy_machine)).
Proof.
  split; [by vm_compute|]. split; [by vm_compute|]. rewrite toy_segments. constructor; [|constructor].
  unfold seg_fits, seg_lo, seg_hi. vm_compute. split_and!; [done|done|done|]. by right.
Qed.

Lemma bootmain_loads_witness : wp bootmain toy_machine (fun r s' => r = Some 0x10000c /\
  m_mem s' 0x100258 = 7 /\ m_mem s' (0x100258 + 599) = 7 /\ m_mem s' (0x100258 + 600) = 0 /\ m_mem s' (0x100258 + 999) = 0).
Proof.
  eapply wp_mono; [apply (bootmain_loads toy_machine); [done|exact toy_disk_ok|exact toy_elf_ok|]|].
  - rewrite toy_segments. intros [|i] [|j] g g' Hij Hi Hj; try lia; done.
  - intros r s' [-> Hb]. rewrite toy_segments in Hb. specialize (Hb (mkSegment 600 0x100258 600 1000)). split; [by vm_compute|].
    split_and!; rewrite Hb; try (by vm_compute); (left || (cbn; lia)).
Defined.

Lemma bootmain_bounds_witness : wp bootmain toy_machine (fun _ s' => m_mem s' 0x100000 = 5 /\ m_mem s' (0x100258 + 1112) = 5).
Proof.
  eapply wp_mono; [apply (bootmain_bounds toy_machine); [done|exact toy_disk_ok|intros _; exact toy_elf_ok]|].
  intros r s' [_ Hb]. rewrite toy_segments in Hb.
  split; match goal with |- m_mem _ ?x = 5 => destruct (decide (m_mem s' x = 5)) as [|Hne]; [done|destruct (Hb x) as [Hx|(g & Hg & Hx)]] end;
    try exact Hne; try (unfold ELF_SCRATCH in Hx; lia); apply list_elem_of_singleton in Hg as ->; unfold SECTSIZE in Hx; cbn in Hx; lia.
Defined.
