(* ===== verification/Mp.v ===== *)
(** mp.c: the search for the multiprocessor tables of the BIOS, and the
    processors and the I/O APIC that they name.

    The memory is what the kernel's addresses show of physical memory. *)
From S2P Require Import Prelude Layout CString Kalloc Hw Boot.

Definition NCPU : Z := 8.
Definition P2V (a : Z) : Z := u32 (a + KERNBASE).
Definition sizeof_mp : Z := 16.
Definition sizeof_mpconf : Z := 44.
Definition sizeof_mpproc : Z := 20.
Definition sizeof_mpioapic : Z := 8.
Definition MPPROC : Z := 0.
Definition MPBUS : Z := 1.
Definition MPIOAPIC : Z := 2.
Definition MPIOINTR : Z := 3.
Definition MPLINTR : Z := 4.

(** The variables that [mpinit] sets: the ids in [cpus], [ncpu], [ioapicid], [lapic]. *)
Record mpvars := mkMp { cpus : list Z; ncpu : Z; ioapicid : Z; lapic : Z }.

Definition sum (m : mem) (addr : Z) (len : nat) : Z := u8 (foldr Z.add 0 (bytes_at m addr len)).

Fixpoint mpsearch1_from (m : mem) (n : nat) (p e : Z) : option Z :=
  match n with
  | O => None
  | S n =>
      if p <? e then
        if bool_decide (bytes_at m p 4 = str "_MP_") && (sum m p (Z.to_nat sizeof_mp) =? 0) then Some p
        else mpsearch1_from m n (u32 (p + sizeof_mp)) e
      else None
  end.
Definition mpsearch1 (m : mem) (a len : Z) : option Z :=
  let addr := P2V a in
  mpsearch1_from m (S (Z.to_nat (len / sizeof_mp))) addr (u32 (addr + len)).

Definition mpsearch (m : mem) : option Z :=
  let bda := P2V 0x400 in
  let p := Z.shiftl (Z.lor (Z.shiftl (m (bda + 0x0F)) 8) (m (bda + 0x0E))) 4 in
  let first :=
    if negb (p =? 0) then mpsearch1 m p 1024
    else
      let p := Z.lor (Z.shiftl (m (bda + 0x14)) 8) (m (bda + 0x13)) * 1024 in
      mpsearch1 m (u32 (p - 1024)) 1024 in
  match first with
  | Some mp => Some mp
  | None => mpsearch1 m 0xF0000 0x10000
  end.

Definition mp_physaddr (m : mem) (mp : Z) : Z := ld32 m (mp + 4).
Definition mp_imcrp (m : mem) (mp : Z) : Z := m (mp + 12).
Definition conf_length (m : mem) (conf : Z) : Z := ld16 m (conf + 4).
Definition conf_version (m : mem) (conf : Z) : Z := m (conf + 6).
Definition conf_lapicaddr (m : mem) (conf : Z) : Z := ld32 m (conf + 36).

(** The table and the floating pointer [*pmp]. *)
Definition mpconfig (m : mem) : option (Z * Z) :=
  match mpsearch m with
  | None => None
  | Some mp =>
      if mp_physaddr m mp =? 0 then None
      else
        let conf := P2V (mp_physaddr m mp) in
        if bool_decide (bytes_at m conf 4 <> str "PCMP") then None
        else if negb (conf_version m conf =? 1) && negb (conf_version m conf =? 4) then None
        else if negb (sum m conf (Z.to_nat (conf_length m conf)) =? 0) then None
        else Some (conf, mp)
  end.

Section init.
Context `{Hardware}.
Local Abbreviation MD := (M (driver mpvars)).

Definition set_lapic (a : Z) : MD unit := set_var (fun v => mkMp (cpus v) (ncpu v) (ioapicid v) a).
Definition set_ioapicid (i : Z) : MD unit := set_var (fun v => mkMp (cpus v) (ncpu v) i (lapic v)).
Definition add_cpu (apicid : Z) : MD unit :=
  set_var (fun v => mkMp (<[Z.to_nat (ncpu v) := apicid]> (cpus v)) (ncpu v + 1) (ioapicid v) (lapic v)).

(** A round of the loop at [p]: the rest of the work, or the value of [ismp] at
    the end.  The [break] of the default case leaves the switch only. *)
Definition mp_entry (m : mem) (e : Z) (pi : Z * bool) : MD (Z * bool + bool) :=
  let '(p, ismp) := pi in
  if p <? e then
    let t := m p in
    if t =? MPPROC then
      let* v := var in
      (if ncpu v <? NCPU then add_cpu (m (p + 1)) else ret tt) ;;
      ret (inl (u32 (p + sizeof_mpproc), ismp))
    else if t =? MPIOAPIC then
      set_ioapicid (m (p + 1)) ;;
      ret (inl (u32 (p + sizeof_mpioapic), ismp))
    else if (t =? MPBUS) || (t =? MPIOINTR) || (t =? MPLINTR) then
      ret (inl (u32 (p + 8), ismp))
    else ret (inl (p, false))
  else ret (inr ismp).
Definition mp_entries (m : mem) (fuel : nat) (p e : Z) : MD bool := while_loop fuel (p, true) (mp_entry m e).

Definition mpinit (m : mem) (fuel : nat) : MD unit :=
  match mpconfig m with
  | None => panic "Expect to run on an SMP"
  | Some (conf, mp) =>
      set_lapic (conf_lapicaddr m conf) ;;
      let* ismp := mp_entries m fuel (u32 (conf + sizeof_mpconf)) (u32 (conf + conf_length m conf)) in
      if negb ismp then panic "Didn't find a suitable machine"
      else if negb (mp_imcrp m mp =? 0) then
        outb 0x22 0x70 ;;
        let* v := inb 0x23 in
        outb 0x23 (Z.lor v 1)
      else ret tt
  end.
End init.

(** [mpinit] collects the processors and the I/O APIC of a table of the BIOS,
    and does not return on a table with an entry of another type. *)

(** * Tables *)

(** The entries of a table, with the bytes that the kernel does not look at. *)
Inductive mpentry :=
| Processor (apicid : Z) (rest : bytes)
| Ioapic (apicno : Z) (rest : bytes)
| Other (type : Z) (rest : bytes).

Definition enc_entry (en : mpentry) : bytes :=
  match en with
  | Processor a r => MPPROC :: a :: r
  | Ioapic a r => MPIOAPIC :: a :: r
  | Other t r => t :: r
  end.
Definition entry_ok (en : mpentry) : Prop :=
  match en with
  | Processor _ r => length r = 18%nat
  | Ioapic _ r => length r = 6%nat
  | Other t r => (t = MPBUS \/ t = MPIOINTR \/ t = MPLINTR) /\ length r = 7%nat
  end.
Definition enc_table (l : list mpentry) : bytes := concat (map enc_entry l).

Definition processors (l : list mpentry) : list Z := omap (fun en => match en with Processor a _ => Some a | _ => None end) l.
Definition ioapics (l : list mpentry) : list Z := omap (fun en => match en with Ioapic a _ => Some a | _ => None end) l.

(** A CPU is used while there is room in [cpus]. *)
Definition take_cpu (v : mpvars) (a : Z) : mpvars :=
  if ncpu v <? NCPU then mkMp (<[Z.to_nat (ncpu v) := a]> (cpus v)) (ncpu v + 1) (ioapicid v) (lapic v) else v.
Definition see_entry (v : mpvars) (en : mpentry) : mpvars :=
  match en with
  | Processor a _ => take_cpu v a
  | Ioapic a _ => mkMp (cpus v) (ncpu v) a (lapic v)
  | Other _ _ => v
  end.

(** The bytes [b] are at [p]. *)
Definition at_mem (m : mem) (p : Z) (b : bytes) : Prop := bytes_at m p (length b) = b.

Lemma bytes_at_app m p k n : bytes_at m p (k + n) = bytes_at m p k ++ bytes_at m (p + Z.of_nat k) n.
Proof.
  unfold bytes_at. rewrite seq_app, map_app. f_equal. rewrite Nat.add_0_l, <- (Nat.add_0_r k) at 1.
  rewrite <- fmap_add_seq. change (map ?f (?g <$> ?l)) with (f <$> (g <$> l)). rewrite <- list_fmap_compose.
  apply map_ext. intros i. cbn. f_equal. lia.
Qed.

Lemma at_mem_app m p b1 b2 : at_mem m p (b1 ++ b2) -> at_mem m p b1 /\ at_mem m (p + Z.of_nat (length b1)) b2.
Proof.
  unfold at_mem. rewrite length_app, bytes_at_app. intros E. apply app_inj_1 in E; [done|].
  unfold bytes_at. by rewrite length_map, length_seq.
Qed.

Lemma at_mem_byte m p b k c : at_mem m p b -> b !! k = Some c -> m (p + Z.of_nat k) = c.
Proof.
  intros E Hk. unfold at_mem in E. rewrite <- E in Hk. unfold bytes_at in Hk.
  rewrite list_lookup_fmap in Hk. apply fmap_Some in Hk as (i & Hi & ->). apply lookup_seq in Hi as [-> _]. by rewrite Nat.add_0_l.
Qed.

(** The width that the loop adds is that of the entry. *)
Definition width (en : mpentry) : Z := match en with Processor _ _ => sizeof_mpproc | _ => 8 end.
Lemma width_enc en : entry_ok en -> Z.of_nat (length (enc_entry en)) = width en.
Proof. destruct en; cbn; [intros ->|intros ->|intros [_ ->]]; done. Qed.

(** * The loop *)

Section init.
Context `{Hardware}.
Local Abbreviation st := (driver mpvars).

Lemma wp_mp_entry m e p ismp en (s : st) (Q : Z * bool + bool -> st -> Prop) : entry_ok en -> at_mem m p (enc_entry en) ->
  0 <= p < e -> p + width en < 2 ^ 32 -> Q (inl (p + width en, ismp)) (mkDriver (hist s) (see_entry (vars s) en)) ->
  wp (mp_entry m e (p, ismp)) s Q.
Proof.
  intros Hok Hat Hp Hw HQ. unfold mp_entry. rewrite (proj2 (Z.ltb_lt _ _)) by lia.
  assert (Ht : m p = match enc_entry en with t :: _ => t | [] => 0 end).
  { rewrite <- (Z.add_0_r p). apply (at_mem_byte m p (enc_entry en) 0%nat); [done|by destruct en]. }
  assert (Ha : forall a r t, enc_entry en = t :: a :: r -> m (p + 1) = a).
  { intros a r t E. apply (at_mem_byte m p (enc_entry en) 1%nat); [done|by rewrite E]. }
  cbv zeta. rewrite Ht. destruct en as [a r|a r|t r]; cbn [enc_entry width see_entry] in *.
  - change (MPPROC =? MPPROC) with true. cbv iota. hw_step. hw_step. hw_step. rewrite (Ha a r MPPROC) by done.
    unfold take_cpu in HQ. destruct (ncpu (vars s) <? NCPU); [unfold add_cpu|]; hw_step; hw_step; rewrite u32_small by (unfold sizeof_mpproc in *; lia); [done|].
    by destruct s.
  - change (MPIOAPIC =? MPPROC) with false. change (MPIOAPIC =? MPIOAPIC) with true. cbv iota. rewrite (Ha a r MPIOAPIC) by done.
    unfold set_ioapicid. hw_step. hw_step. hw_step. rewrite u32_small by (unfold sizeof_mpioapic; lia). done.
  - destruct Hok as [Ht3 _]. assert ((t =? MPPROC) = false /\ (t =? MPIOAPIC) = false /\ (t =? MPBUS) || (t =? MPIOINTR) || (t =? MPLINTR) = true) as (-> & -> & ->)
      by (by destruct Ht3 as [->|[->| ->]]).
    hw_step. rewrite u32_small by lia. by destruct s.
Qed.

Lemma wp_mp_entries m l : Forall entry_ok l -> forall k p ismp (s : st) (Q : bool -> st -> Prop),
  at_mem m p (enc_table l) -> 0 <= p -> p + Z.of_nat (length (enc_table l)) < 2 ^ 32 ->
  (length l < k)%nat -> Q ismp (mkDriver (hist s) (foldl see_entry (vars s) l)) ->
  wp (while_loop k (p, ismp) (mp_entry m (p + Z.of_nat (length (enc_table l))))) s Q.
Proof.
  induction 1 as [|en l Hen Hl IH]; intros k p ismp s Q Hat Hp Hend Hk HQ; (destruct k as [|k]; [cbn in Hk; lia|]).
  - cbn [while_loop]. hw_step. unfold mp_entry. rewrite (proj2 (Z.ltb_ge _ _)) by (cbn; lia). hw_step. hw_step. by destruct s.
  - change (enc_table (en :: l)) with (enc_entry en ++ enc_table l) in *. apply at_mem_app in Hat as [Hat1 Hat2].
    rewrite length_app, Nat2Z.inj_add, width_enc in * by done. assert (0 < width en) by (by destruct en).
    cbn [while_loop]. hw_step. apply (wp_mp_entry m _ p ismp en); [done|done|lia|lia|]. rewrite Z.add_assoc. apply IH; try done; try lia.
    cbn in Hk. lia.
Qed.

(** What the entries leave in the variables. *)
Lemma take_cpus_len v l : 0 <= ncpu v <= NCPU -> ncpu (foldl take_cpu v l) = Z.min NCPU (ncpu v + Z.of_nat (length l)).
Proof.
  revert v. induction l as [|a l IH]; intros v Hv; cbn [foldl length]; [lia|]. unfold take_cpu at 2.
  destruct (Z.ltb_spec (ncpu v) NCPU); rewrite IH; cbn [ncpu]; lia.
Qed.

Lemma see_entries_cpus v l : cpus (foldl see_entry v l) = cpus (foldl take_cpu v (processors l)) /\
  ncpu (foldl see_entry v l) = ncpu (foldl take_cpu v (processors l)).
Proof.
  assert (Hcong : forall l v v', cpus v = cpus v' -> ncpu v = ncpu v' ->
    cpus (foldl take_cpu v l) = cpus (foldl take_cpu v' l) /\ ncpu (foldl take_cpu v l) = ncpu (foldl take_cpu v' l)).
  { induction l0 as [|a l0 IH]; intros v1 v2 E1 E2; [done|]. cbn. apply IH; unfold take_cpu; rewrite E2; by case_match; cbn; rewrite ?E1, ?E2. }
  revert v. induction l as [|[a r|a r|t r] l IH]; intros v; [done|..]; cbn.
  - apply IH.
  - rewrite (proj1 (IH _)), (proj2 (IH _)). by apply Hcong.
  - apply IH.
Qed.

Lemma take_cpus v l : length (cpus v) = Z.to_nat NCPU -> 0 <= ncpu v <= NCPU ->
  cpus (foldl take_cpu v l) =
    take (Z.to_nat (ncpu v)) (cpus v) ++ take (Z.to_nat (NCPU - ncpu v)) l ++ drop (Z.to_nat (ncpu v) + length l) (cpus v).
Proof.
  revert v. induction l as [|a l IH]; intros v Hlen Hv; cbn [foldl].
  - rewrite take_nil, Nat.add_0_r. symmetry. apply take_drop.
  - unfold take_cpu at 2. destruct (Z.ltb_spec (ncpu v) NCPU) as [Hlt|Hge].
    + rewrite IH by (cbn [cpus ncpu]; rewrite ?length_insert; lia). cbn [cpus ncpu].
      replace (Z.to_nat (ncpu v + 1)) with (S (Z.to_nat (ncpu v))) by lia.
      replace (Z.to_nat (NCPU - ncpu v)) with (S (Z.to_nat (NCPU - (ncpu v + 1)))) by lia. cbn [take].
      erewrite take_S_r by (apply list_lookup_insert_eq; lia).
      rewrite take_insert_ge, drop_insert_lt by lia. rewrite <- app_assoc. cbn. do 4 f_equal. lia.
    + rewrite IH by done. replace (Z.to_nat (NCPU - ncpu v)) with O by lia. rewrite !take_0, !drop_ge by (cbn; lia). done.
Qed.

Lemma see_entries_rest v l : lapic (foldl see_entry v l) = lapic v /\
  ioapicid (foldl see_entry v l) = default (ioapicid v) (last (ioapics l)).
Proof.
  revert v. induction l as [|[a r|a r|t r] l IH]; intros v; [done|..]; cbn.
  - rewrite (proj1 (IH _)), (proj2 (IH _)). unfold take_cpu. by case_match.
  - destruct (IH (mkMp (cpus v) (ncpu v) a (lapic v))) as [F1 F2]. rewrite F1, F2. cbn [ioapicid lapic]. split; [done|].
    rewrite last_cons. by destruct (last _).
  - apply IH.
Qed.
End init.

(** * Searching *)

(** A floating pointer structure is at [p]. *)
Definition mp_at (m : mem) (p : Z) : Prop := bytes_at m p 4 = str "_MP_" /\ sum m p 16 = 0.

#[export] Instance mp_at_dec m p : Decision (mp_at m p).
Proof. unfold mp_at. apply _. Defined.

Lemma mpsearch1_from_S m n p e : mpsearch1_from m (S n) p e =
  if p <? e then if decide (mp_at m p) then Some p else mpsearch1_from m n (u32 (p + 16)) e else None.
Proof.
  cbn [mpsearch1_from]. destruct (p <? e); [|done]. change (Z.to_nat sizeof_mp) with 16%nat.
  assert (E : bool_decide (bytes_at m p 4 = str "_MP_") && (sum m p 16 =? 0) = bool_decide (mp_at m p)).
  { apply eq_true_iff_eq. by rewrite andb_true_iff, !bool_decide_eq_true, Z.eqb_eq. }
  rewrite E. unfold bool_decide, decide. by destruct (mp_at_dec m p).
Qed.

(** The first structure among the [k] places from [p] on. *)
Lemma mpsearch1_from_spec m k p : 0 <= p -> p + 16 * Z.of_nat k < 2 ^ 32 ->
  match mpsearch1_from m (S k) p (p + 16 * Z.of_nat k) with
  | Some q => exists i, (i < k)%nat /\ q = p + 16 * Z.of_nat i /\ mp_at m q /\
                forall j, (j < i)%nat -> ~ mp_at m (p + 16 * Z.of_nat j)
  | None => forall j, (j < k)%nat -> ~ mp_at m (p + 16 * Z.of_nat j)
  end.
Proof.
  revert p. induction k as [|k IH]; intros p Hp Hend; rewrite mpsearch1_from_S.
  { rewrite (proj2 (Z.ltb_ge _ _)) by lia. intros j Hj. lia. }
  rewrite (proj2 (Z.ltb_lt _ _)) by lia. case_decide as Hat.
  - exists O. rewrite Z.mul_0_r, Z.add_0_r. split_and!; [lia|done|done|]. intros j Hj. lia.
  - rewrite u32_small by lia. specialize (IH (p + 16)).
    replace (p + 16 + 16 * Z.of_nat k) with (p + 16 * Z.of_nat (S k)) in IH by lia.
    assert (Hsh : forall j, p + 16 * Z.of_nat (S j) = p + 16 + 16 * Z.of_nat j) by lia.
    assert (H0 : ~ mp_at m (p + 16 * Z.of_nat 0)) by (by rewrite Z.mul_0_r, Z.add_0_r).
    destruct (mpsearch1_from m (S k) (p + 16) _) as [q|] eqn:Es.
    + destruct IH as (i & Hi & -> & Hq & Hlt); [lia|lia|]. exists (S i). rewrite Hsh. split_and!; [lia|done|done|].
      intros [|j] Hj; [done|]. rewrite Hsh. apply Hlt. lia.
    + intros [|j] Hj; [done|]. rewrite Hsh. apply IH; lia.
Qed.

(** * The whole *)

Section whole.
Context `{Hardware}.
Local Abbreviation st := (driver mpvars).

(** The table that [mpconfig] finds has the entries [l]. *)
Definition table_at (m : mem) (conf : Z) (l : list mpentry) (more : bytes) : Prop :=
  Forall entry_ok l /\ 0 <= conf /\ conf + conf_length m conf < 2 ^ 32 /\
  at_mem m (conf + sizeof_mpconf) (enc_table l ++ more) /\
  conf_length m conf = sizeof_mpconf + Z.of_nat (length (enc_table l ++ more)).

Lemma table_bounds m conf l more : table_at m conf l more ->
  u32 (conf + sizeof_mpconf) = conf + sizeof_mpconf /\
  u32 (conf + conf_length m conf) = conf + sizeof_mpconf + Z.of_nat (length (enc_table l ++ more)).
Proof. intros (_ & Hc & Hlt & _ & E). rewrite !u32_small by (unfold sizeof_mpconf in *; lia). lia. Qed.
End whole.

(** The loop comes to the unknown entry, and stays. *)
Lemma at_unknown_stuck `{Hardware} m e p fuel ismp (s : driver mpvars) : p < e -> 4 < m p ->
  while_loop fuel (p, ismp) (mp_entry m e) s = Fault.
Proof.
  intros Hp Ht. revert ismp. induction fuel as [|fuel IH]; intros ismp; [done|]. cbn [while_loop]. unfold bind at 1, mp_entry at 1.
  rewrite (proj2 (Z.ltb_lt _ _)) by done. unfold MPPROC, MPIOAPIC, MPBUS, MPIOINTR, MPLINTR. cbv zeta.
  rewrite !(proj2 (Z.eqb_neq _ _)) by lia. apply IH.
Qed.

Lemma unknown_stuck `{Hardware} m t more l : Forall entry_ok l -> 4 < t -> forall fuel p ismp (s : driver mpvars),
  at_mem m p (enc_table l ++ t :: more) -> 0 <= p -> p + Z.of_nat (length (enc_table l ++ t :: more)) < 2 ^ 32 ->
  while_loop fuel (p, ismp) (mp_entry m (p + Z.of_nat (length (enc_table l ++ t :: more)))) s = Fault.
Proof.
  intros Hl Ht. induction Hl as [|en l Hen Hl IH]; intros fuel p ismp s Hat Hp Hend.
  - apply at_unknown_stuck; [cbn; lia|]. pose proof (at_mem_byte m p (t :: more) 0%nat t Hat eq_refl) as E.
    rewrite Z.add_0_r in E. by rewrite E.
  - destruct fuel as [|fuel]; [done|]. change (enc_table (en :: l)) with (enc_entry en ++ enc_table l) in *. rewrite <- app_assoc in *.
    apply at_mem_app in Hat as [Hat1 Hat2]. rewrite width_enc in Hat2 by done.
    rewrite length_app, Nat2Z.inj_add, width_enc in Hend |- * by done.
    assert (0 < width en) by (by destruct en). cbn [while_loop]. unfold bind at 1.
    pose proof (wp_mp_entry m (p + (width en + Z.of_nat (length (enc_table l ++ t :: more)))) p ismp en s
      (fun r s' => r = inl (p + width en, ismp)) Hen Hat1) as Hw. unfold wp in Hw.
    destruct (mp_entry m _ (p, ismp) s) as [r s'| | | | |]; try (exfalso; apply Hw; (done || lia)).
    rewrite Hw by (done || lia). rewrite Z.add_assoc. apply IH; [done|lia|lia].
Qed.

(** [mpinit] on a table with known entries returns, within as many rounds as
    there are entries.  It has set [lapic], counted at most [NCPU] processors,
    kept the ids of the first ones in [cpus] in the table's order, and the id of
    the last I/O APIC. *)
Theorem mpinit_collects `{Hardware} m conf mp l fuel (s : driver mpvars) :
  mpconfig m = Some (conf, mp) -> table_at m conf l [] -> (length l < fuel)%nat ->
  ncpu (vars s) = 0 -> length (cpus (vars s)) = Z.to_nat NCPU ->
  wp (mpinit m fuel) s (fun _ s' => lapic (vars s') = conf_lapicaddr m conf /\
    ncpu (vars s') = Z.min NCPU (Z.of_nat (length (processors l))) /\ length (cpus (vars s')) = Z.to_nat NCPU /\
    take (Z.to_nat (ncpu (vars s'))) (cpus (vars s')) = take (Z.to_nat NCPU) (processors l) /\
    ioapicid (vars s') = default (ioapicid (vars s)) (last (ioapics l))).
Proof.
  intros Hc Ht Hf Hn Hlen. unfold mpinit. rewrite Hc. destruct (table_bounds _ _ _ _ Ht) as [-> ->].
  destruct Ht as (Hok & Hc0 & Hlt & Hat & Hl). rewrite app_nil_r in *. unfold set_lapic. hw_step. hw_step. hw_step.
  set (v0 := mkMp _ _ _ _). apply (wp_mp_entries m l Hok); [done|unfold sizeof_mpconf in *; lia|unfold sizeof_mpconf in *; lia|done|].
  assert (Hv : ncpu (foldl see_entry v0 l) = Z.min NCPU (Z.of_nat (length (processors l))) /\
    cpus (foldl see_entry v0 l) = take (Z.to_nat NCPU) (processors l) ++ drop (length (processors l)) (cpus (vars s))).
  { destruct (see_entries_cpus v0 l) as [-> ->]. rewrite take_cpus_len, take_cpus by (cbn; (done || rewrite Hn; unfold NCPU; lia)).
    cbn. rewrite Hn. done. }
  destruct Hv as [Hv1 Hv2], (see_entries_rest v0 l) as [Hv3 Hv4]. cbn [negb]. cbv iota.
  enough (HQ : forall h', let s' := mkDriver h' (foldl see_entry v0 l) in lapic (vars s') = conf_lapicaddr m conf /\
    ncpu (vars s') = Z.min NCPU (Z.of_nat (length (processors l))) /\ length (cpus (vars s')) = Z.to_nat NCPU /\
    take (Z.to_nat (ncpu (vars s'))) (cpus (vars s')) = take (Z.to_nat NCPU) (processors l) /\
    ioapicid (vars s') = default (ioapicid (vars s)) (last (ioapics l))).
  { destruct (negb (mp_imcrp m mp =? 0)); repeat hw_step; apply (HQ (hist s)). }
  intros h'. cbn. rewrite Hv1, Hv2, Hv3, Hv4. split_and!; try done.
  - rewrite length_app, length_take, length_drop, Hlen. unfold NCPU. lia.
  - unfold NCPU. rewrite take_app_le by (rewrite length_take; lia). rewrite take_take.
    destruct (decide (length (processors l) <= 8)%nat); [by rewrite !take_ge by lia|f_equal; lia].
Qed.

(** A table with an entry of an unknown type: [mpinit] neither returns nor
    panics, since its loop stays at that entry. *)
Theorem mpinit_stuck `{Hardware} m conf mp l t more fuel (s : driver mpvars) :
  mpconfig m = Some (conf, mp) -> table_at m conf l (t :: more) -> 4 < t -> mpinit m fuel s = Fault.
Proof.
  intros Hc Ht Hgt. unfold mpinit. rewrite Hc. destruct (table_bounds _ _ _ _ Ht) as [-> ->].
  destruct Ht as (Hok & Hc0 & Hlt & Hat & Hl). unfold set_lapic, bind, set_var, modify.
  set (s0 := mkDriver _ _). enough (E : mp_entries m fuel (conf + sizeof_mpconf)
    (conf + sizeof_mpconf + Z.of_nat (length (enc_table l ++ t :: more))) s0 = Fault) by (by rewrite E).
  apply unknown_stuck; (done || (unfold sizeof_mpconf in *; lia)).
Qed.

(** * A machine with two processors *)

(** The table at 0x9fc00 + 64 of physical memory, for the floating pointer that starts the EBDA. *)
Definition two_cpus : list mpentry :=
  [Processor 0 (replicate 18 0); Processor 3 (replicate 18 0); Other MPBUS (replicate 7 0); Ioapic 5 (replicate 6 0)].
Definition mp_header (len : Z) (ck : Z) : bytes :=
  str "PCMP" ++ le 2 len ++ [4; ck] ++ replicate 28 0 ++ le 4 0xfee00000 ++ replicate 4 0.
Definition mp_pointer : bytes := str "_MP_" ++ le 4 (0x9fc00 + 64) ++ [1; 4; 91; 0; 0; 0; 0; 0].
Definition mp_memory (table : bytes) : mem :=
  store_bytes (store_bytes (store_bytes (fun _ => 0) (P2V 0x40E) [0xC0; 0x9F]) (P2V 0x9fc00) mp_pointer) (P2V (0x9fc00 + 64)) table.

#[local] Instance silent : Hardware := fun _ _ => 0.
Definition no_cpus : driver mpvars := mkDriver [] (mkMp (replicate 8 0) 0 0 0).

Lemma mpinit_collects_witness : wp (mpinit (mp_memory (mp_header 100 127 ++ enc_table two_cpus)) 10) no_cpus
  (fun _ s' => lapic (vars s') = 0xfee00000 /\ ncpu (vars s') = 2 /\ take 2 (cpus (vars s')) = [0; 3] /\ ioapicid (vars s') = 5).
Proof.
  eapply wp_mono; [eapply (mpinit_collects _ (P2V (0x9fc00 + 64)) (P2V 0x9fc00) two_cpus)|].
  - by vm_compute.
  - split_and!; [|by vm_compute..]. by repeat constructor.
  - cbn. lia.
  - done.
  - done.
  - intros _ s' (-> & Hn & _ & Hc & ->). rewrite Hn in *. split_and!; [by vm_compute|done|exact Hc|done].
Defined.

Lemma mpinit_stuck_witness :
  mpinit (mp_memory (mp_header 101 119 ++ enc_table two_cpus ++ [7])) 1000 no_cpus = Fault.
Proof.
  eapply (mpinit_stuck _ (P2V (0x9fc00 + 64)) (P2V 0x9fc00) two_cpus 7 []); [by vm_compute| |done].
  split_and!; [|by vm_compute..]. by repeat constructor.
Defined.

(** A structure at 0xE0000, which the specification allows, is not found. *)
Lemma mpsearch_skips_rom : mp_at (store_bytes (fun _ => 0) (P2V 0xE0000) mp_pointer) (P2V 0xE0000) /\
  mpsearch (store_bytes (fun _ => 0) (P2V 0xE0000) mp_pointer) = None.
Proof. split; [split|]; by vm_compute. Qed.
