(* ===== verification/Ioapic.v ===== *)
(** ioapic.c and picirq.c: the controllers of the device interrupts.

    The I/O APIC has a register that selects and one that holds the data; what a
    history of stores leaves in its table follows from that. *)
From S2P Require Import Prelude Hw Syscall File Kernel.

Definition IOAPIC : Z := 0xFEC00000.
Definition REG_ID : Z := 0x00.
Definition REG_VER : Z := 0x01.
Definition REG_TABLE : Z := 0x10.
Definition INT_DISABLED : Z := 0x00010000.
Definition IRQ_KBD : Z := 1.
Definition IRQ_COM1 : Z := 4.
Definition IRQ_IDE : Z := 14.

(** [ioapicid] of mp.c, [ioapic], and what [cprintf] has printed. *)
Record iovars := mkIo { io_id : Z; io_ptr : Z; io_said : list string }.

Section driver.
Context `{Hardware}.
Local Abbreviation MD := (M (driver iovars)).

(** The fields [reg] and [data] of [struct ioapic]. *)
Definition ioapicread (reg : Z) : MD Z :=
  let* v := var in
  wr (io_ptr v) reg ;;
  rd (io_ptr v + 16).
Definition ioapicwrite (reg data : Z) : MD unit :=
  let* v := var in
  wr (io_ptr v) reg ;;
  wr (io_ptr v + 16) data.

Definition ioapicinit : MD unit :=
  set_var (fun v => mkIo (io_id v) IOAPIC (io_said v)) ;;
  let* ver := ioapicread REG_VER in
  let maxintr := Z.land (Z.shiftr ver 16) 0xFF in
  let* r := ioapicread REG_ID in
  let id := Z.shiftr r 24 in
  let* v := var in
  (if negb (id =? io_id v)
   then set_var (fun v => mkIo (io_id v) (io_ptr v) (io_said v ++ ["ioapicinit: id isn't equal to ioapicid; not a MP"]))
   else ret tt) ;;
  let* _ := for_loop (Z.to_nat (maxintr + 1)) 0 (fun i =>
    ioapicwrite (REG_TABLE + 2 * i) (Z.lor INT_DISABLED (T_IRQ0 + i)) ;;
    ioapicwrite (REG_TABLE + 2 * i + 1) 0 ;;
    ret (None : option unit)) in
  ret tt.

Definition ioapicenable (irq cpunum : Z) : MD unit :=
  ioapicwrite (REG_TABLE + 2 * irq) (T_IRQ0 + irq) ;;
  ioapicwrite (REG_TABLE + 2 * irq + 1) (u32 (Z.shiftl cpunum 24)).

Definition IO_PIC1 : Z := 0x20.
Definition IO_PIC2 : Z := 0xA0.
Definition picinit : MD unit := outb (IO_PIC1 + 1) 0xFF ;; outb (IO_PIC2 + 1) 0xFF.
End driver.

(** * What the controller holds *)

(** The register that is selected, and the value last stored in register [r]. *)
Fixpoint io_sel (h : list event) : option Z :=
  match h with
  | Wr a v :: h => if a =? IOAPIC then Some v else io_sel h
  | _ :: h => io_sel h
  | [] => None
  end.
Fixpoint io_reg (h : list event) (r : Z) : option Z :=
  match h with
  | Wr a v :: h => if (a =? IOAPIC + 16) && bool_decide (io_sel h = Some r) then Some v else io_reg h r
  | _ :: h => io_reg h r
  | [] => None
  end.

(** Interrupt [irq] is delivered to [cpu] as a trap with its number. *)
Definition routed (h : list event) (irq cpu : Z) : Prop :=
  io_reg h (REG_TABLE + 2 * irq) = Some (T_IRQ0 + irq) /\ io_reg h (REG_TABLE + 2 * irq + 1) = Some (u32 (Z.shiftl cpu 24)).
Definition disabled (h : list event) (irq : Z) : Prop :=
  exists v, io_reg h (REG_TABLE + 2 * irq) = Some v /\ Z.testbit v 16 = true.

Section spec.
Context `{Hardware}.
Local Abbreviation st := (driver iovars).

Lemma io_reg_write h r v r' :
  io_reg (Wr (IOAPIC + 16) v :: Wr IOAPIC r :: h) r' = if r =? r' then Some v else io_reg h r'.
Proof.
  cbn [io_reg io_sel]. rewrite !Z.eqb_refl. cbn [andb]. change (IOAPIC =? IOAPIC + 16) with false. cbn [andb].
  destruct (Z.eqb_spec r r') as [->|Hne]; [by rewrite bool_decide_eq_true_2|rewrite bool_decide_eq_false_2; [done|congruence]].
Qed.

Lemma wp_ioapicwrite r v (s : st) (Q : unit -> st -> Prop) : io_ptr (vars s) = IOAPIC ->
  (forall h, (forall r', io_reg h r' = if r =? r' then Some v else io_reg (hist s) r') -> Q tt (mkDriver h (vars s))) ->
  wp (ioapicwrite r v) s Q.
Proof. intros Hp HQ. unfold ioapicwrite. repeat hw_step. rewrite Hp. cbn [vars hist]. apply HQ. intros r'. apply io_reg_write. Qed.

(** The last interrupt of the controller, which it answers. *)
Definition maxintr (h : list event) : Z :=
  Z.land (Z.shiftr (answer (Wr IOAPIC REG_VER :: h) (Rd (IOAPIC + 16))) 16) 0xFF.

(** The loop masks the interrupts one after the other. *)
Lemma wp_mask_loop n (s : st) (Q : option unit -> st -> Prop) : io_ptr (vars s) = IOAPIC ->
  (forall h, (forall i, 0 <= i < Z.of_nat n -> io_reg h (REG_TABLE + 2 * i) = Some (Z.lor INT_DISABLED (T_IRQ0 + i)) /\
                io_reg h (REG_TABLE + 2 * i + 1) = Some 0) -> Q None (mkDriver h (vars s))) ->
  wp (for_loop n 0 (fun i =>
    ioapicwrite (REG_TABLE + 2 * i) (Z.lor INT_DISABLED (T_IRQ0 + i)) ;;
    ioapicwrite (REG_TABLE + 2 * i + 1) 0 ;; ret (None : option unit))) s Q.
Proof.
  intros Hp HQ. apply (wp_for_loop (fun j s' => vars s' = vars s /\ forall i, 0 <= i < j ->
    io_reg (hist s') (REG_TABLE + 2 * i) = Some (Z.lor INT_DISABLED (T_IRQ0 + i)) /\ io_reg (hist s') (REG_TABLE + 2 * i + 1) = Some 0)).
  - split; [done|]. intros i Hi. lia.
  - intros k s' Hk [Hv Hi]. hw_step. apply wp_ioapicwrite; [by rewrite Hv|]. intros h1 H1. hw_step.
    apply wp_ioapicwrite; [cbn; by rewrite Hv|]. cbn [hist vars]. intros h2 H2. hw_step. split; [done|]. cbn [hist].
    intros i Hlt. rewrite !H2, !H1. destruct (decide (i = k)) as [->|Hne].
    + rewrite Z.eqb_refl, (proj2 (Z.eqb_neq _ _)), Z.eqb_refl by lia. done.
    + rewrite !(proj2 (Z.eqb_neq _ _)) by lia. apply Hi. lia.
  - intros s' [Hv Hi]. destruct s' as [h v]. cbn in Hv. subst v. apply HQ. intros i Hlt. apply Hi. lia.
Qed.

Lemma wp_ioapicinit (s : st) (Q : unit -> st -> Prop) :
  (forall h said, (forall i, 0 <= i <= maxintr (hist s) -> io_reg h (REG_TABLE + 2 * i) = Some (Z.lor INT_DISABLED (T_IRQ0 + i)) /\
                io_reg h (REG_TABLE + 2 * i + 1) = Some 0) -> Q tt (mkDriver h (mkIo (io_id (vars s)) IOAPIC said))) ->
  wp ioapicinit s Q.
Proof.
  intros HQ. unfold ioapicinit, ioapicread. do 16 hw_step. cbn [vars hist io_ptr io_id io_said].
  assert (Hm : 0 <= maxintr (hist s)) by (apply Z.land_nonneg; by right). fold (maxintr (hist s)).
  case_match; repeat hw_step; (apply wp_mask_loop; [done|]; intros h Hh; hw_step; apply HQ; intros i Hi; apply Hh; lia).
Qed.

(** The calls of [ioapicenable] that the drivers make, in order. *)
Fixpoint enable_all (l : list (Z * Z)) : M st unit :=
  match l with [] => ret tt | (irq, cpu) :: l => ioapicenable irq cpu ;; enable_all l end.

Lemma wp_ioapicenable irq cpu (s : st) (Q : unit -> st -> Prop) : io_ptr (vars s) = IOAPIC ->
  (forall h, routed h irq cpu -> (forall i, i <> irq -> io_reg h (REG_TABLE + 2 * i) = io_reg (hist s) (REG_TABLE + 2 * i) /\
      io_reg h (REG_TABLE + 2 * i + 1) = io_reg (hist s) (REG_TABLE + 2 * i + 1)) -> Q tt (mkDriver h (vars s))) ->
  wp (ioapicenable irq cpu) s Q.
Proof.
  intros Hp HQ. unfold ioapicenable. hw_step. apply wp_ioapicwrite; [done|]. intros h1 H1. apply wp_ioapicwrite; [done|].
  cbn [hist vars]. intros h2 H2. apply HQ.
  - split; rewrite !H2, !H1, ?Z.eqb_refl; [|done]. by rewrite (proj2 (Z.eqb_neq _ _)) by lia.
  - intros i Hi. rewrite !H2, !H1, !(proj2 (Z.eqb_neq _ _)) by lia. done.
Qed.

(** [irq] is enabled for the CPU of its last call. *)
Fixpoint enabled_for (l : list (Z * Z)) (irq : Z) : option Z :=
  match l with
  | [] => None
  | (i, cpu) :: l => match enabled_for l irq with Some c => Some c | None => if i =? irq then Some cpu else None end
  end.

Lemma wp_enable_all l : forall (s : st) (Q : unit -> st -> Prop), io_ptr (vars s) = IOAPIC ->
  (forall h, (forall irq, match enabled_for l irq with
                | Some cpu => routed h irq cpu
                | None => io_reg h (REG_TABLE + 2 * irq) = io_reg (hist s) (REG_TABLE + 2 * irq) /\
                          io_reg h (REG_TABLE + 2 * irq + 1) = io_reg (hist s) (REG_TABLE + 2 * irq + 1)
                end) -> Q tt (mkDriver h (vars s))) ->
  wp (enable_all l) s Q.
Proof.
  induction l as [|[i cpu] l IH]; intros s Q Hp HQ; cbn [enable_all].
  - hw_step. destruct s. by apply HQ.
  - hw_step. apply wp_ioapicenable; [done|]. intros h1 Hr Hrest. apply IH; [done|]. cbn [hist vars]. intros h2 H2. apply HQ.
    intros irq. specialize (H2 irq). cbn [enabled_for]. destruct (enabled_for l irq) eqn:E; [done|].
    destruct H2 as [E1 E2]. destruct (Z.eqb_spec i irq) as [->|Hne].
    + split; [rewrite E1|rewrite E2]; apply Hr.
    + rewrite E1, E2. by apply Hrest.
Qed.
End spec.

(** After [ioapicinit] and any calls of [ioapicenable], the controller delivers
    exactly the interrupts that were enabled, to the CPU of the last call for
    each; the others of its table are disabled. *)
Theorem ioapic_routes `{Hardware} l (s : driver iovars) :
  wp (ioapicinit ;; enable_all l) s (fun _ s' => forall irq, 0 <= irq <= maxintr (hist s) ->
    match enabled_for l irq with
    | Some cpu => routed (hist s') irq cpu /\ ~ disabled (hist s') irq
    | None => disabled (hist s') irq
    end).
Proof.
  hw_step. apply wp_ioapicinit. intros h said Hh. apply wp_enable_all; [done|]. cbn [hist vars]. intros h' H' irq Hirq.
  assert (H256 : maxintr (hist s) < 2 ^ 8) by (unfold maxintr; change 0xFF with (Z.ones 8); rewrite Z.land_ones by lia; by apply Z.mod_pos_bound).
  specialize (H' irq). destruct (enabled_for l irq) as [cpu|].
  - split; [done|]. intros (v & Hv & Hb). destruct H' as [E _]. rewrite Hv in E. injection E as ->.
    rewrite Z.bits_above_log2 in Hb; [done|unfold T_IRQ0; lia|]. apply Z.log2_lt_pow2; unfold T_IRQ0; lia.
  - destruct (Hh irq Hirq) as [E _]. eexists. split; [by rewrite (proj1 H')|]. rewrite Z.lor_spec. done.
Qed.

(** What main.c enables on a machine with two processors. *)
Definition boot_irqs (ncpu : Z) : list (Z * Z) := [(IRQ_KBD, 0); (IRQ_COM1, 0); (IRQ_IDE, ncpu - 1)].
Definition pc_ioapic : Hardware := fun h e => match io_sel h with Some 1 => Z.lor (Z.shiftl 23 16) 0x11 | _ => 0 end.

Lemma ioapic_routes_witness :
  wp (@ioapicinit pc_ioapic ;; enable_all (boot_irqs 2)) (mkDriver [] (mkIo 0 0 [])) (fun _ s' =>
    routed (hist s') IRQ_IDE 1 /\ disabled (hist s') 0 /\ routed (hist s') IRQ_KBD 0).
Proof.
  eapply wp_mono; [apply (@ioapic_routes pc_ioapic)|]. intros u s' Hs. split_and!.
  - apply (Hs IRQ_IDE); by vm_compute.
  - apply (Hs 0); by vm_compute.
  - apply (Hs IRQ_KBD); by vm_compute.
Defined.
