(* ===== verification/Lapic.v ===== *)
(** lapic.c: the interrupt controller of a CPU, the start of the other CPUs, and the clock.

    The registers are at [lapic]; ordinary memory is [l_mem].  A loop that waits
    for the hardware has the hardware's bound as fuel. *)
From S2P Require Import Prelude Layout CString Kalloc Hw Boot Syscall File Kernel Mp.

Definition ID : Z := 0x0020 / 4.
Definition VER : Z := 0x0030 / 4.
Definition TPR : Z := 0x0080 / 4.
Definition EOI : Z := 0x00B0 / 4.
Definition SVR : Z := 0x00F0 / 4.
Definition ENABLE : Z := 0x00000100.
Definition ESR : Z := 0x0280 / 4.
Definition ICRLO : Z := 0x0300 / 4.
Definition INIT : Z := 0x00000500.
Definition STARTUP : Z := 0x00000600.
Definition DELIVS : Z := 0x00001000.
Definition ASSERT : Z := 0x00004000.
Definition LEVEL : Z := 0x00008000.
Definition BCAST : Z := 0x00080000.
Definition ICRHI : Z := 0x0310 / 4.
Definition TIMER : Z := 0x0320 / 4.
Definition X1 : Z := 0x0000000B.
Definition PERIODIC : Z := 0x00020000.
Definition PCINT : Z := 0x0340 / 4.
Definition LINT0 : Z := 0x0350 / 4.
Definition LINT1 : Z := 0x0360 / 4.
Definition ERROR : Z := 0x0370 / 4.
Definition MASKED : Z := 0x00010000.
Definition TICR : Z := 0x0380 / 4.
Definition TDCR : Z := 0x03E0 / 4.
Definition IRQ_ERROR : Z := 19.
Definition IRQ_SPURIOUS : Z := 31.

Definition CMOS_PORT : Z := 0x70.
Definition CMOS_RETURN : Z := 0x71.
Definition CMOS_STATA : Z := 0x0a.
Definition CMOS_STATB : Z := 0x0b.
Definition CMOS_UIP : Z := Z.shiftl 1 7.
Definition SECS : Z := 0x00.
Definition MINS : Z := 0x02.
Definition HOURS : Z := 0x04.
Definition DAY : Z := 0x07.
Definition MONTH : Z := 0x08.
Definition YEAR : Z := 0x09.

Record lvars := mkLapic { l_lapic : Z; l_mem : mem }.

Record rtcdate := mkDate { second : Z; minute : Z; hour : Z; day : Z; month : Z; year : Z }.
#[export] Instance rtcdate_eq_dec : EqDecision rtcdate.
Proof. solve_decision. Defined.

(** [*(ushort* )a = v]. *)
Definition st16 (m : mem) (a v : Z) : mem := store_bytes m a (le 2 v).

Section driver.
Context `{Hardware}.
Local Abbreviation MD := (M (driver lvars)).

Definition lapicw (index value : Z) : MD unit :=
  let* v := var in
  wr (l_lapic v + 4 * index) (u32 value) ;;
  let* _ := rd (l_lapic v + 4 * ID) in
  ret tt.
Definition lapicr (index : Z) : MD Z :=
  let* v := var in
  rd (l_lapic v + 4 * index).

Definition lapicinit (wait : nat) : MD unit :=
  let* v := var in
  if l_lapic v =? 0 then ret tt
  else
    lapicw SVR (Z.lor ENABLE (T_IRQ0 + IRQ_SPURIOUS)) ;;
    lapicw TDCR X1 ;;
    lapicw TIMER (Z.lor PERIODIC (T_IRQ0 + IRQ_TIMER)) ;;
    lapicw TICR 10000000 ;;
    lapicw LINT0 MASKED ;;
    lapicw LINT1 MASKED ;;
    let* ver := lapicr VER in
    (if 4 <=? Z.land (Z.shiftr ver 16) 0xFF then lapicw PCINT MASKED else ret tt) ;;
    lapicw ERROR (T_IRQ0 + IRQ_ERROR) ;;
    lapicw ESR 0 ;;
    lapicw ESR 0 ;;
    lapicw EOI 0 ;;
    lapicw ICRHI 0 ;;
    lapicw ICRLO (Z.lor (Z.lor BCAST INIT) LEVEL) ;;
    while_loop wait tt (fun _ =>
      let* r := lapicr ICRLO in
      ret (if negb (Z.land r DELIVS =? 0) then inl tt else inr tt)) ;;
    lapicw TPR 0.

Definition lapicid : MD Z :=
  let* v := var in
  if l_lapic v =? 0 then ret 0
  else let* r := lapicr ID in ret (Z.shiftr r 24).

Definition lapiceoi : MD unit :=
  let* v := var in
  if negb (l_lapic v =? 0) then lapicw EOI 0 else ret tt.

(** [microdelay] does nothing. *)
Definition lapicstartap (apicid addr : Z) : MD unit :=
  outb CMOS_PORT 0xF ;;
  outb (CMOS_PORT + 1) 0x0A ;;
  let wrv := P2V (Z.lor (Z.shiftl 0x40 4) 0x67) in
  set_var (fun v => mkLapic (l_lapic v) (st16 (l_mem v) wrv 0)) ;;
  set_var (fun v => mkLapic (l_lapic v) (st16 (l_mem v) (wrv + 2) (u16 (Z.shiftr addr 4)))) ;;
  lapicw ICRHI (Z.shiftl apicid 24) ;;
  lapicw ICRLO (Z.lor (Z.lor INIT LEVEL) ASSERT) ;;
  lapicw ICRLO (Z.lor INIT LEVEL) ;;
  let* _ := for_loop 2 0 (fun _ =>
    lapicw ICRHI (Z.shiftl apicid 24) ;;
    lapicw ICRLO (Z.lor STARTUP (Z.shiftr addr 12)) ;;
    ret (None : option unit)) in
  ret tt.

Definition cmos_read (reg : Z) : MD Z :=
  outb CMOS_PORT reg ;;
  inb CMOS_RETURN.

Definition fill_rtcdate : MD rtcdate :=
  let* s := cmos_read SECS in
  let* mi := cmos_read MINS in
  let* h := cmos_read HOURS in
  let* d := cmos_read DAY in
  let* mo := cmos_read MONTH in
  let* y := cmos_read YEAR in
  ret (mkDate s mi h d mo y).

Definition CONV (x : Z) : Z := Z.shiftr x 4 * 10 + Z.land x 0xf.

(** The loop of [cmostime]: a date that was read twice. *)
Definition cmos_date (tries : nat) : MD rtcdate :=
  while_loop tries tt (fun _ =>
    let* t1 := fill_rtcdate in
    let* a := cmos_read CMOS_STATA in
    if negb (Z.land a CMOS_UIP =? 0) then ret (inl tt)
    else
      let* t2 := fill_rtcdate in
      ret (if bool_decide (t1 = t2) then inr t1 else inl tt)).

Definition cmostime (tries : nat) : MD rtcdate :=
  let* sb := cmos_read CMOS_STATB in
  let bcd := Z.land sb (Z.shiftl 1 2) =? 0 in
  let* t1 := cmos_date tries in
  let t1 := if bcd then mkDate (CONV (second t1)) (CONV (minute t1)) (CONV (hour t1)) (CONV (day t1)) (CONV (month t1)) (CONV (year t1))
            else t1 in
  ret (mkDate (second t1) (minute t1) (hour t1) (day t1) (month t1) (year t1 + 2000)).
End driver.

(** [cmostime] returns a date that the clock showed, though the clock may change
    while it is read; [lapicinit] and [lapicstartap] bring the controller into
    the states that they are to. *)

(** * The clock *)

(** The registers of the clock, of which time is counted in accesses.  While it
    updates them, which a bit of register A shows, their values are arbitrary. *)
Class Rtc := {
  clock : nat -> rtcdate;
  updating : nat -> bool;
  stat_b : Z;
  rtc_wait : nat
}.

(** The date as the registers hold it: in BCD or binary. *)
Definition to_bcd (v : Z) : Z := 16 * (v / 10) + v mod 10.
Definition enc_field `{Rtc} (v : Z) : Z := if Z.land stat_b (Z.shiftl 1 2) =? 0 then to_bcd v else v.
Definition enc_date `{Rtc} (d : rtcdate) : rtcdate :=
  mkDate (enc_field (second d)) (enc_field (minute d)) (enc_field (hour d)) (enc_field (day d)) (enc_field (month d)) (enc_field (year d)).
Definition field (r : Z) (d : rtcdate) : option Z :=
  if r =? SECS then Some (second d) else if r =? MINS then Some (minute d) else if r =? HOURS then Some (hour d)
  else if r =? DAY then Some (day d) else if r =? MONTH then Some (month d) else if r =? YEAR then Some (year d) else None.

Definition two_digits (v : Z) : Prop := 0 <= v < 100.
Definition date_ok (d : rtcdate) : Prop :=
  two_digits (second d) /\ two_digits (minute d) /\ two_digits (hour d) /\ two_digits (day d) /\ two_digits (month d) /\ two_digits (year d).

Class RtcLaws `{Hardware} `{Rtc} : Prop := {
  rtc_stat_b h : answer (Out CMOS_PORT CMOS_STATB :: h) (In CMOS_RETURN) = stat_b;
  rtc_stat_a h : negb (Z.land (answer (Out CMOS_PORT CMOS_STATA :: h) (In CMOS_RETURN)) CMOS_UIP =? 0) = updating (S (length h));
  rtc_field h r v : updating (S (length h)) = false -> field r (clock (S (length h))) = Some v ->
    answer (Out CMOS_PORT r :: h) (In CMOS_RETURN) = enc_field v;
  rtc_date n : date_ok (clock n);
  (** The date changes only in an update; the updates are far apart. *)
  rtc_steady n : updating n = false -> clock (S n) = clock n;
  rtc_apart a b c : (a < b < c)%nat -> updating a = true -> updating b = false -> updating c = true -> (26 <= c - a)%nat;
  rtc_quiet n : exists m, (n <= m <= n + rtc_wait)%nat /\ forall k, (m <= k < m + 52)%nat -> updating k = false
}.

Lemma CONV_bcd v : two_digits v -> CONV (to_bcd v) = v.
Proof.
  unfold two_digits, CONV, to_bcd. intros Hv. rewrite Z.shiftr_div_pow2 by lia. change 0xf with (Z.ones 4). rewrite Z.land_ones by lia.
  change (2 ^ 4) with 16. Z.div_mod_to_equations. lia.
Qed.

Section clock.
Context `{RtcLaws}.
Local Abbreviation st := (driver lvars).
Local Abbreviation len s := (length (hist s)).

Definition quiet (n m : nat) : Prop := forall k, (n <= k < m)%nat -> updating k = false.

Lemma steady n k : quiet n (n + k) -> clock (n + k) = clock n.
Proof.
  induction k as [|k IH]; intros Hq; [by rewrite Nat.add_0_r|]. rewrite Nat.add_succ_r, rtc_steady by (apply Hq; lia).
  apply IH. intros i Hi. apply Hq. lia.
Qed.

Lemma wp_cmos_read r (s : st) (Q : Z -> st -> Prop) :
  Q (answer (Out CMOS_PORT (u8 r) :: hist s) (In CMOS_RETURN)) (mkDriver (In CMOS_RETURN :: Out CMOS_PORT (u8 r) :: hist s) (vars s)) ->
  wp (cmos_read r) s Q.
Proof. intros HQ. unfold cmos_read. repeat hw_step. done. Qed.

(** A register that is read in quiet. *)
Lemma quiet_field h r n k v : quiet n (n + k) -> (length h < n + k)%nat -> (n <= length h)%nat -> (S (length h) < n + k)%nat ->
  field r (clock n) = Some v -> answer (Out CMOS_PORT r :: h) (In CMOS_RETURN) = enc_field v.
Proof.
  intros Hq Hlt Hge Hlt' Hf. apply rtc_field; [apply Hq; lia|]. rewrite <- Hf. f_equal.
  replace (S (length h)) with (n + (S (length h) - n))%nat by lia. apply steady. intros i Hi. apply Hq. lia.
Qed.

Lemma wp_fill_rtcdate (s : st) (Q : rtcdate -> st -> Prop) :
  (forall d h, length h = (len s + 12)%nat -> (quiet (len s) (len s + 12) -> d = enc_date (clock (len s))) -> Q d (mkDriver h (vars s))) ->
  wp fill_rtcdate s Q.
Proof.
  intros HQ. unfold fill_rtcdate. do 6 (hw_step; apply wp_cmos_read; cbn [hist vars]). hw_step.
  apply HQ; [cbn [length]; lia|]. intros Hq. unfold enc_date.
  f_equal; eapply (quiet_field _ _ (len s) 12); (done || (cbn [length]; lia)).
Qed.

(** One try: two readings with the clock's status between them. *)
Lemma wp_try (s : st) (Q : unit + rtcdate -> st -> Prop) :
  (forall r h, (len s + 14 <= length h <= len s + 26)%nat ->
     (quiet (len s) (len s + 26) -> exists d, r = inr d) ->
     match r with
     | inl _ => True
     | inr d => exists n, (len s <= n < length h)%nat /\ updating n = false /\ d = enc_date (clock n)
     end -> Q r (mkDriver h (vars s))) ->
  wp (let* t1 := fill_rtcdate in
      let* a := cmos_read CMOS_STATA in
      if negb (Z.land a CMOS_UIP =? 0) then ret (inl tt)
      else let* t2 := fill_rtcdate in ret (if bool_decide (t1 = t2) then inr t1 else inl tt)) s Q.
Proof.
  intros HQ. hw_step. apply wp_fill_rtcdate. intros t1 h1 L1 E1. hw_step. apply wp_cmos_read. cbn [hist vars].
  change (u8 CMOS_STATA) with CMOS_STATA. rewrite rtc_stat_a, L1. destruct (updating (S (len s + 12))) eqn:Eu.
  { hw_step. apply HQ; [cbn [length]; lia| |done]. intros Hq. rewrite Hq in Eu by lia. done. }
  hw_step. apply wp_fill_rtcdate. cbn [hist vars length]. rewrite L1. intros t2 h2 L2 E2. hw_step. apply HQ; [lia| |].
  - intros Hq. rewrite E1, E2 by (intros i Hi; apply Hq; lia). replace (S (S (len s + 12))) with (len s + 14)%nat by lia.
    rewrite (steady (len s) 14) by (intros i Hi; apply Hq; lia). rewrite bool_decide_eq_true_2 by done. eauto.
  - case_bool_decide as Et; [|done].
    destruct (decide (Exists (fun k => updating k = true) (seq (len s) 12))) as [(a & Ha & Hua)%Exists_exists|Hn].
    + apply elem_of_seq in Ha. assert (Hq : quiet (S (S (len s + 12))) (S (S (len s + 12)) + 12)).
      { intros i Hi. destruct (updating i) eqn:Ei; [|done]. assert (26 <= i - a)%nat by (apply (rtc_apart a (S (len s + 12)) i); (done || lia)). lia. }
      exists (S (S (len s + 12))). split; [lia|split; [apply Hq; lia|by rewrite Et; apply E2]].
    + exists (len s). assert (Hq : quiet (len s) (len s + 12)).
      { intros i Hi. destruct (updating i) eqn:Ei; [|done]. destruct Hn. apply Exists_exists. exists i. split; [apply elem_of_seq; lia|done]. }
      split_and!; [lia|lia|apply Hq; lia|by apply E1].
Qed.
End clock.

(** [cmostime] returns, and returns a date that the clock showed during the
    call: no mixture of fields from before and after a change. *)
Theorem cmostime_correct `{RtcLaws} (s : driver lvars) :
  wp (cmostime (rtc_wait + 3)) s (fun r s' => exists n d, (length (hist s) <= n < length (hist s'))%nat /\ updating n = false /\
    clock n = d /\ r = mkDate (second d) (minute d) (hour d) (day d) (month d) (year d + 2000)).
Proof.
  unfold cmostime. hw_step. apply wp_cmos_read. change (u8 CMOS_STATB) with CMOS_STATB. rewrite rtc_stat_b. hw_step.
  set (s1 := mkDriver _ _). assert (L1 : length (hist s1) = S (S (length (hist s)))) by done. unfold cmos_date.
  destruct (rtc_quiet (length (hist s1))) as (m & Hm & Hq).
  apply (wp_while_loop (fun k _ s' => (length (hist s1) <= length (hist s') <= m + 26)%nat /\ (m + 27 <= length (hist s') + 14 * k)%nat)).
  - lia.
  - intros _ s' ?. lia.
  - intros k _ s' (Hlen & Hk). apply wp_try. intros r h Lh Hquiet Hr. destruct r as [[]|t1]; cbn [hist].
    + destruct (decide (m <= length (hist s'))%nat).
      * destruct Hquiet as [d ?]; [|done]. intros i Hi. apply Hq. lia.
      * lia.
    + hw_step. destruct Hr as (n & Hn & Hu & ->). exists n, (clock n). cbn [hist]. clearbody s1. split_and!; [lia|lia|done|done|].
      pose proof (rtc_date n) as (D1 & D2 & D3 & D4 & D5 & D6). unfold enc_date, enc_field. cbn.
      destruct (Z.land stat_b (Z.shiftl 1 2) =? 0); cbn; by rewrite ?CONV_bcd by done.
Qed.

(** A clock that updates once in 100 accesses, for ten of them. *)
#[export] Instance toy_rtc : Rtc := {|
  clock n := mkDate (Z.of_nat (Nat.modulo (n / 100) 60)) 59 23 31 12 24;
  updating n := (90 <=? n `mod` 100)%nat;
  stat_b := 2;
  rtc_wait := 100 |}.
#[export] Instance toy_cmos : Hardware := fun h e =>
  match h with
  | Out _ r :: _ =>
      if r =? CMOS_STATB then 2
      else if r =? CMOS_STATA then if updating (length h) then 0xA6 else 0x26
      else enc_field (default 0 (field r (clock (length h))))
  | _ => 0
  end.

#[export] Instance toy_rtc_laws : RtcLaws.
Proof.
  split.
  - done.
  - intros h. unfold answer, toy_cmos. change (CMOS_STATA =? CMOS_STATB) with false. change (CMOS_STATA =? CMOS_STATA) with true. cbv iota.
    change (length (Out CMOS_PORT CMOS_STATA :: h)) with (S (length h)). by destruct (updating (S (length h))).
  - intros h r v _ Hf. unfold answer, toy_cmos. destruct (Z.eqb_spec r CMOS_STATB) as [->|_]; [done|].
    destruct (Z.eqb_spec r CMOS_STATA) as [->|_]; [done|]. change (length (Out CMOS_PORT r :: h)) with (S (length h)). by rewrite Hf.
  - intros n. unfold date_ok, two_digits. cbn [clock toy_rtc second minute hour day month year].
    pose proof (Nat.mod_upper_bound (n / 100) 60). lia.
  - intros n Hu%Nat.leb_gt. cbn [clock toy_rtc]. do 3 f_equal. pose proof (Nat.div_mod_eq n 100).
    symmetry. apply (Nat.div_unique _ _ _ (S (n mod 100))); lia.
  - cbn [updating toy_rtc]. intros a b c Habc ?%Nat.leb_le ?%Nat.leb_gt ?%Nat.leb_le.
    pose proof (Nat.div_mod_eq a 100). pose proof (Nat.div_mod_eq b 100). pose proof (Nat.div_mod_eq c 100).
    pose proof (Nat.mod_upper_bound a 100). pose proof (Nat.mod_upper_bound b 100). pose proof (Nat.mod_upper_bound c 100). lia.
  - intros n. exists (100 * S (n / 100))%nat. pose proof (Nat.div_mod_eq n 100). pose proof (Nat.mod_upper_bound n 100).
    cbn [rtc_wait updating toy_rtc]. split; [lia|]. intros k Hk. apply Nat.leb_gt.
    rewrite <- (Nat.mod_unique k 100 (S (n / 100)) (k - 100 * S (n / 100))); lia.
Qed.

Lemma cmostime_correct_witness : wp (cmostime (rtc_wait + 3)) (mkDriver (replicate 80 (In 0)) (mkLapic 0 (fun _ => 0)))
  (fun r _ => year r = 2024 /\ month r = 12 /\ minute r = 59).
Proof. eapply wp_mono; [apply (cmostime_correct (mkDriver _ _))|]. intros r s' (n & d & _ & _ & <- & ->). done. Defined.

(** * The controller of a CPU *)

Section apic.
Context `{Hardware}.
Local Abbreviation st := (driver lvars).

Lemma wp_lapicw i v (s : st) (Q : unit -> st -> Prop) :
  Q tt (mkDriver (Rd (l_lapic (vars s) + 4 * ID) :: Wr (l_lapic (vars s) + 4 * i) (u32 v) :: hist s) (vars s)) -> wp (lapicw i v) s Q.
Proof. intros HQ. unfold lapicw. repeat hw_step. done. Qed.

Lemma wp_lapicr i (s : st) (Q : Z -> st -> Prop) :
  Q (answer (hist s) (Rd (l_lapic (vars s) + 4 * i))) (mkDriver (Rd (l_lapic (vars s) + 4 * i) :: hist s) (vars s)) -> wp (lapicr i) s Q.
Proof. intros HQ. unfold lapicr. repeat hw_step. done. Qed.

(** The command is delivered after [w] reads of its register. *)
Definition delivers (w : nat) : Prop :=
  forall h a, Z.land (answer (replicate w (Rd (a + 4 * ICRLO)) ++ h) (Rd (a + 4 * ICRLO))) DELIVS = 0.

(** The wait adds reads of the command register to the history. *)
Lemma wp_deliver w (s : st) (Q : unit -> st -> Prop) : delivers w ->
  (forall k, Q tt (mkDriver (replicate k (Rd (l_lapic (vars s) + 4 * ICRLO)) ++ hist s) (vars s))) ->
  wp (while_loop (S w) tt (fun _ => let* r := lapicr ICRLO in ret (if negb (Z.land r DELIVS =? 0) then inl tt else inr tt))) s Q.
Proof.
  intros Hd HQ. set (rdi := Rd (l_lapic (vars s) + 4 * ICRLO)) in *.
  apply (wp_while_loop (fun k _ s' => exists j, (j + k = S w)%nat /\ (j <= w)%nat /\ s' = mkDriver (replicate j rdi ++ hist s) (vars s))).
  - exists O. split_and!; [lia|lia|by destruct s].
  - intros _ s' (j & ? & ? & _). lia.
  - intros k _ s' (j & Hj & Hw & ->). hw_step. apply wp_lapicr. cbn [hist vars]. fold rdi. hw_step.
    change (rdi :: replicate j rdi ++ hist s) with (replicate (S j) rdi ++ hist s).
    destruct (decide (j = w)) as [->|Hne]; [pose proof (Hd (hist s) (l_lapic (vars s))) as E; fold rdi in E; rewrite E; apply (HQ (S w))|].
    destruct (negb _); [|apply (HQ (S j))]. exists (S j). split_and!; [lia|lia|done].
Qed.

Lemma reg_of_reads k e h a : (forall a' v, e <> Wr a' v) -> reg_of (replicate k e ++ h) a = reg_of h a.
Proof. intros He. induction k as [|k IH]; [done|]. cbn. destruct e as [| |a' v|]; try done. by destruct (He a' v). Qed.

Lemma reg_of_next l i v h j : reg_of (Wr (l + 4 * i) v :: h) (l + 4 * j) = if i =? j then Some v else reg_of h (l + 4 * j).
Proof. cbn [reg_of]. destruct (Z.eqb_spec i j), (Z.eqb_spec (l + 4 * i) (l + 4 * j)); (done || lia). Qed.
Lemma reg_of_read a h b : reg_of (Rd a :: h) b = reg_of h b.
Proof. done. Qed.

(** The registers that [lapicinit] sets, but for the last. *)
Definition lapic_setup : list (Z * Z) :=
  [(SVR, Z.lor ENABLE (T_IRQ0 + IRQ_SPURIOUS)); (TDCR, X1); (TIMER, Z.lor PERIODIC (T_IRQ0 + IRQ_TIMER)); (TICR, 10000000);
   (LINT0, MASKED); (LINT1, MASKED); (ERROR, T_IRQ0 + IRQ_ERROR); (ESR, 0)].

Ltac reg_eval := repeat (rewrite reg_of_read || (rewrite reg_of_next; match goal with |- context [?i =? ?j] => let b := eval vm_compute in (i =? j) in change (i =? j) with b end; cbv iota)).

(** [lapicinit] leaves the controller enabled, its timer periodic with the
    vector of the timer trap, and the lines that are not used masked; it accepts
    interrupts only after all this. *)
Lemma lapicinit_sets w (s : st) : delivers w -> l_lapic (vars s) <> 0 ->
  wp (lapicinit (S w)) s (fun _ s' => vars s' = vars s /\
    exists h, hist s' = Rd (l_lapic (vars s) + 4 * ID) :: Wr (l_lapic (vars s) + 4 * TPR) 0 :: h /\
      forall i v, (i, v) ∈ lapic_setup -> reg_of h (l_lapic (vars s) + 4 * i) = Some v).
Proof.
  intros Hd Hl. unfold lapicinit. hw_step. hw_step. rewrite (proj2 (Z.eqb_neq _ _)) by done.
  do 6 (hw_step; apply wp_lapicw; cbn [hist vars]). hw_step. apply wp_lapicr. cbn [hist vars]. hw_step.
  case_match; [apply wp_lapicw|apply wp_ret]; cbn [hist vars]; do 6 (hw_step; apply wp_lapicw; cbn [hist vars]); hw_step; (apply wp_deliver; [done|]);
    intros k; apply wp_lapicw; cbn [hist vars]; (split; [done|]); eexists; (split; [done|]); intros i v Hin;
    rewrite reg_of_reads by done; unfold lapic_setup in Hin; rewrite !elem_of_cons, elem_of_nil in Hin; destruct_or! Hin; simplify_eq; reg_eval; done.
Qed.

(** The messages that the command register has sent, with their destination. *)
Fixpoint ipis (l : Z) (h : list event) : list (Z * Z) :=
  match h with
  | Wr a v :: h => if a =? l + 4 * ICRLO then ipis l h ++ [(default 0 (reg_of h (l + 4 * ICRHI)), v)] else ipis l h
  | _ :: h => ipis l h
  | [] => []
  end.

Lemma ipis_next l i v h : ipis l (Wr (l + 4 * i) v :: h) =
  if i =? ICRLO then ipis l h ++ [(default 0 (reg_of h (l + 4 * ICRHI)), v)] else ipis l h.
Proof. cbn [ipis]. destruct (Z.eqb_spec i ICRLO), (Z.eqb_spec (l + 4 * i) (l + 4 * ICRLO)); (done || lia). Qed.

Lemma ipis_read l a h : ipis l (Rd a :: h) = ipis l h.
Proof. done. Qed.

Ltac ipi_eval := repeat (rewrite ipis_read || (rewrite ipis_next; match goal with |- context [?i =? ?j] => let b := eval vm_compute in (i =? j) in change (i =? j) with b end; cbv iota)).

Lemma ld16_st16 m a v : 0 <= v < 2 ^ 16 -> ld16 (st16 m a v) a = v.
Proof.
  intros Hv. unfold ld16, st16, bytes_at, store_bytes. cbn [seq map le length unle nth0 nth].
  rewrite Z.add_0_r, !(proj2 (Z.leb_le a _)), !(proj2 (Z.ltb_lt _ (a + Z.of_nat 2))) by lia. cbn [andb].
  replace (Z.to_nat (a - a)) with 0%nat by lia. replace (Z.to_nat (a + Z.of_nat 1 - a)) with 1%nat by lia. cbn [nth0 nth].
  Z.div_mod_to_equations. lia.
Qed.
Lemma ld16_st16_ne m a v b : a + 2 <= b \/ b + 2 <= a -> ld16 (st16 m a v) b = ld16 m b.
Proof.
  intros Hd. unfold ld16. f_equal. apply bytes_at_ext. intros x Hx. unfold st16. rewrite store_bytes_spec, length_le.
  case_match eqn:E; [|done]. apply andb_prop in E as [?%Z.leb_le ?%Z.ltb_lt]. lia.
Qed.

(** [lapicstartap] resets the CPU, and twice tells it to start at [addr]; the
    warm reset vector, a segment and an offset, also points there. *)
Lemma lapicstartap_starts apicid addr (s : st) : 0 <= apicid < 256 -> 0 <= addr < 2 ^ 20 -> addr mod 2 ^ 12 = 0 ->
  wp (lapicstartap apicid addr) s (fun _ s' => let l := l_lapic (vars s) in let d := Z.shiftl apicid 24 in
    ipis l (hist s') = ipis l (hist s) ++ [(d, Z.lor (Z.lor INIT LEVEL) ASSERT); (d, Z.lor INIT LEVEL);
                                            (d, Z.lor STARTUP (addr / 2 ^ 12)); (d, Z.lor STARTUP (addr / 2 ^ 12))] /\
    16 * ld16 (l_mem (vars s')) (P2V 0x467 + 2) + ld16 (l_mem (vars s')) (P2V 0x467) = addr).
Proof.
  intros Ha Haddr Hpage. unfold lapicstartap, for_loop. repeat (hw_step || (apply wp_lapicw; cbn [hist vars l_lapic l_mem])).
  cbn [hist vars l_lapic l_mem]. rewrite !Z.shiftr_div_pow2 by lia.
  assert (H12 : 0 <= addr / 2 ^ 12 < 2 ^ 8) by (split; [apply Z.div_pos|apply Z.div_lt_upper_bound]; lia).
  assert (H4 : 0 <= addr / 2 ^ 4 < 2 ^ 16) by (split; [apply Z.div_pos|apply Z.div_lt_upper_bound]; lia).
  rewrite (u32_small (Z.shiftl apicid 24)) by (rewrite Z.shiftl_mul_pow2 by lia; lia).
  rewrite (u32_small (Z.lor STARTUP _)).
  2:{ split; [apply Z.lor_nonneg; unfold STARTUP; lia|]. apply Z.log2_lt_cancel. rewrite Z.log2_lor by (unfold STARTUP; lia). apply Z.max_lub_lt; [done|].
      apply Z.le_lt_trans with (Z.log2 255); [apply Z.log2_le_mono; lia|done]. }
  cbv zeta. split.
  - ipi_eval. reg_eval. cbn [default from_option id ipis]. by rewrite <- !app_assoc.
  - change (P2V (Z.lor (Z.shiftl 0x40 4) 0x67)) with (P2V 0x467). assert (Eu : u16 (addr / 2 ^ 4) = addr / 2 ^ 4) by (by apply Z.mod_small).
    rewrite (ld16_st16_ne _ (P2V 0x467 + 2) _ (P2V 0x467)), Eu, !ld16_st16 by (done || lia). rewrite Z.add_0_r. change (2 ^ 4) with 16. change (2 ^ 12) with 4096 in Hpage.
    Z.div_mod_to_equations. lia.
Qed.
End apic.
