(* ===== verification/Uart.v ===== *)
(** uart.c: the serial line. *)
From S2P Require Import Prelude Layout CString Locks LogRep Fs Hw Ioapic Console.

Definition COM1 : Z := 0x3f8.

(** [uart], and the variables of ioapic.c. *)
Record uvars := mkUart { uart : bool; u_io : iovars }.

Section driver.
Context `{Hardware}.
Local Abbreviation MD := (M (driver uvars)).

Definition on_ioapic {A} : M (driver iovars) A -> MD A :=
  zoom (fun s => mkDriver (hist s) (u_io (vars s))) (fun s' s => mkDriver (hist s') (mkUart (uart (vars s)) (vars s'))).

(** The loop polls until the line is ready, at most 128 times. *)
Definition uartputc (c : Z) : MD unit :=
  let* v := var in
  if negb (uart v) then ret tt
  else
    let* _ := for_loop 128 0 (fun _ =>
      let* r := inb (COM1 + 5) in
      ret (if Z.land r 0x20 =? 0 then None else Some tt)) in
    outb (COM1 + 0) c.

Fixpoint uart_puts (l : bytes) : MD unit :=
  match l with [] => ret tt | c :: l => uartputc c ;; uart_puts l end.

Definition uartinit : MD unit :=
  outb (COM1 + 2) 0 ;;
  outb (COM1 + 3) 0x80 ;;
  outb (COM1 + 0) (115200 / 9600) ;;
  outb (COM1 + 1) 0 ;;
  outb (COM1 + 3) 0x03 ;;
  outb (COM1 + 4) 0 ;;
  outb (COM1 + 1) 0x01 ;;
  let* r := inb (COM1 + 5) in
  if r =? 0xFF then ret tt
  else
    set_var (fun v => mkUart true (u_io v)) ;;
    let* _ := inb (COM1 + 2) in
    let* _ := inb (COM1 + 0) in
    on_ioapic (ioapicenable IRQ_COM1 0) ;;
    uart_puts (str "xv6..." ++ [10]).

Definition uartgetc : MD Z :=
  let* v := var in
  if negb (uart v) then ret (-1)
  else
    let* r := inb (COM1 + 5) in
    if Z.land r 0x01 =? 0 then ret (-1)
    else inb (COM1 + 0).

(** The characters that [consoleintr] takes: until [getc] is negative. *)
Definition uart_drain (fuel : nat) : MD bytes :=
  while_loop fuel [] (fun l =>
    let* c := uartgetc in
    ret (if c <? 0 then inr l else inl (l ++ [c]))).
End driver.

(** [uartintr] on the line and the console. *)
Definition uartintr `{Hardware} (fuel : nat) : M (driver uvars * console) bool :=
  let* cs := zoom fst (fun s p => (s, snd p)) (uart_drain fuel) in
  zoom snd (fun s p => (fst p, s)) (consoleintr cs).

(** * What goes over the line *)

(** The divisor latch is open: the data port holds the speed. *)
Fixpoint latch (h : list event) : bool :=
  match h with
  | Out p v :: h => if p =? COM1 + 3 then Z.testbit v 7 else latch h
  | _ :: h => latch h
  | [] => false
  end.
Fixpoint sent (h : list event) : bytes :=
  match h with
  | Out p v :: h => if (p =? COM1) && negb (latch h) then sent h ++ [v] else sent h
  | _ :: h => sent h
  | [] => []
  end.

(** The bytes that have arrived and not been read. *)
Class UartLaws `{Hardware} := {
  pending : list event -> bytes;
  line_ready h : Z.land (answer h (In (COM1 + 5))) 0x01 = 0 <-> pending h = [];
  line_data h c l : pending h = c :: l -> answer h (In (COM1 + 0)) = c /\ pending (In (COM1 + 0) :: h) = l;
  line_status h : pending (In (COM1 + 5) :: h) = pending h;
  line_bytes h : Forall is_byte (pending h)
}.

Section spec.
Context `{Hardware}.
Local Abbreviation st := (driver uvars).
Local Abbreviation poll := (In (COM1 + 5)).

Lemma latch_polls k h : latch (replicate k poll ++ h) = latch h.
Proof. by induction k. Qed.
Lemma sent_polls k h : sent (replicate k poll ++ h) = sent h.
Proof. by induction k. Qed.
Lemma io_reg_polls k h r : io_reg (replicate k poll ++ h) r = io_reg h r.
Proof. by induction k. Qed.

(** [uartputc] polls at most 128 times, and then sends the byte; if it polled
    less often, the line was ready. *)
Lemma uartputc_spec c (s : st) (Q : unit -> st -> Prop) : uart (vars s) = true ->
  (forall k, (k <= 128)%nat -> ((k < 128)%nat -> exists j, k = S j /\ Z.land (answer (replicate j poll ++ hist s) poll) 0x20 <> 0) ->
     Q tt (mkDriver (Out COM1 (u8 c) :: replicate k poll ++ hist s) (vars s))) ->
  wp (uartputc c) s Q.
Proof.
  intros Hu HQ. unfold uartputc. hw_step. hw_step. rewrite Hu. cbn [negb]. hw_step.
  apply (wp_for_loop (fun i s' => s' = mkDriver (replicate (Z.to_nat i) poll ++ hist s) (vars s))).
  - by destruct s.
  - intros i s' Hi ->. hw_step. hw_step. hw_step. cbn [hist vars].
    replace (Z.to_nat (i + 1)) with (S (Z.to_nat i)) by lia. destruct (Z.eqb_spec (Z.land (answer (replicate (Z.to_nat i) poll ++ hist s) poll) 0x20) 0) as [E|E]; [done|].
    hw_step. change (poll :: replicate (Z.to_nat i) poll ++ hist s) with (replicate (S (Z.to_nat i)) poll ++ hist s).
    apply HQ; [lia|]. intros _. eauto.
  - intros s' ->. hw_step. apply HQ; [lia|]. intros Hk. lia.
Qed.

Lemma wp_uart_puts l : forall (s : st) (Q : unit -> st -> Prop), uart (vars s) = true -> latch (hist s) = false ->
  (forall h, latch h = false -> sent h = sent (hist s) ++ map u8 l -> (forall r, io_reg h r = io_reg (hist s) r) -> Q tt (mkDriver h (vars s))) -> wp (uart_puts l) s Q.
Proof.
  induction l as [|c l IH]; intros s Q Hu Hl HQ; cbn [uart_puts].
  - hw_step. destruct s. apply HQ; [done|by rewrite app_nil_r|done].
  - hw_step. apply uartputc_spec; [done|]. intros k _ _. apply IH; [done|cbn; by rewrite latch_polls|].
    cbn [hist vars]. intros h Hh Hs Hr. apply HQ; [done| |].
    + rewrite Hs. cbn [sent map]. rewrite latch_polls, Hl, sent_polls. change ((COM1 =? COM1) && negb false) with true. cbv iota. by rewrite <- app_assoc.
    + intros r. rewrite Hr. cbn [io_reg]. apply io_reg_polls.
Qed.
End spec.

(** [uartinit] finds out whether there is a line: without one, [uart] stays as
    it is and nothing is sent; with one, it sends its announcement at 9600 baud. *)
Lemma uartinit_spec `{Hardware} (s : driver uvars) : io_ptr (u_io (vars s)) = IOAPIC -> uart (vars s) = false ->
  wp uartinit s (fun _ s' => latch (hist s') = false /\
    if uart (vars s') then sent (hist s') = sent (hist s) ++ str "xv6..." ++ [10] /\ routed (hist s') IRQ_COM1 0
    else sent (hist s') = sent (hist s)).
Proof.
  intros Hp Hu. unfold uartinit. do 16 hw_step. destruct (_ =? 255).
  { hw_step. cbn [vars]. by rewrite Hu. }
  do 6 hw_step. hw_step. unfold on_ioapic, ioapicenable, ioapicwrite. apply wp_zoom. do 11 hw_step. cbn [hist vars u_io uart].
  rewrite Hp. apply wp_uart_puts; [reflexivity|reflexivity|]. cbn [hist vars]. intros h Hl Hs Hr. split; [exact Hl|]. cbn [uart hist vars]. split.
  - rewrite Hs. reflexivity.
  - split; rewrite Hr, !io_reg_write; reflexivity.
Qed.

(** * Receiving *)

Section receive.
Context `{UartLaws}.
Local Abbreviation st := (driver uvars).

Lemma wp_uartgetc (s : st) (Q : Z -> st -> Prop) : uart (vars s) = true ->
  (forall h, match pending (hist s) with
             | [] => pending h = [] -> Q (-1) (mkDriver h (vars s))
             | c :: l => pending h = l -> Q c (mkDriver h (vars s))
             end) -> wp uartgetc s Q.
Proof.
  intros Hu HQ. unfold uartgetc. hw_step. hw_step. rewrite Hu. cbn [negb]. hw_step. hw_step.
  pose proof (line_status (hist s)) as Hst. pose proof (line_ready (hist s)) as Hr.
  destruct (pending (hist s)) as [|c l] eqn:E.
  - rewrite (proj2 Hr eq_refl). change (0 =? 0) with true. cbv iota. hw_step. by apply HQ.
  - rewrite (proj2 (Z.eqb_neq _ _)) by (intros E0; by apply Hr in E0). hw_step. cbn [hist vars].
    destruct (line_data (In (COM1 + 5) :: hist s) c l Hst) as [-> Hl]. by apply HQ.
Qed.

(** Draining the line returns the bytes that wait, in order. *)
Lemma wp_uart_drain (s : st) fuel (Q : bytes -> st -> Prop) : uart (vars s) = true -> (length (pending (hist s)) < fuel)%nat ->
  (forall h, pending h = [] -> Q (pending (hist s)) (mkDriver h (vars s))) -> wp (uart_drain fuel) s Q.
Proof.
  intros Hu Hf HQ. unfold uart_drain.
  apply (wp_while_loop (fun k l s' => vars s' = vars s /\ l ++ pending (hist s') = pending (hist s) /\ (length (pending (hist s')) < k)%nat)).
  - split_and!; [done|done|lia].
  - intros l s' (_ & _ & ?). lia.
  - intros k l s' (Hv & Hl & Hk). hw_step. apply wp_uartgetc; [by rewrite Hv|]. intros h. rewrite Hv.
    pose proof (line_bytes (hist s')) as Hb. destruct (pending (hist s')) as [|c r] eqn:E; intros Hh; hw_step.
    + cbn. rewrite app_nil_r in Hl. subst l. by apply HQ.
    + inversion_clear Hb as [|? ? Hc _]. rewrite (proj2 (Z.ltb_ge _ _)) by (unfold is_byte in Hc; lia).
      cbn [hist vars]. rewrite Hh. split_and!; [done|by rewrite <- app_assoc|cbn in Hk; lia].
Qed.
End receive.

(** [uartintr] hands the console the bytes that wait on the line, in order, and leaves none. *)
Lemma uartintr_types `{UartLaws} fuel (s : driver uvars) con (Q : bool -> driver uvars * console -> Prop) :
  uart (vars s) = true -> (length (pending (hist s)) < fuel)%nat ->
  wp (consoleintr (pending (hist s))) con (fun b con' => forall h, pending h = [] -> Q b (mkDriver h (vars s), con')) ->
  wp (uartintr fuel) (s, con) Q.
Proof.
  intros Hu Hf Hc. unfold uartintr. hw_step. apply wp_zoom. cbn [fst]. apply wp_uart_drain; [done|done|]. intros h Hh.
  apply wp_zoom. cbn [fst snd]. eapply wp_mono; [exact Hc|]. intros b con' HQ. by apply HQ.
Qed.
