(* ===== verification/Cpu.v ===== *)
(** mmu.h, x86.h, vm.c [seginit], [switchkvm], [switchuvm], [kvmalloc] and trap.c [tvinit], [idtinit]:
    the tables that a CPU reads.

    A descriptor is a [struct] of bit fields; [seg_word] and [gate_word] are the
    eight bytes that the CPU sees of it.  [seg_base], [seg_limit], [gate_offset]
    are what the CPU makes of these, as its manual documents it. *)
From S2P Require Import Prelude Layout CString Locks Kalloc Vm.

Definition SEG_KCODE : Z := 1.
Definition SEG_KDATA : Z := 2.
Definition SEG_UCODE : Z := 3.
Definition SEG_UDATA : Z := 4.
Definition SEG_TSS : Z := 5.
Definition NSEGS : Z := 6.
Definition DPL_USER : Z := 3.
Definition STA_X : Z := 0x8.
Definition STA_W : Z := 0x2.
Definition STA_R : Z := 0x2.
Definition STS_T32A : Z := 0x9.
Definition STS_IG32 : Z := 0xE.
Definition STS_TG32 : Z := 0xF.
Definition T_SYSCALL : Z := 64.
Definition KSTACKSIZE : Z := 4096.

Record segdesc := mkSeg {
  lim_15_0 : Z; base_15_0 : Z; base_23_16 : Z; sd_type : Z; sd_s : Z; sd_dpl : Z; sd_p : Z;
  lim_19_16 : Z; avl : Z; sd_rsv1 : Z; db : Z; sd_g : Z; base_31_24 : Z
}.

Definition set_sd_type (t : Z) (d : segdesc) : segdesc :=
  mkSeg (lim_15_0 d) (base_15_0 d) (base_23_16 d) t (sd_s d) (sd_dpl d) (sd_p d)
    (lim_19_16 d) (avl d) (sd_rsv1 d) (db d) (sd_g d) (base_31_24 d).
Definition set_sd_s (x : Z) (d : segdesc) : segdesc :=
  mkSeg (lim_15_0 d) (base_15_0 d) (base_23_16 d) (sd_type d) x (sd_dpl d) (sd_p d)
    (lim_19_16 d) (avl d) (sd_rsv1 d) (db d) (sd_g d) (base_31_24 d).

(** Fields of a bit-field [struct], lowest first: the width and the value. *)
Fixpoint bit_fields (l : list (Z * Z)) : Z :=
  match l with [] => 0 | (w, v) :: l => v mod 2 ^ w + 2 ^ w * bit_fields l end.

Definition seg_word (d : segdesc) : Z :=
  bit_fields [(16, lim_15_0 d); (16, base_15_0 d); (8, base_23_16 d); (4, sd_type d); (1, sd_s d); (2, sd_dpl d); (1, sd_p d);
              (4, lim_19_16 d); (1, avl d); (1, sd_rsv1 d); (1, db d); (1, sd_g d); (8, base_31_24 d)].

Definition SEG (type base lim dpl : Z) : segdesc :=
  mkSeg (Z.land (Z.shiftr lim 12) 0xffff) (Z.land base 0xffff) (Z.land (Z.shiftr base 16) 0xff) type 1 dpl 1
    (Z.shiftr lim 28) 0 0 1 1 (Z.shiftr base 24).
Definition SEG16 (type base lim dpl : Z) : segdesc :=
  mkSeg (Z.land lim 0xffff) (Z.land base 0xffff) (Z.land (Z.shiftr base 16) 0xff) type 1 dpl 1
    (Z.shiftr lim 16) 0 0 1 0 (Z.shiftr base 24).

Record gatedesc := mkGate {
  off_15_0 : Z; gd_cs : Z; gd_args : Z; gd_rsv1 : Z; gd_type : Z; gd_s : Z; gd_dpl : Z; gd_p : Z; off_31_16 : Z
}.
Definition gate_word (g : gatedesc) : Z :=
  bit_fields [(16, off_15_0 g); (16, gd_cs g); (5, gd_args g); (3, gd_rsv1 g); (4, gd_type g); (1, gd_s g); (2, gd_dpl g); (1, gd_p g);
              (16, off_31_16 g)].
Definition SETGATE (istrap : bool) (sel off d : Z) : gatedesc :=
  mkGate (Z.land off 0xffff) sel 0 0 (if istrap then STS_TG32 else STS_IG32) 0 d 1 (Z.shiftr off 16).

(** The fields of [struct taskstate] that are used; its size. *)
Record taskstate := mkTs { ts_esp0 : Z; ts_ss0 : Z; ts_iomb : Z }.
Definition sizeof_taskstate : Z := 104.

(** What the CPU reads from the eight bytes of a descriptor. *)
Definition bits (w a n : Z) : Z := (w / 2 ^ a) mod 2 ^ n.
Definition seg_base (w : Z) : Z := bits w 16 16 + 2 ^ 16 * bits w 32 8 + 2 ^ 24 * bits w 56 8.
Definition seg_limit (w : Z) : Z :=
  let l := bits w 0 16 + 2 ^ 16 * bits w 48 4 in
  if bits w 55 1 =? 1 then l * 4096 + 4095 else l.
Definition seg_type (w : Z) : Z := bits w 40 4.
Definition seg_s (w : Z) : Z := bits w 44 1.
Definition seg_dpl (w : Z) : Z := bits w 45 2.
Definition seg_present (w : Z) : bool := bits w 47 1 =? 1.

(** A CPU: its fields of [struct cpu], the address of [ts] and [gdt], and its registers.
    The registers of tables hold a limit and an address. *)
Record hcpu := mkHcpu {
  gdt : list segdesc; ts : taskstate; ts_addr : Z; gdt_addr : Z;
  gdtr : Z * Z; idtr : Z * Z; tr : Z; cr3 : Z; hc_ncli : Z; hc_intena : bool; hc_if : bool
}.
Definition with_gdt (l : list segdesc) (c : hcpu) : hcpu :=
  mkHcpu l (ts c) (ts_addr c) (gdt_addr c) (gdtr c) (idtr c) (tr c) (cr3 c) (hc_ncli c) (hc_intena c) (hc_if c).
Definition with_ts (t : taskstate) (c : hcpu) : hcpu :=
  mkHcpu (gdt c) t (ts_addr c) (gdt_addr c) (gdtr c) (idtr c) (tr c) (cr3 c) (hc_ncli c) (hc_intena c) (hc_if c).
Definition with_cli (n : Z) (intena fl : bool) (c : hcpu) : hcpu :=
  mkHcpu (gdt c) (ts c) (ts_addr c) (gdt_addr c) (gdtr c) (idtr c) (tr c) (cr3 c) n intena fl.

(** The descriptor [pd] of three 16-bit words that [lgdt] and [lidt] build. *)
Definition table_reg (p size : Z) : Z * Z :=
  let pd0 := u16 (size - 1) in let pd1 := u16 p in let pd2 := u16 (Z.shiftr p 16) in
  (pd0, pd1 + Z.shiftl pd2 16).

Local Abbreviation MC := (M hcpu).
Definition lgdt (p size : Z) : MC unit := modify (fun c =>
  mkHcpu (gdt c) (ts c) (ts_addr c) (gdt_addr c) (table_reg p size) (idtr c) (tr c) (cr3 c) (hc_ncli c) (hc_intena c) (hc_if c)).
Definition lidt (p size : Z) : MC unit := modify (fun c =>
  mkHcpu (gdt c) (ts c) (ts_addr c) (gdt_addr c) (gdtr c) (table_reg p size) (tr c) (cr3 c) (hc_ncli c) (hc_intena c) (hc_if c)).
(** The instruction takes a present descriptor of an available task state, and
    marks it busy. *)
Definition ltr (sel : Z) : MC unit :=
  let* c := get in
  match gdt c !! Z.to_nat (Z.shiftr (u16 sel) 3) with
  | Some d =>
      let w := seg_word d in
      if (seg_s w =? 0) && (seg_type w =? STS_T32A) && seg_present w
      then put (mkHcpu (<[Z.to_nat (Z.shiftr (u16 sel) 3) := set_sd_type 0xB d]> (gdt c)) (ts c) (ts_addr c) (gdt_addr c)
                       (gdtr c) (idtr c) (u16 sel) (cr3 c) (hc_ncli c) (hc_intena c) (hc_if c))
      else fault
  | None => fault
  end.
Definition lcr3 (val : Z) : MC unit := modify (fun c =>
  mkHcpu (gdt c) (ts c) (ts_addr c) (gdt_addr c) (gdtr c) (idtr c) (tr c) val (hc_ncli c) (hc_intena c) (hc_if c)).

Definition set_seg (i : Z) (d : segdesc) : MC unit := modify (fun c => with_gdt (<[Z.to_nat i := d]> (gdt c)) c).

Definition seginit : MC unit :=
  set_seg SEG_KCODE (SEG (Z.lor STA_X STA_R) 0 0xffffffff 0) ;;
  set_seg SEG_KDATA (SEG STA_W 0 0xffffffff 0) ;;
  set_seg SEG_UCODE (SEG (Z.lor STA_X STA_R) 0 0xffffffff DPL_USER) ;;
  set_seg SEG_UDATA (SEG STA_W 0 0xffffffff DPL_USER) ;;
  let* c := get in
  lgdt (gdt_addr c) (8 * NSEGS).

Definition hw_pushcli : MC unit := modify (fun c =>
  with_cli (hc_ncli c + 1) (if hc_ncli c =? 0 then hc_if c else hc_intena c) false c).
Definition hw_popcli : MC unit :=
  let* c := get in
  if hc_if c then panic "popcli - interruptible"
  else if hc_ncli c - 1 <? 0 then panic "popcli"
  else put (with_cli (hc_ncli c - 1) (hc_intena c) (if (hc_ncli c - 1 =? 0) && hc_intena c then true else hc_if c) c).

Definition switchkvm (kpgdir : Z) : MC unit := lcr3 (V2P kpgdir).

(** [p->kstack] and [p->pgdir] of the process, [None] for a null pointer. *)
Definition switchuvm (p : option (Z * Z)) : MC unit :=
  match p with
  | None => panic "switchuvm: no process"
  | Some (kstack, pgdir) =>
      if kstack =? 0 then panic "switchuvm: no kstack"
      else if pgdir =? 0 then panic "switchuvm: no pgdir"
      else
        hw_pushcli ;;
        let* c := get in
        set_seg SEG_TSS (SEG16 STS_T32A (ts_addr c) (sizeof_taskstate - 1) 0) ;;
        modify (fun c => with_gdt (alter (set_sd_s 0) (Z.to_nat SEG_TSS) (gdt c)) c) ;;
        modify (fun c => with_ts (mkTs (ts_esp0 (ts c)) (Z.shiftl SEG_KDATA 3) (ts_iomb (ts c))) c) ;;
        modify (fun c => with_ts (mkTs (u32 (kstack + KSTACKSIZE)) (ts_ss0 (ts c)) (ts_iomb (ts c))) c) ;;
        modify (fun c => with_ts (mkTs (ts_esp0 (ts c)) (ts_ss0 (ts c)) 0xFFFF) c) ;;
        ltr (Z.shiftl SEG_TSS 3) ;;
        lcr3 (V2P pgdir) ;;
        hw_popcli
  end.

(** [tvinit] on the table [idt], for the addresses [vectors]. *)
Definition tvinit (vectors : Z -> Z) : M (list gatedesc) unit :=
  let* _ := for_loop 256 0 (fun i =>
    modify (<[Z.to_nat i := SETGATE false (Z.shiftl SEG_KCODE 3) (vectors i) 0]>) ;; ret (None : option unit)) in
  modify (<[Z.to_nat T_SYSCALL := SETGATE true (Z.shiftl SEG_KCODE 3) (vectors T_SYSCALL) DPL_USER]>).

Definition idtinit (idt : Z) : MC unit := lidt idt (8 * 256).

(** * What the CPU makes of the tables *)

Definition gate_offset (w : Z) : Z := bits w 0 16 + 2 ^ 16 * bits w 48 16.
Definition gate_selector (w : Z) : Z := bits w 16 16.
Definition gate_dpl (w : Z) : Z := bits w 45 2.
Definition gate_type (w : Z) : Z := bits w 40 4.

(** The descriptor of a selector, in the table that [gdtr] names. *)
Definition gdt_word (c : hcpu) (sel : Z) : option Z :=
  let i := Z.shiftr sel 3 in
  if (snd (gdtr c) =? gdt_addr c) && (8 * i + 7 <=? fst (gdtr c))
  then seg_word <$> gdt c !! Z.to_nat i else None.

(** What a trap makes of the registers: the privilege level, the code and the
    stack segment with their offsets, and whether interrupts stay enabled. *)
Record entry := mkEntry { en_cpl : Z; en_cs : Z; en_eip : Z; en_ss : Z; en_esp : Z; en_if : bool }.

(** Trap [n] in user mode, [soft] if by an [int] instruction, with the gates [t]
    at address [at_]; [None] if the CPU cannot take it.  The gate must be present
    and, for [int], open to user code.  It leads to a code segment, whose level
    is the new one.  The new stack comes from the task state: its segment must
    be a present one of a task state, over the memory that holds [ts], and the
    stack segment a writable one of the new level. *)
Definition trap_user (t : list gatedesc) (at_ : Z) (c : hcpu) (soft : bool) (n : Z) : option entry :=
  if negb ((snd (idtr c) =? at_) && (8 * n + 7 <=? fst (idtr c))) then None else
  g ← t !! Z.to_nat n;
  let w := gate_word g in
  if negb ((bits w 47 1 =? 1) && (bits w 44 1 =? 0) && ((gate_type w =? 0xE) || (gate_type w =? 0xF)) &&
           (negb soft || (3 <=? gate_dpl w))) then None else
  cs ← gdt_word c (gate_selector w);
  if negb (seg_present cs && (seg_s cs =? 1) && (Z.land (seg_type cs) 0xC =? 0x8) && (seg_dpl cs <? 3)) then None else
  tss ← gdt_word c (tr c);
  if negb (seg_present tss && (seg_s tss =? 0) && (seg_type tss =? 0xB) && (11 <=? seg_limit tss) &&
           (seg_base tss =? ts_addr c)) then None else
  ss ← gdt_word c (ts_ss0 (ts c));
  if negb (seg_present ss && (seg_s ss =? 1) && (Z.land (seg_type ss) 0xA =? 0x2) && (seg_dpl ss =? seg_dpl cs)) then None else
  Some (mkEntry (seg_dpl cs) (gate_selector w) (seg_base cs + gate_offset w) (ts_ss0 (ts c)) (ts_esp0 (ts c)) (gate_type w =? 0xF)).

(** The segment of the selector in [tr]; an I/O instruction on [port] at a level above
    [iopl] needs a bit of the map at [iomb], inside the segment's limit. *)
Definition io_allowed (c : hcpu) (cpl iopl port : Z) : bool :=
  (cpl <=? iopl) ||
  match gdt_word c (tr c) with
  | Some w => ts_iomb (ts c) + port / 8 <=? seg_limit w
  | None => false
  end.

(** ** Bit fields *)

Fixpoint width_of (l : list (Z * Z)) : Z := match l with [] => 0 | (w, _) :: l => w + width_of l end.

Lemma bit_fields_range l : Forall (fun x => 0 <= fst x) l -> 0 <= bit_fields l < 2 ^ width_of l /\ 0 <= width_of l.
Proof.
  induction 1 as [|[w v] l Hw Hl [IH IHw]]; [done|]. cbn in *. split; [|lia]. rewrite Z.pow_add_r by lia.
  pose proof (Z.mod_pos_bound v (2 ^ w)). assert (0 < 2 ^ w) by (apply Z.pow_pos_nonneg; lia). nia.
Qed.

Lemma bit_fields_app l1 l2 : Forall (fun x => 0 <= fst x) l1 -> bit_fields (l1 ++ l2) = bit_fields l1 + 2 ^ width_of l1 * bit_fields l2.
Proof.
  induction 1 as [|[w v] l Hw Hl IH]; [cbn; lia|]. change (bit_fields (((w, v) :: l) ++ l2)) with (v mod 2 ^ w + 2 ^ w * bit_fields (l ++ l2)).
  rewrite IH. destruct (bit_fields_range l Hl) as [_ Hp]. cbn in *. rewrite Z.pow_add_r by lia. ring.
Qed.

(** A field is found at its offset. *)
Lemma bits_field l1 w v l2 : forallb (fun x => 0 <=? fst x) (l1 ++ (w, v) :: l2) = true ->
  bits (bit_fields (l1 ++ (w, v) :: l2)) (width_of l1) w = v mod 2 ^ w.
Proof.
  intros Hb. assert (H : Forall (fun x => 0 <= fst x) (l1 ++ (w, v) :: l2)).
  { apply Forall_forall. intros x Hx%list_elem_of_In. apply Z.leb_le. exact (proj1 (forallb_forall _ _) Hb x Hx). }
  apply Forall_app in H as [H1 H2]. inversion_clear H2 as [|? ? Hw H3]. cbn in Hw.
  rewrite bit_fields_app by done. unfold bits. destruct (bit_fields_range l1 H1) as [Hr Hp].
  assert (0 < 2 ^ width_of l1) by (apply Z.pow_pos_nonneg; lia). assert (0 < 2 ^ w) by (apply Z.pow_pos_nonneg; lia).
  rewrite Z.add_comm, Z.mul_comm, Z.div_add_l, Z.div_small, Z.add_0_r by lia. cbn [bit_fields].
  rewrite Z.mul_comm, Z.mod_add, Z.mod_mod by lia. done.
Qed.

(** Rewrites the reading of field [n]. *)
Ltac field_at n := match goal with |- context [bits (bit_fields ?l) _ _] =>
  let l1 := eval cbv [take] in (take n l) in
  let l2 := eval cbv [drop] in (drop n l) in
  let a := eval vm_compute in (width_of l1) in
  match l2 with (?w, ?v) :: ?post => change (bits (bit_fields l) a w) with (bits (bit_fields (l1 ++ (w, v) :: post)) (width_of l1) w);
    rewrite (bits_field l1 w v post) by reflexivity end end.

Lemma halves_land v : 0 <= v -> Z.land v 0xffff mod 2 ^ 16 = v mod 2 ^ 16 /\ Z.land (Z.shiftr v 16) 0xff mod 2 ^ 8 = (v / 2 ^ 16) mod 2 ^ 8.
Proof.
  intros Hv. change 0xffff with (Z.ones 16). change 0xff with (Z.ones 8). rewrite !Z.land_ones, !Z.mod_mod, Z.shiftr_div_pow2 by lia. done.
Qed.

Lemma seg_base_word d base : 0 <= base < 2 ^ 32 -> base_15_0 d = Z.land base 0xffff -> base_23_16 d = Z.land (Z.shiftr base 16) 0xff ->
  base_31_24 d = Z.shiftr base 24 -> seg_base (seg_word d) = base.
Proof.
  intros Hb E1 E2 E3. unfold seg_base, seg_word. field_at 1%nat. field_at 2%nat. field_at 12%nat. rewrite E1, E2, E3.
  destruct (halves_land base (proj1 Hb)) as [-> ->]. rewrite Z.shiftr_div_pow2 by lia.
  change (2 ^ 16) with 65536. change (2 ^ 8) with 256. change (2 ^ 24) with 16777216. change (2 ^ 32) with 4294967296 in Hb.
  Z.div_mod_to_equations. lia.
Qed.

(** The CPU reads back the base and the limit of a descriptor, the limit rounded up to whole pages. *)
Lemma SEG_roundtrip t base lim dpl : 0 <= base < 2 ^ 32 -> 0 <= lim < 2 ^ 32 ->
  seg_base (seg_word (SEG t base lim dpl)) = base /\ seg_limit (seg_word (SEG t base lim dpl)) = lim / 4096 * 4096 + 4095.
Proof.
  intros Hb Hl. split; [by apply seg_base_word|]. unfold seg_limit, seg_word. field_at 11%nat. cbn [sd_g SEG].
  change (1 mod 2 ^ 1 =? 1) with true. cbv iota zeta. field_at 0%nat. field_at 7%nat. cbn [lim_15_0 lim_19_16 SEG].
  change 0xffff with (Z.ones 16). rewrite Z.land_ones, !Z.shiftr_div_pow2, Z.mod_mod by lia.
  change (2 ^ 16) with 65536. change (2 ^ 12) with 4096. change (2 ^ 28) with 268435456. change (2 ^ 4) with 16. change (2 ^ 32) with 4294967296 in Hl.
  Z.div_mod_to_equations. lia.
Qed.

Lemma SEG16_roundtrip t base lim dpl : 0 <= base < 2 ^ 32 -> 0 <= lim < 2 ^ 20 ->
  seg_base (seg_word (SEG16 t base lim dpl)) = base /\ seg_limit (seg_word (SEG16 t base lim dpl)) = lim.
Proof.
  intros Hb Hl. split; [by apply seg_base_word|]. unfold seg_limit, seg_word. field_at 11%nat. cbn [sd_g SEG16].
  change (0 mod 2 ^ 1 =? 1) with false. cbv iota zeta. field_at 0%nat. field_at 7%nat. cbn [lim_15_0 lim_19_16 SEG16].
  change 0xffff with (Z.ones 16). rewrite Z.land_ones, !Z.shiftr_div_pow2, Z.mod_mod by lia.
  change (2 ^ 16) with 65536. change (2 ^ 4) with 16. change (2 ^ 20) with 1048576 in Hl. Z.div_mod_to_equations. lia.
Qed.

Lemma SETGATE_roundtrip istrap sel off d : 0 <= off < 2 ^ 32 -> 0 <= sel < 2 ^ 16 -> 0 <= d < 4 ->
  let w := gate_word (SETGATE istrap sel off d) in
  gate_offset w = off /\ gate_selector w = sel /\ gate_dpl w = d /\ gate_type w = (if istrap then STS_TG32 else STS_IG32) /\ bits w 47 1 = 1 /\ bits w 44 1 = 0.
Proof.
  intros Ho Hs Hd w. unfold w, gate_offset, gate_selector, gate_dpl, gate_type, gate_word.
  field_at 0%nat. field_at 8%nat. field_at 1%nat. field_at 6%nat. field_at 4%nat. field_at 7%nat. field_at 5%nat. cbn [SETGATE off_15_0 off_31_16 gd_cs gd_dpl gd_type gd_p gd_s].
  split_and!; [|apply Z.mod_small; lia|apply Z.mod_small; lia|by destruct istrap|done|done].
  change 0xffff with (Z.ones 16). rewrite Z.land_ones, !Z.shiftr_div_pow2, Z.mod_mod by lia.
  change (2 ^ 16) with 65536. change (2 ^ 32) with 4294967296 in Ho. Z.div_mod_to_equations. lia.
Qed.

(** ** The initial tables *)

(** [kvmalloc] on the memory and the CPU; its result is [kpgdir]. *)
Definition kvmalloc (kend kdata : Z) : M (vmem * hcpu) Z :=
  let* kpgdir := zoom fst (fun v s => (v, snd s)) (setupkvm kend kdata) in
  zoom snd (fun c s => (fst s, c)) (switchkvm kpgdir) ;;
  ret kpgdir.

Lemma wp_tvinit vectors (idt : list gatedesc) (Q : unit -> list gatedesc -> Prop) : length idt = 256%nat ->
  (forall idt', (forall n, 0 <= n < 256 -> idt' !! Z.to_nat n =
       Some (SETGATE (n =? T_SYSCALL) (Z.shiftl SEG_KCODE 3) (vectors n) (if n =? T_SYSCALL then DPL_USER else 0))) -> Q tt idt') ->
  wp (tvinit vectors) idt Q.
Proof.
  intros Hlen HQ. unfold tvinit. wp_step.
  apply (wp_for_loop (fun i t => length t = 256%nat /\ forall n, 0 <= n < i -> t !! Z.to_nat n = Some (SETGATE false (Z.shiftl SEG_KCODE 3) (vectors n) 0))).
  - split; [done|]. intros n Hn. lia.
  - intros i t Hi [Ht Hn]. wp_step. wp_step. wp_step. split; [by rewrite length_insert|]. intros n Hlt.
    destruct (decide (n = i)) as [->|Hne]; [by rewrite list_lookup_insert_eq by lia|]. rewrite list_lookup_insert_ne by lia. apply Hn. lia.
  - intros t [Ht Hn]. wp_step. apply HQ. intros n Hlt. destruct (Z.eqb_spec n T_SYSCALL) as [->|Hne].
    + by rewrite list_lookup_insert_eq by (rewrite Ht; unfold T_SYSCALL; lia).
    + rewrite list_lookup_insert_ne by (unfold T_SYSCALL in *; lia). apply Hn. lia.
Qed.

Ltac cpu_step := wp_step;
  cbn [gdt ts ts_addr gdt_addr gdtr idtr tr cr3 hc_ncli hc_intena hc_if with_cli with_gdt with_ts ts_esp0 ts_ss0 ts_iomb].

(** The tables of a CPU after [seginit] and [idtinit]: flat segments of the
    kernel and of the user, and the registers of the tables. *)
Record tables (at_ : Z) (c : hcpu) : Prop := {
  tb_gdtr : gdtr c = (8 * NSEGS - 1, gdt_addr c);
  tb_idtr : idtr c = (8 * 256 - 1, at_);
  tb_gdt : exists d0 d5, gdt c = [d0; SEG (Z.lor STA_X STA_R) 0 0xffffffff 0; SEG STA_W 0 0xffffffff 0;
    SEG (Z.lor STA_X STA_R) 0 0xffffffff DPL_USER; SEG STA_W 0 0xffffffff DPL_USER; d5]
}.

Lemma table_reg_spec p size : 0 <= p < 2 ^ 32 -> 0 < size <= 2 ^ 16 -> table_reg p size = (size - 1, p).
Proof.
  intros Hp Hs. unfold table_reg. rewrite Z.shiftr_div_pow2, Z.shiftl_mul_pow2 by lia. unfold u16.
  change (2 ^ 16) with 65536 in *. change (2 ^ 32) with 4294967296 in Hp. f_equal; Z.div_mod_to_equations; lia.
Qed.

Lemma wp_seginit at_ (c : hcpu) (Q : unit -> hcpu -> Prop) :
  length (gdt c) = Z.to_nat NSEGS -> 0 <= gdt_addr c < 2 ^ 32 -> 0 <= at_ < 2 ^ 32 ->
  (forall c', tables at_ c' -> ts_addr c' = ts_addr c -> hc_ncli c' = hc_ncli c -> hc_if c' = hc_if c -> Q tt c') ->
  wp (seginit ;; idtinit at_) c Q.
Proof.
  intros Hl Hg Ha HQ. unfold seginit, set_seg, lgdt, idtinit, lidt. repeat cpu_step. apply HQ; [|done..]. split.
  - by apply table_reg_spec.
  - by apply table_reg_spec.
  - cbn [gdt with_gdt]. destruct (gdt c) as [|d0 [|d1 [|d2 [|d3 [|d4 [|d5 [|]]]]]]]; try done. by exists d0, d5.
Qed.

(** The descriptor of the task state that [switchuvm] makes and [ltr] marks. *)
Definition tss_desc (addr : Z) : segdesc := set_sd_type 0xB (set_sd_s 0 (SEG16 STS_T32A addr (sizeof_taskstate - 1) 0)).

(** What [switchuvm] leaves. *)
Record user_cpu (at_ : Z) (c : hcpu) (kstack pgdir : Z) (c' : hcpu) : Prop := {
  uc_tables : tables at_ c';
  uc_tss : gdt_word c' (tr c') = Some (seg_word (tss_desc (ts_addr c')));
  uc_ts : ts c' = mkTs (u32 (kstack + KSTACKSIZE)) (Z.shiftl SEG_KDATA 3) 0xFFFF;
  uc_cr3 : cr3 c' = V2P pgdir;
  uc_addr : ts_addr c' = ts_addr c;
  uc_ncli : hc_ncli c' = hc_ncli c;
  uc_if : hc_if c' = hc_if c
}.

(** The count of [pushcli] and the interrupt flag. *)
Definition cli_ok (c : hcpu) : Prop := 0 <= hc_ncli c /\ (0 < hc_ncli c -> hc_if c = false).

(** [ltr] accepts the descriptor of [switchuvm]. *)
Lemma tss_available addr : let w := seg_word (set_sd_s 0 (SEG16 STS_T32A addr (sizeof_taskstate - 1) 0)) in
  (seg_s w =? 0) && (seg_type w =? STS_T32A) && seg_present w = true.
Proof. intros w. unfold w, seg_s, seg_type, seg_present, seg_word. field_at 4%nat. field_at 3%nat. field_at 6%nat. done. Qed.

Lemma wp_switchuvm at_ (c : hcpu) kstack pgdir (Q : unit -> hcpu -> Prop) : kstack <> 0 -> pgdir <> 0 -> tables at_ c -> cli_ok c ->
  (forall c', user_cpu at_ c kstack pgdir c' -> Q tt c') -> wp (switchuvm (Some (kstack, pgdir))) c Q.
Proof.
  intros Hk Hp [Hg Hi (d0 & d5 & Hd)] [Hn Hif] HQ. unfold switchuvm. rewrite !(proj2 (Z.eqb_neq _ _)) by done.
  unfold hw_pushcli, set_seg, lcr3, hw_popcli. do 7 cpu_step. unfold ltr. repeat cpu_step. rewrite Hd.
  change (Z.to_nat (Z.shiftr (u16 (Z.shiftl SEG_TSS 3)) 3)) with 5%nat. change (Z.to_nat SEG_TSS) with 5%nat. cbn [lookup list_lookup insert list_insert alter list_alter].
  rewrite tss_available. repeat cpu_step.
  replace (hc_ncli c + 1 - 1) with (hc_ncli c) by lia. rewrite (proj2 (Z.ltb_ge _ _)) by lia. wp_step. apply HQ.
  split; try done; [by split; [done..|eexists _, _]| |].
  - unfold gdt_word. cbn [gdtr gdt_addr tr gdt with_cli ts_addr]. rewrite Hg. cbn [fst snd]. rewrite Z.eqb_refl. done.
  - cbn [hc_if with_cli]. destruct (Z.eqb_spec (hc_ncli c) 0); cbn; [by destruct (hc_if c)|]. symmetry. apply Hif. lia.
Qed.

(** A selector of a segment over the whole address space. *)
Definition flat_segment (c : hcpu) (sel type dpl : Z) : Prop :=
  exists w, gdt_word c sel = Some w /\ seg_present w = true /\ seg_s w = 1 /\ seg_type w = type /\ seg_dpl w = dpl /\
    seg_base w = 0 /\ seg_limit w = 2 ^ 32 - 1.

Lemma tables_word at_ c sel : tables at_ c -> Z.shiftr sel 3 <= 5 -> gdt_word c sel = seg_word <$> gdt c !! Z.to_nat (Z.shiftr sel 3).
Proof.
  intros [Hg _ _] Hs. unfold gdt_word. rewrite Hg. cbn [fst snd]. rewrite Z.eqb_refl, (proj2 (Z.leb_le _ _)); [done|]. unfold NSEGS. lia.
Qed.

Lemma tables_flat at_ c : tables at_ c ->
  flat_segment c (Z.shiftl SEG_KCODE 3) (Z.lor STA_X STA_R) 0 /\ flat_segment c (Z.shiftl SEG_KDATA 3) STA_W 0 /\
  flat_segment c (Z.lor (Z.shiftl SEG_UCODE 3) DPL_USER) (Z.lor STA_X STA_R) 3 /\
  flat_segment c (Z.lor (Z.shiftl SEG_UDATA 3) DPL_USER) STA_W 3.
Proof.
  intros Ht. pose proof (tb_gdt _ _ Ht) as (d0 & d5 & E). unfold flat_segment.
  split_and!; (eexists; split; [rewrite (tables_word _ _ _ Ht) by done; rewrite E; reflexivity|by vm_compute]).
Qed.

Lemma tss_word addr : 0 <= addr < 2 ^ 32 -> let w := seg_word (tss_desc addr) in
  seg_present w = true /\ seg_s w = 0 /\ seg_type w = 0xB /\ seg_limit w = sizeof_taskstate - 1 /\ seg_base w = addr.
Proof.
  intros Ha w. unfold w. split_and!; [..|by apply seg_base_word]; unfold seg_present, seg_s, seg_type, seg_limit, seg_word.
  - by field_at 6%nat.
  - by field_at 4%nat.
  - by field_at 3%nat.
  - field_at 11%nat. field_at 0%nat. field_at 7%nat. done.
Qed.

(** How a trap in user mode enters the kernel. *)
Lemma user_trap at_ t c c' kstack pgdir istrap off d soft n : user_cpu at_ c kstack pgdir c' -> 0 <= ts_addr c < 2 ^ 32 ->
  0 <= off < 2 ^ 32 -> 0 <= d < 4 -> 0 <= n < 256 -> t !! Z.to_nat n = Some (SETGATE istrap (Z.shiftl SEG_KCODE 3) off d) ->
  trap_user t at_ c' soft n =
  if negb soft || (3 <=? d) then Some (mkEntry 0 (Z.shiftl SEG_KCODE 3) off (Z.shiftl SEG_KDATA 3) (u32 (kstack + KSTACKSIZE)) istrap) else None.
Proof.
  intros [Ht Htss Hts _ Haddr _ _] Ha Ho Hd Hn Eg. destruct (tables_flat _ _ Ht) as ((wc & Ec & C1 & C2 & C3 & C4 & C5 & _) & (wd & Ed & D1 & D2 & D3 & D4 & _) & _).
  rewrite <- Haddr in Ha. destruct (tss_word _ Ha) as (T1 & T2 & T3 & T4 & T5).
  destruct (SETGATE_roundtrip istrap (Z.shiftl SEG_KCODE 3) off d) as (Go & Gs & Gd & Gt & Gp & Gsy); [done|done|done|].
  unfold trap_user. rewrite (tb_idtr _ _ Ht). cbn [fst snd]. rewrite Z.eqb_refl, (proj2 (Z.leb_le _ _)) by lia. cbn [negb andb].
  rewrite Eg. cbn [mbind option_bind]. rewrite Gp, Gsy, Gt, Gd, Gs, Go, Ec, Hts, Htss. cbn [ts_ss0 ts_esp0 mbind option_bind]. rewrite Ed.
  cbn [mbind option_bind]. rewrite C1, C2, C3, C4, C5, D1, D2, D3, D4, T1, T2, T3, T4, T5, (Z.eqb_refl (ts_addr _)).
  by destruct istrap, soft, (3 <=? d).
Qed.

Lemma io_denied at_ c c' kstack pgdir port : user_cpu at_ c kstack pgdir c' -> 0 <= ts_addr c < 2 ^ 32 -> 0 <= port -> io_allowed c' 3 0 port = false.
Proof.
  intros [_ Htss Hts _ Haddr _ _] Ha Hp. unfold io_allowed. rewrite Htss, Hts. rewrite <- Haddr in Ha. destruct (tss_word _ Ha) as (_ & _ & _ & -> & _).
  change (3 <=? 0) with false. cbn [ts_iomb orb]. apply Z.leb_gt. pose proof (Z.div_pos port 8). unfold sizeof_taskstate. lia.
Qed.

(** The switches of a scheduler: to a process and back, for each of a list of
    kernel stacks and page tables. *)
Fixpoint switches (kpgdir : Z) (l : list (Z * Z)) : MC unit :=
  match l with
  | [] => ret tt
  | p :: l => switchuvm (Some p) ;; switchkvm kpgdir ;; switches kpgdir l
  end.

Lemma wp_switches at_ kpgdir l (c : hcpu) (Q : unit -> hcpu -> Prop) : Forall (fun p => fst p <> 0 /\ snd p <> 0) l -> tables at_ c -> cli_ok c ->
  (forall c', tables at_ c' -> ts_addr c' = ts_addr c -> hc_ncli c' = hc_ncli c -> hc_if c' = hc_if c -> Q tt c') -> wp (switches kpgdir l) c Q.
Proof.
  intros Hl. revert c. induction Hl as [|[ks pd] l [Hk Hp] Hl IH]; intros c Ht Hc HQ; cbn [switches]; [wp_step; by apply HQ|].
  wp_step. apply (wp_switchuvm at_); [done..|]. intros c1 [Ht1 _ _ _ Ha1 Hn1 Hi1]. unfold switchkvm, lcr3. wp_step. wp_step.
  apply IH; [by destruct Ht1; split|unfold cli_ok; cbn; by rewrite Hn1, Hi1|]. cbn. intros c' H1 H2 H3 H4. apply HQ; [done|congruence..].
Qed.

(** C12: User code is confined by the tables.  A CPU runs [seginit] and [idtinit],
    with the gates that [tvinit] made, then switches to any number of processes
    and back, and then to a process by [switchuvm].  Now the segments of the
    kernel and of the user span the address space at their own levels, 0 and 3.
    Every trap in user mode is taken: it enters the kernel's code segment at its
    vector with level 0, on the top of the process's kernel stack in the
    kernel's data segment, with interrupts off except for system calls; and an
    [int] instruction is taken for system calls only.  The process's page table
    is loaded, user code may use no I/O port, and the interrupt flag and the
    count of [pushcli] are as they were. *)
Theorem user_confined vectors idt at_ kpgdir prev c kstack pgdir : (forall n, 0 <= vectors n < 2 ^ 32) -> length idt = 256%nat ->
  length (gdt c) = Z.to_nat NSEGS -> 0 <= gdt_addr c < 2 ^ 32 -> 0 <= ts_addr c < 2 ^ 32 -> 0 <= at_ < 2 ^ 32 -> cli_ok c ->
  Forall (fun p => fst p <> 0 /\ snd p <> 0) prev -> 0 < kstack -> kstack + KSTACKSIZE < 2 ^ 32 -> pgdir <> 0 ->
  wp (tvinit vectors) idt (fun _ idt' =>
    wp ((seginit ;; idtinit at_) ;; switches kpgdir prev ;; switchuvm (Some (kstack, pgdir))) c (fun _ c' =>
      (flat_segment c' (Z.shiftl SEG_KCODE 3) (Z.lor STA_X STA_R) 0 /\ flat_segment c' (Z.shiftl SEG_KDATA 3) STA_W 0 /\
       flat_segment c' (Z.lor (Z.shiftl SEG_UCODE 3) DPL_USER) (Z.lor STA_X STA_R) 3 /\
       flat_segment c' (Z.lor (Z.shiftl SEG_UDATA 3) DPL_USER) STA_W 3) /\
      (forall n, 0 <= n < 256 ->
         let e := mkEntry 0 (Z.shiftl SEG_KCODE 3) (vectors n) (Z.shiftl SEG_KDATA 3) (kstack + KSTACKSIZE) (n =? T_SYSCALL) in
         trap_user idt' at_ c' false n = Some e /\ trap_user idt' at_ c' true n = if n =? T_SYSCALL then Some e else None) /\
      (forall port, 0 <= port -> io_allowed c' 3 0 port = false) /\
      cr3 c' = V2P pgdir /\ hc_if c' = hc_if c /\ hc_ncli c' = hc_ncli c)).
Proof.
  intros Hv Hlen Hg Hga Ha Hat Hc Hprev Hk Hks Hp. apply wp_tvinit; [done|]. intros idt' Hidt.
  wp_step. apply wp_seginit; [done..|]. intros c1 Ht1 Ea1 En1 Ei1.
  assert (Hc1 : cli_ok c1) by (unfold cli_ok; by rewrite En1, Ei1).
  wp_step. apply (wp_switches at_); [done..|]. intros c2 Ht2 Ea2 En2 Ei2.
  assert (Hc2 : cli_ok c2) by (unfold cli_ok; by rewrite En2, Ei2).
  apply (wp_switchuvm at_); [lia|done..|]. intros c' Hc'. rewrite <- Ea1, <- Ea2 in Ha.
  split; [eapply tables_flat, Hc'|]. split; [|split; [intros port Hport; by eapply io_denied|]].
  - intros n Hn. pose proof (Hidt n Hn) as E. assert (Hd : 0 <= (if n =? T_SYSCALL then DPL_USER else 0) < 4) by (by case_match).
    rewrite !(user_trap _ _ _ _ _ _ _ _ _ _ _ Hc' Ha (Hv n) Hd Hn E). rewrite u32_small by (unfold KSTACKSIZE in *; lia).
    split; [done|]. by destruct (n =? T_SYSCALL).
  - destruct Hc'. split_and!; congruence.
Qed.

Definition fresh_cpu : hcpu :=
  mkHcpu (replicate 6 (mkSeg 0 0 0 0 0 0 0 0 0 0 0 0 0)) (mkTs 0 0 0) 0x80112000 0x80112100 (0, 0) (0, 0) 0 0 0 false true.

(** The gates of traps at 0x80105000 and on; two processes ran before. *)
Lemma user_confined_witness :
  wp (tvinit (fun n => 0x80105000 + n mod 256)) (replicate 256 (SETGATE false 0 0 0)) (fun _ idt' =>
    wp ((seginit ;; idtinit 0x80114000) ;; switches 0x803ff000 [(0x8dff0000, 0x8dff1000); (0x8dff2000, 0x8dff3000)] ;;
        switchuvm (Some (0x8dfff000, 0x8dffe000))) fresh_cpu (fun _ c' =>
      trap_user idt' 0x80114000 c' false 14 = Some (mkEntry 0 8 0x8010500e 16 0x8e000000 false) /\
      trap_user idt' 0x80114000 c' true 14 = None /\ io_allowed c' 3 0 0x1f0 = false /\ hc_if c' = true)).
Proof.
  eapply wp_mono; [refine (user_confined (fun n => 0x80105000 + n mod 256) (replicate 256 (SETGATE false 0 0 0)) 0x80114000 0x803ff000
    [(0x8dff0000, 0x8dff1000); (0x8dff2000, 0x8dff3000)] fresh_cpu 0x8dfff000 0x8dffe000 _ _ _ _ _ _ _ _ _ _ _)|].
  - intros n. pose proof (Z.mod_pos_bound n 256 eq_refl). lia.
  - reflexivity.
  - reflexivity.
  - cbn [gdt_addr fresh_cpu]. lia.
  - cbn [ts_addr fresh_cpu]. lia.
  - lia.
  - split; cbn [hc_ncli fresh_cpu]; lia.
  - repeat constructor; cbn; lia.
  - lia.
  - reflexivity.
  - lia.
  - intros u idt' Hw. eapply wp_mono; [exact Hw|]. intros u' c' (_ & Ht & Hio & _ & Hif & _). destruct (Ht 14 ltac:(lia)) as [E1 E2].
    split_and!; [exact E1|exact E2|apply Hio; lia|rewrite Hif; reflexivity].
Defined.
