(* ===== verification/Asm.v ===== *)
(** vectors.pl, trapasm.S and swtch.S: the assembly code that enters and leaves the kernel
    and that switches between kernel stacks.

    The code is a list of instructions of the subset of x86 that it uses, run
    on the registers and the 32-bit words of memory.  All its accesses are of
    aligned words.  What the CPU does on a trap and on [iret] is as its manual
    documents it. *)
From S2P Require Import Prelude Layout CString Locks Kalloc Vm Cpu.

Record regs := mkRegs {
  eax : Z; ecx : Z; edx : Z; ebx : Z; esp : Z; ebp : Z; esi : Z; edi : Z;
  eip : Z; cs : Z; ds : Z; es : Z; fs : Z; gs : Z; ss : Z; eflags : Z
}.
Record mach := mkMach { rg : regs; wm : Z -> Z }.

Inductive reg := EAX | ECX | EDX | EBX | ESP | EBP | ESI | EDI.
Inductive sreg := DS | ES | FS | GS.

Definition getr (r : reg) (g : regs) : Z :=
  match r with EAX => eax g | ECX => ecx g | EDX => edx g | EBX => ebx g | ESP => esp g | EBP => ebp g | ESI => esi g | EDI => edi g end.
Definition setr (r : reg) (v : Z) (g : regs) : regs :=
  let f r' := if match r, r' with
                 | EAX, EAX | ECX, ECX | EDX, EDX | EBX, EBX | ESP, ESP | EBP, EBP | ESI, ESI | EDI, EDI => true
                 | _, _ => false end then v else getr r' g in
  mkRegs (f EAX) (f ECX) (f EDX) (f EBX) (f ESP) (f EBP) (f ESI) (f EDI) (eip g) (cs g) (ds g) (es g) (fs g) (gs g) (ss g) (eflags g).
Definition gets_ (r : sreg) (g : regs) : Z := match r with DS => ds g | ES => es g | FS => fs g | GS => gs g end.
Definition sets_ (r : sreg) (v : Z) (g : regs) : regs :=
  mkRegs (eax g) (ecx g) (edx g) (ebx g) (esp g) (ebp g) (esi g) (edi g) (eip g) (cs g)
    (match r with DS => v | _ => ds g end) (match r with ES => v | _ => es g end)
    (match r with FS => v | _ => fs g end) (match r with GS => v | _ => gs g end) (ss g) (eflags g).
Definition set_flow (eip' cs' eflags' : Z) (g : regs) : regs :=
  mkRegs (eax g) (ecx g) (edx g) (ebx g) (esp g) (ebp g) (esi g) (edi g) eip' cs' (ds g) (es g) (fs g) (gs g) (ss g) eflags'.
Definition set_stack (ss' esp' : Z) (g : regs) : regs :=
  mkRegs (eax g) (ecx g) (edx g) (ebx g) esp' (ebp g) (esi g) (edi g) (eip g) (cs g) (ds g) (es g) (fs g) (gs g) ss' (eflags g).

Definition wstore (m : Z -> Z) (a v : Z) : Z -> Z := fun x => if x =? a then v else m x.
Definition push (v : Z) (s : mach) : mach :=
  let a := u32 (esp (rg s) - 4) in mkMach (setr ESP a (rg s)) (wstore (wm s) a v).
Definition top (s : mach) : Z := wm s (esp (rg s)).
Definition drop_ (n : Z) (s : mach) : mach := mkMach (setr ESP (u32 (esp (rg s) + n)) (rg s)) (wm s).

Inductive instr :=
| Pushl (r : reg)
| PushImm (v : Z)
| PushS (r : sreg)
| Popl (r : reg)
| PopS (r : sreg)
| Pushal
| Popal
| MovwImm (v : Z)                          (* movw $v, %ax *)
| MovwAx (r : sreg)                        (* movw %ax, r *)
| Load (d : Z) (b r : reg)                 (* movl d(b), r *)
| Store (r b : reg)                        (* movl r, (b) *)
| Mov (r r' : reg)                         (* movl r, r' *)
| MovImm (v : Z) (r : reg)                 (* movl $v, r *)
| AddEsp (n : Z)                           (* addl $n, %esp *)
| Ret
| Iret.

Definition pop (r : reg) (s : mach) : mach :=
  let v := top s in let s := drop_ 4 s in mkMach (setr r v (rg s)) (wm s).
Definition pops (r : sreg) (s : mach) : mach :=
  let v := u16 (top s) in let s := drop_ 4 s in mkMach (sets_ r v (rg s)) (wm s).

(** [iret] leaves the stack too if it lowers the privilege. *)
Definition iret (s : mach) : mach :=
  let a := esp (rg s) in let w i := wm s (u32 (a + 4 * i)) in
  let g := set_flow (w 0) (u16 (w 1)) (w 2) (setr ESP (u32 (a + 12)) (rg s)) in
  if Z.land (cs (rg s)) 3 <? Z.land (u16 (w 1)) 3
  then mkMach (set_stack (u16 (w 4)) (w 3) g) (wm s)
  else mkMach g (wm s).

Definition exec (i : instr) (s : mach) : mach :=
  match i with
  | Pushl r => push (getr r (rg s)) s
  | PushImm v => push v s
  | PushS r => push (gets_ r (rg s)) s
  | Popl r => pop r s
  | PopS r => pops r s
  | Pushal =>
      let g := rg s in
      push (edi g) (push (esi g) (push (ebp g) (push (esp g) (push (ebx g) (push (edx g) (push (ecx g) (push (eax g) s)))))))
  | Popal => pop EAX (pop ECX (pop EDX (pop EBX (drop_ 4 (pop EBP (pop ESI (pop EDI s)))))))
  | MovwImm v => mkMach (setr EAX (Z.shiftl (Z.shiftr (eax (rg s)) 16) 16 + v) (rg s)) (wm s)
  | MovwAx r => mkMach (sets_ r (u16 (eax (rg s))) (rg s)) (wm s)
  | Load d b r => mkMach (setr r (wm s (u32 (getr b (rg s) + d))) (rg s)) (wm s)
  | Store r b => mkMach (rg s) (wstore (wm s) (getr b (rg s)) (getr r (rg s)))
  | Mov r r' => mkMach (setr r' (getr r (rg s)) (rg s)) (wm s)
  | MovImm v r => mkMach (setr r v (rg s)) (wm s)
  | AddEsp n => drop_ n s
  | Ret => let v := top s in let s := drop_ 4 s in mkMach (set_flow v (cs (rg s)) (eflags (rg s)) (rg s)) (wm s)
  | Iret => iret s
  end.
Definition run_asm (l : list instr) (s : mach) : mach := foldl (fun s i => exec i s) s l.

(** * The code *)

(** vectors.pl: the traps for which the CPU pushes an error code. *)
Definition has_err (n : Z) : bool := (n =? 8) || ((10 <=? n) && (n <=? 14)) || (n =? 17).
(** The entry of trap [n], up to [jmp alltraps]. *)
Definition vector (n : Z) : list instr := (if has_err n then [] else [PushImm 0]) ++ [PushImm n].

(** [alltraps], up to [call trap], and from it on. *)
Definition alltraps : list instr :=
  [PushS DS; PushS ES; PushS FS; PushS GS; Pushal; MovwImm (Z.shiftl SEG_KDATA 3); MovwAx DS; MovwAx ES; Pushl ESP].
Definition trapret : list instr := [Popal; PopS GS; PopS FS; PopS ES; PopS DS; AddEsp 8; Iret].
Definition after_trap : list instr := AddEsp 4 :: trapret.

Definition swtch : list instr :=
  [Load 4 ESP EAX; Load 8 ESP EDX; Pushl EBP; Pushl EBX; Pushl ESI; Pushl EDI; Store ESP EAX; Mov EDX ESP;
   Popl EDI; Popl ESI; Popl EBX; Popl EBP; Ret].

(** * What the CPU does on trap [n], with the error code [err] where it has one *)

Record gate_entry := mkEntry { e_sel : Z; e_off : Z; e_clears_if : bool }.
Definition hw_trap (ts : taskstate) (e : gate_entry) (n err : Z) (s : mach) : mach :=
  let g := rg s in
  let s1 := if Z.land (cs g) 3 =? 3
            then push (esp g) (push (ss g) (mkMach (set_stack (ts_ss0 ts) (ts_esp0 ts) g) (wm s)))
            else s in
  let s2 := push (eip g) (push (cs g) (push (eflags g) s1)) in
  let s3 := if has_err n then push err s2 else s2 in
  mkMach (set_flow (e_off e) (e_sel e) (if e_clears_if e then Z.land (eflags g) (Z.lnot 0x200) else eflags g) (rg s3)) (wm s3).

(** [struct trapframe] at an address. *)
Record tframe := mkTf {
  f_edi : Z; f_esi : Z; f_ebp : Z; f_oesp : Z; f_ebx : Z; f_edx : Z; f_ecx : Z; f_eax : Z;
  f_gs : Z; f_fs : Z; f_es : Z; f_ds : Z; f_trapno : Z; f_err : Z; f_eip : Z; f_cs : Z; f_eflags : Z
}.
Definition tf_at (m : Z -> Z) (a : Z) : tframe :=
  mkTf (m a) (m (a + 4)) (m (a + 8)) (m (a + 12)) (m (a + 16)) (m (a + 20)) (m (a + 24)) (m (a + 28))
    (u16 (m (a + 32))) (u16 (m (a + 36))) (u16 (m (a + 40))) (u16 (m (a + 44))) (m (a + 48)) (m (a + 52)) (m (a + 56))
    (u16 (m (a + 60))) (m (a + 64)).

(** The assembly code: a trap builds a [struct trapframe] of the registers that it
    interrupts and the return from it loads them back; [swtch] comes back to the
    caller that was switched away from. *)

(** * Pushing *)

Definition pushes (l : list Z) (s : mach) : mach := foldl (fun s v => push v s) s l.

Lemma push_small v s : 4 <= esp (rg s) < 2 ^ 32 ->
  push v s = mkMach (setr ESP (esp (rg s) - 4) (rg s)) (wstore (wm s) (esp (rg s) - 4) v).
Proof. intros H. unfold push. by rewrite u32_small by lia. Qed.

Lemma pushes_esp l s : 4 * Z.of_nat (length l) <= esp (rg s) < 2 ^ 32 -> esp (rg (pushes l s)) = esp (rg s) - 4 * Z.of_nat (length l).
Proof.
  revert s. induction l as [|v l IH]; intros s H; [cbn; lia|]. change (pushes (v :: l) s) with (pushes l (push v s)). cbn [length] in *.
  rewrite IH, push_small by (try rewrite push_small; cbn [rg esp setr]; lia). cbn [rg esp setr]. lia.
Qed.

(** The words are on the stack, the last one on top; the rest of memory is as it was. *)
Lemma pushes_below l s x : 4 * Z.of_nat (length l) <= esp (rg s) < 2 ^ 32 -> ~ esp (rg s) - 4 * Z.of_nat (length l) <= x < esp (rg s) ->
  wm (pushes l s) x = wm s x.
Proof.
  revert s. induction l as [|v l IH]; intros s H Hx; [done|]. change (pushes (v :: l) s) with (pushes l (push v s)). cbn [length] in *.
  rewrite IH; rewrite push_small by lia; cbn [rg wm esp setr]; [|lia|lia]. unfold wstore. by rewrite (proj2 (Z.eqb_neq _ _)) by lia.
Qed.

Lemma pushes_words l s k : 4 * Z.of_nat (length l) <= esp (rg s) < 2 ^ 32 -> (k < length l)%nat ->
  wm (pushes l s) (esp (rg s) - 4 * Z.of_nat (length l) + 4 * Z.of_nat k) = nth k (rev l) 0.
Proof.
  revert s k. induction l as [|v l IH]; intros s k H Hk; [cbn in Hk; lia|]. change (pushes (v :: l) s) with (pushes l (push v s)). cbn [length rev] in *.
  assert (Ep : esp (rg (push v s)) = esp (rg s) - 4) by (rewrite push_small by lia; done).
  destruct (decide (k = length l)) as [->|Hne].
  - rewrite app_nth2, length_rev, Nat.sub_diag by (rewrite length_rev; lia). cbn [nth].
    rewrite pushes_below by lia. rewrite push_small by lia. cbn [wm]. unfold wstore. rewrite (proj2 (Z.eqb_eq _ _)) by lia. done.
  - rewrite app_nth1 by (rewrite length_rev; lia). rewrite <- (IH (push v s) k) by lia. f_equal. lia.
Qed.

Lemma u32_add x k : u32 (u32 x + k) = u32 (x + k).
Proof. unfold u32. apply Zplus_mod_idemp_l. Qed.
(** Addresses [a + k] without wrap-around. *)
Ltac addrs := repeat (rewrite u32_add || rewrite <- Z.add_assoc ||
  match goal with |- context [Zpos ?p + Zpos ?q] => let z := eval vm_compute in (Zpos p + Zpos q) in change (Zpos p + Zpos q) with z
                | |- context [Zpos ?p * ?q] => let z := eval vm_compute in (Zpos p * q) in change (Zpos p * q) with z end); rewrite ?Z.add_0_r.


(** * Entering *)

Definition from_user (s : mach) : bool := Z.land (cs (rg s)) 3 =? 3.
(** The stack on which the frame is built, and what the CPU pushes first when it changes stacks. *)
Definition base_mach (ts : taskstate) (s : mach) : mach :=
  if from_user s then mkMach (set_stack (ts_ss0 ts) (ts_esp0 ts) (rg s)) (wm s) else s.
Definition base_words (s : mach) : list Z := if from_user s then [ss (rg s); esp (rg s)] else [].
(** The words of the frame, the highest first. *)
Definition frame_words (g : regs) (oesp n err : Z) : list Z :=
  [eflags g; cs g; eip g; if has_err n then err else 0; n; ds g; es g; fs g; gs g;
   eax g; ecx g; edx g; ebx g; oesp; ebp g; esi g; edi g].

Definition frame_of (ts : taskstate) (n err : Z) (s : mach) : mach :=
  let b := pushes (base_words s) (base_mach ts s) in
  pushes (frame_words (rg s) (esp (rg (pushes (take 9 (frame_words (rg s) 0 n err)) b))) n err) b.

(** [s] has the stack of [f], and the other registers that a frame saves are those of [g]. *)
Definition rest (g : regs) := (eax g, ecx g, edx g, ebx g, ebp g, esi g, edi g, (ds g, es g, fs g, gs g)).
Definition like (g : regs) (f s : mach) : Prop := rest (rg s) = rest g /\ esp (rg s) = esp (rg f) /\ wm s = wm f.

Lemma like_push g f s v : like g f s -> like g (push v f) (push v s).
Proof. intros (Hr & He & Hw). unfold like, push. cbn [rg wm]. rewrite He, Hw. split_and!; [exact Hr|done|done]. Qed.
Lemma like_pushes g f s l : like g f s -> like g (pushes l f) (pushes l s).
Proof. revert f s. induction l as [|v l IH]; intros f s H; [done|]. apply IH. by apply like_push. Qed.
Lemma like_flow g f s a b c : like g f s -> like g f (mkMach (set_flow a b c (rg s)) (wm s)).
Proof. done. Qed.
Lemma like_pushS g f s r : like g f s -> like g (push (gets_ r g) f) (exec (PushS r) s).
Proof. intros H. pose proof H as ([=] & _). replace (gets_ r g) with (gets_ r (rg s)) by (by destruct r). by apply like_push. Qed.
Lemma like_pushal g f s : like g f s ->
  like g (pushes [eax g; ecx g; edx g; ebx g; esp (rg f); ebp g; esi g; edi g] f) (exec Pushal s).
Proof.
  intros H. pose proof H as ([=] & He & _).
  change (exec Pushal s) with (let g := rg s in pushes [eax g; ecx g; edx g; ebx g; esp g; ebp g; esi g; edi g] s). cbv zeta.
  rewrite He. replace (eax (rg s)) with (eax g) by done. replace (ecx (rg s)) with (ecx g) by done. replace (edx (rg s)) with (edx g) by done.
  replace (ebx (rg s)) with (ebx g) by done. replace (ebp (rg s)) with (ebp g) by done. replace (esi (rg s)) with (esi g) by done.
  replace (edi (rg s)) with (edi g) by done. by apply like_pushes.
Qed.

(** The CPU and the vector: the first five words. *)
Lemma enter_vector ts e n err s :
  let b := pushes (base_words s) (base_mach ts s) in
  like (rg s) (pushes (take 5 (frame_words (rg s) 0 n err)) b) (run_asm (vector n) (hw_trap ts e n err s)).
Proof.
  cbv zeta. unfold base_words, base_mach, from_user, hw_trap, vector, frame_words. cbn [take].
  assert (Hb : forall u : mach, rest (rg u) = rest (rg s) -> like (rg s) u u) by done.
  destruct (Z.land (cs (rg s)) 3 =? 3), (has_err n); cbn [app run_asm foldl exec];
    [refine (like_push _ _ _ _ (like_flow _ _ _ _ _ _ (like_pushes _ _ _ [_; _; _; _; _; _] (Hb _ _))))
    |refine (like_pushes _ _ _ [_; _] (like_flow _ _ _ _ _ _ (like_pushes _ _ _ [_; _; _; _; _] (Hb _ _))))
    |refine (like_push _ _ _ _ (like_flow _ _ _ _ _ _ (like_pushes _ _ _ [_; _; _; _] (Hb _ _))))
    |refine (like_pushes _ _ _ [_; _] (like_flow _ _ _ _ _ _ (like_pushes _ _ _ [_; _; _] (Hb _ _))))]; done.
Qed.

(** The rest of [alltraps]. *)
Lemma alltraps_tail s : let s' := run_asm (drop 5 alltraps) s in
  wm s' = wm (push (esp (rg s)) s) /\ esp (rg s') = u32 (esp (rg s) - 4) /\
  ds (rg s') = Z.shiftl SEG_KDATA 3 /\ es (rg s') = Z.shiftl SEG_KDATA 3.
Proof.
  assert (Hax : forall x, u16 (Z.shiftl (Z.shiftr x 16) 16 + Z.shiftl SEG_KDATA 3) = Z.shiftl SEG_KDATA 3).
  { intros x. unfold u16. by rewrite (Z.shiftl_mul_pow2 (Z.shiftr x 16)), Z.add_comm, Z.mod_add by lia. }
  destruct s as [[] m]. cbn. split_and!; [done|done|apply Hax|apply Hax].
Qed.

(** The memory and the registers when [trap] is called: its argument is on the
    stack, and points to the frame. *)
Lemma enter_trap ts e n err s :
  let s' := run_asm (vector n ++ alltraps) (hw_trap ts e n err s) in
  let f := frame_of ts n err s in
  wm s' = wm (push (esp (rg f)) f) /\ esp (rg s') = u32 (esp (rg f) - 4) /\
  ds (rg s') = Z.shiftl SEG_KDATA 3 /\ es (rg s') = Z.shiftl SEG_KDATA 3.
Proof.
  cbv zeta. unfold run_asm. rewrite foldl_app. fold (run_asm (vector n) (hw_trap ts e n err s)).
  pose proof (enter_vector ts e n err s) as H. cbv zeta in H. unfold frame_of. set (b := pushes (base_words s) (base_mach ts s)) in *.
  generalize dependent (run_asm (vector n) (hw_trap ts e n err s)). intros s5 H.
  apply (like_pushS _ _ _ DS), (like_pushS _ _ _ ES), (like_pushS _ _ _ FS), (like_pushS _ _ _ GS), like_pushal in H.
  set (s13 := exec Pushal _) in H. set (f := pushes _ _) in H.
  change (foldl (fun s i => exec i s) s5 alltraps) with (foldl (fun s i => exec i s) s13 (drop 5 alltraps)).
  change (pushes (frame_words _ _ _ _) b) with f. clearbody s13 f. destruct H as (_ & He & Hw).
  pose proof (alltraps_tail s13) as (T1 & T2 & T3 & T4). rewrite <- He. split_and!; [|exact T2|exact T3|exact T4].
  etransitivity; [exact T1|]. unfold push. cbn [wm]. by rewrite Hw, He.
Qed.

(** * Leaving *)

(** The registers of a frame; the stack is left if the frame is of user code. *)
Definition frame_regs (g : regs) (m : Z -> Z) (a : Z) : regs :=
  let f := tf_at m a in
  let user := Z.land (cs g) 3 <? Z.land (f_cs f) 3 in
  mkRegs (f_eax f) (f_ecx f) (f_edx f) (f_ebx f) (if user then m (a + 68) else a + 68) (f_ebp f) (f_esi f) (f_edi f)
    (f_eip f) (f_cs f) (f_ds f) (f_es f) (f_fs f) (f_gs f) (if user then u16 (m (a + 72)) else ss g) (f_eflags f).

Lemma trapret_loads s : 0 <= esp (rg s) -> esp (rg s) + 76 <= 2 ^ 32 ->
  run_asm trapret s = mkMach (frame_regs (rg s) (wm s) (esp (rg s))) (wm s).
Proof.
  destruct s as [[ax cx dx bx a bp si di ip c d e f g k fl] m]. cbn [rg esp wm]. intros Ha Hend.
  cbv beta iota zeta delta [run_asm trapret foldl exec pop pops drop_ top setr sets_ getr rg wm esp eax ecx edx ebx ebp esi edi eip cs ds es fs gs ss eflags
    iret set_flow set_stack frame_regs tf_at f_cs f_eax f_ecx f_edx f_ebx f_ebp f_esi f_edi f_eip f_ds f_es f_fs f_gs f_eflags].
  addrs. rewrite !u32_small by lia.
  by destruct (Z.land c 3 <? Z.land (u16 (m (a + 60))) 3).
Qed.

Lemma after_trap_drops s : run_asm after_trap s = run_asm trapret (drop_ 4 s).
Proof. unfold run_asm, after_trap. generalize trapret. intros l. cbn [foldl]. f_equal. Qed.

Lemma after_trap_memory s : wm (run_asm after_trap s) = wm s.
Proof. unfold run_asm, after_trap, trapret. cbn [foldl]. cbn [exec]. unfold iret. by destruct (_ <? _). Qed.

(** * The round trip *)

Definition stack_top (ts : taskstate) (s : mach) : Z := if from_user s then ts_esp0 ts else esp (rg s).
Definition frame_size (s : mach) : Z := if from_user s then 76 else 68.
(** Where the frame is. *)
Definition frame_addr (ts : taskstate) (s : mach) : Z := stack_top ts s - frame_size s.

(** Segment registers have 16 bits. *)
Definition segs_ok (g : regs) : Prop :=
  u16 (cs g) = cs g /\ u16 (ds g) = ds g /\ u16 (es g) = es g /\ u16 (fs g) = fs g /\ u16 (gs g) = gs g /\ u16 (ss g) = ss g.

Lemma frame_words_at ts n err s : 80 <= stack_top ts s < 2 ^ 32 ->
  let f := frame_of ts n err s in let a := frame_addr ts s in
  esp (rg f) = a /\ exists oesp, forall k, 4 * Z.of_nat k < frame_size s ->
    wm f (a + 4 * Z.of_nat k) = nth k (rev (base_words s ++ frame_words (rg s) oesp n err)) 0.
Proof.
  intros Htop f a. unfold f, frame_of, a, frame_addr, frame_size. set (oesp := esp (rg (pushes (take 9 _) _))).
  assert (E : forall l1 l2 b, pushes l2 (pushes l1 b) = pushes (l1 ++ l2) b) by (intros; unfold pushes; by rewrite foldl_app).
  rewrite E. clearbody oesp. assert (Hesp : esp (rg (base_mach ts s)) = stack_top ts s) by (unfold base_mach, stack_top; by destruct (from_user s)).
  set (l := base_words s ++ frame_words (rg s) oesp n err).
  assert (Hl : 4 * Z.of_nat (length l) = if from_user s then 76 else 68) by (unfold l, base_words; by destruct (from_user s)).
  split; [rewrite pushes_esp, Hesp, Hl; [done|rewrite Hl, Hesp; destruct (from_user s); lia]|].
  exists oesp. intros k Hk. pose proof (pushes_words l (base_mach ts s) k) as Hw. rewrite Hesp, Hl in Hw. fold l. apply Hw; destruct (from_user s); lia.
Qed.

(** The words of the frame when [trap] is called. *)
Lemma trap_memory ts e n err s : 84 <= stack_top ts s < 2 ^ 32 ->
  let s1 := run_asm (vector n ++ alltraps) (hw_trap ts e n err s) in let a := frame_addr ts s in
  esp (rg s1) = a - 4 /\ wm s1 (a - 4) = a /\ exists oesp, forall k, 4 * Z.of_nat k < frame_size s ->
    wm s1 (a + 4 * Z.of_nat k) = nth k (rev (base_words s ++ frame_words (rg s) oesp n err)) 0.
Proof.
  intros Htop s1 a. destruct (enter_trap ts e n err s) as (Hm & He & _). fold s1 in Hm, He.
  destruct (frame_words_at ts n err s) as (Hf & oesp & Hw); [lia|]. fold a in Hf, Hw. rewrite Hf in *.
  assert (Ha : 8 <= a < 2 ^ 32) by (unfold a, frame_addr, frame_size; destruct (from_user s); lia).
  rewrite u32_small in He by lia. split; [done|]. rewrite Hm, push_small by lia. cbn [wm]. unfold wstore. rewrite Hf, Z.eqb_refl.
  split; [done|]. exists oesp. intros k Hk. rewrite (proj2 (Z.eqb_neq _ _)) by lia. by apply Hw.
Qed.

(** The words of a frame by their offset. *)
Lemma frame_lookup s1 a l sz : (forall k, 4 * Z.of_nat k < sz -> wm s1 (a + 4 * Z.of_nat k) = nth k l 0) ->
  forall z, (z mod 4 =? 0) && (0 <=? z) && (z <? sz) = true -> wm s1 (a + z) = nth (Z.to_nat (z / 4)) l 0.
Proof.
  intros Hw z [[?%Z.eqb_eq ?%Z.leb_le]%andb_prop ?%Z.ltb_lt]%andb_prop. pose proof (Z.div_mod z 4). pose proof (Z.div_pos z 4).
  rewrite <- Hw by lia. f_equal. lia.
Qed.

Ltac offsets := repeat match goal with
  | |- context [Z.to_nat (Zpos ?x / 4)] => let k := eval vm_compute in (Z.to_nat (Zpos x / 4)) in change (Z.to_nat (Zpos x / 4)) with k
  | |- context [Z.to_nat (0 / 4)] => change (Z.to_nat (0 / 4)) with O
  | |- context [?x =? 28] => let b := eval vm_compute in (x =? 28) in change (x =? 28) with b
  end; cbn [rev nth app frame_words].

(** The frame that the words make. *)
Definition words_frame (g : regs) (oesp n err : Z) : tframe :=
  mkTf (edi g) (esi g) (ebp g) oesp (ebx g) (edx g) (ecx g) (eax g) (gs g) (fs g) (es g) (ds g) n (if has_err n then err else 0) (eip g) (cs g) (eflags g).

Lemma words_at m a s oesp n err v : segs_ok (rg s) -> (forall z, (z mod 4 =? 0) && (0 <=? z) && (z <? frame_size s) = true ->
    m (a + z) = if z =? 28 then v else nth (Z.to_nat (z / 4)) (rev (base_words s ++ frame_words (rg s) oesp n err)) 0) ->
  tf_at m a = words_frame (setr EAX v (rg s)) oesp n err /\
  (from_user s = true -> m (a + 68) = esp (rg s) /\ m (a + 72) = ss (rg s)).
Proof.
  intros (Hcs & Hds & Hes & Hfs & Hgs & Hss) Hw. pose proof (Hw 0) as H0. rewrite Z.add_0_r in H0.
  unfold frame_size, base_words in *. destruct (from_user s); (split; [unfold tf_at; rewrite H0 by done;
    rewrite (Hw 4), (Hw 8), (Hw 12), (Hw 16), (Hw 20), (Hw 24), (Hw 28), (Hw 32), (Hw 36), (Hw 40), (Hw 44), (Hw 48), (Hw 52), (Hw 56), (Hw 60), (Hw 64) by done;
    offsets; rewrite Hgs, Hfs, Hes, Hds, Hcs; done|]); [|done].
  intros _. rewrite (Hw 68), (Hw 72) by done. by offsets.
Qed.

(** A trap and the return from it.  When [trap] is called, its argument points
    to a frame that holds the registers of the code that was interrupted, the
    number of the trap, and the error code or 0.  If [trap] leaves the frame but
    for the result in [eax], the code goes on with its registers and this
    result, on its own stack. *)
Lemma trap_roundtrip ts e n err s : 84 <= stack_top ts s <= 2 ^ 32 - 8 -> segs_ok (rg s) -> Z.land (cs (rg s)) 3 = 0 \/ Z.land (cs (rg s)) 3 = 3 ->
  let s1 := run_asm (vector n ++ alltraps) (hw_trap ts e n err s) in
  let tf := wm s1 (esp (rg s1)) in let g := rg s in
  (exists oesp, tf_at (wm s1) tf = mkTf (edi g) (esi g) (ebp g) oesp (ebx g) (edx g) (ecx g) (eax g) (gs g) (fs g) (es g) (ds g)
     n (if has_err n then err else 0) (eip g) (cs g) (eflags g)) /\
  forall g' m' v, esp g' = esp (rg s1) -> Z.land (cs g') 3 = 0 -> (from_user s = false -> ss g' = ss g) ->
    m' (tf + 28) = v -> (forall x, tf <= x < stack_top ts s -> x <> tf + 28 -> m' x = wm s1 x) ->
    rg (run_asm after_trap (mkMach g' m')) = setr EAX v g.
Proof.
  intros Htop Hseg Hcpl s1 tf g. destruct (trap_memory ts e n err s) as (He & Htf & oesp & Hw0); [lia|]. fold s1 in He, Htf, Hw0.
  unfold tf. rewrite He, Htf. clear tf. set (a := frame_addr ts s) in *. pose proof (frame_lookup s1 a _ _ Hw0) as Hw. clear Hw0.
  assert (Hat : a + frame_size s = stack_top ts s) by (unfold a, frame_addr; lia).
  assert (Hsz : 68 <= frame_size s <= 76) by (unfold frame_size; destruct (from_user s); lia).
  split.
  - exists oesp. destruct (words_at (wm s1) a s oesp n err (eax g) Hseg) as [-> _]; [|by unfold g; destruct (rg s)].
    intros z Hz. rewrite Hw by done. destruct (Z.eqb_spec z 28) as [->|]; [|done]. unfold base_words. by destruct (from_user s).
  - intros g' m' v Hesp' Hcs' Hss' Hv Hm. destruct (words_at m' a s oesp n err v Hseg) as [Etf Hst].
    { intros z Hz. destruct (Z.eqb_spec z 28) as [->|Hne]; [done|]. rewrite <- Hw by done.
      apply andb_prop in Hz as [[_ ?%Z.leb_le]%andb_prop ?%Z.ltb_lt]. apply Hm; lia. }
    rewrite after_trap_drops.
    assert (Ed : drop_ 4 (mkMach g' m') = mkMach (setr ESP a g') m') by (unfold drop_; cbn [rg wm]; by rewrite Hesp', u32_small by lia; replace (a - 4 + 4) with a by lia).
    rewrite Ed, trapret_loads by (cbn [rg esp setr]; lia). cbn [rg wm]. change (esp (setr ESP a g')) with a.
    unfold frame_regs. rewrite Etf. change (cs (setr ESP a g')) with (cs g'). rewrite Hcs'. cbn [words_frame f_cs].
    change (cs (setr EAX v (rg s))) with (cs g). change (ss (setr ESP a g')) with (ss g').
    assert (Eg : esp g = esp (setr EAX v g) /\ ss g = ss (setr EAX v g)) by done.
    unfold frame_size, stack_top, from_user in *. fold g in Hcpl, Hst, Hss', Hat. destruct Hcpl as [E|E]; rewrite E in *.
    + rewrite (Hss' eq_refl). change (0 =? 3) with false in Hat. cbv iota in Hat. change (0 <? 0) with false. cbv iota. rewrite Hat. reflexivity.
    + destruct (Hst eq_refl) as [-> ->]. change (0 <? 3) with true. cbv iota. destruct Hseg as (_ & _ & _ & _ & _ & Hss). fold g in Hss. rewrite Hss. reflexivity.
Qed.

(** * Switching stacks *)

(** The caller of [swtch(old, new)]: its return address and arguments are on its stack. *)
Definition calls_swtch (s : mach) (old new : Z) : Prop :=
  20 <= esp (rg s) /\ esp (rg s) + 12 <= 2 ^ 32 /\ wm s (esp (rg s) + 4) = old /\ wm s (esp (rg s) + 8) = new.

(** [swtch] stores the context of the caller and its address, and returns with
    the registers and on the stack of the context [new]. *)
Lemma swtch_spec s old new : calls_swtch s old new -> 0 <= new -> new + 20 < 2 ^ 32 ->
  let c := esp (rg s) - 16 in
  ~ (c <= old < esp (rg s) + 4) ->
  let m := wm (run_asm swtch s) in let g := rg (run_asm swtch s) in
  (m old = c /\ m c = edi (rg s) /\ m (c + 4) = esi (rg s) /\ m (c + 8) = ebx (rg s) /\ m (c + 12) = ebp (rg s) /\ m (c + 16) = wm s (esp (rg s))) /\
  (forall x, x <> old -> ~ (c <= x < esp (rg s)) -> m x = wm s x) /\
  edi g = m new /\ esi g = m (new + 4) /\ ebx g = m (new + 8) /\ ebp g = m (new + 12) /\ eip g = m (new + 16) /\ esp g = new + 20.
Proof.
  destruct s as [[ax cx dx bx p bp si di ip cc d e f g k fl] m0]. unfold calls_swtch. cbn [rg esp wm]. intros (Hp & Hp' & Ho & Hn) Hn0 Hn20 Hold.
  cbv beta iota zeta delta [run_asm swtch foldl exec push pop drop_ top setr getr rg wm esp eax ecx edx ebx ebp esi edi eip cs ds es fs gs ss eflags set_flow].
  rewrite (u32_small (p + 4)), (u32_small (p + 8)), Ho, Hn by lia. rewrite (u32_small (p - 4)) by lia.
  replace (p - 4 - 4) with (p - 8) by lia. rewrite (u32_small (p - 8)) by lia. replace (p - 8 - 4) with (p - 12) by lia. rewrite (u32_small (p - 12)) by lia.
  replace (p - 12 - 4) with (p - 16) by lia. rewrite (u32_small (p - 16)) by lia. addrs. rewrite !u32_small by lia.
  split; [|split; [|done]].
  - split_and!; unfold wstore; repeat (case (Z.eqb_spec _ _); intros ?); try done; try lia. f_equal. lia.
  - intros x Hx Hr. unfold wstore. by rewrite !(proj2 (Z.eqb_neq x _)) by lia.
Qed.

(** C22: Switching away and back: a process that calls [swtch] and is later switched
    back to, with its context and its return address unchanged in memory, goes
    on after its call with the registers that the calling convention preserves
    and its stack. *)
Theorem swtch_resumes s old new s' old' : calls_swtch s old new -> 0 <= new -> new + 20 < 2 ^ 32 ->
  let c := esp (rg s) - 16 in
  ~ (c <= old < esp (rg s) + 4) ->
  calls_swtch s' old' c -> ~ (esp (rg s') - 16 <= old' < esp (rg s') + 4) ->
  (forall x, c <= x < c + 20 -> wm s' x = wm (run_asm swtch s) x) ->
  ~ (c <= old' < c + 20) -> (forall x, c <= x < c + 20 -> ~ (esp (rg s') - 16 <= x < esp (rg s'))) ->
  let g := rg (run_asm swtch s') in
  wm (run_asm swtch s) old = c /\
  edi g = edi (rg s) /\ esi g = esi (rg s) /\ ebx g = ebx (rg s) /\ ebp g = ebp (rg s) /\
  eip g = wm s (esp (rg s)) /\ esp g = esp (rg s) + 4.
Proof.
  intros Hc Hn Hn' c Hold Hc' Hold' Hkeep Hout Hdis g.
  destruct (swtch_spec s old new Hc Hn Hn' Hold) as ((S0 & S1 & S2 & S3 & S4 & S5) & _). fold c in S0, S1, S2, S3, S4, S5.
  assert (Hcr : 0 <= c /\ c + 20 < 2 ^ 32) by (unfold c; destruct Hc as (? & ? & _); lia).
  destruct (swtch_spec s' old' c Hc' (proj1 Hcr) (proj2 Hcr) Hold') as (_ & Hm & E1 & E2 & E3 & E4 & E5 & E6). fold g in E1, E2, E3, E4, E5, E6.
  assert (Hback : forall x, c <= x < c + 20 -> wm (run_asm swtch s') x = wm (run_asm swtch s) x).
  { intros x Hx. rewrite Hm; [by apply Hkeep|intros ->; done|by apply Hdis]. }
  rewrite E1, E2, E3, E4, E5, E6, !Hback, S1, S2, S3, S4, S5 by lia. split_and!; try done. unfold c. lia.
Qed.

(** A system call of user code, with its kernel stack below 0x8dfff000. *)
Definition user_regs : regs := mkRegs 16 1 2 3 0x3fc0 0x3fd0 4 5 0x20 0x1b 0x23 0x23 0 0 0x23 0x202.
Definition user_mach : mach := mkMach user_regs (fun _ => 0).
Definition proc_ts : taskstate := mkTs 0x8dfff000 0x10 0xFFFF.
Definition syscall_gate : gate_entry := mkEntry 8 0x80106000 false.

Lemma trap_roundtrip_witness :
  let s1 := run_asm (vector 64 ++ alltraps) (hw_trap proc_ts syscall_gate 64 0 user_mach) in
  f_trapno (tf_at (wm s1) (0x8dfff000 - 76)) = 64 /\ f_eax (tf_at (wm s1) (0x8dfff000 - 76)) = 16 /\
  rg (run_asm after_trap (mkMach (rg s1) (wstore (wm s1) (0x8dfff000 - 76 + 28) 7))) = setr EAX 7 user_regs.
Proof.
  intros s1. destruct (trap_roundtrip proc_ts syscall_gate 64 0 user_mach) as [(oesp & E) Hback].
  - vm_compute. split; discriminate.
  - by vm_compute.
  - right. by vm_compute.
  - fold s1 in E, Hback. change (wm s1 (esp (rg s1))) with (0x8dfff000 - 76) in E, Hback. rewrite E. split_and!; [done|done|].
    apply Hback; [done|by vm_compute|done|unfold wstore; by rewrite Z.eqb_refl|].
    intros x _ Hx. unfold wstore. by rewrite (proj2 (Z.eqb_neq _ _)).
Defined.

(** A kernel thread that switches to the scheduler's context at 0x3000, from where it is switched to again. *)
Definition thread_mach : mach :=
  mkMach (mkRegs 0 0 0 11 0x2000 12 13 14 0x100 8 16 16 0 0 16 0)
    (wstore (wstore (wstore (fun _ => 0) 0x2000 0x555) 0x2004 0x4000) 0x2008 0x3000).
Definition sched_mach : mach :=
  let s := run_asm swtch thread_mach in
  mkMach (setr ESP 0x2f00 (rg s)) (wstore (wstore (wm s) 0x2f04 0x4004) 0x2f08 (0x2000 - 16)).

Lemma swtch_resumes_witness : let g := rg (run_asm swtch sched_mach) in
  edi g = 14 /\ ebx g = 11 /\ ebp g = 12 /\ eip g = 0x555 /\ esp g = 0x2004.
Proof.
  destruct (swtch_resumes thread_mach 0x4000 0x3000 sched_mach 0x4004) as (_ & E1 & _ & E3 & E4 & E5 & E6).
  - split_and!; vm_compute; (done || discriminate).
  - lia.
  - lia.
  - vm_compute. intros [_ Hx]. discriminate.
  - split_and!; vm_compute; (done || discriminate).
  - vm_compute. intros [_ Hx]. discriminate.
  - change (esp (rg thread_mach)) with 0x2000. intros x Hx. unfold sched_mach, wstore. cbn [wm].
    rewrite !(proj2 (Z.eqb_neq x _)) by lia. done.
  - vm_compute. intros [_ Hx]. discriminate.
  - change (esp (rg thread_mach)) with 0x2000. change (esp (rg sched_mach)) with 0x2f00. lia.
  - cbv zeta. rewrite E1, E3, E4, E5, E6. done.
Defined.
