(* ===== verification/Usys.v ===== *)
(** usys.S, initcode.S and syscall.h: the user's side of a system call.

    A stub of the user library puts the number of the call into [eax] and traps.
    Together with the entry of the kernel (Asm.v) and the routines that fetch
    the arguments (Syscall.v) this is the calling convention of system calls. *)
From S2P Require Import Prelude Layout CString Locks LogRep Fs Kalloc Vm Pipe Syscall File Sysfile Cpu Asm.

(** * syscall.h *)

Definition syscall_numbers : list (string * Z) :=
  [("fork", 1); ("exit", 2); ("wait", 3); ("pipe", 4); ("read", 5); ("kill", 6); ("exec", 7); ("fstat", 8);
   ("chdir", 9); ("dup", 10); ("getpid", 11); ("sbrk", 12); ("sleep", 13); ("uptime", 14); ("open", 15);
   ("write", 16); ("mknod", 17); ("unlink", 18); ("link", 19); ("mkdir", 20); ("close", 21);
   ("time_scheduled", 22); ("set_sched_priority", 23); ("get_sched_priority", 24); ("fifo_position", 25);
   ("printProcessTable", 26); ("symlink", 27); ("lseek", 28)]%string.
Fixpoint number_in (l : list (string * Z)) (name : string) : option Z :=
  match l with [] => None | (x, n) :: l => if String.eqb x name then Some n else number_in l name end.
Definition SYS (name : string) : Z := default 0 (number_in syscall_numbers name).

(** * usys.S *)

(** The stub of the call with number [num], up to [int $T_SYSCALL] and from it on. *)
Definition SYSCALL (num : Z) : list instr := [MovImm num EAX].
Definition SYSCALL_ret : list instr := [Ret].
(** The names for which there is a stub. *)
Definition usys : list string :=
  ["fork"; "exit"; "wait"; "pipe"; "read"; "write"; "close"; "kill"; "exec"; "open"; "mknod"; "unlink"; "fstat";
   "link"; "mkdir"; "chdir"; "dup"; "getpid"; "sbrk"; "sleep"; "uptime"; "time_scheduled"; "set_sched_priority";
   "get_sched_priority"; "fifo_position"; "printProcessTable"; "symlink"; "lseek"]%string.

(** * initcode.S *)

(** [start] up to its [int $T_SYSCALL], with the addresses of [init] and [argv]. *)
Definition initcode_start (init argv : Z) : list instr := [PushImm argv; PushImm init; PushImm 0] ++ SYSCALL (SYS "exec").
(** The data of the image: [init] and [argv]. *)
Definition initcode_init : bytes := str "/init" ++ [0; 0].
Definition initcode_argv (init : Z) : list Z := [init; 0].

(** * The calling convention *)

(** Every stub traps with the number of a call that the kernel has, and no two with the same. *)
Lemma usys_numbers : NoDup (map SYS usys) /\ Forall (fun name => 1 <= SYS name <= 28) usys.
Proof. split; [apply (bool_decide_unpack _); vm_compute; exact I|apply (bool_decide_unpack _); vm_compute; exact I]. Qed.

(** The words of the user's memory are those that the kernel reads. *)
Definition user_words (u : uproc) (m : Z -> Z) : Prop :=
  forall a, 0 <= a -> a + 4 <= u_sz u -> a mod 4 = 0 -> umem_word u a = m a.

(** The kernel stack is above the memory of the user, which a trap leaves. *)
Lemma trap_keeps_user ts e n err s x : from_user s = true -> KERNBASE + 84 <= ts_esp0 ts < 2 ^ 32 -> x < KERNBASE ->
  wm (run_asm (vector n ++ alltraps) (hw_trap ts e n err s)) x = wm s x.
Proof.
  intros Hu Hts Hx. unfold KERNBASE in *. destruct (enter_trap ts e n err s) as (-> & _).
  assert (Htop : stack_top ts s = ts_esp0 ts) by (unfold stack_top; by rewrite Hu).
  destruct (frame_words_at ts n err s) as (Hf & _); [lia|]. unfold frame_addr, frame_size in Hf. rewrite Hu, Htop in Hf.
  rewrite push_small by lia. cbn [wm]. unfold wstore. rewrite (proj2 (Z.eqb_neq _ _)) by lia.
  unfold frame_of, base_words, base_mach. rewrite Hu.
  assert (Hl : forall o, length (frame_words (rg s) o n err) = 17%nat) by done.
  rewrite pushes_below; rewrite ?Hl, ?pushes_esp; cbn [length rg esp set_stack]; try lia.
  rewrite pushes_below; cbn [length rg esp set_stack wm]; (done || lia).
Qed.

Definition enter (ts : taskstate) (e : gate_entry) (s : mach) : mach :=
  run_asm (vector T_SYSCALL ++ alltraps) (hw_trap ts e T_SYSCALL 0 s).

(** The number of the call, and the saved [esp] of the user, which a frame has behind the rest. *)
Lemma saved_esp ts e s : from_user s = true -> 84 <= ts_esp0 ts < 2 ^ 32 ->
  let s1 := enter ts e s in
  wm s1 (esp (rg s1)) = ts_esp0 ts - 76 /\ wm s1 (ts_esp0 ts - 76 + 68) = esp (rg s) /\ wm s1 (ts_esp0 ts - 76 + 28) = eax (rg s).
Proof.
  intros Hu Hts s1. assert (Htop : stack_top ts s = ts_esp0 ts) by (unfold stack_top; by rewrite Hu).
  destruct (trap_memory ts e T_SYSCALL 0 s) as (He & Ha & oesp & Hw); [lia|]. fold (enter ts e s) in He, Ha, Hw. fold s1 in He, Ha, Hw.
  unfold frame_addr, frame_size in *. rewrite Hu, Htop in *. rewrite He, Ha. split; [done|].
  split; [etransitivity; [exact (Hw 17%nat ltac:(lia))|]|etransitivity; [exact (Hw 7%nat ltac:(lia))|]]; unfold base_words; by rewrite Hu.
Qed.

(** An argument of a call whose frame has the user's [esp]. *)
Lemma argint_word u m i : user_words u m -> u_sz u <= KERNBASE -> 0 <= i -> 0 <= u_esp u -> u_esp u mod 4 = 0 -> u_esp u + 8 + 4 * i <= u_sz u ->
  argint u i = Some (s32 (m (u_esp u + 4 + 4 * i))).
Proof.
  intros Hm Hsz Hi He Ha Hle. unfold KERNBASE in *. unfold argint, fetchint. rewrite !u32_small by lia.
  rewrite (proj2 (Z.leb_gt _ _)), (proj2 (Z.ltb_ge _ _)) by lia. cbn [orb]. rewrite Hm; [done|lia|lia|].
  replace (u_esp u + 4 + 4 * i) with (u_esp u + (1 + i) * 4) by lia. by rewrite Z.mod_add by lia.
Qed.

(** C11: The calling convention of system calls, from the stub in the user library
    to the kernel and back.  A caller with the arguments above its return
    address traps with the number of the call in [tf->eax] and its own [esp] in
    the frame; [argint i] in the kernel is argument [i]; and when [trap] returns
    with the result [v] in [tf->eax], the caller goes on after its call with [v]
    in [eax] and all its other registers as they were. *)
Theorem syscall_convention ts e num s : from_user s = true -> KERNBASE + 84 <= ts_esp0 ts <= 2 ^ 32 - 8 -> segs_ok (rg s) ->
  0 <= esp (rg s) < KERNBASE -> esp (rg s) mod 4 = 0 ->
  let s1 := enter ts e (run_asm (SYSCALL num) s) in let tf := wm s1 (esp (rg s1)) in
  (f_eax (tf_at (wm s1) tf) = num /\ f_trapno (tf_at (wm s1) tf) = T_SYSCALL /\ wm s1 (tf + 68) = esp (rg s)) /\
  (forall u i, user_words u (wm s1) -> u_esp u = wm s1 (tf + 68) -> u_sz u <= KERNBASE -> 0 <= i -> esp (rg s) + 8 + 4 * i <= u_sz u ->
     argint u i = Some (s32 (wm s (esp (rg s) + 4 + 4 * i)))) /\
  (forall g' m' v, esp g' = esp (rg s1) -> Z.land (cs g') 3 = 0 ->
     m' (tf + 28) = v -> (forall x, tf <= x < ts_esp0 ts -> x <> tf + 28 -> m' x = wm s1 x) -> m' (esp (rg s)) = wm s (esp (rg s)) ->
     let g := rg s in
     rg (run_asm SYSCALL_ret (run_asm after_trap (mkMach g' m'))) =
       mkRegs v (ecx g) (edx g) (ebx g) (esp g + 4) (ebp g) (esi g) (edi g)
         (wm s (esp g)) (cs g) (ds g) (es g) (fs g) (gs g) (ss g) (eflags g)).
Proof.
  intros Hu Hts Hseg Hesp Hal s1 tf. set (s0 := run_asm (SYSCALL num) s) in *. unfold KERNBASE in *.
  assert (Hu0 : from_user s0 = true) by exact Hu. assert (E0 : esp (rg s0) = esp (rg s)) by done.
  assert (Htop : stack_top ts s0 = ts_esp0 ts) by (unfold stack_top; by rewrite Hu0).
  destruct (saved_esp ts e s0 Hu0) as (Etf & Esp & _); [lia|]. fold s1 in Etf, Esp. fold tf in Etf. rewrite E0 in Esp.
  destruct (trap_roundtrip ts e T_SYSCALL 0 s0) as [(oesp & Ef) Hback]; [lia|exact Hseg|right; by apply Z.eqb_eq|].
  fold (enter ts e s0) in Ef, Hback. fold s1 in Ef, Hback. fold tf in Ef, Hback. rewrite <- Etf in Esp.
  split; [rewrite Ef; done|]. split.
  - intros u i Hm Hue Hsz Hi Hle. rewrite Esp in Hue.
    rewrite (argint_word u (wm s1)); rewrite ?Hue; unfold KERNBASE; try done; try lia.
    do 2 f_equal. unfold s1, enter. by rewrite trap_keeps_user by (done || unfold KERNBASE; lia).
  - intros g' m' v He' Hcs Hv Hm Hret. rewrite Htop in Hback.
    assert (Ew : wm (run_asm after_trap (mkMach g' m')) = m') by apply after_trap_memory.
    pose proof (Hback g' m' v He' Hcs ltac:(congruence) Hv Hm) as Hr.
    destruct (run_asm after_trap (mkMach g' m')) as [g2 m2]. cbn [rg wm] in Hr, Ew. subst g2 m2.
    unfold s0 in *. destruct s as [[] m]. cbn -[u32 Z.add] in *. rewrite Hret. by rewrite u32_small by lia.
Qed.

(** * The first process *)

(** The words that [start] pushes, from the stack that [userinit] gives. *)
Lemma initcode_stack s init argv : esp (rg s) = PGSIZE ->
  let s0 := run_asm (initcode_start init argv) s in
  esp (rg s0) = 4084 /\ eax (rg s0) = SYS "exec" /\ cs (rg s0) = cs (rg s) /\ wm s0 4088 = init /\ wm s0 4092 = argv /\
  forall x, x < 4084 -> wm s0 x = wm s x.
Proof.
  destruct s as [[] m]. cbn [rg Asm.esp]. intros ->. unfold initcode_start, SYSCALL. cbn [app run_asm foldl exec]. unfold push. cbn [rg wm Asm.esp Asm.eax Asm.cs setr getr].
  change (u32 (PGSIZE - 4)) with 4092. change (u32 (4092 - 4)) with 4088. change (u32 (4088 - 4)) with 4084.
  split_and!; try done. intros x Hx. unfold wstore. by rewrite !(proj2 (Z.eqb_neq x _)) by lia.
Qed.

(** The image of initcode.S in the memory of a process: [argv] is aligned, and
    both are below the three words that are pushed. *)
Record has_image (u : uproc) (init argv : Z) : Prop := {
  im_init : forall k, (k < 7)%nat -> u_mem u (init + Z.of_nat k) = nth k initcode_init 0;
  im_argv : umem_word u argv = init /\ umem_word u (argv + 4) = 0;
  im_init_at : 0 < init /\ init + 7 <= 4084;
  im_argv_at : 0 <= argv /\ argv + 8 <= 4084
}.

Lemma scan_nul_at m s k n : (k < n)%nat -> (forall j, (j < k)%nat -> m (s + Z.of_nat j) <> 0) -> m (s + Z.of_nat k) = 0 ->
  scan_nul m s n = Some (s + Z.of_nat k).
Proof.
  revert s k. induction n as [|n IH]; intros s k Hk Hne Hz; [lia|]. cbn [scan_nul]. destruct k as [|k].
  - rewrite Z.add_0_r in *. by rewrite Hz.
  - pose proof (Hne O ltac:(lia)) as H0. rewrite Z.add_0_r in H0. rewrite (proj2 (Z.eqb_neq _ _) H0), (IH (s + 1) k); [f_equal; lia|lia| |].
    + intros j Hj. replace (s + 1 + Z.of_nat j) with (s + Z.of_nat (S j)) by lia. apply Hne. lia.
    + by replace (s + 1 + Z.of_nat k) with (s + Z.of_nat (S k)) by lia.
Qed.

Lemma image_path u init argv : has_image u init argv -> u_sz u = PGSIZE ->
  fetchstr u init = Some 5 /\ umem_bytes u init 5 = str "/init".
Proof.
  intros [Hi _ Hat _] Hsz. unfold fetchstr. rewrite Hsz. change PGSIZE with 4096. rewrite (proj2 (Z.leb_gt _ _)) by lia.
  rewrite (scan_nul_at _ _ 5); [split; [f_equal; lia|]|lia| |by rewrite Hi by lia].
  - unfold umem_bytes. cbn [seq map]. by rewrite !Hi by lia.
  - intros j Hj. rewrite Hi by lia. by destruct j as [|[|[|[|[|j]]]]]; [..|lia].
Qed.

(** The loop of [sys_exec] on the image. *)
Lemma image_argv {S} (u : uproc) init argv (k : kstate S) : has_image u init argv -> u_sz u = PGSIZE ->
  mkU (umem (k_mem k) (k_pgdir k)) (k_sz k) (k_esp k) = u ->
  (forall va n, 0 <= va -> va + Z.of_nat n <= PGSIZE -> umapped (k_mem k) (k_pgdir k) va n = true) ->
  wp (exec_args argv (Z.to_nat MAXARG + 1) 0) k (fun r k' => r = Some [str "/init"] /\ k' = k).
Proof.
  intros Him Hsz Hu Hmap. destruct (image_path u init argv Him Hsz) as [Hs Hb]. destruct Him as [_ [Ha0 Ha1] Hi Ha]. change PGSIZE with 4096 in *.
  assert (Hf : forall a, 0 <= a -> a + 4 <= 4096 -> fetchint u a = Some (s32 (umem_word u a))).
  { intros a ? ?. unfold fetchint. rewrite Hsz, u32_small, (proj2 (Z.leb_gt _ _)), (proj2 (Z.ltb_ge _ _)) by lia. done. }
  change (Z.to_nat MAXARG + 1)%nat with (Datatypes.S (Datatypes.S 31)). cbn [exec_args]. change (MAXARG <=? 0) with false. change (MAXARG <=? 0 + 1) with false. cbv iota.
  assert (Wu : forall Q, Q u k -> wp user k Q) by (intros Q HQ; unfold user; wp_step; by rewrite Hu).
  assert (Wt : forall a n Q, 0 <= a -> a + Z.of_nat n <= 4096 -> Q tt k -> wp (touch a n) k Q)
    by (intros a n Q ? ? HQ; unfold touch; wp_step; wp_step; rewrite Hmap by done; by wp_step).
  wp_step. apply Wu. rewrite Z.mul_0_r, Z.add_0_r, (u32_small argv), Hf, Ha0, s32_small by lia.
  wp_step. apply Wt; [lia|lia|]. rewrite (u32_small init), (proj2 (Z.eqb_neq init 0)), Hs by lia.
  wp_step. apply Wt; [lia|lia|]. wp_step. wp_step. apply Wu. change (0 + 1) with 1. rewrite Z.mul_1_r, (u32_small (argv + 4)), Hf, Ha1 by lia.
  wp_step. apply Wt; [lia|lia|]. change (u32 (s32 0) =? 0) with true. cbv iota. wp_step. wp_step. change (Z.to_nat 5) with 5%nat. by rewrite Hb.
Qed.

(** initcode.S calls [exec("/init", argv)] with [argv] just this name: the frame
    has the number of [exec] and the stack from which [sys_exec] fetches the
    path and the arguments. *)
Lemma initcode_execs {S} ts e init argv s u (k : kstate S) : from_user s = true -> KERNBASE + 84 <= ts_esp0 ts < 2 ^ 32 -> esp (rg s) = PGSIZE ->
  let s1 := enter ts e (run_asm (initcode_start init argv) s) in let tf := wm s1 (esp (rg s1)) in
  has_image u init argv -> u_sz u = PGSIZE -> u_esp u = wm s1 (tf + 68) -> user_words u (wm s1) ->
  mkU (umem (k_mem k) (k_pgdir k)) (k_sz k) (k_esp k) = u ->
  (forall va n, 0 <= va -> va + Z.of_nat n <= PGSIZE -> umapped (k_mem k) (k_pgdir k) va n = true) ->
  wm s1 (tf + 28) = SYS "exec" /\ argstr u 0 = Some (init, 5) /\ ustring u (init, 5) = str "/init" /\ argint u 1 = Some argv /\
  wp (exec_args argv (Z.to_nat MAXARG + 1) 0) k (fun r k' => r = Some [str "/init"] /\ k' = k).
Proof.
  intros Hu Hts Hesp s1 tf Him Hsz Hue Hw Hk Hmap. destruct (initcode_stack s init argv Hesp) as (E0 & Eax & Ecs & Ei & Ea & _).
  set (s0 := run_asm (initcode_start init argv) s) in *. assert (Hu0 : from_user s0 = true) by (unfold from_user; by rewrite Ecs).
  destruct (saved_esp ts e s0 Hu0) as (Etf & Esp & Enum); [unfold KERNBASE in Hts; lia|]. fold s1 in Etf, Esp, Enum. fold tf in Etf. rewrite <- Etf in Esp, Enum.
  rewrite E0 in Esp. rewrite Esp in Hue. change PGSIZE with 4096 in *. destruct (im_init_at _ _ _ Him) as [Hi1 Hi2]. destruct (im_argv_at _ _ _ Him) as [Ha1 Ha2].
  assert (Hkeep : forall x, x < KERNBASE -> wm s1 x = wm s0 x) by (intros x Hx; by apply trap_keeps_user).
  assert (Hai : forall i, 0 <= i <= 1 -> argint u i = Some (s32 (wm s0 (4088 + 4 * i)))).
  { intros i Hi. rewrite (argint_word u (wm s1)) by (rewrite ?Hue, ?Hsz; unfold KERNBASE; done || lia). rewrite Hue, Hkeep by (unfold KERNBASE; lia). done. }
  destruct (image_path u init argv Him Hsz) as [Hs Hb]. split; [by rewrite Enum|].
  unfold argstr. rewrite (Hai 0), (Hai 1) by lia. change (4088 + 4 * 0) with 4088. change (4088 + 4 * 1) with 4092. rewrite Ei, Ea, !s32_small by lia.
  rewrite u32_small, Hs by lia. split_and!; [done|exact Hb|done|by apply (image_argv u init)].
Qed.

(** [write(1, 0x100, 5)] of a process, and its return to 0x77 with the result 5. *)
Definition write_mach : mach :=
  mkMach (mkRegs 0 1 2 3 0x3fc0 0x3fd0 4 5 0x20 0x1b 0x23 0x23 0 0 0x23 0x202)
    (wstore (wstore (wstore (wstore (fun _ => 0) 0x3fc0 0x77) 0x3fc4 1) 0x3fc8 0x100) 0x3fcc 5).

Lemma syscall_convention_witness :
  let s1 := enter proc_ts syscall_gate (run_asm (SYSCALL (SYS "write")) write_mach) in
  f_eax (tf_at (wm s1) (0x8dfff000 - 76)) = 16 /\ wm s1 (0x8dfff000 - 76 + 68) = 0x3fc0 /\
  let g := rg (run_asm SYSCALL_ret (run_asm after_trap (mkMach (rg s1) (wstore (wm s1) (0x8dfff000 - 76 + 28) 5)))) in
  eax g = 5 /\ eip g = 0x77 /\ esp g = 0x3fc4 /\ ecx g = 1.
Proof.
  intros s1. destruct (syscall_convention proc_ts syscall_gate (SYS "write") write_mach) as ((E1 & _ & E3) & _ & Hback).
  - by vm_compute.
  - vm_compute. split; discriminate.
  - by vm_compute.
  - vm_compute. split; (discriminate || done).
  - by vm_compute.
  - fold s1 in E1, E3, Hback. change (wm s1 (esp (rg s1))) with (0x8dfff000 - 76) in E1, E3, Hback.
    split; [exact E1|]. split; [exact E3|]. intros g. unfold g. rewrite (Hback (rg s1) _ 5); [split; [reflexivity|]; split; [reflexivity|]; split; reflexivity|reflexivity|vm_compute; reflexivity| | |].
    + unfold wstore. by rewrite Z.eqb_refl.
    + intros x _ Hx. unfold wstore. by rewrite (proj2 (Z.eqb_neq _ _)).
    + by vm_compute.
Defined.
