(* ===== verification/Startup.v ===== *)
(** main.c: the start of the other CPUs, and the page directory that they start with.

    The words before the start code and the flags [started] are shared with the
    CPU that is being started, so the accesses to them are in the history of
    Hw.v, as those to the controller are.  [ids] are the APIC ids of [cpus]. *)
From S2P Require Import Prelude Layout CString Kalloc Vm Hw Boot Cpu Mp Lapic.

(** * The boot page directory *)

Definition PTE_PS : Z := 0x080.
Definition PDXSHIFT : Z := 22.
Definition entrypgdir : list Z :=
  let pde := Z.lor (Z.lor (Z.lor 0 PTE_P) PTE_W) PTE_PS in
  <[Z.to_nat (Z.shiftr KERNBASE PDXSHIFT) := pde]> (<[0%nat := pde]> (replicate (Z.to_nat NPDENTRIES) 0)).

(** How the CPU translates an address by a directory of 4 Mbyte pages. *)
Definition walk4M (dir : list Z) (va : Z) : option Z :=
  let pde := nth (Z.to_nat (PDX va)) dir 0 in
  if negb (Z.land pde PTE_P =? 0) && negb (Z.land pde PTE_PS =? 0) then Some (Z.shiftl (Z.shiftr pde 22) 22 + va mod 2 ^ 22) else None.

(** * Starting the CPUs *)

Record svars := mkStart { s_lapic : lvars; s_free : kmem }.

Section start.
Context `{Hardware}.
Local Abbreviation MD := (M (driver svars)).
Context (ids : list Z).
(** Where [cpus[i].started], [mpenter] and [entrypgdir] are. *)
Context (started_at : nat -> Z) (mpenter pgdir : Z).

Definition on_lapic {A} : M (driver lvars) A -> MD A :=
  zoom (fun s => mkDriver (hist s) (s_lapic (vars s))) (fun s' s => mkDriver (hist s') (mkStart (vars s') (s_free (vars s)))).
Definition on_free {A} : M kmem A -> MD A :=
  zoom (fun s => s_free (vars s)) (fun f s => mkDriver (hist s) (mkStart (s_lapic (vars s)) f)).

(** proc.c [mycpu], with the flag [FL_IF] of the CPU. *)
Fixpoint find_cpu (apicid : Z) (i : nat) (l : list Z) : option nat :=
  match l with
  | [] => None
  | x :: l => if x =? apicid then Some i else find_cpu apicid (S i) l
  end.
Definition mycpu (fl_if : bool) : MD nat :=
  if fl_if then panic "mycpu called with interrupts enabled"
  else
    let* apicid := on_lapic lapicid in
    match find_cpu apicid 0 ids with
    | Some i => ret i
    | None => panic "unknown apicid"
    end.

Definition code : Z := P2V 0x7000.

(** The body of the loop of [startothers] for CPU [c], and the loop; [polls] bounds the wait. *)
Definition startother (polls : nat) (c : nat) (apicid : Z) : MD unit :=
  let* me := mycpu false in
  if (c =? me)%nat then ret tt
  else
    let* stack := on_free kalloc in
    wr (code - 4) (u32 (stack + KSTACKSIZE)) ;;
    wr (code - 8) mpenter ;;
    wr (code - 12) (V2P pgdir) ;;
    on_lapic (lapicstartap apicid (V2P code)) ;;
    while_loop polls tt (fun _ =>
      let* started := rd (started_at c) in
      ret (if started =? 0 then inl tt else inr tt)).
Fixpoint startothers_from (polls : nat) (c : nat) (l : list Z) : MD unit :=
  match l with
  | [] => ret tt
  | apicid :: l => startother polls c apicid ;; startothers_from polls (S c) l
  end.
(** [entryother] is the image of entryother.S. *)
Definition startothers (polls : nat) (entryother : bytes) : MD unit :=
  on_lapic (set_var (fun v => mkLapic (l_lapic v) (store_bytes (l_mem v) code entryother))) ;;
  startothers_from polls 0 ids.
End start.

(** * The directory maps the first 4 Mbytes twice, and nothing else *)

Lemma entrypgdir_maps va : 0 <= va < 2 ^ 32 ->
  walk4M entrypgdir va = if (va <? 2 ^ 22) then Some va else if (KERNBASE <=? va) && (va <? KERNBASE + 2 ^ 22) then Some (V2P va) else None.
Proof.
  intros Hva. unfold walk4M. assert (Hp : PDX va = va / 2 ^ 22).
  { unfold PDX. change 1023 with (Z.ones 10). rewrite Z.land_ones, Z.shiftr_div_pow2 by lia. apply Z.mod_small. split; [apply Z.div_pos; lia|apply Z.div_lt_upper_bound; lia]. }
  rewrite Hp. assert (Hd : 0 <= va / 2 ^ 22 < 1024) by (split; [apply Z.div_pos; lia|apply Z.div_lt_upper_bound; lia]).
  assert (Hn : nth (Z.to_nat (va / 2 ^ 22)) entrypgdir 0 = if (va / 2 ^ 22 =? 0) || (va / 2 ^ 22 =? 512) then 131 else 0).
  { assert (Hall : forallb (fun k => nth k entrypgdir 0 =? (if (Z.of_nat k =? 0) || (Z.of_nat k =? 512) then 131 else 0)) (seq 0 1024) = true) by (vm_compute; reflexivity).
    rewrite forallb_forall in Hall. specialize (Hall (Z.to_nat (va / 2 ^ 22))). rewrite Z2Nat.id in Hall by lia. apply Z.eqb_eq, Hall, in_seq. lia. }
  rewrite Hn. clear Hn Hp. unfold KERNBASE. pose proof (Z.div_mod va (2 ^ 22) ltac:(lia)) as Hdm. pose proof (Z.mod_pos_bound va (2 ^ 22) ltac:(lia)).
  change (2 ^ 22) with 4194304 in *.
  destruct (Z.eqb_spec (va / 4194304) 0) as [E|E]; [|destruct (Z.eqb_spec (va / 4194304) 512) as [E'|E']]; cbn [orb].
  - rewrite (proj2 (Z.ltb_lt _ _)) by lia. change (Some (0 + va mod 4194304) = Some va). f_equal. lia.
  - rewrite (proj2 (Z.ltb_ge _ _)), (proj2 (Z.leb_le _ _)), (proj2 (Z.ltb_lt _ _)) by lia. change (Some (0 + va mod 4194304) = Some (V2P va)). f_equal.
    unfold V2P, KERNBASE. rewrite u32_small; lia.
  - rewrite (proj2 (Z.ltb_ge _ _)) by lia. destruct (Z.leb_spec 2147483648 va); [|done]. by rewrite (proj2 (Z.ltb_ge _ _)) by lia.
Qed.

(** Each other CPU starts with a stack of its own, and the words that tell it so
    are not changed before it is up. *)

(** The three words before the start code: the stack, where to enter, the page directory. *)
Definition words (h : list event) : option Z * option Z * option Z := (reg_of h (code - 4), reg_of h (code - 8), reg_of h (code - 12)).
Definition given (mpenter pgdir stack : Z) : option Z * option Z * option Z :=
  (Some (u32 (stack + KSTACKSIZE)), Some mpenter, Some (V2P pgdir)).

(** The startup messages of a history: to whom, the address of the code, and the words at that time. *)
Record launch := mkLaunch { la_dest : Z; la_addr : Z; la_words : option Z * option Z * option Z }.
Fixpoint launches (lap : Z) (h : list event) : list launch :=
  match h with
  | Wr a v :: h =>
      if (a =? lap + 4 * ICRLO) && (Z.land v 0x700 =? STARTUP)
      then launches lap h ++ [mkLaunch (Z.shiftr (default 0 (reg_of h (lap + 4 * ICRHI))) 24) (Z.shiftl (Z.land v 0xff) 12) (words h)]
      else launches lap h
  | _ :: h => launches lap h
  | [] => []
  end.

(** What the machine does: the id of this CPU, and that a CPU that was sent a
    startup message sets its flag before it was polled [up_polls] times. *)
Class CpusUp (hw : Hardware) (lap : Z) (ids : list Z) (started_at : nat -> Z) (me : nat) := {
  up_polls : nat;
  up_me : forall h, ids !! me = Some (Z.shiftr (answer h (Rd (lap + 4 * ID))) 24);
  up_starts : forall i id h x, ids !! i = Some id -> last (launches lap h) = Some x -> la_dest x = id -> la_addr x = 0x7000 ->
    answer (replicate up_polls (Rd (started_at i)) ++ h) (Rd (started_at i)) <> 0
}.

Section start.
Context {hw : Hardware} (lap : Z) (ids : list Z) (started_at : nat -> Z) (mpenter pgdir : Z) (me : nat).
Context {UP : CpusUp hw lap ids started_at me}.
(** The controller, the flags and the words are apart. *)
Context (Hlap : 0xF0000000 <= lap).
Context (Hst : forall i, (i < length ids)%nat -> KERNBASE + 0x100000 <= started_at i < 0xF0000000).
Context (Hids : NoDup ids) (Hids256 : Forall (fun id => 0 <= id < 256) ids).
Local Abbreviation st := (driver svars).

Definition is_started (a : Z) : bool := bool_decide (a ∈ map started_at (seq 0 (length ids))).
(** The flags that were seen set, and the words at that time. *)
Fixpoint arrivals (h : list event) : list (Z * (option Z * option Z * option Z)) :=
  match h with
  | Rd a :: h => if is_started a && negb (answer h (Rd a) =? 0) then arrivals h ++ [(a, words h)] else arrivals h
  | _ :: h => arrivals h
  | [] => []
  end.

(** ** The messages *)

Definition lw (i v : Z) (h : list event) : list event := Rd (lap + 4 * ID) :: Wr (lap + 4 * i) (u32 v) :: h.
Definition startap_hist (apicid addr : Z) (h : list event) : list event :=
  let d := Z.shiftl apicid 24 in let go := Z.lor STARTUP (Z.shiftr addr 12) in
  lw ICRLO go (lw ICRHI d (lw ICRLO go (lw ICRHI d (lw ICRLO (Z.lor INIT LEVEL) (lw ICRLO (Z.lor (Z.lor INIT LEVEL) ASSERT) (lw ICRHI d
    (Out (CMOS_PORT + 1) (u8 0x0A) :: Out CMOS_PORT (u8 0xF) :: h))))))).
Definition startap_mem (addr : Z) (m : mem) : mem :=
  st16 (st16 m (P2V 0x467) 0) (P2V 0x467 + 2) (u16 (Z.shiftr addr 4)).

Lemma wp_startap apicid addr (s : driver lvars) (Q : unit -> driver lvars -> Prop) : l_lapic (vars s) = lap ->
  Q tt (mkDriver (startap_hist apicid addr (hist s)) (mkLapic lap (startap_mem addr (l_mem (vars s))))) ->
  wp (lapicstartap apicid addr) s Q.
Proof.
  intros Hl HQ. unfold lapicstartap, for_loop. repeat (hw_step || (apply wp_lapicw; cbn [hist vars l_lapic l_mem])). rewrite Hl. exact HQ.
Qed.

Lemma words_far a v h : 0xF0000000 <= a -> words (Wr a v :: h) = words h.
Proof. intros Ha. unfold words. cbn [reg_of]. change code with 2147512320. by rewrite !(proj2 (Z.eqb_neq a _)) by lia. Qed.

Lemma words_lw i v h : 0 <= i -> words (lw i v h) = words h.
Proof. intros Hi. unfold lw. change (words (Wr (lap + 4 * i) (u32 v) :: h) = words h). apply words_far. lia. Qed.
Lemma id_not_started : is_started (lap + 4 * ID) = false.
Proof. apply bool_decide_eq_false_2. intros (k & E & Hk%elem_of_seq)%list_elem_of_fmap. specialize (Hst k ltac:(lia)). change ID with 8 in E. lia. Qed.
Lemma arrivals_id h : arrivals (Rd (lap + 4 * ID) :: h) = arrivals h.
Proof. cbn [arrivals]. by rewrite id_not_started. Qed.
Lemma arrivals_lw i v h : arrivals (lw i v h) = arrivals h.
Proof. unfold lw. by rewrite arrivals_id. Qed.

Lemma startap_words apicid addr h : words (startap_hist apicid addr h) = words h.
Proof. unfold startap_hist. by rewrite !words_lw. Qed.
Lemma startap_arrivals apicid addr h : arrivals (startap_hist apicid addr h) = arrivals h.
Proof. unfold startap_hist. by rewrite !arrivals_lw. Qed.

Lemma launches_lw i v h : launches lap (lw i v h) =
  if (i =? ICRLO) && (Z.land (u32 v) 0x700 =? STARTUP)
  then launches lap h ++ [mkLaunch (Z.shiftr (default 0 (reg_of h (lap + 4 * ICRHI))) 24) (Z.shiftl (Z.land (u32 v) 0xff) 12) (words h)]
  else launches lap h.
Proof. unfold lw. cbn [launches]. destruct (Z.eqb_spec i ICRLO), (Z.eqb_spec (lap + 4 * i) (lap + 4 * ICRLO)); (done || lia). Qed.
Lemma reg_of_lw i v h j : reg_of (lw i v h) (lap + 4 * j) = if i =? j then Some (u32 v) else reg_of h (lap + 4 * j).
Proof. unfold lw. by rewrite reg_of_read, reg_of_next. Qed.

Lemma startap_launches apicid h : 0 <= apicid < 256 ->
  launches lap (startap_hist apicid 0x7000 h) = launches lap h ++ replicate 2 (mkLaunch apicid 0x7000 (words h)).
Proof.
  intros Ha. unfold startap_hist. rewrite !launches_lw, !reg_of_lw, !words_lw by done.
  change (Z.land (u32 (Z.lor STARTUP (Z.shiftr 28672 12))) 1792 =? STARTUP) with true.
  change (Z.land (u32 (Z.lor INIT LEVEL)) 1792 =? STARTUP) with false. change (Z.land (u32 (Z.lor (Z.lor INIT LEVEL) ASSERT)) 1792 =? STARTUP) with false.
  change (ICRHI =? ICRLO) with false. change (ICRLO =? ICRLO) with true. change (ICRHI =? ICRHI) with true. cbn [andb default from_option]. unfold id.
  rewrite (u32_small (Z.shiftl apicid 24)) by (rewrite Z.shiftl_mul_pow2 by lia; lia).
  rewrite Z.shiftr_shiftl_l by lia. change (Z.shiftl (Z.land (u32 (Z.lor STARTUP (Z.shiftr 28672 12))) 255) 12) with 28672.
  change (24 - 24) with 0. rewrite Z.shiftl_0_r, <- app_assoc. done.
Qed.

(** ** The wait *)

Lemma reads_keep k a h : words (replicate k (Rd a) ++ h) = words h /\ launches lap (replicate k (Rd a) ++ h) = launches lap h.
Proof. induction k as [|k [IH1 IH2]]; [done|]. cbn [replicate app]. split; [exact IH1|exact IH2]. Qed.

Lemma wp_poll i (s : st) (Q : unit -> st -> Prop) : (i < length ids)%nat ->
  answer (replicate up_polls (Rd (started_at i)) ++ hist s) (Rd (started_at i)) <> 0 ->
  (forall h, words h = words (hist s) -> launches lap h = launches lap (hist s) -> arrivals h = arrivals (hist s) ++ [(started_at i, words (hist s))] ->
     Q tt (mkDriver h (vars s))) ->
  wp (while_loop (S up_polls) tt (fun _ => let* started := rd (started_at i) in ret (if started =? 0 then inl tt else inr tt))) s Q.
Proof.
  intros Hi Hup HQ. set (r := Rd (started_at i)) in *.
  assert (His : is_started (started_at i) = true) by (apply bool_decide_eq_true_2, list_elem_of_fmap; exists i; split; [done|apply elem_of_seq; lia]).
  apply (wp_while_loop (fun k _ s' => exists j, (j + k = S up_polls)%nat /\ (j <= up_polls)%nat /\
    arrivals (replicate j r ++ hist s) = arrivals (hist s) /\ s' = mkDriver (replicate j r ++ hist s) (vars s))).
  - exists O. split_and!; [lia|lia|done|by destruct s].
  - intros _ s' (j & ? & ? & _). lia.
  - intros k _ s' (j & Hj & Hle & Har & ->). do 3 hw_step. fold r. destruct (reads_keep j (started_at i) (hist s)) as [E1 E2]. fold r in E1, E2.
    destruct (answer (replicate j r ++ hist s) r =? 0) eqn:Ea.
    + exists (S j). split_and!; [lia| | |done].
      * destruct (decide (j = up_polls)) as [->|]; [|lia]. by apply Z.eqb_eq in Ea.
      * cbn [replicate app arrivals]. unfold r at 1. fold r. by rewrite Ea, andb_false_r.
    + apply HQ; [exact E1|exact E2|]. unfold r at 1. cbn [arrivals]. fold r. by rewrite His, Ea, Har, E1.
Qed.

(** ** One CPU *)

Lemma find_cpu_here id l k i : NoDup l -> l !! k = Some id -> find_cpu id i l = Some (i + k)%nat.
Proof.
  revert k i. induction l as [|x l IH]; intros [|k] i Hn Hk; cbn in Hk; try done; apply NoDup_cons in Hn as [Hx Hn]; cbn [find_cpu].
  - simplify_eq. by rewrite Z.eqb_refl, Nat.add_0_r.
  - rewrite (proj2 (Z.eqb_neq _ _)), (IH k (S i)) by (done || (intros ->; apply Hx; by eapply list_elem_of_lookup_2)). f_equal. lia.
Qed.

Lemma wp_mycpu (s : st) (Q : nat -> st -> Prop) : l_lapic (s_lapic (vars s)) = lap ->
  Q me (mkDriver (Rd (lap + 4 * ID) :: hist s) (vars s)) -> wp (mycpu ids false) s Q.
Proof.
  intros Hl HQ. unfold mycpu. hw_step. unfold on_lapic, lapicid. apply wp_zoom. hw_step. hw_step. rewrite Hl, (proj2 (Z.eqb_neq _ _)) by lia.
  hw_step. apply wp_lapicr. cbn [hist vars]. rewrite Hl. hw_step. rewrite (find_cpu_here _ ids me) by (done || apply up_me). cbn [Nat.add]. hw_step.
  destruct s as [h [l f]]. exact HQ.
Qed.

(** The state: the controller, the free pages [l] and the image of the start code. *)
Definition start_ok (kend : Z) (image : bytes) (l : list Z) (s : st) : Prop :=
  l_lapic (s_lapic (vars s)) = lap /\ kmem_rep kend (s_free (vars s)) l /\ bytes_at (l_mem (s_lapic (vars s))) code (length image) = image.

Lemma startap_image addr m n : bytes_at (startap_mem addr m) code n = bytes_at m code n.
Proof.
  apply bytes_at_ext. intros x Hx. unfold startap_mem, st16. rewrite !store_bytes_spec, !length_le.
  change code with 2147512320 in Hx. change (P2V 0x467) with 2147484775. rewrite !(proj2 (Z.ltb_ge x _)) by lia. by rewrite !andb_false_r.
Qed.

Lemma last_app_replicate {A} (l : list A) x : last (l ++ replicate 2 x) = Some x.
Proof. cbn [replicate]. rewrite last_app. done. Qed.

Lemma wp_startother kend image c id v l (s : st) : ids !! c = Some id -> c <> me -> start_ok kend image (v :: l) s ->
  wp (startother ids started_at mpenter pgdir (S up_polls) c id) s (fun _ s' => start_ok kend image l s' /\
    launches lap (hist s') = launches lap (hist s) ++ replicate 2 (mkLaunch id 0x7000 (given mpenter pgdir v)) /\
    arrivals (hist s') = arrivals (hist s) ++ [(started_at c, given mpenter pgdir v)]).
Proof.
  intros Hc Hne (Hl & Hf & Hcode). assert (Hid : 0 <= id < 256) by (by eapply (Forall_lookup_1 _ _ c id Hids256)).
  assert (Hcl : (c < length ids)%nat) by (by eapply lookup_lt_Some).
  unfold startother. hw_step. apply wp_mycpu; [done|]. rewrite (proj2 (Nat.eqb_neq _ _)) by done.
  hw_step. unfold on_free. apply wp_zoom. eapply wp_kalloc; [exact Hf|done|]. cbn [hist vars s_lapic]. intros v' l' f' [= <- <-] Hf' _.
  do 7 hw_step. unfold on_lapic. apply wp_zoom. apply wp_startap; [done|]. cbn [hist vars s_lapic s_free].
  change (V2P code) with 28672. set (h := Wr (code - 12) _ :: _).
  assert (Hw : words h = given mpenter pgdir v).
  { unfold h, words, given. cbn [reg_of]. change code with 2147512320. reflexivity. }
  assert (Hlh : launches lap h = launches lap (hist s)).
  { unfold h. cbn [launches]. change code with 2147512320. change ICRLO with 192. by rewrite !(proj2 (Z.eqb_neq _ (lap + 4 * 192))) by lia. }
  assert (Hah : arrivals h = arrivals (hist s)).
  { unfold h. cbn [arrivals]. by rewrite id_not_started. }
  apply wp_poll; [done| |].
  - eapply up_starts; [exact Hc|cbn [hist]; rewrite startap_launches by done; apply last_app_replicate|done|done].
  - cbn [hist vars s_lapic]. intros h' _ E2 E3. rewrite E2, E3, startap_launches, startap_arrivals, startap_words, Hlh, Hah, Hw by done.
    split; [|done]. unfold start_ok. cbn [hist vars s_lapic s_free l_lapic l_mem]. split_and!; [done|done|by rewrite startap_image].
Qed.

Lemma wp_startother_me kend image id l (s : st) (Q : unit -> st -> Prop) : start_ok kend image l s ->
  (forall s', start_ok kend image l s' -> launches lap (hist s') = launches lap (hist s) -> arrivals (hist s') = arrivals (hist s) -> Q tt s') ->
  wp (startother ids started_at mpenter pgdir (S up_polls) me id) s Q.
Proof.
  intros Hs HQ. pose proof Hs as (Hl & _). unfold startother. hw_step. apply wp_mycpu; [done|]. rewrite Nat.eqb_refl. hw_step.
  apply HQ; [exact Hs|done|apply arrivals_id].
Qed.

(** ** All of them *)

(** The CPUs from [c] on but this one. *)
Fixpoint others (c : nat) (l : list Z) : list (nat * Z) :=
  match l with [] => [] | id :: l => (if (c =? me)%nat then [] else [(c, id)]) ++ others (S c) l end.
Definition started_with (new : list (nat * Z * Z)) (s s' : st) : Prop :=
  launches lap (hist s') = launches lap (hist s) ++ flat_map (fun x => replicate 2 (mkLaunch x.1.2 0x7000 (given mpenter pgdir x.2))) new /\
  arrivals (hist s') = arrivals (hist s) ++ map (fun x => (started_at x.1.1, given mpenter pgdir x.2)) new.

Lemma wp_startothers_from kend image rest : forall c l (s : st), (forall k id, rest !! k = Some id -> ids !! (c + k)%nat = Some id) ->
  (length (others c rest) <= length l)%nat -> start_ok kend image l s ->
  wp (startothers_from ids started_at mpenter pgdir (S up_polls) c rest) s (fun _ s' =>
    start_ok kend image (drop (length (others c rest)) l) s' /\ started_with (zip (others c rest) l) s s').
Proof.
  induction rest as [|id rest IH]; intros c l s Hr Hl Hs.
  { cbn [startothers_from others length drop zip zip_with]. hw_step. split; [done|]. unfold started_with. cbn [flat_map map]. by rewrite !app_nil_r. }
  assert (Hr' : forall k id, rest !! k = Some id -> ids !! (S c + k)%nat = Some id) by (intros k i Hk; replace (S c + k)%nat with (c + S k)%nat by lia; by apply Hr).
  pose proof (Hr O id eq_refl) as Hc. rewrite Nat.add_0_r in Hc. cbn [startothers_from others] in *. hw_step. destruct (Nat.eqb_spec c me) as [->|Hne]; cbn [app] in *.
  - apply (wp_startother_me kend image id l); [done|]. intros s1 Hs1 E1 E2. eapply wp_mono; [apply (IH (S me) l s1 Hr' Hl Hs1)|].
    intros _ s' [H1 [H2 H3]]. split; [done|]. unfold started_with. by rewrite H2, H3, E1, E2.
  - destruct l as [|v l]; [cbn in Hl; lia|]. cbn [length] in Hl. eapply wp_mono; [apply (wp_startother kend image c id v l s Hc Hne Hs)|].
    intros _ s1 (Hs1 & E1 & E2). eapply wp_mono; [apply (IH (S c) l s1 Hr' ltac:(lia) Hs1)|]. intros _ s' [H1 [H2 H3]].
    cbn [length drop zip_with]. split; [done|]. unfold started_with.
    cbn [flat_map map fst snd]. by rewrite H2, H3, E1, E2, <- !app_assoc.
Qed.

(** C20: [startothers] sends each other CPU its startup messages, with the address of
    the start code; at that time the words before the code give a stack of its
    own, [mpenter] and the boot page directory; and they still do when its flag
    is seen set, before the next CPU is sent for. *)
Theorem startothers_correct kend image l (s : st) : l_lapic (s_lapic (vars s)) = lap -> kmem_rep kend (s_free (vars s)) l ->
  (length (others 0 ids) <= length l)%nat ->
  let stacks := take (length (others 0 ids)) l in let new := zip (others 0 ids) stacks in
  NoDup (map snd new) /\ map fst new = others 0 ids /\
  wp (startothers ids started_at mpenter pgdir (S up_polls) image) s (fun _ s' =>
    bytes_at (l_mem (s_lapic (vars s'))) code (length image) = image /\ kmem_rep kend (s_free (vars s')) (drop (length stacks) l) /\
    launches lap (hist s') = launches lap (hist s) ++ flat_map (fun x => replicate 2 (mkLaunch x.1.2 0x7000 (given mpenter pgdir x.2))) new /\
    arrivals (hist s') = arrivals (hist s) ++ map (fun x => (started_at x.1.1, given mpenter pgdir x.2)) new).
Proof.
  intros Hl Hf Hlen stacks new. assert (Hs : length stacks = length (others 0 ids)) by (unfold stacks; rewrite length_take; lia).
  assert (Hz : zip (others 0 ids) l = new) by (unfold new, stacks; symmetry; apply zip_with_take_r).
  split; [unfold new; change (map snd) with (fmap (M:=list) (@snd (nat * Z)%type Z)); rewrite snd_zip by lia; unfold stacks|].
  { pose proof (kr_nodup _ _ _ Hf) as Hn. rewrite <- (take_drop (length (others 0 ids)) l) in Hn. by apply NoDup_app in Hn as [? _]. }
  split; [unfold new; apply fst_zip; lia|]. unfold startothers. hw_step. unfold on_lapic. apply wp_zoom. hw_step.
  eapply wp_mono; [apply (wp_startothers_from kend image ids 0 l); [done|done|]|].
  - unfold start_ok. cbn [vars s_lapic s_free l_lapic l_mem]. split_and!; [done|done|apply bytes_at_store].
  - intros _ s' ((_ & Hf' & Hc') & E1 & E2). cbn [hist] in E1, E2. rewrite <- Hz, Hs. done.
Qed.
End start.

(** A machine of three CPUs with the ids 0, 1 and 5, of which the second runs
    [startothers]; a CPU that was sent for sets its flag at once. *)
#[local] Instance toy_cpus : Hardware := fun h e =>
  match e with
  | Rd a => if a =? 0xFEE00000 + 4 * ID then Z.shiftl 1 24 else 1
  | _ => 0
  end.
#[local] Instance toy_up : CpusUp toy_cpus 0xFEE00000 [0; 1; 5] (fun i => KERNBASE + 0x100000 + 4 * Z.of_nat i) 1.
Proof.
  refine {| up_polls := 0 |}.
  - done.
  - intros i id h x _ _ _ _. cbn [replicate app]. unfold answer, toy_cpus. destruct (_ =? _); discriminate.
Defined.

Lemma startothers_correct_witness :
  let free := mkKmem 2148536320 false {[ 2148536320 := 2148540416; 2148540416 := 0 ]} in
  wp (startothers [0; 1; 5] (fun i => KERNBASE + 0x100000 + 4 * Z.of_nat i) 0x80103000 0x80109000 1 [0xfa; 0x90])
    (mkDriver [] (mkStart (mkLapic 0xFEE00000 (fun _ => 0)) free)) (fun _ s' =>
      map la_dest (launches 0xFEE00000 (hist s')) = [0; 0; 5; 5] /\
      map la_words (launches 0xFEE00000 (hist s')) =
        [given 0x80103000 0x80109000 2148536320; given 0x80103000 0x80109000 2148536320;
         given 0x80103000 0x80109000 2148540416; given 0x80103000 0x80109000 2148540416]).
Proof.
  intros free. destruct (startothers_correct 0xFEE00000 [0; 1; 5] (fun i => KERNBASE + 0x100000 + 4 * Z.of_nat i) 0x80103000 0x80109000 1
    (UP := toy_up) ltac:(lia)) with (kend := 2148532224) (image := [0xfa; 0x90]) (l := [2148536320; 2148540416])
    (s := mkDriver [] (mkStart (mkLapic 0xFEE00000 (fun _ => 0)) free)) as (_ & _ & Hw).
  - cbn [length]. unfold KERNBASE. lia.
  - apply (bool_decide_unpack _). by vm_compute.
  - repeat (apply Forall_cons_2; [lia|]). apply Forall_nil_2.
  - done.
  - split.
    + cbn. split; [done|]. exists 2148540416. split; [by vm_compute|]. split; [done|]. exists 0. by vm_compute.
    + apply (bool_decide_unpack _). by vm_compute.
    + repeat apply Forall_cons_2; try apply Forall_nil_2; unfold page_ok; by vm_compute.
    + repeat apply Forall_cons_2; try apply Forall_nil_2; done.
  - by vm_compute.
  - eapply wp_mono; [exact Hw|]. intros _ s' (_ & _ & -> & _). split; by vm_compute.
Defined.
