(* ===== verification/Entry.v ===== *)
(** bootasm.S, entryother.S, entry.S and asm.h: from the reset of a CPU to C.

    The code is a list of the instructions that it uses, run on the registers
    of the CPU, the hidden parts of its segment registers and physical memory.
    How the CPU loads a segment and translates an address is as its manual
    documents it; the accessed bits that it sets are left out.  The addresses of
    labels are parameters, as is the return address that a [call] pushes. *)
From S2P Require Import Prelude Layout CString Kalloc Vm Hw Boot Cpu Startup.

(** * asm.h *)

Definition SEG_NULLASM : bytes := [0; 0; 0; 0; 0; 0; 0; 0].
Definition SEG_ASM (type base lim : Z) : bytes :=
  le 2 (Z.land (Z.shiftr lim 12) 0xffff) ++ le 2 (Z.land base 0xffff) ++
  [Z.land (Z.shiftr base 16) 0xff; Z.lor 0x90 type; Z.lor 0xC0 (Z.land (Z.shiftr lim 28) 0xf); Z.land (Z.shiftr base 24) 0xff].
(** [gdt] and [gdtdesc], which follows it. *)
Definition asm_gdt : bytes := SEG_NULLASM ++ SEG_ASM (Z.lor STA_X STA_R) 0 0xffffffff ++ SEG_ASM STA_W 0 0xffffffff.
Definition asm_gdtdesc (gdt : Z) : bytes := le 2 (Z.of_nat (length asm_gdt) - 1) ++ le 4 gdt.

(** * The CPU *)

Inductive ereg := AX | SP | IP | CR0 | CR3 | CR4.
Inductive eseg := CS | DS | ES | FS | GS | SS.
Definition ereg_eqb (a b : ereg) : bool :=
  match a, b with AX, AX | SP, SP | IP, IP | CR0, CR0 | CR3, CR3 | CR4, CR4 => true | _, _ => false end.
Definition eseg_eqb (a b : eseg) : bool :=
  match a, b with CS, CS | DS, DS | ES, ES | FS, FS | GS, GS | SS, SS => true | _, _ => false end.

Record hseg := mkHseg { h_sel : Z; h_base : Z; h_limit : Z; h_type : Z }.
Record ecpu := mkE { er : ereg -> Z; sg : eseg -> hseg; e_gdtr : Z * Z; e_if : bool; pm : mem }.

Definition set_er (x : ereg) (v : Z) (c : ecpu) : ecpu := mkE (fun y => if ereg_eqb x y then v else er c y) (sg c) (e_gdtr c) (e_if c) (pm c).
Definition set_sg (x : eseg) (d : hseg) (c : ecpu) : ecpu := mkE (er c) (fun y => if eseg_eqb x y then d else sg c y) (e_gdtr c) (e_if c) (pm c).

Definition CR0_PE : Z := 0x00000001.
Definition CR0_WP : Z := 0x00010000.
Definition CR0_PG : Z := 0x80000000.
Definition CR4_PSE : Z := 0x00000010.

(** The physical address of a linear address. *)
Definition translate (c : ecpu) (va : Z) : option Z :=
  if negb (Z.testbit (er c CR0) 31) then Some va
  else
    let pde := ld32 (pm c) (Z.shiftl (Z.shiftr (er c CR3) 12) 12 + 4 * PDX va) in
    if negb (Z.testbit pde 0) then None
    else if Z.testbit pde 7 && Z.testbit (er c CR4) 4 then Some (Z.shiftl (Z.shiftr pde 22) 22 + va mod 2 ^ 22)
    else
      let pte := ld32 (pm c) (Z.shiftl (Z.shiftr pde 12) 12 + 4 * PTX va) in
      if negb (Z.testbit pte 0) then None else Some (Z.shiftl (Z.shiftr pte 12) 12 + va mod 2 ^ 12).

(** A segment register loaded with [sel]: [None] is a fault. *)
Definition descriptor (c : ecpu) (sel : Z) : option Z :=
  let off := 8 * Z.shiftr sel 3 in
  if fst (e_gdtr c) <? off + 7 then None
  else match translate c (u32 (snd (e_gdtr c) + off)) with Some a => Some (unle (bytes_at (pm c) a 8)) | None => None end.
Definition seg_usable (s : eseg) (w : Z) : bool :=
  (bits w 47 1 =? 1) && (bits w 44 1 =? 1) &&
  match s with
  | CS => bits w 43 1 =? 1
  | SS => (bits w 43 1 =? 0) && (bits w 41 1 =? 1)
  | _ => (bits w 43 1 =? 0) || (bits w 41 1 =? 1)
  end.
Definition load_seg (s : eseg) (sel : Z) (c : ecpu) : option ecpu :=
  if negb (Z.testbit (er c CR0) 0) then Some (set_sg s (mkHseg sel (16 * sel) 0xffff 3) c)
  else if Z.shiftr sel 2 =? 0 then
    match s with CS | SS => None | _ => Some (set_sg s (mkHseg sel 0 (-1) 0) c) end
  else
    match descriptor c sel with
    | Some w => if seg_usable s w then Some (set_sg s (mkHseg sel (seg_base w) (seg_limit w) (bits w 40 4)) c) else None
    | None => None
    end.

(** The physical address of a word of a segment. *)
Definition seg_addr (s : eseg) (off : Z) (c : ecpu) : option Z :=
  if h_limit (sg c s) <? off + 3 then None else translate c (u32 (h_base (sg c s) + off)).

(** * The instructions *)

Inductive einstr :=
| Cli
| XorAx                                    (* xorw %ax, %ax *)
| MovSeg (s : eseg)                        (* movw %ax, s *)
| MovwAx (v : Z)                           (* movw $v, %ax *)
| Lgdt (a : Z)
| FromCr (x : ereg)                        (* movl x, %eax *)
| OrAx (v : Z)
| ToCr (x : ereg)                          (* movl %eax, x *)
| Ljmp (sel off : Z)
| MovI (v : Z) (x : ereg)                  (* movl $v, x *)
| MovM (a : Z) (x : ereg)                  (* movl (a), x *)
| CallI (target back : Z)
| CallM (a back : Z)                       (* call *(a) *)
| JmpAx                                    (* jmp *%eax *)
| WaitKbd (polls : nat)                    (* inb $0x64, %al; testb $2, %al; jnz *)
| OutAl (v port : Z).                      (* movb $v, %al; outb %al, $port *)

Section run.
Context `{Hardware}.
Local Abbreviation MD := (M (driver ecpu)).
(** A fault resets the CPU, which has no handlers yet. *)
Definition try (f : ecpu -> option ecpu) : MD unit :=
  let* c := var in
  match f c with Some c' => set_var (fun _ => c') | None => panic "triple fault" end.

Definition set_ax16 (v : Z) (c : ecpu) : ecpu := set_er AX (Z.shiftl (Z.shiftr (er c AX) 16) 16 + v) c.
Definition set_al (v : Z) (c : ecpu) : ecpu := set_er AX (Z.shiftl (Z.shiftr (er c AX) 8) 8 + v) c.
Definition call (target back : Z) (c : ecpu) : option ecpu :=
  let sp := u32 (er c SP - 4) in
  match seg_addr SS sp c with
  | Some a => Some (mkE (er (set_er IP target (set_er SP sp c))) (sg c) (e_gdtr c) (e_if c) (store_bytes (pm c) a (le 4 back)))
  | None => None
  end.

Definition estep (i : einstr) : MD unit :=
  match i with
  | Cli => try (fun c => Some (mkE (er c) (sg c) (e_gdtr c) false (pm c)))
  | XorAx => try (fun c => Some (set_ax16 0 c))
  | MovSeg s => try (fun c => load_seg s (u16 (er c AX)) c)
  | MovwAx v => try (fun c => Some (set_ax16 v c))
  | Lgdt a =>
      (* with 16-bit operands: 24 bits of the address *)
      try (fun c => match seg_addr DS a c with
                    | Some p => Some (mkE (er c) (sg c) (ld16 (pm c) p, ld32 (pm c) (p + 2) mod 2 ^ 24) (e_if c) (pm c))
                    | None => None
                    end)
  | FromCr x => try (fun c => Some (set_er AX (er c x) c))
  | OrAx v => try (fun c => Some (set_er AX (Z.lor (er c AX) v) c))
  | ToCr x => try (fun c => Some (set_er x (er c AX) c))
  | Ljmp sel off => try (fun c => match load_seg CS sel c with Some c' => Some (set_er IP off c') | None => None end)
  | MovI v x => try (fun c => Some (set_er x v c))
  | MovM a x => try (fun c => match seg_addr DS a c with Some p => Some (set_er x (ld32 (pm c) p) c) | None => None end)
  | CallI target back => try (call target back)
  | CallM a back => try (fun c => match seg_addr DS a c with Some p => call (ld32 (pm c) p) back c | None => None end)
  | JmpAx => try (fun c => Some (set_er IP (er c AX) c))
  | WaitKbd polls =>
      while_loop polls tt (fun _ =>
        let* al := inb 0x64 in
        set_var (set_al al) ;;
        ret (if negb (Z.land al 2 =? 0) then inl tt else inr tt))
  | OutAl v port => set_var (set_al v) ;; outb port v
  end.
Fixpoint erun (l : list einstr) : MD unit :=
  match l with [] => ret tt | i :: l => estep i ;; erun l end.
End run.

(** * The code *)

(** What bootasm.S and entryother.S have in common: up to the switch to
    protected mode but for the A20 line, and the data segments. *)
Definition real_segs : list einstr := [Cli; XorAx; MovSeg DS; MovSeg ES; MovSeg SS].
Definition to_protected (gdtdesc start32 : Z) : list einstr :=
  [Lgdt gdtdesc; FromCr CR0; OrAx CR0_PE; ToCr CR0; Ljmp (Z.shiftl SEG_KCODE 3) start32].
Definition flat_segs : list einstr :=
  [MovwAx (Z.shiftl SEG_KDATA 3); MovSeg DS; MovSeg ES; MovSeg SS; MovwAx 0; MovSeg FS; MovSeg GS].

(** [start] of bootasm.S, up to the call of [bootmain]. *)
Definition bootasm (polls : nat) (start gdtdesc start32 bootmain back : Z) : list einstr :=
  real_segs ++ [WaitKbd polls; OutAl 0xd1 0x64; WaitKbd polls; OutAl 0xdf 0x60] ++ to_protected gdtdesc start32 ++
  flat_segs ++ [MovI start SP; CallI bootmain back].

(** [start] of entryother.S, up to the call of [mpenter]. *)
Definition entryother (start gdtdesc start32 back : Z) : list einstr :=
  real_segs ++ to_protected gdtdesc start32 ++ flat_segs ++
  [FromCr CR4; OrAx CR4_PSE; ToCr CR4; MovM (start - 12) AX; ToCr CR3;
   FromCr CR0; OrAx (Z.lor (Z.lor CR0_PE CR0_PG) CR0_WP); ToCr CR0; MovM (start - 4) SP; CallM (start - 8) back].

(** [entry] of entry.S. *)
Definition entry (pgdir stack main : Z) : list einstr :=
  [FromCr CR4; OrAx CR4_PSE; ToCr CR4; MovI (V2P pgdir) AX; ToCr CR3; FromCr CR0; OrAx (Z.lor CR0_PG CR0_WP); ToCr CR0;
   MovI (stack + KSTACKSIZE) SP; MovI main AX; JmpAx].

(** A CPU that starts in real mode reaches C in protected mode with flat segments,
    and, where paging is turned on, with the first 4 Mbytes mapped twice. *)

(** The segments of the boot code, as the CPU holds them. *)
Definition real_data : hseg := mkHseg 0 0 0xffff 3.
Definition kcode : hseg := mkHseg 8 0 0xffffffff (Z.lor STA_X STA_R).
Definition kdata : hseg := mkHseg 16 0 0xffffffff STA_W.
Definition null_seg : hseg := mkHseg 0 0 (-1) 0.

(** The tables of the code in memory, below 64 Kbytes. *)
Definition has_gdt (m : mem) (gdt : Z) : Prop :=
  0 <= gdt /\ gdt + 30 <= 2 ^ 16 /\ bytes_at m gdt 24 = asm_gdt /\ bytes_at m (gdt + 24) 6 = asm_gdtdesc gdt.
(** In real mode: no protection, no paging. *)
Definition real (c : ecpu) : Prop := Z.testbit (er c CR0) 0 = false /\ Z.testbit (er c CR0) 31 = false.
(** Only [eax] differs. *)
Definition same_regs (c c' : ecpu) : Prop := forall x, x <> AX -> er c' x = er c x.

Lemma set_ax16_low c v : 0 <= v < 2 ^ 16 -> u16 (er (set_ax16 v c) AX) = v.
Proof.
  intros Hv. unfold set_ax16, set_er. cbn [er ereg_eqb]. unfold u16. rewrite Z.shiftl_mul_pow2, Z.add_comm, Z.mod_add by lia. by apply Z.mod_small.
Qed.

Section enter.
Context `{Hardware}.
Local Abbreviation st := (driver ecpu).

Lemma wp_e_try f (s : st) c' (Q : unit -> st -> Prop) : f (vars s) = Some c' -> Q tt (mkDriver (hist s) c') -> wp (try f) s Q.
Proof. intros Hf HQ. unfold try. hw_step. hw_step. rewrite Hf. by hw_step. Qed.
Lemma wp_erun_app l1 l2 (s : st) (Q : unit -> st -> Prop) : wp (erun l1) s (fun _ s' => wp (erun l2) s' Q) -> wp (erun (l1 ++ l2)) s Q.
Proof.
  revert s. induction l1 as [|i l1 IH]; intros s Hw; [exact Hw|]. cbn [app erun] in *.
  unfold wp at 1, bind in Hw. unfold wp, bind. destruct (estep i s) as [[] s'| | | | |]; try done. exact (IH s' Hw).
Qed.

Lemma wp_erun_cons i l (s : st) (Q : unit -> st -> Prop) : wp (estep i) s (fun _ s' => wp (erun l) s' Q) -> wp (erun (i :: l)) s Q.
Proof. intros Hw. cbn [erun]. by apply wp_bind. Qed.

(** Runs the next instruction, whose effect is [c']. *)
Ltac e_step := apply wp_erun_cons; cbn [estep]; eapply wp_e_try; [cbn [vars]; reflexivity|]; cbn [hist].

(** ** Real mode *)

Lemma load_seg_real s sel c : Z.testbit (er c CR0) 0 = false -> load_seg s sel c = Some (set_sg s (mkHseg sel (16 * sel) 0xffff 3) c).
Proof. intros E. unfold load_seg. by rewrite E. Qed.

Lemma wp_real_segs (s : st) (Q : unit -> st -> Prop) : real (vars s) ->
  (forall c, same_regs (vars s) c -> sg c DS = real_data -> sg c ES = real_data -> sg c SS = real_data ->
     e_if c = false -> pm c = pm (vars s) -> Q tt (mkDriver (hist s) c)) -> wp (erun real_segs) s Q.
Proof.
  intros [Hr _] HQ. unfold real_segs. e_step. e_step.
  do 3 (apply wp_erun_cons; cbn [estep]; eapply wp_e_try; [cbn [vars]; rewrite load_seg_real by exact Hr; reflexivity|]; cbn [hist]).
  cbn [erun]. hw_step. apply HQ; cbn [set_sg sg er e_if pm eseg_eqb]; rewrite ?set_ax16_low by lia; try done.
  intros x Hx. unfold set_ax16, set_er. cbn [er]. by destruct x.
Qed.

(** ** Protected mode *)

Lemma bytes_at_part m a k n N : (k + n <= N)%nat -> bytes_at m (a + Z.of_nat k) n = take n (drop k (bytes_at m a N)).
Proof.
  intros Hkn. unfold bytes_at. change (@map nat Z) with (fmap (M:=list) (A:=nat) (B:=Z)). rewrite <- fmap_drop, <- fmap_take, drop_seq, take_seq.
  replace (Nat.min n (N - k)) with n by lia. cbn [Nat.add].
  replace (seq k n) with (Nat.add k <$> seq 0 n) by (rewrite fmap_add_seq; f_equal; lia). rewrite <- list_fmap_compose. apply list_fmap_ext. intros _ j _. cbn. f_equal. lia.
Qed.

(** The two descriptors of the boot tables. *)
Definition code_word : Z := unle (SEG_ASM (Z.lor STA_X STA_R) 0 0xffffffff).
Definition data_word : Z := unle (SEG_ASM STA_W 0 0xffffffff).
Lemma asm_gdt_words m gdt : bytes_at m gdt 24 = asm_gdt ->
  unle (bytes_at m (gdt + 8) 8) = code_word /\ unle (bytes_at m (gdt + 16) 8) = data_word.
Proof.
  intros E. split; [change 8 with (Z.of_nat 8)|change 16 with (Z.of_nat 16)]; rewrite (bytes_at_part _ _ _ _ 24), E by lia; reflexivity.
Qed.

(** What is loaded by [lgdt]. *)
Lemma asm_gdtdesc_words m gdt : 0 <= gdt < 2 ^ 16 -> bytes_at m (gdt + 24) 6 = asm_gdtdesc gdt ->
  ld16 m (gdt + 24) = 23 /\ ld32 m (gdt + 24 + 2) mod 2 ^ 24 = gdt.
Proof.
  intros Hg E. unfold ld16, ld32. split.
  - rewrite <- (Z.add_0_r (gdt + 24)). change 0 with (Z.of_nat 0). rewrite (bytes_at_part _ _ _ _ 6), E by lia. reflexivity.
  - change 2 with (Z.of_nat 2) at 1. rewrite (bytes_at_part _ _ _ _ 6), E by lia.
    change (take 4 (drop 2 (asm_gdtdesc gdt))) with (le 4 gdt). rewrite unle_le_u32 by (unfold is_u32; lia). apply Z.mod_small. lia.
Qed.

(** The CPU has the tables. *)
Definition gdt_loaded (gdt : Z) (c : ecpu) : Prop := has_gdt (pm c) gdt /\ e_gdtr c = (23, gdt).
Definition protected (c : ecpu) : Prop := Z.testbit (er c CR0) 0 = true /\ Z.testbit (er c CR0) 31 = false.

Lemma load_seg_flat s gdt c : protected c -> gdt_loaded gdt c ->
  load_seg CS 8 c = Some (set_sg CS kcode c) /\ (s <> CS -> load_seg s 16 c = Some (set_sg s kdata c)) /\
  (s <> CS -> s <> SS -> load_seg s 0 c = Some (set_sg s null_seg c)).
Proof.
  intros [Hp Hpg] [(Hg & Hg' & Ht & _) Hr]. destruct (asm_gdt_words _ _ Ht) as [Ec Ed].
  assert (Hd : forall off, 0 <= off <= 16 -> 8 * Z.shiftr off 3 = off -> descriptor c off = Some (unle (bytes_at (pm c) (gdt + off) 8))).
  { intros off Ho Eo. unfold descriptor, translate. rewrite Eo, Hr. cbn [fst snd]. rewrite (proj2 (Z.ltb_ge _ _)), Hpg, u32_small by lia. done. }
  unfold load_seg. rewrite Hp. cbn [negb].
  change (Z.shiftr 8 2 =? 0) with false. change (Z.shiftr 16 2 =? 0) with false. change (Z.shiftr 0 2 =? 0) with true. cbv iota.
  rewrite (Hd 8), (Hd 16), Ec, Ed by (lia || reflexivity). split; [reflexivity|]. split; [by destruct s|by destruct s].
Qed.

Lemma wp_to_protected gdt start32 (s : st) (Q : unit -> st -> Prop) : real (vars s) -> has_gdt (pm (vars s)) gdt -> sg (vars s) DS = real_data ->
  (forall c, (forall x, x <> AX -> x <> IP -> x <> CR0 -> er c x = er (vars s) x) -> er c CR0 = Z.lor (er (vars s) CR0) CR0_PE -> er c IP = start32 ->
     gdt_loaded gdt c -> sg c CS = kcode -> e_if c = e_if (vars s) -> pm c = pm (vars s) -> Q tt (mkDriver (hist s) c)) ->
  wp (erun (to_protected (gdt + 24) start32)) s Q.
Proof.
  intros [Hr Hpg] Hg Hds HQ. pose proof Hg as (Hg0 & Hg1 & _ & Hdesc). destruct (asm_gdtdesc_words (pm (vars s)) gdt ltac:(lia) Hdesc) as [E1 E2].
  unfold to_protected. apply wp_erun_cons. cbn [estep]. eapply wp_e_try.
  { cbn [vars]. unfold seg_addr, translate. rewrite Hds, Hpg. cbn [h_limit h_base real_data negb].
    rewrite (proj2 (Z.ltb_ge _ _)), u32_small by lia. rewrite Z.add_0_l, E1, E2. reflexivity. }
  cbn [hist]. e_step. e_step. e_step. apply wp_erun_cons. cbn [estep]. set (c1 := set_er CR0 _ _).
  assert (Ecr : er c1 CR0 = Z.lor (er (vars s) CR0) CR0_PE) by done.
  eapply wp_e_try.
  { cbn [vars]. change (Z.shiftl SEG_KCODE 3) with 8. rewrite (proj1 (load_seg_flat CS gdt c1 ltac:(split; rewrite Ecr, Z.lor_spec, ?Hr, ?Hpg; done) ltac:(split; [exact Hg|done]))). reflexivity. }
  cbn [hist erun]. hw_step. apply HQ; try done. intros x Hx1 Hx2 Hx3. by destruct x.
Qed.

Lemma wp_flat_segs gdt (s : st) (Q : unit -> st -> Prop) : protected (vars s) -> gdt_loaded gdt (vars s) ->
  (forall c, same_regs (vars s) c -> sg c CS = sg (vars s) CS -> sg c DS = kdata -> sg c ES = kdata -> sg c SS = kdata -> sg c FS = null_seg -> sg c GS = null_seg ->
     e_gdtr c = e_gdtr (vars s) -> e_if c = e_if (vars s) -> pm c = pm (vars s) -> Q tt (mkDriver (hist s) c)) -> wp (erun flat_segs) s Q.
Proof.
  intros Hp Hg HQ. unfold flat_segs.
  assert (Hk : forall c, same_regs (vars s) c -> e_gdtr c = e_gdtr (vars s) -> pm c = pm (vars s) -> protected c /\ gdt_loaded gdt c).
  { intros c Hc E1 E2. unfold protected, gdt_loaded. rewrite Hc, E1, E2 by done. done. }
  change (Z.shiftl SEG_KDATA 3) with 16. e_step.
  do 3 (apply wp_erun_cons; cbn [estep]; eapply wp_e_try;
    [cbn [vars]; match goal with |- load_seg ?r _ ?c = _ => change (u16 (er c AX)) with (u16 (er (set_ax16 16 (vars s)) AX)); rewrite set_ax16_low by lia;
      destruct (Hk c) as [H1 H2]; [by intros x Hx; destruct x|done|done|]; exact (proj1 (proj2 (load_seg_flat r gdt c H1 H2)) ltac:(discriminate)) end|]; cbn [hist]).
  e_step. match goal with |- wp _ (mkDriver _ (set_ax16 0 ?c)) _ => pose (c0 := c) end. do 2 (apply wp_erun_cons; cbn [estep]; eapply wp_e_try;
    [cbn [vars]; match goal with |- load_seg ?r _ ?c = _ => change (u16 (er c AX)) with (u16 (er (set_ax16 0 c0) AX)); rewrite set_ax16_low by lia;
      destruct (Hk c) as [H1 H2]; [by intros x Hx; destruct x|done|done|]; exact (proj2 (proj2 (load_seg_flat r gdt c H1 H2)) ltac:(discriminate) ltac:(discriminate)) end|]; cbn [hist]).
  cbn [erun]. hw_step. apply HQ; try done. intros x Hx. by destruct x.
Qed.

(** ** Paging *)

(** The boot page directory is at [dir]. *)
Definition boot_dir (m : mem) (dir : Z) : Prop :=
  0 <= dir /\ dir mod 2 ^ 12 = 0 /\ forall k, (k < 1024)%nat -> ld32 m (dir + 4 * Z.of_nat k) = nth k entrypgdir 0.
Definition low_and_high (va : Z) : option Z :=
  if va <? 2 ^ 22 then Some va else if (KERNBASE <=? va) && (va <? KERNBASE + 2 ^ 22) then Some (V2P va) else None.

Lemma entrypgdir_entry k : (k < 1024)%nat -> nth k entrypgdir 0 = 131 \/ nth k entrypgdir 0 = 0.
Proof.
  intros Hk. assert (Hall : forallb (fun k => (nth k entrypgdir 0 =? 131) || (nth k entrypgdir 0 =? 0)) (seq 0 1024) = true) by (vm_compute; reflexivity).
  rewrite forallb_forall in Hall. specialize (Hall k (proj2 (in_seq 1024 0 k) ltac:(lia))). apply orb_prop in Hall as [E%Z.eqb_eq|E%Z.eqb_eq]; [by left|by right].
Qed.

Lemma translate_boot c va dir : boot_dir (pm c) dir -> er c CR3 = dir -> Z.testbit (er c CR0) 31 = true -> Z.testbit (er c CR4) 4 = true ->
  0 <= va < 2 ^ 32 -> translate c va = low_and_high va.
Proof.
  intros (Hd & Hd' & Hdir) H3 H0 H4 Hva. unfold low_and_high. rewrite <- entrypgdir_maps by done. unfold translate, walk4M. rewrite H0, H3, H4. cbn [negb].
  assert (Hp : 0 <= PDX va < 1024).
  { unfold PDX. change 1023 with (Z.ones 10). rewrite Z.land_ones by lia. apply Z.mod_pos_bound. lia. }
  rewrite Z.shiftr_div_pow2, Z.shiftl_mul_pow2 by lia. replace (dir / 2 ^ 12 * 2 ^ 12) with dir by (pose proof (Z.div_mod dir (2 ^ 12)); lia).
  replace (dir + 4 * PDX va) with (dir + 4 * Z.of_nat (Z.to_nat (PDX va))) by lia. rewrite Hdir by lia.
  destruct (entrypgdir_entry (Z.to_nat (PDX va))) as [-> | ->]; [lia|reflexivity|reflexivity].
Qed.

Lemma flat_addr s off c : sg c s = kdata -> 0 <= off -> off + 4 <= 2 ^ 32 -> seg_addr s off c = translate c off.
Proof. intros E H1 H2. unfold seg_addr. rewrite E. cbn [h_limit h_base kdata]. rewrite (proj2 (Z.ltb_ge _ _)), Z.add_0_l, u32_small by lia. done. Qed.

(** In C: flat segments, no interrupts. *)
Definition flat (c : ecpu) : Prop :=
  sg c CS = kcode /\ sg c DS = kdata /\ sg c ES = kdata /\ sg c SS = kdata /\ sg c FS = null_seg /\ sg c GS = null_seg /\ e_if c = false /\
  Z.testbit (er c CR0) 0 = true.
Definition paged (c : ecpu) : Prop := Z.testbit (er c CR0) 31 = true /\ Z.testbit (er c CR0) 16 = true /\ Z.testbit (er c CR4) 4 = true.

(** The three ways into C.  What they share: real mode to flat segments. *)
Lemma wp_flat gdt start32 rest (s : st) (Q : unit -> st -> Prop) : real (vars s) -> has_gdt (pm (vars s)) gdt -> sg (vars s) DS = real_data -> e_if (vars s) = false ->
  (forall c, flat c -> er c CR0 = Z.lor (er (vars s) CR0) CR0_PE -> er c CR4 = er (vars s) CR4 -> pm c = pm (vars s) ->
     wp (erun rest) (mkDriver (hist s) c) Q) ->
  wp (erun (to_protected (gdt + 24) start32 ++ flat_segs ++ rest)) s Q.
Proof.
  intros Hr Hg Hds Hif HQ. apply wp_erun_app, (wp_to_protected gdt); [done|done|done|]. intros c Hregs Hcr0 _ Hl Hcs Hif1 Hpm.
  assert (Hp : protected c) by (destruct Hr as [H0 H31]; split; rewrite Hcr0, Z.lor_spec, ?H0, ?H31; done).
  apply wp_erun_app, (wp_flat_segs gdt); [done|done|]. cbn [hist vars]. intros c2 Hs2 Hcs2 Hd He Hss Hf Hgs _ Hif2 Hpm2.
  apply HQ; [|by rewrite Hs2|by rewrite Hs2, Hregs|by rewrite Hpm2].
  unfold flat. rewrite Hcs2, Hs2, Hif2, Hif1 by done. destruct Hp. done.
Qed.

(** Paging turned on by a directory whose address is in [eax]. *)
Definition turn_on (v : Z) : list einstr := [ToCr CR3; FromCr CR0; OrAx v; ToCr CR0].
Lemma wp_turn_on v rest (s : st) (Q : unit -> st -> Prop) : flat (vars s) -> boot_dir (pm (vars s)) (er (vars s) AX) ->
  Z.testbit v 31 = true -> Z.testbit v 16 = true -> Z.testbit (er (vars s) CR4) 4 = true ->
  (forall c, flat c -> paged c -> er c CR3 = er (vars s) AX -> pm c = pm (vars s) -> (forall va, 0 <= va < 2 ^ 32 -> translate c va = low_and_high va) ->
     wp (erun rest) (mkDriver (hist s) c) Q) -> wp (erun (turn_on v ++ rest)) s Q.
Proof.
  intros (F1 & F2 & F3 & F4 & F5 & F6 & F7 & F8) Hdir H31 H16 Hpse HQ. unfold turn_on. cbn [app]. do 4 e_step. set (c := set_er CR0 _ _).
  assert (E0 : er c CR0 = Z.lor (er (vars s) CR0) v) by done.
  apply HQ; [|unfold paged; rewrite E0, !Z.lor_spec, H31, H16, !orb_true_r; done|done|done|].
  - unfold flat. rewrite E0, Z.lor_spec, F8. done.
  - intros va Hva. apply (translate_boot c va (er (vars s) AX)); [exact Hdir|done|by rewrite E0, Z.lor_spec, H31, orb_true_r|done|done].
Qed.

Lemma low_translates c off : (forall va, 0 <= va < 2 ^ 32 -> translate c va = low_and_high va) -> sg c DS = kdata -> 0 <= off < 2 ^ 22 -> seg_addr DS off c = Some off.
Proof. intros Ht Hds Ho. rewrite flat_addr, Ht by (done || lia). unfold low_and_high. by rewrite (proj2 (Z.ltb_lt _ _)) by lia. Qed.
Lemma high_translates va : KERNBASE <= va < KERNBASE + 2 ^ 22 -> low_and_high va = Some (V2P va).
Proof. unfold KERNBASE. intros Hv. unfold low_and_high, KERNBASE. rewrite (proj2 (Z.ltb_ge _ _)), (proj2 (Z.leb_le _ _)), (proj2 (Z.ltb_lt _ _)) by lia. done. Qed.

(** A call in C's environment. *)
Lemma call_high target back c dir : flat c -> paged c -> er c CR3 = dir -> boot_dir (pm c) dir -> KERNBASE + 4 <= er c SP <= KERNBASE + 2 ^ 22 ->
  (V2P (er c SP) <= dir \/ dir + 2 ^ 12 <= V2P (er c SP) - 4) ->
  exists c', call target back c = Some c' /\ flat c' /\ paged c' /\ er c' CR3 = dir /\ er c' IP = target /\ er c' SP = er c SP - 4 /\
    pm c' = store_bytes (pm c) (V2P (er c SP) - 4) (le 4 back) /\ boot_dir (pm c') dir.
Proof.
  intros Hf Hp H3 Hdir Hsp Hdis. pose proof Hf as (F1 & F2 & F3 & F4 & F5 & F6 & F7 & F8). pose proof Hp as (P1 & P2 & P3). unfold KERNBASE in *.
  assert (Ev : V2P (er c SP - 4) = V2P (er c SP) - 4) by (unfold V2P, KERNBASE; rewrite !u32_small by lia; lia).
  unfold call. rewrite u32_small by lia.
  rewrite flat_addr, (translate_boot c _ dir), high_translates, Ev by (done || (unfold KERNBASE; lia)). eexists. split; [reflexivity|].
  split_and!; try done. destruct Hdir as (D1 & D2 & D3). split; [done|]. split; [done|]. intros k Hk. rewrite <- D3 by done. cbn [pm]. unfold ld32. f_equal.
  apply bytes_at_ext. intros x Hx. rewrite store_bytes_spec, length_le. change (Z.of_nat 4) with 4 in *.
  destruct (Z.leb_spec (V2P (er c SP) - 4) x), (Z.ltb_spec x (V2P (er c SP) - 4 + 4)); cbn [andb]; (done || lia).
Qed.

(** C21: entryother.S takes a CPU from real mode to the function whose address is in
    memory before the code, on the stack that is there, with paging on by the
    directory that is there; the stack must be in the 4 Mbytes that are mapped. *)
Theorem entryother_enters start gdt start32 back dir stack target (s : st) :
  real (vars s) -> has_gdt (pm (vars s)) gdt -> 12 <= start < 2 ^ 22 ->
  ld32 (pm (vars s)) (start - 12) = dir -> ld32 (pm (vars s)) (start - 8) = target -> ld32 (pm (vars s)) (start - 4) = stack ->
  boot_dir (pm (vars s)) dir -> KERNBASE + 4 <= stack <= KERNBASE + 2 ^ 22 -> (V2P stack <= dir \/ dir + 2 ^ 12 <= V2P stack - 4) ->
  wp (erun (entryother start (gdt + 24) start32 back)) s (fun _ s' => let c := vars s' in
    flat c /\ paged c /\ er c CR3 = dir /\ er c IP = target /\ er c SP = stack - 4 /\ ld32 (pm c) (V2P (stack - 4)) = u32 back /\
    (forall x, ~ V2P stack - 4 <= x < V2P stack -> pm c x = pm (vars s) x) /\
    forall va, 0 <= va < 2 ^ 32 -> translate c va = low_and_high va).
Proof.
  intros Hr Hg Hst H12 H8 H4 Hdir Hstk Hdis. unfold entryother. apply wp_erun_app, wp_real_segs; [done|].
  intros c Hregs Hds _ _ Hif Hpm. assert (Hr1 : real c) by (unfold real; by rewrite Hregs).
  apply (wp_flat gdt); cbn [vars hist]; [done|by rewrite Hpm|done|done|]. intros c2 Hf Hcr0 Hcr4 Hpm2. rewrite Hpm in Hpm2.
  pose proof Hf as (_ & F2 & _). assert (Hpg : Z.testbit (er c2 CR0) 31 = false) by (rewrite Hcr0, Z.lor_spec; destruct Hr1 as [_ ->]; done).
  do 3 e_step. apply wp_erun_cons. cbn [estep]. eapply wp_e_try; [cbn [vars]|].
  { rewrite flat_addr by (done || lia). unfold translate. cbn [er set_er ereg_eqb]. rewrite Hpg. cbn [negb pm set_er]. rewrite Hpm2, H12. reflexivity. }
  cbn [hist]. apply (wp_turn_on _ [MovM (start - 4) SP; CallM (start - 8) back]); cbn [vars hist];
    [exact Hf|cbn [pm er set_er ereg_eqb]; by rewrite Hpm2|done|done|cbn [er set_er ereg_eqb]; by rewrite Z.lor_spec, orb_true_r|].
  intros c3 Hf3 Hp3 H33 Hpm3 Ht3. cbn [er set_er ereg_eqb pm] in H33, Hpm3. rewrite Hpm2 in Hpm3. pose proof Hf3 as (_ & D3 & _).
  apply wp_erun_cons. cbn [estep]. eapply wp_e_try; [cbn [vars]; rewrite low_translates by (done || lia); rewrite Hpm3, H4; reflexivity|]. cbn [hist].
  apply wp_erun_cons. cbn [estep]. set (c4 := set_er SP stack c3). assert (Hf4 : flat c4) by exact Hf3.
  destruct (call_high target back c4 dir) as (c5 & Ec & Hf5 & Hp5 & E3 & Eip & Esp & Epm & Hd5); [done|exact Hp3|done|by rewrite <- Hpm3 in Hdir|done|done|].
  eapply wp_e_try; [cbn [vars]; rewrite low_translates by (done || lia); change (pm c4) with (pm c3); rewrite Hpm3, H8; exact Ec|]. cbn [hist erun]. hw_step.
  change (er c4 SP) with stack in *. change (pm c4) with (pm c3) in Epm. rewrite Hpm3 in Epm.
  assert (Ev : V2P (stack - 4) = V2P stack - 4) by (unfold V2P, KERNBASE in *; rewrite !u32_small by lia; lia).
  split_and!; try done.
  - rewrite Ev, Epm. apply ld32_store.
  - intros x Hx. rewrite Epm, store_bytes_spec, length_le. change (Z.of_nat 4) with 4.
    destruct (Z.leb_spec (V2P stack - 4) x), (Z.ltb_spec x (V2P stack - 4 + 4)); cbn [andb]; (done || lia).
  - intros va Hva. destruct Hp5 as (P1 & P2 & P3). by apply (translate_boot c5 va dir).
Qed.

(** entry.S turns paging on and goes to [main] at its high address. *)
Lemma entry_enters pgdir stack main (s : st) : flat (vars s) -> boot_dir (pm (vars s)) (V2P pgdir) ->
  wp (erun (entry pgdir stack main)) s (fun _ s' => let c := vars s' in
    flat c /\ paged c /\ er c IP = main /\ er c SP = stack + KSTACKSIZE /\ pm c = pm (vars s) /\
    forall va, 0 <= va < 2 ^ 32 -> translate c va = low_and_high va).
Proof.
  intros Hf Hdir. unfold entry. do 4 e_step. apply (wp_turn_on _ [MovI (stack + KSTACKSIZE) SP; MovI main AX; JmpAx]); cbn [vars hist];
    [exact Hf|exact Hdir|done|done|cbn [er set_er ereg_eqb]; by rewrite Z.lor_spec, orb_true_r|].
  intros c Hf2 Hp2 E3 Epm Ht. do 3 e_step. cbn [erun]. hw_step. split_and!; try done.
Qed.

(** ** The A20 line *)

(** The keyboard controller takes its input before it was polled [w] times. *)
Definition kbd_ready (w : nat) : Prop := forall h, Z.land (answer (replicate w (In 0x64) ++ h) (In 0x64)) 2 = 0.
(** What was sent to the ports, in order. *)
Fixpoint sent_to (h : list event) : list (Z * Z) :=
  match h with Out p v :: h => sent_to h ++ [(p, v)] | _ :: h => sent_to h | [] => [] end.
Lemma sent_to_reads k a h : sent_to (replicate k (In a) ++ h) = sent_to h.
Proof. by induction k. Qed.

Lemma wp_wait_kbd w rest (s : st) (Q : unit -> st -> Prop) : kbd_ready w ->
  (forall c h, same_regs (vars s) c -> sg c = sg (vars s) -> e_if c = e_if (vars s) -> pm c = pm (vars s) -> sent_to h = sent_to (hist s) ->
     wp (erun rest) (mkDriver h c) Q) -> wp (erun (WaitKbd (S w) :: rest)) s Q.
Proof.
  intros Hk HQ. cbn [erun]. hw_step. cbn [estep].
  apply (wp_while_loop (fun k _ s' => exists j, (j + k = S w)%nat /\ (j <= w)%nat /\ hist s' = replicate j (In 0x64) ++ hist s /\
    same_regs (vars s) (vars s') /\ sg (vars s') = sg (vars s) /\ e_if (vars s') = e_if (vars s) /\ pm (vars s') = pm (vars s))).
  - exists O. split_and!; try done; lia.
  - intros _ s' (j & ? & ? & _). lia.
  - intros k _ [h c] (j & Hj & Hw & Hh & Hr & Hs & Hi & Hp). cbn [hist vars] in *. subst h. do 5 hw_step.
    assert (Hr' : forall v, same_regs (vars s) (set_al v c)) by (intros v x Hx; unfold set_al, set_er; cbn [er]; by destruct x; (done || apply Hr)).
    destruct (decide (j = w)) as [->|Hne].
    + rewrite (Hk (hist s)). cbn. apply HQ; try done. exact (sent_to_reads (S w) 0x64 (hist s)).
    + destruct (negb _).
      * exists (S j). split_and!; try done; lia.
      * apply HQ; try done. exact (sent_to_reads (S j) 0x64 (hist s)).
Qed.

Lemma wp_out_al v port rest (s : st) (Q : unit -> st -> Prop) :
  wp (erun rest) (mkDriver (Out port (u8 v) :: hist s) (set_al v (vars s))) Q -> wp (erun (OutAl v port :: rest)) s Q.
Proof. intros HQ. apply wp_erun_cons. cbn [estep]. do 3 hw_step. exact HQ. Qed.

(** bootasm.S enables the A20 line and calls [bootmain] in protected mode. *)
Lemma bootasm_enters w start gdt start32 bootmain back (s : st) : kbd_ready w -> real (vars s) -> has_gdt (pm (vars s)) gdt -> 4 <= start < 2 ^ 32 ->
  wp (erun (bootasm (S w) start (gdt + 24) start32 bootmain back)) s (fun _ s' => let c := vars s' in
    flat c /\ er c IP = bootmain /\ er c SP = start - 4 /\ ld32 (pm c) (start - 4) = u32 back /\
    (forall x, ~ start - 4 <= x < start -> pm c x = pm (vars s) x) /\
    sent_to (hist s') = sent_to (hist s) ++ [(0x64, 0xd1); (0x60, 0xdf)]).
Proof.
  intros Hk Hr Hg Hst. unfold bootasm. apply wp_erun_app, wp_real_segs; [done|]. intros c Hregs Hds _ _ Hif Hpm. cbn [app].
  apply wp_wait_kbd; [done|]. cbn [vars hist]. intros c1 h1 R1 S1 I1 P1 T1. apply wp_out_al. cbn [vars hist].
  apply wp_wait_kbd; [done|]. cbn [vars hist]. intros c2 h2 R2 S2 I2 P2 T2. apply wp_out_al. cbn [vars hist].
  assert (Hr3 : forall v, same_regs (vars s) (set_al v c2)).
  { intros v x Hx. unfold set_al, set_er. cbn [er]. destruct x; try done; cbn [ereg_eqb]; rewrite R2 by done; cbn [er set_al set_er ereg_eqb]; rewrite R1, Hregs by done; done. }
  apply (wp_flat gdt); cbn [vars hist].
  - unfold real. rewrite Hr3 by done. done.
  - cbn [pm set_al set_er]. rewrite P2. cbn [pm set_al set_er]. by rewrite P1, Hpm.
  - cbn [sg set_al set_er]. rewrite S2. cbn [sg set_al set_er]. by rewrite S1.
  - cbn [e_if set_al set_er]. rewrite I2. cbn [e_if set_al set_er]. by rewrite I1.
  - intros c4 Hf Hcr0 _ Hpm4. cbn [pm set_al set_er] in Hpm4. rewrite P2 in Hpm4. cbn [pm set_al set_er] in Hpm4. rewrite P1, Hpm in Hpm4.
    rewrite Hr3 in Hcr0 by done. pose proof Hf as (_ & _ & _ & F4 & _). e_step. apply wp_erun_cons. cbn [estep].
    eapply wp_e_try; [cbn [vars]; unfold call; cbn [er set_er ereg_eqb]; rewrite u32_small, flat_addr by (done || lia); unfold translate; cbn [er set_er ereg_eqb];
      rewrite Hcr0, Z.lor_spec; destruct Hr as [_ ->]; reflexivity|]. cbn [hist erun]. hw_step. cbn [er pm set_er ereg_eqb]. rewrite Hpm4.
    split_and!; try done; [apply ld32_store| |].
    + intros x Hx. rewrite store_bytes_spec, length_le. change (Z.of_nat 4) with 4.
      destruct (Z.leb_spec (start - 4) x), (Z.ltb_spec x (start - 4 + 4)); cbn [andb]; (done || lia).
    + cbn [sent_to]. rewrite T2. cbn [sent_to]. rewrite T1, <- app_assoc. done.
Qed.
End enter.

(** A CPU that was sent to the code at 0x7000, with its tables at 0x7080, the
    boot directory at 0x109000, and a stack at the end of the 4 Mbytes. *)
Definition ap_mem : mem :=
  store_bytes (store_bytes (store_bytes (fun _ => 0) 0x109000 (flat_map (le 4) entrypgdir)) 0x7080 (asm_gdt ++ asm_gdtdesc 0x7080))
    0x6ff4 (le 4 0x109000 ++ le 4 0x80103000 ++ le 4 0x80400000).
Definition ap_cpu : ecpu := mkE (fun x => if ereg_eqb x CR0 then 0x60000010 else 0) (fun _ => mkHseg 0 0 0xffff 3) (0, 0) true ap_mem.
#[local] Instance no_ports : Hardware := fun _ _ => 0.

Lemma ap_dir : boot_dir ap_mem 0x109000.
Proof.
  split; [lia|]. split; [done|]. intros k Hk.
  assert (Hall : forallb (fun k => ld32 ap_mem (0x109000 + 4 * Z.of_nat k) =? nth k entrypgdir 0) (seq 0 1024) = true) by (vm_compute; reflexivity).
  rewrite forallb_forall in Hall. exact (proj1 (Z.eqb_eq _ _) (Hall k (proj2 (in_seq 1024 0 k) ltac:(lia)))).
Qed.

Lemma entryother_enters_witness :
  wp (erun (entryother 0x7000 (0x7080 + 24) 0x7030 0x7070)) (mkDriver [] ap_cpu) (fun _ s' =>
    er (vars s') IP = 0x80103000 /\ er (vars s') SP = 0x803ffffc /\ translate (vars s') 0x80103000 = Some 0x103000).
Proof.
  eapply wp_mono; [apply (entryother_enters 0x7000 0x7080 0x7030 0x7070 0x109000 0x80400000 0x80103000 (mkDriver [] ap_cpu))|].
  - done.
  - split; [lia|]. split; [lia|]. split; vm_compute; reflexivity.
  - lia.
  - vm_compute. reflexivity.
  - vm_compute. reflexivity.
  - vm_compute. reflexivity.
  - exact ap_dir.
  - unfold KERNBASE. lia.
  - right. vm_compute. discriminate.
  - intros _ s' (_ & _ & _ & E1 & E2 & _ & _ & Ht). split; [exact E1|]. split; [exact E2|]. rewrite Ht by lia. reflexivity.
Defined.
