(* ===== verification/Ls.v ===== *)
(** ls.c: the list of a directory.

    [buf] and the static array of [fmtname], [sbuf], are what the arrays hold; a
    string that has no end in its array is [Undef]. *)
From S2P Require Import Prelude Layout CString Fs FsDir Ulib User UserRun Find FindSpec.

(** [printf] as one [write]. *)
Definition sayf {A} (fd : Z) (fmt : bytes) (args : list parg) (k : prog A) : prog A :=
  match printf fmt args with Some l => call* _ := Write fd l in k | None => Undef end.

(** The string at the start of an array. *)
Definition cstr (l : bytes) : option bytes := if existsb (Z.eqb 0) l then Some (cstring l) else None.

(** The string that [fmtname] returns a pointer to, and the arrays afterwards. *)
Definition fmtname (buf : bytes) (type : Z) (sbuf : bytes) : option (bytes * bytes * bytes) :=
  path ← cstr buf;
  let p := last_slash path (length path) in
  let buf := if type =? T_DIR then <[length path := 47]> buf else buf in
  s ← cstr (drop p buf);
  if DIRSIZ <=? strlen s then Some (s, buf, sbuf)
  else
    let sbuf := splice sbuf 0 (s ++ [0]) in
    let sbuf := splice sbuf (length s) (replicate (Z.to_nat (DIRSIZ - strlen s - 1)) 32) in
    r ← cstr sbuf; Some (r, buf, sbuf).

(** The line for a file. *)
Definition ls_line {A} (name : bytes) (type size ino : Z) (k : prog A) : prog A :=
  sayf 1 (str "%s %d %d %d" ++ [10]) [PStr (Some name); PInt type; PInt ino; PInt size] k.

(** The loop over the entries; the name of an entry is at [p] of [buf].  The
    [memmove] copies one byte too many, which [p[DIRSIZ] = 0] replaces. *)
Fixpoint ls_loop (n : nat) (fd hide : Z) (buf sbuf : bytes) (p : nat) : prog unit :=
  match n with
  | O => Undef
  | S n =>
      call* r := Read fd sizeof_dirent in
      if negb (r.1 =? sizeof_dirent) then Ret tt
      else
        let de := dec_dirent r.2 in
        if de_inum de =? 0 then ls_loop n fd hide buf sbuf p
        else if (hd0 (de_name de) =? 46) && (hide =? 0) then ls_loop n fd hide buf sbuf p
        else
          match poke buf p (de_name de ++ [0]) with
          | None => Undef
          | Some buf =>
              do* st := stat (cstring buf) in
              match st with
              | None => say 1 (str "ls: cannot stat %s" ++ [10]) (cstring buf) (ls_loop n fd hide buf sbuf p)
              | Some (type, size, ino) =>
                  match fmtname buf type sbuf with
                  | None => Undef
                  | Some (result, buf, sbuf) => ls_line result type size ino (ls_loop n fd hide buf sbuf p)
                  end
              end
          end
  end.

(** For a file the code reads [de.name], which is not set. *)
Definition ls (n : nat) (path : bytes) (hide : Z) (buf sbuf : bytes) : prog unit :=
  call* fd := Open path 0 in
  if fd <? 0 then say 2 (str "ls: cannot open %s" ++ [10]) path (Ret tt)
  else
    call* r := Fstat fd in
    match r with
    | None => say 2 (str "ls: cannot stat %s" ++ [10]) path (call* _ := Close fd in Ret tt)
    | Some (type, size, ino) =>
        do* _ :=
          (if type =? T_FILE then Undef
           else if type =? T_DIR then
             if 512 <? strlen path + 1 + DIRSIZ + 1 then call* _ := Write 1 (str "ls: path too long" ++ [10]) in Ret tt
             else
               match poke buf 0 (path ++ [0]) ≫= fun buf => poke buf (length path) [47] with
               | None => Undef
               | Some buf => ls_loop n fd hide buf sbuf (S (length path))
               end
           else Ret tt) in
        call* _ := Close fd in
        Ret tt
    end.

(** [main], for the arguments after the name of the program. *)
Definition main (n : nat) (buf : bytes) (argv : list bytes) : prog unit :=
  let sbuf := replicate 15 0 in
  match argv with
  | [] => do* _ := ls n (str ".") 0 buf sbuf in Exit_
  | _ =>
      let flag := if existsb (fun a => strcmp a (str "-a") =? 0) argv then 1 else 0 in
      do* _ := ls n (str ".") flag buf sbuf in Exit_
  end.

(** What ls.c lists: a line for each entry of the working directory, the hidden
    ones only with "-a". *)

Local Abbreviation entry := (option (Z * bytes * node)).

(** * What is to be listed *)

(** A name in its column, and a number. *)
Definition padded (s : bytes) : bytes := if (14 <=? length s)%nat then s else s ++ replicate (13 - length s) 32.
Definition num (z : Z) : bytes := printint (s32 z) 10 true.

(** The name of a directory is shown with a slash. *)
Definition shown (name : bytes) (c : node) : bytes := name ++ if type_of c =? T_DIR then [47] else [].

Definition listed (hidden : bool) (e : entry) : list (Z * bytes) :=
  match e with
  | None => []
  | Some (_, name, c) =>
      if (hd0 name =? 46) && negb hidden then []
      else [(1, padded (shown name c) ++ [32] ++ num (type_of c) ++ [32] ++ num (ino_of c) ++ [32] ++ num (size_of c) ++ [10])]
  end.

(** The slash of a directory fits the array. *)
Definition fits_slash (e : entry) : Prop :=
  match e with Some (_, name, c) => type_of c = T_DIR -> (length name <= 13)%nat | None => True end.

(** * Names *)

Lemma cstr_app s t : Forall (fun c => c <> 0) s -> cstr (s ++ t) = (s ++.) <$> cstr t.
Proof.
  intros Hs. unfold cstr. rewrite existsb_app, cstring_app by done. replace (existsb (Z.eqb 0) s) with false; [by destruct (existsb _ t)|].
  induction Hs as [|c s Hc _ IH]; [done|]. cbn [existsb]. rewrite (proj2 (Z.eqb_neq 0 c)) by done. done.
Qed.

Lemma cstr_zero t : cstr (0 :: t) = Some [].
Proof. done. Qed.

Lemma cstr_end s t : Forall (fun c => c <> 0) s -> cstr (s ++ 0 :: t) = Some s.
Proof. intros Hs. rewrite cstr_app, cstr_zero by done. cbn. by rewrite app_nil_r. Qed.

Lemma strncpy_pad name n : Forall (fun c => c <> 0) name -> (length name <= n)%nat ->
  strncpy name n = name ++ replicate (n - length name) 0.
Proof.
  revert name. induction n as [|n IH]; intros [|c name] Hn Hl; cbn in Hl |- *; try done; try lia.
  apply Forall_cons in Hn as [Hc Hn]. rewrite (proj2 (Z.eqb_neq _ _)) by done. by rewrite IH by (done || lia).
Qed.

(** The array of [fmtname] ends with zeros. *)
Definition sbuf_ok (sbuf : bytes) : Prop := exists l, length l = 13%nat /\ sbuf = l ++ [0; 0].

Lemma sbuf_write sbuf s : sbuf_ok sbuf -> Forall (fun c => c <> 0) s -> (length s < 14)%nat ->
  let sbuf' := splice (splice sbuf 0 (s ++ [0])) (length s) (replicate (Z.to_nat (DIRSIZ - strlen s - 1)) 32) in
  sbuf_ok sbuf' /\ cstr sbuf' = Some (padded s).
Proof.
  intros (l & Hl & ->) Hs Hlen sbuf'. assert (Hn : Z.to_nat (DIRSIZ - strlen s - 1) = (13 - length s)%nat) by (rewrite strlen_cstring, cstring_id by done; unfold DIRSIZ; lia).
  assert (E : sbuf' = padded s ++ [0; 0]).
  { unfold sbuf', padded. rewrite Hn. unfold splice. rewrite take_0, app_nil_l, length_app, length_replicate. cbn [length].
    rewrite (proj2 (Nat.leb_gt _ _)) by lia. rewrite <- !app_assoc, take_app_length. f_equal.
    replace (length s + (13 - length s))%nat with 13%nat by lia. f_equal.
    destruct (decide (length s = 13%nat)) as [E|Hne].
    - rewrite drop_app_length' by done. rewrite E. cbn [app Nat.add]. rewrite drop_app_ge by lia. by rewrite Hl.
    - rewrite drop_app_ge by lia. cbn [app]. destruct (13 - length s)%nat as [|k] eqn:Ek; [lia|]. cbn [drop].
      rewrite drop_drop. replace (0 + (length s + 1) + k)%nat with 13%nat by lia. by rewrite drop_app_length' by done. }
  rewrite E. split.
  - exists (padded s). split; [|done]. unfold padded. rewrite (proj2 (Nat.leb_gt _ _)) by lia. rewrite length_app, length_replicate. lia.
  - apply cstr_end. unfold padded. rewrite (proj2 (Nat.leb_gt _ _)) by lia. apply Forall_app. split; [done|]. by apply Forall_replicate.
Qed.

(** [fmtname] on the buffer that holds a path and an entry's name. *)
Lemma fmtname_entry path name c rest sbuf : Forall (fun c => c <> 0) path -> name_ok name -> fits_slash (Some (0, name, c)) -> sbuf_ok sbuf ->
  let buf := (path ++ [47]) ++ strncpy name 14 ++ 0 :: rest in
  exists buf' sbuf', Ls.fmtname buf (type_of c) sbuf = Some (padded (shown name c), buf', sbuf') /\ sbuf_ok sbuf' /\
    length buf' = length buf /\ take (S (length path)) buf' = path ++ [47].
Proof.
  intros Hp (Hne & Hl & Hn & _) Hfit Hsb buf. pose proof (is_name_nonzero _ Hn) as Hn0. cbn [fits_slash] in Hfit.
  assert (Hb : buf = (path ++ 47 :: name) ++ replicate (14 - length name) 0 ++ 0 :: rest).
  { unfold buf. rewrite strncpy_pad by done. change (path ++ 47 :: name) with (path ++ [47] ++ name). by rewrite <- !app_assoc. }
  assert (Hpath : Forall (fun c => c <> 0) (path ++ 47 :: name)) by (apply Forall_app; split; [done|by constructor]).
  assert (Hrep : exists r, replicate (14 - length name) 0 ++ 0 :: rest = 0 :: r /\ ((length name <= 13)%nat -> exists r', r = 0 :: r')).
  { destruct (14 - length name)%nat as [|k] eqn:Ek; [exists rest; split; [done|lia]|]. eexists. split; [done|].
    intros _. destruct k; eexists; done. }
  destruct Hrep as (r & Er & Hr). rewrite Er in Hb. unfold Ls.fmtname. rewrite Hb, cstr_end by done. cbn [mbind option_bind]. cbv zeta.
  assert (Hll : length (path ++ 47 :: name) = (S (length path) + length name)%nat) by (rewrite length_app; cbn; lia).
  replace (last_slash (path ++ 47 :: name) (length (path ++ 47 :: name))) with (S (length path)) by (by rewrite Hll, last_slash_spec).
  set (buf1 := if type_of c =? T_DIR then _ else _).
  assert (E1 : exists r', buf1 = (path ++ [47]) ++ shown name c ++ 0 :: r').
  { unfold buf1, shown. change (path ++ 47 :: name) with (path ++ [47] ++ name). rewrite (app_assoc path).
    destruct (Z.eqb_spec (type_of c) T_DIR) as [Hd|_]; [|exists r; by rewrite app_nil_r, <- app_assoc].
    destruct (Hr (Hfit Hd)) as (r' & ->). exists r'. rewrite insert_app_r_alt by lia. rewrite Nat.sub_diag. cbn [insert list_insert]. by rewrite <- !app_assoc. }
  destruct E1 as (r' & E1). assert (Hlen1 : length buf1 = length buf) by (unfold buf1; rewrite Hb; case_match; by rewrite ?length_insert).
  assert (Hs0 : Forall (fun c => c <> 0) (shown name c)) by (apply Forall_app; split; [done|]; case_match; by repeat constructor).
  assert (Htake : take (S (length path)) buf1 = path ++ [47]) by (rewrite E1, take_app_length'; [done|rewrite length_app; cbn; lia]).
  assert (Ec : cstr (drop (S (length path)) buf1) = Some (shown name c))
    by (rewrite E1, drop_app_length' by (rewrite length_app; cbn; lia); by apply cstr_end).
  clearbody buf1. rewrite Ec. cbn [mbind option_bind]. rewrite strlen_cstring, cstring_id by done. unfold DIRSIZ at 1. destruct (Z.leb_spec 14 (Z.of_nat (length (shown name c)))).
  - exists buf1, sbuf. split_and!; [|done|by rewrite Hlen1, Hb|done]. unfold padded. by rewrite (proj2 (Nat.leb_le _ _)) by lia.
  - destruct (sbuf_write sbuf (shown name c) Hsb Hs0) as [H1 H2]; [lia|]. rewrite strlen_cstring, cstring_id in * by done.
    rewrite H2. cbn [mbind option_bind]. eexists _, _. split_and!; [done|done|by rewrite Hlen1, Hb|done].
Qed.

(** * The loop *)

Section listing.
Context (root cwd : place).

Lemma run_ls_line {A} name type size ino (k : prog A) t o :
  run root cwd (ls_line name type size ino k) (t, o) =
    run root cwd k (t, o ++ [(1, name ++ [32] ++ num type ++ [32] ++ num ino ++ [32] ++ num size ++ [10])]).
Proof. unfold ls_line, sayf, printf. cbn [printf_from]. done. Qed.

Lemma hd0_strncpy name : name <> [] -> hd0 (strncpy name 14) = hd0 name.
Proof. by destruct name. Qed.

(** The rest of a directory. *)
Lemma run_ls_loop hide path d up : type_of d = T_DIR -> node_ok d -> resolve root cwd path = Some (d :: up) ->
  path <> [] -> Forall (fun c => c <> 0) path -> (length path + 16 <= 512)%nat -> Forall fits_slash (entries d up) ->
  forall es n pre buf sbuf t o fd, entries d up = pre ++ es -> t !! fd = Some (Some (Open_ (d :: up) (16 * length pre))) ->
    length buf = 512%nat -> take (S (length path)) buf = path ++ [47] -> sbuf_ok sbuf -> (1 <= free t)%nat -> (length es < n)%nat ->
    run root cwd (ls_loop n (Z.of_nat fd) hide buf sbuf (S (length path))) (t, o) =
      Some (Some tt, (<[fd := Some (Open_ (d :: up) (16 * length (entries d up)))]> t, o ++ concat (map (listed (negb (hide =? 0))) es))).
Proof.
  intros Hd Hok Hr Hpe Hpz Hlen Hfits. induction es as [|e es IH]; intros n pre buf sbuf t o fd He Hfd Hb Ht Hsb Hf Hn;
    (destruct n as [|n]; [cbn in Hn; lia|]); cbn [ls_loop]; erewrite run_read by done.
  { cbn [negb fst]. rewrite app_nil_r in He. cbn [map concat run]. by rewrite app_nil_r, He, list_insert_id. }
  set (t1 := <[fd := Some (Open_ (d :: up) (16 * S (length pre)))]> t).
  assert (Hrest : forall buf' sbuf' o', length buf' = 512%nat -> take (S (length path)) buf' = path ++ [47] -> sbuf_ok sbuf' ->
    run root cwd (ls_loop n (Z.of_nat fd) hide buf' sbuf' (S (length path))) (t1, o') =
      Some (Some tt, (<[fd := Some (Open_ (d :: up) (16 * length (entries d up)))]> t, o' ++ concat (map (listed (negb (hide =? 0))) es)))).
  { intros buf' sbuf' o' Hb' Ht' Hsb'. rewrite (IH n (pre ++ [e]) buf' sbuf' t1 o' fd); try done.
    - unfold t1. by rewrite list_insert_insert_eq.
    - by rewrite <- app_assoc.
    - rewrite length_app. cbn [length]. rewrite Nat.add_1_r. apply list_lookup_insert_eq. by eapply lookup_lt_Some.
    - unfold t1. by erewrite free_reopen.
    - cbn in Hn. lia. }
  cbn match. change (fst (16, entry_bytes e) =? sizeof_dirent) with true. cbn [negb]. cbn match.
  pose proof (entries_at d up Hok) as Hall. rewrite He in Hall, Hfits. apply Forall_app in Hall as [_ Hall]. apply Forall_cons in Hall as [Hat _].
  apply Forall_app in Hfits as [_ Hfits]. apply Forall_cons in Hfits as [Hfit _].
  destruct e as [[[i name] c]|].
  2: { change (de_inum (dec_dirent (16, entry_bytes None).2) =? 0) with true. cbn [map concat listed app]. by apply Hrest. }
  pose proof Hat as (Hi & Hname & pl & Hw & _). cbn [snd]. rewrite dec_entry by done. cbn [de_inum de_name].
  rewrite (proj2 (Z.eqb_neq i 0)) by (unfold inum_ok in Hi; lia). rewrite hd0_strncpy by apply Hname. cbn [map concat listed].
  rewrite negb_involutive. destruct ((hd0 name =? 46) && (hide =? 0)); [by apply Hrest|].
  destruct (poke_name path name buf Hpz Hname Ht) as (buf1 & Ep & Hb1 & Ht1 & Hc1); [lia|]. rewrite Ep. cbv iota.
  assert (Hres : resolve root cwd (path ++ 47 :: name) = Some (c :: pl)) by (destruct Hname as (? & _ & ? & _); by rewrite resolve_snoc, Hr).
  rewrite run_pbind, Hc1, (run_stat _ _ _ c pl) by (try done; unfold t1; erewrite free_reopen; done).
  assert (Eb : buf1 = (path ++ [47]) ++ strncpy name 14 ++ 0 :: drop (S (length path) + 15) buf).
  { unfold poke in Ep. case_match; [|done]. apply (inj Some) in Ep as <-. unfold splice. rewrite Ht, length_app, length_strncpy. by rewrite <- (app_assoc (strncpy name 14)). }
  destruct (fmtname_entry path name c (drop (S (length path) + 15) buf) sbuf Hpz Hname Hfit Hsb) as (buf' & sbuf' & E & Hsb' & Hb' & Ht').
  rewrite <- Eb in E, Hb'. rewrite E, run_ls_line, Hrest by (done || congruence). by rewrite <- app_assoc.
Qed.

Lemma run_ls n hide d up buf sbuf t o : type_of d = T_DIR -> node_ok d -> cwd = d :: up -> Forall fits_slash (entries d up) ->
  length buf = 512%nat -> sbuf_ok sbuf -> (2 <= free t)%nat -> (length (entries d up) < n)%nat ->
  run root cwd (ls n (str ".") hide buf sbuf) (t, o) =
    Some (Some tt, (t, o ++ concat (map (listed (negb (hide =? 0))) (entries d up)))).
Proof.
  intros Hd Hok Hc Hfits Hb Hsb Hf Hn. assert (Hr : resolve root cwd (str ".") = Some (d :: up)).
  { rewrite Hc. unfold resolve. change (hd0 (str ".") =? 47) with false. cbv iota. change (components (str ".")) with [dot].
    cbn [walk fold_left mbind option_bind]. destruct d; [done|]. cbn [walk1]. by rewrite decide_True. }
  unfold ls. destruct (run_open root cwd (str ".") (d :: up) t o 1 Hr Hf) as (fd & Hfd & Hfree & E). change (Open (str ".") 0) with (Open (str ".") O_RDONLY). rewrite E. clear E.
  rewrite (proj2 (Z.ltb_ge _ _)) by lia. pose proof (lookup_lt_Some _ _ _ Hfd) as Hlt.
  assert (Hl : forall x, <[fd := Some x]> t !! fd = Some (Some x)) by (intros; by apply list_lookup_insert_eq).
  rewrite (run_fstat _ _ _ _ _ _ _ _ _ (Hl _)), run_pbind, Hd. change (T_DIR =? T_FILE) with false. change (T_DIR =? T_DIR) with true.
  change (512 <? strlen (str ".") + 1 + DIRSIZ + 1) with false. cbv iota.
  destruct (poke_path (str ".") buf) as (buf1 & -> & Hb1 & Ht1); [rewrite Hb; cbn; lia|].
  assert (Hp0 : Forall (fun c => c <> 0) (str ".")) by (by repeat constructor).
  rewrite (run_ls_loop hide (str ".") d up Hd Hok Hr) with (es := entries d up) (pre := []) by (done || (cbn; lia) || by rewrite Hb1).
  rewrite list_insert_insert_eq, (run_close _ _ _ _ _ _ _ (Hl _)). cbn [run]. by rewrite list_insert_insert_eq, list_insert_id.
Qed.
End listing.

(** [ls] prints a line for each entry of the working directory, in its order:
    the name in a column, with a slash after that of a directory, the type, the
    inode number and the size.  Names that start with a dot are left out unless
    "-a" is given. *)
Theorem ls_lists root d up n buf argv t : type_of d = T_DIR -> node_ok d -> Forall fits_slash (entries d up) ->
  length buf = 512%nat -> Forall (Forall (fun c => c <> 0)) argv -> (2 <= free t)%nat -> (length (entries d up) < n)%nat ->
  run root (d :: up) (main n buf argv) (t, []) =
    Some (None, (t, concat (map (listed (bool_decide (str "-a" ∈ argv))) (entries d up)))).
Proof.
  intros Hd Hok Hfits Hb Hargv Hf Hn.
  assert (Hsb : sbuf_ok (replicate 15 0)) by (exists (replicate 13 0); done).
  assert (Ha : existsb (fun a => strcmp a (str "-a") =? 0) argv = bool_decide (str "-a" ∈ argv)).
  { clear -Hargv. induction Hargv as [|a l Ha Hl IH]; [done|]. cbn [existsb]. rewrite IH, strcmp_eqb; [|done|by repeat constructor].
    apply eq_true_iff_eq. rewrite orb_true_iff, !bool_decide_eq_true, elem_of_cons. naive_solver. }
  unfold main. rewrite Ha. destruct argv as [|a argv].
  - rewrite run_pbind, (run_ls root (d :: up) n 0 d up) by done. done.
  - rewrite run_pbind, (run_ls root (d :: up) n _ d up) by done. cbn [run]. do 6 f_equal. by case_bool_decide.
Qed.

(** The directory of FindSpec.v, with a hidden file. *)
Definition home : node :=
  NDir 1 1 [Some (2, str "README", NFile 2 T_FILE (str "xv6")); Some (3, str "src", NDir 3 1 []); None; Some (4, str ".rc", NFile 4 T_FILE [])].

Lemma ls_lists_witness :
  run [home] [home] (main 20 (replicate 512 5) []) (replicate 3 (Some Term) ++ replicate 13 None, []) =
    Some (None, (replicate 3 (Some Term) ++ replicate 13 None,
      [(1, str "README        2 2 3" ++ [10]); (1, str "src/          1 3 32" ++ [10])])).
Proof.
  rewrite (ls_lists [home] home [] 20 (replicate 512 5) []); [by vm_compute|done|..].
  - repeat (split || constructor); vm_compute; (done || lia || (intros H; repeat (apply elem_of_cons in H as [|H]; try done); by apply elem_of_nil in H)).
  - repeat constructor; vm_compute; (done || lia).
  - done.
  - constructor.
  - vm_compute. lia.
  - vm_compute. lia.
Defined.

(** With a directory whose name has 14 characters the slash replaces the end of
    the string, which then goes on into what the array held. *)
Lemma ls_runs_off : let d := NDir 1 1 [Some (2, str "abcdefghijklmn", NDir 2 1 [])] in
  run [d] [d] (main 20 (replicate 512 5) []) (replicate 3 (Some Term) ++ replicate 13 None, []) = None.
Proof. by vm_compute. Qed.
