(* ===== verification/GrepRun.v ===== *)
(** grep.c as a program: [main], and the lines that it prints for the files of a tree. *)
From S2P Require Import Prelude Layout CString Fs FsDir Ulib User UserRun Text TextSpec Grep.

(** * The program *)

(** The lines that the loop over the buffer writes, each with a call of [write]. *)
Fixpoint scan_lines (pattern cur b : bytes) : list bytes :=
  match b with
  | [] => []
  | c :: b' =>
      if c =? 0 then []
      else if c =? 10 then (if match_ pattern cur then [cur ++ [10]] else []) ++ scan_lines pattern [] b'
      else scan_lines pattern (cur ++ [c]) b'
  end.

Fixpoint write_all {A} (ls : list bytes) (k : prog A) : prog A :=
  match ls with [] => k | l :: ls => call* _ := Write 1 l in write_all ls k end.

(** [grep], with the bytes [buf] of a line that has no end yet; [n] bounds the calls of [read]. *)
Fixpoint grep_prog (n : nat) (pattern : bytes) (fd : Z) (buf : bytes) : prog unit :=
  match n with
  | O => Undef
  | S n =>
      call* r := Read fd (1024 - Z.of_nat (length buf) - 1) in
      if 0 <? r.1 then
        let a := buf ++ r.2 in
        write_all (scan_lines pattern [] a)
          (grep_prog n pattern fd (if (grep_scan pattern [] a).2 then (grep_scan pattern [] a).1.2 else []))
      else Ret tt
  end.

Definition main (n : nat) (argv : list bytes) : prog unit :=
  match argv with
  | [] => call* _ := Write 2 (str "usage: grep pattern [file ...]" ++ [10]) in Exit_
  | [pattern] => do* _ := grep_prog n pattern 0 [] in Exit_
  | pattern :: files => each_file (str "grep") (fun fd _ => grep_prog n pattern fd []) files
  end.

(** * What it prints *)

Lemma scan_lines_concat pattern b : forall cur, concat (scan_lines pattern cur b) = (grep_scan pattern cur b).1.1.
Proof.
  induction b as [|c b IH]; intros cur; [done|]. cbn [scan_lines grep_scan]. destruct (c =? 0); [done|]. destruct (c =? 10); [|apply IH].
  specialize (IH []). destruct (grep_scan pattern [] b) as [[o l] f]. cbn [fst] in *. rewrite concat_app, IH. f_equal.
  destruct (match_ pattern cur); [by rewrite concat_cons, app_nil_r|done].
Qed.

(** The lines written in all rounds, as [grep_loop] of Grep.v has their bytes. *)
Fixpoint round_lines (n : nat) (pattern buf src : bytes) : list bytes :=
  match n with
  | O => []
  | S n =>
      let k := Nat.min (1024 - length buf - 1) (length src) in
      if decide (k = O) then []
      else
        let a := buf ++ take k src in
        scan_lines pattern [] a ++
          round_lines n pattern (if (grep_scan pattern [] a).2 then (grep_scan pattern [] a).1.2 else []) (drop k src)
  end.

Lemma round_lines_concat n pattern : forall buf src out, grep_loop n Nat.min pattern buf src = Some out ->
  concat (round_lines n pattern buf src) = out.
Proof.
  induction n as [|n IH]; intros buf src out E; [done|]. cbn [grep_loop round_lines] in *. cbv zeta. case_decide; [by injection E as <-|].
  set (a := buf ++ take _ src) in *. pose proof (scan_lines_concat pattern a []) as Es.
  destruct (grep_scan pattern [] a) as [[o l] f]. cbn [fst snd] in *.
  destruct (grep_loop n Nat.min pattern (if f then l else []) _) as [out'|] eqn:El; [|done]. injection E as <-.
  rewrite concat_app, Es. f_equal. by apply IH.
Qed.

Section runs.
Context (root cwd : place).

Lemma run_write_all {A} ls (k : prog A) t o : run root cwd (write_all ls k) (t, o) = run root cwd k (t, o ++ map (pair 1) ls).
Proof.
  revert o. induction ls as [|l ls IH]; intros o; [by cbn; rewrite app_nil_r|]. cbn [write_all run serve]. rewrite IH. cbn [map]. by rewrite <- app_assoc.
Qed.

(** The bytes that wait and those of the file, between two rounds. *)
Definition pending_ok (buf src : bytes) : Prop :=
  Forall (fun c => c <> 0) (buf ++ src) /\ (10 ∉ buf) /\ (length buf <= 1022)%nat /\ short_lines 1022 0 (buf ++ src).

Lemma grep_round pattern buf src k : pending_ok buf src -> k = Nat.min (1024 - length buf - 1) (length src) -> k <> O ->
  let a := buf ++ take k src in
  pending_ok (if (grep_scan pattern [] a).2 then (grep_scan pattern [] a).1.2 else []) (drop k src).
Proof.
  intros (H0 & Hn & Hb & Hs) Hk Hne a. pose proof (proj1 (Forall_app _ _ _) H0) as [H0b H0s].
  assert (Ea : buf ++ src = a ++ drop k src) by (unfold a; by rewrite <- app_assoc, take_drop).
  assert (H0a : Forall (fun c => c <> 0) a) by (apply Forall_app; split; [done|by apply Forall_take]).
  rewrite Ea in Hs. destruct (grep_scan_left pattern a [] H0a) as (w & Ew & Ef & _ & Hl).
  destruct (grep_scan_short pattern 1022 a [] (drop k src) H0a ltac:(cbn; lia) Hs) as [Hll Hls].
  specialize (Hl ltac:(apply not_elem_of_nil)). destruct (grep_scan pattern [] a) as [[o l] f]. cbn [fst snd] in *. subst f.
  case_bool_decide as Hin.
  - cbn [app] in Ew. assert (H0l : Forall (fun c => c <> 0) l) by (rewrite Ew in H0a; by apply Forall_app in H0a as [_ ?]).
    split_and!; [apply Forall_app; split; [done|by apply Forall_drop]|done|done|by apply short_lines_prefix].
  - assert (Ed : drop k src = []).
    { apply drop_ge. destruct (short_lines_app 1022 a 0 _ Hs Hin) as [[Ea0|Hle] _].
      - apply (f_equal length) in Ea0. unfold a in Ea0. rewrite length_app, length_take in Ea0. cbn [length] in Ea0. lia.
      - unfold a in Hle. rewrite length_app, length_take in Hle. lia. }
    rewrite Ed. split_and!; [constructor|apply not_elem_of_nil|cbn; lia|done].
Qed.

Lemma run_grep n pattern c nu ty up : forall off buf t o fd, (length (drop off c) < n)%nat -> (off <= length c)%nat -> (fd < length t)%nat ->
  pending_ok buf (drop off c) ->
  run root cwd (grep_prog n pattern (Z.of_nat fd) buf) (<[fd := Some (Open_ (NFile nu ty c :: up) off)]> t, o) =
    Some (Some tt, (<[fd := Some (Open_ (NFile nu ty c :: up) (length c))]> t, o ++ map (pair 1) (round_lines n pattern buf (drop off c)))).
Proof.
  induction n as [|n IH]; intros off buf t o fd Hn Hoff Hlt Hp; [lia|]. cbn [grep_prog round_lines]. pose proof Hp as (_ & _ & Hb & _).
  rewrite run_read_file by (done || lia). cbv zeta. unfold slice. cbn [fst snd].
  replace (Z.to_nat (1024 - Z.of_nat (length buf) - 1)) with (1024 - length buf - 1)%nat by lia. rewrite length_take.
  set (k := Nat.min (1024 - length buf - 1) (length (drop off c))) in *. rewrite length_drop in Hn. pose proof (length_drop c off) as Hd.
  case_decide as Hk.
  - rewrite Hk. cbn [Z.of_nat Z.ltb Z.compare run map]. rewrite app_nil_r, Nat.add_0_r.
    assert (off = length c) as -> by lia. done.
  - rewrite (proj2 (Z.ltb_lt _ _)) by lia. rewrite run_write_all.
    assert (Et : take (1024 - length buf - 1) (drop off c) = take k (drop off c)).
    { unfold k. destruct (decide (1024 - length buf - 1 <= length (drop off c))%nat); [by rewrite Nat.min_l|]. rewrite Nat.min_r, !take_ge by lia. done. }
    rewrite Et. rewrite IH; rewrite <- ?drop_drop; try done; [|rewrite !length_drop; lia|lia|by apply (grep_round pattern buf (drop off c) k)].
    rewrite map_app, <- app_assoc. done.
Qed.
End runs.

(** What grep prints for a text: its lines that match. *)
Definition matching (pattern c : bytes) : bytes := (grep_scan pattern [] c).1.1.
Definition greppable (c : bytes) : Prop := Forall (fun x => x <> 0) c /\ short_lines 1022 0 c.

Lemma pending_start c : greppable c -> pending_ok [] c.
Proof. intros [H0 Hs]. split_and!; [done|apply not_elem_of_nil|cbn; lia|done]. Qed.

(** [grep pattern file...] prints the lines of the files that match, in their
    order, and closes what it opens. *)
Theorem grep_prints root cwd pattern files t n : files <> [] -> (1 <= free t)%nat ->
  Forall (fun arg => exists nu ty c up, resolve root cwd arg = Some (NFile nu ty c :: up) /\ greppable c /\ (length c < n)%nat) files ->
  exists out, run root cwd (main n (pattern :: files)) (t, []) = Some (None, (t, map (pair 1) out)) /\
    concat out = concat (map (fun arg => match resolve root cwd arg with Some (NFile _ _ c :: _) => matching pattern c | _ => [] end) files).
Proof.
  intros Hne Hf Hall. exists (concat (map (fun arg => match resolve root cwd arg with Some (NFile _ _ c :: _) => round_lines n pattern [] c | _ => [] end) files)).
  split.
  - destruct files as [|f files]; [done|]. unfold main.
    rewrite (run_each_file root cwd (str "grep") _ (fun _ c => map (pair 1) (round_lines n pattern [] c))); [|done|].
    + rewrite app_nil_l, concat_map, map_map. do 4 f_equal. apply map_ext. intros arg. by destruct (resolve root cwd arg) as [[|[]]|].
    + eapply Forall_impl; [exact Hall|]. intros arg (nu & ty & c & up & Hr & Hg & Hn). exists nu, ty, c, up. split; [done|].
      intros t' o' fd nu' ty' up' Hlt. rewrite run_grep by (rewrite ?drop_0; try done; try lia; by apply pending_start). by rewrite drop_0.
  - clear Hne Hf. induction Hall as [|arg argv (nu & ty & c & up & Hr & Hg & Hn) _ IH]; [done|]. cbn [map concat]. rewrite Hr, concat_app, IH. f_equal.
    apply round_lines_concat. destruct (pending_start c Hg) as (H0 & Hn0 & Hb & Hs). by apply (grep_loop_spec pattern n [] c).
Qed.

(** The lines of a file that start with "a". *)
Definition grep_dir : node := NDir 1 1 [Some (2, str "names", NFile 2 T_FILE (str "ann" ++ [10] ++ str "bob" ++ [10] ++ str "art" ++ [10]))].

Lemma grep_prints_witness : exists out,
  run [grep_dir] [grep_dir] (main 100 [str "^a"; str "names"]) (replicate 3 (Some Term) ++ replicate 13 None, []) =
    Some (None, (replicate 3 (Some Term) ++ replicate 13 None, map (pair 1) out)) /\
  concat out = str "ann" ++ [10] ++ str "art" ++ [10].
Proof.
  destruct (grep_prints [grep_dir] [grep_dir] (str "^a") [str "names"] (replicate 3 (Some Term) ++ replicate 13 None) 100) as (out & E & Eo).
  - done.
  - vm_compute. lia.
  - constructor; [|constructor]. eexists _, _, _, _. split; [by vm_compute|]. split; [split|].
    + by repeat constructor.
    + apply (bool_decide_unpack (short_lines 1022 0 _)). by vm_compute.
    + vm_compute. lia.
  - exists out. split; [exact E|]. rewrite Eo. by vm_compute.
Defined.
