(* ===== verification/Small.v ===== *)
(** echo.c, rm.c, mkdir.c, ln.c, kill.c, sleep.c, zombie.c, forktest.c and init.c: small programs.

    The arguments are those after the name of the program.  They are run in a
    world of processes, where a child runs until it exits before its parent goes
    on; what the calls answer for files is a parameter. *)
From S2P Require Import Prelude Layout CString Ulib User Text.

(** * The programs *)

Fixpoint echo (argv : list bytes) : prog unit :=
  match argv with
  | [] => Exit_
  | arg :: argv' =>
      print (str "%s%s") [PStr (Some arg); PStr (Some (match argv' with [] => [10] | _ => [32] end))] (echo argv')
  end.

(** The loop of rm.c and of mkdir.c: until a call fails. *)
Fixpoint each_arg (f : bytes -> sys Z) (msg : bytes -> bytes) (argv : list bytes) : prog unit :=
  match argv with
  | [] => Exit_
  | arg :: argv =>
      call* r := f arg in
      if r <? 0 then call* _ := Write 2 (msg arg) in Exit_
      else each_arg f msg argv
  end.
Definition rm (argv : list bytes) : prog unit :=
  match argv with
  | [] => call* _ := Write 2 (str "Usage: rm files..." ++ [10]) in Exit_
  | _ => each_arg Unlink (fun a => default [] (printf (str "rm: %s failed to delete" ++ [10]) [PStr (Some a)])) argv
  end.
Definition mkdir (argv : list bytes) : prog unit :=
  match argv with
  | [] => call* _ := Write 2 (str "Usage: mkdir files..." ++ [10]) in Exit_
  | _ => each_arg Mkdir (fun a => default [] (printf (str "mkdir: %s failed to create" ++ [10]) [PStr (Some a)])) argv
  end.

Definition ln (argv : list bytes) : prog unit :=
  match argv with
  | [old; new] =>
      call* r := Link old new in
      if r <? 0 then
        call* _ := Write 2 (default [] (printf (str "link %s %s: failed" ++ [10]) [PStr (Some old); PStr (Some new)])) in Exit_
      else Exit_
  | _ => call* _ := Write 2 (str "Usage: ln old new" ++ [10]) in Exit_
  end.

Fixpoint kill_each (argv : list bytes) : prog unit :=
  match argv with [] => Exit_ | arg :: argv => call* _ := Kill (atoi arg) in kill_each argv end.
Definition kill (argv : list bytes) : prog unit :=
  match argv with
  | [] => call* _ := Write 2 (str "usage: kill pid..." ++ [10]) in Exit_
  | _ => kill_each argv
  end.

Definition sleep (argv : list bytes) : prog unit :=
  match argv with
  | [] => call* _ := Write 1 (str "No arguments provided." ++ [10]) in Exit_
  | arg :: _ => call* _ := Sleep (atoi arg) in Exit_
  end.

Definition zombie : prog unit :=
  call* pid := Fork in
  if 0 <? pid then call* _ := Sleep 5 in Exit_ else Exit_.

(** forktest.c: the loops that fork, that wait, and the rest. *)
Fixpoint fork_loop (n : nat) (k : nat) : prog nat :=
  match n with
  | O => Ret k
  | S n =>
      call* pid := Fork in
      if pid <? 0 then Ret k
      else if pid =? 0 then Exit_
      else fork_loop n (S k)
  end.
Fixpoint wait_loop (n : nat) : prog unit :=
  match n with
  | O => Ret tt
  | S n =>
      call* r := Wait in
      if r <? 0 then call* _ := Write 1 (str "wait stopped early" ++ [10]) in Exit_
      else wait_loop n
  end.
Definition N : nat := 1000.
Definition forktest : prog unit :=
  call* _ := Write 1 (str "fork test" ++ [10]) in
  do* n := fork_loop N O in
  if (n =? N)%nat then call* _ := Write 1 (str "fork claimed to work N times!" ++ [10]) in Exit_
  else
    do* _ := wait_loop n in
    call* r := Wait in
    if negb (r =? -1) then call* _ := Write 1 (str "wait got too many" ++ [10]) in Exit_
    else call* _ := Write 1 (str "fork test OK" ++ [10]) in Exit_.

(** init.c: the loop that waits for [pid], and that of [main], with bounds [m] and [n]. *)
Fixpoint init_wait (m : nat) (pid : Z) : prog unit :=
  match m with
  | O => Undef
  | S m =>
      call* wpid := Wait in
      if (0 <=? wpid) && negb (wpid =? pid) then call* _ := Write 1 (str "zombie!" ++ [10]) in init_wait m pid
      else Ret tt
  end.
Fixpoint init_loop (n m : nat) : prog unit :=
  match n with
  | O => Undef
  | S n =>
      call* _ := Write 1 (str "init: starting sh" ++ [10]) in
      call* pid := Fork in
      if pid <? 0 then call* _ := Write 1 (str "init: fork failed" ++ [10]) in Exit_
      else if pid =? 0 then
        call* _ := Exec (str "sh") [str "sh"] in
        call* _ := Write 1 (str "init: exec sh failed" ++ [10]) in Exit_
      else
        do* _ := init_wait m pid in
        init_loop n m
  end.
Definition init (n m : nat) : prog unit :=
  call* fd := Open (str "console") O_RDWR in
  do* _ :=
    (if fd <? 0 then
       call* _ := Mknod (str "console") 1 1 in
       call* _ := Open (str "console") O_RDWR in
       Ret tt
     else Ret tt) in
  call* _ := Dup 0 in
  call* _ := Dup 0 in
  init_loop n m.

(** * Running them *)

(** A process in the table of the kernel: the entries that are free, its children
    that have exited, the next pid, and the calls made, with their arguments. *)
Inductive act :=
| AWrite (fd : Z) (s : bytes) | AUnlink (p : bytes) | AMkdir (p : bytes) | ALink (o n : bytes) | AMknod (p : bytes)
| AKill (pid : Z) | ASleep (n : Z) | AExec (argv : list bytes) | AOpen (p : bytes) | ADup (fd : Z).
Record pworld := mkPw { slots : nat; zombies : list Z; next_pid : Z; acts : list act }.
Definition did (a : act) (w : pworld) : pworld := mkPw (slots w) (zombies w) (next_pid w) (acts w ++ [a]).

Section world.
(** Which of the calls succeed. *)
Context (ok : act -> bool).
Definition res (a : act) : Z := if ok a then 0 else -1.

(** The children of a process that exits go to init, which waits for them. *)
Definition exited (parent child : pworld) (pid : Z) : pworld :=
  mkPw (slots child + length (zombies child)) (zombies parent ++ [pid]) (next_pid child) (acts child).

Fixpoint prun {A} (p : prog A) (w : pworld) : option (option A * pworld) :=
  match p with
  | Ret a => Some (Some a, w)
  | Exit_ => Some (None, w)
  | Undef => None
  | Call c k =>
      match c in sys R return (R -> pworld -> option (option A * pworld)) -> option (option A * pworld) with
      | Fork => fun go =>
          match slots w with
          | O => go (-1) w
          | S s =>
              let pid := next_pid w in
              match go 0 (mkPw s [] (pid + 1) (acts w)) with
              | Some (_, child) => go pid (exited w child pid)
              | None => None
              end
          end
      | Wait => fun go =>
          match zombies w with
          | [] => go (-1) w
          | pid :: zs => go pid (mkPw (S (slots w)) zs (next_pid w) (acts w))
          end
      | Write fd s => fun go => go (Z.of_nat (length s)) (did (AWrite fd s) w)
      | Unlink p => fun go => go (res (AUnlink p)) (did (AUnlink p) w)
      | Mkdir p => fun go => go (res (AMkdir p)) (did (AMkdir p) w)
      | Link o n => fun go => go (res (ALink o n)) (did (ALink o n) w)
      | Mknod p _ _ => fun go => go (res (AMknod p)) (did (AMknod p) w)
      | Kill pid => fun go => go (res (AKill pid)) (did (AKill pid) w)
      | Sleep n => fun go => go (res (ASleep n)) (did (ASleep n) w)
      | Exec _ argv => fun go => if ok (AExec argv) then Some (None, did (AExec argv) w) else go (-1) w
      | Open p _ => fun go => go (res (AOpen p)) (did (AOpen p) w)
      | Dup fd => fun go => go (res (ADup fd)) (did (ADup fd) w)
      | Close _ | Pipe | Read _ _ | Fstat _ | Chdir _ => fun _ => None
      end (fun r w => prun (k r) w)
  end.

(** * What they do *)

(** The pids of [m] children. *)
Definition pids (np : Z) (m : nat) : list Z := map (fun i => np + Z.of_nat i) (seq 0 m).

Lemma pids_S np m : pids np (S m) = np :: pids (np + 1) m.
Proof. unfold pids. cbn [seq map]. rewrite Z.add_0_r, <- seq_shift, map_map. f_equal. apply map_ext. lia. Qed.

(** The children of forktest exit at once. *)
Lemma run_fork_loop {B} n : forall k (f : nat -> prog B) w, 0 < next_pid w ->
  let m := Nat.min n (slots w) in
  prun (pbind (fork_loop n k) f) w =
    prun (f (k + m)%nat) (mkPw (slots w - m) (zombies w ++ pids (next_pid w) m) (next_pid w + Z.of_nat m) (acts w)).
Proof.
  induction n as [|n IH]; intros k f [[|sl] zs np ac] Hp; cbn [slots zombies next_pid acts] in *; cbv zeta;
    [cbn; by rewrite app_nil_r, ?Nat.add_0_r, Z.add_0_r..|].
  cbn [fork_loop pbind prun slots next_pid acts]. change (0 <? 0) with false. change (0 =? 0) with true. cbn [pbind prun].
  rewrite (proj2 (Z.ltb_ge _ _)) by lia. rewrite (proj2 (Z.eqb_neq _ _)) by lia. rewrite IH by (cbn; lia).
  unfold exited. cbn [slots zombies next_pid acts length]. rewrite Nat.add_0_r. cbn [Nat.min]. rewrite pids_S, <- app_assoc. cbn [app].
  f_equal; [f_equal; lia|]. f_equal; lia.
Qed.

Lemma run_wait_loop {B} zs : forall (f : unit -> prog B) w rest, Forall (fun z => 0 <= z) zs -> zombies w = zs ++ rest ->
  prun (pbind (wait_loop (length zs)) f) w = prun (f tt) (mkPw (slots w + length zs) rest (next_pid w) (acts w)).
Proof.
  induction zs as [|z zs IH]; intros f [sl zz np ac] rest Hz Hw; cbn [zombies] in Hw; subst zz.
  - cbn. by rewrite Nat.add_0_r.
  - apply Forall_cons in Hz as [Hz Hzs]. cbn [length wait_loop pbind prun zombies app]. rewrite (proj2 (Z.ltb_ge _ _)) by done.
    rewrite (IH f _ rest) by done. cbn [slots next_pid acts]. do 2 f_equal. lia.
Qed.

(** forktest.c on a kernel whose table has fewer than [N] free entries: every
    [fork] but the last succeeds, every child is waited for, and the table is as
    full as before. *)
Lemma forktest_passes w : (slots w < N)%nat -> zombies w = [] -> 0 < next_pid w ->
  prun forktest w = Some (None, mkPw (slots w) [] (next_pid w + Z.of_nat (slots w))
    (acts w ++ [AWrite 1 (str "fork test" ++ [10]); AWrite 1 (str "fork test OK" ++ [10])])).
Proof.
  intros Hs Hz Hp. destruct w as [sl zs np ac]. cbn [slots zombies next_pid acts] in *. subst zs. unfold forktest. cbn [prun did slots zombies next_pid acts].
  rewrite run_fork_loop by done. unfold did. cbn [slots zombies next_pid acts app Nat.add]. rewrite Nat.min_r by lia. rewrite (proj2 (Nat.eqb_neq _ _)) by lia.
  assert (Hl : length (pids np sl) = sl) by (unfold pids; by rewrite length_map, length_seq).
  rewrite <- Hl at 1. rewrite (run_wait_loop _ _ _ []); [|apply Forall_map, Forall_forall; intros; lia|by rewrite app_nil_r].
  cbn [prun zombies slots next_pid acts]. change (negb (-1 =? -1)) with false. cbn [prun did]. rewrite Hl. unfold did. cbn [slots zombies next_pid acts].
  rewrite <- app_assoc, Nat.sub_diag. done.
Qed.

(** rm.c removes its arguments in order, up to the first that cannot be removed, which it reports. *)
Fixpoint until_failure (f : bytes -> act) (args : list bytes) : list bytes * option bytes :=
  match args with
  | [] => ([], None)
  | a :: args => if ok (f a) then let r := until_failure f args in (a :: r.1, r.2) else ([], Some a)
  end.
Lemma rm_stops args w : args <> [] ->
  prun (rm args) w = Some (None, mkPw (slots w) (zombies w) (next_pid w) (acts w ++ map AUnlink (until_failure AUnlink args).1 ++
    match (until_failure AUnlink args).2 with
    | Some a => [AUnlink a; AWrite 2 (str "rm: " ++ a ++ str " failed to delete" ++ [10])]
    | None => []
    end)).
Proof.
  intros Hne. destruct args as [|a0 args]; [done|]. clear Hne. cbn [rm]. revert w. generalize (a0 :: args). clear. intros l.
  induction l as [|a l IH]; intros [sl zs np ac]; cbn [each_arg prun until_failure slots zombies next_pid acts map fst snd app].
  - by rewrite app_nil_r.
  - unfold res. destruct (ok (AUnlink a)); cbn [fst snd].
    + change (0 <? 0) with false. cbv iota. rewrite IH. unfold did. cbn [slots zombies next_pid acts map app]. by rewrite <- app_assoc.
    + change (-1 <? 0) with true. cbn [prun map app]. unfold did. cbn [slots zombies next_pid acts]. rewrite <- app_assoc. cbn [app].
      change (str "rm: %s failed to delete" ++ [10]) with (str "rm: " ++ [37; 115] ++ (str " failed to delete" ++ [10])).
      rewrite (printf_string (str "rm: ") (str " failed to delete" ++ [10]) a) by (apply (bool_decide_unpack _); exact I). done.
Qed.

(** init waits for the shell, and reports the other children that it waits for. *)
Lemma init_reaps {B} zs : forall m pid (f : unit -> prog B) w rest, (length zs < m)%nat -> pid ∉ zs -> Forall (fun z => 0 <= z) (zs ++ [pid]) ->
  zombies w = zs ++ pid :: rest ->
  prun (pbind (init_wait m pid) f) w = prun (f tt) (mkPw (slots w + S (length zs)) rest (next_pid w)
    (acts w ++ replicate (length zs) (AWrite 1 (str "zombie!" ++ [10])))).
Proof.
  induction zs as [|z zs IH]; intros [|m] pid f [sl zz np ac] rest Hm Hn Hz Hw; cbn in Hm; [lia| |lia|]; cbn [zombies] in Hw; subst zz; apply Forall_cons in Hz as [Hz Hzs].
  - cbn [init_wait pbind prun zombies app length replicate]. rewrite Z.eqb_refl, andb_false_r. cbn [pbind]. rewrite app_nil_r. do 2 f_equal. cbn. lia.
  - apply not_elem_of_cons in Hn as [Hn Hns]. cbn [init_wait pbind prun zombies app]. rewrite (proj2 (Z.leb_le _ _)), (proj2 (Z.eqb_neq _ _)) by (done || congruence).
    cbn [negb andb pbind prun did]. rewrite (IH m pid f _ rest) by (done || lia). unfold did. cbn [slots zombies next_pid acts length replicate].
    rewrite <- app_assoc. do 2 f_equal. lia.
Qed.
End world.

(** Run with room for three processes, forktest passes. *)
Example forktest_three : prun (fun _ => true) forktest (mkPw 3 [] 5 []) =
  Some (None, mkPw 3 [] 8 [AWrite 1 (str "fork test" ++ [10]); AWrite 1 (str "fork test OK" ++ [10])]).
Proof. by rewrite (forktest_passes _ (mkPw 3 [] 5 [])) by (reflexivity || (cbn; unfold N; lia)). Qed.
(** [echo a b]. *)
Example echo_ab : prun (fun _ => true) (echo [str "a"; str "b"]) (mkPw 0 [] 5 []) =
  Some (None, mkPw 0 [] 5 [AWrite 1 (str "a "); AWrite 1 (str "b" ++ [10])]).
Proof. vm_compute. reflexivity. Qed.
