(* ===== verification/Stat.v ===== *)
(** stat.c: the program that shows the blocks and extents of a file.

    What [fstat] leaves in [statObj] is an argument, [None] if it fails; it is
    that of [stati] in fs.c in the theorem. *)
From S2P Require Import Prelude Layout CString Ulib User Text Locks LogRep Fs.

Fixpoint print_extents (n : nat) (i : Z) (st : stat) (k : prog unit) : prog unit :=
  match n with
  | O => k
  | S n =>
      match st_extentz st !! Z.to_nat i with
      | None => Undef
      | Some e =>
          print (str "Extent No. %d Start Address: %d" ++ [10]) [PInt (i + 1); PInt (e_startingAddress e)]
            (print (str "Extent No. %d Length: %d" ++ [10]) [PInt (i + 1); PInt (e_length e)]
              (print_extents n (i + 1) st k))
      end
  end.

Fixpoint print_addrs (n : nat) (i : Z) (st : stat) (k : prog unit) : prog unit :=
  match n with
  | O => k
  | S n =>
      match st_addrs st !! Z.to_nat i with
      | None => Undef
      | Some a =>
          print (str "Disk Sector Block Direct Pointer Addresses for Block No. %d: %d" ++ [10]) [PInt (i + 1); PInt a]
            (print_addrs n (i + 1) st k)
      end
  end.

Definition type_and_size (name : bytes) (st : stat) (k : prog unit) : prog unit :=
  print (str "type: %s" ++ [10]) [PStr (Some name)] (print (str "size: %d" ++ [10]) [PInt (st_size st)] k).

(** [arg] is [argv[1]]. *)
Definition main (arg : bytes) (statObj : option stat) : prog unit :=
  call* fd := Open arg O_RDONLY in
  if fd <? 0 then print (str "stat failed: Cannot read file: %s" ++ [10]) [PStr (Some arg)] Exit_
  else
    match statObj with
    | None =>
        print (str "stat failed: Cannot get status information about: %s" ++ [10]) [PStr (Some arg)]
          (call* _ := Close fd in Exit_)
    | Some st =>
        print (str "Printing out stat information for: %s" ++ [10]) [PStr (Some arg)]
          (let close := call* _ := Close fd in Exit_ in
           if st_type st =? 1 then type_and_size (str "Directory") st close
           else if st_type st =? 3 then type_and_size (str "Device") st close
           else if st_type st =? 4 then type_and_size (str "Symlink") st close
           else if st_type st =? 5 then
             type_and_size (str "Extent File") st (print_extents (Z.to_nat (st_numExtents st)) 0 st close)
           else if st_type st =? 2 then
             type_and_size (str "Pointer-based File") st (print_addrs (Z.to_nat NDIRECT) 0 st close)
           else close)
    end.

(** * What it prints *)

(** The lines written by a program that opens files and prints. *)
Fixpoint said {A} (fd : Z) (p : prog A) : option (list bytes) :=
  match p with
  | Ret _ | Exit_ => Some []
  | Undef => None
  | Call c k =>
      match c in sys R return (R -> option (list bytes)) -> option (list bytes) with
      | Open _ _ => fun go => go fd
      | Close _ => fun go => go 0
      | Write _ s => fun go => l ← go (Z.of_nat (length s)); Some (s :: l)
      | _ => fun _ => None
      end (fun r => said fd (k r))
  end.

Definition num (z : Z) : bytes := printint (s32 z) 10 true.
Definition extent_lines (i : Z) (e : extent) : list bytes :=
  [str "Extent No. " ++ num (i + 1) ++ str " Start Address: " ++ num (e_startingAddress e) ++ [10];
   str "Extent No. " ++ num (i + 1) ++ str " Length: " ++ num (e_length e) ++ [10]].
Definition addr_line (i a : Z) : list bytes :=
  [str "Disk Sector Block Direct Pointer Addresses for Block No. " ++ num (i + 1) ++ str ": " ++ num a ++ [10]].
(** The lines of a list whose first element has number [i]. *)
Fixpoint numbered {A} (f : Z -> A -> list bytes) (i : Z) (l : list A) : list bytes :=
  match l with [] => [] | x :: l => f i x ++ numbered f (i + 1) l end.

(** A format with two numbers. *)
Lemma printf_two pre mid post a b : forallb (fun c => negb (c =? 37)) (pre ++ mid ++ post) = true ->
  printf (pre ++ [37; 100] ++ mid ++ [37; 100] ++ post) [PInt a; PInt b] = Some (pre ++ num a ++ mid ++ num b ++ post).
Proof.
  intros Hf. assert (Hall : Forall (fun c => c <> 37) (pre ++ mid ++ post)).
  { apply Forall_forall. intros c Hc%list_elem_of_In. rewrite forallb_forall in Hf. specialize (Hf c Hc). by apply negb_true_iff, Z.eqb_neq in Hf. }
  apply Forall_app in Hall as [Hp [Hm Hq]%Forall_app]. unfold printf.
  assert (Hskip : forall l fmt ap, Forall (fun c => c <> 37) l -> printf_from false (l ++ fmt) ap = out ← printf_from false fmt ap; Some (l ++ out)).
  { induction 1 as [|c l Hc Hl IH]; cbn [app]; [by destruct (printf_from false fmt ap)|]. cbn [printf_from negb]. rewrite (proj2 (Z.eqb_neq _ _) Hc), IH.
    by destruct (printf_from false fmt ap). }
  assert (Hnum : forall fmt ap z, printf_from false ([37; 100] ++ fmt) (PInt z :: ap) = out ← printf_from false fmt ap; Some (num z ++ out)) by done.
  rewrite Hskip, Hnum, Hskip, Hnum, <- (app_nil_r post), Hskip by done. cbn. by rewrite app_nil_r.
Qed.

Lemma said_print {A} fd fmt ap (k : prog A) l out : printf fmt ap = Some out -> said fd k = Some l -> said fd (print fmt ap k) = Some (out :: l).
Proof. intros E Hk. unfold print. rewrite E. cbn [default from_option said]. unfold id. by rewrite Hk. Qed.

Lemma said_extents fd st k l : said fd k = Some l -> forall n i, 0 <= i -> (Z.to_nat i + n <= length (st_extentz st))%nat ->
  said fd (print_extents n i st k) = Some (numbered extent_lines i (take n (drop (Z.to_nat i) (st_extentz st))) ++ l).
Proof.
  intros Hk. induction n as [|n IH]; intros i Hi Hn; [exact Hk|]. cbn [print_extents].
  destruct (lookup_lt_is_Some_2 (st_extentz st) (Z.to_nat i)) as [e He]; [lia|]. rewrite He, (drop_S _ _ _ He). cbn [take numbered extent_lines app].
  apply said_print; [exact (printf_two (str "Extent No. ") (str " Start Address: ") [10] _ _ eq_refl)|].
  apply said_print; [exact (printf_two (str "Extent No. ") (str " Length: ") [10] _ _ eq_refl)|].
  rewrite IH by lia. by replace (Z.to_nat (i + 1)) with (S (Z.to_nat i)) by lia.
Qed.

Lemma said_addrs fd st k l : said fd k = Some l -> forall n i, 0 <= i -> (Z.to_nat i + n <= length (st_addrs st))%nat ->
  said fd (print_addrs n i st k) = Some (numbered addr_line i (take n (drop (Z.to_nat i) (st_addrs st))) ++ l).
Proof.
  intros Hk. induction n as [|n IH]; intros i Hi Hn; [exact Hk|]. cbn [print_addrs].
  destruct (lookup_lt_is_Some_2 (st_addrs st) (Z.to_nat i)) as [a Ha]; [lia|]. rewrite Ha, (drop_S _ _ _ Ha). cbn [take numbered addr_line app].
  apply said_print; [exact (printf_two (str "Disk Sector Block Direct Pointer Addresses for Block No. ") (str ": ") [10] _ _ eq_refl)|].
  rewrite IH by lia. by replace (Z.to_nat (i + 1)) with (S (Z.to_nat i)) by lia.
Qed.

Definition heading (arg name : bytes) (size : Z) : list bytes :=
  [str "Printing out stat information for: " ++ arg ++ [10]; str "type: " ++ name ++ [10]; str "size: " ++ num size ++ [10]].

Lemma said_heading {fd arg name st k l} : said fd k = Some l ->
  said fd (print (str "Printing out stat information for: %s" ++ [10]) [PStr (Some arg)] (type_and_size name st k)) = Some (heading arg name (st_size st) ++ l).
Proof.
  intros Hk. unfold heading. cbn [app]. apply said_print.
  { exact (printf_string (str "Printing out stat information for: ") [10] arg ltac:(by apply (bool_decide_unpack _)) ltac:(by apply (bool_decide_unpack _))). }
  apply said_print; [exact (printf_string (str "type: ") [10] name ltac:(by apply (bool_decide_unpack _)) ltac:(by apply (bool_decide_unpack _)))|].
  by apply said_print.
Qed.

(** C25: [stat] on a file shows what the inode has: the start and the length of each
    of its extents, in order, or the addresses of its direct blocks. *)
Theorem stat_shows {S} ip i (s : fstate S) st0 fd arg : f_icache s !! ip = Some i -> 0 <= fd ->
  length (st_extentz st0) = 11%nat -> (11 <= length (i_extentz i))%nat -> (11 <= length (i_addrs i))%nat -> 0 <= i_numExtents i <= 11 ->
  i_type i = T_EXTENT \/ i_type i = T_FILE ->
  wp (stati ip st0) s (fun st s' => s' = s /\
    said fd (main arg (Some st)) = Some (
      if i_type i =? T_EXTENT then heading arg (str "Extent File") (i_size i) ++ numbered extent_lines 0 (take (Z.to_nat (i_numExtents i)) (i_extentz i))
      else heading arg (str "Pointer-based File") (i_size i) ++ numbered addr_line 0 (take (Z.to_nat NDIRECT) (i_addrs i)))).
Proof.
  intros Hi Hfd Hx Hix Hia Hn Ht. unfold stati, main. wp_step. unfold wp, geti. rewrite Hi. cbn [said].
  destruct Ht as [E|E]; rewrite E; cbn -[Z.to_nat main said heading numbered take drop].
  - destruct (decide _) as [Hd|Hd]; [|change (Z.to_nat NDIRECT) with 11%nat in Hd; lia]. cbn -[Z.to_nat said heading numbered take drop print type_and_size print_extents print_addrs].
    split; [done|]. rewrite (proj2 (Z.ltb_ge _ _)) by done. change (T_EXTENT =? 1) with false. cbv iota.
    set (st := mkStat _ _ _ _ _ _ _ _). etransitivity; [eapply said_heading, (said_extents fd st _ [])|]; [done|lia| |].
    + cbn [st_extentz st]. rewrite length_app, length_take, length_drop. lia.
    + cbn [st_extentz st st_size]. rewrite app_nil_r. change (Z.to_nat 0) with 0%nat. rewrite drop_0, take_app_le, take_take, Nat.min_id by (rewrite length_take; lia). done.
  - split; [done|]. rewrite (proj2 (Z.ltb_ge _ _)) by done.
    set (st := mkStat _ _ _ _ _ _ _ _). etransitivity; [eapply said_heading, (said_addrs fd st _ [])|]; [done|lia| |].
    + cbn [st_addrs st]. change (Z.to_nat NDIRECT) with 11%nat. rewrite length_app, length_take. lia.
    + cbn [st_addrs st st_size]. rewrite app_nil_r. change (Z.to_nat 0) with 0%nat. change (Z.to_nat NDIRECT) with 11%nat.
      rewrite drop_0, take_app_le, take_take, Nat.min_id by (rewrite length_take; lia). done.
Qed.

(** An inode with two extents. *)
Definition two_extents : inode :=
  mkInode 1 7 1 initsleeplock 1 T_EXTENT 0 0 1 1536 (replicate 13 0) (mkExtent 2 100 :: mkExtent 1 205 :: replicate 9 (mkExtent 0 0)) 2 0 0 0.

Lemma stat_shows_witness :
  wp (stati 0 (mkStat 0 0 0 0 0 (replicate 12 0) 0 (replicate 11 (mkExtent 0 0)))) (mkF tt [two_extents] (mkSuperblock 0 0 0 0 0 0 0) 1 0%nat) (fun st _ =>
    said 3 (main (str "f") (Some st)) = Some
      [str "Printing out stat information for: f" ++ [10]; str "type: Extent File" ++ [10]; str "size: 1536" ++ [10];
       str "Extent No. 1 Start Address: 100" ++ [10]; str "Extent No. 1 Length: 2" ++ [10];
       str "Extent No. 2 Start Address: 205" ++ [10]; str "Extent No. 2 Length: 1" ++ [10]]).
Proof.
  eapply wp_mono; [apply (stat_shows 0 two_extents _ _ 3 (str "f"))|]; [done|lia|done|cbn; lia|cbn; lia|cbn; lia|by left|].
  intros st s' [_ E]. rewrite E. vm_compute. reflexivity.
Defined.
