(* ===== verification/Dump.v ===== *)
(** proc.c [procdump], [printProcessTable] and spinlock.c [getcallerpcs]: what the kernel shows of its processes.

    [words] are the 32-bit words of kernel memory, and [ctx_ebp k] is
    [p->context->ebp] of entry [k] of the table. *)
From S2P Require Import Prelude Layout CString Locks LogRep Fs Proc Console.

(** * spinlock.c *)

(** The loop: the frames from [ebp] on, at most [n]. *)
Fixpoint caller_loop (words : Z -> Z) (n : nat) (ebp : Z) : list Z :=
  match n with
  | O => []
  | S n =>
      if (ebp =? 0) || (ebp <? 0x80000000) || (ebp =? 0xffffffff) then replicate (S n) 0
      else words (u32 (ebp + 4)) :: caller_loop words n (words ebp)
  end.
Definition getcallerpcs (words : Z -> Z) (v : Z) : list Z := caller_loop words 10 (u32 (v - 8)).

(** * proc.c *)

Definition state_name (st : procstate) : bytes :=
  match st with
  | UNUSED => str "unused" | EMBRYO => str "embryo" | SLEEPING => str "sleep "
  | RUNNABLE => str "runble" | RUNNING => str "run   " | ZOMBIE => str "zombie"
  end.

Fixpoint dump_pcs (l : list Z) : M console unit :=
  match l with
  | [] => ret tt
  | pc :: l => if pc =? 0 then ret tt else cprintf (Some (str " %p")) [AInt pc] ;; dump_pcs l
  end.
Fixpoint procdump (words : Z -> Z) (ctx_ebp : nat -> Z) (k : nat) (l : list proc) : M console unit :=
  match l with
  | [] => ret tt
  | p :: l =>
      (if bool_decide (p_state p = UNUSED) then ret tt
       else
         cprintf (Some (str "%d %s %s %d")) [AInt (p_pid p); AStr (Some (state_name (p_state p))); AStr (Some (p_name p)); AInt (p_priority p)] ;;
         (if bool_decide (p_state p = SLEEPING) then dump_pcs (getcallerpcs words (u32 (ctx_ebp k + 8))) else ret tt) ;;
         cprintf (Some [10]) []) ;;
      procdump words ctx_ebp (S k) l
  end.

Definition state_line (st : procstate) : bytes :=
  str "%d" ++ [9] ++ match st with
  | RUNNING => str "RUNNING" | ZOMBIE => str "ZOMBIE" | RUNNABLE => str "RUNNABLE"
  | EMBRYO => str "EMBRYO" | UNUSED => str "UNUSED" | SLEEPING => str "SLEEPING"
  end ++ [10].
(** The loop; its result is [foundProcessFlag]. *)
Fixpoint table_loop (processId : Z) (found : bool) (l : list proc) : M console bool :=
  match l with
  | [] => ret found
  | p :: l =>
      if p_pid p =? processId then cprintf (Some (state_line (p_state p))) [AInt (p_pid p)] ;; table_loop processId true l
      else table_loop processId found l
  end.
Definition printProcessTable (processId : Z) (l : list proc) : M console unit :=
  cprintf (Some ([10] ++ str "PID" ++ [9] ++ str "STATE" ++ [10])) [] ;;
  cprintf (Some (str "--------------------------------------" ++ [10])) [] ;;
  let* found := table_loop processId false l in
  if found then ret tt
  else cprintf (Some ([10] ++ str "Process id, %d, does not exist or no longer exists." ++ [10])) [AInt processId].

(** * The chain of frames *)

(** A stack of calls, the innermost first: the frame at [ebp] has the return
    address [pc] above the saved [ebp], and the last has a null one. *)
Fixpoint frames (words : Z -> Z) (ebp : Z) (pcs : list Z) : Prop :=
  match pcs with
  | [] => ebp = 0
  | pc :: pcs => 0x80000000 <= ebp /\ ebp + 4 < 0xffffffff /\ words (ebp + 4) = pc /\ frames words (words ebp) pcs
  end.

Lemma caller_loop_frames words pcs : forall n ebp, frames words ebp pcs -> caller_loop words n ebp = take n pcs ++ replicate (n - length pcs) 0.
Proof.
  induction pcs as [|pc pcs IH]; intros [|n] ebp Hf; try done; cbn [frames] in Hf.
  - by subst ebp.
  - destruct Hf as (H1 & H2 & H3 & H4). cbn [caller_loop take app length Nat.sub].
    rewrite (proj2 (Z.eqb_neq _ _)), (proj2 (Z.ltb_ge _ _)), (proj2 (Z.eqb_neq _ _)), u32_small, H3, (IH n) by (done || lia). done.
Qed.

(** [getcallerpcs] gives the return addresses of the ten innermost calls, filled up with 0. *)
Lemma getcallerpcs_correct words v pcs : frames words (u32 (v - 8)) pcs -> getcallerpcs words v = take 10 pcs ++ replicate (10 - length pcs) 0.
Proof. apply caller_loop_frames. Qed.

(** * What is printed *)

(** The characters of a number, and the text of a format. *)
Definition cnum (xx base : Z) (sign : bool) : bytes :=
  let neg := sign && (xx <? 0) in
  rev (map digit_lower (digits_rev 32 (if neg then u32 (- xx) else u32 xx) base) ++ (if neg then [45] else [])).
Fixpoint ctext (fmt : bytes) (args : list carg) : option bytes :=
  match fmt with
  | [] => Some []
  | c :: fmt =>
      if c =? 0 then None
      else if negb (c =? 37) then out ← ctext fmt args; Some (c :: out)
      else match fmt, args with
           | 100 :: fmt, AInt z :: args => out ← ctext fmt args; Some (cnum (s32 z) 10 true ++ out)
           | 112 :: fmt, AInt z :: args => out ← ctext fmt args; Some (cnum (s32 z) 16 false ++ out)
           | 115 :: fmt, AStr (Some s) :: args => out ← ctext fmt args; Some (cstring s ++ out)
           | _, _ => None
           end
  end.
Definition sent (l : bytes) : bytes := concat (map echo l).

Lemma sent_app l1 l2 : sent (l1 ++ l2) = sent l1 ++ sent l2.
Proof. unfold sent. by rewrite map_app, concat_app. Qed.

(** What a conversion prints, and the rest. *)
Lemma wp_puts_then l (m : M console unit) s out (Q : unit -> console -> Prop) : con_ok s ->
  (forall s1, con_ok s1 -> wp m s1 (fun _ s' => printed (sent out) s1 s')) ->
  (forall s', printed (sent (l ++ out)) s s' -> Q tt s') -> wp (cons_puts l ;; m) s Q.
Proof.
  intros Hok Hm HQ. apply wp_bind, wp_cons_puts; [done|]. intros s1 H1. eapply wp_mono; [apply (Hm s1), H1|]. intros [] s' H2.
  apply HQ. rewrite sent_app. by eapply printed_trans.
Qed.

Lemma wp_cprintf_from n : forall fmt args out s, (length fmt <= n)%nat -> ctext fmt args = Some out -> con_ok s ->
  wp (cprintf_from fmt args) s (fun _ s' => printed (sent out) s s').
Proof.
  induction n as [|n IH]; intros [|c fmt] args out s Hn Ht Hok; cbn in Hn; try lia.
  1,2: cbn in Ht |- *; simplify_eq; apply wp_ret; unfold printed, sent; cbn; rewrite app_nil_r; by split_and!.
  cbn [ctext cprintf_from] in *. destruct (c =? 0); [done|]. destruct (c =? 37) eqn:E; cbn [negb] in *; cycle 1.
  { destruct (ctext fmt args) as [o|] eqn:Eo; [|done]. cbn in Ht. simplify_eq. apply wp_bind, wp_consputc; [done|]. intros s1 H1.
    eapply wp_mono; [eapply (IH fmt args o); [lia|done|apply H1]|]. intros [] s' H2. unfold sent. cbn [map concat]. by eapply printed_trans. }
  destruct fmt as [|d fmt]; [done|]. cbn in Hn.
  assert (Hcase : (d = 100 \/ d = 112 \/ d = 115) /\ exists a args' o pre, args = a :: args' /\ ctext fmt args' = Some o /\ out = pre ++ o /\
    match a with AInt z => d <> 115 /\ pre = (if d =? 100 then cnum (s32 z) 10 true else cnum (s32 z) 16 false) | AStr (Some t) => d = 115 /\ pre = cstring t | _ => False end).
  { repeat case_match; simplify_eq; try done;
      (split; [by auto|]); destruct (ctext fmt _) as [o|] eqn:Eo; try done; cbn in Ht; simplify_eq; eexists _, _, o, _; split_and!; done. }
  destruct Hcase as [Hd (a & args' & o & pre & -> & Eo & -> & Ha)].
  assert (Hm : forall s1, con_ok s1 -> wp (cprintf_from fmt args') s1 (fun _ s' => printed (sent o) s1 s')) by (intros s1 H1; eapply IH; [lia|done|done]).
  destruct Hd as [-> |[-> | ->]]; cbn [Z.eqb Pos.eqb orb]; destruct a as [z|[t|]]; try done; destruct Ha as [Hd Hpre]; try done; subst pre; unfold printint;
    (eapply wp_puts_then; [done|exact Hm|]); intros s' Hs'; exact Hs'.
Qed.

Lemma wp_cprintf fmt args out s (Q : unit -> console -> Prop) : ctext fmt args = Some out -> con_ok s ->
  (forall s', printed (sent out) s s' -> Q tt s') -> wp (cprintf (Some fmt) args) s Q.
Proof. intros Ht Hok HQ. eapply wp_mono; [by eapply wp_cprintf_from|]. intros [] s'. apply HQ. Qed.

(** * The listings *)

Definition table_text (pid : Z) (l : list proc) : bytes :=
  let found := filter (fun p => p_pid p = pid) l in
  [10] ++ str "PID" ++ [9] ++ str "STATE" ++ [10] ++ str "--------------------------------------" ++ [10] ++
  (if bool_decide (found = []) then [10] ++ str "Process id, " ++ cnum (s32 pid) 10 true ++ str ", does not exist or no longer exists." ++ [10]
   else concat (map (fun p => cnum (s32 pid) 10 true ++ drop 2 (state_line (p_state p))) found)).

Lemma state_line_text st z : ctext (state_line st) [AInt z] = Some (cnum (s32 z) 10 true ++ drop 2 (state_line st)).
Proof. by destruct st. Qed.

Lemma wp_table_loop pid l : forall found s, con_ok s ->
  wp (table_loop pid found l) s (fun r s' => r = found || negb (bool_decide (filter (fun p => p_pid p = pid) l = [])) /\
    printed (sent (concat (map (fun p => cnum (s32 pid) 10 true ++ drop 2 (state_line (p_state p))) (filter (fun p => p_pid p = pid) l)))) s s').
Proof.
  induction l as [|p l IH]; intros found s Hok; cbn [table_loop].
  - apply wp_ret. split; [by destruct found|]. unfold printed, sent. cbn. rewrite app_nil_r. by split_and!.
  - destruct (Z.eqb_spec (p_pid p) pid) as [E|E].
    + rewrite filter_cons_True by done. cbn [map concat]. apply wp_bind. eapply wp_cprintf; [apply state_line_text|done|]. intros s1 H1.
      eapply wp_mono; [apply (IH true s1), H1|]. intros r s' [-> H2]. split; [by rewrite orb_true_r|]. rewrite sent_app, <- E at 1. by eapply printed_trans.
    + rewrite filter_cons_False by done. by apply IH.
Qed.

(** [printProcessTable] shows the state of every entry of the table with that
    pid, or says that there is none. *)
Lemma printProcessTable_shows pid l s : con_ok s -> wp (printProcessTable pid l) s (fun _ s' => printed (sent (table_text pid l)) s s').
Proof.
  intros Hok. unfold printProcessTable, table_text. set (fs := filter _ l). apply wp_bind. eapply wp_cprintf; [reflexivity|done|]. intros s1 H1.
  apply wp_bind. eapply wp_cprintf; [reflexivity|apply H1|]. intros s2 H2. apply wp_bind. eapply wp_mono; [apply (wp_table_loop pid l false s2), H2|].
  fold fs. intros r s3 [-> H3]. cbn [orb]. pose proof (printed_trans _ _ _ _ _ (printed_trans _ _ _ _ _ H1 H2) H3) as H4. rewrite <- !sent_app in H4.
  destruct (decide (fs = [])) as [E|E].
  - rewrite bool_decide_eq_true_2 by done. cbn [negb]. eapply wp_cprintf; [reflexivity|apply H3|]. intros s4 H5.
    rewrite E in H4. cbn [map concat] in H4. rewrite app_nil_r in H4. pose proof (printed_trans _ _ _ _ _ H4 H5) as H6. by rewrite <- sent_app in H6.
  - rewrite bool_decide_eq_false_2 by done. cbn [negb]. apply wp_ret. by rewrite <- app_assoc in H4.
Qed.

Fixpoint pcs_text (l : list Z) : bytes :=
  match l with [] => [] | pc :: l => if pc =? 0 then [] else [32] ++ cnum (s32 pc) 16 false ++ pcs_text l end.
Definition dump_line (words : Z -> Z) (ebp : Z) (p : proc) : bytes :=
  if bool_decide (p_state p = UNUSED) then []
  else cnum (s32 (p_pid p)) 10 true ++ [32] ++ cstring (state_name (p_state p)) ++ [32] ++ cstring (p_name p) ++ [32] ++ cnum (s32 (p_priority p)) 10 true ++
       (if bool_decide (p_state p = SLEEPING) then pcs_text (getcallerpcs words (u32 (ebp + 8))) else []) ++ [10].
Fixpoint dump_text (words : Z -> Z) (ctx_ebp : nat -> Z) (k : nat) (l : list proc) : bytes :=
  match l with [] => [] | p :: l => dump_line words (ctx_ebp k) p ++ dump_text words ctx_ebp (S k) l end.

Lemma printed_nil s : con_ok s -> printed (sent []) s s.
Proof. intros Hok. unfold printed, sent. cbn. rewrite app_nil_r. by split_and!. Qed.

Lemma wp_dump_pcs l : forall s, con_ok s -> wp (dump_pcs l) s (fun _ s' => printed (sent (pcs_text l)) s s').
Proof.
  induction l as [|pc l IH]; intros s Hok; cbn [dump_pcs pcs_text]; [by apply wp_ret, printed_nil|]. destruct (pc =? 0); [by apply wp_ret, printed_nil|].
  apply wp_bind. eapply wp_cprintf; [reflexivity|done|]. intros s1 H1. eapply wp_mono; [apply IH, H1|]. intros [] s' H2.
  pose proof (printed_trans _ _ _ _ _ H1 H2) as H3. rewrite <- sent_app, app_nil_r in H3. exact H3.
Qed.

(** [procdump] shows one line for every entry in use: its pid, state, name and
    priority, and the calls in which a sleeping process is. *)
Lemma procdump_shows words ctx_ebp l : forall k s, con_ok s -> wp (procdump words ctx_ebp k l) s (fun _ s' => printed (sent (dump_text words ctx_ebp k l)) s s').
Proof.
  induction l as [|p l IH]; intros k s Hok; cbn [procdump dump_text]; [by apply wp_ret, printed_nil|]. apply wp_bind.
  assert (Hline : wp (if bool_decide (p_state p = UNUSED) then ret tt
       else cprintf (Some (str "%d %s %s %d")) [AInt (p_pid p); AStr (Some (state_name (p_state p))); AStr (Some (p_name p)); AInt (p_priority p)] ;;
         (if bool_decide (p_state p = SLEEPING) then dump_pcs (getcallerpcs words (u32 (ctx_ebp k + 8))) else ret tt) ;; cprintf (Some [10]) []) s
    (fun _ s' => printed (sent (dump_line words (ctx_ebp k) p)) s s')).
  { unfold dump_line. destruct (bool_decide (p_state p = UNUSED)); [by apply wp_ret, printed_nil|].
    assert (Et : ctext (str "%d %s %s %d") [AInt (p_pid p); AStr (Some (state_name (p_state p))); AStr (Some (p_name p)); AInt (p_priority p)] =
      Some (cnum (s32 (p_pid p)) 10 true ++ [32] ++ cstring (state_name (p_state p)) ++ [32] ++ cstring (p_name p) ++ [32] ++ cnum (s32 (p_priority p)) 10 true ++ []))
      by reflexivity. rewrite app_nil_r in Et.
    apply wp_bind. eapply wp_cprintf; [exact Et|done|]. intros s1 H1. apply wp_bind. eapply (wp_mono _ _ (fun _ s' => printed (sent (if bool_decide (p_state p = SLEEPING) then pcs_text (getcallerpcs words (u32 (ctx_ebp k + 8))) else [])) s1 s')).
    { destruct (bool_decide (p_state p = SLEEPING)); [apply wp_dump_pcs, H1|apply wp_ret, printed_nil, H1]. }
    intros [] s2 H2. eapply wp_cprintf; [reflexivity|apply H2|]. intros s3 H3. pose proof (printed_trans _ _ _ _ _ H1 (printed_trans _ _ _ _ _ H2 H3)) as H4.
    rewrite <- !sent_app, <- !app_assoc in H4. exact H4. }
  eapply wp_mono; [exact Hline|]. intros [] s1 H1. eapply wp_mono; [apply IH, H1|]. intros [] s' H2. rewrite sent_app. by eapply printed_trans.
Qed.
